(* ===== verification/_CoqProject ===== *)
-Q . S2P
Prelude.v
AllocPool.v
FileIO.v
SplayTree.v
IntervalTree.v
Crc32.v
DataCoding.v
Protocol.v
Hashtab.v
Chain.v
Journal.v
HardlinkList.v
Queue.v
LockProtocol.v
KeyedQueue.v
Fibheap.v
FdCache.v
UserGroup.v
PosixFs.v
SlotTable.v
HashFile.v
Md5.v
Capability.v
Metadata.v
MetaPaths.v
MetaFiles.v
JournalFile.v
HardlinkFile.v
MetaTable.v
MetaLinks.v
MetaHash.v
VirtualDir.v
Dentry.v
DentryTree.v
DentryOps.v
DentryCreate.v
DentryCleanup.v
DentryCatalog.v
LocalCopy.v
Update.v
Reintegrate.v
