(* ===== verification/Prelude.v ===== *)
(** * zlomekFS: a verification library

    zlomekFS is a distributed file system.  The daemon [zfsd] (under [src/zfsd/])
    keeps a cache of the files of a volume on each node, records what was
    changed locally (interval trees for files, journals for directories) and
    exchanges changes with the volume master by remote calls over TCP.  This
    library models the data structures, the wire protocol and the concurrent
    parts the daemon is built on, and proves what the rest of the daemon relies
    on.

    ** Parts and files

    - [Prelude.v] (this file): machine integers ([u8], [u32], [u64] are
      reductions modulo a power of two), the result type [res] ([Ok], [Aborted]
      for [zfsd_abort] and undefined memory accesses, [OutOfFuel] for a loop that
      does not end within its fuel), its monad, shared lemmas and tactics.
    - [AllocPool.v]: [lib/alloc-pool/alloc-pool.c].  Elements are addresses; the
      owner check compiled in under ENABLE_CHECKING is kept.
    - [FileIO.v]: [full_read], [full_write] and [bytecmp] of [lib/util/util.c]
      over a class of system calls.
    - [SplayTree.v]: [lib/splay-tree/splay-tree.c], nodes with addresses.
    - [IntervalTree.v]: [lib/interval-tree/interval.c] on top of [SplayTree.v]
      and [FileIO.v].
    - [Crc32.v]: [lib/crc32/crc32.c].
    - [DataCoding.v]: [zfs-protocol/data-coding.c], one encoder and one decoder
      per structure of [zfs-prot.h].
    - [Protocol.v]: the procedures of [zfs-prot.def], the client stubs of
      [zfs-prot.c] and the receiving side of [network/network.c].
    - [Hashtab.v]: [lib/hashtab/hashtab.c]; hash and comparison functions are
      parameters under the class [HtabKeys].
    - [Chain.v], [Journal.v], [HardlinkList.v]: [fs-entities/journal/journal.c]
      and [fs-entities/hardlink/hardlink-list.c].  [Chain.v] has the explicit
      heap, the doubly linked chain and the table that both files repeat; the
      class [Keyed] is what an entry type provides.
    - [Queue.v]: [lib/queue/queue.c], and the threads using a queue as a step
      relation.
    - [LockProtocol.v]: dentry locks of [fs-entities/handle/fh.c] and
      [fs-entities/cap/cap.c] as a step relation.
    - [Fibheap.v]: [lib/fibheap/fibheap.c], every pointer of a node kept in an
      explicit heap; the abstract content is a forest of rose trees.
      [KeyedQueue.v] is the interface it implements.
    - [FdCache.v]: the cache of open descriptors, which [fs-entities/file/file.c]
      has for local files and [fs-entities/metadata/metadata.c] for metadata
      files, over any implementation of [KeyedQueue.v].
    - [Capability.v]: [fs-entities/cap/cap.c] except [internal_cap_lock]; a file
      handle with its list of capabilities, on top of [FdCache.v] and [Md5.v].
    - [UserGroup.v]: [fs-entities/user-group/user-group.c], users, groups and
      the mappings between the identifiers of a node and those of the file
      system.
    - [PosixFs.v]: the system calls on files the code uses, over a world of
      inodes, names and descriptors with a script of outcomes: every call can
      fail, be interrupted or transfer less than was asked for.
    - [SlotTable.v], [HashFile.v]: [lib/hashfile/hashfile.c], hash tables in
      files.  [SlotTable.v] specifies an open-addressing table as a finite map;
      the class [HfileKeys] states what the parameters of a file promise.
    - [Md5.v]: [lib/md5/md5.c].
    - [Metadata.v], [MetaPaths.v]: of [fs-entities/metadata/metadata.c] the
      layout of the structures, the opening of the hash files that keep them,
      and the paths of metadata files.
    - [MetaFiles.v]: opening, moving and removing the metadata files of one
      file, and writing a chain of entries to a stream ([open_fh_metadata],
      [remove_file_and_path], [write_chain]).  [JournalFile.v] and
      [HardlinkFile.v] are the journal and the hard link file on it.
    - [MetaTable.v]: the operations on the tables of metadata and of mappings
      from file handles of the master to local ones ([lookup_metadata] to
      [metadata_n_hardlinks]), over any tables with the interface [HashTable] and
      the laws [TableLaws]; a finite map is the simplest instance.
      [MetaHash.v] is the instance by the hash files of [HashFile.v] with the
      layouts of [Metadata.v].  [MetaLinks.v] has the theorems about the hard
      links of a file across the table, the file and the list.
    - [VirtualDir.v]: the virtual directories of [fs-entities/handle/fh.c], the tree
      above the mount points of the volumes, and the mounting and unmounting of
      volumes ([volume_set_common_info] and [volume_destroy] of
      [fs-entities/volume/volume.c]).
    - [Dentry.v]: file handles and directory entries of [fs-entities/handle/fh.c], as
      one thread runs them: lookup, creation, linking, moving and destruction, and
      the queue from which unused entries are freed, over any queue with the interfaces
      of [KeyedQueue.v].  [DentryTree.v] has the two structures the entries form
      (the tree with the table of names, the rings of hard links) and what single steps
      do to them; [DentryOps.v] the invariant [tables_ok] of the tables, the queue and
      destruction; [DentryCreate.v] creation, links and moves; [DentryCleanup.v] the
      thread that frees entries; [DentryCatalog.v] the specification, a catalog
      of entries, and the refinement.
    - [LocalCopy.v]: a regular file that is cached from a master: the state
      [lfile] of its handle (the bytes, size, versions, flags and the two interval
      trees), the file [mfile] at the master, and the scripts that say how
      system calls, writes of metadata and remote calls go; reading, writing,
      digests and [zfs_write] of [fs-entities/file/file.c], and the interval files
      of [metadata.c].
    - [Update.v], [Reintegrate.v]: the part of [update/update.c] and [update.h]
      about the contents of regular files, on that state, and [zfs_read].

    ** What the theorems show

    - Wire: every call and result structure within its limits survives encoding
      and decoding ([call_roundtrip], [results_roundtrip]).  A connection whose
      packets declare lengths of at least 4 and below 2^31 + 12 is read within the
      buffers, however the bytes are cut, and a server function runs only on a
      sufficiently authenticated connection ([receive_total_and_authorised],
      [next_read_in_bounds]); any other length lets the peer overrun a buffer
      ([bad_length_overflows]).
    - Sets of bytes: an interval tree is the set of points it covers, and
      insertion, deletion, union, difference, intersection, complement and the
      file format act on that set.
    - Finite maps: splay trees and hash tables refine finite maps; probing
      visits every slot, so a search ends.
    - Journals and hardlink lists refine a list of entries and a set of links;
      every entry and string is freed exactly once.
    - Threads: queues deliver first in, first out and lose no wake-up; the user
      counters of a dentry lock count the threads that hold it.
    - Priority queue: a Fibonacci heap keeps a multiset of keyed nodes and
      extracts a least one; a node of degree [d] has at least [fib (d + 2)]
      descendants, so the table of degrees of [fibheap_consolidate] is large
      enough in every heap the operations can make ([fibheap_queue],
      [fibheap_replace_delete], [fibheap_degree_bound]); deleting a heap frees every node once.
    - Open files: a handle whose generation is current has its descriptor open
      on its own file, in every state that opens, closes, evictions and the rest
      of the process can reach ([open_handles_are_safe]); [cleanup_closes_served].
    - Capabilities: the lists, counters and digests implement a map from flags
      to a digest and a number of clients, the file is closed with the last
      capability ([capability_refines]), and only capabilities that were issued are
      accepted ([accepted_capability_was_issued]).
    - Users and groups: a second reading of a configuration keeps what both
      readings name and removes the rest ([principals_reread]); translating an
      identifier follows the mapping ([user_mapping_translates]).
    - Hash files: any sequence of operations acts as on a finite map; an expansion
      that fails before the new file is complete leaves the table as it was, and
      what happens afterwards depends on [dup2] and [rename]; a file that is opened
      again has the same contents ([hfile_refines_map], [hfile_expand_faults],
      [metadata_file_lifecycle]); no two metadata files share a path.
    - Journals on disk: what [write_journal] writes [read_journal] reads
      ([write_read_journal]); a crash loses at most the entry that was not confirmed,
      as long as no entry is added behind one that failed
      ([journal_survives_crash], [confirmed_behind_torn_lost]).
    - Metadata: the hash files hold structures as a finite map
      ([hash_file_holds_structures]); a mapping that is found leads to the
      metadata of a file of its generation ([mapping_leads_to_its_file]), one that
      was set is found ([mapping_is_found]); hard links are read as they were
      written, in whichever place they fit ([hard_links_kept]).
    - Mount points: after any sequence of operations on volumes, with no directory in
      use meanwhile, the virtual directories are those above the mount points, and
      that of a mount point leads to the volume mounted there last
      ([virtual_tree_follows_mounts]).
    - Directory entries: whatever a client does with entries, the tables of handles,
      names and hard links and the cleanup queue stay consistent, and the entries are
      those of the catalog ([dentries_refine_catalog]).  A client sees to it that names
      are free, that a directory is not moved below itself and that nobody has a lock on what is
      destroyed.
    - Digests: [md5_pieces] relates the buffered computation to the digest of
      the whole message.
    - Cached files: bytes that are marked up to date and not modified are
      those of the master.  [zfs_write_keeps_promise] and
      [update_file_clear_updated_tree_safe] keep this; an update of an
      unmodified copy without short islands of up-to-date bytes, and under the other
      conditions of [plain_copy], ends with the file of the master
      ([update_contents_complete]), a reintegration with the local changes at
      the master ([reintegrate_file_blocks_ok]); [update_p_regular] is the
      decision between the two.
    - Deviations: theorems whose names say what goes wrong
      ([short_length_overflows_buffer], [bad_length_overflows], [interval_tree_complement_overshoots],
      [full_read_stale_eintr_loops], [encode_string_failure_desync],
      [htab_empty_keeps_counters], [hardlink_list_length_stale],
      [queue_nodes_leak], [lock_exclusion_violated], [cap_lock_starves],
      [fibheap_delete_zero_key], [renamed_principal_lost],
      [mapping_reread_loses], [insert_error_fills_table], [confirmed_behind_torn_lost],
      [joined_blocks_stay_stale], [zfs_read_returns_stale_byte],
      [empty_file_rescheduled], [reintegration_version_goes_back],
      [full_cache_leaks], [no_random_bytes_crash], [closed_directory_still_accepted],
      [flush_journal_short_close], [stale_master_loses_mapping],
      [file_links_skip_metadata], [unmounted_volume_dangles],
      [kept_directory_looks_deleted], [cleanup_frees_nothing])
      prove what the code does on inputs where it departs from its intent.

    ** Bounds and fuel

    Integers whose wrap-around matters are [Z] reduced to their width at every
    assignment.  Loops that are not structural take fuel: the number of nodes of
    a tree plus one, the size of a hash table (every probe sequence visits each
    slot once), the length of a buffer or of a chain.  The theorems show that
    the fuel is enough, since [OutOfFuel] is not [Ok]; the exceptions are the
    theorems that a loop does not end, which quantify over all fuels.

    ** Not modelled

    Operations on directories, attributes and special files ([dir.c] and the
    rest of [file.c]), the update of directories, conflicts and the queues of
    the update threads (the rest of [update.c]), the
    loading of interval files and [get_local_path_from_metadata] ([metadata.c]), the
    lookup of file handles in [get_capability] and [find_capability], of conflicts and paths
    in [fh.c], the tables of volumes and nodes apart from mount points.  In [Capability.v] the volume of the
    file has a local path.  Access modes of descriptors are not modelled.  In [Dentry.v]
    a wait for another thread does not end, and what other files report is a script;
    its theorems are about entries that are created unlocked, outside conflict
    directories.  In [MetaTable.v] the two hash files and the other
    metadata files are in worlds of their own, the eviction of descriptors is left
    to [FdCache.v], the directories on the path of a file are created or not as one
    step, and a structure that the C code declares without a value has zeros where
    only its key is read.  In [LocalCopy.v] the network and the master are
    the environment: a remote call reads or changes the file at the master, fails,
    or is answered after something else happened.  The FUSE, Dokan, HTTP and D-Bus interfaces, the configuration
    reader, the logging library and the Wireshark dissector are glue around
    third-party code.  Start-up, signal handling and shutdown are not modelled.
    Mutexes have no effect on one thread and are left out there; in the step
    relations a step is the code run while the mutex is held. *)

From stdpp Require Export base list list_numbers option numbers sorting gmap relations.
From Stdlib Require Export ZArith Lia.

#[export] Set Default Goal Selector "!".

(** ** Machine-width integers *)

Declare Scope zfs_scope.
Delimit Scope zfs_scope with zfs.
#[global] Open Scope zfs_scope.
#[global] Open Scope Z_scope.

Definition UINT8_MAX : Z := 255.
Definition UINT32_MAX : Z := 4294967295.
Definition UINT64_MAX : Z := 18446744073709551615.

(** [wrap w z] is [z] reduced to an unsigned [w]-bit integer. *)
Definition wrap (w : Z) (z : Z) : Z := z mod 2 ^ w.

Notation "'u8' z" := (wrap 8 z) (at level 10, z at level 9) : zfs_scope.
Notation "'u32' z" := (wrap 32 z) (at level 10, z at level 9) : zfs_scope.
Notation "'u64' z" := (wrap 64 z) (at level 10, z at level 9) : zfs_scope.

Definition is_u32 (z : Z) : Prop := 0 <= z < 2 ^ 32.
Definition is_u64 (z : Z) : Prop := 0 <= z < 2 ^ 64.

(** ** Results of C functions that may call [zfsd_abort] or loop

    [Aborted] is a call of [zfsd_abort]; [OutOfFuel] is a loop whose fuel ran
    out, so a theorem that concludes [Ok _] also states termination. *)

Inductive res (A : Type) : Type :=
  | Ok (a : A)
  | Aborted
  | OutOfFuel.
Arguments Ok {A} a.
Arguments Aborted {A}.
Arguments OutOfFuel {A}.

#[global] Instance res_ret : MRet res := fun A a => Ok a.
#[global] Instance res_bind : MBind res := fun A B f m =>
  match m with
  | Ok a => f a
  | Aborted => Aborted
  | OutOfFuel => OutOfFuel
  end.

(** ** The development's hint databases and tactics *)

Create HintDb zfs.
Create HintDb zfs_arith.

(** Turn boolean comparisons in hypotheses and goal into propositions. *)
Ltac bool_to_prop :=
  repeat match goal with
  | H : _ && _ = true |- _ => apply andb_true_iff in H; destruct H
  | H : _ || _ = false |- _ => apply orb_false_iff in H; destruct H
  | H : negb _ = true |- _ => apply negb_true_iff in H
  | H : negb _ = false |- _ => apply negb_false_iff in H
  | H : (_ <? _) = true |- _ => apply Z.ltb_lt in H
  | H : (_ <? _) = false |- _ => apply Z.ltb_ge in H
  | H : (_ <=? _) = true |- _ => apply Z.leb_le in H
  | H : (_ <=? _) = false |- _ => apply Z.leb_gt in H
  | H : (_ =? _) = true |- _ => apply Z.eqb_eq in H
  | H : (_ =? _) = false |- _ => apply Z.eqb_neq in H
  end.

(** Case analysis on the first [if] or boolean test of the goal. *)
Ltac case_if :=
  match goal with
  | |- context [if ?b then _ else _] =>
      lazymatch type of b with bool => idtac end;
      let E := fresh "E" in destruct b eqn:E; bool_to_prop
  end.

Ltac case_if_in H :=
  match type of H with
  | context [if ?b then _ else _] =>
      lazymatch type of b with bool => idtac end;
      let E := fresh "E" in destruct b eqn:E; bool_to_prop
  end.

Ltac zbool := bool_to_prop; try lia; try congruence.

(** ** Generic lemmas *)

Lemma wrap_range (w z : Z) : 0 <= w -> 0 <= wrap w z < 2 ^ w.
Proof. intros. unfold wrap. apply Z.mod_pos_bound. lia. Qed.

Lemma wrap_small (w z : Z) : 0 <= z < 2 ^ w -> wrap w z = z.
Proof. intros. unfold wrap. by apply Z.mod_small. Qed.

#[export] Hint Resolve wrap_range wrap_small : zfs_arith.

Lemma wrap_add_l (w a b : Z) : wrap w (wrap w a + b) = wrap w (a + b).
Proof. unfold wrap. apply Zplus_mod_idemp_l. Qed.

Lemma wrap_sub_l (w a b : Z) : wrap w (wrap w a - b) = wrap w (a - b).
Proof. unfold wrap. apply Zminus_mod_idemp_l. Qed.

(** Continue after a sequence whose result is known. *)
Lemma bind_after {A B C : Type} (X : res A) (Y : A -> res B) (f : B -> res C) r :
  (x ← X; Y x) = Ok r -> (x ← X; y ← Y x; f y) = f r.
Proof. destruct X as [a| |]; cbn [mbind res_bind]; [|done|done]. by intros ->. Qed.

Section list_lemmas.
Context {A : Type}.
Implicit Types (l : list A) (x : A).

Lemma filter_all (P : A -> Prop) `{!forall x, Decision (P x)} l :
  (forall x, x ∈ l -> P x) -> filter P l = l.
Proof.
  induction l as [|x l IH]; intros HP; [done|].
  rewrite filter_cons_True by set_solver. rewrite IH by set_solver. done.
Qed.

Lemma filter_none (P : A -> Prop) `{!forall x, Decision (P x)} l :
  (forall x, x ∈ l -> ~ P x) -> filter P l = [].
Proof.
  induction l as [|x l IH]; intros HP; [done|].
  rewrite filter_cons_False by set_solver. apply IH. set_solver.
Qed.
End list_lemmas.

(** ** Little-endian byte strings *)

Fixpoint le_bytes (n : nat) (z : Z) : list Z :=
  match n with
  | O => []
  | S n => z mod 256 :: le_bytes n (z / 256)
  end.

Fixpoint le_value (l : list Z) : Z :=
  match l with
  | [] => 0
  | b :: l => b + 256 * le_value l
  end.

Lemma length_le_bytes n z : length (le_bytes n z) = n.
Proof. revert z; induction n; intros; simpl; auto. Qed.

Lemma le_value_bytes n z : le_value (le_bytes n z) = z mod 2 ^ (8 * Z.of_nat n).
Proof.
  revert z; induction n as [|n IH]; intros z; [by rewrite Z.mod_1_r|].
  cbn [le_bytes le_value]. rewrite IH, Nat2Z.inj_succ.
  replace (2 ^ (8 * Z.succ (Z.of_nat n))) with (256 * 2 ^ (8 * Z.of_nat n))
    by (rewrite Z.mul_succ_r, Z.pow_add_r by lia; lia).
  rewrite Z.rem_mul_r by lia. lia.
Qed.

Lemma le_bytes_range n z : Forall (fun b => 0 <= b < 256) (le_bytes n z).
Proof.
  revert z; induction n; intros; constructor; [apply Z.mod_pos_bound; lia|auto].
Qed.
