(* ===== verification/AllocPool.v ===== *)
(** Allocation pools: [src/zfsd/lib/alloc-pool/alloc-pool.c].

    A pool hands out fixed-size elements, carved from blocks obtained with
    [xmalloc].  An element is named by its address, here a natural number;
    [xmalloc] returns addresses that were never used before ([brk] is the next
    unused one).  The model keeps the free list, the counters and, because the
    source compiles it in under ENABLE_CHECKING, the owner mark of an element
    ([id] set by [pool_alloc], cleared by [pool_free], checked by [pool_free]):
    [in_use] is the list of the elements that carry the pool's [id]. *)

From S2P Require Import Prelude.

Abbreviation ptr := nat (only parsing).

Record alloc_pool := MkPool {
  elts_per_block : nat;
  free_list : list ptr;
  elts_allocated : nat;
  elts_free : nat;
  blocks_allocated : nat;
  in_use : list ptr;
  brk : ptr
}.

Definition create_alloc_pool (num : nat) : res alloc_pool :=
  if decide (num = 0)%nat then Aborted else Ok (MkPool num [] 0 0 0 [] 0).

(** The elements of a fresh block, in the order in which the loop of
    [pool_alloc] leaves them on the free list: the last element comes first. *)
Fixpoint push_block (n : nat) (block : ptr) (fl : list ptr) : list ptr :=
  match n with
  | O => fl
  | S n' => push_block n' (S block) (block :: fl)
  end.

Definition refill (pool : alloc_pool) : alloc_pool :=
  let n := elts_per_block pool in
  MkPool n (push_block n (brk pool) (free_list pool))
    (elts_allocated pool + n) (elts_free pool + n)
    (blocks_allocated pool + 1) (in_use pool) (brk pool + n).

(** The empty case after [refill] is the dereference of a null [free_list];
    it needs [elts_per_block] to be zero, which [create_alloc_pool] refuses. *)
Definition pool_alloc (pool : alloc_pool) : res (ptr * alloc_pool) :=
  let pool := match free_list pool with [] => refill pool | _ => pool end in
  match free_list pool with
  | [] => Aborted
  | header :: rest =>
      Ok (header,
            MkPool (elts_per_block pool) rest (elts_allocated pool)
              (elts_free pool - 1) (blocks_allocated pool)
              (header :: in_use pool) (brk pool))
  end.

Definition pool_free (pool : alloc_pool) (p : ptr) : res alloc_pool :=
  if decide (p ∈ in_use pool) then
    Ok (MkPool (elts_per_block pool) (p :: free_list pool)
          (elts_allocated pool) (elts_free pool + 1) (blocks_allocated pool)
          (filter (fun q => q <> p) (in_use pool)) (brk pool))
  else Aborted.

(** ** Invariant *)

Record pool_ok (pool : alloc_pool) : Prop := {
  pool_nodup : NoDup (free_list pool ++ in_use pool);
  pool_below : Forall (fun p => (p < brk pool)%nat) (free_list pool ++ in_use pool);
  pool_free_count : elts_free pool = length (free_list pool);
  pool_total : elts_allocated pool = length (free_list pool ++ in_use pool);
  pool_blocks : elts_allocated pool = (blocks_allocated pool * elts_per_block pool)%nat;
  pool_num : (0 < elts_per_block pool)%nat
}.

Lemma push_block_spec n block fl :
  push_block n block fl = reverse (seq block n) ++ fl.
Proof.
  revert block fl; induction n as [|n IH]; intros block fl; [done|].
  simpl. rewrite IH, reverse_cons, <-app_assoc. done.
Qed.

Lemma create_alloc_pool_ok num :
  (0 < num)%nat ->
  exists pool, create_alloc_pool num = Ok pool /\ pool_ok pool /\ in_use pool = [].
Proof.
  intros. unfold create_alloc_pool. rewrite decide_False by lia.
  eexists. split_and!; [done| |done]. split; simpl; auto; constructor.
Qed.

Lemma refill_ok pool : pool_ok pool -> free_list pool = [] -> pool_ok (refill pool).
Proof.
  intros [Hnd Hb Hf Ht Hk Hn] E. rewrite E in *. simpl in *.
  split; simpl; rewrite ?E, ?push_block_spec, ?app_nil_r.
  - apply NoDup_app. split_and!; [by rewrite reverse_Permutation; apply NoDup_seq| |done].
    intros x Hx Hin. rewrite elem_of_reverse, elem_of_seq in Hx.
    rewrite Forall_forall in Hb. specialize (Hb x Hin). lia.
  - rewrite Forall_app, !Forall_forall in *. split.
    + intros x. rewrite elem_of_reverse, elem_of_seq. lia.
    + intros x Hx. specialize (Hb x Hx). lia.
  - rewrite length_reverse, length_seq. lia.
  - rewrite length_app, length_reverse, length_seq. lia.
  - lia.
  - done.
Qed.

Lemma refill_free_list pool :
  (0 < elts_per_block pool)%nat -> free_list pool = [] -> free_list (refill pool) <> [].
Proof.
  intros Hn E. simpl. rewrite push_block_spec, E, app_nil_r.
  destruct (elts_per_block pool); [lia|]. simpl. rewrite reverse_cons.
  by destruct (reverse _).
Qed.

(** [pool_alloc] always succeeds on a well-formed pool; the element it returns
    was not in use, and the elements in use grow by exactly that element. *)
Lemma pool_alloc_ok pool :
  pool_ok pool ->
  exists p pool', pool_alloc pool = Ok (p, pool') /\ pool_ok pool' /\
    p ∉ in_use pool /\ in_use pool' = p :: in_use pool.
Proof.
  intros H.
  assert (exists q, (match free_list pool with [] => refill pool | _ => pool end = q) /\
            pool_ok q /\ free_list q <> [] /\ in_use q = in_use pool) as (q & Eq & Hq & Hne & Hu).
  { destruct (free_list pool) eqn:E.
    - eexists. split; [done|]. pose proof (pool_num _ H).
      split_and!; [by apply refill_ok|by apply refill_free_list|done].
    - eexists. split; [done|]. split_and!; [done|by rewrite E|done]. }
  unfold pool_alloc. rewrite Eq. rewrite <-Hu. clear Eq Hu.
  destruct Hq as [Hnd Hb Hf Ht Hk Hn].
  destruct (free_list q) as [|p rest] eqn:E; [done|].
  rewrite <-app_comm_cons, NoDup_cons in Hnd. destruct Hnd as [Hnin Hnd].
  eexists p, _. split_and!; [done| |set_solver|done].
  split; simpl in *; auto.
  - rewrite NoDup_app in *. destruct Hnd as (? & ? & ?). split_and!; [done|set_solver|].
    apply NoDup_cons. set_solver.
  - rewrite Forall_cons, Forall_app in *. rewrite Forall_cons. naive_solver.
  - lia.
  - rewrite Ht, !length_app. simpl. lia.
Qed.

(** Freeing an element in use succeeds and removes exactly that element. *)
Lemma pool_free_ok pool p :
  pool_ok pool -> p ∈ in_use pool ->
  exists pool', pool_free pool p = Ok pool' /\ pool_ok pool' /\
    (forall q, q ∈ in_use pool' <-> q ∈ in_use pool /\ q <> p).
Proof.
  intros [Hnd Hb Hf Ht Hk Hn] Hin. unfold pool_free. rewrite decide_True by done.
  eexists. split_and!; [done| |intros; simpl; rewrite list_elem_of_filter; tauto].
  apply list_elem_of_split in Hin as (l1 & l2 & E).
  assert (filter (fun q => q <> p) (in_use pool) = l1 ++ l2) as Ef.
  { rewrite E in *. apply NoDup_app in Hnd as (_ & _ & Hnd).
    apply NoDup_app in Hnd as (Hl1 & Hd & Hl2). apply NoDup_cons in Hl2 as [Hp Hl2].
    rewrite filter_app, filter_cons_False by tauto.
    rewrite !filter_all by set_solver. done. }
  assert (free_list pool ++ in_use pool ≡ₚ (p :: free_list pool) ++ l1 ++ l2) as Hp.
  { rewrite E. solve_Permutation. }
  split; simpl; rewrite ?Ef; auto.
  - by rewrite app_comm_cons, <-Hp.
  - by rewrite app_comm_cons, <-Hp.
  - rewrite Hf. lia.
  - rewrite Ht, Hp. done.
Qed.

(** Freeing an element that is not in use is caught: a double free aborts. *)
Lemma pool_free_not_in_use pool p : p ∉ in_use pool -> pool_free pool p = Aborted.
Proof. intros. unfold pool_free. by rewrite decide_False. Qed.
