(* ===== verification/FileIO.v ===== *)
(** Whole-buffer file input and output: [full_read], [full_write] and [bytecmp] of
    [src/zfsd/lib/util/util.c].

    [read] and [write] are system calls, so they are operations of the class
    [SysFile]: a call returns the bytes read (or the number written), which may
    be fewer than asked for, or fails with an error number.  As POSIX says, a
    successful call leaves [errno] alone.  [PlainFile] states what a regular
    file promises on top of that; [MemFile] is an instance of both. *)

From S2P Require Import Prelude.

Definition EINTR : Z := 4.
Definition EIO : Z := 5.

Inductive sysret (A : Type) : Type :=
  | Ret (a : A)
  | Err (e : Z).
Arguments Ret {A} a.
Arguments Err {A} e.

Class SysFile (F : Type) := {
  sys_read : F -> nat -> F * sysret (list Z);
  sys_write : F -> list Z -> F * sysret nat
}.

(** An open file and the thread's [errno]. *)
Record io (F : Type) := MkIo { file : F; errno : Z }.
Arguments MkIo {F} file errno.
Arguments file {F} i.
Arguments errno {F} i.

(** [total_read] is the length of [buf]; [None] is the result [false]. *)
Fixpoint full_read {F} `{SysFile F} (fuel : nat) (s : io F) (buf : list Z) (len : nat)
    : res (io F * option (list Z)) :=
  if decide (len <= length buf)%nat then Ok (s, Some buf)
  else
    match fuel with
    | O => OutOfFuel
    | S fuel =>
        match sys_read (file s) (len - length buf) with
        | (f, Ret []) =>
            if errno s =? EINTR then full_read fuel (MkIo f (errno s)) buf len
            else Ok (MkIo f (errno s), None)
        | (f, Ret bytes) => full_read fuel (MkIo f (errno s)) (buf ++ bytes) len
        | (f, Err e) =>
            if e =? EINTR then full_read fuel (MkIo f e) buf len
            else Ok (MkIo f e, None)
        end
    end.

(** [buf] is what is left to write. *)
Fixpoint full_write {F} `{SysFile F} (fuel : nat) (s : io F) (buf : list Z) : res (io F * bool) :=
  match buf with
  | [] => Ok (s, true)
  | _ =>
      match fuel with
      | O => OutOfFuel
      | S fuel =>
          match sys_write (file s) buf with
          | (f, Ret O) =>
              if errno s =? EINTR then full_write fuel (MkIo f (errno s)) buf
              else Ok (MkIo f (errno s), false)
          | (f, Ret n) => full_write fuel (MkIo f (errno s)) (drop n buf)
          | (f, Err e) =>
              if e =? EINTR then full_write fuel (MkIo f e) buf
              else Ok (MkIo f e, false)
          end
      end
  end.

(** [bytecmp]: are all bytes of the buffer equal to [byte]? *)
Definition bytecmp (p : list Z) (byte : Z) : bool :=
  forallb (fun s => s =? Z.land (u32 byte) 255) p.

(** What a regular file promises: the bytes not yet read, the bytes written so
    far, and a bound on the interruptions still to come. *)
Class PlainFile (F : Type) `{SysFile F} := {
  unread : F -> list Z;
  written : F -> list Z;
  interrupts : F -> nat;
  plain_read : forall f n, (0 < n)%nat ->
    match sys_read f n with
    | (f', Ret bytes) =>
        unread f = bytes ++ unread f' /\ written f' = written f /\
        (length bytes <= n)%nat /\ (interrupts f' <= interrupts f)%nat /\
        (unread f <> [] -> bytes <> [])
    | (f', Err e) =>
        e = EINTR /\ unread f' = unread f /\ written f' = written f /\
        (interrupts f' < interrupts f)%nat
    end;
  plain_write : forall f b, b <> [] ->
    match sys_write f b with
    | (f', Ret n) =>
        written f' = written f ++ take n b /\ unread f' = unread f /\
        (0 < n <= length b)%nat /\ (interrupts f' <= interrupts f)%nat
    | (f', Err e) =>
        e = EINTR /\ written f' = written f /\ unread f' = unread f /\
        (interrupts f' < interrupts f)%nat
    end
}.

Section plain.
Context {F : Type} `{PlainFile F}.
Implicit Types (s : io F) (f : F).

(** Enough fuel for a transfer of [n] bytes. *)
Definition io_fuel (s : io F) (n : nat) : nat := n + interrupts (file s).

Lemma full_read_ok fuel : forall s buf len,
  (io_fuel s (len - length buf) <= fuel)%nat ->
  (len <= length buf + length (unread (file s)))%nat -> (length buf <= len)%nat ->
  exists s', full_read fuel s buf len
      = Ok (s', Some (buf ++ take (len - length buf) (unread (file s)))) /\
    unread (file s') = drop (len - length buf) (unread (file s)) /\
    written (file s') = written (file s) /\
    (interrupts (file s') <= interrupts (file s))%nat.
Proof.
  unfold io_fuel. induction fuel as [|fuel IH]; intros s buf len Hf Hlen Hb; simpl.
  { rewrite decide_True by lia. exists s. replace (len - length buf)%nat with 0%nat by lia.
    by rewrite take_0, app_nil_r. }
  case_decide as Hd.
  { exists s. replace (len - length buf)%nat with 0%nat by lia. by rewrite take_0, app_nil_r. }
  pose proof (plain_read (file s) (len - length buf)) as Hr.
  destruct (sys_read (file s) (len - length buf)) as [f' [bytes|e]]; specialize (Hr ltac:(lia)).
  - destruct Hr as (Hu & Hw & Hn & Hi & Hne).
    destruct bytes as [|b bytes].
    { exfalso. apply Hne; [|done]. intros E. rewrite E in Hlen. simpl in Hlen. lia. }
    rewrite Hu, length_app in Hlen.
    destruct (IH (MkIo f' (errno s)) (buf ++ b :: bytes) len) as (s' & -> & Hu' & Hw' & Hi');
      simpl; rewrite ?length_app; simpl in *; try lia.
    exists s'. rewrite Hu', Hw', Hw, Hu.
    rewrite (app_comm_cons bytes), take_app_ge, drop_app_ge by (simpl; lia). simpl.
    replace (len - length buf - S (length bytes))%nat
      with (len - (length buf + S (length bytes)))%nat by lia.
    rewrite length_app. simpl. split_and!; [by rewrite <-app_assoc|done|done|lia].
  - destruct Hr as (-> & Hu & Hw & Hi). simpl.
    destruct (IH (MkIo f' EINTR) buf len) as (s' & -> & Hu' & Hw' & Hi'); simpl; try lia.
    { by rewrite Hu. }
    exists s'. simpl in *. rewrite Hu in *. rewrite Hw in *. split_and!; try done. lia.
Qed.

Lemma full_write_ok fuel : forall s buf,
  (io_fuel s (length buf) <= fuel)%nat ->
  exists s', full_write fuel s buf = Ok (s', true) /\
    written (file s') = written (file s) ++ buf /\
    unread (file s') = unread (file s) /\
    (interrupts (file s') <= interrupts (file s))%nat.
Proof.
  unfold io_fuel. induction fuel as [|fuel IH]; intros s buf Hf.
  { destruct buf; simpl in *; [|lia]. exists s. by rewrite app_nil_r. }
  destruct buf as [|b buf]; cbn [full_write].
  { exists s. by rewrite app_nil_r. }
  pose proof (plain_write (file s) (b :: buf)) as Hr.
  destruct (sys_write (file s) (b :: buf)) as [f' [n|e]]; specialize (Hr ltac:(done)).
  - destruct Hr as (Hw & Hu & Hn & Hi). destruct n as [|n]; [lia|].
    destruct (IH (MkIo f' (errno s)) (drop (S n) (b :: buf))) as (s' & -> & Hw' & Hu' & Hi').
    { rewrite length_drop. simpl in *. lia. }
    exists s'. rewrite Hw', Hu'. simpl file in *. rewrite Hw, Hu, <-app_assoc, take_drop.
    split_and!; [done|done|done|lia].
  - destruct Hr as (-> & Hw & Hu & Hi). simpl.
    destruct (IH (MkIo f' EINTR) (b :: buf)) as (s' & -> & Hw' & Hu' & Hi'); simpl in *; [lia|].
    exists s'. rewrite Hw', Hu', Hw, Hu. split_and!; try done. lia.
Qed.
End plain.

(** ** An in-memory file that transfers at most [chunk] bytes per call *)

Record mem_file := MkMem { m_chunk : nat; m_unread : list Z; m_written : list Z }.

#[export] Instance mem_sys : SysFile mem_file := {
  sys_read f n :=
    let k := Nat.min n (S (m_chunk f)) in
    (MkMem (m_chunk f) (drop k (m_unread f)) (m_written f), Ret (take k (m_unread f)));
  sys_write f b :=
    let k := Nat.min (length b) (S (m_chunk f)) in
    (MkMem (m_chunk f) (m_unread f) (m_written f ++ take k b), Ret k)
}.

#[export] Program Instance mem_plain : PlainFile mem_file := {
  unread := m_unread;
  written := m_written;
  interrupts _ := 0%nat
}.
Next Obligation.
  intros [c u w] n Hn. cbn [sys_read mem_sys m_chunk m_unread m_written].
  split_and!; [by rewrite take_drop|done|rewrite length_take; lia|done|].
  intros Hne Ht. apply Hne. apply (f_equal length) in Ht. rewrite length_take in Ht.
  destruct u; [done|]. simpl in Ht. lia.
Qed.
Next Obligation.
  intros [c u w] b Hb. cbn [sys_write mem_sys m_chunk m_unread m_written].
  split_and!; [done|done| |lia|done]. destruct b; [done|]. simpl. lia.
Qed.

(** ** Properties *)

(** On a regular file, [full_read] terminates and returns exactly the next
    [len] bytes whenever the file still holds that many, however the kernel
    splits or interrupts the transfer. *)
Theorem full_read_exact {F : Type} `{PlainFile F} (s : io F) (len fuel : nat) :
  (io_fuel s len <= fuel)%nat -> (len <= length (unread (file s)))%nat ->
  exists s', full_read fuel s [] len = Ok (s', Some (take len (unread (file s)))) /\
    unread (file s') = drop len (unread (file s)) /\ written (file s') = written (file s).
Proof.
  intros Hf Hlen. destruct (full_read_ok fuel s [] len) as (s' & E & Hu & Hw & _); simpl in *;
    try lia.
  - by rewrite Nat.sub_0_r.
  - rewrite Nat.sub_0_r in *. eauto.
Qed.

Lemma full_read_exact_witness :
  exists s', full_read 3 (MkIo (MkMem 1 [7; 8; 9; 10] []) 0) [] 3
      = Ok (s', Some [7; 8; 9]) /\
    unread (file s') = [10] /\ written (file s') = [].
Proof.
  pose proof (full_read_exact (MkIo (MkMem 1 [7; 8; 9; 10] []) 0) 3 3) as H.
  apply H; unfold io_fuel; simpl; lia.
Defined.

(** At the end of a file [read] returns 0 and does not touch [errno]: when an
    earlier call left EINTR there, [full_read] retries for ever, so no amount of
    fuel lets it return. *)
Theorem full_read_stale_eintr_loops {F : Type} `{PlainFile F} (f : F) (buf : list Z) (len : nat) :
  (forall f n, unread f = [] -> exists f', sys_read f n = (f', Ret [])) ->
  unread f = [] -> (length buf < len)%nat ->
  forall fuel, full_read fuel (MkIo f EINTR) buf len = OutOfFuel.
Proof.
  intros Heof Hu Hlen fuel. revert f Hu. induction fuel as [|fuel IH]; intros f Hu; simpl.
  - by rewrite decide_False by lia.
  - rewrite decide_False by lia. destruct (Heof f (len - length buf)%nat Hu) as [f' E].
    pose proof (plain_read f (len - length buf) ltac:(lia)) as Hr. rewrite E in *.
    destruct Hr as (Hu' & _). simpl. apply IH. by rewrite Hu in Hu'.
Qed.

Lemma full_read_stale_eintr_loops_witness :
  full_read 1000 (MkIo (MkMem 0 [] []) EINTR) [] 4 = OutOfFuel.
Proof.
  apply (full_read_stale_eintr_loops (MkMem 0 [] []) [] 4); [|done|simpl; lia].
  intros [c u w] n E. simpl in E. subst u. simpl. rewrite take_nil. eauto.
Defined.
