(* ===== verification/SplayTree.v ===== *)
(** Splay trees: [src/zfsd/lib/splay-tree/splay-tree.c].

    A node keeps its address ([ptr]) so that a pointer returned by a lookup
    still designates its node after later rotations, and so that a client can
    assign through it ([set_key], [set_value]).  [splay_tree_splay_helper] of
    the source works on pointers to the slots that hold a node, its parent and
    its grandparent; here the frame of a node hands its caller the subtree
    together with the place of the node being moved up, and the rotation the
    source performs in the frame of the node is performed in the frame of the
    slot it assigns.

    The callback [delete_value] is a client function; the model records
    whether it is set and the values it was called with, in order. *)

From S2P Require Import Prelude AllocPool.

Inductive tree : Type :=
  | Leaf
  | Node (p : ptr) (key value : Z) (left right : tree).

(** The fields of a node that callbacks and clients read. *)
Record node := MkNode { node_ptr : ptr; node_key : Z; node_value : Z }.

Record splay_tree := MkSplay {
  root : tree;
  delete_value : bool;
  deleted_values : list Z;
  pool : alloc_pool
}.

(** Where the node being splayed is in the subtree a frame returns. *)
Inductive place := AtRoot | AtLeft | AtRight.

(** [*parent] is the root: rotate [n], its left or right child, over it. *)
Definition rotate_root (pl : place) (t : tree) : tree :=
  match pl, t with
  | AtLeft, Node p kp vp (Node n kn vn a b) c => Node n kn vn a (Node p kp vp b c)
  | AtRight, Node p kp vp a (Node n kn vn b c) => Node n kn vn (Node p kp vp a b) c
  | _, _ => t
  end.

(** The grandparent [g] whose left child [p] has [n] at place [pl]. *)
Definition rotate_left_child (pl : place) (g : ptr) (kg vg : Z) (p : tree) (d : tree) : tree :=
  match pl, p with
  | AtLeft, Node p kp vp (Node n kn vn a b) c =>
      Node n kn vn a (Node p kp vp b (Node g kg vg c d))
  | AtRight, Node p kp vp a (Node n kn vn b c) =>
      Node n kn vn (Node p kp vp a b) (Node g kg vg c d)
  | _, _ => Node g kg vg p d
  end.

(** The grandparent [g] whose right child [p] has [n] at place [pl]. *)
Definition rotate_right_child (pl : place) (g : ptr) (kg vg : Z) (a : tree) (p : tree) : tree :=
  match pl, p with
  | AtRight, Node p kp vp b (Node n kn vn c d) =>
      Node n kn vn (Node p kp vp (Node g kg vg a b) c) d
  | AtLeft, Node p kp vp (Node n kn vn b c) d =>
      Node n kn vn (Node g kg vg a b) (Node p kp vp c d)
  | _, _ => Node g kg vg a p
  end.

Fixpoint splay_tree_splay_helper (key : Z) (t : tree) : tree * place :=
  match t with
  | Leaf => (Leaf, AtRoot)
  | Node p k v l r =>
      if key =? k then (t, AtRoot)
      else if key <? k then
        match l with
        | Leaf => (t, AtRoot)
        | _ => match splay_tree_splay_helper key l with
               | (l', AtRoot) => (Node p k v l' r, AtLeft)
               | (l', pl) => (rotate_left_child pl p k v l' r, AtRoot)
               end
        end
      else
        match r with
        | Leaf => (t, AtRoot)
        | _ => match splay_tree_splay_helper key r with
               | (r', AtRoot) => (Node p k v l r', AtRight)
               | (r', pl) => (rotate_right_child pl p k v l r', AtRoot)
               end
        end
  end.

Definition set_root (sp : splay_tree) (t : tree) : splay_tree :=
  MkSplay t (delete_value sp) (deleted_values sp) (pool sp).

Definition set_pool (sp : splay_tree) (pl : alloc_pool) : splay_tree :=
  MkSplay (root sp) (delete_value sp) (deleted_values sp) pl.

Definition splay (key : Z) (t : tree) : tree :=
  let (t', pl) := splay_tree_splay_helper key t in rotate_root pl t'.

Definition splay_tree_splay (sp : splay_tree) (key : Z) : splay_tree :=
  match root sp with
  | Leaf => sp
  | t => set_root sp (splay key t)
  end.

(** The call of [delete_value] on the value of a node, when it is set. *)
Definition call_delete_value (sp : splay_tree) (v : Z) : splay_tree :=
  if delete_value sp
  then MkSplay (root sp) true (deleted_values sp ++ [v]) (pool sp)
  else sp.

Fixpoint splay_tree_destroy_helper (sp : splay_tree) (t : tree) : res splay_tree :=
  match t with
  | Leaf => Ok sp
  | Node p k v l r =>
      sp ← splay_tree_destroy_helper sp l;
      sp ← splay_tree_destroy_helper sp r;
      let sp := call_delete_value sp v in
      pl ← pool_free (pool sp) p;
      Ok (set_pool sp pl)
  end.

Definition splay_tree_create (preferred_size : nat) (delete_value_fn : bool) : res splay_tree :=
  pl ← create_alloc_pool preferred_size;
  Ok (MkSplay Leaf delete_value_fn [] pl).

Definition splay_tree_empty (sp : splay_tree) : res splay_tree :=
  sp ← splay_tree_destroy_helper sp (root sp);
  Ok (set_root sp Leaf).

(** [splay_tree_destroy] frees every node like [splay_tree_empty]; what is left
    of the tree is the record of the [delete_value] calls and the dead pool. *)
Definition splay_tree_destroy (sp : splay_tree) : res (list Z * alloc_pool) :=
  sp ← splay_tree_destroy_helper sp (root sp);
  Ok (deleted_values sp, pool sp).

Definition splay_tree_insert (sp : splay_tree) (key value : Z) : res (splay_tree * ptr) :=
  let sp := splay_tree_splay sp key in
  match root sp with
  | Node p k v l r =>
      if k =? key then
        let sp := call_delete_value sp v in
        Ok (set_root sp (Node p k value l r), p)
      else
        '(n, pl) ← pool_alloc (pool sp);
        let sp := set_pool sp pl in
        if k <? key
        then Ok (set_root sp (Node n key value (Node p k v l Leaf) r), n)
        else Ok (set_root sp (Node n key value l (Node p k v Leaf r)), n)
  | Leaf =>
      '(n, pl) ← pool_alloc (pool sp);
      let sp := set_pool sp pl in
      Ok (set_root sp (Node n key value Leaf Leaf), n)
  end.

(** [while (left->right) left = left->right; left->right = right;] *)
Fixpoint hang_right (left right : tree) : tree :=
  match left with
  | Leaf => right
  | Node p k v l r => Node p k v l (hang_right r right)
  end.

Definition splay_tree_delete (sp : splay_tree) (key : Z) : res splay_tree :=
  let sp := splay_tree_splay sp key in
  match root sp with
  | Node p k v l r =>
      if k =? key then
        let sp := call_delete_value sp v in
        pl ← pool_free (pool sp) p;
        let sp := set_pool sp pl in
        match l, r with
        | Leaf, _ => Ok (set_root sp r)
        | _, Leaf => Ok (set_root sp l)
        | _, _ => Ok (set_root sp (hang_right l r))
        end
      else Ok sp
  | Leaf => Ok sp
  end.

Definition splay_tree_lookup (sp : splay_tree) (key : Z) : splay_tree * option ptr :=
  let sp := splay_tree_splay sp key in
  (sp, match root sp with
       | Node p k _ _ _ => if k =? key then Some p else None
       | Leaf => None
       end).

Fixpoint rightmost (t : tree) : option ptr :=
  match t with
  | Leaf => None
  | Node p _ _ _ Leaf => Some p
  | Node _ _ _ _ r => rightmost r
  end.

Fixpoint leftmost (t : tree) : option ptr :=
  match t with
  | Leaf => None
  | Node p _ _ Leaf _ => Some p
  | Node _ _ _ l _ => leftmost l
  end.

Definition splay_tree_max (sp : splay_tree) : option ptr := rightmost (root sp).

Definition splay_tree_min (sp : splay_tree) : option ptr := leftmost (root sp).

Definition splay_tree_predecessor (sp : splay_tree) (key : Z) : splay_tree * option ptr :=
  let sp := splay_tree_splay sp key in
  (sp, match root sp with
       | Leaf => None
       | Node p k _ l _ => if k <? key then Some p else rightmost l
       end).

Definition splay_tree_successor (sp : splay_tree) (key : Z) : splay_tree * option ptr :=
  let sp := splay_tree_splay sp key in
  (sp, match root sp with
       | Leaf => None
       | Node p k _ _ r => if key <? k then Some p else leftmost r
       end).

(** The in-order traversal with an early exit on a non-zero result. *)
Fixpoint splay_tree_foreach_helper {S : Type} (t : tree) (fn : node -> S -> res (S * Z)) (data : S)
    : res (S * Z) :=
  match t with
  | Leaf => Ok (data, 0)
  | Node p k v l r =>
      '(data, val) ← splay_tree_foreach_helper l fn data;
      if negb (val =? 0) then Ok (data, val)
      else
        '(data, val) ← fn (MkNode p k v) data;
        if negb (val =? 0) then Ok (data, val)
        else splay_tree_foreach_helper r fn data
  end.

Definition splay_tree_foreach {S : Type} (sp : splay_tree) (fn : node -> S -> res (S * Z))
    (data : S) : res (S * Z) :=
  splay_tree_foreach_helper (root sp) fn data.

(** Dereference of a node pointer, and assignment of its fields. *)
Fixpoint deref (p : ptr) (t : tree) : option node :=
  match t with
  | Leaf => None
  | Node q k v l r =>
      if decide (q = p) then Some (MkNode q k v)
      else match deref p l with
           | Some n => Some n
           | None => deref p r
           end
  end.

Fixpoint update_node (p : ptr) (f : Z -> Z) (g : Z -> Z) (t : tree) : tree :=
  match t with
  | Leaf => Leaf
  | Node q k v l r =>
      if decide (q = p)
      then Node q (f k) (g v) (update_node p f g l) (update_node p f g r)
      else Node q k v (update_node p f g l) (update_node p f g r)
  end.

Definition set_key (p : ptr) (k : Z) (sp : splay_tree) : splay_tree :=
  set_root sp (update_node p (fun _ => k) id (root sp)).

Definition set_value (p : ptr) (v : Z) (sp : splay_tree) : splay_tree :=
  set_root sp (update_node p id (fun _ => v) (root sp)).

(** ** The abstract view: the in-order list of nodes *)

Fixpoint inorder (t : tree) : list node :=
  match t with
  | Leaf => []
  | Node p k v l r => inorder l ++ MkNode p k v :: inorder r
  end.

Definition contents (sp : splay_tree) : list node := inorder (root sp).

Definition key_lt (m n : node) : Prop := node_key m < node_key n.

(** Search-tree order; it also says that no key occurs twice. *)
Definition bst (t : tree) : Prop := StronglySorted key_lt (inorder t).

Record splay_ok (sp : splay_tree) : Prop := {
  splay_bst : bst (root sp);
  splay_pool : pool_ok (pool sp);
  splay_ptrs : node_ptr <$> contents sp ≡ₚ in_use (pool sp)
}.

(** The abstract operations on the sorted list of nodes. *)
Definition with_key (key : Z) (l : list node) : list node :=
  filter (fun n => node_key n = key) l.
Definition below (key : Z) (l : list node) : list node :=
  filter (fun n => node_key n < key) l.
Definition above (key : Z) (l : list node) : list node :=
  filter (fun n => key < node_key n) l.

(** The dictionary a tree stands for. *)
Definition to_map (sp : splay_tree) : gmap Z Z :=
  list_to_map ((fun n => (node_key n, node_value n)) <$> contents sp).

(** ** Splaying permutes nothing *)

Definition place_ok (pl : place) (t : tree) : Prop :=
  match pl, t with
  | AtLeft, Node _ _ _ Leaf _ => False
  | AtRight, Node _ _ _ _ Leaf => False
  | _, _ => True
  end.

Ltac list_norm := simpl; rewrite <-?app_assoc; simpl; rewrite <-?app_assoc; simpl.

Lemma rotate_root_inorder pl t : inorder (rotate_root pl t) = inorder t.
Proof. destruct pl, t as [|? ? ? [] []]; list_norm; done. Qed.

Lemma rotate_left_child_inorder pl g kg vg p d :
  inorder (rotate_left_child pl g kg vg p d) = inorder p ++ MkNode g kg vg :: inorder d.
Proof. destruct pl, p as [|? ? ? [] []]; list_norm; done. Qed.

Lemma rotate_right_child_inorder pl g kg vg a p :
  inorder (rotate_right_child pl g kg vg a p) = inorder a ++ MkNode g kg vg :: inorder p.
Proof. destruct pl, p as [|? ? ? [] []]; list_norm; done. Qed.

Lemma splay_helper_inorder key t :
  inorder (splay_tree_splay_helper key t).1 = inorder t.
Proof.
  induction t as [|p k v l IHl r IHr]; [done|].
  cbn [splay_tree_splay_helper]. repeat case_if; [done| |].
  - destruct l as [|pl kl vl ll lr]; [done|].
    destruct (splay_tree_splay_helper key (Node pl kl vl ll lr)) as [l' []];
      cbn [fst] in *; cbn [inorder] in *;
      by rewrite ?rotate_left_child_inorder, IHl.
  - destruct r as [|pr kr vr rl rr]; [done|].
    destruct (splay_tree_splay_helper key (Node pr kr vr rl rr)) as [r' []];
      cbn [fst] in *; cbn [inorder] in *;
      by rewrite ?rotate_right_child_inorder, IHr.
Qed.

Lemma splay_inorder key t : inorder (splay key t) = inorder t.
Proof.
  unfold splay. pose proof (splay_helper_inorder key t) as H.
  destruct (splay_tree_splay_helper key t). by rewrite rotate_root_inorder.
Qed.

Lemma splay_tree_splay_contents sp key : contents (splay_tree_splay sp key) = contents sp.
Proof.
  unfold contents, splay_tree_splay. destruct (root sp) eqn:E; [by rewrite E|].
  simpl. apply splay_inorder.
Qed.

(** ** Splaying ends on the node closest to the key *)

(** [n] is the node of [l] at which a search for [key] ends. *)
Definition closest (key : Z) (l : list node) (n : node) : Prop :=
  n ∈ l /\
  (node_key n = key \/
   (node_key n < key /\ forall x, x ∈ l -> node_key x <= node_key n \/ key < node_key x) \/
   (key < node_key n /\ forall x, x ∈ l -> node_key x < key \/ node_key n <= node_key x)).

(** The node at a place of a tree. *)
Definition target (pl : place) (t : tree) : option node :=
  match pl, t with
  | AtRoot, Node p k v _ _ => Some (MkNode p k v)
  | AtLeft, Node _ _ _ (Node p k v _ _) _ => Some (MkNode p k v)
  | AtRight, Node _ _ _ _ (Node p k v _ _) => Some (MkNode p k v)
  | _, _ => None
  end.

Lemma rotate_root_target pl t n :
  target pl t = Some n -> target AtRoot (rotate_root pl t) = Some n.
Proof. destruct pl, t as [|? ? ? [] []]; naive_solver. Qed.

Lemma rotate_left_child_target pl g kg vg p d n :
  target pl p = Some n -> pl <> AtRoot ->
  target AtRoot (rotate_left_child pl g kg vg p d) = Some n.
Proof. destruct pl, p as [|? ? ? [] []]; naive_solver. Qed.

Lemma rotate_right_child_target pl g kg vg a p n :
  target pl p = Some n -> pl <> AtRoot ->
  target AtRoot (rotate_right_child pl g kg vg a p) = Some n.
Proof. destruct pl, p as [|? ? ? [] []]; naive_solver. Qed.

Lemma bst_node p k v l r :
  bst (Node p k v l r) <->
  bst l /\ bst r /\ (forall x, x ∈ inorder l -> node_key x < k) /\
  (forall x, x ∈ inorder r -> k < node_key x).
Proof.
  unfold bst. simpl. rewrite StronglySorted_app, StronglySorted_cons, Forall_forall.
  unfold key_lt. simpl. split.
  - intros (H1 & H2 & H3 & H4). split_and!; try done.
    intros x Hx. apply (H1 x (MkNode p k v)); set_solver.
  - intros (H1 & H2 & H3 & H4). split_and!; try done.
    intros x y Hx Hy. specialize (H3 x Hx).
    apply elem_of_cons in Hy as [->|Hy]; [done|]. specialize (H4 y Hy). lia.
Qed.

Lemma closest_in_left key p k v l r n :
  bst (Node p k v l r) -> key < k -> closest key (inorder l) n ->
  closest key (inorder (Node p k v l r)) n.
Proof.
  rewrite bst_node. intros (_ & _ & Hl & Hr) Hk [Hin Hc].
  pose proof (Hl n Hin) as Hn. split; [set_solver|].
  assert (forall x, x ∈ inorder (Node p k v l r) -> x ∈ inorder l \/ k <= node_key x) as Hx.
  { intros x [Hx|[->|Hx]%elem_of_cons]%elem_of_app; [by left|simpl; lia|].
    specialize (Hr x Hx). lia. }
  destruct Hc as [?|[[? Hc]|[? Hc]]]; [by left|right; left|right; right];
    (split; [done|]); intros x Hin'; destruct (Hx x Hin') as [Hi|]; try lia; auto.
Qed.

Lemma closest_in_right key p k v l r n :
  bst (Node p k v l r) -> k < key -> closest key (inorder r) n ->
  closest key (inorder (Node p k v l r)) n.
Proof.
  rewrite bst_node. intros (_ & _ & Hl & Hr) Hk [Hin Hc].
  pose proof (Hr n Hin) as Hn. split; [set_solver|].
  assert (forall x, x ∈ inorder (Node p k v l r) -> x ∈ inorder r \/ node_key x <= k) as Hx.
  { intros x [Hx|[->|Hx]%elem_of_cons]%elem_of_app; [|simpl; lia|by left].
    specialize (Hl x Hx). lia. }
  destruct Hc as [?|[[? Hc]|[? Hc]]]; [by left|right; left|right; right];
    (split; [done|]); intros x Hin'; destruct (Hx x Hin') as [Hi|]; try lia; auto.
Qed.

Lemma closest_root key p k v l r :
  bst (Node p k v l r) ->
  (k = key \/ (key < k /\ l = Leaf) \/ (k < key /\ r = Leaf)) ->
  closest key (inorder (Node p k v l r)) (MkNode p k v).
Proof.
  rewrite bst_node. intros (_ & _ & Hl & Hr) Hc. split; [set_solver|].
  destruct Hc as [?|[[? ->]|[? ->]]]; [by left|right; right|right; left];
    (split; [done|]); simpl; intros x Hx; simpl in Hx.
  - apply elem_of_cons in Hx as [->|Hx]; [simpl; lia|]. specialize (Hr x Hx). lia.
  - apply elem_of_app in Hx as [Hx|Hx]; [specialize (Hl x Hx); lia|].
    apply list_elem_of_singleton in Hx as ->. simpl. lia.
Qed.

Lemma splay_helper_target key t :
  bst t -> t <> Leaf ->
  exists n, target (splay_tree_splay_helper key t).2 (splay_tree_splay_helper key t).1 = Some n /\
    closest key (inorder t) n.
Proof.
  induction t as [|p k v l IHl r IHr]; [done|]. intros Hb _.
  pose proof Hb as (Hbl & Hbr & _ & _)%bst_node.
  cbn [splay_tree_splay_helper]. repeat case_if; bool_to_prop.
  - eexists. split; [done|]. apply closest_root; auto.
  - destruct l as [|pl kl vl ll lr].
    { eexists. split; [done|]. apply closest_root; auto. }
    destruct (IHl Hbl) as (n & Hn & Hc); [done|]. exists n. split; [|by apply closest_in_left].
    destruct (splay_tree_splay_helper key (Node pl kl vl ll lr)) as [l' []]; simpl in Hn.
    + destruct l'; done.
    + by apply rotate_left_child_target.
    + by apply rotate_left_child_target.
  - destruct r as [|pr kr vr rl rr].
    { eexists. split; [done|]. apply closest_root; [done|]. right; right. split; [lia|done]. }
    destruct (IHr Hbr) as (n & Hn & Hc); [done|].
    exists n. split; [|apply closest_in_right; [done|lia|done]].
    destruct (splay_tree_splay_helper key (Node pr kr vr rl rr)) as [r' []]; simpl in Hn.
    + destruct r'; done.
    + by apply rotate_right_child_target.
    + by apply rotate_right_child_target.
Qed.

(** After splaying, the root is the node closest to the key. *)
Lemma splay_root_closest key t :
  bst t -> t <> Leaf ->
  exists p k v l r, splay key t = Node p k v l r /\ closest key (inorder t) (MkNode p k v).
Proof.
  intros Hb Hne. destruct (splay_helper_target key t Hb Hne) as (n & Hn & Hc).
  unfold splay. destruct (splay_tree_splay_helper key t) as [t' pl]. simpl in Hn.
  apply rotate_root_target in Hn.
  destruct (rotate_root pl t') as [|p k v l r] eqn:E; [done|].
  simpl in Hn. injection Hn as <-. eauto 10.
Qed.

(** The splayed tree splits the sorted list at the key. *)
Lemma splay_split key t :
  bst t -> t <> Leaf ->
  exists p k v l r, splay key t = Node p k v l r /\
    inorder t = inorder l ++ MkNode p k v :: inorder r /\
    below key (inorder t) = inorder l ++ (if k <? key then [MkNode p k v] else []) /\
    with_key key (inorder t) = (if k =? key then [MkNode p k v] else []) /\
    above key (inorder t) = (if key <? k then [MkNode p k v] else []) ++ inorder r.
Proof.
  intros Hb Hne. destruct (splay_root_closest key t Hb Hne) as (p & k & v & l & r & E & _ & Hc).
  exists p, k, v, l, r. split; [done|].
  pose proof (splay_inorder key t) as Ei. rewrite E in Ei. simpl in Ei.
  split; [done|]. rewrite <-Ei in *.
  assert (bst (Node p k v l r)) as (_ & _ & Hl & Hr)%bst_node by (unfold bst in *; by rewrite <-Ei in Hb).
  simpl in Hc.
  assert ((forall x, x ∈ inorder l -> node_key x < key) /\
          (forall x, x ∈ inorder r -> key < node_key x)) as [Hl' Hr'].
  { split; intros x Hx; pose proof (Hl x); pose proof (Hr x);
      destruct Hc as [?|[[? Hc]|[? Hc]]]; try (specialize (Hc x ltac:(set_solver)));
      naive_solver lia. }
  unfold below, with_key, above. rewrite !filter_app, !filter_cons. simpl.
  assert (forall x, x ∈ inorder l -> ~ key < node_key x) by (intros x Hx; specialize (Hl' x Hx); lia).
  assert (forall x, x ∈ inorder l -> node_key x <> key) by (intros x Hx; specialize (Hl' x Hx); lia).
  assert (forall x, x ∈ inorder r -> ~ node_key x < key) by (intros x Hx; specialize (Hr' x Hx); lia).
  assert (forall x, x ∈ inorder r -> node_key x <> key) by (intros x Hx; specialize (Hr' x Hx); lia).
  rewrite (filter_all _ (inorder l)), (filter_none _ (inorder r)), (filter_none _ (inorder l)),
    (filter_none _ (inorder r)), (filter_none _ (inorder l)), (filter_all _ (inorder r)) by done.
  simpl.
  destruct (Z.ltb_spec k key), (Z.eqb_spec k key), (Z.ltb_spec key k); try lia;
    repeat case_decide; try lia; done.
Qed.

Lemma rightmost_last t : rightmost t = node_ptr <$> last (inorder t).
Proof.
  induction t as [|p k v l _ r IHr]; [done|]. cbn [rightmost].
  destruct r as [|pr kr vr rl rr]; [cbn [inorder]; by rewrite last_snoc|].
  rewrite IHr. change (inorder (Node p k v l (Node pr kr vr rl rr)))
    with (inorder l ++ MkNode p k v :: inorder (Node pr kr vr rl rr)).
  rewrite last_app, last_cons.
  destruct (last (inorder (Node pr kr vr rl rr))) eqn:E; [done|].
  apply last_None in E. simpl in E. by destruct (inorder rl).
Qed.

Lemma leftmost_head t : leftmost t = node_ptr <$> head (inorder t).
Proof.
  induction t as [|p k v l IHl r _]; [done|]. cbn [leftmost].
  destruct l as [|pl kl vl ll lr]; [done|]. rewrite IHl. cbn [inorder].
  by destruct (inorder ll).
Qed.

Lemma splay_ok_contents sp t pl :
  splay_ok sp -> inorder t = contents sp -> pl = pool sp ->
  forall d dv, splay_ok (MkSplay t d dv pl).
Proof.
  intros [Hb Hp Hpt] E -> d dv. split; [|done|].
  - unfold bst. simpl. by rewrite E.
  - unfold contents in *. simpl. by rewrite E.
Qed.

Lemma splay_tree_splay_ok sp key : splay_ok sp -> splay_ok (splay_tree_splay sp key).
Proof.
  intros H. unfold splay_tree_splay. destruct (root sp) eqn:E; [done|].
  eapply splay_ok_contents; [done| |done]. unfold contents. rewrite E. apply splay_inorder.
Qed.

(** Case analysis on the splayed root. *)
Lemma splay_tree_splay_root sp key :
  bst (root sp) ->
  (root (splay_tree_splay sp key) = Leaf /\ contents sp = []) \/
  (exists p k v l r, root (splay_tree_splay sp key) = Node p k v l r /\
    contents sp = inorder l ++ MkNode p k v :: inorder r /\
    below key (contents sp) = inorder l ++ (if k <? key then [MkNode p k v] else []) /\
    with_key key (contents sp) = (if k =? key then [MkNode p k v] else []) /\
    above key (contents sp) = (if key <? k then [MkNode p k v] else []) ++ inorder r).
Proof.
  intros Hb. unfold contents, splay_tree_splay.
  destruct (root sp) as [|p k v l r] eqn:E; [left; by rewrite E|right].
  apply splay_split; done.
Qed.

(** ** Queries *)

Lemma splay_tree_lookup_spec sp key :
  bst (root sp) ->
  contents (splay_tree_lookup sp key).1 = contents sp /\
  (splay_tree_lookup sp key).2 = node_ptr <$> head (with_key key (contents sp)).
Proof.
  intros Hb. split; [apply splay_tree_splay_contents|]. simpl.
  destruct (splay_tree_splay_root sp key Hb) as [[-> ->]|(p & k & v & l & r & -> & _ & _ & -> & _)];
    [done|]. by case_if.
Qed.

Lemma splay_tree_predecessor_spec sp key :
  bst (root sp) ->
  contents (splay_tree_predecessor sp key).1 = contents sp /\
  (splay_tree_predecessor sp key).2 = node_ptr <$> last (below key (contents sp)).
Proof.
  intros Hb. split; [apply splay_tree_splay_contents|]. simpl.
  destruct (splay_tree_splay_root sp key Hb) as [[-> ->]|(p & k & v & l & r & -> & _ & -> & _ & _)];
    [done|]. case_if.
  - by rewrite last_snoc.
  - by rewrite app_nil_r, rightmost_last.
Qed.

Lemma splay_tree_successor_spec sp key :
  bst (root sp) ->
  contents (splay_tree_successor sp key).1 = contents sp /\
  (splay_tree_successor sp key).2 = node_ptr <$> head (above key (contents sp)).
Proof.
  intros Hb. split; [apply splay_tree_splay_contents|]. simpl.
  destruct (splay_tree_splay_root sp key Hb) as [[-> ->]|(p & k & v & l & r & -> & _ & _ & _ & ->)];
    [done|]. case_if; [done|]. by rewrite leftmost_head.
Qed.

Lemma splay_tree_min_spec sp : splay_tree_min sp = node_ptr <$> head (contents sp).
Proof. apply leftmost_head. Qed.

Lemma splay_tree_max_spec sp : splay_tree_max sp = node_ptr <$> last (contents sp).
Proof. apply rightmost_last. Qed.

(** ** Updates *)

Lemma hang_right_inorder l r : inorder (hang_right l r) = inorder l ++ inorder r.
Proof.
  induction l as [|p k v ll _ lr IH]; [done|]. simpl. by rewrite IH, <-app_assoc.
Qed.

(** The sorted list with the node for [key] replaced or added. *)
Definition put_node (p : ptr) (key value : Z) (l : list node) : list node :=
  below key l ++ MkNode p key value :: above key l.

(** The address [splay_tree_insert] returns: the node that has the key already,
    or the element the pool hands out. *)
Definition insert_ptr (sp : splay_tree) (key : Z) : option ptr :=
  match head (with_key key (contents sp)) with
  | Some n => Some (node_ptr n)
  | None => match pool_alloc (pool sp) with Ok (p, _) => Some p | _ => None end
  end.

Lemma splay_tree_splay_pool sp key : pool (splay_tree_splay sp key) = pool sp.
Proof. unfold splay_tree_splay. by destruct (root sp). Qed.

Lemma call_delete_value_pool sp v : pool (call_delete_value sp v) = pool sp.
Proof. unfold call_delete_value. by destruct (delete_value sp). Qed.

Lemma sorted_split_keys key l :
  StronglySorted key_lt l ->
  l = below key l ++ with_key key l ++ above key l.
Proof.
  induction l as [|x l IH]; [done|]. intros [Hx Hs]%StronglySorted_cons.
  rewrite Forall_forall in Hx. unfold key_lt in Hx.
  unfold below, with_key, above in *. rewrite !filter_cons.
  destruct (Z_lt_le_dec (node_key x) key) as [Hk|Hk].
  - rewrite decide_True, !decide_False by lia. rewrite IH at 1 by done. done.
  - rewrite decide_False by lia.
    rewrite (filter_none (fun n => node_key n < key) l) in *
      by (intros y Hy; specialize (Hx y Hy); lia).
    destruct (Z.eq_dec (node_key x) key) as [->|Hne].
    + rewrite decide_True, decide_False by lia. rewrite IH at 1 by done. done.
    + rewrite decide_False, decide_True by lia.
      rewrite (filter_none (fun n => node_key n = key) l) in *
        by (intros y Hy; specialize (Hx y Hy); lia).
      rewrite IH at 1 by done. done.
Qed.

Lemma put_node_sorted p key value l :
  StronglySorted key_lt l -> StronglySorted key_lt (put_node p key value l).
Proof.
  intros Hs. rewrite (sorted_split_keys key l) in Hs by done.
  apply StronglySorted_app in Hs as (Hba & Hb & Hs). apply StronglySorted_app in Hs as (_ & _ & Ha).
  unfold put_node. rewrite StronglySorted_app, StronglySorted_cons, Forall_forall.
  unfold key_lt in *. split_and!; [|done| |done].
  - intros x y Hx Hy. assert (node_key x < key) by (by apply list_elem_of_filter in Hx as [? _]).
    apply elem_of_cons in Hy as [->|Hy]; [done|]. apply list_elem_of_filter in Hy as [? _]. lia.
  - intros x [? _]%list_elem_of_filter. done.
Qed.

(** A pointer permutation after one node is added or dropped in the middle. *)
Lemma ptrs_add p key value l u :
  StronglySorted key_lt l -> with_key key l = [] -> node_ptr <$> l ≡ₚ u ->
  node_ptr <$> put_node p key value l ≡ₚ p :: u.
Proof.
  intros Hs Hw <-. rewrite (sorted_split_keys key l Hs) at 2. rewrite Hw.
  unfold put_node. rewrite !fmap_app. simpl. solve_Permutation.
Qed.

Lemma ptrs_replace n key value l :
  StronglySorted key_lt l -> with_key key l = [n] ->
  node_ptr <$> put_node (node_ptr n) key value l = node_ptr <$> l.
Proof.
  intros Hs Hw. rewrite (sorted_split_keys key l Hs) at 2. rewrite Hw.
  unfold put_node. by rewrite !fmap_app.
Qed.

Lemma ptrs_drop n key l u :
  StronglySorted key_lt l -> with_key key l = [n] -> node_ptr <$> l ≡ₚ u ->
  node_ptr n :: (node_ptr <$> below key l ++ above key l) ≡ₚ u.
Proof.
  intros Hs Hw <-. rewrite (sorted_split_keys key l Hs) at 3. rewrite Hw.
  rewrite !fmap_app. simpl. solve_Permutation.
Qed.

Lemma splay_tree_insert_spec sp key value :
  splay_ok sp ->
  exists sp' p, splay_tree_insert sp key value = Ok (sp', p) /\ splay_ok sp' /\
    contents sp' = put_node p key value (contents sp) /\ insert_ptr sp key = Some p.
Proof.
  intros [Hb Hp Hpt]. destruct (pool_alloc_ok _ Hp) as (q & pl & Ea & Hpl & Hq & Hu).
  unfold splay_tree_insert, insert_ptr. rewrite !splay_tree_splay_pool, !Ea.
  destruct (splay_tree_splay_root sp key Hb)
    as [[-> Ec]|(p & k & v & l & r & -> & Ec & El & Ew & Er)].
  - eexists _, _. split_and!; [done| |by unfold contents; simpl; fold (contents sp); rewrite Ec|by rewrite Ec].
    split; simpl; [by repeat constructor|done|]. rewrite Hu, <-Hpt, Ec. done.
  - rewrite Ew. destruct (Z.eqb_spec k key) as [->|Hne].
    + assert (Heq : inorder l ++ MkNode p key value :: inorder r
                    = put_node p key value (contents sp)).
      { unfold put_node. rewrite El, Er. destruct (Z.ltb_spec key key); [lia|]. by rewrite app_nil_r. }
      eexists _, _. split_and!; [done| |done|done].
      split; simpl; unfold bst, contents; simpl; rewrite ?Heq.
      * by apply put_node_sorted.
      * by rewrite call_delete_value_pool, splay_tree_splay_pool.
      * rewrite call_delete_value_pool, splay_tree_splay_pool, <-Hpt.
        by rewrite (ptrs_replace (MkNode p key v)).
    + assert (exists t, (if k <? key then Node q key value (Node p k v l Leaf) r
                         else Node q key value l (Node p k v Leaf r)) = t /\
               inorder t = put_node q key value (contents sp)) as (t & Et & Hi).
      { eexists. split; [done|]. unfold put_node. rewrite El, Er.
        destruct (Z.ltb_spec k key), (Z.ltb_spec key k); try lia; list_norm; done. }
      eexists _, q. split_and!; [simpl; by case_if; subst t| |exact Hi|done].
      split; simpl; unfold bst, contents; simpl; rewrite ?Hi.
      * by apply put_node_sorted.
      * done.
      * rewrite Hu. by apply ptrs_add.
Qed.

Lemma drop_key_sorted key l :
  StronglySorted key_lt l -> StronglySorted key_lt (below key l ++ above key l).
Proof.
  intros Hs. pose proof Hs as Hs'. rewrite (sorted_split_keys key l) in Hs' by done.
  apply StronglySorted_app in Hs' as (_ & Hb & Hs').
  apply StronglySorted_app_2; [|done|by eapply StronglySorted_app_1_r].
  intros x y [? _]%list_elem_of_filter [? _]%list_elem_of_filter. unfold key_lt. lia.
Qed.

Lemma splay_tree_delete_spec sp key :
  splay_ok sp ->
  exists sp', splay_tree_delete sp key = Ok sp' /\ splay_ok sp' /\
    contents sp' = below key (contents sp) ++ above key (contents sp).
Proof.
  intros Hok. pose proof Hok as [Hb Hp Hpt]. pose proof (sorted_split_keys key _ Hb) as Hsp.
  fold (contents sp) in Hsp.
  unfold splay_tree_delete.
  destruct (splay_tree_splay_root sp key Hb)
    as [[-> Ec]|(p & k & v & l & r & -> & Ec & El & Ew & Er)].
  - eexists. split_and!; [done|by apply splay_tree_splay_ok|].
    rewrite splay_tree_splay_contents, Ec. done.
  - destruct (Z.eqb_spec k key) as [->|Hne].
    + rewrite call_delete_value_pool, splay_tree_splay_pool.
      assert (p ∈ in_use (pool sp)) as Hin.
      { rewrite <-Hpt, Ec, fmap_app. set_solver. }
      destruct (pool_free_ok _ _ Hp Hin) as (pl & -> & Hpl & Hu). simpl.
      assert (exists t, (match l, r with Leaf, _ => r | _, Leaf => l | _, _ => hang_right l r end) = t /\
               inorder t = below key (contents sp) ++ above key (contents sp)) as (t & Et & Hi).
      { eexists. split; [done|]. rewrite El, Er. destruct (Z.ltb_spec key key); [lia|].
        rewrite app_nil_r. simpl.
        destruct l, r; rewrite ?hang_right_inorder; simpl; rewrite ?app_nil_r; done. }
      exists (set_root (set_pool (call_delete_value (splay_tree_splay sp key) v) pl) t).
      split_and!; [by destruct l, r; subst t| |exact Hi].
      split; simpl; unfold bst, contents; simpl; rewrite ?Hi; [|done|].
      * by apply drop_key_sorted.
      * pose proof (ptrs_drop (MkNode p key v) key _ _ Hb Ew Hpt) as Hd. simpl in Hd.
        fold (contents sp) in Hd.
        assert (NoDup (in_use (pool sp))) as Hnd by (by apply pool_nodup, NoDup_app in Hp as (_&_&?)).
        apply NoDup_Permutation.
        -- rewrite <-Hd in Hnd. by apply NoDup_cons in Hnd as [_ ?].
        -- by apply pool_nodup, NoDup_app in Hpl as (_&_&?).
        -- intros x. rewrite Hu. rewrite <-Hd in Hnd |- *. apply NoDup_cons in Hnd as [Hn _].
           rewrite elem_of_cons. split; [|naive_solver]. intros Hx. split; [by right|].
           intros ->. done.
    + eexists. split_and!; [done|by apply splay_tree_splay_ok|].
      rewrite splay_tree_splay_contents. by rewrite Hsp at 1; rewrite Ew.
Qed.

(** ** Emptying *)

(** Values in the order in which [splay_tree_destroy_helper] frees them. *)
Fixpoint postorder_values (t : tree) : list Z :=
  match t with
  | Leaf => []
  | Node _ _ v l r => postorder_values l ++ postorder_values r ++ [v]
  end.

Lemma splay_tree_destroy_helper_spec t : forall sp,
  pool_ok (pool sp) -> NoDup (node_ptr <$> inorder t) ->
  (node_ptr <$> inorder t) ⊆ in_use (pool sp) ->
  exists pl, splay_tree_destroy_helper sp t =
      Ok (MkSplay (root sp) (delete_value sp)
            (deleted_values sp ++ if delete_value sp then postorder_values t else []) pl) /\
    pool_ok pl /\
    (forall q, q ∈ in_use pl <-> q ∈ in_use (pool sp) /\ q ∉ (node_ptr <$> inorder t)).
Proof.
  induction t as [|p k v l IHl r IHr]; intros [rt d dv po]; simpl; intros Hp Hnd Hin.
  { exists po. split_and!; [destruct d; by rewrite app_nil_r|done|]. set_solver. }
  rewrite fmap_app in Hnd, Hin. simpl in Hnd, Hin.
  apply NoDup_app in Hnd as (Hnl & Hd & Hnd). apply NoDup_cons in Hnd as [Hpr Hnr].
  destruct (IHl (MkSplay rt d dv po)) as (pl1 & E1 & Hp1 & Hu1); simpl in *; [done|done|set_solver|].
  rewrite E1. simpl.
  destruct (IHr (MkSplay rt d (dv ++ if d then postorder_values l else []) pl1))
    as (pl2 & E2 & Hp2 & Hu2); simpl in *; [done|done| |].
  { intros q Hq. apply Hu1. split; [set_solver|]. intros Hq'. specialize (Hd q Hq'). set_solver. }
  rewrite E2. simpl.
  rewrite call_delete_value_pool. simpl.
  destruct (pool_free_ok pl2 p Hp2) as (pl3 & -> & Hp3 & Hu3).
  { apply Hu2. split; [|done]. apply Hu1. split; [set_solver|].
    intros Hq'. specialize (Hd p Hq'). set_solver. }
  simpl. exists pl3. split_and!; [|done|].
  - unfold call_delete_value. simpl. destruct d; simpl; rewrite <-?app_assoc, ?app_nil_r; done.
  - intros q. rewrite Hu3, Hu2, Hu1, fmap_app. simpl. set_solver.
Qed.

Lemma splay_ok_nodup sp : splay_ok sp -> NoDup (node_ptr <$> contents sp).
Proof.
  intros [_ Hp Hpt]. rewrite Hpt. by apply pool_nodup, NoDup_app in Hp as (_&_&?).
Qed.

Lemma splay_tree_empty_spec sp :
  splay_ok sp ->
  exists sp', splay_tree_empty sp = Ok sp' /\ splay_ok sp' /\ contents sp' = [] /\
    in_use (pool sp') = [] /\
    deleted_values sp' =
      deleted_values sp ++ if delete_value sp then postorder_values (root sp) else [].
Proof.
  intros Hok. pose proof Hok as [Hb Hp Hpt].
  destruct (splay_tree_destroy_helper_spec (root sp) sp Hp) as (pl & E & Hpl & Hu).
  { by apply splay_ok_nodup. }
  { unfold contents in Hpt. by rewrite Hpt. }
  assert (in_use pl = []) as Hnil.
  { apply elem_of_nil_inv. intros q Hq. apply Hu in Hq as [H1 H2].
    apply H2. unfold contents in Hpt. by rewrite Hpt. }
  unfold splay_tree_empty. rewrite E. simpl. eexists. split_and!; [done| |done|done|done].
  split; simpl; [constructor|done|by rewrite Hnil].
Qed.

(** ** Node pointers *)

Definition update_list (p : ptr) (f g : Z -> Z) (l : list node) : list node :=
  (fun n => if decide (node_ptr n = p)
            then MkNode (node_ptr n) (f (node_key n)) (g (node_value n)) else n) <$> l.

Lemma update_node_inorder p f g t :
  inorder (update_node p f g t) = update_list p f g (inorder t).
Proof.
  unfold update_list. induction t as [|q k v l IHl r IHr]; [done|]. simpl.
  rewrite fmap_app. simpl. case_decide; simpl; by rewrite IHl, IHr.
Qed.

Lemma update_list_notin p f g l : p ∉ (node_ptr <$> l) -> update_list p f g l = l.
Proof.
  intros Hp. unfold update_list. rewrite <-(list_fmap_id l) at 2.
  apply list_fmap_ext. intros i x Hx. rewrite decide_False; [done|].
  intros E. apply Hp. rewrite <-E. apply list_elem_of_fmap_2. by eapply list_elem_of_lookup_2.
Qed.

Lemma update_list_split p f g k v l1 l2 :
  NoDup (node_ptr <$> (l1 ++ MkNode p k v :: l2)) ->
  update_list p f g (l1 ++ MkNode p k v :: l2) = l1 ++ MkNode p (f k) (g v) :: l2.
Proof.
  rewrite fmap_app. simpl. intros (_ & Hd & [Hp _]%NoDup_cons)%NoDup_app.
  assert (p ∉ (node_ptr <$> l1)) by (intros Hq; specialize (Hd p Hq); set_solver).
  pose proof (update_list_notin p f g l1) as E1.
  pose proof (update_list_notin p f g l2) as E2. unfold update_list in *.
  rewrite fmap_app, E1, fmap_cons, E2 by done. simpl. by rewrite decide_True.
Qed.

Lemma deref_sound p t n : deref p t = Some n -> n ∈ inorder t /\ node_ptr n = p.
Proof.
  induction t as [|q k v l IHl r IHr]; [done|]. simpl. case_decide.
  - intros [= <-]. set_solver.
  - destruct (deref p l); intros E; naive_solver set_solver.
Qed.

Lemma deref_complete p t : p ∈ (node_ptr <$> inorder t) -> exists n, deref p t = Some n.
Proof.
  induction t as [|q k v l IHl r IHr]; simpl; [set_solver|].
  rewrite fmap_app. simpl. rewrite elem_of_app, elem_of_cons. intros Hp.
  case_decide; [by eexists|]. destruct Hp as [Hp|[->|Hp]]; [|done|].
  - destruct (IHl Hp) as [n ->]. by exists n.
  - destruct (deref p l); [by eexists|]. by apply IHr.
Qed.

Lemma nodup_ptr_inj (l : list node) m n :
  NoDup (node_ptr <$> l) -> m ∈ l -> n ∈ l -> node_ptr m = node_ptr n -> m = n.
Proof.
  intros Hnd (i & Hi)%list_elem_of_lookup_1 (j & Hj)%list_elem_of_lookup_1 E.
  assert (i = j) as ->; [|congruence].
  eapply NoDup_lookup; [done| |]; rewrite list_lookup_fmap; [by rewrite Hi|].
  rewrite Hj. simpl. by rewrite E.
Qed.

Lemma deref_in sp n :
  NoDup (node_ptr <$> contents sp) -> n ∈ contents sp -> deref (node_ptr n) (root sp) = Some n.
Proof.
  intros Hnd Hn. destruct (deref_complete (node_ptr n) (root sp)) as [m Hm].
  { by apply list_elem_of_fmap_2. }
  rewrite Hm. f_equal. apply deref_sound in Hm as [Hin E]. by eapply nodup_ptr_inj.
Qed.

(** Splitting a sorted list at one of its nodes. *)
Lemma split_at_node l1 n l2 :
  StronglySorted key_lt (l1 ++ n :: l2) ->
  below (node_key n) (l1 ++ n :: l2) = l1 /\
  with_key (node_key n) (l1 ++ n :: l2) = [n] /\
  above (node_key n) (l1 ++ n :: l2) = l2.
Proof.
  intros (Hd & _ & [Hf _]%StronglySorted_cons)%StronglySorted_app.
  rewrite Forall_forall in Hf. unfold key_lt in *.
  assert (forall x, x ∈ l1 -> node_key x < node_key n) as H1 by (intros; apply Hd; set_solver).
  unfold below, with_key, above. rewrite !filter_app, !filter_cons.
  rewrite (decide_False (P := node_key n < node_key n)) by lia.
  rewrite (decide_True (P := node_key n = node_key n)) by done.
  rewrite (decide_False (P := node_key n < node_key n)) by lia.
  rewrite (filter_all _ l1), (filter_none _ l2), (filter_none _ l1), (filter_none _ l2),
    (filter_none _ l1), (filter_all _ l2)
    by (intros x Hx; try specialize (H1 x Hx); try specialize (Hf x Hx); lia).
  by rewrite app_nil_r.
Qed.

Lemma set_value_ok sp p k v v' l1 l2 :
  splay_ok sp -> contents sp = l1 ++ MkNode p k v :: l2 ->
  splay_ok (set_value p v' sp) /\ contents (set_value p v' sp) = l1 ++ MkNode p k v' :: l2.
Proof.
  intros Hok E. pose proof (splay_ok_nodup _ Hok) as Hnd. destruct Hok as [Hb Hp Hpt].
  assert (contents (set_value p v' sp) = l1 ++ MkNode p k v' :: l2) as E'.
  { unfold contents, set_value. simpl. rewrite update_node_inorder. fold (contents sp).
    rewrite E in *. by apply update_list_split. }
  split; [|done]. split; [|done|].
  - unfold bst. fold (contents (set_value p v' sp)). rewrite E'.
    unfold bst in Hb. fold (contents sp) in Hb. rewrite E in Hb.
    rewrite StronglySorted_app, StronglySorted_cons, Forall_forall in *.
    destruct Hb as (H1 & H2 & H3 & H4). split_and!; try done.
    intros x y Hx [->|Hy]%elem_of_cons; [apply (H1 x (MkNode p k v)); set_solver|].
    apply H1; set_solver.
  - rewrite E'. simpl. rewrite <-Hpt, E, !fmap_app. done.
Qed.

Lemma set_key_ok sp p k v k' l1 l2 :
  splay_ok sp -> contents sp = l1 ++ MkNode p k v :: l2 ->
  (forall x, x ∈ l1 -> node_key x < k') -> (forall x, x ∈ l2 -> k' < node_key x) ->
  splay_ok (set_key p k' sp) /\ contents (set_key p k' sp) = l1 ++ MkNode p k' v :: l2.
Proof.
  intros Hok E Hl1 Hl2. pose proof (splay_ok_nodup _ Hok) as Hnd. destruct Hok as [Hb Hp Hpt].
  assert (contents (set_key p k' sp) = l1 ++ MkNode p k' v :: l2) as E'.
  { unfold contents, set_key. simpl. rewrite update_node_inorder. fold (contents sp).
    rewrite E in *. by apply update_list_split. }
  split; [|done]. split; [|done|].
  - unfold bst. fold (contents (set_key p k' sp)). rewrite E'.
    unfold bst in Hb. fold (contents sp) in Hb. rewrite E in Hb.
    rewrite StronglySorted_app, StronglySorted_cons, Forall_forall in *.
    destruct Hb as (H1 & H2 & H3 & H4). unfold key_lt in *. split_and!; try done.
    intros x y Hx [->|Hy]%elem_of_cons; [by apply Hl1|].
    specialize (Hl1 x Hx). specialize (Hl2 y Hy). lia.
  - rewrite E'. simpl. rewrite <-Hpt, E, !fmap_app. done.
Qed.

(** ** Traversal *)

Fixpoint foreach_list {S : Type} (l : list node) (fn : node -> S -> res (S * Z)) (data : S)
    : res (S * Z) :=
  match l with
  | [] => Ok (data, 0)
  | n :: l => '(data, val) ← fn n data;
              if negb (val =? 0) then Ok (data, val) else foreach_list l fn data
  end.

Lemma foreach_list_app {S : Type} l1 l2 (fn : node -> S -> res (S * Z)) data :
  foreach_list (l1 ++ l2) fn data =
  ('(data, val) ← foreach_list l1 fn data;
   if negb (val =? 0) then Ok (data, val) else foreach_list l2 fn data).
Proof.
  revert data; induction l1 as [|n l1 IH]; intros data; [done|]. simpl.
  destruct (fn n data) as [[d v]| |]; simpl; [|done|done].
  destruct (v =? 0) eqn:E; simpl; [apply IH|by rewrite E].
Qed.

Lemma splay_tree_foreach_spec {S : Type} sp (fn : node -> S -> res (S * Z)) data :
  splay_tree_foreach sp fn data = foreach_list (contents sp) fn data.
Proof.
  unfold splay_tree_foreach, contents. revert data.
  induction (root sp) as [|p k v l IHl r IHr]; intros data; [done|]. simpl.
  rewrite foreach_list_app, IHl.
  destruct (foreach_list (inorder l) fn data) as [[d z]| |]; simpl; [|done|done].
  case_if; [done|]. simpl. destruct (fn (MkNode p k v) d) as [[d' z']| |]; simpl; [|done|done].
  case_if; [done|]. apply IHr.
Qed.

(** ** The dictionary view *)

Lemma to_map_lookup sp j : to_map sp !! j = node_value <$> head (with_key j (contents sp)).
Proof.
  unfold to_map, with_key. induction (contents sp) as [|x l IH]; [done|].
  rewrite fmap_cons, filter_cons. simpl. rewrite lookup_insert. by repeat case_decide.
Qed.

Lemma with_key_put_node j p key value l :
  StronglySorted key_lt l ->
  with_key j (put_node p key value l) =
    if decide (key = j) then [MkNode p key value] else with_key j l.
Proof.
  intros Hs.
  assert (with_key j l = with_key j (below key l ++ with_key key l ++ above key l)) as ->
    by (by rewrite <-sorted_split_keys).
  unfold put_node, with_key, below, above. rewrite !filter_app, filter_cons. simpl.
  case_decide as Hk.
  - subst j. rewrite !(filter_none (fun n => node_key n = key)); [done| |];
      intros x [? _]%list_elem_of_filter; lia.
  - rewrite (filter_none _ (filter (fun n => node_key n = key) l)); [done|].
    intros x [? _]%list_elem_of_filter. lia.
Qed.

Lemma with_key_drop j key l :
  StronglySorted key_lt l ->
  with_key j (below key l ++ above key l) = if decide (key = j) then [] else with_key j l.
Proof.
  intros Hs.
  assert (with_key j l = with_key j (below key l ++ with_key key l ++ above key l)) as ->
    by (by rewrite <-sorted_split_keys).
  unfold with_key, below, above. rewrite !filter_app. case_decide as Hk.
  - subst j. rewrite !(filter_none (fun n => node_key n = key)); [done| |];
      intros x [? _]%list_elem_of_filter; lia.
  - rewrite (filter_none _ (filter (fun n => node_key n = key) l)); [done|].
    intros x [? _]%list_elem_of_filter. lia.
Qed.

(** Dereferencing what a query returns. *)
Definition deref_opt (o : option ptr) (sp : splay_tree) : option node :=
  p ← o; deref p (root sp).

Lemma deref_opt_query sp sp' (o : option node) :
  splay_ok sp -> contents sp' = contents sp -> (forall n, o = Some n -> n ∈ contents sp) ->
  deref_opt (node_ptr <$> o) sp' = o.
Proof.
  intros Hok E Ho. destruct o as [n|]; [|done]. simpl.
  apply deref_in; rewrite E; [by apply splay_ok_nodup|by apply Ho].
Qed.

Lemma head_elem {A} (l : list A) x : head l = Some x -> x ∈ l.
Proof. destruct l; [done|]. intros [= ->]. set_solver. Qed.

Lemma last_elem {A} (l : list A) x : last l = Some x -> x ∈ l.
Proof. intros [l' ->]%last_Some. set_solver. Qed.

(** The last node below a key is the greatest such node of a sorted list, and
    the first one above it the least. *)
Lemma last_below_max key l :
  StronglySorted key_lt l ->
  match last (below key l) with
  | Some n => n ∈ l /\ node_key n < key /\
      forall x, x ∈ l -> node_key x < key -> node_key x <= node_key n
  | None => forall x, x ∈ l -> key <= node_key x
  end.
Proof.
  intros Hs. destruct (last (below key l)) as [n|] eqn:E.
  - pose proof (last_elem _ _ E) as [Hk Hin]%list_elem_of_filter. split_and!; [done|done|].
    intros x Hx Hxk. apply last_Some in E as [l' E].
    assert (StronglySorted key_lt (below key l)) as Hsb.
    { rewrite (sorted_split_keys key l) in Hs by done. by apply StronglySorted_app_1_l in Hs. }
    assert (x ∈ below key l) as Hxb by (by apply list_elem_of_filter).
    rewrite E in Hsb, Hxb. apply elem_of_app in Hxb as [Hxb|Hxb].
    + assert (key_lt x n) by (eapply StronglySorted_app_1_elem_of; [done|done|set_solver]).
      unfold key_lt in *. lia.
    + apply list_elem_of_singleton in Hxb as ->. lia.
  - intros x Hx. apply last_None in E. destruct (Z_lt_le_dec (node_key x) key); [|done].
    exfalso. eapply (not_elem_of_nil x). rewrite <-E. by apply list_elem_of_filter.
Qed.

Lemma head_above_min key l :
  StronglySorted key_lt l ->
  match head (above key l) with
  | Some n => n ∈ l /\ key < node_key n /\
      forall x, x ∈ l -> key < node_key x -> node_key n <= node_key x
  | None => forall x, x ∈ l -> node_key x <= key
  end.
Proof.
  intros Hs. destruct (head (above key l)) as [n|] eqn:E.
  - pose proof (head_elem _ _ E) as [Hk Hin]%list_elem_of_filter. split_and!; [done|done|].
    intros x Hx Hxk.
    assert (StronglySorted key_lt (above key l)) as Hsb.
    { rewrite (sorted_split_keys key l) in Hs by done.
      by apply StronglySorted_app_1_r, StronglySorted_app_1_r in Hs. }
    assert (x ∈ above key l) as Hxb by (by apply list_elem_of_filter).
    destruct (above key l) as [|m l']; [done|]. injection E as ->.
    apply StronglySorted_cons in Hsb as [Hf _]. rewrite Forall_forall in Hf.
    apply elem_of_cons in Hxb as [->|Hxb]; [lia|]. specialize (Hf x Hxb). unfold key_lt in Hf. lia.
  - intros x Hx. destruct (Z_lt_le_dec key (node_key x)); [|done].
    exfalso. eapply (not_elem_of_nil x). destruct (above key l) eqn:E2; [|done].
    rewrite <-E2. by apply list_elem_of_filter.
Qed.

(** ** Properties *)

(** Splaying never changes what a tree stores: for any key the in-order
    sequence of nodes (addresses, keys and values) is the same before and after
    the rotations, and in a search tree the node that ends at the root is the
    one with the key or an immediate neighbour of it. *)
Theorem splay_preserves_and_finds (sp : splay_tree) (key : Z) :
  contents (splay_tree_splay sp key) = contents sp /\
  (bst (root sp) -> root sp <> Leaf ->
   exists p k v l r, root (splay_tree_splay sp key) = Node p k v l r /\
     closest key (contents sp) (MkNode p k v)).
Proof.
  split; [apply splay_tree_splay_contents|]. intros Hb Hne.
  unfold splay_tree_splay. destruct (root sp) as [|q0 k0 v0 l0 r0] eqn:E; [done|].
  destruct (splay_root_closest key _ Hb Hne) as (q & k & v & l & r & Es & Hc).
  exists q, k, v, l, r. unfold contents. rewrite E. by rewrite <-Es.
Qed.

Definition sample_tree : tree :=
  Node 2 20 25 (Node 0 5 9 Leaf (Node 1 12 15 Leaf Leaf)) (Node 3 40 41 Leaf Leaf).
Definition sample : splay_tree :=
  MkSplay sample_tree false [] (MkPool 4 [] 4 0 1 [3; 2; 1; 0]%nat 4).

Lemma sample_ok : splay_ok sample.
Proof.
  split.
  - unfold bst, key_lt. simpl. repeat constructor; simpl; lia.
  - split; simpl; [|by repeat constructor; simpl; lia|done|done|done|lia].
    compute_done.
  - simpl. solve_Permutation.
Qed.

Lemma splay_preserves_and_finds_witness :
  exists p k v l r, root (splay_tree_splay sample 13) = Node p k v l r /\
     closest 13 (contents sample) (MkNode p k v).
Proof.
  destruct (splay_preserves_and_finds sample 13) as [_ H].
  apply H; [apply sample_ok|done].
Defined.

(** A splay tree implements a finite map from keys to values: a lookup
    returns the node that holds the key's value and leaves the map unchanged. *)
Theorem splay_tree_lookup_refines (sp : splay_tree) (key : Z) :
  splay_ok sp ->
  let '(sp', o) := splay_tree_lookup sp key in
  splay_ok sp' /\ to_map sp' = to_map sp /\
  node_value <$> deref_opt o sp' = to_map sp !! key.
Proof.
  intros Hok. pose proof (splay_tree_lookup_spec sp key (splay_bst _ Hok)) as [Ec Eo].
  pose proof (splay_tree_splay_ok sp key Hok) as Hok'.
  destruct (splay_tree_lookup sp key) as [sp' o] eqn:E. simpl in Ec, Eo.
  injection E as <- _.
  split_and!; [done|unfold to_map; by rewrite Ec|].
  rewrite Eo, (deref_opt_query sp), to_map_lookup; try done.
  intros n Hn%head_elem. by apply list_elem_of_filter in Hn as [_ ?].
Qed.

(** Non-vacuity of [splay_ok]: the sample tree, and any tree just created. *)
Lemma splay_tree_lookup_refines_witness :
  node_value <$> deref_opt (splay_tree_lookup sample 12).2 (splay_tree_lookup sample 12).1 = Some 15.
Proof.
  pose proof (splay_tree_lookup_refines sample 12 sample_ok) as H.
  destruct (splay_tree_lookup sample 12) as [sp' o]. simpl. destruct H as (_ & _ & ->).
  vm_compute. reflexivity.
Defined.

(** [splay_tree_insert] is the map update: it never aborts on a well-formed
    tree, keeps it well-formed, sets exactly the binding of the key, and returns
    the node of that binding. *)
Theorem splay_tree_insert_refines (sp : splay_tree) (key value : Z) :
  splay_ok sp ->
  exists sp' p, splay_tree_insert sp key value = Ok (sp', p) /\ splay_ok sp' /\
    to_map sp' = <[key := value]> (to_map sp) /\
    deref p (root sp') = Some (MkNode p key value).
Proof.
  intros Hok. destruct (splay_tree_insert_spec sp key value Hok) as (sp' & p & E & Hok' & Ec & _).
  exists sp', p. split_and!; [done|done| |].
  - apply map_eq. intros j. rewrite lookup_insert, !to_map_lookup, Ec, with_key_put_node
      by apply Hok. by case_decide.
  - apply (deref_in sp' (MkNode p key value)); [by apply splay_ok_nodup|].
    rewrite Ec. unfold put_node. set_solver.
Qed.

Lemma splay_tree_insert_refines_witness :
  exists sp' p, splay_tree_insert sample 30 33 = Ok (sp', p) /\ splay_ok sp' /\
    to_map sp' = <[30 := 33]> (to_map sample) /\ deref p (root sp') = Some (MkNode p 30 33).
Proof. apply (splay_tree_insert_refines sample 30 33), sample_ok. Defined.

(** [splay_tree_delete] removes exactly the binding of the key, and is the
    identity on the map when the key is absent; the pool gets the node back. *)
Theorem splay_tree_delete_refines (sp : splay_tree) (key : Z) :
  splay_ok sp ->
  exists sp', splay_tree_delete sp key = Ok sp' /\ splay_ok sp' /\
    to_map sp' = delete key (to_map sp).
Proof.
  intros Hok. destruct (splay_tree_delete_spec sp key Hok) as (sp' & E & Hok' & Ec).
  exists sp'. split_and!; [done|done|].
  apply map_eq. intros j. rewrite lookup_delete, !to_map_lookup, Ec, with_key_drop by apply Hok.
  by case_decide.
Qed.

Lemma splay_tree_delete_refines_witness :
  exists sp', splay_tree_delete sample 20 = Ok sp' /\ splay_ok sp' /\
    to_map sp' = delete 20 (to_map sample).
Proof. apply (splay_tree_delete_refines sample 20), sample_ok. Defined.

(** Sequences of operations on one tree, and the same sequences on a map. *)
Inductive splay_op : Type :=
  | SpLookup (key : Z)
  | SpInsert (key value : Z)
  | SpDelete (key : Z).

(** The answers of the lookups: the value in the node that is returned. *)
Fixpoint splay_run (sp : splay_tree) (ops : list splay_op) : res (splay_tree * list (option Z)) :=
  match ops with
  | [] => Ok (sp, [])
  | SpLookup k :: ops =>
      let '(sp, o) := splay_tree_lookup sp k in
      let a := node_value <$> deref_opt o sp in
      '(sp, l) ← splay_run sp ops; Ok (sp, a :: l)
  | SpInsert k v :: ops => '(sp, _) ← splay_tree_insert sp k v; splay_run sp ops
  | SpDelete k :: ops => sp ← splay_tree_delete sp k; splay_run sp ops
  end.

Fixpoint map_run (m : gmap Z Z) (ops : list splay_op) : gmap Z Z * list (option Z) :=
  match ops with
  | [] => (m, [])
  | SpLookup k :: ops => let '(m', l) := map_run m ops in (m', m !! k :: l)
  | SpInsert k v :: ops => map_run (<[k := v]> m) ops
  | SpDelete k :: ops => map_run (delete k m) ops
  end.

(** C21. A splay tree implements a finite map: any sequence of lookups, insertions
    and deletions on a well-formed tree runs without aborting, every lookup gives
    the node with the value a finite map would give, and the tree left is
    well-formed and holds the resulting map. *)
Theorem splay_tree_refines_map (ops : list splay_op) (sp : splay_tree) :
  splay_ok sp ->
  exists sp', splay_run sp ops = Ok (sp', (map_run (to_map sp) ops).2) /\ splay_ok sp' /\
    to_map sp' = (map_run (to_map sp) ops).1.
Proof.
  revert sp. induction ops as [|[k|k v|k] ops IH]; intros sp Hok; cbn [splay_run map_run].
  - by exists sp.
  - pose proof (splay_tree_lookup_refines sp k Hok) as Hl. destruct (splay_tree_lookup sp k) as [sp1 o].
    destruct Hl as (Hok1 & E1 & Ea). destruct (IH sp1 Hok1) as (sp2 & -> & Hok2 & E2). cbn [mbind res_bind].
    rewrite E1 in *. destruct (map_run (to_map sp) ops) as [m l]. exists sp2. by rewrite Ea.
  - destruct (splay_tree_insert_refines sp k v Hok) as (sp1 & p & -> & Hok1 & E1 & _). cbn [mbind res_bind].
    rewrite <-E1. by apply IH.
  - destruct (splay_tree_delete_refines sp k Hok) as (sp1 & -> & Hok1 & E1). cbn [mbind res_bind].
    rewrite <-E1. by apply IH.
Qed.

Lemma splay_tree_refines_map_witness :
  let ops := [SpInsert 30 33; SpDelete 20; SpLookup 12; SpLookup 20; SpLookup 30] in
  (map_run (to_map sample) ops).2 = [Some 15; None; Some 33] /\
  exists sp', splay_run sample ops = Ok (sp', [Some 15; None; Some 33]) /\ splay_ok sp' /\
    to_map sp' = (map_run (to_map sample) ops).1.
Proof.
  intros ops. split; [vm_compute; reflexivity|]. apply (splay_tree_refines_map ops sample), sample_ok.
Defined.

(** [splay_tree_predecessor] and [splay_tree_successor] return the nodes with
    the greatest key below and the least key above the argument, whether or not
    the key itself is present, and return NULL when there is none. *)
Theorem splay_tree_neighbours (sp : splay_tree) (key : Z) :
  splay_ok sp ->
  let '(sp1, o1) := splay_tree_predecessor sp key in
  let '(sp2, o2) := splay_tree_successor sp key in
  contents sp1 = contents sp /\ contents sp2 = contents sp /\
  match deref_opt o1 sp1 with
  | Some n => n ∈ contents sp /\ node_key n < key /\
      forall x, x ∈ contents sp -> node_key x < key -> node_key x <= node_key n
  | None => forall x, x ∈ contents sp -> key <= node_key x
  end /\
  match deref_opt o2 sp2 with
  | Some n => n ∈ contents sp /\ key < node_key n /\
      forall x, x ∈ contents sp -> key < node_key x -> node_key n <= node_key x
  | None => forall x, x ∈ contents sp -> node_key x <= key
  end.
Proof.
  intros Hok. pose proof (splay_bst _ Hok) as Hb.
  pose proof (splay_tree_predecessor_spec sp key Hb) as [E1 O1].
  pose proof (splay_tree_successor_spec sp key Hb) as [E2 O2].
  destruct (splay_tree_predecessor sp key) as [sp1 o1].
  destruct (splay_tree_successor sp key) as [sp2 o2]. simpl in *. subst o1 o2.
  split; [done|]. split; [done|].
  assert (forall l x, x ∈ below key l -> x ∈ l /\ node_key x < key) as Hbel
    by (intros l x [? ?]%list_elem_of_filter; done).
  assert (forall l x, x ∈ above key l -> x ∈ l /\ key < node_key x) as Habv
    by (intros l x [? ?]%list_elem_of_filter; done).
  rewrite !(deref_opt_query sp); try done.
  - split; [by apply last_below_max|by apply head_above_min].
  - intros n Hn%head_elem. by apply Habv.
  - intros n Hn%last_elem. by apply Hbel.
Qed.

Lemma splay_tree_neighbours_witness :
  deref_opt (splay_tree_predecessor sample 13).2 (splay_tree_predecessor sample 13).1
    = Some (MkNode 1 12 15) /\
  (forall x, x ∈ contents sample -> node_key x < 13 -> node_key x <= 12).
Proof.
  pose proof (splay_tree_neighbours sample 13 sample_ok) as H.
  rewrite (surjective_pairing (splay_tree_predecessor sample 13)),
    (surjective_pairing (splay_tree_successor sample 13)) in H.
  destruct H as (_ & _ & H & _).
  assert (deref_opt (splay_tree_predecessor sample 13).2 (splay_tree_predecessor sample 13).1
    = Some (MkNode 1 12 15)) as D by (vm_compute; reflexivity).
  rewrite D in H |- *. destruct H as (_ & _ & H). split; [done|exact H].
Defined.

(** Clients reason with the specifications above. *)
#[global] Arguments splay_tree_splay : simpl never.
#[global] Arguments splay_tree_lookup : simpl never.
#[global] Arguments splay_tree_predecessor : simpl never.
#[global] Arguments splay_tree_successor : simpl never.
#[global] Arguments splay_tree_insert : simpl never.
#[global] Arguments splay_tree_delete : simpl never.
