(* ===== verification/IntervalTree.v ===== *)
(** Disjoint interval trees: [src/zfsd/lib/interval-tree/interval.c].

    An interval tree is a splay tree whose key is the start and whose value is
    the (exclusive) end of an interval.  The operations look nodes up, assign
    through the pointers they get back and delete nodes, exactly as the source
    does; dereferencing a pointer that designates no node is [Aborted].  The
    [while] loops take a fuel argument, and the calls give them one more than
    the number of nodes. *)

From S2P Require Import Prelude AllocPool FileIO SplayTree.

Record interval := MkInterval { start : Z; end_ : Z }.

Record interval_tree := MkIT {
  it_splay : splay_tree;
  it_preferred_size : nat;
  it_size : Z;
  it_fd : Z;
  it_generation : Z;
  it_deleted : bool
}.

Definition INTERVAL_START (n : node) : Z := node_key n.
Definition INTERVAL_END (n : node) : Z := node_value n.

Definition INTERVAL_COUNT : nat := 1024.

Definition with_splay (tree : interval_tree) (sp : splay_tree) : interval_tree :=
  MkIT sp (it_preferred_size tree) (it_size tree) (it_fd tree) (it_generation tree) (it_deleted tree).

Definition add_size (tree : interval_tree) (d : Z) : interval_tree :=
  MkIT (it_splay tree) (it_preferred_size tree) (u32 (it_size tree + d)) (it_fd tree)
    (it_generation tree) (it_deleted tree).

Definition set_deleted (tree : interval_tree) : interval_tree :=
  MkIT (it_splay tree) (it_preferred_size tree) (it_size tree) (it_fd tree)
    (it_generation tree) true.

(** [*p] *)
Definition get (p : ptr) (sp : splay_tree) : res node :=
  match deref p (root sp) with
  | Some n => Ok n
  | None => Aborted
  end.

(** [p && cond(p)] *)
Definition test (o : option ptr) (sp : splay_tree) (cond : node -> bool) : res bool :=
  match o with
  | None => Ok false
  | Some p => n ← get p sp; Ok (cond n)
  end.

(** One more than the number of nodes: the fuel of the loops below. *)
Definition fuel_of (sp : splay_tree) : nat := S (length (contents sp)).

Definition interval_tree_create (preferred_size : nat) : res interval_tree :=
  sp ← splay_tree_create preferred_size false;
  Ok (MkIT sp preferred_size 0 (-1) 0 false).

(** [interval_tree_destroy] frees the splay tree; nothing of the tree is left. *)
Definition interval_tree_destroy (tree : interval_tree) : res (list Z * alloc_pool) :=
  splay_tree_destroy (it_splay tree).

Definition interval_tree_empty (tree : interval_tree) : res interval_tree :=
  let tree := match root (it_splay tree) with Leaf => tree | _ => set_deleted tree end in
  sp ← splay_tree_empty (it_splay tree);
  Ok (MkIT sp (it_preferred_size tree) 0 (it_fd tree) (it_generation tree) (it_deleted tree)).

(** The loop of [interval_tree_insert] that merges the covered successors. *)
Fixpoint merge_successors (fuel : nat) (tree : interval_tree) (nod : ptr) : res interval_tree :=
  match fuel with
  | O => OutOfFuel
  | S fuel =>
      n ← get nod (it_splay tree);
      let '(sp, next) := splay_tree_successor (it_splay tree) (INTERVAL_START n) in
      match next with
      | None => Ok (with_splay tree sp)
      | Some next =>
          n ← get nod sp;
          x ← get next sp;
          if INTERVAL_START x <=? INTERVAL_END n then
            let sp := if INTERVAL_END n <? INTERVAL_END x
                      then set_value nod (INTERVAL_END x) sp else sp in
            x ← get next sp;
            sp ← splay_tree_delete sp (INTERVAL_START x);
            merge_successors fuel (add_size (with_splay tree sp) (-1)) nod
          else Ok (with_splay tree sp)
      end
  end.

Definition merge_and_return (tree : interval_tree) (nod : ptr) : res (interval_tree * ptr) :=
  tree ← merge_successors (fuel_of (it_splay tree)) tree nod;
  Ok (tree, nod).

Definition interval_tree_insert (tree : interval_tree) (start end_ : Z)
    : res (interval_tree * ptr) :=
  let '(sp, nod) := splay_tree_lookup (it_splay tree) start in
  match nod with
  | Some nod =>
      n ← get nod sp;
      if end_ <=? INTERVAL_END n then Ok (with_splay tree sp, nod)
      else merge_and_return (with_splay tree (set_value nod end_ sp)) nod
  | None =>
      let '(sp, prev) := splay_tree_predecessor sp start in
      let '(sp, next) := splay_tree_successor sp start in
      extends_prev ← test prev sp (fun n => start <=? INTERVAL_END n);
      match prev, extends_prev with
      | Some nod, true =>
          n ← get nod sp;
          let sp := if INTERVAL_END n <? end_ then set_value nod end_ sp else sp in
          merge_and_return (with_splay tree sp) nod
      | _, _ =>
          extends_next ← test next sp (fun n => INTERVAL_START n <=? end_);
          match next, extends_next with
          | Some nod, true =>
              n ← get nod sp;
              let sp := if start <? INTERVAL_START n then set_key nod start sp else sp in
              n ← get nod sp;
              let sp := if INTERVAL_END n <? end_ then set_value nod end_ sp else sp in
              merge_and_return (with_splay tree sp) nod
          | _, _ =>
              '(sp, nod) ← splay_tree_insert sp start end_;
              merge_and_return (add_size (with_splay tree sp) 1) nod
          end
      end
  end.

Definition interval_tree_lookup (tree : interval_tree) (value : Z)
    : res (interval_tree * option ptr) :=
  let '(sp, nod) := splay_tree_lookup (it_splay tree) value in
  match nod with
  | Some _ => Ok (with_splay tree sp, nod)
  | None =>
      let '(sp, nod) := splay_tree_predecessor sp value in
      inside ← test nod sp (fun n => value <? INTERVAL_END n);
      if inside : bool then Ok (with_splay tree sp, nod)
      else
        let '(sp, nod) := splay_tree_successor sp value in
        Ok (with_splay tree sp, nod)
  end.

(** The loop of [interval_tree_delete]. *)
Fixpoint delete_successors (fuel : nat) (tree : interval_tree) (start end_ : Z)
    : res interval_tree :=
  match fuel with
  | O => OutOfFuel
  | S fuel =>
      let '(sp, next) := splay_tree_successor (it_splay tree) start in
      let tree := with_splay tree sp in
      match next with
      | None => Ok tree
      | Some next =>
          x ← get next sp;
          if end_ <=? INTERVAL_START x then Ok tree
          else
            let tree := set_deleted tree in
            if INTERVAL_END x <=? end_ then
              sp ← splay_tree_delete sp (INTERVAL_START x);
              delete_successors fuel (add_size (with_splay tree sp) (-1)) start end_
            else Ok (with_splay tree (set_key next end_ sp))
      end
  end.

Definition delete_rest (tree : interval_tree) (start end_ : Z) : res interval_tree :=
  delete_successors (fuel_of (it_splay tree)) tree start end_.

Definition interval_tree_delete (tree : interval_tree) (start end_ : Z) : res interval_tree :=
  let '(sp, nod) := splay_tree_lookup (it_splay tree) start in
  match nod with
  | Some nod =>
      let tree := set_deleted tree in
      n ← get nod sp;
      if end_ <? INTERVAL_END n then Ok (with_splay tree (set_key nod end_ sp))
      else
        sp ← splay_tree_delete sp start;
        delete_rest (add_size (with_splay tree sp) (-1)) start end_
  | None =>
      let '(sp, prev) := splay_tree_predecessor sp start in
      overlaps ← test prev sp (fun n => start <? INTERVAL_END n);
      match prev, overlaps with
      | Some prev, true =>
          let tree := set_deleted tree in
          n ← get prev sp;
          if end_ <? INTERVAL_END n then
            '(sp, _) ← splay_tree_insert sp end_ (INTERVAL_END n);
            Ok (with_splay (add_size tree 1) (set_value prev start sp))
          else
            delete_rest (with_splay tree (set_value prev start sp)) start end_
      | _, _ => delete_rest (with_splay tree sp) start end_
      end
  end.

Definition interval_tree_add_1 (n : node) (tree : interval_tree) : res (interval_tree * Z) :=
  '(tree, _) ← interval_tree_insert tree (INTERVAL_START n) (INTERVAL_END n);
  Ok (tree, 0).

Definition interval_tree_add (tree1 tree2 : interval_tree) : res interval_tree :=
  '(tree1, _) ← splay_tree_foreach (it_splay tree2) interval_tree_add_1 tree1;
  Ok tree1.

Definition interval_tree_sub_1 (n : node) (tree : interval_tree) : res (interval_tree * Z) :=
  tree ← interval_tree_delete tree (INTERVAL_START n) (INTERVAL_END n);
  Ok (tree, match root (it_splay tree) with Leaf => 1 | _ => 0 end).

Definition interval_tree_sub (tree1 tree2 : interval_tree) : res interval_tree :=
  '(tree1, _) ← splay_tree_foreach (it_splay tree2) interval_tree_sub_1 tree1;
  Ok tree1.

Definition interval_tree_min (tree : interval_tree) : option ptr := splay_tree_min (it_splay tree).

Definition interval_tree_max (tree : interval_tree) : option ptr := splay_tree_max (it_splay tree).

Definition interval_tree_predecessor (tree : interval_tree) (key : Z) : interval_tree * option ptr :=
  let '(sp, n) := splay_tree_predecessor (it_splay tree) key in (with_splay tree sp, n).

Definition interval_tree_successor (tree : interval_tree) (key : Z) : interval_tree * option ptr :=
  let '(sp, n) := splay_tree_successor (it_splay tree) key in (with_splay tree sp, n).

Definition interval_tree_covered (tree : interval_tree) (start end_ : Z)
    : res (interval_tree * bool) :=
  let '(sp, nod) := splay_tree_lookup (it_splay tree) start in
  match nod with
  | Some nod => n ← get nod sp; Ok (with_splay tree sp, end_ <=? INTERVAL_END n)
  | None =>
      let '(sp, nod) := splay_tree_predecessor sp start in
      match nod with
      | None => Ok (with_splay tree sp, false)
      | Some nod => n ← get nod sp; Ok (with_splay tree sp, end_ <=? INTERVAL_END n)
      end
  end.

(** *** Reading and writing *)

(** The 16 bytes of an interval in a file: both ends, least significant byte first. *)
Definition encode_interval (i : interval) : list Z := le_bytes 8 (start i) ++ le_bytes 8 (end_ i).

Definition decode_interval (b : list Z) : interval :=
  MkInterval (le_value (take 8 b)) (le_value (take 8 (drop 8 b))).

Definition sizeof_interval : nat := 16.

Section files.
Context {F : Type} `{SysFile F} (io_steps : nat).

(** The [for] loop over one block that was read. *)
Fixpoint read_block (tree : interval_tree) (block : nat) (bytes : list Z) : res interval_tree :=
  match block with
  | O => Ok tree
  | S block =>
      let i := decode_interval bytes in
      '(tree, _) ← interval_tree_insert tree (start i) (end_ i);
      read_block tree block (drop sizeof_interval bytes)
  end.

Fixpoint read_loop (fuel : nat) (tree : interval_tree) (s : io F) (n : nat)
    : res (interval_tree * io F * bool) :=
  match n with
  | O => Ok (tree, s, true)
  | _ =>
      match fuel with
      | O => OutOfFuel
      | S fuel =>
          let block := if decide (INTERVAL_COUNT < n)%nat then INTERVAL_COUNT else n in
          '(s, r) ← full_read io_steps s [] (block * sizeof_interval);
          match r with
          | None => Ok (tree, s, false)
          | Some bytes =>
              tree ← read_block tree block bytes;
              read_loop fuel tree s (n - block)
          end
      end
  end.

Definition interval_tree_read (tree : interval_tree) (s : io F) (n : nat)
    : res (interval_tree * io F * bool) :=
  read_loop n tree s n.

(** [data] is the buffer of [interval_tree_write_data], [data->n] its length. *)
Fixpoint interval_tree_write_1 (t : tree) (s : io F) (data : list interval)
    : res (io F * list interval * bool) :=
  match t with
  | Leaf => Ok (s, data, true)
  | Node _ k v l r =>
      '(s, data, ok) ← interval_tree_write_1 l s data;
      if negb ok then Ok (s, data, ok)
      else
        let data := data ++ [MkInterval k v] in
        '(s, data, ok) ←
          (if decide (length data = INTERVAL_COUNT) then
             '(s, ok) ← full_write io_steps s (mjoin (encode_interval <$> data));
             Ok (s, if ok : bool then [] else data, ok)
           else Ok (s, data, true));
        if negb ok then Ok (s, data, ok)
        else interval_tree_write_1 r s data
  end.

Definition interval_tree_write (tree : interval_tree) (s : io F) : res (io F * bool) :=
  match root (it_splay tree) with
  | Leaf => Ok (s, true)
  | t =>
      '(s, data, ok) ← interval_tree_write_1 t s [];
      if negb ok then Ok (s, ok)
      else
        match data with
        | [] => Ok (s, ok)
        | _ => full_write io_steps s (mjoin (encode_interval <$> data))
        end
  end.
End files.

(** *** Intersection and complement *)

Fixpoint intersection_loop (fuel : nat) (sp : splay_tree) (nod : option ptr) (start end_ : Z)
    (dest : list interval) : res (splay_tree * list interval) :=
  match nod with
  | None => Ok (sp, dest)
  | Some nod =>
      n ← get nod sp;
      if INTERVAL_START n <? end_ then
        match fuel with
        | O => OutOfFuel
        | S fuel =>
            let x := MkInterval (Z.max start (INTERVAL_START n)) (Z.min end_ (INTERVAL_END n)) in
            let '(sp, nod) := splay_tree_successor sp (INTERVAL_START n) in
            intersection_loop fuel sp nod start end_ (dest ++ [x])
        end
      else Ok (sp, dest)
  end.

Definition interval_tree_intersection_1 (tree : interval_tree) (start end_ : Z)
    (dest : list interval) : res (interval_tree * list interval) :=
  let '(sp, nod) := splay_tree_lookup (it_splay tree) start in
  '(sp, nod) ←
    match nod with
    | Some _ => Ok (sp, nod)
    | None =>
        let '(sp, nod) := splay_tree_predecessor sp start in
        use ← test nod sp (fun n => negb (INTERVAL_END n <=? start));
        if use : bool then Ok (sp, nod) else Ok (splay_tree_successor sp start)
    end;
  let '(sp, nod) := match nod with Some _ => (sp, nod) | None => splay_tree_successor sp start end in
  '(sp, dest) ← intersection_loop (fuel_of sp) sp nod start end_ dest;
  Ok (with_splay tree sp, dest).

Definition interval_tree_intersection (tree : interval_tree) (start end_ : Z)
    : res (interval_tree * list interval) :=
  interval_tree_intersection_1 tree start end_ [].

Fixpoint varray_loop (f : interval_tree -> Z -> Z -> list interval -> res (interval_tree * list interval))
    (tree : interval_tree) (src : list interval) (dest : list interval)
    : res (interval_tree * list interval) :=
  match src with
  | [] => Ok (tree, dest)
  | x :: src =>
      '(tree, dest) ← f tree (start x) (end_ x) dest;
      varray_loop f tree src dest
  end.

Definition interval_tree_intersection_varray (tree : interval_tree) (src : list interval)
    : res (interval_tree * list interval) :=
  varray_loop interval_tree_intersection_1 tree src [].

Fixpoint complement_loop (fuel : nat) (sp : splay_tree) (nod : option ptr) (last end_ : Z)
    (dest : list interval) : res (splay_tree * list interval) :=
  if last <? end_ then
    match nod with
    | None => Ok (sp, dest ++ [MkInterval last end_])
    | Some nod =>
        match fuel with
        | O => OutOfFuel
        | S fuel =>
            n ← get nod sp;
            let dest := dest ++ [MkInterval last (INTERVAL_START n)] in
            let last := INTERVAL_END n in
            let '(sp, nod) := splay_tree_successor sp (INTERVAL_START n) in
            complement_loop fuel sp nod last end_ dest
        end
    end
  else Ok (sp, dest).

Definition interval_tree_complement_1 (tree : interval_tree) (start end_ : Z)
    (dest : list interval) : res (interval_tree * list interval) :=
  let '(sp, nod) := splay_tree_lookup (it_splay tree) start in
  '(sp, last) ←
    match nod with
    | Some nod => n ← get nod sp; Ok (sp, INTERVAL_END n)
    | None =>
        let '(sp, nod) := splay_tree_predecessor sp start in
        use ← test nod sp (fun n => start <? INTERVAL_END n);
        match nod, use with
        | Some nod, true => n ← get nod sp; Ok (sp, INTERVAL_END n)
        | _, _ => Ok (sp, start)
        end
    end;
  let '(sp, nod) := splay_tree_successor sp start in
  '(sp, dest) ← complement_loop (fuel_of sp) sp nod last end_ dest;
  Ok (with_splay tree sp, dest).

Definition interval_tree_complement (tree : interval_tree) (start end_ : Z)
    : res (interval_tree * list interval) :=
  interval_tree_complement_1 tree start end_ [].

Definition interval_tree_complement_varray (tree : interval_tree) (src : list interval)
    : res (interval_tree * list interval) :=
  varray_loop interval_tree_complement_1 tree src [].

#[global] Arguments contents : simpl never.
#[global] Arguments merge_and_return : simpl never.
#[global] Arguments interval_tree_insert : simpl never.
#[global] Arguments interval_tree_delete : simpl never.
#[global] Arguments set_value : simpl never.
#[global] Arguments set_key : simpl never.

(** ** The abstract view: a set of points *)

(** [x] lies in one of the intervals of the list. *)
Definition cov (l : list node) (x : Z) : Prop := exists n, n ∈ l /\ node_key n <= x < node_value n.

#[export] Instance cov_dec l x : Decision (cov l x).
Proof.
  refine (cast_if (decide (Exists (fun n => node_key n <= x < node_value n) l)));
    unfold cov; rewrite <-list.Exists_exists; done.
Defined.

(** Intervals are non-empty, sorted, pairwise disjoint and not adjacent. *)
Definition separated (l : list node) : Prop :=
  StronglySorted (fun m n => node_value m < node_key n) l /\
  Forall (fun n => node_key n < node_value n) l.

Definition points (tree : interval_tree) : Z -> Prop := cov (contents (it_splay tree)).

Record it_ok (tree : interval_tree) : Prop := {
  it_splay_ok : splay_ok (it_splay tree);
  it_separated : separated (contents (it_splay tree));
  it_size_ok : it_size tree = u32 (Z.of_nat (length (contents (it_splay tree))))
}.

Lemma cov_nil x : cov [] x <-> False.
Proof. unfold cov. set_solver. Qed.

Lemma cov_cons n l x : cov (n :: l) x <-> node_key n <= x < node_value n \/ cov l x.
Proof. unfold cov. set_solver. Qed.

Lemma cov_app l1 l2 x : cov (l1 ++ l2) x <-> cov l1 x \/ cov l2 x.
Proof. unfold cov. set_solver. Qed.

Lemma separated_nil : separated [].
Proof. split; constructor. Qed.

Lemma separated_cons n l :
  separated (n :: l) <->
  node_key n < node_value n /\ (forall x, x ∈ l -> node_value n < node_key x) /\ separated l.
Proof.
  unfold separated. rewrite StronglySorted_cons, !Forall_cons, !Forall_forall. naive_solver.
Qed.

Lemma separated_app l1 l2 :
  separated (l1 ++ l2) <->
  separated l1 /\ separated l2 /\ (forall x y, x ∈ l1 -> y ∈ l2 -> node_value x < node_key y).
Proof. unfold separated. rewrite StronglySorted_app, !Forall_app. naive_solver. Qed.

Lemma separated_elem l n : separated l -> n ∈ l -> node_key n < node_value n.
Proof. intros [_ H] Hn. rewrite Forall_forall in H. by apply H. Qed.

Lemma cov_lower l k x :
  (forall n, n ∈ l -> k < node_key n) -> cov l x -> k < x.
Proof. intros H (n & Hn & ?). specialize (H n Hn). lia. Qed.

Lemma cov_upper l k x :
  (forall n, n ∈ l -> node_value n <= k) -> cov l x -> x < k.
Proof. intros H (n & Hn & ?). specialize (H n Hn). lia. Qed.

(** What the merge loop does to the end [e] of a node and its successors. *)
Fixpoint absorb (e : Z) (l : list node) : Z * list node :=
  match l with
  | [] => (e, [])
  | x :: l' => if node_key x <=? e then absorb (Z.max e (node_value x)) l' else (e, x :: l')
  end.

Lemma absorb_ge l : forall e, e <= (absorb e l).1.
Proof.
  induction l as [|x l IH]; intros e; simpl; [lia|]. case_if; simpl; [|lia].
  specialize (IH (Z.max e (node_value x))). lia.
Qed.

Lemma absorb_suffix l : forall e, exists l', l = l' ++ (absorb e l).2.
Proof.
  induction l as [|x l IH]; intros e; simpl; [by exists []|]. case_if; [|by exists []].
  destruct (IH (Z.max e (node_value x))) as [l' E']. exists (x :: l'). simpl. by rewrite <-E'.
Qed.

Lemma absorb_length e l : (length (absorb e l).2 <= length l)%nat.
Proof.
  destruct (absorb_suffix l e) as [l' E]. apply (f_equal length) in E.
  rewrite length_app in E. lia.
Qed.

Lemma absorb_separated l : forall e, separated l ->
  separated (absorb e l).2 /\ (forall x, x ∈ (absorb e l).2 -> (absorb e l).1 < node_key x).
Proof.
  induction l as [|x l IH]; intros e Hs; simpl; [split; [done|set_solver]|].
  apply separated_cons in Hs as (Hx & Hl & Hs). case_if; [by apply IH|]. simpl.
  split; [by apply separated_cons|]. intros y [->|Hy]%elem_of_cons; [done|].
  specialize (Hl y Hy). lia.
Qed.

Lemma absorb_cov l : forall k e x, k < e -> separated l -> (forall n, n ∈ l -> k < node_key n) ->
  (k <= x < (absorb e l).1 \/ cov (absorb e l).2 x) <-> (k <= x < e \/ cov l x).
Proof.
  induction l as [|n l IH]; intros k e x Hk Hs Hl; simpl; [done|].
  apply separated_cons in Hs as (Hn & Hnl & Hs). case_if; simpl; [|done].
  rewrite IH, cov_cons by (done || lia || set_solver).
  assert (k < node_key n) by (apply Hl; set_solver).
  split; [|naive_solver lia]. intros [?|?]; [|tauto]. lia.
Qed.

(** ** Facts about the splay tree below *)

Lemma contents_sorted sp : splay_ok sp -> StronglySorted key_lt (contents sp).
Proof. intros [Hb _ _]. done. Qed.

Lemma get_node sp n : splay_ok sp -> n ∈ contents sp -> get (node_ptr n) sp = Ok n.
Proof.
  intros Hok Hn. unfold get. by rewrite (deref_in _ _ (splay_ok_nodup _ Hok) Hn).
Qed.

Lemma get_mk sp p k v : splay_ok sp -> MkNode p k v ∈ contents sp -> get p sp = Ok (MkNode p k v).
Proof. apply (get_node sp (MkNode p k v)). Qed.

(** Reading the queries of the splay tree as list operations. *)
Lemma lookup_step sp key :
  splay_ok sp ->
  exists sp', splay_tree_lookup sp key = (sp', node_ptr <$> head (with_key key (contents sp))) /\
    splay_ok sp' /\ contents sp' = contents sp.
Proof.
  intros Hok. destruct (splay_tree_lookup_spec sp key (splay_bst _ Hok)) as [Ec Eo].
  rewrite (surjective_pairing (splay_tree_lookup sp key)), Eo.
  eexists. split_and!; [done|by apply splay_tree_splay_ok|done].
Qed.

Lemma predecessor_step sp key :
  splay_ok sp ->
  exists sp', splay_tree_predecessor sp key = (sp', node_ptr <$> last (below key (contents sp))) /\
    splay_ok sp' /\ contents sp' = contents sp.
Proof.
  intros Hok. destruct (splay_tree_predecessor_spec sp key (splay_bst _ Hok)) as [Ec Eo].
  rewrite (surjective_pairing (splay_tree_predecessor sp key)), Eo.
  eexists. split_and!; [done|by apply splay_tree_splay_ok|done].
Qed.

Lemma successor_step sp key :
  splay_ok sp ->
  exists sp', splay_tree_successor sp key = (sp', node_ptr <$> head (above key (contents sp))) /\
    splay_ok sp' /\ contents sp' = contents sp.
Proof.
  intros Hok. destruct (splay_tree_successor_spec sp key (splay_bst _ Hok)) as [Ec Eo].
  rewrite (surjective_pairing (splay_tree_successor sp key)), Eo.
  eexists. split_and!; [done|by apply splay_tree_splay_ok|done].
Qed.

Lemma delete_step sp l1 n l2 :
  splay_ok sp -> contents sp = l1 ++ n :: l2 ->
  exists sp', splay_tree_delete sp (node_key n) = Ok sp' /\ splay_ok sp' /\ contents sp' = l1 ++ l2.
Proof.
  intros Hok E. destruct (splay_tree_delete_spec sp (node_key n) Hok) as (sp' & Ed & Hok' & Ec).
  exists sp'. split_and!; [done|done|]. pose proof (contents_sorted _ Hok) as Hs. rewrite E in *.
  destruct (split_at_node _ _ _ Hs) as (Hb & _ & Ha). by rewrite Ec, Hb, Ha.
Qed.

Lemma delete_mk sp l1 p k v l2 :
  splay_ok sp -> contents sp = l1 ++ MkNode p k v :: l2 ->
  exists sp', splay_tree_delete sp k = Ok sp' /\ splay_ok sp' /\ contents sp' = l1 ++ l2.
Proof. apply (delete_step sp l1 (MkNode p k v)). Qed.

Lemma successor_at sp l1 n l2 :
  splay_ok sp -> contents sp = l1 ++ n :: l2 ->
  exists sp', splay_tree_successor sp (node_key n) = (sp', node_ptr <$> head l2) /\
    splay_ok sp' /\ contents sp' = l1 ++ n :: l2.
Proof.
  intros Hok E. destruct (successor_step sp (node_key n) Hok) as (sp' & Es & Hok' & Ec).
  exists sp'. pose proof (contents_sorted _ Hok) as Hs. rewrite E in *.
  destruct (split_at_node _ _ _ Hs) as (_ & _ & Ha). rewrite Ha in Es. done.
Qed.

Lemma u32_sub_step (s : Z) (a : nat) : u32 (u32 (s + -1) - Z.of_nat a) = u32 (s - Z.of_nat (S a)).
Proof. rewrite wrap_sub_l. f_equal. lia. Qed.

(** The merge loop: it terminates and absorbs the covered successors. *)
Lemma merge_successors_spec fuel : forall tree l1 p k v l2,
  splay_ok (it_splay tree) -> contents (it_splay tree) = l1 ++ MkNode p k v :: l2 ->
  (length l2 < fuel)%nat ->
  exists sp', merge_successors fuel tree p =
      Ok (MkIT sp' (it_preferred_size tree)
            (if decide (length l2 = length (absorb v l2).2) then it_size tree
             else u32 (it_size tree - Z.of_nat (length l2 - length (absorb v l2).2)))
            (it_fd tree) (it_generation tree) (it_deleted tree)) /\
    splay_ok sp' /\ contents sp' = l1 ++ MkNode p k (absorb v l2).1 :: (absorb v l2).2.
Proof.
  induction fuel as [|fuel IH]; intros tree l1 p k v l2 Hok E Hf; [lia|]. cbn.
  rewrite (get_node _ (MkNode p k v)) by (done || rewrite E; set_solver). cbn.
  unfold INTERVAL_START, INTERVAL_END in *. cbn.
  destruct (successor_at _ _ (MkNode p k v) _ Hok E) as (sp1 & Es & Hok1 & E1).
  cbn in Es. rewrite Es. destruct l2 as [|x l2]; cbn.
  { exists sp1. done. }
  rewrite (get_node _ (MkNode p k v)), (get_node _ x) by (done || rewrite E1; set_solver). cbn.
  case_if.
  2:{ exists sp1. cbn. rewrite decide_True by done. done. }
  assert (exists sp2, (if v <? node_value x then set_value p (node_value x) sp1 else sp1) = sp2 /\
            splay_ok sp2 /\ contents sp2 = l1 ++ MkNode p k (Z.max v (node_value x)) :: x :: l2)
    as (sp2 & -> & Hok2 & E2).
  { eexists. split; [done|]. case_if.
    - rewrite Z.max_r by lia. by eapply set_value_ok.
    - by rewrite Z.max_l by lia. }
  rewrite (get_node _ x) by (done || rewrite E2; set_solver). cbn.
  destruct (delete_step sp2 (l1 ++ [MkNode p k (Z.max v (node_value x))]) x l2 Hok2)
    as (sp3 & -> & Hok3 & E3). { by rewrite E2, <-app_assoc. }
  cbn. rewrite <-app_assoc in E3. cbn in E3, Hf.
  destruct (IH (add_size (with_splay tree sp3) (-1)) _ _ _ _ _ Hok3 E3 ltac:(lia))
    as (sp4 & -> & Hok4 & E4).
  exists sp4. split_and!; [|done|done]. cbn.
  pose proof (absorb_length (Z.max v (node_value x)) l2).
  f_equal. f_equal. rewrite (decide_False (P := S (length l2) = _)) by lia. case_decide as Hd.
  - f_equal. lia.
  - rewrite u32_sub_step. f_equal. lia.
Qed.

(** The state in which the merge loop is entered. *)
Record mergeable (l1 : list node) (k v : Z) (l2 : list node) : Prop := {
  mg_left : separated l1;
  mg_before : forall a, a ∈ l1 -> node_value a < k;
  mg_node : k < v;
  mg_right : separated l2;
  mg_after : forall b, b ∈ l2 -> k < node_key b
}.

Lemma merge_and_return_spec tree l1 p k v l2 :
  splay_ok (it_splay tree) -> contents (it_splay tree) = l1 ++ MkNode p k v :: l2 ->
  mergeable l1 k v l2 ->
  it_size tree = u32 (Z.of_nat (length (contents (it_splay tree)))) ->
  exists tree' v', merge_and_return tree p = Ok (tree', p) /\ it_ok tree' /\
    (forall x, points tree' x <-> cov l1 x \/ k <= x < v \/ cov l2 x) /\
    MkNode p k v' ∈ contents (it_splay tree') /\ v <= v'.
Proof.
  intros Hok E [H1 H2 H3 H4 H5] Hsz. unfold merge_and_return.
  destruct (merge_successors_spec (fuel_of (it_splay tree)) tree l1 p k v l2 Hok E)
    as (sp' & -> & Hok' & E').
  { unfold fuel_of. rewrite E, length_app. cbn. lia. }
  cbn [mbind res_bind]. eexists _, (absorb v l2).1. split; [done|].
  pose proof (absorb_ge l2 v). pose proof (absorb_length v l2) as Hle.
  destruct (absorb_separated l2 v H4) as [Hs2 Hk2].
  destruct (absorb_suffix l2 v) as [l' El].
  split_and!; [split; cbn [it_splay it_size]; [done| |]| | |done].
  - rewrite E'. apply separated_app. split_and!; [done| |].
    + apply separated_cons. cbn. split_and!; [lia|done|done].
    + intros x y Hx [->|Hy]%elem_of_cons; cbn; [by apply H2|].
      specialize (H2 x Hx). assert (y ∈ l2) as Hy2 by (rewrite El; set_solver).
      specialize (H5 y Hy2). lia.
  - rewrite Hsz, E, E', !length_app. cbn. case_decide as Hd.
    + do 2 f_equal. lia.
    + rewrite wrap_sub_l. f_equal. lia.
  - intros x. unfold points. cbn [it_splay]. rewrite E', cov_app, cov_cons. cbn.
    rewrite absorb_cov by done. tauto.
  - cbn [it_splay]. rewrite E'. set_solver.
Qed.

Lemma separated_below key l : separated l -> separated (below key l).
Proof.
  intros [Hs Hf]. split.
  - induction Hs as [|x l Hs IH Hx]; [constructor|]. apply Forall_cons in Hf as [_ Hf].
    unfold below in *. rewrite filter_cons. case_decide; [|by apply IH]. constructor; [by apply IH|].
    rewrite Forall_forall in *. intros y [_ Hy]%list_elem_of_filter. by apply Hx.
  - rewrite Forall_forall in *. intros y [_ Hy]%list_elem_of_filter. by apply Hf.
Qed.

Lemma separated_above key l : separated l -> separated (above key l).
Proof.
  intros [Hs Hf]. split.
  - induction Hs as [|x l Hs IH Hx]; [constructor|]. apply Forall_cons in Hf as [_ Hf].
    unfold above in *. rewrite filter_cons. case_decide; [|by apply IH]. constructor; [by apply IH|].
    rewrite Forall_forall in *. intros y [_ Hy]%list_elem_of_filter. by apply Hx.
  - rewrite Forall_forall in *. intros y [_ Hy]%list_elem_of_filter. by apply Hf.
Qed.

Lemma in_below key l n : n ∈ below key l <-> n ∈ l /\ node_key n < key.
Proof. unfold below. rewrite list_elem_of_filter. tauto. Qed.

Lemma in_above key l n : n ∈ above key l <-> n ∈ l /\ key < node_key n.
Proof. unfold above. rewrite list_elem_of_filter. tauto. Qed.

(** When no node starts at [key], the nodes split into those below and above. *)
Lemma no_key_split sp key :
  splay_ok sp -> head (with_key key (contents sp)) = None ->
  contents sp = below key (contents sp) ++ above key (contents sp).
Proof.
  intros Hok Hw. rewrite (sorted_split_keys key _ (contents_sorted _ Hok)) at 1.
  by destruct (with_key key (contents sp)).
Qed.

(** The last node below [key] ends after every other node below it. *)
Lemma last_below_value key l l' n :
  separated l -> below key l = l' ++ [n] -> forall a, a ∈ l' -> node_value a < node_key n.
Proof.
  intros Hs E a Ha. apply (separated_below key) in Hs. rewrite E in Hs.
  apply separated_app in Hs as (_ & _ & H). apply H; set_solver.
Qed.

Lemma with_key_split sp key n :
  splay_ok sp -> head (with_key key (contents sp)) = Some n ->
  contents sp = below key (contents sp) ++ n :: above key (contents sp) /\ node_key n = key.
Proof.
  intros Hok Hw. pose proof (head_elem _ _ Hw) as [Hk _]%list_elem_of_filter.
  pose proof (sorted_split_keys key _ (contents_sorted _ Hok)) as E.
  destruct (with_key key (contents sp)) as [|m l] eqn:Ew; [done|]. injection Hw as ->.
  destruct l as [|m' l]; [done|]. exfalso. pose proof (contents_sorted _ Hok) as Hs.
  rewrite E in Hs. apply StronglySorted_app_1_r in Hs. cbn in Hs.
  apply StronglySorted_cons in Hs as [Hs _]. apply Forall_cons in Hs as [Hs _].
  assert (m' ∈ with_key key (contents sp)) as Hm by (rewrite Ew; set_solver).
  apply list_elem_of_filter in Hm as [Hm _]. unfold key_lt in Hs. lia.
Qed.

(** The pieces of a well-formed tree around a key. *)
Lemma mergeable_at l key k v :
  separated l -> k <= key -> k < v ->
  (forall a, a ∈ below key l -> node_value a < k) ->
  mergeable (below key l) k v (above key l).
Proof.
  intros Hs Hk Hv Ha. split; [by apply separated_below|done|done|by apply separated_above|].
  intros b [_ ?]%in_above. lia.
Qed.

Lemma test_node sp o cond :
  splay_ok sp -> (forall n, o = Some n -> n ∈ contents sp) ->
  test (node_ptr <$> o) sp cond = Ok (match o with Some n => cond n | None => false end).
Proof.
  intros Hok Ho. destruct o as [n|]; [|done]. cbn. rewrite get_node by auto. done.
Qed.

Lemma in_last_below sp key n : last (below key (contents sp)) = Some n -> n ∈ contents sp.
Proof. intros H%last_elem. by apply in_below in H as [? _]. Qed.

Lemma in_head_above sp key n : head (above key (contents sp)) = Some n -> n ∈ contents sp.
Proof. intros H%head_elem. by apply in_above in H as [? _]. Qed.

(** When the last node below [key] ends before [key], all of them do. *)
Lemma below_values_lt key l k :
  separated l -> k <= key -> (forall n, last (below key l) = Some n -> node_value n < k) ->
  forall a, a ∈ below key l -> node_value a < k.
Proof.
  intros Hs Hk Hl a Ha. destruct (last (below key l)) as [n|] eqn:En.
  2:{ apply last_None in En. rewrite En in Ha. set_solver. }
  specialize (Hl n eq_refl). apply last_Some in En as [l' En]. rewrite En in Ha.
  apply elem_of_app in Ha as [Ha|Ha]; [|set_solver].
  pose proof (last_below_value _ _ _ _ Hs En a Ha).
  assert (n ∈ below key l) as [Hn _]%in_below by (rewrite En; set_solver).
  pose proof (separated_elem _ _ Hs Hn). lia.
Qed.

Lemma head_split {A} (l : list A) x : head l = Some x -> exists l', l = x :: l'.
Proof. destruct l as [|y l]; [done|]. intros [= ->]. by exists l. Qed.

(** Raising the end of a node to at least [e], as every branch of the source does. *)
Lemma raise_value_ok sp p k v e l1 l2 :
  splay_ok sp -> contents sp = l1 ++ MkNode p k v :: l2 ->
  exists sp', (if v <? e then set_value p e sp else sp) = sp' /\ splay_ok sp' /\
    contents sp' = l1 ++ MkNode p k (Z.max v e) :: l2.
Proof.
  intros Hok E. eexists. split; [done|]. case_if.
  - rewrite Z.max_r by lia. by eapply set_value_ok.
  - by rewrite Z.max_l by lia.
Qed.

(** The result the insertion promises. *)
Definition inserted (tree tree' : interval_tree) (p : ptr) (start end_ : Z) : Prop :=
  it_ok tree' /\
  (forall x, points tree' x <-> points tree x \/ start <= x < end_) /\
  exists k v, MkNode p k v ∈ contents (it_splay tree') /\ k <= start /\ end_ <= v.

(** Common end of all branches of the insertion that reach the merge loop. *)
Lemma insert_by_merge tree tree1 l1 p k v l2 start end_ :
  splay_ok (it_splay tree1) -> contents (it_splay tree1) = l1 ++ MkNode p k v :: l2 ->
  mergeable l1 k v l2 ->
  it_size tree1 = u32 (Z.of_nat (length (contents (it_splay tree1)))) ->
  k <= start -> end_ <= v ->
  (forall x, cov l1 x \/ k <= x < v \/ cov l2 x <-> points tree x \/ start <= x < end_) ->
  exists tree' p', merge_and_return tree1 p = Ok (tree', p') /\ inserted tree tree' p' start end_.
Proof.
  intros Hok E Hm Hsz Hk Hv Hx.
  destruct (merge_and_return_spec _ _ _ _ _ _ Hok E Hm Hsz) as (tree' & v' & -> & Hok' & Hp & Hin & ?).
  eexists _, _. split; [done|]. split_and!; [done| |].
  - intros x. by rewrite Hp, Hx.
  - exists k, v'. split_and!; [done|done|lia].
Qed.

Lemma length_mid {A} (l1 : list A) x y l2 : length (l1 ++ x :: l2) = length (l1 ++ y :: l2).
Proof. by rewrite !length_app. Qed.

(** Decide every range test [a <= x < b] of the goal; what is left is propositional. *)
Ltac range_cases :=
  repeat match goal with
  | |- context [?a <= ?x < ?b] =>
      lazymatch goal with
      | _ : a <= x < b |- _ => fail
      | _ : ~ (a <= x < b) |- _ => fail
      | _ => destruct (decide (a <= x < b))
      end
  end; first [tauto | exfalso; lia].

(** The points of a tree around one of its nodes, and around a key. *)
Lemma points_at tree sp l1 p k v l2 x :
  contents sp = contents (it_splay tree) -> contents sp = l1 ++ MkNode p k v :: l2 ->
  points tree x <-> cov l1 x \/ k <= x < v \/ cov l2 x.
Proof. unfold points. intros <- ->. by rewrite cov_app, cov_cons. Qed.

Lemma points_around tree sp l1 l2 x :
  contents sp = contents (it_splay tree) -> contents sp = l1 ++ l2 ->
  points tree x <-> cov l1 x \/ cov l2 x.
Proof. unfold points. intros <- ->. by rewrite cov_app. Qed.

Lemma size_mid tree sp (l1 : list node) n n' l2 :
  it_size tree = u32 (Z.of_nat (length (contents sp))) -> contents sp = l1 ++ n :: l2 ->
  it_size tree = u32 (Z.of_nat (length (l1 ++ n' :: l2))).
Proof. intros -> ->. by rewrite (length_mid _ n n'). Qed.

(** The four branches of the insertion. *)
Section insert_branches.
Context (tree : interval_tree) (sp : splay_tree) (start end_ : Z).
Context (Hok : splay_ok sp) (Hc : contents sp = contents (it_splay tree)).
Context (Hsep : separated (contents sp)) (Hlt : start < end_).
Context (Hsz : it_size tree = u32 (Z.of_nat (length (contents sp)))).

Lemma insert_at_start p v l1 l2 :
  contents sp = l1 ++ MkNode p start v :: l2 -> v < end_ ->
  exists tree' p', merge_and_return (with_splay tree (set_value p end_ sp)) p = Ok (tree', p') /\
    inserted tree tree' p' start end_.
Proof.
  intros E Hv. destruct (set_value_ok _ _ _ _ end_ _ _ Hok E) as [Hok2 E2].
  rewrite E in Hsep. apply separated_app in Hsep as (H1 & [? [? H2]]%separated_cons & H3).
  cbn in *. eapply insert_by_merge; [exact Hok2|exact E2| | |lia|lia|].
  - split; [done| |done|done|].
    + intros a Ha. apply (H3 a (MkNode p start v)); [done|set_solver].
    + intros b Hb. set_solver by lia.
  - cbn [it_splay it_size with_splay]. rewrite E2. by eapply size_mid.
  - intros x. rewrite (points_at tree sp l1 p start v l2) by done. range_cases.
Qed.

Lemma insert_extend_prev p k v l1 l2 :
  contents sp = l1 ++ MkNode p k v :: l2 -> k < start <= v -> (forall b, b ∈ l2 -> start < node_key b) ->
  exists tree' p',
    merge_and_return (with_splay tree (if v <? end_ then set_value p end_ sp else sp)) p =
      Ok (tree', p') /\ inserted tree tree' p' start end_.
Proof.
  intros E Hv Hb. destruct (raise_value_ok _ _ _ _ end_ _ _ Hok E) as (sp2 & -> & Hok2 & E2).
  rewrite E in Hsep. apply separated_app in Hsep as (H1 & [? [? H2]]%separated_cons & H3).
  cbn in *. eapply insert_by_merge; [exact Hok2|exact E2| | |lia|lia|].
  - split; [done| |lia|done|].
    + intros a Ha. apply (H3 a (MkNode p k v)); [done|set_solver].
    + intros b Hb'. specialize (Hb b Hb'). lia.
  - cbn [it_splay it_size with_splay]. rewrite E2. by eapply size_mid.
  - intros x. rewrite (points_at tree sp l1 p k v l2) by done. range_cases.
Qed.

Lemma insert_extend_next p k v l1 l2 :
  contents sp = l1 ++ MkNode p k v :: l2 -> start < k <= end_ ->
  (forall a, a ∈ l1 -> node_key a < start /\ node_value a < start) ->
  exists tree' p',
    merge_and_return (with_splay tree
      (if v <? end_ then set_value p end_ (set_key p start sp) else set_key p start sp)) p =
      Ok (tree', p') /\ inserted tree tree' p' start end_.
Proof.
  intros E Hk Ha. rewrite E in Hsep.
  apply separated_app in Hsep as (H1 & [? [H4 H2]]%separated_cons & H3). cbn in *.
  destruct (set_key_ok _ _ _ _ start _ _ Hok E) as [Hok1 E1].
  { intros a Ha'. by apply Ha. }
  { intros b Hb. specialize (H4 b Hb). lia. }
  destruct (raise_value_ok _ _ _ _ end_ _ _ Hok1 E1) as (sp2 & -> & Hok2 & E2).
  eapply insert_by_merge; [exact Hok2|exact E2| | |lia|lia|].
  - split; [done| |lia|done|].
    + intros a Ha'. by apply Ha.
    + intros b Hb. specialize (H4 b Hb). lia.
  - cbn [it_splay it_size with_splay]. rewrite E2. by eapply size_mid.
  - intros x. rewrite (points_at tree sp l1 p k v l2) by done. range_cases.
Qed.

Lemma insert_new_node :
  contents sp = below start (contents sp) ++ above start (contents sp) ->
  (forall a, a ∈ below start (contents sp) -> node_value a < start) ->
  exists tree' p',
    ('(sp, nod) ← splay_tree_insert sp start end_;
     merge_and_return (add_size (with_splay tree sp) 1) nod) = Ok (tree', p') /\
    inserted tree tree' p' start end_.
Proof.
  intros E Ha. destruct (splay_tree_insert_spec sp start end_ Hok) as (sp2 & p & -> & Hok2 & E2 & _).
  cbn [mbind res_bind].
  eapply insert_by_merge; [exact Hok2|exact E2|by apply mergeable_at| |lia|lia|].
  - cbn [it_splay it_size with_splay add_size]. rewrite Hsz, wrap_add_l, E2. f_equal.
    apply (f_equal length) in E. rewrite length_app in E. unfold put_node. rewrite length_app. cbn. lia.
  - intros x. rewrite (points_around tree sp _ _ _ Hc E). tauto.
Qed.

Lemma insert_next_or_new :
  contents sp = below start (contents sp) ++ above start (contents sp) ->
  (forall n, last (below start (contents sp)) = Some n -> node_value n < start) ->
  exists tree' p',
    (extends_next ← test (node_ptr <$> head (above start (contents sp))) sp
                      (fun n => INTERVAL_START n <=? end_);
     match node_ptr <$> head (above start (contents sp)), extends_next with
     | Some nod, true =>
         n ← get nod sp;
         let sp := if start <? INTERVAL_START n then set_key nod start sp else sp in
         n ← get nod sp;
         let sp := if INTERVAL_END n <? end_ then set_value nod end_ sp else sp in
         merge_and_return (with_splay tree sp) nod
     | _, _ =>
         '(sp, nod) ← splay_tree_insert sp start end_;
         merge_and_return (add_size (with_splay tree sp) 1) nod
     end) = Ok (tree', p') /\ inserted tree tree' p' start end_.
Proof.
  intros Es Hl. pose proof (below_values_lt _ _ _ Hsep (Z.le_refl start) Hl) as Hbl.
  rewrite test_node by (eauto using in_head_above). cbn [mbind res_bind]. unfold INTERVAL_START, INTERVAL_END.
  destruct (head (above start (contents sp))) as [[p k v]|] eqn:Eh; cbn [fmap option_fmap option_map];
    [|by apply insert_new_node].
  cbn [node_key node_ptr]. case_if; [|by apply insert_new_node].
  pose proof (in_head_above _ _ _ Eh) as Hin. rewrite (get_mk _ _ _ _ Hok Hin). cbn [mbind res_bind node_key].
  pose proof (head_elem _ _ Eh) as [_ Hk]%in_above. cbn in Hk.
  apply head_split in Eh as [l2 Eh]. rewrite Eh in Es. rewrite (proj2 (Z.ltb_lt start k)) by done.
  assert (forall a, a ∈ below start (contents sp) -> node_key a < start /\ node_value a < start) as Ha.
  { intros a Ha. split; [by apply in_below in Ha as [_ ?]|by apply Hbl]. }
  destruct (set_key_ok sp p k v start _ l2 Hok Es) as [Hok1 E1].
  { intros a Ha'. by apply Ha. }
  { intros b Hb. assert (b ∈ above start (contents sp)) as [_ ?]%in_above by (rewrite Eh; set_solver).
    done. }
  rewrite (get_mk _ p start v Hok1) by (rewrite E1; set_solver). cbn [mbind res_bind node_value].
  by eapply insert_extend_next.
Qed.
End insert_branches.

Lemma interval_tree_insert_spec tree start end_ :
  it_ok tree -> start < end_ ->
  exists tree' p, interval_tree_insert tree start end_ = Ok (tree', p) /\
    inserted tree tree' p start end_.
Proof.
  intros [Hok Hsep Hsz] Hlt. unfold interval_tree_insert, INTERVAL_START, INTERVAL_END.
  destruct (lookup_step _ start Hok) as (sp1 & -> & Hok1 & E1). rewrite <-E1 in Hsep, Hsz |- *.
  destruct (head (with_key start (contents sp1))) as [[p k v]|] eqn:Hw; cbn [fmap option_fmap option_map].
  - destruct (with_key_split _ _ _ Hok1 Hw) as [Es Hk]. cbn in Hk. subst k.
    rewrite (get_node _ (MkNode p start v)) by (done || rewrite Es; set_solver). cbn [mbind res_bind].
    cbn [node_ptr node_value]. case_if; [|by eapply insert_at_start].
    eexists _, _. split; [done|]. split_and!; [by split| |].
    + intros x. rewrite (points_at tree sp1 _ p start v _ _ E1 Es),
        (points_at (with_splay tree sp1) sp1 _ p start v _ _ eq_refl Es). range_cases.
    + exists start, v. cbn [it_splay with_splay]. rewrite Es. split_and!; [set_solver|lia|lia].
  - destruct (predecessor_step _ start Hok1) as (sp2 & -> & Hok2 & E2).
    destruct (successor_step _ start Hok2) as (sp3 & -> & Hok3 & E3).
    pose proof (no_key_split _ _ Hok1 Hw) as Es. rewrite <-E2, <-E3 in *.
    rewrite (test_node _ (last _)) by (eauto using in_last_below). cbn [mbind res_bind].
    destruct (last (below start (contents sp3))) as [[p k v]|] eqn:El; cbn [fmap option_fmap option_map];
      [cbn [node_ptr node_value]; case_if|].
    + pose proof (in_last_below _ _ _ El) as Hin. rewrite (get_mk _ p k v) by done.
      apply last_elem in El as Hk. apply in_below in Hk as [_ Hk].
      apply last_Some in El as [l1 El]. rewrite El, <-app_assoc in Es. cbn in Es, Hk |- *.
      eapply insert_extend_prev; [done|congruence|done|done|done|exact Es|lia|].
      by intros b [_ ?]%in_above.
    + by apply insert_next_or_new; [..|naive_solver].
    + by apply insert_next_or_new; [..|naive_solver].
Qed.

(** ** Deletion *)

(** What deleting [start, end) promises; [deleted] records whether a point went. *)
Definition removed (tree tree' : interval_tree) (start end_ : Z) : Prop :=
  it_ok tree' /\
  (forall x, points tree' x <-> points tree x /\ ~ (start <= x < end_)) /\
  (it_deleted tree' = true <->
     it_deleted tree = true \/ exists x, points tree x /\ start <= x < end_).

Lemma above_app_split key l1 l2 :
  (forall a, a ∈ l1 -> node_key a <= key) -> (forall b, b ∈ l2 -> key < node_key b) ->
  above key (l1 ++ l2) = l2.
Proof.
  intros H1 H2. unfold above. rewrite filter_app, filter_none, filter_all; [done|done|].
  intros x Hx ?. specialize (H1 x Hx). lia.
Qed.

(** The state in which the deletion loop runs: what is left of [start] is final. *)
Record deletable (l1 : list node) (start : Z) (l2 : list node) : Prop := {
  dl_sep : separated (l1 ++ l2);
  dl_left : forall a, a ∈ l1 -> node_key a <= start /\ node_value a <= start;
  dl_right : forall b, b ∈ l2 -> start < node_key b
}.

Lemma deletable_drop l1 start x l2 : deletable l1 start (x :: l2) -> deletable l1 start l2.
Proof.
  intros [Hs Hl Hr]. split; [|done|set_solver]. apply separated_app in Hs as (H1 & H2 & H3).
  apply separated_cons in H2 as (_ & _ & H2). apply separated_app. set_solver.
Qed.

Lemma deletable_first l1 start x l2 :
  deletable l1 start (x :: l2) ->
  start < node_key x < node_value x /\ (forall b, b ∈ l2 -> node_value x < node_key b).
Proof.
  intros [Hs _ Hr]. apply separated_app in Hs as (_ & (? & ? & _)%separated_cons & _).
  split; [|done]. split; [|done]. apply Hr. set_solver.
Qed.

Lemma cov_left_of l1 start x :
  (forall a, a ∈ l1 -> node_key a <= start /\ node_value a <= start) -> cov l1 x -> x < start.
Proof. intros H. apply cov_upper. intros a Ha. by apply H. Qed.

(** Moving the start of a node to the right keeps the list separated. *)
Lemma separated_shorten l1 l2 p k v k' :
  separated (l1 ++ MkNode p k v :: l2) -> k <= k' < v -> separated (l1 ++ MkNode p k' v :: l2).
Proof.
  rewrite !separated_app, !separated_cons. cbn. intros (H1 & (? & H2 & H3) & H4) ?.
  split_and!; [done|lia|done|done|].
  intros a b Ha [->|Hb]%elem_of_cons; [|set_solver].
  assert (node_value a < k) by (apply (H4 a (MkNode p k v)); set_solver). cbn. lia.
Qed.

Lemma delete_successors_spec fuel start end_ : forall tree l1 l2,
  splay_ok (it_splay tree) -> contents (it_splay tree) = l1 ++ l2 -> deletable l1 start l2 ->
  it_size tree = u32 (Z.of_nat (length (l1 ++ l2))) -> start < end_ -> (length l2 < fuel)%nat ->
  exists tree', delete_successors fuel tree start end_ = Ok tree' /\ it_ok tree' /\
    (forall x, points tree' x <-> cov l1 x \/ cov l2 x /\ end_ <= x) /\
    (it_deleted tree' = true <-> it_deleted tree = true \/ exists x, cov l2 x /\ x < end_).
Proof.
  induction fuel as [|fuel IH]; intros tree l1 l2 Hok E Hd Hsz Hlt Hf; [lia|]. cbn.
  destruct (successor_step _ start Hok) as (sp1 & -> & Hok1 & Ec1).
  rewrite E in Ec1 |- *. rewrite above_app_split by (apply Hd).
  destruct l2 as [|[p k v] l2]; cbn.
  { eexists. split; [done|]. split_and!; [|intros x; unfold points; cbn; rewrite Ec1, cov_app, !cov_nil; tauto|].
    - split; cbn; rewrite ?Ec1; [done|apply Hd|done].
    - setoid_rewrite cov_nil. naive_solver. }
  rewrite (get_mk _ p k v) by (done || rewrite Ec1; set_solver). cbn. unfold INTERVAL_START, INTERVAL_END.
  destruct (deletable_first _ _ _ _ Hd) as [Hk Hl2]. cbn in Hk, Hl2 |- *. cbn in Hf.
  case_if; [|case_if].
  - (* the next interval is past the end *)
    assert (forall x, cov (MkNode p k v :: l2) x -> end_ <= x) as Hge.
    { intros x [?|Hx]%cov_cons; cbn in *; [lia|]. apply (cov_lower _ v) in Hx; [lia|done]. }
    eexists. split; [done|]. split_and!.
    + split; cbn; rewrite ?Ec1; [done|apply Hd|done].
    + intros x. unfold points. cbn. rewrite Ec1, cov_app. naive_solver.
    + cbn. split; [tauto|]. intros [?|(x & Hx & ?)]; [done|]. specialize (Hge x Hx). lia.
  - (* the next interval goes as a whole *)
    destruct (delete_mk sp1 l1 p k v l2 Hok1 Ec1) as (sp2 & -> & Hok2 & Ec2). cbn.
    destruct (IH (add_size (with_splay (set_deleted (with_splay tree sp1)) sp2) (-1)) l1 l2)
      as (tree' & -> & Hok' & Hp & Hdl); [done|done|by eapply deletable_drop| |done|lia|].
    { cbn. rewrite Hsz, wrap_add_l, !length_app. f_equal. cbn. lia. }
    eexists. split; [done|]. split_and!; [done| |].
    + intros x. rewrite Hp, cov_cons. cbn. destruct (decide (end_ <= x)); range_cases.
    + rewrite Hdl. cbn. split; [|tauto]. intros _. right. exists k. rewrite cov_cons. cbn. split; lia.
  - (* the next interval is shortened *)
    destruct (set_key_ok sp1 p k v end_ l1 l2 Hok1 Ec1) as [Hok2 Ec2].
    { intros a Ha. apply (dl_left _ _ _ Hd) in Ha. lia. }
    { intros b Hb. specialize (Hl2 b Hb). lia. }
    eexists. split; [done|]. split_and!.
    + split; cbn; rewrite ?Ec2; [done| |].
      * eapply separated_shorten; [by apply Hd|]. lia.
      * rewrite Hsz. f_equal. f_equal. apply length_mid.
    + intros x. unfold points. cbn. rewrite Ec2, cov_app, !cov_cons. cbn.
      assert (cov l2 x -> end_ <= x) by (intros Hx%(cov_lower _ v); [lia|done]).
      destruct (decide (end_ <= x)); range_cases.
    + cbn. split; [|tauto]. intros _. right. exists k. rewrite cov_cons. cbn. split; lia.
Qed.

Lemma delete_rest_spec start end_ tree tree0 l1 l2 :
  splay_ok (it_splay tree) -> contents (it_splay tree) = l1 ++ l2 -> deletable l1 start l2 ->
  it_size tree = u32 (Z.of_nat (length (l1 ++ l2))) -> start < end_ ->
  (forall x, points tree0 x /\ ~ (start <= x < end_) <-> cov l1 x \/ cov l2 x /\ end_ <= x) ->
  (it_deleted tree = true \/ (exists x, cov l2 x /\ x < end_) <->
   it_deleted tree0 = true \/ exists x, points tree0 x /\ start <= x < end_) ->
  exists tree', delete_rest tree start end_ = Ok tree' /\ removed tree0 tree' start end_.
Proof.
  intros Hok E Hd Hsz Hlt Hp Hdel. unfold delete_rest.
  destruct (delete_successors_spec (fuel_of (it_splay tree)) start end_ tree l1 l2)
    as (tree' & -> & Hok' & Hp' & Hd'); try done.
  { unfold fuel_of. rewrite E, length_app. lia. }
  exists tree'. split; [done|]. split_and!; [done| |].
  - intros x. by rewrite Hp', Hp.
  - by rewrite Hd', Hdel.
Qed.

(** Everything a separated list says about one of its nodes. *)
Record around (l1 : list node) (k v : Z) (l2 : list node) : Prop := {
  ar_left : separated l1;
  ar_right : separated l2;
  ar_node : k < v;
  ar_before : forall a, a ∈ l1 -> node_key a < node_value a < k;
  ar_after : forall b, b ∈ l2 -> v < node_key b;
  ar_cov_before : forall x, cov l1 x -> x < k;
  ar_cov_after : forall x, cov l2 x -> v < x
}.

Lemma separated_around l1 p k v l2 : separated (l1 ++ MkNode p k v :: l2) <-> around l1 k v l2.
Proof.
  rewrite separated_app, separated_cons. cbn. split.
  - intros (H1 & (H2 & H3 & H4) & H5).
    assert (forall a, a ∈ l1 -> node_key a < node_value a < k) as Hl1.
    { intros a Ha. split; [by apply (separated_elem l1)|].
      apply (H5 a (MkNode p k v)); [done|set_solver]. }
    split; try done; intros x.
    + apply cov_upper. intros a Ha. specialize (Hl1 a Ha). lia.
    + by apply cov_lower.
  - intros [H1 H2 H3 H4 H5 _ _]. split_and!; [done..|].
    intros a b Ha [->|Hb]%elem_of_cons; specialize (H4 a Ha); [|specialize (H5 b Hb)]; cbn; lia.
Qed.

Lemma separated_shorten_end l1 l2 p k v v' :
  separated (l1 ++ MkNode p k v :: l2) -> k < v' <= v -> separated (l1 ++ MkNode p k v' :: l2).
Proof.
  rewrite !separated_app, !separated_cons. cbn. intros (H1 & (? & H2 & H3) & H4) ?.
  split_and!; [done|lia| |done|].
  - intros b Hb. specialize (H2 b Hb). lia.
  - intros a b Ha [->|Hb]%elem_of_cons; [|set_solver].
    apply (H4 a (MkNode p k v)); [done|set_solver].
Qed.

Lemma separated_cut l1 l2 p k v q s e :
  separated (l1 ++ MkNode p k v :: l2) -> k < s < e -> e < v ->
  separated (l1 ++ MkNode p k s :: MkNode q e v :: l2).
Proof.
  intros [H1 H2 H3 H4 H5 _ _]%separated_around ??. apply separated_app. split_and!; [done| |].
  - apply separated_cons. cbn. split_and!; [lia| |].
    + intros y [->|Hy]%elem_of_cons; cbn; [lia|]. specialize (H5 y Hy). lia.
    + apply separated_cons. cbn. split_and!; [lia|done|done].
  - intros a b Ha. specialize (H4 a Ha). rewrite !elem_of_cons.
    intros [->|[->|Hb]]; cbn; [lia|lia|]. specialize (H5 b Hb). lia.
Qed.

(** Inserting a key that falls inside a node puts the new node right after it. *)
Lemma put_node_inside l1 l2 p k v q e w :
  separated (l1 ++ MkNode p k v :: l2) -> k < e < v ->
  put_node q e w (l1 ++ MkNode p k v :: l2) = l1 ++ MkNode p k v :: MkNode q e w :: l2.
Proof.
  intros [_ _ _ H4 H5 _ _]%separated_around He. unfold put_node.
  assert (forall a, a ∈ l1 ++ [MkNode p k v] -> node_key a < e) as Ha.
  { intros a [Ha|Ha%list_elem_of_singleton]%elem_of_app; [specialize (H4 a Ha)|subst; cbn]; lia. }
  assert (forall b, b ∈ l2 -> e < node_key b) as Hb by (intros b Hb; specialize (H5 b Hb); lia).
  rewrite (cons_middle _ l1 l2), !app_assoc, above_app_split; [|intros a ?%Ha; lia|done].
  unfold below. rewrite filter_app, filter_all, filter_none, app_nil_r; [by rewrite <-app_assoc| |done].
  intros b ?%Hb. lia.
Qed.

(** The branches of the deletion. *)
Section delete_branches.
Context (tree : interval_tree) (sp : splay_tree) (start end_ : Z).
Context (Hok : splay_ok sp) (Hc : contents sp = contents (it_splay tree)).
Context (Hsep : separated (contents sp)) (Hlt : start < end_).
Context (Hsz : it_size tree = u32 (Z.of_nat (length (contents sp)))).

Lemma deletes_point p k v l1 l2 :
  contents sp = l1 ++ MkNode p k v :: l2 -> k <= start < v ->
  exists x, points tree x /\ start <= x < end_.
Proof.
  intros E Hk. exists start. rewrite (points_at tree sp l1 p k v l2) by done. split; [right; left; lia|lia].
Qed.

Lemma delete_at_start p v l1 l2 :
  contents sp = l1 ++ MkNode p start v :: l2 ->
  exists tree',
    (if end_ <? v then Ok (with_splay (set_deleted tree) (set_key p end_ sp))
     else sp ← splay_tree_delete sp start;
          delete_rest (add_size (with_splay (set_deleted tree) sp) (-1)) start end_) = Ok tree' /\
    removed tree tree' start end_.
Proof.
  intros E. pose proof Hsep as Hs. rewrite E in Hs.
  pose proof Hs as [H1 H2 H3 H4 H5 Hc1 Hc2]%separated_around.
  pose proof (deletes_point _ _ _ _ _ E ltac:(lia)) as Hex. case_if.
  - destruct (set_key_ok sp p start v end_ l1 l2 Hok E) as [Hok2 Ec2].
    { intros a Ha. specialize (H4 a Ha). lia. }
    { intros b Hb. specialize (H5 b Hb). lia. }
    eexists. split; [done|]. split_and!; [|intros x|by cbn; tauto].
    + split; cbn; rewrite ?Ec2; [done| |by eapply size_mid].
      eapply separated_shorten; [exact Hs|lia].
    + rewrite (points_at tree sp l1 p start v l2),
        (points_at (with_splay _ _) (set_key p end_ sp) l1 p end_ v l2) by done.
      assert (cov l2 x -> ~ start <= x < end_) by (intros ?%Hc2; lia).
      assert (cov l1 x -> ~ start <= x < end_) by (intros ?%Hc1; lia). range_cases.
  - destruct (delete_mk sp l1 p start v l2 Hok E) as (sp2 & -> & Hok2 & Ec2). cbn [mbind res_bind].
    eapply (delete_rest_spec _ _ _ _ l1 l2); [done|done| | |done| |by cbn; tauto].
    + split.
      * apply separated_app in Hs as (_ & _ & Hs). apply separated_app. set_solver.
      * intros a Ha. specialize (H4 a Ha). lia.
      * intros b Hb. specialize (H5 b Hb). lia.
    + cbn. rewrite Hsz, wrap_add_l, E, !length_app. f_equal. cbn. lia.
    + intros x. rewrite (points_at tree sp l1 p start v l2) by done.
      assert (cov l1 x -> ~ start <= x < end_) by (intros ?%Hc1; lia).
      assert (cov l2 x -> ~ start <= x < end_ <-> end_ <= x) by (intros ?%Hc2; lia). range_cases.
Qed.

Lemma delete_cut_prev p k v l1 l2 :
  contents sp = l1 ++ MkNode p k v :: l2 -> k < start -> end_ < v ->
  exists tree',
    ('(sp, _) ← splay_tree_insert sp end_ v;
     Ok (with_splay (add_size (set_deleted tree) 1) (set_value p start sp))) = Ok tree' /\
    removed tree tree' start end_.
Proof.
  intros E Hk Hv. pose proof Hsep as Hs. rewrite E in Hs.
  pose proof Hs as [H1 H2 H3 H4 H5 Hc1 Hc2]%separated_around.
  pose proof (deletes_point _ _ _ _ _ E ltac:(lia)) as Hex.
  destruct (splay_tree_insert_spec sp end_ v Hok) as (sp2 & q & -> & Hok2 & Ec2 & _).
  rewrite E, put_node_inside in Ec2 by (done || lia). cbn [mbind res_bind].
  destruct (set_value_ok sp2 p k v start _ _ Hok2 Ec2) as [Hok3 Ec3].
  eexists. split; [done|]. split_and!; [|intros x|by cbn; tauto].
  - split; cbn; rewrite ?Ec3; [done| |].
    + by eapply separated_cut.
    + rewrite Hsz, wrap_add_l, E, !length_app. f_equal. cbn. lia.
  - rewrite (points_at tree sp l1 p k v l2) by done. unfold points. cbn.
    rewrite Ec3, cov_app, !cov_cons. cbn.
    assert (cov l2 x -> ~ start <= x < end_) by (intros ?%Hc2; lia).
    assert (cov l1 x -> ~ start <= x < end_) by (intros ?%Hc1; lia). range_cases.
Qed.

Lemma delete_shorten_prev p k v l1 l2 :
  contents sp = l1 ++ MkNode p k v :: l2 -> k < start < v -> v <= end_ ->
  exists tree',
    delete_rest (with_splay (set_deleted tree) (set_value p start sp)) start end_ = Ok tree' /\
    removed tree tree' start end_.
Proof.
  intros E Hk Hv. pose proof Hsep as Hs. rewrite E in Hs.
  pose proof Hs as [H1 H2 H3 H4 H5 Hc1 Hc2]%separated_around.
  pose proof (deletes_point _ _ _ _ _ E ltac:(lia)) as Hex.
  destruct (set_value_ok sp p k v start _ _ Hok E) as [Hok2 Ec2].
  eapply (delete_rest_spec _ _ _ _ (l1 ++ [MkNode p k start]) l2); [done| | | |done| |by cbn; tauto].
  - cbn. by rewrite Ec2, <-app_assoc.
  - split.
    + rewrite <-app_assoc. eapply separated_shorten_end; [exact Hs|lia].
    + intros a [Ha|Ha%list_elem_of_singleton]%elem_of_app; [specialize (H4 a Ha)|subst; cbn]; lia.
    + intros b Hb. specialize (H5 b Hb). lia.
  - cbn. rewrite <-app_assoc. by eapply size_mid.
  - intros x. rewrite (points_at tree sp l1 p k v l2), cov_app, cov_cons by done.
    cbn. rewrite cov_nil.
    assert (cov l1 x -> ~ start <= x < end_) by (intros ?%Hc1; lia).
    assert (cov l2 x -> ~ start <= x < end_ <-> end_ <= x) by (intros ?%Hc2; lia). range_cases.
Qed.

Lemma delete_no_prev :
  contents sp = below start (contents sp) ++ above start (contents sp) ->
  (forall n, last (below start (contents sp)) = Some n -> node_value n <= start) ->
  exists tree',
    delete_rest (with_splay tree sp) start end_ = Ok tree' /\ removed tree tree' start end_.
Proof.
  intros Es Hl. pose proof Hsep as Hs.
  assert (forall a, a ∈ below start (contents sp) -> node_key a <= start /\ node_value a <= start) as Ha.
  { intros a Ha. pose proof Ha as [_ ?]%in_below. split; [lia|].
    destruct (last (below start (contents sp))) as [n|] eqn:El.
    2:{ apply last_None in El. rewrite El in Ha. set_solver. }
    specialize (Hl n eq_refl). pose proof (last_elem _ _ El) as [Hin ?]%in_below.
    apply last_Some in El as [l' El]. rewrite El in Ha.
    apply elem_of_app in Ha as [Ha|Ha%list_elem_of_singleton]; [|by subst].
    pose proof (last_below_value _ _ _ _ Hs El a Ha). lia. }
  assert (forall b, b ∈ above start (contents sp) -> start < node_key b) as Hb
    by (intros b [_ ?]%in_above; lia).
  assert (forall x, cov (below start (contents sp)) x -> x < start) as Hc1
    by (intros x; by apply cov_left_of).
  assert (forall x, cov (above start (contents sp)) x -> start < x) as Hc2
    by (intros x; by apply cov_lower).
  eapply (delete_rest_spec _ _ _ _ (below start (contents sp)) (above start (contents sp)));
    [done|done| | |done| |].
  - split; [by rewrite <-Es|done|done].
  - cbn. by rewrite <-Es.
  - intros x. rewrite (points_around tree sp _ _ x Hc Es). specialize (Hc1 x). specialize (Hc2 x).
    destruct (decide (end_ <= x)); range_cases || (intuition lia).
  - cbn. setoid_rewrite (fun x => points_around tree sp _ _ x Hc Es). split.
    + intros [?|(x & Hx & ?)]; [tauto|right]. exists x. specialize (Hc2 x Hx). split; [tauto|lia].
    + intros [?|(x & [Hx|Hx] & ?)]; [tauto| |right; exists x; split; [done|lia]].
      specialize (Hc1 x Hx). lia.
Qed.
End delete_branches.

Lemma interval_tree_delete_spec tree start end_ :
  it_ok tree -> start < end_ ->
  exists tree', interval_tree_delete tree start end_ = Ok tree' /\ removed tree tree' start end_.
Proof.
  intros [Hok Hsep Hsz] Hlt. unfold interval_tree_delete, INTERVAL_START, INTERVAL_END.
  destruct (lookup_step _ start Hok) as (sp1 & -> & Hok1 & Ec1). rewrite <-Ec1 in Hsep, Hsz |- *.
  destruct (head (with_key start (contents sp1))) as [[p k v]|] eqn:Hw; cbn [fmap option_fmap option_map].
  - destruct (with_key_split _ _ _ Hok1 Hw) as [Es Hk]. cbn in Hk. subst k.
    cbn [node_ptr]. rewrite (get_mk _ p start v) by (done || rewrite Es; set_solver).
    cbn [mbind res_bind node_value]. by eapply delete_at_start.
  - destruct (predecessor_step _ start Hok1) as (sp2 & -> & Hok2 & Ec2).
    pose proof (no_key_split _ _ Hok1 Hw) as Es. rewrite <-Ec2 in *.
    rewrite (test_node _ (last _)) by (eauto using in_last_below). cbn [mbind res_bind].
    destruct (last (below start (contents sp2))) as [[p k v]|] eqn:El; cbn [fmap option_fmap option_map];
      [cbn [node_ptr node_value]; case_if|].
    + pose proof (in_last_below _ _ _ El) as Hin. rewrite (get_mk _ p k v) by done.
      apply last_elem in El as Hk. apply in_below in Hk as [_ Hk].
      apply last_Some in El as [l1 El]. rewrite El, <-app_assoc in Es. cbn in Es, Hk |- *.
      case_if; [eapply delete_cut_prev|eapply delete_shorten_prev];
        [done|congruence|done|done|done|exact Es|lia|lia|done|congruence|done|done|done|exact Es|lia|lia].
    + by apply delete_no_prev; [..|naive_solver].
    + by apply delete_no_prev; [..|naive_solver].
Qed.

(** ** Creation, emptying, bulk operations and queries *)

Lemma points_witness tree :
  it_ok tree -> root (it_splay tree) <> Leaf -> exists x, points tree x.
Proof.
  intros [_ Hsep _] Hr. unfold points. destruct (contents (it_splay tree)) as [|n l] eqn:E.
  - unfold contents in E. destruct (root (it_splay tree)) as [|? ? ? l r]; [done|].
    cbn in E. by destruct (inorder l).
  - apply separated_cons in Hsep as [? _]. exists (node_key n). rewrite cov_cons. lia.
Qed.

Lemma interval_tree_create_spec n :
  (0 < n)%nat ->
  exists tree, interval_tree_create n = Ok tree /\ it_ok tree /\ (forall x, ~ points tree x).
Proof.
  intros Hn. destruct (create_alloc_pool_ok n Hn) as (pl & Ep & Hpl & Hu).
  unfold interval_tree_create, splay_tree_create. rewrite Ep. cbn [mbind res_bind].
  eexists. split; [done|]. split.
  - split; cbn; [split; cbn|apply separated_nil|done].
    + constructor.
    + done.
    + by rewrite Hu.
  - intros x H. by apply cov_nil in H.
Qed.

Lemma interval_tree_empty_spec tree :
  it_ok tree ->
  exists tree', interval_tree_empty tree = Ok tree' /\ it_ok tree' /\ (forall x, ~ points tree' x) /\
    (it_deleted tree' = true <-> it_deleted tree = true \/ exists x, points tree x).
Proof.
  intros Hit. destruct (splay_tree_empty_spec _ (it_splay_ok _ Hit)) as (sp' & Es & Hok' & Ec & _ & _).
  pose proof (points_witness _ Hit) as Hne. unfold interval_tree_empty.
  destruct (root (it_splay tree)) eqn:Er; cbn [it_splay set_deleted]; rewrite Es; cbn [mbind res_bind];
    eexists; (split; [done|]); (split; [split; cbn; rewrite ?Ec; first [done|apply separated_nil]|]);
    (split; [unfold points; cbn; rewrite Ec; by intros x ?%cov_nil|]); cbn.
  - assert (contents (it_splay tree) = []) as E by (unfold contents; by rewrite Er).
    unfold points. rewrite E. setoid_rewrite cov_nil. naive_solver.
  - assert (exists x, points tree x) by (by apply Hne). tauto.
Qed.

Lemma foreach_add l : forall tree,
  it_ok tree -> separated l ->
  exists tree', foreach_list l interval_tree_add_1 tree = Ok (tree', 0) /\ it_ok tree' /\
    (forall x, points tree' x <-> points tree x \/ cov l x).
Proof.
  induction l as [|n l IH]; intros tree Hok Hs.
  { exists tree. split_and!; [done|done|]. intros x. rewrite cov_nil. tauto. }
  apply separated_cons in Hs as (Hn & _ & Hs). cbn [foreach_list].
  assert (exists t1, interval_tree_add_1 n tree = Ok (t1, 0) /\ it_ok t1 /\
    (forall x, points t1 x <-> points tree x \/ node_key n <= x < node_value n))
    as (t1 & -> & Hok1 & Hp1).
  { destruct (interval_tree_insert_spec tree _ _ Hok Hn) as (t1 & p & E & Hok1 & Hp1 & _).
    exists t1. unfold interval_tree_add_1, INTERVAL_START, INTERVAL_END. by rewrite E. }
  cbn [mbind res_bind]. destruct (IH t1 Hok1 Hs) as (t2 & -> & Hok2 & Hp2). exists t2. split_and!; [done|done|].
  intros x. rewrite Hp2, Hp1, cov_cons. tauto.
Qed.

Lemma interval_tree_add_spec tree1 tree2 :
  it_ok tree1 -> it_ok tree2 ->
  exists u, interval_tree_add tree1 tree2 = Ok u /\ it_ok u /\
    (forall x, points u x <-> points tree1 x \/ points tree2 x).
Proof.
  intros H1 [H2 Hs2 _]. unfold interval_tree_add. rewrite splay_tree_foreach_spec.
  destruct (foreach_add _ tree1 H1 Hs2) as (u & -> & Hu & Pu). by exists u.
Qed.

Lemma foreach_sub l : forall tree,
  it_ok tree -> separated l ->
  exists tree' r, foreach_list l interval_tree_sub_1 tree = Ok (tree', r) /\ it_ok tree' /\
    (forall x, points tree' x <-> points tree x /\ ~ cov l x).
Proof.
  induction l as [|n l IH]; intros tree Hok Hs.
  { exists tree, 0. split_and!; [done|done|]. intros x. rewrite cov_nil. tauto. }
  apply separated_cons in Hs as (Hn & _ & Hs). cbn [foreach_list].
  destruct (interval_tree_delete_spec tree _ _ Hok Hn) as (t1 & E & Hok1 & Hp1 & _).
  assert (interval_tree_sub_1 n tree = Ok (t1, match root (it_splay t1) with Leaf => 1 | _ => 0 end))
    as -> by (unfold interval_tree_sub_1, INTERVAL_START, INTERVAL_END; by rewrite E).
  cbn [mbind res_bind]. destruct (root (it_splay t1)) eqn:Er; cbn [Z.eqb negb].
  - exists t1, 1. split_and!; [done|done|]. intros x.
    assert (~ points t1 x) as Hno.
    { unfold points, contents. rewrite Er. by intros ?%cov_nil. }
    rewrite Hp1, cov_cons in *. tauto.
  - destruct (IH t1 Hok1 Hs) as (tr & rv & -> & Hok2 & Hp2). exists tr, rv. split_and!; [done|done|].
    intros x. rewrite Hp2, Hp1, cov_cons. tauto.
Qed.

(** The node whose start is the greatest one not above [value]. *)
Definition floor_node (value : Z) (l : list node) : option node :=
  match head (with_key value l) with Some n => Some n | None => last (below value l) end.

Lemma floor_node_at sp key n :
  splay_ok sp -> floor_node key (contents sp) = Some n ->
  exists l1, contents sp = l1 ++ n :: above key (contents sp) /\ node_key n <= key.
Proof.
  unfold floor_node. intros Hok. destruct (head (with_key key (contents sp))) as [m|] eqn:Hw.
  - intros [= ->]. destruct (with_key_split _ _ _ Hok Hw) as [Es Hk]. eexists. split; [exact Es|lia].
  - intros El. pose proof (last_elem _ _ El) as [_ ?]%in_below.
    apply last_Some in El as [l1 El]. pose proof (no_key_split _ _ Hok Hw) as Es.
    exists l1. split; [|lia]. rewrite Es at 1. by rewrite El, <-app_assoc.
Qed.

Lemma floor_node_none sp key :
  splay_ok sp -> floor_node key (contents sp) = None -> contents sp = above key (contents sp).
Proof.
  unfold floor_node. intros Hok. destruct (head (with_key key (contents sp))) as [m|] eqn:Hw; [done|].
  intros El%last_None. rewrite (no_key_split _ _ Hok Hw) at 1. by rewrite El.
Qed.

(** The intervals that do not end at or before [value]: where the scans start. *)
Definition from (value : Z) (l : list node) : list node := filter (fun n => value < node_value n) l.

Lemma from_keep value l : (forall n, n ∈ l -> value < node_value n) -> from value l = l.
Proof. apply filter_all. Qed.

Lemma above_ends sp value n :
  separated (contents sp) -> n ∈ above value (contents sp) -> value < node_value n.
Proof. intros Hs [Hn ?]%in_above. pose proof (separated_elem _ _ Hs Hn). lia. Qed.

Lemma from_split value l1 n l2 :
  separated (l1 ++ n :: l2) -> node_key n <= value ->
  (forall b, b ∈ l2 -> value < node_value b) ->
  from value (l1 ++ n :: l2) = (if value <? node_value n then [n] else []) ++ l2.
Proof.
  destruct n as [p k v]. cbn. intros [_ _ _ H4 _ _ _]%separated_around Hk Hl2.
  unfold from. rewrite filter_app, filter_cons, filter_none.
  2:{ intros a Ha. specialize (H4 a Ha). lia. }
  fold (from value l2). rewrite from_keep by done. cbn. case_decide; case_if; first [done|lia].
Qed.

(** The scans' starting node, read off the floor of [value]. *)
Lemma from_floor sp value :
  splay_ok sp -> separated (contents sp) ->
  from value (contents sp) =
  match floor_node value (contents sp) with
  | Some n => (if value <? node_value n then [n] else []) ++ above value (contents sp)
  | None => above value (contents sp)
  end.
Proof.
  intros Hok Hs. assert (forall b, b ∈ above value (contents sp) -> value < node_value b) as Ha
    by (intros b; by apply above_ends).
  destruct (floor_node value (contents sp)) as [n|] eqn:Ef.
  - destruct (floor_node_at _ _ _ Hok Ef) as (l1 & E & Hk). rewrite E in Hs.
    rewrite E at 1. by apply from_split.
  - rewrite (floor_node_none _ _ Hok Ef) at 1. by apply from_keep.
Qed.

Lemma interval_tree_lookup_spec tree value :
  it_ok tree ->
  exists sp', interval_tree_lookup tree value =
    Ok (with_splay tree sp', node_ptr <$> head (from value (contents (it_splay tree)))) /\
    splay_ok sp' /\ contents sp' = contents (it_splay tree).
Proof.
  intros [Hok Hsep _]. unfold interval_tree_lookup, INTERVAL_END.
  destruct (lookup_step _ value Hok) as (sp1 & -> & Hok1 & Ec1).
  rewrite from_floor by done. unfold floor_node. rewrite <-Ec1 in *.
  destruct (head (with_key value (contents sp1))) as [n|] eqn:Hw; cbn [fmap option_fmap option_map].
  - destruct (with_key_split _ _ _ Hok1 Hw) as [Es Hk].
    assert (node_key n < node_value n) by (apply (separated_elem _ _ Hsep); rewrite Es; set_solver).
    exists sp1. rewrite (proj2 (Z.ltb_lt _ _)) by lia. done.
  - destruct (predecessor_step _ value Hok1) as (sp2 & -> & Hok2 & Ec2). rewrite <-Ec2 in *.
    rewrite (test_node _ (last _)) by (eauto using in_last_below). cbn [mbind res_bind].
    destruct (successor_step _ value Hok2) as (sp3 & Es & Hok3 & Ec3). rewrite Es.
    destruct (last (below value (contents sp2))) as [n|] eqn:El; [case_if|].
    + exists sp2. done.
    + exists sp3. split_and!; [done|done|congruence].
    + exists sp3. split_and!; [done|done|congruence].
Qed.

Lemma interval_tree_covered_spec tree start end_ :
  it_ok tree -> start < end_ ->
  exists sp' b, interval_tree_covered tree start end_ = Ok (with_splay tree sp', b) /\
    splay_ok sp' /\ contents sp' = contents (it_splay tree) /\
    (b = true <-> forall x, start <= x < end_ -> points tree x).
Proof.
  intros [Hok Hsep _] Hlt. unfold interval_tree_covered, INTERVAL_END.
  assert (forall n, floor_node start (contents (it_splay tree)) = Some n ->
    (end_ <=? node_value n) = true <-> forall x, start <= x < end_ -> points tree x) as Hyes.
  { intros [p k v] Hn. destruct (floor_node_at _ _ _ Hok Hn) as (l1 & E & Hk). cbn in Hk |- *.
    rewrite E in Hsep. pose proof Hsep as [_ _ _ _ _ Hc1 _]%separated_around. rewrite Z.leb_le.
    assert (forall x, cov (above start (contents (it_splay tree))) x -> start < x /\ v < x) as Hc2.
    { intros x Hx. split; [by apply (cov_lower _ start) in Hx; [|intros b [_ ?]%in_above]|].
      apply (ar_cov_after _ _ _ _ (proj1 (separated_around _ _ _ _ _) Hsep)) in Hx. lia. }
    setoid_rewrite (fun x => points_at tree (it_splay tree) l1 p k v _ x eq_refl E). split.
    - intros. right. left. lia.
    - intros H. destruct (Z_lt_le_dec v end_); [|done]. exfalso.
      destruct (H (Z.max start v)) as [Hx|[Hx|Hx]]; [lia| | |].
      + apply Hc1 in Hx. lia.
      + lia.
      + apply Hc2 in Hx. lia. }
  assert (floor_node start (contents (it_splay tree)) = None ->
    false = true <-> forall x, start <= x < end_ -> points tree x) as Hno.
  { intros E%floor_node_none; [|done]. split; [done|]. intros H. specialize (H start ltac:(lia)).
    unfold points in H. rewrite E in H. apply (cov_lower _ start) in H; [lia|]. by intros b [_ ?]%in_above. }
  destruct (lookup_step _ start Hok) as (sp1 & -> & Hok1 & Ec1). unfold floor_node in Hyes, Hno.
  rewrite <-Ec1 in Hyes, Hno |- *.
  destruct (head (with_key start (contents sp1))) as [n|] eqn:Hw; cbn [fmap option_fmap option_map].
  - rewrite (get_node _ n Hok1) by (by apply head_elem in Hw as [_ ?]%list_elem_of_filter).
    eexists _, _. cbn. split_and!; [done|done|done|by apply Hyes].
  - destruct (predecessor_step _ start Hok1) as (sp2 & -> & Hok2 & Ec2). rewrite <-Ec2 in *.
    destruct (last (below start (contents sp2))) as [n|] eqn:El; cbn [fmap option_fmap option_map].
    + rewrite (get_node _ n Hok2) by (by apply in_last_below in El).
      eexists _, _. cbn. split_and!; [done|done|done|by apply Hyes].
    + eexists _, _. split_and!; [done|done|done|by apply Hno].
Qed.

(** *** Intersection *)

Definition clip (start end_ : Z) (n : node) : interval :=
  MkInterval (Z.max start (node_key n)) (Z.min end_ (node_value n)).

(** The intervals the scan meets before one that starts at or after [end]. *)
Fixpoint before_end (end_ : Z) (l : list node) : list node :=
  match l with
  | [] => []
  | n :: l => if node_key n <? end_ then n :: before_end end_ l else []
  end.

Definition icov (l : list interval) (x : Z) : Prop := exists i, i ∈ l /\ start i <= x < end_ i.

Lemma icov_nil x : icov [] x <-> False.
Proof. unfold icov. set_solver. Qed.

Lemma icov_cons i l x : icov (i :: l) x <-> start i <= x < end_ i \/ icov l x.
Proof. unfold icov. set_solver. Qed.

Lemma icov_app l1 l2 x : icov (l1 ++ l2) x <-> icov l1 x \/ icov l2 x.
Proof. unfold icov. set_solver. Qed.

Lemma intersection_loop_spec fuel start end_ : forall sp l1 l2 dest,
  splay_ok sp -> contents sp = l1 ++ l2 -> (length l2 <= fuel)%nat ->
  exists sp', intersection_loop fuel sp (node_ptr <$> head l2) start end_ dest =
      Ok (sp', dest ++ (clip start end_ <$> before_end end_ l2)) /\
    splay_ok sp' /\ contents sp' = contents sp.
Proof.
  induction fuel as [|fuel IH]; intros sp l1 l2 dest Hok E Hf.
  - destruct l2; [|cbn in Hf; lia]. exists sp. cbn. by rewrite app_nil_r.
  - destruct l2 as [|n l2]; [exists sp; cbn; by rewrite app_nil_r|]. cbn [head fmap option_fmap option_map].
    cbn [intersection_loop]. rewrite (get_node _ n Hok) by (rewrite E; set_solver).
    cbn [mbind res_bind before_end]. unfold INTERVAL_START, INTERVAL_END.
    case_if; [|exists sp; cbn; by rewrite app_nil_r].
    destruct (successor_at sp l1 n l2 Hok E) as (sp1 & -> & Hok1 & Ec1).
    destruct (IH sp1 (l1 ++ [n]) l2 (dest ++ [clip start end_ n])) as (sp2 & Es & Hok2 & Ec2);
      [done|by rewrite Ec1, <-app_assoc|cbn in Hf; lia|].
    exists sp2. cbn in Es |- *. unfold clip in Es at 1. rewrite Es, <-app_assoc.
    split_and!; [done|done|congruence].
Qed.

Lemma before_end_elem end_ l n :
  StronglySorted key_lt l -> n ∈ before_end end_ l <-> n ∈ l /\ node_key n < end_.
Proof.
  induction 1 as [|m l Hs IH Hm]; cbn; [set_solver|]. rewrite Forall_forall in Hm. case_if.
  - rewrite !elem_of_cons, IH. intuition (subst; lia).
  - split; [set_solver|]. rewrite elem_of_cons. intros [[->|Hn] ?]; [lia|].
    specialize (Hm n Hn). unfold key_lt in Hm. lia.
Qed.

Lemma from_suffix value l : separated l -> exists l1, l = l1 ++ from value l.
Proof.
  induction l as [|[p k v] l IH]; intros Hs; [by exists []|].
  pose proof Hs as (? & Hl & Hs')%separated_cons. cbn in Hl. destruct (IH Hs') as [l1 E].
  unfold from. rewrite filter_cons. cbn. case_decide.
  - exists []. rewrite filter_all; [done|]. intros x Hx. specialize (Hl x Hx).
    pose proof (separated_elem _ _ Hs' Hx). lia.
  - exists (MkNode p k v :: l1). cbn. f_equal. exact E.
Qed.

Lemma sorted_app_r (l1 l2 : list node) : StronglySorted key_lt (l1 ++ l2) -> StronglySorted key_lt l2.
Proof. apply StronglySorted_app_1_r. Qed.

(** The first node the scan of the intersection visits. *)
Lemma intersection_start sp start :
  splay_ok sp -> separated (contents sp) ->
  exists sp',
    (let '(sp, nod) := splay_tree_lookup sp start in
     '(sp, nod) ←
       match nod with
       | Some _ => Ok (sp, nod)
       | None =>
           let '(sp, nod) := splay_tree_predecessor sp start in
           use ← test nod sp (fun n => negb (INTERVAL_END n <=? start));
           if use : bool then Ok (sp, nod) else Ok (splay_tree_successor sp start)
       end;
     Ok (match nod with Some _ => (sp, nod) | None => splay_tree_successor sp start end)) =
    Ok (sp', node_ptr <$> head (from start (contents sp))) /\
    splay_ok sp' /\ contents sp' = contents sp.
Proof.
  intros Hok Hsep. rewrite from_floor by done. unfold INTERVAL_END, floor_node.
  destruct (lookup_step _ start Hok) as (sp1 & -> & Hok1 & Ec1). rewrite <-Ec1 in *.
  destruct (head (with_key start (contents sp1))) as [n|] eqn:Hw; cbn [fmap option_fmap option_map].
  - destruct (with_key_split _ _ _ Hok1 Hw) as [Es Hk].
    assert (node_key n < node_value n) by (apply (separated_elem _ _ Hsep); rewrite Es; set_solver).
    exists sp1. rewrite (proj2 (Z.ltb_lt _ _)) by lia. done.
  - destruct (predecessor_step _ start Hok1) as (sp2 & -> & Hok2 & Ec2). rewrite <-Ec2 in *.
    rewrite (test_node _ (last _)) by (eauto using in_last_below). cbn [mbind res_bind].
    destruct (successor_step _ start Hok2) as (sp3 & Es & Hok3 & Ec3).
    destruct (successor_step _ start Hok3) as (sp4 & Es' & Hok4 & Ec4). rewrite Ec3 in Es', Ec4.
    assert (exists sp', Ok match node_ptr <$> head (above start (contents sp2)) with
        | Some _ => (sp3, node_ptr <$> head (above start (contents sp2)))
        | None => splay_tree_successor sp3 start end =
        Ok (sp', node_ptr <$> head (above start (contents sp2))) /\
        splay_ok sp' /\ contents sp' = contents sp2) as Hsucc.
    { rewrite Es'. destruct (head (above start (contents sp2))); cbn; [by exists sp3|by exists sp4]. }
    destruct (last (below start (contents sp2))) as [n|] eqn:El; [|rewrite Es; exact Hsucc].
    destruct (start <? node_value n) eqn:En; bool_to_prop.
    + rewrite (proj2 (Z.leb_gt _ _)) by lia. by exists sp2.
    + rewrite (proj2 (Z.leb_le _ _)) by lia. cbn [negb]. rewrite Es. exact Hsucc.
Qed.

Lemma intersection_cov l start end_ x :
  StronglySorted key_lt l -> (forall n, n ∈ l -> start < node_value n) ->
  icov (clip start end_ <$> before_end end_ l) x <-> cov l x /\ start <= x < end_.
Proof.
  intros Hs Hl. unfold icov, cov. split.
  - intros (i & (n & -> & Hn)%list_elem_of_fmap & Hx). apply before_end_elem in Hn as [Hn ?]; [|done].
    cbn in Hx. split; [exists n; split; [done|]|]; lia.
  - intros [(n & Hn & ?) ?]. exists (clip start end_ n). split; [|cbn; lia].
    apply list_elem_of_fmap. exists n. split; [done|]. apply before_end_elem; [done|]. split; [done|lia].
Qed.

Lemma interval_tree_intersection_1_spec tree start end_ dest :
  it_ok tree ->
  exists sp' l, interval_tree_intersection_1 tree start end_ dest =
      Ok (with_splay tree sp', dest ++ l) /\
    splay_ok sp' /\ contents sp' = contents (it_splay tree) /\
    (forall x, icov l x <-> points tree x /\ start <= x < end_).
Proof.
  intros [Hok Hsep _]. unfold interval_tree_intersection_1.
  destruct (intersection_start _ start Hok Hsep) as (sp1 & Es & Hok1 & Ec1).
  destruct (from_suffix start _ Hsep) as [l1 Ef].
  assert (forall x, points tree x /\ start <= x < end_ <->
            cov (from start (contents (it_splay tree))) x /\ start <= x < end_) as Hp.
  { intros x. unfold points, cov, from. setoid_rewrite list_elem_of_filter. split; [|naive_solver].
    intros [(n & Hn & ?) ?]. split; [exists n; split_and!|]; done || lia. }
  destruct (splay_tree_lookup (it_splay tree) start) as [sp0 nod0]. cbn in Es.
  destruct (match nod0 with Some _ => Ok (sp0, nod0) | None => _ end) as [[sp2 nod2]| |] eqn:Ex;
    [|done|done]. cbn [mbind res_bind] in Es |- *. injection Es as Es. rewrite Es.
  destruct (intersection_loop_spec (fuel_of sp1) start end_ sp1 l1
    (from start (contents (it_splay tree))) dest) as (sp3 & -> & Hok3 & Ec3); [done|congruence| |].
  { unfold fuel_of. rewrite Ec1. apply (f_equal length) in Ef. rewrite length_app in Ef. lia. }
  cbn. eexists _, _. split_and!; [done|done|congruence|]. intros x. rewrite Hp.
  apply intersection_cov.
  - apply (sorted_app_r l1). rewrite <-Ef. by apply contents_sorted.
  - by intros n [? _]%list_elem_of_filter.
Qed.

(** *** Complement *)

(** The pieces the complement loop pushes; the last one may reach past [end]. *)
Fixpoint gaps (last end_ : Z) (l : list node) : list interval :=
  if last <? end_ then
    match l with
    | [] => [MkInterval last end_]
    | n :: l => MkInterval last (node_key n) :: gaps (node_value n) end_ l
    end
  else [].

Lemma complement_loop_spec fuel end_ : forall sp l1 l2 last dest,
  splay_ok sp -> contents sp = l1 ++ l2 -> (length l2 <= fuel)%nat ->
  exists sp', complement_loop fuel sp (node_ptr <$> head l2) last end_ dest =
      Ok (sp', dest ++ gaps last end_ l2) /\ splay_ok sp' /\ contents sp' = contents sp.
Proof.
  induction fuel as [|fuel IH]; intros sp l1 l2 last dest Hok E Hf.
  - destruct l2; [|cbn in Hf; lia]. exists sp. cbn. case_if; by rewrite ?app_nil_r.
  - cbn [complement_loop]. destruct l2 as [|n l2]; cbn [gaps head fmap option_fmap option_map].
    { exists sp. case_if; by rewrite ?app_nil_r. }
    case_if; [|exists sp; by rewrite app_nil_r].
    rewrite (get_node _ n Hok) by (rewrite E; set_solver).
    cbn [mbind res_bind]. unfold INTERVAL_START, INTERVAL_END.
    destruct (successor_at sp l1 n l2 Hok E) as (sp1 & -> & Hok1 & Ec1).
    destruct (IH sp1 (l1 ++ [n]) l2 (node_value n) (dest ++ [MkInterval last (node_key n)]))
      as (sp2 & -> & Hok2 & Ec2); [done|by rewrite Ec1, <-app_assoc|cbn in Hf; lia|].
    exists sp2. rewrite <-app_assoc. split_and!; [done|done|congruence].
Qed.

Lemma gaps_cov end_ l : forall last x,
  separated l -> (forall n, n ∈ l -> last < node_key n) ->
  (icov (gaps last end_ l) x -> last <= x /\ ~ cov l x) /\
  (x < end_ -> last <= x -> ~ cov l x -> icov (gaps last end_ l) x).
Proof.
  induction l as [|[p k v] l IH]; intros last x Hs Hl; cbn.
  - rewrite cov_nil. case_if; rewrite ?icov_cons, icov_nil; cbn; [lia|]. split; [tauto|lia].
  - apply separated_cons in Hs as (Hk & Hkl & Hs). cbn in Hk, Hkl.
    assert (last < k) by (apply (Hl (MkNode p k v)); set_solver).
    destruct (IH v x Hs Hkl) as [H1 H2].
    assert (cov l x -> v < x) as Hc by (by apply cov_lower).
    case_if; rewrite ?icov_cons, ?icov_nil, cov_cons; cbn; [|split; [tauto|lia]]. split.
    + intros [?|[? ?]%H1]; (split; [lia|]).
      * intros [?|?%Hc]; lia.
      * intros [?|?]; [lia|tauto].
    + intros ?? Hn. destruct (Z_lt_le_dec x k); [left; lia|].
      destruct (Z_lt_le_dec x v); [exfalso; apply Hn; left; lia|]. right. apply H2; [lia|lia|tauto].
Qed.

(** Where the complement starts scanning: behind the interval [start] lies in. *)
Definition complement_from (start : Z) (l : list node) : Z :=
  match floor_node start l with
  | Some n => Z.max start (node_value n)
  | None => start
  end.

Lemma complement_start sp start :
  splay_ok sp -> separated (contents sp) ->
  exists sp',
    (let '(sp, nod) := splay_tree_lookup sp start in
     match nod with
     | Some nod => n ← get nod sp; Ok (sp, INTERVAL_END n)
     | None =>
         let '(sp, nod) := splay_tree_predecessor sp start in
         use ← test nod sp (fun n => start <? INTERVAL_END n);
         match nod, use with
         | Some nod, true => n ← get nod sp; Ok (sp, INTERVAL_END n)
         | _, _ => Ok (sp, start)
         end
     end) = Ok (sp', complement_from start (contents sp)) /\ splay_ok sp' /\ contents sp' = contents sp.
Proof.
  intros Hok Hsep. unfold INTERVAL_END, complement_from, floor_node.
  destruct (lookup_step _ start Hok) as (sp1 & -> & Hok1 & Ec1). rewrite <-Ec1 in *.
  destruct (head (with_key start (contents sp1))) as [n|] eqn:Hw; cbn [fmap option_fmap option_map].
  - destruct (with_key_split _ _ _ Hok1 Hw) as [Es Hk].
    assert (n ∈ contents sp1) as Hin by (rewrite Es; set_solver).
    pose proof (separated_elem _ _ Hsep Hin).
    rewrite (get_node _ n Hok1 Hin). cbn. exists sp1. rewrite Z.max_r by lia. done.
  - destruct (predecessor_step _ start Hok1) as (sp2 & -> & Hok2 & Ec2). rewrite <-Ec2 in *.
    rewrite (test_node _ (last _)) by (eauto using in_last_below). cbn [mbind res_bind].
    exists sp2. destruct (last (below start (contents sp2))) as [n|] eqn:El; cbn; [|done].
    case_if; [|by rewrite Z.max_l by lia].
    rewrite (get_node _ n Hok2) by (by apply in_last_below in El). cbn. by rewrite Z.max_r by lia.
Qed.

Lemma complement_from_spec sp start :
  splay_ok sp -> separated (contents sp) ->
  let last := complement_from start (contents sp) in
  (forall n, n ∈ above start (contents sp) -> last < node_key n) /\
  (forall x, last <= x /\ ~ cov (above start (contents sp)) x <->
             start <= x /\ ~ cov (contents sp) x).
Proof.
  intros Hok Hsep. cbv zeta. unfold complement_from.
  destruct (floor_node start (contents sp)) as [[p k v]|] eqn:Ef; cbn [node_value].
  - destruct (floor_node_at _ _ _ Hok Ef) as (l1 & E & Hk). cbn in Hk. rewrite E in Hsep.
    pose proof Hsep as [_ _ _ _ H5 Hc1 _]%separated_around. split.
    + intros n Hn. specialize (H5 n Hn). apply in_above in Hn as [_ ?]. lia.
    + intros x. rewrite E at 2. rewrite cov_app, cov_cons. cbn.
      split.
      * intros [? Hn]. split; [lia|]. intros [?%Hc1|[?|?]]; [lia|lia|done].
      * intros [? Hn]. split; [|tauto]. assert (~ (k <= x < v)) by tauto. lia.
  - rewrite <-(floor_node_none _ _ Hok Ef). split; [|done]. intros n Hn.
    rewrite (floor_node_none _ _ Hok Ef) in Hn. by apply in_above in Hn as [_ ?].
Qed.

Lemma interval_tree_complement_1_gaps tree start end_ dest :
  it_ok tree ->
  exists sp', interval_tree_complement_1 tree start end_ dest =
      Ok (with_splay tree sp', dest ++ gaps (complement_from start (contents (it_splay tree))) end_
                                        (above start (contents (it_splay tree)))) /\
    splay_ok sp' /\ contents sp' = contents (it_splay tree).
Proof.
  intros [Hok Hsep _]. unfold interval_tree_complement_1.
  destruct (complement_start _ start Hok Hsep) as (sp1 & Es & Hok1 & Ec1).
  destruct (splay_tree_lookup (it_splay tree) start) as [sp0 nod0]. rewrite Es. cbn [mbind res_bind].
  destruct (successor_step _ start Hok1) as (sp2 & -> & Hok2 & Ec2). rewrite Ec1 in Ec2 |- *.
  assert (exists l1, contents sp2 = l1 ++ above start (contents (it_splay tree))) as [l1 E2].
  { rewrite (sorted_split_keys start _ (contents_sorted _ Hok2)), Ec2. eexists. apply app_assoc. }
  destruct (complement_loop_spec (fuel_of sp2) end_ sp2 l1 (above start (contents (it_splay tree)))
    (complement_from start (contents (it_splay tree))) dest) as (sp3 & -> & Hok3 & Ec3); [done|done| |].
  { unfold fuel_of. rewrite E2, length_app. lia. }
  cbn. eexists. split_and!; [done|done|congruence].
Qed.

Lemma interval_tree_complement_1_spec tree start end_ dest :
  it_ok tree ->
  exists sp' l, interval_tree_complement_1 tree start end_ dest =
      Ok (with_splay tree sp', dest ++ l) /\
    splay_ok sp' /\ contents sp' = contents (it_splay tree) /\
    (forall x, icov l x -> start <= x /\ ~ points tree x) /\
    (forall x, start <= x < end_ -> ~ points tree x -> icov l x).
Proof.
  intros Hit. destruct (interval_tree_complement_1_gaps tree start end_ dest Hit) as (sp' & E & Hok' & Ec').
  destruct Hit as [Hok Hsep _]. destruct (complement_from_spec _ start Hok Hsep) as [Hl Hp].
  eexists _, _. split_and!; [exact E|done|done| |]; intros x;
    destruct (gaps_cov end_ (above start (contents (it_splay tree)))
      (complement_from start (contents (it_splay tree))) x (separated_above _ _ Hsep) Hl) as [H1 H2].
  - intros Hx%H1. by apply Hp in Hx.
  - intros Hx Hn. destruct (proj2 (Hp x)) as [? ?]; [split; [lia|exact Hn]|]. apply H2; [lia|done|done].
Qed.

(** ** Files *)

Definition node_interval (n : node) : interval := MkInterval (node_key n) (node_value n).

Definition intervals (tree : interval_tree) : list interval := node_interval <$> contents (it_splay tree).

(** The file contents of a list of intervals. *)
Definition encode_intervals (l : list interval) : list Z := mjoin (encode_interval <$> l).

Definition ivl_u64 (i : interval) : Prop := is_u64 (start i) /\ is_u64 (end_ i).

Lemma INTERVAL_COUNT_pos : (0 < INTERVAL_COUNT)%nat.
Proof. unfold INTERVAL_COUNT. apply Nat.lt_0_succ. Qed.

#[local] Opaque INTERVAL_COUNT.

Lemma encode_intervals_cons i l :
  encode_intervals (i :: l) = encode_interval i ++ encode_intervals l.
Proof. done. Qed.

Lemma encode_intervals_app l1 l2 :
  encode_intervals (l1 ++ l2) = encode_intervals l1 ++ encode_intervals l2.
Proof. unfold encode_intervals. by rewrite fmap_app, join_app. Qed.

Lemma length_encode_interval i : length (encode_interval i) = sizeof_interval.
Proof. unfold encode_interval. by rewrite length_app, !length_le_bytes. Qed.

Lemma length_encode_intervals l : length (encode_intervals l) = (length l * sizeof_interval)%nat.
Proof.
  induction l as [|i l IH]; [done|].
  rewrite encode_intervals_cons, length_app, length_encode_interval, IH. cbn. lia.
Qed.

Lemma decode_encode_interval i rest :
  ivl_u64 i -> decode_interval (encode_interval i ++ rest) = i.
Proof.
  intros [H1 H2]. unfold decode_interval, encode_interval. rewrite <-app_assoc.
  rewrite take_app_length', drop_app_length' by (by rewrite length_le_bytes).
  rewrite take_app_length' by (by rewrite length_le_bytes).
  rewrite !le_value_bytes, !Z.mod_small by done. by destruct i.
Qed.

Section plain_files.
Context {F : Type} `{PlainFile F} (io_steps : nat).
Implicit Types (s : io F).

(** Enough system calls for one block, whatever interruptions are left. *)
Definition enough_steps s : Prop :=
  (INTERVAL_COUNT * sizeof_interval + interrupts (file s) <= io_steps)%nat.

Lemma write_block s (data : list interval) :
  enough_steps s -> (length data <= INTERVAL_COUNT)%nat ->
  exists s', full_write io_steps s (encode_intervals data) = Ok (s', true) /\
    written (file s') = written (file s) ++ encode_intervals data /\ enough_steps s'.
Proof.
  unfold enough_steps. intros Hs Hd.
  destruct (full_write_ok io_steps s (encode_intervals data)) as (s' & E & Hw & _ & Hi).
  { unfold io_fuel. rewrite length_encode_intervals. nia. }
  exists s'. split_and!; [done|done|lia].
Qed.

Lemma interval_tree_write_1_spec t : forall s data,
  enough_steps s -> (length data < INTERVAL_COUNT)%nat ->
  exists s' data', interval_tree_write_1 io_steps t s data = Ok (s', data', true) /\
    enough_steps s' /\ (length data' < INTERVAL_COUNT)%nat /\
    written (file s') ++ encode_intervals data' =
    written (file s) ++ encode_intervals (data ++ (node_interval <$> inorder t)).
Proof.
  induction t as [|p k v l IHl r IHr]; intros s data Hs Hd.
  { exists s, data. cbn. by rewrite app_nil_r. }
  cbn [interval_tree_write_1]. destruct (IHl s data Hs Hd) as (s1 & d1 & -> & Hs1 & Hd1 & E1).
  cbn [mbind res_bind negb].
  assert (exists s2 d2,
    (if decide (length (d1 ++ [MkInterval k v]) = INTERVAL_COUNT) then
       '(s, ok) ← full_write io_steps s1 (mjoin (encode_interval <$> d1 ++ [MkInterval k v]));
       Ok (s, if ok : bool then [] else d1 ++ [MkInterval k v], ok)
     else Ok (s1, d1 ++ [MkInterval k v], true)) = Ok (s2, d2, true) /\
    enough_steps s2 /\ (length d2 < INTERVAL_COUNT)%nat /\
    written (file s2) ++ encode_intervals d2 =
    written (file s1) ++ encode_intervals (d1 ++ [MkInterval k v])) as (s2 & d2 & -> & Hs2 & Hd2 & E2).
  { case_decide as Hc.
    - destruct (write_block s1 (d1 ++ [MkInterval k v]) Hs1) as (s2 & Ew & Hw & Hs2); [lia|].
      unfold encode_intervals in Ew. rewrite Ew. exists s2, []. cbn. rewrite app_nil_r.
      split_and!; [done|done|apply INTERVAL_COUNT_pos|done].
    - eexists _, _. split_and!; [done|done| |done]. rewrite length_app in *. cbn in *. lia. }
  cbn [mbind res_bind negb]. destruct (IHr s2 d2 Hs2 Hd2) as (s3 & d3 & -> & Hs3 & Hd3 & E3).
  exists s3, d3. split_and!; [done|done|done|]. cbn [inorder]. rewrite fmap_app, fmap_cons.
  rewrite E3, encode_intervals_app, app_assoc, E2, (encode_intervals_app d1), (app_assoc (written _)), E1.
  change (node_interval (MkNode p k v) :: (node_interval <$> inorder r))
    with ([MkInterval k v] ++ (node_interval <$> inorder r)).
  by rewrite !encode_intervals_app, <-!app_assoc.
Qed.

Lemma interval_tree_write_spec tree s :
  enough_steps s ->
  exists s', interval_tree_write io_steps tree s = Ok (s', true) /\
    written (file s') = written (file s) ++ encode_intervals (intervals tree).
Proof.
  intros Hs. unfold interval_tree_write, intervals, contents.
  destruct (root (it_splay tree)) as [|p k v l r] eqn:Er.
  { exists s. cbn. by rewrite app_nil_r. }
  destruct (interval_tree_write_1_spec (Node p k v l r) s [] Hs INTERVAL_COUNT_pos)
    as (s1 & d1 & -> & Hs1 & Hd1 & E1). cbn [mbind res_bind negb].
  rewrite app_nil_l in E1. destruct d1 as [|i d1].
  { exists s1. by rewrite app_nil_r in E1. }
  destruct (write_block s1 (i :: d1) Hs1) as (s2 & Ew & Hw & Hs2); [lia|].
  exists s2. rewrite Hw, E1. done.
Qed.

Lemma read_block_spec (l : list interval) : forall tree rest,
  it_ok tree -> Forall ivl_u64 l -> Forall (fun i => start i < end_ i) l ->
  exists tree', read_block tree (length l) (encode_intervals l ++ rest) = Ok tree' /\ it_ok tree' /\
    (forall x, points tree' x <-> points tree x \/ icov l x).
Proof.
  induction l as [|i l IH]; intros tree rest Hok Hu Hn.
  { exists tree. split_and!; [done|done|]. intros x. rewrite icov_nil. tauto. }
  apply Forall_cons in Hu as [Hi Hu], Hn as [Hin Hn]. cbn [read_block length].
  rewrite encode_intervals_cons, <-app_assoc, decode_encode_interval by done.
  destruct (interval_tree_insert_spec tree _ _ Hok Hin) as (t1 & p & -> & Hok1 & Hp1 & _).
  cbn [mbind res_bind]. rewrite drop_app_length' by (by rewrite length_encode_interval).
  destruct (IH t1 rest Hok1 Hu Hn) as (t2 & -> & Hok2 & Hp2). exists t2. split_and!; [done|done|].
  intros x. rewrite Hp2, Hp1, icov_cons. tauto.
Qed.

Lemma read_loop_step fuel tree s n :
  (0 < n)%nat ->
  read_loop io_steps (S fuel) tree s n =
  (let block := if decide (INTERVAL_COUNT < n)%nat then INTERVAL_COUNT else n in
   '(s, r) ← full_read io_steps s [] (block * sizeof_interval);
   match r with
   | None => Ok (tree, s, false)
   | Some bytes => tree ← read_block tree block bytes; read_loop io_steps fuel tree s (n - block)
   end).
Proof. by destruct n; [lia|]. Qed.

Lemma read_loop_spec fuel : forall tree s (l : list interval) rest,
  it_ok tree -> enough_steps s -> Forall ivl_u64 l -> Forall (fun i => start i < end_ i) l ->
  unread (file s) = encode_intervals l ++ rest -> (length l <= fuel)%nat ->
  exists tree' s', read_loop io_steps fuel tree s (length l) = Ok (tree', s', true) /\ it_ok tree' /\
    (forall x, points tree' x <-> points tree x \/ icov l x) /\ unread (file s') = rest.
Proof.
  induction fuel as [|fuel IH]; intros tree s l rest Hok Hs Hu Hn E Hf.
  - destruct l; [|cbn in Hf; lia]. exists tree, s. split_and!; [done|done| |done].
    intros x. rewrite icov_nil. tauto.
  - destruct (decide (l = [])) as [->|Hne].
    { exists tree, s. split_and!; [done|done| |done]. intros x. rewrite icov_nil. tauto. }
    assert (0 < length l)%nat as Hl by (destruct l; [done|cbn; lia]).
    rewrite read_loop_step by done. cbv zeta. set (block := if decide (INTERVAL_COUNT < length l)%nat then INTERVAL_COUNT else length l).
    assert (0 < block <= INTERVAL_COUNT /\ block <= length l)%nat as [Hb1 Hb2].
    { unfold block. pose proof INTERVAL_COUNT_pos. case_decide; lia. }
    clearbody block. rewrite <-(take_drop block l) in E, Hu, Hn. rewrite encode_intervals_app, <-app_assoc in E.
    assert (length (take block l) = block) as Elb by (rewrite length_take; lia).
    assert (length (encode_intervals (take block l)) = block * sizeof_interval)%nat as Ee
      by (by rewrite length_encode_intervals, Elb).
    destruct (full_read_ok io_steps s [] (block * sizeof_interval)) as (s1 & Er & Hu1 & _ & Hi1).
    { assert (block * sizeof_interval <= INTERVAL_COUNT * sizeof_interval)%nat
        by (apply Nat.mul_le_mono_r; lia).
      unfold io_fuel, enough_steps in *. cbn [length]. lia. }
    { rewrite E, length_app, Ee. cbn [length]. lia. }
    { cbn. lia. }
    cbn [length] in Er, Hu1. rewrite Nat.sub_0_r, E in *. rewrite take_app_length' in Er by lia.
    rewrite drop_app_length' in Hu1 by lia. rewrite Er. cbn [mbind res_bind app].
    apply Forall_app in Hu as [Hua Hub], Hn as [Hna Hnb].
    destruct (read_block_spec (take block l) tree [] Hok Hua Hna) as (t1 & Eb & Hok1 & Hp1).
    rewrite Elb, app_nil_r in Eb. rewrite Eb. cbn [mbind res_bind].
    replace (length l - block)%nat with (length (drop block l)) by (by rewrite length_drop).
    destruct (IH t1 s1 (drop block l) rest) as (t2 & s2 & -> & Hok2 & Hp2 & Hr2); try done.
    { unfold enough_steps in *. lia. }
    { rewrite length_drop. lia. }
    exists t2, s2. split_and!; [done|done| |done]. intros x.
    assert (icov l x <-> icov (take block l) x \/ icov (drop block l) x)
      by (by rewrite <-icov_app, take_drop).
    rewrite Hp2, Hp1. tauto.
Qed.
End plain_files.

Lemma icov_nodes l x : icov (node_interval <$> l) x <-> cov l x.
Proof.
  induction l as [|n l IH]; [by rewrite icov_nil, cov_nil|].
  rewrite fmap_cons, icov_cons, cov_cons, IH. done.
Qed.

(** A separated list is determined by the points it covers. *)
Lemma separated_canonical l1 : forall l2,
  separated l1 -> separated l2 -> (forall x, cov l1 x <-> cov l2 x) ->
  node_interval <$> l1 = node_interval <$> l2.
Proof.
  assert (forall n l, separated (n :: l) -> cov (n :: l) (node_key n) /\
            forall x, cov (n :: l) x -> node_key n <= x) as Hmin.
  { intros n l (? & Hl & _)%separated_cons. split; [rewrite cov_cons; lia|].
    intros x [?|Hx]%cov_cons; [lia|]. apply (cov_lower _ (node_value n)) in Hx; [lia|done]. }
  assert (forall n l, separated (n :: l) -> ~ cov (n :: l) (node_value n) /\
            forall x, cov l x <-> cov (n :: l) x /\ node_value n <= x) as Hval.
  { intros n l (? & Hl & _)%separated_cons.
    assert (forall x, cov l x -> node_value n < x) as Hc by (intros x; by apply cov_lower).
    split; [rewrite cov_cons; intros [?|?%Hc]; lia|].
    intros x. rewrite cov_cons. split; [|intros [[?|?] ?]; [lia|done]].
    intros Hx. pose proof (Hc x Hx). split; [tauto|lia]. }
  induction l1 as [|n1 l1 IH]; intros [|n2 l2] H1 H2 Hc; [done| | |].
  - destruct (Hmin _ _ H2) as [Hx _]. by apply Hc, cov_nil in Hx.
  - destruct (Hmin _ _ H1) as [Hx _]. by apply Hc, cov_nil in Hx.
  - pose proof (Hmin _ _ H1) as [Ha1 Hb1]. pose proof (Hmin _ _ H2) as [Ha2 Hb2].
    assert (node_key n1 = node_key n2) as Ek.
    { pose proof (Hb1 _ (proj2 (Hc _) Ha2)). pose proof (Hb2 _ (proj1 (Hc _) Ha1)). lia. }
    pose proof (Hval _ _ H1) as [Hv1 Ht1]. pose proof (Hval _ _ H2) as [Hv2 Ht2].
    apply separated_cons in H1 as (Hk1 & _ & Hs1), H2 as (Hk2 & _ & Hs2).
    assert (node_value n1 = node_value n2) as Ev.
    { rewrite Hc in Hv1. rewrite <-Hc in Hv2. rewrite cov_cons in Hv1, Hv2. lia. }
    rewrite !fmap_cons. f_equal.
    + unfold node_interval. by rewrite Ek, Ev.
    + apply IH; [done|done|]. intros x. by rewrite Ht1, Ht2, Hc, Ev.
Qed.

(** ** Properties *)

(** An interval tree over the sample splay tree: [5,9), [12,15), [20,25), [40,41). *)
Definition sample_it : interval_tree := MkIT sample 4 4 (-1) 0 false.

Lemma sample_it_ok : it_ok sample_it.
Proof.
  split; [apply sample_ok| |done]. vm_compute contents.
  repeat (apply separated_cons; cbn; split_and!; [lia|set_solver by lia|]). apply separated_nil.
Qed.

(** C14. [interval_tree_insert] adds exactly the points of [start, end): it never
    aborts or loops, keeps the intervals non-empty, sorted, disjoint and
    non-adjacent and [size] their number, and returns a node that covers what was
    inserted. *)
Theorem interval_tree_insert_union (tree : interval_tree) (start end_ : Z) :
  it_ok tree -> start < end_ ->
  exists tree' p, interval_tree_insert tree start end_ = Ok (tree', p) /\ it_ok tree' /\
    (forall x, points tree' x <-> points tree x \/ start <= x < end_) /\
    exists n, get p (it_splay tree') = Ok n /\ INTERVAL_START n <= start /\ end_ <= INTERVAL_END n.
Proof.
  intros Hok Hlt. destruct (interval_tree_insert_spec tree start end_ Hok Hlt)
    as (tree' & p & E & Hok' & Hp & k & v & Hin & ? & ?).
  exists tree', p. split_and!; [done|done|done|]. exists (MkNode p k v). split_and!; [|done|done].
  apply get_mk; [apply Hok'|done].
Qed.

Lemma interval_tree_insert_union_witness :
  exists tree' p, interval_tree_insert sample_it 8 20 = Ok (tree', p) /\ it_ok tree' /\
    (forall x, points tree' x <-> points sample_it x \/ 8 <= x < 20) /\
    exists n, get p (it_splay tree') = Ok n /\ INTERVAL_START n <= 8 /\ 20 <= INTERVAL_END n.
Proof. apply (interval_tree_insert_union sample_it 8 20); [apply sample_it_ok|lia]. Defined.

(** C15. [interval_tree_delete] removes exactly the points of [start, end), keeps
    the tree well-formed, and sets the [deleted] flag exactly when a point was
    removed. *)
Theorem interval_tree_delete_difference (tree : interval_tree) (start end_ : Z) :
  it_ok tree -> start < end_ ->
  exists tree', interval_tree_delete tree start end_ = Ok tree' /\ it_ok tree' /\
    (forall x, points tree' x <-> points tree x /\ ~ (start <= x < end_)) /\
    (it_deleted tree' = true <->
       it_deleted tree = true \/ exists x, points tree x /\ start <= x < end_).
Proof. apply interval_tree_delete_spec. Qed.

Lemma interval_tree_delete_difference_witness :
  exists tree', interval_tree_delete sample_it 13 22 = Ok tree' /\ it_ok tree' /\
    (forall x, points tree' x <-> points sample_it x /\ ~ (13 <= x < 22)) /\
    (it_deleted tree' = true <->
       it_deleted sample_it = true \/ exists x, points sample_it x /\ 13 <= x < 22).
Proof. apply (interval_tree_delete_difference sample_it 13 22); [apply sample_it_ok|lia]. Defined.

(** [interval_tree_add] and [interval_tree_sub] are the union and the
    difference of the two trees' points, the early stop of the subtraction
    included. *)
Theorem interval_tree_add_sub (tree1 tree2 : interval_tree) :
  it_ok tree1 -> it_ok tree2 ->
  exists u d, interval_tree_add tree1 tree2 = Ok u /\ interval_tree_sub tree1 tree2 = Ok d /\
    it_ok u /\ it_ok d /\
    (forall x, points u x <-> points tree1 x \/ points tree2 x) /\
    (forall x, points d x <-> points tree1 x /\ ~ points tree2 x).
Proof.
  intros H1 Hok2. destruct (interval_tree_add_spec tree1 tree2 H1 Hok2) as (u & -> & Hu & Pu).
  destruct Hok2 as [H2 Hs2 _]. unfold interval_tree_sub. rewrite splay_tree_foreach_spec.
  destruct (foreach_sub _ tree1 H1 Hs2) as (d & r & -> & Hd & Pd). by exists u, d.
Qed.

Lemma interval_tree_add_sub_witness :
  exists u d, interval_tree_add sample_it sample_it = Ok u /\ interval_tree_sub sample_it sample_it = Ok d /\
    it_ok u /\ it_ok d /\
    (forall x, points u x <-> points sample_it x \/ points sample_it x) /\
    (forall x, points d x <-> points sample_it x /\ ~ points sample_it x).
Proof. apply (interval_tree_add_sub sample_it sample_it); apply sample_it_ok. Defined.

(** [interval_tree_lookup] returns the first interval that ends after the
    value, that is the one containing it or else the next one; and
    [interval_tree_covered] decides whether all of [start, end) is covered. *)
Theorem interval_tree_queries (tree : interval_tree) (value start end_ : Z) :
  it_ok tree -> start < end_ ->
  exists tree1 o tree2 b,
    interval_tree_lookup tree value = Ok (tree1, o) /\
    o = node_ptr <$> head (filter (fun n => value < INTERVAL_END n) (contents (it_splay tree))) /\
    interval_tree_covered tree start end_ = Ok (tree2, b) /\
    (b = true <-> forall x, start <= x < end_ -> points tree x) /\
    intervals tree1 = intervals tree /\ intervals tree2 = intervals tree.
Proof.
  intros Hok Hlt. destruct (interval_tree_lookup_spec tree value Hok) as (sp1 & -> & _ & E1).
  destruct (interval_tree_covered_spec tree start end_ Hok Hlt) as (sp2 & b & -> & _ & E2 & Hb).
  eexists _, _, _, _. split_and!; [done|done|done|done| |];
    unfold intervals; cbn [it_splay with_splay]; by rewrite ?E1, ?E2.
Qed.

Lemma interval_tree_queries_witness :
  exists tree1 o tree2 b,
    interval_tree_lookup sample_it 10 = Ok (tree1, o) /\
    o = node_ptr <$> head (filter (fun n => 10 < INTERVAL_END n) (contents (it_splay sample_it))) /\
    interval_tree_covered sample_it 13 15 = Ok (tree2, b) /\
    (b = true <-> forall x, 13 <= x < 15 -> points sample_it x) /\
    intervals tree1 = intervals sample_it /\ intervals tree2 = intervals sample_it.
Proof. apply (interval_tree_queries sample_it 10 13 15); [apply sample_it_ok|lia]. Defined.

(** [interval_tree_intersection] returns exactly the points of the tree that
    lie in [start, end). *)
Theorem interval_tree_intersection_exact (tree : interval_tree) (start end_ : Z) :
  it_ok tree ->
  exists tree' dest, interval_tree_intersection tree start end_ = Ok (tree', dest) /\
    intervals tree' = intervals tree /\
    (forall x, icov dest x <-> points tree x /\ start <= x < end_).
Proof.
  intros Hok. destruct (interval_tree_intersection_1_spec tree start end_ [] Hok)
    as (sp & l & E & _ & Ec & Hl).
  exists (with_splay tree sp), l. split_and!; [exact E| |done]. unfold intervals. cbn [it_splay with_splay].
  by rewrite Ec.
Qed.

Lemma interval_tree_intersection_exact_witness :
  exists tree' dest, interval_tree_intersection sample_it 6 21 = Ok (tree', dest) /\
    intervals tree' = intervals sample_it /\
    (forall x, icov dest x <-> points sample_it x /\ 6 <= x < 21).
Proof. apply (interval_tree_intersection_exact sample_it 6 21), sample_it_ok. Defined.

(** [interval_tree_complement] lists no point of the tree and none below
    [start], and lists every point of [start, end) that is not in the tree. *)
Theorem interval_tree_complement_covers (tree : interval_tree) (start end_ : Z) :
  it_ok tree ->
  exists tree' dest, interval_tree_complement tree start end_ = Ok (tree', dest) /\
    intervals tree' = intervals tree /\
    (forall x, icov dest x -> start <= x /\ ~ points tree x) /\
    (forall x, start <= x < end_ -> ~ points tree x -> icov dest x).
Proof.
  intros Hok. destruct (interval_tree_complement_1_spec tree start end_ [] Hok)
    as (sp & l & E & _ & Ec & Hl1 & Hl2).
  exists (with_splay tree sp), l. split_and!; [exact E| |done|done]. unfold intervals.
  cbn [it_splay with_splay]. by rewrite Ec.
Qed.

Lemma interval_tree_complement_covers_witness :
  exists tree' dest, interval_tree_complement sample_it 6 30 = Ok (tree', dest) /\
    intervals tree' = intervals sample_it /\
    (forall x, icov dest x -> 6 <= x /\ ~ points sample_it x) /\
    (forall x, 6 <= x < 30 -> ~ points sample_it x -> icov dest x).
Proof. apply (interval_tree_complement_covers sample_it 6 30), sample_it_ok. Defined.

(** C22. Cutting an interval along a tree: [interval_tree_intersection] returns
    exactly the points of [start, end) in the tree, and [interval_tree_complement]
    returns every other point of [start, end) and no point of the tree or below
    [start]; the two together cover [start, end). *)
Theorem interval_tree_cut (tree : interval_tree) (start end_ : Z) :
  it_ok tree ->
  exists tree1 tree2 dest1 dest2,
    interval_tree_intersection tree start end_ = Ok (tree1, dest1) /\ intervals tree1 = intervals tree /\
    interval_tree_complement tree start end_ = Ok (tree2, dest2) /\ intervals tree2 = intervals tree /\
    (forall x, icov dest1 x <-> points tree x /\ start <= x < end_) /\
    (forall x, start <= x < end_ -> icov dest2 x <-> ~ points tree x) /\
    (forall x, icov dest2 x -> start <= x /\ ~ points tree x) /\
    (forall x, start <= x < end_ -> icov (dest1 ++ dest2) x).
Proof.
  intros Hok. destruct (interval_tree_intersection_exact tree start end_ Hok) as (t1 & d1 & E1 & I1 & H1).
  destruct (interval_tree_complement_covers tree start end_ Hok) as (t2 & d2 & E2 & I2 & H2 & H3).
  exists t1, t2, d1, d2. split_and!; try done.
  - intros x Hx. split; [intros Hc; by apply H2 in Hc as [_ ?]|by apply H3].
  - intros x Hx. rewrite icov_app. destruct (decide (cov (contents (it_splay tree)) x)) as [Hp|Hp]; [left; by apply H1|right; by apply H3].
Qed.

Lemma interval_tree_cut_witness :
  exists tree1 tree2 dest1 dest2,
    interval_tree_intersection sample_it 6 21 = Ok (tree1, dest1) /\ intervals tree1 = intervals sample_it /\
    interval_tree_complement sample_it 6 21 = Ok (tree2, dest2) /\ intervals tree2 = intervals sample_it /\
    (forall x, icov dest1 x <-> points sample_it x /\ 6 <= x < 21) /\
    (forall x, 6 <= x < 21 -> icov dest2 x <-> ~ points sample_it x) /\
    (forall x, icov dest2 x -> 6 <= x /\ ~ points sample_it x) /\
    (forall x, 6 <= x < 21 -> icov (dest1 ++ dest2) x).
Proof. apply (interval_tree_cut sample_it 6 21), sample_it_ok. Defined.

(** [interval_tree_complement] overshoots: the last piece is not cut at [end],
    so for [6, 30) in the sample tree it also returns [30, 40). *)
Theorem interval_tree_complement_overshoots :
  exists tree' dest, interval_tree_complement sample_it 6 30 = Ok (tree', dest) /\
    icov dest 39 /\ ~ points sample_it 39.
Proof.
  eexists _, _. split; [vm_compute; reflexivity|]. split.
  - exists (MkInterval 25 40). split; [|cbn; lia]. set_solver.
  - unfold points. vm_compute contents. rewrite !cov_cons, cov_nil. cbn. lia.
Qed.

(** C23. Writing a tree to a file and reading the file back into an empty tree
    gives the same intervals: neither operation fails, aborts or loops on a
    regular file, however the kernel splits the transfers. *)
Theorem interval_tree_file_roundtrip {F : Type} `{PlainFile F} (io_steps : nat)
    (tree new : interval_tree) (out inp : io F) (rest : list Z) :
  it_ok tree -> Forall ivl_u64 (intervals tree) ->
  it_ok new -> intervals new = [] ->
  (INTERVAL_COUNT * sizeof_interval + interrupts (file out) <= io_steps)%nat ->
  (INTERVAL_COUNT * sizeof_interval + interrupts (file inp) <= io_steps)%nat ->
  exists out', interval_tree_write io_steps tree out = Ok (out', true) /\
    (unread (file inp) = drop (length (written (file out))) (written (file out')) ++ rest ->
     exists new' inp',
       interval_tree_read io_steps new inp (length (intervals tree)) = Ok (new', inp', true) /\
    it_ok new' /\ intervals new' = intervals tree /\ unread (file inp') = rest).
Proof.
  intros Hok Hu Hn He Ho Hi.
  destruct (interval_tree_write_spec io_steps tree out Ho) as (out' & -> & Ew).
  exists out'. split; [done|]. rewrite Ew, drop_app_length. intros Er.
  assert (Forall (fun i => start i < end_ i) (intervals tree)) as Hne.
  { apply Forall_fmap, Forall_forall. intros n Hin. by apply (separated_elem _ _ (it_separated _ Hok)). }
  destruct (read_loop_spec io_steps (length (intervals tree)) new inp (intervals tree) rest)
    as (new' & inp' & E & Hok' & Hp & Hr); try done.
  exists new', inp'. split_and!; [exact E|done| |done].
  apply separated_canonical; [apply Hok'|apply Hok|]. intros x. fold (points new' x) (points tree x).
  rewrite Hp. unfold intervals. rewrite icov_nodes. fold (points tree x).
  assert (points new x -> False); [|tauto]. unfold points. rewrite <-icov_nodes. fold (intervals new).
  rewrite He. by rewrite icov_nil.
Qed.

Lemma mem_enough (blocks steps c : nat) u w e :
  (blocks <= steps)%nat -> (blocks + interrupts (file (MkIo (MkMem c u w) e)) <= steps)%nat.
Proof. intros H. cbn. lia. Qed.

Lemma sample_it_u64 : Forall ivl_u64 (intervals sample_it).
Proof.
  assert (intervals sample_it = [MkInterval 5 9; MkInterval 12 15; MkInterval 20 25; MkInterval 40 41])
    as -> by (vm_compute; reflexivity).
  repeat (constructor; [unfold ivl_u64, is_u64; cbn [start end_]; lia|]). constructor.
Qed.

Lemma create_no_intervals n :
  (0 < n)%nat -> exists new, interval_tree_create n = Ok new /\ it_ok new /\ intervals new = [].
Proof.
  intros (new & En & Hn & Hp)%interval_tree_create_spec. exists new. split_and!; [done|done|].
  unfold intervals. destruct (contents (it_splay new)) as [|m l] eqn:E; [done|]. exfalso.
  apply (Hp (node_key m)). exists m. rewrite E. split; [set_solver|].
  apply it_separated in Hn. rewrite E in Hn. apply separated_cons in Hn. lia.
Qed.

Lemma interval_tree_file_roundtrip_witness :
  exists steps new out' new' inp',
    interval_tree_create 4 = Ok new /\
    interval_tree_write steps sample_it (MkIo (MkMem 7 [] []) 0) = Ok (out', true) /\
    interval_tree_read steps new (MkIo (MkMem 5 (m_written (file out')) []) 0)
      (length (intervals sample_it)) = Ok (new', inp', true) /\
    intervals new' = intervals sample_it.
Proof.
  destruct (create_no_intervals 4 ltac:(lia)) as (new & En & Hn & He).
  exists (INTERVAL_COUNT * sizeof_interval)%nat, new.
  pose proof (mem_enough (INTERVAL_COUNT * sizeof_interval) (INTERVAL_COUNT * sizeof_interval) 7 [] [] 0
    (Nat.le_refl _)) as Ho.
  destruct (interval_tree_write_spec _ sample_it _ Ho) as (out' & Ew & _). exists out'.
  pose proof (mem_enough (INTERVAL_COUNT * sizeof_interval) (INTERVAL_COUNT * sizeof_interval) 5
    (m_written (file out')) [] 0 (Nat.le_refl _)) as Hi.
  destruct (interval_tree_file_roundtrip _ sample_it new _ _ [] sample_it_ok sample_it_u64 Hn He Ho Hi)
    as (out2 & Ew2 & H).
  rewrite Ew in Ew2. injection Ew2 as <-.
  destruct H as (new' & inp' & Er & _ & Hr & _); [by rewrite app_nil_r, drop_0|].
  exists new', inp'. exact (conj En (conj Ew (conj Er Hr))).
Defined.
