(* ===== verification/Crc32.v ===== *)
(** The 32-bit CRC of [src/zfsd/lib/crc32/crc32.c].

    A buffer is the list of its bytes; a string is the memory from its first
    character on, so that a string without a terminating NUL is a read past the
    end ([Aborted]). *)

From S2P Require Import Prelude.

Definition crc32_table : list Z :=
  [0x00000000; 0x77073096; 0xee0e612c; 0x990951ba; 0x076dc419; 0x706af48f;
   0xe963a535; 0x9e6495a3; 0x0edb8832; 0x79dcb8a4; 0xe0d5e91e; 0x97d2d988;
   0x09b64c2b; 0x7eb17cbd; 0xe7b82d07; 0x90bf1d91; 0x1db71064; 0x6ab020f2;
   0xf3b97148; 0x84be41de; 0x1adad47d; 0x6ddde4eb; 0xf4d4b551; 0x83d385c7;
   0x136c9856; 0x646ba8c0; 0xfd62f97a; 0x8a65c9ec; 0x14015c4f; 0x63066cd9;
   0xfa0f3d63; 0x8d080df5; 0x3b6e20c8; 0x4c69105e; 0xd56041e4; 0xa2677172;
   0x3c03e4d1; 0x4b04d447; 0xd20d85fd; 0xa50ab56b; 0x35b5a8fa; 0x42b2986c;
   0xdbbbc9d6; 0xacbcf940; 0x32d86ce3; 0x45df5c75; 0xdcd60dcf; 0xabd13d59;
   0x26d930ac; 0x51de003a; 0xc8d75180; 0xbfd06116; 0x21b4f4b5; 0x56b3c423;
   0xcfba9599; 0xb8bda50f; 0x2802b89e; 0x5f058808; 0xc60cd9b2; 0xb10be924;
   0x2f6f7c87; 0x58684c11; 0xc1611dab; 0xb6662d3d; 0x76dc4190; 0x01db7106;
   0x98d220bc; 0xefd5102a; 0x71b18589; 0x06b6b51f; 0x9fbfe4a5; 0xe8b8d433;
   0x7807c9a2; 0x0f00f934; 0x9609a88e; 0xe10e9818; 0x7f6a0dbb; 0x086d3d2d;
   0x91646c97; 0xe6635c01; 0x6b6b51f4; 0x1c6c6162; 0x856530d8; 0xf262004e;
   0x6c0695ed; 0x1b01a57b; 0x8208f4c1; 0xf50fc457; 0x65b0d9c6; 0x12b7e950;
   0x8bbeb8ea; 0xfcb9887c; 0x62dd1ddf; 0x15da2d49; 0x8cd37cf3; 0xfbd44c65;
   0x4db26158; 0x3ab551ce; 0xa3bc0074; 0xd4bb30e2; 0x4adfa541; 0x3dd895d7;
   0xa4d1c46d; 0xd3d6f4fb; 0x4369e96a; 0x346ed9fc; 0xad678846; 0xda60b8d0;
   0x44042d73; 0x33031de5; 0xaa0a4c5f; 0xdd0d7cc9; 0x5005713c; 0x270241aa;
   0xbe0b1010; 0xc90c2086; 0x5768b525; 0x206f85b3; 0xb966d409; 0xce61e49f;
   0x5edef90e; 0x29d9c998; 0xb0d09822; 0xc7d7a8b4; 0x59b33d17; 0x2eb40d81;
   0xb7bd5c3b; 0xc0ba6cad; 0xedb88320; 0x9abfb3b6; 0x03b6e20c; 0x74b1d29a;
   0xead54739; 0x9dd277af; 0x04db2615; 0x73dc1683; 0xe3630b12; 0x94643b84;
   0x0d6d6a3e; 0x7a6a5aa8; 0xe40ecf0b; 0x9309ff9d; 0x0a00ae27; 0x7d079eb1;
   0xf00f9344; 0x8708a3d2; 0x1e01f268; 0x6906c2fe; 0xf762575d; 0x806567cb;
   0x196c3671; 0x6e6b06e7; 0xfed41b76; 0x89d32be0; 0x10da7a5a; 0x67dd4acc;
   0xf9b9df6f; 0x8ebeeff9; 0x17b7be43; 0x60b08ed5; 0xd6d6a3e8; 0xa1d1937e;
   0x38d8c2c4; 0x4fdff252; 0xd1bb67f1; 0xa6bc5767; 0x3fb506dd; 0x48b2364b;
   0xd80d2bda; 0xaf0a1b4c; 0x36034af6; 0x41047a60; 0xdf60efc3; 0xa867df55;
   0x316e8eef; 0x4669be79; 0xcb61b38c; 0xbc66831a; 0x256fd2a0; 0x5268e236;
   0xcc0c7795; 0xbb0b4703; 0x220216b9; 0x5505262f; 0xc5ba3bbe; 0xb2bd0b28;
   0x2bb45a92; 0x5cb36a04; 0xc2d7ffa7; 0xb5d0cf31; 0x2cd99e8b; 0x5bdeae1d;
   0x9b64c2b0; 0xec63f226; 0x756aa39c; 0x026d930a; 0x9c0906a9; 0xeb0e363f;
   0x72076785; 0x05005713; 0x95bf4a82; 0xe2b87a14; 0x7bb12bae; 0x0cb61b38;
   0x92d28e9b; 0xe5d5be0d; 0x7cdcefb7; 0x0bdbdf21; 0x86d3d2d4; 0xf1d4e242;
   0x68ddb3f8; 0x1fda836e; 0x81be16cd; 0xf6b9265b; 0x6fb077e1; 0x18b74777;
   0x88085ae6; 0xff0f6a70; 0x66063bca; 0x11010b5c; 0x8f659eff; 0xf862ae69;
   0x616bffd3; 0x166ccf45; 0xa00ae278; 0xd70dd2ee; 0x4e048354; 0x3903b3c2;
   0xa7672661; 0xd06016f7; 0x4969474d; 0x3e6e77db; 0xaed16a4a; 0xd9d65adc;
   0x40df0b66; 0x37d83bf0; 0xa9bcae53; 0xdebb9ec5; 0x47b2cf7f; 0x30b5ffe9;
   0xbdbdf21c; 0xcabac28a; 0x53b39330; 0x24b4a3a6; 0xbad03605; 0xcdd70693;
   0x54de5729; 0x23d967bf; 0xb3667a2e; 0xc4614ab8; 0x5d681b02; 0x2a6f2b94;
   0xb40bbe37; 0xc30c8ea1; 0x5a05df1b; 0x2d02ef8d].

Definition table_at (i : Z) : Z := nth (Z.to_nat i) crc32_table 0.

Definition crc32_next (crc str : Z) : Z :=
  Z.lxor (table_at (Z.land (Z.lxor crc str) 0xff)) (Z.shiftr crc 8).

(** The [while (len--)] loops. *)
Definition crc32_loop (crc : Z) (buf : list Z) : Z := fold_left crc32_next buf crc.

Definition crc32_update (crc : Z) (buf : list Z) : Z :=
  Z.lxor (crc32_loop (Z.lxor crc 0xffffffff) buf) 0xffffffff.

Definition crc32_buffer (buf : list Z) : Z := Z.lxor (crc32_loop 0xffffffff buf) 0xffffffff.

Fixpoint crc32_string_loop (crc : Z) (s : list Z) : res Z :=
  match s with
  | [] => Aborted
  | c :: s => if c =? 0 then Ok crc else crc32_string_loop (crc32_next crc c) s
  end.

Definition crc32_string (s : list Z) : res Z :=
  crc ← crc32_string_loop 0xffffffff s;
  Ok (Z.lxor crc 0xffffffff).

(** ** The reference: division by the polynomial, one bit at a time *)

Definition poly : Z := 0xedb88320.

Definition bit_step (x : Z) : Z :=
  Z.lxor (Z.shiftr x 1) (if Z.odd x then poly else 0).

Fixpoint bit_steps (n : nat) (x : Z) : Z :=
  match n with O => x | S n => bit_steps n (bit_step x) end.

Definition crc32_bitwise (buf : list Z) : Z :=
  Z.lxor (fold_left (fun crc b => bit_steps 8 (Z.lxor crc b)) buf 0xffffffff) 0xffffffff.

Lemma odd_lxor a b : Z.odd (Z.lxor a b) = xorb (Z.odd a) (Z.odd b).
Proof. rewrite <-!Z.bit0_odd. apply Z.lxor_spec. Qed.

Lemma bit_step_lxor a b : bit_step (Z.lxor a b) = Z.lxor (bit_step a) (bit_step b).
Proof.
  unfold bit_step. rewrite Z.shiftr_lxor, odd_lxor. apply Z.bits_inj'. intros n _.
  rewrite !Z.lxor_spec. destruct (Z.odd a), (Z.odd b); cbn [xorb];
    rewrite ?Z.bits_0; destruct (Z.testbit (Z.shiftr a 1) n), (Z.testbit (Z.shiftr b 1) n),
    (Z.testbit poly n); reflexivity.
Qed.

Lemma bit_steps_lxor n a b : bit_steps n (Z.lxor a b) = Z.lxor (bit_steps n a) (bit_steps n b).
Proof. revert a b; induction n as [|n IH]; intros a b; cbn; [done|]. by rewrite bit_step_lxor, IH. Qed.

Lemma bit_steps_shift n x : bit_steps n (Z.shiftl x (Z.of_nat n)) = x.
Proof.
  induction n as [|n IH]; cbn [bit_steps]; [apply Z.shiftl_0_r|].
  assert (bit_step (Z.shiftl x (Z.of_nat (S n))) = Z.shiftl x (Z.of_nat n)) as ->; [|done].
  unfold bit_step. rewrite !Z.shiftl_mul_pow2, Nat2Z.inj_succ, Z.pow_succ_r by lia.
  replace (x * (2 * 2 ^ Z.of_nat n)) with (2 * (x * 2 ^ Z.of_nat n)) by lia.
  rewrite Z.odd_mul. cbn [Z.odd andb]. rewrite Z.lxor_0_r, Z.shiftr_div_pow2 by lia.
  change (2 ^ 1) with 2. rewrite Z.mul_comm. by rewrite Z.div_mul.
Qed.

(** Every table entry is eight steps of the division of its index. *)
Lemma crc32_table_entry i : 0 <= i < 256 -> table_at i = bit_steps 8 i.
Proof.
  assert (forallb (fun k => table_at k =? bit_steps 8 k) (Z.of_nat <$> seq 0 256) = true) as H
    by (vm_compute; reflexivity).
  rewrite forallb_forall in H. intros Hi. apply Z.eqb_eq, H. apply in_map_iff.
  exists (Z.to_nat i). split; [lia|]. apply in_seq. lia.
Qed.

Lemma split_byte x : x = Z.lxor (Z.land x 0xff) (Z.shiftl (Z.shiftr x 8) 8).
Proof.
  apply Z.bits_inj'. intros n Hn. change 0xff with (Z.ones 8).
  rewrite Z.lxor_spec, Z.land_spec, Z.shiftl_spec by done. destruct (Z_lt_le_dec n 8) as [H|H].
  - rewrite Z.ones_spec_low, andb_true_r, (Z.testbit_neg_r _ (n - 8)), xorb_false_r by lia. done.
  - rewrite Z.ones_spec_high, andb_false_r, Z.shiftr_spec by lia. cbn. f_equal. lia.
Qed.

Lemma land_byte x : 0 <= Z.land x 0xff < 256.
Proof. change 0xff with (Z.ones 8). rewrite Z.land_ones by lia. apply Z.mod_pos_bound. lia. Qed.

Lemma crc32_next_bits crc b : 0 <= b < 256 -> crc32_next crc b = bit_steps 8 (Z.lxor crc b).
Proof.
  intros Hb. unfold crc32_next. rewrite crc32_table_entry by apply land_byte.
  rewrite (split_byte (Z.lxor crc b)) at 2. rewrite bit_steps_lxor. f_equal.
  pose proof (bit_steps_shift 8) as Hs. change (Z.of_nat 8) with 8 in Hs. rewrite Hs, Z.shiftr_lxor.
  assert (Z.shiftr b 8 = 0) as ->; [|by rewrite Z.lxor_0_r].
  rewrite Z.shiftr_div_pow2 by lia. apply Z.div_small. done.
Qed.

Lemma fold_left_ext_in {S T} (f g : S -> T -> S) (P : T -> Prop) (l : list T) :
  (forall s x, P x -> f s x = g s x) -> Forall P l -> forall s, fold_left f l s = fold_left g l s.
Proof.
  intros Hfg. induction 1 as [|x l Hx _ IH]; intros s; cbn [fold_left]; [done|]. rewrite (Hfg s x Hx). apply IH.
Qed.

Lemma crc32_loop_bits buf : Forall (fun b => 0 <= b < 256) buf ->
  forall crc, crc32_loop crc buf = fold_left (fun crc b => bit_steps 8 (Z.lxor crc b)) buf crc.
Proof. apply fold_left_ext_in. intros. by apply crc32_next_bits. Qed.

Lemma crc32_string_loop_ok a rest : Forall (fun c => c <> 0) a ->
  forall crc, crc32_string_loop crc (a ++ 0 :: rest) = Ok (crc32_loop crc a).
Proof.
  unfold crc32_loop. induction 1 as [|c a Hc _ IH]; intros crc; cbn; [done|]. case_if; [done|apply IH].
Qed.

(** ** Properties *)

(** A checksum is a 32-bit number. *)
Lemma lxor_u32 a b : is_u32 a -> is_u32 b -> is_u32 (Z.lxor a b).
Proof.
  intros Ha Hb. assert (forall z, 0 <= z -> is_u32 z <-> z = Z.land z (Z.ones 32)) as H.
  { intros z Hz. rewrite Z.land_ones by done. unfold is_u32. split; intros E.
    - by rewrite Z.mod_small.
    - rewrite E. apply Z.mod_pos_bound. lia. }
  apply H; [apply Z.lxor_nonneg; unfold is_u32 in *; lia|].
  rewrite H in Ha, Hb by (unfold is_u32 in *; lia). apply Z.bits_inj'. intros n Hn.
  rewrite Ha, Hb, Z.land_spec, !Z.lxor_spec, !Z.land_spec.
  destruct (Z.testbit a n), (Z.testbit b n), (Z.testbit (Z.ones 32) n); done.
Qed.

Lemma table_at_u32 i : is_u32 (table_at i).
Proof.
  unfold table_at. assert (Forall is_u32 crc32_table) as H.
  { apply Forall_forall. intros x Hx.
    assert (forallb (fun z => (0 <=? z) && (z <? 2 ^ 32)) crc32_table = true) as H by (vm_compute; reflexivity).
    rewrite forallb_forall in H. apply list_elem_of_In in Hx. specialize (H x Hx). unfold is_u32. zbool. }
  rewrite nth_lookup. destruct (crc32_table !! Z.to_nat i) eqn:E; [by eapply Forall_lookup_1|].
  cbn. unfold is_u32. lia.
Qed.

Lemma crc32_loop_u32 buf : forall crc, is_u32 crc -> is_u32 (crc32_loop crc buf).
Proof.
  unfold crc32_loop. induction buf as [|b buf IH]; intros crc Hc; cbn [fold_left]; [done|]. apply IH.
  unfold crc32_next. apply lxor_u32; [apply table_at_u32|]. unfold is_u32 in *. rewrite Z.shiftr_div_pow2 by lia.
  split; [apply Z.div_pos; lia|]. apply Z.div_lt_upper_bound; lia.
Qed.

Lemma crc32_buffer_u32 buf : is_u32 (crc32_buffer buf).
Proof. apply lxor_u32; [apply crc32_loop_u32|]; unfold is_u32; lia. Qed.

Lemma crc32_update_u32 crc buf : is_u32 crc -> is_u32 (crc32_update crc buf).
Proof.
  intros H. unfold crc32_update. apply lxor_u32; [apply crc32_loop_u32, lxor_u32|]; done || (unfold is_u32; lia).
Qed.

(** The table-driven CRC equals bit-by-bit division by the polynomial
    0xedb88320, for every buffer; in particular all 256 table entries are right. *)
Theorem crc32_buffer_bitwise (buf : list Z) :
  Forall (fun b => 0 <= b < 256) buf -> crc32_buffer buf = crc32_bitwise buf.
Proof. intros H. unfold crc32_buffer, crc32_bitwise. by rewrite crc32_loop_bits. Qed.

Lemma crc32_buffer_bitwise_witness :
  crc32_buffer [49; 50; 51; 52; 53; 54; 55; 56; 57] = 0xcbf43926 /\
  crc32_bitwise [49; 50; 51; 52; 53; 54; 55; 56; 57] = 0xcbf43926.
Proof.
  rewrite <-(crc32_buffer_bitwise [49; 50; 51; 52; 53; 54; 55; 56; 57]).
  - split; vm_compute; reflexivity.
  - repeat (constructor; [lia|]). constructor.
Defined.

(** [crc32_update] continues a checksum: the CRC of a buffer can be computed
    in pieces, and the CRC of a NUL-terminated string is that of its characters. *)
Theorem crc32_incremental (a b rest : list Z) :
  crc32_update (crc32_buffer a) b = crc32_buffer (a ++ b) /\
  (Forall (fun c => c <> 0) a -> crc32_string (a ++ 0 :: rest) = Ok (crc32_buffer a)).
Proof.
  split.
  - unfold crc32_update, crc32_buffer, crc32_loop. rewrite Z.lxor_assoc, Z.lxor_nilpotent, Z.lxor_0_r.
    by rewrite fold_left_app.
  - unfold crc32_string, crc32_buffer. intros H. by rewrite crc32_string_loop_ok.
Qed.

Lemma crc32_incremental_witness :
  crc32_update (crc32_buffer [1; 2]) [3] = crc32_buffer [1; 2; 3] /\
  crc32_string [1; 2; 0; 9] = Ok (crc32_buffer [1; 2]).
Proof.
  split; [apply (crc32_incremental [1; 2] [3] [9])|]. apply (crc32_incremental [1; 2] [3] [9]).
  repeat (constructor; [lia|]). constructor.
Defined.
