(* ===== verification/DataCoding.v ===== *)
(** The wire format: [src/zfsd/zfs-protocol/data-coding.c], [data-coding.h] and
    the structures of [zfs-prot.h].

    A coding buffer keeps the bytes of the 16-byte aligned [buffer] and the
    position [cur_pos] as an offset into it, so that aligning the pointer is
    aligning the offset.  Reads and writes outside the buffer are [Aborted].
    An encoder returns the new buffer and its boolean; a decoder returns [None]
    for [false], since the value behind the pointer is then not used.  Strings
    and data buffers decoded from a packet are the bytes their pointers show. *)

From S2P Require Import Prelude.

Definition ZFS_DC_SIZE : Z := 8888.
Definition ZFS_MAXDATA : Z := 8192.
Definition ZFS_MAXPATHLEN : Z := 1023.
Definition ZFS_MAXNAMELEN : Z := 255.
Definition ZFS_MAXNODELEN : Z := 256.
Definition MD5_SIZE : Z := 16.
Definition ZFS_VERIFY_LEN : Z := MD5_SIZE.
Definition ZFS_MAX_MD5_CHUNKS : Z := ZFS_MAXDATA / (MD5_SIZE + 2 * 8).

Record DC := MkDC { buffer : list Z; cur_pos : Z; max_length : Z; cur_length : Z }.

Definition set_cur_length (dc : DC) (n : Z) : DC :=
  MkDC (buffer dc) (cur_pos dc) (max_length dc) n.

(** [ALIGN_1], [ALIGN_2], [ALIGN_4], [ALIGN_8]. *)
Definition ALIGN (s n : Z) : Z := Z.land (n + (s - 1)) (Z.lnot (s - 1)).

(** ** Memory *)

Definition load (buf : list Z) (pos n : Z) : res (list Z) :=
  if (0 <=? pos) && (0 <=? n) && (pos + n <=? Z.of_nat (length buf))
  then Ok (take (Z.to_nat n) (drop (Z.to_nat pos) buf)) else Aborted.

Definition store (buf : list Z) (pos : Z) (bytes : list Z) : res (list Z) :=
  if (0 <=? pos) && (pos + Z.of_nat (length bytes) <=? Z.of_nat (length buf))
  then Ok (take (Z.to_nat pos) buf ++ bytes ++ drop (Z.to_nat pos + length bytes) buf)
  else Aborted.

(** ** Encoders and decoders *)

Definition encoder := DC -> res (DC * bool).
Definition decoder (A : Type) := DC -> res (DC * option A).

(** [e1 && e2] *)
Definition andthen (e1 e2 : encoder) : encoder := fun dc =>
  '(dc, r) ← e1 dc;
  if r : bool then e2 dc else Ok (dc, false).
Notation "e1 &&> e2" := (andthen e1 e2) (at level 60, right associativity) : zfs_scope.

(** [e1; e2], the first result ignored. *)
Definition ignoring (e1 e2 : encoder) : encoder := fun dc =>
  '(dc, _) ← e1 dc; e2 dc.
Notation "e1 ;;; e2" := (ignoring e1 e2) (at level 62, right associativity) : zfs_scope.

Definition succeed : encoder := fun dc => Ok (dc, true).

#[global] Instance decoder_ret : MRet decoder := fun A a dc => Ok (dc, Some a).
#[global] Instance decoder_bind : MBind decoder := fun A B k d dc =>
  match d dc with
  | Ok (dc, Some a) => k a dc
  | Ok (dc, None) => Ok (dc, None)
  | Aborted => Aborted
  | OutOfFuel => OutOfFuel
  end.

(** [if (cond) return false] *)
Definition reject_if (cond : bool) : decoder unit := fun dc =>
  Ok (dc, if cond then None else Some tt).

Definition returning {A : Type} (o : option A) : decoder A := fun dc => Ok (dc, o).

(** [ENCODE_SIMPLE_TYPE(T, S, F)] and [DECODE_SIMPLE_TYPE(T, S, F)]. *)
Definition encode_simple (S : Z) (val : Z) : encoder := fun dc =>
  let prev := cur_length dc in
  let dc := set_cur_length dc (u32 (ALIGN S prev + S)) in
  if max_length dc <? cur_length dc then Ok (set_cur_length dc prev, false)
  else
    let p := ALIGN S (cur_pos dc) in
    buf ← store (buffer dc) (cur_pos dc) (replicate (Z.to_nat (p - cur_pos dc)) 0);
    buf ← store buf p (le_bytes (Z.to_nat S) val);
    Ok (MkDC buf (p + S) (max_length dc) (cur_length dc), true).

Definition decode_simple (S : Z) (conv : Z -> Z) : decoder Z := fun dc =>
  let dc := set_cur_length dc (u32 (ALIGN S (cur_length dc) + S)) in
  if max_length dc <? cur_length dc then Ok (dc, None)
  else
    let p := ALIGN S (cur_pos dc) in
    bytes ← load (buffer dc) p S;
    Ok (MkDC (buffer dc) (p + S) (max_length dc) (cur_length dc), Some (conv (le_value bytes))).

(** Two's complement: the value of [w] bits read as a signed integer. *)
Definition signed (w z : Z) : Z := if z <? 2 ^ (w - 1) then z else z - 2 ^ w.

Definition encode_char (v : Z) : encoder := encode_simple 1 v.
Definition encode_uchar (v : Z) : encoder := encode_simple 1 v.
Definition encode_int16_t (v : Z) : encoder := encode_simple 2 v.
Definition encode_uint16_t (v : Z) : encoder := encode_simple 2 v.
Definition encode_int32_t (v : Z) : encoder := encode_simple 4 v.
Definition encode_uint32_t (v : Z) : encoder := encode_simple 4 v.
Definition encode_int64_t (v : Z) : encoder := encode_simple 8 v.
Definition encode_uint64_t (v : Z) : encoder := encode_simple 8 v.
Definition decode_char : decoder Z := decode_simple 1 (signed 8).
Definition decode_uchar : decoder Z := decode_simple 1 id.
Definition decode_int16_t : decoder Z := decode_simple 2 (signed 16).
Definition decode_uint16_t : decoder Z := decode_simple 2 id.
Definition decode_int32_t : decoder Z := decode_simple 4 (signed 32).
Definition decode_uint32_t : decoder Z := decode_simple 4 id.
Definition decode_int64_t : decoder Z := decode_simple 8 (signed 64).
Definition decode_uint64_t : decoder Z := decode_simple 8 id.

Definition encode_length := encode_uint32_t.
Definition decode_length := decode_uint32_t.
Definition encode_request_id := encode_uint32_t.
Definition decode_request_id := decode_uint32_t.
Definition encode_status := encode_int32_t.
Definition decode_status := decode_int32_t.
Definition encode_function := encode_uint32_t.
Definition decode_function := decode_uint32_t.
Definition encode_zfs_time := encode_uint32_t.
Definition decode_zfs_time := decode_uint32_t.

Definition start_encoding (dc : DC) : res DC :=
  '(dc, _) ← encode_uint32_t 0 (MkDC (buffer dc) 0 ZFS_DC_SIZE 0);
  Ok dc.

Definition finish_encoding (dc : DC) : res (DC * Z) :=
  buf ← store (buffer dc) 0 (le_bytes 4 (u32 (cur_length dc)));
  Ok (MkDC buf (cur_pos dc) (max_length dc) (cur_length dc), cur_length dc).

Definition start_decoding (dc : DC) : res (DC * bool) :=
  '(dc, r) ← decode_uint32_t (MkDC (buffer dc) 0 4 0);
  let dc := match r with
            | Some len => MkDC (buffer dc) (cur_pos dc) len (cur_length dc)
            | None => dc
            end in
  Ok (dc, max_length dc <=? ZFS_DC_SIZE).

Definition finish_decoding (dc : DC) : bool := cur_length dc =? max_length dc.

(** *** Buffers and strings *)

(** The data of a [data_buffer]: bytes elsewhere in memory, or already at the
    position where they would be encoded. *)
Inductive data_ptr := Elsewhere (bytes : list Z) | AtCurPos.

Record data_buffer := MkData { data_len : Z; data_buf : data_ptr }.

(** [dc->cur_length += n]; [false] when it exceeds [max_length]. *)
Definition encode_data_buffer (data : data_buffer) : encoder :=
  encode_uint32_t (data_len data) &&> fun dc =>
  let prev := cur_length dc in
  let dc := set_cur_length dc (u32 (prev + data_len data)) in
  if max_length dc <? cur_length dc then Ok (set_cur_length dc prev, false)
  else
    buf ← match data_buf data with
          | AtCurPos => Ok (buffer dc)
          | Elsewhere bytes =>
              bytes ← load bytes 0 (data_len data);
              store (buffer dc) (cur_pos dc) bytes
          end;
    Ok (MkDC buf (cur_pos dc + data_len data) (max_length dc) (cur_length dc), true).

(** The bytes a pointer into the packet shows, the position moved past them. *)
Definition take_bytes (n : Z) : decoder (list Z) := fun dc =>
  bytes ← load (buffer dc) (cur_pos dc) n;
  Ok (MkDC (buffer dc) (cur_pos dc + n) (max_length dc) (cur_length dc), Some bytes).

Definition advance (n : Z) : decoder unit := fun dc =>
  let dc := set_cur_length dc (u32 (cur_length dc + n)) in
  Ok (dc, if max_length dc <? cur_length dc then None else Some tt).

Definition decode_data_buffer : decoder data_buffer :=
  len ← decode_uint32_t;
  _ ← reject_if (ZFS_MAXDATA <? len);
  _ ← advance len;
  bytes ← take_bytes len;
  mret (MkData len (Elsewhere bytes)).

Definition encode_fixed_buffer (bytes : list Z) (len : Z) : encoder := fun dc =>
  let prev := cur_length dc in
  let dc := set_cur_length dc (u32 (prev + len)) in
  if max_length dc <? cur_length dc then Ok (set_cur_length dc prev, false)
  else
    bytes ← load bytes 0 len;
    buf ← store (buffer dc) (cur_pos dc) bytes;
    Ok (MkDC buf (cur_pos dc + len) (max_length dc) (cur_length dc), true).

Definition decode_fixed_buffer (len : Z) : decoder (list Z) :=
  _ ← advance len; take_bytes len.

(** [str] is the memory from the first character on, the NUL included. *)
Record string := MkString { str_len : Z; str : list Z }.

Definition encode_string (s : string) : encoder := fun dc =>
  let prev := cur_length dc in
  (encode_uint32_t (str_len s) &&> fun dc =>
   let dc := set_cur_length dc (u32 (cur_length dc + u32 (str_len s + 1))) in
   if max_length dc <? cur_length dc then Ok (set_cur_length dc prev, false)
   else
     bytes ← load (str s) 0 (u32 (str_len s + 1));
     buf ← store (buffer dc) (cur_pos dc) bytes;
     Ok (MkDC buf (cur_pos dc + u32 (str_len s + 1)) (max_length dc) (cur_length dc), true)) dc.

(** [str->str[str->len] = 0] *)
Definition terminate (len : Z) : decoder unit := fun dc =>
  buf ← store (buffer dc) (cur_pos dc + len) [0];
  Ok (MkDC buf (cur_pos dc) (max_length dc) (cur_length dc), Some tt).

Definition decode_string (max_len : Z) : decoder string :=
  len ← decode_uint32_t;
  _ ← reject_if (max_len <? len);
  _ ← advance (u32 (len + 1));
  _ ← terminate len;
  bytes ← take_bytes (u32 (len + 1));
  mret (MkString len bytes).

Definition encode_void : encoder := succeed.
Definition decode_void : decoder unit := mret tt.

(** *** Enumerations *)

Inductive direction := DIR_REQUEST | DIR_REPLY | DIR_ONEWAY.
Inductive ftype := FT_BAD | FT_REG | FT_DIR | FT_LNK | FT_BLK | FT_CHR | FT_SOCK | FT_FIFO.
Inductive connection_speed := CONNECTION_SPEED_NONE | CONNECTION_SPEED_SLOW | CONNECTION_SPEED_FAST.

#[global] Instance direction_eq_dec : EqDecision direction.
Proof. solve_decision. Defined.

(** The numbers of an enumeration's constants, in the order of the source. *)
Definition directions : list direction := [DIR_REQUEST; DIR_REPLY; DIR_ONEWAY].
Definition ftypes : list ftype := [FT_BAD; FT_REG; FT_DIR; FT_LNK; FT_BLK; FT_CHR; FT_SOCK; FT_FIFO].
Definition connection_speeds : list connection_speed :=
  [CONNECTION_SPEED_NONE; CONNECTION_SPEED_SLOW; CONNECTION_SPEED_FAST].

Definition direction_number (d : direction) : Z :=
  match d with DIR_REQUEST => 0 | DIR_REPLY => 1 | DIR_ONEWAY => 2 end.

Definition ftype_number (t : ftype) : Z :=
  match t with
  | FT_BAD => 0 | FT_REG => 1 | FT_DIR => 2 | FT_LNK => 3
  | FT_BLK => 4 | FT_CHR => 5 | FT_SOCK => 6 | FT_FIFO => 7
  end.

Definition connection_speed_number (s : connection_speed) : Z :=
  match s with
  | CONNECTION_SPEED_NONE => 0 | CONNECTION_SPEED_SLOW => 1 | CONNECTION_SPEED_FAST => 2
  end.

(** [false] for a number at or above the [LAST_AND_UNUSED] constant. *)
Definition decode_enum {A : Type} (constants : list A) : decoder A :=
  v ← decode_uchar;
  returning (constants !! Z.to_nat v).

Definition encode_direction (d : direction) : encoder := encode_uchar (direction_number d).
Definition decode_direction : decoder direction := decode_enum directions.
Definition encode_ftype (t : ftype) : encoder := encode_uchar (ftype_number t).
Definition decode_ftype : decoder ftype := decode_enum ftypes.
Definition encode_connection_speed (s : connection_speed) : encoder :=
  encode_uchar (connection_speed_number s).
Definition decode_connection_speed : decoder connection_speed := decode_enum connection_speeds.

(** *** Structures *)

Record zfs_fh := MkFh { sid : Z; vid : Z; dev : Z; ino : Z; gen : Z }.

Definition encode_zfs_fh (fh : zfs_fh) : encoder :=
  encode_uint32_t (sid fh) &&> encode_uint32_t (vid fh) &&> encode_uint32_t (dev fh) &&>
  encode_uint32_t (ino fh) &&> encode_uint32_t (gen fh).

Definition decode_zfs_fh : decoder zfs_fh :=
  sid ← decode_uint32_t; vid ← decode_uint32_t; dev ← decode_uint32_t;
  ino ← decode_uint32_t; gen ← decode_uint32_t;
  mret (MkFh sid vid dev ino gen).

Record zfs_cap := MkCap { cap_fh : zfs_fh; cap_flags : Z; verify : list Z }.

Definition encode_zfs_cap (cap : zfs_cap) : encoder :=
  encode_zfs_fh (cap_fh cap) &&> encode_uint32_t (cap_flags cap) &&>
  encode_fixed_buffer (verify cap) ZFS_VERIFY_LEN.

Definition decode_zfs_cap : decoder zfs_cap :=
  fh ← decode_zfs_fh; flags ← decode_uint32_t; verify ← decode_fixed_buffer ZFS_VERIFY_LEN;
  mret (MkCap fh flags verify).

Record fattr := MkFattr {
  fa_dev : Z; fa_ino : Z; fa_version : Z; fa_type : ftype; fa_mode : Z; fa_nlink : Z;
  fa_uid : Z; fa_gid : Z; fa_rdev : Z; fa_size : Z; fa_blocks : Z; fa_blksize : Z;
  fa_atime : Z; fa_mtime : Z; fa_ctime : Z }.

Definition encode_fattr (a : fattr) : encoder :=
  encode_uint32_t (fa_dev a) &&> encode_uint32_t (fa_ino a) &&> encode_uint64_t (fa_version a) &&>
  encode_ftype (fa_type a) &&> encode_uint32_t (fa_mode a) &&> encode_uint32_t (fa_nlink a) &&>
  encode_uint32_t (fa_uid a) &&> encode_uint32_t (fa_gid a) &&> encode_uint32_t (fa_rdev a) &&>
  encode_uint64_t (fa_size a) &&> encode_uint64_t (fa_blocks a) &&>
  encode_uint32_t (fa_blksize a) &&> encode_zfs_time (fa_atime a) &&>
  encode_zfs_time (fa_mtime a) &&> encode_zfs_time (fa_ctime a).

Definition decode_fattr : decoder fattr :=
  dev ← decode_uint32_t; ino ← decode_uint32_t; version ← decode_uint64_t;
  type ← decode_ftype; mode ← decode_uint32_t; nlink ← decode_uint32_t;
  uid ← decode_uint32_t; gid ← decode_uint32_t; rdev ← decode_uint32_t;
  size ← decode_uint64_t; blocks ← decode_uint64_t; blksize ← decode_uint32_t;
  atime ← decode_zfs_time; mtime ← decode_zfs_time; ctime ← decode_zfs_time;
  mret (MkFattr dev ino version type mode nlink uid gid rdev size blocks blksize atime mtime ctime).

Record sattr := MkSattr {
  sa_mode : Z; sa_uid : Z; sa_gid : Z; sa_size : Z; sa_atime : Z; sa_mtime : Z }.

Definition encode_sattr (a : sattr) : encoder :=
  encode_uint32_t (sa_mode a) &&> encode_uint32_t (sa_uid a) &&> encode_uint32_t (sa_gid a) &&>
  encode_uint64_t (sa_size a) &&> encode_zfs_time (sa_atime a) &&> encode_zfs_time (sa_mtime a).

Definition decode_sattr : decoder sattr :=
  mode ← decode_uint32_t; uid ← decode_uint32_t; gid ← decode_uint32_t;
  size ← decode_uint64_t; atime ← decode_zfs_time; mtime ← decode_zfs_time;
  mret (MkSattr mode uid gid size atime mtime).

Definition encode_filename (s : string) : encoder := encode_string s.
Definition decode_filename : decoder string := decode_string ZFS_MAXNAMELEN.
Definition encode_zfs_path (s : string) : encoder := encode_string s.
Definition decode_zfs_path : decoder string := decode_string ZFS_MAXPATHLEN.
Definition encode_nodename (s : string) : encoder := encode_string s.
Definition decode_nodename : decoder string := decode_string ZFS_MAXNODELEN.

(** *** Arguments and results of the calls *)

Record volume_root_args := MkVolumeRoot { vr_vid : Z }.

Definition encode_volume_root_args (a : volume_root_args) : encoder := encode_uint32_t (vr_vid a).
Definition decode_volume_root_args : decoder volume_root_args :=
  vid ← decode_uint32_t; mret (MkVolumeRoot vid).

Record setattr_args := MkSetattr { set_file : zfs_fh; set_attr : sattr }.

Definition encode_setattr_args (a : setattr_args) : encoder :=
  encode_zfs_fh (set_file a) &&> encode_sattr (set_attr a).
Definition decode_setattr_args : decoder setattr_args :=
  file ← decode_zfs_fh; attr ← decode_sattr; mret (MkSetattr file attr).

Record dir_op_args := MkDirOp { do_dir : zfs_fh; do_name : string }.

Definition encode_dir_op_args (a : dir_op_args) : encoder :=
  encode_zfs_fh (do_dir a) &&> encode_filename (do_name a).
Definition decode_dir_op_args : decoder dir_op_args :=
  dir ← decode_zfs_fh; name ← decode_filename; mret (MkDirOp dir name).

Record dir_op_res := MkDirOpRes { dor_file : zfs_fh; dor_attr : fattr }.

Definition encode_dir_op_res (r : dir_op_res) : encoder :=
  encode_zfs_fh (dor_file r) &&> encode_fattr (dor_attr r).
Definition decode_dir_op_res : decoder dir_op_res :=
  file ← decode_zfs_fh; attr ← decode_fattr; mret (MkDirOpRes file attr).

Record create_args := MkCreate { cr_where : dir_op_args; cr_flags : Z; cr_attr : sattr }.

Definition encode_create_args (a : create_args) : encoder :=
  encode_dir_op_args (cr_where a) &&> encode_uint32_t (cr_flags a) &&> encode_sattr (cr_attr a).
Definition decode_create_args : decoder create_args :=
  where_ ← decode_dir_op_args; flags ← decode_uint32_t; attr ← decode_sattr;
  mret (MkCreate where_ flags attr).

Record create_res := MkCreateRes { cre_cap : zfs_cap; cre_dor : dir_op_res }.

Definition encode_create_res (r : create_res) : encoder :=
  encode_zfs_cap (cre_cap r) &&> encode_zfs_fh (dor_file (cre_dor r)) &&>
  encode_fattr (dor_attr (cre_dor r)).
Definition decode_create_res : decoder create_res :=
  cap ← decode_zfs_cap; file ← decode_zfs_fh; attr ← decode_fattr;
  mret (MkCreateRes cap (MkDirOpRes file attr)).

Record open_args := MkOpen { op_file : zfs_fh; op_flags : Z }.

Definition encode_open_args (a : open_args) : encoder :=
  encode_zfs_fh (op_file a) &&> encode_uint32_t (op_flags a).
Definition decode_open_args : decoder open_args :=
  file ← decode_zfs_fh; flags ← decode_uint32_t; mret (MkOpen file flags).

Record read_dir_args := MkReadDir { rd_cap : zfs_cap; rd_cookie : Z; rd_count : Z }.

Definition encode_read_dir_args (a : read_dir_args) : encoder :=
  encode_zfs_cap (rd_cap a) &&> encode_int32_t (rd_cookie a) &&> encode_uint32_t (rd_count a).
Definition decode_read_dir_args : decoder read_dir_args :=
  cap ← decode_zfs_cap; cookie ← decode_int32_t; count ← decode_uint32_t;
  mret (MkReadDir cap cookie count).

Record dir_entry := MkDirEntry { de_ino : Z; de_cookie : Z; de_name : string }.

Definition encode_dir_entry (e : dir_entry) : encoder :=
  encode_uint32_t (de_ino e) &&> encode_int32_t (de_cookie e) &&> encode_filename (de_name e).
Definition decode_dir_entry : decoder dir_entry :=
  ino ← decode_uint32_t; cookie ← decode_int32_t; name ← decode_filename;
  mret (MkDirEntry ino cookie name).

(** The [buffer] of a [dir_list] is not sent. *)
Record dir_list := MkDirList { dl_n : Z; dl_eof : Z }.

Definition encode_dir_list (l : dir_list) : encoder :=
  encode_uint32_t (dl_n l) &&> encode_char (dl_eof l).
Definition decode_dir_list : decoder dir_list :=
  n ← decode_uint32_t; eof ← decode_char; mret (MkDirList n eof).

Record mkdir_args := MkMkdir { mk_where : dir_op_args; mk_attr : sattr }.

Definition encode_mkdir_args (a : mkdir_args) : encoder :=
  encode_dir_op_args (mk_where a) &&> encode_sattr (mk_attr a).
Definition decode_mkdir_args : decoder mkdir_args :=
  where_ ← decode_dir_op_args; attr ← decode_sattr; mret (MkMkdir where_ attr).

Record rename_args := MkRename { rn_from : dir_op_args; rn_to : dir_op_args }.

Definition encode_rename_args (a : rename_args) : encoder :=
  encode_dir_op_args (rn_from a) &&> encode_dir_op_args (rn_to a).
Definition decode_rename_args : decoder rename_args :=
  from ← decode_dir_op_args; to ← decode_dir_op_args; mret (MkRename from to).

Record link_args := MkLink { ln_from : zfs_fh; ln_to : dir_op_args }.

Definition encode_link_args (a : link_args) : encoder :=
  encode_zfs_fh (ln_from a) &&> encode_dir_op_args (ln_to a).
Definition decode_link_args : decoder link_args :=
  from ← decode_zfs_fh; to ← decode_dir_op_args; mret (MkLink from to).

Record read_args := MkRead { re_cap : zfs_cap; re_offset : Z; re_count : Z }.

Definition encode_read_args (a : read_args) : encoder :=
  encode_zfs_cap (re_cap a) &&> encode_uint64_t (re_offset a) &&> encode_uint32_t (re_count a).
Definition decode_read_args : decoder read_args :=
  cap ← decode_zfs_cap; offset ← decode_uint64_t; count ← decode_uint32_t;
  mret (MkRead cap offset count).

Record read_res := MkReadRes { rr_data : data_buffer; rr_version : Z }.

Definition encode_read_res (r : read_res) : encoder :=
  encode_data_buffer (rr_data r) &&> encode_uint64_t (rr_version r).
Definition decode_read_res : decoder read_res :=
  data ← decode_data_buffer; version ← decode_uint64_t; mret (MkReadRes data version).

(** The [remote] flag of [write_args] is not sent. *)
Record write_args := MkWrite { wr_cap : zfs_cap; wr_offset : Z; wr_data : data_buffer }.

Definition encode_write_args (a : write_args) : encoder :=
  encode_zfs_cap (wr_cap a) &&> encode_uint64_t (wr_offset a) &&> encode_data_buffer (wr_data a).
Definition decode_write_args : decoder write_args :=
  cap ← decode_zfs_cap; offset ← decode_uint64_t; data ← decode_data_buffer;
  mret (MkWrite cap offset data).

Record write_res := MkWriteRes { wre_written : Z; wre_version : Z }.

Definition encode_write_res (r : write_res) : encoder :=
  encode_uint32_t (wre_written r) &&> encode_uint64_t (wre_version r).
Definition decode_write_res : decoder write_res :=
  written ← decode_uint32_t; version ← decode_uint64_t; mret (MkWriteRes written version).

Record read_link_res := MkReadLinkRes { rl_path : string }.

Definition encode_read_link_res (r : read_link_res) : encoder := encode_zfs_path (rl_path r).
Definition decode_read_link_res : decoder read_link_res :=
  path ← decode_zfs_path; mret (MkReadLinkRes path).

Record symlink_args := MkSymlink { sl_from : dir_op_args; sl_to : string; sl_attr : sattr }.

Definition encode_symlink_args (a : symlink_args) : encoder :=
  encode_dir_op_args (sl_from a) &&> encode_zfs_path (sl_to a) &&> encode_sattr (sl_attr a).
Definition decode_symlink_args : decoder symlink_args :=
  from ← decode_dir_op_args; to ← decode_zfs_path; attr ← decode_sattr;
  mret (MkSymlink from to attr).

Record mknod_args := MkMknod { mn_where : dir_op_args; mn_attr : sattr; mn_type : ftype; mn_rdev : Z }.

Definition encode_mknod_args (a : mknod_args) : encoder :=
  encode_dir_op_args (mn_where a) &&> encode_sattr (mn_attr a) &&> encode_ftype (mn_type a) &&>
  encode_uint32_t (mn_rdev a).
Definition decode_mknod_args : decoder mknod_args :=
  where_ ← decode_dir_op_args; attr ← decode_sattr; type ← decode_ftype; rdev ← decode_uint32_t;
  mret (MkMknod where_ attr type rdev).

Record auth_stage1_args := MkAuth1 { a1_node : string }.

Definition encode_auth_stage1_args (a : auth_stage1_args) : encoder := encode_nodename (a1_node a).
Definition decode_auth_stage1_args : decoder auth_stage1_args :=
  node ← decode_nodename; mret (MkAuth1 node).

Record auth_stage1_res := MkAuth1Res { a1r_node : string }.

Definition encode_auth_stage1_res (r : auth_stage1_res) : encoder := encode_nodename (a1r_node r).
Definition decode_auth_stage1_res : decoder auth_stage1_res :=
  node ← decode_nodename; mret (MkAuth1Res node).

Record auth_stage2_args := MkAuth2 { a2_speed : connection_speed }.

Definition encode_auth_stage2_args (a : auth_stage2_args) : encoder :=
  encode_connection_speed (a2_speed a).
Definition decode_auth_stage2_args : decoder auth_stage2_args :=
  speed ← decode_connection_speed; mret (MkAuth2 speed).

(** [for (i = 0; i < n; i++) encode (dc, a[i]);], results ignored. *)
Fixpoint encode_array {A : Type} (e : A -> encoder) (n : nat) (a : list A) (k : encoder) : encoder :=
  match n, a with
  | O, _ => k
  | S n, x :: a => e x ;;; encode_array e n a k
  | S n, [] => fun _ => Aborted
  end.

(** [for (i = 0; i < n; i++) if (!decode (dc, &a[i])) return false;] *)
Fixpoint decode_array {A : Type} (d : decoder A) (n : nat) : decoder (list A) :=
  match n with
  | O => mret []
  | S n => x ← d; l ← decode_array d n; mret (x :: l)
  end.

Record md5sum_args := MkMd5 {
  md_cap : zfs_cap; md_count : Z; md_ignore_changes : Z; md_offset : list Z; md_length : list Z }.

Definition encode_md5sum_args (a : md5sum_args) : encoder :=
  if ZFS_MAX_MD5_CHUNKS <? md_count a then fun _ => Aborted
  else
    encode_zfs_cap (md_cap a) ;;; encode_uint32_t (md_count a) ;;;
    encode_char (md_ignore_changes a) ;;;
    encode_array encode_uint64_t (Z.to_nat (md_count a)) (md_offset a)
      (encode_array encode_uint32_t (Z.to_nat (md_count a)) (md_length a) succeed).

Definition decode_md5sum_args : decoder md5sum_args :=
  cap ← decode_zfs_cap; count ← decode_uint32_t; ignore_changes ← decode_char;
  _ ← reject_if (ZFS_MAX_MD5_CHUNKS <? count);
  offset ← decode_array decode_uint64_t (Z.to_nat count);
  length ← decode_array decode_uint32_t (Z.to_nat count);
  mret (MkMd5 cap count ignore_changes offset length).

Record md5sum_res := MkMd5Res {
  mr_count : Z; mr_size : Z; mr_version : Z; mr_offset : list Z; mr_length : list Z;
  mr_md5sum : list (list Z) }.

Definition encode_md5sum_res (r : md5sum_res) : encoder :=
  if ZFS_MAX_MD5_CHUNKS <? mr_count r then fun _ => Aborted
  else
    encode_uint32_t (mr_count r) ;;; encode_uint64_t (mr_size r) ;;;
    encode_uint64_t (mr_version r) ;;;
    encode_array encode_uint64_t (Z.to_nat (mr_count r)) (mr_offset r)
      (encode_array encode_uint32_t (Z.to_nat (mr_count r)) (mr_length r)
        (encode_array (fun b => encode_fixed_buffer b MD5_SIZE) (Z.to_nat (mr_count r)) (mr_md5sum r)
           succeed)).

Definition decode_md5sum_res : decoder md5sum_res :=
  count ← decode_uint32_t;
  _ ← reject_if (ZFS_MAX_MD5_CHUNKS <? count);
  size ← decode_uint64_t; version ← decode_uint64_t;
  offset ← decode_array decode_uint64_t (Z.to_nat count);
  length ← decode_array decode_uint32_t (Z.to_nat count);
  md5sum ← decode_array (decode_fixed_buffer MD5_SIZE) (Z.to_nat count);
  mret (MkMd5Res count size version offset length md5sum).

Record file_info_res := MkFileInfoRes { fi_path : string }.

Definition encode_file_info_res (r : file_info_res) : encoder := encode_zfs_path (fi_path r).
Definition decode_file_info_res : decoder file_info_res :=
  path ← decode_zfs_path; mret (MkFileInfoRes path).

Record reintegrate_args := MkReint { ri_fh : zfs_fh; ri_status : Z }.

Definition encode_reintegrate_args (a : reintegrate_args) : encoder :=
  encode_zfs_fh (ri_fh a) &&> encode_char (ri_status a).
Definition decode_reintegrate_args : decoder reintegrate_args :=
  fh ← decode_zfs_fh; status ← decode_char; mret (MkReint fh status).

Record reintegrate_add_args := MkReintAdd { ra_fh : zfs_fh; ra_dir : zfs_fh; ra_name : string }.

Definition encode_reintegrate_add_args (a : reintegrate_add_args) : encoder :=
  encode_zfs_fh (ra_fh a) &&> encode_zfs_fh (ra_dir a) &&> encode_filename (ra_name a).
Definition decode_reintegrate_add_args : decoder reintegrate_add_args :=
  fh ← decode_zfs_fh; dir ← decode_zfs_fh; name ← decode_filename; mret (MkReintAdd fh dir name).

Record reintegrate_del_args := MkReintDel {
  rdl_fh : zfs_fh; rdl_dir : zfs_fh; rdl_name : string; rdl_destroy_p : Z }.

Definition encode_reintegrate_del_args (a : reintegrate_del_args) : encoder :=
  encode_zfs_fh (rdl_fh a) &&> encode_zfs_fh (rdl_dir a) &&> encode_filename (rdl_name a) &&>
  encode_char (rdl_destroy_p a).
Definition decode_reintegrate_del_args : decoder reintegrate_del_args :=
  fh ← decode_zfs_fh; dir ← decode_zfs_fh; name ← decode_filename; destroy_p ← decode_char;
  mret (MkReintDel fh dir name destroy_p).

Record reintegrate_ver_args := MkReintVer { rv_fh : zfs_fh; rv_version_inc : Z }.

Definition encode_reintegrate_ver_args (a : reintegrate_ver_args) : encoder :=
  encode_zfs_fh (rv_fh a) &&> encode_uint64_t (rv_version_inc a).
Definition decode_reintegrate_ver_args : decoder reintegrate_ver_args :=
  fh ← decode_zfs_fh; version_inc ← decode_uint64_t; mret (MkReintVer fh version_inc).

Record invalidate_args := MkInvalidate { iv_fh : zfs_fh }.

Definition encode_invalidate_args (a : invalidate_args) : encoder := encode_zfs_fh (iv_fh a).

Record reread_config_args := MkReread { rc_path : string }.

Definition encode_reread_config_args (a : reread_config_args) : encoder := encode_zfs_path (rc_path a).
Definition decode_reread_config_args : decoder reread_config_args :=
  path ← decode_zfs_path; mret (MkReread path).

(** ** The wire format as a function of the offset *)

Definition wire := Z -> list Z.

Definition wcat (w1 w2 : wire) : wire := fun o => w1 o ++ w2 (o + Z.of_nat (length (w1 o))).
Notation "w1 ⊕ w2" := (wcat w1 w2) (at level 60, right associativity) : zfs_scope.

Definition wnil : wire := fun _ => [].

(** An integer of [S] bytes: padding with zeros up to a multiple of [S], then the
    bytes, least significant first. *)
Definition wint (S v : Z) : wire := fun o =>
  replicate (Z.to_nat (ALIGN S o - o)) 0 ++ le_bytes (Z.to_nat S) v.

Definition wbytes (b : list Z) : wire := fun _ => b.

(** A buffer that is being filled: [cur_pos] and [cur_length] agree. *)
Record enc_wf (dc : DC) : Prop := {
  enc_same : cur_length dc = cur_pos dc;
  enc_pos : 0 <= cur_pos dc <= max_length dc;
  enc_max : max_length dc <= ZFS_DC_SIZE;
  enc_room : max_length dc <= Z.of_nat (length (buffer dc))
}.

(** The buffer with [b] written at the current position. *)
Definition put (dc : DC) (b : list Z) : DC :=
  let o := Z.to_nat (cur_pos dc) in
  let o' := cur_pos dc + Z.of_nat (length b) in
  MkDC (take o (buffer dc) ++ b ++ drop (o + length b) (buffer dc)) o' (max_length dc) o'.

Definition enc_put (e : encoder) (w : wire) : Prop := forall dc,
  enc_wf dc -> cur_pos dc + Z.of_nat (length (w (cur_pos dc))) <= max_length dc ->
  e dc = Ok (put dc (w (cur_pos dc)), true).

Definition enc_full (e : encoder) (w : wire) : Prop := forall dc,
  enc_wf dc -> max_length dc < cur_pos dc + Z.of_nat (length (w (cur_pos dc))) ->
  exists dc', e dc = Ok (dc', false).

(** A buffer that is being decoded. *)
Record dec_wf (dc : DC) : Prop := {
  dec_same : cur_length dc = cur_pos dc;
  dec_pos : 0 <= cur_pos dc <= ZFS_DC_SIZE;
  dec_max : max_length dc <= ZFS_DC_SIZE;
  dec_room : ZFS_DC_SIZE <= Z.of_nat (length (buffer dc));
  dec_bytes : Forall (fun b => 0 <= b < 256) (buffer dc)
}.

Definition holds_at (buf : list Z) (o : Z) (b : list Z) : Prop :=
  take (length b) (drop (Z.to_nat o) buf) = b.

Definition dec_get {A} (d : decoder A) (w : wire) (v : A) : Prop := forall dc,
  dec_wf dc -> cur_pos dc + Z.of_nat (length (w (cur_pos dc))) <= max_length dc ->
  holds_at (buffer dc) (cur_pos dc) (w (cur_pos dc)) ->
  let o' := cur_pos dc + Z.of_nat (length (w (cur_pos dc))) in
  d dc = Ok (MkDC (buffer dc) o' (max_length dc) o', Some v).

(** Whatever the bytes are, the decoder stays inside the buffer. *)
Definition dec_safe {A} (d : decoder A) (Q : A -> Prop) : Prop := forall dc,
  dec_wf dc -> exists dc' r, d dc = Ok (dc', r) /\
    max_length dc' = max_length dc /\ length (buffer dc') = length (buffer dc) /\
    forall v, r = Some v -> Q v /\ dec_wf dc'.

Record codec {A} (e : A -> encoder) (d : decoder A) (P : A -> Prop) (w : A -> wire) : Prop := {
  codec_put : forall v, P v -> enc_put (e v) (w v);
  codec_full : forall v, P v -> enc_full (e v) (w v);
  codec_get : forall v, P v -> dec_get d (w v) v;
  codec_safe : dec_safe d P
}.

(** *** Alignment *)

Definition is_size (S : Z) : Prop := S = 1 \/ S = 2 \/ S = 4 \/ S = 8.

Lemma ALIGN_pow2 k n : 0 <= k -> ALIGN (2 ^ k) n = (n + 2 ^ k - 1) / 2 ^ k * 2 ^ k.
Proof.
  intros Hk. unfold ALIGN. rewrite <-Z.ldiff_land. replace (2 ^ k - 1) with (Z.ones k).
  - rewrite Z.ldiff_ones_r, Z.shiftl_mul_pow2, Z.shiftr_div_pow2 by done. do 2 f_equal.
    rewrite Z.ones_equiv. lia.
  - by rewrite Z.ones_equiv, Z.sub_1_r.
Qed.

Lemma ALIGN_bounds S n : is_size S -> n <= ALIGN S n < n + S /\ ALIGN S n mod S = 0.
Proof.
  intros HS. assert (exists k, 0 <= k /\ S = 2 ^ k) as (k & Hk & ->).
  { destruct HS as [->|[->|[->| ->]]]; [exists 0|exists 1|exists 2|exists 3]; lia. }
  rewrite ALIGN_pow2 by done. assert (0 < 2 ^ k) by lia.
  pose proof (Z.div_mod (n + 2 ^ k - 1) (2 ^ k) ltac:(lia)).
  pose proof (Z.mod_pos_bound (n + 2 ^ k - 1) (2 ^ k) ltac:(lia)).
  split; [nia|]. apply Z.mod_mul. lia.
Qed.

(** *** Memory *)

Lemma store_ok buf pos b :
  0 <= pos -> pos + Z.of_nat (length b) <= Z.of_nat (length buf) ->
  store buf pos b = Ok (take (Z.to_nat pos) buf ++ b ++ drop (Z.to_nat pos + length b) buf).
Proof.
  intros. unfold store. rewrite (proj2 (Z.leb_le 0 pos)), (proj2 (Z.leb_le (pos + _) _)) by lia. done.
Qed.

Lemma load_ok buf pos n :
  0 <= pos -> 0 <= n -> pos + n <= Z.of_nat (length buf) ->
  load buf pos n = Ok (take (Z.to_nat n) (drop (Z.to_nat pos) buf)).
Proof.
  intros. unfold load.
  rewrite (proj2 (Z.leb_le 0 pos)), (proj2 (Z.leb_le 0 n)), (proj2 (Z.leb_le (pos + _) _)) by lia. done.
Qed.

(** Two adjacent writes are one. *)
Lemma store_twice (buf a b : list Z) (o : nat) :
  (o + length a + length b <= length buf)%nat ->
  take (o + length a) (take o buf ++ a ++ drop (o + length a) buf) ++ b ++
    drop (o + length a + length b) (take o buf ++ a ++ drop (o + length a) buf) =
  take o buf ++ (a ++ b) ++ drop (o + length (a ++ b)) buf.
Proof.
  intros H. assert (length (take o buf) = o) as Ho by (rewrite length_take; lia).
  rewrite (app_assoc (take o buf) a), length_app.
  rewrite take_app_length' by (rewrite length_app; lia).
  rewrite drop_app_ge, drop_drop by (rewrite length_app; lia).
  rewrite length_app, Ho, <-!app_assoc. do 4 f_equal. lia.
Qed.

Lemma length_put (dc : DC) b :
  enc_wf dc -> cur_pos dc + Z.of_nat (length b) <= max_length dc ->
  length (buffer (put dc b)) = length (buffer dc).
Proof.
  intros [? ? ? ?] ?. cbn. rewrite !length_app, length_take, length_drop. lia.
Qed.

Lemma put_wf dc b :
  enc_wf dc -> cur_pos dc + Z.of_nat (length b) <= max_length dc -> enc_wf (put dc b).
Proof.
  intros Hwf Hb. pose proof (length_put dc b Hwf Hb) as Hl. destruct Hwf as [? ? ? ?].
  split; [done|cbn; lia|done|]. rewrite Hl. done.
Qed.

Lemma put_put dc a b :
  enc_wf dc -> cur_pos dc + Z.of_nat (length (a ++ b)) <= max_length dc ->
  put (put dc a) b = put dc (a ++ b).
Proof.
  intros [? ? ? ?] Hb. rewrite length_app in Hb. unfold put at 1. cbn [cur_pos put max_length buffer].
  rewrite Z2Nat.inj_add, Nat2Z.id, store_twice by lia. unfold put. f_equal; rewrite length_app; lia.
Qed.

(** *** Sequencing *)

Lemma enc_put_seq e1 e2 w1 w2 : enc_put e1 w1 -> enc_put e2 w2 -> enc_put (e1 &&> e2) (w1 ⊕ w2).
Proof.
  intros H1 H2 dc Hwf Hfit. unfold wcat in *. rewrite length_app in Hfit. unfold andthen.
  rewrite H1 by (done || lia). cbn [mbind res_bind].
  rewrite H2; [|apply put_wf; [done|lia]|cbn; lia]. cbn [cur_pos put].
  rewrite put_put by (done || rewrite length_app; cbn; lia). done.
Qed.

Lemma enc_put_ignoring e1 e2 w1 w2 : enc_put e1 w1 -> enc_put e2 w2 -> enc_put (e1 ;;; e2) (w1 ⊕ w2).
Proof.
  intros H1 H2 dc Hwf Hfit. rewrite <-(enc_put_seq e1 e2 w1 w2 H1 H2 dc Hwf Hfit).
  unfold wcat in Hfit. rewrite length_app in Hfit. unfold ignoring, andthen.
  rewrite H1 by (done || lia). done.
Qed.

Lemma enc_full_seq e1 e2 w1 w2 :
  enc_put e1 w1 -> enc_full e1 w1 -> enc_full e2 w2 -> enc_full (e1 &&> e2) (w1 ⊕ w2).
Proof.
  intros P1 F1 F2 dc Hwf Hfull. unfold wcat in *. rewrite length_app in Hfull. unfold andthen.
  destruct (Z_lt_le_dec (max_length dc) (cur_pos dc + Z.of_nat (length (w1 (cur_pos dc))))) as [H|H].
  - destruct (F1 dc Hwf H) as [dc' ->]. by exists dc'.
  - rewrite P1 by done. cbn [mbind res_bind]. apply F2; [by apply put_wf|]. cbn. lia.
Qed.

Lemma holds_at_app buf o a b :
  0 <= o -> holds_at buf o (a ++ b) <-> holds_at buf o a /\ holds_at buf (o + Z.of_nat (length a)) b.
Proof.
  intros Ho. unfold holds_at. rewrite length_app, Z2Nat.inj_add, Nat2Z.id by lia.
  rewrite <-drop_drop, <-take_take_drop. split; [|by intros [-> ->]].
  intros H. apply app_inj_1 in H; [done|].
  apply (f_equal length) in H. rewrite !length_app, !length_take, !length_drop in H.
  rewrite length_take, length_drop. lia.
Qed.

Lemma dec_get_bind {A B} (d : decoder A) (k : A -> decoder B) w1 w2 v u :
  dec_get d w1 v -> dec_get (k v) w2 u -> dec_get (d ≫= k) (w1 ⊕ w2) u.
Proof.
  intros H1 H2 dc Hwf Hfit Hh. unfold wcat in *. rewrite length_app in Hfit.
  apply holds_at_app in Hh as [Ha Hb]; [|apply Hwf]. unfold mbind, decoder_bind.
  rewrite H1 by (done || lia). destruct Hwf as [? ? ? ? ?].
  rewrite H2; cbn [cur_pos max_length buffer]; [|split; cbn; done || lia|lia|done].
  rewrite length_app. do 3 f_equal; lia.
Qed.

Lemma dec_get_map {A B} (d : decoder A) (f : A -> B) w v :
  dec_get d w v -> dec_get (x ← d; mret (f x)) w (f v).
Proof. intros H dc Hwf Hfit Hh. unfold mbind, decoder_bind. by rewrite H. Qed.

Lemma dec_get_skip {A B} (d : decoder A) (k : A -> decoder B) w v u :
  dec_get d wnil v -> dec_get (k v) w u -> dec_get (d ≫= k) w u.
Proof. intros H1 H2. apply (dec_get_bind d k wnil w v u H1) in H2. intros dc. specialize (H2 dc).
  unfold wcat, wnil in H2. cbn in H2. by rewrite Z.add_0_r in H2.
Qed.

Lemma dec_safe_bind {A B} (d : decoder A) (k : A -> decoder B) Q R :
  dec_safe d Q -> (forall v, Q v -> dec_safe (k v) R) -> dec_safe (d ≫= k) R.
Proof.
  intros H1 H2 dc Hwf. destruct (H1 dc Hwf) as (dc1 & r & E & Em & El & Hr).
  unfold mbind, decoder_bind. rewrite E. destruct r as [v|].
  - destruct (Hr v eq_refl) as [Hq Hwf1]. destruct (H2 v Hq dc1 Hwf1) as (dc2 & r2 & -> & Em2 & El2 & Hr2).
    exists dc2, r2. split_and!; [done|congruence|congruence|done].
  - exists dc1, None. done.
Qed.

Lemma dec_safe_ret {A} (v : A) (Q : A -> Prop) : Q v -> dec_safe (mret v) Q.
Proof. intros HQ dc Hwf. exists dc, (Some v). split_and!; [done|done|done|]. by intros ? [= <-]. Qed.

Lemma dec_safe_weaken {A} (d : decoder A) (Q R : A -> Prop) :
  dec_safe d Q -> (forall v, Q v -> R v) -> dec_safe d R.
Proof.
  intros H HQ dc Hwf. destruct (H dc Hwf) as (dc' & r & E & Em & El & Hr).
  exists dc', r. split_and!; [done|done|done|]. naive_solver.
Qed.

(** *** Integers *)

Lemma length_wint S v o :
  is_size S -> Z.of_nat (length (wint S v o)) = ALIGN S o - o + S.
Proof.
  intros HS. unfold wint. rewrite length_app, length_replicate, length_le_bytes.
  pose proof (ALIGN_bounds S o HS). assert (0 < S) by (destruct HS as [->|[->|[->| ->]]]; lia). lia.
Qed.

Lemma u32_small z : 0 <= z < 2 ^ 32 -> u32 z = z.
Proof. apply wrap_small. Qed.

Lemma size_bound S : is_size S -> 1 <= S <= 8.
Proof. intros [->|[->|[->| ->]]]; lia. Qed.

Lemma ltb_false a b : b <= a -> (a <? b) = false.
Proof. intros. by apply Z.ltb_ge. Qed.

Lemma ltb_true a b : a < b -> (a <? b) = true.
Proof. intros. by apply Z.ltb_lt. Qed.

Lemma encode_simple_put S v : is_size S -> enc_put (encode_simple S v) (wint S v).
Proof.
  intros HS dc Hwf Hfit. rewrite length_wint in Hfit by done.
  pose proof (ALIGN_bounds S (cur_pos dc) HS) as [Ha _]. pose proof (size_bound S HS).
  pose proof Hwf as [Hsame Hpos Hmax Hroom]. unfold ZFS_DC_SIZE in Hmax.
  unfold encode_simple. cbn [set_cur_length cur_length max_length cur_pos buffer].
  rewrite Hsame, u32_small, ltb_false by lia.
  set (pad := Z.to_nat (ALIGN S (cur_pos dc) - cur_pos dc)).
  assert (Z.of_nat pad = ALIGN S (cur_pos dc) - cur_pos dc) as Hpad by lia.
  rewrite store_ok by (rewrite ?length_replicate; lia). cbn [mbind res_bind].
  rewrite store_ok.
  - cbn [mbind res_bind]. do 2 f_equal. unfold put, wint. fold pad.
    f_equal; [|rewrite length_app, length_replicate, length_le_bytes; lia..].
    replace (Z.to_nat (ALIGN S (cur_pos dc))) with (Z.to_nat (cur_pos dc) + length (replicate pad 0%Z))%nat
      by (rewrite length_replicate; lia).
    apply store_twice. rewrite length_replicate, length_le_bytes. lia.
  - lia.
  - rewrite !length_app, length_take, length_drop, !length_replicate, length_le_bytes. lia.
Qed.

Lemma encode_simple_full S v : is_size S -> enc_full (encode_simple S v) (wint S v).
Proof.
  intros HS dc [Hsame Hpos Hmax Hroom] Hfit. rewrite length_wint in Hfit by done.
  pose proof (ALIGN_bounds S (cur_pos dc) HS) as [Ha _]. pose proof (size_bound S HS).
  unfold ZFS_DC_SIZE in Hmax. unfold encode_simple.
  cbn [set_cur_length cur_length max_length cur_pos buffer].
  rewrite Hsame, u32_small, ltb_true by lia. eauto.
Qed.

Lemma take_holds S v o buf :
  is_size S -> 0 <= o -> holds_at buf o (wint S v o) ->
  take (Z.to_nat S) (drop (Z.to_nat (ALIGN S o)) buf) = le_bytes (Z.to_nat S) v.
Proof.
  intros HS Ho [_ H]%holds_at_app; [|done]. unfold holds_at in H.
  pose proof (ALIGN_bounds S o HS). rewrite length_le_bytes, length_replicate in H.
  rewrite <-H. do 2 f_equal. lia.
Qed.

Lemma decode_simple_get S conv v u :
  is_size S -> conv (u mod 2 ^ (8 * S)) = v -> dec_get (decode_simple S conv) (wint S u) v.
Proof.
  intros HS Hc dc [Hsame Hpos Hmax Hroom Hb] Hfit Hh. cbv zeta. rewrite length_wint in * by done.
  pose proof (ALIGN_bounds S (cur_pos dc) HS) as [Ha _]. pose proof (size_bound S HS).
  unfold ZFS_DC_SIZE in *. unfold decode_simple.
  cbn [set_cur_length cur_length max_length cur_pos buffer].
  rewrite Hsame, u32_small, ltb_false, load_ok by lia. cbn [mbind res_bind].
  rewrite (take_holds S u) by (done || lia). rewrite le_value_bytes, Z2Nat.id, Hc by lia.
  do 2 f_equal. f_equal; lia.
Qed.

Lemma le_value_range l :
  Forall (fun b => 0 <= b < 256) l -> 0 <= le_value l < 2 ^ (8 * Z.of_nat (length l)).
Proof.
  induction 1 as [|b l Hb _ IH]; cbn [le_value length]; [cbn; lia|].
  rewrite Nat2Z.inj_succ, Z.mul_succ_r, Z.pow_add_r by lia. lia.
Qed.

Lemma decode_simple_safe S conv (Q : Z -> Prop) :
  is_size S -> (forall z, 0 <= z < 2 ^ (8 * S) -> Q (conv z)) -> dec_safe (decode_simple S conv) Q.
Proof.
  intros HS HQ dc [Hsame Hpos Hmax Hroom Hb].
  pose proof (ALIGN_bounds S (cur_pos dc) HS) as [Ha _]. pose proof (size_bound S HS).
  unfold ZFS_DC_SIZE in *. unfold decode_simple.
  cbn [set_cur_length cur_length max_length cur_pos buffer].
  rewrite Hsame, u32_small by lia. case_if.
  - by eexists _, None.
  - rewrite load_ok by lia. cbn [mbind res_bind]. eexists _, _. split_and!; [done|done|done|].
    intros v [= <-]. split.
    + apply HQ. set (l := take _ _). assert (length l = Z.to_nat S) as El.
      { unfold l. rewrite length_take, length_drop. lia. }
      pose proof (le_value_range l) as Hr. rewrite El, Z2Nat.id in Hr by lia. apply Hr.
      by apply Forall_take, Forall_drop.
    + split; cbn; unfold ZFS_DC_SIZE; done || lia.
Qed.

Lemma simple_codec S conv (P : Z -> Prop) :
  is_size S -> (forall v, P v -> conv (v mod 2 ^ (8 * S)) = v) ->
  (forall z, 0 <= z < 2 ^ (8 * S) -> P (conv z)) ->
  codec (encode_simple S) (decode_simple S conv) P (wint S).
Proof.
  intros HS HP HQ. split; intros.
  - by apply encode_simple_put.
  - by apply encode_simple_full.
  - apply decode_simple_get; auto.
  - by apply decode_simple_safe.
Qed.

Definition is_int (w z : Z) : Prop := - 2 ^ (w - 1) <= z < 2 ^ (w - 1).
Definition is_uint (w z : Z) : Prop := 0 <= z < 2 ^ w.

Lemma signed_mod w v : 0 < w -> is_int w v -> signed w (v mod 2 ^ w) = v.
Proof.
  unfold is_int, signed. intros Hw Hv.
  assert (2 ^ w = 2 * 2 ^ (w - 1)) as E by (rewrite <-Z.pow_succ_r by lia; f_equal; lia).
  destruct (Z_lt_le_dec v 0).
  - assert (v mod 2 ^ w = v + 2 ^ w) as -> by (symmetry; apply (Z.mod_unique_pos _ _ (-1)); lia).
    rewrite ltb_false by lia. lia.
  - rewrite Z.mod_small by lia. rewrite ltb_true by lia. done.
Qed.

Lemma signed_range w z : 0 < w -> 0 <= z < 2 ^ w -> is_int w (signed w z).
Proof.
  unfold is_int, signed. intros Hw Hz.
  assert (2 ^ w = 2 * 2 ^ (w - 1)) as E by (rewrite <-Z.pow_succ_r by lia; f_equal; lia).
  case_if; lia.
Qed.

Lemma uint_codec S : is_size S -> codec (encode_simple S) (decode_simple S id) (is_uint (8 * S)) (wint S).
Proof. intros HS. apply simple_codec; [done|intros; by apply Z.mod_small|done]. Qed.

Lemma int_codec S :
  is_size S -> codec (encode_simple S) (decode_simple S (signed (8 * S))) (is_int (8 * S)) (wint S).
Proof.
  intros HS. pose proof (size_bound S HS).
  apply simple_codec; [done|intros; apply signed_mod; lia || done|intros; apply signed_range; lia || done].
Qed.

(** *** Buffers *)

Definition is_byte (b : Z) : Prop := 0 <= b < 256.

Definition fixed_ok (n : Z) (b : list Z) : Prop := Z.of_nat (length b) = n /\ Forall is_byte b.

Lemma advance_wf dc n : dec_wf dc -> 0 <= n <= ZFS_DC_SIZE ->
  advance n dc = Ok (set_cur_length dc (cur_pos dc + n),
                     if max_length dc <? cur_pos dc + n then None else Some tt).
Proof.
  intros [Hsame Hpos Hmax Hroom Hb] Hn. unfold ZFS_DC_SIZE in *. unfold advance.
  cbn [set_cur_length max_length cur_length]. by rewrite Hsame, u32_small by lia.
Qed.

Lemma take_bytes_get n dc : 0 <= cur_pos dc -> 0 <= n ->
  cur_pos dc + n <= Z.of_nat (length (buffer dc)) ->
  take_bytes n dc = Ok (MkDC (buffer dc) (cur_pos dc + n) (max_length dc) (cur_length dc),
    Some (take (Z.to_nat n) (drop (Z.to_nat (cur_pos dc)) (buffer dc)))).
Proof. intros. unfold take_bytes. rewrite load_ok by done. done. Qed.

Lemma decode_fixed_get (b : list Z) n :
  Z.of_nat (length b) = n -> dec_get (decode_fixed_buffer n) (wbytes b) b.
Proof.
  intros En dc Hwf Hfit Hh. cbv zeta. unfold wbytes in *. pose proof Hwf as [Hsame Hpos Hmax Hroom Hb].
  unfold decode_fixed_buffer, mbind, decoder_bind. rewrite advance_wf by (done || lia).
  rewrite ltb_false by lia.
  rewrite take_bytes_get by (cbn; lia). cbn [cur_pos set_cur_length buffer max_length cur_length].
  unfold holds_at in Hh. rewrite <-En, Nat2Z.id, Hh. done.
Qed.

Lemma decode_fixed_safe n :
  0 <= n <= ZFS_DC_SIZE -> dec_safe (decode_fixed_buffer n) (fixed_ok n).
Proof.
  intros Hn dc Hwf. pose proof Hwf as [Hsame Hpos Hmax Hroom Hb].
  unfold decode_fixed_buffer, mbind, decoder_bind. rewrite advance_wf by done. case_if.
  - by eexists _, None.
  - rewrite take_bytes_get by (cbn; lia). cbn [cur_pos set_cur_length buffer max_length cur_length].
    eexists _, _. split_and!; [done|done|done|]. intros v [= <-]. split.
    + split; [rewrite length_take, length_drop; lia|]. by apply Forall_take, Forall_drop.
    + split; cbn; done || lia.
Qed.

Lemma encode_fixed_put b n : Z.of_nat (length b) = n -> enc_put (encode_fixed_buffer b n) (wbytes b).
Proof.
  intros En dc [Hsame Hpos Hmax Hroom] Hfit. unfold wbytes in *. unfold ZFS_DC_SIZE in Hmax.
  unfold encode_fixed_buffer. cbn [set_cur_length cur_length max_length cur_pos buffer].
  rewrite Hsame, u32_small, ltb_false, load_ok by lia. cbn [mbind res_bind].
  change (Z.to_nat 0) with 0%nat. rewrite drop_0, take_ge by lia. rewrite store_ok by lia.
  cbn [mbind res_bind]. unfold put. by rewrite En.
Qed.

Lemma encode_fixed_full b n :
  Z.of_nat (length b) = n -> n <= ZFS_DC_SIZE -> enc_full (encode_fixed_buffer b n) (wbytes b).
Proof.
  intros En Hn dc [Hsame Hpos Hmax Hroom] Hfit. unfold wbytes, ZFS_DC_SIZE in *.
  unfold encode_fixed_buffer. cbn [set_cur_length cur_length max_length cur_pos buffer].
  rewrite Hsame, u32_small, ltb_true by lia. eauto.
Qed.

Lemma fixed_codec n : 0 <= n <= ZFS_DC_SIZE ->
  codec (fun b => encode_fixed_buffer b n) (decode_fixed_buffer n) (fixed_ok n) wbytes.
Proof.
  intros Hn. split; [intros v [? _]; by apply encode_fixed_put|intros v [? _]; apply encode_fixed_full; [done|lia]| |].
  - intros v [? _]. by apply decode_fixed_get.
  - by apply decode_fixed_safe.
Qed.

Lemma reject_get cond : cond = false -> dec_get (reject_if cond) wnil tt.
Proof.
  intros -> [buf p m c] [Hsame _ _ _ _] _ _. cbn in *. subst c. unfold reject_if. by rewrite Z.add_0_r.
Qed.

Lemma reject_safe cond : dec_safe (reject_if cond) (fun _ => cond = false).
Proof.
  intros dc Hwf. eexists _, _. split_and!; [done|done|done|]. intros []. by destruct cond.
Qed.

(** A data buffer is its length and then its bytes. *)
Definition wdata (d : data_buffer) : wire :=
  wint 4 (data_len d) ⊕
  wbytes (match data_buf d with Elsewhere b => b | AtCurPos => [] end).

Definition data_ok (d : data_buffer) : Prop :=
  data_len d <= ZFS_MAXDATA /\
  exists b, data_buf d = Elsewhere b /\ Z.of_nat (length b) = data_len d /\ Forall is_byte b.

Lemma size4 : is_size 4.
Proof. unfold is_size. tauto. Qed.

Lemma data_codec : codec encode_data_buffer decode_data_buffer data_ok wdata.
Proof.
  split.
  - intros [len buf] [Hm (b & Eb & El & Hb)]. cbn in *. subst buf. unfold wdata, encode_data_buffer. cbn.
    apply enc_put_seq; [apply encode_simple_put, size4|].
    intros dc Hwf Hfit. rewrite <-(encode_fixed_put b len El dc Hwf Hfit). unfold encode_fixed_buffer.
    cbn [set_cur_length max_length cur_length]. by destruct (_ <? _), (load b 0 len).
  - intros [len buf] [Hm (b & Eb & El & Hb)]. cbn in *. subst buf. unfold wdata, encode_data_buffer. cbn.
    apply enc_full_seq; [apply encode_simple_put, size4|apply encode_simple_full, size4|].
    intros dc Hwf Hfit. destruct (encode_fixed_full b len El) with (dc := dc) as [dc' E]; [|done..|].
    { unfold ZFS_MAXDATA, ZFS_DC_SIZE in *. lia. }
    exists dc'. rewrite <-E. unfold encode_fixed_buffer.
    cbn [set_cur_length max_length cur_length]. by destruct (_ <? _), (load b 0 len).
  - intros [len buf] [Hm (b & Eb & El & Hb)]. cbn in *. subst buf. unfold wdata, decode_data_buffer. cbn.
    eapply dec_get_bind; [apply decode_simple_get; [apply size4|]|].
    { unfold id. apply Z.mod_small. unfold ZFS_MAXDATA in Hm. lia. }
    eapply dec_get_skip; [apply reject_get; by apply ltb_false|].
    pose proof (dec_get_map _ (fun x => MkData len (Elsewhere x)) _ _ (decode_fixed_get b len El)) as H.
    intros dc Hwf Hfit Hh. etrans; [|exact (H dc Hwf Hfit Hh)].
    unfold decode_fixed_buffer, mbind, decoder_bind. by destruct (advance len dc) as [[? [[]|]]| |].
  - eapply dec_safe_bind; [apply (codec_safe _ _ _ _ (uint_codec 4 size4))|]. intros len Hlen.
    eapply dec_safe_bind; [apply reject_safe|]. intros [] Hr%Z.ltb_ge. unfold is_uint in Hlen.
    assert (dec_safe (x ← decode_fixed_buffer len; mret (MkData len (Elsewhere x))) data_ok) as H.
    { eapply dec_safe_bind.
      - apply decode_fixed_safe. unfold ZFS_MAXDATA, ZFS_DC_SIZE in *. lia.
      - intros b [Hb1 Hb2]. apply dec_safe_ret. split; [done|]. by exists b. }
    intros dc Hwf. specialize (H dc Hwf). unfold decode_fixed_buffer, mbind, decoder_bind in *.
    by destruct (advance len dc) as [[? [[]|]]| |].
Qed.

(** A string is its length, its characters and a zero byte. *)
Definition wstring (s : string) : wire := wint 4 (str_len s) ⊕ wbytes (str s).

Definition string_ok (max_len : Z) (s : string) : Prop :=
  str_len s <= max_len /\
  exists chars, str s = chars ++ [0] /\ Z.of_nat (length chars) = str_len s /\ Forall is_byte chars.

Lemma string_length max_len s :
  string_ok max_len s -> 0 <= str_len s /\ Z.of_nat (length (str s)) = str_len s + 1.
Proof. intros (_ & chars & -> & <- & _). rewrite length_app. cbn. lia. Qed.

(** Writing a byte that is there already changes nothing. *)
Lemma store_same buf a x b (o : Z) :
  0 <= o -> o + Z.of_nat (length a) < Z.of_nat (length buf) ->
  holds_at buf o (a ++ x :: b) ->
  store buf (o + Z.of_nat (length a)) [x] = Ok buf.
Proof.
  intros Ho Hl Hh. rewrite store_ok by (cbn; lia). f_equal.
  apply holds_at_app in Hh as [_ Hh]; [|done]. apply (holds_at_app _ _ [x] b) in Hh as [Hh _]; [|lia].
  unfold holds_at in Hh. cbn [length] in *. set (k := Z.to_nat (o + Z.of_nat (length a))) in *.
  rewrite <-drop_drop. rewrite <-Hh at 1. rewrite take_drop. apply take_drop.
Qed.

Lemma terminate_safe dc len :
  0 <= cur_pos dc -> 0 <= len -> cur_pos dc + len < Z.of_nat (length (buffer dc)) ->
  Forall is_byte (buffer dc) ->
  exists buf, terminate len dc = Ok (MkDC buf (cur_pos dc) (max_length dc) (cur_length dc), Some tt) /\
    length buf = length (buffer dc) /\ Forall is_byte buf /\ buf !! Z.to_nat (cur_pos dc + len) = Some 0.
Proof.
  intros Hp Hn Hl Hb. unfold terminate. rewrite store_ok by (cbn; lia). cbn [mbind res_bind].
  eexists. split_and!; [done| | |].
  - rewrite !length_app, length_take, length_drop. cbn. lia.
  - apply Forall_app. split; [by apply Forall_take|]. constructor; [unfold is_byte; lia|].
    by apply Forall_drop.
  - rewrite lookup_app_r; rewrite length_take; [|lia]. rewrite Nat.min_l, Nat.sub_diag by lia. done.
Qed.

Lemma decode_string_get max_len s :
  max_len <= ZFS_MAXPATHLEN -> string_ok max_len s -> dec_get (decode_string max_len) (wstring s) s.
Proof.
  intros Hmax Hs. pose proof (string_length _ _ Hs) as [Hl0 Hlen].
  destruct s as [len st]. destruct Hs as (Hm & chars & Es & El & Hb). cbn in *.
  unfold ZFS_MAXPATHLEN in Hmax. unfold decode_string, wstring. cbn.
  eapply dec_get_bind; [apply decode_simple_get; [apply size4|unfold id; apply Z.mod_small; lia]|].
  eapply dec_get_skip; [apply reject_get; by apply ltb_false|].
  rewrite u32_small by lia. intros dc Hwf Hfit Hh. cbv zeta. unfold wbytes in *.
  pose proof Hwf as [Hsame Hpos Hmx Hroom Hbf]. unfold ZFS_DC_SIZE in *.
  unfold mbind at 1, decoder_bind at 1. rewrite advance_wf by (done || unfold ZFS_DC_SIZE; lia).
  rewrite ltb_false by lia. unfold mbind at 1, decoder_bind at 1, terminate.
  cbn [cur_pos set_cur_length buffer max_length cur_length].
  rewrite <-El at 1. rewrite Es in Hh. rewrite (store_same _ chars 0 []) by (done || lia).
  cbn [mbind res_bind]. unfold mbind, decoder_bind. rewrite take_bytes_get by (cbn; lia).
  cbn [cur_pos buffer max_length cur_length]. unfold holds_at in Hh. rewrite <-Es in Hh.
  rewrite <-Hlen, Nat2Z.id, Hh. done.
Qed.

Lemma last_split (l : list Z) (n : nat) :
  length l = S n -> l !! n = Some 0 -> exists chars, l = chars ++ [0] /\ length chars = n.
Proof.
  intros Hl Hn. exists (take n l). split; [|rewrite length_take; lia].
  rewrite <-(take_drop n l) at 1. f_equal. rewrite (drop_S l 0 n) by done.
  by rewrite drop_ge by lia.
Qed.

Lemma decode_string_safe max_len :
  max_len <= ZFS_MAXPATHLEN -> dec_safe (decode_string max_len) (string_ok max_len).
Proof.
  intros Hmax. unfold ZFS_MAXPATHLEN in Hmax. unfold decode_string.
  eapply dec_safe_bind; [apply (codec_safe _ _ _ _ (uint_codec 4 size4))|]. intros len Hlen.
  eapply dec_safe_bind; [apply reject_safe|]. intros [] Hr%Z.ltb_ge. unfold is_uint in Hlen.
  rewrite u32_small by lia. intros dc Hwf. pose proof Hwf as [Hsame Hpos Hmx Hroom Hb].
  unfold ZFS_DC_SIZE in *. unfold mbind at 1, decoder_bind at 1.
  rewrite advance_wf by (done || unfold ZFS_DC_SIZE; lia). case_if; [by eexists _, None|].
  destruct (terminate_safe (set_cur_length dc (cur_pos dc + (len + 1))) len) as (buf & Et & El & Hb' & Hz);
    cbn [cur_pos set_cur_length buffer max_length cur_length] in *; [lia..|done|].
  unfold mbind, decoder_bind. rewrite Et, take_bytes_get by (cbn; lia).
  cbn [cur_pos buffer max_length cur_length]. eexists _, _. split_and!; [done|done|done|].
  intros v [= <-]. split.
  - split; [done|]. cbn [str str_len].
    destruct (last_split (take (Z.to_nat (len + 1)) (drop (Z.to_nat (cur_pos dc)) buf)) (Z.to_nat len))
      as (chars & Ec & Elc).
    + rewrite length_take, length_drop. lia.
    + rewrite lookup_take_lt, lookup_drop by lia. rewrite <-Hz. f_equal. lia.
    + exists chars. split_and!; [done|lia|].
      assert (Forall is_byte (take (Z.to_nat (len + 1)) (drop (Z.to_nat (cur_pos dc)) buf))) as H
        by (by apply Forall_take, Forall_drop).
      rewrite Ec in H. by apply Forall_app in H as [? _].
  - split; cbn; unfold ZFS_DC_SIZE; rewrite ?El; done || lia.
Qed.

Lemma string_codec max_len :
  max_len <= ZFS_MAXPATHLEN -> codec encode_string (decode_string max_len) (string_ok max_len) wstring.
Proof.
  intros Hmax. split.
  - intros s Hs dc Hwf Hfit. pose proof (string_length _ _ Hs) as [? Hl]. destruct Hs as [? _].
    unfold encode_string. unfold ZFS_MAXPATHLEN in *. rewrite u32_small by lia.
    apply (enc_put_seq _ _ (wint 4 (str_len s)) (wbytes (str s))); [apply encode_simple_put, size4| |done|done].
    intros dc1 Hwf1 Hfit1.
    rewrite <-(encode_fixed_put (str s) (str_len s + 1) Hl dc1 Hwf1 Hfit1). unfold encode_fixed_buffer.
    cbn [set_cur_length cur_length max_length]. destruct Hwf1 as [Hsame Hpos Hmx Hroom].
    unfold wbytes, ZFS_DC_SIZE in *. by rewrite Hsame, u32_small, ltb_false by lia.
  - intros s Hs dc Hwf Hfit. pose proof (string_length _ _ Hs) as [? Hl]. destruct Hs as [? _].
    unfold encode_string. unfold ZFS_MAXPATHLEN in *. rewrite u32_small by lia.
    apply (enc_full_seq _ _ (wint 4 (str_len s)) (wbytes (str s)));
      [apply encode_simple_put, size4|apply encode_simple_full, size4| |done|done].
    intros dc1 [Hsame Hpos Hmx Hroom] Hfit1. unfold wbytes, ZFS_DC_SIZE in *.
    cbn [set_cur_length cur_length max_length]. rewrite Hsame, u32_small, ltb_true by lia. eauto.
  - intros s Hs. by apply decode_string_get.
  - by apply decode_string_safe.
Qed.

(** *** Enumerations *)

Lemma enum_codec {A} (number : A -> Z) (constants : list A) :
  (forall a, constants !! Z.to_nat (number a) = Some a /\ 0 <= number a < 256) ->
  codec (fun a => encode_uchar (number a)) (decode_enum constants) (fun _ => True)
    (fun a => wint 1 (number a)).
Proof.
  intros Hn. assert (is_size 1) as HS by (unfold is_size; tauto). split.
  - intros a _. by apply encode_simple_put.
  - intros a _. by apply encode_simple_full.
  - intros a _. destruct (Hn a) as [Ha Hr].
    assert (dec_get decode_uchar (wint 1 (number a)) (number a)) as Hg
      by (apply decode_simple_get; [done|apply Z.mod_small; done]).
    intros dc Hwf Hfit Hh. unfold decode_enum, mbind, decoder_bind. rewrite Hg by done.
    unfold returning. by rewrite Ha.
  - unfold decode_enum. eapply dec_safe_bind; [apply (codec_safe _ _ _ _ (uint_codec 1 HS))|].
    intros v _ dc Hwf. by eexists _, _.
Qed.

(** ** Every structure of the protocol is a codec *)

Existing Class codec.

#[global] Instance char_codec : codec encode_char decode_char (is_int 8) (wint 1).
Proof. apply (int_codec 1). unfold is_size. tauto. Qed.
#[global] Instance uchar_codec : codec encode_uchar decode_uchar (is_uint 8) (wint 1).
Proof. apply (uint_codec 1). unfold is_size. tauto. Qed.
#[global] Instance int16_codec : codec encode_int16_t decode_int16_t (is_int 16) (wint 2).
Proof. apply (int_codec 2). unfold is_size. tauto. Qed.
#[global] Instance uint16_codec : codec encode_uint16_t decode_uint16_t (is_uint 16) (wint 2).
Proof. apply (uint_codec 2). unfold is_size. tauto. Qed.
#[global] Instance int32_codec : codec encode_int32_t decode_int32_t (is_int 32) (wint 4).
Proof. apply (int_codec 4), size4. Qed.
#[global] Instance uint32_codec : codec encode_uint32_t decode_uint32_t (is_uint 32) (wint 4).
Proof. apply (uint_codec 4), size4. Qed.
#[global] Instance int64_codec : codec encode_int64_t decode_int64_t (is_int 64) (wint 8).
Proof. apply (int_codec 8). unfold is_size. tauto. Qed.
#[global] Instance uint64_codec : codec encode_uint64_t decode_uint64_t (is_uint 64) (wint 8).
Proof. apply (uint_codec 8). unfold is_size. tauto. Qed.
#[global] Instance zfs_time_codec : codec encode_zfs_time decode_zfs_time (is_uint 32) (wint 4).
Proof. apply uint32_codec. Qed.
#[global] Instance data_buffer_codec : codec encode_data_buffer decode_data_buffer data_ok wdata.
Proof. apply data_codec. Qed.
#[global] Instance filename_codec :
  codec encode_filename decode_filename (string_ok ZFS_MAXNAMELEN) wstring.
Proof. apply string_codec. unfold ZFS_MAXNAMELEN, ZFS_MAXPATHLEN. lia. Qed.
#[global] Instance zfs_path_codec :
  codec encode_zfs_path decode_zfs_path (string_ok ZFS_MAXPATHLEN) wstring.
Proof. apply string_codec. lia. Qed.
#[global] Instance nodename_codec :
  codec encode_nodename decode_nodename (string_ok ZFS_MAXNODELEN) wstring.
Proof. apply string_codec. unfold ZFS_MAXNODELEN, ZFS_MAXPATHLEN. lia. Qed.

Definition any {A : Type} (_ : A) : Prop := True.
Definition wdirection (d : direction) : wire := wint 1 (direction_number d).
Definition wftype (t : ftype) : wire := wint 1 (ftype_number t).
Definition wspeed (s : connection_speed) : wire := wint 1 (connection_speed_number s).

#[global] Instance direction_codec : codec encode_direction decode_direction any wdirection.
Proof. apply enum_codec. by intros []. Qed.
#[global] Instance ftype_codec : codec encode_ftype decode_ftype any wftype.
Proof. apply enum_codec. by intros []. Qed.
#[global] Instance connection_speed_codec :
  codec encode_connection_speed decode_connection_speed any wspeed.
Proof. apply enum_codec. by intros []. Qed.

#[global] Instance verify_codec :
  codec (fun b => encode_fixed_buffer b ZFS_VERIFY_LEN) (decode_fixed_buffer ZFS_VERIFY_LEN)
    (fixed_ok 16) wbytes.
Proof. apply fixed_codec. unfold ZFS_DC_SIZE. lia. Qed.

(** One field after another. *)
Ltac field_ok := cbn in *; unfold any; tauto.

Ltac put_fields :=
  lazymatch goal with
  | |- enc_put (_ &&> _) _ => apply enc_put_seq; [put_fields|put_fields]
  | |- enc_put (encode_fixed_buffer _ _) _ => apply (codec_put _ _ _ _ verify_codec); field_ok
  | |- enc_put _ _ => eapply codec_put; [typeclasses eauto|field_ok]
  end.

Ltac full_fields :=
  lazymatch goal with
  | |- enc_full (_ &&> _) _ => apply enc_full_seq; [put_fields|full_fields|full_fields]
  | |- enc_full (encode_fixed_buffer _ _) _ => apply (codec_full _ _ _ _ verify_codec); field_ok
  | |- enc_full _ _ => eapply codec_full; [typeclasses eauto|field_ok]
  end.

Ltac get_fields :=
  lazymatch goal with
  | |- dec_get _ (_ ⊕ _) _ =>
      eapply dec_get_bind; [eapply codec_get; [typeclasses eauto|field_ok]|get_fields]
  | |- dec_get _ _ _ =>
      first [ refine (dec_get_map _ (fun x => _) _ _ _)
            | idtac ]; eapply codec_get; [typeclasses eauto|field_ok]
  end.

Ltac safe_fields :=
  first
  [ apply dec_safe_ret; cbn; unfold any; tauto
  | eapply dec_safe_bind; [eapply codec_safe; typeclasses eauto|intros ? ?; safe_fields] ].

(** A structure that is encoded field by field. *)
Ltac struct_codec :=
  split;
  [ intros v Hv; lazymatch goal with |- enc_put (?e _) (?w _) => unfold e, w end;
    lazymatch type of Hv with ?P _ => unfold P in Hv end; put_fields
  | intros v Hv; lazymatch goal with |- enc_full (?e _) (?w _) => unfold e, w end;
    lazymatch type of Hv with ?P _ => unfold P in Hv end; full_fields
  | intros v Hv; lazymatch goal with |- dec_get ?d (?w _) _ => unfold d, w end;
    lazymatch type of Hv with ?P _ => unfold P in Hv end; destruct v;
    repeat match goal with x : dir_op_res |- _ => destruct x end; get_fields
  | lazymatch goal with |- dec_safe ?d ?P => unfold d, P end; safe_fields ].

Definition fh_ok (f : zfs_fh) : Prop :=
  is_uint 32 (sid f) /\ is_uint 32 (vid f) /\ is_uint 32 (dev f) /\ is_uint 32 (ino f) /\
  is_uint 32 (gen f).
Definition wfh (f : zfs_fh) : wire :=
  wint 4 (sid f) ⊕ wint 4 (vid f) ⊕ wint 4 (dev f) ⊕ wint 4 (ino f) ⊕ wint 4 (gen f).

#[global] Instance zfs_fh_codec : codec encode_zfs_fh decode_zfs_fh fh_ok wfh.
Proof. struct_codec. Qed.

Definition cap_ok (a : zfs_cap) : Prop :=
  fh_ok (cap_fh a) /\ is_uint 32 (cap_flags a) /\ fixed_ok 16 (verify a).
Definition wcap (a : zfs_cap) : wire :=
  wfh (cap_fh a) ⊕ wint 4 (cap_flags a) ⊕ wbytes (verify a).
#[global] Instance zfs_cap_codec : codec encode_zfs_cap decode_zfs_cap cap_ok wcap.
Proof. struct_codec. Qed.

Definition fattr_ok (a : fattr) : Prop :=
  is_uint 32 (fa_dev a) /\ is_uint 32 (fa_ino a) /\ is_uint 64 (fa_version a) /\
  any (fa_type a) /\ is_uint 32 (fa_mode a) /\ is_uint 32 (fa_nlink a) /\
  is_uint 32 (fa_uid a) /\ is_uint 32 (fa_gid a) /\ is_uint 32 (fa_rdev a) /\
  is_uint 64 (fa_size a) /\ is_uint 64 (fa_blocks a) /\ is_uint 32 (fa_blksize a) /\
  is_uint 32 (fa_atime a) /\ is_uint 32 (fa_mtime a) /\ is_uint 32 (fa_ctime a).
Definition wfattr (a : fattr) : wire :=
  wint 4 (fa_dev a) ⊕ wint 4 (fa_ino a) ⊕ wint 8 (fa_version a) ⊕ wftype (fa_type a) ⊕
  wint 4 (fa_mode a) ⊕ wint 4 (fa_nlink a) ⊕ wint 4 (fa_uid a) ⊕ wint 4 (fa_gid a) ⊕
  wint 4 (fa_rdev a) ⊕ wint 8 (fa_size a) ⊕ wint 8 (fa_blocks a) ⊕ wint 4 (fa_blksize a) ⊕
  wint 4 (fa_atime a) ⊕ wint 4 (fa_mtime a) ⊕ wint 4 (fa_ctime a).
#[global] Instance fattr_codec : codec encode_fattr decode_fattr fattr_ok wfattr.
Proof. struct_codec. Qed.

Definition sattr_ok (a : sattr) : Prop :=
  is_uint 32 (sa_mode a) /\ is_uint 32 (sa_uid a) /\ is_uint 32 (sa_gid a) /\
  is_uint 64 (sa_size a) /\ is_uint 32 (sa_atime a) /\ is_uint 32 (sa_mtime a).
Definition wsattr (a : sattr) : wire :=
  wint 4 (sa_mode a) ⊕ wint 4 (sa_uid a) ⊕ wint 4 (sa_gid a) ⊕ wint 8 (sa_size a) ⊕
  wint 4 (sa_atime a) ⊕ wint 4 (sa_mtime a).
#[global] Instance sattr_codec : codec encode_sattr decode_sattr sattr_ok wsattr.
Proof. struct_codec. Qed.

Definition volume_root_ok (a : volume_root_args) : Prop :=
  is_uint 32 (vr_vid a).
Definition wvolume_root (a : volume_root_args) : wire :=
  wint 4 (vr_vid a).
#[global] Instance volume_root_args_codec : codec encode_volume_root_args decode_volume_root_args volume_root_ok wvolume_root.
Proof. struct_codec. Qed.

Definition setattr_ok (a : setattr_args) : Prop :=
  fh_ok (set_file a) /\ sattr_ok (set_attr a).
Definition wsetattr (a : setattr_args) : wire :=
  wfh (set_file a) ⊕ wsattr (set_attr a).
#[global] Instance setattr_args_codec : codec encode_setattr_args decode_setattr_args setattr_ok wsetattr.
Proof. struct_codec. Qed.

Definition dir_op_ok (a : dir_op_args) : Prop :=
  fh_ok (do_dir a) /\ string_ok ZFS_MAXNAMELEN (do_name a).
Definition wdir_op (a : dir_op_args) : wire :=
  wfh (do_dir a) ⊕ wstring (do_name a).
#[global] Instance dir_op_args_codec : codec encode_dir_op_args decode_dir_op_args dir_op_ok wdir_op.
Proof. struct_codec. Qed.

Definition dir_op_res_ok (a : dir_op_res) : Prop :=
  fh_ok (dor_file a) /\ fattr_ok (dor_attr a).
Definition wdir_op_res (a : dir_op_res) : wire :=
  wfh (dor_file a) ⊕ wfattr (dor_attr a).
#[global] Instance dir_op_res_codec : codec encode_dir_op_res decode_dir_op_res dir_op_res_ok wdir_op_res.
Proof. struct_codec. Qed.

Definition create_ok (a : create_args) : Prop :=
  dir_op_ok (cr_where a) /\ is_uint 32 (cr_flags a) /\ sattr_ok (cr_attr a).
Definition wcreate (a : create_args) : wire :=
  wdir_op (cr_where a) ⊕ wint 4 (cr_flags a) ⊕ wsattr (cr_attr a).
#[global] Instance create_args_codec : codec encode_create_args decode_create_args create_ok wcreate.
Proof. struct_codec. Qed.

Definition create_res_ok (a : create_res) : Prop :=
  cap_ok (cre_cap a) /\ fh_ok (dor_file (cre_dor a)) /\ fattr_ok (dor_attr (cre_dor a)).
Definition wcreate_res (a : create_res) : wire :=
  wcap (cre_cap a) ⊕ wfh (dor_file (cre_dor a)) ⊕ wfattr (dor_attr (cre_dor a)).
#[global] Instance create_res_codec : codec encode_create_res decode_create_res create_res_ok wcreate_res.
Proof. struct_codec. Qed.

Definition open_ok (a : open_args) : Prop :=
  fh_ok (op_file a) /\ is_uint 32 (op_flags a).
Definition wopen (a : open_args) : wire :=
  wfh (op_file a) ⊕ wint 4 (op_flags a).
#[global] Instance open_args_codec : codec encode_open_args decode_open_args open_ok wopen.
Proof. struct_codec. Qed.

Definition read_dir_ok (a : read_dir_args) : Prop :=
  cap_ok (rd_cap a) /\ is_int 32 (rd_cookie a) /\ is_uint 32 (rd_count a).
Definition wread_dir (a : read_dir_args) : wire :=
  wcap (rd_cap a) ⊕ wint 4 (rd_cookie a) ⊕ wint 4 (rd_count a).
#[global] Instance read_dir_args_codec : codec encode_read_dir_args decode_read_dir_args read_dir_ok wread_dir.
Proof. struct_codec. Qed.

Definition dir_entry_ok (a : dir_entry) : Prop :=
  is_uint 32 (de_ino a) /\ is_int 32 (de_cookie a) /\ string_ok ZFS_MAXNAMELEN (de_name a).
Definition wdir_entry (a : dir_entry) : wire :=
  wint 4 (de_ino a) ⊕ wint 4 (de_cookie a) ⊕ wstring (de_name a).
#[global] Instance dir_entry_codec : codec encode_dir_entry decode_dir_entry dir_entry_ok wdir_entry.
Proof. struct_codec. Qed.

Definition dir_list_ok (a : dir_list) : Prop :=
  is_uint 32 (dl_n a) /\ is_int 8 (dl_eof a).
Definition wdir_list (a : dir_list) : wire :=
  wint 4 (dl_n a) ⊕ wint 1 (dl_eof a).
#[global] Instance dir_list_codec : codec encode_dir_list decode_dir_list dir_list_ok wdir_list.
Proof. struct_codec. Qed.

Definition mkdir_ok (a : mkdir_args) : Prop :=
  dir_op_ok (mk_where a) /\ sattr_ok (mk_attr a).
Definition wmkdir (a : mkdir_args) : wire :=
  wdir_op (mk_where a) ⊕ wsattr (mk_attr a).
#[global] Instance mkdir_args_codec : codec encode_mkdir_args decode_mkdir_args mkdir_ok wmkdir.
Proof. struct_codec. Qed.

Definition rename_ok (a : rename_args) : Prop :=
  dir_op_ok (rn_from a) /\ dir_op_ok (rn_to a).
Definition wrename (a : rename_args) : wire :=
  wdir_op (rn_from a) ⊕ wdir_op (rn_to a).
#[global] Instance rename_args_codec : codec encode_rename_args decode_rename_args rename_ok wrename.
Proof. struct_codec. Qed.

Definition link_ok (a : link_args) : Prop :=
  fh_ok (ln_from a) /\ dir_op_ok (ln_to a).
Definition wlink (a : link_args) : wire :=
  wfh (ln_from a) ⊕ wdir_op (ln_to a).
#[global] Instance link_args_codec : codec encode_link_args decode_link_args link_ok wlink.
Proof. struct_codec. Qed.

Definition read_ok (a : read_args) : Prop :=
  cap_ok (re_cap a) /\ is_uint 64 (re_offset a) /\ is_uint 32 (re_count a).
Definition wread (a : read_args) : wire :=
  wcap (re_cap a) ⊕ wint 8 (re_offset a) ⊕ wint 4 (re_count a).
#[global] Instance read_args_codec : codec encode_read_args decode_read_args read_ok wread.
Proof. struct_codec. Qed.

Definition read_res_ok (a : read_res) : Prop :=
  data_ok (rr_data a) /\ is_uint 64 (rr_version a).
Definition wread_res (a : read_res) : wire :=
  wdata (rr_data a) ⊕ wint 8 (rr_version a).
#[global] Instance read_res_codec : codec encode_read_res decode_read_res read_res_ok wread_res.
Proof. struct_codec. Qed.

Definition write_ok (a : write_args) : Prop :=
  cap_ok (wr_cap a) /\ is_uint 64 (wr_offset a) /\ data_ok (wr_data a).
Definition wwrite (a : write_args) : wire :=
  wcap (wr_cap a) ⊕ wint 8 (wr_offset a) ⊕ wdata (wr_data a).
#[global] Instance write_args_codec : codec encode_write_args decode_write_args write_ok wwrite.
Proof. struct_codec. Qed.

Definition write_res_ok (a : write_res) : Prop :=
  is_uint 32 (wre_written a) /\ is_uint 64 (wre_version a).
Definition wwrite_res (a : write_res) : wire :=
  wint 4 (wre_written a) ⊕ wint 8 (wre_version a).
#[global] Instance write_res_codec : codec encode_write_res decode_write_res write_res_ok wwrite_res.
Proof. struct_codec. Qed.

Definition read_link_res_ok (a : read_link_res) : Prop :=
  string_ok ZFS_MAXPATHLEN (rl_path a).
Definition wread_link_res (a : read_link_res) : wire :=
  wstring (rl_path a).
#[global] Instance read_link_res_codec : codec encode_read_link_res decode_read_link_res read_link_res_ok wread_link_res.
Proof. struct_codec. Qed.

Definition symlink_ok (a : symlink_args) : Prop :=
  dir_op_ok (sl_from a) /\ string_ok ZFS_MAXPATHLEN (sl_to a) /\ sattr_ok (sl_attr a).
Definition wsymlink (a : symlink_args) : wire :=
  wdir_op (sl_from a) ⊕ wstring (sl_to a) ⊕ wsattr (sl_attr a).
#[global] Instance symlink_args_codec : codec encode_symlink_args decode_symlink_args symlink_ok wsymlink.
Proof. struct_codec. Qed.

Definition mknod_ok (a : mknod_args) : Prop :=
  dir_op_ok (mn_where a) /\ sattr_ok (mn_attr a) /\ any (mn_type a) /\ is_uint 32 (mn_rdev a).
Definition wmknod (a : mknod_args) : wire :=
  wdir_op (mn_where a) ⊕ wsattr (mn_attr a) ⊕ wftype (mn_type a) ⊕ wint 4 (mn_rdev a).
#[global] Instance mknod_args_codec : codec encode_mknod_args decode_mknod_args mknod_ok wmknod.
Proof. struct_codec. Qed.

Definition auth1_ok (a : auth_stage1_args) : Prop :=
  string_ok ZFS_MAXNODELEN (a1_node a).
Definition wauth1 (a : auth_stage1_args) : wire :=
  wstring (a1_node a).
#[global] Instance auth_stage1_args_codec : codec encode_auth_stage1_args decode_auth_stage1_args auth1_ok wauth1.
Proof. struct_codec. Qed.

Definition auth1_res_ok (a : auth_stage1_res) : Prop :=
  string_ok ZFS_MAXNODELEN (a1r_node a).
Definition wauth1_res (a : auth_stage1_res) : wire :=
  wstring (a1r_node a).
#[global] Instance auth_stage1_res_codec : codec encode_auth_stage1_res decode_auth_stage1_res auth1_res_ok wauth1_res.
Proof. struct_codec. Qed.

Definition auth2_ok (a : auth_stage2_args) : Prop :=
  any (a2_speed a).
Definition wauth2 (a : auth_stage2_args) : wire :=
  wspeed (a2_speed a).
#[global] Instance auth_stage2_args_codec : codec encode_auth_stage2_args decode_auth_stage2_args auth2_ok wauth2.
Proof. struct_codec. Qed.

Definition file_info_res_ok (a : file_info_res) : Prop :=
  string_ok ZFS_MAXPATHLEN (fi_path a).
Definition wfile_info_res (a : file_info_res) : wire :=
  wstring (fi_path a).
#[global] Instance file_info_res_codec : codec encode_file_info_res decode_file_info_res file_info_res_ok wfile_info_res.
Proof. struct_codec. Qed.

Definition reint_ok (a : reintegrate_args) : Prop :=
  fh_ok (ri_fh a) /\ is_int 8 (ri_status a).
Definition wreint (a : reintegrate_args) : wire :=
  wfh (ri_fh a) ⊕ wint 1 (ri_status a).
#[global] Instance reintegrate_args_codec : codec encode_reintegrate_args decode_reintegrate_args reint_ok wreint.
Proof. struct_codec. Qed.

Definition reint_add_ok (a : reintegrate_add_args) : Prop :=
  fh_ok (ra_fh a) /\ fh_ok (ra_dir a) /\ string_ok ZFS_MAXNAMELEN (ra_name a).
Definition wreint_add (a : reintegrate_add_args) : wire :=
  wfh (ra_fh a) ⊕ wfh (ra_dir a) ⊕ wstring (ra_name a).
#[global] Instance reintegrate_add_args_codec : codec encode_reintegrate_add_args decode_reintegrate_add_args reint_add_ok wreint_add.
Proof. struct_codec. Qed.

Definition reint_del_ok (a : reintegrate_del_args) : Prop :=
  fh_ok (rdl_fh a) /\ fh_ok (rdl_dir a) /\ string_ok ZFS_MAXNAMELEN (rdl_name a) /\
  is_int 8 (rdl_destroy_p a).
Definition wreint_del (a : reintegrate_del_args) : wire :=
  wfh (rdl_fh a) ⊕ wfh (rdl_dir a) ⊕ wstring (rdl_name a) ⊕ wint 1 (rdl_destroy_p a).
#[global] Instance reintegrate_del_args_codec : codec encode_reintegrate_del_args decode_reintegrate_del_args reint_del_ok wreint_del.
Proof. struct_codec. Qed.

Definition reint_ver_ok (a : reintegrate_ver_args) : Prop :=
  fh_ok (rv_fh a) /\ is_uint 64 (rv_version_inc a).
Definition wreint_ver (a : reintegrate_ver_args) : wire :=
  wfh (rv_fh a) ⊕ wint 8 (rv_version_inc a).
#[global] Instance reintegrate_ver_args_codec : codec encode_reintegrate_ver_args decode_reintegrate_ver_args reint_ver_ok wreint_ver.
Proof. struct_codec. Qed.

Definition reread_ok (a : reread_config_args) : Prop :=
  string_ok ZFS_MAXPATHLEN (rc_path a).
Definition wreread (a : reread_config_args) : wire :=
  wstring (rc_path a).
#[global] Instance reread_config_args_codec : codec encode_reread_config_args decode_reread_config_args reread_ok wreread.
Proof. struct_codec. Qed.

(** *** Checksum lists *)

Definition warray {A : Type} (w : A -> wire) (a : list A) (tail : wire) : wire :=
  foldr (fun x acc => w x ⊕ acc) tail a.

Lemma enc_put_array {A} (e : A -> encoder) (P : A -> Prop) (w : A -> wire) k wk a :
  (forall x, P x -> enc_put (e x) (w x)) -> Forall P a -> enc_put k wk ->
  enc_put (encode_array e (length a) a k) (warray w a wk).
Proof.
  intros He Ha Hk. induction Ha as [|x a Hx _ IH]; cbn; [done|]. apply enc_put_ignoring; auto.
Qed.

Lemma dec_get_assoc {A B C} (d : decoder A) (f : A -> decoder B) (k : B -> decoder C) w u :
  dec_get (d ≫= (fun x => f x ≫= k)) w u -> dec_get ((d ≫= f) ≫= k) w u.
Proof.
  intros H dc Hwf Hfit Hh. etrans; [|exact (H dc Hwf Hfit Hh)]. unfold mbind, decoder_bind.
  by destruct (d dc) as [[? []]| |].
Qed.

Lemma dec_get_array {A B} (d : decoder A) (P : A -> Prop) (w : A -> wire) wk a : forall
  (k : list A -> decoder B) u,
  (forall x, P x -> dec_get d (w x) x) -> Forall P a -> dec_get (k a) wk u ->
  dec_get (decode_array d (length a) ≫= k) (warray w a wk) u.
Proof.
  intros k u Hd Ha. revert k u. induction Ha as [|x a Hx _ IH]; intros k u Hk; cbn; [exact Hk|].
  apply dec_get_assoc. eapply dec_get_bind; [by apply Hd|]. cbv beta.
  apply dec_get_assoc. cbv beta. apply (IH (fun l => k (x :: l))). done.
Qed.

Lemma dec_safe_array {A} (d : decoder A) (P : A -> Prop) n :
  dec_safe d P -> dec_safe (decode_array d n) (fun l => length l = n /\ Forall P l).
Proof.
  intros Hd. induction n as [|n IH]; cbn; [by apply dec_safe_ret|].
  eapply dec_safe_bind; [exact Hd|]. intros x Hx. eapply dec_safe_bind; [exact IH|].
  intros l [Hl HP]. apply dec_safe_ret. cbn. auto.
Qed.

Definition md5_count_ok (count : Z) (n : nat) : Prop :=
  Z.of_nat n = count /\ count <= ZFS_MAX_MD5_CHUNKS.

Definition md5sum_ok (a : md5sum_args) : Prop :=
  cap_ok (md_cap a) /\ is_int 8 (md_ignore_changes a) /\
  md5_count_ok (md_count a) (length (md_offset a)) /\
  length (md_length a) = length (md_offset a) /\
  Forall (is_uint 64) (md_offset a) /\ Forall (is_uint 32) (md_length a).
Definition wmd5sum (a : md5sum_args) : wire :=
  wcap (md_cap a) ⊕ wint 4 (md_count a) ⊕ wint 1 (md_ignore_changes a) ⊕
  warray (wint 8) (md_offset a) (warray (wint 4) (md_length a) wnil).

Definition md5sum_res_ok (r : md5sum_res) : Prop :=
  is_uint 64 (mr_size r) /\ is_uint 64 (mr_version r) /\
  md5_count_ok (mr_count r) (length (mr_offset r)) /\
  length (mr_length r) = length (mr_offset r) /\ length (mr_md5sum r) = length (mr_offset r) /\
  Forall (is_uint 64) (mr_offset r) /\ Forall (is_uint 32) (mr_length r) /\
  Forall (fixed_ok 16) (mr_md5sum r).
Definition wmd5sum_res (r : md5sum_res) : wire :=
  wint 4 (mr_count r) ⊕ wint 8 (mr_size r) ⊕ wint 8 (mr_version r) ⊕
  warray (wint 8) (mr_offset r) (warray (wint 4) (mr_length r) (warray wbytes (mr_md5sum r) wnil)).

Lemma enc_put_nil : enc_put succeed wnil.
Proof.
  intros [buf p m c] [Hsame Hpos _ _] _. cbn in *. unfold succeed, put. cbn.
  rewrite Z.add_0_r, Nat.add_0_r, take_drop. by subst c.
Qed.

Lemma dec_get_ret {A} (v : A) : dec_get (mret v) wnil v.
Proof.
  intros [buf p m c] [Hsame _ _ _ _] _ _. cbn in *. subst c. by rewrite Z.add_0_r.
Qed.

Lemma md5_count_uint count n : md5_count_ok count n -> is_uint 32 count /\ Z.to_nat count = n.
Proof.
  unfold md5_count_ok, is_uint. change ZFS_MAX_MD5_CHUNKS with 256. intros [<- ?]. split; [lia|apply Nat2Z.id].
Qed.

Lemma md5_count_check count n : md5_count_ok count n -> (ZFS_MAX_MD5_CHUNKS <? count) = false.
Proof. intros [_ ?]. by apply ltb_false. Qed.

Lemma md5_fixed_put x : fixed_ok 16 x -> enc_put (encode_fixed_buffer x MD5_SIZE) (wbytes x).
Proof. apply (codec_put _ _ _ _ verify_codec). Qed.

Lemma encode_md5sum_args_put a : md5sum_ok a -> enc_put (encode_md5sum_args a) (wmd5sum a).
Proof.
  intros (Hc & Hi & Hn & Hl & Ho & Hlen). pose proof (md5_count_uint _ _ Hn) as [Hu En].
  unfold encode_md5sum_args, wmd5sum. rewrite (md5_count_check _ _ Hn), En.
  apply enc_put_ignoring; [by apply (codec_put _ _ _ _ zfs_cap_codec)|].
  apply enc_put_ignoring; [by apply (codec_put _ _ _ _ uint32_codec)|].
  apply enc_put_ignoring; [by apply (codec_put _ _ _ _ char_codec)|].
  eapply enc_put_array; [apply (codec_put _ _ _ _ uint64_codec)|done|]. rewrite <-Hl.
  eapply enc_put_array; [apply (codec_put _ _ _ _ uint32_codec)|done|apply enc_put_nil].
Qed.

Lemma encode_md5sum_res_put r : md5sum_res_ok r -> enc_put (encode_md5sum_res r) (wmd5sum_res r).
Proof.
  intros (Hs & Hv & Hn & Hl & Hm & Ho & Hlen & Hsum). pose proof (md5_count_uint _ _ Hn) as [Hu En].
  unfold encode_md5sum_res, wmd5sum_res. rewrite (md5_count_check _ _ Hn), En.
  apply enc_put_ignoring; [by apply (codec_put _ _ _ _ uint32_codec)|].
  apply enc_put_ignoring; [by apply (codec_put _ _ _ _ uint64_codec)|].
  apply enc_put_ignoring; [by apply (codec_put _ _ _ _ uint64_codec)|].
  eapply enc_put_array; [apply (codec_put _ _ _ _ uint64_codec)|done|]. rewrite <-Hl at 1.
  eapply enc_put_array; [apply (codec_put _ _ _ _ uint32_codec)|done|]. rewrite <-Hm.
  apply (enc_put_array _ _ _ _ _ _ md5_fixed_put Hsum enc_put_nil).
Qed.

Lemma decode_md5sum_args_get a : md5sum_ok a -> dec_get decode_md5sum_args (wmd5sum a) a.
Proof.
  destruct a as [cap count ign off len]. intros (Hc & Hi & Hn & Hl & Ho & Hlen). cbn in *.
  pose proof (md5_count_uint _ _ Hn) as [Hu En]. unfold decode_md5sum_args, wmd5sum. cbn.
  eapply dec_get_bind; [by apply (codec_get _ _ _ _ zfs_cap_codec)|].
  eapply dec_get_bind; [by apply (codec_get _ _ _ _ uint32_codec)|].
  eapply dec_get_bind; [by apply (codec_get _ _ _ _ char_codec)|].
  eapply dec_get_skip; [apply reject_get; by apply md5_count_check in Hn|]. rewrite En.
  eapply dec_get_array; [apply (codec_get _ _ _ _ uint64_codec)|done|]. rewrite <-Hl.
  eapply dec_get_array; [apply (codec_get _ _ _ _ uint32_codec)|done|apply dec_get_ret].
Qed.

Lemma decode_md5sum_res_get r : md5sum_res_ok r -> dec_get decode_md5sum_res (wmd5sum_res r) r.
Proof.
  destruct r as [count size ver off len sums]. intros (Hs & Hv & Hn & Hl & Hm & Ho & Hlen & Hsum). cbn in *.
  pose proof (md5_count_uint _ _ Hn) as [Hu En]. unfold decode_md5sum_res, wmd5sum_res. cbn.
  eapply dec_get_bind; [by apply (codec_get _ _ _ _ uint32_codec)|].
  eapply dec_get_skip; [apply reject_get; by apply md5_count_check in Hn|].
  eapply dec_get_bind; [by apply (codec_get _ _ _ _ uint64_codec)|].
  eapply dec_get_bind; [by apply (codec_get _ _ _ _ uint64_codec)|]. rewrite En.
  eapply dec_get_array; [apply (codec_get _ _ _ _ uint64_codec)|done|]. rewrite <-Hl at 1.
  eapply dec_get_array; [apply (codec_get _ _ _ _ uint32_codec)|done|]. rewrite <-Hm.
  eapply dec_get_array; [apply (codec_get _ _ _ _ verify_codec)|done|apply dec_get_ret].
Qed.

Lemma decode_md5sum_args_safe : dec_safe decode_md5sum_args md5sum_ok.
Proof.
  unfold decode_md5sum_args.
  eapply dec_safe_bind; [apply (codec_safe _ _ _ _ zfs_cap_codec)|intros cap Hcap].
  eapply dec_safe_bind; [apply (codec_safe _ _ _ _ uint32_codec)|intros count Hcount].
  eapply dec_safe_bind; [apply (codec_safe _ _ _ _ char_codec)|intros ign Hign].
  eapply dec_safe_bind; [apply reject_safe|intros _ Hr%Z.ltb_ge].
  eapply dec_safe_bind; [apply dec_safe_array, (codec_safe _ _ _ _ uint64_codec)|intros off [Hol Hof]].
  eapply dec_safe_bind; [apply dec_safe_array, (codec_safe _ _ _ _ uint32_codec)|intros len [Hll Hlf]].
  apply dec_safe_ret. unfold md5sum_ok, md5_count_ok, is_uint in *. cbn.
  split_and!; try done; lia.
Qed.

Lemma decode_md5sum_res_safe : dec_safe decode_md5sum_res md5sum_res_ok.
Proof.
  unfold decode_md5sum_res.
  eapply dec_safe_bind; [apply (codec_safe _ _ _ _ uint32_codec)|intros count Hcount].
  eapply dec_safe_bind; [apply reject_safe|intros _ Hr%Z.ltb_ge].
  eapply dec_safe_bind; [apply (codec_safe _ _ _ _ uint64_codec)|intros size Hsize].
  eapply dec_safe_bind; [apply (codec_safe _ _ _ _ uint64_codec)|intros ver Hver].
  eapply dec_safe_bind; [apply dec_safe_array, (codec_safe _ _ _ _ uint64_codec)|intros off [Hol Hof]].
  eapply dec_safe_bind; [apply dec_safe_array, (codec_safe _ _ _ _ uint32_codec)|intros len [Hll Hlf]].
  eapply dec_safe_bind; [apply dec_safe_array, (codec_safe _ _ _ _ verify_codec)|intros s [Hsl Hsf]].
  apply dec_safe_ret. unfold md5sum_res_ok, md5_count_ok, is_uint in *. cbn.
  split_and!; try done; lia.
Qed.

(** *** Sizes *)

Definition bounded (w : wire) (n : Z) : Prop := forall o, Z.of_nat (length (w o)) <= n.

Lemma bounded_cat w1 w2 n1 n2 : bounded w1 n1 -> bounded w2 n2 -> bounded (w1 ⊕ w2) (n1 + n2).
Proof. intros H1 H2 o. unfold wcat. rewrite length_app. specialize (H1 o). specialize (H2 (o + Z.of_nat (length (w1 o)))). lia. Qed.

Lemma bounded_int S v : is_size S -> bounded (wint S v) (2 * S - 1).
Proof. intros HS o. rewrite length_wint by done. pose proof (ALIGN_bounds S o HS). lia. Qed.

Lemma bounded_le w n m : bounded w n -> n <= m -> bounded w m.
Proof. intros H ? o. specialize (H o). lia. Qed.

Lemma bounded_bytes b n : Z.of_nat (length b) <= n -> bounded (wbytes b) n.
Proof. intros H o. done. Qed.

Lemma bounded_string max_len s : string_ok max_len s -> bounded (wstring s) (max_len + 8).
Proof.
  intros Hs. pose proof (string_length _ _ Hs) as [_ Hl]. destruct Hs as [? _].
  eapply bounded_le; [apply bounded_cat; [apply (bounded_int 4), size4|apply bounded_bytes, Z.le_refl]|]. lia.
Qed.

Lemma bounded_data d : data_ok d -> bounded (wdata d) (ZFS_MAXDATA + 7).
Proof.
  intros [Hm (b & Eb & El & _)]. unfold wdata. rewrite Eb.
  eapply bounded_le; [apply bounded_cat; [apply (bounded_int 4), size4|apply bounded_bytes, Z.le_refl]|]. lia.
Qed.

Lemma bounded_array {A} (w : A -> wire) (P : A -> Prop) n a tail m :
  (forall x, P x -> bounded (w x) n) -> Forall P a -> bounded tail m ->
  bounded (warray w a tail) (Z.of_nat (length a) * n + m).
Proof.
  intros Hw Ha Ht. induction Ha as [|x a Hx _ IH]; cbn [warray foldr length].
  - eapply bounded_le; [exact Ht|]. lia.
  - eapply bounded_le; [apply bounded_cat; [by apply Hw|exact IH]|]. lia.
Qed.

Lemma warray_cons {A} (w : A -> wire) x a tail : warray w (x :: a) tail = w x ⊕ warray w a tail.
Proof. done. Qed.

Lemma length_wcat w1 w2 o :
  length ((w1 ⊕ w2) o) = (length (w1 o) + length (w2 (o + Z.of_nat (length (w1 o)))%Z))%nat.
Proof. apply length_app. Qed.

(** An aligned array of integers has no padding. *)
Lemma length_wint_aligned S v o : is_size S -> o mod S = 0 -> length (wint S v o) = Z.to_nat S.
Proof.
  intros HS Ho. pose proof (length_wint S v o HS) as H. pose proof (ALIGN_bounds S o HS) as [? Ha].
  pose proof (size_bound S HS). assert (ALIGN S o = o) as E.
  { assert ((ALIGN S o - o) mod S = 0) as Hm by (rewrite Zminus_mod, Ha, Ho; apply Z.mod_0_l; lia).
    rewrite Z.mod_small in Hm by lia. lia. }
  rewrite E in H. lia.
Qed.

Lemma length_warray_aligned S a tail : is_size S -> forall o, o mod S = 0 ->
  length (warray (wint S) a tail o) =
  (Z.to_nat S * length a + length (tail (o + S * Z.of_nat (length a))%Z))%nat.
Proof.
  intros HS. pose proof (size_bound S HS). induction a as [|x a IH]; intros o Ho; cbn [length].
  { rewrite Nat.mul_0_r, Z.mul_0_r, Z.add_0_r. done. }
  rewrite warray_cons, length_wcat, length_wint_aligned, Z2Nat.id by (done || lia). rewrite IH.
  - replace (o + S + S * Z.of_nat (length a)) with (o + S * Z.of_nat (Datatypes.S (length a))) by lia. lia.
  - rewrite Z.add_mod, Ho, Z.mod_same by lia. apply Z.mod_0_l. lia.
Qed.

Lemma mod4_of_8 o : o mod 8 = 0 -> o mod 4 = 0.
Proof. intros H. pose proof (Z.div_mod o 8 ltac:(lia)). apply Z.mod_divide; [lia|]. exists (2 * (o / 8)). lia. Qed.

Lemma length_wsums a o : Forall (fixed_ok 16) a -> length (warray wbytes a wnil o) = (16 * length a)%nat.
Proof.
  intros H. revert o. induction H as [|x a [Hx _] _ IH]; intros o; cbn [length]; [done|].
  rewrite warray_cons, length_wcat, IH. unfold wbytes. lia.
Qed.

(** The largest checksum reply fits into a packet. *)
Lemma md5sum_res_size r o :
  md5sum_res_ok r -> 0 <= o -> Z.of_nat (length (wmd5sum_res r o)) <= 7200.
Proof.
  intros (_ & _ & [Hn Hm] & Hl & Hs & _ & _ & Hsum) Ho. change ZFS_MAX_MD5_CHUNKS with 256 in Hm.
  assert (is_size 8) as H8 by (unfold is_size; tauto).
  unfold wmd5sum_res. rewrite length_wcat. set (o1 := o + _). pose proof (bounded_int 4 (mr_count r) size4 o).
  rewrite length_wcat. set (o2 := o1 + _).
  assert (o2 mod 8 = 0) as Ho2.
  { unfold o2. rewrite length_wint by done. pose proof (ALIGN_bounds 8 o1 H8) as [_ Ha].
    replace (o1 + (ALIGN 8 o1 - o1 + 8)) with (ALIGN 8 o1 + 1 * 8) by lia. by rewrite Z.mod_add. }
  pose proof (bounded_int 8 (mr_size r) H8 o1).
  rewrite length_wcat, (length_wint_aligned 8 (mr_version r) o2) by done. set (o3 := o2 + _). assert (o3 mod 8 = 0) as Ho3.
  { unfold o3. change (Z.of_nat (Z.to_nat 8)) with (1 * 8). by rewrite Z.mod_add. }
  rewrite length_warray_aligned by done.
  rewrite length_warray_aligned by (apply size4 || (apply mod4_of_8;
    replace (o3 + 8 * Z.of_nat (length (mr_offset r))) with (o3 + Z.of_nat (length (mr_offset r)) * 8) by lia;
    by rewrite Z.mod_add)).
  rewrite length_wsums by done. rewrite Hl, Hs. lia.
Qed.

(** ** Properties *)

(** What is encoded at the current position of a packet is what decoding from the
    same position returns, and the decoder consumes exactly what was produced. *)
Definition survives {A : Type} (e : A -> encoder) (d : decoder A) (v : A) (dc : DC) : Prop :=
  forall dc1, e v dc = Ok (dc1, true) -> Forall is_byte (buffer dc1) ->
  exists dc2, d (MkDC (buffer dc1) (cur_pos dc) (max_length dc) (cur_length dc)) = Ok (dc2, Some v) /\
    cur_length dc2 = cur_length dc1.

Lemma put_survives {A} (e : A -> encoder) (d : decoder A) (w : wire) v dc :
  enc_wf dc -> max_length dc = ZFS_DC_SIZE -> ZFS_DC_SIZE <= Z.of_nat (length (buffer dc)) ->
  e v dc = Ok (put dc (w (cur_pos dc)), true) ->
  cur_pos dc + Z.of_nat (length (w (cur_pos dc))) <= max_length dc ->
  dec_get d w v -> survives e d v dc.
Proof.
  intros Hwf Hmax Hlen He Hfit Hd dc1 E Hb. rewrite He in E. injection E as <-.
  pose proof Hwf as [Hsame Hpos _ _]. rewrite Hsame. eexists. split; [apply Hd|done].
  - split; cbn [cur_pos cur_length max_length buffer]; [done|lia|lia| |done].
    change (ZFS_DC_SIZE <= Z.of_nat (length (buffer (put dc (w (cur_pos dc)))))).
    rewrite length_put by done. done.
  - done.
  - unfold holds_at. cbn [buffer put cur_pos].
    rewrite drop_app_length' by (rewrite length_take; lia). apply take_app_length.
Qed.

Lemma codec_survives {A} (e : A -> encoder) (d : decoder A) P w v dc :
  codec e d P w -> P v -> enc_wf dc -> max_length dc = ZFS_DC_SIZE ->
  ZFS_DC_SIZE <= Z.of_nat (length (buffer dc)) -> survives e d v dc.
Proof.
  intros [Hput Hfull Hget _] HP Hwf Hmax Hlen.
  destruct (Z_lt_le_dec (max_length dc) (cur_pos dc + Z.of_nat (length (w v (cur_pos dc))))) as [H|H].
  - destruct (Hfull v HP dc Hwf H) as [dc' E]. intros dc1 E1. congruence.
  - eapply put_survives; [done|done|done|by apply Hput|done|by apply Hget].
Qed.

(** C31. Results survive the wire: whenever a result structure within its limits was
    encoded into a packet, decoding from the same position returns it and consumes
    exactly the bytes produced, whatever else the packet holds.  This holds for
    the checksum reply too, whose encoder ignores its own failures: up to offset
    1600 it always fits. *)
Theorem results_roundtrip (dc : DC) :
  enc_wf dc -> max_length dc = ZFS_DC_SIZE -> ZFS_DC_SIZE <= Z.of_nat (length (buffer dc)) ->
  (forall v, fattr_ok v -> survives encode_fattr decode_fattr v dc) /\
  (forall v, dir_op_res_ok v -> survives encode_dir_op_res decode_dir_op_res v dc) /\
  (forall v, create_res_ok v -> survives encode_create_res decode_create_res v dc) /\
  (forall v, dir_entry_ok v -> survives encode_dir_entry decode_dir_entry v dc) /\
  (forall v, dir_list_ok v -> survives encode_dir_list decode_dir_list v dc) /\
  (forall v, read_res_ok v -> survives encode_read_res decode_read_res v dc) /\
  (forall v, write_res_ok v -> survives encode_write_res decode_write_res v dc) /\
  (forall v, read_link_res_ok v -> survives encode_read_link_res decode_read_link_res v dc) /\
  (forall v, auth1_res_ok v -> survives encode_auth_stage1_res decode_auth_stage1_res v dc) /\
  (forall v, file_info_res_ok v -> survives encode_file_info_res decode_file_info_res v dc) /\
  (forall v, md5sum_res_ok v -> cur_pos dc <= 1600 ->
     survives encode_md5sum_res decode_md5sum_res v dc).
Proof.
  intros Hwf Hmax Hlen.
  split_and!; intros v Hv; try by (eapply codec_survives; [typeclasses eauto|done..]).
  intros Hp. pose proof (enc_pos _ Hwf).
  assert (cur_pos dc + Z.of_nat (length (wmd5sum_res v (cur_pos dc))) <= max_length dc) as Hfit.
  { pose proof (md5sum_res_size v (cur_pos dc) Hv ltac:(lia)). rewrite Hmax. unfold ZFS_DC_SIZE. lia. }
  eapply put_survives; [done|done|done|by apply encode_md5sum_res_put|done|by apply decode_md5sum_res_get].
Qed.

Definition sample_dc : DC := MkDC (replicate (Z.to_nat ZFS_DC_SIZE) 0) 12 ZFS_DC_SIZE 12.

Lemma sample_dc_length : Z.of_nat (length (buffer sample_dc)) = ZFS_DC_SIZE.
Proof. unfold sample_dc. cbn [buffer]. rewrite length_replicate. unfold ZFS_DC_SIZE. lia. Qed.

Lemma sample_dc_wf : enc_wf sample_dc.
Proof. split; [done|cbn; unfold ZFS_DC_SIZE; lia|done|]. rewrite sample_dc_length. done. Qed.

Lemma results_roundtrip_witness :
  survives encode_write_res decode_write_res (MkWriteRes 4096 7) sample_dc.
Proof.
  assert (ZFS_DC_SIZE <= Z.of_nat (length (buffer sample_dc))) as Hl by (rewrite sample_dc_length; lia).
  destruct (results_roundtrip sample_dc sample_dc_wf eq_refl Hl) as (_ & _ & _ & _ & _ & _ & H & _).
  apply H. unfold write_res_ok, is_uint. cbn. lia.
Defined.

(** C32. What another node sends as a result is well typed before anything uses it: for
    any bytes in the packet the decoder of a result returns and leaves the buffer well
    formed, and what it returns has its numbers in the range of their types, its
    enumerations among their constants, its strings and counts within their limits
    and no string or block of data beyond the packet. *)
Theorem results_well_typed :
  dec_safe decode_fattr fattr_ok /\ dec_safe decode_dir_op_res dir_op_res_ok /\ dec_safe decode_create_res create_res_ok /\
  dec_safe decode_dir_entry dir_entry_ok /\ dec_safe decode_dir_list dir_list_ok /\ dec_safe decode_read_res read_res_ok /\
  dec_safe decode_write_res write_res_ok /\ dec_safe decode_read_link_res read_link_res_ok /\
  dec_safe decode_auth_stage1_res auth1_res_ok /\ dec_safe decode_file_info_res file_info_res_ok /\
  dec_safe decode_md5sum_res md5sum_res_ok.
Proof.
  repeat (split; [eapply codec_safe; typeclasses eauto|]). apply decode_md5sum_res_safe.
Qed.

(** A string that does not fit leaves the buffer inconsistent: [encode_string]
    restores [cur_length] to its value before the length field but leaves
    [cur_pos] behind it. *)
Theorem encode_string_failure_desync (s : string) (dc : DC) :
  string_ok ZFS_MAXPATHLEN s -> enc_wf dc ->
  cur_pos dc + Z.of_nat (length (wint 4 (str_len s) (cur_pos dc))) <= max_length dc ->
  max_length dc < cur_pos dc + Z.of_nat (length (wstring s (cur_pos dc))) ->
  exists dc', encode_string s dc = Ok (dc', false) /\ cur_length dc' = cur_length dc /\
    cur_pos dc + 4 <= cur_pos dc'.
Proof.
  intros Hs Hwf Hfit Hfull. pose proof (string_length _ _ Hs) as [? Hl]. destruct Hs as [Hm _].
  unfold encode_string, andthen, encode_uint32_t.
  rewrite (encode_simple_put 4 (str_len s) size4 dc Hwf Hfit). cbn [mbind res_bind].
  destruct Hwf as [Hsame Hpos Hmx Hroom]. unfold wstring, wcat, wbytes in Hfull. rewrite length_app in Hfull.
  unfold ZFS_MAXPATHLEN, ZFS_DC_SIZE in *. cbn [put set_cur_length cur_length max_length].
  rewrite (u32_small (str_len s + 1)), u32_small, ltb_true by lia. eexists. split_and!; [done|done|].
  cbn. rewrite length_wint by apply size4. pose proof (ALIGN_bounds 4 (cur_pos dc) size4). lia.
Qed.

Lemma encode_string_failure_desync_witness :
  let dc := MkDC (replicate 16 0) 4 12 4 in
  let s := MkString 5 [104; 101; 108; 108; 111; 0] in
  exists dc', encode_string s dc = Ok (dc', false) /\ cur_length dc' = cur_length dc /\
    cur_pos dc + 4 <= cur_pos dc'.
Proof.
  intros dc s. apply (encode_string_failure_desync s dc).
  - split; [cbn; unfold ZFS_MAXPATHLEN; lia|]. exists [104; 101; 108; 108; 111]. split_and!; [done|done|].
    repeat (constructor; [unfold is_byte; lia|]). constructor.
  - split; cbn; unfold ZFS_DC_SIZE; lia.
  - by vm_compute.
  - by vm_compute.
Defined.
