(* ===== verification/Protocol.v ===== *)
(** Remote calls: the argument union of [src/zfsd/zfs-protocol/zfs-prot.h], the
    client stubs of [zfs-prot.c], and the receiving side of
    [src/zfsd/network/network.c] (reading the packets of a connection, [network_dispatch] and the
    request part of [network_worker]).

    The procedures of [zfs-prot.def] are the constructors of [call].  The bodies
    of the server functions are the parameter [server]: a function that encodes
    the reply to a call. *)

From S2P Require Import Prelude DataCoding.

Inductive call :=
  | CALL_NULL
  | CALL_PING (a : data_buffer)
  | CALL_ROOT
  | CALL_VOLUME_ROOT (a : volume_root_args)
  | CALL_GETATTR (a : zfs_fh)
  | CALL_SETATTR (a : setattr_args)
  | CALL_LOOKUP (a : dir_op_args)
  | CALL_CREATE (a : create_args)
  | CALL_OPEN (a : open_args)
  | CALL_CLOSE (a : zfs_cap)
  | CALL_READDIR (a : read_dir_args)
  | CALL_MKDIR (a : mkdir_args)
  | CALL_RMDIR (a : dir_op_args)
  | CALL_RENAME (a : rename_args)
  | CALL_LINK (a : link_args)
  | CALL_UNLINK (a : dir_op_args)
  | CALL_READ (a : read_args)
  | CALL_WRITE (a : write_args)
  | CALL_READLINK (a : zfs_fh)
  | CALL_SYMLINK (a : symlink_args)
  | CALL_MKNOD (a : mknod_args)
  | CALL_AUTH_STAGE1 (a : auth_stage1_args)
  | CALL_AUTH_STAGE2 (a : auth_stage2_args)
  | CALL_MD5SUM (a : md5sum_args)
  | CALL_FILE_INFO (a : zfs_fh)
  | CALL_REREAD_CONFIG (a : reread_config_args)
  | CALL_REINTEGRATE (a : reintegrate_args)
  | CALL_REINTEGRATE_ADD (a : reintegrate_add_args)
  | CALL_REINTEGRATE_DEL (a : reintegrate_del_args)
  | CALL_REINTEGRATE_SET (a : reintegrate_ver_args).

(** [NUMBER] of each procedure. *)
Definition proc_number (c : call) : Z :=
  match c with
  | CALL_NULL => 0 | CALL_PING _ => 1 | CALL_ROOT => 2 | CALL_VOLUME_ROOT _ => 3
  | CALL_GETATTR _ => 4 | CALL_SETATTR _ => 5 | CALL_LOOKUP _ => 6 | CALL_CREATE _ => 7
  | CALL_OPEN _ => 8 | CALL_CLOSE _ => 9 | CALL_READDIR _ => 10 | CALL_MKDIR _ => 11
  | CALL_RMDIR _ => 12 | CALL_RENAME _ => 13 | CALL_LINK _ => 14 | CALL_UNLINK _ => 15
  | CALL_READ _ => 16 | CALL_WRITE _ => 17 | CALL_READLINK _ => 18 | CALL_SYMLINK _ => 19
  | CALL_MKNOD _ => 20 | CALL_AUTH_STAGE1 _ => 21 | CALL_AUTH_STAGE2 _ => 22
  | CALL_MD5SUM _ => 23 | CALL_FILE_INFO _ => 24 | CALL_REREAD_CONFIG _ => 25
  | CALL_REINTEGRATE _ => 26 | CALL_REINTEGRATE_ADD _ => 27 | CALL_REINTEGRATE_DEL _ => 28
  | CALL_REINTEGRATE_SET _ => 29
  end.

Definition AUTHENTICATION_NONE : Z := 0.
Definition AUTHENTICATION_Q1 : Z := 1.
Definition AUTHENTICATION_STAGE_1 : Z := 2.
Definition AUTHENTICATION_Q3 : Z := 3.
Definition AUTHENTICATION_FINISHED : Z := 4.

Definition ZFS_OK : Z := 0.
Definition ZFS_REQUEST_TOO_LONG : Z := -1.
Definition ZFS_INVALID_REQUEST : Z := -2.
Definition ZFS_UNKNOWN_FUNCTION : Z := -3.
Definition ZFS_INVALID_AUTH_LEVEL : Z := -4.
Definition ZFS_INVALID_DIRECTION : Z := -5.
Definition ZFS_REPLY_TOO_LONG : Z := -100.
Definition ZFS_INVALID_REPLY : Z := -101.

(** [AUTH] and [CALL_MODE] of the procedure with a number. *)
Definition proc_auth (fn : Z) : Z :=
  if (fn =? 0) || (fn =? 21) then AUTHENTICATION_NONE
  else if (fn =? 1) || (fn =? 22) then AUTHENTICATION_STAGE_1
  else AUTHENTICATION_FINISHED.

Definition proc_mode (fn : Z) : direction := if fn =? 25 then DIR_ONEWAY else DIR_REQUEST.

Definition encode_args (c : call) : encoder :=
  match c with
  | CALL_NULL | CALL_ROOT => encode_void
  | CALL_PING a => encode_data_buffer a
  | CALL_VOLUME_ROOT a => encode_volume_root_args a
  | CALL_GETATTR a | CALL_READLINK a | CALL_FILE_INFO a => encode_zfs_fh a
  | CALL_SETATTR a => encode_setattr_args a
  | CALL_LOOKUP a | CALL_RMDIR a | CALL_UNLINK a => encode_dir_op_args a
  | CALL_CREATE a => encode_create_args a
  | CALL_OPEN a => encode_open_args a
  | CALL_CLOSE a => encode_zfs_cap a
  | CALL_READDIR a => encode_read_dir_args a
  | CALL_MKDIR a => encode_mkdir_args a
  | CALL_RENAME a => encode_rename_args a
  | CALL_LINK a => encode_link_args a
  | CALL_READ a => encode_read_args a
  | CALL_WRITE a => encode_write_args a
  | CALL_SYMLINK a => encode_symlink_args a
  | CALL_MKNOD a => encode_mknod_args a
  | CALL_AUTH_STAGE1 a => encode_auth_stage1_args a
  | CALL_AUTH_STAGE2 a => encode_auth_stage2_args a
  | CALL_MD5SUM a => encode_md5sum_args a
  | CALL_REREAD_CONFIG a => encode_reread_config_args a
  | CALL_REINTEGRATE a => encode_reintegrate_args a
  | CALL_REINTEGRATE_ADD a => encode_reintegrate_add_args a
  | CALL_REINTEGRATE_DEL a => encode_reintegrate_del_args a
  | CALL_REINTEGRATE_SET a => encode_reintegrate_ver_args a
  end.

(** [decode_##ARGS] of the [switch]; [None] is its [default]. *)
Definition decode_args (fn : Z) : option (decoder call) :=
  match fn with
  | 0 => Some (_ ← decode_void; mret CALL_NULL)
  | 1 => Some (a ← decode_data_buffer; mret (CALL_PING a))
  | 2 => Some (_ ← decode_void; mret CALL_ROOT)
  | 3 => Some (a ← decode_volume_root_args; mret (CALL_VOLUME_ROOT a))
  | 4 => Some (a ← decode_zfs_fh; mret (CALL_GETATTR a))
  | 5 => Some (a ← decode_setattr_args; mret (CALL_SETATTR a))
  | 6 => Some (a ← decode_dir_op_args; mret (CALL_LOOKUP a))
  | 7 => Some (a ← decode_create_args; mret (CALL_CREATE a))
  | 8 => Some (a ← decode_open_args; mret (CALL_OPEN a))
  | 9 => Some (a ← decode_zfs_cap; mret (CALL_CLOSE a))
  | 10 => Some (a ← decode_read_dir_args; mret (CALL_READDIR a))
  | 11 => Some (a ← decode_mkdir_args; mret (CALL_MKDIR a))
  | 12 => Some (a ← decode_dir_op_args; mret (CALL_RMDIR a))
  | 13 => Some (a ← decode_rename_args; mret (CALL_RENAME a))
  | 14 => Some (a ← decode_link_args; mret (CALL_LINK a))
  | 15 => Some (a ← decode_dir_op_args; mret (CALL_UNLINK a))
  | 16 => Some (a ← decode_read_args; mret (CALL_READ a))
  | 17 => Some (a ← decode_write_args; mret (CALL_WRITE a))
  | 18 => Some (a ← decode_zfs_fh; mret (CALL_READLINK a))
  | 19 => Some (a ← decode_symlink_args; mret (CALL_SYMLINK a))
  | 20 => Some (a ← decode_mknod_args; mret (CALL_MKNOD a))
  | 21 => Some (a ← decode_auth_stage1_args; mret (CALL_AUTH_STAGE1 a))
  | 22 => Some (a ← decode_auth_stage2_args; mret (CALL_AUTH_STAGE2 a))
  | 23 => Some (a ← decode_md5sum_args; mret (CALL_MD5SUM a))
  | 24 => Some (a ← decode_zfs_fh; mret (CALL_FILE_INFO a))
  | 25 => Some (a ← decode_reread_config_args; mret (CALL_REREAD_CONFIG a))
  | 26 => Some (a ← decode_reintegrate_args; mret (CALL_REINTEGRATE a))
  | 27 => Some (a ← decode_reintegrate_add_args; mret (CALL_REINTEGRATE_ADD a))
  | 28 => Some (a ← decode_reintegrate_del_args; mret (CALL_REINTEGRATE_DEL a))
  | 29 => Some (a ← decode_reintegrate_ver_args; mret (CALL_REINTEGRATE_SET a))
  | _ => None
  end.

(** *** The client *)

Inductive sent := TooLong | Packet (dc : DC).

(** [zfs_proc_##FUNCTION##_client_1] up to the sending of the packet. *)
Definition client_call (dc_call : DC) (req_id : Z) (c : call) : res sent :=
  dc ← start_encoding dc_call;
  '(dc, _) ← encode_direction (proc_mode (proc_number c)) dc;
  '(dc, _) ← encode_request_id req_id dc;
  '(dc, _) ← encode_function (proc_number c) dc;
  '(dc, r) ← encode_args c dc;
  if negb r then Ok TooLong
  else
    '(dc, _) ← finish_encoding dc;
    Ok (Packet dc).

(** *** Receiving a packet *)

Inductive read_target := ToBuffer (offset size : Z) | ToDummy (size : Z).

(** The [read] call [network_main] makes when [read] bytes of a packet whose
    length field is [max_length] have arrived. *)
Definition next_read (max_length read : Z) : read_target :=
  if read <? 4 then ToBuffer read (u32 (4 - read))
  else if max_length <=? ZFS_DC_SIZE then ToBuffer read (u32 (max_length - read))
  else if read <? 12 then ToBuffer read (u32 (12 - read))
  else
    let l := signed 32 (u32 (max_length - read)) in
    ToDummy (if ZFS_MAXDATA <? l then ZFS_MAXDATA else l).

(** *** The server *)

Inductive outcome :=
  | Dropped
  | IsReply (request_id : Z) (dc : DC)
  | Replied (status : Z) (dc : DC)
  | Served (request_id : Z) (c : call) (reply : option DC).

(** [send_error_reply] *)
Definition send_error_reply (dc : DC) (request_id status : Z) : res outcome :=
  dc ← start_encoding dc;
  '(dc, _) ← encode_direction DIR_REPLY dc;
  '(dc, _) ← encode_request_id request_id dc;
  '(dc, _) ← encode_status status dc;
  '(dc, _) ← finish_encoding dc;
  Ok (Replied status dc).

(** [if (cond) send_error_reply (...); goto out;] *)
Definition error_if (cond : bool) (dc : DC) (request_id status : Z) : res outcome :=
  if cond then send_error_reply dc request_id status else Ok Dropped.

Definition is_request (d : direction) : bool := bool_decide (d = DIR_REQUEST).

Section server.
Context (server : call -> DC -> res DC).

(** One [case] of the [switch]. *)
Definition serve (auth : Z) (dir : direction) (dc : DC) (request_id fn : Z) (d : decoder call)
    : res outcome :=
  let mode := proc_mode fn in
  if negb (bool_decide (dir = mode)) then
    error_if (is_request dir) dc request_id ZFS_INVALID_DIRECTION
  else if auth + 1 <? proc_auth fn + 1 then
    error_if (is_request mode) dc request_id ZFS_INVALID_AUTH_LEVEL
  else
    '(dc, r) ← d dc;
    match r with
    | Some c =>
        if finish_decoding dc then
          if is_request mode then
            dc ← start_encoding dc;
            '(dc, _) ← encode_direction DIR_REPLY dc;
            '(dc, _) ← encode_request_id request_id dc;
            dc ← server c dc;
            '(dc, _) ← finish_encoding dc;
            Ok (Served request_id c (Some dc))
          else
            dc ← server c dc;
            Ok (Served request_id c None)
        else error_if (is_request mode) dc request_id ZFS_INVALID_REQUEST
    | None => error_if (is_request mode) dc request_id ZFS_INVALID_REQUEST
    end.

(** The body of the loop of [network_worker]. *)
Definition network_worker (auth : Z) (dir : direction) (dc : DC) : res outcome :=
  '(dc, r) ← decode_request_id dc;
  match r with
  | None => Ok Dropped
  | Some request_id =>
      if ZFS_DC_SIZE <? max_length dc then
        error_if (is_request dir) dc request_id ZFS_REQUEST_TOO_LONG
      else
        '(dc, r) ← decode_function dc;
        match r with
        | None => error_if (is_request dir) dc request_id ZFS_INVALID_REQUEST
        | Some fn =>
            match decode_args fn with
            | Some d => serve auth dir dc request_id fn d
            | None => error_if (is_request dir) dc request_id ZFS_UNKNOWN_FUNCTION
            end
        end
  end.

(** [network_dispatch] on a packet whose length has been decoded; a reply goes to
    the thread that waits for its request id. *)
Definition network_dispatch (auth : Z) (dc : DC) : res outcome :=
  if negb (cur_length dc =? 4) then Aborted
  else
    '(dc, r) ← decode_direction dc;
    match r with
    | None => Ok Dropped
    | Some DIR_REPLY =>
        '(dc, r) ← decode_request_id dc;
        match r with
        | None => Ok Dropped
        | Some request_id => Ok (IsReply request_id dc)
        end
    | Some dir => network_worker auth dir dc
    end.

(** A complete packet has been read into the buffer. *)
Definition receive (auth : Z) (buf : list Z) : res outcome :=
  '(dc, _) ← start_decoding (MkDC buf 0 0 0);
  network_dispatch auth dc.

(** *** A connection *)

(** The part of [fd_data_t] that reading uses, and the bytes the peer has sent
    that [network_main] has not read yet. *)
Record fd_data := MkFdData { fd_dc : DC; fd_read : Z; incoming : list Z }.

(** A socket that can be read: how many bytes the kernel is ready to hand over
    ([0] also when [read] fails), the authentication level of the connection, and
    the [DC] the next packet would go to, recycled or fresh. *)
Record turn := MkTurn { count : Z; level : Z; next_dc : DC }.

Inductive progress :=
  | Closed
  | Waiting (f : fd_data)
  | Dispatched (out : outcome) (rest : list Z).

(** The bytes a [read] of [size] bytes (a [size_t]) returns. *)
Definition sys_read (size n : Z) (s : list Z) : list Z :=
  take (Z.to_nat (Z.min n (size mod 2 ^ 64))) s.

Definition dummy : list Z := replicate (Z.to_nat ZFS_MAXDATA) 0.

(** The [read] into the buffer, or into [dummy] for the rest of a packet that is
    too long; [store] refuses a write past the end of either. *)
Definition fetch (n : Z) (f : fd_data) : res (DC * list Z) :=
  match next_read (max_length (fd_dc f)) (fd_read f) with
  | ToBuffer offset size =>
      let b := sys_read size n (incoming f) in
      buf ← store (buffer (fd_dc f)) offset b;
      Ok (MkDC buf (cur_pos (fd_dc f)) (max_length (fd_dc f)) (cur_length (fd_dc f)), b)
  | ToDummy size =>
      let b := sys_read size n (incoming f) in
      _ ← store dummy 0 b;
      Ok (fd_dc f, b)
  end.

(** What [network_main] does with a socket that [poll] reports as readable. *)
Definition network_main_read (t : turn) (f : fd_data) : res progress :=
  '(dc, b) ← fetch (count t) f;
  let r := Z.of_nat (length b) in
  let rest := drop (length b) (incoming f) in
  if r =? 0 then Ok Closed
  else
    let read := u32 (fd_read f + r) in
    if fd_read f <? 4 then
      dc ← (if read =? 4 then '(dc, _) ← start_decoding dc; Ok dc else Ok dc);
      Ok (Waiting (MkFdData dc read rest))
    else if max_length dc =? read then
      out ← network_dispatch (level t) dc;
      Ok (Dispatched out rest)
    else Ok (Waiting (MkFdData dc read rest)).

(** The turns of one connection; the packets dispatched, each with the level it
    was served at, and the connection when it is still open. *)
Fixpoint network_reads (ts : list turn) (f : fd_data) : res (list (Z * outcome) * option fd_data) :=
  match ts with
  | [] => Ok ([], Some f)
  | t :: ts =>
      p ← network_main_read t f;
      match p with
      | Closed => Ok ([], None)
      | Waiting f => network_reads ts f
      | Dispatched out rest =>
          '(outs, f) ← network_reads ts (MkFdData (next_dc t) 0 rest);
          Ok ((level t, out) :: outs, f)
      end
  end.
End server.

(** ** The wire format of a call *)

Definition call_ok (c : call) : Prop :=
  match c with
  | CALL_NULL | CALL_ROOT => True
  | CALL_PING a => data_ok a
  | CALL_VOLUME_ROOT a => volume_root_ok a
  | CALL_GETATTR a | CALL_READLINK a | CALL_FILE_INFO a => fh_ok a
  | CALL_SETATTR a => setattr_ok a
  | CALL_LOOKUP a | CALL_RMDIR a | CALL_UNLINK a => dir_op_ok a
  | CALL_CREATE a => create_ok a
  | CALL_OPEN a => open_ok a
  | CALL_CLOSE a => cap_ok a
  | CALL_READDIR a => read_dir_ok a
  | CALL_MKDIR a => mkdir_ok a
  | CALL_RENAME a => rename_ok a
  | CALL_LINK a => link_ok a
  | CALL_READ a => read_ok a
  | CALL_WRITE a => write_ok a
  | CALL_SYMLINK a => symlink_ok a
  | CALL_MKNOD a => mknod_ok a
  | CALL_AUTH_STAGE1 a => auth1_ok a
  | CALL_AUTH_STAGE2 a => auth2_ok a
  | CALL_MD5SUM a => md5sum_ok a
  | CALL_REREAD_CONFIG a => reread_ok a
  | CALL_REINTEGRATE a => reint_ok a
  | CALL_REINTEGRATE_ADD a => reint_add_ok a
  | CALL_REINTEGRATE_DEL a => reint_del_ok a
  | CALL_REINTEGRATE_SET a => reint_ver_ok a
  end.

Definition wargs (c : call) : wire :=
  match c with
  | CALL_NULL | CALL_ROOT => wnil
  | CALL_PING a => wdata a
  | CALL_VOLUME_ROOT a => wvolume_root a
  | CALL_GETATTR a | CALL_READLINK a | CALL_FILE_INFO a => wfh a
  | CALL_SETATTR a => wsetattr a
  | CALL_LOOKUP a | CALL_RMDIR a | CALL_UNLINK a => wdir_op a
  | CALL_CREATE a => wcreate a
  | CALL_OPEN a => wopen a
  | CALL_CLOSE a => wcap a
  | CALL_READDIR a => wread_dir a
  | CALL_MKDIR a => wmkdir a
  | CALL_RENAME a => wrename a
  | CALL_LINK a => wlink a
  | CALL_READ a => wread a
  | CALL_WRITE a => wwrite a
  | CALL_SYMLINK a => wsymlink a
  | CALL_MKNOD a => wmknod a
  | CALL_AUTH_STAGE1 a => wauth1 a
  | CALL_AUTH_STAGE2 a => wauth2 a
  | CALL_MD5SUM a => wmd5sum a
  | CALL_REREAD_CONFIG a => wreread a
  | CALL_REINTEGRATE a => wreint a
  | CALL_REINTEGRATE_ADD a => wreint_add a
  | CALL_REINTEGRATE_DEL a => wreint_del a
  | CALL_REINTEGRATE_SET a => wreint_ver a
  end.

Lemma encode_args_put c : call_ok c -> enc_put (encode_args c) (wargs c).
Proof.
  destruct c; cbn [call_ok encode_args wargs]; intros H;
    first [ apply enc_put_nil | by apply encode_md5sum_args_put
          | eapply codec_put; [typeclasses eauto|exact H] ].
Qed.

Lemma decode_args_get c :
  call_ok c -> exists d, decode_args (proc_number c) = Some d /\ dec_get d (wargs c) c.
Proof.
  destruct c; cbn [call_ok decode_args proc_number wargs]; intros H; (eexists; split; [reflexivity|]);
    first [ apply (dec_get_ret CALL_NULL) | apply (dec_get_ret CALL_ROOT)
          | apply (dec_get_map _ CALL_MD5SUM); by apply decode_md5sum_args_get
          | refine (dec_get_map _ _ _ _ _); eapply codec_get; [typeclasses eauto|exact H] ].
Qed.

(** A decoded call is well-formed and is the call of its function number. *)
Lemma decode_args_safe fn d :
  decode_args fn = Some d -> dec_safe d (fun c => call_ok c /\ proc_number c = fn).
Proof.
  unfold decode_args. intros H.
  repeat match type of H with
  | match ?x with _ => _ end = _ => destruct x; try discriminate
  end; injection H as <-;
  first [ apply (dec_safe_ret CALL_NULL); done | apply (dec_safe_ret CALL_ROOT); done
        | eapply dec_safe_bind; [exact decode_md5sum_args_safe|intros; apply dec_safe_ret; done]
        | eapply dec_safe_bind; [eapply codec_safe; typeclasses eauto|intros; apply dec_safe_ret; done] ].
Qed.

Lemma size1 : is_size 1.
Proof. unfold is_size. tauto. Qed.
Lemma size8 : is_size 8.
Proof. unfold is_size. tauto. Qed.

(** An upper bound on the size of a structure, field by field. *)
Ltac bound_fields :=
  lazymatch goal with
  | |- bounded (_ ⊕ _) _ => eapply bounded_cat; [bound_fields|bound_fields]
  | |- bounded (wint 4 _) _ => apply bounded_int, size4
  | |- bounded (wint 8 _) _ => apply bounded_int, size8
  | |- bounded (wint 1 _) _ => apply bounded_int, size1
  | |- bounded (wftype _) _ => apply bounded_int, size1
  | |- bounded (wspeed _) _ => apply bounded_int, size1
  | |- bounded (wbytes (verify _)) _ => apply (bounded_bytes _ 16); unfold fixed_ok in *; lia
  | |- bounded (wfh _) _ => unfold wfh; bound_fields
  | |- bounded (wcap _) _ => unfold wcap, cap_ok in *; bound_fields
  | |- bounded (wsattr _) _ => unfold wsattr; bound_fields
  | |- bounded (wdir_op _) _ => unfold wdir_op, dir_op_ok in *; bound_fields
  | |- bounded (wstring _) _ => eapply bounded_string; destruct_and?; eassumption
  | |- bounded (wdata _) _ => eapply bounded_data; tauto
  end.

Lemma bounded_md5sum a : md5sum_ok a -> bounded (wmd5sum a) 6000.
Proof.
  intros (Hc & _ & [Hn Hm] & Hl & Ho & Hlen). change ZFS_MAX_MD5_CHUNKS with 256 in Hm.
  unfold wmd5sum. eapply bounded_le.
  - do 3 (eapply bounded_cat; [bound_fields|]).
    eapply bounded_array; [intros x _; apply bounded_int, size8|exact Ho|].
    eapply bounded_array; [intros x _; apply bounded_int, size4|exact Hlen|].
    apply (bounded_bytes [] 0). cbn. lia.
  - rewrite Hl. lia.
Qed.

Lemma bounded_args c : call_ok c -> bounded (wargs c) 8400.
Proof.
  destruct c; cbn [call_ok wargs]; intros H;
  lazymatch goal with
  | |- bounded (wmd5sum _) _ => eapply bounded_le; [by apply bounded_md5sum|lia]
  | |- bounded wnil _ => apply (bounded_bytes [] 8400); cbn; lia
  | |- bounded (?w _) _ =>
      eapply bounded_le;
      [ first [ bound_fields
              | lazymatch type of H with ?P _ => unfold P in H end; unfold w; bound_fields ]
      | unfold ZFS_MAXNAMELEN, ZFS_MAXPATHLEN, ZFS_MAXNODELEN, ZFS_MAXDATA; lia ]
  end.
Qed.

(** ** The packet *)

(** A freshly allocated buffer: [dc_create] gives room for [ZFS_DC_SIZE] bytes. *)
Definition buffer_ok (buf : list Z) : Prop :=
  Z.of_nat (length buf) = ZFS_DC_SIZE /\ Forall is_byte buf.

(** What follows the length field, at offset 4. *)
Definition whead (d : direction) (id : Z) (rest : wire) : wire :=
  wdirection d ⊕ wint 4 id ⊕ rest.

Definition wrequest (id : Z) (c : call) : wire :=
  whead (proc_mode (proc_number c)) id (wint 4 (proc_number c) ⊕ wargs c).

Definition werror (id status : Z) : wire := whead DIR_REPLY id (wint 4 status).

Definition packet_length (w : wire) : Z := 4 + Z.of_nat (length (w 4)).

Definition packet (w : wire) : list Z := le_bytes 4 (packet_length w) ++ w 4.

Lemma wint4_aligned v : wint 4 v 0 = le_bytes 4 v.
Proof. done. Qed.

Lemma start_encoding_ok dc :
  ZFS_DC_SIZE <= Z.of_nat (length (buffer dc)) ->
  start_encoding dc = Ok (MkDC (le_bytes 4 0 ++ drop 4 (buffer dc)) 4 ZFS_DC_SIZE 4).
Proof.
  intros Hb. unfold start_encoding, encode_uint32_t, ZFS_DC_SIZE in *.
  rewrite (encode_simple_put 4 0 size4); [done| |by vm_compute].
  split; cbn; unfold ZFS_DC_SIZE; lia.
Qed.

(** Encoding something that fits after [start_encoding], then finishing. *)
Lemma encode_packet dc e w :
  ZFS_DC_SIZE <= Z.of_nat (length (buffer dc)) -> enc_put e w -> packet_length w <= ZFS_DC_SIZE ->
  exists dc1 dc2, start_encoding dc = Ok dc1 /\ e dc1 = Ok (dc2, true) /\
    finish_encoding dc2 =
      Ok (MkDC (packet w ++ drop (Z.to_nat (packet_length w)) (buffer dc)) (packet_length w) ZFS_DC_SIZE
            (packet_length w), packet_length w).
Proof.
  intros Hb He Hl. unfold packet_length, ZFS_DC_SIZE in *. eexists _, _.
  split; [by apply start_encoding_ok|].
  assert (length (le_bytes 4 0 ++ drop 4 (buffer dc)) = length (buffer dc)) as Hlen
    by (rewrite length_app, length_le_bytes, length_drop; lia).
  split; [apply He; [split; cbn [cur_pos cur_length max_length buffer]; unfold ZFS_DC_SIZE; rewrite ?Hlen; lia|
    cbn [cur_pos max_length]; unfold ZFS_DC_SIZE; lia]|].
  unfold finish_encoding, put. cbn [buffer cur_pos cur_length max_length].
  change (Z.to_nat 4) with (length (le_bytes 4 0)). rewrite take_app_length.
  rewrite store_ok; [|lia|rewrite !length_app, length_drop, !length_le_bytes, Hlen; lia].
  cbn [mbind res_bind]. rewrite u32_small by lia. do 2 f_equal. f_equal.
  rewrite !length_le_bytes. change (Z.to_nat 0) with 0%nat. rewrite take_0, app_nil_l.
  rewrite drop_app_length' by (by rewrite length_le_bytes).
  unfold packet, packet_length. rewrite <-app_assoc. do 2 f_equal.
  rewrite drop_app_ge, drop_drop by (rewrite length_le_bytes; lia). f_equal. rewrite length_le_bytes. lia.
Qed.

Lemma packet_fits id c : call_ok c -> packet_length (wrequest id c) <= ZFS_DC_SIZE.
Proof.
  intros Hc. unfold packet_length, wrequest, whead.
  assert (bounded (wdirection (proc_mode (proc_number c)) ⊕ wint 4 id ⊕ wint 4 (proc_number c) ⊕ wargs c)
            (1 + (7 + (7 + 8400)))) as H.
  { apply bounded_cat; [apply (bounded_int 1), size1|].
    apply bounded_cat; [apply (bounded_int 4), size4|].
    apply bounded_cat; [apply (bounded_int 4), size4|by apply bounded_args]. }
  specialize (H 4). unfold ZFS_DC_SIZE. lia.
Qed.

(** The client's packet is the wire format of the call. *)
Lemma client_call_packet dc id c :
  ZFS_DC_SIZE <= Z.of_nat (length (buffer dc)) -> call_ok c -> is_uint 32 id ->
  exists pkt, client_call dc id c = Ok (Packet pkt) /\
    cur_length pkt = packet_length (wrequest id c) /\
    take (Z.to_nat (cur_length pkt)) (buffer pkt) = packet (wrequest id c).
Proof.
  intros Hb Hc Hid.
  destruct (encode_packet dc (encode_direction (proc_mode (proc_number c)) ;;; encode_request_id id ;;;
    encode_function (proc_number c) ;;; encode_args c) (wrequest id c) Hb) as (dc1 & dc2 & E1 & E2 & E3).
  - apply enc_put_ignoring; [by apply (codec_put _ _ _ _ direction_codec)|].
    apply enc_put_ignoring; [by apply (codec_put _ _ _ _ uint32_codec)|].
    apply enc_put_ignoring; [|by apply encode_args_put].
    apply (codec_put _ _ _ _ uint32_codec). unfold is_uint. destruct c; cbn; lia.
  - by apply packet_fits.
  - exists (MkDC (packet (wrequest id c) ++ drop (Z.to_nat (packet_length (wrequest id c))) (buffer dc))
      (packet_length (wrequest id c)) ZFS_DC_SIZE (packet_length (wrequest id c))).
    cbn [cur_length buffer]. split_and!; [|done|].
    + unfold client_call. rewrite E1. cbn [mbind res_bind]. unfold ignoring in E2.
      destruct (encode_direction _ dc1) as [[dc3 r3]| |]; cbn [mbind res_bind] in *; [|done|done].
      destruct (encode_request_id id dc3) as [[dc4 r4]| |]; cbn [mbind res_bind] in *; [|done|done].
      destruct (encode_function _ dc4) as [[dc5 r5]| |]; cbn [mbind res_bind] in *; [|done|done].
      rewrite E2. cbn [mbind res_bind negb]. by rewrite E3.
    + apply take_app_length'. unfold packet, packet_length. rewrite length_app, length_le_bytes. lia.
Qed.

Lemma packet_holds buf w :
  holds_at buf 0 (packet w) <-> holds_at buf 0 (le_bytes 4 (packet_length w)) /\ holds_at buf 4 (w 4).
Proof. unfold packet. rewrite holds_at_app by lia. by rewrite length_le_bytes. Qed.

Lemma dec_wf_at buf p m :
  buffer_ok buf -> 0 <= p <= ZFS_DC_SIZE -> m <= ZFS_DC_SIZE -> dec_wf (MkDC buf p m p).
Proof. intros [Hl Hb] Hp Hm. split; cbn; done || lia. Qed.

Lemma start_decoding_ok buf w :
  buffer_ok buf -> holds_at buf 0 (packet w) -> packet_length w <= ZFS_DC_SIZE ->
  start_decoding (MkDC buf 0 0 0) = Ok (MkDC buf 4 (packet_length w) 4, true).
Proof.
  intros Hbuf [Hh _]%packet_holds Hl. unfold start_decoding.
  assert (is_uint 32 (packet_length w)) as Hu by (unfold is_uint, packet_length, ZFS_DC_SIZE in *; lia).
  rewrite (codec_get _ _ _ _ uint32_codec _ Hu).
  - cbn [mbind res_bind buffer cur_pos cur_length max_length]. by rewrite (proj2 (Z.leb_le _ _) Hl).
  - apply dec_wf_at; [done|unfold ZFS_DC_SIZE; lia..].
  - cbn [cur_pos max_length]. rewrite wint4_aligned, length_le_bytes. lia.
  - done.
Qed.

(** Decoding one more field of a packet that holds the wire format. *)
Lemma decode_step {A} (d : decoder A) (v : A) buf p n (w1 w2 : wire) :
  buffer_ok buf -> 0 <= p -> n <= ZFS_DC_SIZE -> dec_get d w1 v ->
  holds_at buf p ((w1 ⊕ w2) p) -> p + Z.of_nat (length ((w1 ⊕ w2) p)) <= n ->
  exists p', d (MkDC buf p n p) = Ok (MkDC buf p' n p', Some v) /\ 0 <= p' /\
    holds_at buf p' (w2 p') /\
    p' + Z.of_nat (length (w2 p')) = p + Z.of_nat (length ((w1 ⊕ w2) p)).
Proof.
  intros Hbuf Hp Hn Hd Hh Hfit. unfold wcat in Hh, Hfit |- *. apply holds_at_app in Hh as [H1 H2]; [|done].
  rewrite length_app in Hfit |- *. exists (p + Z.of_nat (length (w1 p))).
  split_and!; [|lia|done|lia].
  rewrite Hd; [done|apply dec_wf_at; [done|lia|done]|cbn; lia|done].
Qed.

(** What the server functions promise: they encode a reply into the buffer. *)
Definition server_ok (server : call -> DC -> res DC) : Prop := forall c dc,
  call_ok c -> enc_wf dc ->
  exists dc', server c dc = Ok dc' /\ length (buffer dc') = length (buffer dc).

Lemma reply_header_ok dc id :
  ZFS_DC_SIZE <= Z.of_nat (length (buffer dc)) -> is_uint 32 id ->
  exists dc1 dc2 dc3 r2 r3, start_encoding dc = Ok dc1 /\ encode_direction DIR_REPLY dc1 = Ok (dc2, r2) /\
    encode_request_id id dc2 = Ok (dc3, r3) /\ enc_wf dc3 /\ length (buffer dc3) = length (buffer dc).
Proof.
  intros Hb Hid. set (dc1 := MkDC (le_bytes 4 0 ++ drop 4 (buffer dc)) 4 ZFS_DC_SIZE 4).
  assert (length (buffer dc1) = length (buffer dc)) as Hlen.
  { unfold dc1, ZFS_DC_SIZE in *. cbn [buffer]. rewrite length_app, length_le_bytes, length_drop. lia. }
  assert (enc_wf dc1) as Hwf1.
  { split; [done|cbn; unfold ZFS_DC_SIZE; lia|done|]. rewrite Hlen. done. }
  assert (cur_pos dc1 + Z.of_nat (length (wdirection DIR_REPLY 4)) <= max_length dc1) as Hf1 by (by vm_compute).
  assert (Z.of_nat (length (wint 4 id 5)) = 7) as Hl2 by (by rewrite length_wint by apply size4).
  eexists dc1, _, _, _, _. split; [by apply start_encoding_ok|].
  split; [by apply (codec_put _ _ _ _ direction_codec)|].
  split; [apply (codec_put _ _ _ _ uint32_codec); [done|by apply put_wf|]|].
  - change (cur_pos (put dc1 (wdirection DIR_REPLY (cur_pos dc1)))) with 5. rewrite Hl2. by vm_compute.
  - set (dc2 := put dc1 _) in *. assert (enc_wf dc2) as Hwf2 by (by apply put_wf).
    assert (length (buffer dc2) = length (buffer dc)) as Hlen2 by (unfold dc2; by rewrite length_put).
    assert (cur_pos dc2 + Z.of_nat (length (wint 4 id (cur_pos dc2))) <= max_length dc2).
    { change (cur_pos dc2) with 5. rewrite Hl2. by vm_compute. }
    split; [by apply put_wf|]. rewrite length_put; done.
Qed.

Lemma finish_encoding_total dc :
  4 <= Z.of_nat (length (buffer dc)) -> exists dc' n, finish_encoding dc = Ok (dc', n).
Proof.
  intros H. unfold finish_encoding. rewrite store_ok by (rewrite ?length_le_bytes; lia). eexists _, _. done.
Qed.

(** An error reply is well-formed. *)
Lemma send_error_reply_packet dc id status :
  ZFS_DC_SIZE <= Z.of_nat (length (buffer dc)) -> is_uint 32 id -> is_int 32 status ->
  exists dc', send_error_reply dc id status = Ok (Replied status dc') /\
    cur_length dc' = packet_length (werror id status) /\
    take (Z.to_nat (cur_length dc')) (buffer dc') = packet (werror id status).
Proof.
  intros Hb Hid Hst. set (w := werror id status).
  destruct (encode_packet dc (encode_direction DIR_REPLY ;;; encode_request_id id ;;; encode_status status) w Hb)
    as (dc1 & dc2 & E1 & E2 & E3).
  - apply enc_put_ignoring; [by apply (codec_put _ _ _ _ direction_codec)|].
    apply enc_put_ignoring; [by apply (codec_put _ _ _ _ uint32_codec)|].
    by apply (codec_put _ _ _ _ int32_codec).
  - assert (bounded w (1 + (7 + 7))) as H.
    { apply bounded_cat; [apply (bounded_int 1), size1|].
      apply bounded_cat; [apply (bounded_int 4), size4|apply (bounded_int 4), size4]. }
    specialize (H 4). unfold packet_length, ZFS_DC_SIZE. lia.
  - eexists. split; [|split].
    + unfold send_error_reply. rewrite E1. cbn [mbind res_bind]. unfold ignoring in E2.
      destruct (encode_direction _ dc1) as [[dc3 r3]| |]; cbn [mbind res_bind] in *; [|done|done].
      destruct (encode_request_id id dc3) as [[dc4 r4]| |]; cbn [mbind res_bind] in *; [|done|done].
      rewrite E2. cbn [mbind res_bind]. rewrite E3. done.
    + done.
    + cbn [cur_length buffer]. apply take_app_length'. unfold packet, packet_length.
      rewrite length_app, length_le_bytes. lia.
Qed.

Section server_lemmas.
Context (server : call -> DC -> res DC) (Hserver : server_ok server).

Lemma serve_ok auth dc dc1 id fn d c :
  ZFS_DC_SIZE <= Z.of_nat (length (buffer dc1)) -> is_uint 32 id -> call_ok c ->
  proc_auth fn <= auth -> d dc = Ok (dc1, Some c) -> finish_decoding dc1 = true -> enc_wf dc1 ->
  exists reply, serve server auth (proc_mode fn) dc id fn d = Ok (Served id c reply) /\
    (reply = None <-> proc_mode fn = DIR_ONEWAY).
Proof.
  intros Hb Hid Hc Hauth Hd Hfin Hwf. unfold serve.
  rewrite bool_decide_eq_true_2 by done. cbn [negb]. rewrite ltb_false by lia.
  rewrite Hd. cbn [mbind res_bind]. rewrite Hfin. unfold is_request. case_bool_decide as Hm.
  - destruct (reply_header_ok dc1 id Hb Hid) as (a1 & a2 & a3 & r2 & r3 & E1 & E2 & E3 & Hwf3 & Hl3).
    rewrite E1. cbn [mbind res_bind]. rewrite E2. cbn [mbind res_bind]. rewrite E3. cbn [mbind res_bind].
    destruct (Hserver c a3 Hc Hwf3) as (a4 & E4 & Hl4). rewrite E4. cbn [mbind res_bind].
    destruct (finish_encoding_total a4) as (a5 & n & E5).
    { rewrite Hl4, Hl3. unfold ZFS_DC_SIZE in Hb. lia. }
    rewrite E5. cbn [mbind res_bind]. eexists. split; [done|]. by rewrite Hm.
  - destruct (Hserver c dc1 Hc Hwf) as (a4 & E4 & Hl4). rewrite E4. cbn [mbind res_bind].
    eexists. split; [done|]. unfold proc_mode in *. by destruct (fn =? 25).
Qed.

Lemma receive_request auth buf id c :
  buffer_ok buf -> is_uint 32 id -> call_ok c -> proc_auth (proc_number c) <= auth ->
  holds_at buf 0 (packet (wrequest id c)) ->
  exists reply, receive server auth buf = Ok (Served id c reply) /\
    (reply = None <-> proc_mode (proc_number c) = DIR_ONEWAY).
Proof.
  intros Hbuf Hid Hc Hauth Hh. set (n := packet_length (wrequest id c)).
  assert (n <= ZFS_DC_SIZE) as Hn by (by apply packet_fits).
  unfold receive. rewrite (start_decoding_ok buf _ Hbuf Hh Hn). fold n. cbn [mbind res_bind].
  apply packet_holds in Hh as [_ Hh]. unfold network_dispatch. cbn [cur_length Z.eqb Pos.eqb negb].
  assert (4 + Z.of_nat (length (wrequest id c 4)) = n) as Hlen by done.
  unfold wrequest, whead in Hh, Hlen.
  assert (is_uint 32 (proc_number c)) as Hfn by (unfold is_uint; destruct c; cbn; lia).
  destruct (decode_step decode_direction (proc_mode (proc_number c)) buf 4 n _ _ Hbuf ltac:(lia) Hn
    (codec_get _ _ _ _ direction_codec _ I) Hh ltac:(lia)) as (p1 & -> & Hp1 & Hh1 & Hl1).
  cbn [mbind res_bind].
  assert (exists reply, network_worker server auth (proc_mode (proc_number c)) (MkDC buf p1 n p1) =
    Ok (Served id c reply) /\ (reply = None <-> proc_mode (proc_number c) = DIR_ONEWAY)) as Hw.
  { unfold network_worker.
    destruct (decode_step decode_request_id id buf p1 n _ _ Hbuf Hp1 Hn
      (codec_get _ _ _ _ uint32_codec _ Hid) Hh1 ltac:(lia)) as (p2 & -> & Hp2 & Hh2 & Hl2).
    cbn [mbind res_bind max_length]. rewrite ltb_false by done.
    destruct (decode_step decode_function (proc_number c) buf p2 n _ _ Hbuf Hp2 Hn
      (codec_get _ _ _ _ uint32_codec _ Hfn) Hh2 ltac:(lia)) as (p3 & -> & Hp3 & Hh3 & Hl3).
    assert (p3 + Z.of_nat (length (wargs c p3)) = n) as Hl4 by lia.
    cbn [mbind res_bind]. destruct (decode_args_get c Hc) as (d & Ed & Hd). rewrite Ed.
    destruct Hbuf as [Hb1 Hb2].
    pose proof (Hd (MkDC buf p3 n p3)) as Hd'. cbn [cur_pos max_length buffer] in Hd'. rewrite Hl4 in Hd'.
    eapply serve_ok; [..|apply Hd'; [apply dec_wf_at; [by split|lia|done]|done|done]| |]; try done.
    - cbn. lia.
    - by apply Z.eqb_eq.
    - split; cbn; lia. }
  by destruct (proc_mode (proc_number c)) eqn:Em; [|unfold proc_mode in Em; destruct (_ =? 25)|].
Qed.

(** What may come out of the receiving side, for a connection of level [auth]. *)
Definition outcome_ok (auth : Z) (out : outcome) : Prop :=
  match out with
  | Served id c reply =>
      call_ok c /\ proc_auth (proc_number c) <= auth /\
      (reply = None <-> proc_mode (proc_number c) = DIR_ONEWAY)
  | Replied status dc => exists id, is_uint 32 id /\
      take (Z.to_nat (cur_length dc)) (buffer dc) = packet (werror id status)
  | Dropped | IsReply _ _ => True
  end.

Lemma error_if_ok auth cond dc id status :
  ZFS_DC_SIZE <= Z.of_nat (length (buffer dc)) -> is_uint 32 id -> is_int 32 status ->
  exists out, error_if cond dc id status = Ok out /\ outcome_ok auth out.
Proof.
  intros Hb Hid Hst. unfold error_if. destruct cond; [|by eexists].
  destruct (send_error_reply_packet dc id status Hb Hid Hst) as (dc' & -> & _ & Hp).
  eexists. split; [done|]. cbn. eauto.
Qed.

Lemma serve_safe auth dir dc id fn d :
  dec_wf dc -> is_uint 32 id -> dec_safe d (fun c => call_ok c /\ proc_number c = fn) ->
  exists out, serve server auth dir dc id fn d = Ok out /\ outcome_ok auth out.
Proof.
  intros Hwf Hid Hd. pose proof (dec_room _ Hwf) as Hroom.
  destruct (Hd dc Hwf) as (dc1 & r & Er & Em & El & Hr). pose proof Er as Er'.
  unfold serve. case_bool_decide as Hdir; cbn [negb]; [|by apply error_if_ok].
  case_if; [by apply error_if_ok|]. rewrite Er. cbn [mbind res_bind].
  destruct r as [c|]; [|by apply error_if_ok; rewrite ?El].
  destruct (Hr c eq_refl) as [[Hc Hn] Hwf1].
  destruct (finish_decoding dc1) eqn:Ef; [|by apply error_if_ok; rewrite ?El].
  assert (enc_wf dc1) as Hewf.
  { apply Z.eqb_eq in Ef. destruct Hwf1 as [? ? ? ? _]. split; lia. }
  destruct (serve_ok auth dc dc1 id fn d c) as (reply & E' & Hre); [rewrite El; done|done|done|lia|done|done|done|].
  exists (Served id c reply). split.
  - rewrite <-E'. unfold serve. rewrite bool_decide_eq_true_2 by done. cbn [negb].
    rewrite ltb_false by lia. rewrite Er. cbn [mbind res_bind]. by rewrite Ef.
  - cbn. rewrite Hn. split_and!; [done|lia|done].
Qed.

(** The header is inside the buffer even when the packet claims to be longer. *)
Lemma decode_simple_near S conv (Q : Z -> Prop) buf p m :
  is_size S -> buffer_ok buf -> 0 <= p -> ALIGN S p + S <= ZFS_DC_SIZE ->
  (forall z, 0 <= z < 2 ^ (8 * S) -> Q (conv z)) ->
  exists dc' r, decode_simple S conv (MkDC buf p m p) = Ok (dc', r) /\
    forall v, r = Some v -> Q v /\ dc' = MkDC buf (ALIGN S p + S) m (ALIGN S p + S).
Proof.
  intros HS [Hl Hb] Hp Hnear HQ. pose proof (ALIGN_bounds S p HS) as [Ha _].
  pose proof (size_bound S HS). unfold ZFS_DC_SIZE in *. unfold decode_simple.
  cbn [set_cur_length cur_length max_length cur_pos buffer]. rewrite u32_small by lia. case_if.
  - by eexists _, None.
  - rewrite load_ok by lia. cbn [mbind res_bind]. eexists _, _. split; [done|].
    intros v [= <-]. split; [|done]. apply HQ. set (l := take _ _).
    assert (length l = Z.to_nat S) as El by (unfold l; rewrite length_take, length_drop; lia).
    pose proof (le_value_range l) as Hr. rewrite El, Z2Nat.id in Hr by lia. apply Hr.
    by apply Forall_take, Forall_drop.
Qed.

Lemma decode_direction_near buf m :
  buffer_ok buf ->
  exists dc' r, decode_direction (MkDC buf 4 m 4) = Ok (dc', r) /\
    forall dir, r = Some dir -> dc' = MkDC buf 5 m 5.
Proof.
  intros Hbuf. unfold decode_direction, decode_enum, mbind, decoder_bind, decode_uchar.
  destruct (decode_simple_near 1 id (is_uint 8) buf 4 m size1 Hbuf ltac:(lia)) as (dc1 & r & -> & Hr);
    [by vm_compute|done|]. destruct r as [v|]; [|by eexists _, None].
  destruct (Hr v eq_refl) as [_ ->]. by eexists _, _.
Qed.

Lemma network_worker_safe auth dir buf m :
  buffer_ok buf ->
  exists out, network_worker server auth dir (MkDC buf 5 m 5) = Ok out /\ outcome_ok auth out.
Proof.
  intros Hbuf. unfold network_worker, decode_request_id, decode_function.
  unfold decode_uint32_t. destruct (decode_simple_near 4 id (is_uint 32) buf 5 m size4 Hbuf ltac:(lia)) as (dc1 & r & -> & Hr);
    [by vm_compute|done|]. cbn [mbind res_bind]. destruct r as [rid|]; [|by eexists].
  destruct (Hr rid eq_refl) as [Hid ->]. change (ALIGN 4 5 + 4) with 12. cbn [max_length].
  assert (ZFS_DC_SIZE <= Z.of_nat (length buf)) as Hl by (destruct Hbuf; lia).
  case_if; [by apply error_if_ok|].
  assert (dec_wf (MkDC buf 12 m 12)) as Hwf by (apply dec_wf_at; [done|unfold ZFS_DC_SIZE; lia|done]).
  destruct (decode_simple_safe 4 id (is_uint 32) size4 (fun z H => H) _ Hwf) as (dc2 & r2 & -> & Em & El & Hr2).
  cbn [mbind res_bind buffer max_length] in *. assert (ZFS_DC_SIZE <= Z.of_nat (length (buffer dc2)))
    as Hl2 by (by rewrite El). destruct r2 as [fn|]; [|by apply error_if_ok].
  destruct (Hr2 fn eq_refl) as [_ Hwf2]. destruct (decode_args fn) as [d|] eqn:Ed; [|by apply error_if_ok].
  apply serve_safe; [done|done|by apply decode_args_safe].
Qed.

Lemma network_dispatch_safe auth buf m :
  buffer_ok buf ->
  exists out, network_dispatch server auth (MkDC buf 4 m 4) = Ok out /\ outcome_ok auth out.
Proof.
  intros Hbuf. unfold network_dispatch. cbn [cur_length]. change (negb (4 =? 4)) with false. cbv iota.
  destruct (decode_direction_near buf m Hbuf) as (dc1 & r & -> & Hr). cbn [mbind res_bind].
  destruct r as [dir|]; [|by eexists]. rewrite (Hr dir eq_refl).
  destruct dir; [by apply network_worker_safe| |by apply network_worker_safe].
  destruct (decode_simple_near 4 id (is_uint 32) buf 5 m size4 Hbuf ltac:(lia)) as (dc2 & r2 & E & _);
    [by vm_compute|done|]. unfold decode_request_id, decode_uint32_t. rewrite E. destruct r2; by eexists.
Qed.

(** *** Reading the packets of a connection *)

Definition length_field (s : list Z) : Z := le_value (take 4 s).

Lemma start_decoding_length buf p m l :
  buffer_ok buf -> exists b, start_decoding (MkDC buf p m l) = Ok (MkDC buf 4 (length_field buf) 4, b).
Proof.
  intros [Hl _]. unfold start_decoding, decode_uint32_t, decode_simple, ZFS_DC_SIZE in *.
  cbn [set_cur_length cur_length max_length cur_pos buffer]. change (u32 (ALIGN 4 0 + 4)) with 4.
  change (4 <? 4) with false. cbv iota. change (ALIGN 4 0) with 0.
  rewrite load_ok by lia. eexists. done.
Qed.

(** The length fields a connection may send: at least 4, and below 2^31 after the
    twelve bytes of the header that are kept of a packet that is too long. *)
Definition length_in_range (m : Z) : Prop := 4 <= m < 2 ^ 31 + 12.

(** Every packet that begins in the stream has a length in that range. *)
Inductive stream_ok : list Z -> Prop :=
  | stream_end s : (length s < 4)%nat -> stream_ok s
  | stream_packet s :
      (4 <= length s)%nat -> length_in_range (length_field s) ->
      stream_ok (drop (Z.to_nat (length_field s)) s) -> stream_ok s.

(** How much of a packet of length [m] the buffer keeps. *)
Definition kept (m : Z) : Z := if m <=? ZFS_DC_SIZE then m else 12.

(** The state of a connection on which the bytes [r] follow the last packet:
    [n] of them are read, and the buffer holds those it keeps. *)
Record reading (r : list Z) (n : Z) (dc : DC) : Prop := {
  reading_buffer : buffer_ok (buffer dc);
  reading_pos : 0 <= n <= Z.of_nat (length r);
  reading_len : 4 <= n -> n <= length_field r /\ dc = MkDC (buffer dc) 4 (length_field r) 4;
  reading_kept : let k := Z.to_nat (if n <? 4 then n else Z.min n (kept (length_field r))) in
    take k (buffer dc) = take k r }.

(** A whole packet has been taken from [r] and dispatched. *)
Definition dispatched (auth : Z) (pkt : list Z) (out : outcome) : Prop :=
  exists buf, buffer_ok buf /\
    take (Z.to_nat (kept (length_field pkt))) buf = take (Z.to_nat (kept (length_field pkt))) pkt /\
    receive server auth buf = Ok out /\ outcome_ok auth out.

Lemma store_prefix buf (r b : list Z) o n :
  buffer_ok buf -> Forall is_byte r -> 0 <= o -> take (Z.to_nat o) buf = take (Z.to_nat o) r ->
  b = take n (drop (Z.to_nat o) r) -> o + Z.of_nat (length b) <= ZFS_DC_SIZE ->
  exists buf', store buf o b = Ok buf' /\ buffer_ok buf' /\
    take (Z.to_nat o + length b) buf' = take (Z.to_nat o + length b) r.
Proof.
  intros [Hl Hb] Hr Ho Ht Eb Hf. rewrite store_ok by lia. eexists. split; [done|].
  assert (length (take (Z.to_nat o) buf) = Z.to_nat o) as El by (rewrite length_take; lia).
  split; [split|].
  - rewrite !length_app, El, length_drop. lia.
  - apply Forall_app. split; [by apply Forall_take|]. apply Forall_app. split; [|by apply Forall_drop].
    rewrite Eb. by apply Forall_take, Forall_drop.
  - rewrite app_assoc, take_app_length' by (rewrite length_app, El; lia). rewrite Ht, Eb.
    rewrite <-(take_take_drop r (Z.to_nat o)). f_equal. rewrite length_take. symmetry.
    destruct (decide (n <= length (drop (Z.to_nat o) r))%nat).
    + by rewrite Nat.min_l by lia.
    + by rewrite Nat.min_r, !take_ge by lia.
Qed.

Lemma length_field_take a b n : (4 <= n)%nat -> take n a = take n b -> length_field a = length_field b.
Proof.
  intros Hn H. unfold length_field. f_equal. apply (f_equal (take 4)) in H.
  by rewrite !take_take, !Nat.min_l in H by done.
Qed.

Lemma sys_read_length size n s :
  0 <= size < 2 ^ 64 -> exists k, sys_read size n s = take k s /\ Z.of_nat (length (sys_read size n s)) <= size.
Proof.
  intros H. unfold sys_read. rewrite (Z.mod_small size) by done. eexists. split; [done|].
  rewrite length_take. lia.
Qed.

Lemma fetch_buffer (dc : DC) (r : list Z) rd size n :
  buffer_ok (buffer dc) -> Forall is_byte r -> 0 <= rd -> 0 <= size -> rd + size <= ZFS_DC_SIZE ->
  take (Z.to_nat rd) (buffer dc) = take (Z.to_nat rd) r ->
  let b := sys_read size n (drop (Z.to_nat rd) r) in
  Z.of_nat (length b) <= size /\ (exists k, b = take k (drop (Z.to_nat rd) r)) /\
  exists buf, store (buffer dc) rd b = Ok buf /\ buffer_ok buf /\
    take (Z.to_nat (rd + Z.of_nat (length b))) buf = take (Z.to_nat (rd + Z.of_nat (length b))) r.
Proof.
  intros Hbuf Hr Hrd Hs Hf Ht b. unfold ZFS_DC_SIZE in *.
  destruct (sys_read_length size n (drop (Z.to_nat rd) r) ltac:(lia)) as (k & Eb & Hl). fold b in Eb, Hl.
  destruct (store_prefix (buffer dc) r b rd k) as (buf & E & Hb & Hk); try done.
  { unfold ZFS_DC_SIZE. lia. }
  split_and!; [done|by exists k|]. exists buf. split_and!; [done|done|].
  by rewrite Z2Nat.inj_add, Nat2Z.id by lia.
Qed.

(** One [read] stays inside its buffer and brings the next bytes of the packet. *)
Lemma fetch_ok n r f :
  reading r (fd_read f) (fd_dc f) -> incoming f = drop (Z.to_nat (fd_read f)) r -> Forall is_byte r ->
  ((4 <= length r)%nat -> length_in_range (length_field r)) ->
  exists buf b, fetch n f = Ok (MkDC buf (cur_pos (fd_dc f)) (max_length (fd_dc f)) (cur_length (fd_dc f)), b) /\
    (exists k, b = take k (incoming f)) /\ buffer_ok buf /\
    fd_read f + Z.of_nat (length b) <= (if fd_read f <? 4 then 4 else length_field r) /\
    let m := Z.to_nat (let e := fd_read f + Z.of_nat (length b) in
                       if fd_read f <? 4 then e else Z.min e (kept (length_field r))) in
    take m buf = take m r.
Proof.
  intros [Hbuf Hpos Hlen Hk] Hin Hr Hrange. unfold fetch, next_read. destruct f as [dc rd inc].
  cbn [fd_dc fd_read incoming] in *. subst inc. unfold kept in *.
  destruct (rd <? 4) eqn:E4.
  { apply Z.ltb_lt in E4. rewrite u32_small by lia.
    destruct (fetch_buffer dc r rd (4 - rd) n) as (Hl & Hb & buf & -> & Hbuf' & Ht); try done.
    1-3: unfold ZFS_DC_SIZE; lia. cbn [mbind res_bind]. eexists _, _. split_and!; try done. lia. }
  apply Z.ltb_ge in E4. destruct (Hlen E4) as [Hm Edc].
  assert (length_in_range (length_field r)) as [Hlo Hhi] by (apply Hrange; lia).
  assert (max_length dc = length_field r) as Em by (by rewrite Edc). rewrite Em.
  destruct (length_field r <=? ZFS_DC_SIZE) eqn:Ed.
  { apply Z.leb_le in Ed. unfold ZFS_DC_SIZE in Ed. rewrite u32_small by lia. rewrite Z.min_l in Hk by lia.
    destruct (fetch_buffer dc r rd (length_field r - rd) n) as (Hl & Hb & buf & -> & Hbuf' & Ht); try done.
    1-3: unfold ZFS_DC_SIZE; lia. cbn [mbind res_bind]. eexists _, _. split_and!; try done; [lia|].
    cbn zeta. by rewrite Z.min_l by lia. }
  apply Z.leb_gt in Ed. unfold ZFS_DC_SIZE in Ed. destruct (rd <? 12) eqn:E12.
  { apply Z.ltb_lt in E12. rewrite u32_small by lia. rewrite Z.min_l in Hk by lia.
    destruct (fetch_buffer dc r rd (12 - rd) n) as (Hl & Hb & buf & -> & Hbuf' & Ht); try done.
    1-3: unfold ZFS_DC_SIZE; lia. cbn [mbind res_bind]. eexists _, _. split_and!; try done; [lia|].
    cbn zeta. by rewrite Z.min_l by lia. }
  apply Z.ltb_ge in E12. rewrite Z.min_r in Hk by lia.
  set (l := signed 32 (u32 (length_field r - rd))). set (size := if ZFS_MAXDATA <? l then ZFS_MAXDATA else l).
  assert (l = length_field r - rd) as El.
  { unfold l. rewrite u32_small by lia. unfold signed. by rewrite ltb_true by lia. }
  assert (0 <= size <= ZFS_MAXDATA /\ size <= length_field r - rd) as Hs.
  { unfold size. destruct (Z.ltb_spec ZFS_MAXDATA l); unfold ZFS_MAXDATA in *; lia. }
  destruct (sys_read_length size n (drop (Z.to_nat rd) r)) as (k & Eb & Hl); [unfold ZFS_MAXDATA in Hs; lia|].
  rewrite store_ok; [|lia|unfold dummy; rewrite length_replicate; unfold ZFS_MAXDATA in *; lia].
  cbn [mbind res_bind]. exists (buffer dc), (sys_read size n (drop (Z.to_nat rd) r)).
  split_and!; [by rewrite <-Em; destruct dc|by exists k|done|lia|].
  cbn zeta. by rewrite Z.min_r by lia.
Qed.

Lemma network_main_read_ok t r f :
  reading r (fd_read f) (fd_dc f) -> incoming f = drop (Z.to_nat (fd_read f)) r -> Forall is_byte r ->
  ((4 <= length r)%nat -> length_in_range (length_field r)) ->
  exists p, network_main_read server t f = Ok p /\
    match p with
    | Closed => True
    | Waiting f => reading r (fd_read f) (fd_dc f) /\ incoming f = drop (Z.to_nat (fd_read f)) r
    | Dispatched out rest =>
        let m := length_field r in
        length_in_range m /\ m <= Z.of_nat (length r) /\ rest = drop (Z.to_nat m) r /\
        dispatched (level t) (take (Z.to_nat m) r) out
    end.
Proof.
  intros Hread Hin Hr Hrange. pose proof Hread as [Hbuf Hpos Hlen Hk].
  destruct (fetch_ok (count t) r f Hread Hin Hr Hrange) as (buf & b & E & [k Eb] & Hbuf' & Hle & Hk').
  unfold network_main_read. rewrite E. cbn [mbind res_bind].
  destruct (Z.eqb_spec (Z.of_nat (length b)) 0) as [E0|E0]; [by eexists|].
  set (n := fd_read f + Z.of_nat (length b)) in *.
  assert (n <= Z.of_nat (length r)) as Hn.
  { unfold n. rewrite Eb, Hin, length_take, length_drop. lia. }
  assert (drop (length b) (incoming f) = drop (Z.to_nat n) r) as Erest.
  { rewrite Hin, drop_drop. f_equal. unfold n. lia. }
  rewrite Erest. destruct (fd_read f <? 4) eqn:E4.
  { apply Z.ltb_lt in E4. rewrite (u32_small n) by lia. destruct (Z.eqb_spec n 4) as [En|En].
    - destruct (start_decoding_length buf (cur_pos (fd_dc f)) (max_length (fd_dc f)) (cur_length (fd_dc f)) Hbuf')
        as [b' ->]. cbn [mbind res_bind]. eexists. split; [done|]. cbn [fd_read fd_dc incoming].
      assert (length_field buf = length_field r) as El.
      { apply (length_field_take _ _ (Z.to_nat n)); [lia|done]. }
      assert (length_in_range (length_field r)) as [Hlo _] by (apply Hrange; lia).
      split; [|done]. split; [done|lia| |]; rewrite En in *.
      + intros _. cbn [buffer]. rewrite El. split; [lia|done].
      + cbn [buffer]. cbn zeta. change (4 <? 4) with false. cbv iota.
        replace (Z.min 4 (kept (length_field r))) with 4; [done|].
        unfold kept. destruct (_ <=? _); lia.
    - cbn [mbind res_bind]. eexists. split; [done|]. cbn [fd_read fd_dc incoming].
      split; [|done]. split; [done|lia|lia|]. cbn [buffer]. cbn zeta. by rewrite ltb_true by lia. }
  apply Z.ltb_ge in E4. destruct (Hlen E4) as [Hm Edc].
  assert (length_in_range (length_field r)) as Hm' by (apply Hrange; lia). pose proof Hm' as [Hlo Hhi].
  rewrite (u32_small n) by lia. assert (max_length (fd_dc f) = length_field r) as Em by (by rewrite Edc).
  assert (cur_pos (fd_dc f) = 4) as Ep by (by rewrite Edc).
  assert (cur_length (fd_dc f) = 4) as Ec by (by rewrite Edc).
  cbn [max_length]. rewrite Em, Ep, Ec. destruct (Z.eqb_spec (length_field r) n) as [En|En].
  - rewrite <-En in *. destruct (network_dispatch_safe (level t) buf (length_field r) Hbuf') as (out & E' & Hout).
    rewrite E'. cbn [mbind res_bind]. eexists. split; [done|]. cbn zeta. split_and!; [done|done|done|].
    assert (length_field (take (Z.to_nat (length_field r)) r) = length_field r) as El.
    { apply (length_field_take _ _ 4); [lia|]. by rewrite take_take, Nat.min_l by lia. }
    exists buf. rewrite El.
    assert (kept (length_field r) <= length_field r) as Hkl.
    { unfold kept. destruct (Z.leb_spec (length_field r) ZFS_DC_SIZE); unfold ZFS_DC_SIZE in *; lia. }
    assert (4 <= kept (length_field r)) as Hk4 by (unfold kept; destruct (_ <=? _); lia).
    rewrite Z.min_r in Hk' by done. split_and!; [done| | |done].
    + rewrite take_take, Nat.min_l by lia. done.
    + unfold receive. destruct (start_decoding_length buf 0 0 0 Hbuf') as [b' ->]. cbn [mbind res_bind].
      rewrite (length_field_take buf r (Z.to_nat (kept (length_field r)))) by (lia || done). done.
  - cbn [mbind res_bind]. eexists. split; [done|]. cbn [fd_read fd_dc incoming]. split; [|done].
    split; [done|lia| |].
    + intros _. cbn [buffer]. split; [lia|done].
    + cbn [buffer]. cbn zeta. by rewrite ltb_false by lia.
Qed.

(** The packets at the head of a stream, each dispatched as it was sent. *)
Definition served_packets (s : list Z) (pkts : list (list Z)) (rest : list Z) (outs : list (Z * outcome)) : Prop :=
  s = concat pkts ++ rest /\
  Forall2 (fun pkt '(auth, out) => length_field pkt = Z.of_nat (length pkt) /\ dispatched auth pkt out) pkts outs.

Lemma reading_nothing r dc : buffer_ok (buffer dc) -> reading r 0 dc.
Proof. intros H. split; [done|lia|lia|done]. Qed.

Lemma network_reads_ok ts : forall r f,
  Forall (fun t => buffer_ok (buffer (next_dc t))) ts -> Forall is_byte r -> stream_ok r ->
  reading r (fd_read f) (fd_dc f) -> incoming f = drop (Z.to_nat (fd_read f)) r ->
  exists outs f' pkts rest, network_reads server ts f = Ok (outs, f') /\ served_packets r pkts rest outs /\
    match f' with Some f' => incoming f' = drop (Z.to_nat (fd_read f')) rest | None => True end.
Proof.
  induction ts as [|t ts IH]; intros r f Hts Hr Hs Hread Hin; cbn [network_reads].
  { exists [], (Some f), [], r. split_and!; [done| |done]. split; [done|constructor]. }
  apply Forall_cons in Hts as [Ht Hts].
  assert ((4 <= length r)%nat -> length_in_range (length_field r)) as Hrange by (inversion Hs; [lia|done]).
  destruct (network_main_read_ok t r f Hread Hin Hr Hrange) as (p & -> & Hp). cbn [mbind res_bind].
  destruct p as [|f'|out rest].
  - exists [], None, [], r. split_and!; [done| |done]. split; [done|constructor].
  - destruct Hp as [Hread' Hin']. by apply IH.
  - destruct Hp as (Hm & Hl & -> & Hd). set (m := length_field r) in *. destruct Hm as [Hlo Hhi].
    assert (stream_ok (drop (Z.to_nat m) r)) as Hs' by (inversion Hs; [lia|done]).
    destruct (IH (drop (Z.to_nat m) r) (MkFdData (next_dc t) 0 (drop (Z.to_nat m) r))) as
      (outs & f' & pkts & rest & -> & [Epk Hall] & Hf'); try done.
    { by apply Forall_drop. } { by apply reading_nothing. }
    cbn [mbind res_bind]. exists ((level t, out) :: outs), f', (take (Z.to_nat m) r :: pkts), rest.
    split_and!; [done| |done]. split.
    + cbn [concat]. by rewrite <-app_assoc, <-Epk, take_drop.
    + constructor; [|done]. split; [|done]. rewrite length_take_le by lia.
      rewrite Z2Nat.id by lia. apply (length_field_take _ _ 4); [lia|]. by rewrite take_take, Nat.min_l by lia.
Qed.





End server_lemmas.

(** ** Properties *)

(** A server that replies [ZFS_OK] to everything, and an empty buffer. *)
Definition ok_server (c : call) (dc : DC) : res DC := '(dc, _) ← encode_status ZFS_OK dc; Ok dc.
Definition empty_buffer : list Z := replicate (Z.to_nat ZFS_DC_SIZE) 0.

Lemma ok_server_ok : server_ok ok_server.
Proof.
  intros c dc _ Hwf. unfold ok_server, encode_status, encode_int32_t.
  destruct (Z_lt_le_dec (max_length dc) (cur_pos dc + Z.of_nat (length (wint 4 ZFS_OK (cur_pos dc))))) as [H|H].
  - rewrite length_wint in H by apply size4. pose proof (ALIGN_bounds 4 (cur_pos dc) size4) as [? _].
    destruct Hwf as [Hs Hp Hm Hr]. unfold ZFS_DC_SIZE in *.
    unfold encode_simple. cbn [set_cur_length cur_length max_length].
    rewrite Hs, u32_small, ltb_true by lia. cbn. eauto.
  - rewrite (encode_simple_put 4 ZFS_OK size4 dc Hwf H). cbn [mbind res_bind]. eexists. split; [done|].
    by apply length_put.
Qed.

Lemma empty_buffer_ok : buffer_ok empty_buffer.
Proof.
  unfold empty_buffer. split; [rewrite length_replicate; unfold ZFS_DC_SIZE; lia|].
  apply Forall_replicate. unfold is_byte. lia.
Qed.

(** C1. A remote call arrives as it was made: for every procedure and all
    arguments within the protocol's limits the client's packet fits, and a server
    that receives those bytes on a sufficiently authenticated connection enters
    the server function with exactly the request id and arguments of the caller;
    it replies unless the procedure is one-way. *)
Theorem call_roundtrip (server : call -> DC -> res DC) (dc_call : DC) (buf : list Z) (auth id : Z)
    (c : call) :
  server_ok server -> ZFS_DC_SIZE <= Z.of_nat (length (buffer dc_call)) -> call_ok c -> is_uint 32 id ->
  proc_auth (proc_number c) <= auth -> buffer_ok buf ->
  exists pkt, client_call dc_call id c = Ok (Packet pkt) /\ cur_length pkt <= ZFS_DC_SIZE /\
    (take (Z.to_nat (cur_length pkt)) buf = take (Z.to_nat (cur_length pkt)) (buffer pkt) ->
     exists reply, receive server auth buf = Ok (Served id c reply) /\
       (reply = None <-> proc_mode (proc_number c) = DIR_ONEWAY)).
Proof.
  intros Hs Hdc Hc Hid Hauth Hbuf.
  destruct (client_call_packet dc_call id c Hdc Hc Hid) as (pkt & E & El & Ep).
  exists pkt. split_and!; [done|rewrite El; by apply packet_fits|].
  intros Ht. apply receive_request; try done. unfold holds_at. rewrite Ep in Ht.
  change (Z.to_nat 0) with 0%nat. rewrite drop_0, <-Ht, length_take.
  assert (length (packet (wrequest id c)) = Z.to_nat (cur_length pkt)) as Hl.
  { rewrite El. unfold packet, packet_length. rewrite length_app, length_le_bytes. lia. }
  f_equal. apply (f_equal length) in Ht. rewrite length_take in Ht. lia.
Qed.

Lemma call_roundtrip_witness :
  let c := CALL_OPEN (MkOpen (MkFh 1 2 3 4 5) 0) in
  exists pkt, client_call (MkDC empty_buffer 0 0 0) 77 c = Ok (Packet pkt) /\ cur_length pkt <= ZFS_DC_SIZE /\
    (take (Z.to_nat (cur_length pkt)) empty_buffer = take (Z.to_nat (cur_length pkt)) (buffer pkt) ->
     exists reply, receive ok_server AUTHENTICATION_FINISHED empty_buffer = Ok (Served 77 c reply) /\
       (reply = None <-> proc_mode (proc_number c) = DIR_ONEWAY)).
Proof.
  intros c. apply (call_roundtrip ok_server (MkDC empty_buffer 0 0 0) empty_buffer AUTHENTICATION_FINISHED 77 c).
  - apply ok_server_ok.
  - cbn [buffer]. destruct empty_buffer_ok as [-> _]. lia.
  - unfold c, call_ok, open_ok, fh_ok, is_uint. cbn. lia.
  - unfold is_uint. lia.
  - unfold c. cbn. unfold AUTHENTICATION_FINISHED. lia.
  - apply empty_buffer_ok.
Defined.

(** C2. A connection on which every packet declares a length of at least 4 and
    below 2^31 + 12: however the kernel cuts the bytes it hands over, reading stays
    inside the packet buffer and the dummy buffer and returns; the packets are
    dispatched whole and in the order they were sent; a server function is entered
    only with well-formed arguments, on a connection with the procedure's
    authentication level, and every error reply is a well-formed packet that names
    the request. *)
Theorem receive_total_and_authorised (server : call -> DC -> res DC) (ts : list turn) (dc : DC) (s : list Z) :
  server_ok server -> buffer_ok (buffer dc) -> Forall (fun t => buffer_ok (buffer (next_dc t))) ts ->
  Forall is_byte s -> stream_ok s ->
  exists outs f pkts rest, network_reads server ts (MkFdData dc 0 s) = Ok (outs, f) /\
    s = concat pkts ++ rest /\
    match f with Some f => incoming f = drop (Z.to_nat (fd_read f)) rest | None => True end /\
    Forall2 (fun pkt '(auth, out) =>
      length_field pkt = Z.of_nat (length pkt) /\
      exists buf, buffer_ok buf /\
        take (Z.to_nat (kept (length_field pkt))) buf = take (Z.to_nat (kept (length_field pkt))) pkt /\
        receive server auth buf = Ok out /\
        match out with
        | Served id c reply =>
            call_ok c /\ proc_auth (proc_number c) <= auth /\
            (reply = None <-> proc_mode (proc_number c) = DIR_ONEWAY)
        | Replied status dc => exists id, is_uint 32 id /\
            take (Z.to_nat (cur_length dc)) (buffer dc) = packet (werror id status)
        | Dropped | IsReply _ _ => True
        end) pkts outs.
Proof.
  intros Hsv Hb Hts Hs Hok.
  destruct (network_reads_ok server Hsv ts s (MkFdData dc 0 s)) as (outs & f & pkts & rest & E & [Hs' Hall] & Hf);
    try done; [by apply reading_nothing|]. exists outs, f, pkts, rest. done.
Qed.

(** A ping of no bytes, followed by the first bytes of another packet, handed over
    three bytes at a time. *)
Definition ping_stream : list Z := packet (wrequest 7 (CALL_PING (MkData 0 (Elsewhere [])))) ++ [24; 0].
Definition three_at_a_time : list turn := replicate 9 (MkTurn 3 AUTHENTICATION_FINISHED (MkDC empty_buffer 0 0 0)).

(** The ping is served once its last byte has arrived, and the next packet begins. *)
Example ping_is_served :
  match network_reads ok_server three_at_a_time (MkFdData (MkDC empty_buffer 0 0 0) 0 ping_stream) with
  | Ok ([(_, Served id (CALL_PING d) (Some _))], Some f) => (id, data_len d, fd_read f, incoming f)
  | _ => (0, 0, 0, [])
  end = (7, 0, 2, []).
Proof. vm_compute. reflexivity. Qed.

Lemma receive_total_and_authorised_witness :
  exists outs f pkts rest,
    network_reads ok_server three_at_a_time (MkFdData (MkDC empty_buffer 0 0 0) 0 ping_stream) = Ok (outs, f) /\
    ping_stream = concat pkts ++ rest /\
    match f with Some f => incoming f = drop (Z.to_nat (fd_read f)) rest | None => True end /\
    Forall2 (fun pkt '(auth, out) =>
      length_field pkt = Z.of_nat (length pkt) /\
      exists buf, buffer_ok buf /\
        take (Z.to_nat (kept (length_field pkt))) buf = take (Z.to_nat (kept (length_field pkt))) pkt /\
        receive ok_server auth buf = Ok out /\
        match out with
        | Served id c reply =>
            call_ok c /\ proc_auth (proc_number c) <= auth /\
            (reply = None <-> proc_mode (proc_number c) = DIR_ONEWAY)
        | Replied status dc => exists id, is_uint 32 id /\
            take (Z.to_nat (cur_length dc)) (buffer dc) = packet (werror id status)
        | Dropped | IsReply _ _ => True
        end) pkts outs.
Proof.
  apply (receive_total_and_authorised ok_server three_at_a_time (MkDC empty_buffer 0 0 0) ping_stream).
  - apply ok_server_ok.
  - apply empty_buffer_ok.
  - apply Forall_replicate, empty_buffer_ok.
  - apply (bool_decide_unpack _). vm_compute. exact I.
  - apply stream_packet; [vm_compute; lia|unfold length_in_range; vm_compute; split; congruence|].
    apply stream_end. vm_compute. lia.
Defined.

(** While a packet of declared length at least 4 is being read, no [read] call
    can write past the packet buffer, nor past the dummy buffer as long as the
    rest of the packet is below 2^31. *)
Theorem next_read_in_bounds (max_length read : Z) :
  is_uint 32 max_length -> 4 <= max_length -> 0 <= read <= max_length -> max_length - read < 2 ^ 31 ->
  match next_read max_length read with
  | ToBuffer offset size => 0 <= size /\ offset + size <= ZFS_DC_SIZE /\ offset + size <= max_length
  | ToDummy size => 0 <= size <= ZFS_MAXDATA
  end.
Proof.
  unfold is_uint, next_read, ZFS_DC_SIZE, ZFS_MAXDATA, signed. intros.
  repeat case_if; rewrite ?u32_small in * by lia; lia.
Qed.

Lemma next_read_in_bounds_witness :
  match next_read 100 4 with
  | ToBuffer offset size => 0 <= size /\ offset + size <= ZFS_DC_SIZE /\ offset + size <= 100
  | ToDummy size => 0 <= size <= ZFS_MAXDATA
  end.
Proof. apply (next_read_in_bounds 100 4); unfold is_uint; lia. Defined.

(** A packet whose length field is below 4 makes the next [read] ask for almost
    4 GB at offset 4 of the 8888-byte buffer: the subtraction wraps around. *)
Theorem short_length_overflows_buffer (max_length : Z) :
  0 <= max_length < 4 ->
  exists size, next_read max_length 4 = ToBuffer 4 size /\ size = 2 ^ 32 + max_length - 4 /\
    ZFS_DC_SIZE < 4 + size.
Proof.
  intros H. unfold next_read, ZFS_DC_SIZE. cbn [Z.ltb Z.compare Pos.compare Pos.compare_cont].
  rewrite (proj2 (Z.leb_le _ _)) by lia. eexists. split; [done|].
  assert (u32 (max_length - 4) = 2 ^ 32 + max_length - 4) as ->; [|lia].
  unfold wrap. symmetry. apply (Z.mod_unique_pos _ _ (-1)); lia.
Qed.

Lemma short_length_overflows_buffer_witness :
  exists size, next_read 2 4 = ToBuffer 4 size /\ size = 2 ^ 32 + 2 - 4 /\ ZFS_DC_SIZE < 4 + size.
Proof. apply (short_length_overflows_buffer 2). lia. Defined.



