(* ===== verification/Hashtab.v ===== *)
(** Hash tables with open addressing: [src/zfsd/lib/hashtab/hashtab.c] and
    [hashtab.h].

    A slot is empty, deleted or holds a pointer.  The hash and comparison
    functions of a table read the caller's memory, so they are parameters of the
    operations; the class [HtabKeys] states what the callers promise about them.
    The probing loops take the size of the table as fuel.  A call of the cleanup
    function is recorded in [del_calls].  [zfsd_abort] is [Aborted]. *)

From S2P Require Import Prelude AllocPool.
From Stdlib Require Import Zdivisibility.

Inductive slot := EMPTY_ENTRY | DELETED_ENTRY | Entry (p : ptr).

#[global] Instance slot_eq_dec : EqDecision slot.
Proof. solve_decision. Defined.

Inductive insert := NO_INSERT | INSERT.

Record htab := MkHtab {
  table : list slot;
  size : Z;
  n_elements : Z;
  n_deleted : Z;
  del_f : bool;
  del_calls : list ptr
}.

Definition primes : list Z :=
  [7; 13; 31; 61; 127; 251; 509; 1021; 2039; 4093; 8191; 16381; 32749; 65521; 131071; 262139;
   524287; 1048573; 2097143; 4194301; 8388593; 16777213; 33554393; 67108859; 134217689;
   268435399; 536870909; 1073741789; 2147483647].

Definition N_PRIMES : nat := 29.
Definition MAX_PRIME : Z := 2147483647.

(** The binary search of [get_higher_prime]. *)
Fixpoint prime_search (fuel : nat) (n : Z) (low high : nat) : res Z :=
  if decide (low = high) then
    match primes !! low with Some p => Ok p | None => Aborted end
  else
    match fuel with
    | O => OutOfFuel
    | S fuel =>
        let mid := ((low + high) / 2)%nat in
        match primes !! mid with
        | None => Aborted
        | Some p => if p <? n then prime_search fuel n (mid + 1) high
                    else prime_search fuel n low mid
        end
    end.

Definition get_higher_prime (n : Z) : res Z :=
  if MAX_PRIME <? n then Aborted else prime_search N_PRIMES n 0 (N_PRIMES - 1).

(** [idx += step; if (idx >= size) idx -= size;] *)
Definition next_idx (size step idx : Z) : Z :=
  let idx := u32 (idx + step) in
  if size <=? idx then u32 (idx - size) else idx.

Definition first_idx (size hash : Z) : Z := hash mod size.
Definition probe_step (size hash : Z) : Z := u32 (1 + hash mod u32 (size - 2)).

(** [htab->table[idx]] *)
Definition slot_at (t : list slot) (idx : Z) : res slot :=
  match t !! Z.to_nat idx with Some s => Ok s | None => Aborted end.

(** [*slot = s] *)
Definition set_slot (t : list slot) (idx : Z) (s : slot) : list slot := <[Z.to_nat idx := s]> t.

Fixpoint find_empty_loop (fuel : nat) (t : list slot) (size step idx : Z) : res Z :=
  s ← slot_at t idx;
  match s with
  | EMPTY_ENTRY => Ok idx
  | DELETED_ENTRY => Aborted
  | Entry _ =>
      match fuel with
      | O => OutOfFuel
      | S fuel => find_empty_loop fuel t size step (next_idx size step idx)
      end
  end.

Definition htab_find_empty_slot (t : list slot) (size hash : Z) : res Z :=
  find_empty_loop (length t) t size (probe_step size hash) (first_idx size hash).

Section ops.
Context {K : Type} (hash_f : ptr -> Z) (eq_f : ptr -> K -> bool).

(** The loop of [htab_expand] that moves the entries of the old table. *)
Fixpoint rehash (old : list slot) (new : list slot) (size : Z) : res (list slot) :=
  match old with
  | [] => Ok new
  | Entry p :: old =>
      idx ← htab_find_empty_slot new size (hash_f p);
      rehash old (set_slot new idx (Entry p)) size
  | _ :: old => rehash old new size
  end.

Definition htab_expand (h : htab) : res htab :=
  new_size ← get_higher_prime (u32 (u32 (u32 (n_elements h - n_deleted h) * 2) + 1));
  t ← rehash (table h) (replicate (Z.to_nat new_size) EMPTY_ENTRY) new_size;
  Ok (MkHtab t new_size (u32 (n_elements h - n_deleted h)) 0 (del_f h) (del_calls h)).

Definition htab_create (sz : Z) (del : bool) : res htab :=
  sz ← get_higher_prime sz;
  Ok (MkHtab (replicate (Z.to_nat sz) EMPTY_ENTRY) sz 0 0 del []).

(** The pointers of a table, in the order of the slots. *)
Definition entries (t : list slot) : list ptr :=
  omap (fun s => match s with Entry p => Some p | _ => None end) t.

Definition cleanup (h : htab) : list ptr :=
  del_calls h ++ if del_f h then entries (table h) else [].

(** [htab_destroy] calls the cleanup function; nothing else is left. *)
Definition htab_destroy (h : htab) : list ptr := cleanup h.

(** [htab_empty] does not touch the counters. *)
Definition htab_empty (h : htab) : htab :=
  MkHtab (replicate (length (table h)) EMPTY_ENTRY) (size h) (n_elements h) (n_deleted h) (del_f h)
    (cleanup h).

Definition htab_clear_slot (h : htab) (idx : Z) : res htab :=
  if (idx <? 0) || (size h <=? idx) then Aborted
  else
    s ← slot_at (table h) idx;
    match s with
    | Entry p =>
        Ok (MkHtab (set_slot (table h) idx DELETED_ENTRY) (size h) (n_elements h)
              (u32 (n_deleted h + 1)) (del_f h)
              (del_calls h ++ if del_f h then [p] else []))
    | _ => Aborted
    end.

Fixpoint find_loop (fuel : nat) (t : list slot) (elem : K) (size step idx : Z) : res (option ptr) :=
  entry ← slot_at t idx;
  match entry with
  | EMPTY_ENTRY => Ok None
  | DELETED_ENTRY =>
      match fuel with
      | O => OutOfFuel
      | S fuel => find_loop fuel t elem size step (next_idx size step idx)
      end
  | Entry p =>
      if eq_f p elem then Ok (Some p)
      else
        match fuel with
        | O => OutOfFuel
        | S fuel => find_loop fuel t elem size step (next_idx size step idx)
        end
  end.

Definition htab_find_with_hash (h : htab) (elem : K) (hash : Z) : res (option ptr) :=
  find_loop (length (table h)) (table h) elem (size h) (probe_step (size h) hash)
    (first_idx (size h) hash).

(** Where the search for a slot ends, with the first deleted slot it passed. *)
Inductive found := FoundAt (idx : Z) | EmptyAt (idx : Z) (first_deleted : option Z).

Fixpoint find_slot_loop (fuel : nat) (t : list slot) (elem : K) (size step idx : Z)
    (first_deleted : option Z) : res found :=
  s ← slot_at t idx;
  match s with
  | EMPTY_ENTRY => Ok (EmptyAt idx first_deleted)
  | DELETED_ENTRY =>
      let first_deleted := match first_deleted with None => Some idx | d => d end in
      match fuel with
      | O => OutOfFuel
      | S fuel => find_slot_loop fuel t elem size step (next_idx size step idx) first_deleted
      end
  | Entry p =>
      if eq_f p elem then Ok (FoundAt idx)
      else
        match fuel with
        | O => OutOfFuel
        | S fuel => find_slot_loop fuel t elem size step (next_idx size step idx) first_deleted
        end
  end.

Definition htab_find_slot_with_hash (h : htab) (elem : K) (hash : Z) (ins : insert)
    : res (htab * option Z) :=
  h ← match ins with
      | INSERT => if u32 (size h * 2) <=? u32 (n_elements h * 3) then htab_expand h else Ok h
      | NO_INSERT => Ok h
      end;
  r ← find_slot_loop (length (table h)) (table h) elem (size h) (probe_step (size h) hash)
        (first_idx (size h) hash) None;
  match r with
  | FoundAt idx => Ok (h, Some idx)
  | EmptyAt idx first_deleted =>
      match ins with
      | NO_INSERT => Ok (h, None)
      | INSERT =>
          match first_deleted with
          | Some d =>
              Ok (MkHtab (set_slot (table h) d EMPTY_ENTRY) (size h) (n_elements h)
                    (u32 (n_deleted h - 1)) (del_f h) (del_calls h), Some d)
          | None =>
              Ok (MkHtab (table h) (size h) (u32 (n_elements h + 1)) (n_deleted h) (del_f h)
                    (del_calls h), Some idx)
          end
      end
  end.

(** [*slot = p], by the caller of [htab_find_slot]. *)
Definition htab_store (h : htab) (idx : Z) (p : ptr) : htab :=
  MkHtab (set_slot (table h) idx (Entry p)) (size h) (n_elements h) (n_deleted h) (del_f h)
    (del_calls h).

(** [HTAB_FOR_EACH_SLOT]: the table may shrink first; the slots are then visited
    in order.  The result is the table and the slots that the body will see. *)
Definition htab_for_each_prepare (h : htab) : res htab :=
  if u32 (u32 (n_elements h - n_deleted h) * 8) <? size h then htab_expand h else Ok h.
End ops.

(** [htab_find] and [htab_find_slot] compute the hash from the element, which has
    the shape of an entry. *)
Section by_element.
Context (hash_f : ptr -> Z) (eq_f : ptr -> ptr -> bool).

Definition htab_find (h : htab) (elem : ptr) : res (option ptr) :=
  htab_find_with_hash eq_f h elem (hash_f elem).

Definition htab_find_slot (h : htab) (elem : ptr) (ins : insert) : res (htab * option Z) :=
  htab_find_slot_with_hash hash_f eq_f h elem (hash_f elem) ins.
End by_element.

(** What a user of a table promises about its functions: entries have keys, the
    hash is a function of the key and equality is equality of keys. *)
Class HtabKeys {K : Type} (hash_f : ptr -> Z) (eq_f : ptr -> K -> bool) := {
  key_of : ptr -> K;
  hash_of : K -> Z;
  hash_of_range : forall k, is_u32 (hash_of k);
  hash_f_key : forall p, hash_f p = hash_of (key_of p);
  eq_f_key : forall p k, eq_f p k = true <-> key_of p = k
}.

(** ** Primes *)

Fixpoint no_divisor (fuel : nat) (p d : Z) : bool :=
  if p <? d * d then true
  else if p mod d =? 0 then false
  else match fuel with O => false | S fuel => no_divisor fuel p (d + 1) end.

Lemma no_divisor_sound fuel p : forall d, 1 < d -> no_divisor fuel p d = true ->
  forall n, d <= n -> n * n <= p -> ~ (n | p).
Proof.
  induction fuel as [|fuel IH]; intros d Hd H n Hn Hnn Hdiv; cbn in H; case_if_in H; [nia| |nia|];
    (case_if_in H; [done|]); [done|].
  destruct (Z.eq_dec n d) as [->|]; [|by apply (IH (d + 1) ltac:(lia) H n ltac:(lia))].
  apply Z.mod_divide in Hdiv; lia.
Qed.

Lemma no_divisor_prime fuel p : 1 < p -> no_divisor fuel p 2 = true -> Z.prime p.
Proof.
  intros Hp H. split; [done|]. intros n Hn [m Hm]. assert (1 < m) by nia.
  pose proof (no_divisor_sound fuel p 2 ltac:(lia) H) as Hno.
  destruct (Z_le_gt_dec n m).
  - apply (Hno n); [lia|nia|]. by exists m.
  - apply (Hno m); [lia|nia|]. exists n. lia.
Qed.

Definition prime_fuel : nat := Z.to_nat 46342.

Lemma primes_are_prime p : p ∈ primes -> Z.prime p /\ 7 <= p <= MAX_PRIME.
Proof.
  assert (forallb (fun p => no_divisor prime_fuel p 2 && (7 <=? p) && (p <=? MAX_PRIME)) primes = true) as H
    by (vm_compute; reflexivity).
  rewrite forallb_forall in H. intros Hp%list_elem_of_In. specialize (H p Hp). bool_to_prop.
  split; [|lia]. apply (no_divisor_prime prime_fuel); [lia|done].
Qed.

Lemma primes_sorted i j p q :
  primes !! i = Some p -> primes !! j = Some q -> (i < j)%nat -> p < q.
Proof.
  assert (StronglySorted Z.lt primes) as Hs.
  { repeat (constructor; [|repeat (constructor; [lia|]); constructor]). constructor. }
  intros Hi Hj Hij. rewrite <-(take_drop (S i) primes) in Hs.
  apply StronglySorted_app in Hs as (Hs & _ & _). apply Hs.
  - apply list_elem_of_lookup. exists i. by rewrite lookup_take_lt by lia.
  - apply list_elem_of_lookup. exists (j - S i)%nat. rewrite lookup_drop. rewrite <-Hj. f_equal. lia.
Qed.

Lemma prime_search_ok n : forall fuel low high pl,
  (low <= high < N_PRIMES)%nat -> (high - low <= fuel)%nat ->
  (forall i p, (i < low)%nat -> primes !! i = Some p -> p < n) ->
  primes !! high = Some pl -> n <= pl ->
  exists p, prime_search fuel n low high = Ok p /\ p ∈ primes /\ n <= p /\
    forall q, q ∈ primes -> n <= q -> p <= q.
Proof.
  induction fuel as [|fuel IH]; intros low high pl Hr Hf Hlow Hhigh Hn; cbn [prime_search]; case_decide as Hd;
    [|lia| |].
  1,2: subst high; rewrite Hhigh; exists pl; split_and!; [done|by eapply list_elem_of_lookup_2|done|];
    intros q [i Hi]%list_elem_of_lookup Hq;
    destruct (Nat.lt_trichotomy i low) as [Hl|[->|Hl]];
    [specialize (Hlow _ _ Hl Hi); lia|rewrite Hhigh in Hi; injection Hi; lia|
     pose proof (primes_sorted _ _ _ _ Hhigh Hi Hl); lia].
  set (mid := ((low + high) / 2)%nat).
  assert (low <= mid < high)%nat as Hmid.
  { unfold mid. split; [apply Nat.div_le_lower_bound; lia|apply Nat.Div0.div_lt_upper_bound; lia]. }
  destruct (lookup_lt_is_Some_2 primes mid) as [pm Hpm]; [change (length primes) with N_PRIMES; lia|].
  change (((low + high) / 2)%nat) with mid. rewrite Hpm. case_if.
  - eapply IH; [lia|lia| |exact Hhigh|done]. intros i p Hi Hp.
    destruct (decide (i = mid)) as [->|]; [congruence|].
    destruct (decide (i < low)%nat); [by eapply Hlow|].
    pose proof (primes_sorted i mid p pm Hp Hpm ltac:(lia)). lia.
  - eapply IH; [lia|lia|exact Hlow|exact Hpm|lia].
Qed.

Lemma get_higher_prime_ok n : n <= MAX_PRIME ->
  exists p, get_higher_prime n = Ok p /\ p ∈ primes /\ n <= p /\
    forall q, q ∈ primes -> n <= q -> p <= q.
Proof.
  intros Hn. unfold get_higher_prime. rewrite (proj2 (Z.ltb_ge _ _)) by done.
  eapply (prime_search_ok n N_PRIMES 0 (N_PRIMES - 1)); [unfold N_PRIMES; lia|unfold N_PRIMES; lia|lia|
    reflexivity|done].
Qed.

(** ** Probe sequences *)

Definition good_size (sz : Z) : Prop := Z.prime sz /\ 7 <= sz <= MAX_PRIME.

Definition probe (sz h : Z) (i : nat) : Z := (h + Z.of_nat i * (1 + h mod (sz - 2))) mod sz.

Lemma probe_range sz h i : good_size sz -> 0 <= probe sz h i < sz.
Proof. intros [_ ?]. apply Z.mod_pos_bound. lia. Qed.

Lemma probe_step_eq sz h : good_size sz -> probe_step sz h = 1 + h mod (sz - 2).
Proof.
  intros [_ Hs]. unfold probe_step, MAX_PRIME in *. rewrite (wrap_small 32 (sz - 2)) by lia.
  apply wrap_small. pose proof (Z.mod_pos_bound h (sz - 2) ltac:(lia)). lia.
Qed.

Lemma first_idx_probe sz h : first_idx sz h = probe sz h 0.
Proof. unfold first_idx, probe. f_equal. lia. Qed.

Lemma next_idx_probe sz h i :
  good_size sz -> next_idx sz (probe_step sz h) (probe sz h i) = probe sz h (S i).
Proof.
  intros Hg. rewrite probe_step_eq by done. pose proof (probe_range sz h i Hg) as Hp.
  destruct Hg as [_ Hs]. unfold MAX_PRIME in Hs. set (st := 1 + h mod (sz - 2)) in *.
  assert (1 <= st <= sz - 2) by (unfold st; pose proof (Z.mod_pos_bound h (sz - 2) ltac:(lia)); lia).
  assert (probe sz h (S i) = (probe sz h i + st) mod sz) as ->.
  { unfold probe. fold st. rewrite Zplus_mod_idemp_l. f_equal. lia. }
  unfold next_idx. rewrite wrap_small by lia. case_if.
  - rewrite wrap_small by lia. apply (Z.mod_unique_pos _ _ 1); lia.
  - symmetry. apply Z.mod_small. lia.
Qed.

(** The probe sequence visits every slot. *)
Lemma probe_covers sz h j : good_size sz -> 0 <= j < sz ->
  exists i, (i < Z.to_nat sz)%nat /\ probe sz h i = j.
Proof.
  intros [Hp Hs] Hj. set (st := 1 + h mod (sz - 2)).
  assert (1 <= st < sz) as Hst by (unfold st; pose proof (Z.mod_pos_bound h (sz - 2) ltac:(lia)); lia).
  destruct (Z.Bezout_coprime _ _ (Z.coprime_prime_small sz st Hp ltac:(lia))) as (v & u & Huv).
  set (i := ((j - h) * u) mod sz). pose proof (Z.mod_pos_bound ((j - h) * u) sz ltac:(lia)).
  exists (Z.to_nat i). split; [unfold i; lia|]. unfold probe. fold st. rewrite Z2Nat.id by (unfold i; lia).
  unfold i. rewrite <-Zplus_mod_idemp_r, Zmult_mod_idemp_l, Zplus_mod_idemp_r.
  replace (h + (j - h) * u * st) with (j + ((h - j) * v) * sz).
  - rewrite Z.mod_add by lia. by apply Z.mod_small.
  - assert (u * st = 1 - v * sz) as E by lia. rewrite <-(Z.mul_assoc _ u st), E. lia.
Qed.

(** ** Counting slots *)

Definition is_empty (s : slot) : bool := match s with EMPTY_ENTRY => true | _ => false end.
Definition is_deleted (s : slot) : bool := match s with DELETED_ENTRY => true | _ => false end.
Definition is_entry (s : slot) : bool := match s with Entry _ => true | _ => false end.

Fixpoint cnt (f : slot -> bool) (t : list slot) : Z :=
  match t with [] => 0 | s :: t => (if f s then 1 else 0) + cnt f t end.

Lemma cnt_range f t : 0 <= cnt f t <= Z.of_nat (length t).
Proof. induction t as [|s t IH]; cbn [cnt length]; [lia|]. destruct (f s); lia. Qed.

Lemma cnt_total t : cnt is_empty t + cnt is_deleted t + cnt is_entry t = Z.of_nat (length t).
Proof. induction t as [|[] t IH]; cbn [cnt length is_empty is_deleted is_entry]; lia. Qed.

Lemma cnt_set f t j s s' :
  t !! j = Some s ->
  cnt f (<[j := s']> t) = cnt f t - (if f s then 1 else 0) + (if f s' then 1 else 0).
Proof.
  revert j; induction t as [|x t IH]; intros [|j] H; try done.
  - injection H as ->. cbn. destruct (f s), (f s'); lia.
  - change (<[S j := s']> (x :: t)) with (x :: <[j := s']> t). cbn [cnt]. rewrite (IH j H). lia.
Qed.

Lemma cnt_pos f t : 0 < cnt f t -> exists j s, t !! j = Some s /\ f s = true.
Proof.
  induction t as [|x t IH]; cbn; [lia|]. destruct (f x) eqn:E; intros H.
  - by exists 0%nat, x.
  - destruct IH as (j & s & ? & ?); [lia|]. by exists (S j), s.
Qed.

Lemma cnt_replicate f n s : cnt f (replicate n s) = if f s then Z.of_nat n else 0.
Proof. induction n as [|n IH]; cbn [replicate cnt]; [by destruct (f s)|]. rewrite IH. destruct (f s); lia. Qed.

Lemma entries_length t : Z.of_nat (length (entries t)) = cnt is_entry t.
Proof. induction t as [|[] t IH]; cbn; try done. fold (entries t). lia. Qed.

Lemma entries_elem t p : p ∈ entries t <-> exists j, t !! j = Some (Entry p).
Proof.
  unfold entries. rewrite list_elem_of_omap. split.
  - intros (s & Hs & E). destruct s; try done. injection E as ->. by apply list_elem_of_lookup.
  - intros Hj. exists (Entry p). split; [by apply list_elem_of_lookup|done].
Qed.

(** ** Searching *)

Lemma entries_nodup t :
  (forall j1 j2 p, t !! j1 = Some (Entry p) -> t !! j2 = Some (Entry p) -> j1 = j2) -> NoDup (entries t).
Proof.
  induction t as [|s t IH]; intros H; [constructor|].
  assert (NoDup (entries t)) as Hnd.
  { apply IH. intros j1 j2 p H1 H2. by injection (H (S j1) (S j2) p H1 H2). }
  destruct s as [| |p]; [done|done|]. apply NoDup_cons. split; [|done].
  intros [j Hj]%entries_elem. by discriminate (H 0%nat (S j) p eq_refl Hj).
Qed.

Section search.
Context {K : Type} {hash_f : ptr -> Z} {eq_f : ptr -> K -> bool} `{HK : !HtabKeys hash_f eq_f}.
Context (t : list slot) (sz h : Z) (Hsz : good_size sz) (Hlen : Z.of_nat (length t) = sz).

Definition at_probe (i : nat) : option slot := t !! Z.to_nat (probe sz h i).

Lemma at_probe_some i : exists s, at_probe i = Some s.
Proof. apply lookup_lt_is_Some_2. pose proof (probe_range sz h i Hsz). lia. Qed.

Lemma slot_at_probe i s : at_probe i = Some s -> slot_at t (probe sz h i) = Ok s.
Proof. unfold at_probe, slot_at. by intros ->. Qed.

Lemma empty_probe_exists : 0 < cnt is_empty t -> exists i, (i < length t)%nat /\ at_probe i = Some EMPTY_ENTRY.
Proof.
  intros (j & s & Hj & Hs)%cnt_pos. destruct s; try done. pose proof (lookup_lt_Some _ _ _ Hj).
  destruct (probe_covers sz h (Z.of_nat j) Hsz ltac:(lia)) as (i & Hi & E).
  exists i. split; [lia|]. unfold at_probe. by rewrite E, Nat2Z.id.
Qed.

(** The first slot from [i0] on that ends a search for [k]. *)
Definition stops (k : K) (o : option slot) : Prop :=
  o = Some EMPTY_ENTRY \/ exists p, o = Some (Entry p) /\ key_of p = k.

Lemma find_loop_spec k : forall fuel i0,
  (exists i1, (i0 <= i1 <= i0 + fuel)%nat /\ at_probe i1 = Some EMPTY_ENTRY) ->
  exists i r, find_loop eq_f fuel t k sz (probe_step sz h) (probe sz h i0) = Ok r /\ (i0 <= i)%nat /\
    (forall i', (i0 <= i' < i)%nat -> ~ stops k (at_probe i')) /\
    (at_probe i = Some EMPTY_ENTRY /\ r = None \/
     exists p, at_probe i = Some (Entry p) /\ key_of p = k /\ r = Some p).
Proof.
  induction fuel as [|fuel IH]; intros i0 (i1 & Hi1 & He); cbn [find_loop].
  - assert (i1 = i0) as -> by lia. rewrite (slot_at_probe _ _ He). cbn.
    exists i0, None. split_and!; [done|lia|lia|by left].
  - destruct (at_probe_some i0) as [s Hs]. rewrite (slot_at_probe _ _ Hs). cbn [mbind res_bind].
    assert (~ stops k (at_probe i0) ->
      exists i r, find_loop eq_f fuel t k sz (probe_step sz h) (next_idx sz (probe_step sz h) (probe sz h i0))
        = Ok r /\ (i0 <= i)%nat /\ (forall i', (i0 <= i' < i)%nat -> ~ stops k (at_probe i')) /\
        (at_probe i = Some EMPTY_ENTRY /\ r = None \/
         exists p, at_probe i = Some (Entry p) /\ key_of p = k /\ r = Some p)) as Hgo.
    { intros Hns. rewrite next_idx_probe by done. destruct (IH (S i0)) as (i & r & E & Hi & Hb & Hr).
      - exists i1. split; [|done]. assert (i1 <> i0) by (intros ->; apply Hns; by left). lia.
      - exists i, r. split_and!; [done|lia| |done]. intros i' Hi'.
        destruct (decide (i' = i0)) as [->|]; [done|apply Hb; lia]. }
    destruct s as [| |p].
    + exists i0, None. split_and!; [done|lia|lia|by left].
    + apply Hgo. rewrite Hs. by intros [?|(p & ? & _)].
    + destruct (eq_f p k) eqn:Ek.
      * exists i0, (Some p). split_and!; [done|lia|lia|]. right. exists p. by rewrite <-(eq_f_key p k).
      * apply Hgo. rewrite Hs. intros [?|(q & [= <-] & Hq)]; [done|]. apply eq_f_key in Hq. congruence.
Qed.

Lemma find_slot_loop_spec k : forall fuel i0 fd,
  (exists i1, (i0 <= i1 <= i0 + fuel)%nat /\ at_probe i1 = Some EMPTY_ENTRY) ->
  exists i r, find_slot_loop eq_f fuel t k sz (probe_step sz h) (probe sz h i0) fd = Ok r /\ (i0 <= i)%nat /\
    (forall i', (i0 <= i' < i)%nat -> ~ stops k (at_probe i')) /\
    ((exists p, at_probe i = Some (Entry p) /\ key_of p = k /\ r = FoundAt (probe sz h i)) \/
     at_probe i = Some EMPTY_ENTRY /\
     exists fd', r = EmptyAt (probe sz h i) fd' /\
       (fd' = fd \/ fd = None /\
        exists i', (i0 <= i' < i)%nat /\ fd' = Some (probe sz h i') /\ at_probe i' = Some DELETED_ENTRY)).
Proof.
  induction fuel as [|fuel IH]; intros i0 fd (i1 & Hi1 & He); cbn [find_slot_loop].
  - assert (i1 = i0) as -> by lia. rewrite (slot_at_probe _ _ He). cbn.
    eexists i0, _. split_and!; [done|lia|lia|]. right. split; [done|]. eexists. split; [done|]. by left.
  - destruct (at_probe_some i0) as [s Hs]. rewrite (slot_at_probe _ _ Hs). cbn [mbind res_bind].
    assert (~ stops k (at_probe i0) -> forall fd1,
      exists i r, find_slot_loop eq_f fuel t k sz (probe_step sz h) (next_idx sz (probe_step sz h) (probe sz h i0)) fd1
        = Ok r /\ (i0 <= i)%nat /\ (forall i', (i0 <= i' < i)%nat -> ~ stops k (at_probe i')) /\
        ((exists p, at_probe i = Some (Entry p) /\ key_of p = k /\ r = FoundAt (probe sz h i)) \/
         at_probe i = Some EMPTY_ENTRY /\
         exists fd', r = EmptyAt (probe sz h i) fd' /\ (S i0 <= i)%nat /\
         (fd' = fd1 \/ fd1 = None /\ exists i', (i0 <= i' < i)%nat /\ fd' = Some (probe sz h i') /\
            at_probe i' = Some DELETED_ENTRY))) as Hgo.
    { intros Hns fd1. rewrite next_idx_probe by done. destruct (IH (S i0) fd1) as (i & r & E & Hi & Hb & Hr).
      - exists i1. split; [|done]. assert (i1 <> i0) by (intros ->; apply Hns; by left). lia.
      - exists i, r. split_and!; [done|lia| |].
        + intros i' Hi'. destruct (decide (i' = i0)) as [->|]; [done|apply Hb; lia].
        + destruct Hr as [Hr|(Hr & fd' & -> & Hfd)]; [by left|right]. split; [done|]. exists fd'.
          split_and!; [done|lia|]. destruct Hfd as [->|(-> & i' & ? & ?)]; [by left|right].
          split; [done|]. exists i'. split; [lia|done]. }
    destruct s as [| |p].
    + eexists i0, _. split_and!; [done|lia|lia|]. right. split; [done|]. eexists. split; [done|]. by left.
    + destruct (Hgo ltac:(rewrite Hs; by intros [?|(p & ? & _)])
        (match fd with None => Some (probe sz h i0) | d => d end)) as (i & r & E & Hi & Hb & Hr).
      exists i, r. split_and!; [done|done|done|]. destruct Hr as [Hr|(Hr & fd' & -> & Hlt & Hfd)]; [by left|right].
      split; [done|]. exists fd'. split; [done|]. destruct fd as [d|].
      * destruct Hfd as [->|[? _]]; [by left|done].
      * right. split; [done|]. destruct Hfd as [->|[? _]]; [|done]. exists i0. split_and!; [lia|lia|done|done].
    + destruct (eq_f p k) eqn:Ek.
      * eexists i0, _. split_and!; [done|lia|lia|]. left. exists p. by rewrite <-(eq_f_key p k).
      * destruct (Hgo ltac:(rewrite Hs; intros [?|(q & [= <-] & Hq)]; [done|]; apply eq_f_key in Hq; congruence) fd)
          as (i & r & E & Hi & Hb & Hr). exists i, r. split_and!; [done|done|done|].
        destruct Hr as [Hr|(Hr & fd' & -> & _ & Hfd)]; [by left|right]. by eauto.
Qed.
End search.

(** ** The table invariant *)

Section invariant.
Context {K : Type} {hash_f : ptr -> Z} {eq_f : ptr -> K -> bool} `{HK : !HtabKeys hash_f eq_f}.

(** The search for hash [h] arrives at slot [j] without passing an empty one. *)
Definition reachable (t : list slot) (sz h : Z) (j : nat) : Prop :=
  exists i, probe sz h i = Z.of_nat j /\
    forall i', (i' < i)%nat -> at_probe t sz h i' <> Some EMPTY_ENTRY.

Record table_ok (t : list slot) (sz : Z) : Prop := {
  tab_size : good_size sz;
  tab_length : Z.of_nat (length t) = sz;
  tab_reach : forall j p, t !! j = Some (Entry p) -> reachable t sz (hash_f p) j;
  tab_distinct : forall j1 j2 p1 p2, t !! j1 = Some (Entry p1) -> t !! j2 = Some (Entry p2) ->
    key_of p1 = key_of p2 -> j1 = j2
}.

Definition has_key (t : list slot) (k : K) : Prop := exists p, p ∈ entries t /\ key_of p = k.

Lemma entries_key_unique t sz p q :
  table_ok t sz -> p ∈ entries t -> q ∈ entries t -> key_of p = key_of q -> p = q.
Proof.
  intros Ht [j1 H1]%entries_elem [j2 H2]%entries_elem Hk.
  assert (j1 = j2) as -> by (by eapply tab_distinct). congruence.
Qed.

(** A search that stops at its first stopping slot finds the key if it is there. *)
Lemma search_complete t sz k i :
  table_ok t sz -> (forall i', (i' < i)%nat -> ~ stops k (at_probe t sz (hash_of k) i')) ->
  at_probe t sz (hash_of k) i = Some EMPTY_ENTRY -> ~ has_key t k.
Proof.
  intros Ht Hb He (p & [j Hj]%entries_elem & Hk). destruct (tab_reach _ _ Ht j p Hj) as (i1 & Hi1 & Hpath).
  rewrite (hash_f_key (hash_f := hash_f) p), Hk in Hi1, Hpath.
  assert (at_probe t sz (hash_of k) i1 = Some (Entry p)) as Hat.
  { unfold at_probe. by rewrite Hi1, Nat2Z.id. }
  destruct (Nat.lt_trichotomy i i1) as [Hlt|[->|Hlt]]; [by eapply Hpath|congruence|].
  apply (Hb i1 Hlt). right. by exists p.
Qed.

Lemma htab_find_table t sz k :
  table_ok t sz -> 0 < cnt is_empty t ->
  exists r, find_loop eq_f (length t) t k sz (probe_step sz (hash_of k)) (first_idx sz (hash_of k)) = Ok r /\
    forall p, r = Some p <-> p ∈ entries t /\ key_of p = k.
Proof.
  intros Ht He. pose proof (tab_size _ _ Ht) as Hg. pose proof (tab_length _ _ Ht) as Hl.
  destruct (empty_probe_exists t sz (hash_of k) Hg Hl He) as (i1 & Hi1 & Hat).
  destruct (find_loop_spec t sz (hash_of k) Hg Hl k (length t) 0) as (i & r & E & _ & Hb & Hr).
  { exists i1. split; [lia|done]. }
  rewrite first_idx_probe. exists r. split; [done|]. intros p.
  destruct Hr as [[Hat' ->]|(q & Hat' & Hk & ->)].
  - split; [done|]. intros [Hp Hk]. exfalso. eapply (search_complete t sz k i); try done.
    + intros i' Hi'. apply Hb. lia.
    + by exists p.
  - assert (q ∈ entries t) as Hq by (apply entries_elem; by eexists). split; [by intros [= <-]|].
    intros [Hp Hkp]. f_equal. eapply entries_key_unique; [done|done|done|congruence].
Qed.

(** What the search for a slot returns. *)
Definition slot_for (t : list slot) (sz : Z) (k : K) (r : found) : Prop :=
  match r with
  | FoundAt idx => 0 <= idx /\ exists p, t !! Z.to_nat idx = Some (Entry p) /\ key_of p = k
  | EmptyAt idx fd => 0 <= idx /\ ~ has_key t k /\
      match fd with
      | None => t !! Z.to_nat idx = Some EMPTY_ENTRY /\ reachable t sz (hash_of k) (Z.to_nat idx)
      | Some d => 0 <= d /\ t !! Z.to_nat d = Some DELETED_ENTRY /\
                  reachable t sz (hash_of k) (Z.to_nat d)
      end
  end.

Lemma htab_find_slot_table t sz k :
  table_ok t sz -> 0 < cnt is_empty t ->
  exists r, find_slot_loop eq_f (length t) t k sz (probe_step sz (hash_of k)) (first_idx sz (hash_of k)) None
    = Ok r /\ slot_for t sz k r.
Proof.
  intros Ht He. pose proof (tab_size _ _ Ht) as Hg. pose proof (tab_length _ _ Ht) as Hl.
  destruct (empty_probe_exists t sz (hash_of k) Hg Hl He) as (i1 & Hi1 & Hat).
  destruct (find_slot_loop_spec t sz (hash_of k) Hg Hl k (length t) 0 None) as (i & r & E & _ & Hb & Hr).
  { exists i1. split; [lia|done]. }
  rewrite first_idx_probe. exists r. split; [done|].
  assert (forall i, 0 <= probe sz (hash_of k) i) as Hge by (intros; apply probe_range; done).
  assert (forall i', (i' <= i)%nat -> reachable t sz (hash_of k) (Z.to_nat (probe sz (hash_of k) i'))) as Hreach.
  { intros i' Hi'. exists i'. split; [rewrite Z2Nat.id; done|]. intros i2 Hi2 Hbad.
    apply (Hb i2); [lia|]. by left. }
  destruct Hr as [(p & Hat' & Hk & ->)|(Hat' & fd & -> & Hfd)]; cbn.
  - split; [done|]. by exists p.
  - split_and!; [done|eapply (search_complete t sz k i); try done; intros i' Hi'; apply Hb; lia|].
    destruct Hfd as [->|(_ & i' & Hi' & -> & Hdel)]; [split; [done|by apply Hreach]|].
    split_and!; [done|done|apply Hreach; lia].
Qed.

(** Filling a free slot the search arrives at. *)
Lemma reachable_mono t t' sz h j :
  reachable t sz h j ->
  (forall i, t' !! i = Some EMPTY_ENTRY -> t !! i = Some EMPTY_ENTRY) -> reachable t' sz h j.
Proof. intros (i & Hi & Hp) H. exists i. split; [done|]. intros i' Hi' Hbad. by apply (Hp i' Hi'), H. Qed.

Lemma table_ok_store t sz j s p :
  table_ok t sz -> t !! j = Some s -> is_entry s = false -> ~ has_key t (key_of p) ->
  reachable t sz (hash_f p) j -> table_ok (<[j := Entry p]> t) sz.
Proof.
  intros Ht Hj Hs Hno Hr. pose proof (lookup_lt_Some _ _ _ Hj) as Hlt.
  assert (forall i, <[j := Entry p]> t !! i = Some EMPTY_ENTRY -> t !! i = Some EMPTY_ENTRY) as Hmono.
  { intros i. rewrite list_lookup_insert. case_decide as Hd; [done|]. done. }
  assert (forall i q, <[j := Entry p]> t !! i = Some (Entry q) -> i = j /\ q = p \/ i <> j /\ t !! i = Some (Entry q))
    as Hcases.
  { intros i q. rewrite list_lookup_insert. case_decide as Hd; [intros [= ->]; left; naive_solver|].
    intros H. right. split; [|done]. intros ->. apply Hd. done. }
  split; [apply Ht|rewrite length_insert; apply Ht| |].
  - intros i q [[-> ->]|[_ Hq]]%Hcases; [by eapply reachable_mono|].
    eapply reachable_mono; [by eapply tab_reach|done].
  - intros j1 j2 p1 p2 [[-> ->]|[_ H1]]%Hcases [[-> ->]|[_ H2]]%Hcases Hk; [done| | |by eapply tab_distinct].
    + exfalso. apply Hno. exists p2. split; [apply entries_elem; by exists j2|done].
    + exfalso. apply Hno. exists p1. split; [apply entries_elem; by exists j1|done].
Qed.

Lemma entries_store t j s p :
  t !! j = Some s -> is_entry s = false ->
  forall q, q ∈ entries (<[j := Entry p]> t) <-> q = p \/ q ∈ entries t.
Proof.
  intros Hj Hs q. rewrite !entries_elem. pose proof (lookup_lt_Some _ _ _ Hj). split.
  - intros [i Hi]. rewrite list_lookup_insert in Hi. case_decide; [left; congruence|right; by exists i].
  - intros [->|[i Hi]]; [exists j; by rewrite list_lookup_insert_eq|].
    exists i. rewrite list_lookup_insert_ne; [done|]. intros ->. rewrite Hj in Hi. by injection Hi as ->.
Qed.

Lemma table_ok_clear t sz j p :
  table_ok t sz -> t !! j = Some (Entry p) ->
  table_ok (<[j := DELETED_ENTRY]> t) sz /\
  forall q, q ∈ entries (<[j := DELETED_ENTRY]> t) <-> q ∈ entries t /\ q <> p.
Proof.
  intros Ht Hj. pose proof (lookup_lt_Some _ _ _ Hj) as Hlt.
  assert (forall i s, s <> DELETED_ENTRY ->
    <[j := DELETED_ENTRY]> t !! i = Some s <-> i <> j /\ t !! i = Some s) as Hlk.
  { intros i s Hs. rewrite list_lookup_insert. case_decide as Hd; [split; [congruence|naive_solver]|].
    split; [|tauto]. intros H. split; [|done]. intros ->. tauto. }
  split; [split; [apply Ht|rewrite length_insert; apply Ht| |]|].
  - intros i q [Hi Hq]%Hlk; [|done]. eapply reachable_mono; [by eapply tab_reach|].
    intros i' H. by apply Hlk in H as [_ ?].
  - intros j1 j2 p1 p2 [_ H1]%Hlk [_ H2]%Hlk Hk; [|done..]. by eapply tab_distinct.
  - intros q. rewrite !entries_elem. split.
    + intros [i [Hi Hq]%Hlk]; [|done]. split; [by exists i|]. intros ->. apply Hi.
      by eapply tab_distinct.
    + intros [[i Hi] Hq]. exists i. apply Hlk; [done|]. split; [|done]. intros ->. congruence.
Qed.
End invariant.

(** ** The operations on a whole table *)

Section table_ops.
Context {K : Type} {hash_f : ptr -> Z} {eq_f : ptr -> K -> bool} `{HK : !HtabKeys hash_f eq_f}.

(** The counters may run ahead of the table ([htab_empty] leaves them), never behind. *)
Record htab_ok (h : htab) : Prop := {
  h_tab : table_ok (hash_f := hash_f) (eq_f := eq_f) (table h) (size h);
  h_live : cnt is_entry (table h) <= n_elements h - n_deleted h;
  h_del : cnt is_deleted (table h) <= n_deleted h;
  h_load : n_elements h * 3 < size h * 2 + 3
}.

(** The counters are exact. *)
Definition exact (h : htab) : Prop :=
  cnt is_entry (table h) = n_elements h - n_deleted h /\ cnt is_deleted (table h) = n_deleted h.

Lemma htab_room h : htab_ok h -> 0 < cnt is_empty (table h).
Proof.
  intros [Ht Hl Hd Hload]. pose proof (cnt_total (table h)). pose proof (tab_length _ _ Ht).
  destruct (tab_size _ _ Ht) as [_ ?]. lia.
Qed.

Lemma htab_counters h : htab_ok h ->
  0 <= n_deleted h <= n_elements h /\ n_elements h < size h /\ 7 <= size h <= MAX_PRIME.
Proof.
  intros [Ht Hl Hd Hload]. pose proof (cnt_range is_entry (table h)). pose proof (cnt_range is_deleted (table h)).
  destruct (tab_size _ _ Ht) as [_ ?]. lia.
Qed.

Lemma find_empty_loop_spec t sz h : good_size sz -> Z.of_nat (length t) = sz -> cnt is_deleted t = 0 ->
  forall fuel i0, (exists i1, (i0 <= i1 <= i0 + fuel)%nat /\ at_probe t sz h i1 = Some EMPTY_ENTRY) ->
  exists i, find_empty_loop fuel t sz (probe_step sz h) (probe sz h i0) = Ok (probe sz h i) /\ (i0 <= i)%nat /\
    at_probe t sz h i = Some EMPTY_ENTRY /\
    forall i', (i0 <= i' < i)%nat -> at_probe t sz h i' <> Some EMPTY_ENTRY.
Proof.
  intros Hg Hl Hd. assert (forall i, at_probe t sz h i <> Some DELETED_ENTRY) as Hnd.
  { intros i Hi. unfold at_probe in Hi. pose proof (cnt_set is_deleted t _ _ EMPTY_ENTRY Hi) as H. cbn in H.
    pose proof (cnt_range is_deleted (<[Z.to_nat (probe sz h i) := EMPTY_ENTRY]> t)). lia. }
  induction fuel as [|fuel IH]; intros i0 (i1 & Hi1 & He); cbn [find_empty_loop].
  - assert (i1 = i0) as -> by lia. rewrite (slot_at_probe _ _ _ _ _ He). cbn. exists i0. split_and!; [done|lia|done|lia].
  - destruct (at_probe_some t sz h Hg Hl i0) as [s Hs]. rewrite (slot_at_probe _ _ _ _ _ Hs). cbn [mbind res_bind].
    destruct s as [| |p].
    + exists i0. split_and!; [done|lia|done|lia].
    + by destruct (Hnd i0).
    + rewrite next_idx_probe by done. destruct (IH (S i0)) as (i & E & Hi & Hat & Hb).
      * exists i1. split; [|done]. assert (i1 <> i0) by (intros ->; congruence). lia.
      * exists i. split_and!; [done|lia|done|]. intros i' Hi'.
        destruct (decide (i' = i0)) as [->|]; [congruence|apply Hb; lia].
Qed.

Lemma rehash_ok sz old : forall new,
  table_ok (hash_f := hash_f) (eq_f := eq_f) new sz -> cnt is_deleted new = 0 ->
  (forall p, p ∈ entries old -> ~ has_key (hash_f := hash_f) (eq_f := eq_f) new (key_of p)) ->
  (forall j1 j2 p1 p2, old !! j1 = Some (Entry p1) -> old !! j2 = Some (Entry p2) ->
     key_of p1 = key_of p2 -> j1 = j2) ->
  cnt is_entry new + cnt is_entry old < sz ->
  exists t, rehash hash_f old new sz = Ok t /\ table_ok (hash_f := hash_f) (eq_f := eq_f) t sz /\
    cnt is_deleted t = 0 /\ cnt is_entry t = cnt is_entry new + cnt is_entry old /\
    forall p, p ∈ entries t <-> p ∈ entries new \/ p ∈ entries old.
Proof.
  induction old as [|s old IH]; intros new Ht Hd Hno Hdist Hc; cbn [rehash].
  { exists new. cbn [cnt] in *. split_and!; [done|done|done|lia|]. intros p. cbn. set_solver. }
  assert (forall j1 j2 p1 p2, old !! j1 = Some (Entry p1) -> old !! j2 = Some (Entry p2) ->
     key_of p1 = key_of p2 -> j1 = j2) as Hdist'.
  { intros j1 j2 p1 p2 H1 H2 Hk. specialize (Hdist (S j1) (S j2) p1 p2 H1 H2 Hk). congruence. }
  destruct s as [| |p]; cbn [cnt is_entry] in Hc.
  1,2: destruct (IH new) as (t & E & Hr); [done|done|done|done|lia|]; exists t; cbn [cnt is_entry]; done.
  pose proof (tab_size _ _ Ht) as Hg. pose proof (tab_length _ _ Ht) as Hl.
  pose proof (cnt_total new). pose proof (cnt_range is_entry old).
  destruct (empty_probe_exists new sz (hash_f p) Hg Hl ltac:(lia)) as (i1 & Hi1 & Hat1).
  destruct (find_empty_loop_spec new sz (hash_f p) Hg Hl Hd (length new) 0) as (i & E & _ & Hat & Hb).
  { exists i1. split; [lia|done]. }
  unfold htab_find_empty_slot. rewrite first_idx_probe, E. cbn [mbind res_bind]. unfold set_slot.
  pose proof (probe_range sz (hash_f p) i Hg) as Hpr. unfold at_probe in Hat.
  set (j := Z.to_nat (probe sz (hash_f p) i)) in *.
  destruct (IH (<[j := Entry p]> new)) as (t & E2 & Ht2 & Hd2 & Hc2 & He2).
  - eapply table_ok_store; [done|exact Hat|done| |].
    + apply Hno. apply entries_elem. by exists 0%nat.
    + exists i. split; [unfold j; lia|]. intros i' Hi'. apply Hb. lia.
  - rewrite (cnt_set _ _ _ _ _ Hat). cbn. lia.
  - intros q Hq (r & Hr & Hk). apply (entries_store _ _ _ _ Hat eq_refl) in Hr as [->|Hr].
    + apply entries_elem in Hq as [jq Hjq]. specialize (Hdist 0%nat (S jq) p q eq_refl Hjq Hk). done.
    + apply (Hno q); [|by exists r]. apply entries_elem in Hq as [jq Hjq]. apply entries_elem. by exists (S jq).
  - done.
  - rewrite (cnt_set _ _ _ _ _ Hat). cbn. lia.
  - exists t. rewrite (cnt_set _ _ _ _ _ Hat) in Hc2. cbn [cnt is_entry] in *. split_and!; [done|done|done|lia|].
    intros q. rewrite He2, (entries_store _ _ _ _ Hat eq_refl). cbn. rewrite elem_of_cons. tauto.
Qed.

Lemma empty_table_ok sz : good_size sz ->
  table_ok (hash_f := hash_f) (eq_f := eq_f) (replicate (Z.to_nat sz) EMPTY_ENTRY) sz.
Proof.
  intros Hg. split; [done|rewrite length_replicate; destruct Hg as [_ ?]; lia| |].
  - intros j p [? _]%lookup_replicate. done.
  - intros j1 j2 p1 p2 [? _]%lookup_replicate. done.
Qed.

Lemma entries_replicate n : entries (replicate n EMPTY_ENTRY) = [].
Proof. induction n; done. Qed.

Lemma htab_expand_ok h :
  htab_ok h -> (n_elements h - n_deleted h) * 2 + 1 <= MAX_PRIME ->
  exists h', htab_expand hash_f h = Ok h' /\ htab_ok h' /\
    (forall p, p ∈ entries (table h') <-> p ∈ entries (table h)) /\
    n_elements h' = n_elements h - n_deleted h /\ n_elements h' * 2 + 1 <= size h' /\
    cnt is_entry (table h') = cnt is_entry (table h) /\ n_deleted h' = 0 /\
    cnt is_deleted (table h') = 0 /\ del_f h' = del_f h /\ del_calls h' = del_calls h.
Proof.
  intros Hok Hmax. pose proof (htab_counters h Hok) as (Hnd & Hne & Hsz). unfold MAX_PRIME in Hmax, Hsz.
  pose proof Hok as [Ht Hlive Hdel Hload].
  assert (u32 (n_elements h - n_deleted h) = n_elements h - n_deleted h) as E1 by (apply wrap_small; lia).
  unfold htab_expand. rewrite E1, (wrap_small 32 (_ * 2)), wrap_small by lia.
  destruct (get_higher_prime_ok ((n_elements h - n_deleted h) * 2 + 1)) as (sz & -> & Hsz' & Hle & _).
  { unfold MAX_PRIME. lia. }
  cbn [mbind res_bind]. pose proof (primes_are_prime _ Hsz') as Hg.
  destruct (rehash_ok sz (table h) (replicate (Z.to_nat sz) EMPTY_ENTRY)) as (t & -> & Ht2 & Hd2 & Hc2 & He2).
  - by apply empty_table_ok.
  - by rewrite cnt_replicate.
  - intros p _ (q & Hq & _). rewrite entries_replicate in Hq. set_solver.
  - intros. by eapply (tab_distinct _ _ Ht).
  - rewrite cnt_replicate. cbn. lia.
  - cbn [mbind res_bind]. eexists. split; [done|]. rewrite cnt_replicate in Hc2. cbn in Hc2 |- *.
    split_and!; try done; try lia.
    + split; cbn; [done|lia|lia|lia].
    + intros p. specialize (He2 p). rewrite entries_replicate in He2. clear -He2. set_solver.
Qed.

Lemma htab_create_ok n del : n <= MAX_PRIME ->
  exists h, htab_create n del = Ok h /\ htab_ok h /\ exact h /\ entries (table h) = [] /\
    size h ∈ primes /\ n <= size h.
Proof.
  intros Hn. destruct (get_higher_prime_ok n Hn) as (sz & E & Hsz & Hle & _).
  unfold htab_create. rewrite E. cbn [mbind res_bind]. pose proof (primes_are_prime _ Hsz) as Hg.
  eexists. split; [done|]. unfold exact. cbn [table size n_elements n_deleted]. rewrite !cnt_replicate.
  split_and!; [|done|done|apply entries_replicate|done|done].
  split; cbn [table size n_elements n_deleted]; rewrite ?cnt_replicate; [by apply empty_table_ok|done|done|].
  destruct Hg as [_ ?]. lia.
Qed.

Lemma htab_find_ok h k :
  htab_ok h ->
  exists r, htab_find_with_hash eq_f h k (hash_of k) = Ok r /\
    forall p, r = Some p <-> p ∈ entries (table h) /\ key_of p = k.
Proof. intros Hok. apply htab_find_table; [apply Hok|by apply htab_room]. Qed.

(** Looking for a slot without inserting. *)
Lemma htab_find_slot_no_insert h k :
  htab_ok h ->
  exists o, htab_find_slot_with_hash hash_f eq_f h k (hash_of k) NO_INSERT = Ok (h, o) /\
    match o with
    | Some idx => 0 <= idx /\ exists p, table h !! Z.to_nat idx = Some (Entry p) /\ key_of p = k
    | None => forall p, p ∈ entries (table h) -> key_of p <> k
    end.
Proof.
  intros Hok. unfold htab_find_slot_with_hash. cbn [mbind res_bind].
  destruct (htab_find_slot_table (table h) (size h) k (h_tab _ Hok) (htab_room _ Hok)) as (r & -> & Hr).
  cbn [mbind res_bind]. destruct r as [idx|idx fd]; cbn in Hr; (eexists; split; [done|]).
  - done.
  - destruct Hr as (_ & Hno & _). intros p Hp Hk. apply Hno. by exists p.
Qed.

Lemma htab_clear_slot_ok h idx p :
  htab_ok h -> 0 <= idx -> table h !! Z.to_nat idx = Some (Entry p) ->
  exists h', htab_clear_slot h idx = Ok h' /\ htab_ok h' /\
    (forall q, q ∈ entries (table h') <-> q ∈ entries (table h) /\ q <> p) /\
    (exact h -> exact h') /\ n_elements h' = n_elements h /\ n_deleted h' = n_deleted h + 1 /\
    del_calls h' = del_calls h ++ if del_f h then [p] else [].
Proof.
  intros Hok Hi Hp. pose proof (htab_counters h Hok) as (Hnd & Hne & Hsz). unfold MAX_PRIME in Hsz.
  pose proof Hok as [Ht Hlive Hdel Hload]. pose proof (lookup_lt_Some _ _ _ Hp) as Hlt.
  pose proof (tab_length _ _ Ht) as Hl. unfold htab_clear_slot, slot_at.
  rewrite (proj2 (Z.ltb_ge idx 0)), (proj2 (Z.leb_gt (size h) idx)) by lia. rewrite Hp. cbn [orb mbind res_bind].
  destruct (table_ok_clear _ _ _ _ Ht Hp) as [Ht' He']. rewrite wrap_small by lia. unfold set_slot.
  eexists. split; [done|]. unfold exact. cbn [table size n_elements n_deleted del_calls].
  rewrite !(cnt_set _ _ _ _ _ Hp). cbn [is_entry is_deleted]. split_and!; try done; [|lia].
  split; cbn [table size n_elements n_deleted]; rewrite ?(cnt_set _ _ _ _ _ Hp); cbn [is_entry is_deleted];
    [done|lia|lia|done].
Qed.

(** Finding or making a slot, and storing a new entry there: what callers do. *)
Definition expand_safe (h : htab) : Prop := (n_elements h - n_deleted h) * 2 + 1 <= MAX_PRIME.

Lemma maybe_expand_ok h :
  htab_ok h -> expand_safe h ->
  exists h', (if u32 (size h * 2) <=? u32 (n_elements h * 3) then htab_expand hash_f h else Ok h) = Ok h' /\
    htab_ok h' /\ (forall p, p ∈ entries (table h') <-> p ∈ entries (table h)) /\
    n_elements h' * 3 < size h' * 2 /\ (exact h -> exact h') /\
    n_elements h' - n_deleted h' = n_elements h - n_deleted h /\
    del_f h' = del_f h /\ del_calls h' = del_calls h.
Proof.
  intros Hok Hs. pose proof (htab_counters h Hok) as (Hnd & Hne & Hsz). unfold MAX_PRIME in Hsz.
  rewrite !wrap_small by (pose proof (h_load _ Hok); lia). case_if.
  - destruct (htab_expand_ok h Hok Hs) as (h' & E' & Hok' & He & En & Hn2 & Hc & Hd0 & Hcd & Hdf & Hdc).
    exists h'. pose proof (htab_counters h' Hok') as (_ & _ & Hsz').
    split_and!; try done; try lia. unfold exact. intros [Hx1 Hx2]. split; lia.
  - exists h. split_and!; done || lia.
Qed.

Lemma htab_insert_ok h k p :
  htab_ok h -> expand_safe h -> key_of p = k ->
  exists h' idx, htab_find_slot_with_hash hash_f eq_f h k (hash_of k) INSERT = Ok (h', Some idx) /\
    ((exists q, q ∈ entries (table h) /\ key_of q = k /\ table h' !! Z.to_nat idx = Some (Entry q) /\
       htab_ok h' /\ (forall r, r ∈ entries (table h') <-> r ∈ entries (table h)) /\
       (exact h -> exact h')) \/
     (forall q, q ∈ entries (table h) -> key_of q <> k) /\
     table h' !! Z.to_nat idx = Some EMPTY_ENTRY /\
     let h2 := htab_store h' idx p in
     htab_ok h2 /\ (forall r, r ∈ entries (table h2) <-> r = p \/ r ∈ entries (table h)) /\
     (exact h -> exact h2) /\
     n_elements h2 - n_deleted h2 = n_elements h - n_deleted h + 1 /\ del_calls h2 = del_calls h).
Proof.
  intros Hok Hs Hk. unfold htab_find_slot_with_hash.
  destruct (maybe_expand_ok h Hok Hs) as (h1 & -> & Hok1 & He1 & Hl1 & Hx1 & Hn1 & Hdf1 & Hdc1).
  cbn [mbind res_bind]. pose proof (htab_counters h1 Hok1) as (Hnd & Hne & Hsz). unfold MAX_PRIME in Hsz.
  destruct (htab_find_slot_table (table h1) (size h1) k (h_tab _ Hok1) (htab_room _ Hok1)) as (r & -> & Hr).
  cbn [mbind res_bind]. pose proof Hok1 as [Ht1 Hlive1 Hdel1 Hload1].
  destruct r as [idx|idx [d|]]; cbn in Hr.
  - destruct Hr as (_ & q & Hq & Hkq). exists h1, idx. split; [done|left]. exists q.
    split_and!; try done. apply He1. apply entries_elem. by eexists.
  - destruct Hr as (_ & Hno & Hd0 & Hd & Hreach). eexists _, d. split; [done|right].
    pose proof (lookup_lt_Some _ _ _ Hd) as Hlt. unfold htab_store, set_slot. cbn [table size n_elements n_deleted].
    assert (n_deleted h1 > 0) as Hpos.
    { pose proof (cnt_set is_deleted _ _ _ EMPTY_ENTRY Hd) as H. cbn in H.
      pose proof (cnt_range is_deleted (<[Z.to_nat d := EMPTY_ENTRY]> (table h1))). lia. }
    rewrite wrap_small by lia. rewrite list_insert_insert_eq.
    split_and!; [| by apply list_lookup_insert_eq | | | | lia | done].
    + intros q Hq Hkq. apply Hno. exists q. split; [by apply He1|done].
    + split; cbn [table size n_elements n_deleted]; rewrite ?(cnt_set _ _ _ _ _ Hd); cbn [is_entry is_deleted];
        [|lia|lia|lia]. eapply table_ok_store; [done|exact Hd|done|by rewrite Hk|].
      rewrite (hash_f_key (hash_f := hash_f) p), Hk. done.
    + intros q. rewrite (entries_store _ _ _ _ Hd eq_refl), He1. done.
    + intros Hx%Hx1. unfold exact in *. cbn [table n_elements n_deleted].
      rewrite !(cnt_set _ _ _ _ _ Hd). cbn [is_entry is_deleted]. lia.
  - destruct Hr as (_ & Hno & Hd & Hreach). eexists _, idx. split; [done|right].
    pose proof (lookup_lt_Some _ _ _ Hd) as Hlt. unfold htab_store, set_slot. cbn [table size n_elements n_deleted].
    rewrite wrap_small by lia. split_and!; [| done | | | | lia | done].
    + intros q Hq Hkq. apply Hno. exists q. split; [by apply He1|done].
    + split; cbn [table size n_elements n_deleted]; rewrite ?(cnt_set _ _ _ _ _ Hd); cbn [is_entry is_deleted];
        [|lia|lia|lia]. eapply table_ok_store; [done|exact Hd|done|by rewrite Hk|].
      rewrite (hash_f_key (hash_f := hash_f) p), Hk. done.
    + intros q. rewrite (entries_store _ _ _ _ Hd eq_refl), He1. done.
    + intros Hx%Hx1. unfold exact in *. cbn [table n_elements n_deleted].
      rewrite !(cnt_set _ _ _ _ _ Hd). cbn [is_entry is_deleted]. lia.
Qed.
(** Overwriting an entry with another one that has the same key. *)
Lemma htab_replace_ok h idx q p :
  htab_ok h -> table h !! Z.to_nat idx = Some (Entry q) -> key_of p = key_of q ->
  htab_ok (htab_store h idx p) /\
  (forall r, r ∈ entries (table (htab_store h idx p)) <->
     r = p \/ r ∈ entries (table h) /\ r <> q) /\
  (exact h -> exact (htab_store h idx p)).
Proof.
  intros [[Hg Hl Hr Hd] H1 H2 H3] Hj Hk. pose proof (lookup_lt_Some _ _ _ Hj) as Hlt.
  unfold htab_store, set_slot, exact. cbn [table size n_elements n_deleted]. set (j := Z.to_nat idx) in *.
  assert (forall i r, <[j := Entry p]> (table h) !! i = Some (Entry r) ->
    i = j /\ r = p \/ i <> j /\ table h !! i = Some (Entry r)) as Hlk.
  { intros i r. destruct (decide (i = j)) as [->|]; [rewrite list_lookup_insert_eq by done|
      rewrite list_lookup_insert_ne by done]; naive_solver. }
  split_and!.
  - split; cbn [table size n_elements n_deleted]; rewrite ?(cnt_set _ _ _ _ _ Hj); cbn [is_entry is_deleted];
      [|lia|lia|done].
    split; [done|by rewrite length_insert| |].
    + assert (forall i r, table h !! i = Some (Entry r) ->
        reachable (<[j := Entry p]> (table h)) (size h) (hash_f r) i) as Hr'.
      { intros i r Hi. apply (reachable_mono (table h)); [by apply Hr|].
        intros i'. destruct (decide (i' = j)) as [->|]; [by rewrite list_lookup_insert_eq|
          by rewrite list_lookup_insert_ne]. }
      intros i r [[-> ->]|[Hij Hi]]%Hlk; [|by apply Hr'].
      rewrite (hash_f_key (hash_f := hash_f) p), Hk, <-(hash_f_key (hash_f := hash_f) q). by apply Hr'.
    + intros j1 j2 p1 p2 [[-> ->]|[Hn1 Hj1]]%Hlk [[-> ->]|[Hn2 Hj2]]%Hlk; [done| | |by eapply Hd];
        rewrite Hk; intros E; exfalso; [apply Hn2; symmetry|apply Hn1]; by eapply Hd.
  - intros r. split; [intros [i Hi]%entries_elem|intros [->|[[i Hi]%entries_elem Hne]]; apply entries_elem].
    + apply Hlk in Hi as [[_ ->]|[Hn Hi]]; [by left|right].
      split; [apply entries_elem; by eexists|]. intros ->. apply Hn. by eapply Hd.
    + exists j. by apply list_lookup_insert_eq.
    + exists i. rewrite list_lookup_insert_ne; [done|]. intros <-. congruence.
  - rewrite !(cnt_set _ _ _ _ _ Hj). cbn [is_entry is_deleted]. lia.
Qed.
End table_ops.

(** ** Emptying and iterating *)

Section whole_table.
Context {K : Type} {hash_f : ptr -> Z} {eq_f : ptr -> K -> bool} `{HK : !HtabKeys hash_f eq_f}.

Lemma htab_empty_ok h :
  htab_ok (hash_f := hash_f) (eq_f := eq_f) h ->
  htab_ok (hash_f := hash_f) (eq_f := eq_f) (htab_empty h) /\ entries (table (htab_empty h)) = [] /\
  n_elements (htab_empty h) = n_elements h /\ n_deleted (htab_empty h) = n_deleted h.
Proof.
  intros Hok. pose proof (htab_counters h Hok) as (Hnd & Hne & Hsz). pose proof Hok as [Ht _ _ Hload].
  pose proof (tab_length _ _ Ht) as Hl. unfold htab_empty. cbn [table n_elements n_deleted].
  split_and!; [|apply entries_replicate|done|done].
  split; cbn [table size n_elements n_deleted]; rewrite ?cnt_replicate; cbn; [|lia|lia|lia].
  replace (length (table h)) with (Z.to_nat (size h)) by lia. apply empty_table_ok, Ht.
Qed.

Lemma htab_for_each_ok h :
  htab_ok (hash_f := hash_f) (eq_f := eq_f) h -> expand_safe h ->
  exists h', htab_for_each_prepare hash_f h = Ok h' /\
    htab_ok (hash_f := hash_f) (eq_f := eq_f) h' /\
    (forall p, p ∈ entries (table h') <-> p ∈ entries (table h)) /\ (exact h -> exact h') /\
    n_elements h' - n_deleted h' = n_elements h - n_deleted h /\ del_calls h' = del_calls h.
Proof.
  intros Hok Hs. unfold htab_for_each_prepare. case_if; [|by exists h].
  destruct (htab_expand_ok h Hok Hs) as (h' & E' & Hok' & He & En & Hn2 & Hc & Hd0 & Hcd & Hdf & Hdc).
  exists h'. split_and!; try done; [|lia]. unfold exact. intros [Hx1 Hx2]. split; lia.
Qed.
End whole_table.

(** ** Properties *)

(** Entries that are their own keys. *)
#[export] Instance nat_keys :
  HtabKeys (K := nat) (fun p => Z.of_nat p mod 2 ^ 32) (fun p k => bool_decide (p = k)).
Proof.
  refine {| key_of := id; hash_of := fun k => Z.of_nat k mod 2 ^ 32 |}.
  - intros k. unfold is_u32. apply Z.mod_pos_bound. lia.
  - done.
  - intros p k. apply bool_decide_eq_true.
Defined.

Definition sample_htab : htab :=
  MkHtab [EMPTY_ENTRY; EMPTY_ENTRY; EMPTY_ENTRY; Entry 3; EMPTY_ENTRY; EMPTY_ENTRY; EMPTY_ENTRY]
    7 1 0 true [].

Lemma good_size_7 : good_size 7.
Proof. apply primes_are_prime. unfold primes. set_solver. Qed.

Lemma sample_htab_ok :
  htab_ok (hash_f := fun p => Z.of_nat p mod 2 ^ 32) (eq_f := fun p k => bool_decide (p = k)) sample_htab.
Proof.
  split; cbn; [|lia|lia|lia].
  apply (table_ok_store (replicate 7 EMPTY_ENTRY) 7 3 EMPTY_ENTRY 3 (empty_table_ok 7 good_size_7)).
  - done.
  - done.
  - intros (p & Hp & _). rewrite entries_replicate in Hp. set_solver.
  - exists 0%nat. split; [done|lia].
Qed.

(** C19. For every size a table can have and every 32-bit hash value, stepping with
    the source's 32-bit arithmetic visits each slot within [size] probes, so the
    probing loops end as soon as one slot is empty; in particular every number of
    the size table is prime. *)
Theorem probing_visits_every_slot (sz h : Z) (j : Z) :
  sz ∈ primes -> is_u32 h -> 0 <= j < sz ->
  exists i, (i < Z.to_nat sz)%nat /\
    Nat.iter i (next_idx sz (probe_step sz h)) (first_idx sz h) = j.
Proof.
  intros Hsz _ Hj. pose proof (primes_are_prime _ Hsz) as Hg.
  destruct (probe_covers sz h j Hg Hj) as (i & Hi & E). exists i. split; [done|]. rewrite <-E. clear E Hi.
  induction i as [|i IH]; [apply first_idx_probe|]. rewrite Nat.iter_succ, IH. by apply next_idx_probe.
Qed.

Lemma probing_visits_every_slot_witness :
  exists i, (i < Z.to_nat 2147483647)%nat /\
    Nat.iter i (next_idx 2147483647 (probe_step 2147483647 12345)) (first_idx 2147483647 12345) = 99.
Proof.
  apply (probing_visits_every_slot 2147483647 12345 99).
  - unfold primes. set_solver.
  - unfold is_u32. lia.
  - lia.
Defined.

(** [htab_find_with_hash] returns within [size] probes, and returns an entry
    with the key exactly when the table holds one. *)
Theorem htab_find_correct {K : Type} (hash_f : ptr -> Z) (eq_f : ptr -> K -> bool)
    `{!HtabKeys hash_f eq_f} (h : htab) (k : K) :
  htab_ok (hash_f := hash_f) (eq_f := eq_f) h ->
  exists r, htab_find_with_hash eq_f h k (hash_of k) = Ok r /\
    forall p, r = Some p <-> p ∈ entries (table h) /\ key_of p = k.
Proof. apply htab_find_ok. Qed.

Lemma htab_find_correct_witness :
  exists r, htab_find_with_hash (fun p k => bool_decide (p = k)) sample_htab 3%nat 3 = Ok r /\
    forall p, r = Some p <-> p ∈ entries (table sample_htab) /\ p = 3%nat.
Proof. apply (htab_find_correct _ _ sample_htab 3%nat sample_htab_ok). Defined.

(** Inserting through [htab_find_slot_with_hash] and storing in the slot: the
    search returns the slot of the entry that has the key, or a free slot; storing
    a new entry there keeps the table well-formed (reachable, distinct keys, at
    least one empty slot, exact counters) and adds exactly that entry.  The table
    grows when it is two thirds full. *)
Theorem htab_insert_correct {K : Type} (hash_f : ptr -> Z) (eq_f : ptr -> K -> bool)
    `{!HtabKeys hash_f eq_f} (h : htab) (p : ptr) :
  htab_ok (hash_f := hash_f) (eq_f := eq_f) h -> expand_safe h ->
  exists h' idx, htab_find_slot_with_hash hash_f eq_f h (key_of p) (hash_of (key_of p)) INSERT
      = Ok (h', Some idx) /\
    ((exists q, q ∈ entries (table h) /\ key_of q = key_of p /\
       table h' !! Z.to_nat idx = Some (Entry q) /\
       htab_ok (hash_f := hash_f) (eq_f := eq_f) h' /\
       (forall r, r ∈ entries (table h') <-> r ∈ entries (table h))) \/
     (forall q, q ∈ entries (table h) -> key_of q <> key_of p) /\
     htab_ok (hash_f := hash_f) (eq_f := eq_f) (htab_store h' idx p) /\
     (exact h -> exact (htab_store h' idx p)) /\
     forall r, r ∈ entries (table (htab_store h' idx p)) <-> r = p \/ r ∈ entries (table h)).
Proof.
  intros Hok Hs. destruct (htab_insert_ok h (key_of p) p Hok Hs eq_refl)
    as (h' & idx & E & [(q & Hq & Hk & Hat & Hok' & He & _)|(Hno & _ & Hok' & He & Hx & _)]);
    exists h', idx; (split; [done|]); [left; by exists q|right; done].
Qed.

Lemma htab_insert_correct_witness :
  exists h' idx,
    htab_find_slot_with_hash (fun p => Z.of_nat p mod 2 ^ 32) (fun p k => bool_decide (p = k))
      sample_htab 10%nat 10 INSERT = Ok (h', Some idx) /\
    htab_ok (hash_f := fun p => Z.of_nat p mod 2 ^ 32) (eq_f := fun p k => bool_decide (p = k))
      (htab_store h' idx 10).
Proof.
  destruct (htab_insert_correct _ _ sample_htab 10%nat sample_htab_ok) as (h' & idx & E & H).
  { unfold expand_safe, MAX_PRIME. cbn. lia. }
  exists h', idx. split; [exact E|]. destruct H as [(q & Hq & Hk & _)|(_ & H & _)]; [|exact H].
  exfalso. cbn in Hq, Hk. set_solver.
Defined.

(** [htab_clear_slot] removes exactly the entry of the slot, calls the cleanup
    function once, and keeps every other entry reachable; clearing a slot that
    holds no entry, or one outside the table, aborts. *)
Theorem htab_clear_slot_correct {K : Type} (hash_f : ptr -> Z) (eq_f : ptr -> K -> bool)
    `{!HtabKeys hash_f eq_f} (h : htab) (idx : Z) :
  htab_ok (hash_f := hash_f) (eq_f := eq_f) h -> 0 <= idx ->
  match table h !! Z.to_nat idx with
  | Some (Entry p) =>
      exists h', htab_clear_slot h idx = Ok h' /\
        htab_ok (hash_f := hash_f) (eq_f := eq_f) h' /\ (exact h -> exact h') /\
        (forall q, q ∈ entries (table h') <-> q ∈ entries (table h) /\ q <> p) /\
        del_calls h' = del_calls h ++ if del_f h then [p] else []
  | _ => htab_clear_slot h idx = Aborted
  end.
Proof.
  intros Hok Hi. destruct (table h !! Z.to_nat idx) as [s|] eqn:Hs.
  - destruct s as [| |p].
    1,2: unfold htab_clear_slot, slot_at; rewrite Hs; by case_if.
    destruct (htab_clear_slot_ok h idx p Hok Hi Hs) as (h' & E & Hok' & He & Hx & _ & _ & Hd). by exists h'.
  - unfold htab_clear_slot, slot_at. rewrite Hs. by case_if.
Qed.

Lemma htab_clear_slot_correct_witness :
  exists h', htab_clear_slot sample_htab 3 = Ok h' /\ del_calls h' = [3%nat].
Proof.
  destruct (htab_clear_slot_correct _ _ sample_htab 3 sample_htab_ok ltac:(lia)) as (h' & E & _ & _ & _ & Hd).
  exists h'. split; [exact E|exact Hd].
Defined.

(** C20. [htab_expand] (used when the table fills up and before iterating over a
    sparse one) keeps exactly the entries, drops the deleted slots, picks a size
    from the prime table and leaves the table at most half full; it aborts only
    when more than 2^30 - 1 entries are alive. *)
Theorem htab_expand_correct {K : Type} (hash_f : ptr -> Z) (eq_f : ptr -> K -> bool)
    `{!HtabKeys hash_f eq_f} (h : htab) :
  htab_ok (hash_f := hash_f) (eq_f := eq_f) h ->
  ((n_elements h - n_deleted h) * 2 + 1 <= MAX_PRIME ->
   exists h', htab_expand hash_f h = Ok h' /\ htab_ok (hash_f := hash_f) (eq_f := eq_f) h' /\
     (forall p, p ∈ entries (table h') <-> p ∈ entries (table h)) /\
     n_deleted h' = 0 /\ cnt is_deleted (table h') = 0 /\ n_elements h' * 2 + 1 <= size h') /\
  (MAX_PRIME < (n_elements h - n_deleted h) * 2 + 1 -> htab_expand hash_f h = Aborted).
Proof.
  intros Hok. split; intros Hm.
  - destruct (htab_expand_ok h Hok Hm) as (h' & E' & Hok' & He & En & Hn2 & Hc & Hd0 & Hcd & _). by exists h'.
  - pose proof (htab_counters h Hok) as (Hnd & Hne & Hsz). unfold htab_expand, get_higher_prime, MAX_PRIME in *.
    rewrite (wrap_small 32 (n_elements h - n_deleted h)), (wrap_small 32 (_ * 2)), wrap_small by lia.
    by rewrite (proj2 (Z.ltb_lt _ _)) by lia.
Qed.

Lemma htab_expand_correct_witness :
  exists h', htab_expand (fun p => Z.of_nat p mod 2 ^ 32) sample_htab = Ok h' /\
    forall p, p ∈ entries (table h') <-> p ∈ entries (table sample_htab).
Proof.
  destruct (htab_expand_correct _ _ sample_htab sample_htab_ok) as [H _].
  destruct H as (h' & E & _ & He & _); [unfold MAX_PRIME; cbn; lia|]. exists h'. split; [exact E|exact He].
Defined.

(** [htab_empty] forgets to reset the counters: the table has no entries left,
    yet [n_elements - n_deleted], the number callers take for its size, is still
    the old one. *)
Theorem htab_empty_keeps_counters {K : Type} (hash_f : ptr -> Z) (eq_f : ptr -> K -> bool)
    `{!HtabKeys hash_f eq_f} (h : htab) :
  htab_ok (hash_f := hash_f) (eq_f := eq_f) h -> exact h -> entries (table h) <> [] ->
  entries (table (htab_empty h)) = [] /\ ~ exact (htab_empty h) /\
  n_elements (htab_empty h) - n_deleted (htab_empty h) = Z.of_nat (length (entries (table h))).
Proof.
  intros Hok [Hx1 Hx2] Hne. destruct (htab_empty_ok h Hok) as (_ & He & En & Ed). rewrite En, Ed.
  rewrite entries_length. split_and!; [done| |lia].
  intros [Hy _]. rewrite <-entries_length, He, En, Ed in Hy. cbn in Hy. apply Hne.
  rewrite <-entries_length in Hx1. destruct (entries (table h)); [done|]. cbn in Hx1. lia.
Qed.

Lemma htab_empty_keeps_counters_witness :
  n_elements (htab_empty sample_htab) - n_deleted (htab_empty sample_htab) = 1.
Proof.
  destruct (htab_empty_keeps_counters _ _ sample_htab sample_htab_ok) as (_ & _ & H); [by split|done|exact H].
Defined.
