(* ===== verification/Chain.v ===== *)
(** Hashed chains: the heap, the doubly linked chain and the hash table that
    [src/zfsd/fs-entities/journal/journal.c] and
    [src/zfsd/fs-entities/hardlink/hardlink-list.c] share (the two files repeat
    the same statements).

    The heap is explicit: [cells] holds the entries allocated from the pool of
    the source file, [live] the strings obtained from [malloc].  Reading or
    writing through a pointer that designates no entry, freeing a string twice
    and freeing an entry twice are [Aborted].  A freed entry leaves [cells], so a
    use after free is caught.  The pool is shared by all chains of a kind: the
    lemmas say that the entries of the other chains are not touched. *)

From S2P Require Import Prelude AllocPool Hashtab.

(** [string] of [memory.h]: the [len] field, the characters before the
    terminating NUL and the address of the block that holds them. *)
Record name_t := MkName { len : Z; chars : list Z; str : ptr }.

Record cell (A : Type) := MkCell { next : option ptr; prev : option ptr; data : A }.
Arguments MkCell {A} next prev data.
Arguments next {A} c.
Arguments prev {A} c.
Arguments data {A} c.

Record heap (A : Type) := MkHeap {
  pool : alloc_pool;
  cells : gmap ptr (cell A);
  live : gset ptr
}.
Arguments MkHeap {A} pool cells live.
Arguments pool {A} h.
Arguments cells {A} h.
Arguments live {A} h.

Record chain := MkChain { first : option ptr; last : option ptr }.

(** What the entries of a chain look like: their name, the key the table
    compares, its hash. *)
Class Keyed (A K : Type) := {
  name_of : A -> name_t;
  kof : A -> K;
  khash : K -> Z;
  keq : K -> K -> bool;
  kdef : K;
  khash_range : forall k, is_u32 (khash k);
  keq_spec : forall k1 k2, keq k1 k2 = true <-> k1 = k2
}.

(** ** Operations *)

Section ops.
Context {A K : Type} `{!Keyed A K}.
Implicit Types (m : heap A) (c : chain) (p q : ptr).

Definition deref m p : res (cell A) :=
  match cells m !! p with Some e => Ok e | None => Aborted end.

Definition set_cell m p (e : cell A) : heap A := MkHeap (pool m) (<[p := e]> (cells m)) (live m).

Definition assign_next m p (v : option ptr) : res (heap A) :=
  e ← deref m p; Ok (set_cell m p (MkCell v (prev e) (data e))).

Definition assign_prev m p (v : option ptr) : res (heap A) :=
  e ← deref m p; Ok (set_cell m p (MkCell (next e) v (data e))).

Definition assign_data m p (d : A) : res (heap A) :=
  e ← deref m p; Ok (set_cell m p (MkCell (next e) (prev e) d)).

(** [pool_alloc]; the links are not initialised, [d] shows the fields that are. *)
Definition alloc_entry m (d : A) : res (ptr * heap A) :=
  '(p, pl) ← pool_alloc (pool m);
  Ok (p, MkHeap pl (<[p := MkCell None None d]> (cells m)) (live m)).

Definition free_entry m p : res (heap A) :=
  pl ← pool_free (pool m) p;
  Ok (MkHeap pl (delete p (cells m)) (live m)).

(** [free (s)] *)
Definition xfree m (s : ptr) : res (heap A) :=
  if decide (s ∈ live m) then Ok (MkHeap (pool m) (cells m) (live m ∖ {[s]})) else Aborted.

(** [xmemdup]: a block that is not in use. *)
Definition xmemdup m : ptr * heap A :=
  let s := fresh (live m) in (s, MkHeap (pool m) (cells m) ({[s]} ∪ live m)).

(** [if (copy) entry->name.str = xmemdup (name->str, ...)] *)
Definition own_name (copy : bool) m (name : name_t) : name_t * heap A :=
  if copy then let '(s, m) := xmemdup m in (MkName (len name) (chars name) s, m) else (name, m).

Definition unlink m c p : res (heap A * chain) :=
  e ← deref m p;
  '(m, c) ← match next e with
            | Some q => m ← assign_prev m q (prev e); Ok (m, c)
            | None => Ok (m, MkChain (first c) (prev e))
            end;
  e ← deref m p;
  match prev e with
  | Some q => m ← assign_next m q (next e); Ok (m, c)
  | None => Ok (m, MkChain (next e) (last c))
  end.

(** [unlink], [free (del->name.str)], [pool_free (pool, del)] *)
Definition discard m c p : res (heap A * chain) :=
  '(m, c) ← unlink m c p;
  e ← deref m p;
  m ← xfree m (str (name_of (data e)));
  m ← free_entry m p;
  Ok (m, c).

Definition append m c p : res (heap A * chain) :=
  m ← assign_next m p None;
  m ← assign_prev m p (last c);
  m ← match last c with Some q => assign_next m q (Some p) | None => Ok m end;
  Ok (m, MkChain (match first c with None => Some p | f => f end) (Some p)).

(** [for (entry = first; entry; entry = next) { next = entry->next; ... }] *)
Fixpoint free_entries (fuel : nat) m (entry : option ptr) : res (heap A) :=
  match entry with
  | None => Ok m
  | Some p =>
      match fuel with
      | O => OutOfFuel
      | S fuel =>
          e ← deref m p;
          m ← xfree m (str (name_of (data e)));
          m ← free_entry m p;
          free_entries fuel m (next e)
      end
  end.

Definition free_all m c : res (heap A) := free_entries (base.size (cells m)) m (first c).

(** The hash and comparison functions of a table of entries. *)
Definition key_at m p : K := match cells m !! p with Some e => kof (data e) | None => kdef end.
Definition hash_at m p : Z := khash (key_at m p).
Definition eq_at m p (k : K) : bool := keq (key_at m p) k.

#[global] Program Instance heap_keys m : HtabKeys (hash_at m) (eq_at m) := {
  key_of := key_at m;
  hash_of := khash
}.
Next Obligation. intros. apply khash_range. Qed.
Next Obligation. done. Qed.
Next Obligation. intros. apply keq_spec. Qed.
End ops.

(** ** Chains as lists *)

Section chain_lemmas.
Context {A K : Type} `{!Keyed A K}.
Implicit Types (m : heap A) (c : chain) (p q : ptr) (l : list (ptr * A)) (s : gmap ptr (cell A)).

Definition head_or (l : list (ptr * A)) (o : option ptr) : option ptr :=
  match l with [] => o | (p, _) :: _ => Some p end.

Fixpoint last_or (o : option ptr) (l : list (ptr * A)) : option ptr :=
  match l with [] => o | (p, _) :: l => last_or (Some p) l end.

(** The cells of [l] in order, linked both ways between [pv] and [nx]. *)
Fixpoint dll s (pv : option ptr) l (nx : option ptr) : Prop :=
  match l with
  | [] => True
  | (p, d) :: l' => s !! p = Some (MkCell (head_or l' nx) pv d) /\ dll s (Some p) l' nx
  end.

Lemma head_or_app l1 l2 o : head_or (l1 ++ l2) o = head_or l1 (head_or l2 o).
Proof. by destruct l1 as [|[]]. Qed.

Lemma last_or_app l1 l2 o : last_or o (l1 ++ l2) = last_or (last_or o l1) l2.
Proof. revert o; induction l1 as [|[] l1 IH]; intros; [done|apply IH]. Qed.

Lemma dll_app s l1 l2 pv nx :
  dll s pv (l1 ++ l2) nx <-> dll s pv l1 (head_or l2 nx) /\ dll s (last_or pv l1) l2 nx.
Proof.
  revert pv; induction l1 as [|[p d] l1 IH]; intros pv; cbn [app dll last_or]; [naive_solver|].
  rewrite head_or_app, IH. naive_solver.
Qed.

Lemma dll_frame s s' l pv nx :
  (forall p, p ∈ l.*1 -> s' !! p = s !! p) -> dll s pv l nx -> dll s' pv l nx.
Proof.
  revert pv; induction l as [|[p d] l IH]; intros pv Hs; [done|]. cbn [dll]. intros [Hp Hl].
  split; [rewrite Hs; [done|]|apply IH; [|done]]; set_solver.
Qed.

Lemma dll_lookup s l pv nx p d :
  dll s pv l nx -> (p, d) ∈ l -> exists e, s !! p = Some e /\ data e = d.
Proof.
  revert pv; induction l as [|[q b] l IH]; intros pv Hl Hin; [by apply elem_of_nil in Hin|].
  destruct Hl as [Hq Hl]. apply elem_of_cons in Hin as [[= -> ->]|Hin]; eauto.
Qed.

Lemma dll_domain s l pv nx p : dll s pv l nx -> p ∈ l.*1 -> is_Some (s !! p).
Proof.
  intros Hl [[q d] [-> Hin]]%list_elem_of_fmap. destruct (dll_lookup _ _ _ _ _ _ Hl Hin) as (e & He & _). by exists e.
Qed.

(** Redirecting the first and the last link of a chain. *)
Lemma dll_set_prev s p d l pv pv' nx :
  NoDup ((p, d) :: l).*1 -> dll s pv ((p, d) :: l) nx ->
  dll (<[p := MkCell (head_or l nx) pv' d]> s) pv' ((p, d) :: l) nx.
Proof.
  cbn. intros [Hp Hnd]%NoDup_cons [Hs Hl]. rewrite lookup_insert_eq. split; [done|].
  eapply dll_frame; [|done]. intros q Hq. rewrite lookup_insert_ne; set_solver.
Qed.

Lemma dll_set_next s p d l pv nx nx' :
  NoDup (l ++ [(p, d)]).*1 -> dll s pv (l ++ [(p, d)]) nx ->
  dll (<[p := MkCell nx' (last_or pv l) d]> s) pv (l ++ [(p, d)]) nx'.
Proof.
  rewrite fmap_app. intros (Hnd & Hd & _)%NoDup_app [Hl [Hp _]]%dll_app. apply dll_app. cbn in *.
  rewrite lookup_insert_eq. split; [|done]. eapply dll_frame; [|done].
  intros q Hq. rewrite lookup_insert_ne; [done|]. intros <-. eapply Hd; set_solver.
Qed.

Lemma deref_Some m p e : cells m !! p = Some e -> deref m p = Ok e.
Proof. unfold deref. by intros ->. Qed.

Lemma assign_next_Some m p v e :
  cells m !! p = Some e -> assign_next m p v = Ok (set_cell m p (MkCell v (prev e) (data e))).
Proof. unfold assign_next. by intros ->%deref_Some. Qed.

Lemma assign_prev_Some m p v e :
  cells m !! p = Some e -> assign_prev m p v = Ok (set_cell m p (MkCell (next e) v (data e))).
Proof. unfold assign_prev. by intros ->%deref_Some. Qed.

Lemma assign_data_Some m p d e :
  cells m !! p = Some e -> assign_data m p d = Ok (set_cell m p (MkCell (next e) (prev e) d)).
Proof. unfold assign_data. by intros ->%deref_Some. Qed.

(** [m'] differs from [m] in the links of the cells [ps] at most. *)
Record relinked (ps : list ptr) m m' : Prop := {
  rl_pool : pool m' = pool m;
  rl_live : live m' = live m;
  rl_frame : forall q, q ∉ ps -> cells m' !! q = cells m !! q;
  rl_dom : forall q, is_Some (cells m' !! q) <-> is_Some (cells m !! q)
}.

Lemma relinked_refl ps m : relinked ps m m.
Proof. by split. Qed.

Lemma relinked_trans ps1 ps2 ps m1 m2 m3 :
  relinked ps1 m1 m2 -> relinked ps2 m2 m3 -> ps1 ⊆ ps -> ps2 ⊆ ps -> relinked ps m1 m3.
Proof.
  intros [P1 L1 F1 D1] [P2 L2 F2 D2] Hs1 Hs2. split; [congruence|congruence| |].
  - intros q Hq. rewrite F2, F1; set_solver.
  - intros q. by rewrite D2, D1.
Qed.

Lemma set_cell_relinked m p e e' :
  cells m !! p = Some e -> relinked [p] m (set_cell m p e').
Proof.
  intros Hp. split; [done|done| |].
  - intros q Hq. cbn. rewrite lookup_insert_ne; set_solver.
  - intros q. cbn. destruct (decide (p = q)) as [->|]; [rewrite lookup_insert_eq, Hp|rewrite lookup_insert_ne by done];
      by split; eauto.
Qed.

(** The two halves of [unlink]. *)
Lemma relink_right m c l pv pv' nx :
  NoDup l.*1 -> dll (cells m) pv l nx ->
  exists m', match head_or l None with
             | Some q => m ← assign_prev m q pv'; Ok (m, c)
             | None => Ok (m, MkChain (first c) pv')
             end = Ok (m', MkChain (first c) (match l with [] => pv' | _ => last c end)) /\
    dll (cells m') pv' l nx /\ relinked l.*1 m m'.
Proof.
  destruct l as [|[p d] l]; cbn [head_or]; intros Hnd Hl.
  - exists m. split_and!; [done|done|apply relinked_refl].
  - pose proof Hl as [Hp _]. rewrite (assign_prev_Some _ _ _ _ Hp). cbn [mbind res_bind next prev data].
    destruct c. eexists. split; [done|]. split; [by eapply dll_set_prev|].
    eapply relinked_trans; [apply relinked_refl|by eapply set_cell_relinked|set_solver|set_solver].
Qed.

Lemma relink_left m c l pv nx nx' :
  NoDup l.*1 -> dll (cells m) pv l nx ->
  exists m', match last_or None l with
             | Some q => m ← assign_next m q nx'; Ok (m, c)
             | None => Ok (m, MkChain nx' (last c))
             end = Ok (m', MkChain (match l with [] => nx' | _ => first c end) (last c)) /\
    dll (cells m') pv l nx' /\ relinked l.*1 m m'.
Proof.
  destruct l as [|[p d] l _] using rev_ind; intros Hnd Hl.
  - exists m. split_and!; [done|done|apply relinked_refl].
  - pose proof Hl as [_ [Hp _]]%dll_app. rewrite last_or_app. cbn [last_or].
    rewrite (assign_next_Some _ _ _ _ Hp). cbn [mbind res_bind next prev data].
    eexists. split; [by destruct l, c|]. split; [by eapply dll_set_next|].
    eapply relinked_trans; [apply relinked_refl|by eapply set_cell_relinked|set_solver|].
    rewrite fmap_app. set_solver.
Qed.

Record chain_ok s c l : Prop := {
  c_nodup : NoDup l.*1;
  c_dll : dll s None l None;
  c_first : first c = head_or l None;
  c_last : last c = last_or None l
}.

Lemma last_or_none l o : last_or o l = match l with [] => o | _ => last_or None l end.
Proof. by destruct l as [|[]]. Qed.

Lemma unlink_ok m c p d l1 l2 :
  chain_ok (cells m) c (l1 ++ (p, d) :: l2) ->
  exists m' c', unlink m c p = Ok (m', c') /\ chain_ok (cells m') c' (l1 ++ l2) /\
    relinked (l1 ++ l2).*1 m m' /\ cells m' !! p = cells m !! p.
Proof.
  intros [Hnd Hl Hf Hla]. apply dll_app in Hl as [Hl1 [Hp Hl2]]. cbn [head_or] in Hl1.
  rewrite fmap_app in Hnd. apply NoDup_app in Hnd as (Hn1 & Hd & [Hpn Hn2]%NoDup_cons).
  assert (p ∉ l1.*1) as Hpl1 by (intros ?; eapply Hd; set_solver).
  assert (forall q, q ∈ l1.*1 -> q ∉ l2.*1) as Hd' by (intros q Hq ?; eapply Hd; set_solver).
  unfold unlink. rewrite (deref_Some _ _ _ Hp). cbn [mbind res_bind next prev data].
  destruct (relink_right m c l2 _ (last_or None l1) _ Hn2 Hl2) as (m1 & -> & Hl2' & R1).
  cbn [mbind res_bind]. assert (cells m1 !! p = cells m !! p) as Hp1 by (by apply (rl_frame _ _ _ R1)).
  rewrite (deref_Some m1 p _ (eq_trans Hp1 Hp)). cbn [mbind res_bind next prev data].
  assert (dll (cells m1) None l1 (Some p)) as Hl1'.
  { eapply dll_frame; [|done]. intros q Hq. apply (rl_frame _ _ _ R1). by apply Hd'. }
  set (c1 := MkChain _ _).
  destruct (relink_left m1 c1 l1 _ _ (head_or l2 None) Hn1 Hl1') as (m2 & -> & Hl1'' & R2).
  eexists m2, _. split; [done|]. split_and!.
  - split; cbn.
    + rewrite fmap_app. apply NoDup_app. by split_and!.
    + apply dll_app. split; [done|]. eapply dll_frame; [|done].
      intros q Hq. apply (rl_frame _ _ _ R2). intros ?. by eapply Hd'.
    + rewrite head_or_app. rewrite Hf, head_or_app. by destruct l1 as [|[]].
    + rewrite last_or_app, Hla, last_or_app. cbn. by destruct l2 as [|[]].
  - rewrite fmap_app. eapply relinked_trans; [exact R1|exact R2|set_solver|set_solver].
  - rewrite (rl_frame _ _ _ R2 p Hpl1). done.
Qed.

Lemma append_ok m c p d l e :
  chain_ok (cells m) c l -> p ∉ l.*1 -> cells m !! p = Some e -> data e = d ->
  exists m' c', append m c p = Ok (m', c') /\ chain_ok (cells m') c' (l ++ [(p, d)]) /\
    relinked (p :: l.*1) m m'.
Proof.
  intros [Hnd Hl Hf Hla] Hpl Hp Hd. unfold append. rewrite (assign_next_Some _ _ _ _ Hp).
  cbn [mbind res_bind]. erewrite assign_prev_Some by apply lookup_insert_eq.
  cbn [mbind res_bind next prev data]. set (m1 := set_cell _ _ _).
  assert (cells m1 = <[p := MkCell None (last c) d]> (cells m)) as Hm1.
  { unfold m1, set_cell. cbn. by rewrite insert_insert_eq, Hd. }
  assert (relinked [p] m m1) as R1.
  { replace m1 with (set_cell m p (MkCell None (last c) d)) by (unfold m1, set_cell in *; cbn in *; congruence).
    by eapply set_cell_relinked. }
  assert (dll (cells m1) None l None) as Hl1.
  { eapply dll_frame; [|done]. intros q Hq. rewrite Hm1, lookup_insert_ne; set_solver. }
  destruct (relink_left m1 c l _ _ (Some p) Hnd Hl1) as (m2 & E & Hl2 & R2).
  assert (match last c with Some q => assign_next m1 q (Some p) | None => Ok m1 end = Ok m2) as ->.
  { rewrite Hla. destruct (last_or None l) as [q|]; [|congruence].
    destruct (assign_next m1 q (Some p)); cbn in E; congruence. }
  cbn [mbind res_bind]. eexists m2, _. split; [done|]. split.
  - split; cbn.
    + rewrite fmap_app. apply NoDup_app. split_and!; [done| |apply NoDup_singleton].
      intros q Hq ->%list_elem_of_singleton. done.
    + apply dll_app. cbn. split_and!; [done| |done]. rewrite (rl_frame _ _ _ R2 p Hpl), Hm1, lookup_insert_eq.
      by rewrite Hla.
    + rewrite Hf, head_or_app. by destruct l as [|[]].
    + by rewrite last_or_app.
  - eapply relinked_trans; [exact R1|exact R2|set_solver|set_solver].
Qed.
End chain_lemmas.

(** ** Chains with their table *)

Section hashed.
Context {A K : Type} `{!Keyed A K}.
Implicit Types (m : heap A) (h : htab) (c : chain) (p q : ptr) (l : list (ptr * A)) (k : K).

(** The strings the entries of a chain own. *)
Definition owned l : list ptr := (fun e => str (name_of e.2)) <$> l.

Abbreviation tab_ok m := (htab_ok (hash_f := hash_at m) (eq_f := eq_at m)).

Record chained m h c l : Prop := {
  ch_pool : pool_ok (pool m);
  ch_alloc : forall p, is_Some (cells m !! p) -> p ∈ in_use (pool m);
  ch_chain : chain_ok (cells m) c l;
  ch_tab : tab_ok m h;
  ch_entries : forall p, p ∈ entries (table h) <-> p ∈ l.*1;
  ch_owned : NoDup (owned l);
  ch_live : forall s, s ∈ owned l -> s ∈ live m
}.

Lemma key_at_chain m c l p d : chain_ok (cells m) c l -> (p, d) ∈ l -> key_at m p = kof d.
Proof.
  intros Hc Hin. destruct (dll_lookup _ _ _ _ _ _ (c_dll _ _ _ Hc) Hin) as (e & He & Hd).
  unfold key_at. by rewrite He, Hd.
Qed.

Lemma htab_ok_keys m m' h :
  (forall p, p ∈ entries (table h) -> key_at m' p = key_at m p) -> tab_ok m h -> tab_ok m' h.
Proof.
  intros Hk [[Hs Hl Hr Hd] H1 H2 H3]. split; [|done|done|done].
  assert (forall j p, table h !! j = Some (Entry p) -> key_at m' p = key_at m p) as Hk'.
  { intros j p Hj. apply Hk, entries_elem. by exists j. }
  split; [done|done| |].
  - intros j p Hj. unfold hash_at. rewrite (Hk' j p Hj). by apply Hr.
  - intros j1 j2 p1 p2 Hj1 Hj2. cbn. rewrite (Hk' j1 p1), (Hk' j2 p2) by done. by apply Hd.
Qed.

Lemma chained_keys m h c l p d q b :
  chained m h c l -> (p, d) ∈ l -> (q, b) ∈ l -> kof d = kof b -> p = q.
Proof.
  intros H Hp Hq Hk. destruct H as [_ _ Hc Ht He _ _].
  eapply (entries_key_unique (hash_f := hash_at m) (eq_f := eq_at m)); [apply Ht| | |].
  - apply He. apply list_elem_of_fmap. by exists (p, d).
  - apply He. apply list_elem_of_fmap. by exists (q, b).
  - cbn. by rewrite (key_at_chain _ _ _ _ _ Hc Hp), (key_at_chain _ _ _ _ _ Hc Hq).
Qed.

(** An entry of the table is an entry of the chain. *)
Lemma chained_entry m h c l p :
  chained m h c l -> p ∈ entries (table h) ->
  exists d l1 l2, l = l1 ++ (p, d) :: l2 /\ key_at m p = kof d.
Proof.
  intros H Hp%(ch_entries _ _ _ _ H). apply list_elem_of_fmap in Hp as [[q d] [-> Hin]].
  pose proof (key_at_chain _ _ _ _ _ (ch_chain _ _ _ _ H) Hin) as Hk.
  apply list_elem_of_split in Hin as (l1 & l2 & ->). by exists d, l1, l2.
Qed.

Lemma chained_find m h c l k :
  chained m h c l ->
  exists r, htab_find_with_hash (eq_at m) h k (khash k) = Ok r /\
    (is_Some r <-> exists p d, (p, d) ∈ l /\ kof d = k).
Proof.
  intros H. destruct (htab_find_ok (hash_f := hash_at m) h k (ch_tab _ _ _ _ H)) as (r & E & Hr).
  exists r. split; [exact E|]. split.
  - intros [p Hp]. apply Hr in Hp as [Hp Hk].
    destruct (chained_entry _ _ _ _ _ H Hp) as (d & l1 & l2 & -> & Hd).
    exists p, d. split; [set_solver|]. cbn in Hk. congruence.
  - intros (p & d & Hin & Hk). exists p. apply Hr. cbn. split.
    + apply (ch_entries _ _ _ _ H). apply list_elem_of_fmap. by exists (p, d).
    + rewrite (key_at_chain _ _ _ _ _ (ch_chain _ _ _ _ H) Hin). done.
Qed.

(** Looking for the slot of a key. *)
Lemma chained_slot m h c l k :
  chained m h c l ->
  exists o, htab_find_slot_with_hash (hash_at m) (eq_at m) h k (khash k) NO_INSERT = Ok (h, o) /\
    match o with
    | Some idx => 0 <= idx /\ exists p d l1 l2, l = l1 ++ (p, d) :: l2 /\ kof d = k /\
        table h !! Z.to_nat idx = Some (Entry p)
    | None => forall p d, (p, d) ∈ l -> kof d <> k
    end.
Proof.
  intros H. destruct (htab_find_slot_no_insert (hash_f := hash_at m) (eq_f := eq_at m) h k (ch_tab _ _ _ _ H))
    as (o & E & Ho).
  exists o. split; [exact E|]. destruct o as [idx|].
  - destruct Ho as (Hi & p & Hp & Hk). split; [done|].
    destruct (chained_entry _ _ _ _ p H) as (d & l1 & l2 & -> & Hd); [apply entries_elem; by eexists|].
    exists p, d, l1, l2. split_and!; [done|by rewrite <-Hd|done].
  - intros p d Hin. rewrite <-(key_at_chain _ _ _ _ _ (ch_chain _ _ _ _ H) Hin). apply Ho.
    apply (ch_entries _ _ _ _ H). apply list_elem_of_fmap. by exists (p, d).
Qed.

(** Unlinking an entry and giving its memory back. *)
Lemma discard_ok m c p d l1 l2 :
  chain_ok (cells m) c (l1 ++ (p, d) :: l2) -> pool_ok (pool m) -> p ∈ in_use (pool m) ->
  str (name_of d) ∈ live m ->
  exists m' c', discard m c p = Ok (m', c') /\ chain_ok (cells m') c' (l1 ++ l2) /\
    pool_ok (pool m') /\ (forall q, q ∈ in_use (pool m') <-> q ∈ in_use (pool m) /\ q <> p) /\
    live m' = live m ∖ {[str (name_of d)]} /\
    (forall q, is_Some (cells m' !! q) <-> is_Some (cells m !! q) /\ q <> p) /\
    (forall q, q ∉ (l1 ++ (p, d) :: l2).*1 -> cells m' !! q = cells m !! q).
Proof.
  intros Hc Hpo Hu Hs. destruct (unlink_ok _ _ _ _ _ _ Hc) as (m1 & c1 & E1 & Hc1 & R1 & Hp1).
  destruct (dll_lookup _ _ _ _ p d (c_dll _ _ _ Hc)) as (e & He & Hd); [set_solver|].
  destruct R1 as [RP RL RF RD]. rewrite He in Hp1. rewrite <-RP in Hpo, Hu. rewrite <-RL in Hs.
  unfold discard. rewrite E1. cbn [mbind res_bind].
  rewrite (deref_Some _ _ _ Hp1). cbn [mbind res_bind]. unfold xfree. rewrite Hd, decide_True by done.
  cbn [mbind res_bind]. unfold free_entry. cbn [pool cells live].
  destruct (pool_free_ok _ _ Hpo Hu) as (pl & -> & Hpl & Hin). cbn [mbind res_bind].
  eexists _, c1. split; [done|]. cbn [pool cells live]. rewrite <-RP, RL.
  pose proof (c_nodup _ _ _ Hc) as Hnd. rewrite fmap_app in Hnd. cbn in Hnd.
  apply NoDup_app in Hnd as (_ & Hnd1 & [Hnd2 _]%NoDup_cons).
  assert (p ∉ (l1 ++ l2).*1) as Hpl12 by (rewrite fmap_app; set_solver).
  split_and!; try done.
  - destruct Hc1 as [H1 H2 H3 H4]. split; try done. eapply dll_frame; [|exact H2].
    intros q Hq. rewrite lookup_delete_ne; set_solver.
  - intros q. destruct (decide (p = q)) as [->|Hne].
    + rewrite lookup_delete_eq. split; [by intros [? ?]|]. by intros [_ ?].
    + rewrite lookup_delete_ne, RD by done. naive_solver.
  - intros q Hq. rewrite lookup_delete_ne; [apply RF|]; intros ?; apply Hq; rewrite fmap_app in *; set_solver.
Qed.

(** The entries in use that are not in [ps] are the same in [m'] as in [m]. *)
Record others_kept (ps : list ptr) m m' : Prop := {
  ok_cells : forall q, q ∉ ps -> q ∈ in_use (pool m) -> cells m' !! q = cells m !! q;
  ok_use : forall q, q ∉ ps -> q ∈ in_use (pool m) -> q ∈ in_use (pool m')
}.

Lemma others_kept_refl ps m : others_kept ps m m.
Proof. by split. Qed.

Lemma others_kept_trans ps m1 m2 m3 :
  others_kept ps m1 m2 -> others_kept ps m2 m3 -> others_kept ps m1 m3.
Proof. intros [C1 U1] [C2 U2]. split; intros q H1 H2; [rewrite C2, C1|]; auto. Qed.

Lemma others_kept_weaken ps ps' m m' :
  others_kept ps m m' -> (forall q, q ∈ ps -> q ∈ in_use (pool m) -> q ∈ ps') -> others_kept ps' m m'.
Proof. intros [C U] Hs. split; intros q H1 H2; [apply C|apply U]; naive_solver. Qed.

Lemma sub_middle {X} (l1 l2 : list X) x y : y ∈ l1 ++ l2 -> y ∈ l1 ++ x :: l2.
Proof. set_solver. Qed.

(** The memory between two states of a chain: what is in use afterwards is what
    the chain holds and what belonged to others, except the strings [given] to
    the operation; nothing leaks. *)
Record balanced (given : gset ptr) m l m' l' : Prop := {
  b_use : forall q, q ∈ in_use (pool m') <-> q ∈ l'.*1 \/ q ∈ in_use (pool m) /\ q ∉ l.*1;
  b_live : forall s, s ∈ live m' <-> s ∈ owned l' \/ s ∈ live m /\ s ∉ owned l /\ s ∉ given;
  b_others : others_kept l.*1 m m'
}.

Lemma chained_in_use m h c l p : chained m h c l -> p ∈ l.*1 -> p ∈ in_use (pool m).
Proof. intros H Hp. apply (ch_alloc _ _ _ _ H). eapply dll_domain; [apply (ch_chain _ _ _ _ H)|done]. Qed.

Lemma balanced_refl m h c l : chained m h c l -> balanced ∅ m l m l.
Proof.
  intros H. split; [| |apply others_kept_refl].
  - intros q. split; [destruct (decide (q ∈ l.*1)); auto|]. intros [Hq|[? _]]; [|done]. by eapply chained_in_use.
  - intros s. split; [|intros [Hs|(? & _)]; [by apply (ch_live _ _ _ _ H)|done]].
    destruct (decide (s ∈ owned l)); [auto|]. set_solver.
Qed.

Lemma owned_split l1 l2 p d s : NoDup (owned (l1 ++ (p, d) :: l2)) ->
  s ∈ owned (l1 ++ l2) <-> s ∈ owned (l1 ++ (p, d) :: l2) /\ s <> str (name_of d).
Proof.
  unfold owned. rewrite !fmap_app. cbn. intros (? & Hd & [? ?]%NoDup_cons)%NoDup_app. set_solver.
Qed.

Lemma owned_nodup l1 l2 p d : NoDup (owned (l1 ++ (p, d) :: l2)) -> NoDup (owned (l1 ++ l2)).
Proof. unfold owned. rewrite <-Permutation_middle. by intros [_ ?]%NoDup_cons. Qed.

Lemma ptrs_split l1 l2 p d q : NoDup (l1 ++ (p, d) :: l2).*1 ->
  q ∈ (l1 ++ l2).*1 <-> q ∈ (l1 ++ (p, d) :: l2).*1 /\ q <> p.
Proof. rewrite !fmap_app. cbn. intros (? & Hd & [? ?]%NoDup_cons)%NoDup_app. set_solver. Qed.

(** Deleting an entry through its slot. *)
Lemma chained_remove m h c p d l1 l2 idx :
  chained m h c (l1 ++ (p, d) :: l2) -> 0 <= idx -> table h !! Z.to_nat idx = Some (Entry p) ->
  exists m' c' h', discard m c p = Ok (m', c') /\ htab_clear_slot h idx = Ok h' /\
    chained m' h' c' (l1 ++ l2) /\ balanced ∅ m (l1 ++ (p, d) :: l2) m' (l1 ++ l2) /\
    (exact h -> exact h') /\ n_elements h' - n_deleted h' = n_elements h - n_deleted h - 1.
Proof.
  intros H Hi Hp. pose proof H as [Hpo Ha Hc Ht He Ho Hl].
  assert (p ∈ (l1 ++ (p, d) :: l2).*1) as Hin0 by (rewrite fmap_app; set_solver).
  assert (p ∈ in_use (pool m)) as Hu.
  { apply Ha. eapply dll_domain; [apply Hc|done]. }
  assert (str (name_of d) ∈ live m) as Hs by (apply Hl; unfold owned; rewrite fmap_app; set_solver).
  destruct (discard_ok _ _ _ _ _ _ Hc Hpo Hu Hs) as (m' & c' & E & Hc' & Hpo' & Hu' & Hl' & Hdom & Hfr).
  destruct (htab_clear_slot_ok (hash_f := hash_at m) (eq_f := eq_at m) _ _ _ Ht Hi Hp)
    as (h' & E' & Ht' & He' & Hx & Hn1 & Hn2 & _).
  exists m', c', h'. pose proof (fun q => ptrs_split l1 l2 p d q (c_nodup _ _ _ Hc)) as Hlist.
  pose proof (fun s => owned_split l1 l2 p d s Ho) as Hown.
  split_and!; try done; [| |lia].
  - split; [done| |done| | | |].
    + intros q [Hq Hne]%Hdom. apply Hu'. split; [by apply Ha|done].
    + eapply htab_ok_keys; [|exact Ht']. intros q Hq. apply He' in Hq as [Hq%He Hne].
      assert (q ∈ (l1 ++ l2).*1) as Hq' by (by apply Hlist). apply list_elem_of_fmap in Hq' as [[q' b] [-> Hin]].
      cbn [fst]. rewrite (key_at_chain _ _ _ _ _ Hc' Hin). symmetry. apply (key_at_chain _ _ _ _ _ Hc), sub_middle, Hin.
    + intros q. by rewrite He', He, Hlist.
    + by apply (owned_nodup l1 l2 p d).
    + intros s [Hs' Hne]%Hown. rewrite Hl', elem_of_difference, elem_of_singleton. auto.
  - split.
    + intros q. rewrite Hu', Hlist. split; [destruct (decide (q ∈ (l1 ++ (p, d) :: l2).*1)); naive_solver|].
      intros [[Hq Hne]|[Hq1 Hq2]]; (split; [|intros ->; contradiction]); [|done].
      apply Ha. eapply dll_domain; [apply Hc|done].
    + intros s. rewrite Hl', Hown, elem_of_difference, elem_of_singleton.
      assert (s ∉ (∅ : gset ptr)) by set_solver.
      destruct (decide (s ∈ owned (l1 ++ (p, d) :: l2))) as [Hs'|Hs']; [pose proof (Hl s Hs'); tauto|].
      assert (s <> str (name_of d)) by (intros ->; apply Hs'; unfold owned; rewrite fmap_app; set_solver). tauto.
    + split; [|intros q Hq Hq2; apply Hu'; split; [done|]; intros ->; by apply Hq].
      intros q Hq _. by apply Hfr.
Qed.

(** A chain does not notice changes outside its entries. *)
Lemma chained_frame m m' h c l :
  chained m h c l -> pool_ok (pool m') -> (forall p, is_Some (cells m' !! p) -> p ∈ in_use (pool m')) ->
  (forall p, p ∈ l.*1 -> cells m' !! p = cells m !! p) -> (forall s, s ∈ owned l -> s ∈ live m') ->
  chained m' h c l.
Proof.
  intros [Hpo Ha [Hn Hd Hf Hla] Ht He Ho Hl] Hpo' Ha' Hs Hl'. split; try done.
  - split; try done. by eapply dll_frame.
  - eapply htab_ok_keys; [|done]. intros p Hp%He. unfold key_at. by rewrite Hs.
Qed.

Lemma chained_alloc m h c l d :
  chained m h c l ->
  exists p m', alloc_entry m d = Ok (p, m') /\ chained m' h c l /\
    p ∉ in_use (pool m) /\ p ∉ l.*1 /\ cells m' !! p = Some (MkCell None None d) /\
    live m' = live m /\ in_use (pool m') = p :: in_use (pool m) /\ others_kept [] m m'.
Proof.
  intros H. pose proof H as [Hpo Ha Hc Ht He Ho Hl].
  destruct (pool_alloc_ok _ Hpo) as (p & pl & E & Hpl & Hn & Hu). unfold alloc_entry. rewrite E. cbn [mbind res_bind].
  assert (p ∉ l.*1) as Hpl' by (intros Hin; apply Hn, Ha; eapply dll_domain; [apply Hc|done]).
  eexists p, _. split; [done|]. cbn [pool cells live]. rewrite lookup_insert_eq.
  split_and!; try done.
  - eapply chained_frame; [done|done| | |done]; cbn [pool cells].
    + intros q. rewrite Hu. destruct (decide (p = q)) as [->|]; [set_solver|]. rewrite lookup_insert_ne by done.
      intros ?%Ha. set_solver.
    + intros q Hq. rewrite lookup_insert_ne; set_solver.
  - split; cbn [pool cells]; intros q _ Hq; [rewrite lookup_insert_ne; set_solver|]. rewrite Hu. set_solver.
Qed.

(** Giving back an entry that was not linked. *)
Lemma chained_free m h c l p :
  chained m h c l -> p ∉ l.*1 -> p ∈ in_use (pool m) ->
  exists m', free_entry m p = Ok m' /\ chained m' h c l /\ live m' = live m /\
    (forall q, q ∈ in_use (pool m') <-> q ∈ in_use (pool m) /\ q <> p) /\ others_kept [p] m m'.
Proof.
  intros H Hpl Hu. pose proof H as [Hpo Ha Hc Ht He Ho Hl].
  destruct (pool_free_ok _ _ Hpo Hu) as (pl & E & Hpo' & Hin). unfold free_entry. rewrite E. cbn [mbind res_bind].
  eexists. split; [done|]. cbn [pool cells live]. split_and!; try done.
  - eapply chained_frame; [done|done| | |done]; cbn [pool cells].
    + intros q Hq. apply Hin. destruct (decide (p = q)) as [->|]; [|rewrite lookup_delete_ne in Hq by done; auto].
      rewrite lookup_delete_eq in Hq. by destruct Hq.
    + intros q Hq. rewrite lookup_delete_ne; set_solver.
  - split; cbn [pool cells]; intros q Hq1 Hq2; [rewrite lookup_delete_ne|apply Hin]; set_solver.
Qed.

(** Filling in an entry that is already in the table, and linking it. *)
Lemma chained_append m h c l p d e :
  pool_ok (pool m) -> (forall p, is_Some (cells m !! p) -> p ∈ in_use (pool m)) ->
  chain_ok (cells m) c l -> tab_ok m h -> (forall q, q ∈ entries (table h) <-> q = p \/ q ∈ l.*1) ->
  p ∉ l.*1 -> cells m !! p = Some e -> kof (data e) = kof d ->
  NoDup (owned (l ++ [(p, d)])) -> (forall s, s ∈ owned (l ++ [(p, d)]) -> s ∈ live m) ->
  exists m' c', (m ← assign_data m p d; append m c p) = Ok (m', c') /\ chained m' h c' (l ++ [(p, d)]) /\
    live m' = live m /\ pool m' = pool m /\ others_kept (p :: l.*1) m m'.
Proof.
  intros Hpo Ha Hc Ht He Hp Hcell Hk Ho Hl. rewrite (assign_data_Some _ _ _ _ Hcell). cbn [mbind res_bind].
  set (m1 := set_cell m p _). assert (chain_ok (cells m1) c l) as Hc1.
  { destruct Hc as [? Hd ? ?]. split; try done. eapply dll_frame; [|exact Hd]. intros q Hq.
    cbn. rewrite lookup_insert_ne; set_solver. }
  destruct (append_ok m1 c p d l _ Hc1 Hp (lookup_insert_eq _ _ _) eq_refl) as (m' & c' & E & Hc' & R).
  pose proof (set_cell_relinked m p e (MkCell (next e) (prev e) d) Hcell) as R0. fold m1 in R0.
  destruct (relinked_trans [p] (p :: l.*1) (p :: l.*1) _ _ _ R0 R ltac:(set_solver) ltac:(set_solver)) as [RP RL RF RD].
  exists m', c'. split_and!; try done.
  - split; try done.
    + by rewrite RP.
    + intros q Hq%RD. rewrite RP. auto.
    + eapply htab_ok_keys; [|done]. intros q [->|Hq]%He.
      * rewrite (key_at_chain _ _ _ p d Hc') by set_solver. unfold key_at. by rewrite Hcell.
      * apply list_elem_of_fmap in Hq as [[q' b] [-> Hin]]. cbn [fst].
        rewrite (key_at_chain _ _ _ _ _ Hc Hin). apply (key_at_chain _ _ _ _ _ Hc'). set_solver.
    + intros q. rewrite He, fmap_app. set_solver.
    + by rewrite RL.
  - split; [by intros q Hq _; apply RF|by rewrite RP].
Qed.

(** What remains after the entries and strings of [l] were freed. *)
Record freed l m m' : Prop := {
  fr_pool : pool_ok (pool m');
  fr_alloc : forall p, is_Some (cells m' !! p) -> p ∈ in_use (pool m');
  fr_use : forall q, q ∈ in_use (pool m') <-> q ∈ in_use (pool m) /\ q ∉ l.*1;
  fr_live : forall s, s ∈ live m' <-> s ∈ live m /\ s ∉ owned l;
  fr_cells : forall q, q ∉ l.*1 -> cells m' !! q = cells m !! q
}.

Lemma free_entries_ok l : forall fuel m pv,
  pool_ok (pool m) -> (forall p, is_Some (cells m !! p) -> p ∈ in_use (pool m)) ->
  NoDup l.*1 -> dll (cells m) pv l None -> NoDup (owned l) -> (forall s, s ∈ owned l -> s ∈ live m) ->
  (length l <= fuel)%nat ->
  exists m', free_entries fuel m (head_or l None) = Ok m' /\ freed l m m'.
Proof.
  induction l as [|[p d] l IH]; intros fuel m pv Hpo Ha Hnd Hl Ho Hli Hfuel.
  { exists m. split; [by destruct fuel|]. split; try done; set_solver. }
  destruct fuel as [|fuel]; [cbn in Hfuel; lia|]. cbn [free_entries head_or].
  cbn in Hnd, Ho. apply NoDup_cons in Hnd as [Hp Hnd]. apply NoDup_cons in Ho as [Hs Ho]. destruct Hl as [Hcell Hl].
  rewrite (deref_Some _ _ _ Hcell). cbn [mbind res_bind data next]. unfold xfree.
  rewrite decide_True by (apply Hli; set_solver). cbn [mbind res_bind]. unfold free_entry. cbn [pool cells live].
  destruct (pool_free_ok _ _ Hpo (Ha p (ex_intro _ _ Hcell))) as (pl & -> & Hpo' & Hin). cbn [mbind res_bind].
  edestruct (IH fuel) as (m' & E & [F1 F2 F3 F4 F5]); [..|exists m'; split; [exact E|]]; cbn [pool cells live] in *.
  - done.
  - intros q Hq. apply Hin. destruct (decide (p = q)) as [->|]; [rewrite lookup_delete_eq in Hq; by destruct Hq|].
    rewrite lookup_delete_ne in Hq by done. auto.
  - done.
  - eapply dll_frame; [|exact Hl]. intros q Hq. rewrite lookup_delete_ne; set_solver.
  - done.
  - intros s Hs'. assert (s ∈ live m) by (apply Hli; set_solver). set_solver.
  - cbn in Hfuel. lia.
  - split; [done|done| | |].
    + intros q. rewrite F3, Hin. cbn. set_solver.
    + intros s. rewrite F4. cbn. set_solver.
    + intros q Hq. cbn in Hq. rewrite F5 by set_solver. rewrite lookup_delete_ne; set_solver.
Qed.

Lemma dll_size (s : gmap ptr (cell A)) l pv nx :
  NoDup l.*1 -> dll s pv l nx -> (length l <= base.size s)%nat.
Proof.
  intros Hnd Hl. rewrite <-size_dom, <-(length_fmap fst l), <-(size_list_to_set (C := gset ptr) l.*1 Hnd).
  apply subseteq_size. intros p Hp. apply elem_of_dom. eapply dll_domain; [done|]. set_solver.
Qed.

Lemma chained_free_all m h c l :
  chained m h c l ->
  exists m', free_all m c = Ok m' /\ freed l m m' /\ chained m' (htab_empty h) (MkChain None None) [].
Proof.
  intros [Hpo Ha [Hn Hd Hf Hla] Ht He Ho Hl]. unfold free_all. rewrite Hf.
  destruct (free_entries_ok l (base.size (cells m)) m None Hpo Ha Hn Hd Ho Hl) as (m' & E & F).
  { by eapply dll_size. }
  exists m'. split_and!; [done|done|]. destruct F as [F1 F2 F3 F4 F5].
  destruct (htab_empty_ok (hash_f := hash_at m) (eq_f := eq_at m) h Ht) as (Ht' & He' & _).
  split; try done.
  - split; try done. constructor.
  - eapply htab_ok_keys; [|exact Ht']. rewrite He'. set_solver.
  - rewrite He'. done.
  - constructor.
  - set_solver.
Qed.

(** The chain without the entry of a key. *)
Definition without `{!EqDecision K} k l : list (ptr * A) := filter (fun e => kof e.2 <> k) l.

Definition has k l : Prop := exists p d, (p, d) ∈ l /\ kof d = k.

Lemma without_absent `{!EqDecision K} k l : ~ has k l -> without k l = l.
Proof. intros Hn. apply filter_all. intros [p d] Hin Hk. apply Hn. by exists p, d. Qed.

Lemma without_present `{!EqDecision K} m h c l1 l2 p d :
  chained m h c (l1 ++ (p, d) :: l2) -> without (kof d) (l1 ++ (p, d) :: l2) = l1 ++ l2.
Proof.
  intros H. pose proof (c_nodup _ _ _ (ch_chain _ _ _ _ H)) as Hnd. rewrite fmap_app in Hnd. cbn in Hnd.
  apply NoDup_app in Hnd as (_ & Hnd1 & [Hnd2 _]%NoDup_cons).
  assert (forall q b, (q, b) ∈ l1 ++ l2 -> kof b <> kof d) as Hne.
  { intros q b Hin Hk. assert (q = p) as -> by (eapply chained_keys; [exact H| | |exact Hk]; set_solver).
    assert (p ∈ (l1 ++ l2).*1) as Hp by (apply list_elem_of_fmap; by exists (p, b)).
    rewrite fmap_app in Hp. set_solver. }
  unfold without. rewrite filter_app, filter_cons_False by (cbn; tauto).
  rewrite !filter_all; [done| |]; intros [q b] Hin; apply (Hne q b); set_solver.
Qed.

(** Allocating an entry and finding or making its slot. *)
Lemma chained_insert_slot m h c l d :
  chained m h c l -> expand_safe h ->
  exists p m1 h' idx, alloc_entry m d = Ok (p, m1) /\
    htab_find_slot_with_hash (hash_at m1) (eq_at m1) h (kof d) (khash (kof d)) INSERT = Ok (h', Some idx) /\
    p ∉ l.*1 /\ p ∉ in_use (pool m) /\ cells m1 !! p = Some (MkCell None None d) /\ live m1 = live m /\
    in_use (pool m1) = p :: in_use (pool m) /\ others_kept [] m m1 /\
    ((exists q b l1 l2, l = l1 ++ (q, b) :: l2 /\ kof b = kof d /\
        slot_at (table h') idx = Ok (Entry q) /\ chained m1 h' c l /\ (exact h -> exact h')) \/
     ~ has (kof d) l /\ slot_at (table h') idx = Ok EMPTY_ENTRY /\ chained m1 h c l /\
     let h2 := htab_store h' idx p in
     tab_ok m1 h2 /\ (forall q, q ∈ entries (table h2) <-> q = p \/ q ∈ l.*1) /\ (exact h -> exact h2) /\
     n_elements h2 - n_deleted h2 = n_elements h - n_deleted h + 1).
Proof.
  intros H Hs. destruct (chained_alloc _ _ _ _ d H) as (p & m1 & E & H1 & Hu & Hp & Hcell & Hl & Hin & Hot).
  assert (key_at m1 p = kof d) as Hkp by (unfold key_at; by rewrite Hcell).
  destruct (htab_insert_ok (hash_f := hash_at m1) (eq_f := eq_at m1) h (kof d) p (ch_tab _ _ _ _ H1) Hs Hkp)
    as (h' & idx & E' & Hcase).
  exists p, m1, h', idx. split_and!; try done. unfold slot_at.
  destruct Hcase as [(q & Hq & Hkq & Hslot & Ht' & He' & Hx)|(Hno & Hslot & Ht' & He' & Hx & Hn & _)]; [left|right].
  - destruct (chained_entry _ _ _ _ _ H1 Hq) as (b & l1 & l2 & -> & Hb). exists q, b, l1, l2.
    rewrite Hslot. cbn in Hkq. split_and!; try done; [congruence|].
    destruct H1 as [? ? ? ? He ? ?]. split; try done. intros r. by rewrite He', He.
  - rewrite Hslot. split_and!; try done.
    + intros (q & b & Hin' & Hk). pose proof (ch_chain _ _ _ _ H1) as Hc1. apply (Hno q).
      * apply (ch_entries _ _ _ _ H1). apply list_elem_of_fmap. by exists (q, b).
      * cbn. by rewrite (key_at_chain _ _ _ _ _ Hc1 Hin').
    + intros q. by rewrite He', (ch_entries _ _ _ _ H1).
Qed.

(** The chain after the old entry of a key was discarded in favour of [p], which
    has the same key: everything [chained_append] asks for. *)
Lemma chained_replace m h c p d q b l1 l2 idx :
  chained m h c (l1 ++ (q, b) :: l2) -> slot_at (table h) idx = Ok (Entry q) -> kof b = kof d ->
  p ∉ (l1 ++ (q, b) :: l2).*1 -> cells m !! p = Some (MkCell None None d) ->
  exists m' c', discard m c q = Ok (m', c') /\ pool_ok (pool m') /\
    (forall p, is_Some (cells m' !! p) -> p ∈ in_use (pool m')) /\ chain_ok (cells m') c' (l1 ++ l2) /\
    tab_ok m' (htab_store h idx p) /\
    (forall r, r ∈ entries (table (htab_store h idx p)) <-> r = p \/ r ∈ (l1 ++ l2).*1) /\
    cells m' !! p = Some (MkCell None None d) /\ live m' = live m ∖ {[str (name_of b)]} /\
    (forall r, r ∈ in_use (pool m') <-> r ∈ in_use (pool m) /\ r <> q) /\
    others_kept (l1 ++ (q, b) :: l2).*1 m m' /\ (exact h -> exact (htab_store h idx p)).
Proof.
  intros H Hslot Hk Hp Hcell. pose proof H as [Hpo Ha Hc Ht He Ho Hl].
  assert (q ∈ (l1 ++ (q, b) :: l2).*1) as Hq by (rewrite fmap_app; set_solver).
  assert (str (name_of b) ∈ live m) as Hs by (apply Hl; unfold owned; rewrite fmap_app; set_solver).
  destruct (discard_ok _ _ _ _ _ _ Hc Hpo (chained_in_use _ _ _ _ _ H Hq) Hs)
    as (m' & c' & E & Hc' & Hpo' & Hu' & Hl' & Hdom & Hfr).
  unfold slot_at in Hslot. destruct (table h !! Z.to_nat idx) as [s|] eqn:Hidx; [|done]. injection Hslot as ->.
  assert (key_at m p = kof d) as Hkp by (unfold key_at; by rewrite Hcell).
  assert (key_at m q = kof b) as Hkq by (apply (key_at_chain _ _ _ _ _ Hc); set_solver).
  destruct (htab_replace_ok (hash_f := hash_at m) (eq_f := eq_at m) h idx q p Ht Hidx) as (Ht' & He' & Hx).
  { cbn. congruence. }
  pose proof (fun q' => ptrs_split l1 l2 q b q' (c_nodup _ _ _ Hc)) as Hlist.
  exists m', c'. split_and!; try done.
  - intros r [Hr Hne]%Hdom. apply Hu'. auto.
  - eapply htab_ok_keys; [|exact Ht']. intros r [->|[Hr%He Hne]]%He'.
    + unfold key_at. by rewrite Hfr.
    + assert (r ∈ (l1 ++ l2).*1) as Hr' by (by apply Hlist). apply list_elem_of_fmap in Hr' as [[r' a] [-> Hin]].
      cbn [fst]. rewrite (key_at_chain _ _ _ _ _ Hc' Hin). symmetry. apply (key_at_chain _ _ _ _ _ Hc), sub_middle, Hin.
  - intros r. by rewrite He', He, Hlist.
  - by rewrite Hfr.
  - split; [intros r Hr _; by apply Hfr|]. intros r Hr Hr2. apply Hu'. split; [done|]. by intros ->.
Qed.

Lemma own_name_ok copy m name name' m' (used : list ptr) :
  own_name copy m name = (name', m') -> (copy = false -> str name ∈ live m /\ str name ∉ used) ->
  (forall s, s ∈ used -> s ∈ live m) ->
  pool m' = pool m /\ cells m' = cells m /\ len name' = len name /\ chars name' = chars name /\
  (forall s, s ∈ live m' <-> s ∈ live m \/ s = str name') /\ str name' ∉ used /\
  (copy = false -> str name' = str name).
Proof.
  unfold own_name, xmemdup. destruct copy; intros [= <- <-] Hc Hu; cbn.
  - split_and!; try done; [set_solver|]. intros Hin%Hu. by apply is_fresh in Hin.
  - destruct (Hc eq_refl) as [H1 H2]. split_and!; try done. intros s. split; [auto|]. by intros [?| ->].
Qed.

(** The memory of [m] when the chain [l] is being replaced by [l'] and the entry
    [p] has been allocated. *)
Record in_progress m l m' l' p : Prop := {
  ip_pool : pool_ok (pool m');
  ip_alloc : forall q, is_Some (cells m' !! q) -> q ∈ in_use (pool m');
  ip_use : forall q, q ∈ in_use (pool m') <-> q = p \/ q ∈ in_use (pool m) /\ (q ∉ l.*1 \/ q ∈ l'.*1);
  ip_live : forall s, s ∈ live m' <-> s ∈ live m /\ (s ∉ owned l \/ s ∈ owned l');
  ip_sub : l' ⊆ l;
  ip_owned : NoDup (owned l');
  ip_others : others_kept l.*1 m m'
}.

(** Nothing was in the slot, or the old entry was discarded. *)
Lemma progress_fresh m h c l m' p :
  chained m' h c l -> in_use (pool m') = p :: in_use (pool m) -> live m' = live m -> others_kept [] m m' ->
  in_progress m l m' l p.
Proof.
  intros [Hpo Ha _ _ _ Ho _] Hin Hli Hot. split; try done.
  - intros r. rewrite Hin, elem_of_cons. destruct (decide (r ∈ l.*1)); tauto.
  - intros t. rewrite Hli. destruct (decide (t ∈ owned l)); tauto.
  - eapply others_kept_weaken; [exact Hot|set_solver].
Qed.

Lemma progress_replaced m m1 m2 p q b l1 l2 :
  NoDup (owned (l1 ++ (q, b) :: l2)) -> NoDup (l1 ++ (q, b) :: l2).*1 ->
  p ∉ (l1 ++ (q, b) :: l2).*1 -> in_use (pool m1) = p :: in_use (pool m) -> live m1 = live m ->
  others_kept [] m m1 -> pool_ok (pool m2) -> (forall p, is_Some (cells m2 !! p) -> p ∈ in_use (pool m2)) ->
  live m2 = live m1 ∖ {[str (name_of b)]} ->
  (forall r, r ∈ in_use (pool m2) <-> r ∈ in_use (pool m1) /\ r <> q) ->
  others_kept (l1 ++ (q, b) :: l2).*1 m1 m2 ->
  in_progress m (l1 ++ (q, b) :: l2) m2 (l1 ++ l2) p.
Proof.
  intros Hown Hnd Hp Hin Hli Hot Hpo2 Ha2 Hl2 Hu2 Ho2.
  assert (q ∈ (l1 ++ (q, b) :: l2).*1) as Hq by (rewrite fmap_app; set_solver).
  assert (str (name_of b) ∈ owned (l1 ++ (q, b) :: l2)) as Hsb by (unfold owned; rewrite fmap_app; set_solver).
  assert (p <> q) as Hpq by (intros ->; done).
  split; try done.
  - intros r. rewrite Hu2, Hin, elem_of_cons, (ptrs_split _ _ _ _ _ Hnd).
    destruct (decide (r = p)) as [->|]; [tauto|]. destruct (decide (r = q)) as [->|]; [tauto|].
    destruct (decide (r ∈ (l1 ++ (q, b) :: l2).*1)); tauto.
  - intros t. rewrite Hl2, Hli, elem_of_difference, elem_of_singleton, (owned_split _ _ _ _ _ Hown).
    destruct (decide (t = str (name_of b))) as [->|]; [tauto|].
    destruct (decide (t ∈ owned (l1 ++ (q, b) :: l2))); tauto.
  - intros r. apply sub_middle.
  - by eapply owned_nodup.
  - eapply others_kept_trans; [|exact Ho2]. eapply others_kept_weaken; [exact Hot|set_solver].
Qed.

(** Allocating an entry, making its slot and discarding the entry it replaces. *)
Lemma chained_make_room `{!EqDecision K} m h c l d :
  chained m h c l -> expand_safe h ->
  exists p m1 h' idx s m2 c2, alloc_entry m d = Ok (p, m1) /\
    htab_find_slot_with_hash (hash_at m1) (eq_at m1) h (kof d) (khash (kof d)) INSERT = Ok (h', Some idx) /\
    slot_at (table h') idx = Ok s /\
    match s with Entry old => discard m1 c old | _ => Ok (m1, c) end = Ok (m2, c2) /\
    p ∉ in_use (pool m) /\
    let l2 := without (kof d) l in let h2 := htab_store h' idx p in
    in_progress m l m2 l2 p /\ chain_ok (cells m2) c2 l2 /\ tab_ok m2 h2 /\
    (forall q, q ∈ entries (table h2) <-> q = p \/ q ∈ l2.*1) /\
    cells m2 !! p = Some (MkCell None None d) /\ (exact h -> exact h2).
Proof.
  intros H Hs. destruct (chained_insert_slot m h c l d H Hs)
    as (p & m1 & h' & idx & E1 & E2 & Hp & Hu & Hcell & Hli & Hin & Hot & Hcase).
  exists p, m1, h', idx.
  destruct Hcase as [(q & b & l1 & l2 & -> & Hkb & Hslot & H1 & Hx)|(Hno & Hslot & H1 & Ht & He & Hx & _)].
  - destruct (chained_replace _ _ _ p d q b l1 l2 idx H1 Hslot Hkb Hp Hcell)
      as (m2 & c2 & Ed & Hpo2 & Ha2 & Hc2 & Ht2 & He2 & Hcell2 & Hl2 & Hu2 & Ho2 & Hx2).
    exists (Entry q), m2, c2. cbv zeta. rewrite <-Hkb, (without_present _ _ _ _ _ _ _ H). rewrite Hkb.
    split_and!; auto. eapply progress_replaced; try done; [apply H|apply H].
  - exists EMPTY_ENTRY, m1, c. cbv zeta. rewrite without_absent by done.
    split_and!; try done; [by eapply progress_fresh|apply H1].
Qed.

Lemma chained_finish m h c l m2 h2 c2 l2 p d name copy (mk : name_t -> A) name' m3 :
  chained m h c l -> p ∉ in_use (pool m) ->
  in_progress m l m2 l2 p -> chain_ok (cells m2) c2 l2 -> tab_ok m2 h2 ->
  (forall q, q ∈ entries (table h2) <-> q = p \/ q ∈ l2.*1) -> cells m2 !! p = Some (MkCell None None d) ->
  (copy = false -> str name ∈ live m /\ str name ∉ owned l) ->
  (forall n, name_of (mk n) = n) ->
  (forall n, len n = len name -> chars n = chars name -> kof (mk n) = kof d) ->
  own_name copy m2 name = (name', m3) ->
  exists m' c', (m ← assign_data m3 p (mk name'); append m c2 p) = Ok (m', c') /\
    chained m' h2 c' (l2 ++ [(p, mk name')]) /\
    balanced (if copy then ∅ else {[str name]}) m l m' (l2 ++ [(p, mk name')]).
Proof.
  intros H Hnew [Hpo Ha Hu Hli Hsub Hno Hot] Hc2 Ht2 He2 Hcell Hcopy Hmk Hkof Hown.
  assert (forall s, s ∈ owned l2 -> s ∈ owned l) as Hosub.
  { intros s (e & -> & He)%list_elem_of_fmap. apply list_elem_of_fmap. eexists; split; [done|]. by apply Hsub. }
  assert (forall q, q ∈ l2.*1 -> q ∈ l.*1) as Hpsub.
  { intros s (e & -> & He)%list_elem_of_fmap. apply list_elem_of_fmap. eexists; split; [done|]. by apply Hsub. }
  assert (forall s, s ∈ owned l2 -> s ∈ live m2) as Hol2.
  { intros s Hs. apply Hli. split; [apply (ch_live _ _ _ _ H)|]; auto. }
  destruct (own_name_ok copy m2 name name' m3 (owned l2) Hown) as (Epool & Ecells & Elen & Echars & Elive & Hfresh & Estr).
  { intros Hc. destruct (Hcopy Hc) as [H1 H2]. split; [apply Hli; auto|auto]. }
  { done. }
  assert (p ∉ l2.*1) as Hp by (intros Hin%Hpsub; by eapply Hnew, chained_in_use).
  assert (owned (l2 ++ [(p, mk name')]) = owned l2 ++ [str name']) as Eown
    by (unfold owned; rewrite fmap_app; cbn; by rewrite Hmk).
  destruct (chained_append m3 h2 c2 l2 p (mk name') (MkCell None None d)) as (m' & c' & E & H' & El & Ep & Hot').
  - by rewrite Epool.
  - by rewrite Epool, Ecells.
  - by rewrite Ecells.
  - eapply htab_ok_keys; [|exact Ht2]. intros q _. unfold key_at. by rewrite Ecells.
  - done.
  - done.
  - by rewrite Ecells.
  - cbn. symmetry. by apply Hkof.
  - rewrite Eown. apply NoDup_app. split_and!; [done| |apply NoDup_singleton].
    intros s Hs ->%list_elem_of_singleton. done.
  - rewrite Eown. intros s [Hs| ->%list_elem_of_singleton]%elem_of_app; apply Elive; auto.
  - exists m', c'. split_and!; [done|done|]. split.
    + intros q. rewrite Ep, Epool, Hu, fmap_app. cbn. rewrite elem_of_app, list_elem_of_singleton.
      pose proof (chained_in_use _ _ _ _ q H). pose proof (Hpsub q). destruct (decide (q ∈ l2.*1)); tauto.
    + intros s. rewrite El, Elive, Hli, Eown, elem_of_app, list_elem_of_singleton.
      pose proof (ch_live _ _ _ _ H s). pose proof (Hosub s). destruct copy.
      * assert (s ∉ (∅ : gset ptr)) by set_solver. destruct (decide (s ∈ owned l)); tauto.
      * rewrite elem_of_singleton, Estr by done. destruct (Hcopy eq_refl) as [Hin1 Hin2].
        destruct (decide (s ∈ owned l)), (decide (s = str name)); subst; tauto.
    + destruct Hot as [C1 U1], Hot' as [C2 U2]. rewrite Epool, Ecells in *.
      assert (forall q, q ∉ l.*1 -> q ∈ in_use (pool m) -> q ∉ p :: l2.*1) as Hq.
      { intros q Hq1 Hq2 [->|Hq3]%elem_of_cons; [done|]. apply Hq1, Hpsub, Hq3. }
      split; intros q Hq1 Hq2; [rewrite C2, C1|]; auto.
Qed.

(** The table holds as many entries as the chain. *)
Lemma chained_count m h c l : chained m h c l -> Z.of_nat (length l) = cnt is_entry (table h).
Proof.
  intros H. rewrite <-entries_length. rewrite <-(length_fmap fst l). f_equal. apply Permutation_length.
  symmetry. apply NoDup_Permutation; [|apply (ch_chain _ _ _ _ H)|apply (ch_entries _ _ _ _ H)].
  apply entries_nodup. intros j1 j2 p H1 H2. pose proof (h_tab _ (ch_tab _ _ _ _ H)) as Ht.
  by eapply (tab_distinct _ _ Ht).
Qed.

Lemma exact_expand_safe m h c l : chained m h c l -> exact h -> 2 * Z.of_nat (length l) + 1 <= MAX_PRIME -> expand_safe h.
Proof. intros H [Hx _] Hl. unfold expand_safe. rewrite <-Hx, <-(chained_count _ _ _ _ H). lia. Qed.

(** A block besides the strings of the entries. *)
Lemma chained_xmemdup m h c l : chained m h c l -> let '(p, m1) := xmemdup m in
  chained m1 h c l /\ p ∈ live m1 /\ p ∉ owned l.
Proof.
  intros H. cbn. split_and!; [|set_solver|].
  - eapply chained_frame; [exact H|apply H|apply H|done|]. intros s Hs. cbn. apply elem_of_union_r. by apply (ch_live _ _ _ _ H).
  - intros Hp. apply (ch_live _ _ _ _ H) in Hp. by apply is_fresh in Hp.
Qed.

Lemma chained_xfree m h c l p : chained m h c l -> p ∈ live m -> p ∉ owned l ->
  exists m', xfree m p = Ok m' /\ chained m' h c l.
Proof.
  intros H Hp Hno. unfold xfree. rewrite decide_True by done. eexists. split; [done|].
  eapply chained_frame; [exact H|apply H|apply H|done|]. intros s Hs. cbn. apply elem_of_difference.
  split; [by apply (ch_live _ _ _ _ H)|]. rewrite elem_of_singleton. by intros ->.
Qed.
End hashed.
