(* ===== verification/Journal.v ===== *)
(** Journals: [src/zfsd/fs-entities/journal/journal.c] and [journal.h].

    The journal of a directory lists, in order, the entries that were added and
    deleted locally and are still to be replayed on the master.  [heap] and
    [chain] are those of [Chain]; [mutex] has no effect on one thread and is left
    out.  The abstract view of a journal is the list of its entries. *)

From S2P Require Import Prelude AllocPool Crc32 DataCoding Hashtab Chain.

Inductive journal_operation_t :=
  | JOURNAL_OPERATION_ADD
  | JOURNAL_OPERATION_DEL
  | JOURNAL_OPERATION_LAST_AND_UNUSED.

#[global] Instance journal_operation_eq_dec : EqDecision journal_operation_t.
Proof. solve_decision. Defined.

Record journal_entry := MkEntry {
  je_dev : Z;
  je_ino : Z;
  je_gen : Z;
  je_oper : journal_operation_t;
  je_name : name_t;
  je_master_fh : zfs_fh;
  je_master_version : Z
}.

Record journal := MkJournal {
  jn_htab : htab;
  jn_chain : chain;
  jn_fd : Z;
  jn_generation : Z
}.

(** The fields [journal_eq] reads. *)
Record journal_key := MkKey { key_oper : journal_operation_t; key_len : Z; key_chars : list Z }.

#[global] Instance journal_key_eq_dec : EqDecision journal_key.
Proof. solve_decision. Defined.

Definition name_key (oper : journal_operation_t) (name : name_t) : journal_key :=
  MkKey oper (len name) (chars name).

Definition oper_value (oper : journal_operation_t) : Z :=
  match oper with
  | JOURNAL_OPERATION_ADD => 0
  | JOURNAL_OPERATION_DEL => 1
  | JOURNAL_OPERATION_LAST_AND_UNUSED => 2
  end.

(** [JOURNAL_HASH]; the enumeration is a little-endian 4-byte integer. *)
Definition JOURNAL_HASH (k : journal_key) : Z :=
  crc32_update (crc32_buffer (take (Z.to_nat (key_len k)) (key_chars k)))
    (le_bytes 4 (oper_value (key_oper k))).

Definition journal_eq (k1 k2 : journal_key) : bool :=
  bool_decide (key_oper k1 = key_oper k2) && (key_len k1 =? key_len k2) &&
  bool_decide (key_chars k1 = key_chars k2).

#[global] Program Instance journal_keyed : Keyed journal_entry journal_key := {
  name_of := je_name;
  kof := fun e => name_key (je_oper e) (je_name e);
  khash := JOURNAL_HASH;
  keq := journal_eq;
  kdef := MkKey JOURNAL_OPERATION_ADD 0 []
}.
Next Obligation. intros. apply crc32_update_u32, crc32_buffer_u32. Qed.
Next Obligation.
  intros [o1 n1 c1] [o2 n2 c2]. unfold journal_eq. cbn.
  rewrite !andb_true_iff, !bool_decide_eq_true, Z.eqb_eq. naive_solver.
Qed.

#[local] Strategy opaque [JOURNAL_HASH].

Abbreviation jheap := (heap journal_entry).

Definition journal_hash (m : jheap) : ptr -> Z := hash_at m.

(** [initialize_journal_c] *)
Definition initialize_journal_c : res jheap :=
  pl ← create_alloc_pool 1020; Ok (MkHeap pl ∅ ∅).

Definition journal_create (nelem : Z) : res journal :=
  h ← htab_create nelem false;
  Ok (MkJournal h (MkChain None None) (-1) 0).

Definition journal_empty (m : jheap) (j : journal) : res (jheap * journal) :=
  m ← free_all m (jn_chain j);
  Ok (m, MkJournal (htab_empty (jn_htab j)) (MkChain None None) (jn_fd j) (jn_generation j)).

(** The table has no cleanup function and the journal itself is freed. *)
Definition journal_destroy (m : jheap) (j : journal) : res (jheap * list ptr) :=
  m ← free_all m (jn_chain j);
  Ok (m, htab_destroy (jn_htab j)).

Definition journal_member (m : jheap) (j : journal) (oper : journal_operation_t) (name : name_t) : res bool :=
  let k := name_key oper name in
  r ← htab_find_with_hash (eq_at m) (jn_htab j) k (JOURNAL_HASH k);
  Ok (bool_decide (is_Some r)).

(** [journal_delete]; [del = *slot]. *)
Definition journal_delete (m : jheap) (j : journal) (oper : journal_operation_t) (name : name_t)
    : res (jheap * journal * bool) :=
  let k := name_key oper name in
  '(h, o) ← htab_find_slot_with_hash (journal_hash m) (eq_at m) (jn_htab j) k (JOURNAL_HASH k) NO_INSERT;
  match o with
  | None => Ok (m, MkJournal h (jn_chain j) (jn_fd j) (jn_generation j), false)
  | Some idx =>
      s ← slot_at (table h) idx;
      match s with
      | Entry del =>
          '(m, c) ← discard m (jn_chain j) del;
          h ← htab_clear_slot h idx;
          Ok (m, MkJournal h c (jn_fd j) (jn_generation j), true)
      | _ => Aborted
      end
  end.

Definition journal_delete_entry (m : jheap) (j : journal) (entry : ptr) : res (jheap * journal * bool) :=
  e ← deref m entry;
  let k := name_key (je_oper (data e)) (je_name (data e)) in
  '(h, o) ← htab_find_slot_with_hash (journal_hash m) (eq_at m) (jn_htab j) k (JOURNAL_HASH k) NO_INSERT;
  match o with
  | None => Ok (m, MkJournal h (jn_chain j) (jn_fd j) (jn_generation j), false)
  | Some idx =>
      '(m, c) ← discard m (jn_chain j) entry;
      h ← htab_clear_slot h idx;
      Ok (m, MkJournal h c (jn_fd j) (jn_generation j), true)
  end.

(** The fields set before the slot is looked up. *)
Definition new_entry (oper : journal_operation_t) (name : name_t) : journal_entry :=
  MkEntry 0 0 0 oper name (MkFh 0 0 0 0 0) 0.

Definition full_entry (oper : journal_operation_t) (local_fh master_fh : zfs_fh) (master_version : Z)
    (name : name_t) : journal_entry :=
  MkEntry (dev local_fh) (ino local_fh) (gen local_fh) oper name master_fh master_version.

(** The second half of [journal_insert], after a DEL found nothing to annihilate. *)
Definition insert_entry (m : jheap) (j : journal) (oper : journal_operation_t)
    (local_fh master_fh : zfs_fh) (master_version : Z) (name : name_t) (copy : bool)
    : res (jheap * journal * bool) :=
  '(entry, m) ← alloc_entry m (new_entry oper name);
  let k := name_key oper name in
  '(h, o) ← htab_find_slot_with_hash (journal_hash m) (eq_at m) (jn_htab j) k (JOURNAL_HASH k) INSERT;
  match o with
  | None => Aborted
  | Some idx =>
      s ← slot_at (table h) idx;
      '(m, c) ← match s with
                | Entry old => discard m (jn_chain j) old
                | _ => Ok (m, jn_chain j)
                end;
      let '(name, m) := own_name copy m name in
      m ← assign_data m entry (full_entry oper local_fh master_fh master_version name);
      let h := htab_store h idx entry in
      '(m, c) ← append m c entry;
      Ok (m, MkJournal h c (jn_fd j) (jn_generation j), true)
  end.

Definition journal_insert (m : jheap) (j : journal) (oper : journal_operation_t)
    (local_fh master_fh : zfs_fh) (master_version : Z) (name : name_t) (copy : bool)
    : res (jheap * journal * bool) :=
  if decide (oper = JOURNAL_OPERATION_DEL) then
    '(m, j, r) ← journal_delete m j JOURNAL_OPERATION_ADD name;
    if (r : bool) then
      m ← if copy then Ok m else xfree m (str name);
      Ok (m, j, true)
    else insert_entry m j oper local_fh master_fh master_version name copy
  else insert_entry m j oper local_fh master_fh master_version name copy.

(** ** The journal as a list of entries *)

Abbreviation journal_ok m j l := (chained m (jn_htab j) (jn_chain j) l).

(** An entry without the address of its string. *)
Definition entry_view (e : journal_entry) : journal_entry :=
  MkEntry (je_dev e) (je_ino e) (je_gen e) (je_oper e)
    (MkName (len (je_name e)) (chars (je_name e)) 0) (je_master_fh e) (je_master_version e).

Definition log (l : list (ptr * journal_entry)) : list journal_entry := entry_view <$> l.*2.

Definition log_without (k : journal_key) (L : list journal_entry) : list journal_entry :=
  filter (fun e => kof e <> k) L.

(** What [journal_insert] does to the list: a DEL annihilates the ADD of the same
    name; otherwise the entry replaces the one with its operation and name and
    goes to the end. *)
Definition log_insert (e : journal_entry) (L : list journal_entry) : list journal_entry :=
  let add := name_key JOURNAL_OPERATION_ADD (je_name e) in
  if decide (je_oper e = JOURNAL_OPERATION_DEL) then
    if decide (Exists (fun e => kof e = add) L) then log_without add L
    else log_without (kof e) L ++ [entry_view e]
  else log_without (kof e) L ++ [entry_view e].

Lemma kof_view e : kof (entry_view e) = kof e.
Proof. done. Qed.

Lemma log_app l1 l2 : log (l1 ++ l2) = log l1 ++ log l2.
Proof. unfold log. by rewrite !fmap_app. Qed.

Lemma log_filter k l : log (without k l) = log_without k (log l).
Proof.
  unfold log, log_without, without. induction l as [|[p e] l IH]; [done|]. cbn [fmap list_fmap].
  destruct (decide (kof e = k)) as [E|E].
  - rewrite !filter_cons_False; [done| |]; rewrite ?kof_view; cbn; tauto.
  - rewrite !filter_cons_True; [|by rewrite kof_view|done]. cbn [fmap list_fmap]. f_equal. apply IH.
Qed.

Lemma has_log k l : has k l <-> Exists (fun e => kof e = k) (log l).
Proof.
  unfold has, log. rewrite Exists_exists. split.
  - intros (p & e & Hin & Hk). exists (entry_view e). split; [|done].
    apply list_elem_of_fmap. exists e. split; [done|]. apply list_elem_of_fmap. by exists (p, e).
  - intros (e & [e' [-> [[p d] [-> Hin]]%list_elem_of_fmap]]%list_elem_of_fmap & Hk). by exists p, d.
Qed.

(** ** The operations *)

Lemma journal_delete_ok m j l oper name :
  journal_ok m j l ->
  exists m' j' r, journal_delete m j oper name = Ok (m', j', r) /\
    let l' := without (name_key oper name) l in
    journal_ok m' j' l' /\ balanced ∅ m l m' l' /\ (r = true <-> has (name_key oper name) l) /\
    (r = false -> m' = m /\ j' = j) /\ (exact (jn_htab j) -> exact (jn_htab j')) /\
    n_elements (jn_htab j') - n_deleted (jn_htab j') <= n_elements (jn_htab j) - n_deleted (jn_htab j).
Proof.
  intros H. unfold journal_delete, journal_hash. set (k := name_key oper name).
  destruct (chained_slot _ _ _ _ k H) as (o & E & Ho). change (khash k) with (JOURNAL_HASH k) in E.
  rewrite E. cbn [mbind res_bind]. destruct o as [idx|].
  - destruct Ho as (Hi & p & d & l1 & l2 & -> & Hk & Hidx). unfold slot_at. rewrite Hidx. cbn [mbind res_bind].
    destruct (chained_remove _ _ _ _ _ _ _ _ H Hi Hidx) as (m' & c' & h' & -> & E' & H' & Hb & Hx & Hn).
    cbn [mbind res_bind]. rewrite E'. cbn [mbind res_bind]. eexists m', _, true. split; [done|]. cbn [jn_htab jn_chain].
    rewrite <-Hk, (without_present _ _ _ _ _ _ _ H). split_and!; try done; [|lia].
    split; [intros _|done]. exists p, d. split; [set_solver|done].
  - assert (~ has k l) as Hno by (intros (p & d & Hin & Hk); by eapply Ho).
    eexists m, _, false. split; [done|]. cbn [jn_htab jn_chain]. rewrite without_absent by done.
    split_and!; try done; [by eapply balanced_refl|by destruct j].
Qed.

Lemma journal_delete_entry_ok m j l entry d :
  journal_ok m j l -> (entry, d) ∈ l ->
  exists m' j', journal_delete_entry m j entry = Ok (m', j', true) /\
    let l' := without (kof d) l in
    journal_ok m' j' l' /\ balanced ∅ m l m' l' /\ (exact (jn_htab j) -> exact (jn_htab j')).
Proof.
  intros H Hin. unfold journal_delete_entry, journal_hash.
  destruct (dll_lookup _ _ _ _ _ _ (c_dll _ _ _ (ch_chain _ _ _ _ H)) Hin) as (e & He & Hd).
  rewrite (deref_Some _ _ _ He). cbn [mbind res_bind]. rewrite Hd.
  destruct (chained_slot _ _ _ _ (kof d) H) as (o & E & Ho). cbn [khash kof journal_keyed] in E.
  rewrite E. cbn [mbind res_bind]. destruct o as [idx|]; [|by destruct (Ho entry d Hin)].
  destruct Ho as (Hi & p & d' & l1 & l2 & -> & Hk & Hidx).
  assert (p = entry) as ->.
  { apply (chained_keys _ _ _ _ p d' entry d H); [apply elem_of_app; right; left|done|done]. }
  destruct (chained_remove _ _ _ _ _ _ _ _ H Hi Hidx) as (m' & c' & h' & -> & E' & H' & Hb & Hx & Hn).
  cbn [mbind res_bind]. rewrite E'. cbn [mbind res_bind]. eexists m', _. split; [done|]. cbn [jn_htab jn_chain].
  rewrite <-Hk, (without_present _ _ _ _ _ _ _ H). done.
Qed.

(** The name handed over by the caller when it is not copied. *)
Definition handed (copy : bool) (name : name_t) : gset ptr := if copy then ∅ else {[str name]}.

Definition name_given (copy : bool) (name : name_t) (m : jheap) (l : list (ptr * journal_entry)) : Prop :=
  copy = false -> str name ∈ live m /\ str name ∉ owned l.

Lemma insert_entry_ok m j l oper lfh mfh ver name copy :
  journal_ok m j l -> expand_safe (jn_htab j) -> name_given copy name m l ->
  exists m' j' p name', insert_entry m j oper lfh mfh ver name copy = Ok (m', j', true) /\
    let e := full_entry oper lfh mfh ver name' in
    let l' := without (name_key oper name) l ++ [(p, e)] in
    entry_view e = entry_view (full_entry oper lfh mfh ver name) /\
    journal_ok m' j' l' /\ balanced (handed copy name) m l m' l' /\
    (exact (jn_htab j) -> exact (jn_htab j')) /\ p ∉ in_use (pool m) /\
    (copy = true -> str name' ∈ live m -> str name' ∈ owned l).
Proof.
  intros H Hs Hg. unfold insert_entry, journal_hash. set (k := name_key oper name).
  destruct (chained_make_room m _ _ l (new_entry oper name) H Hs)
    as (p & m1 & h' & idx & s & m2 & c2 & E1 & E2 & E3 & E4 & Hu & Hip & Hc2 & Ht2 & He2 & Hcell2 & Hx2).
  rewrite E1. cbn [mbind res_bind]. change (kof (new_entry oper name)) with k in *.
  change (khash k) with (JOURNAL_HASH k) in E2. rewrite E2. cbn [mbind res_bind].
  rewrite E3. cbn [mbind res_bind]. rewrite E4. cbn [mbind res_bind].
  destruct (own_name copy m2 name) as [name' m3] eqn:Eown.
  destruct (chained_finish m _ _ l m2 _ c2 _ p _ name copy (full_entry oper lfh mfh ver) name' m3
    H Hu Hip Hc2 Ht2 He2 Hcell2 Hg ltac:(done)) as (m' & c' & E & H' & Hb); [|done|].
  { intros n Hn1 Hn2. cbn. unfold name_key. by rewrite Hn1, Hn2. }
  rewrite (bind_after _ _ _ _ E). eexists m', _, p, name'. split; [done|]. cbv zeta. cbn [jn_htab jn_chain].
  unfold own_name, xmemdup in Eown. split_and!; try done; destruct copy; injection Eown as <- <-; try done.
  cbn. intros _ Hin. pose proof (is_fresh (live m2)) as Hf. rewrite (ip_live _ _ _ _ _ Hip) in Hf.
  destruct (decide (fresh (live m2) ∈ owned l)); tauto.
Qed.

Lemma journal_insert_ok m j l oper lfh mfh ver name copy :
  journal_ok m j l -> expand_safe (jn_htab j) -> name_given copy name m l ->
  exists m' j' l', journal_insert m j oper lfh mfh ver name copy = Ok (m', j', true) /\
    journal_ok m' j' l' /\ log l' = log_insert (full_entry oper lfh mfh ver name) (log l) /\
    balanced (handed copy name) m l m' l' /\ (exact (jn_htab j) -> exact (jn_htab j')).
Proof.
  intros H Hs Hg. unfold journal_insert, log_insert. cbn [je_oper je_name full_entry].
  assert (exists m' j' l', insert_entry m j oper lfh mfh ver name copy = Ok (m', j', true) /\
    journal_ok m' j' l' /\
    log l' = log_without (name_key oper name) (log l) ++ [entry_view (full_entry oper lfh mfh ver name)] /\
    balanced (handed copy name) m l m' l' /\ (exact (jn_htab j) -> exact (jn_htab j')))
    as (m' & j' & l' & E & H' & El & Hb & Hx).
  { destruct (insert_entry_ok m j l oper lfh mfh ver name copy H Hs Hg)
      as (m' & j' & p & name' & E & Ev & H' & Hb & Hx & _).
    eexists m', j', _. split_and!; [exact E|exact H'| |exact Hb|exact Hx].
    rewrite log_app, log_filter. cbn. by rewrite Ev. }
  change (kof (full_entry oper lfh mfh ver name)) with (name_key oper name).
  destruct (decide (oper = JOURNAL_OPERATION_DEL)) as [->|]; [|by exists m', j', l'].
  set (add := name_key JOURNAL_OPERATION_ADD name).
  destruct (journal_delete_ok m j l JOURNAL_OPERATION_ADD name H)
    as (m1 & j1 & r & E1 & H1 & Hb1 & Hr & Hfalse & Hx1 & _).
  rewrite E1. cbn [mbind res_bind]. fold add in H1, Hb1, Hr. rewrite has_log in Hr. destruct r.
  - rewrite decide_True by (by apply Hr). clear E El Hb Hx H' m' j' l'. destruct copy; cbn [mbind res_bind].
    + exists m1, j1, (without add l). split_and!; try done. by rewrite log_filter.
    + destruct (Hg eq_refl) as [Hg1 Hg2]. unfold xfree. rewrite decide_True.
      2: { apply (b_live _ _ _ _ _ Hb1). right. split_and!; [done|done|set_solver]. }
      cbn [mbind res_bind]. eexists _, j1, (without add l). split; [done|].
      assert (forall s, s ∈ owned (without add l) -> s ∈ owned l) as Hsub.
      { intros s (e & -> & He)%list_elem_of_fmap. apply list_elem_of_fmap. eexists. split; [done|].
        by apply list_elem_of_filter in He as [_ ?]. }
      split_and!; try done; [|by rewrite log_filter|].
      * eapply chained_frame; [exact H1|apply H1|apply H1|done|]. cbn [live]. intros s Hs'.
        apply elem_of_difference. split; [by apply (ch_live _ _ _ _ H1)|]. rewrite elem_of_singleton.
        intros ->. by apply Hg2, Hsub.
      * destruct Hb1 as [B1 B2 B3]. split; cbn [pool live cells]; [exact B1| |by destruct B3].
        intros s. rewrite elem_of_difference, B2, elem_of_singleton. unfold handed. rewrite elem_of_singleton.
        assert (s ∉ (∅ : gset ptr)) by set_solver. pose proof (Hsub s).
        destruct (decide (s = str name)) as [->|]; tauto.
  - destruct (Hfalse eq_refl) as [-> ->]. rewrite decide_False by (intros Hex; by apply Hr in Hex).
    by exists m', j', l'.
Qed.

(** ** Properties *)

(** C16. [journal_insert] refines the list operation [log_insert]: on a
    well-formed journal it never aborts and returns true; a DEL removes the ADD of
    the same name and adds nothing, any other entry replaces the one with the same
    operation and name and becomes the last one.  Entries of other journals are
    untouched, and memory is accounted for exactly: afterwards the entries and
    strings in use are those of the journal and those of others, the caller's
    string being owned by the journal or freed when it is not copied. *)
Theorem journal_insert_refines m j l oper lfh mfh ver name copy :
  journal_ok m j l -> expand_safe (jn_htab j) -> name_given copy name m l ->
  exists m' j' l', journal_insert m j oper lfh mfh ver name copy = Ok (m', j', true) /\
    journal_ok m' j' l' /\ log l' = log_insert (full_entry oper lfh mfh ver name) (log l) /\
    balanced (handed copy name) m l m' l'.
Proof.
  intros H Hs Hg. destruct (journal_insert_ok m j l oper lfh mfh ver name copy H Hs Hg)
    as (m' & j' & l' & E & H' & El & Hb & _). by exists m', j', l'.
Qed.

(** [journal_delete] and [journal_delete_entry] remove exactly the entry with
    the given operation and name (or the given entry), free it and its string, and
    tell whether it was there; [journal_member] tells whether an operation on a
    name is in the journal and changes nothing. *)
Theorem journal_delete_member_refine m j l oper name :
  journal_ok m j l ->
  let k := name_key oper name in
  journal_member m j oper name = Ok (bool_decide (Exists (fun e => kof e = k) (log l))) /\
  (exists m' j' l', journal_delete m j oper name =
      Ok (m', j', bool_decide (Exists (fun e => kof e = k) (log l))) /\
    journal_ok m' j' l' /\ log l' = log_without k (log l) /\ balanced ∅ m l m' l') /\
  (forall p e, (p, e) ∈ l -> exists m' j' l', journal_delete_entry m j p = Ok (m', j', true) /\
    journal_ok m' j' l' /\ log l' = log_without (kof e) (log l) /\ balanced ∅ m l m' l').
Proof.
  intros H k. split_and!.
  - destruct (chained_find _ _ _ _ k H) as (r & E & Hr). unfold journal_member. fold k.
    change (JOURNAL_HASH k) with (khash k). rewrite E. cbn [mbind res_bind]. f_equal.
    apply bool_decide_ext. rewrite Hr, <-has_log. done.
  - destruct (journal_delete_ok m j l oper name H) as (m' & j' & r & E & H' & Hb & Hr & _).
    eexists m', j', _. split_and!; [|exact H'|apply log_filter|exact Hb]. rewrite E. do 2 f_equal.
    rewrite has_log in Hr. case_bool_decide as Hd; [by apply Hr|]. destruct r; [|done]. by destruct Hd; apply Hr.
  - intros p e Hin. destruct (journal_delete_entry_ok m j l p e H Hin) as (m' & j' & E & H' & Hb & _).
    eexists m', j', _. split_and!; [exact E|exact H'|apply log_filter|exact Hb].
Qed.

(** [journal_empty] and [journal_destroy] free every entry and every string of
    the journal, nothing else, and never touch memory that was already freed;
    after [journal_empty] the journal is well formed and empty. *)
Theorem journal_empty_destroy_free m j l :
  journal_ok m j l ->
  (exists m' j', journal_empty m j = Ok (m', j') /\ journal_ok m' j' [] /\ freed l m m') /\
  (exists m' dels, journal_destroy m j = Ok (m', dels) /\ freed l m m').
Proof.
  intros H. destruct (chained_free_all _ _ _ _ H) as (m' & E & Hf & H').
  split; [unfold journal_empty|unfold journal_destroy]; rewrite E; cbn [mbind res_bind]; eexists m', _; done.
Qed.

(** Adding a name to a directory and deleting it again leaves no trace in the
    journal: if the journal had no ADD of the name, the ADD followed by the DEL
    brings back the same list of entries, the same entries in use and the same
    strings. *)
Theorem journal_add_del_annihilate m j l lfh mfh ver lfh' mfh' ver' name :
  journal_ok m j l -> expand_safe (jn_htab j) ->
  ~ Exists (fun e => kof e = name_key JOURNAL_OPERATION_ADD name) (log l) ->
  exists m1 j1 m2 j2,
    journal_insert m j JOURNAL_OPERATION_ADD lfh mfh ver name true = Ok (m1, j1, true) /\
    journal_insert m1 j1 JOURNAL_OPERATION_DEL lfh' mfh' ver' name true = Ok (m2, j2, true) /\
    journal_ok m2 j2 l /\
    (forall p, p ∈ in_use (pool m2) <-> p ∈ in_use (pool m)) /\
    (forall s, s ∈ live m2 <-> s ∈ live m).
Proof.
  intros H Hs Hno. rewrite <-has_log in Hno. set (k := name_key JOURNAL_OPERATION_ADD name) in *.
  destruct (insert_entry_ok m j l JOURNAL_OPERATION_ADD lfh mfh ver name true H Hs ltac:(done))
    as (m1 & j1 & p & name' & E1 & Ev & H1 & Hb1 & _ & Hp & Hn). fold k in H1, Hb1. rewrite without_absent in H1, Hb1 by done.
  set (e := full_entry JOURNAL_OPERATION_ADD lfh mfh ver name') in *.
  assert (kof e = k) as Hke.
  { rewrite <-kof_view, Ev. done. }
  destruct (journal_delete_ok m1 j1 _ JOURNAL_OPERATION_ADD name H1) as (m2 & j2 & r & E2 & H2 & Hb2 & Hr & _).
  fold k in H2, Hb2, Hr.
  assert (without k (l ++ [(p, e)]) = l) as El.
  { rewrite <-Hke, (without_present m1 (jn_htab j1) (jn_chain j1) l [] p e H1). apply app_nil_r. }
  rewrite El in H2, Hb2. assert (r = true) as -> by (apply Hr; exists p, e; split; [set_solver|done]).
  exists m1, j1, m2, j2. unfold journal_insert. rewrite decide_False, decide_True by done.
  rewrite E1, E2. cbn [mbind res_bind]. split_and!; try done.
  - intros q. rewrite (b_use _ _ _ _ _ Hb2), (b_use _ _ _ _ _ Hb1).
    rewrite fmap_app, elem_of_app. cbn [fmap list_fmap fst]. rewrite list_elem_of_singleton.
    pose proof (chained_in_use _ _ _ _ q H). destruct (decide (q = p)) as [->|]; [|destruct (decide (q ∈ l.*1))]; tauto.
  - intros s. rewrite (b_live _ _ _ _ _ Hb2), (b_live _ _ _ _ _ Hb1). unfold handed.
    assert (owned (l ++ [(p, e)]) = owned l ++ [str name']) as -> by (unfold owned; by rewrite fmap_app).
    assert (s ∉ (∅ : gset ptr)) by set_solver. rewrite elem_of_app, list_elem_of_singleton.
    pose proof (ch_live _ _ _ _ H s). specialize (Hn eq_refl).
    destruct (decide (s ∈ owned l)); [tauto|]. destruct (decide (s = str name')) as [->|]; tauto.
Qed.

(** ** A concrete journal *)

Definition fh0 : zfs_fh := MkFh 1 2 3 4 5.
Definition name_a : name_t := MkName 1 [97] 0.
Definition name_b : name_t := MkName 1 [98] 0.

Definition sample_heap : jheap := MkHeap (MkPool 2 [] 0 0 0 [] 0) ∅ ∅.
Definition sample_journal : journal := MkJournal (MkHtab (replicate 7 EMPTY_ENTRY) 7 0 0 false []) (MkChain None None) (-1) 0.

Lemma sample_journal_created :
  create_alloc_pool 2 = Ok (pool sample_heap) /\ journal_create 4 = Ok sample_journal.
Proof. split; reflexivity. Qed.

Lemma journal_create_ok n : n <= MAX_PRIME ->
  exists j, journal_create n = Ok j /\ expand_safe (jn_htab j) /\
    forall m, pool_ok (pool m) -> (forall p, is_Some (cells m !! p) -> p ∈ in_use (pool m)) -> journal_ok m j [].
Proof.
  intros Hn. destruct (htab_create_ok (hash_f := hash_at sample_heap) (eq_f := eq_at sample_heap) n false Hn)
    as (h & E & Ht & [Hx1 Hx2] & He & _).
  unfold journal_create. rewrite E. cbn [mbind res_bind]. eexists. split; [done|]. cbn [jn_htab jn_chain]. split.
  - unfold expand_safe. rewrite <-Hx1, <-entries_length, He. done.
  - intros m Hpo Ha. split; try done.
    + split; try done. constructor.
    + eapply htab_ok_keys; [|exact Ht]. rewrite He. set_solver.
    + by rewrite He.
    + constructor.
    + set_solver.
Qed.

Lemma sample_journal_ok : journal_ok sample_heap sample_journal [] /\ expand_safe (jn_htab sample_journal).
Proof.
  destruct (journal_create_ok 4) as (j & E & Hs & Hj); [done|]. cbn in E. injection E as <-. split; [|done].
  apply Hj; [|by intros p [? ?]]. destruct (create_alloc_pool_ok 2) as (pl & E & Hpl & _); [lia|].
  cbn in E. injection E as <-. done.
Qed.

(** The journal after adding the name "a". *)
Definition added_state : jheap * journal :=
  match journal_insert sample_heap sample_journal JOURNAL_OPERATION_ADD fh0 fh0 9 name_a true with
  | Ok (m, j, _) => (m, j)
  | _ => (sample_heap, sample_journal)
  end.

Lemma added_state_ok : exists l, journal_ok added_state.1 added_state.2 l /\
  log l = [full_entry JOURNAL_OPERATION_ADD fh0 fh0 9 name_a].
Proof.
  destruct sample_journal_ok as [H Hs].
  destruct (journal_insert_ok sample_heap sample_journal [] JOURNAL_OPERATION_ADD fh0 fh0 9 name_a true H Hs ltac:(done))
    as (m & j & l & E & Hj & El & _). exists l. unfold added_state. rewrite E. split; [done|]. by rewrite El.
Qed.

Lemma journal_insert_refines_witness :
  exists m j l, journal_insert sample_heap sample_journal JOURNAL_OPERATION_ADD fh0 fh0 9 name_a true = Ok (m, j, true) /\
    journal_ok m j l /\ log l = [full_entry JOURNAL_OPERATION_ADD fh0 fh0 9 name_a].
Proof.
  destruct sample_journal_ok as [H Hs].
  destruct (journal_insert_refines sample_heap sample_journal [] JOURNAL_OPERATION_ADD fh0 fh0 9 name_a true H Hs ltac:(done))
    as (m & j & l & E & Hj & El & _). exists m, j, l. split_and!; [exact E|exact Hj|]. by rewrite El.
Defined.

Lemma journal_delete_member_refine_witness :
  journal_member added_state.1 added_state.2 JOURNAL_OPERATION_ADD name_a = Ok true /\
  exists m j, journal_delete added_state.1 added_state.2 JOURNAL_OPERATION_ADD name_a = Ok (m, j, true) /\
    journal_ok m j [].
Proof.
  destruct added_state_ok as (l & H & El).
  destruct (journal_delete_member_refine _ _ l JOURNAL_OPERATION_ADD name_a H) as (Em & (m & j & l' & Ed & Hj & El' & _) & _).
  rewrite El in Em, Ed, El'.
  assert (Exists (fun e => kof e = name_key JOURNAL_OPERATION_ADD name_a)
            [full_entry JOURNAL_OPERATION_ADD fh0 fh0 9 name_a]) as Hex by (by left).
  rewrite (bool_decide_true _ Hex) in Em, Ed. split; [exact Em|]. exists m, j. split; [exact Ed|].
  assert (l' = []) as ->; [|exact Hj]. destruct l' as [|[? ?] ?]; [done|]. discriminate El'.
Defined.

Lemma journal_empty_destroy_free_witness :
  exists m j, journal_empty added_state.1 added_state.2 = Ok (m, j) /\ journal_ok m j [].
Proof.
  destruct added_state_ok as (l & H & El).
  destruct (journal_empty_destroy_free _ _ l H) as [(m & j & E & Hj & _) _].
  exists m, j. exact (conj E Hj).
Defined.

Lemma journal_add_del_annihilate_witness :
  exists m1 j1 m2 j2,
    journal_insert added_state.1 added_state.2 JOURNAL_OPERATION_ADD fh0 fh0 9 name_b true = Ok (m1, j1, true) /\
    journal_insert m1 j1 JOURNAL_OPERATION_DEL fh0 fh0 9 name_b true = Ok (m2, j2, true) /\
    exists l, journal_ok m2 j2 l /\ log l = [full_entry JOURNAL_OPERATION_ADD fh0 fh0 9 name_a].
Proof.
  destruct added_state_ok as (l & H & El).
  destruct (journal_add_del_annihilate _ _ l fh0 fh0 9 fh0 fh0 9 name_b H) as (m1 & j1 & m2 & j2 & E1 & E2 & Hj & _).
  - vm_compute. discriminate.
  - rewrite El. rewrite Exists_cons, Exists_nil. by intros [?|?].
  - exists m1, j1, m2, j2. split; [exact E1|]. split; [exact E2|]. exists l. exact (conj Hj El).
Defined.
