(* ===== verification/HardlinkList.v ===== *)
(** Hardlink lists: [src/zfsd/fs-entities/hardlink/hardlink-list.c] and
    [hardlink-list.h].

    The list of the names (parent directory and file name) under which a file is
    linked.  It has the shape of a journal ([Chain]), but an insertion of a name
    that is already there changes nothing and returns false. *)

From S2P Require Import Prelude AllocPool Crc32 Hashtab Chain.

Record hardlink_list_entry := MkHl { parent_dev : Z; parent_ino : Z; hl_name : name_t }.

Record hardlink_list := MkHlist { hl_htab : htab; hl_chain : chain }.

(** The fields [hardlink_list_eq] reads. *)
Record hl_key := MkHlKey { hk_dev : Z; hk_ino : Z; hk_len : Z; hk_chars : list Z }.

#[global] Instance hl_key_eq_dec : EqDecision hl_key.
Proof. solve_decision. Defined.

Definition link_key (dev ino : Z) (name : name_t) : hl_key := MkHlKey dev ino (len name) (chars name).

(** [HARDLINK_LIST_HASH]; integers are little-endian in memory. *)
Definition HARDLINK_LIST_HASH (k : hl_key) : Z :=
  crc32_update
    (crc32_update (crc32_buffer (take (Z.to_nat (hk_len k)) (hk_chars k))) (le_bytes 4 (hk_dev k)))
    (le_bytes 4 (hk_ino k)).

Definition hardlink_list_eq (k1 k2 : hl_key) : bool :=
  (hk_ino k1 =? hk_ino k2) && (hk_dev k1 =? hk_dev k2) && (hk_len k1 =? hk_len k2) &&
  bool_decide (hk_chars k1 = hk_chars k2).

#[global] Program Instance hardlink_keyed : Keyed hardlink_list_entry hl_key := {
  name_of := hl_name;
  kof := fun e => link_key (parent_dev e) (parent_ino e) (hl_name e);
  khash := HARDLINK_LIST_HASH;
  keq := hardlink_list_eq;
  kdef := MkHlKey 0 0 0 []
}.
Next Obligation. intros. apply crc32_update_u32, crc32_update_u32, crc32_buffer_u32. Qed.
Next Obligation.
  intros [d1 i1 n1 c1] [d2 i2 n2 c2]. unfold hardlink_list_eq. cbn.
  rewrite !andb_true_iff, !bool_decide_eq_true, !Z.eqb_eq. naive_solver.
Qed.

#[local] Strategy opaque [HARDLINK_LIST_HASH].

Abbreviation hheap := (heap hardlink_list_entry).

Definition hardlink_list_hash (m : hheap) : ptr -> Z := hash_at m.

Definition initialize_hardlink_list_c : res hheap :=
  pl ← create_alloc_pool 1020; Ok (MkHeap pl ∅ ∅).

Definition hardlink_list_create (nelem : Z) : res hardlink_list :=
  h ← htab_create nelem false;
  Ok (MkHlist h (MkChain None None)).

Definition hardlink_list_empty (m : hheap) (hl : hardlink_list) : res (hheap * hardlink_list) :=
  m ← free_all m (hl_chain hl);
  Ok (m, MkHlist (htab_empty (hl_htab hl)) (MkChain None None)).

Definition hardlink_list_destroy (m : hheap) (hl : hardlink_list) : res (hheap * list ptr) :=
  m ← free_all m (hl_chain hl);
  Ok (m, htab_destroy (hl_htab hl)).

Definition hardlink_list_insert (m : hheap) (hl : hardlink_list) (dev ino : Z) (name : name_t) (copy : bool)
    : res (hheap * hardlink_list * bool) :=
  '(entry, m) ← alloc_entry m (MkHl dev ino name);
  let k := link_key dev ino name in
  '(h, o) ← htab_find_slot_with_hash (hardlink_list_hash m) (eq_at m) (hl_htab hl) k
              (HARDLINK_LIST_HASH k) INSERT;
  match o with
  | None => Aborted
  | Some idx =>
      s ← slot_at (table h) idx;
      match s with
      | Entry _ =>
          m ← free_entry m entry;
          m ← if copy then Ok m else xfree m (str name);
          Ok (m, MkHlist h (hl_chain hl), false)
      | _ =>
          let '(name, m) := own_name copy m name in
          m ← assign_data m entry (MkHl dev ino name);
          let h := htab_store h idx entry in
          '(m, c) ← append m (hl_chain hl) entry;
          Ok (m, MkHlist h c, true)
      end
  end.

Definition hardlink_list_member (m : hheap) (hl : hardlink_list) (dev ino : Z) (name : name_t) : res bool :=
  let k := link_key dev ino name in
  r ← htab_find_with_hash (eq_at m) (hl_htab hl) k (HARDLINK_LIST_HASH k);
  Ok (bool_decide (is_Some r)).

Definition hardlink_list_delete (m : hheap) (hl : hardlink_list) (dev ino : Z) (name : name_t)
    : res (hheap * hardlink_list * bool) :=
  let k := link_key dev ino name in
  '(h, o) ← htab_find_slot_with_hash (hardlink_list_hash m) (eq_at m) (hl_htab hl) k
              (HARDLINK_LIST_HASH k) NO_INSERT;
  match o with
  | None => Ok (m, MkHlist h (hl_chain hl), false)
  | Some idx =>
      s ← slot_at (table h) idx;
      match s with
      | Entry del =>
          '(m, c) ← discard m (hl_chain hl) del;
          h ← htab_clear_slot h idx;
          Ok (m, MkHlist h c, true)
      | _ => Aborted
      end
  end.

Definition hardlink_list_delete_entry (m : hheap) (hl : hardlink_list) (entry : ptr)
    : res (hheap * hardlink_list * bool) :=
  e ← deref m entry;
  let k := link_key (parent_dev (data e)) (parent_ino (data e)) (hl_name (data e)) in
  '(h, o) ← htab_find_slot_with_hash (hardlink_list_hash m) (eq_at m) (hl_htab hl) k
              (HARDLINK_LIST_HASH k) NO_INSERT;
  match o with
  | None => Ok (m, MkHlist h (hl_chain hl), false)
  | Some idx =>
      '(m, c) ← discard m (hl_chain hl) entry;
      h ← htab_clear_slot h idx;
      Ok (m, MkHlist h c, true)
  end.

Definition hardlink_list_length (hl : hardlink_list) : Z :=
  u32 (n_elements (hl_htab hl) - n_deleted (hl_htab hl)).

(** ** The list as a list of names *)

Abbreviation hl_ok m hl l := (chained m (hl_htab hl) (hl_chain hl) l).

(** The names of a list, in the order of insertion. *)
Definition links (l : list (ptr * hardlink_list_entry)) : list hl_key := (fun e => kof e.2) <$> l.

Lemma has_links k (l : list (ptr * hardlink_list_entry)) : has k l <-> k ∈ links l.
Proof.
  unfold has, links. rewrite list_elem_of_fmap. split.
  - intros (p & d & Hin & <-). by exists (p, d).
  - intros ([p d] & -> & Hin). by exists p, d.
Qed.

Lemma links_without k l : links (without k l) = filter (fun k' => k' <> k) (links l).
Proof.
  unfold links, without. induction l as [|[p e] l IH]; [done|]. cbn [fmap list_fmap].
  destruct (decide (kof e = k)) as [E|E].
  - rewrite !filter_cons_False; [done| |]; cbn [snd]; tauto.
  - rewrite !filter_cons_True; [|done|done]. cbn [fmap list_fmap]. f_equal. apply IH.
Qed.

(** The length is the number of entries while the counters of the table are exact. *)
Lemma hardlink_list_length_exact m hl l :
  hl_ok m hl l -> exact (hl_htab hl) -> hardlink_list_length hl = Z.of_nat (length l).
Proof.
  intros H [Hx _]. rewrite (chained_count _ _ _ _ H). unfold hardlink_list_length. rewrite Hx.
  destruct (htab_counters _ (ch_tab _ _ _ _ H)) as (? & ? & ?). apply wrap_small. unfold MAX_PRIME in *. lia.
Qed.

(** ** The operations *)

Lemma hardlink_list_delete_ok m hl l dev ino name :
  hl_ok m hl l ->
  exists m' hl' r, hardlink_list_delete m hl dev ino name = Ok (m', hl', r) /\
    let l' := without (link_key dev ino name) l in
    hl_ok m' hl' l' /\ balanced ∅ m l m' l' /\ (r = true <-> has (link_key dev ino name) l) /\
    (exact (hl_htab hl) -> exact (hl_htab hl')).
Proof.
  intros H. unfold hardlink_list_delete, hardlink_list_hash. set (k := link_key dev ino name).
  destruct (chained_slot _ _ _ _ k H) as (o & E & Ho). change (khash k) with (HARDLINK_LIST_HASH k) in E.
  rewrite E. cbn [mbind res_bind]. destruct o as [idx|].
  - destruct Ho as (Hi & p & d & l1 & l2 & -> & Hk & Hidx). unfold slot_at. rewrite Hidx. cbn [mbind res_bind].
    destruct (chained_remove _ _ _ _ _ _ _ _ H Hi Hidx) as (m' & c' & h' & -> & E' & H' & Hb & Hx & Hn).
    cbn [mbind res_bind]. rewrite E'. cbn [mbind res_bind]. eexists m', _, true. split; [done|]. cbn [hl_htab hl_chain].
    rewrite <-Hk, (without_present _ _ _ _ _ _ _ H). split_and!; try done.
    split; [intros _|done]. exists p, d. split; [set_solver|done].
  - assert (~ has k l) as Hno by (intros (p & d & Hin & Hk); by eapply Ho).
    eexists m, _, false. split; [done|]. cbn [hl_htab hl_chain]. rewrite without_absent by done.
    split_and!; try done. by eapply balanced_refl.
Qed.

Lemma hardlink_list_delete_entry_ok m hl l entry d :
  hl_ok m hl l -> (entry, d) ∈ l ->
  exists m' hl', hardlink_list_delete_entry m hl entry = Ok (m', hl', true) /\
    let l' := without (kof d) l in
    hl_ok m' hl' l' /\ balanced ∅ m l m' l' /\ (exact (hl_htab hl) -> exact (hl_htab hl')).
Proof.
  intros H Hin. unfold hardlink_list_delete_entry, hardlink_list_hash.
  destruct (dll_lookup _ _ _ _ _ _ (c_dll _ _ _ (ch_chain _ _ _ _ H)) Hin) as (e & He & Hd).
  rewrite (deref_Some _ _ _ He). cbn [mbind res_bind]. rewrite Hd.
  destruct (chained_slot _ _ _ _ (kof d) H) as (o & E & Ho). cbn [khash kof hardlink_keyed] in E.
  rewrite E. cbn [mbind res_bind]. destruct o as [idx|]; [|by destruct (Ho entry d Hin)].
  destruct Ho as (Hi & p & d' & l1 & l2 & -> & Hk & Hidx).
  assert (p = entry) as ->.
  { apply (chained_keys _ _ _ _ p d' entry d H); [apply elem_of_app; right; left|done|done]. }
  destruct (chained_remove _ _ _ _ _ _ _ _ H Hi Hidx) as (m' & c' & h' & -> & E' & H' & Hb & Hx & Hn).
  cbn [mbind res_bind]. rewrite E'. cbn [mbind res_bind]. eexists m', _. split; [done|]. cbn [hl_htab hl_chain].
  rewrite <-Hk, (without_present _ _ _ _ _ _ _ H). done.
Qed.

Definition handed_link (copy : bool) (name : name_t) : gset ptr := if copy then ∅ else {[str name]}.

(** Freeing the entry and, when it was handed over, the name. *)
Lemma give_back m m1 h0 h c l p (name : name_t) (copy : bool) :
  chained m h0 c l -> chained m1 h c l -> p ∉ l.*1 -> p ∉ in_use (pool m) ->
  in_use (pool m1) = p :: in_use (pool m) -> live m1 = live m -> others_kept [] m m1 ->
  (copy = false -> str name ∈ live m /\ str name ∉ owned l) ->
  exists m2 m3, free_entry m1 p = Ok m2 /\ (if copy then Ok m2 else xfree m2 (str name)) = Ok m3 /\
    chained m3 h c l /\ balanced (handed_link copy name) m l m3 l.
Proof.
  intros H H1 Hp Hu Hin Hli Hot Hg.
  destruct (chained_free m1 _ _ _ p H1 Hp ltac:(rewrite Hin; left)) as (m2 & E2 & H2 & Hl2 & Hu2 & Ho2).
  assert (forall q, q ∈ in_use (pool m2) <-> q ∈ in_use (pool m)) as Hu3.
  { intros q. rewrite Hu2, Hin, elem_of_cons. destruct (decide (q = p)) as [->|]; tauto. }
  assert (others_kept l.*1 m m2) as Hot2.
  { destruct Hot as [C1 U1], Ho2 as [C2 U2]. split; intros q Hq1 Hq2; [|by apply Hu3].
    assert (q ∉ [p]) by (rewrite list_elem_of_singleton; intros ->; done).
    rewrite C2, C1; [done|set_solver|done|done|]. apply U1; [set_solver|done]. }
  assert (balanced ∅ m l m2 l) as Hb.
  { destruct (balanced_refl _ _ _ _ H) as [B1 B2 _]. split; [|by rewrite Hl2, Hli|done].
    intros q. by rewrite Hu3. }
  exists m2. destruct copy; [by exists m2|]. destruct (Hg eq_refl) as [Hg1 Hg2]. unfold xfree.
  rewrite decide_True by (by rewrite Hl2, Hli). eexists. split; [done|]. split; [done|]. split.
  - eapply chained_frame; [exact H2|apply H2|apply H2|done|]. cbn [live]. intros s Hs.
    apply elem_of_difference. split; [by apply (ch_live _ _ _ _ H2)|]. rewrite elem_of_singleton. by intros ->.
  - destruct Hb as [B1 B2 B3]. split; cbn [pool live]; [exact B1| |destruct B3; split; done].
    intros s. rewrite elem_of_difference, B2, elem_of_singleton. unfold handed_link. rewrite elem_of_singleton.
    assert (s ∉ (∅ : gset ptr)) by set_solver. destruct (decide (s = str name)) as [->|]; tauto.
Qed.

Lemma hardlink_list_insert_ok m hl l dev ino name copy :
  hl_ok m hl l -> expand_safe (hl_htab hl) ->
  (copy = false -> str name ∈ live m /\ str name ∉ owned l) ->
  exists m' hl' r l', hardlink_list_insert m hl dev ino name copy = Ok (m', hl', r) /\
    hl_ok m' hl' l' /\ (r = true <-> link_key dev ino name ∉ links l) /\
    links l' = links l ++ (if r then [link_key dev ino name] else []) /\
    balanced (handed_link copy name) m l m' l' /\ (exact (hl_htab hl) -> exact (hl_htab hl')).
Proof.
  intros H Hs Hg. unfold hardlink_list_insert, hardlink_list_hash. set (k := link_key dev ino name).
  destruct (chained_insert_slot m _ _ l (MkHl dev ino name) H Hs)
    as (p & m1 & h' & idx & E1 & E2 & Hp & Hu & Hcell & Hli & Hin & Hot & Hcase).
  rewrite E1. cbn [mbind res_bind]. change (kof (MkHl dev ino name)) with k in *.
  change (khash k) with (HARDLINK_LIST_HASH k) in E2. rewrite E2. cbn [mbind res_bind].
  destruct Hcase as [(q & b & l1 & l2 & El & Hkb & Hslot & H1 & Hx)|(Hno & Hslot & H1 & Ht & He & Hx & _)];
    rewrite Hslot; cbn [mbind res_bind].
  - destruct (give_back m m1 _ _ _ l p name copy H H1 Hp Hu Hin Hli Hot Hg) as (m2 & m3 & E3 & E4 & H3 & Hb).
    rewrite E3. cbn [mbind res_bind]. rewrite E4. cbn [mbind res_bind]. eexists m3, _, false, l.
    split; [done|]. cbn [hl_htab hl_chain]. rewrite app_nil_r. split_and!; try done. split; [done|]. intros [].
    apply has_links. exists q, b. split; [|done]. rewrite El. set_solver.
  - destruct (own_name copy m1 name) as [name' m3] eqn:Eown.
    destruct (chained_finish m _ _ l m1 (htab_store h' idx p) (hl_chain hl) l p _ name copy (MkHl dev ino) name' m3
      H Hu (progress_fresh _ _ _ _ _ _ H1 Hin Hli Hot) (ch_chain _ _ _ _ H1) Ht He Hcell Hg ltac:(done))
      as (m' & c' & E & H' & Hb); [|done|].
    { intros n Hn1 Hn2. cbn. unfold link_key. by rewrite Hn1, Hn2. }
    rewrite (bind_after _ _ _ _ E). eexists m', _, true, _. split; [done|]. cbn [hl_htab hl_chain].
    split_and!; try done; [split; [intros _|done]; by rewrite <-has_links|].
    unfold links. rewrite fmap_app. cbn [fmap list_fmap]. do 2 f_equal. unfold own_name, xmemdup in Eown.
    destruct copy; by injection Eown as <- _.
Qed.

(** ** Properties *)

(** C38. A hardlink list is a set of names in the order of insertion.
    [hardlink_list_insert] adds a new name at the end and returns true, or returns
    false and changes nothing when it is there; [hardlink_list_delete] and
    [hardlink_list_delete_entry] remove exactly the name and say whether it was
    there; [hardlink_list_member] decides membership.  None of them aborts, other
    lists are untouched, and the entries and strings in use afterwards are those
    of the list and those of others: nothing leaks, nothing is freed twice. *)
Theorem hardlink_list_refines_set m hl l dev ino name copy :
  hl_ok m hl l -> expand_safe (hl_htab hl) ->
  (copy = false -> str name ∈ live m /\ str name ∉ owned l) ->
  let k := link_key dev ino name in
  hardlink_list_member m hl dev ino name = Ok (bool_decide (k ∈ links l)) /\
  (exists m' hl' l', hardlink_list_insert m hl dev ino name copy = Ok (m', hl', bool_decide (k ∉ links l)) /\
    hl_ok m' hl' l' /\ links l' = links l ++ (if bool_decide (k ∈ links l) then [] else [k]) /\
    balanced (handed_link copy name) m l m' l') /\
  (exists m' hl' l', hardlink_list_delete m hl dev ino name = Ok (m', hl', bool_decide (k ∈ links l)) /\
    hl_ok m' hl' l' /\ links l' = filter (fun k' => k' <> k) (links l) /\ balanced ∅ m l m' l') /\
  (forall p e, (p, e) ∈ l -> exists m' hl' l', hardlink_list_delete_entry m hl p = Ok (m', hl', true) /\
    hl_ok m' hl' l' /\ links l' = filter (fun k' => k' <> kof e) (links l) /\ balanced ∅ m l m' l').
Proof.
  intros H Hs Hg k. split_and!.
  - destruct (chained_find _ _ _ _ k H) as (r & E & Hr). unfold hardlink_list_member. fold k.
    change (HARDLINK_LIST_HASH k) with (khash k). rewrite E. cbn [mbind res_bind]. f_equal.
    apply bool_decide_ext. rewrite Hr, <-has_links. done.
  - destruct (hardlink_list_insert_ok m hl l dev ino name copy H Hs Hg) as (m' & hl' & r & l' & E & H' & Hr & El & Hb & _).
    exists m', hl', l'. fold k in Hr, El. rewrite E. case_bool_decide as H1; case_bool_decide as H2; try done.
    + assert (r = true) as -> by (by apply Hr). done.
    + assert (r = false) as -> by (destruct r; [by apply Hr in H2|done]). done.
  - destruct (hardlink_list_delete_ok m hl l dev ino name H) as (m' & hl' & r & E & H' & Hb & Hr & _).
    fold k in H', Hb, Hr. eexists m', hl', _. split_and!; [|exact H'|apply links_without|exact Hb].
    rewrite has_links in Hr. rewrite E. do 2 f_equal. case_bool_decide as Hd; [by apply Hr|].
    destruct r; [|done]. by destruct Hd; apply Hr.
  - intros p e Hin. destruct (hardlink_list_delete_entry_ok m hl l p e H Hin) as (m' & hl' & E & H' & Hb & _).
    eexists m', hl', _. split_and!; [exact E|exact H'|apply links_without|exact Hb].
Qed.

(** [hardlink_list_length] counts the names of a list whose counters are
    exact, but after [hardlink_list_empty] it still returns the old number
    although no name is left. *)
Theorem hardlink_list_length_stale m hl l :
  hl_ok m hl l -> exact (hl_htab hl) ->
  hardlink_list_length hl = Z.of_nat (length l) /\
  exists m' hl', hardlink_list_empty m hl = Ok (m', hl') /\ hl_ok m' hl' [] /\ freed l m m' /\
    hardlink_list_length hl' = Z.of_nat (length l).
Proof.
  intros H Hx. split; [by eapply hardlink_list_length_exact|].
  destruct (chained_free_all _ _ _ _ H) as (m' & E & Hf & H'). unfold hardlink_list_empty. rewrite E.
  cbn [mbind res_bind]. eexists m', _. split_and!; [done|done|done|]. by eapply (hardlink_list_length_exact m hl).
Qed.

(** ** A concrete list *)

Definition hl_name_a : name_t := MkName 1 [97] 0.
Definition hl_heap0 : hheap := MkHeap (MkPool 2 [] 0 0 0 [] 0) ∅ ∅.
Definition hl_list0 : hardlink_list := MkHlist (MkHtab (replicate 7 EMPTY_ENTRY) 7 0 0 false []) (MkChain None None).

Lemma hl_list0_ok : hl_ok hl_heap0 hl_list0 [] /\ exact (hl_htab hl_list0) /\ expand_safe (hl_htab hl_list0).
Proof.
  destruct (htab_create_ok (hash_f := hash_at hl_heap0) (eq_f := eq_at hl_heap0) 4 false) as (h & E & Ht & Hx & He & _); [done|].
  cbn in E. injection E as <-. split_and!; [|done|done].
  destruct (create_alloc_pool_ok 2) as (pl & E & Hpl & _); [lia|]. cbn in E. injection E as <-.
  split; try done; [by intros p [? ?]|split; try done; constructor|constructor|set_solver].
Qed.

(** The list with one name. *)
Definition hl_state1 : hheap * hardlink_list :=
  match hardlink_list_insert hl_heap0 hl_list0 3 4 hl_name_a true with
  | Ok (m, hl, _) => (m, hl)
  | _ => (hl_heap0, hl_list0)
  end.

Lemma hl_state1_ok : exists l, hl_ok hl_state1.1 hl_state1.2 l /\ links l = [link_key 3 4 hl_name_a] /\
  exact (hl_htab hl_state1.2) /\ expand_safe (hl_htab hl_state1.2).
Proof.
  destruct hl_list0_ok as (H & Hx & Hs).
  destruct (hardlink_list_insert_ok hl_heap0 hl_list0 [] 3 4 hl_name_a true H Hs ltac:(done))
    as (m & hl & r & l & E & H' & Hr & El & _ & Hx'). exists l.
  assert (r = true) as -> by (apply Hr; apply not_elem_of_nil).
  assert (hl_state1 = (m, hl)) as Est by (unfold hl_state1; by rewrite E). split_and!; [by rewrite Est|done|rewrite Est; auto|].
  unfold expand_safe. rewrite Est. cbn [snd]. destruct (Hx' Hx) as [Hn _].
  rewrite <-Hn, <-(chained_count _ _ _ _ H'). unfold links in El.
  apply (f_equal length) in El. rewrite length_fmap in El. rewrite El. done.
Qed.

Lemma hardlink_list_refines_set_witness :
  hardlink_list_member hl_state1.1 hl_state1.2 3 4 hl_name_a = Ok true /\
  (exists m hl, hardlink_list_insert hl_state1.1 hl_state1.2 3 4 hl_name_a true = Ok (m, hl, false)) /\
  (exists m hl, hardlink_list_delete hl_state1.1 hl_state1.2 3 4 hl_name_a = Ok (m, hl, true)).
Proof.
  destruct hl_state1_ok as (l & H & El & Hx & Hs).
  assert (link_key 3 4 hl_name_a ∈ links l) as Hin by (rewrite El; left).
  destruct (hardlink_list_refines_set _ _ l 3 4 hl_name_a true H Hs) as (E1 & (m & hl & l' & E2 & _) & (m' & hl' & l'' & E3 & _) & _);
    [discriminate|].
  rewrite bool_decide_true in E1, E3 by exact Hin. rewrite bool_decide_false in E2 by tauto.
  split; [exact E1|]. split; [exists m, hl; exact E2|exists m', hl'; exact E3].
Defined.

Lemma hardlink_list_length_stale_witness :
  hardlink_list_length hl_state1.2 = 1 /\
  exists m hl, hardlink_list_empty hl_state1.1 hl_state1.2 = Ok (m, hl) /\ hl_ok m hl [] /\ hardlink_list_length hl = 1.
Proof.
  destruct hl_state1_ok as (l & H & El & Hx & _).
  assert (length l = 1%nat) as Hlen by (rewrite <-(length_fmap (fun e => kof e.2) l); exact (f_equal length El)).
  destruct (hardlink_list_length_stale _ _ l H Hx) as [E (m & hl & E' & H' & _ & En)]. rewrite Hlen in E, En.
  split; [exact E|]. exists m, hl. split; [exact E'|]. split; [exact H'|exact En].
Defined.
