(* ===== verification/Queue.v ===== *)
(** Blocking queues: [src/zfsd/lib/queue/queue.c] and [queue.h].

    The first part translates the operations on the linked queue; [queue_get] is
    split where [zfsd_cond_wait] releases the mutex, into the pass of a thread
    that enters and the pass of a thread that was woken.  The second part is a
    step relation for any number of threads: each step is one critical section,
    [zfsd_cond_signal] wakes a waiting thread if there is one,
    [zfsd_cond_broadcast] all of them, and a waiting thread may wake up
    spuriously, as POSIX allows. *)

From S2P Require Import Prelude AllocPool.

Section queue_ops.
Context {A : Type}.

Record queue := MkQueue {
  q_pool : alloc_pool;
  q_cells : gmap ptr (option ptr * A);
  nelem : Z;
  q_size : Z;
  q_first : option ptr;
  q_last : option ptr;
  exiting : bool
}.

Definition queue_create (sz : Z) (num : nat) : res queue :=
  if sz =? 0 then Aborted
  else
    pl ← create_alloc_pool num;
    Ok (MkQueue pl ∅ 0 sz None None false).

(** The pool is freed with all its nodes. *)
Definition queue_destroy (q : queue) : res queue :=
  if q_size q =? 0 then Aborted
  else Ok (MkQueue (q_pool q) ∅ (nelem q) 0 (q_first q) (q_last q) (exiting q)).

(** [queue_put], up to the signal. *)
Definition queue_put (q : queue) (elem : A) : res queue :=
  if q_size q =? 0 then Aborted
  else
    '(node, pl) ← pool_alloc (q_pool q);
    let cs := <[node := (None, elem)]> (q_cells q) in
    match q_last q with
    | Some la =>
        match cs !! la with
        | Some (_, x) =>
            Ok (MkQueue pl (<[la := (Some node, x)]> cs) (u32 (nelem q + 1)) (q_size q) (q_first q)
                  (Some node) (exiting q))
        | None => Aborted
        end
    | None =>
        Ok (MkQueue pl cs (u32 (nelem q + 1)) (q_size q) (Some node) (Some node) (exiting q))
    end.

Inductive get_result := MustWait | IsExiting | Got (elem : A).

(** The end of [queue_get], from [node = q->first] on. *)
Definition queue_take (q : queue) : res (queue * get_result) :=
  match q_first q with
  | None => Aborted
  | Some node =>
      match q_cells q !! node with
      | None => Aborted
      | Some (nx, elem) =>
          let la := if bool_decide (q_first q = q_last q) then None else q_last q in
          Ok (MkQueue (q_pool q) (q_cells q) (u32 (nelem q - 1)) (q_size q) nx la (exiting q), Got elem)
      end
  end.

(** The [while] loop and the test behind it; [MustWait] is the call of
    [zfsd_cond_wait]. *)
Definition queue_get_loop (q : queue) : res (queue * get_result) :=
  if (nelem q =? 0) && negb (exiting q) then Ok (q, MustWait)
  else if exiting q then Ok (q, IsExiting)
  else queue_take q.

(** [queue_get] called. *)
Definition queue_get (q : queue) : res (queue * get_result) :=
  if q_size q =? 0 then Aborted
  else if nelem q =? 0 then queue_get_loop q
  else queue_take q.

Definition queue_exiting (q : queue) : queue :=
  MkQueue (q_pool q) (q_cells q) (nelem q) (q_size q) (q_first q) (q_last q) true.

(** ** The queue as a list *)

Definition head_ptr (l : list (ptr * A)) : option ptr := fst <$> head l.

Fixpoint linked (cs : gmap ptr (option ptr * A)) (l : list (ptr * A)) : Prop :=
  match l with
  | [] => True
  | (p, x) :: l' => cs !! p = Some (head_ptr l', x) /\ linked cs l'
  end.

Record queue_ok (q : queue) (l : list (ptr * A)) : Prop := {
  qo_pool : pool_ok (q_pool q);
  qo_use : forall p, is_Some (q_cells q !! p) -> p ∈ in_use (q_pool q);
  qo_linked : linked (q_cells q) l;
  qo_nodup : NoDup l.*1;
  qo_first : q_first q = head_ptr l;
  qo_last : q_last q = fst <$> last l;
  qo_nelem : nelem q = Z.of_nat (length l);
  qo_room : Z.of_nat (length l) <= UINT32_MAX;
  qo_size : q_size q <> 0
}.

Lemma linked_frame cs cs' l :
  (forall p, p ∈ l.*1 -> cs' !! p = cs !! p) -> linked cs l -> linked cs' l.
Proof.
  induction l as [|[p x] l IH]; [done|]. cbn. intros Hs [Hp Hl].
  split; [rewrite Hs; [done|left]|apply IH; [|done]; intros q Hq; apply Hs; by right].
Qed.

Lemma linked_domain cs l p : linked cs l -> p ∈ l.*1 -> is_Some (cs !! p).
Proof.
  induction l as [|[q x] l IH]; cbn; [intros _ Hin; by apply not_elem_of_nil in Hin|].
  intros [Hq Hl] [->|Hp]%elem_of_cons; [by eexists|auto].
Qed.

(** Hanging a new node behind the last one. *)
Lemma linked_snoc cs l p x q y :
  NoDup (l ++ [(p, x)]).*1 -> q ∉ (l ++ [(p, x)]).*1 -> linked cs (l ++ [(p, x)]) ->
  linked (<[p := (Some q, x)]> (<[q := (None, y)]> cs)) ((l ++ [(p, x)]) ++ [(q, y)]).
Proof.
  induction l as [|[r z] l IH]; intros Hnd Hq Hl.
  - cbn in *. destruct Hl as [Hp _]. rewrite lookup_insert_eq, lookup_insert_ne, lookup_insert_eq by set_solver. done.
  - cbn in Hnd, Hq, Hl. apply NoDup_cons in Hnd as [Hr Hnd]. destruct Hl as [Hrz Hl].
    change (((r, z) :: l ++ [(p, x)]) ++ [(q, y)]) with ((r, z) :: ((l ++ [(p, x)]) ++ [(q, y)])). cbn [linked].
    split; [|apply IH; [done|intros ?; apply Hq; by right|done]].
    assert (r <> p) by (intros ->; apply Hr; rewrite fmap_app; set_solver).
    assert (r <> q) by (intros ->; apply Hq; by left).
    rewrite !lookup_insert_ne by done. rewrite Hrz. by destruct l as [|[]].
Qed.

Lemma queue_create_ok sz num : sz <> 0 -> (0 < num)%nat ->
  exists q, queue_create sz num = Ok q /\ queue_ok q [] /\ in_use (q_pool q) = [] /\ exiting q = false.
Proof.
  intros Hsz Hnum. unfold queue_create. rewrite (proj2 (Z.eqb_neq sz 0) Hsz).
  destruct (create_alloc_pool_ok num Hnum) as (pl & -> & Hpl & Hu). cbn [mbind res_bind].
  eexists. split; [done|]. split_and!; [|done|done]. split; cbn; try done; [by intros p []|constructor].
Qed.

Lemma queue_put_ok q l x :
  queue_ok q l -> Z.of_nat (length l) < UINT32_MAX ->
  exists q' p, queue_put q x = Ok q' /\ queue_ok q' (l ++ [(p, x)]) /\
    in_use (q_pool q') = p :: in_use (q_pool q) /\ exiting q' = exiting q.
Proof.
  intros [Hpo Hu Hl Hnd Hf Hla Hn Hr Hsz] Hroom. unfold queue_put. rewrite (proj2 (Z.eqb_neq _ 0) Hsz).
  destruct (pool_alloc_ok _ Hpo) as (p & pl & -> & Hpl & Hp & Hin). cbn [mbind res_bind].
  assert (p ∉ l.*1) as Hpl' by (intros Hin'; by apply Hp, Hu, (linked_domain _ l)).
  assert (NoDup (l ++ [(p, x)]).*1) as Hnd'.
  { rewrite fmap_app. apply NoDup_app. split_and!; [done| |apply NoDup_singleton].
    intros r Hr1 ->%list_elem_of_singleton. done. }
  assert (u32 (nelem q + 1) = Z.of_nat (length (l ++ [(p, x)]))) as Hn'.
  { rewrite Hn, length_app, wrap_small; cbn; unfold UINT32_MAX in *; lia. }
  rewrite Hla. destruct l as [|[r y] l _] using rev_ind; cbn [fmap option_fmap option_map last].
  - eexists _, p. split; [done|]. split_and!; [|done|done].
    split; cbn in *; rewrite ?lookup_insert_eq; try done.
    intros s. rewrite Hin. destruct (decide (p = s)) as [->|]; [set_solver|].
    rewrite lookup_insert_ne by done. intros ?%Hu. by right.
  - rewrite last_snoc. cbn [fmap option_fmap option_map fst].
    assert (r <> p) as Hrp by (intros ->; apply Hpl'; rewrite fmap_app; set_solver).
    assert (q_cells q !! r = Some (None, y)) as Hcr.
    { clear -Hl. induction l as [|[? ?] l IH]; cbn in Hl; [by destruct Hl|]. by apply IH, Hl. }
    rewrite lookup_insert_ne, Hcr by done. eexists _, p. split; [done|]. split_and!; [|done|done].
    split; cbn [q_pool q_cells nelem q_size q_first q_last]; try done.
    + intros s. rewrite Hin. destruct (decide (r = s)) as [->|]; [intros _; right; apply Hu; by eexists|].
      rewrite lookup_insert_ne by done. destruct (decide (p = s)) as [->|]; [left|].
      rewrite lookup_insert_ne by done. intros ?%Hu. by right.
    + by apply linked_snoc.
    + rewrite Hf. by destruct l as [|[]].
    + by rewrite last_snoc.
    + rewrite length_app. cbn. unfold UINT32_MAX in *. rewrite length_app in *. cbn in *. lia.
Qed.

Lemma queue_take_ok q p x l :
  queue_ok q ((p, x) :: l) ->
  exists q', queue_take q = Ok (q', Got x) /\ queue_ok q' l /\ q_pool q' = q_pool q /\ exiting q' = exiting q.
Proof.
  intros [Hpo Hu Hl Hnd Hf Hla Hn Hr Hsz]. unfold queue_take. rewrite Hf. cbn [head_ptr fmap option_fmap option_map head fst].
  destruct Hl as [Hp Hl]. rewrite Hp. eexists. split; [done|]. split_and!; [|done|done].
  cbn in Hnd. apply NoDup_cons in Hnd as [Hpl Hnd].
  split; cbn [q_pool q_cells nelem q_size q_first q_last]; try done.
  - rewrite Hla. destruct l as [|[r y] l]; [by rewrite bool_decide_true|].
    rewrite bool_decide_false; [done|]. cbn [last fmap option_fmap option_map]. intros E.
    destruct (last ((r, y) :: l)) as [[s z]|] eqn:El; [|done]. injection E as ->.
    apply Hpl. apply list_elem_of_fmap. exists (s, z). split; [done|].
    apply last_Some in El as [l' ->]. set_solver.
  - rewrite Hn, wrap_small; cbn [length]; cbn [length] in Hr; unfold UINT32_MAX in *; lia.
  - cbn [length] in Hr. lia.
Qed.
End queue_ops.
Arguments queue A : clear implicits.
Arguments get_result A : clear implicits.

(** ** Threads *)

Section threads.
Context {A : Type}.

(** The queue, the threads inside [zfsd_cond_wait], those woken but not yet
    running, and the history: the elements put, the elements got with the thread
    that got them, the threads that were told the program is exiting. *)
Record sys := MkSys {
  sq : queue A;
  waiting : gset nat;
  woken : gset nat;
  puts : list A;
  gots : list (nat * A);
  refused : list nat
}.

(** What [zfsd_cond_signal] does to the waiting threads. *)
Definition signalled (w ws : gset nat) : Prop := w = ∅ /\ ws = ∅ \/ exists t, t ∈ w /\ ws = {[t]}.

(** A pass of thread [t] through [queue_get] that ended with [r]. *)
Definition after_get (s : sys) (t : nat) (q : queue A) (r : get_result A) (woken' : gset nat) : sys :=
  match r with
  | MustWait => MkSys q ({[t]} ∪ waiting s) woken' (puts s) (gots s) (refused s)
  | IsExiting => MkSys q (waiting s) woken' (puts s) (gots s) (refused s ++ [t])
  | Got x => MkSys q (waiting s) woken' (puts s) (gots s ++ [(t, x)]) (refused s)
  end.

Inductive qstep : sys -> sys -> Prop :=
  | st_put s x q ws :
      nelem (sq s) < UINT32_MAX -> queue_put (sq s) x = Ok q -> signalled (waiting s) ws ->
      qstep s (MkSys q (waiting s ∖ ws) (woken s ∪ ws) (puts s ++ [x]) (gots s) (refused s))
  | st_get s t q r :
      t ∉ waiting s -> t ∉ woken s -> queue_get (sq s) = Ok (q, r) ->
      qstep s (after_get s t q r (woken s))
  | st_resume s t q r :
      t ∈ woken s -> queue_get_loop (sq s) = Ok (q, r) ->
      qstep s (after_get s t q r (woken s ∖ {[t]}))
  | st_spurious s t :
      t ∈ waiting s ->
      qstep s (MkSys (sq s) (waiting s ∖ {[t]}) (woken s ∪ {[t]}) (puts s) (gots s) (refused s))
  | st_exit s :
      qstep s (MkSys (queue_exiting (sq s)) ∅ (woken s ∪ waiting s) (puts s) (gots s) (refused s)).

Definition fresh_sys (s : sys) : Prop :=
  exists sz num, sz <> 0 /\ (0 < num)%nat /\ queue_create sz num = Ok (sq s) /\
    waiting s = ∅ /\ woken s = ∅ /\ puts s = [] /\ gots s = [] /\ refused s = [].

Definition reachable_sys (s : sys) : Prop := exists s0, fresh_sys s0 /\ rtc qstep s0 s.

Record sys_ok (s : sys) (l : list (ptr * A)) : Prop := {
  so_queue : queue_ok (sq s) l;
  so_fifo : puts s = (gots s).*2 ++ l.*2;
  so_nodes : length (in_use (q_pool (sq s))) = length (puts s);
  so_disjoint : waiting s ## woken s;
  so_wake : waiting s <> ∅ -> (length l <= size (woken s))%nat;
  so_exit : exiting (sq s) = true -> waiting s = ∅
}.

(** A pass through [queue_get] of a thread that may take from the queue. *)
Lemma get_cases (q : queue A) l :
  queue_ok q l ->
  exists q' r, queue_get_loop q = Ok (q', r) /\
    match r with
    | MustWait => q' = q /\ l = [] /\ exiting q = false
    | IsExiting => q' = q /\ exiting q = true
    | Got x => exists p l', l = (p, x) :: l' /\ queue_ok q' l' /\ q_pool q' = q_pool q /\ exiting q' = exiting q /\
        exiting q = false
    end.
Proof.
  intros H. unfold queue_get_loop. rewrite (qo_nelem _ _ H). destruct (exiting q) eqn:E.
  - rewrite andb_false_r. by eexists q, IsExiting.
  - destruct l as [|[p x] l].
    + by eexists q, MustWait.
    + cbn [length]. destruct (queue_take_ok _ _ _ _ H) as (q' & -> & H' & Hp & He).
      eexists q', (Got x). split; [done|]. exists p, l. split_and!; try done. by rewrite He.
Qed.

Lemma enter_cases (q : queue A) l :
  queue_ok q l ->
  exists q' r, queue_get q = Ok (q', r) /\
    match r with
    | MustWait => q' = q /\ l = [] /\ exiting q = false
    | IsExiting => q' = q /\ exiting q = true
    | Got x => exists p l', l = (p, x) :: l' /\ queue_ok q' l' /\ q_pool q' = q_pool q /\ exiting q' = exiting q
    end.
Proof.
  intros H. unfold queue_get. rewrite (proj2 (Z.eqb_neq _ 0) (qo_size _ _ H)), (qo_nelem _ _ H).
  destruct l as [|[p x] l].
  - cbn [length]. destruct (get_cases q [] H) as (q' & r & E & Hr). exists q', r. split; [exact E|].
    destruct r; try done. by destruct Hr as (? & ? & ? & _).
  - cbn [length]. destruct (queue_take_ok _ _ _ _ H) as (q' & -> & H' & Hp & He).
    eexists q', (Got x). split; [done|]. by exists p, l.
Qed.

Lemma fresh_sys_ok s : fresh_sys s -> sys_ok s [].
Proof.
  intros (sz & num & Hsz & Hnum & E & Hw & Hk & Hp & Hg & Hr).
  destruct (queue_create_ok (A := A) sz num Hsz Hnum) as (q & E' & Hq & Hu & He).
  rewrite E in E'. injection E' as <-. split; rewrite ?Hw, ?Hk, ?Hp, ?Hg, ?Hu; done.
Qed.

(** Taking an element through [after_get]. *)
Lemma after_got_ok s t q p x l wk :
  sys_ok s ((p, x) :: l) -> queue_ok q l -> q_pool q = q_pool (sq s) -> exiting q = exiting (sq s) ->
  wk ⊆ woken s -> (waiting s <> ∅ -> (length l <= size wk)%nat) ->
  sys_ok (after_get s t q (Got x) wk) l.
Proof.
  intros [Hq Hf Hn Hd Hw He] Hq' Hp Hx Hsub Hwk. split; cbn [sq waiting woken puts gots after_get]; try done.
  - rewrite Hf, fmap_app, <-app_assoc. done.
  - by rewrite Hp.
  - set_solver.
  - by rewrite Hx.
Qed.

Lemma qstep_ok s s' l : sys_ok s l -> qstep s s' -> exists l', sys_ok s' l'.
Proof.
  intros H Hstep. pose proof H as [Hq Hf Hn Hd Hw He].
  destruct Hstep as [s x q ws Hroom E Hsig|s t q r Ht1 Ht2 E|s t q r Ht E|s t Ht|s].
  - rewrite (qo_nelem _ _ Hq) in Hroom.
    destruct (queue_put_ok _ _ x Hq Hroom) as (q' & p & E' & Hq' & Hu & Hx). rewrite E in E'. injection E' as <-.
    exists (l ++ [(p, x)]). split; cbn [sq waiting woken puts gots]; try done.
    + rewrite Hf, fmap_app, app_assoc. done.
    + rewrite Hu, length_app. cbn. lia.
    + set_solver.
    + intros Hne. destruct Hsig as [[Hemp ->]|(t & Ht & ->)]; [rewrite Hemp in Hne; set_solver|].
      rewrite length_app, size_union by set_solver. rewrite size_singleton. cbn.
      assert (waiting s <> ∅) as Hne' by set_solver. specialize (Hw Hne'). lia.
    + rewrite Hx. intros ->%He. set_solver.
  - destruct (enter_cases _ _ Hq) as (q' & r' & E' & Hr). rewrite E in E'. injection E' as <- <-.
    destruct r as [| |x].
    + destruct Hr as (-> & -> & Hx). exists []. split; cbn [sq waiting woken puts gots after_get length]; try done.
      * set_solver.
      * intros _. lia.
      * congruence.
    + destruct Hr as [-> Hx]. by exists l.
    + destruct Hr as (p & l' & -> & Hq' & Hp & Hx). exists l'. eapply after_got_ok; try done.
      intros Hne. specialize (Hw Hne). cbn in Hw. lia.
  - assert (size (woken s ∖ {[t]}) = size (woken s) - 1)%nat as Hsz.
    { rewrite size_difference by set_solver. by rewrite size_singleton. }
    assert (0 < size (woken s))%nat as Hpos.
    { apply Nat.neq_0_lt_0. intros E0%size_empty_inv. set_solver. }
    destruct (get_cases _ _ Hq) as (q' & r' & E' & Hr). rewrite E in E'. injection E' as <- <-.
    destruct r as [| |x].
    + destruct Hr as (-> & -> & Hx). exists []. split; cbn [sq waiting woken puts gots after_get length]; try done.
      * set_solver.
      * intros _. lia.
      * congruence.
    + destruct Hr as [-> Hx]. exists l. split; cbn [sq waiting woken puts gots after_get]; try done; [set_solver|].
      intros Hne. by rewrite (He Hx) in Hne.
    + destruct Hr as (p & l' & -> & Hq' & Hp & Hx & _). exists l'. eapply after_got_ok; try done; [set_solver|].
      intros Hne. specialize (Hw Hne). cbn in Hw. lia.
  - exists l. split; cbn [sq waiting woken puts gots]; try done.
    + set_solver.
    + intros _. assert (waiting s <> ∅) as Hne by set_solver. specialize (Hw Hne).
      assert (size (woken s) <= size (woken s ∪ {[t]}))%nat by (apply subseteq_size; set_solver). lia.
    + intros Hx. rewrite (He Hx) in Ht. set_solver.
  - exists l. split; cbn [sq waiting woken puts gots queue_exiting]; try done.
    destruct Hq. by split.
Qed.

Lemma reachable_sys_ok s : reachable_sys s -> exists l, sys_ok s l.
Proof.
  intros (s0 & H0 & Hsteps). apply fresh_sys_ok in H0.
  assert (exists l, sys_ok s0 l) as Hok by (by eexists). clear H0.
  induction Hsteps as [s|s1 s2 s3 Hst _ IH]; [done|]. destruct Hok as [l Hl]. apply IH. by eapply qstep_ok.
Qed.
End threads.
Arguments sys A : clear implicits.

(** ** Properties *)

(** C37. Under any interleaving of producers, consumers, spurious wake-ups and
    [queue_exiting], the queue is first-in first-out and loses nothing: the
    elements put are, in order, those that were got followed by those still in the
    queue, [nelem] is their number, and neither [queue_put] nor a pass through
    [queue_get] ever aborts. *)
Theorem queue_fifo {A : Type} (s : sys A) :
  reachable_sys s ->
  exists rest, puts s = (gots s).*2 ++ rest /\ nelem (sq s) = Z.of_nat (length rest) /\
    (exists q r, queue_get (sq s) = Ok (q, r) /\ (rest = [] -> r = MustWait \/ r = IsExiting) /\
       (forall x rest', rest = x :: rest' -> r = Got x)) /\
    (exists q r, queue_get_loop (sq s) = Ok (q, r)) /\
    (nelem (sq s) < UINT32_MAX -> forall x, exists q, queue_put (sq s) x = Ok q).
Proof.
  intros [l Hok]%reachable_sys_ok. pose proof Hok as [Hq Hf _ _ _ _]. exists l.*2.
  rewrite length_fmap. split_and!; [done|apply Hq| | |].
  - destruct (enter_cases _ _ Hq) as (q & r & E & Hr). exists q, r. split; [done|]. destruct r as [| |x].
    + destruct Hr as (_ & -> & _). split; [by left|done].
    + destruct Hr as [-> Hx]. split; [by right|]. intros x rest' El. unfold queue_get in E.
      rewrite (proj2 (Z.eqb_neq _ 0) (qo_size _ _ Hq)), (qo_nelem _ _ Hq) in E.
      destruct l as [|[p y] l]; [done|]. cbn [length] in E.
      destruct (queue_take_ok _ _ _ _ Hq) as (q' & E' & _).
      replace (Z.of_nat (S (length l)) =? 0) with false in E by (symmetry; apply Z.eqb_neq; lia). congruence.
    + destruct Hr as (p & l' & -> & _). split; [done|]. cbn. by intros ? ? [= -> _].
  - destruct (get_cases _ _ Hq) as (q & r & E & _). by exists q, r.
  - intros Hn x. rewrite (qo_nelem _ _ Hq) in Hn. destruct (queue_put_ok _ _ x Hq Hn) as (q & p & E & _). by exists q.
Qed.

(** No wake-up is lost: whenever an element is in the queue while some thread
    waits, a woken thread exists, and the next woken thread that runs gets the
    oldest element, unless the program is exiting.  Once [queue_exiting] was
    called nobody waits any more, no thread starts to wait, and every woken
    thread returns false. *)
Theorem queue_no_lost_wakeup {A : Type} (s : sys A) :
  reachable_sys s ->
  (waiting s <> ∅ -> 0 < nelem (sq s) -> woken s <> ∅ /\
     exists q x rest, queue_get_loop (sq s) = Ok (q, Got x) /\ puts s = (gots s).*2 ++ x :: rest) /\
  (exiting (sq s) = true -> waiting s = ∅ /\ queue_get_loop (sq s) = Ok (sq s, IsExiting) /\
     forall q r, queue_get (sq s) = Ok (q, r) -> r <> MustWait).
Proof.
  intros [l Hok]%reachable_sys_ok. pose proof Hok as [Hq Hf _ _ Hw He].
  destruct (get_cases _ _ Hq) as (q & r & E & Hr). split.
  - intros Hne Hn. rewrite (qo_nelem _ _ Hq) in Hn. specialize (Hw Hne). split.
    + intros Hk. rewrite Hk, size_empty in Hw. lia.
    + destruct r as [| |x].
      * destruct Hr as (_ & -> & _). done.
      * destruct Hr as [_ Hx]. by destruct Hne; apply He.
      * destruct Hr as (p & l' & -> & _). by exists q, x, l'.*2.
  - intros Hx. split; [by apply He|]. split.
    + unfold queue_get_loop. by rewrite Hx, andb_false_r.
    + intros q' r' E'. destruct (enter_cases _ _ Hq) as (q2 & r2 & E2 & Hr2). rewrite E' in E2. injection E2 as -> ->.
      destruct r2; try done. destruct Hr2 as (_ & _ & Hx'). congruence.
Qed.

(** [queue_get] never gives its node back to the pool: after any run the
    nodes in use number all elements ever put, also when the queue is empty. *)
Theorem queue_nodes_leak {A : Type} (s : sys A) :
  reachable_sys s -> length (in_use (q_pool (sq s))) = length (puts s).
Proof. intros [l Hok]%reachable_sys_ok. apply Hok. Qed.

(** ** A concrete run: one element is put and got *)

(** Decide a closed membership or set equality by computation. *)
Ltac by_dec := apply (bool_decide_unpack _); vm_compute; exact I.

Definition queue0 : queue nat := MkQueue (MkPool 2 [] 0 0 0 [] 0) ∅ 0 8 None None false.
Definition sys0 : sys nat := MkSys queue0 ∅ ∅ [] [] [].
Definition queue1 : queue nat := match queue_put queue0 7%nat with Ok q => q | _ => queue0 end.
Definition queue2 : queue nat := match queue_get queue1 with Ok (q, _) => q | _ => queue1 end.
Definition sys2 : sys nat := MkSys queue2 ∅ ∅ [7%nat] [(1%nat, 7%nat)] [].

Lemma sys2_reachable : reachable_sys sys2.
Proof.
  exists sys0. split; [exists 8, 2%nat; split_and!; done || lia|].
  eapply rtc_l; [apply (st_put sys0 7%nat queue1 ∅); [done|reflexivity|by left]|].
  apply rtc_once. change sys2 with (after_get (MkSys queue1 ∅ ∅ [7%nat] [] []) 1 queue2 (Got 7%nat) ∅).
  apply (st_get (MkSys queue1 ∅ ∅ [7%nat] [] [])); [by_dec|by_dec|reflexivity].
Qed.

(** Thread 1 waits, then thread 2 puts: the state in which thread 1 is woken. *)
Definition sys_waiting : sys nat := MkSys queue0 {[1%nat; 3%nat]} ∅ [] [] [].
Definition sys_woken : sys nat := MkSys queue1 {[3%nat]} {[1%nat]} [7%nat] [] [].

Lemma sys_woken_reachable : reachable_sys sys_woken.
Proof.
  exists sys0. split; [exists 8, 2%nat; split_and!; done || lia|].
  eapply rtc_l; [apply (st_get sys0 3%nat queue0 MustWait); [by_dec|by_dec|reflexivity]|].
  eapply rtc_l; [apply (st_get _ 1%nat queue0 MustWait); [by_dec|by_dec|reflexivity]|].
  apply rtc_once. cbn [after_get waiting woken puts gots refused sq sys0].
  set (s := MkSys _ _ _ _ _ _ : sys nat).
  replace sys_woken with (MkSys queue1 (waiting s ∖ {[1%nat]}) (woken s ∪ {[1%nat]}) (puts s ++ [7%nat]) (gots s) (refused s))
    by (unfold sys_woken; f_equal; by_dec).
  apply st_put; [done|reflexivity|]. right. exists 1%nat. by split; [by_dec|].
Qed.

Lemma queue_fifo_witness :
  exists rest, puts sys_woken = (gots sys_woken).*2 ++ rest /\ nelem (sq sys_woken) = Z.of_nat (length rest).
Proof. destruct (queue_fifo _ sys_woken_reachable) as (rest & E & En & _). by exists rest. Defined.

Lemma queue_no_lost_wakeup_witness :
  exists q x rest, queue_get_loop (sq sys_woken) = Ok (q, Got x) /\ puts sys_woken = (gots sys_woken).*2 ++ x :: rest.
Proof.
  destruct (queue_no_lost_wakeup _ sys_woken_reachable) as [H _]. apply H; [|done]. by_dec.
Defined.

Lemma queue_nodes_leak_witness :
  nelem (sq sys2) = 0 /\ length (in_use (q_pool (sq sys2))) = 1%nat.
Proof. split; [reflexivity|]. apply (queue_nodes_leak _ sys2_reachable). Defined.
