(* ===== verification/LockProtocol.v ===== *)
(** The locks of internal dentries: [internal_dentry_lock],
    [internal_dentry_unlock], [internal_fh_should_wait_for_locked] and the list of
    locks a thread owns in [src/zfsd/fs-entities/handle/fh.c], and
    [internal_cap_lock] in [src/zfsd/fs-entities/cap/cap.c].

    A lock is the [level] and [users] fields of a file handle, changed under the
    mutex of the handle; a thread that has to wait sleeps on the condition
    variable of the handle.  The step relation has one step for every stretch of
    code during which the mutex is held: a call that gets the lock at once, a call
    that goes to sleep, the test after a wake-up, the second half of a call that
    slept (after the mutex was released and the dentry was looked up again), an
    unlock.  [zfs_fh_lookup_nolock] may find the dentry again or fail. *)

From S2P Require Import Prelude.

Definition LEVEL_UNLOCKED : Z := 0.
Definition LEVEL_SHARED : Z := 1.
Definition LEVEL_EXCLUSIVE : Z := 2.
Definition MAX_LOCKED_FILE_HANDLES : nat := 2.

(** ** The locks a thread owns *)

Section owned_locks.
Context {D : Type} `{!EqDecision D}.

Record lock_info := MkLockInfo { li_dentry : option D; li_level : Z }.

Definition no_lock : lock_info := MkLockInfo None LEVEL_UNLOCKED.

Definition set_lock_info : list lock_info := replicate MAX_LOCKED_FILE_HANDLES no_lock.

Definition lock_level (level : Z) : bool := (level =? LEVEL_SHARED) || (level =? LEVEL_EXCLUSIVE).

(** The loop of [set_owned]. *)
Fixpoint set_owned_loop (li : list lock_info) (dentry : D) (level : Z) : res (list lock_info) :=
  match li with
  | [] => Aborted
  | MkLockInfo None l :: rest =>
      if negb (l =? LEVEL_UNLOCKED) then Aborted
      else Ok (MkLockInfo (Some dentry) level :: rest)
  | x :: rest => rest' ← set_owned_loop rest dentry level; Ok (x :: rest')
  end.

Definition set_owned (li : list lock_info) (dentry : D) (level : Z) : res (list lock_info) :=
  if negb (lock_level level) then Aborted else set_owned_loop li dentry level.

Fixpoint clear_owned (li : list lock_info) (dentry : D) : res (list lock_info) :=
  match li with
  | [] => Aborted
  | x :: rest =>
      if decide (li_dentry x = Some dentry) then
        if negb (lock_level (li_level x)) then Aborted else Ok (no_lock :: rest)
      else rest' ← clear_owned rest dentry; Ok (x :: rest')
  end.

Fixpoint is_owned (li : list lock_info) (dentry : D) : bool :=
  match li with
  | [] => false
  | x :: rest => if decide (li_dentry x = Some dentry) then true else is_owned rest dentry
  end.

Fixpoint get_level (li : list lock_info) (dentry : D) : Z :=
  match li with
  | [] => LEVEL_UNLOCKED
  | x :: rest => if decide (li_dentry x = Some dentry) then li_level x else get_level rest dentry
  end.
End owned_locks.
Arguments lock_info D : clear implicits.

(** ** The lock of a file handle *)

Record lock := MkLock {
  level : Z;
  users : Z;
  d_users : Z;
  n_locked_fhs : Z;
  id2assign : Z;
  id2run : Z;
  deleted : bool
}.

Definition internal_fh_should_wait_for_locked (fh : lock) (new_level : Z) : res bool :=
  if level fh =? LEVEL_UNLOCKED then Ok false
  else if level fh =? LEVEL_SHARED then
    if new_level =? LEVEL_SHARED then Ok true else Ok true
  else if level fh =? LEVEL_EXCLUSIVE then Ok true
  else Aborted.

(** Which function was called: [internal_dentry_lock] or [internal_cap_lock]. *)
Inductive kind := DentryLock | CapLock.

(** [wait_for_locked] *)
Definition wait_for_locked (k : kind) (fh : lock) (lvl : Z) : res bool :=
  match k with
  | DentryLock => internal_fh_should_wait_for_locked fh lvl
  | CapLock => Ok (LEVEL_EXCLUSIVE <? u32 (level fh + lvl))
  end.

(** The condition under which a thread that was woken goes on waiting. *)
Definition keep_waiting (k : kind) (fh : lock) (lvl id : Z) : res bool :=
  match k with
  | DentryLock => if deleted fh then Ok false else internal_fh_should_wait_for_locked fh lvl
  | CapLock =>
      Ok (negb (deleted fh) && (negb (id2run fh =? id) || (LEVEL_EXCLUSIVE <? u32 (level fh + lvl))))
  end.

(** [id = fh->id2assign++] *)
Definition assign_id (fh : lock) : lock :=
  MkLock (level fh) (users fh) (d_users fh) (n_locked_fhs fh) (u32 (id2assign fh + 1)) (id2run fh) (deleted fh).

(** Taking the lock. *)
Definition acquire (fh : lock) (lvl : Z) : lock :=
  MkLock lvl (u32 (users fh + 1)) (u32 (d_users fh + 1)) (u32 (n_locked_fhs fh + 1)) (id2assign fh)
    (u32 (id2run fh + 1)) (deleted fh).

(** [internal_dentry_unlock]; the boolean tells whether waiting threads are woken. *)
Definition internal_dentry_unlock (fh : lock) : res (lock * bool) :=
  if level fh =? LEVEL_UNLOCKED then Aborted
  else if d_users fh =? 0 then Aborted
  else if users fh =? 0 then Aborted
  else
    let n := u32 (n_locked_fhs fh - 1) in
    let u := u32 (users fh - 1) in
    let d := u32 (d_users fh - 1) in
    if u =? 0 then
      if deleted fh then Aborted
      else Ok (MkLock LEVEL_UNLOCKED u d n (id2assign fh) (id2run fh) (deleted fh), true)
    else Ok (MkLock (level fh) u d n (id2assign fh) (id2run fh) (deleted fh), false).

(** The part of [internal_dentry_destroy] that marks an unused dentry. *)
Definition mark_deleted (fh : lock) : lock :=
  MkLock (level fh) (users fh) (d_users fh) (n_locked_fhs fh) (id2assign fh) (id2run fh) true.

(** ** Threads *)

(** Where a thread is: asleep in [zfsd_cond_wait], woken, past the loop with the
    mutex released, or holding the lock. *)
Inductive pc :=
  | Asleep (k : kind) (lvl id : Z)
  | Woken (k : kind) (lvl id : Z)
  | Window (lvl : Z)
  | Holding (lvl : Z).

Record sys := MkSys { fh : lock; threads : gmap nat pc }.

Definition wake (c : pc) : pc := match c with Asleep k lvl id => Woken k lvl id | c => c end.

(** [zfsd_cond_broadcast] *)
Definition broadcast (ts : gmap nat pc) : gmap nat pc := wake <$> ts.

(** The end of a successful call: the lock is taken, and unless it is exclusive
    the waiting threads are woken. *)
Definition take_lock (s : sys) (t : nat) (f : lock) (lvl : Z) : sys :=
  let ts := if lvl =? LEVEL_EXCLUSIVE then threads s else broadcast (threads s) in
  MkSys (acquire f lvl) (<[t := Holding lvl]> ts).

Inductive step : sys -> sys -> Prop :=
  | st_lock s t k lvl :
      threads s !! t = None -> lock_level lvl = true -> deleted (fh s) = false ->
      Z.of_nat (size (threads s)) < UINT32_MAX ->
      wait_for_locked k (fh s) lvl = Ok false ->
      step s (take_lock s t (assign_id (fh s)) lvl)
  | st_sleep s t k lvl :
      threads s !! t = None -> lock_level lvl = true -> deleted (fh s) = false ->
      Z.of_nat (size (threads s)) < UINT32_MAX ->
      wait_for_locked k (fh s) lvl = Ok true ->
      step s (MkSys (assign_id (fh s)) (<[t := Asleep k lvl (id2assign (fh s))]> (threads s)))
  | st_spurious s t k lvl id :
      threads s !! t = Some (Asleep k lvl id) ->
      step s (MkSys (fh s) (<[t := Woken k lvl id]> (threads s)))
  | st_again s t k lvl id :
      threads s !! t = Some (Woken k lvl id) -> keep_waiting k (fh s) lvl id = Ok true ->
      step s (MkSys (fh s) (<[t := Asleep k lvl id]> (threads s)))
  | st_leave s t k lvl id :
      threads s !! t = Some (Woken k lvl id) -> keep_waiting k (fh s) lvl id = Ok false ->
      step s (MkSys (fh s) (<[t := Window lvl]> (threads s)))
  | st_found s t lvl :
      threads s !! t = Some (Window lvl) -> deleted (fh s) = false ->
      step s (take_lock s t (fh s) lvl)
  | st_not_found s t lvl :
      threads s !! t = Some (Window lvl) ->
      step s (MkSys (fh s) (delete t (threads s)))
  | st_unlock s t lvl f b :
      threads s !! t = Some (Holding lvl) -> internal_dentry_unlock (fh s) = Ok (f, b) ->
      step s (MkSys f (delete t (if b then broadcast (threads s) else threads s)))
  | st_destroy s :
      d_users (fh s) = 0 -> deleted (fh s) = false ->
      step s (MkSys (mark_deleted (fh s)) (broadcast (threads s))).

Definition initial (s : sys) : Prop :=
  threads s = ∅ /\ level (fh s) = LEVEL_UNLOCKED /\ users (fh s) = 0 /\ d_users (fh s) = 0 /\
  deleted (fh s) = false /\ id2assign (fh s) = 0 /\ id2run (fh s) = 0.

Definition reachable (s : sys) : Prop := exists s0, initial s0 /\ rtc step s0 s.

(** ** The invariant *)

Definition pc_level (c : pc) : Z :=
  match c with Asleep _ lvl _ | Woken _ lvl _ | Window lvl | Holding lvl => lvl end.

Definition is_holding (c : pc) : bool := match c with Holding _ => true | _ => false end.

(** The threads that hold the lock. *)
Definition holders (ts : gmap nat pc) : gset nat := dom (filter (fun x => is_holding x.2 = true) ts).

Lemma holders_spec ts t : t ∈ holders ts <-> exists lvl, ts !! t = Some (Holding lvl).
Proof.
  unfold holders. rewrite elem_of_dom. unfold is_Some. setoid_rewrite map_lookup_filter_Some. split.
  - intros (c & Hc & Hh). destruct c; try done. by eexists.
  - intros [lvl Hl]. by exists (Holding lvl).
Qed.

Lemma holders_insert ts t c : is_holding c = true -> holders (<[t := c]> ts) = {[t]} ∪ holders ts.
Proof.
  intros Hc. apply set_eq. intros u. rewrite elem_of_union, elem_of_singleton, !holders_spec.
  destruct (decide (t = u)) as [->|].
  - rewrite lookup_insert_eq. split; [by left|]. intros _. destruct c; try done. by eexists.
  - rewrite lookup_insert_ne by done. naive_solver.
Qed.

Lemma holders_insert_other ts t c :
  is_holding c = false -> t ∉ holders ts -> holders (<[t := c]> ts) = holders ts.
Proof.
  intros Hc Ht. apply set_eq. intros u. rewrite !holders_spec. destruct (decide (t = u)) as [->|].
  - rewrite lookup_insert_eq. rewrite holders_spec in Ht. split; [|done]. intros [lvl [= ->]]. done.
  - by rewrite lookup_insert_ne.
Qed.

Lemma holders_delete ts t : holders (delete t ts) = holders ts ∖ {[t]}.
Proof.
  apply set_eq. intros u. rewrite elem_of_difference, elem_of_singleton, !holders_spec.
  destruct (decide (t = u)) as [->|].
  - rewrite lookup_delete_eq. naive_solver.
  - rewrite lookup_delete_ne by done. naive_solver.
Qed.

Lemma broadcast_lookup ts t : broadcast ts !! t = wake <$> ts !! t.
Proof. apply lookup_fmap. Qed.

Lemma holders_broadcast ts : holders (broadcast ts) = holders ts.
Proof.
  apply set_eq. intros u. rewrite !holders_spec, broadcast_lookup. destruct (ts !! u) as [[]|]; naive_solver.
Qed.

Lemma broadcast_no_sleeper ts t k lvl id : broadcast ts !! t <> Some (Asleep k lvl id).
Proof. rewrite broadcast_lookup. by destruct (ts !! t) as [[]|]. Qed.

Lemma holders_size ts : (size (holders ts) <= size ts)%nat.
Proof. unfold holders. rewrite size_dom. apply map_size_filter. Qed.

Definition none_asleep (ts : gmap nat pc) : Prop := forall t lvl id, ts !! t <> Some (Asleep DentryLock lvl id).

Record lock_inv (s : sys) : Prop := {
  i_users : users (fh s) = Z.of_nat (size (holders (threads s)));
  i_d_users : d_users (fh s) = Z.of_nat (size (holders (threads s)));
  i_size : Z.of_nat (size (threads s)) <= UINT32_MAX;
  i_levels : forall t c, threads s !! t = Some c -> lock_level (pc_level c) = true;
  i_unlocked : holders (threads s) = ∅ -> level (fh s) = LEVEL_UNLOCKED;
  i_locked : holders (threads s) <> ∅ -> lock_level (level (fh s)) = true;
  i_asleep : holders (threads s) = ∅ -> none_asleep (threads s);
  i_deleted : deleted (fh s) = true -> holders (threads s) = ∅
}.

Lemma lock_level_cases lvl : lock_level lvl = true <-> lvl = LEVEL_SHARED \/ lvl = LEVEL_EXCLUSIVE.
Proof. unfold lock_level. rewrite orb_true_iff, !Z.eqb_eq. done. Qed.

Lemma should_wait_iff s lvl :
  lock_inv s -> internal_fh_should_wait_for_locked (fh s) lvl = Ok (bool_decide (holders (threads s) <> ∅)).
Proof.
  intros H. unfold internal_fh_should_wait_for_locked. case_bool_decide as E.
  - apply (i_locked _ H), lock_level_cases in E as [->| ->]; [|done]. by destruct (lvl =? LEVEL_SHARED).
  - by rewrite (i_unlocked _ H E).
Qed.

(** Changing the program counter of a thread that does not hold the lock. *)
Lemma inv_move s f t c :
  lock_inv s -> is_holding c = false -> t ∉ holders (threads s) -> lock_level (pc_level c) = true ->
  level f = level (fh s) -> users f = users (fh s) -> d_users f = d_users (fh s) -> deleted f = deleted (fh s) ->
  Z.of_nat (size (<[t := c]> (threads s))) <= UINT32_MAX ->
  (holders (threads s) = ∅ -> forall lvl id, c <> Asleep DentryLock lvl id) ->
  lock_inv (MkSys f (<[t := c]> (threads s))).
Proof.
  intros [H1 H2 H3 H4 H5 H6 H7 H8] Hc Ht Hl El Eu Ed Edel Hsz Hs.
  split; cbn [fh threads]; rewrite ?(holders_insert_other _ _ _ Hc Ht), ?El, ?Eu, ?Ed, ?Edel; try done.
  - intros u c'. destruct (decide (t = u)) as [->|]; [rewrite lookup_insert_eq; by intros [= <-]|].
    rewrite lookup_insert_ne by done. apply H4.
  - intros He u lvl id. destruct (decide (t = u)) as [->|].
    + rewrite lookup_insert_eq. intros [= ->]. by eapply Hs.
    + rewrite lookup_insert_ne by done. by apply H7.
Qed.

Lemma size_insert_existing (ts : gmap nat pc) t c c' : ts !! t = Some c -> size (<[t := c']> ts) = size ts.
Proof. intros H. by rewrite map_size_insert, H. Qed.

Lemma size_insert_new (ts : gmap nat pc) t c : (size (<[t := c]> ts) <= S (size ts))%nat.
Proof. rewrite map_size_insert. destruct (ts !! t); cbn; lia. Qed.

(** Taking the lock. *)
Lemma inv_take s t f lvl :
  lock_inv s -> t ∉ holders (threads s) -> lock_level lvl = true -> deleted f = false ->
  users f = users (fh s) -> d_users f = d_users (fh s) ->
  Z.of_nat (size (<[t := Holding lvl]> (threads s))) <= UINT32_MAX ->
  lock_inv (take_lock s t f lvl).
Proof.
  intros [H1 H2 H3 H4 H5 H6 H7 H8] Ht Hl Hdel Eu Ed Hsz. unfold take_lock.
  set (ts := if lvl =? LEVEL_EXCLUSIVE then threads s else broadcast (threads s)).
  assert (holders ts = holders (threads s)) as Eh by (unfold ts; destruct (_ =? _); [done|apply holders_broadcast]).
  assert (holders (<[t := Holding lvl]> ts) = {[t]} ∪ holders (threads s)) as Eh'
    by (by rewrite holders_insert, Eh).
  assert (forall u, ts !! u = threads s !! u \/ ts !! u = wake <$> threads s !! u) as Hts.
  { intros u. unfold ts. destruct (_ =? _); [by left|right; apply broadcast_lookup]. }
  assert (size (<[t := Holding lvl]> ts) = size (<[t := Holding lvl]> (threads s))) as Esz.
  { rewrite !map_size_insert. unfold ts. destruct (_ =? _); [done|]. unfold broadcast.
    rewrite lookup_fmap, map_size_fmap. by destruct (threads s !! t). }
  assert (size ({[t]} ∪ holders (threads s)) = S (size (holders (threads s)))) as Es
    by (rewrite size_union, size_singleton by set_solver; done).
  pose proof (holders_size (<[t := Holding lvl]> ts)) as Hle. rewrite Eh', Es in Hle. unfold UINT32_MAX in *.
  split; cbn [fh threads acquire level users d_users deleted]; rewrite ?Eh', ?Es, ?Esz; try done.
  - rewrite Eu, H1, wrap_small by lia. lia.
  - rewrite Ed, H2, wrap_small by lia. lia.
  - intros u c. destruct (decide (t = u)) as [->|]; [rewrite lookup_insert_eq; by intros [= <-]|].
    rewrite lookup_insert_ne by done. destruct (Hts u) as [-> | ->]; [apply H4|].
    destruct (threads s !! u) as [c'|] eqn:E; [|done]. intros [= <-]. specialize (H4 u c' E). by destruct c'.
  - set_solver.
  - set_solver.
  - congruence.
Qed.

Lemma holding_in ts t lvl : ts !! t = Some (Holding lvl) -> t ∈ holders ts.
Proof. intros. apply holders_spec. by eexists. Qed.

Lemma not_holding ts t c : ts !! t = Some c -> is_holding c = false -> t ∉ holders ts.
Proof. intros H Hc [lvl Hl]%holders_spec. rewrite H in Hl. by injection Hl as ->. Qed.

Lemma singleton_holder (X : gset nat) t : t ∈ X -> size (X ∖ {[t]}) = 0%nat -> X = {[t]}.
Proof.
  intros Ht E%size_empty_inv. apply set_eq. intros u. rewrite elem_of_singleton. split; [|by intros ->].
  intros Hu. destruct (decide (u = t)) as [|Hne]; [done|]. destruct (not_elem_of_empty (C := gset nat) u).
  apply E, elem_of_difference. by rewrite elem_of_singleton.
Qed.

(** Unlocking never aborts for a thread that holds the lock. *)
Lemma unlock_ok s t lvl :
  lock_inv s -> threads s !! t = Some (Holding lvl) ->
  exists f b, internal_dentry_unlock (fh s) = Ok (f, b) /\
    (b = true <-> holders (threads s) = {[t]}) /\
    users f = Z.of_nat (size (holders (threads s) ∖ {[t]})) /\
    d_users f = Z.of_nat (size (holders (threads s) ∖ {[t]})) /\ deleted f = false /\
    level f = if b then LEVEL_UNLOCKED else level (fh s).
Proof.
  intros [H1 H2 H3 H4 H5 H6 H7 H8] Ht. pose proof (holding_in _ _ _ Ht) as Hin.
  assert (holders (threads s) <> ∅) as Hne by set_solver.
  assert (size (holders (threads s)) = S (size (holders (threads s) ∖ {[t]}))) as Esz.
  { rewrite size_difference by set_solver. rewrite size_singleton.
    assert (size (holders (threads s)) <> 0)%nat by (intros ?%size_empty_inv; set_solver). lia. }
  assert (deleted (fh s) = false) as Hdel by (destruct (deleted (fh s)) eqn:E; [by destruct Hne; apply H8|done]).
  pose proof (holders_size (threads s)) as Hle. unfold UINT32_MAX in *.
  assert (level (fh s) <> LEVEL_UNLOCKED) as Hlv.
  { apply H6, lock_level_cases in Hne as [->| ->]; done. }
  unfold internal_dentry_unlock. rewrite (proj2 (Z.eqb_neq _ _) Hlv), H1, H2, Hdel.
  rewrite (proj2 (Z.eqb_neq _ 0)) by lia. rewrite !wrap_small with (z := _ - 1) by lia.
  destruct (decide (size (holders (threads s) ∖ {[t]}) = 0%nat)) as [E0|E0].
  - rewrite (proj2 (Z.eqb_eq _ 0)) by lia. eexists _, true. split; [done|]. cbn [users d_users deleted level].
    split_and!; try done; try lia. split; [intros _|done]. by apply singleton_holder.
  - rewrite (proj2 (Z.eqb_neq _ 0)) by lia. eexists _, false. split; [done|]. cbn [users d_users deleted level].
    split_and!; try done; try lia. split; [done|]. intros E. rewrite E in E0. destruct E0.
    replace ({[t]} ∖ {[t]} : gset nat) with (∅ : gset nat) by set_solver. apply size_empty.
Qed.

Lemma inv_unlock s t lvl f b :
  lock_inv s -> threads s !! t = Some (Holding lvl) -> internal_dentry_unlock (fh s) = Ok (f, b) ->
  lock_inv (MkSys f (delete t (if b then broadcast (threads s) else threads s))).
Proof.
  intros H Ht E. destruct (unlock_ok s t lvl H Ht) as (f' & b' & E' & Hb & Eu & Ed & Edel & El).
  rewrite E in E'. injection E' as <- <-. pose proof H as [H1 H2 H3 H4 H5 H6 H7 H8].
  set (ts := if b then broadcast (threads s) else threads s).
  assert (holders (delete t ts) = holders (threads s) ∖ {[t]}) as Eh.
  { rewrite holders_delete. unfold ts. destruct b; [by rewrite holders_broadcast|done]. }
  assert (forall u c, ts !! u = Some c -> exists c', threads s !! u = Some c' /\ pc_level c' = pc_level c) as Hts.
  { intros u c. unfold ts. destruct b; [|by exists c]. rewrite broadcast_lookup.
    destruct (threads s !! u) as [c'|]; [|done]. intros [= <-]. exists c'. by destruct c'. }
  assert (holders (threads s) ∖ {[t]} = ∅ <-> b = true) as Hempty.
  { rewrite Hb. split; [|intros ->; apply difference_diag_L].
    intros E0. apply singleton_holder; [by eapply holding_in|]. by rewrite E0, size_empty. }
  split; cbn [fh threads]; rewrite ?Eh; try done.
  - assert (size (delete t ts) <= size (threads s))%nat as Hle; [|lia].
    rewrite map_size_delete. unfold ts. destruct b; unfold broadcast; rewrite ?lookup_fmap, ?map_size_fmap;
      destruct (threads s !! t); cbn; lia.
  - intros u c [_ Hu]%lookup_delete_Some. destruct (Hts u c Hu) as (c' & Hc' & <-). by apply (H4 u).
  - intros ->%Hempty. done.
  - intros Hne. rewrite El. destruct b; [by destruct Hne; apply Hempty|]. apply H6. intros E0. rewrite E0 in Hne. set_solver.
  - intros Hemp%Hempty u lv id [_ Hu]%lookup_delete_Some. subst b. by eapply broadcast_no_sleeper.
  - congruence.
Qed.

Lemma step_inv s s' : lock_inv s -> step s s' -> lock_inv s'.
Proof.
  intros H Hst. destruct Hst as [s t k lvl Hn Hl Hdel Hsz Hw|s t k lvl Hn Hl Hdel Hsz Hw|s t k lvl id Ht
    |s t k lvl id Ht Hk|s t k lvl id Ht Hk|s t lvl Ht Hdel|s t lvl Ht|s t lvl f b Ht E|s Hd Hdel].
  - pose proof (size_insert_new (threads s) t (Holding lvl)). apply inv_take; try done; [|lia].
    intros [lv Hlv]%holders_spec. congruence.
  - pose proof (size_insert_new (threads s) t (Asleep k lvl (id2assign (fh s)))).
    apply inv_move; try done; [|lia|].
    + intros [lv Hlv]%holders_spec. congruence.
    + intros He lv id [= -> _ _]. cbn in Hw. rewrite (should_wait_iff _ _ H), bool_decide_false in Hw by tauto. done.
  - pose proof (i_levels _ H _ _ Ht). apply inv_move; try done; [by eapply not_holding|].
    rewrite (size_insert_existing _ _ _ _ Ht). apply H.
  - pose proof (i_levels _ H _ _ Ht). apply inv_move; try done; [by eapply not_holding| |].
    + rewrite (size_insert_existing _ _ _ _ Ht). apply H.
    + intros He lv id' [= -> _ _]. cbn in Hk. destruct (deleted (fh s)); [done|].
      rewrite (should_wait_iff _ _ H), bool_decide_false in Hk by tauto. done.
  - pose proof (i_levels _ H _ _ Ht). apply inv_move; try done; [by eapply not_holding|].
    rewrite (size_insert_existing _ _ _ _ Ht). apply H.
  - pose proof (i_levels _ H _ _ Ht). apply inv_take; try done; [by eapply not_holding|].
    rewrite (size_insert_existing _ _ _ _ Ht). apply H.
  - assert (t ∉ holders (threads s)) as Hnh by (by eapply not_holding).
    assert (holders (delete t (threads s)) = holders (threads s)) as Eh
      by (rewrite holders_delete; apply difference_disjoint_L; set_solver).
    destruct H as [H1 H2 H3 H4 H5 H6 H7 H8]. split; cbn [fh threads]; rewrite ?Eh; try done.
    + rewrite map_size_delete, Ht. cbn. lia.
    + intros u c [_ Hu]%lookup_delete_Some. by apply (H4 u).
    + intros He u lv id [_ Hu]%lookup_delete_Some. by apply (H7 He u lv id).
  - by eapply inv_unlock.
  - destruct H as [H1 H2 H3 H4 H5 H6 H7 H8]. rewrite H2 in Hd.
    assert (holders (threads s) = ∅) as He.
    { apply leibniz_equiv, size_empty_inv. lia. }
    split; cbn [fh threads mark_deleted level users d_users deleted]; rewrite ?holders_broadcast; try done.
    + unfold broadcast. by rewrite map_size_fmap.
    + intros u c. rewrite broadcast_lookup. destruct (threads s !! u) as [c'|] eqn:E; [|done]. intros [= <-].
      specialize (H4 u c' E). by destruct c'.
    + intros _ u lv id. apply broadcast_no_sleeper.
Qed.

Lemma reachable_inv s : reachable s -> lock_inv s.
Proof.
  intros (s0 & (Ht & Hl & Hu & Hd & Hdel & _) & Hsteps).
  assert (lock_inv s0) as H0.
  { assert (holders (threads s0) = ∅) as He by (rewrite Ht; done).
    split; rewrite ?He, ?Ht; done. }
  clear -Hsteps H0. induction Hsteps as [s|s1 s2 s3 Hst _ IH]; [done|]. apply IH. by eapply step_inv.
Qed.

(** ** A turn that has passed *)

(** [internal_cap_lock] waits for [id2run] to equal the number the thread drew.
    A thread asleep or woken there with number [id] can take the lock only when
    it leaves the loop. *)
Definition cap_waiter (c : option pc) (id : Z) : Prop :=
  exists lvl, c = Some (Asleep CapLock lvl id) \/ c = Some (Woken CapLock lvl id).

Lemma cap_waiter_wake c id : cap_waiter c id -> cap_waiter (wake <$> c) id.
Proof. intros [lvl [-> | ->]]; exists lvl; cbn; by right. Qed.

Lemma cap_waiter_not_holding c id lvl : cap_waiter c id -> c <> Some (Holding lvl).
Proof. by intros [l [-> | ->]]. Qed.

Lemma unlock_keeps f f' b :
  internal_dentry_unlock f = Ok (f', b) -> id2run f' = id2run f /\ deleted f' = deleted f.
Proof. unfold internal_dentry_unlock. intros E. repeat case_if_in E; simplify_eq; done. Qed.

(** One step of the others, or of the thread itself, while its number has passed
    and the dentry stays. *)
Lemma passed_step s s' t id :
  step s s' -> deleted (fh s') = false -> cap_waiter (threads s !! t) id ->
  0 <= id < id2run (fh s) -> id2run (fh s) < UINT32_MAX ->
  cap_waiter (threads s' !! t) id /\ id < id2run (fh s') <= id2run (fh s) + 1.
Proof.
  intros Hst Hdel' Hw Hid Hmax. unfold UINT32_MAX in Hmax.
  assert (forall u c, u <> t -> cap_waiter (<[u := c]> (threads s) !! t) id) as Hins
    by (intros u c Hu; by rewrite lookup_insert_ne).
  assert (forall u c, u <> t -> cap_waiter (<[u := c]> (broadcast (threads s)) !! t) id) as Hinsb
    by (intros u c Hu; rewrite lookup_insert_ne, broadcast_lookup by done; by apply cap_waiter_wake).
  assert (forall f lvl u, id2run f = id2run (fh s) -> u <> t ->
    cap_waiter (threads (take_lock s u f lvl) !! t) id /\
    id < id2run (fh (take_lock s u f lvl)) <= id2run (fh s) + 1) as Htake.
  { intros f lvl u Ef Hu. unfold take_lock. cbn [fh threads acquire id2run].
    rewrite Ef, wrap_small by lia. split; [|lia]. destruct (_ =? _); auto. }
  assert (forall u c, threads s !! u = c -> cap_waiter c id \/ u <> t) as Hcase.
  { intros u c <-. destruct (decide (u = t)) as [->|]; auto. }
  destruct Hst as [s u k lvl Hn Hl Hdel Hsz Hwt|s u k lvl Hn Hl Hdel Hsz Hwt|s u k lvl i Hu
    |s u k lvl i Hu Hk|s u k lvl i Hu Hk|s u lvl Hu Hdel|s u lvl Hu|s u lvl f b Hu E|s Hd Hdel];
    cbn [fh threads] in *.
  - apply Htake; [done|]. destruct (Hcase u _ Hn) as [[? [?|?]]|]; done.
  - split; [|cbn [assign_id id2run]; lia]. apply Hins. destruct (Hcase u _ Hn) as [[? [?|?]]|]; done.
  - split; [|lia]. destruct (decide (u = t)) as [->|]; [|auto]. rewrite Hu in Hw. destruct Hw as [lv [[= -> -> ->]|[=]]].
    rewrite lookup_insert_eq. exists lv. by right.
  - split; [|lia]. destruct (decide (u = t)) as [->|]; [|auto]. rewrite Hu in Hw. destruct Hw as [lv [[=]|[= -> -> ->]]].
    rewrite lookup_insert_eq. exists lv. by left.
  - split; [|lia]. destruct (decide (u = t)) as [->|]; [|auto]. rewrite Hu in Hw. destruct Hw as [lv [[=]|[= -> -> ->]]].
    cbn in Hk. rewrite Hdel', (proj2 (Z.eqb_neq _ _)) in Hk by lia. done.
  - apply Htake; [done|]. destruct (Hcase u _ Hu) as [[? [?|?]]|]; done.
  - split; [|lia]. assert (u <> t) by (destruct (Hcase u _ Hu) as [[? [?|?]]|]; done). by rewrite lookup_delete_ne.
  - assert (u <> t) by (destruct (Hcase u _ Hu) as [[? [?|?]]|]; done). rewrite lookup_delete_ne by done.
    rewrite (proj1 (unlock_keeps _ _ _ E)).
    split; [|lia]. destruct b; [|done]. rewrite broadcast_lookup. by apply cap_waiter_wake.
  - done.
Qed.

(** ** Properties *)

(** C33. In every reachable state the [users] counters are the number of threads
    that hold the lock and [level] is LEVEL_UNLOCKED exactly when there is none;
    no unlock by a thread that holds the lock aborts; a call of
    [internal_dentry_lock] gets the lock without waiting exactly when nobody holds
    it, whatever the level asked for. *)
Theorem lock_bookkeeping (s : sys) :
  reachable s ->
  users (fh s) = Z.of_nat (size (holders (threads s))) /\
  d_users (fh s) = users (fh s) /\
  (level (fh s) = LEVEL_UNLOCKED <-> holders (threads s) = ∅) /\
  (forall t lvl, threads s !! t = Some (Holding lvl) ->
     exists f b, internal_dentry_unlock (fh s) = Ok (f, b) /\ (b = true <-> holders (threads s) = {[t]})) /\
  (forall lvl, wait_for_locked DentryLock (fh s) lvl = Ok (bool_decide (holders (threads s) <> ∅))).
Proof.
  intros H%reachable_inv. split_and!.
  - apply H.
  - by rewrite (i_users _ H), (i_d_users _ H).
  - split; [|apply H]. intros E. destruct (decide (holders (threads s) = ∅)) as [|Hne]; [done|].
    apply (i_locked _ H), lock_level_cases in Hne. rewrite E in Hne. by destruct Hne.
  - intros t lvl Ht. destruct (unlock_ok s t lvl H Ht) as (f & b & E & Hb & _). by exists f, b.
  - intros lvl. by apply should_wait_iff.
Qed.

(** C34. No wake-up is lost in [internal_dentry_lock]: whenever nobody holds the
    lock, no thread that called it is asleep, and a woken one leaves the loop at
    its next test. *)
Theorem lock_no_lost_wakeup (s : sys) :
  reachable s -> holders (threads s) = ∅ ->
  (forall t lvl id, threads s !! t <> Some (Asleep DentryLock lvl id)) /\
  (forall t lvl id, threads s !! t = Some (Woken DentryLock lvl id) ->
     step s (MkSys (fh s) (<[t := Window lvl]> (threads s)))).
Proof.
  intros H%reachable_inv He. split; [apply (i_asleep _ H He)|].
  intros t lvl id Ht. apply (st_leave s t DentryLock lvl id Ht). cbn.
  destruct (deleted (fh s)); [done|]. by rewrite (should_wait_iff _ _ H), bool_decide_false by tauto.
Qed.

(** A thread in [internal_cap_lock] whose turn has passed is never served: once
    [id2run] exceeds the number it drew, it does not get the lock in any run, as
    long as the dentry is not deleted and the 32-bit counter does not wrap
    around. *)
Theorem cap_lock_starves (s s' : sys) (t n : nat) (id : Z) :
  cap_waiter (threads s !! t) id -> 0 <= id < id2run (fh s) ->
  id2run (fh s) + Z.of_nat n < UINT32_MAX ->
  nsteps step n s s' -> deleted (fh s') = false ->
  cap_waiter (threads s' !! t) id.
Proof.
  intros Hw Hid Hn Hst Hdel. revert s Hw Hid Hn Hst. induction n as [|n IH]; intros s Hw Hid Hn Hst.
  - by inversion Hst; subst.
  - inversion Hst as [|? ? s1 ? H1 H2]; subst.
    assert (deleted (fh s1) = false) as Hdel1.
    { clear -H2 Hdel. remember (S n) as m eqn:Em. clear Em. induction H2 as [|k a b c Hab _ IHs]; [done|].
      specialize (IHs Hdel). destruct Hab as [| | | | | | |? ? ? ? ? _ E|]; cbn in *; try done.
      by rewrite <-(proj2 (unlock_keeps _ _ _ E)). }
    destruct (passed_step s s1 t id H1 Hdel1 Hw Hid) as [Hw1 Hid1]; [lia|]. apply (IH s1); [done|lia|lia|done].
Qed.

(** *** The window *)

Definition sys0 : sys := MkSys (MkLock LEVEL_UNLOCKED 0 0 0 0 0 false) ∅.

(** Thread 1 has the lock exclusively, thread 2 sleeps. *)
Definition sys_held : sys := take_lock sys0 1 (assign_id (fh sys0)) LEVEL_EXCLUSIVE.
Definition sys_asleep (k : kind) : sys :=
  MkSys (assign_id (fh sys_held)) (<[2%nat := Asleep k LEVEL_EXCLUSIVE 1]> (threads sys_held)).

Definition unlocked (s : sys) (t : nat) : sys :=
  match internal_dentry_unlock (fh s) with
  | Ok (f, b) => MkSys f (delete t (if b then broadcast (threads s) else threads s))
  | _ => s
  end.

Lemma sys_asleep_reachable k : rtc step sys0 (sys_asleep k).
Proof.
  eapply rtc_l; [by apply (st_lock sys0 1 DentryLock LEVEL_EXCLUSIVE)|].
  apply rtc_once. apply (st_sleep sys_held 2 k LEVEL_EXCLUSIVE); try reflexivity. by destruct k.
Qed.

(** C36. The lock does not exclude: a thread that was woken releases the mutex of the
    handle before it looks the dentry up again and then takes the lock without
    testing the level again, so a thread that arrives in between also gets it.
    Two threads then hold the same dentry exclusively. *)
Theorem lock_exclusion_violated :
  exists s, reachable s /\ threads s !! 1%nat = Some (Holding LEVEL_EXCLUSIVE) /\
    threads s !! 2%nat = Some (Holding LEVEL_EXCLUSIVE) /\ level (fh s) = LEVEL_EXCLUSIVE.
Proof.
  set (s2 := sys_asleep DentryLock). set (s3 := unlocked s2 1).
  set (s4 := MkSys (fh s3) (<[2%nat := Window LEVEL_EXCLUSIVE]> (threads s3))).
  set (s5 := take_lock s4 1 (assign_id (fh s4)) LEVEL_EXCLUSIVE).
  set (s6 := take_lock s5 2 (fh s5) LEVEL_EXCLUSIVE).
  exists s6. split; [|by vm_compute]. exists sys0. split; [by repeat split|].
  etransitivity; [apply (sys_asleep_reachable DentryLock)|].
  eapply rtc_l; [by apply (st_unlock s2 1 LEVEL_EXCLUSIVE (fh s3) true)|].
  eapply rtc_l; [by apply (st_leave s3 2 DentryLock LEVEL_EXCLUSIVE 1)|].
  eapply rtc_l; [by apply (st_lock s4 1 DentryLock LEVEL_EXCLUSIVE)|].
  apply rtc_once. by apply (st_found s5 2 LEVEL_EXCLUSIVE).
Qed.

(** *** Witnesses *)

Lemma sys_asleep_is_reachable k : reachable (sys_asleep k).
Proof. exists sys0. split; [by repeat split|apply sys_asleep_reachable]. Qed.

Lemma lock_bookkeeping_witness :
  users (fh (sys_asleep DentryLock)) = 1 /\
  wait_for_locked DentryLock (fh (sys_asleep DentryLock)) LEVEL_SHARED = Ok true.
Proof.
  destruct (lock_bookkeeping _ (sys_asleep_is_reachable DentryLock)) as (Hu & _ & _ & _ & Hw).
  split; [exact Hu|]. rewrite (Hw LEVEL_SHARED). reflexivity.
Defined.

Lemma sys_unlocked_reachable : reachable (unlocked (sys_asleep DentryLock) 1).
Proof.
  exists sys0. split; [by repeat split|]. eapply rtc_r; [apply sys_asleep_reachable|].
  by apply (st_unlock (sys_asleep DentryLock) 1 LEVEL_EXCLUSIVE (fh (unlocked (sys_asleep DentryLock) 1)) true).
Qed.

Lemma lock_no_lost_wakeup_witness :
  let s := unlocked (sys_asleep DentryLock) 1 in
  threads s !! 2%nat = Some (Woken DentryLock LEVEL_EXCLUSIVE 1) /\
  step s (MkSys (fh s) (<[2%nat := Window LEVEL_EXCLUSIVE]> (threads s))).
Proof.
  split; [reflexivity|].
  destruct (lock_no_lost_wakeup _ sys_unlocked_reachable) as [_ H]; [by vm_compute|].
  apply (H 2%nat LEVEL_EXCLUSIVE 1). reflexivity.
Defined.

(** Thread 2 waits in [internal_cap_lock] with number 1; thread 1 unlocks and takes
    the lock again before it. *)
Definition sys_passed : sys :=
  let s := unlocked (sys_asleep CapLock) 1 in
  take_lock s 1 (assign_id (fh s)) LEVEL_EXCLUSIVE.

Lemma cap_lock_starves_witness :
  id2run (fh sys_passed) = 2 /\
  cap_waiter (threads (unlocked sys_passed 1) !! 2%nat) 1.
Proof.
  split; [reflexivity|].
  apply (cap_lock_starves sys_passed (unlocked sys_passed 1) 2 1 1).
  - exists LEVEL_EXCLUSIVE. right. reflexivity.
  - by vm_compute.
  - by vm_compute.
  - apply nsteps_once. by apply (st_unlock sys_passed 1 LEVEL_EXCLUSIVE (fh (unlocked sys_passed 1)) true).
  - reflexivity.
Defined.

(** *** The locks a thread owns *)

Section owned_lemmas.
Context {D : Type} `{!EqDecision D}.
Implicit Types (li : list (lock_info D)) (d e : D).

(** Free entries are unlocked, used ones have a lock level, no dentry twice. *)
Definition slot_ok (x : lock_info D) : Prop :=
  match li_dentry x with None => li_level x = LEVEL_UNLOCKED | Some _ => lock_level (li_level x) = true end.

Definition li_ok li : Prop := Forall slot_ok li /\ NoDup (omap li_dentry li).

Definition free_slots li : nat := length (filter (fun x => li_dentry x = None) li).

Lemma is_owned_spec li d : is_owned li d = true <-> d ∈ omap li_dentry li.
Proof.
  induction li as [|[[e|] l] li IH]; cbn; [split; [done|by intros ?%not_elem_of_nil]| |].
  - rewrite elem_of_cons, <-IH. destruct (decide (Some e = Some d)) as [[= ->]|Hne]; [tauto|].
    split; [by right|]. by intros [->|].
  - rewrite <-IH. by destruct (decide (None = Some d)).
Qed.

Lemma get_level_free li d : is_owned li d = false -> get_level li d = LEVEL_UNLOCKED.
Proof. induction li as [|x li IH]; cbn; [done|]. by destruct (decide _). Qed.

Lemma free_slots_cons x li :
  free_slots (x :: li) = match li_dentry x with Some _ => free_slots li | None => S (free_slots li) end.
Proof. unfold free_slots. destruct x as [[e|] l]; by rewrite filter_cons. Qed.

Lemma set_owned_loop_ok li d lvl :
  Forall slot_ok li -> (0 < free_slots li)%nat -> is_owned li d = false ->
  exists li', set_owned_loop li d lvl = Ok li' /\ (lock_level lvl = true -> Forall slot_ok li') /\
    omap li_dentry li' ≡ₚ d :: omap li_dentry li /\ S (free_slots li') = free_slots li /\
    (forall e, get_level li' e = if decide (e = d) then lvl else get_level li e).
Proof.
  intros Hok Hf Hd. induction li as [|[[e|] l] li IH]; [cbn in Hf; lia| |];
    rewrite free_slots_cons in *; cbn [is_owned set_owned_loop li_dentry li_level] in *;
    apply Forall_cons in Hok as [Hx Hok].
  - destruct (decide (Some e = Some d)) as [|Hne]; [done|].
    destruct (IH Hok Hf Hd) as (li' & -> & H1 & H2 & H3 & H4). cbn [mbind res_bind]. eexists. split; [done|].
    split_and!.
    + intros Hl. constructor; [done|auto].
    + cbn. rewrite H2. apply Permutation_swap.
    + by rewrite free_slots_cons.
    + intros a. cbn. rewrite H4. destruct (decide (Some e = Some a)) as [[= ->]|]; [|done].
      by rewrite decide_False by congruence.
  - cbn in Hx. rewrite Hx. cbn [negb]. eexists. split; [done|]. split_and!.
    + intros Hl. by constructor.
    + done.
    + by rewrite free_slots_cons.
    + intros a. cbn. destruct (decide (a = d)) as [->|]; [by rewrite decide_True|].
      rewrite decide_False by congruence. done.
Qed.

Lemma set_owned_loop_full li d lvl : free_slots li = 0%nat -> set_owned_loop li d lvl = Aborted.
Proof.
  induction li as [|[[e|] l] li IH]; [done| |]; rewrite free_slots_cons; cbn [li_dentry]; intros Hf; [|done].
  cbn [set_owned_loop li_dentry]. by rewrite IH.
Qed.

Lemma clear_owned_ok li d :
  li_ok li -> is_owned li d = true ->
  exists li', clear_owned li d = Ok li' /\ li_ok li' /\ free_slots li' = S (free_slots li) /\
    d :: omap li_dentry li' ≡ₚ omap li_dentry li /\
    (forall e, get_level li' e = if decide (e = d) then LEVEL_UNLOCKED else get_level li e).
Proof.
  intros [Hok Hnd] Hd. unfold li_ok.
  induction li as [|x li IH]; cbn [is_owned clear_owned] in *; [done|].
  apply Forall_cons in Hok as [Hx Hok]. destruct (decide (li_dentry x = Some d)) as [E|E].
  - unfold slot_ok in Hx. rewrite E in Hx. rewrite Hx. cbn [negb]. eexists. split; [done|].
    cbn [omap list_omap] in Hnd. rewrite E in Hnd. apply NoDup_cons in Hnd as [Hdn Hnd].
    rewrite !free_slots_cons, E. split_and!; try done.
    + by constructor.
    + cbn. by rewrite E.
    + intros e. cbn. rewrite E. destruct (decide (e = d)) as [->|Hne].
      * apply get_level_free. apply not_true_iff_false. by rewrite is_owned_spec.
      * by rewrite !decide_False by congruence.
  - assert (NoDup (omap li_dentry li)) as Hnd'.
    { cbn in Hnd. destruct (li_dentry x); [by apply NoDup_cons in Hnd as [_ ?]|done]. }
    destruct (IH Hok Hnd' Hd) as (li' & -> & [H1 H1'] & H2 & H3 & H4). cbn [mbind res_bind]. eexists. split; [done|].
    rewrite !free_slots_cons. split_and!.
    + by constructor.
    + cbn in Hnd |- *. destruct (li_dentry x) as [e|]; [|done]. apply NoDup_cons in Hnd as [Hen _].
      apply NoDup_cons. split; [|done]. intros He. apply Hen. rewrite <-H3. by right.
    + destruct (li_dentry x); [done|lia].
    + cbn. destruct (li_dentry x) as [e|]; [|done]. by rewrite Permutation_swap, H3.
    + intros e. cbn. rewrite H4. destruct (decide (li_dentry x = Some e)) as [Ee|]; [|done].
      by rewrite decide_False by congruence.
Qed.

(** The list of locks a thread owns is a map from dentries to levels with room
    for two: [set_owned] records a level and aborts when the thread already owns
    two locks, [clear_owned] forgets exactly one dentry and aborts when it is not
    owned, [is_owned] and [get_level] read the map. *)
Theorem owned_locks_map li d lvl :
  li_ok li -> lock_level lvl = true ->
  (is_owned li d = false -> free_slots li = 0%nat -> set_owned li d lvl = Aborted) /\
  (is_owned li d = false -> (0 < free_slots li)%nat ->
   exists li', set_owned li d lvl = Ok li' /\ li_ok li' /\ is_owned li' d = true /\
     (forall e, get_level li' e = if decide (e = d) then lvl else get_level li e) /\
     exists li2, clear_owned li' d = Ok li2 /\ li_ok li2 /\ free_slots li2 = free_slots li /\
       forall e, get_level li2 e = get_level li e) /\
  (is_owned li d = false -> clear_owned li d = Aborted) /\
  is_owned (set_lock_info (D := D)) d = false /\ free_slots (set_lock_info (D := D)) = MAX_LOCKED_FILE_HANDLES.
Proof.
  intros [Hok Hnd] Hl. unfold set_owned. rewrite Hl. cbn [negb]. split_and!; [| | |done|done].
  - intros _ Hf. by apply set_owned_loop_full.
  - intros Hd Hf. destruct (set_owned_loop_ok li d lvl Hok Hf Hd) as (li' & E & H1 & H2 & H3 & H4).
    assert (li_ok li') as Hok'.
    { split; [auto|]. rewrite H2. apply NoDup_cons. split; [|done]. rewrite <-is_owned_spec. congruence. }
    assert (is_owned li' d = true) as Hd' by (apply is_owned_spec; rewrite H2; left).
    exists li'. split_and!; try done. destruct (clear_owned_ok li' d Hok' Hd') as (li2 & E2 & Hok2 & Hf2 & _ & Hg2).
    exists li2. split_and!; [done|done|lia|]. intros e. rewrite Hg2, H4.
    destruct (decide (e = d)) as [->|]; [|done]. by rewrite get_level_free.
  - intros Hd. clear Hok Hnd. induction li as [|x li IH]; cbn in *; [done|].
    destruct (decide _); [done|]. by rewrite IH.
Qed.
End owned_lemmas.

Lemma owned_locks_map_witness :
  exists li, set_owned (set_lock_info (D := nat)) 5%nat LEVEL_SHARED = Ok li /\ get_level li 5%nat = LEVEL_SHARED.
Proof.
  destruct (owned_locks_map (set_lock_info (D := nat)) 5%nat LEVEL_SHARED) as (_ & H & _).
  - split; [by repeat constructor|constructor].
  - reflexivity.
  - destruct H as (li & E & _ & _ & Hg & _); [reflexivity|vm_compute; lia|]. exists li. split; [exact E|]. by rewrite Hg.
Defined.
