(* ===== verification/KeyedQueue.v ===== *)
(** What a priority queue with addressable nodes promises to its users: an
    interface that the Fibonacci heap ([Fibheap.v]) implements and the caches of
    open files ([FdCache.v]) use. *)

From S2P Require Import Prelude AllocPool.

(** The abstract content of a queue maps its nodes to their keys and data.  A key
    of 0 is excluded, since deletion goes through that key. *)
Class KeyedQueue (A H : Type) := {
  kq_insert : H -> Z -> A -> res (H * ptr);
  kq_extract_min : H -> res (H * option A);
  kq_replace_key : H -> ptr -> Z -> res (H * ptr);
  kq_delete_node : H -> ptr -> res (H * A);
  kq_size : H -> Z;
  kq_ok : H -> Prop;
  kq_view : H -> gmap ptr (Z * A);
  kq_size_view : forall h, kq_ok h -> kq_size h = Z.of_nat (size (kq_view h));
  kq_insert_ok : forall h k d, kq_ok h -> Z.of_nat (size (kq_view h)) < UINT32_MAX -> is_u32 k ->
    exists h' p, kq_insert h k d = Ok (h', p) /\ kq_ok h' /\ kq_view h !! p = None /\
      kq_view h' = <[p := (k, d)]> (kq_view h);
  kq_extract_ok : forall h, kq_ok h ->
    exists h' o, kq_extract_min h = Ok (h', o) /\ kq_ok h' /\
      match o with
      | None => kq_view h = ∅ /\ h' = h
      | Some d => exists p k, kq_view h !! p = Some (k, d) /\ kq_view h' = delete p (kq_view h) /\
          forall q kq y, kq_view h !! q = Some (kq, y) -> k <= kq
      end;
  kq_replace_ok : forall h p k0 d k, kq_ok h -> kq_view h !! p = Some (k0, d) -> 0 < k0 -> is_u32 k ->
    exists h' p', kq_replace_key h p k = Ok (h', p') /\ kq_ok h' /\ delete p (kq_view h) !! p' = None /\
      kq_view h' = <[p' := (k, d)]> (delete p (kq_view h));
  kq_delete_ok : forall h p k0 d, kq_ok h -> kq_view h !! p = Some (k0, d) -> 0 < k0 ->
    exists h', kq_delete_node h p = Ok (h', d) /\ kq_ok h' /\ kq_view h' = delete p (kq_view h)
}.

(** A queue that also shows its minimum and the key of a node, and whose nodes keep
    their addresses when their keys are replaced. *)
Class PeekQueue (A H : Type) `{KeyedQueue A H} := {
  kq_min : H -> res (option A);
  kq_min_key : H -> res Z;
  kq_key : H -> ptr -> res Z;
  kq_key_ok : forall h p k d, kq_ok h -> kq_view h !! p = Some (k, d) -> kq_key h p = Ok k;
  kq_peek_ok : forall h, kq_ok h ->
    exists h' o, kq_extract_min h = Ok (h', o) /\ kq_min h = Ok o /\
      match o with
      | None => kq_view h = ∅
      | Some d => exists p k, kq_view h !! p = Some (k, d) /\ kq_view h' = delete p (kq_view h) /\
          (forall q kq y, kq_view h !! q = Some (kq, y) -> k <= kq) /\ kq_min_key h = Ok k
      end;
  kq_replace_same : forall h p k0 d k h' p', kq_ok h -> kq_view h !! p = Some (k0, d) -> 0 < k0 ->
    kq_replace_key h p k = Ok (h', p') -> p' = p
}.
