(* ===== verification/Fibheap.v ===== *)
(** Fibonacci heaps: [src/zfsd/lib/fibheap/fibheap.c] and [fibheap.h].

    The nodes live in an explicit memory [mem], a map from addresses to records
    with the four pointers of the source; the root list and every child list are
    circular lists through [left] and [right].  A use of a pointer that designates
    no node is [Aborted], and so is an access outside the array of
    [fibheap_consolidate].  Loops take fuel; the number of nodes is enough.

    The abstract view of a heap is the finite map from its nodes to their keys
    and data. *)

From stdpp Require Import functions.
From S2P Require Import Prelude AllocPool KeyedQueue.

Section operations.
Context {A : Type}.

Record fibnode := MkFib {
  parent : option ptr;
  child : option ptr;
  left : ptr;
  right : ptr;
  key : Z;
  data : A;
  degree : Z;
  mark : bool
}.

Record fibheap := MkFibheap {
  nodes : Z;
  min : option ptr;
  root : option ptr;
  pool : alloc_pool;
  mem : gmap ptr fibnode
}.

Definition FIBHEAPKEY_MIN : Z := 0.
Definition FIBHEAPKEY_MAX : Z := u32 (-1).

(** *** Memory accesses *)

Definition deref (h : fibheap) (p : ptr) : res fibnode :=
  match mem h !! p with Some n => Ok n | None => Aborted end.

Definition with_mem (h : fibheap) (m : gmap ptr fibnode) : fibheap :=
  MkFibheap (nodes h) (min h) (root h) (pool h) m.

Definition set_root (h : fibheap) (r : option ptr) : fibheap :=
  MkFibheap (nodes h) (min h) r (pool h) (mem h).

Definition set_min (h : fibheap) (r : option ptr) : fibheap :=
  MkFibheap (nodes h) r (root h) (pool h) (mem h).

Definition set_nodes (h : fibheap) (n : Z) : fibheap :=
  MkFibheap n (min h) (root h) (pool h) (mem h).

Definition assign (f : fibnode -> fibnode) (h : fibheap) (p : ptr) : res fibheap :=
  n ← deref h p; Ok (with_mem h (<[p := f n]> (mem h))).

Definition set_parent (v : option ptr) (n : fibnode) : fibnode :=
  MkFib v (child n) (left n) (right n) (key n) (data n) (degree n) (mark n).
Definition set_child (v : option ptr) (n : fibnode) : fibnode :=
  MkFib (parent n) v (left n) (right n) (key n) (data n) (degree n) (mark n).
Definition set_left (v : ptr) (n : fibnode) : fibnode :=
  MkFib (parent n) (child n) v (right n) (key n) (data n) (degree n) (mark n).
Definition set_right (v : ptr) (n : fibnode) : fibnode :=
  MkFib (parent n) (child n) (left n) v (key n) (data n) (degree n) (mark n).
Definition set_key (v : Z) (n : fibnode) : fibnode :=
  MkFib (parent n) (child n) (left n) (right n) v (data n) (degree n) (mark n).
(** [degree] is a bit-field of 31 bits. *)
Definition add_degree (v : Z) (n : fibnode) : fibnode :=
  MkFib (parent n) (child n) (left n) (right n) (key n) (data n) (wrap 31 (degree n + v)) (mark n).
Definition set_mark (v : bool) (n : fibnode) : fibnode :=
  MkFib (parent n) (child n) (left n) (right n) (key n) (data n) (degree n) v.

(** *** Circular lists *)

Definition fibnode_insert_after (h : fibheap) (a b : ptr) : res fibheap :=
  na ← deref h a;
  if decide (a = right na) then
    h ← assign (set_right b) h a;
    h ← assign (set_left b) h a;
    h ← assign (set_right a) h b;
    assign (set_left a) h b
  else
    h ← assign (set_right (right na)) h b;
    na ← deref h a;
    h ← assign (set_left b) h (right na);
    h ← assign (set_right b) h a;
    assign (set_left a) h b.

Definition fibnode_insert_before (h : fibheap) (a b : ptr) : res fibheap :=
  na ← deref h a; fibnode_insert_after h (left na) b.

(** The second half of [fibnode_remove]: the neighbours are joined. *)
Definition splice_out (h : fibheap) (node : ptr) : res fibheap :=
  n ← deref h node;
  h ← assign (set_left (left n)) h (right n);
  n ← deref h node;
  h ← assign (set_right (right n)) h (left n);
  h ← assign (set_parent None) h node;
  h ← assign (set_left node) h node;
  assign (set_right node) h node.

Definition fibnode_remove (h : fibheap) (node : ptr) : res (fibheap * option ptr) :=
  n ← deref h node;
  let ret := if decide (node = left n) then None else Some (left n) in
  h ← match parent n with
      | None => Ok h
      | Some p =>
          np ← deref h p;
          if decide (child np = Some node) then assign (set_child ret) h p else Ok h
      end;
  h ← splice_out h node;
  Ok (h, ret).

Definition fibheap_ins_root (h : fibheap) (node : ptr) : res fibheap :=
  match root h with
  | None =>
      let h := set_root h (Some node) in
      h ← assign (set_left node) h node;
      assign (set_right node) h node
  | Some r => fibnode_insert_after h r node
  end.

Definition fibheap_rem_root (h : fibheap) (node : ptr) : res fibheap :=
  n ← deref h node;
  if decide (left n = node) then Ok (set_root h None)
  else '(h, r) ← fibnode_remove h node; Ok (set_root h r).

(** *** Links and cuts *)

Definition fibheap_link (h : fibheap) (node par : ptr) : res fibheap :=
  np ← deref h par;
  h ← match child np with
      | None => assign (set_child (Some node)) h par
      | Some c => fibnode_insert_before h c node
      end;
  h ← assign (set_parent (Some par)) h node;
  h ← assign (add_degree 1) h par;
  assign (set_mark false) h node.

Definition fibheap_cut (h : fibheap) (node par : ptr) : res fibheap :=
  '(h, _) ← fibnode_remove h node;
  h ← assign (add_degree (-1)) h par;
  h ← fibheap_ins_root h node;
  h ← assign (set_parent None) h node;
  assign (set_mark false) h node.

Fixpoint fibheap_cascading_cut (fuel : nat) (h : fibheap) (y : ptr) : res fibheap :=
  match fuel with
  | O => OutOfFuel
  | S fuel =>
      n ← deref h y;
      match parent n with
      | None => Ok h
      | Some z =>
          if mark n then h ← fibheap_cut h y z; fibheap_cascading_cut fuel h z
          else assign (set_mark true) h y
      end
  end.

(** *** Consolidation *)

Definition D : nat := 65.

(** The inner loop: [x] is linked with the trees of equal degree. *)
Fixpoint link_equal (fuel : nat) (h : fibheap) (a : list (option ptr)) (x : ptr) (d : nat)
    : res (fibheap * list (option ptr)) :=
  match fuel with
  | O => OutOfFuel
  | S fuel =>
      match a !! d with
      | None => Aborted
      | Some None => Ok (h, <[d := Some x]> a)
      | Some (Some y) =>
          nx ← deref h x;
          ny ← deref h y;
          let '(x, y) := if key ny <? key nx then (y, x) else (x, y) in
          h ← fibheap_link h y x;
          link_equal fuel h (<[d := None]> a) x (d + 1)
      end
  end.

Fixpoint consolidate_loop (fuel : nat) (h : fibheap) (a : list (option ptr))
    : res (fibheap * list (option ptr)) :=
  match fuel with
  | O => OutOfFuel
  | S fuel =>
      match root h with
      | None => Ok (h, a)
      | Some w =>
          h ← fibheap_rem_root h w;
          n ← deref h w;
          '(h, a) ← link_equal (S D) h a w (Z.to_nat (degree n));
          consolidate_loop fuel h a
      end
  end.

(** [heap->min == NULL || node->key < heap->min->key] *)
Definition below_min (h : fibheap) (p : ptr) : res bool :=
  match min h with
  | None => Ok true
  | Some m => n ← deref h p; nm ← deref h m; Ok (key n <? key nm)
  end.

(** The last loop of [fibheap_consolidate]. *)
Fixpoint rebuild_roots (h : fibheap) (a : list (option ptr)) : res fibheap :=
  match a with
  | [] => Ok h
  | None :: a => rebuild_roots h a
  | Some p :: a =>
      h ← fibheap_ins_root h p;
      b ← below_min h p;
      rebuild_roots (if (b : bool) then set_min h (Some p) else h) a
  end.

Definition fibheap_consolidate (h : fibheap) : res fibheap :=
  '(h, a) ← consolidate_loop (S (size (mem h))) h (replicate D None);
  rebuild_roots (set_min h None) a.

(** *** Extracting the minimum *)

(** The loop that moves the children of the minimum to the root list. *)
Fixpoint children_to_roots (fuel : nat) (h : fibheap) (x : option ptr) (orig : option ptr) : res fibheap :=
  match x with
  | None => Ok h
  | Some p =>
      if decide (Some p = orig) then Ok h
      else
        match fuel with
        | O => OutOfFuel
        | S fuel =>
            let orig := match orig with None => Some p | o => o end in
            n ← deref h p;
            let y := right n in
            h ← assign (set_parent None) h p;
            h ← fibheap_ins_root h p;
            children_to_roots fuel h (Some y) orig
        end
  end.

Definition fibheap_extr_min_node (h : fibheap) : res (fibheap * ptr) :=
  match min h with
  | None => Aborted
  | Some ret =>
      n ← deref h ret;
      h ← children_to_roots (S (size (mem h))) h (child n) None;
      h ← fibheap_rem_root h ret;
      let h := set_nodes h (u32 (nodes h - 1)) in
      if nodes h =? 0 then Ok (set_min h None, ret)
      else
        n ← deref h ret;
        h ← fibheap_consolidate (set_min h (Some (right n)));
        Ok (h, ret)
  end.

(** [pool_free (heap->pool, node)] *)
Definition free_node (h : fibheap) (p : ptr) : res fibheap :=
  pl ← pool_free (pool h) p;
  Ok (MkFibheap (nodes h) (min h) (root h) pl (delete p (mem h))).

(** *** The exported operations *)

Definition fibheap_new (block_size : nat) : res fibheap :=
  pl ← create_alloc_pool block_size; Ok (MkFibheap 0 None None pl ∅).

Definition fibheap_insert (h : fibheap) (k : Z) (d : A) : res (fibheap * ptr) :=
  '(node, pl) ← pool_alloc (pool h);
  let n := MkFib None None node node k d 0 false in
  let h := MkFibheap (nodes h) (min h) (root h) pl (<[node := n]> (mem h)) in
  h ← fibheap_ins_root h node;
  b ← below_min h node;
  let h := if (b : bool) then set_min h (Some node) else h in
  Ok (set_nodes h (u32 (nodes h + 1)), node).

Definition fibheap_min (h : fibheap) : res (option A) :=
  match min h with
  | None => Ok None
  | Some m => n ← deref h m; Ok (Some (data n))
  end.

Definition fibheap_min_key (h : fibheap) : res Z :=
  match min h with
  | None => Ok FIBHEAPKEY_MAX
  | Some m => n ← deref h m; Ok (key n)
  end.

Definition fibheap_extract_min (h : fibheap) : res (fibheap * option A) :=
  match min h with
  | None => Ok (h, None)
  | Some _ =>
      '(h, z) ← fibheap_extr_min_node h;
      n ← deref h z;
      h ← free_node h z;
      Ok (h, Some (data n))
  end.

(** The part of [fibheap_replace_key] that decreases a key. *)
Definition decrease_key (h : fibheap) (node : ptr) (k : Z) : res (fibheap * ptr) :=
  h ← assign (set_key k) h node;
  n ← deref h node;
  h ← match parent n with
      | None => Ok h
      | Some y =>
          ny ← deref h y;
          if key n <=? key ny then
            h ← fibheap_cut h node y;
            fibheap_cascading_cut (S (size (mem h))) h y
          else Ok h
      end;
  match min h with
  | None => Aborted
  | Some m =>
      n ← deref h node;
      nm ← deref h m;
      Ok (if key n <=? key nm then set_min h (Some node) else h, node)
  end.

(** [fibheap_replace_key] and [fibheap_delete_node] call each other, but a call to
    replace a key by the smallest one does not delete. *)
Definition delete_with (replace_key : fibheap -> ptr -> Z -> res (fibheap * ptr))
    (h : fibheap) (node : ptr) : res (fibheap * A) :=
  n ← deref h node;
  '(h, _) ← replace_key h node FIBHEAPKEY_MIN;
  '(h, _) ← fibheap_extract_min h;
  Ok (h, data n).

Fixpoint replace_key (fuel : nat) (h : fibheap) (node : ptr) (k : Z) : res (fibheap * ptr) :=
  n ← deref h node;
  if k =? key n then Ok (h, node)
  else if key n <? k then
    match fuel with
    | O => OutOfFuel
    | S fuel => '(h, d) ← delete_with (replace_key fuel) h node; fibheap_insert h k d
    end
  else decrease_key h node k.

Definition fibheap_replace_key (h : fibheap) (node : ptr) (k : Z) : res (fibheap * ptr) :=
  replace_key 1 h node k.

Definition fibheap_delete_node (h : fibheap) (node : ptr) : res (fibheap * A) :=
  delete_with (replace_key 0) h node.

Fixpoint delete_loop (fuel : nat) (h : fibheap) : res fibheap :=
  match min h with
  | None => Ok h
  | Some _ =>
      match fuel with
      | O => OutOfFuel
      | S fuel =>
          '(h, z) ← fibheap_extr_min_node h;
          h ← free_node h z;
          delete_loop fuel h
      end
  end.

(** [fibheap_delete] before the pool and the heap are freed. *)
Definition fibheap_delete (h : fibheap) : res fibheap := delete_loop (S (size (mem h))) h.

Definition fibheap_size (h : fibheap) : Z := nodes h.

Definition fibheap_union (a b : fibheap) : res fibheap :=
  match root a, root b with
  | None, _ => Ok b
  | _, None => Ok a
  | Some a_root, Some b_root =>
      let h := with_mem a (mem a ∪ mem b) in
      na ← deref h a_root;
      h ← assign (set_right b_root) h (left na);
      nb ← deref h b_root;
      h ← assign (set_right a_root) h (left nb);
      na ← deref h a_root;
      let temp := left na in
      nb ← deref h b_root;
      h ← assign (set_left (left nb)) h a_root;
      h ← assign (set_left temp) h b_root;
      let h := set_nodes h (u32 (nodes h + nodes b)) in
      match min b, min h with
      | Some mb, Some ma =>
          nb ← deref h mb;
          na ← deref h ma;
          Ok (if key nb <? key na then set_min h (Some mb) else h)
      | _, _ => Aborted
      end
  end.
End operations.
Arguments fibnode A : clear implicits.
Arguments fibheap A : clear implicits.

(** ** Memory and circular lists *)

Section rings.
Context {A : Type}.
Implicit Types (m : gmap ptr (fibnode A)) (h : fibheap A) (n : fibnode A) (p q a b : ptr) (l : list ptr).

(** A field of a node. *)
Definition fld {X : Type} (g : fibnode A -> X) m p : option X := g <$> m !! p.

Lemma fld_alter_ne {X : Type} (g : fibnode A -> X) f m p q :
  q <> p -> fld g (alter f p m) q = fld g m q.
Proof. intros H. unfold fld. by rewrite lookup_alter_ne. Qed.

Lemma fld_alter_same {X : Type} (g : fibnode A -> X) f m p q :
  (forall n, g (f n) = g n) -> fld g (alter f p m) q = fld g m q.
Proof.
  intros H. unfold fld. destruct (decide (p = q)) as [->|]; [|by rewrite lookup_alter_ne].
  rewrite lookup_alter_eq. destruct (m !! q); [|done]. cbn. by rewrite H.
Qed.

Lemma fld_alter_eq {X : Type} (g : fibnode A -> X) f m p v :
  is_Some (m !! p) -> (forall n, g (f n) = v) -> fld g (alter f p m) p = Some v.
Proof. intros [n E] H. unfold fld. rewrite lookup_alter_eq, E. cbn. by rewrite H. Qed.

Lemma fld_Some {X : Type} (g : fibnode A -> X) m p v :
  fld g m p = Some v <-> exists n, m !! p = Some n /\ g n = v.
Proof. unfold fld. rewrite fmap_Some. naive_solver. Qed.

Lemma is_Some_alter f m p q : is_Some (m !! q) -> is_Some (alter f p m !! q).
Proof.
  intros [n E]. destruct (decide (p = q)) as [->|].
  - rewrite lookup_alter_eq, E. by eexists.
  - rewrite lookup_alter_ne by done. by eexists.
Qed.

Lemma deref_fld {X : Type} (g : fibnode A -> X) h p v :
  fld g (mem h) p = Some v -> exists n, deref h p = Ok n /\ mem h !! p = Some n /\ g n = v.
Proof. intros (n & E & Hg)%fld_Some. exists n. unfold deref. by rewrite E. Qed.

Lemma assign_ok f h p : is_Some (mem h !! p) -> assign f h p = Ok (with_mem h (alter f p (mem h))).
Proof.
  intros [n E]. unfold assign, deref. rewrite E. cbn. f_equal. f_equal.
  apply map_eq. intros q. destruct (decide (p = q)) as [->|].
  - by rewrite lookup_insert_eq, lookup_alter_eq, E.
  - by rewrite lookup_insert_ne, lookup_alter_ne.
Qed.

(** [b] follows [a] in a circular list. *)
Definition rlink m a b : Prop := fld right m a = Some b /\ fld left m b = Some a.

Fixpoint path m a l b : Prop :=
  match l with
  | [] => rlink m a b
  | c :: l => rlink m a c /\ path m c l b
  end.

Definition ring m l : Prop := match l with [] => True | a :: l => path m a l a end.

Lemma path_app m l1 : forall a c l2 b, path m a (l1 ++ c :: l2) b <-> path m a l1 c /\ path m c l2 b.
Proof.
  induction l1 as [|d l1 IH]; intros a c l2 b; cbn; [done|]. rewrite IH. tauto.
Qed.

Lemma path_ext m m' l : forall a b,
  (forall p, p ∈ a :: l -> fld right m' p = fld right m p) ->
  (forall p, p ∈ l ++ [b] -> fld left m' p = fld left m p) ->
  path m a l b -> path m' a l b.
Proof.
  induction l as [|c l IH]; intros a b Hr Hl; cbn.
  - intros [H1 H2]. split; [rewrite Hr by left; done|rewrite Hl by left; done].
  - intros [[H1 H2] H]. split.
    + split; [rewrite Hr by left; done|rewrite Hl by left; done].
    + apply IH; [| |done]; intros p Hp; [apply Hr|apply Hl]; by right.
Qed.

Lemma ring_ext m m' l :
  (forall p, p ∈ l -> fld right m' p = fld right m p /\ fld left m' p = fld left m p) ->
  ring m l -> ring m' l.
Proof.
  destruct l as [|a l]; [done|]. intros H. apply path_ext; intros p Hp; apply H; [done|].
  apply elem_of_app in Hp as [Hp| ->%list_elem_of_singleton]; [by right|by left].
Qed.

Lemma ring_rotate m l1 l2 : ring m (l1 ++ l2) -> ring m (l2 ++ l1).
Proof.
  destruct l1 as [|a l1], l2 as [|b l2]; cbn; rewrite ?app_nil_r; try done.
  rewrite !path_app. tauto.
Qed.

Lemma list_eq_nil_or_snoc l : l = [] \/ exists l' x, l = l' ++ [x].
Proof. destruct l using rev_ind; [by left|]. right. eauto. Qed.

Lemma ring_in m l p :
  p ∈ l -> ring m l -> exists a b, fld right m p = Some b /\ fld left m p = Some a /\ a ∈ l /\ b ∈ l.
Proof.
  intros (l1 & l2 & ->)%list_elem_of_split H%ring_rotate. cbn in H.
  destruct (list_eq_nil_or_snoc (l2 ++ l1)) as [E|(l & c & E)]; rewrite E in H; cbn in H.
  - apply app_nil in E as [-> ->]. destruct H. exists p, p. split_and!; (done || left).
  - apply path_app in H as [Hp [Hr Hl]]. exists c.
    assert (forall x, x ∈ p :: l ++ [c] -> x ∈ l1 ++ p :: l2) as Hin.
    { intros x. rewrite <-E, elem_of_cons, !elem_of_app, elem_of_cons. tauto. }
    assert (c ∈ l1 ++ p :: l2) by (apply Hin; right; apply elem_of_app; right; by left).
    destruct l as [|d l]; cbn in Hp.
    + exists c. destruct Hp. done.
    + exists d. destruct Hp as [[? ?] _]. split_and!; try done. apply Hin. right. left.
Qed.

Lemma ring_last m p l z : ring m (p :: l ++ [z]) -> fld left m p = Some z /\ fld right m z = Some p.
Proof. cbn. rewrite path_app. intros [_ [? ?]]. done. Qed.

Lemma ring_first m p c l : ring m (p :: c :: l) -> fld right m p = Some c.
Proof. cbn. by intros [[? _] _]. Qed.

Lemma ring_single m p : ring m [p] <-> fld right m p = Some p /\ fld left m p = Some p.
Proof. done. Qed.

(** *** Insertion *)

Definition links_only m m' : Prop := forall X (g : fibnode A -> X),
  (forall n v, g (set_left v n) = g n) -> (forall n v, g (set_right v n) = g n) ->
  forall p, fld g m' p = fld g m p.

Lemma links_only_refl m : links_only m m.
Proof. done. Qed.

Lemma links_only_trans m1 m2 m3 : links_only m1 m2 -> links_only m2 m3 -> links_only m1 m3.
Proof. intros H1 H2 X g Hl Hr p. by rewrite H2, H1. Qed.

Lemma links_only_left m p v : links_only m (alter (set_left v) p m).
Proof. intros X g Hl Hr q. by apply fld_alter_same. Qed.

Lemma links_only_right m p v : links_only m (alter (set_right v) p m).
Proof. intros X g Hl Hr q. by apply fld_alter_same. Qed.

Lemma links_only_alter m m' f p :
  (forall n v, f (set_left v n) = set_left v (f n)) -> (forall n v, f (set_right v n) = set_right v (f n)) ->
  links_only m m' -> links_only (alter f p m) (alter f p m').
Proof.
  intros Hl Hr H X g Hgl Hgr q. destruct (decide (q = p)) as [->|]; [|rewrite !fld_alter_ne by done; by apply H].
  unfold fld. rewrite !lookup_alter_eq.
  assert (fld (fun n => g (f n)) m' p = fld (fun n => g (f n)) m p) as E.
  { apply H; intros n v; [by rewrite Hl|by rewrite Hr]. }
  unfold fld in E. by destruct (m !! p), (m' !! p).
Qed.

Lemma links_only_live m m' p : links_only m m' -> is_Some (m !! p) -> is_Some (m' !! p).
Proof.
  intros H [n E]. specialize (H _ (fun _ => ()) (fun _ _ => eq_refl) (fun _ _ => eq_refl) p).
  unfold fld in H. rewrite E in H. destruct (m' !! p); [by eexists|done].
Qed.
End rings.

#[export] Hint Resolve links_only_refl links_only_left links_only_right : zfs.
#[export] Hint Resolve is_Some_alter : zfs.

(** Simplify the fields of altered nodes. *)
Ltac fib_fld :=
  repeat first
    [ rewrite fld_alter_same by done
    | rewrite fld_alter_ne by (done || congruence)
    | erewrite fld_alter_eq; [|by eauto 10 with zfs|intros ?; cbn; reflexivity] ].

Ltac fib_links :=
  repeat first
    [ apply links_only_refl
    | eapply links_only_trans; [|first [apply links_only_right | apply links_only_left]]
    | apply links_only_alter; [done|done|] ].

(** Execute an assignment through a pointer that is known to be live. *)
Ltac fib_assign := rewrite assign_ok by (cbn; eauto 10 with zfs); cbn [mbind res_bind].

Section ring_operations.
Context {A : Type}.
Implicit Types (m : gmap ptr (fibnode A)) (h : fibheap A) (n : fibnode A) (p q a b : ptr) (l : list ptr).

Lemma ring_live m l p : ring m l -> p ∈ l -> is_Some (m !! p).
Proof. intros H Hp. destruct (ring_in m l p Hp H) as (x & y & E & _). apply fld_Some in E as (n & -> & _). by eexists. Qed.

Lemma insert_after_ok h a b l :
  ring (mem h) (a :: l) -> NoDup (a :: l) -> b ∉ a :: l -> is_Some (mem h !! b) ->
  exists m', fibnode_insert_after h a b = Ok (with_mem h m') /\ ring m' (a :: b :: l) /\
    links_only (mem h) m' /\ (forall p, p ∉ a :: b :: l -> m' !! p = mem h !! p).
Proof.
  intros Hring Hnd Hb Hlive. apply NoDup_cons in Hnd as [Ha Hnd]. apply not_elem_of_cons in Hb as [Hba Hb].
  assert (is_Some (mem h !! a)) as Hla by (eapply ring_live; [done|left]).
  unfold fibnode_insert_after. destruct l as [|c l]; cbn [ring path] in Hring.
  - destruct Hring as [Hr Hl]. destruct (deref_fld _ _ _ _ Hr) as (na & -> & Ena & Hna). cbn [mbind res_bind].
    rewrite decide_True by done. do 4 fib_assign. eexists. split; [done|]. cbn [mem with_mem]. split_and!.
    + cbn. unfold rlink. by fib_fld.
    + intros X g ? ? p. by fib_fld.
    + intros p Hp. rewrite !lookup_alter_ne by set_solver. done.
  - destruct Hring as [[Hr Hl] Hpath]. apply not_elem_of_cons in Ha as [Hac Ha].
    apply not_elem_of_cons in Hb as [Hbc Hb]. apply NoDup_cons in Hnd as [Hc Hnd].
    assert (is_Some (mem h !! c)) as Hlc by (apply fld_Some in Hl as (? & ? & _); by eexists).
    destruct (deref_fld _ _ _ _ Hr) as (na & -> & Ena & Hna). cbn [mbind res_bind].
    rewrite decide_False by congruence. rewrite Hna. rewrite assign_ok by done. cbn [mbind res_bind].
    assert (fld right (alter (set_right c) b (mem h)) a = Some c) as Hr' by (rewrite fld_alter_ne by done; done).
    destruct (deref_fld _ (with_mem h (alter (set_right c) b (mem h))) _ _ Hr') as (na' & -> & _ & Hna').
    cbn [mbind res_bind]. rewrite Hna'. do 3 fib_assign. eexists. split; [done|]. cbn [mem with_mem]. split_and!.
    + cbn [ring path]. split; [|split].
      * unfold rlink. by fib_fld.
      * unfold rlink. by fib_fld.
      * eapply path_ext; [| |exact Hpath]; intros p Hp.
        -- assert (p <> a /\ p <> b) as [? ?] by (apply elem_of_cons in Hp as [->|Hp]; split; congruence).
           by fib_fld.
        -- assert (p <> c /\ p <> b) as [? ?].
           { apply elem_of_app in Hp as [Hp| ->%list_elem_of_singleton]; split; congruence. }
           by fib_fld.
    + intros X g ? ? p. by fib_fld.
    + intros p Hp. rewrite !lookup_alter_ne by set_solver. done.
Qed.

Lemma deref_two h p x y :
  fld right (mem h) p = Some x -> fld left (mem h) p = Some y ->
  exists n, deref h p = Ok n /\ right n = x /\ left n = y.
Proof.
  intros (n & E & Hx)%fld_Some (n' & E' & Hy)%fld_Some. exists n. unfold deref. rewrite E. by simplify_eq.
Qed.

Lemma splice_out_single h node :
  ring (mem h) [node] ->
  exists m', splice_out h node = Ok (with_mem h m') /\ ring m' [node] /\
    links_only (alter (set_parent None) node (mem h)) m' /\ (forall p, p <> node -> m' !! p = mem h !! p).
Proof.
  intros [Hr Hl]. assert (is_Some (mem h !! node)) as Hlive by (apply fld_Some in Hr as (? & ? & _); by eexists).
  unfold splice_out. destruct (deref_two _ _ _ _ Hr Hl) as (n & -> & E1 & E2). cbn [mbind res_bind].
  rewrite E1, E2. fib_assign.
  edestruct (deref_two (with_mem h (alter (set_left node) node (mem h))) node node node) as (n' & -> & E3 & E4);
    [cbn; by fib_fld|cbn; by fib_fld|]. cbn [mbind res_bind]. rewrite E3, E4. do 4 fib_assign.
  eexists. split; [done|]. cbn [mem with_mem]. split_and!.
  - cbn. unfold rlink. by fib_fld.
  - fib_links.
  - intros p Hp. by rewrite !lookup_alter_ne by done.
Qed.

Lemma splice_out_ok h node l z :
  ring (mem h) (node :: l ++ [z]) -> NoDup (node :: l ++ [z]) ->
  exists m', splice_out h node = Ok (with_mem h m') /\ ring m' [node] /\ ring m' (z :: l) /\
    links_only (alter (set_parent None) node (mem h)) m' /\
    (forall p, p ∉ node :: l ++ [z] -> m' !! p = mem h !! p).
Proof.
  intros Hring Hnd. assert (forall p, p ∈ node :: l ++ [z] -> is_Some (mem h !! p)) as Hlive.
  { intros p. by apply ring_live. }
  assert (is_Some (mem h !! node)) as Hln by (apply Hlive; left).
  assert (is_Some (mem h !! z)) as Hlz by (apply Hlive; right; apply elem_of_app; right; left).
  destruct (ring_last _ _ _ _ Hring) as [Hl Hrz].
  apply NoDup_cons in Hnd as [Hn Hnd]. apply NoDup_app in Hnd as (Hndl & Hzl & _).
  assert (node <> z) as Hnz by (intros ->; apply Hn; apply elem_of_app; right; left).
  set (c := match l with [] => z | c :: _ => c end).
  assert (fld right (mem h) node = Some c) as Hr by (destruct l; by apply ring_first in Hring).
  assert (c ∈ l ++ [z]) as Hc by (destruct l; left).
  assert (is_Some (mem h !! c)) as Hlc by (apply Hlive; by right).
  assert (node <> c) as Hnc by (intros ->; done).
  unfold splice_out. destruct (deref_two _ _ _ _ Hr Hl) as (n & -> & E1 & E2). cbn [mbind res_bind].
  rewrite E1, E2. fib_assign.
  edestruct (deref_two (with_mem h (alter (set_left z) c (mem h))) node c z) as (n' & -> & E3 & E4);
    [cbn; by fib_fld|cbn; by fib_fld|]. cbn [mbind res_bind]. rewrite E3, E4. do 4 fib_assign.
  eexists. split; [done|]. cbn [mem with_mem]. split_and!.
  - cbn. unfold rlink. by fib_fld.
  - destruct l as [|c' l]; cbn [ring path] in *; subst c.
    + unfold rlink. by fib_fld.
    + cbn [app path] in Hring. destruct Hring as [[H1 H2] [H3 _]%path_app].
      split; [unfold rlink; by fib_fld|].
      eapply path_ext; [| |exact H3]; intros p Hp.
      * assert (p <> z /\ p <> node) as [? ?].
        { split; [intros ->; apply (Hzl z); [done|left]|intros ->; apply Hn; apply elem_of_app; by left]. }
        by fib_fld.
      * assert (p <> c' /\ p <> node) as [? ?].
        { apply NoDup_cons in Hndl as [Hc' _]. apply elem_of_app in Hp as [Hp| ->%list_elem_of_singleton].
          - split; [congruence|intros ->; apply Hn; right; apply elem_of_app; by left].
          - split; [intros ->; apply (Hzl c'); left|done]. }
        by fib_fld.
  - fib_links.
  - intros p Hp. apply not_elem_of_cons in Hp as [? Hp]. rewrite !lookup_alter_ne; try done;
      intros ->; try done; apply Hp; apply elem_of_app; right; left.
Qed.
End ring_operations.

(** ** The size of a tree

    A node of degree [d] has at least [fib (d + 2)] descendants, itself included:
    the child that was linked as number [i] had degree [i] then and has lost at
    most one child since. *)

Fixpoint fibs (n : nat) : Z * Z :=
  match n with O => (0, 1) | S n => let '(a, b) := fibs n in (b, a + b) end.
Definition fib (n : nat) : Z := (fibs n).1.

Lemma fib_SS n : fib (S (S n)) = fib (S n) + fib n.
Proof. unfold fib. cbn [fibs]. destruct (fibs n) as [a b]. cbn. lia. Qed.

Lemma fib_pos n : 0 <= fib n /\ 1 <= fib (S n).
Proof. induction n as [|n IH]; [done|]. rewrite fib_SS. lia. Qed.

Lemma fib_mono n k : (n <= k)%nat -> fib (S n) <= fib (S k).
Proof.
  intros H. induction H as [|k H IH]; [done|]. rewrite fib_SS. pose proof (fib_pos k). lia.
Qed.

Section trees.
Context (kids : ptr -> list ptr).

Definition below : relation ptr := fun p q => q ∈ kids p.

Definition acyclic : Prop := exists ht : ptr -> nat, forall p q, p ∈ kids q -> (ht p < ht q)%nat.

Definition single_parent : Prop := forall p q q', p ∈ kids q -> p ∈ kids q' -> q = q'.

Lemma below_height (ht : ptr -> nat) p q :
  (forall p q, p ∈ kids q -> (ht p < ht q)%nat) -> rtc below p q -> (ht q <= ht p)%nat.
Proof. intros Hht. induction 1 as [|p r q Hpr _ IH]; [done|]. specialize (Hht _ _ Hpr). lia. Qed.

Lemma below_comparable a b q :
  single_parent -> rtc below a q -> rtc below b q -> rtc below a b \/ rtc below b a.
Proof.
  intros Hsp Ha. pattern q. revert q Ha. apply rtc_ind_r; [by right|]. intros r q Har Hrq IH Hb.
  apply rtc_inv_r in Hb as [->|(r' & Hb & Hr')]; [left; by eapply rtc_r|].
  apply IH. by rewrite (Hsp q r r').
Qed.

Lemma kids_disjoint p k1 k2 q :
  single_parent -> acyclic -> k1 ∈ kids p -> k2 ∈ kids p -> rtc below k1 q -> rtc below k2 q -> k1 = k2.
Proof.
  intros Hsp [ht Hht] H1 H2 Hq1 Hq2.
  assert (forall a b, a ∈ kids p -> b ∈ kids p -> rtc below a b -> a = b) as Hab.
  { intros a b Ha Hb Hr. apply rtc_inv_r in Hr as [|(r & Hr & Hrb)]; [done|].
    rewrite (Hsp b r p Hrb Hb) in Hr. pose proof (below_height ht _ _ Hht Hr). specialize (Hht _ _ Ha). lia. }
  destruct (below_comparable k1 k2 q); [done..|by apply Hab|symmetry; by apply Hab].
Qed.

(** The trees below the nodes of [l], which were linked in this order. *)
Lemma forest_size l (X : ptr -> gset ptr) :
  NoDup l ->
  (forall k k' q, k ∈ l -> k' ∈ l -> q ∈ X k -> q ∈ X k' -> k = k') ->
  (forall k, k ∈ l -> fib (length (kids k) + 2) <= Z.of_nat (size (X k))) ->
  (forall i k, l !! i = Some k -> (i <= length (kids k) + 1)%nat) ->
  exists U : gset ptr, (forall q, q ∈ U <-> exists k, k ∈ l /\ q ∈ X k) /\ fib (length l + 2) <= Z.of_nat (size U) + 1.
Proof.
  induction l as [|k l IH] using rev_ind; intros Hnd Hdis Hsz Hidx.
  - exists ∅. split; [|done]. intros q. split; [by intros ?%not_elem_of_empty|].
    intros (k & ?%not_elem_of_nil & _). done.
  - apply NoDup_app in Hnd as (Hnd & Hk & _). destruct IH as (U & HU & Hs); [done|..].
    + intros k1 k2 q H1 H2. apply Hdis; apply elem_of_app; by left.
    + intros k' Hk'. apply Hsz. apply elem_of_app. by left.
    + intros i k' Hi. apply Hidx. by apply lookup_app_l_Some.
    + assert (k ∈ l ++ [k]) as Hin by (apply elem_of_app; right; left).
      assert (U ## X k) as HUk.
      { intros q (k' & Hk' & Hq)%HU Hqk. assert (k' = k) as -> by (apply (Hdis k' k q); try done; apply elem_of_app; by left).
        apply (Hk k Hk'). left. }
      exists (U ∪ X k). split.
      { intros q. rewrite elem_of_union, HU. setoid_rewrite elem_of_app. setoid_rewrite list_elem_of_singleton. naive_solver. }
      rewrite size_union by done. specialize (Hsz k Hin).
      assert (length l <= length (kids k) + 1)%nat as Hi.
      { apply Hidx. rewrite lookup_app_r by done. by rewrite Nat.sub_diag. }
      rewrite length_app. cbn [length].
      replace (length l + 1 + 2)%nat with (S (S (length l + 1))) by lia. rewrite fib_SS.
      replace (S (length l + 1)) with (length l + 2)%nat by lia.
      assert (fib (length l + 1) <= fib (length (kids k) + 2)).
      { replace (length l + 1)%nat with (S (length l)) by lia.
        replace (length (kids k) + 2)%nat with (S (length (kids k) + 1)) by lia. by apply fib_mono. }
      lia.
Qed.

Definition loosely_ordered : Prop := forall p, exists l,
  l ≡ₚ kids p /\ forall i k, l !! i = Some k -> (i <= length (kids k) + 1)%nat.

Lemma tree_size :
  single_parent -> acyclic -> loosely_ordered -> (forall p, NoDup (kids p)) ->
  forall p, exists X : gset ptr, (forall q, q ∈ X <-> rtc below p q) /\ fib (length (kids p) + 2) <= Z.of_nat (size X).
Proof.
  intros Hsp Hac Hlo Hnd p. pose proof Hac as [ht Hht].
  remember (ht p) as n eqn:En. revert p En. induction (lt_wf n) as [n _ IH]. intros p ->.
  assert (forall k, exists X : gset ptr, k ∈ kids p ->
    (forall q, q ∈ X <-> rtc below k q) /\ fib (length (kids k) + 2) <= Z.of_nat (size X)) as Hk.
  { intros k. destruct (decide (k ∈ kids p)) as [Hk|Hk]; [|by exists ∅].
    destruct (IH (ht k) (Hht _ _ Hk) k eq_refl) as [X HX]. by exists X. }
  destruct (Hlo p) as (l & Hl & Hi).
  assert (exists X : ptr -> gset ptr, forall k, k ∈ l ->
    (forall q, q ∈ X k <-> rtc below k q) /\ fib (length (kids k) + 2) <= Z.of_nat (size (X k))) as [X HX].
  { clear Hi. assert (forall k, k ∈ l -> k ∈ kids p) as Hlp by (intros k; by rewrite Hl). clear Hl.
    induction l as [|k l IHl]; [exists (fun _ => ∅); by intros k ?%not_elem_of_nil|].
    destruct IHl as [X HX]; [intros k' Hk'; apply Hlp; by right|]. destruct (Hk k) as [Xk HXk].
    exists (<[k := Xk]> X). intros k' Hk'. destruct (decide (k = k')) as [->|].
    - rewrite fn_lookup_insert. apply HXk. apply Hlp. left.
    - rewrite fn_lookup_insert_ne by done. apply HX. apply elem_of_cons in Hk' as [->|]; done. }
  destruct (forest_size l X) as (U & HU & Hs).
  - rewrite Hl. apply Hnd.
  - intros k k' q Hkl Hkl' Hq Hq'. apply HX in Hq, Hq'; [|done|done]. rewrite Hl in Hkl, Hkl'.
    by apply (kids_disjoint p k k' q).
  - intros k Hkl. by apply HX.
  - done.
  - assert (p ∉ U) as HpU.
    { intros (k & Hkl & Hq)%HU. apply HX in Hq; [|done]. rewrite Hl in Hkl.
      pose proof (below_height ht _ _ Hht Hq). specialize (Hht _ _ Hkl). lia. }
    exists ({[p]} ∪ U). split.
    + intros q. rewrite elem_of_union, elem_of_singleton, HU. split.
      * intros [->|(k & Hkl & Hq)]; [done|]. apply HX in Hq; [|done]. rewrite Hl in Hkl. by eapply rtc_l.
      * intros [|(k & Hpk & Hq)]%rtc_inv; [by left|]. right. exists k. assert (k ∈ l) by by rewrite Hl. split; [done|]. by apply HX.
    + rewrite <-Hl, size_union, size_singleton by set_solver. lia.
Qed.
End trees.

(** ** Well-formed forests *)

Section shape.
Context {A : Type}.
Implicit Types (m : gmap ptr (fibnode A)) (h : fibheap A) (S : gset ptr) (p q : ptr)
  (roots loose : list ptr) (kids : ptr -> list ptr).

(** The nodes of [S] form a forest: [roots] is the root list, [kids q] the child
    list of [q], and [loose] holds nodes that are on no list (the array of
    [fibheap_consolidate], a node that was just created). *)
Record shape m S roots loose kids : Prop := {
  sh_live : forall p, p ∈ S -> is_Some (m !! p);
  sh_kid : forall p q, p ∈ kids q -> p ∈ S /\ q ∈ S /\ fld parent m p = Some (Some q);
  sh_root : forall p, p ∈ roots ++ loose -> p ∈ S /\ fld parent m p = Some None;
  sh_parent : forall p q, p ∈ S -> fld parent m p = Some (Some q) -> p ∈ kids q;
  sh_noparent : forall p, p ∈ S -> fld parent m p = Some None -> p ∈ roots ++ loose;
  sh_nodup : NoDup (roots ++ loose);
  sh_nodup_kids : forall q, NoDup (kids q);
  sh_ring : ring m roots;
  sh_ring_loose : forall p, p ∈ loose -> ring m [p];
  sh_ring_kids : forall q, ring m (kids q);
  sh_child : forall q, q ∈ S -> fld child m q = Some (head (kids q));
  sh_degree : forall q, q ∈ S -> fld degree m q = Some (Z.of_nat (length (kids q)));
  sh_acyclic : acyclic kids;
  sh_small : forall q, (length (kids q) < D)%nat
}.

Definition keyof m p : Z := default 0 (fld key m p).
Definition marked m p : nat := match fld mark m p with Some true => 1 | _ => 0 end.

(** Heap order, except between [bad] and its parent. *)
Definition ordered m kids (bad : option ptr) : Prop :=
  forall p q, p ∈ kids q -> Some p <> bad -> keyof m q <= keyof m p.

(** An unmarked child has lost no child since it was linked, a marked one has lost
    one; [exc] may have lost one more. *)
Definition marks m kids (exc : option ptr) : Prop := forall q, exists l, l ≡ₚ kids q /\
  forall i k, l !! i = Some k ->
    (i <= length (kids k) + marked m k + if decide (Some k = exc) then 1 else 0)%nat.

Lemma shape_links m m' S roots loose kids roots' loose' :
  shape m S roots loose kids -> links_only m m' -> roots' ++ loose' ≡ₚ roots ++ loose ->
  ring m' roots' -> (forall p, p ∈ loose' -> ring m' [p]) -> (forall q, ring m' (kids q)) ->
  shape m' S roots' loose' kids.
Proof.
  intros [] Hl Hp Hr1 Hr2 Hr3. split; try done.
  - intros p Hps. eapply links_only_live; [done|auto].
  - intros p q Hpq. rewrite (Hl _ parent) by done. auto.
  - intros p. rewrite Hp, (Hl _ parent) by done. auto.
  - intros p q. rewrite (Hl _ parent) by done. auto.
  - intros p. rewrite Hp, (Hl _ parent) by done. auto.
  - by rewrite Hp.
  - intros q. rewrite (Hl _ child) by done. auto.
  - intros q. rewrite (Hl _ degree) by done. auto.
Qed.

Lemma links_only_key m m' p : links_only m m' -> keyof m' p = keyof m p.
Proof. intros H. unfold keyof. by rewrite (H _ key). Qed.

Lemma links_only_marked m m' p : links_only m m' -> marked m' p = marked m p.
Proof. intros H. unfold marked. by rewrite (H _ mark). Qed.

Lemma root_not_kid m S roots loose kids p q :
  shape m S roots loose kids -> p ∈ roots ++ loose -> p ∉ kids q.
Proof.
  intros H Hp Hk. apply (sh_root _ _ _ _ _ H) in Hp as [_ Hp]. apply (sh_kid _ _ _ _ _ H) in Hk as (_ & _ & Hk).
  congruence.
Qed.

Lemma shape_single_parent m S roots loose kids : shape m S roots loose kids -> single_parent kids.
Proof.
  intros H p q q' H1 H2. apply (sh_kid _ _ _ _ _ H) in H1 as (_ & _ & H1), H2 as (_ & _ & H2). congruence.
Qed.

Lemma shape_perm m S roots loose kids loose' :
  shape m S roots loose kids -> loose ≡ₚ loose' -> shape m S roots loose' kids.
Proof.
  intros H Hp. eapply shape_links; try done; [by rewrite Hp|apply H| |apply H].
  intros p. rewrite <-Hp. apply H.
Qed.

Lemma degree_fib m S roots loose kids q :
  shape m S roots loose kids -> marks m kids None -> q ∈ S -> fib (length (kids q) + 2) <= Z.of_nat (size S).
Proof.
  intros H Hm Hq. destruct (tree_size kids) with (p := q) as (X & HX & Hf).
  - by eapply shape_single_parent.
  - by apply H.
  - intros p. destruct (Hm p) as (l & Hl & Hi). exists l. split; [done|]. intros i k Hk.
    specialize (Hi i k Hk). rewrite decide_False in Hi by done. unfold marked in Hi. destruct (fld mark m k) as [[]|]; lia.
  - by apply H.
  - assert (X ⊆ S) as HXS%subseteq_size; [|lia]. intros p Hp%HX. destruct (rtc_inv_r _ _ Hp) as [<-|(r & _ & Hr)]; [done|].
    by apply (sh_kid _ _ _ _ _ H) in Hr as (? & _).
Qed.

(** With 32-bit node counters the degree stays far below the size of the array. *)
Lemma degree_small m S roots loose kids q :
  shape m S roots loose kids -> marks m kids None -> Z.of_nat (size S) <= UINT32_MAX -> q ∈ S ->
  (length (kids q) < 46)%nat.
Proof.
  intros H Hm Hs Hq. pose proof (degree_fib _ _ _ _ _ _ H Hm Hq) as Hf.
  destruct (decide (length (kids q) < 46)%nat) as [|Hge]; [done|].
  assert (fib 48 <= fib (length (kids q) + 2)).
  { replace (length (kids q) + 2)%nat with (Datatypes.S (length (kids q) + 1)) by lia. apply fib_mono. lia. }
  assert (fib 48 = 4807526976) as E by (vm_compute; done). unfold UINT32_MAX in Hs. lia.
Qed.

(** *** The root list *)

Definition add_root p roots : list ptr := match roots with [] => [p] | r :: l => r :: p :: l end.

Lemma add_root_perm p roots : add_root p roots ≡ₚ p :: roots.
Proof. destruct roots; [done|]. apply Permutation_swap. Qed.

Lemma ins_root_ok h S roots loose kids p :
  shape (mem h) S roots (p :: loose) kids -> root h = head roots ->
  exists m', fibheap_ins_root h p = Ok (set_root (with_mem h m') (head (add_root p roots))) /\
    shape m' S (add_root p roots) loose kids /\ links_only (mem h) m' /\
    (forall q, q ∉ S -> m' !! q = mem h !! q).
Proof.
  intros H Hroot. unfold fibheap_ins_root. rewrite Hroot.
  assert (p ∈ roots ++ p :: loose) as Hp by (apply elem_of_app; right; left).
  destruct (sh_root _ _ _ _ _ H p Hp) as [HpS _]. pose proof (sh_live _ _ _ _ _ H p HpS) as Hlive.
  pose proof (sh_nodup _ _ _ _ _ H) as Hnd.
  destruct roots as [|r l]; cbn [head add_root] in *.
  - do 2 fib_assign. exists (alter (set_right p) p (alter (set_left p) p (mem h))). split; [done|]. cbn [mem with_mem set_root].
    assert (forall q, q <> p -> (alter (set_right p) p (alter (set_left p) p (mem h))) !! q = mem h !! q) as Hne.
    { intros q Hq. by rewrite !lookup_alter_ne by done. }
    split_and!; [|fib_links|intros q Hq; apply Hne; congruence].
    eapply shape_links; [exact H|fib_links|done|..].
    + cbn. unfold rlink. by fib_fld.
    + intros q Hq. eapply ring_ext; [|apply (sh_ring_loose _ _ _ _ _ H); by right].
      intros q' ->%list_elem_of_singleton. apply NoDup_cons in Hnd as [Hpl _]. unfold fld. rewrite Hne; [done|congruence].
    + intros q. eapply ring_ext; [|apply (sh_ring_kids _ _ _ _ _ H)].
      intros q' Hq'. unfold fld. rewrite Hne; [done|]. intros ->. by eapply root_not_kid.
  - apply NoDup_app in Hnd as (Hndr & Hdis & Hndp). apply NoDup_cons in Hndp as [Hpl _].
    assert (p ∉ r :: l) as Hpr by (intros Hin; apply (Hdis p Hin); left).
    destruct (insert_after_ok h r p l) as (m' & -> & Hring & Hlo & Hfr); [apply H|done..|].
    exists m'. split; [unfold set_root, with_mem; cbn; by rewrite Hroot|]. split_and!; [|done|].
    + eapply shape_links; [exact H|done|..].
      * rewrite (add_root_perm p (r :: l)). by rewrite <-Permutation_middle.
      * done.
      * intros q Hq. eapply ring_ext; [|apply (sh_ring_loose _ _ _ _ _ H); by right].
        intros q' ->%list_elem_of_singleton. unfold fld. rewrite Hfr; [done|].
        rewrite (add_root_perm p (r :: l)). apply not_elem_of_cons. split; [congruence|].
        intros Hin. apply (Hdis q Hin). by right.
      * intros q. eapply ring_ext; [|apply (sh_ring_kids _ _ _ _ _ H)].
        intros q' Hq'. unfold fld. rewrite Hfr; [done|]. rewrite (add_root_perm p (r :: l)). intros Hin.
        apply (root_not_kid _ _ _ _ _ q' q H); [|done].
        apply elem_of_cons in Hin as [->|]; [done|]. apply elem_of_app. by left.
    + intros q Hq. apply Hfr. rewrite (add_root_perm p (r :: l)). intros Hin. apply Hq.
      apply (sh_root _ _ _ _ _ H). apply elem_of_cons in Hin as [->|]; [done|]. apply elem_of_app. by left.
Qed.

(** *** Removal *)

Lemma splice_ok h node l :
  ring (mem h) (node :: l) -> NoDup (node :: l) ->
  exists m', splice_out h node = Ok (with_mem h m') /\ ring m' [node] /\ ring m' l /\
    links_only (alter (set_parent None) node (mem h)) m' /\ (forall p, p ∉ node :: l -> m' !! p = mem h !! p).
Proof.
  intros Hr Hnd. destruct (list_eq_nil_or_snoc l) as [->|(l' & z & ->)].
  - destruct (splice_out_single h node Hr) as (m' & E & H1 & H2 & H3). exists m'. split_and!; try done.
    intros p Hp. apply H3. intros ->. apply Hp. left.
  - destruct (splice_out_ok h node l' z Hr Hnd) as (m' & E & H1 & H2 & H3 & H4). exists m'. split_and!; try done.
    by apply (ring_rotate m' [z] l').
Qed.

Lemma ring_left_last m node l : ring m (node :: l) -> fld left m node = Some (default node (last l)).
Proof.
  intros Hr. destruct (list_eq_nil_or_snoc l) as [->|(l' & z & ->)]; [by destruct Hr|].
  rewrite last_snoc. by apply ring_last in Hr as [? _].
Qed.

Lemma last_rotation (l : list ptr) : exists l', head l' = last l /\ l' ≡ₚ l /\ forall m, ring m l -> ring m l'.
Proof.
  destruct (list_eq_nil_or_snoc l) as [->|(l' & z & ->)]; [by exists []|]. exists (z :: l').
  rewrite last_snoc. split_and!; [done|apply Permutation_cons_append|]. intros m. apply (ring_rotate m l' [z]).
Qed.

(** What [fibnode_remove] returns. *)
Lemma removed_ret (node : ptr) (l : list ptr) : node ∉ l ->
  (if decide (node = default node (last l)) then None else Some (default node (last l))) = last l.
Proof.
  intros Hn. destruct (last l) as [z|] eqn:E; cbn; [|by rewrite decide_True].
  rewrite decide_False; [done|]. intros ->. apply Hn. by apply last_Some_elem_of.
Qed.

Lemma alter_same (f : fibnode A -> fibnode A) m p :
  (forall n, m !! p = Some n -> f n = n) -> alter f p m = m.
Proof.
  intros Hf. apply map_eq. intros q. destruct (decide (p = q)) as [->|]; [|by rewrite lookup_alter_ne].
  rewrite lookup_alter_eq. destruct (m !! q) as [n|] eqn:E; [|done]. cbn. by rewrite Hf.
Qed.

Lemma set_parent_same m p v : fld parent m p = Some v -> alter (set_parent v) p m = m.
Proof.
  intros (n & E & Hn)%fld_Some. apply alter_same. intros n' E'. rewrite E in E'. injection E' as <-.
  destruct n. cbn in *. by subst.
Qed.

Lemma remove_root_ok h node l :
  ring (mem h) (node :: l) -> NoDup (node :: l) -> fld parent (mem h) node = Some None ->
  exists m', fibnode_remove h node = Ok (with_mem h m', last l) /\ ring m' [node] /\ ring m' l /\
    links_only (mem h) m' /\ (forall p, p ∉ node :: l -> m' !! p = mem h !! p).
Proof.
  intros Hr Hnd Hp. pose proof (ring_left_last _ _ _ Hr) as Hl.
  destruct (splice_ok h node l Hr Hnd) as (m' & E & H1 & H2 & H3 & H4). apply NoDup_cons in Hnd as [Hn _].
  unfold fibnode_remove. destruct (deref_fld _ _ _ _ Hl) as (n & -> & En & Hnl). cbn [mbind res_bind].
  rewrite Hnl, removed_ret by done. apply fld_Some in Hp as (n' & En' & Hp). rewrite En in En'. injection En' as <-.
  rewrite Hp. cbn [mbind res_bind]. rewrite E. cbn [mbind res_bind]. exists m'.
  rewrite set_parent_same in H3 by (apply fld_Some; eauto). done.
Qed.

Lemma rem_root_ring h roots p :
  ring (mem h) roots -> NoDup roots -> p ∈ roots -> fld parent (mem h) p = Some None ->
  exists m' roots', fibheap_rem_root h p = Ok (set_root (with_mem h m') (head roots')) /\
    ring m' [p] /\ ring m' roots' /\ p :: roots' ≡ₚ roots /\ links_only (mem h) m' /\
    (forall q, q ∉ roots -> m' !! q = mem h !! q).
Proof.
  intros Hring Hnd (l1 & l2 & ->)%list_elem_of_split Hpar. set (l := l2 ++ l1).
  assert (l1 ++ p :: l2 ≡ₚ p :: l) as Hperm by (unfold l; rewrite <-Permutation_middle; f_equiv; apply Permutation_app_comm).
  rewrite Hperm in Hnd. apply (ring_rotate _ l1 (p :: l2)) in Hring. change ((p :: l2) ++ l1) with (p :: l) in Hring.
  unfold fibheap_rem_root. destruct (deref_fld _ _ _ _ (ring_left_last _ _ _ Hring)) as (n & -> & En & Hn).
  cbn [mbind res_bind]. rewrite Hn. destruct (last l) as [z|] eqn:El; cbn.
  - assert (z ∈ l) as Hz by by apply last_Some_elem_of. pose proof Hnd as [Hpl _]%NoDup_cons.
    rewrite decide_False by (intros ->; done).
    destruct (remove_root_ok h p l) as (m' & -> & H1 & H2 & H3 & H4); [done..|].
    destruct (last_rotation l) as (l' & Hl1 & Hl2 & Hl3). cbn [mbind res_bind]. exists m', l'.
    split_and!; [by rewrite Hl1|done|by apply Hl3|by rewrite Hl2, Hperm|done|]. intros q Hq. apply H4. by rewrite <-Hperm.
  - rewrite decide_True by done. apply last_None in El. rewrite El in *. by exists (mem h), [].
Qed.

Lemma rem_root_ok h S roots loose kids p :
  shape (mem h) S roots loose kids -> p ∈ roots ->
  exists m' roots', fibheap_rem_root h p = Ok (set_root (with_mem h m') (head roots')) /\
    shape m' S roots' (p :: loose) kids /\ p :: roots' ≡ₚ roots /\ links_only (mem h) m' /\
    (forall q, q ∉ S -> m' !! q = mem h !! q).
Proof.
  intros H Hp. destruct (sh_root _ _ _ _ _ H p) as [HpS Hpar]; [apply elem_of_app; by left|].
  pose proof (sh_nodup _ _ _ _ _ H) as (Hnd & Hdis & _)%NoDup_app.
  destruct (rem_root_ring h roots p) as (m' & roots' & -> & H1 & H2 & Hperm & Hlo & Hfr); [apply H|done..|].
  exists m', roots'. split_and!; [done| |done|done|].
  - eapply shape_links; [exact H|done|..]; [by rewrite <-Hperm, <-Permutation_middle|done| |].
    + intros q [->|Hq]%elem_of_cons; [done|]. eapply ring_ext; [|by apply (sh_ring_loose _ _ _ _ _ H)].
      intros q' ->%list_elem_of_singleton. unfold fld. rewrite Hfr; [done|]. intros Hin. by apply (Hdis q).
    + intros q. eapply ring_ext; [|apply (sh_ring_kids _ _ _ _ _ H)]. intros q' Hq'. unfold fld.
      rewrite Hfr; [done|]. intros Hin. apply (root_not_kid _ _ _ _ _ q' q H); [|done]. apply elem_of_app. by left.
  - intros q Hq. apply Hfr. intros Hin. apply Hq. apply (sh_root _ _ _ _ _ H), elem_of_app. by left.
Qed.

(** *** Taking a node off a child list *)

Lemma set_child_same m p v : fld child m p = Some v -> alter (set_child v) p m = m.
Proof.
  intros (n & E & Hn)%fld_Some. apply alter_same. intros n' E'. rewrite E in E'. injection E' as <-.
  destruct n. cbn in *. by subst.
Qed.

Lemma ring_alter m l (f : fibnode A -> fibnode A) q :
  (forall n, right (f n) = right n) -> (forall n, left (f n) = left n) -> ring m l -> ring (alter f q m) l.
Proof. intros H1 H2. apply ring_ext. intros p _. by rewrite !fld_alter_same by done. Qed.

Lemma remove_kid_ok h node q l1 l2 :
  ring (mem h) (l1 ++ node :: l2) -> NoDup (l1 ++ node :: l2) -> q ∉ l1 ++ node :: l2 ->
  fld parent (mem h) node = Some (Some q) -> fld child (mem h) q = Some (head (l1 ++ node :: l2)) ->
  exists m' kq r, fibnode_remove h node = Ok (with_mem h m', r) /\ node :: kq ≡ₚ l1 ++ node :: l2 /\
    ring m' [node] /\ ring m' kq /\
    links_only (alter (set_parent None) node (alter (set_child (head kq)) q (mem h))) m' /\
    (forall p, p ∉ l1 ++ node :: l2 -> m' !! p = alter (set_child (head kq)) q (mem h) !! p).
Proof.
  intros Hr Hnd Hq Hpar Hch.
  assert (l1 ++ node :: l2 ≡ₚ node :: l2 ++ l1) as Hperm by (rewrite <-Permutation_middle; f_equiv; apply Permutation_app_comm).
  assert (NoDup (node :: l2 ++ l1)) as Hndl by by rewrite <-Hperm.
  assert (node ∉ l2 ++ l1) as Hn by by apply NoDup_cons in Hndl as [? _].
  apply (ring_rotate _ l1 (node :: l2)) in Hr. rewrite <-app_comm_cons in Hr.
  unfold fibnode_remove. destruct (deref_fld _ _ _ _ (ring_left_last _ _ _ Hr)) as (n & -> & En & Hnl). cbn [mbind res_bind].
  rewrite Hnl, removed_ret by done.
  assert (parent n = Some q) as -> by (apply fld_Some in Hpar as (n' & En' & Hp); congruence).
  destruct (deref_fld _ _ _ _ Hch) as (nq & -> & Enq & Hnq). cbn [mbind res_bind]. rewrite Hnq.
  assert (exists kq, kq ≡ₚ l2 ++ l1 /\ (forall m, ring m (l2 ++ l1) -> ring m kq) /\
    (if decide (head (l1 ++ node :: l2) = Some node) then assign (set_child (last (l2 ++ l1))) h q else Ok h) =
    Ok (with_mem h (alter (set_child (head kq)) q (mem h)))) as (kq & Hkq & Hrot & ->).
  { destruct l1 as [|c l1]; cbn [app head].
    - destruct (last_rotation l2) as (l' & E1 & E2 & E3). exists l'. rewrite app_nil_r, decide_True, E1 by done.
      split_and!; [done|done|]. by rewrite assign_ok by by eexists.
    - exists ((c :: l1) ++ l2). split_and!; [by rewrite Permutation_app_comm|intros m; apply ring_rotate|].
      rewrite decide_False. 2:{ intros [= ->]. apply Hn, elem_of_app. right. left. }
      cbn [app head]. rewrite set_child_same by done. by destruct h. }
  cbn [mbind res_bind].
  destruct (splice_ok (with_mem h (alter (set_child (head kq)) q (mem h))) node (l2 ++ l1)) as (m' & -> & H1 & H2 & H3 & H4);
    [by apply (ring_alter _ (node :: l2 ++ l1))|done|]. cbn [mbind res_bind].
  eexists m', kq, _. split_and!; [done|by rewrite Hkq, Hperm|done|auto|done|].
  intros p Hp. apply H4. by rewrite <-Hperm.
Qed.

Definition kd (n : fibnode A) : Z * A := (key n, data n).

(** The contents are the same. *)
Definition same_data m m' : Prop := forall p, fld kd m' p = fld kd m p.

Lemma same_data_key m m' p : same_data m m' -> keyof m' p = keyof m p.
Proof.
  intros H. specialize (H p). unfold keyof, fld in *. by destruct (m !! p), (m' !! p); simplify_eq.
Qed.

Lemma links_only_data m m' : links_only m m' -> same_data m m'.
Proof. intros H p. by apply H. Qed.

Lemma same_data_trans m1 m2 m3 : same_data m1 m2 -> same_data m2 m3 -> same_data m1 m3.
Proof. intros H1 H2 p. by rewrite H2, H1. Qed.

(** Everything about a node that changes when it loses a child. *)
Lemma kids_insert (kids : ptr -> list ptr) y kq p q :
  p ∈ (<[y := kq]> kids) q <-> (q = y /\ p ∈ kq) \/ (q <> y /\ p ∈ kids q).
Proof.
  destruct (decide (q = y)) as [->|]; [rewrite fn_lookup_insert|rewrite fn_lookup_insert_ne by done]; naive_solver.
Qed.

Lemma length_wrap_31 (n : nat) : (n < D)%nat -> wrap 31 (Z.of_nat n) = Z.of_nat n.
Proof. unfold D. intros. apply wrap_small. lia. Qed.

(** The memory after [node] was taken off the child list of [y]. *)
Record detached m m' (node y : ptr) (old kq : list ptr) : Prop := {
  dt_parent : forall p, fld parent m' p = if decide (p = node) then Some None else fld parent m p;
  dt_child : forall p, fld child m' p = if decide (p = y) then Some (head kq) else fld child m p;
  dt_degree : forall p, fld degree m' p = if decide (p = y) then Some (Z.of_nat (length kq)) else fld degree m p;
  dt_data : same_data m m';
  dt_mark : forall p, fld mark m' p = fld mark m p;
  dt_links : forall p, p ∉ old -> fld right m' p = fld right m p /\ fld left m' p = fld left m p;
  dt_rest : forall p, p ∉ y :: old -> m' !! p = m !! p
}.

Lemma detach_memory h S roots loose kids node y :
  shape (mem h) S roots loose kids -> node ∈ kids y ->
  exists m' kq, ('(h, _) ← fibnode_remove h node; assign (add_degree (-1)) h y) = Ok (with_mem h m') /\
    node :: kq ≡ₚ kids y /\ ring m' [node] /\ ring m' kq /\ detached (mem h) m' node y (kids y) kq.
Proof.
  intros H Hn. destruct (sh_kid _ _ _ _ _ H _ _ Hn) as (HnS & HyS & Hpar).
  pose proof (sh_child _ _ _ _ _ H y HyS) as Hch. pose proof (sh_degree _ _ _ _ _ H y HyS) as Hdeg.
  pose proof (sh_small _ _ _ _ _ H y) as Hsm.
  assert (y ∉ kids y) as Hyy. { destruct (sh_acyclic _ _ _ _ _ H) as [ht Hht]. intros Hin. specialize (Hht _ _ Hin). lia. }
  assert (node <> y) as Hny by congruence.
  pose proof Hn as (l1 & l2 & E)%list_elem_of_split.
  destruct (remove_kid_ok h node y l1 l2) as (m1 & kq & r & -> & Hkq & Hr1 & Hr2 & Hlo & Hfr);
    rewrite <-?E; [apply H|apply H|done|done|done|]. rewrite <-E in Hkq, Hfr. cbn [mbind res_bind].
  pose proof (sh_live _ _ _ _ _ H y HyS) as Hly. pose proof (sh_live _ _ _ _ _ H node HnS) as Hln.
  assert (is_Some (m1 !! y)) as Hl1 by (eapply links_only_live; [exact Hlo|eauto with zfs]).
  rewrite assign_ok by done. eexists _, kq. split; [done|]. cbn [mem with_mem].
  assert (forall f, (alter f y m1) !! y = f <$> m1 !! y) as Hay by (intros f; apply lookup_alter_eq).
  split_and!; [done|by apply ring_alter|by apply ring_alter|]. split; cbn [mem with_mem].
  - intros p. rewrite fld_alter_same, (Hlo _ parent) by done. case_decide as Hp; [subst; by fib_fld|by fib_fld].
  - intros p. rewrite fld_alter_same, (Hlo _ child), fld_alter_same by done. case_decide as Hp; [subst; by fib_fld|by fib_fld].
  - intros p. case_decide as Hp; [subst p|rewrite fld_alter_ne, (Hlo _ degree) by done; by fib_fld].
    apply fld_Some in Hdeg as (n & En & Hdeg).
    assert (fld degree m1 y = Some (degree n)) as (n1 & En1 & Hd1)%fld_Some.
    { rewrite (Hlo _ degree) by done. fib_fld. apply fld_Some. eauto. }
    unfold fld. rewrite Hay, En1. cbn. rewrite Hd1, Hdeg, <-Hkq. cbn [length].
    f_equal. replace (Z.of_nat (Datatypes.S (length kq)) + -1) with (Z.of_nat (length kq)) by lia.
    apply length_wrap_31. rewrite <-Hkq in Hsm. cbn in Hsm. lia.
  - intros p. rewrite fld_alter_same, (Hlo _ kd), !fld_alter_same by done. done.
  - intros p. rewrite fld_alter_same, (Hlo _ mark), !fld_alter_same by done. done.
  - intros p Hp. rewrite !(fld_alter_same _ (add_degree _)) by done. unfold fld. rewrite !Hfr by done.
    fold (fld right (alter (set_child (head kq)) y (mem h)) p) (fld left (alter (set_child (head kq)) y (mem h)) p).
    by rewrite !fld_alter_same by done.
  - intros p [Hpy Hp]%not_elem_of_cons. rewrite lookup_alter_ne, Hfr, lookup_alter_ne by done. done.
Qed.

Lemma detach_shape m m' S roots loose kids node y kq :
  shape m S roots loose kids -> node ∈ kids y -> node :: kq ≡ₚ kids y -> ring m' [node] -> ring m' kq ->
  detached m m' node y (kids y) kq -> shape m' S roots (node :: loose) (<[y := kq]> kids).
Proof.
  intros H Hn Hkq Hr1 Hr2 [Dp Dc Dd Da _ Dl _]. destruct (sh_kid _ _ _ _ _ H _ _ Hn) as (HnS & HyS & Hpar).
  assert (NoDup (node :: kq)) as Hnd by (rewrite Hkq; apply H). apply NoDup_cons in Hnd as [Hnk Hnd].
  assert (forall p, p ∈ kq -> p ∈ kids y) as Hin by (intros p Hp; rewrite <-Hkq; by right).
  assert (node ∉ roots ++ loose) as Hnr by (intros Hc; by eapply root_not_kid).
  assert (forall l, (forall p, p ∈ l -> p ∉ kids y) -> ring m l -> ring m' l) as Hring.
  { intros l Hl. apply ring_ext. intros p Hp. apply Dl. auto. }
  pose proof (shape_single_parent _ _ _ _ _ H) as Hsp. split.
  - intros p Hp. apply (sh_live _ _ _ _ _ H) in Hp as [n E]. specialize (Da p). unfold fld in Da. rewrite E in Da.
    destruct (m' !! p); [by eexists|done].
  - intros p q Hpq. rewrite Dp. apply kids_insert in Hpq as [[-> Hp]|[Hq Hp]].
    + rewrite decide_False by congruence. apply (sh_kid _ _ _ _ _ H). auto.
    + rewrite decide_False; [by apply (sh_kid _ _ _ _ _ H)|]. intros ->. apply Hq. by eapply Hsp.
  - intros p. rewrite Dp, <-Permutation_middle, elem_of_cons. case_decide as Hp; [by subst|].
    intros [?|Hin']; [done|]. by apply (sh_root _ _ _ _ _ H).
  - intros p q HpS. rewrite Dp. case_decide as Hp; [done|]. intros Hpq%(sh_parent _ _ _ _ _ H); [|done].
    apply kids_insert. destruct (decide (q = y)) as [->|]; [left|by right]. split; [done|].
    rewrite <-Hkq in Hpq. by apply elem_of_cons in Hpq as [?|?].
  - intros p HpS. rewrite Dp, <-Permutation_middle, elem_of_cons. case_decide as Hp; [by left|].
    right. by apply (sh_noparent _ _ _ _ _ H).
  - rewrite <-Permutation_middle. apply NoDup_cons. split; [done|apply H].
  - intros q. destruct (decide (q = y)) as [->|]; [by rewrite fn_lookup_insert|rewrite fn_lookup_insert_ne by done; apply H].
  - apply Hring; [|apply H]. intros p Hp. eapply root_not_kid; [done|]. apply elem_of_app. by left.
  - intros p [->|Hp]%elem_of_cons; [done|]. apply Hring; [|by apply (sh_ring_loose _ _ _ _ _ H)].
    intros p' ->%list_elem_of_singleton. eapply root_not_kid; [done|]. apply elem_of_app. by right.
  - intros q. destruct (decide (q = y)) as [->|Hq]; [by rewrite fn_lookup_insert|rewrite fn_lookup_insert_ne by done].
    apply Hring; [|apply H]. intros p Hp Hpy. apply Hq. by eapply Hsp.
  - intros q Hq. rewrite Dc. case_decide as E; [subst; by rewrite fn_lookup_insert|rewrite fn_lookup_insert_ne by done; by apply H].
  - intros q Hq. rewrite Dd. case_decide as E; [subst; by rewrite fn_lookup_insert|rewrite fn_lookup_insert_ne by done; by apply H].
  - destruct (sh_acyclic _ _ _ _ _ H) as [ht Hht]. exists ht. intros p q [[-> Hp]|[_ Hp]]%kids_insert; auto.
  - intros q. pose proof (sh_small _ _ _ _ _ H q) as Hs. destruct (decide (q = y)) as [->|].
    + rewrite fn_lookup_insert. rewrite <-Hkq in Hs. cbn in Hs. lia.
    + by rewrite fn_lookup_insert_ne.
Qed.

(** *** Cuts *)

Lemma shape_alter m S roots loose kids (f : fibnode A -> fibnode A) p :
  (forall n, parent (f n) = parent n) -> (forall n, child (f n) = child n) -> (forall n, left (f n) = left n) ->
  (forall n, right (f n) = right n) -> (forall n, degree (f n) = degree n) ->
  shape m S roots loose kids -> shape (alter f p m) S roots loose kids.
Proof.
  intros H1 H2 H3 H4 H5 []. split; try done.
  - intros q Hq. eauto with zfs.
  - intros q r Hq. rewrite fld_alter_same by done. auto.
  - intros q Hq. rewrite fld_alter_same by done. auto.
  - intros q r Hq. rewrite fld_alter_same by done. auto.
  - intros q Hq. rewrite fld_alter_same by done. auto.
  - by apply ring_alter.
  - intros q Hq. apply ring_alter; auto.
  - intros q. by apply ring_alter.
  - intros q Hq. rewrite fld_alter_same by done. auto.
  - intros q Hq. rewrite fld_alter_same by done. auto.
Qed.

Lemma cut_ok h S roots loose kids node y :
  shape (mem h) S roots loose kids -> node ∈ kids y -> root h = head roots ->
  exists m' kq, fibheap_cut h node y = Ok (set_root (with_mem h m') (head (add_root node roots))) /\
    shape m' S (add_root node roots) loose (<[y := kq]> kids) /\ node :: kq ≡ₚ kids y /\
    same_data (mem h) m' /\ (forall p, marked m' p = if decide (p = node) then 0%nat else marked (mem h) p) /\
    (forall q, q ∉ S -> m' !! q = mem h !! q).
Proof.
  intros H Hn Hroot. destruct (detach_memory _ _ _ _ _ _ _ H Hn) as (m1 & kq & E & Hkq & Hr1 & Hr2 & Hd).
  pose proof (detach_shape _ _ _ _ _ _ _ _ _ H Hn Hkq Hr1 Hr2 Hd) as H1.
  destruct (sh_kid _ _ _ _ _ H _ _ Hn) as (HnS & HyS & _).
  unfold fibheap_cut. destruct (fibnode_remove h node) as [[h1 r]| |]; cbn [mbind res_bind] in E |- *; try done.
  rewrite E. cbn [mbind res_bind].
  destruct (ins_root_ok (with_mem h m1) S roots loose (<[y := kq]> kids) node) as (m2 & -> & H2 & Hlo & Hfr); [done|done|].
  cbn [mbind res_bind mem with_mem] in *. pose proof (sh_live _ _ _ _ _ H2 node HnS) as Hl2.
  rewrite assign_ok by done. cbn [mbind res_bind mem with_mem set_root].
  assert (fld parent m2 node = Some None) as Hpar.
  { rewrite (Hlo _ parent) by done. rewrite (dt_parent _ _ _ _ _ _ Hd). by rewrite decide_True. }
  rewrite set_parent_same by done. rewrite assign_ok by done.
  exists (alter (set_mark false) node m2), kq. split_and!; [done|by apply shape_alter|done|..].
  - intros p. rewrite fld_alter_same by done. rewrite (Hlo _ kd) by done. apply Hd.
  - intros p. unfold marked. case_decide as Hp; [subst; by fib_fld|]. rewrite fld_alter_ne by done.
    rewrite (Hlo _ mark) by done. by rewrite (dt_mark _ _ _ _ _ _ Hd).
  - intros q Hq. rewrite lookup_alter_ne by congruence. cbn in Hfr. rewrite Hfr by done.
    apply (dt_rest _ _ _ _ _ _ Hd). apply not_elem_of_cons. split; [congruence|]. intros Hin. apply Hq.
    by apply (sh_kid _ _ _ _ _ H) in Hin as (? & _).
Qed.

Lemma marks_cut m m' S roots loose kids node y kq (exc : option ptr) :
  shape m S roots loose kids -> node ∈ kids y -> node :: kq ≡ₚ kids y -> (exc = None \/ exc = Some node) ->
  (forall p, marked m' p = if decide (p = node) then 0%nat else marked m p) ->
  marks m kids exc -> marks m' (<[y := kq]> kids) (Some y).
Proof.
  intros H Hn Hkq Hexc Hmk Hm q. pose proof (shape_single_parent _ _ _ _ _ H) as Hsp.
  assert (y ∉ kids y) as Hyy. { destruct (sh_acyclic _ _ _ _ _ H) as [ht Hht]. intros Hin. specialize (Hht _ _ Hin). lia. }
  assert (NoDup (node :: kq)) as Hnd by (rewrite Hkq; apply H). apply NoDup_cons in Hnd as [Hnk Hnd].
  destruct (Hm q) as (l & Hl & Hi).
  assert (forall i i' k, (i' <= i)%nat -> k <> node -> l !! i = Some k ->
    (i' <= length ((<[y := kq]> kids) k) + marked m' k + if decide (Some k = Some y) then 1 else 0)%nat) as Hstep.
  { intros i i' k Hi' Hk Hik. specialize (Hi i k Hik). rewrite Hmk, decide_False by done.
    assert ((if decide (Some k = exc) then 1 else 0)%nat = 0%nat) as E0.
    { rewrite decide_False; [done|]. destruct Hexc as [-> | ->]; congruence. }
    rewrite E0 in Hi. destruct (decide (k = y)) as [->|Hky].
    - rewrite fn_lookup_insert, decide_True by done. rewrite <-Hkq in Hi. cbn [length] in Hi. lia.
    - rewrite fn_lookup_insert_ne, decide_False by congruence. lia. }
  destruct (decide (q = y)) as [->|Hq].
  - assert (node ∈ l) as (la & lb & ->)%list_elem_of_split by by rewrite Hl.
    exists (la ++ lb). rewrite fn_lookup_insert. split.
    { apply (Permutation_cons_inv (a := node)). by rewrite Hkq, <-Hl, <-Permutation_middle. }
    assert (NoDup (la ++ node :: lb)) as Hndl by (rewrite Hl; apply H).
    rewrite <-Permutation_middle in Hndl. apply NoDup_cons in Hndl as [Hnl _].
    intros i k Hik. assert (k <> node) as Hkn. { intros ->. apply Hnl. by apply list_elem_of_lookup_2 in Hik. }
    destruct (decide (i < length la)%nat).
    + apply (Hstep i); [done|done|]. rewrite lookup_app_l in * by done. done.
    + apply (Hstep (Datatypes.S i)); [lia|done|]. rewrite lookup_app_r in * by lia.
      rewrite Nat.sub_succ_l by lia. done.
  - exists l. rewrite fn_lookup_insert_ne by done. split; [done|]. intros i k Hik. apply (Hstep i); [done| |done].
    intros ->. apply Hq. apply (Hsp node q y); [|done]. rewrite <-Hl. by apply list_elem_of_lookup_2 in Hik.
Qed.

Lemma marks_weaken m kids exc : marks m kids None -> marks m kids exc.
Proof.
  intros Hm q. destruct (Hm q) as (l & Hl & Hi). exists l. split; [done|]. intros i k Hk. specialize (Hi i k Hk).
  rewrite decide_False in Hi by done. lia.
Qed.

(** A root is on no child list, so what it lost does not count. *)
Lemma marks_root m S roots loose kids y :
  shape m S roots loose kids -> y ∈ roots ++ loose -> marks m kids (Some y) -> marks m kids None.
Proof.
  intros H Hy Hm q. destruct (Hm q) as (l & Hl & Hi). exists l. split; [done|]. intros i k Hk. specialize (Hi i k Hk).
  rewrite decide_False in Hi; [done|]. intros [= ->]. apply (root_not_kid _ _ _ _ _ y q H Hy).
  rewrite <-Hl. by apply list_elem_of_lookup_2 in Hk.
Qed.

Lemma marks_mark m kids y :
  is_Some (m !! y) -> fld mark m y = Some false -> marks m kids (Some y) -> marks (alter (set_mark true) y m) kids None.
Proof.
  intros Hl Hf Hm q. destruct (Hm q) as (l & Hl' & Hi). exists l. split; [done|]. intros i k Hk. specialize (Hi i k Hk).
  unfold marked in *. destruct (decide (k = y)) as [->|].
  - rewrite decide_True in Hi by done. rewrite Hf in Hi. fib_fld. cbn. lia.
  - rewrite decide_False in Hi by congruence. rewrite fld_alter_ne by done. lia.
Qed.

Lemma ordered_sub m m' kids kids' bad :
  same_data m m' -> (forall p q, p ∈ kids' q -> p ∈ kids q /\ Some p <> bad) -> ordered m kids bad -> ordered m' kids' None.
Proof. intros Hd Hk Ho p q Hpq _. rewrite !(same_data_key _ _ _ Hd). apply Hk in Hpq as [??]. by apply Ho. Qed.

Lemma roots_bound m S roots loose kids : shape m S roots loose kids -> (length roots <= size S)%nat.
Proof.
  intros H. pose proof (sh_nodup _ _ _ _ _ H) as Hnd. apply NoDup_app in Hnd as (Hnd & _).
  rewrite <-(size_list_to_set (C := gset ptr)) by done. apply subseteq_size. intros p Hp%elem_of_list_to_set.
  apply (sh_root _ _ _ _ _ H), elem_of_app. by left.
Qed.

Lemma cascading_cut_ok fuel : forall h S roots loose kids y,
  shape (mem h) S roots loose kids -> marks (mem h) kids (Some y) -> ordered (mem h) kids None ->
  y ∈ S -> root h = head roots -> (size S < fuel + length roots)%nat ->
  exists m' roots' kids', fibheap_cascading_cut fuel h y = Ok (set_root (with_mem h m') (head roots')) /\
    shape m' S roots' loose kids' /\ marks m' kids' None /\ ordered m' kids' None /\ same_data (mem h) m' /\
    (forall p, p ∈ roots -> p ∈ roots') /\ (forall q, q ∉ S -> m' !! q = mem h !! q).
Proof.
  induction fuel as [|fuel IH]; intros h S roots loose kids y H Hm Ho Hy Hroot Hfuel;
    [pose proof (roots_bound _ _ _ _ _ H); lia|].
  cbn [fibheap_cascading_cut]. destruct (sh_live _ _ _ _ _ H y Hy) as [n En]. unfold deref. rewrite En. cbn [mbind res_bind].
  assert (fld parent (mem h) y = Some (parent n)) as Hpar by (apply fld_Some; eauto).
  assert (fld mark (mem h) y = Some (mark n)) as Hmk by (apply fld_Some; eauto).
  destruct (parent n) as [z|].
  - apply (sh_parent _ _ _ _ _ H) in Hpar; [|done]. destruct (mark n) eqn:Emk.
    + destruct (cut_ok h S roots loose kids y z) as (m' & kq & -> & H' & Hkq & Hd & Hmk' & Hfr); [done..|].
      cbn [mbind res_bind]. destruct (sh_kid _ _ _ _ _ H _ _ Hpar) as (_ & HzS & _).
      assert (y ∉ kq) as Hyk.
      { assert (NoDup (y :: kq)) as Hnd by (rewrite Hkq; apply H). by apply NoDup_cons in Hnd as [? _]. }
      edestruct (IH (set_root (with_mem h m') (head (add_root y roots))) S (add_root y roots) loose (<[z := kq]> kids) z)
        as (m2 & roots2 & kids2 & -> & H2 & Hm2 & Ho2 & Hd2 & Hr2 & Hfr2); [done| | |done|done| |].
      * eapply marks_cut; [exact H|exact Hpar|exact Hkq| |done|exact Hm]. by right.
      * eapply ordered_sub; [exact Hd| |exact Ho]. intros p q [[-> Hp]|[_ Hp]]%kids_insert; [|done].
        split; [|done]. rewrite <-Hkq. by right.
      * rewrite (Permutation_length (add_root_perm y roots)). cbn [length]. lia.
      * exists m2, roots2, kids2. split_and!; try done.
        -- by eapply same_data_trans.
        -- intros p Hp. apply Hr2. rewrite add_root_perm. by right.
        -- intros q Hq. rewrite Hfr2 by done. cbn. by rewrite Hfr.
    + rewrite assign_ok by by eexists. exists (alter (set_mark true) y (mem h)), roots, kids. split_and!.
      * by destruct h; cbn in *; subst.
      * by apply shape_alter.
      * apply marks_mark; [by eexists|done|done].
      * apply (ordered_sub (mem h) _ kids kids None); [|done|done]. intros p. by rewrite fld_alter_same.
      * intros p. by rewrite fld_alter_same.
      * done.
      * intros q Hq. rewrite lookup_alter_ne by congruence. done.
  - exists (mem h), roots, kids. split_and!; try done.
    + by destruct h; cbn in *; subst.
    + eapply marks_root; [done| |done]. by apply (sh_noparent _ _ _ _ _ H).
Qed.

(** *** Links *)

Lemma insert_before_ok h x c l :
  ring (mem h) (c :: l) -> NoDup (c :: l) -> x ∉ c :: l -> is_Some (mem h !! x) ->
  exists m', fibnode_insert_before h c x = Ok (with_mem h m') /\ ring m' ((c :: l) ++ [x]) /\
    links_only (mem h) m' /\ (forall p, p ∉ x :: c :: l -> m' !! p = mem h !! p).
Proof.
  intros Hr Hnd Hx Hlive. unfold fibnode_insert_before.
  destruct (deref_fld _ _ _ _ (ring_left_last _ _ _ Hr)) as (n & -> & _ & En). cbn [mbind res_bind]. rewrite En.
  destruct (list_eq_nil_or_snoc (c :: l)) as [|(l' & z & E)]; [done|].
  assert (default c (last l) = z) as ->.
  { assert (last (c :: l) = Some z) as Hz by by rewrite E, last_snoc. destruct l; cbn in *; [congruence|].
    by rewrite Hz. }
  rewrite E in *. apply (ring_rotate _ l' [z]) in Hr.
  assert (l' ++ [z] ≡ₚ z :: l') as Hp by by rewrite Permutation_app_comm.
  rewrite Hp in Hx. destruct (insert_after_ok h z x l') as (m' & -> & H1 & H2 & H3); [done|by rewrite <-Hp|done|done|].
  exists m'. split_and!; [done| |done|].
  - rewrite <-app_assoc. apply (ring_rotate m' [z; x] l'). done.
  - intros p Hpn. apply H3. rewrite Permutation_swap, <-Hp. done.
Qed.

(** The first statement of [fibheap_link]. *)
Lemma attach_child h x y (kx : list ptr) :
  ring (mem h) kx -> NoDup kx -> y ∉ kx -> x <> y -> ring (mem h) [y] -> fld child (mem h) x = Some (head kx) ->
  exists m1, (np ← deref h x; match child np with
                              | None => assign (set_child (Some y)) h x
                              | Some c => fibnode_insert_before h c y
                              end) = Ok (with_mem h m1) /\
    ring m1 (kx ++ [y]) /\ links_only (alter (set_child (head (kx ++ [y]))) x (mem h)) m1 /\
    (forall p, p ∉ y :: kx -> m1 !! p = alter (set_child (head (kx ++ [y]))) x (mem h) !! p).
Proof.
  intros Hr Hnd Hy Hxy Hry Hch. destruct (deref_fld _ _ _ _ Hch) as (n & -> & En & Hn). cbn [mbind res_bind]. rewrite Hn.
  destruct kx as [|c l]; cbn [head app].
  - rewrite assign_ok by by eexists. eexists. split; [done|]. split_and!; [by apply (ring_alter _ [y])|done|done].
  - destruct (insert_before_ok h y c l) as (m1 & -> & H1 & H2 & H3); [done..|by eapply ring_live; [exact Hry|left]|].
    rewrite set_child_same by done. eauto.
Qed.

(** The memory after [y] became a child of [x]. *)
Record attached m m' (x y : ptr) (kx : list ptr) : Prop := {
  at_parent : forall p, fld parent m' p = if decide (p = y) then Some (Some x) else fld parent m p;
  at_child : forall p, fld child m' p = if decide (p = x) then Some (head (kx ++ [y])) else fld child m p;
  at_degree : forall p, fld degree m' p = if decide (p = x) then Some (Z.of_nat (length (kx ++ [y]))) else fld degree m p;
  at_data : same_data m m';
  at_mark : forall p, marked m' p = if decide (p = y) then 0%nat else marked m p;
  at_links : forall p, p ∉ y :: kx -> fld right m' p = fld right m p /\ fld left m' p = fld left m p;
  at_rest : forall p, p ∉ x :: y :: kx -> m' !! p = m !! p;
  at_ring : ring m' (kx ++ [y])
}.

Lemma link_memory h S roots loose kids x y :
  shape (mem h) S roots (x :: y :: loose) kids -> (length (kids x) + 1 < D)%nat ->
  exists m', fibheap_link h y x = Ok (with_mem h m') /\ attached (mem h) m' x y (kids x).
Proof.
  intros H Hsm. pose proof (sh_nodup _ _ _ _ _ H) as Hnd. apply NoDup_app in Hnd as (_ & _ & Hnd).
  apply NoDup_cons in Hnd as [Hxy _]. apply not_elem_of_cons in Hxy as [Hxy _].
  assert (x ∈ roots ++ x :: y :: loose) as Hx by (apply elem_of_app; right; left).
  assert (y ∈ roots ++ x :: y :: loose) as Hy by (apply elem_of_app; right; right; left).
  destruct (sh_root _ _ _ _ _ H x Hx) as [HxS _], (sh_root _ _ _ _ _ H y Hy) as [HyS _].
  pose proof (sh_live _ _ _ _ _ H x HxS) as Hlx. pose proof (sh_live _ _ _ _ _ H y HyS) as Hly.
  destruct (attach_child h x y (kids x)) as (m1 & E & Hr & Hlo & Hfr);
    [apply H|apply H|by eapply root_not_kid|done|apply (sh_ring_loose _ _ _ _ _ H); right; left|by apply H|].
  unfold fibheap_link. rewrite (bind_after _ _ _ _ E).
  assert (is_Some (m1 !! x)) as H1x by (eapply links_only_live; [exact Hlo|eauto with zfs]).
  assert (is_Some (m1 !! y)) as H1y by (eapply links_only_live; [exact Hlo|eauto with zfs]).
  do 2 fib_assign. rewrite assign_ok by (cbn; eauto with zfs). cbn [mem with_mem]. eexists. split; [done|]. split; cbn [mem with_mem].
  - intros p. rewrite !(fld_alter_same _ (set_mark _)), !(fld_alter_same _ (add_degree _)) by done.
    case_decide; [subst; by fib_fld|]. rewrite fld_alter_ne, (Hlo _ parent) by done. by fib_fld.
  - intros p. rewrite !(fld_alter_same child (set_mark _)), !(fld_alter_same child (add_degree _)),
      (fld_alter_same child (set_parent _)), (Hlo _ child) by done. case_decide; [subst; by fib_fld|by fib_fld].
  - intros p. rewrite (fld_alter_same degree (set_mark _)) by done.
    case_decide as Hp; [subst p|rewrite fld_alter_ne, fld_alter_same, (Hlo _ degree) by done; by fib_fld].
    pose proof (sh_degree _ _ _ _ _ H x HxS) as Hdeg.
    assert (fld degree (alter (set_parent (Some x)) y m1) x = Some (Z.of_nat (length (kids x)))) as (n1 & En1 & Hd1)%fld_Some.
    { rewrite fld_alter_same, (Hlo _ degree) by done. by fib_fld. }
    unfold fld. rewrite lookup_alter_eq, En1. cbn. rewrite Hd1, length_app. cbn [length].
    f_equal. replace (Z.of_nat (length (kids x)) + 1) with (Z.of_nat (length (kids x) + 1)) by lia. by apply length_wrap_31.
  - intros p. rewrite !fld_alter_same, (Hlo _ kd), fld_alter_same by done. done.
  - intros p. unfold marked. case_decide; [subst; by fib_fld|].
    rewrite fld_alter_ne, !fld_alter_same, (Hlo _ mark), fld_alter_same by done. done.
  - intros p Hp. rewrite !(fld_alter_same _ (set_mark _)), !(fld_alter_same _ (add_degree _)), !(fld_alter_same _ (set_parent _)) by done.
    unfold fld. rewrite !Hfr by done. fold (fld right (alter (set_child (head (kids x ++ [y]))) x (mem h)) p).
    fold (fld left (alter (set_child (head (kids x ++ [y]))) x (mem h)) p). by rewrite !fld_alter_same by done.
  - intros p [Hpx Hp]%not_elem_of_cons. pose proof Hp as [Hpy _]%not_elem_of_cons.
    rewrite !lookup_alter_ne, Hfr, lookup_alter_ne by done. done.
  - repeat (apply ring_alter; [done|done|]). done.
Qed.

Lemma attach_shape m m' S roots loose kids x y :
  shape m S roots (x :: y :: loose) kids -> (length (kids x) + 1 < D)%nat -> attached m m' x y (kids x) ->
  shape m' S roots (x :: loose) (<[x := kids x ++ [y]]> kids).
Proof.
  intros H Hsm [Ap Ac Ad Aa _ Al _ Ar]. pose proof (sh_nodup _ _ _ _ _ H) as Hnd.
  assert (roots ++ x :: y :: loose ≡ₚ y :: roots ++ x :: loose) as Hperm by by rewrite !Permutation_middle, (Permutation_swap x y).
  rewrite Hperm in Hnd. apply NoDup_cons in Hnd as [Hy Hnd].
  assert (x <> y) as Hxy by (intros ->; apply Hy, elem_of_app; right; left).
  assert (forall q, y ∉ kids q) as Hyk by (intros q; eapply root_not_kid; [done|]; rewrite Hperm; left).
  assert (forall q, x ∉ kids q) as Hxk by (intros q; eapply root_not_kid; [done|]; apply elem_of_app; right; left).
  destruct (sh_root _ _ _ _ _ H x) as [HxS _]; [apply elem_of_app; right; left|].
  destruct (sh_root _ _ _ _ _ H y) as [HyS _]; [rewrite Hperm; left|].
  assert (forall l, (forall p, p ∈ l -> p ∉ y :: kids x) -> ring m l -> ring m' l) as Hring.
  { intros l Hl. apply ring_ext. intros p Hp. apply Al. auto. }
  assert (forall p, p ∈ roots ++ x :: loose -> p ∉ y :: kids x) as Hroots.
  { intros p Hp [->|Hk]%elem_of_cons; [done|]. eapply root_not_kid; [exact H| |exact Hk]. rewrite Hperm. by right. }
  split.
  - intros p Hp. apply (sh_live _ _ _ _ _ H) in Hp as [n E]. specialize (Aa p). unfold fld in Aa. rewrite E in Aa.
    destruct (m' !! p); [by eexists|done].
  - intros p q. rewrite Ap, kids_insert, elem_of_app, list_elem_of_singleton.
    intros [[-> [Hp| ->]]|[Hq Hp]]; [|by rewrite decide_True|];
      (rewrite decide_False; [by apply (sh_kid _ _ _ _ _ H)|intros ->; by eapply Hyk]).
  - intros p Hp. rewrite Ap, decide_False by (intros ->; done). apply (sh_root _ _ _ _ _ H). rewrite Hperm. by right.
  - intros p q HpS. rewrite Ap, kids_insert, elem_of_app, list_elem_of_singleton. case_decide as Hp; [naive_solver|].
    intros Hpq%(sh_parent _ _ _ _ _ H); [|done]. destruct (decide (q = x)) as [->|]; naive_solver.
  - intros p HpS. rewrite Ap. case_decide as Hp; [done|]. intros Hn%(sh_noparent _ _ _ _ _ H); [|done].
    rewrite Hperm in Hn. by apply elem_of_cons in Hn as [?|?].
  - done.
  - intros q. destruct (decide (q = x)) as [->|]; [rewrite fn_lookup_insert|rewrite fn_lookup_insert_ne by done; apply H].
    apply NoDup_app. split_and!; [apply H| |apply NoDup_singleton]. intros p Hp ->%list_elem_of_singleton. by eapply Hyk.
  - apply Hring; [|apply H]. intros p Hp. apply Hroots, elem_of_app. by left.
  - intros p Hp. apply Hring; [|apply (sh_ring_loose _ _ _ _ _ H); apply elem_of_cons in Hp as [->|]; [left|by do 2 right]].
    intros p' ->%list_elem_of_singleton. apply Hroots, elem_of_app. by right.
  - intros q. destruct (decide (q = x)) as [->|Hq]; [by rewrite fn_lookup_insert|rewrite fn_lookup_insert_ne by done].
    apply Hring; [|apply H]. intros p Hp [->|Hpx]%elem_of_cons; [by eapply Hyk|]. apply Hq.
    by eapply (shape_single_parent _ _ _ _ _ H).
  - intros q Hq. rewrite Ac. case_decide as E; [subst; by rewrite fn_lookup_insert|rewrite fn_lookup_insert_ne by done; by apply H].
  - intros q Hq. rewrite Ad. case_decide as E; [subst; by rewrite fn_lookup_insert|rewrite fn_lookup_insert_ne by done; by apply H].
  - destruct (sh_acyclic _ _ _ _ _ H) as [ht Hht]. exists (<[x := Nat.max (ht x) (Datatypes.S (ht y))]> ht).
    intros p q. rewrite kids_insert, elem_of_app, list_elem_of_singleton. intros [[-> Hp]|[Hq Hp]].
    + rewrite fn_lookup_insert, fn_lookup_insert_ne by (intros ->; destruct Hp as [Hp|]; [by eapply Hxk|done]).
      destruct Hp as [Hp| ->]; [specialize (Hht _ _ Hp); lia|lia].
    + rewrite !fn_lookup_insert_ne; [by apply Hht|done|]. intros ->. by eapply Hxk.
  - intros q. destruct (decide (q = x)) as [->|]; [rewrite fn_lookup_insert, length_app; cbn; lia|].
    rewrite fn_lookup_insert_ne by done. apply H.
Qed.

(** *** Forests *)

Record forest m S roots loose kids : Prop := {
  f_shape : shape m S roots loose kids;
  f_ordered : ordered m kids None;
  f_marks : marks m kids None
}.

Lemma forest_links m m' S roots loose kids roots' loose' :
  forest m S roots loose kids -> links_only m m' -> shape m' S roots' loose' kids -> forest m' S roots' loose' kids.
Proof.
  intros [H Ho Hm] Hlo H'. split; [done| |].
  - intros p q Hp Hb. rewrite !(links_only_key _ _ _ Hlo). by apply Ho.
  - intros q. destruct (Hm q) as (l & Hl & Hi). exists l. split; [done|]. intros i k Hk.
    rewrite (links_only_marked _ _ _ Hlo). auto.
Qed.

Lemma marks_attach m m' S roots loose kids x y :
  shape m S roots (x :: y :: loose) kids -> length (kids x) = length (kids y) ->
  (forall p, marked m' p = if decide (p = y) then 0%nat else marked m p) ->
  marks m kids None -> marks m' (<[x := kids x ++ [y]]> kids) None.
Proof.
  intros H Hlen Hmk Hm q. assert (forall k, (length (kids k) <= length ((<[x := kids x ++ [y]]> kids) k))%nat) as Hge.
  { intros k. destruct (decide (k = x)) as [->|]; [rewrite fn_lookup_insert, length_app; lia|by rewrite fn_lookup_insert_ne]. }
  assert (x <> y) as Hxy.
  { pose proof (sh_nodup _ _ _ _ _ H) as Hnd. apply NoDup_app in Hnd as (_ & _ & Hnd).
    apply NoDup_cons in Hnd as [Hn _]. by apply not_elem_of_cons in Hn as [? _]. }
  destruct (Hm q) as (l & Hl & Hi).
  assert (forall i k, l !! i = Some k -> (i <= length ((<[x := kids x ++ [y]]> kids) k) + marked m' k +
    if decide (Some k = None) then 1 else 0)%nat) as Hold.
  { intros i k Hk. specialize (Hi i k Hk). specialize (Hge k). rewrite Hmk. rewrite decide_False in Hi by done.
    destruct (decide (k = y)) as [->|]; [exfalso|lia]. apply (root_not_kid _ _ _ _ _ y q H); [apply elem_of_app; right; right; left|].
    rewrite <-Hl. by apply list_elem_of_lookup_2 in Hk. }
  destruct (decide (q = x)) as [->|]; [|exists l; by rewrite fn_lookup_insert_ne].
  exists (l ++ [y]). rewrite fn_lookup_insert. split; [by rewrite Hl|]. intros i k [Hk|[Hge' Hk]]%lookup_app_Some; [by apply Hold|].
  apply list_lookup_singleton_Some in Hk as [Hi0 ->]. rewrite fn_lookup_insert_ne by done.
  apply Permutation_length in Hl. lia.
Qed.

Lemma link_ok h S roots loose kids x y :
  forest (mem h) S roots (x :: y :: loose) kids -> keyof (mem h) x <= keyof (mem h) y ->
  length (kids x) = length (kids y) -> Z.of_nat (size S) <= UINT32_MAX ->
  exists m' kids', fibheap_link h y x = Ok (with_mem h m') /\ forest m' S roots (x :: loose) kids' /\
    length (kids' x) = (length (kids x) + 1)%nat /\ (forall p, p <> x -> kids' p = kids p) /\
    same_data (mem h) m' /\ (forall q, q ∉ S -> m' !! q = mem h !! q).
Proof.
  intros [H Ho Hm] Hk Hlen Hs.
  destruct (sh_root _ _ _ _ _ H x) as [HxS _]; [apply elem_of_app; right; left|].
  destruct (sh_root _ _ _ _ _ H y) as [HyS _]; [apply elem_of_app; right; right; left|].
  assert (length (kids x) + 1 < D)%nat as Hsm.
  { pose proof (degree_small _ _ _ _ _ x H Hm Hs HxS). unfold D. lia. }
  destruct (link_memory _ _ _ _ _ _ _ H Hsm) as (m' & -> & Ha). exists m', (<[x := kids x ++ [y]]> kids).
  split_and!; [done| | | |apply Ha|].
  - split; [by eapply attach_shape| |eapply marks_attach; [done|done|apply Ha|done]].
    intros p q Hpq _. rewrite !(same_data_key _ _ _ (at_data _ _ _ _ _ Ha)).
    apply kids_insert in Hpq as [[-> Hp]|[_ Hp]]; [|by apply Ho].
    apply elem_of_app in Hp as [Hp| ->%list_elem_of_singleton]; [by apply Ho|done].
  - by rewrite fn_lookup_insert, length_app.
  - intros p Hp. by rewrite fn_lookup_insert_ne.
  - intros q Hq. apply (at_rest _ _ _ _ _ Ha). rewrite !elem_of_cons. intros [->|[->|Hin]]; [done|done|].
    by apply (sh_kid _ _ _ _ _ H) in Hin as (? & _).
Qed.

(** *** Consolidation *)

(** The array holds the loose nodes, each at the index of its degree. *)
Record array_ok (a : list (option ptr)) loose kids : Prop := {
  ar_length : length a = D;
  ar_loose : omap id a ≡ₚ loose;
  ar_degree : forall d p, a !! d = Some (Some p) -> length (kids p) = d
}.

Lemma omap_insert_Some (a : list (option ptr)) d p :
  a !! d = Some None -> omap id (<[d := Some p]> a) ≡ₚ p :: omap id a.
Proof.
  revert d. induction a as [|o a IH]; intros [|d] E; try done; cbn in *.
  - by injection E as ->.
  - specialize (IH d E). destruct o as [o|]; cbn; [|done]. by rewrite IH, Permutation_swap.
Qed.

Lemma omap_insert_None (a : list (option ptr)) d p :
  a !! d = Some (Some p) -> p :: omap id (<[d := None]> a) ≡ₚ omap id a.
Proof.
  revert d. induction a as [|o a IH]; intros [|d] E; try done; cbn in *.
  - by injection E as ->.
  - specialize (IH d E). destruct o as [o|]; cbn; [|done]. by rewrite <-IH, Permutation_swap.
Qed.

Lemma keyof_deref h p n : mem h !! p = Some n -> keyof (mem h) p = key n.
Proof. intros E. unfold keyof, fld. by rewrite E. Qed.

Lemma link_equal_ok fuel : forall h S roots loose kids a x d,
  forest (mem h) S roots (x :: loose) kids -> array_ok a loose kids -> d = length (kids x) ->
  Z.of_nat (size S) <= UINT32_MAX -> (D <= fuel + d)%nat ->
  exists m' a' kids' loose', link_equal fuel h a x d = Ok (with_mem h m', a') /\
    forest m' S roots loose' kids' /\ array_ok a' loose' kids' /\ same_data (mem h) m' /\
    (forall q, q ∉ S -> m' !! q = mem h !! q).
Proof.
  induction fuel as [|fuel IH]; intros h S roots loose kids a x d Hf Ha -> Hs Hfuel.
  all: pose proof (f_shape _ _ _ _ _ Hf) as H.
  all: destruct (sh_root _ _ _ _ _ H x) as [HxS _]; [apply elem_of_app; right; left|].
  all: pose proof (degree_small _ _ _ _ _ x H (f_marks _ _ _ _ _ Hf) Hs HxS) as Hlt.
  { unfold D in Hfuel. lia. }
  cbn [link_equal]. destruct (lookup_lt_is_Some_2 a (length (kids x))) as [o Eo].
  { rewrite (ar_length _ _ _ Ha). unfold D. lia. }
  assert (forall d p, a !! d = Some (Some p) -> p ∈ loose) as Hin.
  { intros d p Hp. rewrite <-(ar_loose _ _ _ Ha). apply list_elem_of_omap. exists (Some p).
    split; [by apply list_elem_of_lookup_2 in Hp|done]. }
  pose proof (sh_nodup _ _ _ _ _ H) as Hnd. apply NoDup_app in Hnd as (_ & _ & Hnd).
  apply NoDup_cons in Hnd as [Hxl _]. rewrite Eo. destruct o as [y|].
  - pose proof (Hin _ _ Eo) as Hy. destruct (sh_root _ _ _ _ _ H y) as [HyS _]; [apply elem_of_app; right; by right|].
    assert (x <> y) as Hxy by congruence.
    destruct (sh_live _ _ _ _ _ H x HxS) as [nx Ex], (sh_live _ _ _ _ _ H y HyS) as [ny Ey].
    unfold deref. rewrite Ex, Ey. cbn [mbind res_bind].
    set (a' := <[length (kids x) := None]> a).
    assert (y :: omap id a' ≡ₚ loose) as Hl' by (rewrite <-(ar_loose _ _ _ Ha); by apply omap_insert_None).
    assert (exists w v, (if key ny <? key nx then (y, x) else (x, y)) = (w, v) /\ x :: loose ≡ₚ w :: v :: omap id a' /\
      keyof (mem h) w <= keyof (mem h) v /\ length (kids w) = length (kids x) /\ length (kids v) = length (kids x))
      as (w & v & -> & Hwv & Hkey & Hlw & Hlv).
    { pose proof (ar_degree _ _ _ Ha _ _ Eo).
      rewrite <-(keyof_deref _ _ _ Ex), <-(keyof_deref _ _ _ Ey).
      case_if; [exists y, x|exists x, y]; split_and!; try done; try lia; rewrite <-Hl'; [apply Permutation_swap|done]. }
    destruct (link_ok h S roots (omap id a') kids w v) as (m1 & kids1 & -> & Hf1 & Hlen1 & Hk1 & Hd1 & Hfr1);
      [|done|lia|done|].
    { destruct Hf. split; [|done|done]. by eapply shape_perm. }
    cbn [mbind res_bind].
    destruct (IH (with_mem h m1) S roots (omap id a') kids1 a' w (length (kids x) + 1)%nat)
      as (m2 & a2 & kids2 & loose2 & -> & Hf2 & Ha2 & Hd2 & Hfr2); [done| |lia|done|lia|].
    + split; [unfold a'; rewrite length_insert; apply Ha|done|]. intros d p Hp. unfold a' in Hp.
      destruct (decide (d = length (kids x))) as [->|]; [rewrite list_lookup_insert_eq in Hp by (by eapply lookup_lt_Some); done|].
      rewrite list_lookup_insert_ne in Hp by done. rewrite Hk1; [by apply (ar_degree _ _ _ Ha)|].
      intros ->. pose proof (ar_degree _ _ _ Ha _ _ Hp). congruence.
    + exists m2, a2, kids2, loose2. split_and!; try done; [by eapply same_data_trans|].
      intros q Hq. rewrite Hfr2 by done. by apply Hfr1.
  - exists (mem h), (<[length (kids x) := Some x]> a), kids, (x :: loose). split_and!; try done; [by destruct h|].
    split; [rewrite length_insert; apply Ha|rewrite omap_insert_Some by done; f_equiv; apply Ha|].
    intros d p Hp. destruct (decide (d = length (kids x))) as [->|].
    + rewrite list_lookup_insert_eq in Hp by (by eapply lookup_lt_Some). congruence.
    + rewrite list_lookup_insert_ne in Hp by done. by apply (ar_degree _ _ _ Ha).
Qed.

Lemma with_mem_set_root h m m' r r' :
  set_root (with_mem (set_root (with_mem h m) r) m') r' = set_root (with_mem h m') r'.
Proof. done. Qed.

Lemma consolidate_loop_ok fuel : forall h S roots loose kids a,
  forest (mem h) S roots loose kids -> array_ok a loose kids -> root h = head roots ->
  Z.of_nat (size S) <= UINT32_MAX -> (length roots < fuel)%nat ->
  exists m' a' kids' loose', consolidate_loop fuel h a = Ok (set_root (with_mem h m') None, a') /\
    forest m' S [] loose' kids' /\ array_ok a' loose' kids' /\ same_data (mem h) m' /\
    (forall q, q ∉ S -> m' !! q = mem h !! q).
Proof.
  induction fuel as [|fuel IH]; intros h S roots loose kids a Hf Ha Hroot Hs Hfuel; [lia|].
  cbn [consolidate_loop]. rewrite Hroot. destruct roots as [|w roots]; cbn [head].
  - exists (mem h), a, kids, loose. split_and!; try done. by destruct h; cbn in *; subst.
  - pose proof (f_shape _ _ _ _ _ Hf) as H.
    destruct (rem_root_ok h S (w :: roots) loose kids w) as (m1 & roots1 & -> & H1 & Hp1 & Hlo1 & Hfr1); [done|left|].
    cbn [mbind res_bind]. destruct (sh_root _ _ _ _ _ H1 w) as [HwS _]; [apply elem_of_app; right; left|].
    pose proof (sh_degree _ _ _ _ _ H1 w HwS) as Hdeg.
    destruct (deref_fld _ (set_root (with_mem h m1) (head roots1)) _ _ Hdeg) as (n & -> & _ & Hn).
    cbn [mbind res_bind]. rewrite Hn, Nat2Z.id.
    destruct (link_equal_ok (Datatypes.S D) (set_root (with_mem h m1) (head roots1)) S roots1 loose kids a w (length (kids w)))
      as (m2 & a2 & kids2 & loose2 & -> & Hf2 & Ha2 & Hd2 & Hfr2);
      [by eapply forest_links|done|done|done|unfold D; lia|]. cbn [mbind res_bind].
    destruct (IH (with_mem (set_root (with_mem h m1) (head roots1)) m2) S roots1 loose2 kids2 a2)
      as (m3 & a3 & kids3 & loose3 & -> & Hf3 & Ha3 & Hd3 & Hfr3); [done|done|done|done| |].
    { apply Permutation_length in Hp1. cbn in Hp1, Hfuel. lia. }
    exists m3, a3, kids3, loose3. split_and!; try done.
    + eapply same_data_trans; [by apply links_only_data|]. by eapply same_data_trans.
    + intros q Hq. rewrite Hfr3, Hfr2 by done. by apply Hfr1.
Qed.

(** The minimum is the smallest of the roots seen so far. *)
Definition least h roots : Prop :=
  match min h with
  | None => roots = []
  | Some r => r ∈ roots /\ forall p, p ∈ roots -> keyof (mem h) r <= keyof (mem h) p
  end.

Lemma rebuild_roots_ok a : forall h S roots kids,
  forest (mem h) S roots (omap id a) kids -> root h = head roots -> least h roots ->
  exists m' roots' mn, rebuild_roots h a = Ok (set_min (set_root (with_mem h m') (head roots')) mn) /\
    forest m' S roots' [] kids /\ least (set_min (set_root (with_mem h m') (head roots')) mn) roots' /\
    same_data (mem h) m' /\ (forall q, q ∉ S -> m' !! q = mem h !! q).
Proof.
  induction a as [|[p|] a IH]; intros h S roots kids Hf Hroot Hleast; cbn [rebuild_roots].
  - exists (mem h), roots, (min h).
    assert (set_min (set_root (with_mem h (mem h)) (head roots)) (min h) = h) as -> by (destruct h; cbn in *; by subst).
    done.
  - cbn [omap list_omap id] in Hf. pose proof (f_shape _ _ _ _ _ Hf) as H.
    destruct (ins_root_ok h S roots (omap id a) kids p) as (m1 & -> & H1 & Hlo1 & Hfr1); [done|done|].
    cbn [mbind res_bind]. set (h1 := set_root (with_mem h m1) (head (add_root p roots))).
    assert (forall q, keyof m1 q = keyof (mem h) q) as Hkey by (intros q; by apply links_only_key).
    destruct (sh_root _ _ _ _ _ H p) as [HpS _]; [apply elem_of_app; right; left|].
    destruct (sh_live _ _ _ _ _ H1 p HpS) as [n En].
    assert (exists b : bool, below_min h1 p = Ok b /\ least (if b then set_min h1 (Some p) else h1) (add_root p roots))
      as (b & -> & Hl1).
    { unfold least, below_min in *. change (min h1) with (min h). destruct (min h) as [r|] eqn:Em.
      - destruct Hleast as [Hr Hmin]. destruct (sh_root _ _ _ _ _ H r) as [HrS _]; [apply elem_of_app; by left|].
        destruct (sh_live _ _ _ _ _ H1 r HrS) as [nr Er]. unfold deref. cbn. rewrite En, Er. cbn [mbind res_bind].
        rewrite <-(keyof_deref h1 _ _ En), <-(keyof_deref h1 _ _ Er). cbn [h1 mem set_root with_mem]. rewrite !Hkey.
        eexists. split; [done|]. case_if; [cbn [min set_min]|change (min h1) with (min h); rewrite Em];
          change (mem (set_min h1 (Some p))) with m1; change (mem h1) with m1; rewrite ?add_root_perm.
        + split; [left|]. intros q. rewrite add_root_perm, !Hkey. intros [->|Hq]%elem_of_cons; [done|]. specialize (Hmin q Hq). lia.
        + split; [by right|]. intros q. rewrite add_root_perm, !Hkey. intros [->|Hq]%elem_of_cons; [done|auto].
      - exists true. split; [done|]. cbn [min set_min mem]. subst roots. cbn. split; [left|]. by intros q ->%list_elem_of_singleton. }
    cbn [mbind res_bind].
    destruct (IH (if b then set_min h1 (Some p) else h1) S (add_root p roots) kids) as (m2 & roots2 & mn & -> & Hf2 & Hl2 & Hd2 & Hfr2).
    + destruct b; (eapply forest_links; [exact Hf|exact Hlo1|exact H1]).
    + by destruct b.
    + done.
    + exists m2, roots2, mn. split_and!; [by destruct b|done|by destruct b|..].
      * eapply same_data_trans; [by apply links_only_data|]. by destruct b.
      * intros q Hq. rewrite Hfr2 by done. destruct b; by apply Hfr1.
  - by apply (IH h S roots kids).
Qed.

Lemma consolidate_ok h S roots kids :
  forest (mem h) S roots [] kids -> root h = head roots -> Z.of_nat (size S) <= UINT32_MAX ->
  exists m' roots' kids' mn,
    fibheap_consolidate h = Ok (set_min (set_root (with_mem h m') (head roots')) mn) /\
    forest m' S roots' [] kids' /\ least (set_min (set_root (with_mem h m') (head roots')) mn) roots' /\
    same_data (mem h) m' /\ (forall q, q ∉ S -> m' !! q = mem h !! q).
Proof.
  intros Hf Hroot Hs. unfold fibheap_consolidate.
  destruct (consolidate_loop_ok (Datatypes.S (size (mem h))) h S roots [] kids (replicate D None))
    as (m1 & a & kids1 & loose & -> & Hf1 & Ha & Hd1 & Hfr1); [done| |done|done| |].
  - split; [by rewrite length_replicate|done|]. intros d p [E _]%lookup_replicate. done.
  - pose proof (roots_bound _ _ _ _ _ (f_shape _ _ _ _ _ Hf)) as Hb. pose proof (f_shape _ _ _ _ _ Hf) as H.
    assert (S ⊆ dom (mem h)) as Hsub%subseteq_size by (intros p Hp; by apply elem_of_dom, (sh_live _ _ _ _ _ H)).
    rewrite size_dom in Hsub. lia.
  - cbn [mbind res_bind].
    destruct (rebuild_roots_ok a (set_min (set_root (with_mem h m1) None) None) S [] kids1)
      as (m2 & roots2 & mn & -> & Hf2 & Hl2 & Hd2 & Hfr2).
    + destruct Hf1 as [H1 Ho1 Hm1]. split; [|done|done]. eapply shape_perm; [exact H1|]. symmetry. apply Ha.
    + done.
    + done.
    + exists m2, roots2, kids1, mn. split_and!; try done; [by eapply same_data_trans|].
      intros q Hq. rewrite Hfr2 by done. by apply Hfr1.
Qed.

(** *** Extracting the minimum *)

(** The memory after the nodes [ks] lost their parent. *)
Record orphaned m m' (ks touched : list ptr) : Prop := {
  or_parent : forall p, fld parent m' p = if decide (p ∈ ks) then Some None else fld parent m p;
  or_same : forall X (g : fibnode A -> X), (forall n v, g (set_left v n) = g n) -> (forall n v, g (set_right v n) = g n) ->
    (forall n v, g (set_parent v n) = g n) -> forall p, fld g m' p = fld g m p;
  or_rest : forall p, p ∉ touched -> m' !! p = m !! p
}.

Lemma orphan_step h r l p :
  ring (mem h) (r :: l) -> NoDup (r :: l) -> p ∉ r :: l -> root h = Some r -> is_Some (mem h !! p) ->
  exists m', (h ← assign (set_parent None) h p; fibheap_ins_root h p) = Ok (with_mem h m') /\
    ring m' (r :: p :: l) /\ orphaned (mem h) m' [p] (r :: p :: l).
Proof.
  intros Hr Hnd Hp Hroot Hlive. rewrite assign_ok by done. cbn [mbind res_bind]. unfold fibheap_ins_root.
  cbn [root with_mem]. rewrite Hroot.
  destruct (insert_after_ok (with_mem h (alter (set_parent None) p (mem h))) r p l) as (m' & -> & H1 & H2 & H3);
    [by apply (ring_alter _ (r :: l))|done|done|cbn; eauto with zfs|].
  exists m'. split; [done|]. split; [done|]. cbn [mem with_mem] in *. split.
  - intros q. rewrite (H2 _ parent) by done. case_decide as Hq; rewrite list_elem_of_singleton in Hq; [subst; by fib_fld|by fib_fld].
  - intros X g Hgl Hgr Hgp q. rewrite H2, fld_alter_same by done. done.
  - intros q Hq. rewrite H3, lookup_alter_ne by set_solver. done.
Qed.

Lemma orphaned_trans m1 m2 m3 ks1 ks2 t1 t2 :
  orphaned m1 m2 ks1 t1 -> orphaned m2 m3 ks2 t2 -> (forall p, p ∈ t1 -> p ∈ t2) -> orphaned m1 m3 (ks1 ++ ks2) t2.
Proof.
  intros [P1 S1 R1] [P2 S2 R2] Ht. split.
  - intros p. rewrite P2, P1.
    destruct (decide (p ∈ ks2)) as [H2|H2]; [by rewrite decide_True by (apply elem_of_app; by right)|].
    destruct (decide (p ∈ ks1)) as [H1|H1]; [by rewrite decide_True by (apply elem_of_app; by left)|].
    by rewrite decide_False by (rewrite elem_of_app; tauto).
  - intros X g Hl Hr Hp p. by rewrite S2, S1.
  - intros p Hp. rewrite R2, R1 by auto. done.
Qed.

(** The right pointers of the children that are still to be moved. *)
Fixpoint rights m (ks : list ptr) (o : ptr) : Prop :=
  match ks with
  | [] => True
  | p :: ks => fld right m p = Some (hd o ks) /\ rights m ks o
  end.

Lemma rights_ext m m' ks o : (forall p, p ∈ ks -> m' !! p = m !! p) -> rights m ks o -> rights m' ks o.
Proof.
  induction ks as [|p ks IH]; intros H; cbn; [done|]. intros [E Hr]. split.
  - unfold fld. rewrite H by left. done.
  - apply IH; [|done]. intros q Hq. apply H. by right.
Qed.

Lemma path_rights m l : forall a b, path m a l b -> rights m (a :: l) b.
Proof.
  induction l as [|c l IH]; intros a b; cbn; [by intros [? _]|]. intros [[Hac _] Hp]. split; [done|]. by apply (IH c b).
Qed.

Lemma children_loop_ok ks : forall fuel h r l o,
  ring (mem h) (r :: l) -> NoDup (ks ++ r :: l) -> root h = Some r -> (forall p, p ∈ ks -> is_Some (mem h !! p)) ->
  rights (mem h) ks o -> o ∉ ks -> (length ks <= fuel)%nat ->
  exists m', children_to_roots fuel h (Some (hd o ks)) (Some o) = Ok (with_mem h m') /\
    ring m' (r :: reverse ks ++ l) /\ orphaned (mem h) m' ks (r :: reverse ks ++ l).
Proof.
  induction ks as [|p ks IH]; intros fuel h r l o Hring Hnd Hroot Hlive Hright Ho Hfuel.
  - exists (mem h). destruct fuel; cbn; rewrite decide_True by done; (split_and!; [by destruct h|done|by split]).
  - destruct fuel as [|fuel]; [cbn in Hfuel; lia|]. cbn [children_to_roots hd].
    rewrite <-app_comm_cons in Hnd. apply NoDup_cons in Hnd as [Hp Hnd]. cbn [rights] in Hright. destruct Hright as [Hr1 Hrs].
    apply not_elem_of_cons in Ho as [Hpo Ho]. rewrite decide_False by congruence.
    destruct (deref_fld _ _ _ _ Hr1) as (n & -> & _ & Hn). cbn [mbind res_bind]. rewrite Hn.
    assert (p ∉ r :: l) as Hprl by (intros Hin; apply Hp, elem_of_app; by right).
    pose proof Hnd as (Hndk & Hdis & Hndr)%NoDup_app.
    destruct (orphan_step h r l p) as (m1 & E & H1 & O1); [done|done|done|done|apply Hlive; left|].
    rewrite (bind_after _ _ _ _ E).
    destruct (IH fuel (with_mem h m1) r (p :: l) o) as (m2 & -> & H2 & O2); [done| |done| | |done|cbn in Hfuel; lia|].
    + rewrite (Permutation_swap p r l), <-Permutation_middle. by apply NoDup_cons.
    + intros q Hq. rewrite (or_rest _ _ _ _ O1); [apply Hlive; by right|]. rewrite (Permutation_swap p r l).
      intros [->|Hin]%elem_of_cons; [apply Hp, elem_of_app; by left|by apply (Hdis q)].
    + eapply rights_ext; [|exact Hrs]. intros q Hq. apply (or_rest _ _ _ _ O1). rewrite (Permutation_swap p r l).
      intros [->|Hin]%elem_of_cons; [apply Hp, elem_of_app; by left|by apply (Hdis q)].
    + exists m2. rewrite reverse_cons, <-app_assoc. split_and!; [done|done|].
      apply (orphaned_trans _ m1 _ [p] ks (r :: p :: l)); [done|done|]. intros q Hq.
      apply elem_of_cons in Hq as [->|Hq]; [left|right]. apply elem_of_app. by right.
Qed.

Lemma children_to_roots_ok h r l ks :
  ring (mem h) (r :: l) -> NoDup (ks ++ r :: l) -> root h = Some r -> ring (mem h) ks ->
  exists m' fin, children_to_roots (Datatypes.S (size (mem h))) h (head ks) None = Ok (with_mem h m') /\
    ring m' (r :: fin) /\ r :: fin ≡ₚ ks ++ r :: l /\ orphaned (mem h) m' ks (ks ++ r :: l).
Proof.
  intros Hring Hnd Hroot Hks. destruct ks as [|x ks].
  - exists (mem h), l. split_and!; [by destruct h|done|done|by split].
  - pose proof (path_rights _ _ _ _ Hks) as Hrt.
    assert (forall p, p ∈ x :: ks -> is_Some (mem h !! p)) as Hlive by (intros p Hp; by eapply ring_live).
    assert (length ks <= size (mem h))%nat as Hlen.
    { pose proof Hnd as (Hndk & _)%NoDup_app. apply NoDup_cons in Hndk as [_ Hndk].
      rewrite <-(size_list_to_set (C := gset ptr)) by done. rewrite <-(size_dom (D := gset ptr)). apply subseteq_size.
      intros p Hp%elem_of_list_to_set. apply elem_of_dom, Hlive. by right. }
    rewrite <-app_comm_cons in Hnd. apply NoDup_cons in Hnd as [Hx Hnd]. pose proof Hnd as (Hndk & Hdis & Hndr)%NoDup_app.
    assert (x ∉ r :: l) as Hxr by (intros Hin; apply Hx, elem_of_app; by right).
    assert (x ∉ ks) as Hxk by (intros Hin; apply Hx, elem_of_app; by left).
    cbn [children_to_roots head]. rewrite decide_False by done. cbn [rights] in Hrt. destruct Hrt as [Hr1 Hrs].
    destruct (deref_fld _ _ _ _ Hr1) as (n & -> & _ & Hn). cbn [mbind res_bind]. rewrite Hn.
    destruct (orphan_step h r l x) as (m1 & E & H1 & O1); [done|done|done|done|apply Hlive; left|].
    rewrite (bind_after _ _ _ _ E).
    assert (forall q, q ∈ ks -> m1 !! q = mem h !! q) as Hsame.
    { intros q Hq. apply (or_rest _ _ _ _ O1). rewrite (Permutation_swap x r l).
      intros [->|Hin]%elem_of_cons; [done|by apply (Hdis q)]. }
    destruct (children_loop_ok ks (size (mem h)) (with_mem h m1) r (x :: l) x) as (m2 & -> & H2 & O2); [done| |done| | |done|done|].
    + rewrite (Permutation_swap x r l), <-Permutation_middle. by apply NoDup_cons.
    + intros q Hq. cbn. rewrite Hsame by done. apply Hlive. by right.
    + by eapply rights_ext.
    + assert (r :: reverse ks ++ x :: l ≡ₚ (x :: ks) ++ r :: l) as Hperm.
      { rewrite reverse_Permutation, <-(Permutation_middle ks l x), <-(Permutation_middle (x :: ks) l r). done. }
      exists m2, (reverse ks ++ x :: l). split_and!; [done|done|done|].
      destruct (orphaned_trans _ _ _ _ _ _ _ O1 O2) as [P S R].
      { intros q Hq. apply elem_of_cons in Hq as [->|Hq]; [left|right]. apply elem_of_app. by right. }
      split; [done|done|]. intros p Hp. apply R. by rewrite Hperm.
Qed.

Lemma orphaned_links m m1 m2 ks touched :
  orphaned m m1 ks touched -> links_only m1 m2 -> (forall p, p ∉ touched -> m2 !! p = m1 !! p) -> orphaned m m2 ks touched.
Proof.
  intros [P S R] Hlo Hfr. split.
  - intros p. by rewrite (Hlo _ parent).
  - intros X g Hl Hr Hp p. by rewrite Hlo, S.
  - intros p Hp. by rewrite Hfr, R.
Qed.

Lemma extract_shape m m' S roots kids ret R :
  shape m S roots [] kids -> ret ∈ roots -> orphaned m m' (kids ret) (kids ret ++ roots) ->
  ring m' R -> ret :: R ≡ₚ kids ret ++ roots -> shape m' (S ∖ {[ret]}) R [] (<[ret := []]> kids).
Proof.
  intros H Hret [P Sm Rs] Hring HR. pose proof (sh_nodup _ _ _ _ _ H) as Hnd. rewrite app_nil_r in Hnd.
  assert (forall q, ret ∉ kids q) as Hrk.
  { intros q. eapply root_not_kid; [exact H|]. rewrite app_nil_r. done. }
  assert (NoDup (ret :: R)) as HndR.
  { rewrite HR. apply NoDup_app. split_and!; [apply H| |done]. intros p Hp Hpr.
    eapply root_not_kid; [exact H| |exact Hp]. by rewrite app_nil_r. }
  apply NoDup_cons in HndR as [HretR HndR]. pose proof (shape_single_parent _ _ _ _ _ H) as Hsp.
  assert (forall p, p ∈ R <-> p <> ret /\ (p ∈ kids ret \/ p ∈ roots)) as HRin.
  { intros p. rewrite <-elem_of_app, <-HR, elem_of_cons. split; [intros Hp|]; naive_solver. }
  assert (forall p q, p ∈ (<[ret := []]> kids) q <-> q <> ret /\ p ∈ kids q) as Hkids.
  { intros p q. rewrite kids_insert. split; [|by right]. intros [[_ Hn%not_elem_of_nil]|?]; done. }
  split.
  - intros p [Hp _]%elem_of_difference. apply (sh_live _ _ _ _ _ H) in Hp as [n E].
    specialize (Sm _ (fun _ => ()) (fun _ _ => eq_refl) (fun _ _ => eq_refl) (fun _ _ => eq_refl) p).
    unfold fld in Sm. rewrite E in Sm. destruct (m' !! p); [by eexists|done].
  - intros p q [Hq Hp]%Hkids. destruct (sh_kid _ _ _ _ _ H _ _ Hp) as (H1 & H2 & H3).
    rewrite P, decide_False by (intros Hp'; apply Hq; by eapply Hsp).
    rewrite !elem_of_difference, !not_elem_of_singleton. split_and!; try done. intros ->. by eapply Hrk.
  - intros p. rewrite app_nil_r. intros [Hne Hp]%HRin. rewrite P, elem_of_difference, not_elem_of_singleton.
    destruct (decide (p ∈ kids ret)) as [Hk|Hk]; [by apply (sh_kid _ _ _ _ _ H) in Hk as (? & _)|].
    destruct Hp as [|Hp]; [done|]. destruct (sh_root _ _ _ _ _ H p) as [? ?]; [by rewrite app_nil_r|done].
  - intros p q [HpS Hpr]%elem_of_difference. rewrite P. case_decide as Hk; [done|]. intros Hq%(sh_parent _ _ _ _ _ H); [|done].
    apply Hkids. split; [|done]. intros ->. done.
  - intros p [HpS Hpr]%elem_of_difference. rewrite not_elem_of_singleton in Hpr. rewrite P, app_nil_r, HRin.
    case_decide as Hk; [by intros; split; [|left]|]. intros Hn%(sh_noparent _ _ _ _ _ H); [|done]. rewrite app_nil_r in Hn. by split; [|right].
  - by rewrite app_nil_r.
  - intros q. destruct (decide (q = ret)) as [->|]; [rewrite fn_lookup_insert; constructor|rewrite fn_lookup_insert_ne by done; apply H].
  - done.
  - by intros p ?%not_elem_of_nil.
  - intros q. destruct (decide (q = ret)) as [->|Hq]; [by rewrite fn_lookup_insert|rewrite fn_lookup_insert_ne by done].
    eapply ring_ext; [|apply (sh_ring_kids _ _ _ _ _ H)]. intros p Hp. unfold fld. rewrite Rs; [done|].
    intros [Hin|Hin]%elem_of_app; [apply Hq; by eapply Hsp|]. eapply root_not_kid; [exact H| |exact Hp]. by rewrite app_nil_r.
  - intros q [HqS Hq]%elem_of_difference. rewrite not_elem_of_singleton in Hq. rewrite fn_lookup_insert_ne, (Sm _ child) by done. by apply H.
  - intros q [HqS Hq]%elem_of_difference. rewrite not_elem_of_singleton in Hq. rewrite fn_lookup_insert_ne, (Sm _ degree) by done. by apply H.
  - destruct (sh_acyclic _ _ _ _ _ H) as [ht Hht]. exists ht. intros p q [_ Hp]%Hkids. auto.
  - intros q. destruct (decide (q = ret)) as [->|]; [rewrite fn_lookup_insert; unfold D; cbn; lia|rewrite fn_lookup_insert_ne by done; apply H].
Qed.

Lemma extract_forest m m' S roots kids ret R :
  forest m S roots [] kids -> ret ∈ roots -> orphaned m m' (kids ret) (kids ret ++ roots) ->
  ring m' R -> ret :: R ≡ₚ kids ret ++ roots -> forest m' (S ∖ {[ret]}) R [] (<[ret := []]> kids).
Proof.
  intros [H Ho Hm] Hret HO Hring HR. pose proof HO as [P Sm Rs]. split; [by eapply extract_shape| |].
  - eapply ordered_sub; [|..|exact Ho]; [intros p; by apply Sm|].
    intros p q [[_ Hn%not_elem_of_nil]|[_ Hp]]%kids_insert; done.
  - intros q. destruct (decide (q = ret)) as [->|Hq].
    + exists []. rewrite fn_lookup_insert. done.
    + rewrite fn_lookup_insert_ne by done. destruct (Hm q) as (l & Hl & Hi). exists l. split; [done|].
      intros i k Hk. specialize (Hi i k Hk). assert (k <> ret) as Hkr.
      { intros ->. eapply (root_not_kid _ _ _ _ _ ret q H); [by rewrite app_nil_r|]. rewrite <-Hl. by apply list_elem_of_lookup_2 in Hk. }
      rewrite fn_lookup_insert_ne by done. unfold marked in *. rewrite (Sm _ mark) by done. done.
Qed.

(** *** The invariant of a heap *)

Record fib_rep h roots kids : Prop := {
  fr_forest : forest (mem h) (dom (mem h)) roots [] kids;
  fr_root : root h = head roots;
  fr_least : least h roots;
  fr_nodes : nodes h = Z.of_nat (size (mem h));
  fr_size : Z.of_nat (size (mem h)) <= UINT32_MAX;
  fr_pool : pool_ok (pool h);
  fr_in_use : forall p, p ∈ in_use (pool h) <-> p ∈ dom (mem h);
  fr_keys : forall p, is_u32 (keyof (mem h) p)
}.

Lemma extr_min_node_ok h roots kids ret :
  fib_rep h roots kids -> min h = Some ret ->
  exists h' roots' kids', fibheap_extr_min_node h = Ok (h', ret) /\
    forest (mem h') (dom (mem h) ∖ {[ret]}) roots' [] kids' /\ root h' = head roots' /\ least h' roots' /\
    nodes h' = nodes h - 1 /\ pool h' = pool h /\ same_data (mem h) (mem h').
Proof.
  intros [Hf Hroot Hl Hn Hs _ _ _] Hmin. pose proof (f_shape _ _ _ _ _ Hf) as H. unfold least in Hl. rewrite Hmin in Hl.
  destruct Hl as [Hret Hle]. unfold fibheap_extr_min_node. rewrite Hmin.
  destruct (sh_root _ _ _ _ _ H ret) as [HretS Hpar]; [by rewrite app_nil_r|].
  destruct (deref_fld _ _ _ _ (sh_child _ _ _ _ _ H ret HretS)) as (n & -> & _ & En). cbn [mbind res_bind]. rewrite En.
  pose proof (sh_nodup _ _ _ _ _ H) as Hnd. rewrite app_nil_r in Hnd.
  destruct roots as [|r l]; [by apply not_elem_of_nil in Hret|].
  destruct (children_to_roots_ok h r l (kids ret)) as (m1 & fin & -> & H1 & Hp1 & O1);
    [apply H| |done|apply H|].
  { apply NoDup_app. split_and!; [apply H| |done]. intros p Hp Hpr. eapply root_not_kid; [exact H| |exact Hp]. by rewrite app_nil_r. }
  cbn [mbind res_bind]. destruct (rem_root_ring (with_mem h m1) (r :: fin) ret) as (m2 & R & -> & H2 & H3 & Hp2 & Hlo & Hfr);
    [done|..].
  { rewrite Hp1. apply NoDup_app. split_and!; [apply H| |done]. intros p Hp Hpr. eapply root_not_kid; [exact H| |exact Hp]. by rewrite app_nil_r. }
  { rewrite Hp1, elem_of_app. by right. }
  { cbn. rewrite (or_parent _ _ _ _ O1). by case_decide. }
  assert (orphaned (mem h) m2 (kids ret) (kids ret ++ r :: l)) as O2.
  { eapply orphaned_links; [exact O1|exact Hlo|]. intros p Hp. apply Hfr. by rewrite Hp1. }
  assert (same_data (mem h) m2) as Hd2 by (intros p; by apply (or_same _ _ _ _ O2)).
  assert (forest m2 (dom (mem h) ∖ {[ret]}) R [] (<[ret := []]> kids)) as Hf2.
  { eapply extract_forest; [exact Hf|done|done|done|by rewrite Hp2, Hp1]. }
  assert (Z.of_nat (size (dom (mem h) ∖ {[ret]})) = Z.of_nat (size (mem h)) - 1) as Hsz.
  { rewrite size_difference by set_solver. rewrite size_singleton, size_dom.
    assert (size (mem h) <> 0)%nat; [|lia]. intros E0%map_size_empty_inv. rewrite E0 in HretS. by rewrite dom_empty in HretS. }
  cbn [mbind res_bind]. cbn [nodes set_nodes set_root with_mem]. rewrite Hn.
  rewrite wrap_small by (unfold UINT32_MAX in *; lia). case_if.
  - assert (size (dom (mem h) ∖ {[ret]}) = 0)%nat as E0 by lia.
    assert (R = []) as ->.
    { destruct R as [|p R]; [done|]. destruct (sh_root _ _ _ _ _ (f_shape _ _ _ _ _ Hf2) p) as [Hin _]; [left|].
      apply size_empty_inv in E0. set_solver. }
    eexists _, [], _. split; [done|]. split_and!; done.
  - destruct (sh_live _ _ _ _ _ H ret HretS) as [n0 En0].
    assert (is_Some (m2 !! ret)) as [n2 En2]. { specialize (Hd2 ret). unfold fld in Hd2. rewrite En0 in Hd2. destruct (m2 !! ret); [by eexists|done]. }
    unfold deref at 1. cbn [mem set_nodes set_root with_mem]. rewrite En2. cbn [mbind res_bind].
    match goal with |- context [fibheap_consolidate ?x] => set (h2 := x) end.
    destruct (consolidate_ok h2 (dom (mem h) ∖ {[ret]}) R (<[ret := []]> kids)) as (m3 & R3 & kids3 & mn & -> & Hf3 & Hl3 & Hd3 & _);
      [done|done|unfold UINT32_MAX in *; lia|]. cbn [mbind res_bind]. eexists _, R3, kids3. split; [done|].
    split_and!; try done. cbn. by eapply same_data_trans.
Qed.

Lemma root_above m S roots kids p :
  forest m S roots [] kids -> p ∈ S -> exists r, r ∈ roots /\ keyof m r <= keyof m p.
Proof.
  intros [H Ho _] Hp. destruct (sh_acyclic _ _ _ _ _ H) as [ht Hht].
  set (N := max_list (ht <$> elements S)).
  assert (forall q, q ∈ S -> (ht q <= N)%nat) as HN.
  { intros q Hq. apply max_list_elem_of_le, list_elem_of_fmap. exists q. split; [done|]. by apply elem_of_elements. }
  remember (N - ht p)%nat as n eqn:En. revert p Hp En. induction (lt_wf n) as [n _ IH]. intros p Hp ->.
  destruct (sh_live _ _ _ _ _ H p Hp) as [np Enp].
  assert (fld parent m p = Some (parent np)) as Hpar by (apply fld_Some; eauto).
  destruct (parent np) as [q|].
  - apply (sh_parent _ _ _ _ _ H) in Hpar; [|done]. destruct (sh_kid _ _ _ _ _ H _ _ Hpar) as (_ & HqS & _).
    pose proof (Hht _ _ Hpar). pose proof (HN q HqS).
    destruct (IH (N - ht q)%nat) with (p := q) as (r & Hr & Hle); [lia|done|done|]. exists r. split; [done|].
    specialize (Ho _ _ Hpar). assert (Some p <> None) as Hn by done. specialize (Ho Hn). lia.
  - apply (sh_noparent _ _ _ _ _ H) in Hpar; [|done]. rewrite app_nil_r in Hpar. exists p. split; [done|lia].
Qed.

Lemma rep_least h roots kids :
  fib_rep h roots kids ->
  match min h with
  | None => mem h = ∅
  | Some r => r ∈ roots /\ r ∈ dom (mem h) /\ forall p, p ∈ dom (mem h) -> keyof (mem h) r <= keyof (mem h) p
  end.
Proof.
  intros [Hf _ Hl _ _ _ _ _]. unfold least in Hl. destruct (min h) as [r|].
  - destruct Hl as [Hr Hl]. split_and!; [done| |].
    + apply (sh_root _ _ _ _ _ (f_shape _ _ _ _ _ Hf)). by rewrite app_nil_r.
    + intros p Hp. destruct (root_above _ _ _ _ _ Hf Hp) as (r' & Hr' & Hle). specialize (Hl _ Hr'). lia.
  - subst roots. apply map_empty. intros p. destruct (mem h !! p) as [n|] eqn:E; [|done].
    destruct (root_above _ _ _ _ p Hf) as (r & Hr & _); [by apply elem_of_dom_2 in E|]. by apply not_elem_of_nil in Hr.
Qed.

(** A forest depends on the memory of its nodes only. *)
Lemma forest_ext m m' S roots loose kids :
  (forall p, p ∈ S -> m' !! p = m !! p) -> forest m S roots loose kids -> forest m' S roots loose kids.
Proof.
  intros Heq [H Ho Hm]. assert (forall X (g : fibnode A -> X) p, p ∈ S -> fld g m' p = fld g m p) as Hfld.
  { intros X g p Hp. unfold fld. by rewrite Heq. }
  assert (forall l, (forall p, p ∈ l -> p ∈ S) -> ring m l -> ring m' l) as Hring.
  { intros l Hl. apply ring_ext. intros p Hp. split; apply Hfld; auto. }
  assert (forall p q, p ∈ kids q -> p ∈ S /\ q ∈ S) as Hk by (intros p q Hp; by apply (sh_kid _ _ _ _ _ H) in Hp as (? & ? & _)).
  assert (forall p, p ∈ roots ++ loose -> p ∈ S) as Hr by (intros p Hp; by apply (sh_root _ _ _ _ _ H)).
  split.
  - destruct H. split; try done.
    + intros p Hp. rewrite Heq by done. auto.
    + intros p q Hp. rewrite Hfld by (by apply (Hk p q)). auto.
    + intros p Hp. rewrite Hfld by auto. auto.
    + intros p q Hp. rewrite Hfld by auto. auto.
    + intros p Hp. rewrite Hfld by auto. auto.
    + apply Hring; [|done]. intros p Hp. apply Hr, elem_of_app. by left.
    + intros p Hp. apply Hring; [|auto]. intros q ->%list_elem_of_singleton. apply Hr, elem_of_app. by right.
    + intros q. apply Hring; [|auto]. intros p Hp. by apply (Hk p q).
    + intros q Hq. rewrite Hfld by auto. auto.
    + intros q Hq. rewrite Hfld by auto. auto.
  - intros p q Hp Hb. unfold keyof. rewrite !Hfld by (by apply (Hk p q)). by apply Ho.
  - intros q. destruct (Hm q) as (l & Hl & Hi). exists l. split; [done|]. intros i k Hik. specialize (Hi i k Hik).
    unfold marked in *. rewrite Hfld; [done|]. apply (Hk k q). rewrite <-Hl. by apply list_elem_of_lookup_2 in Hik.
Qed.

Lemma same_data_dom m m' : same_data m m' -> dom m' = dom m.
Proof.
  intros H. apply set_eq. intros p. rewrite !elem_of_dom. specialize (H p). unfold fld in H.
  destruct (m !! p), (m' !! p); try done.
Qed.

Definition view h : gmap ptr (Z * A) := kd <$> mem h.

Lemma same_data_view m m' : same_data m m' -> kd <$> m' = kd <$> m.
Proof. intros H. apply map_eq. intros p. rewrite !lookup_fmap. apply H. Qed.

Lemma keyof_view h p : keyof (mem h) p = default 0 (fst <$> view h !! p).
Proof. unfold keyof, view, fld. rewrite lookup_fmap. by destruct (mem h !! p). Qed.

(** *** Insertion and extraction *)

Lemma rebuild_one h p :
  rebuild_roots h [Some p] = (h ← fibheap_ins_root h p; b ← below_min h p; Ok (if (b : bool) then set_min h (Some p) else h)).
Proof. done. Qed.

Lemma new_node_forest m S roots kids p k (d : A) :
  forest m S roots [] kids -> p ∉ S ->
  forest (<[p := MkFib None None p p k d 0 false]> m) ({[p]} ∪ S) roots [p] kids.
Proof.
  intros Hf Hp. set (m' := <[p := _]> m).
  assert (forest m' S roots [] kids) as [H Ho Hm].
  { eapply forest_ext; [|exact Hf]. intros q Hq. unfold m'. rewrite lookup_insert_ne; [done|congruence]. }
  assert (forall q, p ∉ kids q) as Hpk by (intros q Hin; apply (sh_kid _ _ _ _ _ H) in Hin as (? & _); done).
  assert (kids p = []) as Hkp.
  { destruct (kids p) as [|c l] eqn:E; [done|]. destruct (sh_kid _ _ _ _ _ H c p) as (_ & ? & _); [rewrite E; left|done]. }
  assert (p ∉ roots) as Hpr. { intros Hin. apply Hp. apply (sh_root _ _ _ _ _ H). by rewrite app_nil_r. }
  assert (m' !! p = Some (MkFib None None p p k d 0 false)) as Em by (unfold m'; by rewrite lookup_insert_eq).
  split; [|done|done]. destruct H. rewrite app_nil_r in *. split; try done.
  - intros q [->%elem_of_singleton|Hq]%elem_of_union; [by eexists|auto].
  - intros q r Hq. destruct (sh_kid0 q r Hq) as (? & ? & ?). set_solver.
  - intros q [Hq| ->%list_elem_of_singleton]%elem_of_app.
    + destruct (sh_root0 q Hq). set_solver.
    + split; [set_solver|]. apply fld_Some. eauto.
  - intros q r [->%elem_of_singleton|Hq]%elem_of_union; [|auto]. unfold fld. by rewrite Em.
  - intros q [->%elem_of_singleton|Hq]%elem_of_union Hn; apply elem_of_app; [right; left|]. left. auto.
  - apply NoDup_app. split_and!; [done| |apply NoDup_singleton]. by intros q Hq ->%list_elem_of_singleton.
  - intros q ->%list_elem_of_singleton. split; apply fld_Some; eauto.
  - intros q [->%elem_of_singleton|Hq]%elem_of_union; [|auto]. apply fld_Some. rewrite Hkp. eauto.
  - intros q [->%elem_of_singleton|Hq]%elem_of_union; [|auto]. apply fld_Some. rewrite Hkp. eauto.
Qed.

Lemma insert_ok h roots kids k d :
  fib_rep h roots kids -> Z.of_nat (size (mem h)) < UINT32_MAX -> is_u32 k ->
  exists h' p roots' , fibheap_insert h k d = Ok (h', p) /\ fib_rep h' roots' kids /\
    p ∉ dom (mem h) /\ view h' = <[p := (k, d)]> (view h).
Proof.
  intros [Hf Hroot Hl Hn Hs Hpo Hin Hk] Hlt Hku. destruct (pool_alloc_ok (pool h) Hpo) as (p & pl & E & Hpo' & Hp & Hu).
  assert (p ∉ dom (mem h)) as Hpd by by rewrite <-Hin. unfold fibheap_insert. rewrite E. cbn [mbind res_bind].
  set (h1 := MkFibheap _ _ _ _ _).
  assert (forest (mem h1) ({[p]} ∪ dom (mem h)) roots (omap id [Some p]) kids) as Hf1 by by apply new_node_forest.
  assert (least h1 roots) as Hl1.
  { unfold least in *. change (min h1) with (min h). destruct (min h) as [r|]; [|done]. destruct Hl as [Hr Hl]. split; [done|].
    assert (forall q, q ∈ roots -> keyof (mem h1) q = keyof (mem h) q) as Hkey.
    { intros q Hq. unfold keyof, fld. cbn. rewrite lookup_insert_ne; [done|]. intros ->. apply Hpd.
      apply (sh_root _ _ _ _ _ (f_shape _ _ _ _ _ Hf)). by rewrite app_nil_r. }
    intros q Hq. rewrite !Hkey by done. auto. }
  destruct (rebuild_roots_ok [Some p] h1 ({[p]} ∪ dom (mem h)) roots kids Hf1 Hroot Hl1) as (m2 & roots2 & mn & E2 & Hf2 & Hl2 & Hd2 & _).
  rewrite rebuild_one in E2. destruct (fibheap_ins_root h1 p) as [h2| |]; cbn [mbind res_bind] in E2 |- *; try done.
  destruct (below_min h2 p) as [b| |]; cbn [mbind res_bind] in E2 |- *; try done. injection E2 as E2. rewrite E2.
  assert (dom m2 = {[p]} ∪ dom (mem h)) as Hdom by (rewrite (same_data_dom _ _ Hd2); cbn; by rewrite dom_insert_L).
  assert (Z.of_nat (size m2) = Z.of_nat (size (mem h)) + 1) as Hsz.
  { rewrite <-(size_dom (D := gset ptr) m2), Hdom, size_union, size_singleton, size_dom by set_solver. lia. }
  assert (kd <$> m2 = <[p := (k, d)]> (view h)) as Hview by (rewrite (same_data_view _ _ Hd2); cbn; by rewrite fmap_insert).
  eexists _, p, roots2. split; [done|]. split_and!; [|done|done].
  split; cbn [nodes min root pool mem set_nodes set_min set_root with_mem h1].
  - by rewrite Hdom.
  - done.
  - done.
  - rewrite Hn, Hsz, wrap_small; [done|]. unfold UINT32_MAX in *. lia.
  - lia.
  - done.
  - intros q. rewrite Hu, Hdom, elem_of_cons, elem_of_union, elem_of_singleton, Hin. done.
  - intros q. rewrite (same_data_key _ _ q Hd2). unfold keyof, fld. cbn. destruct (decide (p = q)) as [->|].
    + by rewrite lookup_insert_eq.
    + rewrite lookup_insert_ne by done. apply Hk.
Qed.

(** Freeing a node that was taken out of the forest. *)
Lemma free_rep h roots kids ret S :
  forest (mem h) S roots [] kids -> root h = head roots -> least h roots -> S = dom (mem h) ∖ {[ret]} -> ret ∈ dom (mem h) ->
  nodes h = Z.of_nat (size (mem h)) - 1 -> Z.of_nat (size (mem h)) <= UINT32_MAX -> pool_ok (pool h) ->
  (forall p, p ∈ in_use (pool h) <-> p ∈ dom (mem h)) -> (forall p, is_u32 (keyof (mem h) p)) ->
  exists h', free_node h ret = Ok h' /\ fib_rep h' roots kids /\ mem h' = delete ret (mem h) /\ min h' = min h.
Proof.
  intros Hf Hroot Hl -> Hret Hn Hs Hpo Hin Hk. destruct (pool_free_ok (pool h) ret Hpo) as (pl & E & Hpo' & Hu); [by apply Hin|].
  unfold free_node. rewrite E. cbn [mbind res_bind]. eexists. split; [done|]. split_and!; [|done|done].
  assert (size (mem h) <> 0)%nat as Hne. { intros E0%map_size_empty_inv. rewrite E0, dom_empty in Hret. by apply not_elem_of_empty in Hret. }
  assert (Z.of_nat (size (delete ret (mem h))) = Z.of_nat (size (mem h)) - 1) as Hsz.
  { rewrite map_size_delete_Some by by apply elem_of_dom. lia. }
  assert (forall p, p ∈ roots -> p <> ret) as Hpr.
  { intros p Hp ->. destruct (sh_root _ _ _ _ _ (f_shape _ _ _ _ _ Hf) ret) as [Hr _]; [by rewrite app_nil_r|]. set_solver. }
  assert (forall p, p <> ret -> keyof (delete ret (mem h)) p = keyof (mem h) p) as Hkey.
  { intros p Hp. unfold keyof, fld. by rewrite lookup_delete_ne. }
  split; cbn [mem nodes root pool].
  - rewrite dom_delete_L. eapply forest_ext; [|exact Hf]. intros p Hp. rewrite lookup_delete_ne; [done|set_solver].
  - done.
  - unfold least in *. cbn [min mem]. destruct (min h) as [r|]; [|done]. destruct Hl as [Hr Hl]. split; [done|].
    intros p Hp. rewrite !Hkey by auto. auto.
  - lia.
  - lia.
  - done.
  - intros p. rewrite Hu, Hin, dom_delete, elem_of_difference, elem_of_singleton. done.
  - intros p. destruct (decide (p = ret)) as [->|]; [|rewrite Hkey by done; auto].
    unfold keyof, fld. rewrite lookup_delete_eq. done.
Qed.

Lemma extract_node_ok h roots kids ret :
  fib_rep h roots kids -> min h = Some ret ->
  exists h1 h' roots' kids' n, fibheap_extr_min_node h = Ok (h1, ret) /\ deref h1 ret = Ok n /\
    view h !! ret = Some (kd n) /\ free_node h1 ret = Ok h' /\ fib_rep h' roots' kids' /\ view h' = delete ret (view h).
Proof.
  intros Hrep Hmin. pose proof (rep_least _ _ _ Hrep) as Hl. rewrite Hmin in Hl. destruct Hl as (_ & Hret & _).
  destruct (extr_min_node_ok _ _ _ _ Hrep Hmin) as (h1 & roots1 & kids1 & E & Hf1 & Hr1 & Hl1 & Hn1 & Hp1 & Hd1).
  destruct Hrep as [Hf Hroot Hl Hn Hs Hpo Hin Hk]. pose proof (same_data_dom _ _ Hd1) as Hdom.
  assert (size (mem h1) = size (mem h)) as Hsz by by rewrite <-!(size_dom (D := gset ptr)), Hdom.
  destruct (free_rep h1 roots1 kids1 ret (dom (mem h) ∖ {[ret]})) as (h' & E' & Hrep' & Hm' & _); try done.
  - by rewrite Hdom.
  - by rewrite Hdom.
  - by rewrite Hn1, Hn, Hsz.
  - by rewrite Hsz.
  - by rewrite Hp1.
  - intros p. by rewrite Hp1, Hdom.
  - intros p. rewrite (same_data_key _ _ _ Hd1). auto.
  - assert (ret ∈ dom (mem h1)) as [n En]%elem_of_dom by by rewrite Hdom.
    exists h1, h', roots1, kids1, n. unfold deref. rewrite En. split_and!; try done.
    + unfold view. rewrite <-(same_data_view _ _ Hd1), lookup_fmap, En. done.
    + unfold view. rewrite Hm', fmap_delete, (same_data_view _ _ Hd1). done.
Qed.

(** *** Replacing keys and deleting nodes *)

Lemma dom_fuel m S roots loose kids :
  shape m S roots loose kids -> (size S <= size m)%nat.
Proof.
  intros H. rewrite <-(size_dom (D := gset ptr)). apply subseteq_size. intros p Hp. by apply elem_of_dom, (sh_live _ _ _ _ _ H).
Qed.

(** The cuts of [fibheap_replace_key]. *)
Lemma lowered_ok h S roots kids p n :
  shape (mem h) S roots [] kids -> marks (mem h) kids None -> ordered (mem h) kids (Some p) ->
  p ∈ S -> root h = head roots -> mem h !! p = Some n ->
  exists m' roots' kids',
    match parent n with
    | None => Ok h
    | Some y =>
        ny ← deref h y;
        if key n <=? key ny then
          h ← fibheap_cut h p y; fibheap_cascading_cut (Datatypes.S (size (mem h))) h y
        else Ok h
    end = Ok (set_root (with_mem h m') (head roots')) /\
    forest m' S roots' [] kids' /\ same_data (mem h) m' /\ (forall q, q ∈ roots -> q ∈ roots') /\
    (p ∈ roots' \/ exists y, y ∈ S /\ y <> p /\ p ∉ roots /\ keyof (mem h) y < keyof (mem h) p).
Proof.
  intros H Hm Ho HpS Hroot En. assert (fld parent (mem h) p = Some (parent n)) as Hpar by (apply fld_Some; eauto).
  assert (set_root (with_mem h (mem h)) (head roots) = h) as Eh by (destruct h; cbn in *; by subst).
  destruct (parent n) as [y|].
  - apply (sh_parent _ _ _ _ _ H) in Hpar; [|done]. destruct (sh_kid _ _ _ _ _ H _ _ Hpar) as (_ & HyS & _).
    assert (y <> p) as Hyp. { intros ->. destruct (sh_acyclic _ _ _ _ _ H) as [ht Hht]. specialize (Hht _ _ Hpar). lia. }
    destruct (sh_live _ _ _ _ _ H y HyS) as [ny Ey]. unfold deref. rewrite Ey. cbn [mbind res_bind].
    rewrite <-(keyof_deref _ _ _ En), <-(keyof_deref _ _ _ Ey). case_if.
    + destruct (cut_ok h S roots [] kids p y) as (m1 & kq & -> & H1 & Hkq & Hd1 & Hmk1 & Hfr1); [done..|]. cbn [mbind res_bind].
      destruct (cascading_cut_ok (Datatypes.S (size (mem (set_root (with_mem h m1) (head (add_root p roots))))))
        (set_root (with_mem h m1) (head (add_root p roots))) S (add_root p roots) [] (<[y := kq]> kids) y)
        as (m2 & roots2 & kids2 & -> & H2 & Hm2 & Ho2 & Hd2 & Hr2 & _); [done| | |done|done| |].
      * eapply marks_cut; [exact H|exact Hpar|exact Hkq|by left|done|done].
      * eapply ordered_sub; [exact Hd1| |exact Ho]. intros a b [[-> Ha]|[Hb Ha]]%kids_insert.
        -- assert (NoDup (p :: kq)) as [Hpk _]%NoDup_cons by (rewrite Hkq; apply H). split; [rewrite <-Hkq; by right|congruence].
        -- split; [done|]. intros [= ->]. apply Hb. by eapply (shape_single_parent _ _ _ _ _ H).
      * cbn. pose proof (dom_fuel _ _ _ _ _ H1). lia.
      * exists m2, roots2, kids2. split_and!; try done.
        -- by eapply same_data_trans.
        -- intros q Hq. apply Hr2. rewrite add_root_perm. by right.
        -- left. apply Hr2. rewrite add_root_perm. left.
    + exists (mem h), roots, kids. rewrite Eh. split_and!; try done.
      * split; [done| |done]. intros a b Hab _. destruct (decide (a = p)) as [->|].
        -- rewrite (shape_single_parent _ _ _ _ _ H p b y Hab Hpar). lia.
        -- apply Ho; [done|congruence].
      * right. exists y. split_and!; try done. intros Hin. eapply root_not_kid; [exact H| |exact Hpar]. by rewrite app_nil_r.
  - apply (sh_noparent _ _ _ _ _ H) in Hpar; [|done]. exists (mem h), roots, kids. rewrite Eh. split_and!; try done.
    + split; [done| |done]. intros a b Hab _. apply Ho; [done|]. intros [= ->]. by eapply root_not_kid.
    + left. by rewrite app_nil_r in Hpar.
Qed.

Lemma decrease_key_ok h roots kids p k k0 d :
  fib_rep h roots kids -> view h !! p = Some (k0, d) -> 0 <= k < k0 ->
  exists h' roots' kids', decrease_key h p k = Ok (h', p) /\ fib_rep h' roots' kids' /\
    view h' = <[p := (k, d)]> (view h) /\ ((forall q, k <= keyof (mem h) q) -> min h' = Some p).
Proof.
  intros Hrep Hv Hk0. pose proof (rep_least _ _ _ Hrep) as Hle.
  destruct Hrep as [[H Ho Hm] Hroot Hl Hn Hs Hpo Hin Hk]. unfold view in Hv. rewrite lookup_fmap in Hv.
  destruct (mem h !! p) as [n|] eqn:En; [|done]. injection Hv as Ek Ed.
  assert (p ∈ dom (mem h)) as Hpd by by apply elem_of_dom_2 in En.
  unfold decrease_key. rewrite assign_ok by by eexists. cbn [mbind res_bind]. set (h1 := with_mem h _).
  assert (mem h1 !! p = Some (set_key k n)) as En1 by (cbn; by rewrite lookup_alter_eq, En).
  assert (forall q, keyof (mem h1) q = if decide (q = p) then k else keyof (mem h) q) as Hkey.
  { intros q. case_decide as E; [subst; by apply (keyof_deref h1 _ _ En1)|]. unfold keyof. cbn. by rewrite fld_alter_ne. }
  assert (keyof (mem h) p = k0) as Hkp by (by rewrite (keyof_deref _ _ _ En)).
  assert (deref h1 p = Ok (set_key k n)) as -> by (unfold deref; by rewrite En1). cbn [mbind res_bind].
  destruct (lowered_ok h1 (dom (mem h)) roots kids p (set_key k n)) as (m2 & roots2 & kids2 & -> & Hf2 & Hd2 & Hr2 & Hp2);
    [by apply shape_alter| | |done|done|done|].
  { intros q. destruct (Hm q) as (l & Hl' & Hi). exists l. split; [done|]. intros i a Ha. specialize (Hi i a Ha).
    unfold marked in *. cbn. by rewrite fld_alter_same. }
  { intros a b Hab Hap. specialize (Ho a b Hab). assert (Some a <> None) as Hn0 by done. specialize (Ho Hn0).
    rewrite !Hkey, (decide_False (P := a = p)) by congruence. case_decide; [subst; lia|done]. }
  cbn [mbind res_bind]. cbn [min set_root with_mem h1].
  destruct (min h) as [r|] eqn:Emin; [|rewrite Hle in En; by rewrite lookup_empty in En].
  destruct Hle as (Hrr & Hrd & Hle). pose proof (same_data_dom _ _ Hd2) as Hdom2.
  assert (dom (mem h1) = dom (mem h)) as Hdom1 by (cbn; apply dom_alter_L).
  assert (forall q, keyof m2 q = if decide (q = p) then k else keyof (mem h) q) as Hkey2.
  { intros q. by rewrite (same_data_key _ _ _ Hd2), Hkey. }
  assert (exists n2, m2 !! p = Some n2) as [n2 E2] by (apply elem_of_dom; by rewrite Hdom2, Hdom1).
  assert (exists nr, m2 !! r = Some nr) as [nr Er] by (apply elem_of_dom; by rewrite Hdom2, Hdom1).
  unfold deref. cbn [mem set_root with_mem]. rewrite E2, Er. cbn [mbind res_bind].
  set (h2 := set_root (with_mem h1 m2) (head roots2)).
  rewrite <-(keyof_deref h2 _ _ E2), <-(keyof_deref h2 _ _ Er). change (mem h2) with m2.
  rewrite (Hkey2 p), (Hkey2 r), decide_True by done.
  assert (size m2 = size (mem h)) as Hsz by by rewrite <-!(size_dom (D := gset ptr)), Hdom2, Hdom1.
  assert (kd <$> m2 = <[p := (k, d)]> (view h)) as Hview.
  { rewrite (same_data_view _ _ Hd2). cbn. apply map_eq. intros q. unfold view. rewrite lookup_fmap. destruct (decide (p = q)) as [<-|].
    - rewrite lookup_alter_eq, lookup_insert_eq, En. cbn. by rewrite <-Ed.
    - by rewrite lookup_alter_ne, lookup_insert_ne, lookup_fmap by done. }
  assert (forall mn, least (set_min h2 mn) roots2 -> fib_rep (set_min h2 mn) roots2 kids2) as Hfin.
  { intros mn Hmn. split; cbn [mem nodes root pool set_min h2 set_root with_mem h1]; try done.
    - by rewrite Hdom2, Hdom1.
    - by rewrite Hsz.
    - by rewrite Hsz.
    - intros q. by rewrite Hdom2, Hdom1.
    - intros q. rewrite Hkey2. case_decide; [|auto]. specialize (Hk p). unfold is_u32 in *. lia. }
  assert (forall q, q ∈ roots2 -> q ∈ dom (mem h)) as Hrd2.
  { intros q Hq. apply (sh_root _ _ _ _ _ (f_shape _ _ _ _ _ Hf2)). by rewrite app_nil_r. }
  destruct (k <=? (if decide (r = p) then k else keyof (mem h) r)) eqn:Ekr; bool_to_prop.
  - eexists (set_min h2 (Some p)), roots2, kids2. split_and!; [done| |done|done]. apply Hfin. unfold least. cbn [min set_min mem h2 set_root with_mem].
    split.
    + destruct Hp2 as [|(y & HyS & Hyp & Hpr & Hlt)]; [done|]. exfalso.
      rewrite (Hkey y), (Hkey p), decide_False, decide_True in Hlt by done.
      specialize (Hle y HyS). rewrite decide_False in Ekr by congruence. lia.
    + intros q Hq. rewrite !Hkey2, decide_True by done.
      destruct (decide (q = p)); [lia|]. specialize (Hle q (Hrd2 q Hq)). destruct (decide (r = p)); [subst|]; lia.
  - assert (r <> p) as Hrp by (intros ->; rewrite decide_True in Ekr by done; lia). rewrite decide_False in Ekr by done.
    exists (set_min h2 (Some r)), roots2, kids2. split_and!.
    + assert (set_min h2 (Some r) = h2) as ->; [|done].
      unfold h2, h1, set_min, set_root, with_mem. cbn. by rewrite Emin.
    + apply Hfin. unfold least. cbn [min set_min mem h2 set_root with_mem]. split; [by apply Hr2|]. intros q Hq.
      rewrite !Hkey2, (decide_False (P := r = p)) by done. case_decide; [lia|]. by apply Hle, Hrd2.
    + done.
    + intros Hall. specialize (Hall r). lia.
Qed.

Lemma replace_zero_ok h roots kids p k0 d :
  fib_rep h roots kids -> view h !! p = Some (k0, d) -> 0 < k0 \/ min h = Some p ->
  exists h' roots' kids', replace_key 0 h p FIBHEAPKEY_MIN = Ok (h', p) /\ fib_rep h' roots' kids' /\
    view h' = <[p := (0, d)]> (view h) /\ min h' = Some p.
Proof.
  intros Hrep Hv Hk. pose proof (fr_keys _ _ _ Hrep) as Hu. pose proof Hv as Hv'. unfold view in Hv. rewrite lookup_fmap in Hv.
  destruct (mem h !! p) as [n|] eqn:En; [|done]. injection Hv as Ek Ed.
  pose proof (Hu p) as Hup. rewrite (keyof_deref _ _ _ En), Ek in Hup. unfold is_u32 in Hup.
  cbn [replace_key]. unfold deref. rewrite En. cbn [mbind res_bind]. rewrite Ek. unfold FIBHEAPKEY_MIN.
  destruct (decide (k0 = 0)) as [->|Hne].
  - cbn. exists h, roots, kids. split_and!; [done|done|by rewrite insert_id|]. destruct Hk; [lia|done].
  - rewrite (proj2 (Z.eqb_neq 0 k0)), (proj2 (Z.ltb_ge k0 0)) by lia.
    destruct (decrease_key_ok h roots kids p 0 k0 d) as (h' & roots' & kids' & E & H1 & H2 & H3); [done|done|lia|].
    exists h', roots', kids'. split_and!; try done. apply H3. intros q. specialize (Hu q). unfold is_u32 in Hu. lia.
Qed.

Lemma extract_min_ok h roots kids ret :
  fib_rep h roots kids -> min h = Some ret ->
  exists h' roots' kids' k d, fibheap_extract_min h = Ok (h', Some d) /\ view h !! ret = Some (k, d) /\
    fib_rep h' roots' kids' /\ view h' = delete ret (view h).
Proof.
  intros Hrep Hmin. destruct (extract_node_ok _ _ _ _ Hrep Hmin) as (h1 & h' & roots' & kids' & n & E1 & E2 & E3 & E4 & H & Hv).
  unfold fibheap_extract_min. rewrite Hmin, E1. cbn [mbind res_bind]. rewrite E2. cbn [mbind res_bind]. rewrite E4. cbn [mbind res_bind].
  exists h', roots', kids', (key n), (data n). done.
Qed.

Lemma delete_node_ok h roots kids p k0 d :
  fib_rep h roots kids -> view h !! p = Some (k0, d) -> 0 < k0 \/ min h = Some p ->
  exists h' roots' kids', fibheap_delete_node h p = Ok (h', d) /\ fib_rep h' roots' kids' /\ view h' = delete p (view h).
Proof.
  intros Hrep Hv Hk. unfold fibheap_delete_node, delete_with.
  destruct (replace_zero_ok _ _ _ _ _ _ Hrep Hv Hk) as (h1 & roots1 & kids1 & -> & Hrep1 & Hv1 & Hmin1).
  unfold view in Hv. rewrite lookup_fmap in Hv. unfold deref. destruct (mem h !! p) as [n|] eqn:En; [|done]. injection Hv as _ Ed.
  cbn [mbind res_bind].
  destruct (extract_min_ok _ _ _ _ Hrep1 Hmin1) as (h2 & roots2 & kids2 & k & d' & -> & _ & Hrep2 & Hv2). cbn [mbind res_bind].
  exists h2, roots2, kids2. rewrite Ed, Hv2, Hv1, delete_insert_eq. done.
Qed.

Lemma delete_loop_ok fuel : forall h roots kids,
  fib_rep h roots kids -> (size (mem h) <= fuel)%nat ->
  exists h' roots' kids', delete_loop fuel h = Ok h' /\ fib_rep h' roots' kids' /\ mem h' = ∅.
Proof.
  induction fuel as [|fuel IH]; intros h roots kids Hrep Hfuel; pose proof (rep_least _ _ _ Hrep) as Hl;
    cbn [delete_loop]; destruct (min h) as [r|] eqn:Emin; try (exists h, roots, kids; done).
  - destruct Hl as (_ & Hr & _). assert (size (mem h) = 0)%nat as E0%map_size_empty_inv by lia. rewrite E0, dom_empty in Hr. set_solver.
  - destruct Hl as (_ & Hr & _).
    destruct (extract_node_ok _ _ _ _ Hrep Emin) as (h1 & h' & roots' & kids' & n & E1 & E2 & E3 & E4 & H & Hv).
    rewrite E1. cbn [mbind res_bind]. rewrite E4. cbn [mbind res_bind]. apply (IH h' roots' kids'); [done|].
    assert (size (mem h') = size (view h')) as -> by (unfold view; by rewrite map_size_fmap).
    rewrite Hv, map_size_delete_Some by by eexists. unfold view. rewrite map_size_fmap.
    apply elem_of_dom in Hr as [nr Er]. assert (size (mem h) <> 0)%nat; [|lia].
    intros E0%map_size_empty_inv. rewrite E0, lookup_empty in Er. done.
Qed.

Lemma replace_key_eq h p k :
  fibheap_replace_key h p k =
    (n ← deref h p;
     if k =? key n then Ok (h, p)
     else if key n <? k then '(h, d) ← fibheap_delete_node h p; fibheap_insert h k d
     else decrease_key h p k).
Proof. done. Qed.

Definition fib_ok h : Prop := exists roots kids, fib_rep h roots kids.

Lemma view_size h : fib_ok h -> fibheap_size h = Z.of_nat (size (view h)).
Proof.
  intros (roots & kids & Hrep). unfold fibheap_size, view. rewrite (fr_nodes _ _ _ Hrep), map_size_fmap. done.
Qed.

Lemma view_insert h k (d : A) : fib_ok h -> Z.of_nat (size (view h)) < UINT32_MAX -> is_u32 k ->
  exists h' p, fibheap_insert h k d = Ok (h', p) /\ fib_ok h' /\ view h !! p = None /\ view h' = <[p := (k, d)]> (view h).
Proof.
  intros (roots & kids & Hrep) Hs Hk. assert (size (view h) = size (mem h)) as Hsz by apply map_size_fmap.
  destruct (insert_ok h roots kids k d) as (h' & p & roots' & E & H & Hp & Hv); [done|lia|done|]. exists h', p.
  split_and!; [done|by exists roots', kids| |done]. unfold view. rewrite lookup_fmap.
  apply not_elem_of_dom in Hp. by rewrite Hp.
Qed.

Lemma view_extract h : fib_ok h ->
  exists h' o, fibheap_extract_min h = Ok (h', o) /\ fib_ok h' /\ fibheap_min h = Ok o /\
     match o with
     | None => view h = ∅ /\ h' = h /\ fibheap_min_key h = Ok FIBHEAPKEY_MAX
     | Some x => exists p kx, view h !! p = Some (kx, x) /\ view h' = delete p (view h) /\
         (forall q kq y, view h !! q = Some (kq, y) -> kx <= kq) /\ fibheap_min_key h = Ok kx
     end.
Proof.
  intros (roots & kids & Hrep).
  pose proof (rep_least _ _ _ Hrep) as Hl. unfold fibheap_min, fibheap_min_key. destruct (min h) as [r|] eqn:Emin.
  - destruct Hl as (_ & Hr & Hl).
    destruct (extract_min_ok _ _ _ _ Hrep Emin) as (h' & roots' & kids' & kr & x & E & Hx & H & Hv). exists h', (Some x).
    unfold view in Hx. rewrite lookup_fmap in Hx. unfold deref. destruct (mem h !! r) as [n|] eqn:En; [|done].
    injection Hx as Ek Ed. cbn [mbind res_bind]. rewrite Ed. split_and!; [done|by exists roots', kids'|done|].
    exists r, kr. unfold view at 1. rewrite lookup_fmap, En. cbn. unfold kd. rewrite Ek, Ed. split_and!; try done.
    intros q kq y Hq. assert (q ∈ dom (mem h)) as Hqd.
    { apply elem_of_dom. unfold view in Hq. rewrite lookup_fmap in Hq. by destruct (mem h !! q). }
    specialize (Hl q Hqd). rewrite (keyof_deref _ _ _ En), keyof_view, Hq in Hl. cbn in Hl. lia.
  - exists h, None. unfold fibheap_extract_min. rewrite Emin. split_and!; try done; [by exists roots, kids|].
    unfold view. by rewrite Hl, fmap_empty.
Qed.

Lemma view_delete h p k0 (d : A) : fib_ok h -> view h !! p = Some (k0, d) -> 0 < k0 \/ min h = Some p ->
  exists h', fibheap_delete_node h p = Ok (h', d) /\ fib_ok h' /\ view h' = delete p (view h).
Proof.
  intros (roots & kids & Hrep) Hv Hk. destruct (delete_node_ok _ _ _ _ _ _ Hrep Hv Hk) as (h1 & roots1 & kids1 & E1 & Hrep1 & Hv1).
  exists h1. split_and!; [done|by exists roots1, kids1|done].
Qed.

Lemma view_replace h p k0 (d : A) k : fib_ok h -> view h !! p = Some (k0, d) -> 0 < k0 \/ min h = Some p -> is_u32 k ->
  exists h' p', fibheap_replace_key h p k = Ok (h', p') /\ fib_ok h' /\ (k <= k0 -> p' = p) /\
     delete p (view h) !! p' = None /\ view h' = <[p' := (k, d)]> (delete p (view h)).
Proof.
  intros (roots & kids & Hrep) Hv Hk Hku.
  destruct (delete_node_ok _ _ _ _ _ _ Hrep Hv Hk) as (h1 & roots1 & kids1 & E1 & Hrep1 & Hv1).
  pose proof Hv as Hv'. unfold view in Hv'. rewrite lookup_fmap in Hv'. destruct (mem h !! p) as [n|] eqn:En; [|done].
  injection Hv' as Ek Ed. rewrite replace_key_eq. unfold deref. rewrite En. cbn [mbind res_bind]. rewrite Ek.
  unfold is_u32 in Hku. destruct (k =? k0) eqn:E2; bool_to_prop; [|destruct (k0 <? k) eqn:E3; bool_to_prop].
  - subst k. exists h, p. split_and!; [done|by exists roots, kids|done|apply lookup_delete_eq|]. by rewrite insert_delete_id.
  - rewrite E1. cbn [mbind res_bind].
    destruct (insert_ok h1 roots1 kids1 k d) as (h2 & p2 & roots2 & -> & Hrep2 & Hp2 & Hv2); [done| |done|].
    { pose proof (fr_size _ _ _ Hrep). assert (size (mem h1) = size (view h1)) as -> by (unfold view; by rewrite map_size_fmap).
      rewrite Hv1, map_size_delete_Some by by eexists. unfold view. rewrite map_size_fmap.
      assert (size (mem h) <> 0)%nat; [|lia]. intros E0%map_size_empty_inv. rewrite E0, lookup_empty in En. done. }
    exists h2, p2. rewrite <-Hv1. split_and!; [done|by exists roots2, kids1|lia| |done].
    unfold view. rewrite lookup_fmap. apply not_elem_of_dom in Hp2. by rewrite Hp2.
  - destruct (decrease_key_ok h roots kids p k k0 d) as (h2 & roots2 & kids2 & -> & Hrep2 & Hv2 & _); [done|done|lia|].
    exists h2, p. split_and!; [done|by exists roots2, kids2|done|apply lookup_delete_eq|]. by rewrite Hv2, insert_delete_eq.
Qed.


(** The node freed last is the next one allocated, so a node whose key is raised
    keeps its address too. *)
Lemma delete_node_slot h p k0 d h' d' : fib_ok h -> view h !! p = Some (k0, d) -> 0 < k0 \/ min h = Some p ->
  fibheap_delete_node h p = Ok (h', d') -> exists l, free_list (pool h') = p :: l.
Proof.
  intros (roots & kids & Hrep) Hv Hk. unfold fibheap_delete_node, delete_with.
  destruct (replace_zero_ok _ _ _ _ _ _ Hrep Hv Hk) as (h1 & roots1 & kids1 & -> & Hrep1 & Hv1 & Hmin1).
  unfold deref. destruct (mem h !! p) as [n|]; [|done]. cbn [mbind res_bind].
  destruct (extract_node_ok _ _ _ _ Hrep1 Hmin1) as (h2 & h3 & roots' & kids' & n' & E1 & E2 & E3 & E4 & _).
  unfold fibheap_extract_min. rewrite Hmin1, E1. cbn [mbind res_bind]. rewrite E2. cbn [mbind res_bind]. rewrite E4. cbn [mbind res_bind].
  intros [= <- _]. revert E4. unfold free_node, pool_free. case_decide; [|done]. cbn. intros [= <-]. cbn. by eexists.
Qed.

Lemma insert_slot h p l k d h' p' : free_list (pool h) = p :: l -> fibheap_insert h k d = Ok (h', p') -> p' = p.
Proof.
  intros E. unfold fibheap_insert, pool_alloc. rewrite !E. cbn [mbind res_bind].
  match goal with |- context [fibheap_ins_root ?x p] => destruct (fibheap_ins_root x p) as [h1| |] end; cbn [mbind res_bind]; [|done|done].
  destruct (below_min h1 p) as [b| |]; cbn [mbind res_bind]; [|done|done]. by intros [= _ <-].
Qed.

Lemma view_replace_same h p k0 (d : A) k h' p' : fib_ok h -> view h !! p = Some (k0, d) -> 0 < k0 \/ min h = Some p ->
  fibheap_replace_key h p k = Ok (h', p') -> p' = p.
Proof.
  intros Hok Hv Hk. rewrite replace_key_eq. pose proof Hv as Hv'. unfold view in Hv'. rewrite lookup_fmap in Hv'. unfold deref at 1.
  destruct (mem h !! p) as [n|]; [|done]. cbn [mbind res_bind]. case_if; [by intros [= _ <-]|]. case_if.
  - destruct (fibheap_delete_node h p) as [[h1 d1]| |] eqn:Ed; cbn [mbind res_bind]; [|done|done].
    destruct (delete_node_slot _ _ _ _ _ _ Hok Hv Hk Ed) as [l El]. by apply insert_slot with l.
  - unfold decrease_key. destruct (assign (set_key k) h p) as [h1| |]; cbn [mbind res_bind]; [|done|done].
    destruct (deref h1 p) as [n1| |]; cbn [mbind res_bind]; [|done|done].
    match goal with |- mbind _ ?X = _ -> _ => destruct X as [h2| |]; [|done|done] end. cbn [mbind res_bind].
    destruct (min h2) as [m|]; [|done]. destruct (deref h2 p); cbn [mbind res_bind]; [|done|done].
    destruct (deref h2 m); cbn [mbind res_bind]; [|done|done]. by intros [= _ <-].
Qed.

(** ** The properties *)

(** C39. A Fibonacci heap is a priority queue: [fibheap_insert] adds one node with its
    key and data, [fibheap_extract_min] removes a node with the smallest key and
    returns its data (nothing happens on an empty heap), [fibheap_min] and
    [fibheap_min_key] announce that node, and [fibheap_size] counts the nodes.  No
    loop runs forever, no pointer is wild and the array of
    [fibheap_consolidate] is never overrun. *)
Theorem fibheap_queue h k (d : A) :
  fib_ok h -> Z.of_nat (size (view h)) < UINT32_MAX -> is_u32 k ->
  (exists h' p, fibheap_insert h k d = Ok (h', p) /\ fib_ok h' /\
     view h !! p = None /\ view h' = <[p := (k, d)]> (view h)) /\
  (exists h' o, fibheap_extract_min h = Ok (h', o) /\ fib_ok h' /\ fibheap_min h = Ok o /\
     match o with
     | None => view h = ∅ /\ h' = h /\ fibheap_min_key h = Ok FIBHEAPKEY_MAX
     | Some x => exists p kx, view h !! p = Some (kx, x) /\ view h' = delete p (view h) /\
         (forall q kq y, view h !! q = Some (kq, y) -> kx <= kq) /\ fibheap_min_key h = Ok kx
     end) /\
  fibheap_size h = Z.of_nat (size (view h)).
Proof.
  intros Hok Hs Hk. split_and!; [by apply view_insert|by apply view_extract|by apply view_size].
Qed.

(** [fibheap_delete_node] removes exactly the given node and returns its data, and
    [fibheap_replace_key] gives its data the new key, provided that the old key is
    not 0 or the node is the minimum; a key that is not raised keeps its node. *)
Theorem fibheap_replace_delete h p k0 (d : A) k :
  fib_ok h -> view h !! p = Some (k0, d) -> 0 < k0 \/ min h = Some p -> is_u32 k ->
  (exists h', fibheap_delete_node h p = Ok (h', d) /\ fib_ok h' /\ view h' = delete p (view h)) /\
  (exists h' p', fibheap_replace_key h p k = Ok (h', p') /\ fib_ok h' /\ (k <= k0 -> p' = p) /\
     delete p (view h) !! p' = None /\ view h' = <[p' := (k, d)]> (delete p (view h))).
Proof.
  intros Hok Hv Hk Hku. split; [by eapply view_delete|by eapply view_replace].
Qed.

(** Deleting a node whose key is 0 while another node is the minimum removes the
    minimum instead: [fibheap_replace_key] returns early because the key is already
    the smallest one, and the following extraction takes the other node.  The
    caller gets the data of a node that is still in the heap. *)
Theorem fibheap_delete_zero_key h p r (d : A) :
  fib_ok h -> view h !! p = Some (0, d) -> min h = Some r -> r <> p ->
  exists h', fibheap_delete_node h p = Ok (h', d) /\ view h' = delete r (view h) /\ view h' !! p = Some (0, d).
Proof.
  intros (roots & kids & Hrep) Hv Hmin Hrp.
  destruct (extract_min_ok _ _ _ _ Hrep Hmin) as (h' & roots' & kids' & k & x & E & _ & _ & Hv').
  unfold fibheap_delete_node, delete_with. cbn [replace_key]. pose proof Hv as Hv2. unfold view in Hv2. rewrite lookup_fmap in Hv2.
  unfold deref. destruct (mem h !! p) as [n|] eqn:En; [|done]. injection Hv2 as Ek Ed. cbn [mbind res_bind]. rewrite Ek. cbn.
  rewrite E. cbn [mbind res_bind]. exists h'. rewrite Ed. split_and!; [done|done|]. by rewrite Hv', lookup_delete_ne.
Qed.


Lemma new_heap_ok n h : fibheap_new n = Ok h -> fib_ok h.
Proof.
  unfold fibheap_new, create_alloc_pool. case_decide as Hn; [done|]. intros [= <-]. exists [], (fun _ => []). split; cbn; try done.
  - split; [|by intros p q ?%not_elem_of_nil|intros q; by exists []].
    assert (forall p, p ∉ dom (∅ : gmap ptr (fibnode A))) as Hd by (intros p; rewrite dom_empty; set_solver).
    split; cbn; try (by intros p Hp; exfalso; eapply Hd); try (by intros p q Hp; exfalso; eapply Hd);
      try (by intros p ?%not_elem_of_nil); try (by intros p q ?%not_elem_of_nil); try (intros; by constructor).
    + exists (fun _ => 0%nat). by intros p q ?%not_elem_of_nil.
    + intros q. unfold D. lia.
  - destruct (create_alloc_pool_ok n) as (pl & E & Hok & _); [lia|]. unfold create_alloc_pool in E. rewrite decide_False in E by done.
    by injection E as <-.
  - intros p. rewrite dom_empty. set_solver.
Qed.




(** [fibheap_delete] frees every node exactly once and ends with an empty heap. *)
Theorem fibheap_delete_frees_all h :
  fib_ok h -> exists h', fibheap_delete h = Ok h' /\ mem h' = ∅ /\ in_use (pool h') = [] /\ fib_ok h'.
Proof.
  intros (roots & kids & Hrep). destruct (delete_loop_ok (Datatypes.S (size (mem h))) h roots kids) as (h' & roots' & kids' & E & H & Hm);
    [done|lia|]. exists h'. split_and!; [done|done| |by exists roots', kids'].
  apply elem_of_nil_inv. intros p Hp%(fr_in_use _ _ _ H). rewrite Hm, dom_empty in Hp. set_solver.
Qed.

End shape.

(** Fibonacci heaps implement the interface of [KeyedQueue.v]. *)
#[export] Program Instance fibheap_keyed_queue {A : Type} : KeyedQueue A (fibheap A) := {
  kq_insert := fibheap_insert;
  kq_extract_min := fibheap_extract_min;
  kq_replace_key := fibheap_replace_key;
  kq_delete_node := fibheap_delete_node;
  kq_size := fibheap_size;
  kq_ok := fib_ok;
  kq_view := view
}.
Next Obligation. intros A h Hok. by apply view_size. Qed.
Next Obligation. intros A h k d Hok Hs Hk. by apply view_insert. Qed.
Next Obligation.
  intros A h Hok. destruct (view_extract h Hok) as (h' & o & E & Hok' & _ & Hv). exists h', o.
  split_and!; [done|done|]. destruct o as [x|]; [|tauto]. destruct Hv as (p & k & H1 & H2 & H3 & _). by exists p, k.
Qed.
Next Obligation.
  intros A h p k0 d k Hok Hv Hk Hku. destruct (view_replace h p k0 d k Hok Hv) as (h' & p' & E & H1 & _ & H2); [by left|done|].
  by exists h', p'.
Qed.
Next Obligation. intros A h p k0 d Hok Hv Hk. apply (view_delete h p k0 d Hok Hv). by left. Qed.

#[export] Program Instance fibheap_peek_queue {A : Type} : PeekQueue A (fibheap A) := {
  kq_min := fibheap_min;
  kq_min_key := fibheap_min_key;
  kq_key h p := n ← deref h p; Ok (key n)
}.
Next Obligation.
  intros A h p k d _ Hv. unfold kq_view, fibheap_keyed_queue, view in Hv. rewrite lookup_fmap in Hv. unfold deref.
  destruct (mem h !! p) as [n|]; [|done]. cbn in Hv |- *. unfold kd in Hv. congruence.
Qed.
Next Obligation.
  intros A h Hok. destruct (view_extract h Hok) as (h' & o & E & _ & Hm & Hv). exists h', o. split; [exact E|]. split; [exact Hm|].
  destruct o as [x|]; [|apply Hv]. destruct Hv as (p & k & H1 & H2 & H3 & H4). by exists p, k.
Qed.
Next Obligation. intros A h p k0 d k h' p' Hok Hv Hk E. eapply (view_replace_same h p k0 d k); [exact Hok|exact Hv|by left|exact E]. Qed.

(** *** Witnesses *)

Fixpoint insert_all {A : Type} (h : fibheap A) (l : list (Z * A)) : res (fibheap A) :=
  match l with
  | [] => Ok h
  | (k, d) :: l => '(h, _) ← fibheap_insert h k d; insert_all h l
  end.

Lemma insert_all_ok {A : Type} (l : list (Z * A)) : forall h h',
  fib_ok h -> Forall (fun x => is_u32 x.1) l -> Z.of_nat (size (mem h) + length l) <= UINT32_MAX ->
  insert_all h l = Ok h' -> fib_ok h'.
Proof.
  induction l as [|[k d] l IH]; intros h h' Hok Hl Hs; cbn [insert_all]; [by intros [= <-]|].
  apply Forall_cons in Hl as [Hk Hl]. destruct Hok as (roots & kids & Hrep). cbn [length] in Hs.
  destruct (insert_ok h roots kids k d) as (h1 & p & roots1 & -> & Hrep1 & Hp & Hv); [done|lia|done|].
  cbn [mbind res_bind]. apply IH; [by exists roots1, kids|done|].
  assert (size (mem h1) = S (size (mem h))) as ->; [|lia].
  rewrite <-(map_size_fmap kd (mem h1)). fold (view h1). rewrite Hv, map_size_insert_None; [unfold view; by rewrite map_size_fmap|].
  unfold view. rewrite lookup_fmap. apply not_elem_of_dom in Hp. by rewrite Hp.
Qed.

Definition fib0 : fibheap nat := MkFibheap 0 None None (MkPool 4 [] 0 0 0 [] 0) ∅.
Definition fib_of (l : list (Z * nat)) : fibheap nat := match insert_all fib0 l with Ok h => h | _ => fib0 end.
Definition fib3 : fibheap nat := fib_of [(5, 50%nat); (3, 30%nat); (7, 70%nat)].
Definition fib_zeros : fibheap nat := fib_of [(0, 1%nat); (0, 2%nat)].

Lemma fib3_ok : fib_ok fib3.
Proof.
  apply (insert_all_ok [(5, 50%nat); (3, 30%nat); (7, 70%nat)] fib0); [by apply (new_heap_ok 4)| |done|vm_compute; reflexivity].
  by repeat constructor.
Qed.

Lemma fib_zeros_ok : fib_ok fib_zeros.
Proof.
  apply (insert_all_ok [(0, 1%nat); (0, 2%nat)] fib0); [by apply (new_heap_ok 4)| |done|vm_compute; reflexivity].
  by repeat constructor.
Qed.

Lemma fibheap_queue_witness :
  exists h', fibheap_extract_min fib3 = Ok (h', Some 30%nat) /\ fibheap_min_key fib3 = Ok 3.
Proof.
  destruct (fibheap_queue fib3 9 90%nat) as (_ & (h' & o & E & _) & _).
  - exact fib3_ok.
  - vm_compute. reflexivity.
  - split; [lia|reflexivity].
  - assert (o = Some 30%nat) as ->.
    { assert (match fibheap_extract_min fib3 with Ok (_, o) => o | _ => None end = Some 30%nat) as E2
        by (vm_compute; reflexivity). rewrite E in E2. exact E2. }
    exists h'. split; [exact E|vm_compute; reflexivity].
Defined.

Lemma fibheap_replace_delete_witness :
  exists h' p', fibheap_replace_key fib3 3 9 = Ok (h', p') /\ view h' = <[p' := (9, 50%nat)]> (delete 3%nat (view fib3)).
Proof.
  destruct (fibheap_replace_delete fib3 3 5 50%nat 9) as (_ & h' & p' & E & _ & _ & _ & Hv).
  - exact fib3_ok.
  - vm_compute. reflexivity.
  - left. lia.
  - split; [lia|reflexivity].
  - exists h', p'. split; [exact E|exact Hv].
Defined.

Lemma fibheap_delete_zero_key_witness :
  exists h', fibheap_delete_node fib_zeros 2 = Ok (h', 2%nat) /\ view h' !! 2%nat = Some (0, 2%nat).
Proof.
  destruct (fibheap_delete_zero_key fib_zeros 2 3 2%nat) as (h' & E & _ & Hv).
  - exact fib_zeros_ok.
  - vm_compute. reflexivity.
  - vm_compute. reflexivity.
  - discriminate.
  - exists h'. split; [exact E|exact Hv].
Defined.






Lemma fibheap_delete_frees_all_witness : exists h', fibheap_delete fib3 = Ok h' /\ in_use (pool h') = [].
Proof.
  destruct (fibheap_delete_frees_all fib3 fib3_ok) as (h' & E & _ & Hp & _). exists h'. split; [exact E|exact Hp].
Defined.
