(* ===== verification/FdCache.v ===== *)
(** The caches of open files: descriptors of local files
    ([src/zfsd/fs-entities/file/file.c], [internal_fd_data] and [opened]) and of metadata
    files ([src/zfsd/fs-entities/metadata/metadata.c], [metadata_fd_data] and
    [metadata_heap]), which are two copies of the same code.

    A handle remembers a descriptor and its generation; the array has for each
    descriptor the current generation and its node in a priority queue ordered by
    the time of last use, from which the oldest descriptor is taken when there are
    too many.  The queue is any implementation of [KeyedQueue.v].  The mutexes make an
    operation atomic, except that [safe_open] takes them in each round.

    [Cached j] says that a descriptor of the process is open on the file of the
    handle [j], [Other] that it belongs to something else.  [open] returns the lowest
    free descriptor or fails by a script. *)

From S2P Require Import Prelude AllocPool KeyedQueue Fibheap.
#[local] Open Scope Z_scope.

Inductive owner := Cached (j : nat) | Other.

#[export] Instance owner_eq_dec : EqDecision owner.
Proof. solve_decision. Defined.

Definition ENOENT : Z := 2.
Definition ENOTDIR : Z := 20.
Definition EMFILE : Z := 24.
Definition ESTALE : Z := 116.

Record fd_data := FdData { fd_fd : Z; fd_generation : Z; fd_heap_node : option ptr }.
Record handle := Handle { h_fd : Z; h_generation : Z }.

Section cache.
Context {H : Type} `{KeyedQueue nat H} (max_fds : Z).

Record cache := Cache {
  c_data : list fd_data;
  c_opened : H;
  c_handles : gmap nat handle;
  c_table : gmap nat owner;
  c_errors : list (option Z);
  c_times : list Z
}.

Definition set_data (c : cache) (i : nat) (d : fd_data) : cache :=
  Cache (<[i := d]> (c_data c)) (c_opened c) (c_handles c) (c_table c) (c_errors c) (c_times c).
Definition set_opened (c : cache) (h : H) : cache :=
  Cache (c_data c) h (c_handles c) (c_table c) (c_errors c) (c_times c).
Definition set_handle (c : cache) (j : nat) (h : handle) : cache :=
  Cache (c_data c) (c_opened c) (<[j := h]> (c_handles c)) (c_table c) (c_errors c) (c_times c).
Definition set_table (c : cache) (t : gmap nat owner) : cache :=
  Cache (c_data c) (c_opened c) (c_handles c) t (c_errors c) (c_times c).

(** An element of the array, which has no others. *)
Definition data_at (c : cache) (fd : Z) : res fd_data :=
  if fd <? 0 then Aborted
  else match c_data c !! Z.to_nat fd with Some d => Ok d | None => Aborted end.
Definition handle_at (c : cache) (j : nat) : res handle :=
  match c_handles c !! j with Some h => Ok h | None => Aborted end.

(** ** The system calls *)

Definition lowest_free (c : cache) : option nat :=
  head (filter (fun n => c_table c !! n = None) (seq 0 (length (c_data c)))).

Definition sys_open (c : cache) (j : nat) : cache * (Z + nat) :=
  let pass := fun errors =>
    match lowest_free c with
    | Some n => (Cache (c_data c) (c_opened c) (c_handles c) (<[n := Cached j]> (c_table c)) errors (c_times c), inr n)
    | None => (Cache (c_data c) (c_opened c) (c_handles c) (c_table c) errors (c_times c), inl EMFILE)
    end in
  match c_errors c with
  | Some e :: errors => (Cache (c_data c) (c_opened c) (c_handles c) (c_table c) errors (c_times c), inl e)
  | None :: errors => pass errors
  | [] => pass []
  end.

Definition sys_close (c : cache) (fd : Z) : cache := set_table c (delete (Z.to_nat fd) (c_table c)).

(** [time (NULL)]; the clock stops at the end of the script. *)
Definition now (c : cache) : cache * Z :=
  match c_times c with
  | t :: times => (Cache (c_data c) (c_opened c) (c_handles c) (c_table c) (c_errors c) times, t)
  | [] => (c, 1)
  end.

(** ** The operations *)

Definition init_fh_fd_data (c : cache) (j : nat) : res cache :=
  fh ← handle_at c j;
  d ← data_at c (h_fd fh);
  let g := u32 (fd_generation d + 1) in
  let c := set_handle c j (Handle (h_fd fh) g) in
  let '(c, t) := now c in
  '(h, node) ← kq_insert (c_opened c) t (Z.to_nat (h_fd fh));
  Ok (set_data (set_opened c h) (Z.to_nat (h_fd fh)) (FdData (h_fd fh) g (Some node))).

Definition close_local_fd (c : cache) (fd : Z) : res cache :=
  d ← data_at c fd;
  if fd_fd d <? 0 then Aborted
  else
    let g := u32 (fd_generation d + 1) in
    let c := sys_close (set_data c (Z.to_nat fd) (FdData (-1) g (fd_heap_node d))) fd in
    match fd_heap_node d with
    | None => Ok c
    | Some node =>
        '(h, _) ← kq_delete_node (c_opened c) node;
        Ok (set_data (set_opened c h) (Z.to_nat fd) (FdData (-1) g None))
    end.

(** Closes the descriptor that was not used for the longest time, if there is one. *)
Definition close_oldest (c : cache) : res (cache * bool) :=
  '(h, o) ← kq_extract_min (c_opened c);
  let c := set_opened c h in
  match o with
  | None => if 0 <? kq_size h then Aborted else Ok (c, false)
  | Some i =>
      d ← data_at c (Z.of_nat i);
      let c := set_data c i (FdData (fd_fd d) (fd_generation d) None) in
      c ← (if 0 <=? fd_fd d then close_local_fd c (fd_fd d) else Ok c);
      Ok (c, true)
  end.

(** Every round takes a descriptor from the queue. *)
Fixpoint safe_open_loop (fuel : nat) (c : cache) (j : nat) : res (cache * (Z + nat)) :=
  let '(c, r) := sys_open c j in
  if match r with inl e => e =? EMFILE | inr _ => max_fds <=? kq_size (c_opened c) end then
    match fuel with
    | O => OutOfFuel
    | S fuel =>
        '(c, closed) ← close_oldest c;
        if closed : bool then safe_open_loop fuel c j else Ok (c, r)
    end
  else Ok (c, r).
Definition safe_open (c : cache) (j : nat) : res (cache * (Z + nat)) :=
  safe_open_loop (S (size (kq_view (c_opened c)))) c j.

Definition capability_opened_p (c : cache) (j : nat) : res (cache * bool) :=
  fh ← handle_at c j;
  if h_fd fh <? 0 then Ok (c, false)
  else
    d ← data_at c (h_fd fh);
    if negb (h_generation fh =? fd_generation d) then Ok (c, false)
    else
      match fd_heap_node d with
      | None => Aborted
      | Some node =>
          let '(c, t) := now c in
          '(h, node) ← kq_replace_key (c_opened c) node t;
          Ok (set_data (set_opened c h) (Z.to_nat (h_fd fh)) (FdData (fd_fd d) (fd_generation d) (Some node)), true)
      end.

Definition local_close (c : cache) (j : nat) : res cache :=
  fh ← handle_at c j;
  if 0 <=? h_fd fh then
    d ← data_at c (h_fd fh);
    c ← (if h_generation fh =? fd_generation d then close_local_fd c (h_fd fh) else Ok c);
    Ok (set_handle c j (Handle (-1) (h_generation fh)))
  else Ok c.

(** [while (fibheap_size (opened) > 0)]: all descriptors of the cache are closed. *)
Fixpoint cleanup_file_c (fuel : nat) (c : cache) : res cache :=
  if 0 <? kq_size (c_opened c) then
    match fuel with
    | O => OutOfFuel
    | S fuel => '(c, _) ← close_oldest c; cleanup_file_c fuel c
    end
  else Ok c.

(** The descriptor of the file, opened if necessary.  [flags] other than 0 ask for a
    descriptor of its own; [located] tells whether the volume has a local path.  The
    parts under [ENABLE_VERSIONS] are not modelled: they refuse to open a version
    file for writing, and prepare its intervals once it is open. *)
Definition capability_open_nolock (c : cache) (j : nat) (located : bool) (flags : Z) : res (cache * (Z + nat)) :=
  if negb located then Ok (c, inl ESTALE) else
  '(c, opened) ← (if flags =? 0 then capability_opened_p c j else c ← local_close c j; Ok (c, false));
  fh ← handle_at c j;
  if opened : bool then Ok (c, inr (Z.to_nat (h_fd fh)))
  else
    '(c, r) ← safe_open c j;
    match r with
    | inr n =>
        let c := set_handle c j (Handle (Z.of_nat n) (h_generation fh)) in
        c ← init_fh_fd_data c j;
        Ok (c, inr n)
    | inl e =>
        Ok (set_handle c j (Handle (-1) (h_generation fh)),
            inl (if (e =? ENOENT) || (e =? ENOTDIR) then ESTALE else e))
    end.

(** ** The invariant *)

Implicit Types (c : cache) (g : Z).

(** The element of an open descriptor: its node, and the handle that it serves. *)
Definition entry_open (c : cache) (i : nat) (d : fd_data) (p : ptr) : Prop :=
  fd_fd d = Z.of_nat i /\ fd_heap_node d = Some p /\ (exists k, kq_view (c_opened c) !! p = Some (k, i) /\ 0 < k) /\
  exists j, c_table c !! i = Some (Cached j) /\ c_handles c !! j = Some (Handle (Z.of_nat i) (fd_generation d)).

Definition entry_closed (d : fd_data) : Prop := fd_fd d = -1 /\ fd_heap_node d = None.

(** A handle refers to a descriptor of its file, or its generation is an old one. *)
Definition handle_valid (c : cache) (j : nat) (h : handle) : Prop :=
  h_fd h = -1 \/ exists i d, h_fd h = Z.of_nat i /\ c_data c !! i = Some d /\ 0 <= h_generation h <= fd_generation d /\
    (h_generation h = fd_generation d -> fd_fd d = Z.of_nat i /\ c_table c !! i = Some (Cached j)).

(** No generation has come round: those of open descriptors are at most [g], the
    others at most [g']. *)
Record cache_ok (g g' : Z) (c : cache) : Prop := {
  co_heap : kq_ok (c_opened c);
  co_entry : forall i d, c_data c !! i = Some d -> 0 <= fd_generation d /\
    (entry_closed d /\ fd_generation d <= g' \/ exists p, entry_open c i d p /\ fd_generation d <= g);
  co_node : forall p k i, kq_view (c_opened c) !! p = Some (k, i) -> exists d, c_data c !! i = Some d /\ fd_heap_node d = Some p;
  co_handle : forall j h, c_handles c !! j = Some h -> handle_valid c j h;
  co_times : Forall (fun t => 0 < t /\ is_u32 t) (c_times c)
}.

Lemma data_at_some c i d : c_data c !! i = Some d -> data_at c (Z.of_nat i) = Ok d.
Proof. intros E. unfold data_at. rewrite (proj2 (Z.ltb_ge _ _)) by lia. by rewrite Nat2Z.id, E. Qed.

Lemma handle_at_some c j h : c_handles c !! j = Some h -> handle_at c j = Ok h.
Proof. intros E. unfold handle_at. by rewrite E. Qed.

Lemma now_ok c : Forall (fun t => 0 < t /\ is_u32 t) (c_times c) -> exists times t, now c =
    (Cache (c_data c) (c_opened c) (c_handles c) (c_table c) (c_errors c) times, t) /\ 0 < t /\ is_u32 t /\
  Forall (fun t => 0 < t /\ is_u32 t) times.
Proof.
  intros Ht. unfold now. destruct (c_times c) as [|t times] eqn:E.
  - exists [], 1. split_and!; [|lia|unfold is_u32; lia|constructor]. f_equal. destruct c. cbn in *. by rewrite E.
  - apply Forall_cons in Ht as [[? ?] Ht]. by exists times, t.
Qed.

(** The element of an open descriptor, by its node or by its descriptor. *)
Lemma open_by_node g g' c p k i : cache_ok g g' c -> kq_view (c_opened c) !! p = Some (k, i) ->
  exists d, c_data c !! i = Some d /\ entry_open c i d p /\ 0 <= fd_generation d <= g /\ 0 < k.
Proof.
  intros Hok Hv. destruct (co_node _ _ _ Hok _ _ _ Hv) as (d & Hd & Hp). exists d. split; [done|].
  destruct (co_entry _ _ _ Hok _ _ Hd) as [? [[[_ ?] _]|(q & He & ?)]]; [congruence|].
  pose proof He as (_ & E & (k' & Hv' & Hk') & _). assert (q = p) as -> by congruence. split_and!; [done|done|done|congruence].
Qed.

Lemma open_by_fd g g' c i d : cache_ok g g' c -> c_data c !! i = Some d -> fd_fd d = Z.of_nat i ->
  exists p, entry_open c i d p /\ 0 <= fd_generation d <= g.
Proof.
  intros Hok Hd Hf. destruct (co_entry _ _ _ Hok _ _ Hd) as [? [[[? _] _]|(p & He & ?)]]; [lia|]. by exists p.
Qed.

Lemma node_unique c i i' d d' p : entry_open c i d p -> entry_open c i' d' p -> i = i'.
Proof. intros (_ & _ & (k & Hv & _) & _) (_ & _ & (k' & Hv' & _) & _). congruence. Qed.

(** An open element stays open when other elements, nodes, descriptors and handles
    change. *)
Lemma entry_open_kept c c' i d p : entry_open c i d p ->
  (forall k, kq_view (c_opened c) !! p = Some (k, i) -> 0 < k -> exists k', kq_view (c_opened c') !! p = Some (k', i) /\ 0 < k') ->
  (forall j, c_table c !! i = Some (Cached j) -> c_handles c !! j = Some (Handle (Z.of_nat i) (fd_generation d)) ->
    c_table c' !! i = Some (Cached j) /\ c_handles c' !! j = Some (Handle (Z.of_nat i) (fd_generation d))) ->
  entry_open c' i d p.
Proof.
  intros (E1 & E2 & (k & Hv & Hk) & (j & Ht & Hh)) Hview Hother. split_and!; [done|done|by eapply Hview|].
  exists j. by apply Hother.
Qed.

(** Closing the descriptor of an element whose node, if it has one, is in the queue. *)
Lemma close_entry c i d : kq_ok (c_opened c) -> c_data c !! i = Some d -> fd_fd d = Z.of_nat i ->
  0 <= fd_generation d -> fd_generation d + 1 < 2 ^ 32 ->
  (match fd_heap_node d with Some p => exists k, kq_view (c_opened c) !! p = Some (k, i) /\ 0 < k | None => True end) ->
  exists h, close_local_fd c (Z.of_nat i) = Ok (Cache (<[i := FdData (-1) (fd_generation d + 1) None]> (c_data c)) h
      (c_handles c) (delete i (c_table c)) (c_errors c) (c_times c)) /\ kq_ok h /\
    kq_view h = match fd_heap_node d with Some p => delete p (kq_view (c_opened c)) | None => kq_view (c_opened c) end.
Proof.
  intros Hq Hd Hf Hg1 Hg2 Hn. unfold close_local_fd. rewrite (data_at_some _ _ _ Hd). cbn [mbind res_bind].
  rewrite Hf, (proj2 (Z.ltb_ge _ _)), (wrap_small 32) by lia. cbv zeta. unfold sys_close, set_table, set_data. cbn.
  rewrite !Nat2Z.id. destruct (fd_heap_node d) as [p|].
  - destruct Hn as (k & Hv & Hk). destruct (kq_delete_ok _ _ _ _ Hq Hv Hk) as (h & -> & Hh & Hvh). cbn. exists h.
    split_and!; [|done|done]. rewrite list_insert_insert_eq. done.
  - exists (c_opened c). done.
Qed.

(** The state after the descriptor [i] was closed and its node left the queue. *)
Definition closed_state (c : cache) (i : nat) (d : fd_data) (h : H) : cache :=
  Cache (<[i := FdData (-1) (fd_generation d + 1) None]> (c_data c)) h (c_handles c) (delete i (c_table c))
    (c_errors c) (c_times c).

Lemma closed_state_ok g c i d p h : cache_ok g (g + 1) c -> c_data c !! i = Some d -> entry_open c i d p ->
  fd_generation d <= g -> kq_ok h -> kq_view h = delete p (kq_view (c_opened c)) -> cache_ok g (g + 1) (closed_state c i d h).
Proof.
  intros Hok Hd He Hg Hh Hv. assert (forall i' d' p', i' <> i -> c_data c !! i' = Some d' -> entry_open c i' d' p' ->
    p' <> p) as Hother.
  { intros i' d' p' Hne _ He' ->. apply Hne. by eapply node_unique. }
  pose proof (co_entry _ _ _ Hok _ _ Hd) as [Hg0 _].
  constructor; cbn; try done; [|intros q k i' Hq|intros j fh Hj|apply Hok].
  - intros i' d' Hd'. destruct (decide (i' = i)) as [-> |Hne].
    { rewrite list_lookup_insert_eq in Hd' by (by eapply lookup_lt_Some). injection Hd' as <-. cbn.
      split; [lia|]. left. split; [done|]. cbn. lia. }
    rewrite list_lookup_insert_ne in Hd' by done. destruct (co_entry _ _ _ Hok _ _ Hd') as [Hg' [?|(p' & He' & Hge)]].
    { split; [done|by left]. }
    split; [done|right]. exists p'. split; [|done]. pose proof (Hother _ _ _ Hne Hd' He').
    eapply entry_open_kept; [exact He'| |].
    + intros k Hk Hpos. exists k. cbn. rewrite Hv, lookup_delete_ne by done. done.
    + intros j Hj Hj'. cbn. by rewrite lookup_delete_ne by done.
  - rewrite Hv in Hq. apply lookup_delete_Some in Hq as [Hne Hq]. destruct (open_by_node _ _ _ _ _ _ Hok Hq) as (d' & Hd' & He' & _).
    exists d'. destruct (decide (i' = i)) as [-> |Hne'].
    { assert (d' = d) as -> by congruence. destruct He as (_ & ? & _), He' as (_ & ? & _). congruence. }
    rewrite list_lookup_insert_ne by done. split; [done|]. apply He'.
  - destruct (co_handle _ _ _ Hok _ _ Hj) as [?|(i' & d' & E1 & E2 & E3 & E4)]; [by left|]. right.
    destruct (decide (i' = i)) as [-> |Hne].
    + exists i, (FdData (-1) (fd_generation d + 1) None). assert (d' = d) as -> by congruence. cbn.
      rewrite list_lookup_insert_eq by (by eapply lookup_lt_Some). split_and!; [done|done|lia|lia|lia].
    + exists i', d'. cbn. rewrite list_lookup_insert_ne, lookup_delete_ne by done. done.
Qed.

(** No open descriptor serves the handle. *)
Definition unserved (c : cache) (j : nat) : Prop := forall i d, c_data c !! i = Some d -> fd_fd d = Z.of_nat i ->
  c_handles c !! j <> Some (Handle (Z.of_nat i) (fd_generation d)).

(** Changing a handle that serves no open descriptor. *)
Lemma set_handle_ok g g' c j fh : cache_ok g g' c -> handle_valid c j fh -> unserved c j ->
  cache_ok g g' (set_handle c j fh).
Proof.
  intros Hok Hfh Hj. constructor; cbn; try apply Hok.
  - intros i d Hd. destruct (co_entry _ _ _ Hok _ _ Hd) as [Hg [?|(p & He & Hge)]]; (split; [done|]); [by left|right].
    exists p. split; [|done]. eapply entry_open_kept; [exact He|by intros k ? ?; exists k|]. intros j' Ht' Hh'. cbn.
    split; [done|]. rewrite lookup_insert_ne; [done|]. intros <-. eapply Hj; [done|apply He|done].
  - intros j' h' Hj'. apply lookup_insert_Some in Hj' as [[<- <-]|[_ Hj']]; [exact Hfh|].
    exact (co_handle _ _ _ Hok _ _ Hj').
Qed.

(** What an operation leaves of the handles other than [j]. *)
Definition others_same (c c' : cache) (j : nat) : Prop :=
  length (c_data c') = length (c_data c) /\ forall j', j' <> j -> c_handles c' !! j' = c_handles c !! j'.

Lemma local_close_ok g c j fh : cache_ok g (g + 1) c -> c_handles c !! j = Some fh -> g + 1 < 2 ^ 32 ->
  exists c', local_close c j = Ok c' /\ cache_ok g (g + 1) c' /\ others_same c c' j /\
    c_handles c' !! j = Some (Handle (-1) (h_generation fh)).
Proof.
  intros Hok Hj Hg. unfold local_close. rewrite (handle_at_some _ _ _ Hj). cbn [mbind res_bind].
  destruct (co_handle _ _ _ Hok _ _ Hj) as [E|(i & d & E1 & E2 & E3 & E4)].
  { rewrite E, (proj2 (Z.leb_gt _ _)) by lia. exists c. split; [done|split; [done|split; [done|]]]. rewrite Hj. destruct fh as [f1 f2]. cbn in E |- *. by rewrite E. }
  rewrite E1, (proj2 (Z.leb_le _ _)) by lia. rewrite (data_at_some _ _ _ E2). cbn [mbind res_bind].
  destruct (Z.eqb_spec (h_generation fh) (fd_generation d)) as [Eg|Eg].
  - destruct (E4 Eg) as [Ef Et]. destruct (open_by_fd _ _ _ _ _ Hok E2 Ef) as (p & He & Hge).
    pose proof He as (_ & Ep & (k & Hv & Hk) & _).
    destruct (close_entry c i d (co_heap _ _ _ Hok) E2 Ef) as (h & -> & Hh & Hvh); [lia|lia|rewrite Ep; by exists k|].
    rewrite Ep in Hvh. cbn [mbind res_bind]. fold (closed_state c i d h).
    pose proof (closed_state_ok g c i d p h Hok E2 He ltac:(lia) Hh Hvh) as Hc.
    eexists. split; [done|]. split; [|split; [split|]].
    + apply set_handle_ok; [done|by left|]. unfold unserved. cbn. intros i' d' Hd' He' Hj'. rewrite Hj in Hj'. injection Hj' as ->.
      cbn in E1. assert (i' = i) as -> by lia. rewrite list_lookup_insert_eq in Hd' by (by eapply lookup_lt_Some).
      injection Hd' as <-. cbn in *. lia.
    + cbn. by rewrite length_insert.
    + intros j' Hne. cbn. by rewrite lookup_insert_ne.
    + cbn. by rewrite lookup_insert_eq.
  - cbn [mbind res_bind]. eexists. split; [done|]. split; [|split; [split|]].
    + apply set_handle_ok; [done|by left|]. intros i' d' Hd' He' Hj'. rewrite Hj in Hj'. injection Hj' as ->.
      cbn in E1, Eg. assert (i' = i) as -> by lia. congruence.
    + done.
    + intros j' Hne. cbn. by rewrite lookup_insert_ne.
    + cbn. by rewrite lookup_insert_eq.
Qed.

Lemma cache_ok_mono g g' g1 g1' c : cache_ok g g' c -> g <= g1 -> g' <= g1' -> cache_ok g1 g1' c.
Proof.
  intros [? He ? ? ?] H1 H2. constructor; try done. intros i d Hd. destruct (He i d Hd) as [? [[? ?]|(p & ? & ?)]];
    (split; [done|]); [left|right; exists p]; (split; [done|lia]).
Qed.

Lemma lowest_free_some c n : lowest_free c = Some n -> (n < length (c_data c))%nat /\ c_table c !! n = None.
Proof.
  unfold lowest_free. intros E. assert (n ∈ filter (fun n => c_table c !! n = None) (seq 0 (length (c_data c)))) as Hn.
  { destruct (filter _ _); [done|]. injection E as ->. set_solver. }
  apply list_elem_of_filter in Hn as [Hn Hs]. apply elem_of_seq in Hs. split; [lia|done].
Qed.

(** What [open] changes. *)
Lemma sys_open_cases c j : exists errors r table, sys_open c j =
    (Cache (c_data c) (c_opened c) (c_handles c) table errors (c_times c), r) /\
  match r with
  | inl _ => table = c_table c
  | inr n => (n < length (c_data c))%nat /\ c_table c !! n = None /\ table = <[n := Cached j]> (c_table c)
  end.
Proof.
  unfold sys_open. pose proof (lowest_free_some c) as Hf.
  destruct (c_errors c) as [|[e|] errors]; [|by exists errors, (inl e), (c_table c)|];
    (destruct (lowest_free c) as [n|]; [destruct (Hf n eq_refl) as [H1 H2]; by eexists _, (inr n), _|by eexists _, (inl EMFILE), _]).
Qed.

Lemma table_grows_ok g g' c table errors : cache_ok g g' c ->
  (forall i j, c_table c !! i = Some (Cached j) -> table !! i = Some (Cached j)) ->
  cache_ok g g' (Cache (c_data c) (c_opened c) (c_handles c) table errors (c_times c)).
Proof.
  intros Hok Ht. constructor; cbn; try apply Hok.
  - intros i d Hd. destruct (co_entry _ _ _ Hok _ _ Hd) as [Hg [?|(p & He & Hge)]]; (split; [done|]); [by left|right].
    exists p. split; [|done]. eapply entry_open_kept; [exact He|by intros k ? ?; exists k|]. intros j Hj Hh. cbn. by split; [apply Ht|].
  - intros j fh Hj. destruct (co_handle _ _ _ Hok _ _ Hj) as [?|(i & d & E1 & E2 & E3 & E4)]; [by left|right].
    exists i, d. split_and!; try done; [lia|lia|]. intros Eg. destruct (E4 Eg). split; [done|]. by apply Ht.
Qed.

Lemma sys_open_ok g g' c j c' r : cache_ok g g' c -> sys_open c j = (c', r) ->
  cache_ok g g' c' /\ c_data c' = c_data c /\ c_opened c' = c_opened c /\ c_handles c' = c_handles c /\
  match r with inl _ => True | inr n => c_table c' !! n = Some (Cached j) /\ exists d, c_data c !! n = Some d /\ entry_closed d end.
Proof.
  intros Hok E. destruct (sys_open_cases c j) as (errors & r' & table & E' & Hr). rewrite E in E'. injection E' as -> ->.
  split_and!; [|done|done|done|].
  - apply table_grows_ok; [done|]. intros i j' Hi. destruct r' as [e|n]; [by subst|]. destruct Hr as (_ & Hn & ->).
    rewrite lookup_insert_ne; [done|]. intros <-. congruence.
  - destruct r' as [e|n]; [done|]. destruct Hr as (Hlt & Hn & ->). cbn. rewrite lookup_insert_eq. split; [done|].
    apply lookup_lt_is_Some in Hlt as [d Hd]. exists d. split; [done|].
    destruct (co_entry _ _ _ Hok _ _ Hd) as [_ [[? _]|(p & (_ & _ & _ & (j' & ? & _)) & _)]]; [done|congruence].
Qed.

(** What [safe_open] promises. *)
Definition opened_post (g : Z) (c : cache) (j : nat) (c' : cache) (r : Z + nat) : Prop :=
  cache_ok g (g + 1) c' /\ c_handles c' = c_handles c /\ length (c_data c') = length (c_data c) /\
  (forall i d, c_data c' !! i = Some d -> fd_fd d = Z.of_nat i -> c_data c !! i = Some d) /\
  match r with
  | inl _ => True
  | inr n => c_table c' !! n = Some (Cached j) /\ (exists d, c_data c' !! n = Some d /\ entry_closed d) /\
      (kq_size (c_opened c') < max_fds \/ kq_view (c_opened c') = ∅)
  end.

Lemma close_oldest_ok g c : cache_ok g (g + 1) c -> g + 1 < 2 ^ 32 ->
  exists c' b, close_oldest c = Ok (c', b) /\ cache_ok g (g + 1) c' /\
  if b : bool then exists i d p k h, c' = closed_state c i d h /\ c_data c !! i = Some d /\ entry_open c i d p /\
      kq_view (c_opened c) !! p = Some (k, i) /\ kq_view h = delete p (kq_view (c_opened c)) /\
      forall q kq y, kq_view (c_opened c) !! q = Some (kq, y) -> k <= kq
  else c' = c /\ kq_view (c_opened c) = ∅.
Proof.
  intros Hok Hg. unfold close_oldest.
  destruct (kq_extract_ok _ (co_heap _ _ _ Hok)) as (h & o & Ex & Hh & Ho). rewrite Ex. cbn [mbind res_bind].
  destruct o as [i|].
  2: { destruct Ho as [Hv ->]. rewrite (kq_size_view _ Hh), Hv, map_size_empty. cbn.
       exists (set_opened c (c_opened c)), false. replace (set_opened c (c_opened c)) with c by (by destruct c). done. }
  destruct Ho as (p & k & Hv & Hvh & Hmin). destruct (open_by_node _ _ _ _ _ _ Hok Hv) as (d & Hd & He & Hgd & Hk).
  pose proof He as (Ef & _ & _). rewrite (data_at_some (set_opened c h) i d Hd). cbn [mbind res_bind].
  rewrite Ef, (proj2 (Z.leb_le _ _)) by lia. pose proof (lookup_lt_Some _ _ _ Hd) as Hlt.
  destruct (close_entry (set_data (set_opened c h) i (FdData (Z.of_nat i) (fd_generation d) None)) i
    (FdData (Z.of_nat i) (fd_generation d) None)) as (h' & Ec & Hh' & Hvh'); cbn; try done;
    [by rewrite list_lookup_insert_eq|lia|lia|].
  cbn in Ec, Hvh'. rewrite Ec. cbn [mbind res_bind]. rewrite list_insert_insert_eq. fold (closed_state c i d h').
  rewrite Hvh in Hvh'. exists (closed_state c i d h'), true. split; [done|].
  split; [by apply (closed_state_ok g c i d p); try done; lia|]. by exists i, d, p, k, h'.
Qed.

Lemma closed_state_size c i d p k h n : kq_view (c_opened c) !! p = Some (k, i) ->
  kq_view h = delete p (kq_view (c_opened c)) -> (size (kq_view (c_opened c)) < S n)%nat ->
  (size (kq_view (c_opened (closed_state c i d h))) < n)%nat.
Proof.
  intros Hv Hvh Hs. cbn. rewrite Hvh, map_size_delete_Some by by eexists.
  assert (size (kq_view (c_opened c)) <> 0)%nat; [|lia]. intros E%map_size_empty_inv. by rewrite E, lookup_empty in Hv.
Qed.

Lemma safe_open_loop_ok g j fuel : forall c, cache_ok g (g + 1) c -> g + 1 < 2 ^ 32 ->
  (size (kq_view (c_opened c)) < fuel)%nat ->
  exists c' r, safe_open_loop fuel c j = Ok (c', r) /\ opened_post g c j c' r.
Proof.
  induction fuel as [|fuel IH]; intros c Hok Hg Hf; [lia|]. cbn [safe_open_loop].
  destruct (sys_open c j) as [c1 r] eqn:Eo. destruct (sys_open_ok _ _ _ _ _ _ Hok Eo) as (Hok1 & D1 & O1 & H1 & R1).
  destruct (match r with inl e => e =? EMFILE | inr _ => max_fds <=? kq_size (c_opened c1) end) eqn:Efull.
  2: { exists c1, r. split; [done|]. unfold opened_post. rewrite D1. split_and!; [done|done|done|done|]. destruct r as [e|n]; [done|].
       destruct R1. split_and!; [done|done|]. left. lia. }
  destruct (close_oldest_ok g c1 Hok1 Hg) as (c2 & b & -> & Hok2 & Hb). cbn [mbind res_bind]. destruct b.
  2: { destruct Hb as [-> Hv]. exists c1, r. split; [done|].
       unfold opened_post. rewrite D1. split_and!; [done|done|done|done|]. destruct r as [e|n]; [done|]. destruct R1.
       split_and!; [done|done|by right]. }
  destruct Hb as (i & d & p & k & h & -> & Hd & He & Hv & Hvh & _). rewrite <-O1 in Hf.
  destruct (IH _ Hok2 Hg (closed_state_size _ _ d _ _ _ _ Hv Hvh Hf)) as (c' & r' & E' & P1 & P2 & P3 & P5 & P4).
  exists c', r'. split; [exact E'|]. unfold opened_post. pose proof (lookup_lt_Some _ _ _ Hd) as Hlt.
  cbn in P2, P3. rewrite length_insert in P3. split_and!; [done|by rewrite P2|by rewrite P3, D1| |exact P4].
  intros i' d' Hd' Hf'. specialize (P5 _ _ Hd' Hf'). cbn in P5. rewrite <-D1. destruct (decide (i' = i)) as [-> |Hne];
    [|by rewrite list_lookup_insert_ne in P5].
  rewrite list_lookup_insert_eq in P5 by done. injection P5 as <-. cbn in Hf'. lia.
Qed.

(** The element [i] begins to serve the handle [j], or goes on doing so with another
    node. *)
Lemma serving_ok g g' c i j d0 gen p h times : cache_ok g g' c -> c_data c !! i = Some d0 -> kq_ok h ->
  (forall q k i', i' <> i -> kq_view (c_opened c) !! q = Some (k, i') -> kq_view h !! q = Some (k, i')) ->
  (forall q k i', kq_view h !! q = Some (k, i') -> (q = p /\ i' = i) \/ (i' <> i /\ kq_view (c_opened c) !! q = Some (k, i'))) ->
  (exists k, kq_view h !! p = Some (k, i) /\ 0 < k) -> c_table c !! i = Some (Cached j) -> 0 <= gen <= g ->
  Forall (fun t => 0 < t /\ is_u32 t) times ->
  (fd_generation d0 < gen /\ unserved c j) \/ (gen = fd_generation d0 /\ c_handles c !! j = Some (Handle (Z.of_nat i) gen)) ->
  cache_ok g g' (Cache (<[i := FdData (Z.of_nat i) gen (Some p)]> (c_data c)) h (<[j := Handle (Z.of_nat i) gen]> (c_handles c))
    (c_table c) (c_errors c) times).
Proof.
  intros Hok Hd Hh Hv1 Hv2 Hp Ht Hg Htimes Hj. pose proof (lookup_lt_Some _ _ _ Hd) as Hlt.
  constructor; cbn; try done; [intros i' d' Hd'|intros q k i' Hq|intros j' fh Hj'].
  - destruct (decide (i' = i)) as [-> |Hne].
    { rewrite list_lookup_insert_eq in Hd' by done. injection Hd' as <-. split; [cbn; lia|right]. exists p. split; [|cbn; lia].
      split_and!; [done|done|done|]. exists j. cbn. by rewrite lookup_insert_eq. }
    rewrite list_lookup_insert_ne in Hd' by done.
    destruct (co_entry _ _ _ Hok _ _ Hd') as [Hg' [?|(p' & He' & Hge)]]; (split; [done|]); [by left|right].
    exists p'. split; [|done]. eapply entry_open_kept; [exact He'| |].
    + intros k Hk Hpos. exists k. split; [|done]. by apply Hv1.
    + intros j' Hj1 Hj2. cbn. split; [done|]. rewrite lookup_insert_ne; [done|]. intros <-. destruct Hj as [[_ Hun]|[_ Hj]].
      * eapply Hun; [done|apply He'|done].
      * rewrite Hj in Hj2. injection Hj2 as ?. lia.
  - destruct (Hv2 _ _ _ Hq) as [[-> ->]|[Hne Hq']].
    + eexists. by rewrite list_lookup_insert_eq.
    + rewrite list_lookup_insert_ne by done. by eapply (co_node _ _ _ Hok).
  - apply lookup_insert_Some in Hj' as [[<- <-]|[Hne Hj']].
    { right. exists i, (FdData (Z.of_nat i) gen (Some p)). cbn. rewrite list_lookup_insert_eq by done. split_and!; try done; lia. }
    destruct (co_handle _ _ _ Hok _ _ Hj') as [?|(i' & d' & E1 & E2 & E3 & E4)]; [by left|right].
    destruct (decide (i' = i)) as [-> |Hne'].
    + exists i, (FdData (Z.of_nat i) gen (Some p)). cbn. rewrite list_lookup_insert_eq by done. assert (d' = d0) as -> by congruence.
      split_and!; [done|done|lia|lia|]. intros Eg. split; [done|]. destruct Hj as [[? _]|[? _]]; [lia|]. apply E4. lia.
    + exists i', d'. cbn. rewrite list_lookup_insert_ne by done. done.
Qed.

Lemma opened_p_ok g c j fh : cache_ok g (g + 1) c -> c_handles c !! j = Some fh ->
  exists c' b, capability_opened_p c j = Ok (c', b) /\ cache_ok g (g + 1) c' /\ c_handles c' = c_handles c /\
    length (c_data c') = length (c_data c) /\
    if b : bool then 0 <= h_fd fh /\ c_table c' !! Z.to_nat (h_fd fh) = Some (Cached j) else unserved c' j.
Proof.
  intros Hok Hj. unfold capability_opened_p. rewrite (handle_at_some _ _ _ Hj). cbn [mbind res_bind].
  destruct (co_handle _ _ _ Hok _ _ Hj) as [E|(i & d & E1 & E2 & E3 & E4)].
  { rewrite E. cbn. exists c, false. split_and!; try done. intros i d Hd He Hh. rewrite Hj in Hh. injection Hh as ->. cbn in E. lia. }
  rewrite E1, (proj2 (Z.ltb_ge _ _)) by lia. rewrite (data_at_some _ _ _ E2). cbn [mbind res_bind].
  destruct (Z.eqb_spec (h_generation fh) (fd_generation d)) as [Eg|Eg]; cbn [negb].
  2: { exists c, false. split_and!; try done. intros i' d' Hd He Hh. rewrite Hj in Hh. injection Hh as ->. cbn in E1, Eg.
       assert (i' = i) as -> by lia. congruence. }
  destruct (E4 Eg) as [Ef Et]. destruct (open_by_fd _ _ _ _ _ Hok E2 Ef) as (p & He & Hge).
  pose proof He as (_ & -> & (k & Hv & Hk) & _).
  destruct (now_ok c (co_times _ _ _ Hok)) as (times & t & -> & Ht & Htu & Htimes). cbn [c_opened].
  destruct (kq_replace_ok _ _ _ _ _ (co_heap _ _ _ Hok) Hv Hk Htu) as (h & p' & -> & Hh & Hp' & Hvh). cbn [mbind res_bind].
  eexists _, true. split; [done|]. rewrite Nat2Z.id. unfold set_data, set_opened. cbn. rewrite length_insert, Ef.
  split; [|split_and!; try done; lia].
  assert (c_handles c = <[j := Handle (Z.of_nat i) (fd_generation d)]> (c_handles c)) as ->.
  { rewrite insert_id; [done|]. rewrite Hj. destruct fh; cbn in *. by subst. }
  apply (serving_ok g (g + 1) c i j d (fd_generation d) p' h times); try done.
  - intros q k' i' Hne Hq. rewrite Hvh. assert (q <> p) as Hqp by (intros ->; congruence).
    rewrite lookup_insert_ne, lookup_delete_ne by (try done; intros <-; rewrite lookup_delete_ne in Hp' by done; congruence). done.
  - intros q k' i' Hq. rewrite Hvh in Hq. apply lookup_insert_Some in Hq as [[<- [= <- <-]]|[_ Hq]]; [by left|right].
    apply lookup_delete_Some in Hq as [Hqp Hq]. split; [|done]. intros ->.
    destruct (open_by_node _ _ _ _ _ _ Hok Hq) as (d' & Hd' & (_ & Hn & _) & _). destruct He as (_ & ? & _). congruence.
  - exists t. by rewrite Hvh, lookup_insert_eq.
  - right. split; [done|]. rewrite Hj. destruct fh; cbn in *. by subst.
Qed.

(** The descriptor [n], just opened, begins to serve the handle [j]. *)
Lemma init_ok g c j gen n d : cache_ok g (g + 1) c -> c_data c !! n = Some d -> entry_closed d ->
  c_table c !! n = Some (Cached j) -> g + 2 < 2 ^ 32 -> Z.of_nat (size (kq_view (c_opened c))) < UINT32_MAX -> unserved c j ->
  exists c', init_fh_fd_data (set_handle c j (Handle (Z.of_nat n) gen)) j = Ok c' /\ cache_ok (g + 2) (g + 3) c' /\
    c_table c' = c_table c /\ c_handles c' = <[j := Handle (Z.of_nat n) (fd_generation d + 1)]> (c_handles c) /\
    length (c_data c') = length (c_data c).
Proof.
  intros Hok Hd Hcl Ht Hg Hsz Hun.
  destruct (co_entry _ _ _ Hok _ _ Hd) as [Hg0 [[_ Hg1]|(p & (Hf & _) & _)]]; [|destruct Hcl; lia].
  unfold init_fh_fd_data. rewrite (handle_at_some _ j (Handle (Z.of_nat n) gen)) by apply lookup_insert_eq.
  cbn [mbind res_bind h_fd]. rewrite (data_at_some (set_handle _ _ _) n d Hd). cbn [mbind res_bind]. rewrite (wrap_small 32) by lia.
  destruct (now_ok (set_handle (set_handle c j (Handle (Z.of_nat n) gen)) j (Handle (Z.of_nat n) (fd_generation d + 1)))
    (co_times _ _ _ Hok)) as (times & t & -> & Hpos & Htu & Htimes). cbn [c_opened set_handle].
  destruct (kq_insert_ok _ t n (co_heap _ _ _ Hok) Hsz Htu) as (h & p & Ei & Hh & Hp & Hvh). rewrite Nat2Z.id, Ei.
  cbn [mbind res_bind]. eexists. split; [done|]. unfold set_data, set_opened. cbn. rewrite insert_insert_eq, length_insert.
  split; [|split_and!; done].
  apply (serving_ok (g + 2) (g + 3) c n j d); try done; [by eapply cache_ok_mono; [exact Hok|lia|lia]| | | |lia|left; split; [lia|done]].
  - intros q k i' Hne Hq. rewrite Hvh, lookup_insert_ne; [done|]. intros <-. congruence.
  - intros q k i' Hq. rewrite Hvh in Hq. apply lookup_insert_Some in Hq as [[<- [= <- <-]]|[_ Hq]]; [by left|right].
    split; [|done]. intros ->. destruct (open_by_node _ _ _ _ _ _ Hok Hq) as (d' & Hd' & (_ & Hn & _) & _).
    destruct Hcl. congruence.
  - exists t. by rewrite Hvh, lookup_insert_eq.
Qed.

(** The whole operation. *)
Definition open_post (g : Z) (c : cache) (j : nat) (c' : cache) (r : Z + nat) : Prop :=
  cache_ok (g + 2) (g + 3) c' /\ others_same c c' j /\ is_Some (c_handles c' !! j) /\
  match r with
  | inl _ => True
  | inr n => c_table c' !! n = Some (Cached j) /\ exists gen, c_handles c' !! j = Some (Handle (Z.of_nat n) gen)
  end.

Lemma capability_open_ok g c j fh located flags : cache_ok g (g + 1) c -> c_handles c !! j = Some fh -> g + 2 < 2 ^ 32 ->
  max_fds <= UINT32_MAX ->
  exists c' r, capability_open_nolock c j located flags = Ok (c', r) /\ open_post g c j c' r.
Proof.
  intros Hok Hj Hg Hmax. unfold capability_open_nolock. destruct located; cbn [negb].
  2: { eexists _, _. split; [done|]. split; [by eapply cache_ok_mono; [exact Hok|lia|lia]|]. by repeat split. }
  assert (exists c1 fh1 b, (if flags =? 0 then capability_opened_p c j else c ← local_close c j; Ok (c, false)) = Ok (c1, b) /\
    cache_ok g (g + 1) c1 /\ others_same c c1 j /\ c_handles c1 !! j = Some fh1 /\
    if b : bool then 0 <= h_fd fh1 /\ c_table c1 !! Z.to_nat (h_fd fh1) = Some (Cached j) else unserved c1 j) as
    (c1 & fh1 & b & -> & Hok1 & [L1 S1] & Hj1 & Hb).
  { destruct (flags =? 0).
    - destruct (opened_p_ok g c j fh Hok Hj) as (c1 & b & E & H1 & H2 & H3 & H4). exists c1, fh, b. rewrite H2.
      split_and!; try done. split; [done|]. intros. by rewrite H2.
    - destruct (local_close_ok g c j fh Hok Hj) as (c1 & E & H1 & H2 & H3); [lia|]. rewrite E. cbn [mbind res_bind].
      exists c1, (Handle (-1) (h_generation fh)), false. split; [done|split; [done|split; [done|split; [done|]]]].
      intros i d Hd He Hh. rewrite H3 in Hh. injection Hh as Hh _. lia. }
  cbn [mbind res_bind]. rewrite (handle_at_some _ _ _ Hj1). cbn [mbind res_bind]. destruct b.
  { destruct Hb as [Hb1 Hb2]. eexists _, _. split; [done|]. unfold open_post. split; [by eapply cache_ok_mono; [exact Hok1|lia|lia]|].
    split; [done|]. split; [by eexists|]. split; [done|]. exists (h_generation fh1). rewrite Hj1, Z2Nat.id by done. by destruct fh1. }
  unfold safe_open. destruct (safe_open_loop_ok g j (S (size (kq_view (c_opened c1)))) c1 Hok1) as (c2 & r & -> & Hok2 & H2 & L2 & D2 & Hr);
    [lia|lia|]. cbn [mbind res_bind]. destruct r as [e|n].
  - eexists _, _. split; [done|]. split; [|split; [split|split; [|done]]].
    + apply (cache_ok_mono g (g + 1)); [|lia|lia]. apply set_handle_ok; [done|by left|].
      intros i d Hd Hf. rewrite H2. by apply Hb; [apply D2|].
    + cbn. by rewrite L2.
    + intros j' Hne. cbn. rewrite lookup_insert_ne, H2 by done. by apply S1.
    + cbn. rewrite lookup_insert_eq. by eexists.
  - destruct Hr as (Ht & (d & Hd & Hcl) & Hsize).
    destruct (init_ok g c2 j (h_generation fh1) n d) as (c3 & E3 & Hok3 & T3 & H3 & L3); try done.
    { destruct Hsize as [Hs|Hs]; [rewrite (kq_size_view _ (co_heap _ _ _ Hok2)) in Hs; lia|]. by rewrite Hs, map_size_empty. }
    { intros i d' Hd' Hf. rewrite H2. apply Hb; [by apply D2|done]. }
    rewrite E3. cbn [mbind res_bind]. eexists _, _. split; [done|]. split; [done|]. rewrite H3. split; [split|].
    + by rewrite L3, L2.
    + intros j' Hne. rewrite H3, lookup_insert_ne, H2 by done. by apply S1.
    + rewrite lookup_insert_eq. split; [by eexists|]. split; [by rewrite T3|by eexists].
Qed.
(** The descriptor [n] is open on the file of [j], but no element serves it. *)
Definition orphan (c : cache) (n j : nat) : Prop :=
  c_table c !! n = Some (Cached j) /\ exists d, c_data c !! n = Some d /\ entry_closed d.

Lemma close_oldest_orphan g c n j c' b : cache_ok g (g + 1) c -> g + 1 < 2 ^ 32 -> orphan c n j ->
  close_oldest c = Ok (c', b) -> orphan c' n j.
Proof.
  intros Hok Hg (Ht & d & Hd & Hcl) E. destruct (close_oldest_ok g c Hok Hg) as (c2 & b' & E' & _ & Hb).
  rewrite E in E'. injection E' as <- <-. destruct b; [|destruct Hb as [-> _]; split; [done|by exists d]].
  destruct Hb as (i & di & p & k & h & -> & Hdi & (Hf & _) & _). destruct Hcl as [Hf' Hn].
  assert (i <> n) as Hne by (intros ->; assert (di = d) as -> by congruence; lia).
  unfold orphan. cbn. rewrite lookup_delete_ne, list_lookup_insert_ne by done. split; [done|]. exists d. by split.
Qed.

Lemma safe_open_loop_orphan g j n fuel : forall c c' r, cache_ok g (g + 1) c -> g + 1 < 2 ^ 32 -> orphan c n j ->
  safe_open_loop fuel c j = Ok (c', r) -> orphan c' n j /\ r <> inr n.
Proof.
  induction fuel as [|fuel IH]; intros c c' r Hok Hg Hor; cbn [safe_open_loop];
    destruct (sys_open c j) as [c1 r1] eqn:Eo; destruct (sys_open_ok _ _ _ _ _ _ Hok Eo) as (Hok1 & D1 & O1 & H1 & R1).
  all: assert (orphan c1 n j /\ r1 <> inr n) as [Hor1 Hr1].
  1, 3: destruct (sys_open_cases c j) as (errors & r' & table & E' & Hr); rewrite Eo in E'; injection E' as -> ->;
    destruct Hor as (Ht & d & Hd & Hcl); destruct r' as [e|m]; [subst table; split; [split; [done|by exists d]|done]|];
    destruct Hr as (_ & Hm & ->); assert (m <> n) by congruence; split; [|congruence]; split; [cbn; by rewrite lookup_insert_ne|by exists d].
  - destruct (match r1 with inl e => e =? EMFILE | inr _ => max_fds <=? kq_size (c_opened c1) end); [done|]. by intros [= <- <-].
  - destruct (match r1 with inl e => e =? EMFILE | inr _ => max_fds <=? kq_size (c_opened c1) end); [|by intros [= <- <-]].
    destruct (close_oldest c1) as [[c2 b]| |] eqn:E; try done. cbn [mbind res_bind].
    destruct (close_oldest_ok g c1 Hok1 Hg) as (c2' & b' & E' & Hok2 & _). rewrite E in E'. injection E' as <- <-.
    pose proof (close_oldest_orphan _ _ _ _ _ _ Hok1 Hg Hor1 E). destruct b; [by apply IH|by intros [= <- <-]].
Qed.

Lemma cleanup_ok g fuel : forall c, cache_ok g (g + 1) c -> g + 1 < 2 ^ 32 -> (size (kq_view (c_opened c)) < fuel)%nat ->
  exists c', cleanup_file_c fuel c = Ok c' /\ cache_ok g (g + 1) c' /\ kq_view (c_opened c') = ∅ /\
    (forall n, c_table c' !! n = None \/ c_table c' !! n = c_table c !! n) /\
    forall i d p, c_data c !! i = Some d -> entry_open c i d p -> c_table c' !! i = None.
Proof.
  induction fuel as [|fuel IH]; intros c Hok Hg Hf; [lia|]. cbn [cleanup_file_c].
  assert (forall i d p, entry_open c i d p -> kq_view (c_opened c) <> ∅) as Hne.
  { intros i d p (_ & _ & (k & Hv & _) & _) E. by rewrite E, lookup_empty in Hv. }
  destruct (Z.ltb_spec 0 (kq_size (c_opened c))) as [Hs|Hs]; rewrite (kq_size_view _ (co_heap _ _ _ Hok)) in Hs.
  2: { assert (kq_view (c_opened c) = ∅) as E by (apply map_size_empty_inv; lia).
       exists c. split_and!; [done|done|done|by right|]. intros i d p _ He. by destruct (Hne _ _ _ He). }
  destruct (close_oldest_ok g c Hok Hg) as (c2 & b & -> & Hok2 & Hb). cbn [mbind res_bind]. destruct b.
  2: { destruct Hb as [_ E]. rewrite E, map_size_empty in Hs. lia. }
  destruct Hb as (i & d & p & k & h & -> & Hd & He & Hv & Hvh & _).
  destruct (IH _ Hok2 Hg (closed_state_size _ _ d _ _ _ _ Hv Hvh Hf)) as (c' & E & Hok' & Hv' & Hsame & Hall).
  exists c'. cbn in Hsame, Hall. split_and!; [done|done|done| |].
  - intros n. destruct (Hsame n) as [?|E']; [by left|]. destruct (decide (n = i)) as [-> |Hni].
    + left. by rewrite E', lookup_delete_eq.
    + right. by rewrite E', lookup_delete_ne.
  - intros i' d' p' Hd' He'. destruct (decide (i' = i)) as [-> |Hni].
    + destruct (Hsame i) as [?|E']; [done|]. by rewrite E', lookup_delete_eq.
    + apply (Hall i' d' p'); [by rewrite list_lookup_insert_ne|]. eapply entry_open_kept; [exact He'| |].
      * intros k' Hk Hpos. exists k'. cbn. rewrite Hvh, lookup_delete_ne; [done|]. intros <-.
        apply Hni. by eapply node_unique.
      * intros j Hj Hj'. cbn. by rewrite lookup_delete_ne by done.
Qed.

(** ** What happens to a cache *)

(** Handles are created, files are opened and closed, and the rest of the daemon
    opens and closes descriptors of its own. *)
Inductive step (c : cache) : cache -> Prop :=
| step_create j : c_handles c !! j = None -> step c (set_handle c j (Handle (-1) 0))
| step_open j located flags c' r : capability_open_nolock c j located flags = Ok (c', r) -> step c c'
| step_close j c' : local_close c j = Ok c' -> step c c'
| step_env_open n : c_table c !! n = None -> step c (set_table c (<[n := Other]> (c_table c)))
| step_env_close n : c_table c !! n = Some Other -> step c (set_table c (delete n (c_table c))).

Inductive reachable (c0 : cache) : nat -> cache -> Prop :=
| reach_start : reachable c0 0 c0
| reach_step n c c' : reachable c0 n c -> step c c' -> reachable c0 (S n) c'.

Definition fresh (max_nfd : nat) (h : H) (errors : list (option Z)) (times : list Z) : cache :=
  Cache (replicate max_nfd (FdData (-1) 0 None)) h ∅ ∅ errors times.

Lemma fresh_ok n h errors times : kq_ok h -> kq_view h = ∅ -> Forall (fun t => 0 < t /\ is_u32 t) times ->
  cache_ok 0 1 (fresh n h errors times).
Proof.
  intros Hh Hv Ht. constructor; cbn; try done.
  - intros i d [-> _]%lookup_replicate. cbn. split; [lia|left]. by split; [|lia].
  - intros p k i Hp. by rewrite Hv, lookup_empty in Hp.
Qed.

Lemma step_ok g c c' : cache_ok g (g + 1) c -> g + 2 < 2 ^ 32 -> max_fds <= UINT32_MAX -> step c c' ->
  cache_ok (g + 2) (g + 3) c'.
Proof.
  intros Hok Hg Hmax Hs. destruct Hs as [j Hj|j located flags c' r E|j c' E|n Hn|n Hn].
  - apply (cache_ok_mono g (g + 1)); [|lia|lia]. apply set_handle_ok; [done|by left|]. intros i d _ _ E. congruence.
  - destruct (c_handles c !! j) as [fh|] eqn:Hj.
    + destruct (capability_open_ok g c j fh located flags Hok Hj Hg Hmax) as (c1 & r1 & E1 & H1 & _). rewrite E in E1.
      by injection E1 as -> _.
    + unfold capability_open_nolock, capability_opened_p, local_close, handle_at in E. rewrite Hj in E. destruct located; cbn [negb] in E; [by destruct (flags =? 0)|].
      injection E as <- _. by apply (cache_ok_mono g (g + 1)); [|lia|lia].
  - destruct (c_handles c !! j) as [fh|] eqn:Hj.
    + destruct (local_close_ok g c j fh Hok Hj) as (c1 & E1 & H1 & _); [lia|]. rewrite E in E1. injection E1 as ->.
      by apply (cache_ok_mono g (g + 1)); [|lia|lia].
    + unfold local_close, handle_at in E. by rewrite Hj in E.
  - apply (cache_ok_mono g (g + 1)); [|lia|lia]. apply (table_grows_ok g (g + 1) c _ (c_errors c)); [done|]. intros i j Hi.
    rewrite lookup_insert_ne; [done|]. intros <-. congruence.
  - apply (cache_ok_mono g (g + 1)); [|lia|lia]. apply (table_grows_ok g (g + 1) c _ (c_errors c)); [done|]. intros i j Hi.
    rewrite lookup_delete_ne; [done|]. intros <-. congruence.
Qed.

Lemma reachable_ok c0 n c : cache_ok 0 1 c0 -> max_fds <= UINT32_MAX -> reachable c0 n c -> 2 * Z.of_nat n < 2 ^ 32 ->
  cache_ok (2 * Z.of_nat n) (2 * Z.of_nat n + 1) c.
Proof.
  intros Hc0 Hmax Hr. induction Hr as [|n c c' Hr IH Hs]; intros Hn; [done|].
  apply (cache_ok_mono (2 * Z.of_nat n + 2) (2 * Z.of_nat n + 3)); [|lia|lia]. apply (step_ok _ c); [apply IH; lia|lia|done|done].
Qed.

(** C12. In every state of the cache that can be reached, as long as no generation
    has come round: a handle whose generation is the one of its descriptor has that
    descriptor open on its own file, whatever was closed behind its back, and opening
    any handle returns a descriptor that is open on its file or fails without hurting
    the others. *)
Theorem open_handles_are_safe c0 n c j fh located flags :
  cache_ok 0 1 c0 -> max_fds <= UINT32_MAX -> reachable c0 n c -> 2 * Z.of_nat n + 2 < 2 ^ 32 -> c_handles c !! j = Some fh ->
  (forall d, 0 <= h_fd fh -> c_data c !! Z.to_nat (h_fd fh) = Some d -> h_generation fh = fd_generation d ->
    c_table c !! Z.to_nat (h_fd fh) = Some (Cached j)) /\
  exists c' r, capability_open_nolock c j located flags = Ok (c', r) /\
    (forall j', j' <> j -> c_handles c' !! j' = c_handles c !! j') /\
    match r with
    | inl _ => True
    | inr m => c_table c' !! m = Some (Cached j) /\ exists gen, c_handles c' !! j = Some (Handle (Z.of_nat m) gen)
    end.
Proof.
  intros Hc0 Hmax Hr Hn Hj. assert (cache_ok (2 * Z.of_nat n) (2 * Z.of_nat n + 1) c) as Hok by (by eapply reachable_ok; eauto; lia).
  split.
  - intros d Hfd Hd Hg. destruct (co_handle _ _ _ Hok _ _ Hj) as [E|(i & d' & E1 & E2 & _ & E4)]; [lia|].
    rewrite E1, Nat2Z.id in *. assert (d' = d) as -> by congruence. by apply E4.
  - destruct (capability_open_ok _ c j fh located flags Hok Hj Hn Hmax) as (c' & r & E & _ & [_ Hs] & _ & H3). by exists c', r.
Qed.

(** Closing the whole cache in any reachable state empties the queue and closes
    every descriptor that an element serves; the fuel is the number of elements. *)
Theorem cleanup_closes_served c0 n c :
  cache_ok 0 1 c0 -> max_fds <= UINT32_MAX -> reachable c0 n c -> 2 * Z.of_nat n + 1 < 2 ^ 32 ->
  exists c', cleanup_file_c (S (size (kq_view (c_opened c)))) c = Ok c' /\ kq_size (c_opened c') = 0 /\
    forall i d p, c_data c !! i = Some d -> entry_open c i d p -> c_table c' !! i = None.
Proof.
  intros Hc0 Hmax Hr Hn. assert (cache_ok (2 * Z.of_nat n) (2 * Z.of_nat n + 1) c) as Hok by (by eapply reachable_ok; eauto; lia).
  destruct (cleanup_ok _ (S (size (kq_view (c_opened c)))) c Hok) as (c' & E & Hok' & Hv & _ & Ha); [lia|lia|].
  exists c'. rewrite (kq_size_view _ (co_heap _ _ _ Hok')), Hv, map_size_empty. done.
Qed.

(** When the cache is full, [safe_open] opens the file, closes the oldest
    descriptor and opens the file again without closing the first descriptor: that
    one stays open, no element of the cache serves it, and it is not the one
    returned. *)
Theorem full_cache_leaks g c j c1 n :
  cache_ok g (g + 1) c -> g + 1 < 2 ^ 32 -> sys_open c j = (c1, inr n) -> max_fds <= kq_size (c_opened c) ->
  exists c' r, safe_open c j = Ok (c', r) /\ orphan c' n j /\ (0 < kq_size (c_opened c) -> r <> inr n).
Proof.
  intros Hok Hg Eo Hfull. destruct (sys_open_ok _ _ _ _ _ _ Hok Eo) as (Hok1 & D1 & O1 & H1 & Ht & d & Hd & Hcl).
  assert (orphan c1 n j) as Hor by (split; [done|exists d; by rewrite D1]).
  destruct (safe_open_loop_ok g j (S (size (kq_view (c_opened c)))) c Hok Hg) as (c' & r & E & _); [lia|].
  exists c', r. split; [exact E|]. unfold safe_open in E. cbn [safe_open_loop] in E. rewrite Eo, O1, (proj2 (Z.leb_le _ _) Hfull) in E.
  destruct (close_oldest_ok g c1 Hok1 Hg) as (c2 & b & Ec & Hok2 & Hb). rewrite Ec in E. cbn [mbind res_bind] in E.
  pose proof (close_oldest_orphan _ _ _ _ _ _ Hok1 Hg Hor Ec) as Hor2. destruct b.
  - destruct (safe_open_loop_orphan g j n _ _ _ _ Hok2 Hg Hor2 E). done.
  - injection E as <- <-. split; [done|]. destruct Hb as [_ Hv]. rewrite O1 in Hv.
    rewrite (kq_size_view _ (co_heap _ _ _ Hok)), Hv, map_size_empty. lia.
Qed.
End cache.
Arguments cache H : clear implicits.
Arguments fresh {H} _ _ _ _.

(** ** The caches of the daemon *)

Definition initialize_file_c (max_local_fds max_nfd : nat) (errors : list (option Z)) (times : list Z) :
  res (cache (fibheap nat)) :=
  opened ← fibheap_new max_local_fds;
  Ok (fresh max_nfd opened errors times).

Lemma initialize_ok n nfd errors times c : initialize_file_c n nfd errors times = Ok c ->
  Forall (fun t => 0 < t /\ is_u32 t) times -> cache_ok 0 1 c.
Proof.
  unfold initialize_file_c. destruct (fibheap_new n) as [h| |] eqn:E; [|done..]. intros [= <-] Ht. apply fresh_ok; [| |done].
  - by apply (new_heap_ok n).
  - unfold fibheap_new, create_alloc_pool in E. case_decide; [done|]. by injection E as <-.
Qed.

(** Two files are opened and the limit is two. *)
Definition small_cache : cache (fibheap nat) :=
  match initialize_file_c 2 8 [] [10; 20; 30; 40; 50] with Ok c => c | _ => fresh 0 fib0 [] [] end.
Definition opened_of (r : res (cache (fibheap nat) * (Z + nat))) : cache (fibheap nat) :=
  match r with Ok (c, _) => c | _ => small_cache end.
Definition cache1 : cache (fibheap nat) := set_handle small_cache 1 (Handle (-1) 0).
Definition cache2 : cache (fibheap nat) := set_handle cache1 2 (Handle (-1) 0).
Definition cache3 : cache (fibheap nat) := opened_of (capability_open_nolock 2 cache2 1 true 0).
Definition cache4 : cache (fibheap nat) := opened_of (capability_open_nolock 2 cache3 2 true 0).

Lemma small_cache_ok : cache_ok 0 1 small_cache.
Proof. apply (initialize_ok 2 8 [] [10; 20; 30; 40; 50]); [reflexivity|]. repeat constructor; unfold is_u32; lia. Qed.

Lemma small_reachable : reachable 2 small_cache 4 cache4.
Proof.
  apply (reach_step _ _ _ cache3); [apply (reach_step _ _ _ cache2); [apply (reach_step _ _ _ cache1);
    [apply (reach_step _ _ _ small_cache); [constructor|]|]|]|].
  - by apply step_create.
  - by apply step_create.
  - apply (step_open _ _ 1 true 0 _ (inr 0%nat)). vm_compute. reflexivity.
  - apply (step_open _ _ 2 true 0 _ (inr 1%nat)). vm_compute. reflexivity.
Qed.

Lemma open_handles_are_safe_witness :
  exists c' r, capability_open_nolock 2 cache4 1 true 0 = Ok (c', r) /\ r = inr 0%nat /\ c_table c' !! 0%nat = Some (Cached 1).
Proof.
  destruct (open_handles_are_safe 2 small_cache 4 cache4 1 (Handle 0 1) true 0 small_cache_ok) as (_ & c' & r & E & _ & Hr).
  - done.
  - exact small_reachable.
  - done.
  - vm_compute. reflexivity.
  - assert (match capability_open_nolock 2 cache4 1 true 0 with Ok (_, r) => r | _ => inl 0 end = inr 0%nat) as E2
      by (vm_compute; reflexivity). rewrite E in E2. exists c', r. subst r.
    split; [exact E|split; [reflexivity|exact (proj1 Hr)]].
Defined.

Lemma cleanup_closes_served_witness : exists c', cleanup_file_c 3 cache4 = Ok c' /\ kq_size (c_opened c') = 0.
Proof.
  destruct (cleanup_closes_served 2 small_cache 4 cache4 small_cache_ok) as (c' & E & Hs & _).
  - done.
  - exact small_reachable.
  - done.
  - exists c'. split; [exact E|exact Hs].
Defined.

(** A third open leaves the descriptor 2 behind and returns another. *)
Lemma full_cache_leaks_witness :
  exists c' r, safe_open 2 cache4 1 = Ok (c', r) /\ orphan c' 2 1 /\ r <> inr 2%nat.
Proof.
  destruct (full_cache_leaks 2 8 cache4 1 (set_table cache4 (<[2%nat := Cached 1]> (c_table cache4))) 2) as (c' & r & E & Ho & Hr).
  - apply (reachable_ok 2 small_cache 4 cache4 small_cache_ok); [done|exact small_reachable|done].
  - done.
  - vm_compute. reflexivity.
  - vm_compute. discriminate.
  - exists c', r. split; [exact E|]. split; [exact Ho|]. apply Hr. vm_compute. reflexivity.
Defined.
