(* ===== verification/UserGroup.v ===== *)
(** Users, groups and their mappings between ZFS and the nodes:
    [src/zfsd/user-group/user-group.c] and [user-group.h].

    Users and groups are handled by the same code twice, so the operations are
    written once for a table of principals and once for a pair of mapping tables,
    and then instantiated.  A principal is in two hash tables (by id and by name),
    an id mapping in up to two (by ZFS id and by node id); the tables hold pointers
    into an explicit memory, so that sharing of one record by two tables is
    visible.  A hash table is the finite map from keys to pointers that [Hashtab]
    shows it to be.  [xmalloc] returns an address that is not in use, and a use of
    a freed record is [Aborted].

    [getpwnam] and [getgrnam] are system services and parameters of the model. *)

From S2P Require Import Prelude AllocPool.

(** ** Principals: users and groups *)

(** [struct user_def] and [struct group_def] *)
Record principal := MkPrincipal { id : Z; name : list Z; marked : bool }.

Record principals := MkPrincipals {
  p_id : gmap Z ptr;
  p_name : gmap (list Z) ptr;
  p_mem : gmap ptr principal
}.

Definition p_deref (t : principals) (u : ptr) : res principal :=
  match p_mem t !! u with Some d => Ok d | None => Aborted end.

Definition set_p_marked (t : principals) (u : ptr) (b : bool) : res principals :=
  d ← p_deref t u;
  Ok (MkPrincipals (p_id t) (p_name t) (<[u := MkPrincipal (id d) (name d) b]> (p_mem t))).

(** [HTAB_FOR_EACH_SLOT]: the slots that hold an entry when they are visited. *)
Fixpoint for_slots {S : Type} (tab : S -> gmap Z ptr) (body : S -> ptr -> res S) (keys : list Z) (s : S) : res S :=
  match keys with
  | [] => Ok s
  | k :: keys =>
      s ← match tab s !! k with Some p => body s p | None => Ok s end;
      for_slots tab body keys s
  end.

Definition for_each_slot {S : Type} (tab : S -> gmap Z ptr) (body : S -> ptr -> res S) (s : S) : res S :=
  for_slots tab body (map_to_list (tab s)).*1 s.

Definition principal_create (t : principals) (i : Z) (n : list Z) : res (principals * option ptr) :=
  let slot1 := p_id t !! i in
  let slot2 := p_name t !! n in
  match slot1, slot2 with
  | Some u1, Some u2 =>
      if decide (u1 = u2) then
        u ← p_deref t u1;
        if negb (marked u) then Ok (t, None)
        else t ← set_p_marked t u1 false; Ok (t, Some u1)
      else Ok (t, None)
  | Some _, None => Ok (t, None)
  | None, Some _ => Ok (t, None)
  | None, None =>
      let u := fresh (dom (p_mem t)) in
      Ok (MkPrincipals (<[i := u]> (p_id t)) (<[n := u]> (p_name t)) (<[u := MkPrincipal i n false]> (p_mem t)), Some u)
  end.

Definition principal_destroy (t : principals) (u : ptr) : res principals :=
  d ← p_deref t u;
  match p_id t !! id d with
  | None => Aborted
  | Some _ =>
      match p_name t !! name d with
      | None => Aborted
      | Some _ => Ok (MkPrincipals (delete (id d) (p_id t)) (delete (name d) (p_name t)) (delete u (p_mem t)))
      end
  end.

Definition mark_all (t : principals) : res principals :=
  for_each_slot p_id (fun t u => set_p_marked t u true) t.

Definition destroy_marked (t : principals) : res principals :=
  for_each_slot p_id (fun t u => d ← p_deref t u; if marked d then principal_destroy t u else Ok t) t.

Definition destroy_all (t : principals) : res principals := for_each_slot p_id principal_destroy t.

Definition principal_lookup (t : principals) (i : Z) : option ptr := p_id t !! i.

(** ** Mappings of ids *)

Record id_mapping := MkMap { zfs_id : Z; node_id : Z; m_marked : bool }.

Record id_maps := MkMaps {
  to_node : gmap Z ptr;
  to_zfs : gmap Z ptr;
  m_mem : gmap ptr id_mapping
}.

Definition m_deref (t : id_maps) (m : ptr) : res id_mapping :=
  match m_mem t !! m with Some d => Ok d | None => Aborted end.

(** A node other than this one has no tables; using them aborts. *)
Definition mapping_create (us : principals) (getnam : list Z -> option Z) (t : option id_maps)
    (zfs_name node_name : list Z) : res (option id_maps * option ptr) :=
  match p_name us !! zfs_name with
  | None => Ok (t, None)
  | Some u =>
      d ← p_deref us u;
      if marked d then Ok (t, None)
      else
        match getnam node_name with
        | None => Ok (t, None)
        | Some nid =>
            match t with
            | None => Aborted
            | Some t =>
                let slot1 := to_node t !! id d in
                let slot2 := to_zfs t !! nid in
                match slot1, slot2 with
                | Some m, Some _ => Ok (Some t, Some m)
                | _, _ =>
                    let m := fresh (dom (m_mem t)) in
                    Ok (Some (MkMaps (match slot1 with None => <[id d := m]> (to_node t) | Some _ => to_node t end)
                                (match slot2 with None => <[nid := m]> (to_zfs t) | Some _ => to_zfs t end)
                                (<[m := MkMap (id d) nid false]> (m_mem t))), Some m)
                end
            end
        end
  end.

Definition mapping_destroy (t : id_maps) (m : ptr) : res id_maps :=
  d ← m_deref t m;
  Ok (MkMaps (delete (zfs_id d) (to_node t)) (delete (node_id d) (to_zfs t)) (delete m (m_mem t))).

Definition mapping_destroy_all (t : id_maps) : res id_maps :=
  t ← for_each_slot to_node mapping_destroy t;
  for_each_slot to_zfs mapping_destroy t.

Definition mark_id_mapping (t : id_maps) : res id_maps :=
  for_each_slot to_node (fun t m =>
    d ← m_deref t m;
    Ok (MkMaps (to_node t) (to_zfs t) (<[m := MkMap (zfs_id d) (node_id d) true]> (m_mem t)))) t.

(** The body of the two loops of [destroy_marked_user_mapping]. *)
Definition destroy_if_marked (us : principals) (t : id_maps) (m : ptr) : res id_maps :=
  d ← m_deref t m;
  if m_marked d then mapping_destroy t m
  else
    match principal_lookup us (zfs_id d) with
    | None => mapping_destroy t m
    | Some u => p ← p_deref us u; if marked p then mapping_destroy t m else Ok t
    end.

Definition destroy_marked_mapping (us : principals) (t : id_maps) : res id_maps :=
  t ← for_each_slot to_node (destroy_if_marked us) t;
  for_each_slot to_zfs (destroy_if_marked us) t.

(** The loop of [update_user_mappings] and [update_group_mappings]. *)
Fixpoint create_mappings (us : principals) (getnam : list Z -> option Z) (t : option id_maps)
    (l : list (list Z * list Z)) : res (option id_maps) :=
  match l with
  | [] => Ok t
  | (z, n) :: l => '(t, _) ← mapping_create us getnam t z n; create_mappings us getnam t l
  end.

(** The tables of this node are searched first, then the default ones. *)
Definition map_id (tab : id_maps -> gmap Z ptr) (other : id_mapping -> Z) (local default : id_maps) (fallback i : Z) : res Z :=
  match tab local !! i with
  | Some m => d ← m_deref local m; Ok (other d)
  | None =>
      match tab default !! i with
      | Some m => d ← m_deref default m; Ok (other d)
      | None => Ok fallback
      end
  end.

(** ** The state of the daemon *)

Definition DEFAULT_ZFS_UID : Z := u32 (-2).
Definition DEFAULT_ZFS_GID : Z := u32 (-2).

(** The mapping tables of a node; only [this_node] has them. *)
Record node_maps := MkNode { map_uid : option id_maps; map_gid : option id_maps }.

Record config_users_groups := MkConfig {
  users : principals;
  groups : principals;
  default_uid : id_maps;
  default_gid : id_maps;
  nodes : gmap Z node_maps;
  this_node : Z;
  default_node_uid : Z;
  default_node_gid : Z
}.

Definition with_users (c : config_users_groups) (t : principals) : config_users_groups :=
  MkConfig t (groups c) (default_uid c) (default_gid c) (nodes c) (this_node c) (default_node_uid c) (default_node_gid c).
Definition with_groups (c : config_users_groups) (t : principals) : config_users_groups :=
  MkConfig (users c) t (default_uid c) (default_gid c) (nodes c) (this_node c) (default_node_uid c) (default_node_gid c).

(** The tables a [node] argument selects: those of a node, or the default ones. *)
Definition uid_tables (c : config_users_groups) (nod : option Z) : res (option id_maps) :=
  match nod with
  | None => Ok (Some (default_uid c))
  | Some sid => match nodes c !! sid with Some n => Ok (map_uid n) | None => Aborted end
  end.
Definition gid_tables (c : config_users_groups) (nod : option Z) : res (option id_maps) :=
  match nod with
  | None => Ok (Some (default_gid c))
  | Some sid => match nodes c !! sid with Some n => Ok (map_gid n) | None => Aborted end
  end.
Definition with_uid_tables (c : config_users_groups) (nod : option Z) (t : option id_maps) : config_users_groups :=
  match nod with
  | None => MkConfig (users c) (groups c) (default (default_uid c) t) (default_gid c) (nodes c) (this_node c) (default_node_uid c) (default_node_gid c)
  | Some sid =>
      MkConfig (users c) (groups c) (default_uid c) (default_gid c) (alter (fun n => MkNode t (map_gid n)) sid (nodes c))
        (this_node c) (default_node_uid c) (default_node_gid c)
  end.
Definition with_gid_tables (c : config_users_groups) (nod : option Z) (t : option id_maps) : config_users_groups :=
  match nod with
  | None => MkConfig (users c) (groups c) (default_uid c) (default (default_gid c) t) (nodes c) (this_node c) (default_node_uid c) (default_node_gid c)
  | Some sid =>
      MkConfig (users c) (groups c) (default_uid c) (default_gid c) (alter (fun n => MkNode (map_uid n) t) sid (nodes c))
        (this_node c) (default_node_uid c) (default_node_gid c)
  end.

Definition need {A : Type} (o : option A) : res A := match o with Some a => Ok a | None => Aborted end.

Definition user_create (c : config_users_groups) (i : Z) (n : list Z) : res (config_users_groups * option ptr) :=
  '(t, r) ← principal_create (users c) i n; Ok (with_users c t, r).
Definition group_create (c : config_users_groups) (i : Z) (n : list Z) : res (config_users_groups * option ptr) :=
  '(t, r) ← principal_create (groups c) i n; Ok (with_groups c t, r).
Definition user_destroy_nolock (c : config_users_groups) (u : ptr) : res config_users_groups :=
  t ← principal_destroy (users c) u; Ok (with_users c t).
Definition group_destroy_nolock (c : config_users_groups) (u : ptr) : res config_users_groups :=
  t ← principal_destroy (groups c) u; Ok (with_groups c t).
Definition mark_all_users (c : config_users_groups) : res config_users_groups :=
  t ← mark_all (users c); Ok (with_users c t).
Definition mark_all_groups (c : config_users_groups) : res config_users_groups :=
  t ← mark_all (groups c); Ok (with_groups c t).
Definition destroy_marked_users (c : config_users_groups) : res config_users_groups :=
  t ← destroy_marked (users c); Ok (with_users c t).
Definition destroy_marked_groups (c : config_users_groups) : res config_users_groups :=
  t ← destroy_marked (groups c); Ok (with_groups c t).

Definition mark_user_mapping (c : config_users_groups) (nod : option Z) : res config_users_groups :=
  o ← uid_tables c nod; t ← need o; t ← mark_id_mapping t; Ok (with_uid_tables c nod (Some t)).
Definition mark_group_mapping (c : config_users_groups) (nod : option Z) : res config_users_groups :=
  o ← gid_tables c nod; t ← need o; t ← mark_id_mapping t; Ok (with_gid_tables c nod (Some t)).
Definition destroy_marked_user_mapping (c : config_users_groups) (nod : option Z) : res config_users_groups :=
  o ← uid_tables c nod; t ← need o; t ← destroy_marked_mapping (users c) t; Ok (with_uid_tables c nod (Some t)).
Definition destroy_marked_group_mapping (c : config_users_groups) (nod : option Z) : res config_users_groups :=
  o ← gid_tables c nod; t ← need o; t ← destroy_marked_mapping (groups c) t; Ok (with_gid_tables c nod (Some t)).
Definition user_mapping_destroy_all (c : config_users_groups) (nod : option Z) : res config_users_groups :=
  o ← uid_tables c nod; t ← need o; t ← mapping_destroy_all t; Ok (with_uid_tables c nod (Some t)).
Definition group_mapping_destroy_all (c : config_users_groups) (nod : option Z) : res config_users_groups :=
  o ← gid_tables c nod; t ← need o; t ← mapping_destroy_all t; Ok (with_gid_tables c nod (Some t)).

(** The node a number selects: 0 is the default mapping, an unknown node fails. *)
Definition select_node (c : config_users_groups) (sid : Z) : option (option Z) :=
  if 0 <? sid then match nodes c !! sid with None => None | Some _ => Some (Some sid) end else Some None.

Definition update_user_mappings (getpwnam : list Z -> option Z) (c : config_users_groups)
    (l : list (list Z * list Z)) (sid : Z) : res (config_users_groups * bool) :=
  match select_node c sid with
  | None => Ok (c, false)
  | Some nod => o ← uid_tables c nod; t ← create_mappings (users c) getpwnam o l; Ok (with_uid_tables c nod t, true)
  end.
Definition update_group_mappings (getgrnam : list Z -> option Z) (c : config_users_groups)
    (l : list (list Z * list Z)) (sid : Z) : res (config_users_groups * bool) :=
  match select_node c sid with
  | None => Ok (c, false)
  | Some nod => o ← gid_tables c nod; t ← create_mappings (groups c) getgrnam o l; Ok (with_gid_tables c nod t, true)
  end.

(** For each ZFS user the mapping "user" <-> "user". *)
Definition set_default_user_mapping (getpwnam : list Z -> option Z) (c : config_users_groups) : res config_users_groups :=
  for_each_slot (fun c => p_id (users c)) (fun c u =>
    d ← p_deref (users c) u;
    '(t, _) ← mapping_create (users c) getpwnam (Some (default_uid c)) (name d) (name d);
    Ok (with_uid_tables c None t)) c.

(** [nodes] has [this_node]; a missing table would be a wild pointer. *)
Definition map_uid_zfs2node (c : config_users_groups) (uid : Z) : res Z :=
  if uid =? u32 (-1) then Ok uid
  else o ← uid_tables c (Some (this_node c)); t ← need o; map_id to_node node_id t (default_uid c) (default_node_uid c) uid.
Definition map_uid_node2zfs (c : config_users_groups) (uid : Z) : res Z :=
  if uid =? u32 (-1) then Ok uid
  else o ← uid_tables c (Some (this_node c)); t ← need o; map_id to_zfs zfs_id t (default_uid c) DEFAULT_ZFS_UID uid.
Definition map_gid_zfs2node (c : config_users_groups) (gid : Z) : res Z :=
  if gid =? u32 (-1) then Ok gid
  else o ← gid_tables c (Some (this_node c)); t ← need o; map_id to_node node_id t (default_gid c) (default_node_gid c) gid.
Definition map_gid_node2zfs (c : config_users_groups) (gid : Z) : res Z :=
  if gid =? u32 (-1) then Ok gid
  else o ← gid_tables c (Some (this_node c)); t ← need o; map_id to_zfs zfs_id t (default_gid c) DEFAULT_ZFS_GID gid.

Definition no_principals : principals := MkPrincipals ∅ ∅ ∅.
Definition no_maps : id_maps := MkMaps ∅ ∅ ∅.

Definition initialize_user_group_c (c : config_users_groups) : config_users_groups :=
  MkConfig no_principals no_principals no_maps no_maps (nodes c) (this_node c) (default_node_uid c) (default_node_gid c).

Definition cleanup_user_group_c (c : config_users_groups) : res config_users_groups :=
  u ← mapping_destroy_all (default_uid c);
  g ← mapping_destroy_all (default_gid c);
  us ← destroy_all (users c);
  gs ← destroy_all (groups c);
  Ok (MkConfig us gs u g (nodes c) (this_node c) (default_node_uid c) (default_node_gid c)).

(** ** Loops over tables *)

(** A property of the state that holds for the keys still to be visited. *)
Lemma for_slots_ind {S : Type} (tab : S -> gmap Z ptr) (body : S -> ptr -> res S) (P : list Z -> S -> Prop) :
  (forall k keys s, P (k :: keys) s ->
     exists s', match tab s !! k with Some p => body s p | None => Ok s end = Ok s' /\ P keys s') ->
  forall keys s, P keys s -> exists s', for_slots tab body keys s = Ok s' /\ P [] s'.
Proof.
  intros Hstep. induction keys as [|k keys IH]; intros s HP; cbn [for_slots]; [by exists s|].
  destruct (Hstep k keys s HP) as (s1 & -> & HP1). cbn [mbind res_bind]. by apply IH.
Qed.

Lemma for_each_slot_ind {S : Type} (tab : S -> gmap Z ptr) (body : S -> ptr -> res S) (P : list Z -> S -> Prop) s :
  (forall keys, NoDup keys -> (forall k, k ∈ keys <-> is_Some (tab s !! k)) -> P keys s) ->
  (forall k keys s, P (k :: keys) s ->
     exists s', match tab s !! k with Some p => body s p | None => Ok s end = Ok s' /\ P keys s') ->
  exists s', for_each_slot tab body s = Ok s' /\ P [] s'.
Proof.
  intros H0 Hstep. apply for_slots_ind; [done|]. apply H0.
  - apply NoDup_fst_map_to_list.
  - intros k. rewrite list_elem_of_fmap. split.
    + intros ([k' p] & -> & Hp%elem_of_map_to_list). by eexists.
    + intros [p Hp]. exists (k, p). split; [done|]. by apply elem_of_map_to_list.
Qed.

(** ** Tables of principals *)

(** Both tables and the memory hold the same principals. *)
Record principals_ok (t : principals) : Prop := {
  po_id : forall i u, p_id t !! i = Some u -> exists d, p_mem t !! u = Some d /\ id d = i;
  po_name : forall n u, p_name t !! n = Some u -> exists d, p_mem t !! u = Some d /\ name d = n;
  po_mem : forall u d, p_mem t !! u = Some d -> p_id t !! id d = Some u /\ p_name t !! name d = Some u
}.

(** The abstract view: the principals by id. *)
Definition listed (t : principals) (i : Z) (n : list Z) (b : bool) : Prop :=
  exists u, p_id t !! i = Some u /\ p_mem t !! u = Some (MkPrincipal i n b).

Lemma listed_id t i n b n' b' : listed t i n b -> listed t i n' b' -> n = n' /\ b = b'.
Proof. intros (u & H1 & H2) (u' & H1' & H2'). by simplify_eq. Qed.

Lemma listed_name t i n b i' b' : principals_ok t -> listed t i n b -> listed t i' n b' -> i = i'.
Proof.
  intros H (u & H1 & H2) (u' & H1' & H2'). destruct (po_mem _ H _ _ H2) as [_ E]. destruct (po_mem _ H _ _ H2') as [_ E'].
  cbn in *. by simplify_eq.
Qed.

Lemma p_id_listed t i u : principals_ok t -> p_id t !! i = Some u -> exists n b, p_mem t !! u = Some (MkPrincipal i n b) /\ listed t i n b.
Proof.
  intros H Hu. destruct (po_id _ H _ _ Hu) as ([i' n b] & Hd & Hi). cbn in Hi. subst i'. exists n, b. split; [done|]. by exists u.
Qed.

Lemma principals_ok_nil : principals_ok no_principals.
Proof. split; intros *; cbn; rewrite lookup_empty; done. Qed.

(** Changing the mark of a principal. *)
Lemma set_p_marked_ok t u d b :
  principals_ok t -> p_mem t !! u = Some d ->
  exists t', set_p_marked t u b = Ok t' /\ principals_ok t' /\ p_id t' = p_id t /\ p_name t' = p_name t /\
    (forall i n c, listed t' i n c <-> listed t i n (if decide (i = id d) then marked d else c) /\ (i = id d -> c = b)).
Proof.
  intros H Hu. unfold set_p_marked, p_deref. rewrite Hu. cbn [mbind res_bind]. eexists. split; [done|].
  destruct (po_mem _ H _ _ Hu) as [Hi Hn]. split_and!; [|done|done|].
  - split; cbn [p_id p_name p_mem].
    + intros i u' E. destruct (po_id _ H _ _ E) as (d' & Ed & <-). destruct (decide (u = u')) as [<-|].
      * rewrite lookup_insert_eq. simplify_eq. eauto.
      * rewrite lookup_insert_ne by done. eauto.
    + intros n u' E. destruct (po_name _ H _ _ E) as (d' & Ed & <-). destruct (decide (u = u')) as [<-|].
      * rewrite lookup_insert_eq. simplify_eq. eauto.
      * rewrite lookup_insert_ne by done. eauto.
    + intros u' d'. destruct (decide (u = u')) as [<-|]; [rewrite lookup_insert_eq; by intros [= <-]|].
      rewrite lookup_insert_ne by done. apply (po_mem _ H).
  - intros i n c. unfold listed. cbn [p_id p_mem]. destruct (decide (i = id d)) as [->|Hne].
    + split.
      * intros (u' & Eu & Ed). simplify_eq. rewrite lookup_insert_eq in Ed. injection Ed as [= <- <-]. split; [|done].
        exists u. by destruct d.
      * intros [(u' & Eu & Ed) Hc]. rewrite Hi in Eu. injection Eu as <-. rewrite Hu in Ed. injection Ed as Ed.
        exists u. rewrite lookup_insert_eq, (Hc eq_refl). split; [done|]. by rewrite Ed at 2.
    + split; [intros (u' & Eu & Ed)|intros [(u' & Eu & Ed) _]].
      * split; [|done]. exists u'. split; [done|]. rewrite lookup_insert_ne in Ed; [done|]. intros ->. simplify_eq.
        destruct (po_id _ H _ _ Eu) as (d' & ? & ?). simplify_eq.
      * exists u'. split; [done|]. rewrite lookup_insert_ne; [done|]. intros ->. simplify_eq.
Qed.

(** [user_create] and [group_create] on every branch. *)
Lemma principal_create_ok t i n :
  principals_ok t ->
  exists t' r, principal_create t i n = Ok (t', r) /\ principals_ok t' /\
    ((r = None /\ t' = t /\ (listed t i n false \/ (exists n' b, n' <> n /\ listed t i n' b) \/ (exists i' b, i' <> i /\ listed t i' n b))) \/
     (exists u, r = Some u /\ listed t' i n false /\
        (listed t i n true \/ (forall n' b, ~ listed t i n' b) /\ (forall i' b, ~ listed t i' n b)) /\
        (forall i' n' b, i' <> i -> listed t' i' n' b <-> listed t i' n' b))).
Proof.
  intros H. unfold principal_create. destruct (p_id t !! i) as [u1|] eqn:E1, (p_name t !! n) as [u2|] eqn:E2.
  - destruct (p_id_listed _ _ _ H E1) as (n1 & b1 & Hd1 & Hl1). case_decide as Hu.
    + subst u2. destruct (po_name _ H _ _ E2) as (d & Hd & Hn). rewrite Hd1 in Hd. injection Hd as <-. cbn in Hn. subst n1.
      unfold p_deref. rewrite Hd1. cbn [mbind res_bind marked]. destruct b1; cbn [negb].
      * destruct (set_p_marked_ok t u1 _ false H Hd1) as (t' & -> & Hok & _ & _ & Hls). cbn [mbind res_bind].
        exists t', (Some u1). split_and!; [done|done|]. right. exists u1. cbn [id marked] in Hls. split_and!; [done| |by left|].
        -- apply Hls. by rewrite decide_True.
        -- intros i' n' b Hi. rewrite Hls, decide_False by done. tauto.
      * exists t, None. split_and!; [done|done|]. left. auto.
    + exists t, None. split_and!; [done|done|]. left. split_and!; [done|done|]. right. left.
      exists n1, b1. split; [|done]. intros ->. destruct (po_mem _ H _ _ Hd1) as [_ E]. cbn in E. congruence.
  - destruct (p_id_listed _ _ _ H E1) as (n1 & b1 & Hd1 & Hl1). exists t, None. split_and!; [done|done|]. left.
    split_and!; [done|done|]. right. left. exists n1, b1. split; [|done]. intros ->. destruct (po_mem _ H _ _ Hd1) as [_ E]. cbn in E. congruence.
  - destruct (po_name _ H _ _ E2) as ([i1 n1 b1] & Hd & Hn). cbn in Hn. subst n1. destruct (po_mem _ H _ _ Hd) as [Ei _]. cbn in Ei.
    exists t, None. split_and!; [done|done|]. left. split_and!; [done|done|]. right. right. exists i1, b1. split; [congruence|]. by exists u2.
  - set (u := fresh (dom (p_mem t))). assert (p_mem t !! u = None) as Hfresh.
    { apply not_elem_of_dom, is_fresh. }
    assert (forall k, p_id t !! k <> Some u) as Hf1. { intros k E. destruct (po_id _ H _ _ E) as (d & ? & _). congruence. }
    assert (forall k, p_name t !! k <> Some u) as Hf2. { intros k E. destruct (po_name _ H _ _ E) as (d & ? & _). congruence. }
    eexists _, (Some u). split; [done|]. split.
    { split; cbn [p_id p_name p_mem].
      - intros k u'. destruct (decide (i = k)) as [<-|].
        + rewrite lookup_insert_eq. intros [= <-]. rewrite lookup_insert_eq. eauto.
        + rewrite lookup_insert_ne by done. intros E. rewrite lookup_insert_ne by (intros <-; by eapply Hf1). by apply (po_id _ H).
      - intros k u'. destruct (decide (n = k)) as [<-|].
        + rewrite lookup_insert_eq. intros [= <-]. rewrite lookup_insert_eq. eauto.
        + rewrite lookup_insert_ne by done. intros E. rewrite lookup_insert_ne by (intros <-; by eapply Hf2). by apply (po_name _ H).
      - intros u' d. destruct (decide (u = u')) as [<-|].
        + rewrite lookup_insert_eq. intros [= <-]. cbn. by rewrite !lookup_insert_eq.
        + rewrite lookup_insert_ne by done. intros E. destruct (po_mem _ H _ _ E) as [F1 F2].
          rewrite !lookup_insert_ne by congruence. done. }
    right. exists u. split_and!; [done| | |].
    + exists u. cbn. by rewrite !lookup_insert_eq.
    + right. split.
      * intros n' b (u' & F1 & _). congruence.
      * intros i' b (u' & F1 & F2). destruct (po_mem _ H _ _ F2) as [_ F3]. cbn in F3. congruence.
    + intros i' n' b Hi. unfold listed. cbn [p_id p_mem]. rewrite lookup_insert_ne by done. split; intros (u' & F1 & F2); exists u'; (split; [done|]).
      * rewrite lookup_insert_ne in F2; [done|]. intros <-. by eapply Hf1.
      * rewrite lookup_insert_ne; [done|]. intros <-. by eapply Hf1.
Qed.

Lemma principal_destroy_ok t u d :
  principals_ok t -> p_mem t !! u = Some d ->
  exists t', principal_destroy t u = Ok t' /\ principals_ok t' /\
    (forall i n b, listed t' i n b <-> listed t i n b /\ i <> id d).
Proof.
  intros H Hu. destruct (po_mem _ H _ _ Hu) as [Hi Hn]. unfold principal_destroy, p_deref. rewrite Hu. cbn [mbind res_bind].
  rewrite Hi, Hn. eexists. split; [done|].
  assert (forall k u', p_id t !! k = Some u' -> k <> id d -> u' <> u) as H1.
  { intros k u' E Hk ->. destruct (po_id _ H _ _ E) as (d' & ? & ?). by simplify_eq. }
  assert (forall k u', p_name t !! k = Some u' -> k <> name d -> u' <> u) as H2.
  { intros k u' E Hk ->. destruct (po_name _ H _ _ E) as (d' & ? & ?). by simplify_eq. }
  split; [split; cbn [p_id p_name p_mem]|].
  - intros k u' [Hk E]%lookup_delete_Some. rewrite lookup_delete_ne by (symmetry; by eapply H1). by apply (po_id _ H).
  - intros k u' [Hk E]%lookup_delete_Some. rewrite lookup_delete_ne by (symmetry; by eapply H2). by apply (po_name _ H).
  - intros u' d' [Hu' E]%lookup_delete_Some. destruct (po_mem _ H _ _ E) as [F1 F2]. rewrite !lookup_delete_ne; [done|congruence|congruence].
  - intros i n b. unfold listed. cbn [p_id p_mem]. split.
    + intros (u' & [Hk E]%lookup_delete_Some & [_ Ed]%lookup_delete_Some). split; [by exists u'|done].
    + intros [(u' & E & Ed) Hk]. exists u'. rewrite !lookup_delete_ne; [done|symmetry; by eapply H1|done].
Qed.

Lemma mark_all_ok t :
  principals_ok t ->
  exists t', mark_all t = Ok t' /\ principals_ok t' /\
    (forall i n b, listed t' i n b <-> (exists b', listed t i n b') /\ b = true).
Proof.
  intros H. unfold mark_all.
  destruct (for_each_slot_ind p_id (fun t u => set_p_marked t u true)
    (fun keys s => NoDup keys /\ principals_ok s /\ p_id s = p_id t /\
       forall i n b, listed s i n b <-> (i ∈ keys /\ listed t i n b) \/ (i ∉ keys /\ b = true /\ exists b', listed t i n b')) t)
    as (t' & E & _ & Hok & _ & Hls).
  - intros keys Hnd Hk. split_and!; try done. intros i n b.
    assert (forall b', listed t i n b' -> i ∈ keys) as Hin by (intros b' (u & Hu & _); apply Hk; by eexists). naive_solver.
  - intros k keys s (Hnd & Hok & Hid & Hls). apply NoDup_cons in Hnd as [Hk Hnd]. setoid_rewrite elem_of_cons in Hls.
    destruct (p_id s !! k) as [u|] eqn:Eu.
    + destruct (p_id_listed _ _ _ Hok Eu) as (n0 & b0 & Hd & Hl0).
      destruct (set_p_marked_ok s u _ true Hok Hd) as (s' & -> & Hok' & Hid' & _ & Hls'). cbn [id marked] in Hls'.
      exists s'. split; [done|]. split_and!; [done|done|congruence|]. intros i n b. rewrite Hls', Hls.
      destruct (decide (i = k)) as [->|Hik]; [|naive_solver]. split.
      * intros [[[_ Hl]|[Hn _]] Hb]; [|tauto]. right. eauto.
      * intros [[? _]|(_ & -> & b' & Hl)]; [done|]. split; [|done]. left. split; [by left|].
        apply Hls in Hl0 as [[_ Hl0]|[Hn _]]; [|tauto]. destruct (listed_id _ _ _ _ _ _ Hl Hl0) as [-> ->]. done.
    + exists s. split; [done|]. split_and!; try done. intros i n b. rewrite Hls.
      assert (forall b', listed t i n b' -> i <> k) as Hne by (intros b' (u & Hu & _) ->; congruence). naive_solver.
  - exists t'. split_and!; [done|done|]. intros i n b. rewrite Hls. setoid_rewrite elem_of_nil. naive_solver.
Qed.

Lemma destroy_marked_ok t :
  principals_ok t ->
  exists t', destroy_marked t = Ok t' /\ principals_ok t' /\
    (forall i n b, listed t' i n b <-> listed t i n b /\ b = false).
Proof.
  intros H. unfold destroy_marked.
  destruct (for_each_slot_ind p_id (fun t u => d ← p_deref t u; if marked d then principal_destroy t u else Ok t)
    (fun keys s => NoDup keys /\ principals_ok s /\
       forall i n b, listed s i n b <-> listed t i n b /\ (b = true -> i ∈ keys)) t) as (t' & E & _ & Hok & Hls).
  - intros keys Hnd Hk. split_and!; try done. intros i n b. split; [|tauto]. intros Hl. split; [done|]. intros _.
    apply Hk. destruct Hl as (u & Hu & _). by eexists.
  - intros k keys s (Hnd & Hok & Hls). apply NoDup_cons in Hnd as [Hk Hnd]. destruct (p_id s !! k) as [u|] eqn:Eu.
    + destruct (p_id_listed _ _ _ Hok Eu) as (n0 & b0 & Hd & Hl0). unfold p_deref. rewrite Hd. cbn [mbind res_bind marked].
      destruct b0.
      * destruct (principal_destroy_ok s u _ Hok Hd) as (s' & -> & Hok' & Hls'). exists s'. split; [done|]. split_and!; [done|done|].
        intros i n b. rewrite Hls', Hls. cbn [id]. split.
        -- intros [[Hb Hi] Hne]. split; [done|]. intros Eb. specialize (Hi Eb). by apply elem_of_cons in Hi as [->|].
        -- intros [Hb Hi]. split_and!; [done|intros E; right; by apply Hi|]. intros ->.
           apply Hls in Hl0 as [Hl0 _]. destruct (listed_id _ _ _ _ _ _ Hb Hl0) as [-> ->]. by apply Hk, Hi.
      * exists s. split; [done|]. split_and!; [done|done|]. intros i n b. rewrite Hls. split; intros [Hb Hi]; (split; [done|]); intros E.
        -- specialize (Hi E). apply elem_of_cons in Hi as [->|]; [|done]. apply Hls in Hl0 as [Hl0 _].
           destruct (listed_id _ _ _ _ _ _ Hb Hl0) as [-> ->]. done.
        -- right. by apply Hi.
    + exists s. split; [done|]. split_and!; [done|done|]. intros i n b. rewrite Hls. split; intros [Hb Hi]; (split; [done|]); intros E; [|right; auto].
      specialize (Hi E). apply elem_of_cons in Hi as [->|]; [|done]. assert (listed s k n b) as (u & Hu & _); [|congruence].
      apply Hls. split; [done|]. intros _. left.
  - exists t'. split_and!; [done|done|]. intros i n b. rewrite Hls. split; intros [Hb Hi]; (split; [done|]).
    + destruct b; [|done]. by apply not_elem_of_nil in Hi.
    + by intros ->.
Qed.

(** The calls of [user_create] while a list of users is read. *)
Fixpoint create_all (t : principals) (l : list (Z * list Z)) : res principals :=
  match l with
  | [] => Ok t
  | (i, n) :: l => '(t, _) ← principal_create t i n; create_all t l
  end.

Lemma create_all_keeps l : forall t,
  principals_ok t ->
  exists t', create_all t l = Ok t' /\ principals_ok t' /\
    (forall i n b, listed t i n b -> (i, n) ∉ l -> listed t' i n b).
Proof.
  induction l as [|[i0 n0] l IH]; intros t H; cbn [create_all]; [by exists t|].
  destruct (principal_create_ok t i0 n0 H) as (t1 & r & -> & H1 & Hcase). cbn [mbind res_bind].
  destruct (IH t1 H1) as (t2 & E2 & H2 & Hk2). exists t2. split_and!; [done|done|].
  intros i n b Hl Hn. apply not_elem_of_cons in Hn as [Hne Hn]. apply Hk2; [|done].
  destruct Hcase as [(_ & -> & _)|(u & _ & Hnew & Hold & Hoth)]; [done|]. destruct (decide (i = i0)) as [->|]; [|by apply Hoth].
  exfalso. destruct Hold as [Ho|[Ho _]]; [|by eapply Ho]. destruct (listed_id _ _ _ _ _ _ Hl Ho) as [-> _]. by apply Hne.
Qed.

(** A list whose entries are known or entirely new. *)
Definition compatible (t : principals) (l : list (Z * list Z)) (b : bool) : Prop := forall i n, (i, n) ∈ l ->
  listed t i n b \/ (forall n' b', ~ listed t i n' b') /\ (forall i' b', ~ listed t i' n b').

Lemma create_all_exact l : forall t,
  principals_ok t -> NoDup l.*1 -> NoDup l.*2 -> compatible t l true ->
  exists t', create_all t l = Ok t' /\ principals_ok t' /\
    (forall i n b, listed t' i n b <-> ((i, n) ∈ l /\ b = false) \/ ((i, n) ∉ l /\ listed t i n b)).
Proof.
  induction l as [|[i0 n0] l IH]; intros t H Hi Hn Hc; cbn [create_all].
  - exists t. split_and!; [done|done|]. intros i n b. rewrite elem_of_nil. tauto.
  - cbn in Hi, Hn. apply NoDup_cons in Hi as [Hi0 Hi]. apply NoDup_cons in Hn as [Hn0 Hn].
    assert (forall i n, (i, n) ∈ l -> i <> i0 /\ n <> n0) as Hdiff.
    { intros i n Hin. split; intros ->; [apply Hi0; apply list_elem_of_fmap; by exists (i0, n)|apply Hn0; apply list_elem_of_fmap; by exists (i, n0)]. }
    destruct (principal_create_ok t i0 n0 H) as (t1 & r & -> & H1 & Hcase). cbn [mbind res_bind].
    assert (exists u, r = Some u /\ listed t1 i0 n0 false /\ (forall i' n' b, i' <> i0 -> listed t1 i' n' b <-> listed t i' n' b))
      as (u & -> & Hnew & Hoth).
    { destruct Hcase as [(_ & _ & Hbad)|(u & ? & ? & _ & ?)]; [exfalso|by exists u].
      destruct (Hc i0 n0) as [Hl|[Hl1 Hl2]]; [left| |].
      - destruct Hbad as [Hb|[(n' & b & Hn' & Hb)|(i' & b & Hi' & Hb)]].
        + by destruct (listed_id _ _ _ _ _ _ Hb Hl).
        + by destruct (listed_id _ _ _ _ _ _ Hb Hl).
        + apply Hi'. exact (listed_name _ _ _ _ _ _ H Hb Hl).
      - destruct Hbad as [Hb|[(n' & b & Hn' & Hb)|(i' & b & Hi' & Hb)]]; [by eapply Hl1..|by eapply Hl2]. }
    destruct (IH t1 H1 Hi Hn) as (t2 & -> & H2 & Hls).
    { intros i n Hin. destruct (Hdiff _ _ Hin) as [Hne Hnn]. destruct (Hc i n) as [Hl|[Hl1 Hl2]]; [by right|left; by apply Hoth|right].
      split; [intros n' b' Hl%Hoth; [by eapply Hl1|done]|]. intros i' b' Hl. destruct (decide (i' = i0)) as [->|].
      - destruct (listed_id _ _ _ _ _ _ Hl Hnew). done.
      - apply Hoth in Hl; [|done]. by eapply Hl2. }
    exists t2. split_and!; [done|done|]. intros i n b. rewrite Hls, elem_of_cons. destruct (decide (i = i0)) as [->|Hne].
    + assert ((i0, n) ∉ l) as Hnl by (intros Hin; by destruct (Hdiff _ _ Hin)). split.
      * intros [[? _]|[_ Hl]]; [done|]. destruct (listed_id _ _ _ _ _ _ Hl Hnew) as [-> ->]. left. auto.
      * intros [[[[= ->]|?] ->]|[Hnot Hl]]; [by right|done|]. exfalso.
        destruct (Hc i0 n0) as [Hl0|[Hl0 _]]; [left| |by eapply Hl0]. destruct (listed_id _ _ _ _ _ _ Hl Hl0) as [-> _]. auto.
    + rewrite (Hoth i n b Hne). naive_solver.
Qed.

(** ** Mapping tables *)

(** Every entry points to a live mapping with the key of its slot. *)
Record mapping_ok (t : id_maps) : Prop := {
  mo_node : forall z m, to_node t !! z = Some m -> exists d, m_mem t !! m = Some d /\ zfs_id d = z;
  mo_zfs : forall n m, to_zfs t !! n = Some m -> exists d, m_mem t !! m = Some d /\ node_id d = n
}.

Lemma mapping_ok_nil : mapping_ok no_maps.
Proof. split; intros *; cbn; rewrite lookup_empty; done. Qed.

Lemma mapping_destroy_ok t m d :
  mapping_ok t -> m_mem t !! m = Some d ->
  exists t', mapping_destroy t m = Ok t' /\ mapping_ok t' /\ to_node t' = delete (zfs_id d) (to_node t) /\
    to_zfs t' = delete (node_id d) (to_zfs t) /\ m_mem t' = delete m (m_mem t).
Proof.
  intros H Hm. unfold mapping_destroy, m_deref. rewrite Hm. cbn [mbind res_bind]. eexists. split; [done|]. split; [|done].
  split; cbn [to_node to_zfs m_mem].
  - intros z m' [Hz E]%lookup_delete_Some. destruct (mo_node _ H _ _ E) as (d' & Ed & Hd). exists d'.
    rewrite lookup_delete_ne; [done|]. intros <-. congruence.
  - intros n m' [Hn E]%lookup_delete_Some. destruct (mo_zfs _ H _ _ E) as (d' & Ed & Hd). exists d'.
    rewrite lookup_delete_ne; [done|]. intros <-. congruence.
Qed.

(** A loop that destroys the entries satisfying a test; entries only disappear. *)
Lemma destroy_loop (tab : id_maps -> gmap Z ptr) (body : id_maps -> ptr -> res id_maps) (must : ptr -> Prop) t :
  (forall s, mapping_ok s -> forall k m, tab s !! k = Some m -> exists d, m_mem s !! m = Some d) ->
  (forall s k m, mapping_ok s -> to_node s ⊆ to_node t -> to_zfs s ⊆ to_zfs t -> m_mem s ⊆ m_mem t -> tab s !! k = Some m ->
     exists s', body s m = Ok s' /\ mapping_ok s' /\ to_node s' ⊆ to_node s /\ to_zfs s' ⊆ to_zfs s /\ m_mem s' ⊆ m_mem s /\
       (must m -> tab s' !! k = None)) ->
  (forall s s', to_node s' ⊆ to_node s -> to_zfs s' ⊆ to_zfs s -> tab s' ⊆ tab s) ->
  mapping_ok t ->
  exists t', for_each_slot tab body t = Ok t' /\ mapping_ok t' /\ to_node t' ⊆ to_node t /\ to_zfs t' ⊆ to_zfs t /\
    m_mem t' ⊆ m_mem t /\ forall k m, tab t' !! k = Some m -> ~ must m.
Proof.
  intros Hlive Hbody Hsub Hok.
  destruct (for_each_slot_ind tab body (fun keys s => mapping_ok s /\ to_node s ⊆ to_node t /\ to_zfs s ⊆ to_zfs t /\
    m_mem s ⊆ m_mem t /\ forall k m, tab s !! k = Some m -> must m -> k ∈ keys) t) as (t' & E & H1 & H2 & H3 & H4 & H5).
  - intros keys _ Hk. split_and!; try done. intros k m Hm _. apply Hk. by eexists.
  - intros k keys s (H1 & H2 & H3 & H4 & H5). destruct (tab s !! k) as [m|] eqn:Em.
    + destruct (Hbody s k m) as (s' & -> & G1 & G2 & G3 & G4 & G5); try done. exists s'. split; [done|].
      split_and!; [done|by etrans..|]. intros k' m' E' Hm'.
      assert (tab s !! k' = Some m') as Es by (eapply lookup_weaken; [exact E'|by apply Hsub]).
      destruct (elem_of_cons keys k' k) as [Hc _]. destruct (Hc (H5 _ _ Es Hm')) as [->|]; [|done].
      simplify_eq. rewrite (G5 Hm') in E'. done.
    + exists s. split; [done|]. split_and!; try done. intros k' m' E' Hm'.
      pose proof (H5 _ _ E' Hm') as [->|]%elem_of_cons; [congruence|done].
  - exists t'. split_and!; try done. intros k m Hm Hmust. by apply H5, not_elem_of_nil in Hm.
Qed.

Lemma mapping_destroy_step (tab : id_maps -> gmap Z ptr) (key : id_mapping -> Z) s k m :
  (forall s m d, mapping_ok s -> m_mem s !! m = Some d -> forall s', mapping_destroy s m = Ok s' -> tab s' = delete (key d) (tab s)) ->
  (forall d, m_mem s !! m = Some d -> key d = k) -> mapping_ok s -> (exists d, m_mem s !! m = Some d) ->
  exists s', mapping_destroy s m = Ok s' /\ mapping_ok s' /\ to_node s' ⊆ to_node s /\ to_zfs s' ⊆ to_zfs s /\
    m_mem s' ⊆ m_mem s /\ tab s' !! k = None.
Proof.
  intros Htab Hkey Hok [d Hd]. destruct (mapping_destroy_ok s m d Hok Hd) as (s' & E & H & En & Ez & Em).
  exists s'. rewrite En, Ez, Em. split_and!; try done; try apply delete_subseteq.
  rewrite (Htab _ _ _ Hok Hd _ E), (Hkey _ Hd). apply lookup_delete_eq.
Qed.

Lemma destroy_tab_node s m d : mapping_ok s -> m_mem s !! m = Some d -> forall s', mapping_destroy s m = Ok s' -> to_node s' = delete (zfs_id d) (to_node s).
Proof. intros H Hd s' E. destruct (mapping_destroy_ok s m d H Hd) as (s2 & E2 & _ & En & _). congruence. Qed.

Lemma destroy_tab_zfs s m d : mapping_ok s -> m_mem s !! m = Some d -> forall s', mapping_destroy s m = Ok s' -> to_zfs s' = delete (node_id d) (to_zfs s).
Proof. intros H Hd s' E. destruct (mapping_destroy_ok s m d H Hd) as (s2 & E2 & _ & _ & Ez & _). congruence. Qed.

Lemma node_step s k m : mapping_ok s -> to_node s !! k = Some m ->
  exists s', mapping_destroy s m = Ok s' /\ mapping_ok s' /\ to_node s' ⊆ to_node s /\ to_zfs s' ⊆ to_zfs s /\ m_mem s' ⊆ m_mem s /\ to_node s' !! k = None.
Proof.
  intros H Hk. destruct (mo_node _ H _ _ Hk) as (d & Hd & Hz). apply (mapping_destroy_step to_node zfs_id); eauto using destroy_tab_node.
  intros d' Hd'. congruence.
Qed.

Lemma zfs_step s k m : mapping_ok s -> to_zfs s !! k = Some m ->
  exists s', mapping_destroy s m = Ok s' /\ mapping_ok s' /\ to_node s' ⊆ to_node s /\ to_zfs s' ⊆ to_zfs s /\ m_mem s' ⊆ m_mem s /\ to_zfs s' !! k = None.
Proof.
  intros H Hk. destruct (mo_zfs _ H _ _ Hk) as (d & Hd & Hz). apply (mapping_destroy_step to_zfs node_id); eauto using destroy_tab_zfs.
  intros d' Hd'. congruence.
Qed.

Lemma mapping_destroy_all_ok t :
  mapping_ok t -> exists t', mapping_destroy_all t = Ok t' /\ mapping_ok t' /\ to_node t' = ∅ /\ to_zfs t' = ∅.
Proof.
  intros H. unfold mapping_destroy_all.
  destruct (destroy_loop to_node mapping_destroy (fun _ => True) t) as (t1 & -> & H1 & _ & _ & _ & N1); [| |done|done|].
  { intros s Hs k m Hm. destruct (mo_node _ Hs _ _ Hm) as (d & ? & _). eauto. }
  { intros s k m Hs _ _ _ Hm. destruct (node_step s k m Hs Hm) as (s' & ? & ? & ? & ? & ? & ?). exists s'. split_and!; done. }
  cbn [mbind res_bind].
  destruct (destroy_loop to_zfs mapping_destroy (fun _ => True) t1) as (t2 & -> & H2 & S2 & _ & _ & N2); [| |done|done|].
  { intros s Hs k m Hm. destruct (mo_zfs _ Hs _ _ Hm) as (d & ? & _). eauto. }
  { intros s k m Hs _ _ _ Hm. destruct (zfs_step s k m Hs Hm) as (s' & ? & ? & ? & ? & ? & ?). exists s'. split_and!; done. }
  exists t2. split_and!; [done|done|..]; apply map_empty; intros k.
  - destruct (to_node t2 !! k) as [m|] eqn:E; [|done]. exfalso. apply (N1 k m); [|done]. by eapply lookup_weaken.
  - destruct (to_zfs t2 !! k) as [m|] eqn:E; [|done]. exfalso. by apply (N2 k m).
Qed.

(** Is a mapping to be destroyed when the configuration was read again? *)
Definition obsolete (us : principals) (mem : gmap ptr id_mapping) (m : ptr) : Prop := forall d, mem !! m = Some d ->
  m_marked d = true \/ forall n, ~ listed us (zfs_id d) n false.

Lemma destroy_if_marked_step us t0 s m (tab : id_maps -> gmap Z ptr) k :
  principals_ok us -> mapping_ok s -> m_mem s ⊆ m_mem t0 -> (exists d, m_mem s !! m = Some d) ->
  (exists s', mapping_destroy s m = Ok s' /\ mapping_ok s' /\ to_node s' ⊆ to_node s /\ to_zfs s' ⊆ to_zfs s /\
     m_mem s' ⊆ m_mem s /\ tab s' !! k = None) ->
  exists s', destroy_if_marked us s m = Ok s' /\ mapping_ok s' /\ to_node s' ⊆ to_node s /\ to_zfs s' ⊆ to_zfs s /\
    m_mem s' ⊆ m_mem s /\ (obsolete us (m_mem t0) m -> tab s' !! k = None).
Proof.
  intros Hus Hs Hsub [d Hd] (s' & E & H1 & H2 & H3 & H4 & H5). unfold destroy_if_marked, m_deref. rewrite Hd. cbn [mbind res_bind].
  assert (m_mem t0 !! m = Some d) as Hd0 by by eapply lookup_weaken.
  destruct (m_marked d) eqn:Em; [exists s'; split_and!; done|]. unfold principal_lookup.
  destruct (p_id us !! zfs_id d) as [u|] eqn:Eu; [|exists s'; split_and!; done].
  destruct (p_id_listed _ _ _ Hus Eu) as (n & b & Hp & Hl). unfold p_deref. rewrite Hp. cbn [mbind res_bind marked].
  destruct b; [exists s'; split_and!; done|]. exists s. split_and!; try done. intros Ho. destruct (Ho d Hd0) as [|Hno]; [congruence|].
  by apply Hno in Hl.
Qed.

Lemma destroy_marked_mapping_ok us t :
  principals_ok us -> mapping_ok t ->
  exists t', destroy_marked_mapping us t = Ok t' /\ mapping_ok t' /\ to_node t' ⊆ to_node t /\ to_zfs t' ⊆ to_zfs t /\
    (forall k m, to_node t' !! k = Some m \/ to_zfs t' !! k = Some m -> ~ obsolete us (m_mem t) m).
Proof.
  intros Hus H. unfold destroy_marked_mapping.
  destruct (destroy_loop to_node (destroy_if_marked us) (obsolete us (m_mem t)) t) as (t1 & -> & H1 & S1 & Z1 & M1 & N1); [| |done|done|].
  { intros s Hs k m Hm. destruct (mo_node _ Hs _ _ Hm) as (d & ? & _). eauto. }
  { intros s k m Hs _ _ Hsub Hm. apply destroy_if_marked_step; try done.
    - destruct (mo_node _ Hs _ _ Hm) as (d & ? & _). eauto.
    - by apply node_step. }
  cbn [mbind res_bind].
  destruct (destroy_loop to_zfs (destroy_if_marked us) (obsolete us (m_mem t)) t1) as (t2 & -> & H2 & S2 & Z2 & M2 & N2); [| |done|done|].
  { intros s Hs k m Hm. destruct (mo_zfs _ Hs _ _ Hm) as (d & ? & _). eauto. }
  { intros s k m Hs _ _ Hsub Hm. apply destroy_if_marked_step; try done.
    - by etrans.
    - destruct (mo_zfs _ Hs _ _ Hm) as (d & ? & _). eauto.
    - by apply zfs_step. }
  exists t2. split_and!; [done|done|by etrans|by etrans|]. intros k m [Hm|Hm]; [|by eapply N2]. eapply N1. by eapply lookup_weaken.
Qed.

Lemma mark_id_mapping_ok t :
  mapping_ok t ->
  exists t', mark_id_mapping t = Ok t' /\ mapping_ok t' /\ to_node t' = to_node t /\ to_zfs t' = to_zfs t /\
    (forall k m d, to_node t !! k = Some m -> m_mem t' !! m = Some d -> m_marked d = true).
Proof.
  intros H. unfold mark_id_mapping.
  destruct (for_each_slot_ind to_node (fun t m =>
      d ← m_deref t m;
      Ok (MkMaps (to_node t) (to_zfs t) (<[m := MkMap (zfs_id d) (node_id d) true]> (m_mem t))))
    (fun keys s => mapping_ok s /\ to_node s = to_node t /\ to_zfs s = to_zfs t /\
       forall k m d, to_node t !! k = Some m -> m_mem s !! m = Some d -> m_marked d = true \/ k ∈ keys) t)
    as (t' & E & H1 & H2 & H3 & H4).
  - intros keys _ Hk. split_and!; try done. intros k m d Hm _. right. apply Hk. by eexists.
  - intros k keys s (H1 & H2 & H3 & H4). destruct (to_node s !! k) as [m|] eqn:Em.
    + destruct (mo_node _ H1 _ _ Em) as (d & Hd & Hz). unfold m_deref. rewrite Hd. cbn [mbind res_bind].
      eexists. split; [done|]. cbn [to_node to_zfs m_mem]. split_and!; [|done|done|].
      * split; cbn [to_node to_zfs m_mem].
        -- intros z m' E'. destruct (mo_node _ H1 _ _ E') as (d' & Hd' & <-). destruct (decide (m = m')) as [<-|].
           ++ rewrite lookup_insert_eq. simplify_eq. eauto.
           ++ rewrite lookup_insert_ne by done. eauto.
        -- intros n m' E'. destruct (mo_zfs _ H1 _ _ E') as (d' & Hd' & <-). destruct (decide (m = m')) as [<-|].
           ++ rewrite lookup_insert_eq. simplify_eq. eauto.
           ++ rewrite lookup_insert_ne by done. eauto.
      * intros k' m' d' Hm'. destruct (decide (m = m')) as [<-|].
        -- rewrite lookup_insert_eq. intros [= <-]. by left.
        -- rewrite lookup_insert_ne by done. intros Hd'. destruct (H4 _ _ _ Hm' Hd') as [|Hin]; [by left|].
           apply elem_of_cons in Hin as [->|]; [|by right]. rewrite H2 in Em. congruence.
    + exists s. split; [done|]. split_and!; try done. intros k' m' d' Hm' Hd'. destruct (H4 _ _ _ Hm' Hd') as [|Hin]; [by left|].
      apply elem_of_cons in Hin as [->|]; [|by right]. rewrite H2 in Em. congruence.
  - exists t'. split_and!; try done. intros k m d Hm Hd. destruct (H4 _ _ _ Hm Hd) as [|?%not_elem_of_nil]; done.
Qed.

(** A new pair of ids. *)
Lemma mapping_create_new us getnam t zn nn u d nid :
  mapping_ok t -> p_name us !! zn = Some u -> p_mem us !! u = Some d -> marked d = false -> getnam nn = Some nid ->
  to_node t !! id d = None -> to_zfs t !! nid = None ->
  exists m t', mapping_create us getnam (Some t) zn nn = Ok (Some t', Some m) /\ mapping_ok t' /\
    to_node t' = <[id d := m]> (to_node t) /\ to_zfs t' = <[nid := m]> (to_zfs t) /\
    m_mem t' = <[m := MkMap (id d) nid false]> (m_mem t) /\ m_mem t !! m = None.
Proof.
  intros H Hu Hd Hm Hn E1 E2. unfold mapping_create, p_deref. rewrite Hu, Hd. cbn [mbind res_bind]. rewrite Hm, Hn, E1, E2.
  set (m := fresh (dom (m_mem t))). assert (m_mem t !! m = None) as Hfresh by (apply not_elem_of_dom, is_fresh).
  eexists m, _. split; [done|]. split; [|done]. split; cbn [to_node to_zfs m_mem].
  - intros z m'. destruct (decide (id d = z)) as [<-|].
    + rewrite lookup_insert_eq. intros [= <-]. rewrite lookup_insert_eq. eauto.
    + rewrite lookup_insert_ne by done. intros (d' & Hd' & Hz)%(mo_node _ H). exists d'. rewrite lookup_insert_ne; [done|]. intros <-. congruence.
  - intros n m'. destruct (decide (nid = n)) as [<-|].
    + rewrite lookup_insert_eq. intros [= <-]. rewrite lookup_insert_eq. eauto.
    + rewrite lookup_insert_ne by done. intros (d' & Hd' & Hz)%(mo_zfs _ H). exists d'. rewrite lookup_insert_ne; [done|]. intros <-. congruence.
Qed.

(** ** The properties *)

(** Reading the list of users (or groups) again: all are marked, the ones of the
    new list are created or unmarked, the marked ones are destroyed.  If every
    entry of the list is either known or new in both id and name, the tables hold
    exactly the list afterwards, and both tables and the memory agree. *)
Theorem principals_reread t l :
  principals_ok t -> NoDup l.*1 -> NoDup l.*2 ->
  (forall i n, (i, n) ∈ l -> (exists b, listed t i n b) \/
     (forall n' b, ~ listed t i n' b) /\ (forall i' b, ~ listed t i' n b)) ->
  exists t1 t2 t3, mark_all t = Ok t1 /\ create_all t1 l = Ok t2 /\ destroy_marked t2 = Ok t3 /\
    principals_ok t3 /\ forall i n b, listed t3 i n b <-> (i, n) ∈ l /\ b = false.
Proof.
  intros H Hi Hn Hc. destruct (mark_all_ok t H) as (t1 & -> & H1 & L1).
  destruct (create_all_exact l t1 H1 Hi Hn) as (t2 & E2 & H2 & L2).
  { intros i n Hin. destruct (Hc i n Hin) as [[b Hl]|[Ha Hb]]; [left; apply L1; eauto|right].
    split; intros x b [[b' Hl] _]%L1; [by eapply Ha|by eapply Hb]. }
  destruct (destroy_marked_ok t2 H2) as (t3 & E3 & H3 & L3). exists t1, t2, t3. split_and!; try done.
  intros i n b. rewrite L3, L2, L1. split; [|naive_solver]. intros [[?|(_ & _ & ->)] Hb]; done.
Qed.

(** A user whose name was changed in the configuration disappears: its id is still
    taken by the old entry when the new one is to be created, so the creation is
    refused, and then the old entry is destroyed. *)
Theorem renamed_principal_lost t l i n b :
  principals_ok t -> listed t i n b -> (i, n) ∉ l ->
  exists t1 t2 t3, mark_all t = Ok t1 /\ create_all t1 l = Ok t2 /\ destroy_marked t2 = Ok t3 /\
    forall n' b', ~ listed t3 i n' b'.
Proof.
  intros H Hl Hn. destruct (mark_all_ok t H) as (t1 & -> & H1 & L1).
  destruct (create_all_keeps l t1 H1) as (t2 & E2 & H2 & K2).
  destruct (destroy_marked_ok t2 H2) as (t3 & E3 & H3 & L3). exists t1, t2, t3. split_and!; try done.
  intros n' b' [Hl' ->]%L3. assert (listed t2 i n true) as Hl2 by (apply K2; [apply L1; eauto|done]).
  by destruct (listed_id _ _ _ _ _ _ Hl' Hl2).
Qed.

(** Reading an unchanged mapping again loses it: a mapping that is already in both
    tables is returned without clearing its mark, so [destroy_marked_user_mapping]
    destroys it.  After the second reading no ZFS id is mapped to a node id. *)
Theorem mapping_reread_loses us getnam t l :
  principals_ok us -> mapping_ok t ->
  (forall zn nn, (zn, nn) ∈ l -> exists u d nid, p_name us !! zn = Some u /\ p_mem us !! u = Some d /\ marked d = false /\
     getnam nn = Some nid /\ is_Some (to_node t !! id d) /\ is_Some (to_zfs t !! nid)) ->
  exists t1 t3, mark_id_mapping t = Ok t1 /\ create_mappings us getnam (Some t1) l = Ok (Some t1) /\
    destroy_marked_mapping us t1 = Ok t3 /\ to_node t3 = ∅.
Proof.
  intros Hus H Hl. destruct (mark_id_mapping_ok t H) as (t1 & -> & H1 & En & Ez & Hm).
  destruct (destroy_marked_mapping_ok us t1 Hus H1) as (t3 & E3 & _ & S3 & _ & N3). exists t1, t3. split_and!; try done.
  - clear E3 S3 N3. induction l as [|[zn nn] l IH]; cbn [create_mappings]; [done|].
    destruct (Hl zn nn) as (u & d & nid & F1 & F2 & F3 & F4 & [m1 F5] & [m2 F6]); [left|].
    unfold mapping_create, p_deref. rewrite F1, F2. cbn [mbind res_bind]. rewrite F3, F4, En, Ez, F5, F6. cbn [mbind res_bind].
    apply IH. intros zn' nn' Hin. apply Hl. by right.
  - apply map_empty. intros k. destruct (to_node t3 !! k) as [m|] eqn:E; [|done]. exfalso.
    apply (N3 k m); [by left|]. intros d Hd. left. eapply Hm; [|exact Hd]. rewrite <-En. by eapply lookup_weaken.
Qed.

(** Adding a mapping between a ZFS user and a node user that were both unmapped
    makes the two translations inverse on that pair and changes no other
    translation. *)
Theorem user_mapping_translates getpwnam c t zn nn u d nid :
  0 < this_node c -> uid_tables c (Some (this_node c)) = Ok (Some t) -> mapping_ok t ->
  p_name (users c) !! zn = Some u -> p_mem (users c) !! u = Some d -> marked d = false -> getpwnam nn = Some nid ->
  to_node t !! id d = None -> to_zfs t !! nid = None -> id d <> u32 (-1) -> nid <> u32 (-1) ->
  exists c', update_user_mappings getpwnam c [(zn, nn)] (this_node c) = Ok (c', true) /\
    map_uid_zfs2node c' (id d) = Ok nid /\ map_uid_node2zfs c' nid = Ok (id d) /\
    (forall i, i <> id d -> map_uid_zfs2node c' i = map_uid_zfs2node c i) /\
    (forall i, i <> nid -> map_uid_node2zfs c' i = map_uid_node2zfs c i).
Proof.
  intros Hthis Ht H Hu Hd Hm Hn E1 E2 Hz1 Hz2.
  destruct (mapping_create_new (users c) getpwnam t zn nn u d nid) as (m & t' & Ec & H' & En & Ez & Em & Hfresh); [done..|].
  pose proof Ht as Ht0. unfold uid_tables in Ht. destruct (nodes c !! this_node c) as [nm|] eqn:Enm; [|done]. injection Ht as Ht.
  unfold update_user_mappings, select_node. rewrite (proj2 (Z.ltb_lt 0 _) Hthis), Enm, Ht0. cbn [mbind res_bind create_mappings].
  rewrite Ec. cbn [mbind res_bind]. set (c' := with_uid_tables c (Some (this_node c)) (Some t')).
  assert (uid_tables c' (Some (this_node c')) = Ok (Some t')) as Ht'.
  { unfold uid_tables. cbn. rewrite lookup_alter_eq, Enm. done. }
  exists c'. split; [done|]. unfold map_uid_zfs2node, map_uid_node2zfs. rewrite Ht', Ht0. cbn [mbind res_bind need].
  change (default_uid c') with (default_uid c). change (default_node_uid c') with (default_node_uid c).
  assert (forall m', m_mem t !! m' <> None -> m_deref t' m' = m_deref t m') as Hder.
  { intros m' Hm'. unfold m_deref. rewrite Em, lookup_insert_ne; [done|]. by intros <-. }
  split_and!.
  - rewrite (proj2 (Z.eqb_neq _ _) Hz1). unfold map_id. rewrite En, lookup_insert_eq. unfold m_deref. by rewrite Em, lookup_insert_eq.
  - rewrite (proj2 (Z.eqb_neq _ _) Hz2). unfold map_id. rewrite Ez, lookup_insert_eq. unfold m_deref. by rewrite Em, lookup_insert_eq.
  - intros i Hi. case_if; [done|]. unfold map_id. rewrite En, lookup_insert_ne by done. destruct (to_node t !! i) as [m'|] eqn:Ei; [|done].
    rewrite Hder; [done|]. destruct (mo_node _ H _ _ Ei) as (d' & Hd' & _). congruence.
  - intros i Hi. case_if; [done|]. unfold map_id. rewrite Ez, lookup_insert_ne by done. destruct (to_zfs t !! i) as [m'|] eqn:Ei; [|done].
    rewrite Hder; [done|]. destruct (mo_zfs _ H _ _ Ei) as (d' & Hd' & _). congruence.
Qed.

(** Destroying mappings never uses a freed one: [user_mapping_destroy_all] leaves
    both tables empty, and [destroy_marked_user_mapping] leaves only entries that
    are unmarked and whose user still exists. *)
Theorem mapping_destroy_safe us t :
  principals_ok us -> mapping_ok t ->
  (exists t', mapping_destroy_all t = Ok t' /\ to_node t' = ∅ /\ to_zfs t' = ∅) /\
  (exists t', destroy_marked_mapping us t = Ok t' /\ mapping_ok t' /\ to_node t' ⊆ to_node t /\ to_zfs t' ⊆ to_zfs t /\
     forall k m, to_node t' !! k = Some m \/ to_zfs t' !! k = Some m ->
       exists d n, m_mem t !! m = Some d /\ m_marked d = false /\ listed us (zfs_id d) n false).
Proof.
  intros Hus H. split; [destruct (mapping_destroy_all_ok t H) as (t' & ? & _ & ? & ?); eauto|].
  destruct (destroy_marked_mapping_ok us t Hus H) as (t' & E & H' & S & Z & N). exists t'. split_and!; try done.
  intros k m Hm. specialize (N k m Hm).
  assert (exists d, m_mem t !! m = Some d) as [d Hd].
  { destruct Hm as [Hm|Hm].
    - assert (to_node t !! k = Some m) as Hm2 by by eapply lookup_weaken. destruct (mo_node _ H _ _ Hm2) as (d & ? & _). eauto.
    - assert (to_zfs t !! k = Some m) as Hm2 by by eapply lookup_weaken. destruct (mo_zfs _ H _ _ Hm2) as (d & ? & _). eauto. }
  unfold obsolete in N. destruct (m_marked d) eqn:Emk.
  { exfalso. apply N. intros d' Hd'. left. congruence. }
  destruct (p_id us !! zfs_id d) as [u|] eqn:Eu.
  - destruct (p_id_listed _ _ _ Hus Eu) as (n & b & Hp & Hl). destruct b; [|by exists d, n]. exfalso. apply N. intros d' Hd'. right.
    intros n' Hl'. simplify_eq. by destruct (listed_id _ _ _ _ _ _ Hl Hl').
  - exfalso. apply N. intros d' Hd'. right. intros n' (u & Hu & _). by simplify_eq.
Qed.

(** *** Witnesses *)

Definition alice : list Z := [97].
Definition bob : list Z := [98].
Definition ug_users : principals := match create_all no_principals [(10, alice); (11, bob)] with Ok t => t | _ => no_principals end.
Definition ug_getpwnam (n : list Z) : option Z := if decide (n = alice) then Some 1000 else None.
Definition ug_maps : id_maps :=
  match create_mappings ug_users ug_getpwnam (Some no_maps) [(alice, alice)] with Ok (Some t) => t | _ => no_maps end.
Definition ug_config : config_users_groups :=
  MkConfig ug_users no_principals no_maps no_maps {[1 := MkNode (Some no_maps) (Some no_maps)]} 1 65534 65534.

Lemma ug_users_ok : principals_ok ug_users.
Proof.
  destruct (create_all_keeps [(10, alice); (11, bob)] no_principals principals_ok_nil) as (t & E & H & _).
  unfold ug_users. by rewrite E.
Qed.

Lemma ug_maps_ok : mapping_ok ug_maps.
Proof.
  destruct (mapping_create_new ug_users ug_getpwnam no_maps alice alice 0%nat (MkPrincipal 10 alice false) 1000)
    as (m & t & E & H & _); [apply mapping_ok_nil|done..|].
  unfold ug_maps, create_mappings. rewrite E. done.
Qed.

Lemma principals_reread_witness :
  exists t1 t2 t3, mark_all ug_users = Ok t1 /\ create_all t1 [(10, alice); (12, [99])] = Ok t2 /\ destroy_marked t2 = Ok t3 /\
    listed t3 10 alice false.
Proof.
  destruct (principals_reread ug_users [(10, alice); (12, [99])]) as (t1 & t2 & t3 & E1 & E2 & E3 & _ & L).
  - exact ug_users_ok.
  - apply NoDup_cons; split; [|apply NoDup_singleton]. by intros ?%list_elem_of_singleton.
  - apply NoDup_cons; split; [|apply NoDup_singleton]. by intros ?%list_elem_of_singleton.
  - intros i n [[= -> ->]|[[= -> ->]|?%not_elem_of_nil]%elem_of_cons]%elem_of_cons.
    + left. exists false, 0%nat. by vm_compute.
    + right. split; intros x b (u & H1 & H2).
      * vm_compute in H1. discriminate.
      * apply elem_of_map_to_list in H2.
        assert (Forall (fun e => name e.2 <> [99]) (map_to_list (p_mem ug_users))) as HF.
        { apply (bool_decide_eq_true_1 _). vm_compute. reflexivity. }
        rewrite Forall_forall in HF. by apply (HF _ H2).
    + done.
  - exists t1, t2, t3. split_and!; [exact E1|exact E2|exact E3|]. apply L. split; [left|reflexivity].
Defined.

Lemma renamed_principal_lost_witness :
  exists t1 t2 t3, mark_all ug_users = Ok t1 /\ create_all t1 [(10, [99])] = Ok t2 /\ destroy_marked t2 = Ok t3 /\
    forall n b, ~ listed t3 10 n b.
Proof.
  destruct (renamed_principal_lost ug_users [(10, [99])] 10 alice false) as (t1 & t2 & t3 & E1 & E2 & E3 & L).
  - exact ug_users_ok.
  - exists 0%nat. by vm_compute.
  - by intros ?%list_elem_of_singleton.
  - exists t1, t2, t3. split_and!; [exact E1|exact E2|exact E3|exact L].
Defined.

Lemma mapping_reread_loses_witness :
  exists t1 t3, mark_id_mapping ug_maps = Ok t1 /\ create_mappings ug_users ug_getpwnam (Some t1) [(alice, alice)] = Ok (Some t1) /\
    destroy_marked_mapping ug_users t1 = Ok t3 /\ to_node t3 = ∅.
Proof.
  apply (mapping_reread_loses ug_users ug_getpwnam ug_maps [(alice, alice)]).
  - exact ug_users_ok.
  - exact ug_maps_ok.
  - intros zn nn [= -> ->]%list_elem_of_singleton. exists 0%nat, (MkPrincipal 10 alice false), 1000.
    split_and!; first [vm_compute; reflexivity|vm_compute; by eexists].
Defined.

Lemma user_mapping_translates_witness :
  exists c', update_user_mappings ug_getpwnam ug_config [(alice, alice)] 1 = Ok (c', true) /\
    map_uid_zfs2node c' 10 = Ok 1000 /\ map_uid_node2zfs c' 1000 = Ok 10.
Proof.
  destruct (user_mapping_translates ug_getpwnam ug_config no_maps alice alice 0%nat (MkPrincipal 10 alice false) 1000)
    as (c' & E & H1 & H2 & _ & _); try (vm_compute; reflexivity).
  - exact mapping_ok_nil.
  - vm_compute. discriminate.
  - vm_compute. discriminate.
  - exists c'. split_and!; [exact E|exact H1|exact H2].
Defined.

Lemma mapping_destroy_safe_witness :
  exists t', mapping_destroy_all ug_maps = Ok t' /\ to_node t' = ∅.
Proof.
  destruct (mapping_destroy_safe ug_users ug_maps ug_users_ok ug_maps_ok) as [(t' & E & H & _) _].
  exists t'. split; [exact E|exact H].
Defined.
