(* ===== verification/PosixFs.v ===== *)
(** The system calls on files which the daemon's file formats use: [open], [close],
    [read], [write], [lseek], [ftruncate], [fstat], [dup2], [rename] and [unlink].

    A world has inodes, names and open descriptors, and a script that says how
    the next calls end: they pass, transfer only part of the data, are
    interrupted, or fail with an error number.  A call takes the first outcome of
    the script; the calls after the end of the script pass.  [read] and [write]
    are an instance of the class [SysFile] of [FileIO.v], so [full_read] and
    [full_write] run on descriptors. *)

From stdpp Require Export strings.
From S2P Require Import Prelude FileIO.

Definition ENOENT : Z := 2.
Definition EBADF : Z := 9.

Inductive outcome : Type :=
  | Pass
  | Short (n : nat)      (* transfers at most [S n] bytes *)
  | Interrupt            (* [EINTR] from [read] and [write] *)
  | Fail (e : Z).

(** [i_reg] says that the inode is a regular file. *)
Record inode := Inode { i_reg : bool; i_data : list Z }.

(** A descriptor has the number of its inode and its position.  (A position
    is shared by duplicated descriptors; the code closes one of them at once.) *)
Record world := World {
  files : gmap nat inode;
  names : gmap string nat;
  fds : gmap Z (nat * nat);
  werrno : Z;
  script : list outcome
}.

Definition set_files (w : world) (f : gmap nat inode) : world :=
  World f (names w) (fds w) (werrno w) (script w).
Definition set_names (w : world) (n : gmap string nat) : world :=
  World (files w) n (fds w) (werrno w) (script w).
Definition set_fds (w : world) (d : gmap Z (nat * nat)) : world :=
  World (files w) (names w) d (werrno w) (script w).
Definition set_errno (w : world) (e : Z) : world :=
  World (files w) (names w) (fds w) e (script w).
Definition set_script (w : world) (s : list outcome) : world :=
  World (files w) (names w) (fds w) (werrno w) s.

(** Take the outcome of the next call. *)
Definition next_outcome (w : world) : outcome * world :=
  match script w with
  | [] => (Pass, w)
  | o :: s => (o, set_script w s)
  end.

Definition read_at (data : list Z) (p n : nat) : list Z := take n (drop p data).

Definition write_at (data : list Z) (p : nat) (b : list Z) : list Z :=
  resize p 0 data ++ b ++ drop (p + length b) data.

Definition transfer (o : outcome) (n : nat) : nat :=
  match o with
  | Short k => Nat.min n (S k)
  | _ => n
  end.

(** ** [read] and [write] on a descriptor *)

Record openfile := OpenFile { of_world : world; of_fd : Z }.

(** The inode behind a descriptor, with its number and the position. *)
Definition fd_inode (w : world) (fd : Z) : option (nat * nat * inode) :=
  '(i, p) ← fds w !! fd; nd ← files w !! i; Some (i, p, nd).

Definition of_read (f : openfile) (n : nat) : openfile * sysret (list Z) :=
  let fd := of_fd f in
  let '(o, w) := next_outcome (of_world f) in
  match o with
  | Fail e => (OpenFile w fd, Err e)
  | Interrupt => (OpenFile w fd, Err EINTR)
  | _ =>
      match fd_inode w fd with
      | None => (OpenFile w fd, Err EBADF)
      | Some (i, p, nd) =>
          let bytes := read_at (i_data nd) p (transfer o n) in
          (OpenFile (set_fds w (<[fd := (i, p + length bytes)%nat]> (fds w))) fd, Ret bytes)
      end
  end.

Definition of_write (f : openfile) (b : list Z) : openfile * sysret nat :=
  let fd := of_fd f in
  let '(o, w) := next_outcome (of_world f) in
  match o with
  | Fail e => (OpenFile w fd, Err e)
  | Interrupt => (OpenFile w fd, Err EINTR)
  | _ =>
      match fd_inode w fd with
      | None => (OpenFile w fd, Err EBADF)
      | Some (i, p, nd) =>
          let n := transfer o (length b) in
          let w := set_files w (<[i := Inode (i_reg nd) (write_at (i_data nd) p (take n b))]> (files w)) in
          (OpenFile (set_fds w (<[fd := (i, p + n)%nat]> (fds w))) fd, Ret n)
      end
  end.

#[export] Instance openfile_sys : SysFile openfile := {|
  sys_read := of_read; sys_write := of_write
|}.

(** [full_read] and [full_write] on a descriptor.  A round transfers a byte or
    takes an outcome of the script, so the fuel is the number of bytes plus the
    length of the script. *)
Definition fd_read (w : world) (fd : Z) (len : nat) : res (world * option (list Z)) :=
  '(s, r) ← full_read (len + length (script w)) (MkIo (OpenFile w fd) (werrno w)) [] len;
  Ok (set_errno (of_world (file s)) (errno s), r).

Definition fd_write (w : world) (fd : Z) (b : list Z) : res (world * bool) :=
  '(s, r) ← full_write (length b + length (script w)) (MkIo (OpenFile w fd) (werrno w)) b;
  Ok (set_errno (of_world (file s)) (errno s), r).

(** ** The other calls *)

(** Run [f] unless the script fails the call; [r] is the result of a failure. *)
Definition syscall {A} (w : world) (r : A) (f : world -> world * A) : world * A :=
  let '(o, w) := next_outcome w in
  match o with
  | Fail e => (set_errno w e, r)
  | _ => f w
  end.

(** [lseek (fd, off, SEEK_SET)] *)
Definition lseek (w : world) (fd : Z) (off : Z) : world * Z :=
  syscall w (-1) (fun w =>
    match fds w !! fd with
    | None => (set_errno w EBADF, -1)
    | Some (i, _) => (set_fds w (<[fd := (i, Z.to_nat off)]> (fds w)), off)
    end).

Definition fresh_fd (w : world) : Z := fresh (dom (fds w)).

(** [open (name, O_RDWR | O_CREAT | O_TRUNC, mode)] *)
Definition open_trunc (w : world) (name : string) : world * Z :=
  syscall w (-1) (fun w =>
    let i := default (fresh (dom (files w))) (names w !! name) in
    let fd := fresh_fd w in
    (World (<[i := Inode true []]> (files w)) (<[name := i]> (names w))
       (<[fd := (i, 0%nat)]> (fds w)) (werrno w) (script w), fd)).

(** [open (name, O_RDWR)] *)
Definition open_rdwr (w : world) (name : string) : world * Z :=
  syscall w (-1) (fun w =>
    match names w !! name with
    | None => (set_errno w ENOENT, -1)
    | Some i => let fd := fresh_fd w in (set_fds w (<[fd := (i, 0%nat)]> (fds w)), fd)
    end).

Definition ftruncate (w : world) (fd : Z) (len : Z) : world * Z :=
  syscall w (-1) (fun w =>
    match fd_inode w fd with
    | None => (set_errno w EBADF, -1)
    | Some (i, _, nd) =>
        (set_files w (<[i := Inode (i_reg nd) (resize (Z.to_nat len) 0 (i_data nd))]> (files w)), 0)
    end).

(** [st_mode] is reduced to "is a regular file". *)
Record stat := Stat { st_reg : bool; st_size : Z }.

Definition fstat (w : world) (fd : Z) : world * option stat :=
  syscall w None (fun w =>
    match fd_inode w fd with
    | None => (set_errno w EBADF, None)
    | Some (_, _, nd) => (w, Some (Stat (i_reg nd) (Z.of_nat (length (i_data nd)))))
    end).

(** [close] releases the descriptor even when it reports an error. *)
Definition close (w : world) (fd : Z) : world := set_fds w (delete fd (fds w)).

Definition dup2 (w : world) (fd fd2 : Z) : world * Z :=
  syscall w (-1) (fun w =>
    match fds w !! fd with
    | None => (set_errno w EBADF, -1)
    | Some d => (set_fds w (<[fd2 := d]> (fds w)), fd2)
    end).

Definition rename (w : world) (old new : string) : world * Z :=
  syscall w (-1) (fun w =>
    match names w !! old with
    | None => (set_errno w ENOENT, -1)
    | Some i => (set_names w (<[new := i]> (delete old (names w))), 0)
    end).

Definition unlink (w : world) (name : string) : world := set_names w (delete name (names w)).

(** ** Facts about positions and contents *)

Lemma length_write_at data p b : (p + length b <= length data)%nat ->
  length (write_at data p b) = length data.
Proof.
  intros H. unfold write_at. rewrite !length_app, length_resize, length_drop. lia.
Qed.

Lemma write_at_nil data p : (p <= length data)%nat -> write_at data p [] = data.
Proof.
  intros H. unfold write_at. rewrite resize_le by done. simpl.
  rewrite Nat.add_0_r. apply take_drop.
Qed.

Lemma write_at_app data p a b : (p <= length data)%nat ->
  write_at (write_at data p a) (p + length a) b = write_at data p (a ++ b).
Proof.
  intros H. unfold write_at. rewrite (resize_le data p) by done.
  assert (length (take p data) = p) as Hp by (rewrite length_take; lia).
  rewrite (app_assoc (take p data) a (drop _ data)).
  assert (length (take p data ++ a) = (p + length a)%nat) as Hpa by (rewrite length_app; lia).
  rewrite resize_le by (rewrite length_app; lia).
  rewrite <-Hpa, take_app_length, drop_app_ge by lia.
  rewrite drop_drop, Hpa, <-!app_assoc, length_app. do 4 f_equal. lia.
Qed.

Lemma length_read_at data p n : (p + n <= length data)%nat -> length (read_at data p n) = n.
Proof. intros H. unfold read_at. rewrite length_take, length_drop. lia. Qed.

(** ** Scripts without failures *)

Definition benign (o : outcome) : Prop := match o with Fail _ => False | _ => True end.
Definition quiet (w : world) : Prop := Forall benign (script w).

(** Taking an outcome leaves everything but the script alone. *)
Lemma next_outcome_frame w o w' : next_outcome w = (o, w') ->
  files w' = files w /\ names w' = names w /\ fds w' = fds w /\
  (quiet w -> benign o /\ quiet w') /\
  (length (script w') <= length (script w))%nat /\
  match o with Interrupt | Fail _ => (length (script w') < length (script w))%nat | _ => True end.
Proof.
  unfold next_outcome, quiet. destruct (script w) as [|o' s] eqn:E; intros [= <- <-]; cbn.
  - rewrite E. by split_and!.
  - split_and!; [done..| |lia|by destruct o'; lia]. by intros []%Forall_cons.
Qed.

Lemma fresh_fd_nonneg w : 0 <= fresh_fd w.
Proof.
  change (0 <= foldr (Z.max ∘ Z.succ) 0 (elements (dom (fds w)))).
  induction (elements (dom (fds w))) as [|x l IH]; [done|].
  etrans; [exact IH|]. apply Z.le_max_r.
Qed.

Lemma fresh_fd_new w : fds w !! fresh_fd w = None.
Proof. unfold fresh_fd. apply not_elem_of_dom, is_fresh. Qed.

(** Unchanged files and names, and no new failures to come. *)
Definition same_files (w w' : world) : Prop :=
  files w' = files w /\ names w' = names w /\ (quiet w -> quiet w').

(** The result [r] of reading up to [len] bytes into a buffer that holds [buf]: the
    bytes at position [p], or nothing when the script had a failure. *)
Definition read_post (w w' : world) (fd : Z) (i p : nat) (nd : inode) (buf : list Z) (len : nat)
    (r : option (list Z)) : Prop :=
  same_files w w' /\
  match r with
  | Some b => b = buf ++ read_at (i_data nd) p (len - length buf) /\
      fds w' = <[fd := (i, p + (len - length buf))%nat]> (fds w)
  | None => ~ quiet w /\ exists p', fds w' = <[fd := (i, p')]> (fds w)
  end.

Definition reads_ok (fuel : nat) (w w0 : world) (fd e : Z) (i p : nat) (nd : inode) (buf buf0 : list Z)
    (len : nat) : Prop :=
  exists w' e' r, full_read fuel (MkIo (OpenFile w0 fd) e) buf0 len = Ok (MkIo (OpenFile w' fd) e', r) /\
    read_post w w' fd i p nd buf len r.

(** A failed or interrupted call. *)
Lemma reads_retry fuel w w1 fd e i p nd buf len :
  files w1 = files w -> names w1 = names w -> fds w1 = fds w -> (quiet w -> quiet w1) ->
  fds w !! fd = Some (i, p) -> (e = EINTR \/ ~ quiet w) ->
  reads_ok fuel w1 w1 fd e i p nd buf buf len ->
  exists w' e' r, (if e =? EINTR then full_read fuel (MkIo (OpenFile w1 fd) e) buf len
         else Ok (MkIo (OpenFile w1 fd) e, None)) = Ok (MkIo (OpenFile w' fd) e', r) /\
    read_post w w' fd i p nd buf len r.
Proof.
  intros H1 H2 H3 H4 Hfd He (w' & e' & r & Hr & (F1 & F2 & F3) & F). destruct (e =? EINTR) eqn:Ee.
  - exists w', e', r. split; [done|]. rewrite H3 in F.
    split; [unfold same_files; rewrite F1, F2; naive_solver|]. destruct r; naive_solver.
  - exists w1, e, None. split; [done|]. split; [by split|].
    bool_to_prop. split; [naive_solver|]. exists p. by rewrite H3, insert_id.
Qed.

(** A call that transfers some bytes. *)
Lemma reads_step fuel w w1 fd e i p nd buf len n :
  files w1 = files w -> names w1 = names w -> fds w1 = fds w -> (quiet w -> quiet w1) ->
  fds w !! fd = Some (i, p) -> (0 < n <= len - length buf)%nat ->
  (p + (len - length buf) <= length (i_data nd))%nat ->
  let bytes := read_at (i_data nd) p n in
  let w2 := set_fds w1 (<[fd := (i, p + length bytes)%nat]> (fds w1)) in
  reads_ok fuel w2 w2 fd e i (p + length bytes) nd (buf ++ bytes) (buf ++ bytes) len ->
  bytes <> [] /\ reads_ok fuel w w2 fd e i p nd buf (buf ++ bytes) len.
Proof.
  intros H1 H2 H3 H4 Hfd Hn Hp bytes w2 (w' & e' & r & Hr & (F1 & F2 & F3) & F).
  assert (length bytes = n) as Hl by (apply length_read_at; lia).
  split; [intros E; rewrite E in Hl; simpl in Hl; lia|].
  exists w', e', r. split; [done|]. split; [unfold same_files; rewrite F1, F2; cbn; naive_solver|].
  subst w2. cbn [set_fds fds] in F. rewrite length_app, Hl in F. destruct r as [r|].
  - rewrite insert_insert_eq, H3 in F. destruct F as [-> ->]. rewrite <-app_assoc.
    replace (len - (length buf + n))%nat with (len - length buf - n)%nat by lia.
    replace (p + n + (len - length buf - n))%nat with (p + (len - length buf))%nat by lia.
    split; [|done]. subst bytes. unfold read_at. f_equal.
    rewrite <-drop_drop, take_take_drop. f_equal. lia.
  - destruct F as [Fq [p' ->]]. split; [intros Hq; apply Fq; by apply H4|].
    exists p'. by rewrite insert_insert_eq, H3.
Qed.

(** Whatever the script, a read within the file ends. *)
Lemma full_read_open fuel : forall w fd e i p nd buf len,
  fds w !! fd = Some (i, p) -> files w !! i = Some nd -> (length buf <= len)%nat ->
  (p + (len - length buf) <= length (i_data nd))%nat ->
  (len - length buf + length (script w) <= fuel)%nat ->
  reads_ok fuel w w fd e i p nd buf buf len.
Proof.
  assert (forall fuel w fd e i p nd buf len, fds w !! fd = Some (i, p) -> (len <= length buf)%nat ->
    reads_ok fuel w w fd e i p nd buf buf len) as Hend.
  { intros. exists w, e, (Some buf). split; [destruct fuel0; cbn [full_read]; by rewrite decide_True|].
    split; [done|]. replace (len - length buf)%nat with 0%nat by lia.
    by rewrite app_nil_r, Nat.add_0_r, insert_id. }
  induction fuel as [|fuel IH]; intros w fd e i p nd buf len Hfd Hi Hb Hp Hf; [apply Hend; [done|lia]|].
  destruct (decide (len <= length buf)%nat) as [Hd|Hd]; [by apply Hend|].
  unfold reads_ok. cbn [full_read]. rewrite decide_False by done.
  cbn [sys_read openfile_sys file]. unfold of_read. cbn [of_world of_fd].
  destruct (next_outcome w) as [o w1] eqn:Eo.
  pose proof (next_outcome_frame _ _ _ Eo) as (H1 & H2 & H3 & H4 & H5 & H6).
  destruct o as [|k| |e0].
  3, 4: apply reads_retry; [done|done|done|intros Hq; by apply H4|done| |apply IH; congruence || lia].
  3: by left.
  3: right; intros Hq; by apply H4 in Hq as [[] _].
  all: unfold fd_inode; rewrite H3, Hfd; cbn [mbind option_bind]; rewrite H1, Hi;
    cbn [mbind option_bind errno]; rewrite <-H3.
  all: match goal with |- context [read_at _ _ ?m] => set (n := m) end;
    assert (0 < n <= len - length buf)%nat as Hn by (subst n; cbn [transfer]; lia);
    pose proof (length_read_at (i_data nd) p n ltac:(lia)) as Hl;
    destruct (reads_step fuel w w1 fd e i p nd buf len n) as [Hne Hr];
    [done|done|done|intros Hq; by apply H4|done|done|done|apply IH; cbn [set_fds fds files script]; rewrite ?lookup_insert_eq, ?length_app, ?Hl; try done; try congruence; lia|];
    destruct (read_at (i_data nd) p n); [done|exact Hr].
Qed.

(** [full_write]; after a failure a first part of the bytes may have been written. *)
Definition write_post (w w' : world) (fd : Z) (i p : nat) (nd : inode) (b : list Z) (r : bool) : Prop :=
  exists n, files w' = <[i := Inode (i_reg nd) (write_at (i_data nd) p (take n b))]> (files w) /\
    names w' = names w /\ fds w' = <[fd := (i, p + n)%nat]> (fds w) /\ (quiet w -> quiet w') /\
    (n <= length b)%nat /\ if r then n = length b else ~ quiet w.

Definition writes_ok (fuel : nat) (w w0 : world) (fd e : Z) (i p : nat) (nd : inode) (b b0 : list Z) : Prop :=
  exists w' e' r, full_write fuel (MkIo (OpenFile w0 fd) e) b0 = Ok (MkIo (OpenFile w' fd) e', r) /\
    write_post w w' fd i p nd b r.

Lemma write_post_nil w w1 fd i p nd b : files w1 = files w -> names w1 = names w -> fds w1 = fds w ->
  (quiet w -> quiet w1) -> fds w !! fd = Some (i, p) -> files w !! i = Some nd ->
  (p <= length (i_data nd))%nat -> (b = [] \/ ~ quiet w) ->
  write_post w w1 fd i p nd b (bool_decide (b = [])).
Proof.
  intros H1 H2 H3 H4 Hfd Hi Hp Hb. exists 0%nat.
  rewrite take_0, write_at_nil, Nat.add_0_r, H1, H3 by done. destruct nd.
  rewrite !insert_id by done. split_and!; [done..|lia|]. case_bool_decide; [by subst|naive_solver].
Qed.

Lemma writes_retry fuel w w1 fd e i p nd b :
  files w1 = files w -> names w1 = names w -> fds w1 = fds w -> (quiet w -> quiet w1) ->
  fds w !! fd = Some (i, p) -> files w !! i = Some nd -> (p <= length (i_data nd))%nat ->
  b <> [] -> (e = EINTR \/ ~ quiet w) ->
  writes_ok fuel w1 w1 fd e i p nd b b ->
  exists w' e' r, (if e =? EINTR then full_write fuel (MkIo (OpenFile w1 fd) e) b
         else Ok (MkIo (OpenFile w1 fd) e, false)) = Ok (MkIo (OpenFile w' fd) e', r) /\
    write_post w w' fd i p nd b r.
Proof.
  intros H1 H2 H3 H4 Hfd Hi Hp Hb He (w' & e' & r & Hr & n & F1 & F2 & F3 & F4 & F5 & F6).
  destruct (e =? EINTR) eqn:Ee; bool_to_prop.
  - exists w', e', r. split; [done|]. exists n. rewrite F1, F2, F3, H1, H2, H3.
    split_and!; [done..|auto|done|]. destruct r; [done|auto].
  - exists w1, e, false. split; [done|].
    pose proof (write_post_nil w w1 fd i p nd b H1 H2 H3 H4 Hfd Hi Hp) as Hn.
    rewrite bool_decide_false in Hn by done. apply Hn. naive_solver.
Qed.

Lemma writes_step fuel w w1 fd e i p nd b n :
  files w1 = files w -> names w1 = names w -> fds w1 = fds w -> (quiet w -> quiet w1) ->
  files w !! i = Some nd -> (p <= length (i_data nd))%nat -> (n <= length b)%nat ->
  let nd1 := Inode (i_reg nd) (write_at (i_data nd) p (take n b)) in
  let w2 := set_fds (set_files w1 (<[i := nd1]> (files w1))) (<[fd := (i, p + n)%nat]> (fds w1)) in
  writes_ok fuel w2 w2 fd e i (p + n) nd1 (drop n b) (drop n b) ->
  writes_ok fuel w w2 fd e i p nd b (drop n b).
Proof.
  intros H1 H2 H3 H4 Hi Hp Hn nd1 w2 (w' & e' & r & Hr & m & F1 & F2 & F3 & F4 & F5 & F6).
  exists w', e', r. split; [done|]. exists (n + m)%nat. subst nd1 w2.
  cbn [set_fds set_files files fds names i_reg i_data] in *.
  rewrite insert_insert_eq, H1 in F1. rewrite insert_insert_eq, H3 in F3. rewrite length_drop in F5, F6.
  split_and!.
  - rewrite F1. f_equal. f_equal.
    replace (p + n)%nat with (p + length (take n b))%nat by (rewrite length_take; lia).
    rewrite write_at_app, take_take_drop by done. done.
  - congruence.
  - by rewrite F3, Nat.add_assoc.
  - intros Hq. apply F4. by apply H4.
  - lia.
  - destruct r; [lia|]. intros Hq. apply F6. by apply H4.
Qed.

Lemma full_write_unfold {F} `{SysFile F} fuel (s : io F) b : b <> [] ->
  full_write (S fuel) s b =
  match sys_write (file s) b with
  | (f, Ret O) => if errno s =? EINTR then full_write fuel (MkIo f (errno s)) b else Ok (MkIo f (errno s), false)
  | (f, Ret n) => full_write fuel (MkIo f (errno s)) (drop n b)
  | (f, Err e) => if e =? EINTR then full_write fuel (MkIo f e) b else Ok (MkIo f e, false)
  end.
Proof. by destruct b. Qed.

Lemma full_write_open fuel : forall w fd e i p nd b,
  fds w !! fd = Some (i, p) -> files w !! i = Some nd -> (p <= length (i_data nd))%nat ->
  (length b + length (script w) <= fuel)%nat ->
  writes_ok fuel w w fd e i p nd b b.
Proof.
  assert (forall fuel w fd e i p nd, fds w !! fd = Some (i, p) -> files w !! i = Some nd ->
    (p <= length (i_data nd))%nat -> writes_ok fuel w w fd e i p nd [] []) as Hend.
  { intros. exists w, e, true. split; [by destruct fuel0|].
    apply (write_post_nil w w fd i p nd []); auto. }
  induction fuel as [|fuel IH]; intros w fd e i p nd b Hfd Hi Hp Hf.
  { destruct b; [by apply Hend|simpl in Hf; lia]. }
  destruct (decide (b = [])) as [->|Hb]; [by apply Hend|].
  assert (0 < length b)%nat as Hb0 by (destruct b; simpl; [done|lia]).
  unfold writes_ok. rewrite full_write_unfold by done.
  cbn [sys_write openfile_sys file]. unfold of_write. cbn [of_world of_fd].
  destruct (next_outcome w) as [o w1] eqn:Eo.
  pose proof (next_outcome_frame _ _ _ Eo) as (H1 & H2 & H3 & H4 & H5 & H6).
  destruct o as [|k| |e0].
  3, 4: apply writes_retry; [done|done|done|intros Hq; by apply H4|done|done|done|done|
    |apply IH; congruence || lia].
  3: by left.
  3: right; intros Hq; by apply H4 in Hq as [[] _].
  all: assert (fd_inode w1 fd = Some (i, p, nd)) as ->
    by (unfold fd_inode; rewrite H3, Hfd; cbn [mbind option_bind]; rewrite H1, Hi; done).
  all: match goal with |- context [transfer ?o ?l] => set (n := transfer o l) end;
    assert (0 < n <= length b)%nat as Hn by (subst n; cbn [transfer]; lia);
    pose proof (writes_step fuel w w1 fd e i p nd b n H1 H2 H3 ltac:(intros Hq; by apply H4) Hi Hp ltac:(lia))
      as Hs; cbv zeta in Hs; clearbody n;
    destruct n as [|n]; [lia|apply Hs]; apply IH; cbn [set_fds set_files files fds script i_data];
    rewrite ?lookup_insert_eq, ?length_drop; try done;
    [unfold write_at; rewrite !length_app, length_resize, length_take; lia|lia].
Qed.

Lemma fd_read_ok w fd i p nd len :
  fds w !! fd = Some (i, p) -> files w !! i = Some nd -> (p + len <= length (i_data nd))%nat ->
  exists w' r, fd_read w fd len = Ok (w', r) /\ read_post w w' fd i p nd [] len r.
Proof.
  intros Hfd Hi Hp. unfold fd_read.
  destruct (full_read_open (len + length (script w)) w fd (werrno w) i p nd [] len) as (w' & e & r & -> & H);
    [done|done|simpl; lia..|]. by exists (set_errno w' e), r.
Qed.

Lemma fd_write_ok w fd i p nd b :
  fds w !! fd = Some (i, p) -> files w !! i = Some nd -> (p <= length (i_data nd))%nat ->
  exists w' r, fd_write w fd b = Ok (w', r) /\ write_post w w' fd i p nd b r.
Proof.
  intros Hfd Hi Hp. unfold fd_write.
  destruct (full_write_open (length b + length (script w)) w fd (werrno w) i p nd b) as (w' & e & r & -> & H);
    [done|done|done|lia|]. by exists (set_errno w' e), r.
Qed.

(** The other calls: [f] runs, or the script had a failure. *)
Lemma syscall_cases {A} w (r : A) f :
  exists w1, same_files w w1 /\ fds w1 = fds w /\
    (syscall w r f = f w1 \/ ~ quiet w /\ syscall w r f = (w1, r)).
Proof.
  unfold syscall. destruct (next_outcome w) as [o w1] eqn:Eo.
  pose proof (next_outcome_frame _ _ _ Eo) as (H1 & H2 & H3 & H4 & _ & _).
  assert (same_files w w1) by (split_and!; [done|done|]; intros Hq; by apply H4).
  destruct o as [|k| |e]; [exists w1; auto..|].
  exists (set_errno w1 e). split_and!; [done|done|]. right. split; [|done].
  intros Hq. by apply H4 in Hq as [[] _].
Qed.

(** The next call that the script can fail does fail. *)
Definition next_fails (l : list outcome) : bool := match l with Fail _ :: _ => true | _ => false end.

Lemma syscall_step {A} w (r : A) f :
  exists w1, same_files w w1 /\ fds w1 = fds w /\ script w1 = tail (script w) /\
    syscall w r f = if next_fails (script w) then (w1, r) else f w1.
Proof.
  unfold syscall. destruct (next_outcome w) as [o w1] eqn:Eo.
  pose proof (next_outcome_frame _ _ _ Eo) as (H1 & H2 & H3 & H4 & _ & _).
  assert (same_files w w1) by (split_and!; [done|done|]; intros Hq; by apply H4).
  assert (script w1 = tail (script w) /\ next_fails (script w) = match o with Fail _ => true | _ => false end) as [Hs Hf].
  { unfold next_outcome in Eo. destruct (script w) as [|o' l] eqn:Ew; injection Eo as <- <-; [by rewrite Ew|by destruct o']. }
  rewrite Hf. destruct o as [|k| |e]; [exists w1; auto..|]. by exists (set_errno w1 e).
Qed.

Lemma quiet_passes w : quiet w -> next_fails (script w) = false /\ next_fails (tail (script w)) = false.
Proof.
  unfold quiet. intros H. destruct (script w) as [|o l]; [done|]. apply Forall_cons in H as [H1 H].
  split; [by destruct o|]. destruct l as [|o' l]; [done|]. apply Forall_cons in H as [H2 _]. by destruct o'.
Qed.

Lemma lseek_ok w fd i p off : fds w !! fd = Some (i, p) ->
  exists w' r, lseek w fd off = (w', r) /\ same_files w w' /\
    (r = off /\ fds w' = <[fd := (i, Z.to_nat off)]> (fds w) \/ ~ quiet w /\ r = -1 /\ fds w' = fds w).
Proof.
  intros Hfd. unfold lseek.
  edestruct (syscall_cases w (-1)) as (w1 & (H1 & H2 & H3) & H4 & [->|[Hq ->]]).
  - rewrite H4, Hfd. eexists _, _. split; [done|]. split; [done|]. left. cbn. auto.
  - exists w1, (-1). split; [done|]. split; [done|]. auto.
Qed.
