(* ===== verification/SlotTable.v ===== *)
(** Tables with linear probing, apart from their representation in a file: the
    content of a hash file of [src/zfsd/lib/hashfile/hashfile.c] as a list of
    slots, the finite map it represents, and the probe sequence of a key. *)

From S2P Require Import Prelude.

(** A valid slot has the bytes after the status word. *)
Inductive slot : Type :=
  | SEmpty
  | SDeleted
  | SValid (v : list Z).

#[export] Instance slot_eq_dec : EqDecision slot.
Proof. solve_decision. Defined.

(** ** Counting slots *)

Definition used (s : slot) : bool := match s with SEmpty => false | _ => true end.
Definition is_deleted (s : slot) : bool := match s with SDeleted => true | _ => false end.

Fixpoint count (f : slot -> bool) (T : list slot) : Z :=
  match T with
  | [] => 0
  | s :: T => Z.b2z (f s) + count f T
  end.

Lemma count_app f T T' : count f (T ++ T') = count f T + count f T'.
Proof. induction T as [|s T IH]; simpl; lia. Qed.

Lemma count_insert f T i s0 s : T !! i = Some s0 ->
  count f (<[i := s]> T) = count f T - Z.b2z (f s0) + Z.b2z (f s).
Proof.
  revert i. induction T as [|x T IH]; intros [|i]; simpl; [done|done| |].
  - intros [= ->]. lia.
  - intros H. rewrite (IH _ H). lia.
Qed.

Lemma count_bounds f T : 0 <= count f T <= Z.of_nat (length T).
Proof. induction T as [|s T IH]; cbn [count length]; [lia|]. destruct (f s); simpl; lia. Qed.

Lemma count_pos f T i s : T !! i = Some s -> f s = true -> 0 < count f T.
Proof.
  revert i. induction T as [|x T IH]; intros [|i]; simpl; [done|done| |].
  - intros [= ->] ->. pose proof (count_bounds f T). simpl. lia.
  - intros H1 H2. specialize (IH _ H1 H2). destruct (f x); simpl; lia.
Qed.

Lemma count_le f g T : (forall s, f s = true -> g s = true) -> count f T <= count g T.
Proof.
  intros H. induction T as [|s T IH]; simpl; [lia|]. specialize (H s).
  destruct (f s), (g s); simpl; try lia; naive_solver.
Qed.

Lemma count_replicate f s n : f s = false -> count f (replicate n s) = 0.
Proof. intros H. induction n as [|n IH]; [done|]. cbn. rewrite H. simpl. lia. Qed.

(** A table that is not full has an empty slot. *)
Lemma count_used_empty T : count used T < Z.of_nat (length T) -> exists i, T !! i = Some SEmpty.
Proof.
  induction T as [|s T IH]; cbn [count length]; [lia|]. intros H. destruct s.
  - by exists 0%nat.
  - destruct IH as [i Hi]; [simpl in *; lia|]. by exists (S i).
  - destruct IH as [i Hi]; [simpl in *; lia|]. by exists (S i).
Qed.

Section table.
Context {K : Type} `{Countable K}.
Context (vkey : list Z -> K) (vhash : list Z -> nat).
Hypothesis vhash_key : forall v v', vkey v = vkey v' -> vhash v = vhash v'.
Implicit Types (T : list slot) (M : gmap K (list Z)) (k : K) (v : list Z).

(** The [d]-th probe of a search that starts at [hm]. *)
Definition probe T (hm d : nat) : nat := ((hm + d) mod length T)%nat.

(** The map [M] is the content of the table: a key is in at most one slot, and no
    empty slot comes before it in its probe sequence. *)
Record table_rep T M : Prop := {
  tr_map : forall k v, M !! k = Some v <-> exists i, T !! i = Some (SValid v) /\ vkey v = k;
  tr_inj : forall i j v v', T !! i = Some (SValid v) -> T !! j = Some (SValid v') ->
    vkey v = vkey v' -> i = j;
  tr_probe : forall d v, (d < length T)%nat ->
    T !! probe T (vhash v) d = Some (SValid v) ->
    forall d', (d' < d)%nat -> T !! probe T (vhash v) d' <> Some SEmpty
}.

(** A search for [k] stops at an empty slot or at the slot of [k]. *)
Definition stops T k (i : nat) : Prop :=
  T !! i = Some SEmpty \/ exists v, T !! i = Some (SValid v) /\ vkey v = k.

#[export] Instance stops_dec T k i : Decision (stops T k i).
Proof.
  destruct (T !! i) as [[| |v]|] eqn:E.
  - by left; left.
  - right. unfold stops. rewrite E. naive_solver.
  - destruct (decide (vkey v = k)); [left; right; eauto|]. right. unfold stops. rewrite E. naive_solver.
  - right. unfold stops. rewrite E. naive_solver.
Defined.

Lemma probe_lt T hm d : (0 < length T)%nat -> (probe T hm d < length T)%nat.
Proof. intros. apply Nat.mod_upper_bound. lia. Qed.

(** Every slot is probed. *)
Lemma probe_surj T hm i : (i < length T)%nat -> exists d, (d < length T)%nat /\ probe T hm d = i.
Proof.
  intros Hi. set (n := length T) in *. exists ((i + (n - hm mod n)) mod n)%nat.
  split; [apply Nat.mod_upper_bound; lia|]. unfold probe. fold n.
  pose proof (Nat.mod_upper_bound hm n ltac:(lia)).
  pose proof (Nat.div_mod_eq hm n) as Hm. rewrite (Nat.mul_comm n) in Hm.
  rewrite Nat.Div0.add_mod_idemp_r.
  replace (hm + (i + (n - hm mod n)))%nat with (i + (hm / n + 1) * n)%nat
    by (rewrite Nat.mul_add_distr_r; lia).
  rewrite Nat.Div0.mod_add. by apply Nat.mod_small.
Qed.

Lemma probe_inj T hm d d' : (d < length T)%nat -> (d' < length T)%nat ->
  probe T hm d = probe T hm d' -> d = d'.
Proof.
  intros Hd Hd' E. unfold probe in E. set (n := length T) in *.
  pose proof (Nat.div_mod_eq (hm + d) n). pose proof (Nat.div_mod_eq (hm + d') n).
  rewrite E in *. destruct (Nat.lt_trichotomy ((hm + d) / n) ((hm + d') / n)) as [?|[Hq|?]];
    [nia|rewrite Hq in *; lia|nia].
Qed.

(** The first probe at which a search stops. *)
Lemma first_stop T k hm : count used T < Z.of_nat (length T) ->
  exists d, (d < length T)%nat /\ stops T k (probe T hm d) /\
    forall d', (d' < d)%nat -> ~ stops T k (probe T hm d').
Proof.
  intros Hc. destruct (count_used_empty T Hc) as [i Hi].
  destruct (probe_surj T hm i) as (d0 & Hd0 & Hp); [by apply lookup_lt_Some in Hi|].
  assert (stops T k (probe T hm d0)) as Hs by (left; by rewrite Hp).
  clear Hp Hi i.
  assert (forall n, (exists d, (d < n)%nat /\ stops T k (probe T hm d) /\
      forall d', (d' < d)%nat -> ~ stops T k (probe T hm d')) \/
    forall d', (d' < n)%nat -> ~ stops T k (probe T hm d')) as Hn.
  { induction n as [|n [(d & ? & ?)|Hn]]; [right; lia|left; exists d; split; [lia|done]|].
    destruct (decide (stops T k (probe T hm n))); [left; exists n; auto with lia|].
    right. intros d' Hd. destruct (decide (d' = n)) as [->|]; [done|]. apply Hn. lia. }
  destruct (Hn d0) as [(d & Hd & ? & ?)|Hf]; [exists d; split_and!; [lia|done..]|by exists d0].
Qed.

(** What a search finds. *)
Lemma search_result T M k d v : table_rep T M -> (d < length T)%nat -> vkey v = k ->
  stops T k (probe T (vhash v) d) -> (forall d', (d' < d)%nat -> ~ stops T k (probe T (vhash v) d')) ->
  T !! probe T (vhash v) d =
    Some (match M !! k with Some v' => SValid v' | None => SEmpty end).
Proof.
  intros Hr Hd Hk [E|(v' & E & Hk')] Hf.
  - destruct (M !! k) as [v'|] eqn:Em; [|done]. exfalso.
    apply (tr_map _ _ Hr) in Em as (i & Hi & Hk').
    destruct (probe_surj T (vhash v) i) as (d0 & Hd0 & Hp); [by apply lookup_lt_Some in Hi|].
    assert (vhash v = vhash v') as Hh by (apply vhash_key; congruence).
    destruct (decide (d0 < d)%nat) as [Hlt|Hge].
    { apply (Hf d0 Hlt). right. exists v'. by rewrite Hp. }
    destruct (decide (d0 = d)) as [->|Hne]; [congruence|].
    apply (tr_probe _ _ Hr d0 v') with (d' := d); [done|by rewrite <-Hh, Hp|lia|by rewrite <-Hh].
  - assert (M !! k = Some v') as -> by (apply (tr_map _ _ Hr); eauto). done.
Qed.

(** Replacing a slot by a used one keeps the other keys reachable. *)
Lemma probe_insert T i s hm d : probe (<[i := s]> T) hm d = probe T hm d.
Proof. unfold probe. by rewrite length_insert. Qed.

Lemma insert_nonempty T i j s : T !! j <> Some SEmpty -> s <> SEmpty -> <[i := s]> T !! j <> Some SEmpty.
Proof.
  intros Hj Hs E. apply list_lookup_insert_Some in E as [(_ & -> & _)|[_ ?]]; [|done]. congruence.
Qed.

(** Storing [v] in the slot of its key, or in a free slot before the end of its
    probe sequence. *)
Lemma table_store T M d v : table_rep T M -> (d < length T)%nat ->
  (forall d', (d' < d)%nat -> T !! probe T (vhash v) d' <> Some SEmpty) ->
  (forall i v', T !! i = Some (SValid v') -> vkey v' = vkey v -> i = probe T (vhash v) d) ->
  (forall v', T !! probe T (vhash v) d = Some (SValid v') -> vkey v' = vkey v) ->
  table_rep (<[probe T (vhash v) d := SValid v]> T) (<[vkey v := v]> M).
Proof.
  intros Hr Hd Hpre Hsame Hslot. set (i := probe T (vhash v) d) in *.
  assert (i < length T)%nat as Hi by (apply probe_lt; lia).
  split.
  - intros k v'. rewrite lookup_insert_Some. split.
    + intros [[<- <-]|[Hk Em]]; [exists i; by rewrite list_lookup_insert_eq|].
      apply (tr_map _ _ Hr) in Em as (j & Hj & Hk'). exists j. split; [|done].
      rewrite list_lookup_insert_ne; [done|]. intros ->. apply Hk. by rewrite <-(Hslot _ Hj).
    + intros (j & Hj & <-). apply list_lookup_insert_Some in Hj as [(<- & [= <-] & _)|[Hne Hj]]; [by left|].
      right. split; [|apply (tr_map _ _ Hr); eauto].
      intros Hk. apply Hne. symmetry. by apply (Hsame j v').
  - intros j j' v1 v2 Hj Hj' Hk.
    apply list_lookup_insert_Some in Hj as [(<- & [= <-] & _)|[Hne Hj]];
      apply list_lookup_insert_Some in Hj' as [(<- & [= <-] & _)|[Hne' Hj']]; [done| | |].
    + symmetry. by apply (Hsame j' v2).
    + by apply (Hsame j v1).
    + by apply (tr_inj _ _ Hr j j' v1 v2).
  - rewrite length_insert. intros d1 v1 Hd1. rewrite probe_insert.
    intros Hj d' Hd'. rewrite probe_insert. apply insert_nonempty; [|done].
    apply list_lookup_insert_Some in Hj as [(Hj & [= <-] & _)|[Hne Hj]].
    + apply Hpre. assert (d = d1); [|lia]. by apply (probe_inj T (vhash v)).
    + by apply (tr_probe _ _ Hr d1 v1).
Qed.

(** The same from what the map knows of the key. *)
Lemma table_put T M d s v : table_rep T M -> (d < length T)%nat ->
  (forall d', (d' < d)%nat -> T !! probe T (vhash v) d' <> Some SEmpty) ->
  T !! probe T (vhash v) d = Some s ->
  match s with SValid v0 => vkey v0 = vkey v | _ => M !! vkey v = None end ->
  table_rep (<[probe T (vhash v) d := SValid v]> T) (<[vkey v := v]> M).
Proof.
  intros Hr Hd Hpre Hs Hm. apply table_store; [done|done|done| |].
  - intros j v' Hj Hk. destruct s as [| |v0]; [exfalso..|eapply (tr_inj _ _ Hr); [done|done|congruence]].
    all: assert (M !! vkey v = Some v') by (apply (tr_map _ _ Hr); eauto); congruence.
  - intros v'. rewrite Hs. intros [= ->]. done.
Qed.

Lemma table_delete T M i v : table_rep T M -> T !! i = Some (SValid v) ->
  table_rep (<[i := SDeleted]> T) (delete (vkey v) M).
Proof.
  intros Hr Hi. split.
  - intros k v'. rewrite lookup_delete_Some. split.
    + intros [Hk (j & Hj & <-)%(tr_map _ _ Hr)]. exists j. split; [|done].
      rewrite list_lookup_insert_ne; [done|]. intros ->. congruence.
    + intros (j & Hj & <-). apply list_lookup_insert_Some in Hj as [(_ & [=] & _)|[Hne Hj]].
      split; [|apply (tr_map _ _ Hr); eauto].
      intros Hk. apply Hne. by apply (tr_inj _ _ Hr i j v v').
  - intros j j' v1 v2 Hj Hj' Hk.
    apply list_lookup_insert_Some in Hj as [(_ & [=] & _)|[_ Hj]].
    apply list_lookup_insert_Some in Hj' as [(_ & [=] & _)|[_ Hj']].
    by apply (tr_inj _ _ Hr j j' v1 v2).
  - rewrite length_insert. intros d1 v1 Hd1. rewrite probe_insert.
    intros Hj d' Hd'. rewrite probe_insert. apply insert_nonempty; [|done].
    apply list_lookup_insert_Some in Hj as [(_ & [=] & _)|[_ Hj]].
    by apply (tr_probe _ _ Hr d1 v1).
Qed.

Lemma table_empty n : table_rep (replicate n SEmpty) ∅.
Proof.
  split.
  - intros k v. rewrite lookup_empty. split; [done|].
    intros (i & [? _]%lookup_replicate & _). done.
  - intros i j v v' [? _]%lookup_replicate. done.
  - intros d v _ [? _]%lookup_replicate. done.
Qed.

(** The entries of a table, in order, are the elements of the map. *)
Definition entries T : list (list Z) := omap (fun s => match s with SValid v => Some v | _ => None end) T.

Lemma entries_app T T' : entries (T ++ T') = entries T ++ entries T'.
Proof. unfold entries. apply omap_app. Qed.

Lemma elem_of_entries T v : v ∈ entries T <-> exists i, T !! i = Some (SValid v).
Proof.
  unfold entries. rewrite list_elem_of_omap. split.
  - intros ([| |v'] & Hin & [= ->]). by apply list_elem_of_lookup in Hin.
  - intros [i Hi]. exists (SValid v). split; [by eapply list_elem_of_lookup_2|done].
Qed.

Lemma length_entries T : Z.of_nat (length (entries T)) = count used T - count is_deleted T.
Proof.
  unfold entries in *. induction T as [|[| |v] T IH]; [done|..];
    cbn [count used is_deleted Z.b2z omap list_omap length] in *; lia.
Qed.

(** Two tables with the same entries represent the same map. *)
Lemma table_rep_entries T M T' M' : table_rep T M -> table_rep T' M' ->
  (forall v, v ∈ entries T <-> v ∈ entries T') -> M = M'.
Proof.
  intros H1 H2 He. apply map_eq. intros k. apply option_eq. intros v.
  rewrite (tr_map _ _ H1), (tr_map _ _ H2). setoid_rewrite elem_of_entries in He.
  split; intros (i & Hi & Hk).
  - destruct (proj1 (He v)) as [j Hj]; eauto.
  - destruct (proj2 (He v)) as [j Hj]; eauto.
Qed.
End table.
