(* ===== verification/HashFile.v ===== *)
(** Hash tables kept in files: [src/zfsd/lib/hashfile/hashfile.c].

    The file is a header of the size of an element, with the numbers of used and
    of deleted slots in its first eight bytes, followed by the slots.  The first
    four bytes of a slot are its status; collisions are resolved by linear
    probing.  The descriptors, the files and the failures of system calls are
    those of [PosixFs.v]; an offset 0 is the error result of a search, as in the
    code.  The checks compiled in under ENABLE_CHECKING are kept as [Aborted].

    After a failed read the buffer [element] keeps its old content in the model;
    the code never looks at it before the next successful read. *)

From S2P Require Import Prelude FileIO PosixFs SlotTable.
#[local] Open Scope zfs_scope.
#[local] Open Scope Z_scope.

Definition HFILE_BUFFER_SIZE : Z := 16384.
Definition EMPTY_SLOT : Z := 0.
Definition DELETED_SLOT : Z := 1.
Definition VALID_SLOT : Z := 2.

(** [sizeof (hashfile_header)] *)
Definition HEADER_SIZE : Z := 8.

(** [element] is the buffer for one element; [encode_f] and [decode_f] may be
    null. *)
Record hfile := MkHfile {
  element : list Z;
  element_size : Z;
  base_size : Z;
  hf_size : Z;
  n_elements : Z;
  n_deleted : Z;
  hash_f : list Z -> Z;
  eq_f : list Z -> list Z -> bool;
  decode_f : option (list Z -> list Z);
  encode_f : option (list Z -> list Z);
  file_name : string;
  fd : Z;
  generation : Z
}.

Definition set_element (h : hfile) (e : list Z) : hfile :=
  MkHfile e (element_size h) (base_size h) (hf_size h) (n_elements h) (n_deleted h)
    (hash_f h) (eq_f h) (decode_f h) (encode_f h) (file_name h) (fd h) (generation h).
Definition set_counts (h : hfile) (n d : Z) : hfile :=
  MkHfile (element h) (element_size h) (base_size h) (hf_size h) n d
    (hash_f h) (eq_f h) (decode_f h) (encode_f h) (file_name h) (fd h) (generation h).
Definition set_size (h : hfile) (s : Z) : hfile :=
  MkHfile (element h) (element_size h) (base_size h) s (n_elements h) (n_deleted h)
    (hash_f h) (eq_f h) (decode_f h) (encode_f h) (file_name h) (fd h) (generation h).
Definition set_fd (h : hfile) (d : Z) : hfile :=
  MkHfile (element h) (element_size h) (base_size h) (hf_size h) (n_elements h) (n_deleted h)
    (hash_f h) (eq_f h) (decode_f h) (encode_f h) (file_name h) d (generation h).

(** [le_to_u32 ( *(uint32_t * ) e)] and the assignment to that word. *)
Definition status_of (e : list Z) : Z := le_value (take 4 e).
Definition set_status (e : list Z) (s : Z) : list Z := le_bytes 4 s ++ drop 4 e.

Definition codec (f : option (list Z -> list Z)) (x : list Z) : list Z :=
  match f with Some f => f x | None => x end.

Definition encode_header (n d : Z) : list Z := le_bytes 4 n ++ le_bytes 4 d.

(** ** Searching *)

Definition hfile_read_slot_status (w : world) (h : hfile) (offset : Z) : res (world * hfile * Z) :=
  let '(w, r) := lseek w (fd h) offset in
  if negb (u64 r =? offset) then Ok (w, h, UINT32_MAX)
  else
    '(w, r) ← fd_read w (fd h) 4;
    match r with
    | None => Ok (w, h, UINT32_MAX)
    | Some b => let h := set_element h (b ++ drop 4 (element h)) in Ok (w, h, status_of (element h))
    end.

Definition hfile_read_element (w : world) (h : hfile) (offset : Z) : res (world * hfile * Z) :=
  let '(w, r) := lseek w (fd h) offset in
  if negb (u64 r =? offset) then Ok (w, h, UINT32_MAX)
  else
    '(w, r) ← fd_read w (fd h) (Z.to_nat (element_size h));
    match r with
    | None => Ok (w, h, UINT32_MAX)
    | Some b => let h := set_element h b in Ok (w, h, status_of (element h))
    end.

Definition slot_offset (h : hfile) (idx : Z) : Z :=
  u64 (u64 (idx * element_size h) + element_size h).

Definition next_idx (idx size : Z) : Z :=
  let idx := u32 (idx + 1) in
  if size <=? idx then u32 (idx - size) else idx.

(** The probes of [hfile_find_empty_slot], the first one included. *)
Fixpoint find_empty_from (fuel : nat) (w : world) (h : hfile) (size idx : Z) : res (world * hfile * Z) :=
  match fuel with
  | O => OutOfFuel
  | S fuel =>
      let offset := slot_offset h idx in
      '(w, h, status) ← hfile_read_slot_status w h offset;
      if status =? UINT32_MAX then Ok (w, h, 0)
      else if status =? EMPTY_SLOT then Ok (w, h, offset)
      else if status =? DELETED_SLOT then Aborted
      else if negb (status =? VALID_SLOT) then Aborted
      else find_empty_from fuel w h size (next_idx idx size)
  end.

Definition hfile_find_empty_slot (w : world) (h : hfile) (hash : Z) : res (world * hfile * Z) :=
  if fd h <? 0 then Aborted
  else if hf_size h =? 0 then Aborted
  else find_empty_from (Z.to_nat (hf_size h)) w h (hf_size h) (hash mod hf_size h).

(** The label [empty_slot]. *)
Definition find_slot_empty (h : hfile) (insert : bool) (offset first_deleted_slot : Z) : hfile * Z :=
  if negb insert then (h, offset)
  else if negb (first_deleted_slot =? 0) then
    (set_counts h (n_elements h) (u32 (n_deleted h - 1)), first_deleted_slot)
  else (set_counts h (u32 (n_elements h + 1)) (n_deleted h), offset).

Fixpoint find_slot_from (fuel : nat) (w : world) (h : hfile) (elem : list Z) (insert : bool)
    (size idx first_deleted_slot : Z) : res (world * hfile * Z) :=
  match fuel with
  | O => OutOfFuel
  | S fuel =>
      let offset := slot_offset h idx in
      '(w, h, status) ← hfile_read_element w h offset;
      if status =? UINT32_MAX then Ok (w, h, 0)
      else if status =? EMPTY_SLOT then
        let '(h, offset) := find_slot_empty h insert offset first_deleted_slot in Ok (w, h, offset)
      else if status =? DELETED_SLOT then
        find_slot_from fuel w h elem insert size (next_idx idx size)
          (if first_deleted_slot =? 0 then offset else first_deleted_slot)
      else if negb (status =? VALID_SLOT) then Aborted
      else if eq_f h (element h) elem then Ok (w, h, offset)
      else find_slot_from fuel w h elem insert size (next_idx idx size) first_deleted_slot
  end.

Definition hfile_find_slot (w : world) (h : hfile) (elem : list Z) (hash : Z) (insert : bool)
    : res (world * hfile * Z) :=
  if fd h <? 0 then Aborted
  else if hf_size h =? 0 then Aborted
  else find_slot_from (Z.to_nat (hf_size h)) w h elem insert (hf_size h) (hash mod hf_size h) 0.

(** ** Growing and shrinking *)

(** The new number of slots, [None] when the table can stay. *)
Definition hfile_new_size (h : hfile) : option Z :=
  let live := u32 (n_elements h - n_deleted h) in
  if hf_size h <=? u32 (2 * live) then Some (u32 (2 * hf_size h))
  else if (u32 (8 * live) <=? hf_size h) && (32 <? hf_size h) then Some (hf_size h / 2)
  else if hf_size h <=? u32 (2 * n_elements h) then Some (hf_size h)
  else None.

(** Double the chunk while it fits the buffer twice. *)
Fixpoint grow_chunk (fuel : nat) (chunk_size : Z) : res Z :=
  if chunk_size <=? HFILE_BUFFER_SIZE / 2 then
    match fuel with
    | O => OutOfFuel
    | S fuel => grow_chunk fuel (u32 (chunk_size * 2))
    end
  else Ok chunk_size.

(** Copy an element if it is valid; the result [false] is a jump to the error
    label. *)
Definition copy_element (w : world) (h : hfile) (elem : list Z) : res (world * hfile * bool) :=
  if status_of elem =? VALID_SLOT then
    '(w, h, offset) ← hfile_find_empty_slot w h (hash_f h elem);
    if offset =? 0 then Ok (w, h, false)
    else
      let '(w, r) := lseek w (fd h) offset in
      if negb (u64 r =? offset) then Ok (w, h, false)
      else
        '(w, r) ← fd_write w (fd h) elem;
        if negb r then Ok (w, h, false) else Ok (w, h, true)
  else Ok (w, h, true).

(** The elements of one chunk. *)
Fixpoint copy_chunk (n : nat) (w : world) (h : hfile) (buffer : list Z) : res (world * hfile * bool) :=
  match n with
  | O => Ok (w, h, true)
  | S n =>
      '(w, h, r) ← copy_element w h (take (Z.to_nat (element_size h)) buffer);
      if negb r then Ok (w, h, false)
      else copy_chunk n w h (drop (Z.to_nat (element_size h)) buffer)
  end.

Fixpoint copy_elements (fuel : nat) (w : world) (h : hfile) (old_fd pos old_size n chunk_size : Z)
    : res (world * hfile * bool) :=
  if pos <? old_size then
    match fuel with
    | O => OutOfFuel
    | S fuel =>
        if HFILE_BUFFER_SIZE <? chunk_size then Aborted
        else
          '(w, r) ← fd_read w old_fd (Z.to_nat chunk_size);
          match r with
          | None => Ok (w, h, false)
          | Some buffer =>
              '(w, h, r) ← copy_chunk (Z.to_nat n) w h buffer;
              if negb r then Ok (w, h, false)
              else copy_elements fuel w h old_fd (u32 (pos + n)) old_size n chunk_size
          end
    end
  else Ok (w, h, true).

(** The labels [hfile_expand_error] and [hfile_expand_error_with_fd]. *)
Definition expand_error (w : world) (h : hfile) (old_fd old_size : Z) : res (world * hfile * bool) :=
  Ok (w, set_size (set_fd h old_fd) old_size, false).

Definition expand_error_with_fd (w : world) (h : hfile) (new_path : string) (old_fd old_size : Z)
    : res (world * hfile * bool) :=
  let w := close w (fd h) in
  let w := unlink w new_path in
  expand_error w h old_fd old_size.

(** The part of [hfile_expand] between the two labels of [open] and [rename]:
    fill the new file. *)
Definition expand_fill (w : world) (h : hfile) (old_fd old_size n chunk_size : Z)
    : res (world * hfile * bool) :=
  let '(w, r) := ftruncate w (fd h) (u64 (u64 (hf_size h * element_size h) + element_size h)) in
  if r <? 0 then Ok (w, h, false)
  else
    '(w, r) ← fd_write w (fd h) (encode_header (u32 (n_elements h - n_deleted h)) 0);
    if negb r then Ok (w, h, false)
    else
      let '(w, r) := lseek w old_fd (element_size h) in
      if negb (u64 r =? element_size h) then Ok (w, h, false)
      else copy_elements (Z.to_nat old_size) w h old_fd 0 old_size n chunk_size.

(** The path of the new file. *)
Definition new_name (h : hfile) : string := (file_name h +:+ ".new")%string.

(** The end of [hfile_expand], once the new file is filled: keep the descriptor
    originally used and replace the old file. *)
Definition expand_commit (w : world) (h : hfile) (new_path : string) (old_fd old_size : Z)
    : res (world * hfile * bool) :=
  let '(w, r) := dup2 w (fd h) old_fd in
  if r <? 0 then Aborted
  else
    let w := close w (fd h) in
    let h := set_fd h old_fd in
    let '(w, r) := rename w new_path (file_name h) in
    if r <? 0 then expand_error_with_fd w h new_path old_fd old_size
    else Ok (w, set_counts h (u32 (n_elements h - n_deleted h)) 0, true).

(** How far [hfile_expand] gets before the new file takes the place of the old one:
    it need not begin, the new file cannot be opened, it cannot be filled, or it is
    filled. *)
Inductive prepared := Unneeded | NotOpened | Unfilled | Filled.

Definition expand_prepare (w : world) (h : hfile) : res (world * hfile * prepared) :=
  match hfile_new_size h with
  | None => Ok (w, h, Unneeded)
  | Some new_size =>
      let old_fd := fd h in
      let old_size := hf_size h in
      chunk_size ← grow_chunk 32 (element_size h);
      let n := chunk_size / element_size h in
      let '(n, chunk_size) :=
        if old_size <? n then (old_size, u32 (old_size * element_size h)) else (n, chunk_size) in
      let '(w, d) := open_trunc w (new_name h) in
      let h := set_fd (set_size h new_size) d in
      if d <? 0 then Ok (w, h, NotOpened)
      else
        '(w, h, r) ← expand_fill w h old_fd old_size n chunk_size;
        Ok (w, h, if r : bool then Filled else Unfilled)
  end.

Definition hfile_expand (w : world) (h : hfile) : res (world * hfile * bool) :=
  let old_fd := fd h in
  let old_size := hf_size h in
  let new_path := new_name h in
  '(w, h, p) ← expand_prepare w h;
  match p with
  | Unneeded => Ok (w, h, true)
  | NotOpened => expand_error w h old_fd old_size
  | Unfilled => expand_error_with_fd w h new_path old_fd old_size
  | Filled => expand_commit w h new_path old_fd old_size
  end.

(** ** The operations *)

Definition hfile_create (element_size base_size size : Z) (hash_f : list Z -> Z)
    (eq_f : list Z -> list Z -> bool) (decode_f encode_f : option (list Z -> list Z))
    (file_name : string) : res hfile :=
  if element_size <? HEADER_SIZE then Aborted
  else if HFILE_BUFFER_SIZE <? element_size then Aborted
  else if element_size <? base_size then Aborted
  else Ok (MkHfile [] element_size base_size size 0 0 hash_f eq_f decode_f encode_f file_name (-1) 0).

(** The [stat] structure is the caller's. *)
Definition hfile_init (w : world) (h : hfile) : res (world * hfile * option stat * bool) :=
  if fd h <? 0 then Aborted
  else
    let '(w, st) := fstat w (fd h) in
    match st with
    | None => Ok (w, h, None, false)
    | Some st =>
        if negb (st_reg st) then Ok (w, h, Some st, false)
        else if st_size st <? element_size h then Ok (w, h, Some st, false)
        else
          '(w, r) ← fd_read w (fd h) (Z.to_nat HEADER_SIZE);
          match r with
          | None => Ok (w, h, Some st, false)
          | Some header =>
              let h := set_counts h (le_value (take 4 header)) (le_value (drop 4 header)) in
              let h := set_size h (u32 ((st_size st - element_size h) / element_size h)) in
              Ok (w, h, Some st, true)
          end
    end.

(** What is left of [hfile_destroy] once memory is given back. *)
Definition hfile_destroy (h : hfile) : res unit :=
  if 0 <=? fd h then Aborted else Ok ().

(** [x] is read and written by the operations. *)
Definition hfile_lookup (w : world) (h : hfile) (x : list Z) : res (world * hfile * list Z * bool) :=
  let x := codec (encode_f h) x in
  '(w, h, offset) ← hfile_find_slot w h x (hash_f h x) false;
  if offset =? 0 then Ok (w, h, codec (decode_f h) x, false)
  else
    let status := status_of (element h) in
    if status =? VALID_SLOT then
      Ok (w, h, codec (decode_f h) (take (Z.to_nat (element_size h)) (element h)), true)
    else Ok (w, h, set_status x status, true).

(** The label [hfile_insert_error]. *)
Definition insert_error (w : world) (h : hfile) (x : list Z) (status : Z)
    : res (world * hfile * list Z * bool) :=
  let h :=
    if status =? DELETED_SLOT then set_counts h (n_elements h) (u32 (n_deleted h + 1))
    else set_counts h (u32 (n_elements h - 1)) (n_deleted h) in
  Ok (w, h, codec (decode_f h) x, false).

(** [hfile_insert] after [hfile_expand] succeeded. *)
Definition insert_expanded (w : world) (h : hfile) (x : list Z) (base_only : bool)
    : res (world * hfile * list Z * bool) :=
  let x := codec (encode_f h) x in
  '(w, h, offset) ← hfile_find_slot w h x (hash_f h x) true;
  if offset =? 0 then Ok (w, h, codec (decode_f h) x, false)
  else
    let status := status_of (element h) in
    let x := set_status x VALID_SLOT in
    let '(w, r) := lseek w (fd h) offset in
    if negb (u64 r =? offset) then insert_error w h x status
    else
      '(w, r) ← fd_write w (fd h) (take (Z.to_nat (if base_only then base_size h else element_size h)) x);
      if negb r then insert_error w h x status
      else
        let '(w, r) := lseek w (fd h) 0 in
        if negb (u64 r =? 0) then insert_error w h x status
        else
          '(w, r) ← fd_write w (fd h) (encode_header (n_elements h) (n_deleted h));
          if negb r then insert_error w h x status
          else Ok (w, h, codec (decode_f h) x, true).

Definition hfile_insert (w : world) (h : hfile) (x : list Z) (base_only : bool)
    : res (world * hfile * list Z * bool) :=
  '(w, h, r) ← hfile_expand w h;
  if negb r then Ok (w, h, x, false) else insert_expanded w h x base_only.

(** The label [hfile_delete_error]. *)
Definition delete_error (w : world) (h : hfile) (x : list Z) : res (world * hfile * list Z * bool) :=
  let h := set_counts h (n_elements h) (u32 (n_deleted h - 1)) in
  Ok (w, h, codec (decode_f h) x, false).

(** [hfile_delete] after [hfile_expand] succeeded. *)
Definition delete_expanded (w : world) (h : hfile) (x : list Z) : res (world * hfile * list Z * bool) :=
  let x := codec (encode_f h) x in
  '(w, h, offset) ← hfile_find_slot w h x (hash_f h x) false;
  if offset =? 0 then Ok (w, h, codec (decode_f h) x, false)
  else if negb (status_of (element h) =? VALID_SLOT) then Ok (w, h, codec (decode_f h) x, true)
  else
    let h := set_element h (set_status (replicate (Z.to_nat (element_size h)) 0) DELETED_SLOT) in
    let h := set_counts h (n_elements h) (u32 (n_deleted h + 1)) in
    let '(w, r) := lseek w (fd h) offset in
    if negb (u64 r =? offset) then delete_error w h x
    else
      '(w, r) ← fd_write w (fd h) (take (Z.to_nat (element_size h)) (element h));
      if negb r then delete_error w h x
      else
        let '(w, r) := lseek w (fd h) 0 in
        if negb (u64 r =? 0) then delete_error w h x
        else
          '(w, r) ← fd_write w (fd h) (encode_header (n_elements h) (n_deleted h));
          if negb r then delete_error w h x
          else Ok (w, h, codec (decode_f h) x, true).

Definition hfile_delete (w : world) (h : hfile) (x : list Z) : res (world * hfile * list Z * bool) :=
  '(w, h, r) ← hfile_expand w h;
  if negb r then Ok (w, h, x, false) else delete_expanded w h x.

(** ** The file as a list of slots *)

Definition slot_status (s : slot) : Z :=
  match s with SEmpty => EMPTY_SLOT | SDeleted => DELETED_SLOT | SValid _ => VALID_SLOT end.

(** Empty and deleted slots are zero after the status word. *)
Definition slot_bytes (n : nat) (s : slot) : list Z :=
  le_bytes 4 (slot_status s) ++
  match s with SValid v => v | _ => replicate (n - 4) 0 end.

Definition slot_wf (n : nat) (s : slot) : Prop :=
  match s with SValid v => length v = (n - 4)%nat | _ => True end.

Definition image (n : nat) (hdr : list Z) (T : list slot) : list Z :=
  concat (hdr :: (slot_bytes n <$> T)).

Lemma length_slot_bytes n s : (4 <= n)%nat -> slot_wf n s -> length (slot_bytes n s) = n.
Proof.
  intros Hn Hs. unfold slot_bytes. rewrite length_app, length_le_bytes.
  destruct s; cbn in *; rewrite ?length_replicate; lia.
Qed.

Lemma status_slot_bytes n s : status_of (slot_bytes n s) = slot_status s.
Proof.
  unfold status_of, slot_bytes. rewrite take_app_le, take_ge by (rewrite length_le_bytes; lia).
  rewrite le_value_bytes. by destruct s.
Qed.

Lemma slot_bytes_empty n : (4 <= n)%nat -> slot_bytes n SEmpty = replicate n 0.
Proof.
  intros Hn. unfold slot_bytes. change (le_bytes 4 (slot_status SEmpty)) with (replicate 4 0).
  rewrite <-replicate_add. f_equal. lia.
Qed.

Section uniform.
Context {A : Type}.
Implicit Types (ls : list (list A)) (l : list A).

Lemma length_concat_uniform n ls : Forall (fun l => length l = n) ls -> length (concat ls) = (length ls * n)%nat.
Proof. induction 1 as [|l ls Hl _ IH]; simpl; [done|]. rewrite length_app. lia. Qed.

Lemma drop_concat_uniform n ls i : Forall (fun l => length l = n) ls ->
  drop (i * n) (concat ls) = concat (drop i ls).
Proof.
  intros Hl. revert i. induction Hl as [|l ls Hl _ IH]; intros [|i]; simpl; try done.
  - by rewrite drop_nil.
  - rewrite <-drop_drop, <-Hl, drop_app_length, Hl. apply IH.
Qed.

Lemma take_concat_uniform n ls i : Forall (fun l => length l = n) ls ->
  take (i * n) (concat ls) = concat (take i ls).
Proof.
  intros Hl. revert i. induction Hl as [|l ls Hl _ IH]; intros [|i]; simpl; try done.
  - by rewrite take_nil.
  - rewrite <-IH, <-Hl. by rewrite take_app_add.
Qed.
End uniform.

Lemma read_concat n ls i l m : Forall (fun l => length l = n) ls -> ls !! i = Some l -> (m <= n)%nat ->
  read_at (concat ls) (i * n) m = take m l.
Proof.
  intros Hl Hi Hm. unfold read_at. rewrite drop_concat_uniform by done.
  rewrite (drop_S _ _ _ Hi). cbn [concat]. rewrite take_app_le; [done|].
  eapply Forall_lookup_1 in Hl; [|exact Hi]. simpl in Hl. lia.
Qed.

Lemma write_concat n ls i l b : Forall (fun l => length l = n) ls -> ls !! i = Some l ->
  (length b <= n)%nat ->
  write_at (concat ls) (i * n) b = concat (<[i := b ++ drop (length b) l]> ls).
Proof.
  intros Hl Hi Hb. unfold write_at. pose proof (lookup_lt_Some _ _ _ Hi) as Hlt.
  rewrite resize_le by (rewrite (length_concat_uniform n) by done; nia).
  rewrite take_concat_uniform by done. rewrite <-drop_drop, drop_concat_uniform by done.
  rewrite (drop_S _ _ _ Hi). cbn [concat].
  pose proof (Forall_lookup_1 _ _ _ _ Hl Hi) as Hll. cbn in Hll.
  rewrite drop_app_le by lia. rewrite insert_take_drop by done.
  rewrite concat_app. cbn [concat]. by rewrite <-!app_assoc.
Qed.

(** What a client promises about its hash and comparison functions: they depend
    on a key, which neither the status word nor the bytes after the base of an
    element influence. *)
Class HfileKeys (K : Type) (base : nat) (hash : list Z -> Z) (eq : list Z -> list Z -> bool) := {
  hkey : list Z -> K;
  hkey_eq : forall x y, eq x y = true <-> hkey x = hkey y;
  hkey_hash : forall x y, hkey x = hkey y -> hash x = hash y;
  hash_range : forall x, 0 <= hash x < 2 ^ 32;
  hkey_status : forall s x, length s = 4%nat -> hkey (s ++ drop 4 x) = hkey x;
  hkey_base : forall x y, take base x = take base y -> hkey x = hkey y
}.

(** A hash file on disk: descriptor [d] is open on inode [i], whose content is the
    header [hdr] and the slots [T]. *)
Record disk (w : world) (d : Z) (i n : nat) (hdr : list Z) (T : list slot) : Prop := {
  disk_fd : exists p, fds w !! d = Some (i, p);
  disk_file : files w !! i = Some (Inode true (image n hdr T));
  disk_hdr : length hdr = n;
  disk_wf : Forall (slot_wf n) T;
  disk_n : (8 <= n)%nat
}.

Arguments disk_fd {w d i n hdr T} _.
Arguments disk_file {w d i n hdr T} _.
Arguments disk_hdr {w d i n hdr T} _.
Arguments disk_wf {w d i n hdr T} _.
Arguments disk_n {w d i n hdr T} _.

(** Only the position of the descriptor [d] of inode [i] changed. *)
Definition moved (w w' : world) (d : Z) (i : nat) : Prop :=
  same_files w w' /\ exists p, fds w' = <[d := (i, p)]> (fds w).

Lemma moved_refl w d i p : fds w !! d = Some (i, p) -> moved w w d i.
Proof. intros H. split; [done|]. exists p. by rewrite insert_id. Qed.

Lemma moved_trans w1 w2 w3 d i : moved w1 w2 d i -> moved w2 w3 d i -> moved w1 w3 d i.
Proof.
  intros [(A1 & A2 & A3) [p Ap]] [(B1 & B2 & B3) [q Bq]]. split.
  - split_and!; [congruence|congruence|auto].
  - exists q. by rewrite Bq, Ap, insert_insert_eq.
Qed.

Lemma moved_quiet w w' d i : moved w w' d i -> quiet w -> quiet w'.
Proof. intros [(_ & _ & H) _]. done. Qed.

Lemma disk_moved w w' d i n hdr T : disk w d i n hdr T -> moved w w' d i -> disk w' d i n hdr T.
Proof.
  intros [[p Hd] Hf Hh Hw Hn] [(H1 & H2 & _) [q Hq]]. split; [|congruence|done..].
  exists q. by rewrite Hq, lookup_insert_eq.
Qed.

Lemma image_uniform n hdr T : length hdr = n -> (4 <= n)%nat -> Forall (slot_wf n) T ->
  Forall (fun l => length l = n) (hdr :: (slot_bytes n <$> T)).
Proof.
  intros Hh Hn Hw. constructor; [done|]. apply Forall_fmap. eapply Forall_impl; [exact Hw|].
  intros s Hs. by apply length_slot_bytes.
Qed.

Lemma length_image n hdr T : length hdr = n -> (4 <= n)%nat -> Forall (slot_wf n) T ->
  length (image n hdr T) = ((length T + 1) * n)%nat.
Proof.
  intros Hh Hn Hw. unfold image. rewrite (length_concat_uniform n) by by apply image_uniform.
  cbn [length]. rewrite length_fmap. lia.
Qed.

(** Reading [m] bytes at slot [j]. *)
Lemma disk_read w d i n hdr T j s m off : disk w d i n hdr T -> T !! j = Some s -> (m <= n)%nat ->
  off = Z.of_nat ((j + 1) * n) -> off < 2 ^ 64 - 1 ->
  exists w' r,
    (let '(w, r) := lseek w d off in
     if negb (u64 r =? off) then Ok (w, None) else fd_read w d m) = Ok (w', r) /\
    moved w w' d i /\ (r = None /\ ~ quiet w \/ r = Some (take m (slot_bytes n s))).
Proof.
  intros Hdisk Hj Hm Hoff Hb. destruct (disk_fd Hdisk) as [p Hp].
  destruct (lseek_ok w d i p off Hp) as (w1 & r & -> & Hs & [[-> Hd]|(Hq & -> & Hd)]).
  - rewrite wrap_small by lia. rewrite Z.eqb_refl. cbn [negb].
    destruct Hs as (S1 & S2 & S3).
    destruct (fd_read_ok w1 d i (Z.to_nat off) (Inode true (image n hdr T)) m) as (w2 & r & Hr & (Q1 & Q2 & Q3) & Hpost).
    { by rewrite Hd, lookup_insert_eq. }
    { rewrite S1. apply (disk_file Hdisk). }
    { destruct Hdisk. cbn [i_data]. rewrite length_image by (done || lia). apply lookup_lt_Some in Hj. nia. }
    exists w2, r. split; [done|]. cbn [i_data length app] in Hpost. rewrite Nat.sub_0_r in Hpost.
    assert (same_files w w2) as Hsame by (split_and!; [congruence|congruence|auto]).
    destruct r as [b|]; [destruct Hpost as [-> Hfds]|destruct Hpost as [Hnq [p' Hfds]]];
      rewrite Hd, insert_insert_eq in Hfds; (split; [by split; eauto|]).
    + right. f_equal. unfold image. rewrite Hoff, Nat2Z.id. destruct Hdisk.
      apply read_concat; [apply image_uniform; done || lia| |done].
      rewrite Nat.add_1_r. change ((slot_bytes n <$> T) !! j = Some (slot_bytes n s)).
      by rewrite list_lookup_fmap, Hj.
    + left. split; [done|]. auto.
  - exists w1, None. assert (u64 (-1) =? off = false) as ->.
    { apply Z.eqb_neq. unfold wrap. change ((-1) mod 2 ^ 64) with (2 ^ 64 - 1). lia. }
    cbn [negb]. split; [done|]. split; [|by left]. split; [done|]. exists p. by rewrite Hd, insert_id.
Qed.

(** Writing [b] at the start of the block [k] of the file, block 0 being the
    header: a first part of [b] is written even when the call fails. *)
Definition blocks (n : nat) (hdr : list Z) (T : list slot) : list (list Z) := hdr :: (slot_bytes n <$> T).

Lemma disk_write w d i n hdr T k l b off : disk w d i n hdr T -> blocks n hdr T !! k = Some l ->
  (length b <= n)%nat -> off = Z.of_nat (k * n) -> off < 2 ^ 64 - 1 ->
  exists w' r m,
    (let '(w, r) := lseek w d off in
     if negb (u64 r =? off) then Ok (w, false) else fd_write w d b) = Ok (w', r) /\
    files w' = <[i := Inode true (concat (<[k := take m b ++ drop m l]> (blocks n hdr T)))]> (files w) /\
    names w' = names w /\ (exists p, fds w' = <[d := (i, p)]> (fds w)) /\ (quiet w -> quiet w') /\
    (m <= length b)%nat /\ if r then m = length b else ~ quiet w.
Proof.
  intros Hdisk Hk Hb Hoff Hr. destruct (disk_fd Hdisk) as [p Hp].
  pose proof (image_uniform n hdr T (disk_hdr Hdisk) ltac:(pose proof (disk_n Hdisk); lia) (disk_wf Hdisk)) as Hu.
  fold (blocks n hdr T) in Hu. pose proof (lookup_lt_Some _ _ _ Hk) as Hlt.
  destruct (lseek_ok w d i p off Hp) as (w1 & r & -> & (S1 & S2 & S3) & [[-> Hd]|(Hq & -> & Hd)]).
  - rewrite wrap_small by lia. rewrite Z.eqb_refl. cbn [negb].
    destruct (fd_write_ok w1 d i (Z.to_nat off) (Inode true (image n hdr T)) b)
      as (w2 & r & Hw & m & F1 & F2 & F3 & F4 & F5 & F6).
    { by rewrite Hd, lookup_insert_eq. }
    { rewrite S1. apply (disk_file Hdisk). }
    { cbn [i_data]. unfold image. fold (blocks n hdr T). rewrite (length_concat_uniform n) by done. nia. }
    exists w2, r, m. split; [done|]. rewrite F2, F3, S2, Hd. rewrite insert_insert_eq.
    split_and!; [|done|eauto|auto|done|destruct r; [done|auto]].
    rewrite F1, S1. do 2 f_equal. cbn [i_data]. rewrite Hoff, Nat2Z.id. unfold image. fold (blocks n hdr T).
    rewrite (write_concat n _ k l) by (done || (rewrite length_take; lia)).
    rewrite length_take_le by done. done.
  - exists w1, false, 0%nat. assert (u64 (-1) =? off = false) as ->.
    { apply Z.eqb_neq. unfold wrap. change ((-1) mod 2 ^ 64) with (2 ^ 64 - 1). lia. }
    cbn [negb]. split; [done|]. rewrite S1, S2, Hd, take_0, drop_0. cbn [app].
    rewrite (list_insert_id _ _ _ Hk).
    split_and!; [by rewrite insert_id by apply (disk_file Hdisk)|done|exists p; by rewrite insert_id|done|lia|done].
Qed.

(** Without failures the whole of [b] is written. *)
Lemma disk_write_quiet w d i n hdr T k l b off : disk w d i n hdr T -> blocks n hdr T !! k = Some l ->
  (length b <= n)%nat -> off = Z.of_nat (k * n) -> off < 2 ^ 64 - 1 -> quiet w ->
  exists w1 w2, lseek w d off = (w1, off) /\ fd_write w1 d b = Ok (w2, true) /\
    files w2 = <[i := Inode true (concat (<[k := b ++ drop (length b) l]> (blocks n hdr T)))]> (files w) /\
    names w2 = names w /\ (exists p, fds w2 = <[d := (i, p)]> (fds w)) /\ quiet w2.
Proof.
  intros Hdisk Hk Hb Hoff Hr Hq.
  destruct (disk_write w d i n hdr T k l b off Hdisk Hk Hb Hoff Hr) as (w' & r & m & E & F1 & F2 & F3 & F4 & F5 & F6).
  destruct r; [|done]. subst m. rewrite take_ge in F1 by done.
  destruct (disk_fd Hdisk) as [p Hp].
  destruct (lseek_ok w d i p off Hp) as (w1 & r & El & _ & [[-> _]|(? & _ & _)]); [|done].
  rewrite El in E. rewrite wrap_small, Z.eqb_refl in E by lia. exists w1, w'. split_and!; auto.
Qed.

(** Replacing the slot [j] by [s'], then writing the counters. *)
Lemma disk_store w d i n hdr T j s s' b off ne nd : disk w d i n hdr T -> T !! j = Some s ->
  (length b <= n)%nat -> b ++ drop (length b) (slot_bytes n s) = slot_bytes n s' -> slot_wf n s' ->
  off = Z.of_nat ((j + 1) * n) -> off < 2 ^ 64 - 1 -> quiet w ->
  exists w1 w2 w3 w4, lseek w d off = (w1, off) /\ fd_write w1 d b = Ok (w2, true) /\
    lseek w2 d 0 = (w3, 0) /\ fd_write w3 d (encode_header ne nd) = Ok (w4, true) /\
    disk w4 d i n (encode_header ne nd ++ drop 8 hdr) (<[j := s']> T) /\ names w4 = names w /\ quiet w4.
Proof.
  intros Hdisk Hj Hb Hs' Hwf Hoff Hr Hq. pose proof (disk_n Hdisk) as Hn.
  destruct (disk_write_quiet w d i n hdr T (S j) (slot_bytes n s) b off)
    as (w1 & w2 & E1 & E2 & F1 & F2 & (p & F3) & F4); [done| |done|lia|done|done|].
  { unfold blocks. change ((slot_bytes n <$> T) !! j = Some (slot_bytes n s)). by rewrite list_lookup_fmap, Hj. }
  assert (disk w2 d i n hdr (<[j := s']> T)) as Hdisk2.
  { split.
    - exists p. by rewrite F3, lookup_insert_eq.
    - rewrite F1, lookup_insert_eq, Hs'. unfold image, blocks. by rewrite list_fmap_insert.
    - apply (disk_hdr Hdisk).
    - apply Forall_insert; [apply (disk_wf Hdisk)|done].
    - done. }
  destruct (disk_write_quiet w2 d i n hdr (<[j := s']> T) 0 hdr (encode_header ne nd) 0)
    as (w3 & w4 & E3 & E4 & G1 & G2 & (q & G3) & G4); [done|done|cbn; lia|done|lia|done|].
  exists w1, w2, w3, w4. split_and!; [done|done|done|done| |congruence|done].
  split.
  - exists q. by rewrite G3, lookup_insert_eq.
  - rewrite G1, lookup_insert_eq. done.
  - rewrite length_app, length_drop, (disk_hdr Hdisk). cbn [encode_header length app le_bytes]. lia.
  - apply (disk_wf Hdisk2).
  - done.
Qed.

(** ** Searching the slots *)

(** The parameters of a hash file whose elements have [n] bytes. *)
Record conf (h : hfile) (n : nat) : Prop := {
  conf_size : element_size h = Z.of_nat n;
  conf_n : 8 <= Z.of_nat n <= HFILE_BUFFER_SIZE;
  conf_base : 4 <= base_size h <= element_size h;
  conf_fd : 0 <= fd h
}.

Lemma slot_offset_eq h n j : conf h n -> (Z.of_nat j < 2 ^ 32) ->
  slot_offset h (Z.of_nat j) = Z.of_nat ((j + 1) * n) /\ 0 < slot_offset h (Z.of_nat j) < 2 ^ 64 - 1.
Proof.
  intros [He Hn _ _] Hj. unfold HFILE_BUFFER_SIZE in Hn. unfold slot_offset. rewrite He.
  rewrite (wrap_small 64 (_ * _)) by nia. rewrite wrap_small by nia. nia.
Qed.

Lemma read_element_ok w h i n hdr T j s : conf h n -> disk w (fd h) i n hdr T -> T !! j = Some s ->
  Z.of_nat (length T) < 2 ^ 32 ->
  exists w' h' st, hfile_read_element w h (slot_offset h (Z.of_nat j)) = Ok (w', h', st) /\
    moved w w' (fd h) i /\
    (st = UINT32_MAX /\ h' = h /\ ~ quiet w \/
     st = slot_status s /\ h' = set_element h (slot_bytes n s)).
Proof.
  intros Hc Hd Hj HT. pose proof (lookup_lt_Some _ _ _ Hj).
  destruct (slot_offset_eq h n j Hc ltac:(lia)) as [Ho Hr].
  destruct (disk_read w (fd h) i n hdr T j s n _ Hd Hj ltac:(lia) Ho ltac:(lia)) as (w' & r & E & Hm & Hcase).
  unfold hfile_read_element. destruct Hc as [He Hn _ _]. rewrite He, Nat2Z.id.
  destruct (lseek w (fd h) _) as [w1 r1]. destruct (negb _).
  - injection E as <- <-. exists w1, h, UINT32_MAX. split; [done|]. split; [done|]. left. naive_solver.
  - rewrite E. cbn [mbind res_bind]. destruct Hcase as [[-> Hq] | -> ].
    + exists w', h, UINT32_MAX. auto 6.
    + eexists w', _, _. split; [done|]. split; [done|]. right.
      pose proof (Forall_lookup_1 _ _ _ _ (disk_wf Hd) Hj).
      rewrite take_ge by (rewrite length_slot_bytes by (done || lia); lia). cbn [element set_element].
      by rewrite status_slot_bytes.
Qed.

Lemma read_slot_status_ok w h i n hdr T j s : conf h n -> disk w (fd h) i n hdr T -> T !! j = Some s ->
  Z.of_nat (length T) < 2 ^ 32 ->
  exists w' e st, hfile_read_slot_status w h (slot_offset h (Z.of_nat j)) = Ok (w', set_element h e, st) /\
    moved w w' (fd h) i /\ (st = UINT32_MAX /\ ~ quiet w \/ st = slot_status s).
Proof.
  intros Hc Hd Hj HT. pose proof (lookup_lt_Some _ _ _ Hj).
  destruct (slot_offset_eq h n j Hc ltac:(lia)) as [Ho Hr].
  destruct (disk_read w (fd h) i n hdr T j s 4 _ Hd Hj ltac:(destruct Hc; lia) Ho ltac:(lia))
    as (w' & r & E & Hm & Hcase).
  unfold hfile_read_slot_status.
  assert (h = set_element h (element h)) as Heq by by destruct h.
  destruct (lseek w (fd h) _) as [w1 r1]. destruct (negb _).
  - injection E as <- <-. exists w1, (element h), UINT32_MAX. rewrite <-Heq. naive_solver.
  - rewrite E. cbn [mbind res_bind]. destruct Hcase as [[-> Hq] | -> ].
    + exists w', (element h), UINT32_MAX. rewrite <-Heq. auto 6.
    + eexists w', _, _. split; [done|]. split; [done|]. right. cbn [element set_element].
      rewrite <-(status_slot_bytes n). unfold status_of. rewrite take_app_le, take_take; [done|].
      rewrite length_take. pose proof (Forall_lookup_1 _ _ _ _ (disk_wf Hd) Hj).
      destruct Hc. rewrite length_slot_bytes by (done || lia). lia.
Qed.

Lemma next_idx_is_probe T hm d : (0 < length T)%nat -> Z.of_nat (length T) < 2 ^ 32 ->
  next_idx (Z.of_nat (probe T hm d)) (Z.of_nat (length T)) = Z.of_nat (probe T hm (S d)).
Proof.
  intros Hl HT. pose proof (probe_lt T hm d Hl). unfold next_idx.
  rewrite wrap_small by lia.
  assert (probe T hm (S d) = (probe T hm d + 1) mod length T)%nat as ->.
  { unfold probe. rewrite Nat.Div0.add_mod_idemp_l. f_equal. lia. }
  case_if.
  - assert (probe T hm d + 1 = length T)%nat as -> by lia.
    rewrite Nat.Div0.mod_same, wrap_small by lia. lia.
  - rewrite Nat.mod_small by lia. lia.
Qed.

Section search.
Context {K : Type} `{Countable K} {base : nat} {hash : list Z -> Z} {eq : list Z -> list Z -> bool}.
Context `{!HfileKeys K base hash eq}.
Implicit Types (T : list slot) (h : hfile) (w : world).

(** The key and the hash value of a stored element. *)
Definition vkey (v : list Z) : K := hkey (le_bytes 4 VALID_SLOT ++ v).
Definition vhash (v : list Z) : nat := Z.to_nat (hash (le_bytes 4 VALID_SLOT ++ v)).

Lemma vhash_key v v' : vkey v = vkey v' -> vhash v = vhash v'.
Proof. intros E. unfold vhash. f_equal. by apply hkey_hash. Qed.

Lemma vkey_drop x : vkey (drop 4 x) = hkey x.
Proof. apply hkey_status. by rewrite length_le_bytes. Qed.

Lemma vhash_drop x : vhash (drop 4 x) = Z.to_nat (hash x).
Proof. unfold vhash. f_equal. apply hkey_hash. apply vkey_drop. Qed.

(** [first_deleted_slot] after [d] probes. *)
Definition del_seen h T (hm d : nat) (fdel : Z) : Prop :=
  fdel = 0 \/ exists d0, (d0 < d)%nat /\ T !! probe T hm d0 = Some SDeleted /\
    fdel = slot_offset h (Z.of_nat (probe T hm d0)).

(** The outcome of a search that stops at probe [d]: an error of the script, or
    the slot where the search stopped. *)
Definition found w h w' h' (i n : nat) T (hm d : nat) (insert : bool) (off : Z) : Prop :=
  moved w w' (fd h) i /\
  (off = 0 /\ ~ quiet w /\ (exists e, h' = set_element h e) \/
   exists s, T !! probe T hm d = Some s /\
     match s with
     | SEmpty => exists fdel, del_seen h T hm d fdel /\
         (h', off) = find_slot_empty (set_element h (slot_bytes n s)) insert
           (slot_offset h (Z.of_nat (probe T hm d))) fdel
     | _ => h' = set_element h (slot_bytes n s) /\ off = slot_offset h (Z.of_nat (probe T hm d))
     end).

Lemma find_slot_from_ok fuel : forall w h i n hdr T elem insert hm k d dst fdel,
  conf h n -> disk w (fd h) i n hdr T -> eq_f h = eq -> Z.of_nat (length T) < 2 ^ 32 ->
  hkey elem = k -> (d <= dst < length T)%nat -> (dst - d < fuel)%nat ->
  stops vkey T k (probe T hm dst) ->
  (forall d', (d <= d' < dst)%nat -> ~ stops vkey T k (probe T hm d')) ->
  del_seen h T hm d fdel ->
  exists w' h' off, find_slot_from fuel w h elem insert (Z.of_nat (length T))
      (Z.of_nat (probe T hm d)) fdel = Ok (w', h', off) /\
    found w h w' h' i n T hm dst insert off.
Proof.
  induction fuel as [|fuel IH]; intros w h i n hdr T elem insert hm k d dst fdel
    Hc Hd Heq HT Hk Hdst Hf Hstop Hno Hdel; [lia|].
  destruct (lookup_lt_is_Some_2 T (probe T hm d)) as [s Hs]; [apply probe_lt; lia|].
  cbn [find_slot_from].
  destruct (read_element_ok w h i n hdr T _ s Hc Hd Hs HT) as (w1 & h1 & st & -> & Hm & Hst).
  cbn [mbind res_bind]. destruct Hst as [(-> & -> & Hq)|[-> ->]].
  { exists w1, h, 0. rewrite Z.eqb_refl. split; [done|]. split; [done|]. left.
    split_and!; [done|done|]. exists (element h). by destruct h. }
  set (h1 := set_element h (slot_bytes n s)).
  (* one more probe *)
  assert (forall fdel', d <> dst -> del_seen h1 T hm (S d) fdel' ->
    exists w' h' off, find_slot_from fuel w1 h1 elem insert (Z.of_nat (length T))
      (next_idx (Z.of_nat (probe T hm d)) (Z.of_nat (length T))) fdel' = Ok (w', h', off) /\
    found w h w' h' i n T hm dst insert off) as Hnext.
  { intros fdel' Hne Hdel'. rewrite next_idx_is_probe by lia.
    destruct (IH w1 h1 i n hdr T elem insert hm k (S d) dst fdel') as (w' & h' & off & E & Hm' & F);
      [by destruct Hc|by eapply disk_moved|done|done|done|lia|lia|done| |done|].
    { intros d' Hd'. apply Hno. lia. }
    exists w', h', off. split; [done|]. split; [by eapply moved_trans|].
    destruct F as [(? & Hq & e & ->)|F]; [left|right; exact F].
    split_and!; [done| |by exists e]. intros Hq'. apply Hq. by eapply moved_quiet. }
  assert (stops vkey T k (probe T hm d) -> d = dst) as Hend.
  { intros Hst. destruct (decide (d = dst)); [done|]. exfalso. apply (Hno d); [lia|done]. }
  destruct s as [| |v]; cbn [slot_status]; cbn -[find_slot_from find_slot_empty slot_bytes].
  - destruct (Hend ltac:(by left)). destruct (find_slot_empty _ _ _ _) as [h' off] eqn:E.
    exists w1, h', off. split; [done|]. split; [done|]. right. exists SEmpty. split; [done|].
    exists fdel. split; [done|]. rewrite <-E. done.
  - apply Hnext.
    + intros ->. destruct Hstop as [?|(v & ? & _)]; congruence.
    + case_if; [|destruct Hdel as [?|(d0 & ? & ?)]; [by left|right; exists d0; split; [lia|done]]].
      right. exists d. split_and!; [lia|done|done].
  - assert (eq_f h (slot_bytes n (SValid v)) elem = true <-> vkey v = k) as Hv.
    { rewrite Heq, hkey_eq, Hk. done. }
    subst h1. cbn [element set_element eq_f]. destruct (eq_f h _ elem) eqn:E.
    + destruct (Hend ltac:(right; exists v; naive_solver)).
      eexists w1, _, _. split; [done|]. split; [done|]. right. by exists (SValid v).
    + apply Hnext.
      * intros ->. destruct Hstop as [?|(v' & Hv' & Hk')]; [congruence|].
        assert (v' = v) as -> by congruence. destruct Hv. naive_solver.
      * destruct Hdel as [?|(d0 & ? & ?)]; [by left|right; exists d0; split; [lia|done]].
Qed.

(** The probes of [hfile_find_empty_slot], in a table without deleted slots. *)
Lemma find_empty_from_ok fuel : forall w h i n hdr T hm d dst,
  conf h n -> disk w (fd h) i n hdr T -> Z.of_nat (length T) < 2 ^ 32 ->
  (forall j, T !! j <> Some SDeleted) -> (d <= dst < length T)%nat -> (dst - d < fuel)%nat ->
  T !! probe T hm dst = Some SEmpty ->
  (forall d', (d <= d' < dst)%nat -> T !! probe T hm d' <> Some SEmpty) ->
  exists w' e off, find_empty_from fuel w h (Z.of_nat (length T)) (Z.of_nat (probe T hm d))
      = Ok (w', set_element h e, off) /\
    moved w w' (fd h) i /\
    (off = 0 /\ ~ quiet w \/ off = slot_offset h (Z.of_nat (probe T hm dst))).
Proof.
  induction fuel as [|fuel IH]; intros w h i n hdr T hm d dst Hc Hd HT Hnd Hdst Hf Hstop Hno; [lia|].
  destruct (lookup_lt_is_Some_2 T (probe T hm d)) as [s Hs]; [apply probe_lt; lia|].
  cbn [find_empty_from].
  destruct (read_slot_status_ok w h i n hdr T _ s Hc Hd Hs HT) as (w1 & e & st & -> & Hm & Hst).
  cbn [mbind res_bind]. destruct Hst as [[-> Hq] | -> ].
  { exists w1, e, 0. rewrite Z.eqb_refl. auto. }
  destruct s as [| |v]; cbn [slot_status]; cbn -[find_empty_from].
  - assert (d = dst) as ->; [|by exists w1, e, (slot_offset h (Z.of_nat (probe T hm dst))); auto].
    destruct (decide (d = dst)); [done|]. exfalso. apply (Hno d); [lia|done].
  - by apply Hnd in Hs.
  - assert (d <> dst) by congruence. rewrite next_idx_is_probe by lia.
    destruct (IH w1 (set_element h e) i n hdr T hm (S d) dst) as (w' & e' & off & -> & Hm' & F);
      [by destruct Hc|by eapply disk_moved|done|done|lia|lia|done| |].
    { intros d' Hd'. apply Hno. lia. }
    exists w', e', off. split; [done|]. split; [by eapply moved_trans|].
    destruct F as [[? Hq]|F]; [left|by right]. split; [done|]. intros Hq'. apply Hq. by eapply moved_quiet.
Qed.

(** ** The map in a hash file *)

(** Decoding undoes encoding, apart from the status word. *)
Definition codec_ok h (n : nat) : Prop := forall x, length x = n ->
  length (codec (encode_f h) x) = n /\
  forall s, length s = 4%nat -> codec (decode_f h) (s ++ drop 4 (codec (encode_f h) x)) = s ++ drop 4 x.

(** The hash file represents the map [M] from keys to the bytes after the status
    word.  The number of slots is a power of two, as [hfile_expand] reads the old
    file in chunks of a power of two of slots. *)
Record hf_rep w h (n i : nat) (hdr : list Z) T (M : gmap K (list Z)) : Prop := {
  hr_conf : conf h n;
  hr_base : base = Z.to_nat (base_size h);
  hr_hash : hash_f h = hash;
  hr_eq : eq_f h = eq;
  hr_codec : codec_ok h n;
  hr_disk : disk w (fd h) i n hdr T;
  hr_name : names w !! file_name h = Some i;
  hr_new : names w !! new_name h <> Some i;
  hr_size : hf_size h = Z.of_nat (length T);
  hr_pow : exists j, 1 <= j <= 31 /\ hf_size h = 2 ^ j;
  hr_used : n_elements h = count used T;
  hr_del : n_deleted h = count is_deleted T;
  hr_room : count used T < Z.of_nat (length T);
  hr_table : table_rep vkey vhash T M;
  hr_head : take 8 hdr = encode_header (n_elements h) (n_deleted h)
}.

Arguments hr_conf {w h n i hdr T M} _.
Arguments hr_base {w h n i hdr T M} _.
Arguments hr_hash {w h n i hdr T M} _.
Arguments hr_eq {w h n i hdr T M} _.
Arguments hr_codec {w h n i hdr T M} _.
Arguments hr_disk {w h n i hdr T M} _.
Arguments hr_name {w h n i hdr T M} _.
Arguments hr_new {w h n i hdr T M} _.
Arguments hr_size {w h n i hdr T M} _.
Arguments hr_pow {w h n i hdr T M} _.
Arguments hr_used {w h n i hdr T M} _.
Arguments hr_del {w h n i hdr T M} _.
Arguments hr_room {w h n i hdr T M} _.
Arguments hr_table {w h n i hdr T M} _.
Arguments hr_head {w h n i hdr T M} _.

Definition hfile_ok w h (M : gmap K (list Z)) : Prop := exists n i hdr T, hf_rep w h n i hdr T M.

Lemma hf_size_bounds w h n i hdr T M : hf_rep w h n i hdr T M -> 2 <= hf_size h <= 2 ^ 31.
Proof.
  intros Hr. destruct (hr_pow Hr) as (j & Hj & ->).
  split; [apply (Z.pow_le_mono_r 2 1 j); lia|apply Z.pow_le_mono_r; lia].
Qed.

Lemma hf_rep_file w h n i hdr T M : hf_rep w h n i hdr T M -> files w !! i = Some (Inode true (image n hdr T)).
Proof. intros Hr. apply (disk_file (hr_disk Hr)). Qed.

Lemma hf_rep_element w h n i hdr T M e : hf_rep w h n i hdr T M -> hf_rep w (set_element h e) n i hdr T M.
Proof. intros []. destruct h. split; cbn in *; try done. by destruct hr_conf0. Qed.

Lemma hf_rep_moved w w' h n i hdr T M : hf_rep w h n i hdr T M -> moved w w' (fd h) i ->
  hf_rep w' h n i hdr T M.
Proof.
  intros [] Hm. pose proof Hm as [(H1 & H2 & _) _]. split; try done; try congruence. by eapply disk_moved.
Qed.

Lemma vkey_v w h n i hdr T M x : hf_rep w h n i hdr T M ->
  Z.of_nat (probe T (vhash (drop 4 x)) 0) = hash_f h x mod hf_size h.
Proof.
  intros Hr. unfold probe. rewrite Nat.add_0_r, vhash_drop, (hr_hash Hr), (hr_size Hr).
  pose proof (hash_range x). rewrite Nat2Z.inj_mod, Z2Nat.id by lia. done.
Qed.

(** A search under any script. *)
Lemma hfile_find_slot_ok w h n i hdr T M x insert : hf_rep w h n i hdr T M -> length x = n ->
  exists w' h' off d, hfile_find_slot w h x (hash_f h x) insert = Ok (w', h', off) /\
    found w h w' h' i n T (vhash (drop 4 x)) d insert off /\ (d < length T)%nat /\
    T !! probe T (vhash (drop 4 x)) d =
      Some (match M !! hkey x with Some v => SValid v | None => SEmpty end) /\
    (forall d', (d' < d)%nat -> ~ stops vkey T (hkey x) (probe T (vhash (drop 4 x)) d')).
Proof.
  intros Hr Hx. pose proof (hf_size_bounds _ _ _ _ _ _ _ Hr). set (hm := vhash (drop 4 x)).
  destruct (first_stop vkey T (hkey x) hm (hr_room Hr)) as (d & Hd & Hs & Hf).
  pose proof (hr_size Hr) as Hsz.
  unfold hfile_find_slot. destruct (hr_conf Hr) as [He Hn Hb Hfd] eqn:Ec.
  assert (fd h <? 0 = false) as -> by lia. assert (hf_size h =? 0 = false) as -> by lia.
  rewrite <-(vkey_v _ _ _ _ _ _ _ x Hr), Hsz, Nat2Z.id. fold hm.
  destruct (find_slot_from_ok (length T) w h i n hdr T x insert hm (hkey x) 0 d 0) as (w' & h' & off & E & F);
    [done|apply (hr_disk Hr)|apply (hr_eq Hr)|lia|done|lia|lia|done| |by left|].
  { intros d' [_ Hd']. by apply Hf. }
  exists w', h', off, d. split_and!; [done|done|done| |done].
  apply (search_result vkey vhash vhash_key T M (hkey x) d (drop 4 x));
    [apply (hr_table Hr)|done|apply vkey_drop|done|done].
Qed.

(** What a lookup returns. *)
Definition lookup_result h (M : gmap K (list Z)) (x : list Z) : list Z :=
  let x := codec (encode_f h) x in
  match M !! hkey x with
  | Some v => codec (decode_f h) (le_bytes 4 VALID_SLOT ++ v)
  | None => set_status x EMPTY_SLOT
  end.

(** Looking up an element under any script: the file stays as it is, and the
    result is right unless a system call failed. *)
Lemma hfile_lookup_ok w h n i hdr T M x : hf_rep w h n i hdr T M -> length x = n ->
  exists w' h' y r, hfile_lookup w h x = Ok (w', h', y, r) /\ moved w w' (fd h) i /\
    (exists e, h' = set_element h e) /\ if r then y = lookup_result h M x else ~ quiet w.
Proof.
  intros Hr Hx. unfold hfile_lookup. destruct (hr_codec Hr x Hx) as [Hx' _].
  set (x' := codec (encode_f h) x) in *.
  destruct (hfile_find_slot_ok w h n i hdr T M x' false Hr Hx')
    as (w' & h' & off & d & -> & [Hm F] & Hd & Hs & _). cbn [mbind res_bind].
  pose proof (hf_size_bounds _ _ _ _ _ _ _ Hr). pose proof (hr_size Hr) as Hsz.
  pose proof (probe_lt T (vhash (drop 4 x')) d ltac:(lia)) as Hp.
  destruct (slot_offset_eq h n (probe T (vhash (drop 4 x')) d) (hr_conf Hr) ltac:(lia)) as [_ Ho].
  destruct F as [(-> & Hq & e & ->)|(s & Hs' & F)].
  { rewrite Z.eqb_refl. eexists w', _, _, false. split; [done|]. eauto. }
  rewrite Hs in Hs'. injection Hs' as <-. unfold lookup_result. fold x'.
  destruct (M !! hkey x') as [v|] eqn:Em.
  - destruct F as [-> ->]. rewrite (proj2 (Z.eqb_neq _ _)) by lia.
    cbn [element set_element element_size decode_f]. rewrite status_slot_bytes. cbn -[slot_bytes codec Z.to_nat].
    eexists w', _, _, true. split; [done|]. split_and!; [done|eauto|]. f_equal.
    pose proof (Forall_lookup_1 _ _ _ _ (disk_wf (hr_disk Hr)) Hs).
    destruct (hr_conf Hr) as [-> Hn _ _]. rewrite Nat2Z.id, take_ge; [done|].
    rewrite length_slot_bytes by (done || lia). lia.
  - destruct F as (fdel & _ & F). injection F as -> ->. rewrite (proj2 (Z.eqb_neq _ _)) by lia.
    cbn [element set_element]. rewrite status_slot_bytes. cbn -[slot_bytes codec set_status].
    eexists w', _, _, true. split; [done|]. eauto.
Qed.

(** ** Storing and deleting, once there is room *)

(** The bytes after the status word when the first [m] bytes of [x] are written
    over [old]. *)
Definition stored (x : list Z) (m : nat) (old : list Z) : list Z :=
  take (m - 4) (drop 4 x) ++ drop (m - 4) old.

Definition slot_rest (n : nat) (s : slot) : list Z :=
  match s with SValid v => v | _ => replicate (n - 4) 0 end.

Lemma stored_bytes x n m s : (4 <= m <= n)%nat -> length x = n ->
  take m (set_status x VALID_SLOT) ++ drop (length (take m (set_status x VALID_SLOT))) (slot_bytes n s)
    = slot_bytes n (SValid (stored x m (slot_rest n s))).
Proof.
  intros Hm Hx. rewrite length_take_le
    by (unfold set_status; rewrite length_app, length_drop, length_le_bytes; lia).
  unfold set_status, slot_bytes, stored, slot_rest.
  assert (forall A (l : list A) r k, length l = 4%nat -> (4 <= k)%nat ->
    take k (l ++ r) = l ++ take (k - 4) r /\ drop k (l ++ r) = drop (k - 4) r) as Happ.
  { intros A l r k Hl Hk. rewrite take_app, drop_app, Hl, take_ge, drop_ge by lia. done. }
  rewrite (proj1 (Happ _ _ _ m (length_le_bytes 4 _) ltac:(lia))).
  rewrite (proj2 (Happ _ _ _ m (length_le_bytes 4 _) ltac:(lia))).
  rewrite <-app_assoc. by destruct s.
Qed.

Lemma length_stored x n m old : (4 <= m <= n)%nat -> length x = n -> length old = (n - 4)%nat ->
  length (stored x m old) = (n - 4)%nat.
Proof. intros. unfold stored. rewrite length_app, length_take, !length_drop. lia. Qed.

Lemma vkey_stored x n m old : (4 <= base <= m)%nat -> (m <= n)%nat -> length x = n ->
  vkey (stored x m old) = hkey x.
Proof.
  intros Hb Hm Hx. unfold vkey. rewrite <-(hkey_status (le_bytes 4 VALID_SLOT) x) by by rewrite length_le_bytes.
  apply hkey_base. rewrite !take_app. f_equal. rewrite length_le_bytes. unfold stored.
  rewrite take_app_le, take_take by (rewrite length_take, length_drop; lia). f_equal. lia.
Qed.

(** The parameters which the operations never change. *)
Definition same_params h h' : Prop :=
  element_size h' = element_size h /\ base_size h' = base_size h /\ decode_f h' = decode_f h /\
  encode_f h' = encode_f h /\ file_name h' = file_name h.

(** The map after an insertion. *)
Definition insert_result h (M : gmap K (list Z)) (x : list Z) (base_only : bool) : gmap K (list Z) :=
  let x := codec (encode_f h) x in
  let n := Z.to_nat (element_size h) in
  let m := Z.to_nat (if base_only then base_size h else element_size h) in
  <[hkey x := stored x m (default (replicate (n - 4) 0) (M !! hkey x))]> M.

(** Where an insertion stores its element: the slot, the descriptor of the file
    with its counters, and the table after it. *)
Lemma find_slot_insert w h n i hdr T M x m : hf_rep w h n i hdr T M -> length x = n ->
  count used T + 1 < Z.of_nat (length T) -> (4 <= base <= m)%nat -> (m <= n)%nat -> quiet w ->
  let v := stored x m (default (replicate (n - 4) 0) (M !! hkey x)) in
  exists w' e j s, hfile_find_slot w h x (hash_f h x) true =
      Ok (w', set_counts (set_element h e) (count used (<[j := SValid v]> T))
            (count is_deleted (<[j := SValid v]> T)), slot_offset h (Z.of_nat j)) /\
    moved w w' (fd h) i /\ T !! j = Some s /\ slot_rest n s = default (replicate (n - 4) 0) (M !! hkey x) /\
    count used (<[j := SValid v]> T) < Z.of_nat (length T) /\
    table_rep vkey vhash (<[j := SValid v]> T) (<[hkey x := v]> M).
Proof.
  intros Hr Hx Hroom Hb Hm Hq v. pose proof (hr_table Hr) as Ht.
  assert (vkey v = hkey x) as Hv by by apply (vkey_stored x n m).
  assert (vhash v = vhash (drop 4 x)) as Hh by (apply vhash_key; by rewrite Hv, vkey_drop).
  destruct (hfile_find_slot_ok w h n i hdr T M x true Hr Hx)
    as (w' & h' & off & d & -> & [Hmv F] & Hd & Hs & Hno).
  destruct F as [(_ & ? & _)|(s & Hs' & F)]; [done|]. rewrite Hs in Hs'. injection Hs' as <-.
  assert (forall d', (d' < d)%nat -> T !! probe T (vhash v) d' <> Some SEmpty) as Hne.
  { intros d' Hd'. rewrite Hh. intros E. apply (Hno d'); [lia|by left]. }
  pose proof (hr_used Hr) as Hu. pose proof (hr_del Hr) as Hdl.
  pose proof (count_bounds used T). pose proof (count_bounds is_deleted T).
  pose proof (hf_size_bounds _ _ _ _ _ _ _ Hr). pose proof (hr_size Hr). rewrite <-Hh in Hs.
  (* the slot [s] at probe [d0] receives [v] *)
  assert (forall d0 s e n1 n2, (d0 <= d)%nat -> T !! probe T (vhash v) d0 = Some s ->
    match s with SValid v0 => vkey v0 = vkey v | _ => M !! vkey v = None end ->
    slot_rest n s = default (replicate (n - 4) 0) (M !! hkey x) ->
    n1 = count used T + Z.b2z (negb (used s)) -> n2 = count is_deleted T - Z.b2z (is_deleted s) ->
    h' = set_counts (set_element h e) n1 n2 -> off = slot_offset h (Z.of_nat (probe T (vhash v) d0)) ->
    exists w'' e j s, Ok (w', h', off) = Ok (w'', set_counts (set_element h e) (count used (<[j := SValid v]> T))
        (count is_deleted (<[j := SValid v]> T)), slot_offset h (Z.of_nat j)) /\
      moved w w'' (fd h) i /\ T !! j = Some s /\ slot_rest n s = default (replicate (n - 4) 0) (M !! hkey x) /\
      count used (<[j := SValid v]> T) < Z.of_nat (length T) /\
      table_rep vkey vhash (<[j := SValid v]> T) (<[hkey x := v]> M)) as Hput.
  { intros d0 s e n1 n2 Hd0 Hs0 Hk Hrest Hn1 Hn2 -> ->. exists w', e, (probe T (vhash v) d0), s.
    rewrite !(count_insert _ _ _ _ _ Hs0). cbn [used is_deleted Z.b2z].
    split_and!; [do 4 f_equal; subst; destruct s; cbn; lia|done|done|done|destruct s; cbn; lia|].
    rewrite <-Hv. apply (table_put vkey vhash T M d0 s v); [done|lia| |done|done].
    intros d' Hd'. apply Hne. lia. }
  destruct (M !! hkey x) as [v0|] eqn:Em; rewrite <-Hh in F.
  - destruct F as [-> ->]. apply (tr_map _ _ _ _ Ht) in Em as (_ & _ & Hk0).
    apply (Hput d (SValid v0) (slot_bytes n (SValid v0)) (n_elements h) (n_deleted h)); try done; cbn; [congruence|lia|lia].
  - destruct F as (fdel & Hdel & F). unfold find_slot_empty in F. cbn [negb] in F.
    destruct Hdel as [-> |(d0 & Hd0 & Hs0 & ->)].
    + rewrite Z.eqb_refl in F. injection F as Eh Eo.
      apply (Hput d SEmpty (slot_bytes n SEmpty) (u32 (n_elements h + 1)) (n_deleted h)); try done; cbn;
        [congruence|rewrite wrap_small; lia|lia].
    + pose proof (probe_lt T (vhash v) d0 ltac:(lia)).
      destruct (slot_offset_eq h n (probe T (vhash v) d0) (hr_conf Hr) ltac:(lia)) as [_ Ho].
      rewrite (proj2 (Z.eqb_neq _ _)) in F by lia. injection F as Eh Eo.
      pose proof (count_pos is_deleted T _ _ Hs0 eq_refl).
      apply (Hput d0 SDeleted (slot_bytes n SEmpty) (n_elements h) (u32 (n_deleted h - 1))); try done; cbn;
        [lia|congruence|lia|rewrite wrap_small; lia].
Qed.

(** The hash file after its table and header were written. *)
Lemma hf_rep_store w w' h n i hdr T T' M M' e : hf_rep w h n i hdr T M ->
  disk w' (fd h) i n (encode_header (count used T') (count is_deleted T') ++ drop 8 hdr) T' ->
  names w' = names w -> length T' = length T ->
  count used T' < Z.of_nat (length T) -> table_rep vkey vhash T' M' ->
  hf_rep w' (set_counts (set_element h e) (count used T') (count is_deleted T')) n i
    (encode_header (count used T') (count is_deleted T') ++ drop 8 hdr) T' M'.
Proof.
  intros [] Hd Hn Hl Hc Ht. destruct h. unfold new_name in *. cbn in *.
  split; cbn; rewrite ?Hn, ?Hl; try done. by destruct hr_conf0.
Qed.

Lemma insert_expanded_ok w h n i hdr T M x base_only : hf_rep w h n i hdr T M -> length x = n ->
  count used T + 1 < Z.of_nat (length T) -> quiet w ->
  exists w' h' hdr' T', insert_expanded w h x base_only = Ok (w', h', set_status x VALID_SLOT, true) /\
    quiet w' /\ same_params h h' /\ hf_rep w' h' n i hdr' T' (insert_result h M x base_only).
Proof.
  intros Hr Hx Hroom Hq. unfold insert_expanded, insert_result.
  destruct (hr_codec Hr x Hx) as [Hx' Hdec]. set (x' := codec (encode_f h) x) in *.
  set (m := Z.to_nat (if base_only then base_size h else element_size h)).
  assert (4 <= base <= m /\ m <= n)%nat as [Hb Hm].
  { pose proof (hr_base Hr). destruct (hr_conf Hr). subst m. destruct base_only; lia. }
  destruct (find_slot_insert w h n i hdr T M x' m Hr Hx' Hroom Hb Hm Hq)
    as (w1 & e & j & s & -> & Hmv & Hj & Hrest & Hc & Ht).
  set (v := stored x' m _) in *. set (T' := <[j := SValid v]> T) in *.
  pose proof (hf_size_bounds _ _ _ _ _ _ _ Hr). pose proof (hr_size Hr). pose proof (lookup_lt_Some _ _ _ Hj).
  destruct (slot_offset_eq h n j (hr_conf Hr) ltac:(lia)) as [Ho Ho'].
  pose proof (disk_moved _ _ _ _ _ _ _ (hr_disk Hr) Hmv) as Hdisk. pose proof (conf_size _ _ (hr_conf Hr)) as He.
  assert (slot_wf n (SValid v)) as Hwf.
  { apply length_stored; [lia|done|]. rewrite <-Hrest.
    pose proof (Forall_lookup_1 _ _ _ _ (disk_wf Hdisk) Hj). destruct s; cbn in *; by rewrite ?length_replicate. }
  destruct (disk_store w1 (fd h) i n hdr T j s (SValid v) (take m (set_status x' VALID_SLOT))
    (slot_offset h (Z.of_nat j)) (count used T') (count is_deleted T'))
    as (w2 & w3 & w4 & w5 & E1 & E2 & E3 & E4 & Hd' & Hn & Hq');
    [done|done|rewrite length_take; lia|subst v; rewrite <-Hrest; apply stored_bytes; [lia|done]|done|lia|lia
    |by eapply moved_quiet|].
  cbn [mbind res_bind set_counts set_element fd element_size base_size n_elements n_deleted decode_f].
  rewrite (proj2 (Z.eqb_neq _ _)) by lia. rewrite E1. rewrite (wrap_small 64 (slot_offset _ _)), Z.eqb_refl by lia.
  cbn [negb]. fold m. rewrite E2. cbn [mbind res_bind negb]. rewrite E3.
  rewrite (wrap_small 64 0), Z.eqb_refl by lia. cbn [negb]. rewrite E4. cbn [mbind res_bind negb].
  unfold set_status. rewrite Hdec by by rewrite length_le_bytes.
  eexists _, _, _, T'. split; [done|]. split; [done|]. split; [done|].
  rewrite He, Nat2Z.id.
  apply (hf_rep_store w w5 h n i hdr T T' M); [done|done| |apply length_insert|done|done].
  rewrite Hn. apply Hmv.
Qed.

Definition delete_result h (M : gmap K (list Z)) (x : list Z) : gmap K (list Z) :=
  delete (hkey (codec (encode_f h) x)) M.

Lemma delete_expanded_ok w h n i hdr T M x : hf_rep w h n i hdr T M -> length x = n -> quiet w ->
  exists w' h' hdr' T', delete_expanded w h x = Ok (w', h', codec (decode_f h) (codec (encode_f h) x), true) /\
    quiet w' /\ same_params h h' /\ hf_rep w' h' n i hdr' T' (delete_result h M x).
Proof.
  intros Hr Hx Hq. unfold delete_expanded, delete_result.
  destruct (hr_codec Hr x Hx) as [Hx' Hdec]. set (x' := codec (encode_f h) x) in *.
  destruct (hfile_find_slot_ok w h n i hdr T M x' false Hr Hx')
    as (w1 & h1 & off & d & -> & [Hmv F] & Hd & Hs & _). cbn [mbind res_bind].
  set (j := probe T (vhash (drop 4 x')) d) in *. pose proof (lookup_lt_Some _ _ _ Hs) as Hj.
  pose proof (hf_size_bounds _ _ _ _ _ _ _ Hr). pose proof (hr_size Hr).
  destruct (slot_offset_eq h n j (hr_conf Hr) ltac:(lia)) as [Ho Ho'].
  pose proof (hr_conf Hr) as [He Hn _ _].
  destruct F as [(_ & ? & _)|(s & Hs' & F)]; [done|]. rewrite Hs in Hs'. injection Hs' as <-.
  destruct (M !! hkey x') as [v|] eqn:Em; cycle 1.
  { destruct F as (fdel & _ & F). injection F as -> ->. rewrite (proj2 (Z.eqb_neq _ _)) by lia.
    cbn [element set_element]. rewrite status_slot_bytes. cbn -[slot_bytes codec].
    eexists w1, _, hdr, T. split; [done|]. split; [by eapply moved_quiet|]. split; [done|].
    rewrite delete_id by done. by apply hf_rep_element, (hf_rep_moved w). }
  destruct F as [-> ->]. rewrite (proj2 (Z.eqb_neq _ _)) by lia.
  cbn [element set_element set_counts element_size fd n_elements n_deleted decode_f].
  rewrite status_slot_bytes. cbn [slot_status]. change (negb (VALID_SLOT =? VALID_SLOT)) with false. cbv iota.
  rewrite He, Nat2Z.id. set (b := set_status (replicate n 0) DELETED_SLOT).
  assert (b = slot_bytes n SDeleted) as Hb.
  { subst b. unfold set_status, slot_bytes. cbn [slot_status]. by rewrite drop_replicate. }
  assert (length b = n) as Hbl by (rewrite Hb; apply length_slot_bytes; [lia|done]).
  rewrite (take_ge b) by lia. set (T' := <[j := SDeleted]> T).
  pose proof (disk_moved _ _ _ _ _ _ _ (hr_disk Hr) Hmv) as Hdisk.
  pose proof (Forall_lookup_1 _ _ _ _ (disk_wf Hdisk) Hs) as Hwf.
  assert (n_elements h = count used T' /\ u32 (n_deleted h + 1) = count is_deleted T' /\
    count used T' < Z.of_nat (length T)) as (Hu & Hdl & Hc).
  { pose proof (count_le is_deleted used T ltac:(by intros [])). pose proof (count_bounds is_deleted T).
    subst T'. rewrite !(count_insert _ _ _ _ _ Hs), (hr_used Hr), (hr_del Hr).
    pose proof (hr_room Hr). rewrite wrap_small by lia. cbn. lia. }
  rewrite Hdl, Hu.
  destruct (disk_store w1 (fd h) i n hdr T j (SValid v) SDeleted b
    (slot_offset h (Z.of_nat j)) (count used T') (count is_deleted T'))
    as (w2 & w3 & w4 & w5 & E1 & E2 & E3 & E4 & Hd' & Hnm & Hq');
    [done|done|lia| |done|lia|lia|by eapply moved_quiet|].
  { rewrite drop_ge, app_nil_r by (rewrite length_slot_bytes by (done || lia); lia). done. }
  rewrite E1. rewrite (wrap_small 64 (slot_offset _ _)), Z.eqb_refl by lia. cbn [negb].
  rewrite E2. cbn [mbind res_bind negb]. rewrite E3.
  rewrite (wrap_small 64 0), Z.eqb_refl by lia. cbn [negb]. rewrite E4. cbn [mbind res_bind negb].
  eexists _, _, _, T'. split; [done|]. split; [done|]. split; [done|].
  assert (vkey v = hkey x') as Hk by (apply (tr_map _ _ _ _ (hr_table Hr)) in Em as (? & _ & ?); done).
  apply (hf_rep_store w w5 h n i hdr T T' M); [done|done| |apply length_insert|done|].
  - rewrite Hnm. apply Hmv.
  - rewrite <-Hk. by apply table_delete; [apply (hr_table Hr)|].
Qed.

(** ** Growing and shrinking

    While [hfile_expand] fills the new file only that file changes. *)
Definition only_file w w' (d : Z) (i : nat) : Prop :=
  names w' = names w /\ (quiet w -> quiet w') /\ (forall j, j <> i -> files w' !! j = files w !! j) /\
  exists p, fds w' = <[d := (i, p)]> (fds w).

Lemma only_moved w w' d i : moved w w' d i -> only_file w w' d i.
Proof. intros [(H1 & H2 & H3) Hp]. split_and!; [done|done|by rewrite H1|done]. Qed.

Lemma only_trans w1 w2 w3 d i : only_file w1 w2 d i -> only_file w2 w3 d i -> only_file w1 w3 d i.
Proof.
  intros (A1 & A2 & A3 & p & A4) (B1 & B2 & B3 & q & B4). split_and!; [congruence|auto| |].
  - intros j Hj. rewrite B3, A3; done.
  - exists q. by rewrite B4, A4, insert_insert_eq.
Qed.

(** The map of a new table together with the entries that were copied. *)
Definition map_plus (M M' : gmap K (list Z)) (vs : list (list Z)) : Prop :=
  forall k v, M' !! k = Some v <-> M !! k = Some v \/ (v ∈ vs /\ vkey v = k).

(** A table that is being filled. *)
Record filling w h (i n : nat) (hdr : list Z) T M : Prop := {
  fl_conf : conf h n;
  fl_hash : hash_f h = hash;
  fl_disk : disk w (fd h) i n hdr T;
  fl_size : hf_size h = Z.of_nat (length T);
  fl_len : 0 < Z.of_nat (length T) < 2 ^ 32;
  fl_del : forall j, T !! j <> Some SDeleted;
  fl_table : table_rep vkey vhash T M
}.
Arguments fl_conf {w h i n hdr T M} _.
Arguments fl_hash {w h i n hdr T M} _.
Arguments fl_disk {w h i n hdr T M} _.
Arguments fl_size {w h i n hdr T M} _.
Arguments fl_len {w h i n hdr T M} _.
Arguments fl_del {w h i n hdr T M} _.
Arguments fl_table {w h i n hdr T M} _.

(** The empty slot for [v] in a table without deleted slots. *)
Lemma find_empty_slot_ok w h i n hdr T M v : filling w h i n hdr T M ->
  count used T < Z.of_nat (length T) -> M !! vkey v = None ->
  exists w' e off d, hfile_find_empty_slot w h (hash (le_bytes 4 VALID_SLOT ++ v)) = Ok (w', set_element h e, off) /\
    moved w w' (fd h) i /\ (d < length T)%nat /\
    T !! probe T (vhash v) d = Some SEmpty /\
    (forall d', (d' < d)%nat -> T !! probe T (vhash v) d' <> Some SEmpty) /\
    (off = 0 /\ ~ quiet w \/ off = slot_offset h (Z.of_nat (probe T (vhash v) d))).
Proof.
  intros [Hc Hh Hd Hs Hl Hdel Ht] Hroom Hm.
  destruct (first_stop vkey T (vkey v) (vhash v) Hroom) as (d & Hdl & Hst & Hf).
  pose proof (search_result vkey vhash vhash_key T M (vkey v) d v Ht Hdl eq_refl Hst Hf) as He.
  rewrite Hm in He.
  assert (forall d', (d' < d)%nat -> T !! probe T (vhash v) d' <> Some SEmpty) as Hne.
  { intros d' Hd' E. apply (Hf d' Hd'). by left. }
  unfold hfile_find_empty_slot. destruct Hc as [Hes Hn Hb Hfd] eqn:Ec.
  assert (fd h <? 0 = false) as -> by lia. assert (hf_size h =? 0 = false) as -> by lia.
  assert (hash (le_bytes 4 VALID_SLOT ++ v) mod hf_size h = Z.of_nat (probe T (vhash v) 0)) as ->.
  { pose proof (hash_range (le_bytes 4 VALID_SLOT ++ v)). unfold probe, vhash.
    rewrite Nat.add_0_r, Nat2Z.inj_mod, Z2Nat.id, Hs by lia. done. }
  rewrite Hs, Nat2Z.id.
  destruct (find_empty_from_ok (length T) w h i n hdr T (vhash v) 0 d) as (w' & e & off & E & Hmv & F);
    [done|done|lia|done|lia|lia|done|intros d' [_ ?]; by apply Hne|].
  exists w', e, off, d. split_and!; done.
Qed.

(** Copying one valid element. *)
Lemma copy_element_valid w h i n hdr T M v : filling w h i n hdr T M ->
  count used T < Z.of_nat (length T) -> M !! vkey v = None -> length v = (n - 4)%nat ->
  exists w' e r, copy_element w h (slot_bytes n (SValid v)) = Ok (w', set_element h e, r) /\
    only_file w w' (fd h) i /\
    if r then exists T', filling w' (set_element h e) i n hdr T' (<[vkey v := v]> M) /\
        length T' = length T /\ count used T' = count used T + 1
    else ~ quiet w.
Proof.
  intros Hfl Hroom Hm Hv. pose proof Hfl as [Hc Hh Hd Hs Hl Hdel Ht].
  unfold copy_element. rewrite status_slot_bytes, Hh. cbn [slot_status]. rewrite Z.eqb_refl.
  change (hash (slot_bytes n (SValid v))) with (hash (le_bytes 4 VALID_SLOT ++ v)).
  destruct (find_empty_slot_ok w h i n hdr T M v Hfl Hroom Hm)
    as (w1 & e & off & d & -> & Hmv & Hdl & He & Hne & Hoff).
  cbn [mbind res_bind set_element fd].
  set (j := probe T (vhash v) d) in *. pose proof (lookup_lt_Some _ _ _ He) as Hj.
  destruct (slot_offset_eq h n j Hc ltac:(lia)) as [Ho Ho'].
  destruct Hoff as [[-> Hq] | -> ].
  { rewrite Z.eqb_refl. exists w1, e, false. split_and!; [done|by apply only_moved|done]. }
  rewrite (proj2 (Z.eqb_neq _ _)) by lia.
  pose proof (disk_moved _ _ _ _ _ _ _ Hd Hmv) as Hd1.
  assert (length (slot_bytes n (SValid v)) = n) as Hbl by (apply length_slot_bytes; [destruct Hc; lia|done]).
  destruct (disk_write w1 (fd h) i n hdr T (S j) (slot_bytes n SEmpty) (slot_bytes n (SValid v))
    (slot_offset h (Z.of_nat j))) as (w2 & r & m & E & F1 & F2 & (p & F3) & F4 & F5 & F6);
    [done| |lia|lia|lia|].
  { unfold blocks. change ((slot_bytes n <$> T) !! j = Some (slot_bytes n SEmpty)). by rewrite list_lookup_fmap, He. }
  assert (only_file w w2 (fd h) i) as Ho2.
  { eapply only_trans; [by apply only_moved|]. split_and!; [done|done| |eauto].
    intros j' Hj'. by rewrite F1, lookup_insert_ne. }
  exists w2, e. destruct (lseek w1 (fd h) _) as [w3 r3]. destruct (negb _).
  { injection E as -> <-. exists false. split_and!; [done|done|]. intros Hq. apply F6. by eapply moved_quiet. }
  rewrite E. cbn [mbind res_bind]. exists r. destruct r; cycle 1.
  { split_and!; [done|done|]. intros Hq. apply F6. by eapply moved_quiet. }
  split_and!; [done|done|]. subst m. rewrite take_ge, drop_ge, app_nil_r in F1
    by (rewrite ?length_slot_bytes by (done || (destruct Hc; lia)); lia).
  exists (<[j := SValid v]> T). rewrite (count_insert _ _ _ _ _ He), length_insert. cbn [used Z.b2z].
  split_and!; [|done|lia]. split; cbn [set_element fd hash_f hf_size].
  - by destruct Hc.
  - done.
  - split.
    + exists p. by rewrite F3, lookup_insert_eq.
    + rewrite F1, lookup_insert_eq. unfold image, blocks. by rewrite list_fmap_insert.
    + apply (disk_hdr Hd).
    + by apply Forall_insert; [apply (disk_wf Hd)|].
    + apply (disk_n Hd).
  - by rewrite length_insert.
  - by rewrite length_insert.
  - intros j' [(_ & [=] & _)|[_ E']]%list_lookup_insert_Some. by apply Hdel in E'.
  - by apply (table_put vkey vhash T M d SEmpty v).
Qed.

Lemma only_refl w h i n hdr T M : filling w h i n hdr T M -> only_file w w (fd h) i.
Proof. intros Hf. destruct (disk_fd (fl_disk Hf)) as [p Hp]. by eapply only_moved, moved_refl. Qed.

(** Copying the slots [Tc] into a table with room for them. *)
Lemma copy_chunk_ok Tc : forall w h i n hdr T M, filling w h i n hdr T M -> Forall (slot_wf n) Tc ->
  count used T + Z.of_nat (length (entries Tc)) < Z.of_nat (length T) ->
  NoDup (vkey <$> entries Tc) -> (forall v, v ∈ entries Tc -> M !! vkey v = None) ->
  exists w' e r, copy_chunk (length Tc) w h (concat (slot_bytes n <$> Tc)) = Ok (w', set_element h e, r) /\
    only_file w w' (fd h) i /\
    if r then exists T' M', filling w' (set_element h e) i n hdr T' M' /\ length T' = length T /\
        count used T' = count used T + Z.of_nat (length (entries Tc)) /\ map_plus M M' (entries Tc)
    else ~ quiet w.
Proof.
  induction Tc as [|s Tc IH]; intros w h i n hdr T M Hf Hwf Hroom Hnd Hnew.
  { exists w, (element h), true. assert (set_element h (element h) = h) as -> by by destruct h.
    split_and!; [done|by eapply only_refl|]. exists T, M. split_and!; [done|done|cbn; lia|].
    intros k v. split; [by left|]. intros [?|[[]%not_elem_of_nil _]]; done. }
  apply Forall_cons in Hwf as [Hs Hwf]. pose proof (fl_conf Hf) as [He Hn _ _].
  cbn [copy_chunk length fmap list_fmap concat]. rewrite He, Nat2Z.id.
  assert (length (slot_bytes n s) = n) as Hsl by (apply length_slot_bytes; [lia|done]).
  rewrite take_app_length' by done.
  assert (Hskip : entries (s :: Tc) = entries Tc -> slot_status s <> VALID_SLOT ->
    copy_element w h (slot_bytes n s) = Ok (w, h, true)).
  { intros _ Hst. unfold copy_element. rewrite status_slot_bytes. by rewrite (proj2 (Z.eqb_neq _ _)). }
  destruct s as [| |v].
  1, 2: rewrite Hskip by done; cbn [mbind res_bind negb];
    rewrite He, Nat2Z.id, drop_app_length' by done; by apply (IH w h i n hdr T M).
  clear Hskip. change (entries (SValid v :: Tc)) with (v :: entries Tc) in *.
  rewrite fmap_cons in Hnd. cbn [length] in Hroom |- *. apply NoDup_cons in Hnd as [Hv Hnd].
  destruct (copy_element_valid w h i n hdr T M v) as (w1 & e & r & -> & Ho & Hr); [done|lia|set_solver|done|].
  cbn [mbind res_bind]. destruct r; cycle 1.
  { exists w1, e, false. by split_and!. }
  destruct Hr as (T1 & Hf1 & Hl1 & Hc1). cbn [negb set_element element_size].
  rewrite He, Nat2Z.id, drop_app_length' by done.
  destruct (IH w1 (set_element h e) i n hdr T1 (<[vkey v := v]> M)) as (w2 & e2 & r & E & Ho2 & Hr);
    [done|done|rewrite Hl1, Hc1; lia|done| |].
  { intros v' Hv'. rewrite lookup_insert_ne; [set_solver|]. intros Hk. apply Hv. rewrite Hk. set_solver. }
  exists w2, e2, r. split; [exact E|]. split; [by eapply only_trans|]. destruct r; cycle 1.
  { intros Hq. apply Hr. by apply Ho. }
  destruct Hr as (T2 & M2 & Hf2 & Hl2 & Hc2 & Hp2). exists T2, M2. split_and!; [done|lia|lia|].
  intros k v'. rewrite (Hp2 k v'), lookup_insert_Some, elem_of_cons.
  assert (M !! vkey v = None) by (apply Hnew; set_solver). naive_solver.
Qed.

Lemma image_read n hdr (T : list slot) a m : length hdr = n -> (4 <= n)%nat -> Forall (slot_wf n) T ->
  read_at (image n hdr T) ((a + 1) * n) (m * n) = concat (slot_bytes n <$> take m (drop a T)).
Proof.
  intros Hh Hn Hwf. pose proof (image_uniform n hdr T Hh Hn Hwf) as Hu.
  unfold read_at, image. rewrite drop_concat_uniform by done.
  rewrite take_concat_uniform by by apply Forall_drop. rewrite Nat.add_1_r. cbn [drop].
  by rewrite fmap_take, fmap_drop.
Qed.

(** Only the new file and the position in the old one change. *)
Definition frame2 w w' (d : Z) (i : nat) (old : Z) (io : nat) : Prop :=
  names w' = names w /\ (quiet w -> quiet w') /\ (forall j, j <> i -> files w' !! j = files w !! j) /\
  exists p q, fds w' = <[d := (i, p)]> (<[old := (io, q)]> (fds w)).

Lemma frame2_only w w' d i old io q : only_file w w' d i -> fds w !! old = Some (io, q) -> frame2 w w' d i old io.
Proof.
  intros (H1 & H2 & H3 & p & H4) Hq. split_and!; [done|done|done|].
  exists p, q. by rewrite H4, (insert_id (fds w) old (io, q)).
Qed.

Lemma frame2_moved w w' d i p old io : d <> old -> moved w w' old io -> fds w !! d = Some (i, p) ->
  frame2 w w' d i old io.
Proof.
  intros Hne [(H1 & H2 & H3) [q Hq]] Hd. split_and!; [done|done|by rewrite H1|].
  exists p, q. rewrite Hq. rewrite (insert_id (<[old := (io, q)]> (fds w)) d (i, p)); [done|].
  by rewrite lookup_insert_ne.
Qed.

Lemma frame2_trans w1 w2 w3 d i old io : d <> old ->
  frame2 w1 w2 d i old io -> frame2 w2 w3 d i old io -> frame2 w1 w3 d i old io.
Proof.
  intros Hne (A1 & A2 & A3 & p & q & A4) (B1 & B2 & B3 & p' & q' & B4).
  split_and!; [congruence|auto|intros j Hj; by rewrite B3, A3|]. exists p', q'.
  rewrite B4, A4. rewrite (insert_insert_ne _ old d) by done. by rewrite !insert_insert_eq.
Qed.

Lemma map_plus_app M M1 M2 vs1 vs2 : map_plus M M1 vs1 -> map_plus M1 M2 vs2 -> map_plus M M2 (vs1 ++ vs2).
Proof. intros H1 H2 k v. rewrite (H2 k v), (H1 k v), elem_of_app. naive_solver. Qed.

(** Copying the slots [T1] that are left of the old table [T0 ++ T1], in [c] chunks. *)
Lemma copy_elements_ok c : forall fuel w h i n hdr T M old io ohdr T0 T1 per,
  filling w h i n hdr T M -> fd h <> old -> i <> io ->
  files w !! io = Some (Inode true (image n ohdr (T0 ++ T1))) -> length ohdr = n ->
  Forall (slot_wf n) (T0 ++ T1) -> fds w !! old = Some (io, (length T0 + 1) * n)%nat ->
  length T1 = (c * per)%nat -> (0 < per)%nat -> Z.of_nat (per * n) <= HFILE_BUFFER_SIZE ->
  Z.of_nat (length (T0 ++ T1)) < 2 ^ 32 -> (c <= fuel)%nat ->
  count used T + Z.of_nat (length (entries T1)) < Z.of_nat (length T) ->
  NoDup (vkey <$> entries T1) -> (forall v, v ∈ entries T1 -> M !! vkey v = None) ->
  exists w' e r, copy_elements fuel w h old (Z.of_nat (length T0)) (Z.of_nat (length (T0 ++ T1)))
      (Z.of_nat per) (Z.of_nat (per * n)) = Ok (w', set_element h e, r) /\
    frame2 w w' (fd h) i old io /\
    if r then exists T' M', filling w' (set_element h e) i n hdr T' M' /\ length T' = length T /\
        count used T' = count used T + Z.of_nat (length (entries T1)) /\ map_plus M M' (entries T1)
    else ~ quiet w.
Proof.
  induction c as [|c IH]; intros fuel w h i n hdr T M old io ohdr T0 T1 per Hf Hne Hi Hfile Hoh Hwf Hold
    Hlen Hper Hbuf Hsz Hfuel Hroom Hnd Hnew.
  { destruct T1; [|cbn in Hlen; lia]. rewrite app_nil_r in *.
    exists w, (element h), true. assert (set_element h (element h) = h) as -> by by destruct h.
    split_and!; [|by eapply frame2_only; [eapply only_refl|]|].
    - destruct fuel; cbn [copy_elements]; by rewrite Z.ltb_irrefl.
    - exists T, M. split_and!; [done|done|cbn; lia|].
      intros k v. split; [by left|]. intros [?|[[]%not_elem_of_nil _]]; done. }
  destruct fuel as [|fuel]; [lia|]. cbn [copy_elements].
  assert (per <= length T1)%nat as Hge by (rewrite Hlen; nia).
  assert (Z.of_nat (length T0) <? Z.of_nat (length (T0 ++ T1)) = true) as ->
    by (apply Z.ltb_lt; rewrite length_app; lia).
  rewrite (proj2 (Z.ltb_ge HFILE_BUFFER_SIZE _)) by lia. rewrite (Nat2Z.id (per * n)).
  pose proof (disk_n (fl_disk Hf)) as Hn8.
  destruct (fd_read_ok w old io ((length T0 + 1) * n) (Inode true (image n ohdr (T0 ++ T1))) (per * n))
    as (w1 & r & -> & Hs1 & Hpost); [done|done| |].
  { cbn [i_data]. rewrite length_image by (done || lia). rewrite length_app. nia. }
  cbn [mbind res_bind i_data length app] in *. rewrite Nat.sub_0_r in Hpost.
  destruct (disk_fd (fl_disk Hf)) as [p Hp].
  assert (forall q, fds w1 = <[old := (io, q)]> (fds w) -> frame2 w w1 (fd h) i old io) as Hfr.
  { intros q Hq. eapply frame2_moved; [done| |done]. split; [done|by exists q]. }
  destruct r as [buffer|]; cycle 1.
  { destruct Hpost as [Hq [q Hp']]. exists w1, (element h), false.
    assert (set_element h (element h) = h) as -> by by destruct h. split_and!; [done|by eapply Hfr|done]. }
  destruct Hpost as [-> Hp1]. rewrite image_read by (done || lia).
  rewrite drop_app_length. set (Ta := take per T1). set (Tb := drop per T1).
  assert (T1 = Ta ++ Tb) as HT1 by (symmetry; apply take_drop).
  assert (length Ta = per) as Hla by (subst Ta; rewrite length_take; lia).
  rewrite HT1, entries_app in Hroom, Hnd, Hnew. rewrite length_app in Hroom.
  rewrite fmap_app in Hnd. apply NoDup_app in Hnd as (Hnda & Hdis & Hndb).
  destruct Hs1 as (S1 & S2 & S3).
  assert (filling w1 h i n hdr T M) as Hf1.
  { destruct Hf as [Hc Hh [Hd1 Hd2 Hd3 Hd4 Hd5] Hsize Hl Hdel Ht]. split; try done.
    split; [|by rewrite S1|done..]. exists p. by rewrite Hp1, lookup_insert_ne. }
  rewrite HT1, app_assoc, Forall_app in Hwf. destruct Hwf as [Hwf0 Hwfb].
  pose proof Hwf0 as [_ Hwfa]%Forall_app.
  destruct (copy_chunk_ok Ta w1 h i n hdr T M) as (w2 & e & r & E & Ho2 & Hr);
    [done|done|lia|done|set_solver|].
  rewrite Hla in E. rewrite Nat2Z.id, E. cbn [mbind res_bind].
  assert (frame2 w w2 (fd h) i old io) as Hfr2.
  { eapply frame2_trans; [done|by eapply Hfr|]. eapply frame2_only; [done|]. by rewrite Hp1, lookup_insert_eq. }
  destruct r; cycle 1.
  { exists w2, e, false. split_and!; [done|done|]. auto. }
  destruct Hr as (T2 & M2 & Hf2 & Hl2 & Hc2 & Hp2). cbn [negb].
  replace (u32 (Z.of_nat (length T0) + Z.of_nat per)) with (Z.of_nat (length (T0 ++ Ta)))
    by (rewrite length_app, wrap_small; rewrite ?length_app in *; lia).
  assert (T0 ++ T1 = (T0 ++ Ta) ++ Tb) as HTT by by rewrite HT1, app_assoc.
  destruct (IH fuel w2 (set_element h e) i n hdr T2 M2 old io ohdr (T0 ++ Ta) Tb per)
    as (w3 & e3 & r & E3 & Hfr3 & Hr3).
  - done.
  - done.
  - done.
  - destruct Ho2 as (_ & _ & O3 & _). by rewrite O3, S1, <-HTT.
  - done.
  - by apply Forall_app.
  - destruct Ho2 as (_ & _ & _ & q & O4). rewrite O4, lookup_insert_ne, Hp1, lookup_insert_eq by done.
    do 3 f_equal. rewrite length_app, Hla. lia.
  - subst Tb. rewrite length_drop, Hlen. lia.
  - done.
  - done.
  - by rewrite <-HTT.
  - lia.
  - rewrite Hc2, Hl2. lia.
  - done.
  - intros v Hv. destruct (M2 !! vkey v) as [v'|] eqn:Em; [|done]. exfalso.
    apply Hp2 in Em as [Em|[Hin Hk]].
    + rewrite Hnew in Em; [done|]. apply elem_of_app. by right.
    + apply (Hdis (vkey v)); [rewrite <-Hk|]; by apply list_elem_of_fmap_2.
  - exists w3, e3, r. rewrite HTT. split; [exact E3|]. split; [by eapply frame2_trans|].
    destruct r; cycle 1.
    { intros Hq. apply Hr3. by apply Hfr2. }
    destruct Hr3 as (T3 & M3 & Hf3 & Hl3 & Hc3 & Hp3). exists T3, M3. rewrite HT1, entries_app, length_app.
    split_and!; [done|lia|lia|by eapply map_plus_app].
Qed.

Lemma grow_chunk_ok fuel : forall c, 0 < c <= HFILE_BUFFER_SIZE -> HFILE_BUFFER_SIZE / 2 < c * 2 ^ Z.of_nat fuel ->
  exists k, 0 <= k /\ grow_chunk fuel c = Ok (c * 2 ^ k) /\ c * 2 ^ k <= HFILE_BUFFER_SIZE.
Proof.
  unfold HFILE_BUFFER_SIZE. induction fuel as [|fuel IH]; intros c Hc Hf.
  { exists 0. rewrite Z.pow_0_r in *. cbn [grow_chunk]. unfold HFILE_BUFFER_SIZE.
    rewrite (proj2 (Z.leb_gt _ _)), Z.mul_1_r by lia. split_and!; [lia|done|lia]. }
  cbn [grow_chunk]. unfold HFILE_BUFFER_SIZE. case_if; cycle 1.
  { exists 0. rewrite Z.pow_0_r, Z.mul_1_r. split_and!; [lia|done|lia]. }
  rewrite wrap_small by lia. rewrite Nat2Z.inj_succ, Z.pow_succ_r in Hf by lia.
  change (16384 / 2) with 8192 in *.
  destruct (IH (c * 2)) as (k & Hk & -> & Hb); [lia|by rewrite <-Z.mul_assoc|].
  exists (k + 1). rewrite Z.pow_add_r, Z.pow_1_r by lia. split_and!; [lia|f_equal; lia|lia].
Qed.

Lemma image_zero n N : (8 <= n)%nat ->
  image n (replicate n 0) (replicate N SEmpty) = replicate ((N + 1) * n) 0.
Proof.
  intros Hn. unfold image. rewrite fmap_replicate, slot_bytes_empty by lia. cbn [concat].
  replace ((N + 1) * n)%nat with (n + N * n)%nat by lia. rewrite replicate_add. f_equal.
  induction N as [|N IH]; [done|]. cbn [replicate concat]. rewrite IH, <-replicate_add. done.
Qed.

Lemma slot_entries_nodup T M : table_rep vkey vhash T M -> NoDup (vkey <$> entries T).
Proof.
  intros Ht. pose proof (tr_inj _ _ _ _ Ht) as Hinj. clear Ht M.
  induction T as [|s T IH]; [constructor|].
  assert (NoDup (vkey <$> entries T)) as Hnd.
  { apply IH. intros i j v v' Hi Hj Hk.
    assert (S i = S j) as E by (by apply (Hinj (S i) (S j) v v')). by injection E. }
  destruct s as [| |v]; [done|done|]. change (entries (SValid v :: T)) with (v :: entries T).
  rewrite fmap_cons. apply NoDup_cons. split; [|done].
  intros (v' & Hk & (j & Hj)%elem_of_entries)%list_elem_of_fmap.
  by specialize (Hinj 0%nat (S j) v v' eq_refl Hj Hk).
Qed.

(** The new file with its header and empty slots. *)
Lemma new_file_ok w d i n N b : 8 <= Z.of_nat n <= HFILE_BUFFER_SIZE -> 0 < Z.of_nat N < 2 ^ 32 ->
  fds w !! d = Some (i, 0%nat) -> files w !! i = Some (Inode true []) -> length b = 8%nat ->
  exists w' r,
    (let '(w, r) := ftruncate w d (u64 (u64 (Z.of_nat N * Z.of_nat n) + Z.of_nat n)) in
     if r <? 0 then Ok (w, false) else fd_write w d b) = Ok (w', r) /\
    only_file w w' d i /\
    if r then disk w' d i n (b ++ replicate (n - 8) 0) (replicate N SEmpty) else ~ quiet w.
Proof.
  unfold HFILE_BUFFER_SIZE. intros Hn HN Hfd Hfile Hb8.
  rewrite (wrap_small 64 (Z.of_nat N * _)) by nia. rewrite wrap_small by nia. unfold ftruncate.
  edestruct (syscall_cases w (-1)) as (w1 & (A1 & A2 & A3) & A4 & [-> |[Hq ->]]); cycle 1.
  { exists w1, false. split_and!; [done| |done]. split_and!; [done|done|by rewrite A1|].
    exists 0%nat. by rewrite A4, insert_id. }
  assert (fd_inode w1 d = Some (i, 0%nat, Inode true [])) as ->.
  { unfold fd_inode. rewrite A4, Hfd. cbn [mbind option_bind]. by rewrite A1, Hfile. }
  cbn [i_reg i_data]. change (0 <? 0) with false. cbv iota.
  replace (Z.to_nat (Z.of_nat N * Z.of_nat n + Z.of_nat n)) with ((N + 1) * n)%nat by lia.
  rewrite resize_nil, <-image_zero by lia. unfold image. fold (blocks n (replicate n 0) (replicate N SEmpty)).
  set (ls := blocks n _ _). set (w2 := set_files w1 _).
  assert (Forall (slot_wf n) (replicate N SEmpty)) as Hwf0 by by apply Forall_replicate.
  assert (Forall (fun l => length l = n) ls) as Hu by (apply image_uniform; [by rewrite length_replicate|lia|done]).
  destruct (fd_write_ok w2 d i 0 (Inode true (concat ls)) b) as (w3 & r & -> & m & B1 & B2 & B3 & B4 & B5 & B6).
  { cbn. by rewrite A4. }
  { cbn. by rewrite lookup_insert_eq. }
  { lia. }
  exists w3, r. split; [done|]. split.
  { split_and!; [rewrite B2; done|auto| |rewrite B3; cbn; rewrite A4; eauto].
    intros j Hj. rewrite B1, lookup_insert_ne by done. cbn. by rewrite lookup_insert_ne, A1. }
  destruct r; [|intros Hq; apply B6; by apply A3]. subst m. rewrite take_ge in B1 by done.
  split; [eexists; by rewrite B3, lookup_insert_eq| | |done|lia].
  - rewrite B1, lookup_insert_eq. cbn [i_data i_reg]. do 2 f_equal.
    change 0%nat with (0 * n)%nat. rewrite (write_concat n ls 0 (replicate n 0)) by (done || lia).
    rewrite Hb8, drop_replicate. done.
  - rewrite length_app, length_replicate. lia.
Qed.

(** Filling the new file, from an empty one. *)
Lemma expand_fill_ok w h i n old io ohdr T M per N c : conf h n -> hash_f h = hash ->
  hf_size h = Z.of_nat N -> 0 < Z.of_nat N < 2 ^ 32 -> fds w !! fd h = Some (i, 0%nat) ->
  files w !! i = Some (Inode true []) -> fd h <> old -> i <> io -> disk w old io n ohdr T ->
  table_rep vkey vhash T M -> length T = (c * per)%nat -> (0 < per)%nat ->
  Z.of_nat (per * n) <= HFILE_BUFFER_SIZE -> Z.of_nat (length T) < 2 ^ 32 ->
  (length (entries T) < N)%nat ->
  exists w' e r, expand_fill w h old (Z.of_nat (length T)) (Z.of_nat per) (Z.of_nat (per * n))
      = Ok (w', set_element h e, r) /\
    frame2 w w' (fd h) i old io /\
    if r then exists T', filling w' (set_element h e) i n
        (encode_header (u32 (n_elements h - n_deleted h)) 0 ++ replicate (n - 8) 0) T' M /\
        length T' = N /\ count used T' = Z.of_nat (length (entries T))
    else ~ quiet w.
Proof.
  intros Hc Hh HN HN' Hfd Hfile Hne Hi Hdisk Ht Hlen Hper Hbuf Hsz Hroom.
  pose proof (conf_n _ _ Hc) as Hn. unfold HFILE_BUFFER_SIZE in Hn. pose proof (conf_size _ _ Hc) as He.
  pose proof (disk_fd Hdisk) as [po Hpo].
  assert (set_element h (element h) = h) as Hse by by destruct h.
  assert (forall w', only_file w w' (fd h) i -> frame2 w w' (fd h) i old io) as Hof
    by (intros w' Ho; by eapply frame2_only).
  unfold expand_fill. rewrite HN, He. set (b := encode_header _ 0).
  destruct (new_file_ok w (fd h) i n N b (conf_n _ _ Hc) HN' Hfd Hfile eq_refl) as (w3 & r & E & Ho3 & Hd3).
  destruct (ftruncate w (fd h) _) as [w1 r1]. destruct (r1 <? 0).
  { injection E as <- <-. exists w1, (element h), false. rewrite Hse. split_and!; [done|by apply Hof|done]. }
  rewrite E. cbn [mbind res_bind]. destruct r; cycle 1.
  { cbn [negb]. exists w3, (element h), false. rewrite Hse. split_and!; [done|by apply Hof|done]. }
  cbn [negb]. pose proof Ho3 as (O1 & O2 & O3 & p3 & O4).
  assert (fds w3 !! old = Some (io, po)) as Hpo3 by by rewrite O4, lookup_insert_ne.
  destruct (lseek_ok w3 old io po (Z.of_nat n) Hpo3) as (w4 & r & -> & (C1 & C2 & C3) & Hcase).
  assert (fds w3 !! fd h = Some (i, p3)) as Hfd3 by by rewrite O4, lookup_insert_eq.
  assert (forall q, fds w4 = <[old := (io, q)]> (fds w3) -> frame2 w w4 (fd h) i old io) as Hf4.
  { intros q Hq. eapply frame2_trans; [done|by apply Hof|]. eapply frame2_moved; [done| |done].
    split; [done|by exists q]. }
  destruct Hcase as [[-> Hp4]|(Hq & -> & Hp4)]; cycle 1.
  { assert (u64 (-1) =? Z.of_nat n = false) as ->.
    { apply Z.eqb_neq. unfold wrap. change ((-1) mod 2 ^ 64) with (2 ^ 64 - 1). lia. }
    cbn [negb]. exists w4, (element h), false. rewrite Hse. split_and!; [done| |auto].
    apply (Hf4 po). by rewrite Hp4, insert_id. }
  rewrite wrap_small, Z.eqb_refl by lia. cbn [negb]. rewrite Nat2Z.id in Hp4.
  assert (filling w4 h i n (b ++ replicate (n - 8) 0) (replicate N SEmpty) ∅) as Hfill.
  { split; [done|done| |by rewrite length_replicate|by rewrite length_replicate| |apply table_empty].
    - destruct Hd3. split; [exists p3; by rewrite Hp4, lookup_insert_ne|by rewrite C1|done..].
    - intros j [? _]%lookup_replicate. done. }
  destruct (copy_elements_ok c (Z.to_nat (Z.of_nat (length T))) w4 h i n (b ++ replicate (n - 8) 0)
    (replicate N SEmpty) ∅ old io ohdr [] T per) as (w5 & e & r & E5 & Hfr & Hr).
  all: cbn [app length]; rewrite ?Nat2Z.id, ?length_replicate, ?count_replicate by done.
  all: try done.
  - rewrite C1, O3 by done. apply (disk_file Hdisk).
  - apply (disk_hdr Hdisk).
  - apply (disk_wf Hdisk).
  - rewrite Hp4, lookup_insert_eq. do 3 f_equal. lia.
  - nia.
  - lia.
  - by eapply slot_entries_nodup.
  - cbn [app length] in E5. rewrite Nat2Z.id in E5. exists w5, e, r. split; [exact E5|].
    split; [eapply frame2_trans; [done|by eapply Hf4|done]|].
    destruct r; [|intros Hq; apply Hr; by apply C3, O2].
    destruct Hr as (T' & M' & Hf' & Hl' & Hc' & Hp'). rewrite length_replicate in Hl'.
    rewrite count_replicate in Hc' by done.
    exists T'. split_and!; [|done|lia].
    assert (M' = M) as <-; [|done]. apply map_eq. intros k. apply option_eq. intros v.
    rewrite (Hp' k v), (tr_map _ _ _ _ Ht), lookup_empty, elem_of_entries. naive_solver.
Qed.

(** The number of valid slots is the size of the map. *)
Lemma live_size T M : table_rep vkey vhash T M -> count used T - count is_deleted T = Z.of_nat (size M).
Proof.
  intros Ht. rewrite <-length_entries. f_equal. pose proof (slot_entries_nodup T M Ht) as Hnd.
  assert (((fun v => (vkey v, v)) <$> entries T).*1 = vkey <$> entries T) as Hfst
    by by rewrite <-list_fmap_compose.
  assert (M = list_to_map ((fun v => (vkey v, v)) <$> entries T)) as ->.
  { apply map_eq. intros k. apply option_eq. intros v.
    rewrite (tr_map _ _ _ _ Ht), <-elem_of_list_to_map by by rewrite Hfst.
    rewrite list_elem_of_fmap. setoid_rewrite elem_of_entries. naive_solver. }
  rewrite map_size_list_to_map by by rewrite Hfst. by rewrite length_fmap.
Qed.

(** The new size is a power of two with room for the elements and one more. *)
Lemma new_size_ok w h n i hdr T M : hf_rep w h n i hdr T M -> Z.of_nat (size M) < 2 ^ 29 ->
  u32 (n_elements h - n_deleted h) = Z.of_nat (size M) /\
  match hfile_new_size h with
  | None => count used T + 1 < hf_size h
  | Some N => Z.of_nat (size M) + 1 < N /\ exists j, 1 <= j <= 31 /\ N = 2 ^ j
  end.
Proof.
  intros Hr Hsm. pose proof (live_size T M (hr_table Hr)) as Hl. pose proof (hf_size_bounds _ _ _ _ _ _ _ Hr).
  destruct (hr_pow Hr) as (j & Hj & Hp). pose proof (hr_room Hr). pose proof (hr_size Hr).
  pose proof (count_bounds used T). pose proof (count_bounds is_deleted T).
  assert (u32 (n_elements h - n_deleted h) = Z.of_nat (size M)) as Hlive.
  { rewrite (hr_used Hr), (hr_del Hr), Hl. apply wrap_small. lia. }
  split; [done|]. unfold hfile_new_size. rewrite Hlive, (hr_used Hr). set (live := Z.of_nat (size M)) in *.
  rewrite (wrap_small 32 (2 * live)), (wrap_small 32 (8 * live)), (wrap_small 32 (2 * count used T)) by lia.
  repeat case_if; rewrite ?wrap_small by lia.
  - split; [lia|]. exists (j + 1). rewrite Z.pow_add_r, Z.pow_1_r by lia. split; [|lia].
    assert (2 ^ j < 2 ^ 30) as Hlt by lia. apply Z.pow_lt_mono_r_iff in Hlt; lia.
  - assert (1 < j) as Hj1 by (apply (Z.pow_lt_mono_r_iff 2); lia).
    assert (2 ^ j = 2 * 2 ^ (j - 1)) as Hd by (rewrite <-Z.pow_succ_r by lia; f_equal; lia).
    assert (hf_size h / 2 = 2 ^ (j - 1)) as -> by (rewrite Hp, Hd, Z.mul_comm; apply Z.div_mul; lia).
    split; [lia|]. exists (j - 1). split; [lia|done].
  - split; [lia|]. by exists j.
  - lia.
Qed.

(** The chunk in which the old file is read: [per] slots, which divide the table. *)
Lemma chunk_ok w h n i hdr T M : hf_rep w h n i hdr T M ->
  exists chunk per c, grow_chunk 32 (element_size h) = Ok chunk /\
    (if hf_size h <? chunk / element_size h then (hf_size h, u32 (hf_size h * element_size h))
     else (chunk / element_size h, chunk)) = (Z.of_nat per, Z.of_nat (per * n)) /\
    length T = (c * per)%nat /\ (0 < per)%nat /\ Z.of_nat (per * n) <= HFILE_BUFFER_SIZE.
Proof.
  intros Hr. destruct (hr_conf Hr) as [He Hn _ _]. destruct (hr_pow Hr) as (j & Hj & Hp).
  pose proof (hr_size Hr) as Hs. rewrite He.
  destruct (grow_chunk_ok 32 (Z.of_nat n)) as (k & Hk & -> & Hb).
  { lia. }
  { unfold HFILE_BUFFER_SIZE. change (2 ^ Z.of_nat 32) with 4294967296. change (16384 / 2) with 8192. lia. }
  exists (Z.of_nat n * 2 ^ k). pose proof (Z.pow_pos_nonneg 2 k ltac:(lia) Hk) as Hpos.
  rewrite (Z.mul_comm (Z.of_nat n)), Z.div_mul in * by lia. unfold HFILE_BUFFER_SIZE in *. case_if.
  - exists (length T), 1%nat. split; [done|]. rewrite Hs in *.
    assert (Z.of_nat (length T) * Z.of_nat n < 16384) by nia.
    rewrite wrap_small by nia. split_and!; [by rewrite Nat2Z.inj_mul|lia|lia|lia].
  - exists (Z.to_nat (2 ^ k)), (Z.to_nat (2 ^ (j - k))). split; [done|].
    assert (k <= j) as Hkj by (apply (Z.pow_le_mono_r_iff 2); lia).
    assert (2 ^ j = 2 ^ (j - k) * 2 ^ k) as Hjk by (rewrite <-Z.pow_add_r by lia; f_equal; lia).
    pose proof (Z.pow_pos_nonneg 2 (j - k) ltac:(lia) ltac:(lia)).
    split_and!; [f_equal; rewrite ?Nat2Z.inj_mul, Z2Nat.id by lia; lia| |lia|lia].
    rewrite <-Z2Nat.inj_mul by lia. lia.
Qed.

Lemma new_name_ne h : new_name h <> file_name h.
Proof.
  unfold new_name. induction (file_name h) as [|c s IH]; [done|]. cbn. intros [= E]. done.
Qed.

(** A result of [hfile_expand]: the map in a new file with room for an element; or a
    failure with the map where it was, unless the descriptor was closed; or an
    abort after a failed [dup2]. *)
Definition expand_post w h (n i : nat) (hdr : list Z) T (M : gmap K (list Z))
    (r : res (world * hfile * bool)) : Prop :=
  match r with
  | Ok (w', h', true) => (quiet w -> quiet w') /\
      (exists e s a b, h' = set_counts (set_size (set_element h e) s) a b) /\
      exists i' hdr' T', hf_rep w' h' n i' hdr' T' M /\ count used T' + 1 < Z.of_nat (length T')
  | Ok (w', h', false) => ~ quiet w /\ (exists e, h' = set_element h e) /\
      (hf_rep w' h' n i hdr T M \/ fds w' !! fd h = None)
  | Aborted => ~ quiet w
  | OutOfFuel => False
  end.

(** The old file is still in use. *)
Definition expand_failed w h (n i : nat) (hdr : list Z) T (M : gmap K (list Z)) (r : res (world * hfile * bool)) : Prop :=
  exists w' h', r = Ok (w', h', false) /\ (exists e, h' = set_element h e) /\ hf_rep w' h' n i hdr T M.

(** The end of [hfile_expand] is decided by [dup2] and [rename]. *)
Definition expand_committed w h (n : nat) (M : gmap K (list Z)) (sc : list outcome) (r : res (world * hfile * bool)) : Prop :=
  if next_fails sc then r = Aborted
  else if next_fails (tail sc) then
    exists w' h', r = Ok (w', h', false) /\ (exists e, h' = set_element h e) /\ fds w' !! fd h = None
  else
    exists w' h', r = Ok (w', h', true) /\ (quiet w -> quiet w') /\
      (exists e s a b, h' = set_counts (set_size (set_element h e) s) a b) /\
      exists i' hdr' T', hf_rep w' h' n i' hdr' T' M /\ count used T' + 1 < Z.of_nat (length T').

(** The world while the new file is being filled. *)
Definition in_copy w w' h (d : Z) (i' io : nat) : Prop :=
  d <> fd h /\ i' <> io /\ fds w !! d = None /\ names w' = <[new_name h := i']> (names w) /\
  files w' !! io = files w !! io /\
  exists p q, fds w' = <[d := (i', p)]> (<[fd h := (io, q)]> (fds w)).

(** The error path closes the new file and leaves the old one in use. *)
Lemma expand_back w w' h n io hdr T M d i' e N : hf_rep w h n io hdr T M -> in_copy w w' h d i' io ->
  expand_failed w h n io hdr T M (expand_error_with_fd w' (set_element (set_fd (set_size h N) d) e)
    (new_name h) (fd h) (hf_size h)).
Proof.
  intros Hr (Hne & Hi & Hd & Hn & Hf & p & q & Hfd). eexists _, _. split; [reflexivity|].
  assert (set_size (set_fd (set_element (set_fd (set_size h N) d) e) (fd h)) (hf_size h) = set_element h e) as ->
    by by destruct h.
  split; [by exists e|]. apply hf_rep_element. pose proof (new_name_ne h).
  destruct Hr as [? ? ? ? ? [Hfdo Hfo ? ? ?] Hnm ? ? ? ? ? ? ? ?]. split; try done.
  - split; [|by cbn; rewrite Hf|done..]. exists q. cbn. by rewrite Hfd, delete_insert_eq, lookup_delete_ne, lookup_insert_eq.
  - cbn. by rewrite lookup_delete_ne, Hn, lookup_insert_ne.
  - cbn. by rewrite lookup_delete_eq.
Qed.

Lemma expand_commit_ok w w' h n io hdr T M d i' e N T' : hf_rep w h n io hdr T M -> in_copy w w' h d i' io ->
  (quiet w -> quiet w') -> 0 <= d ->
  filling w' (set_element (set_fd (set_size h N) d) e) i' n
    (encode_header (Z.of_nat (size M)) 0 ++ replicate (n - 8) 0) T' M ->
  u32 (n_elements h - n_deleted h) = Z.of_nat (size M) -> count used T' = Z.of_nat (size M) ->
  Z.of_nat (size M) + 1 < N -> (exists j, 1 <= j <= 31 /\ N = 2 ^ j) ->
  expand_committed w h n M (script w') (expand_commit w' (set_element (set_fd (set_size h N) d) e)
    (new_name h) (fd h) (hf_size h)).
Proof.
  intros Hr (Hne & Hi & Hd & Hn & Hf & p & q & Hfd) Hqw Hd0 Hfill Hlive Hcount HN Hpow.
  pose proof (conf_fd _ _ (hr_conf Hr)) as Hfd0. pose proof (new_name_ne h) as Hnn.
  unfold expand_committed, expand_commit. cbn [set_element set_fd set_size fd file_name n_elements n_deleted].
  unfold dup2. edestruct (syscall_step w' (-1)) as (w1 & (A1 & A2 & A3) & A4 & A5 & ->).
  destruct (next_fails (script w')); [done|].
  rewrite A4, Hfd, lookup_insert_eq. rewrite (proj2 (Z.ltb_ge (fd h) 0)) by lia.
  set (w2 := close _ _). unfold rename.
  assert (fds w2 = <[fd h := (i', p)]> (fds w)) as Hfd2.
  { subst w2. unfold close. cbn [set_fds fds].
    rewrite delete_insert_ne, delete_insert_eq by done. rewrite delete_insert_ne by done.
    rewrite (delete_id _ d) by done. by rewrite insert_insert_eq. }
  edestruct (syscall_step w2 (-1)) as (w3 & (B1 & B2 & B3) & B4 & _ & ->).
  change (script w2) with (script w1). rewrite A5. destruct (next_fails (tail (script w'))).
  { (* [rename] failed: the descriptor in use is closed *)
    eexists _, _. split; [reflexivity|]. split; [exists e; by destruct h|]. cbn. by rewrite lookup_delete_eq. }
  assert (names w3 !! new_name h = Some i') as ->.
  { rewrite B2. cbn. by rewrite A2, Hn, lookup_insert_eq. }
  change (0 <? 0) with false. cbv iota. eexists _, _. split; [reflexivity|]. split; [auto|].
  split; [exists e, N, (u32 (n_elements h - n_deleted h)), 0; by destruct h|].
  exists i', (encode_header (Z.of_nat (size M)) 0 ++ replicate (n - 8) 0), T'.
  pose proof (fl_size Hfill) as Hs. cbn in Hs.
  assert (count is_deleted T' = 0) as Hdel.
  { pose proof (live_size T' M (fl_table Hfill)). lia. }
  split; [|lia].
  destruct (fl_disk Hfill) as [_ Df Dh Dw Dn].
  split; cbn [set_counts set_fd set_element set_size fd element_size base_size hash_f eq_f hf_size n_elements n_deleted].
  - by destruct (hr_conf Hr).
  - apply (hr_base Hr).
  - apply (hr_hash Hr).
  - apply (hr_eq Hr).
  - apply (hr_codec Hr).
  - split; [|cbn; rewrite B1; cbn; by rewrite A1|done..].
    exists p. cbn. by rewrite B4, Hfd2, lookup_insert_eq.
  - cbn. by rewrite lookup_insert_eq.
  - unfold new_name. cbn. fold (new_name h). by rewrite lookup_insert_ne, lookup_delete_eq.
  - done.
  - done.
  - by rewrite Hlive.
  - done.
  - lia.
  - apply (fl_table Hfill).
  - rewrite Hlive, take_app_length'; done.
Qed.


(** What [hfile_expand] does, by how far it gets. *)
Lemma hfile_expand_cases w h n i hdr T M : hf_rep w h n i hdr T M -> Z.of_nat (size M) < 2 ^ 29 ->
  exists w1 h1 p, expand_prepare w h = Ok (w1, h1, p) /\
    match p with
    | Unneeded => hfile_expand w h = Ok (w, h, true) /\ count used T + 1 < Z.of_nat (length T)
    | NotOpened | Unfilled => ~ quiet w /\ expand_failed w h n i hdr T M (hfile_expand w h)
    | Filled => (quiet w -> quiet w1) /\ expand_committed w h n M (script w1) (hfile_expand w h)
    end.
Proof.
  intros Hr Hsm. destruct (new_size_ok w h n i hdr T M Hr Hsm) as [Hlive HN]. unfold hfile_expand, expand_prepare.
  pose proof (hr_size Hr) as Hs. pose proof (hf_size_bounds _ _ _ _ _ _ _ Hr) as Hsb.
  destruct (hfile_new_size h) as [N|]; cycle 1.
  { exists w, h, Unneeded. split_and!; [done|done|lia]. }
  destruct (chunk_ok w h n i hdr T M Hr) as (chunk & per & c & -> & Ech & Hc & Hper & Hbuf).
  cbn [mbind res_bind]. rewrite Ech. destruct (hr_disk Hr) as [[po Hpo] Hfile Hhl Hwf Hn8] eqn:Edisk.
  unfold open_trunc. edestruct (syscall_cases w (-1)) as (w1 & (A1 & A2 & A3) & A4 & [-> |[Hq ->]]); cycle 1.
  { (* [open] failed *)
    cbn [Z.ltb Z.compare]. eexists _, _, NotOpened. split; [reflexivity|]. split; [done|].
    assert (set_size (set_fd (set_fd (set_size h N) (-1)) (fd h)) (hf_size h) = h) as Eh by by destruct h.
    eexists _, h. split; [cbn; unfold expand_error; by rewrite Eh|]. split; [exists (element h); by destruct h|].
    eapply hf_rep_moved; [done|]. split; [done|]. exists po. by rewrite A4, insert_id. }
  cbv zeta. set (i' := default _ _). set (d := fresh_fd w1).
  pose proof (fresh_fd_nonneg w1) as Hd0. pose proof (fresh_fd_new w1) as Hdn. fold d in Hd0, Hdn. rewrite A4 in Hdn.
  assert (d <> fd h) as Hne by congruence.
  assert (i' <> i) as Hi.
  { subst i'. rewrite A2. pose proof (hr_new Hr) as Hnw. destruct (names w !! new_name h) as [i0|]; cbn; [congruence|].
    intros E. pose proof (is_fresh (dom (files w1))) as Hfr. rewrite E in Hfr. apply Hfr.
    rewrite A1. by eapply elem_of_dom_2. }
  rewrite (proj2 (Z.ltb_ge d 0)) by lia. set (w2 := World _ _ _ _ _). destruct HN as [HN Hpow].
  pose proof Hpow as (j & Hj & HNj).
  assert (N <= 2 ^ 31) as HNb by (rewrite HNj; apply Z.pow_le_mono_r; lia).
  pose proof (live_size T M (hr_table Hr)) as Hls.
  destruct (expand_fill_ok w2 (set_fd (set_size h N) d) i' n (fd h) i hdr T M per (Z.to_nat N) c)
    as (w3 & e & r & E & Hfr & Hcase).
  1: by destruct (hr_conf Hr).
  1: apply (hr_hash Hr).
  1, 2: cbn; lia.
  1, 2: cbn; by rewrite lookup_insert_eq.
  1, 2: done.
  { split; [|cbn; by rewrite lookup_insert_ne, A1|done..]. exists po. cbn. by rewrite lookup_insert_ne, A4. }
  1: apply (hr_table Hr).
  1, 2, 3: done.
  1: lia.
  { pose proof (length_entries T). lia. }
  rewrite Hs, E. cbn [mbind res_bind].
  assert (in_copy w w3 h d i' i) as Hin.
  { destruct Hfr as (F1 & F2 & F3 & p & q & F4). split_and!; [done|done|done| | |].
    - rewrite F1. cbn. by rewrite A2.
    - rewrite F3 by done. cbn. by rewrite lookup_insert_ne, A1.
    - exists p, q. rewrite F4. cbn. rewrite (insert_insert_ne _ (fd h) d) by done.
      by rewrite insert_insert_eq, A4. }
  rewrite <-Hs. destruct r; eexists _, _, _; (split; [reflexivity|]); cbn [mbind res_bind].
  - destruct Hcase as (T' & Hfill & Hl' & Hc'). split; [intros Hq; apply Hfr; by apply A3|].
    eapply expand_commit_ok; [done|done| |done| |done| |done|done].
    + intros Hq. apply Hfr. by apply A3.
    + rewrite <-Hlive. exact Hfill.
    + rewrite Hc', length_entries. done.
  - split; [intros Hq; apply Hcase; by apply A3|]. apply (expand_back w w3 h n i hdr T M d i' e N Hr Hin).
Qed.

Lemma hfile_expand_ok w h n i hdr T M : hf_rep w h n i hdr T M -> Z.of_nat (size M) < 2 ^ 29 ->
  expand_post w h n i hdr T M (hfile_expand w h).
Proof.
  intros Hr Hsm. destruct (hfile_expand_cases w h n i hdr T M Hr Hsm) as (w1 & h1 & p & _ & Hp).
  assert (~ quiet w -> expand_failed w h n i hdr T M (hfile_expand w h) -> expand_post w h n i hdr T M (hfile_expand w h)) as Hf.
  { intros Hq (w' & h' & -> & He & Hr'). split; [done|]. split; [done|by left]. }
  destruct p; [|by apply Hf; apply Hp..|].
  - destruct Hp as [-> Hroom]. split; [done|].
    split; [exists (element h), (hf_size h), (n_elements h), (n_deleted h); by destruct h|]. by exists i, hdr, T.
  - destruct Hp as [Hq Hc]. unfold expand_committed in Hc.
    assert (next_fails (script w1) || next_fails (tail (script w1)) = true -> ~ quiet w) as Hnq.
    { intros Hor Hw. destruct (quiet_passes w1 (Hq Hw)) as [E1 E2]. by rewrite E1, E2 in Hor. }
    destruct (next_fails (script w1)); [by rewrite Hc; apply Hnq|].
    destruct (next_fails (tail (script w1))).
    + destruct Hc as (w' & h' & -> & He & Hfd). split; [by apply Hnq|]. split; [done|by right].
    + destruct Hc as (w' & h' & -> & H1 & H2 & H3). by split.
Qed.


(** ** Sequences of operations *)

Inductive hf_op : Type :=
  | OpLookup (x : list Z)
  | OpInsert (x : list Z) (base_only : bool)
  | OpDelete (x : list Z).

Definition op_arg (o : hf_op) : list Z :=
  match o with OpLookup x | OpInsert x _ | OpDelete x => x end.

Definition hf_step w h (o : hf_op) : res (world * hfile * list Z * bool) :=
  match o with
  | OpLookup x => hfile_lookup w h x
  | OpInsert x b => hfile_insert w h x b
  | OpDelete x => hfile_delete w h x
  end.

(** Run the operations; the answers are the element and the result of each. *)
Fixpoint hf_run w h (ops : list hf_op) : res (world * hfile * list (list Z * bool)) :=
  match ops with
  | [] => Ok (w, h, [])
  | o :: ops =>
      '(w, h, y, r) ← hf_step w h o;
      '(w, h, l) ← hf_run w h ops;
      Ok (w, h, (y, r) :: l)
  end.

(** The same on a finite map, which is all a client sees of a hash file. *)
Definition spec_step h (M : gmap K (list Z)) (o : hf_op) : gmap K (list Z) * list Z :=
  match o with
  | OpLookup x => (M, lookup_result h M x)
  | OpInsert x b => (insert_result h M x b, set_status x VALID_SLOT)
  | OpDelete x => (delete_result h M x, codec (decode_f h) (codec (encode_f h) x))
  end.

Fixpoint spec_run h (M : gmap K (list Z)) (ops : list hf_op) : gmap K (list Z) * list (list Z) :=
  match ops with
  | [] => (M, [])
  | o :: ops =>
      let '(M, y) := spec_step h M o in
      let '(M, l) := spec_run h M ops in
      (M, y :: l)
  end.

Lemma same_params_trans h1 h2 h3 : same_params h1 h2 -> same_params h2 h3 -> same_params h1 h3.
Proof. unfold same_params. intuition congruence. Qed.

Lemma spec_step_params h h' M o : same_params h h' -> spec_step h' M o = spec_step h M o.
Proof.
  intros (H1 & H2 & H3 & H4 & _). destruct o; unfold spec_step, lookup_result, insert_result, delete_result;
    by rewrite ?H1, ?H2, ?H3, ?H4.
Qed.

Lemma spec_run_params h h' M ops : same_params h h' -> spec_run h' M ops = spec_run h M ops.
Proof.
  intros Hp. revert M. induction ops as [|o ops IH]; intros M; [done|]. cbn.
  rewrite (spec_step_params h h' M o Hp). destruct (spec_step h M o) as [M' y]. by rewrite IH.
Qed.

Lemma hf_step_ok w h n i hdr T M o : hf_rep w h n i hdr T M -> Z.of_nat (size M) < 2 ^ 29 ->
  length (op_arg o) = n -> quiet w ->
  exists w' h' i' hdr' T', hf_step w h o = Ok (w', h', (spec_step h M o).2, true) /\ quiet w' /\
    same_params h h' /\ hf_rep w' h' n i' hdr' T' (spec_step h M o).1.
Proof.
  intros Hr Hsm Hx Hq. destruct o as [x|x b|x]; cbn [hf_step op_arg spec_step fst snd] in *.
  - destruct (hfile_lookup_ok w h n i hdr T M x Hr Hx) as (w' & h' & y & r & -> & Hm & (e & ->) & Hy).
    destruct r; [|done]. rewrite Hy. exists w', (set_element h e), i, hdr, T.
    split_and!; [done|by eapply moved_quiet|done..|]. by apply hf_rep_element, (hf_rep_moved w).
  - pose proof (hfile_expand_ok w h n i hdr T M Hr Hsm) as He. unfold hfile_insert.
    destruct (hfile_expand w h) as [[[w1 h1] []]| |]; cbn in He; [|by destruct He|done|done].
    destruct He as (Hq1 & (e & s & a & c & Eh) & i1 & hdr1 & T1 & Hr1 & Hroom). cbn [mbind res_bind negb].
    destruct (insert_expanded_ok w1 h1 n i1 hdr1 T1 M x b Hr1 Hx Hroom (Hq1 Hq))
      as (w2 & h2 & hdr2 & T2 & -> & Hq2 & Hp2 & Hr2).
    assert (same_params h h1) as Hp1 by by subst h1.
    exists w2, h2, i1, hdr2, T2. split_and!; [done|done|by destruct (same_params_trans _ _ _ Hp1 Hp2) as (?&?&?&?&?)..|].
    assert (insert_result h1 M x b = insert_result h M x b) as <-; [|done].
    by apply (f_equal fst (spec_step_params h h1 M (OpInsert x b) Hp1)).
  - pose proof (hfile_expand_ok w h n i hdr T M Hr Hsm) as He. unfold hfile_delete.
    destruct (hfile_expand w h) as [[[w1 h1] []]| |]; cbn in He; [|by destruct He|done|done].
    destruct He as (Hq1 & (e & s & a & c & Eh) & i1 & hdr1 & T1 & Hr1 & Hroom). cbn [mbind res_bind negb].
    destruct (delete_expanded_ok w1 h1 n i1 hdr1 T1 M x Hr1 Hx (Hq1 Hq))
      as (w2 & h2 & hdr2 & T2 & -> & Hq2 & Hp2 & Hr2).
    assert (same_params h h1) as Hp1 by by subst h1.
    pose proof (spec_step_params h h1 M (OpDelete x) Hp1) as [= E1 E2]. cbn in E1, E2. rewrite E2.
    exists w2, h2, i1, hdr2, T2. split_and!; [done|done|by destruct (same_params_trans _ _ _ Hp1 Hp2) as (?&?&?&?&?)..|].
    by rewrite <-E1.
Qed.

Lemma spec_step_size h M o : (size (spec_step h M o).1 <= S (size M))%nat.
Proof.
  destruct o as [x|x b|x]; cbn; [lia| |].
  - unfold insert_result. rewrite map_size_insert. destruct (M !! _); cbn; lia.
  - unfold delete_result. rewrite map_size_delete. destruct (M !! _); cbn; lia.
Qed.

Lemma hf_run_ok ops : forall w h n i hdr T M, hf_rep w h n i hdr T M ->
  Z.of_nat (size M) + Z.of_nat (length ops) < 2 ^ 29 -> Forall (fun o => length (op_arg o) = n) ops ->
  quiet w ->
  exists w' h', hf_run w h ops = Ok (w', h', (fun y => (y, true)) <$> (spec_run h M ops).2) /\ quiet w' /\
    same_params h h' /\ hfile_ok w' h' (spec_run h M ops).1.
Proof.
  induction ops as [|o ops IH]; intros w h n i hdr T M Hr Hsm Hops Hq.
  { exists w, h. split_and!; [done..|]. by exists n, i, hdr, T. }
  apply Forall_cons in Hops as [Ho Hops]. cbn [hf_run spec_run length] in *.
  destruct (hf_step_ok w h n i hdr T M o Hr ltac:(lia) Ho Hq) as (w1 & h1 & i1 & hdr1 & T1 & -> & Hq1 & Hp & Hr1).
  pose proof (spec_step_size h M o) as Hsz. destruct (spec_step h M o) as [M1 y]. cbn [fst snd] in *.
  destruct (IH w1 h1 n i1 hdr1 T1 M1) as (w2 & h2 & E & Hq2 & Hp2 & Hok); [done|lia|done|done|].
  cbn [mbind res_bind]. rewrite E. cbn [mbind res_bind]. rewrite (spec_run_params h h1 M1 ops Hp) in *.
  destruct (spec_run h M1 ops) as [M2 l]. exists w2, h2. split; [done|]. split; [done|].
  split; [by eapply same_params_trans|done].
Qed.

(** C17. A hash file is a finite map: any sequence of lookups, insertions (of whole
    elements or of bases only) and deletions answers as the map does and ends,
    as long as the map has fewer than 2^29 keys and no system call fails; growing,
    shrinking and the reuse of deleted slots are invisible. *)
Theorem hfile_refines_map w h M ops :
  hfile_ok w h M -> quiet w -> Z.of_nat (size M) + Z.of_nat (length ops) < 2 ^ 29 ->
  Forall (fun o => Z.of_nat (length (op_arg o)) = element_size h) ops ->
  exists w' h', hf_run w h ops = Ok (w', h', (fun y => (y, true)) <$> (spec_run h M ops).2) /\ quiet w' /\
    same_params h h' /\ hfile_ok w' h' (spec_run h M ops).1.
Proof.
  intros (n & i & hdr & T & Hr) Hq Hsm Hops. apply (hf_run_ok ops w h n i hdr T M Hr Hsm); [|done].
  pose proof (conf_size _ _ (hr_conf Hr)) as He. eapply Forall_impl; [exact Hops|]. cbn. lia.
Qed.

(** Whatever system calls fail, a lookup ends, leaves the file and the map as
    they are, and answers wrongly only by returning false. *)
Theorem hfile_lookup_faults w h M x :
  hfile_ok w h M -> Z.of_nat (length x) = element_size h ->
  exists w' h' y r, hfile_lookup w h x = Ok (w', h', y, r) /\ hfile_ok w' h' M /\
    files w' = files w /\ names w' = names w /\ (r = true -> y = lookup_result h M x) /\ (quiet w -> r = true).
Proof.
  intros (n & i & hdr & T & Hr) Hx. pose proof (conf_size _ _ (hr_conf Hr)) as He.
  destruct (hfile_lookup_ok w h n i hdr T M x Hr ltac:(lia)) as (w' & h' & y & r & -> & Hm & (e & ->) & Hy).
  exists w', (set_element h e), y, r. pose proof Hm as [(F1 & F2 & _) _].
  split_and!; [done| |done|done|by destruct r|by destruct r].
  exists n, i, hdr, T. by apply hf_rep_element, (hf_rep_moved w).
Qed.

(** C18. Growing or shrinking under any failures, by how far [hfile_expand] gets.  When
    nothing has to be done the table is left alone; when the new file cannot be opened
    or cannot be filled, which takes a failing call, the call reports it and the old file
    is still in use, through the same descriptor, with the same map.  Once the new file
    is filled, a failing [dup2] aborts the daemon; a failing [rename] is reported with the
    table's own descriptor closed; and otherwise the call succeeds and the new file
    represents the same map, with room for another element. *)
Theorem hfile_expand_faults w h M :
  hfile_ok w h M -> Z.of_nat (size M) < 2 ^ 29 ->
  exists w1 h1 p, expand_prepare w h = Ok (w1, h1, p) /\
    match p with
    | Unneeded => hfile_expand w h = Ok (w, h, true) /\ n_elements h + 1 < hf_size h
    | NotOpened | Unfilled => ~ quiet w /\
        exists w' h', hfile_expand w h = Ok (w', h', false) /\ fd h' = fd h /\ hfile_ok w' h' M
    | Filled =>
        if next_fails (script w1) then hfile_expand w h = Aborted
        else if next_fails (tail (script w1)) then
          exists w' h', hfile_expand w h = Ok (w', h', false) /\ fd h' = fd h /\ fds w' !! fd h = None
        else
          exists w' h', hfile_expand w h = Ok (w', h', true) /\ fd h' = fd h /\ hfile_ok w' h' M /\
            n_elements h' + 1 < hf_size h'
    end.
Proof.
  intros (n & i & hdr & T & Hr) Hsm. destruct (hfile_expand_cases w h n i hdr T M Hr Hsm) as (w1 & h1 & p & E & Hp).
  exists w1, h1, p. split; [done|].
  assert (~ quiet w /\ expand_failed w h n i hdr T M (hfile_expand w h) -> ~ quiet w /\
    exists w' h', hfile_expand w h = Ok (w', h', false) /\ fd h' = fd h /\ hfile_ok w' h' M) as Hf.
  { intros (Hq & w' & h' & E' & (e & ->) & Hr'). split; [done|]. exists w', (set_element h e).
    split_and!; [done|done|]. by exists n, i, hdr, T. }
  destruct p; [|by apply Hf..|].
  - destruct Hp as [-> Hroom]. split; [done|]. by rewrite (hr_used Hr), (hr_size Hr).
  - destruct Hp as [_ Hc]. unfold expand_committed in Hc. destruct (next_fails _); [done|].
    destruct (next_fails _); destruct Hc as (w' & h' & -> & Hc).
    + destruct Hc as ((e & ->) & Hfd). by exists w', (set_element h e).
    + destruct Hc as (_ & (e & s & a & b & ->) & i' & hdr' & T' & Hr' & Hroom).
      eexists _, _. split; [reflexivity|]. split; [done|]. split; [by exists n, i', hdr', T'|].
      by rewrite (hr_used Hr'), (hr_size Hr').
Qed.

(** ** Opening an existing file *)

Lemma header_values n d l : is_u32 n -> is_u32 d -> take 8 l = encode_header n d ->
  le_value (take 4 (take 8 l)) = n /\ le_value (drop 4 (take 8 l)) = d.
Proof.
  intros Hn Hd ->. unfold encode_header. rewrite take_app_length', drop_app_length' by done.
  rewrite !le_value_bytes. unfold is_u32 in *. split; apply Z.mod_small; done.
Qed.

Lemma hfile_init_ok w h d n i hdr T M w1 h1 : hf_rep w h n i hdr T M -> quiet w1 ->
  files w1 = files w -> names w1 = names w -> fds w1 !! d = Some (i, 0%nat) -> 0 <= d ->
  (exists e s a b g, h1 = MkHfile e (element_size h) (base_size h) s a b (hash_f h) (eq_f h) (decode_f h)
     (encode_f h) (file_name h) d g) ->
  exists w2 h2 st, hfile_init w1 h1 = Ok (w2, h2, st, true) /\ quiet w2 /\ same_params h h2 /\ hfile_ok w2 h2 M.
Proof.
  intros Hr Hq Hf Hn Hd Hd0 (e & s & a & b & g & ->). unfold hfile_init. cbn [fd].
  rewrite (proj2 (Z.ltb_ge d 0)) by lia. pose proof (hr_disk Hr) as [_ Df Dh Dw Dn].
  pose proof (hr_conf Hr) as [He Hnb Hb Hfd0]. pose proof (hf_size_bounds _ _ _ _ _ _ _ Hr) as Hsb.
  pose proof (hr_size Hr) as Hs. pose proof (length_image n hdr T Dh ltac:(lia) Dw) as Hli.
  unfold fstat. edestruct (syscall_cases w1 (None (A := stat))) as (w2 & (A1 & A2 & A3) & A4 & [-> |[? _]]); [|done].
  assert (fd_inode w2 d = Some (i, 0%nat, Inode true (image n hdr T))) as ->.
  { unfold fd_inode. rewrite A4, Hd. cbn [mbind option_bind]. by rewrite A1, Hf, Df. }
  cbn [i_reg i_data st_reg st_size negb element_size]. rewrite (proj2 (Z.ltb_ge _ (element_size h))) by nia.
  destruct (fd_read_ok w2 d i 0 (Inode true (image n hdr T)) 8) as (w3 & r & Er & (B1 & B2 & B3) & Hpost).
  { by rewrite A4. }
  { by rewrite A1, Hf. }
  { cbn [i_data]. nia. }
  change (Z.to_nat HEADER_SIZE) with 8%nat. rewrite Er. cbn [mbind res_bind].
  destruct r as [header|]; [|destruct Hpost as [Hnq _]; exfalso; auto].
  destruct Hpost as [-> Hfds]. cbn [app i_data length] in *. rewrite Nat.sub_0_r in *.
  assert (read_at (image n hdr T) 0 8 = take 8 hdr) as ->.
  { unfold read_at, image. rewrite drop_0. cbn [concat]. rewrite take_app_le by lia. done. }
  pose proof (count_bounds used T). pose proof (count_bounds is_deleted T). pose proof (hr_room Hr).
  destruct (header_values (n_elements h) (n_deleted h) hdr) as [-> ->]; [unfold is_u32; rewrite ?(hr_used Hr), ?(hr_del Hr); lia..|apply (hr_head Hr)|].
  cbn [set_counts set_size element_size].
  assert (u32 ((Z.of_nat (length (image n hdr T)) - element_size h) / element_size h) = hf_size h) as ->.
  { rewrite Hli, He, Hs. replace (Z.of_nat ((length T + 1) * n) - Z.of_nat n) with (Z.of_nat (length T) * Z.of_nat n) by lia.
    rewrite Z.div_mul, wrap_small by lia. done. }
  eexists w3, _, _. split; [done|]. split; [auto|]. split; [done|]. exists n, i, hdr, T.
  destruct Hr as [Hc ? ? ? ? _ ? ? ? ? ? ? ? ? ?]. unfold new_name in *.
  split; cbn [set_counts set_size element_size base_size hash_f eq_f decode_f encode_f fd file_name hf_size n_elements n_deleted]; try done.
  - split; [exists 8%nat; by rewrite Hfds, lookup_insert_eq|by rewrite B1, A1, Hf|done..].
  - rewrite B2, A2, Hn. done.
  - unfold new_name. cbn [file_name]. rewrite B2, A2, Hn. done.
Qed.

(** A hash file survives a restart: closing the descriptor, creating the
    structure again and opening the file gives a hash file with the same map,
    whatever the size given to [hfile_create]. *)
Theorem hfile_reopen w h M size0 :
  hfile_ok w h M -> quiet w ->
  exists h0 w1 d w2 h2 st,
    hfile_create (element_size h) (base_size h) size0 (hash_f h) (eq_f h) (decode_f h) (encode_f h)
      (file_name h) = Ok h0 /\
    open_rdwr (close w (fd h)) (file_name h) = (w1, d) /\
    hfile_init w1 (set_fd h0 d) = Ok (w2, h2, st, true) /\ same_params h h2 /\ hfile_ok w2 h2 M.
Proof.
  intros (n & i & hdr & T & Hr) Hq. pose proof (hr_conf Hr) as [He Hn Hb Hfd]. unfold hfile_create.
  unfold HEADER_SIZE. rewrite (proj2 (Z.ltb_ge (element_size h) 8)), (proj2 (Z.ltb_ge HFILE_BUFFER_SIZE _)),
    (proj2 (Z.ltb_ge (element_size h) _)) by lia.
  eexists. unfold open_rdwr.
  edestruct (syscall_cases (close w (fd h)) (-1)) as (w1 & (A1 & A2 & A3) & A4 & [-> |[? _]]); [|done].
  cbn in A1, A2. rewrite A2, (hr_name Hr). set (d := fresh_fd w1). set (w2 := set_fds _ _).
  destruct (hfile_init_ok w h d n i hdr T M w2 (set_fd (MkHfile [] (element_size h) (base_size h) size0 0 0
    (hash_f h) (eq_f h) (decode_f h) (encode_f h) (file_name h) (-1) 0) d)) as (w3 & h3 & st & E & _ & Hp & Hok).
  1: done.
  1: by apply A3.
  1, 2: done.
  1: cbn; by rewrite lookup_insert_eq.
  1: apply fresh_fd_nonneg.
  1: by eexists [], size0, 0, 0, 0.
  exists w2, d, w3, h3, st. split_and!; [done|done|exact E|apply Hp..|done].
Qed.

(** A header followed by zeros is an empty table. *)
Lemma hf_rep_fresh w h n i p N hdr : conf h n -> base = Z.to_nat (base_size h) -> hash_f h = hash ->
  eq_f h = eq -> codec_ok h n -> fds w !! fd h = Some (i, p) ->
  files w !! i = Some (Inode true (hdr ++ replicate (N * n) 0)) -> length hdr = n ->
  take 8 hdr = encode_header 0 0 ->
  names w !! file_name h = Some i -> names w !! new_name h <> Some i ->
  hf_size h = Z.of_nat N -> (exists j, 1 <= j <= 31 /\ hf_size h = 2 ^ j) ->
  n_elements h = 0 -> n_deleted h = 0 ->
  hf_rep w h n i hdr (replicate N SEmpty) ∅.
Proof.
  intros Hc Hb Hh He Hcd Hfd Hf Hhl Hhd Hn Hnn Hs Hp Hu Hd. pose proof (conf_n _ _ Hc).
  assert (2 <= hf_size h) as Hs2.
  { destruct Hp as (j & Hj & ->). apply (Z.pow_le_mono_r 2 1 j); lia. }
  split; rewrite ?length_replicate, ?count_replicate by done; try done; try lia; try apply table_empty.
  - split; [by eauto| |done|by apply Forall_replicate|lia]. rewrite Hf. do 2 f_equal. unfold image. cbn [concat].
    f_equal. apply (app_inv_head (replicate n 0)). rewrite <-replicate_add.
    change (replicate n 0 ++ concat (slot_bytes n <$> replicate N SEmpty)) with (image n (replicate n 0) (replicate N SEmpty)).
    rewrite image_zero by lia. f_equal. lia.
  - by rewrite Hu, Hd.
Qed.

(** ** A full table

    A search for a key that is not in a table without empty slots never ends. *)
Lemma full_table_loops fuel : forall w h i n hdr T elem insert hm d fdel,
  conf h n -> disk w (fd h) i n hdr T -> eq_f h = eq -> 0 < Z.of_nat (length T) < 2 ^ 32 -> quiet w ->
  (forall j, ~ stops vkey T (hkey elem) j) ->
  find_slot_from fuel w h elem insert (Z.of_nat (length T)) (Z.of_nat (probe T hm d)) fdel = OutOfFuel.
Proof.
  induction fuel as [|fuel IH]; intros w h i n hdr T elem insert hm d fdel Hc Hd He HT Hq Hno; [done|].
  destruct (lookup_lt_is_Some_2 T (probe T hm d)) as [s Hs]; [apply probe_lt; lia|].
  cbn [find_slot_from].
  destruct (read_element_ok w h i n hdr T _ s Hc Hd Hs ltac:(lia)) as (w1 & h1 & st & -> & Hm & Hst).
  cbn [mbind res_bind]. destruct Hst as [(_ & _ & ?)|[-> ->]]; [done|].
  assert (forall fd', find_slot_from fuel w1 (set_element h (slot_bytes n s)) elem insert (Z.of_nat (length T))
    (next_idx (Z.of_nat (probe T hm d)) (Z.of_nat (length T))) fd' = OutOfFuel) as Hnext.
  { intros fd'. rewrite next_idx_is_probe by lia. eapply IH; [by destruct Hc|by eapply disk_moved|done|done| |done].
    by eapply moved_quiet. }
  destruct s as [| |v]; cbn [slot_status]; cbn -[find_slot_from slot_bytes].
  - destruct (Hno (probe T hm d)). by left.
  - apply Hnext.
  - destruct (eq_f h _ elem) eqn:E; [|apply Hnext]. exfalso. apply (Hno (probe T hm d)). right. exists v.
    split; [done|]. by rewrite He, hkey_eq in E.
Qed.
End search.

(** ** A small hash file, for the examples: elements of 12 bytes whose key is the
    word after the status *)

Definition small_key (x : list Z) : list Z := take 4 (drop 4 x).
Definition small_hash (x : list Z) : Z := u32 (le_value (small_key x)).
Definition small_eq (x y : list Z) : bool := bool_decide (small_key x = small_key y).

#[local] Instance small_keys : HfileKeys (list Z) 8 small_hash small_eq.
Proof.
  refine {| hkey := small_key |}.
  - intros x y. apply bool_decide_eq_true.
  - intros x y E. unfold small_hash. by rewrite E.
  - intros x. apply wrap_range. lia.
  - intros s x Hs. unfold small_key. by rewrite drop_app_length'.
  - intros x y E. unfold small_key. rewrite !take_drop_commute. cbn. by rewrite E.
Defined.

Definition small_file (size : nat) : list Z := replicate ((size + 1) * 12) 0.
Definition small_world (size : nat) (s : list outcome) : world :=
  World {[ 0%nat := Inode true (small_file size) ]} {[ "table"%string := 0%nat ]}
    {[ 5 := (0%nat, 0%nat) ]} 0 s.
Definition small_hfile (size : Z) : hfile :=
  MkHfile [] 12 8 size 0 0 small_hash small_eq None None "table" 5 0.
Definition small_elem (k v : Z) : list Z := le_bytes 4 EMPTY_SLOT ++ le_bytes 4 k ++ le_bytes 4 v.

Lemma small_ok s : hfile_ok (small_world 4 s) (small_hfile 4) ∅.
Proof.
  exists 12%nat, 0%nat, (replicate 12 0), (replicate 4 SEmpty).
  apply (hf_rep_fresh _ _ 12 0 0 4 (replicate 12 0)); try done.
  by exists 2.
Qed.

Lemma hfile_refines_map_witness :
  let ops := [OpInsert (small_elem 1 7) false; OpInsert (small_elem 5 8) false; OpInsert (small_elem 2 9) false;
    OpDelete (small_elem 1 0); OpInsert (small_elem 5 0) true; OpLookup (small_elem 5 0);
    OpLookup (small_elem 1 0)] in
  let answers := (spec_run (small_hfile 4) ∅ ops).2 in
  drop 4 answers = [set_status (small_elem 5 0) VALID_SLOT; set_status (small_elem 5 8) VALID_SLOT;
    small_elem 1 0] /\
  exists w' h', hf_run (small_world 4 [Short 2; Interrupt]) (small_hfile 4) ops
    = Ok (w', h', (fun y => (y, true)) <$> answers) /\ quiet w' /\ same_params (small_hfile 4) h' /\
    hfile_ok w' h' (spec_run (small_hfile 4) ∅ ops).1.
Proof.
  intros ops answers. split; [vm_compute; reflexivity|].
  apply (hfile_refines_map (small_world 4 [Short 2; Interrupt]) (small_hfile 4) ∅ ops).
  - apply small_ok.
  - repeat constructor.
  - vm_compute. reflexivity.
  - repeat constructor.
Defined.

Lemma hfile_lookup_faults_witness :
  exists w' h' y, hfile_lookup (small_world 4 [Pass; Fail EIO]) (small_hfile 4) (small_elem 1 0)
      = Ok (w', h', y, false) /\ hfile_ok w' h' ∅.
Proof.
  destruct (hfile_lookup_faults (small_world 4 [Pass; Fail EIO]) (small_hfile 4) ∅ (small_elem 1 0))
    as (w' & h' & y & r & E & Hok & _); [apply small_ok|reflexivity|].
  exists w', h', y. split; [|exact Hok]. rewrite E.
  assert (r = false) as ->; [|reflexivity].
  change r with (match Ok (w', h', y, r) with Ok (_, _, _, r) => r | _ => true end).
  rewrite <-E. vm_compute. reflexivity.
Defined.

(** A table of two slots with one element has to grow; [rename] fails. *)
Lemma small_grow s : let h := set_counts (small_hfile 2) 1 0 in
  let e := le_bytes 4 VALID_SLOT ++ le_bytes 4 1 ++ le_bytes 4 7 in
  let w := World {[ 0%nat := Inode true (encode_header 1 0 ++ replicate 16 0 ++ e) ]}
    {[ "table"%string := 0%nat ]} {[ 5 := (0%nat, 0%nat) ]} 0 s in
  hfile_ok w h {[ [1; 0; 0; 0] := [1; 0; 0; 0; 7; 0; 0; 0] ]}.
Proof.
  intros h e w. exists 12%nat, 0%nat, (encode_header 1 0 ++ replicate 4 0),
    [SEmpty; SValid [1; 0; 0; 0; 7; 0; 0; 0]].
  split; try done.
  - split; [by exists 0%nat|done|done|by repeat constructor|lia].
  - by exists 1.
  - set (v := [1; 0; 0; 0; 7; 0; 0; 0]). pose (vk := vkey (hash := small_hash)).
    pose (vh := vhash (hash := small_hash)).
    assert (probe [SEmpty; SEmpty] (vh v) 0 = 1%nat) as Hp by (vm_compute; reflexivity).
    assert (table_rep vk vh (<[probe [SEmpty; SEmpty] (vh v) 0 := SValid v]> [SEmpty; SEmpty])
      (<[vk v := v]> ∅)) as Ht.
    { apply table_store; [apply (table_empty vk vh 2)|cbn; lia|lia|intros [|[|[]]] v'; done|by rewrite Hp]. }
    by rewrite Hp in Ht.
Qed.

(** The calls of that expansion are numbered from one: the first opens the new file, the
    second to the ninth fill it, the tenth is [dup2] and the eleventh [rename]. *)
Example expand_calls :
  let h := set_counts (small_hfile 2) 1 0 in
  let e := le_bytes 4 VALID_SLOT ++ le_bytes 4 1 ++ le_bytes 4 7 in
  let try_ k := hfile_expand (World {[ 0%nat := Inode true (encode_header 1 0 ++ replicate 16 0 ++ e) ]}
    {[ "table"%string := 0%nat ]} {[ 5 := (0%nat, 0%nat) ]} 0 (replicate k Pass ++ [Fail EIO])) h in
  (fun r => match r with Ok (w, h, r) => Some (r, fds w !! fd h) | _ => None end) <$> [try_ 0; try_ 8; try_ 9; try_ 10; try_ 11]%nat =
  [Some (false, Some (0%nat, 0%nat)); Some (false, Some (0%nat, 36%nat)); None; Some (false, None); Some (true, Some (1%nat, 36%nat))].
Proof. vm_compute. reflexivity. Qed.

(** The seek to the empty slot of the new file fails. *)
Lemma hfile_expand_faults_witness :
  let h := set_counts (small_hfile 2) 1 0 in
  let e := le_bytes 4 VALID_SLOT ++ le_bytes 4 1 ++ le_bytes 4 7 in
  let w := World {[ 0%nat := Inode true (encode_header 1 0 ++ replicate 16 0 ++ e) ]}
    {[ "table"%string := 0%nat ]} {[ 5 := (0%nat, 0%nat) ]} 0
    (replicate 7 Pass ++ [Fail EIO]) in
  exists w' h', hfile_expand w h = Ok (w', h', false) /\
    hfile_ok w' h' {[ [1; 0; 0; 0] := [1; 0; 0; 0; 7; 0; 0; 0] ]}.
Proof.
  intros h e w.
  destruct (hfile_expand_faults w h _ (small_grow _) ltac:(vm_compute; reflexivity)) as (w1 & h1 & p & E & Hp).
  assert (p = Unfilled) as Ep.
  { change p with (match Ok (w1, h1, p) with Ok (_, _, p) => p | _ => Unneeded end). rewrite <-E. vm_compute. reflexivity. }
  rewrite Ep in Hp. destruct Hp as (_ & w' & h' & E' & _ & Hok). exists w', h'. split; [exact E'|exact Hok].
Defined.

Lemma hfile_reopen_witness :
  exists h0 w1 d w2 h2 st,
    hfile_create 12 8 32 small_hash small_eq None None "table" = Ok h0 /\
    open_rdwr (close (small_world 4 []) 5) "table" = (w1, d) /\
    hfile_init w1 (set_fd h0 d) = Ok (w2, h2, st, true) /\ hf_size h2 = 4 /\ hfile_ok w2 h2 ∅.
Proof.
  destruct (hfile_reopen (small_world 4 []) (small_hfile 4) ∅ 32 (small_ok []))
    as (h0 & w1 & d & w2 & h2 & st & E1 & E2 & E3 & _ & Hok); [repeat constructor|].
  exists h0, w1, d, w2, h2, st. split_and!; [exact E1|exact E2|exact E3| |exact Hok].
  injection E1 as <-.
  change (hf_size h2) with (match Ok (w2, h2, st, true) with Ok (_, h, _, _) => hf_size h | _ => 0 end).
  rewrite <-E3. change d with (w1, d).2. change w1 with (w1, d).1 at 1. rewrite <-E2. vm_compute. reflexivity.
Defined.

(** ** Failures that are counted wrongly

    [hfile_insert_error] takes an element off the counter even when the element
    replaced an older one.  After three failures to write the header the table of
    four slots is full while the counter is 1, the table does not grow, and the
    search for a key that is not there never ends. *)
Definition miscount_ops : list hf_op :=
  [OpInsert (small_elem 0 7) false; OpInsert (small_elem 0 8) false;
   OpInsert (small_elem 1 7) false; OpInsert (small_elem 1 8) false;
   OpInsert (small_elem 2 7) false; OpInsert (small_elem 2 8) false;
   OpInsert (small_elem 3 7) false].

Definition miscount_script : list outcome :=
  let fails := replicate 11 Pass ++ [Fail EIO] in fails ++ fails ++ fails.

(** A failed write of the header is counted as a removed element even if the
    insertion replaced an element: after three such failures (of seven
    insertions) all four slots are used, the counter is 1, and looking up an
    absent key loops whatever the number of probes, without any further failure. *)
Theorem insert_error_fills_table :
  exists w h l, hf_run (small_world 4 miscount_script) (small_hfile 4) miscount_ops = Ok (w, h, l) /\
    l.*2 = [true; false; true; false; true; false; true] /\ quiet w /\ n_elements h = 1 /\ hf_size h = 4 /\
    forall fuel, find_slot_from fuel w h (small_elem 4 0) false 4 0 0 = OutOfFuel.
Proof.
  set (r := hf_run (small_world 4 miscount_script) (small_hfile 4) miscount_ops).
  assert (match r with Ok _ => True | _ => False end) as Hr by (vm_compute; exact I).
  destruct r as [[[w h] l]| |] eqn:E; [|destruct Hr|destruct Hr]. clear Hr. exists w, h, l.
  assert (forall A (f : world -> hfile -> list (list Z * bool) -> A) (x y : A),
    match r with Ok (w, h, l) => f w h l | _ => x end = y -> f w h l = y) as Hget.
  { intros A f x y <-. rewrite E. reflexivity. }
  split; [done|]. split; [apply (Hget _ (fun _ _ l => l.*2) []); vm_compute; reflexivity|].
  assert (script w = []) as Hq by (apply (Hget _ (fun w _ _ => script w) [Pass]); vm_compute; reflexivity).
  assert (quiet w) as Hquiet by (unfold quiet; by rewrite Hq).
  split; [done|].
  split; [apply (Hget _ (fun _ h _ => n_elements h) 0); vm_compute; reflexivity|].
  split; [apply (Hget _ (fun _ h _ => hf_size h) 0); vm_compute; reflexivity|].
  pose (T := [SValid [0; 0; 0; 0; 8; 0; 0; 0]; SValid [1; 0; 0; 0; 8; 0; 0; 0];
    SValid [2; 0; 0; 0; 8; 0; 0; 0]; SValid [3; 0; 0; 0; 7; 0; 0; 0]]).
  assert (fd h = 5) as Hfd by (apply (Hget _ (fun _ h _ => fd h) 0); vm_compute; reflexivity).
  intros fuel.
  apply (full_table_loops (eq := small_eq) fuel w h 0 12 (encode_header 1 0 ++ replicate 4 0) T
    (small_elem 4 0) false 0 0 0).
  - split; [apply (Hget _ (fun _ h _ => element_size h) 0); vm_compute; reflexivity|unfold HFILE_BUFFER_SIZE; lia| |lia].
    assert ((base_size h, element_size h) = (8, 12)) as [= -> ->]; [|lia].
    apply (Hget _ (fun _ h _ => (base_size h, element_size h)) (0, 0)); vm_compute; reflexivity.
  - rewrite Hfd. split; [exists 8%nat| |done|by repeat constructor|lia].
    + apply (Hget _ (fun w _ _ => fds w !! 5) None); vm_compute; reflexivity.
    + apply (Hget _ (fun w _ _ => files w !! 0%nat) None); vm_compute; reflexivity.
  - apply (Hget _ (fun _ h _ => eq_f h) small_eq); vm_compute; reflexivity.
  - split; reflexivity.
  - exact Hquiet.
  - intros [|[|[|[|j]]]] [[=]|(v & [= <-] & Hk)]; vm_compute in Hk; discriminate Hk.
Qed.
