(* ===== verification/Md5.v ===== *)
(** The MD5 message digest of [src/zfsd/lib/md5/md5.c], with which a node finds
    out which blocks of a file differ from the master's: the context, its
    initialisation, the buffered update, and the two ways of finishing.

    The machine is little-endian, so [byteReverse] does nothing and the words of a
    block are the little-endian values of its bytes.  The last part shows that
    feeding a message piece by piece gives the digest of the whole message as the
    algorithm defines it. *)

From S2P Require Import Prelude.
#[local] Open Scope zfs_scope.
#[local] Open Scope Z_scope.

(** ** The compression function *)

Definition hash_state : Type := Z * Z * Z * Z.

Definition F1 (x y z : Z) : Z := Z.lxor z (Z.land x (Z.lxor y z)).
Definition F2 (x y z : Z) : Z := F1 z x y.
Definition F3 (x y z : Z) : Z := Z.lxor (Z.lxor x y) z.
Definition F4 (x y z : Z) : Z := Z.lxor y (Z.lor x (u32 (Z.lnot z))).

(** The new value of [w]. *)
Definition MD5STEP (f : Z -> Z -> Z -> Z) (w x y z data s : Z) : Z :=
  let w := u32 (w + u32 (f x y z + data)) in
  let w := Z.lor (u32 (Z.shiftl w s)) (Z.shiftr w (32 - s)) in
  u32 (w + x).

(** Function, index of the word, constant and rotation of each step; the registers
    [a, b, c, d] take the roles of [w, x, y, z] in turn. *)
Definition steps : list ((Z -> Z -> Z -> Z) * nat * Z * Z) :=
  [
    (F1, 0%nat, 0xd76aa478, 7); (F1, 1%nat, 0xe8c7b756, 12); (F1, 2%nat, 0x242070db, 17); (F1, 3%nat, 0xc1bdceee, 22);
    (F1, 4%nat, 0xf57c0faf, 7); (F1, 5%nat, 0x4787c62a, 12); (F1, 6%nat, 0xa8304613, 17); (F1, 7%nat, 0xfd469501, 22);
    (F1, 8%nat, 0x698098d8, 7); (F1, 9%nat, 0x8b44f7af, 12); (F1, 10%nat, 0xffff5bb1, 17); (F1, 11%nat, 0x895cd7be, 22);
    (F1, 12%nat, 0x6b901122, 7); (F1, 13%nat, 0xfd987193, 12); (F1, 14%nat, 0xa679438e, 17); (F1, 15%nat, 0x49b40821, 22);
    (F2, 1%nat, 0xf61e2562, 5); (F2, 6%nat, 0xc040b340, 9); (F2, 11%nat, 0x265e5a51, 14); (F2, 0%nat, 0xe9b6c7aa, 20);
    (F2, 5%nat, 0xd62f105d, 5); (F2, 10%nat, 0x02441453, 9); (F2, 15%nat, 0xd8a1e681, 14); (F2, 4%nat, 0xe7d3fbc8, 20);
    (F2, 9%nat, 0x21e1cde6, 5); (F2, 14%nat, 0xc33707d6, 9); (F2, 3%nat, 0xf4d50d87, 14); (F2, 8%nat, 0x455a14ed, 20);
    (F2, 13%nat, 0xa9e3e905, 5); (F2, 2%nat, 0xfcefa3f8, 9); (F2, 7%nat, 0x676f02d9, 14); (F2, 12%nat, 0x8d2a4c8a, 20);
    (F3, 5%nat, 0xfffa3942, 4); (F3, 8%nat, 0x8771f681, 11); (F3, 11%nat, 0x6d9d6122, 16); (F3, 14%nat, 0xfde5380c, 23);
    (F3, 1%nat, 0xa4beea44, 4); (F3, 4%nat, 0x4bdecfa9, 11); (F3, 7%nat, 0xf6bb4b60, 16); (F3, 10%nat, 0xbebfbc70, 23);
    (F3, 13%nat, 0x289b7ec6, 4); (F3, 0%nat, 0xeaa127fa, 11); (F3, 3%nat, 0xd4ef3085, 16); (F3, 6%nat, 0x04881d05, 23);
    (F3, 9%nat, 0xd9d4d039, 4); (F3, 12%nat, 0xe6db99e5, 11); (F3, 15%nat, 0x1fa27cf8, 16); (F3, 2%nat, 0xc4ac5665, 23);
    (F4, 0%nat, 0xf4292244, 6); (F4, 7%nat, 0x432aff97, 10); (F4, 14%nat, 0xab9423a7, 15); (F4, 5%nat, 0xfc93a039, 21);
    (F4, 12%nat, 0x655b59c3, 6); (F4, 3%nat, 0x8f0ccc92, 10); (F4, 10%nat, 0xffeff47d, 15); (F4, 1%nat, 0x85845dd1, 21);
    (F4, 8%nat, 0x6fa87e4f, 6); (F4, 15%nat, 0xfe2ce6e0, 10); (F4, 6%nat, 0xa3014314, 15); (F4, 13%nat, 0x4e0811a1, 21);
    (F4, 4%nat, 0xf7537e82, 6); (F4, 11%nat, 0xbd3af235, 10); (F4, 2%nat, 0x2ad7d2bb, 15); (F4, 9%nat, 0xeb86d391, 21)].

Definition step (input : list Z) (r : hash_state) (st : (Z -> Z -> Z -> Z) * nat * Z * Z) : hash_state :=
  let '(w, x, y, z) := r in
  let '(f, i, k, s) := st in
  let w := MD5STEP f w x y z (u32 (nth i input 0 + k)) s in
  (z, w, x, y).

Definition MD5Transform (buf : hash_state) (input : list Z) : hash_state :=
  let '(a, b, c, d) := foldl (step input) buf steps in
  let '(a0, b0, c0, d0) := buf in
  (u32 (a0 + a), u32 (b0 + b), u32 (c0 + c), u32 (d0 + d)).

(** ** The context *)

Record MD5Context := MkMD5 { md_buf : hash_state; md_bits0 : Z; md_bits1 : Z; md_in : list Z }.

(** The array [in] read as 16 words. *)
Definition words (b : list Z) : list Z := map (fun i => le_value (take 4 (drop (4 * i) b))) (seq 0 16).

(** [memcpy] or [memset] of some bytes at a position of the array [in]. *)
Definition put_bytes (b : list Z) (pos : nat) (x : list Z) : list Z :=
  take pos b ++ x ++ drop (pos + length x) b.

(** The array is not initialised: [junk] is what it contains. *)
Definition MD5Init (junk : list Z) : MD5Context :=
  MkMD5 (0x67452301, 0xefcdab89, 0x98badcfe, 0x10325476) 0 0 junk.

(** The loop over whole blocks: it leaves the last block in [in]. *)
Fixpoint update_blocks (n : nat) (h : hash_state) (b data : list Z) : hash_state * list Z * list Z :=
  match n with
  | O => (h, b, data)
  | S n => update_blocks n (MD5Transform h (words (take 64 data))) (take 64 data) (drop 64 data)
  end.

Definition MD5Update (ctx : MD5Context) (data : list Z) : MD5Context :=
  let len := Z.of_nat (length data) in
  let t := md_bits0 ctx in
  let bits0 := u32 (t + u32 (Z.shiftl len 3)) in
  let bits1 := if bits0 <? t then u32 (md_bits1 ctx + 1) else md_bits1 ctx in
  let bits1 := u32 (bits1 + Z.shiftr len 29) in
  let t := Z.to_nat (Z.land (Z.shiftr t 3) 0x3f) in
  if bool_decide (t <> 0%nat /\ (length data < 64 - t)%nat) then
    MkMD5 (md_buf ctx) bits0 bits1 (put_bytes (md_in ctx) t data)
  else
    let '(h, b, data) :=
      if bool_decide (t = 0%nat) then (md_buf ctx, md_in ctx, data)
      else
        let b := put_bytes (md_in ctx) t (take (64 - t) data) in
        (MD5Transform (md_buf ctx) (words b), b, drop (64 - t) data) in
    let '(h, b, data) := update_blocks (length data / 64) h b data in
    MkMD5 h bits0 bits1 (put_bytes b 0 data).

(** Padding and length, common to [MD5Final] and [MD5HexFinal]. *)
Definition finish (ctx : MD5Context) : hash_state :=
  let count := Z.to_nat (Z.land (Z.shiftr (md_bits0 ctx) 3) 0x3F) in
  let b := put_bytes (md_in ctx) count [0x80] in
  let free := (64 - 1 - count)%nat in
  let '(h, b) :=
    if bool_decide (free < 8)%nat then
      let b := put_bytes b (S count) (replicate free 0) in
      (MD5Transform (md_buf ctx) (words b), put_bytes b 0 (replicate 56 0))
    else (md_buf ctx, put_bytes b (S count) (replicate (free - 8) 0)) in
  let b := put_bytes b 56 (le_bytes 4 (md_bits0 ctx)) in
  let b := put_bytes b 60 (le_bytes 4 (md_bits1 ctx)) in
  MD5Transform h (words b).

Definition state_bytes (h : hash_state) : list Z :=
  let '(a, b, c, d) := h in le_bytes 4 a ++ le_bytes 4 b ++ le_bytes 4 c ++ le_bytes 4 d.

Definition MD5Final (ctx : MD5Context) : list Z := state_bytes (finish ctx).

(** The character codes of the hex digits. *)
Definition MD5HexDigit (c : Z) : Z :=
  let c := Z.land c 0xf in if c <? 10 then c + 48 else c + 97 - 10.

Definition MD5HexFinal (ctx : MD5Context) : list Z :=
  b ← state_bytes (finish ctx);
  [MD5HexDigit (Z.shiftr (Z.land b 0xf0) 4); MD5HexDigit (Z.land b 0xf)].

(** ** The digest of a whole message *)

(** The state after the first [n] blocks of a message. *)
Fixpoint absorb (n : nat) (h : hash_state) (data : list Z) : hash_state :=
  match n with
  | O => h
  | S n => absorb n (MD5Transform h (words (take 64 data))) (drop 64 data)
  end.

Definition md5_init : hash_state := (0x67452301, 0xefcdab89, 0x98badcfe, 0x10325476).

(** A one bit, zeros, and the length in bits as 64 bits, up to a multiple of 64 bytes. *)
Definition padding (len : nat) : list Z :=
  [0x80] ++ replicate (Z.to_nat ((55 - Z.of_nat len) mod 64)) 0 ++ le_bytes 8 (8 * Z.of_nat len).

Definition md5 (message : list Z) : list Z :=
  let padded := message ++ padding (length message) in
  state_bytes (absorb (length padded / 64) md5_init padded).

(** ** The context holds the message so far *)

Lemma absorb_plus n m h data : absorb (n + m) h data = absorb m (absorb n h data) (drop (64 * n) data).
Proof.
  revert h data. induction n as [|n IH]; intros h data; [done|]. cbn [absorb Nat.add]. rewrite IH, drop_drop.
  do 2 f_equal. lia.
Qed.

Lemma absorb_app n h d1 d2 : (64 * n <= length d1)%nat -> absorb n h (d1 ++ d2) = absorb n h d1.
Proof.
  revert h d1. induction n as [|n IH]; intros h d1 Hl; [done|]. cbn [absorb].
  rewrite take_app_le, drop_app_le by lia. apply IH. rewrite length_drop. lia.
Qed.

Lemma update_blocks_spec n h b data : (64 * n <= length data)%nat ->
  exists b', update_blocks n h b data = (absorb n h data, b', drop (64 * n) data) /\
    (length b = 64%nat -> length b' = 64%nat).
Proof.
  revert h b data. induction n as [|n IH]; intros h b data Hl; cbn [update_blocks absorb]; [by exists b|].
  destruct (IH (MD5Transform h (words (take 64 data))) (take 64 data) (drop 64 data)) as (b' & -> & Hb').
  { rewrite length_drop. lia. }
  exists b'. split; [rewrite drop_drop; do 2 f_equal; lia|]. intros _. apply Hb'. rewrite length_take. lia.
Qed.

(** [q] blocks of the message are absorbed, the rest is in the buffer. *)
Record ctx_rep (ctx : MD5Context) (message : list Z) : Prop := {
  cr_buf : md_buf ctx = absorb (length message / 64) md5_init message;
  cr_in : take (length message mod 64) (md_in ctx) = drop (64 * (length message / 64)) message;
  cr_length : length (md_in ctx) = 64%nat;
  cr_bits : md_bits0 ctx = u32 (8 * Z.of_nat (length message)) /\
    md_bits1 ctx = u32 (8 * Z.of_nat (length message) / 2 ^ 32)
}.

Lemma bits_position l : Z.to_nat (Z.land (Z.shiftr (u32 (8 * Z.of_nat l)) 3) 0x3f) = (l mod 64)%nat.
Proof.
  change 0x3f with (Z.ones 6). rewrite Z.land_ones, Z.shiftr_div_pow2 by lia. unfold wrap.
  change (2 ^ 3) with 8. change (2 ^ 6) with 64. change (2 ^ 32) with (8 * 2 ^ 29).
  rewrite Z.mul_mod_distr_l by lia. rewrite (Z.mul_comm 8), Z.div_mul by lia.
  change (2 ^ 29) with (64 * 2 ^ 23). rewrite Z.rem_mul_r by lia.
  rewrite (Z.mul_comm 64), Z.mod_add, Z.mod_mod by lia.
  rewrite <-(Nat2Z.id (l mod 64)), Nat2Z.inj_mod. done.
Qed.

Lemma ctx_rep_init junk : length junk = 64%nat -> ctx_rep (MD5Init junk) [].
Proof. intros Hj. by constructor. Qed.

(** The two words are the 64-bit count of bits. *)
Lemma count_bits n m : 0 <= n -> 0 <= m < 2 ^ 32 ->
  let t := u32 (8 * n) in let b0 := u32 (t + u32 (Z.shiftl m 3)) in
  b0 = u32 (8 * (n + m)) /\
  u32 ((if b0 <? t then u32 (u32 (8 * n / 2 ^ 32) + 1) else u32 (8 * n / 2 ^ 32)) + Z.shiftr m 29)
  = u32 (8 * (n + m) / 2 ^ 32).
Proof.
  intros Hn Hm. cbv zeta. rewrite Z.shiftl_mul_pow2, Z.shiftr_div_pow2 by lia.
  change (2 ^ 3) with 8. unfold wrap. split.
  - rewrite <-Zplus_mod. f_equal. lia.
  - set (B := 2 ^ 32). assert (8 * m / B = m / 2 ^ 29) as Hq by (subst B; apply (Z.div_mul_cancel_l m (2 ^ 29) 8); lia).
    pose proof (Z.div_mod (8 * n) B ltac:(done)) as E1. pose proof (Z.mod_pos_bound (8 * n) B ltac:(done)) as B1.
    pose proof (Z.div_mod (m * 8) B ltac:(done)) as E2. pose proof (Z.mod_pos_bound (m * 8) B ltac:(done)) as B2.
    replace (m * 8 / B) with (m / 2 ^ 29) in E2 by (rewrite <-Hq; f_equal; lia).
    set (q1 := 8 * n / B) in *. set (r1 := (8 * n) mod B) in *. set (q2 := m / 2 ^ 29) in *.
    set (r2 := (m * 8) mod B) in *.
    replace (8 * (n + m)) with ((q1 + q2) * B + (r1 + r2)) by lia.
    rewrite Z.div_add_l by done. destruct (decide (r1 + r2 < B)).
    + rewrite (Z.mod_small (r1 + r2)) by lia. rewrite (proj2 (Z.ltb_ge _ _)) by lia.
      rewrite (Z.div_small (r1 + r2)) by lia. rewrite Zplus_mod_idemp_l. f_equal. lia.
    + assert ((r1 + r2) mod B = r1 + r2 - B) as -> by (symmetry; apply (Z.mod_unique _ _ 1); lia).
      rewrite (proj2 (Z.ltb_lt _ _)) by lia.
      assert ((r1 + r2) / B = 1) as -> by (symmetry; apply (Z.div_unique _ _ 1 (r1 + r2 - B)); lia).
      rewrite !Zplus_mod_idemp_l. rewrite <-Z.add_assoc, Zplus_mod_idemp_l. f_equal. lia.
Qed.

Lemma length_put_bytes b pos x : (pos + length x <= length b)%nat -> length (put_bytes b pos x) = length b.
Proof. intros H. unfold put_bytes. rewrite !length_app, length_take, length_drop. lia. Qed.

Lemma div_mod64 l : exists q k, (l / 64 = q)%nat /\ (l mod 64 = k)%nat /\ (l = 64 * q + k)%nat /\ (k < 64)%nat.
Proof.
  exists (l / 64)%nat, (l mod 64)%nat. split_and!; [done|done|apply Nat.div_mod_eq|by apply Nat.mod_upper_bound].
Qed.

Lemma div_mod64_unique l q k : (l = 64 * q + k)%nat -> (k < 64)%nat -> (l / 64 = q)%nat /\ (l mod 64 = k)%nat.
Proof. intros -> Hk. split; [symmetry; by apply (Nat.div_unique _ _ _ k)|symmetry; by apply (Nat.mod_unique _ _ q)]. Qed.

(** After [put_bytes] the buffer begins with the rest of the longer message. *)
Lemma put_prefix b k x r : take k b = r -> length r = k -> (k + length x <= length b)%nat ->
  take (k + length x) (put_bytes b k x) = r ++ x.
Proof.
  intros Hr Hk Hl. unfold put_bytes. rewrite Hr, app_assoc, take_app_le by (rewrite length_app; lia).
  apply take_ge. rewrite length_app. lia.
Qed.

Lemma MD5Update_rep ctx message data : ctx_rep ctx message -> Z.of_nat (length data) < 2 ^ 32 ->
  ctx_rep (MD5Update ctx data) (message ++ data).
Proof.
  intros [Hbuf Hin Hlen [Hb0 Hb1]] Hd. unfold MD5Update. rewrite Hb0, Hb1, bits_position.
  destruct (count_bits (Z.of_nat (length message)) (Z.of_nat (length data))) as [E0 E1]; [lia|lia|].
  rewrite E0 in E1 |- *. rewrite E1. rewrite <-Nat2Z.inj_add, <-length_app.
  destruct (div_mod64 (length message)) as (q & k & Eq & Ek & El & Hk). rewrite Eq, Ek in *.
  assert (length (drop (64 * q) message) = k) as Hr by (rewrite length_drop; lia).
  case_bool_decide as Hc.
  - destruct (div_mod64_unique (length (message ++ data)) q (k + length data)) as [Q K];
      [rewrite length_app; lia|lia|].
    constructor; cbn [md_buf md_in md_bits0 md_bits1]; rewrite ?Q, ?K.
    + rewrite absorb_app by lia. done.
    + rewrite (put_prefix _ _ _ _ Hin) by lia. rewrite drop_app_le by lia. done.
    + rewrite length_put_bytes; lia.
    + done.
  - set (first := if bool_decide (k = 0%nat) then _ else _).
    assert (exists h b n, first = (h, b, drop n data) /\ length b = 64%nat /\ (n <= length data)%nat /\
      (k = 0%nat /\ n = 0%nat /\ h = absorb q md5_init message \/
       k <> 0%nat /\ (k + n = 64)%nat /\ h = absorb (S q) md5_init (message ++ data))) as (h & b & n & -> & Hb & Hn & Hh).
    { subst first. case_bool_decide as Hk0.
      - exists (md_buf ctx), (md_in ctx), 0%nat. rewrite drop_0. split_and!; [done|done|lia|left; by subst k].
      - eexists _, _, (64 - k)%nat. split; [reflexivity|].
        assert (length (take (64 - k) data) = (64 - k)%nat) as Ht by (rewrite length_take; lia).
        split_and!; [rewrite length_put_bytes; lia|lia|right]. split_and!; [done|lia|].
        replace (S q) with (q + 1)%nat by lia. rewrite absorb_plus, absorb_app by lia. cbn [absorb].
        rewrite <-Hbuf. do 2 f_equal.
        pose proof (put_prefix (md_in ctx) k (take (64 - k) data) _ Hin Hr ltac:(lia)) as Hp.
        rewrite Ht in Hp. rewrite take_ge in Hp by (rewrite length_put_bytes; lia). rewrite Hp.
        rewrite drop_app_le, take_app by lia. rewrite (take_ge (drop _ _)) by lia. by rewrite Hr. }
    destruct (update_blocks_spec (length (drop n data) / 64) h b (drop n data)) as (b' & -> & Hb').
    { apply Nat.Div0.mul_div_le. }
    destruct (div_mod64 (length (drop n data))) as (q2 & k2 & Eq2 & Ek2 & El2 & Hk2). rewrite Eq2, drop_drop.
    rewrite length_drop in El2.
    assert (exists q0, h = absorb q0 md5_init (message ++ data) /\ (64 * q0 = length message + n)%nat) as (q0 & -> & Eq0).
    { destruct Hh as [(K0 & N0 & ->)|(K0 & N0 & ->)]; [exists q|exists (S q)]; (split; [|lia]); [|done].
      by rewrite absorb_app by lia. }
    destruct (div_mod64_unique (length (message ++ data)) (q0 + q2) k2) as [Q K]; [rewrite length_app; lia|done|].
    assert (forall m, drop (64 * q0 + m) (message ++ data) = drop (n + m) data) as Hdrop.
    { intros m. rewrite drop_app_ge by lia. f_equal. lia. }
    constructor; cbn [md_buf md_in md_bits0 md_bits1]; rewrite ?Q, ?K; [| | |done].
    + rewrite absorb_plus. f_equal. rewrite <-(Nat.add_0_r (64 * q0)), Hdrop. by rewrite Nat.add_0_r.
    + rewrite Nat.mul_add_distr_l, Hdrop. unfold put_bytes. rewrite take_0.
      rewrite app_nil_l, take_app_le, take_ge by (rewrite length_drop; lia). done.
    + rewrite length_put_bytes; [by apply Hb'|]. rewrite length_drop, Hb' by done. lia.
Qed.

Lemma le_bytes_split n m z : le_bytes (n + m) z = le_bytes n z ++ le_bytes m (z / 2 ^ (8 * Z.of_nat n)).
Proof.
  revert z. induction n as [|n IH]; intros z; cbn [le_bytes Nat.add app]; [by rewrite Z.div_1_r|].
  rewrite IH. do 3 f_equal. rewrite Z.div_div by lia. f_equal.
  change 256 with (2 ^ 8). rewrite <-Z.pow_add_r by lia. f_equal. lia.
Qed.

Lemma le_bytes_wrap n z : le_bytes n (z mod 2 ^ (8 * Z.of_nat n)) = le_bytes n z.
Proof.
  revert z. induction n as [|n IH]; intros z; [done|]. cbn [le_bytes].
  rewrite Nat2Z.inj_succ. replace (8 * Z.succ (Z.of_nat n)) with (8 + 8 * Z.of_nat n) by lia.
  rewrite Z.pow_add_r by lia. change (2 ^ 8) with 256. rewrite Z.rem_mul_r by lia.
  f_equal; [rewrite (Z.mul_comm 256), Z.mod_add by lia; by rewrite Z.mod_mod by lia|].
  rewrite (Z.mul_comm 256), Z.div_add, Z.div_small by (try apply Z.mod_pos_bound; lia). apply IH.
Qed.

Lemma put_app r s pos x : length r = pos -> put_bytes (r ++ s) pos x = r ++ x ++ drop (length x) s.
Proof. intros <-. unfold put_bytes. by rewrite take_app_length, drop_app_add. Qed.

Lemma length_padding l k : (l mod 64 = k)%nat -> let n := if decide (k <= 55)%nat then 1%nat else 2%nat in
  padding l = [0x80] ++ replicate (64 * n - 9 - k) 0 ++ le_bytes 4 (u32 (8 * Z.of_nat l))
    ++ le_bytes 4 (u32 (8 * Z.of_nat l / 2 ^ 32)).
Proof.
  intros Hk n. unfold padding. do 2 f_equal; [f_equal|].
  - assert ((55 - Z.of_nat l) mod 64 = Z.of_nat (64 * n - 9 - k)) as ->; [|lia].
    pose proof (Nat.div_mod_eq l 64) as El. rewrite Hk in El. pose proof (Nat.mod_upper_bound l 64 ltac:(done)).
    symmetry. apply (Z.mod_unique _ _ (- Z.of_nat (l / 64) - (Z.of_nat n - 1))); subst n; case_decide; lia.
  - rewrite (le_bytes_split 4 4). unfold wrap. by rewrite !(le_bytes_wrap 4).
Qed.

Lemma finish_rep ctx message : ctx_rep ctx message ->
  MD5Final ctx = md5 message.
Proof.
  intros [Hbuf Hin Hlen [Hb0 Hb1]]. unfold MD5Final, md5, finish. rewrite Hb0, bits_position, <-Hb0.
  destruct (div_mod64 (length message)) as (q & k & Eq & Ek & El & Hk). rewrite Eq, Ek in *.
  pose proof (length_padding _ k Ek) as Hp. cbv zeta in Hp. rewrite <-Hb0, <-Hb1 in Hp.
  set (n := if decide (k <= 55)%nat then 1%nat else 2%nat) in *.
  assert (length (drop (64 * q) message) = k) as Hr by (rewrite length_drop; lia).
  set (r := drop (64 * q) message) in *.
  assert (drop (64 * q) (message ++ padding (length message)) = r ++ padding (length message)) as Hdrop.
  { rewrite drop_app_le by lia. done. }
  assert (length (message ++ padding (length message)) / 64 = q + n)%nat as ->.
  { apply (div_mod64_unique _ _ 0); [|lia]. rewrite length_app, Hp, !length_app, length_replicate, !length_le_bytes.
    cbn [length]. subst n. case_decide; lia. }
  rewrite absorb_plus, absorb_app, <-Hbuf, Hdrop, Hp by lia. f_equal.
  rewrite <-(take_drop k (md_in ctx)), Hin. pose proof (length_drop (md_in ctx) k) as Hj. rewrite Hlen in Hj.
  set (junk := drop k (md_in ctx)) in *. rewrite (put_app _ _ k) by done.
  clearbody r junk. rewrite (app_assoc r). subst n. case_decide as Hc.
  - rewrite bool_decide_false by lia. rewrite (put_app _ _ (S k)) by (rewrite length_app; cbn; lia).
    rewrite length_replicate, drop_drop. rewrite app_assoc.
    rewrite (put_app _ _ 56) by (rewrite !length_app, length_replicate; cbn; lia). rewrite app_assoc.
    rewrite (put_app _ _ 60) by (rewrite !length_app, length_replicate, length_le_bytes; cbn; lia).
    rewrite !length_le_bytes, !drop_drop, (drop_ge junk) by (cbn; lia). cbn [absorb]. do 2 f_equal.
    rewrite take_ge by (rewrite !length_app, length_replicate, !length_le_bytes; cbn; lia).
    rewrite <-!app_assoc, app_nil_r. do 4 f_equal. lia.
  - rewrite bool_decide_true by lia. rewrite (put_app _ _ (S k)) by (rewrite length_app; cbn; lia).
    rewrite length_replicate, drop_drop, (drop_ge junk), app_nil_r by (cbn; lia).
    set (b1 := (r ++ [128]) ++ replicate (64 - 1 - k) 0).
    assert (length b1 = 64%nat) as L1 by (subst b1; rewrite !length_app, length_replicate; cbn; lia).
    assert (put_bytes b1 0 (replicate 56 0) = replicate 56 0 ++ drop 56 b1) as -> by done.
    rewrite (put_app _ _ 56) by (by rewrite length_replicate). rewrite app_assoc.
    rewrite (put_app _ _ 60) by (by rewrite length_app, length_replicate, length_le_bytes).
    rewrite !length_le_bytes, !drop_drop, (drop_ge b1) by (cbn; lia). cbn [absorb].
    assert (r ++ [128] ++ replicate (64 * 2 - 9 - k) 0 ++ le_bytes 4 (md_bits0 ctx) ++ le_bytes 4 (md_bits1 ctx)
      = b1 ++ replicate 56 0 ++ le_bytes 4 (md_bits0 ctx) ++ le_bytes 4 (md_bits1 ctx)) as ->.
    { subst b1. rewrite <-!app_assoc. do 2 f_equal. rewrite (app_assoc (replicate _ 0) (replicate _ 0)).
      rewrite <-replicate_add. do 2 f_equal. lia. }
    rewrite take_app_length', drop_app_length' by done. do 2 f_equal.
Qed.

Lemma MD5_concat junk pieces : length junk = 64%nat -> Forall (fun p => Z.of_nat (length p) < 2 ^ 32) pieces ->
  MD5Final (foldl MD5Update (MD5Init junk) pieces) = md5 (concat pieces).
Proof.
  intros Hj Hp. apply finish_rep. assert (forall c m, ctx_rep c m -> ctx_rep (foldl MD5Update c pieces) (m ++ concat pieces)) as H.
  { induction Hp as [|p ps Hl _ IH]; intros c m Hc; cbn [foldl concat]; [by rewrite app_nil_r|].
    rewrite app_assoc. apply IH. by apply MD5Update_rep. }
  apply (H (MD5Init junk) []). by apply ctx_rep_init.
Qed.

(** C13. The digest does not depend on how a message is cut into pieces: feeding the
    pieces to [MD5Update] one by one, whatever the buffer of the context contained
    before, and finishing gives the digest the algorithm defines for their
    concatenation; [MD5HexFinal] gives the hex digits of the same bytes. *)
Theorem md5_pieces junk pieces : length junk = 64%nat ->
  Forall (fun p => Z.of_nat (length p) < 2 ^ 32) pieces ->
  let ctx := foldl MD5Update (MD5Init junk) pieces in
  MD5Final ctx = md5 (concat pieces) /\
  MD5HexFinal ctx = b ← md5 (concat pieces);
    [MD5HexDigit (Z.shiftr (Z.land b 0xf0) 4); MD5HexDigit (Z.land b 0xf)].
Proof.
  intros Hj Hp ctx. pose proof (MD5_concat junk pieces Hj Hp) as E. split; [done|].
  unfold MD5HexFinal. unfold MD5Final in E. subst ctx. by rewrite E.
Qed.

Lemma md5_pieces_witness :
  let ctx := foldl MD5Update (MD5Init (replicate 64 7)) [[97]; replicate 70 66; []; [98; 99]] in
  MD5Final ctx = md5 ([97] ++ replicate 70 66 ++ [98; 99]).
Proof.
  apply (md5_pieces (replicate 64 7) [[97]; replicate 70 66; []; [98; 99]]); [reflexivity|repeat constructor].
Defined.

(** The digest of [abc] that the standard gives. *)
Example md5_abc : md5 [97; 98; 99] =
  [0x90; 0x01; 0x50; 0x98; 0x3c; 0xd2; 0x4f; 0xb0; 0xd6; 0x96; 0x3f; 0x7d; 0x28; 0xe1; 0x7f; 0x72].
Proof. vm_compute. reflexivity. Qed.
