(* ===== verification/Capability.v ===== *)
(** Capabilities of open files ([src/zfsd/fs-entities/cap/cap.c]): the capability that
    [zfs_open] gives to a client names a file handle and flags and carries a digest
    that cannot be guessed; a later operation is accepted only with that digest.

    The capabilities of a file handle form a singly linked list in memory from a
    pool; those of the other file handles are the rest of that memory.  A virtual
    directory has at most one.  The number of clients is a 32-bit counter, a
    capability without clients is destroyed at once or when the last lock of the file
    handle is released, and the file is closed with the last capability.

    The mutexes of the pool and of the file handle make an operation atomic;
    [internal_cap_lock] is in [LockProtocol.v].  [full_read] of [fd_urandom] fails or
    gives bytes by a script. *)

From S2P Require Import Prelude AllocPool Md5 DataCoding KeyedQueue Fibheap FdCache.
#[local] Open Scope Z_scope.

Definition O_RDONLY : Z := 0.
Definition O_ACCMODE : Z := 3.
Definition EBADF : Z := 9.
Definition EISDIR : Z := 21.
Definition EINVAL : Z := 22.
Definition ZFS_OK : Z := 0.
Definition NODE_ID_NONE : Z := 0.
Definition VOLUME_ID_VIRTUAL : Z := 0.

Definition VIRTUAL_FH_P (fh : zfs_fh) : bool := (vid fh =? VOLUME_ID_VIRTUAL) && (sid fh =? NODE_ID_NONE).
Definition NON_EXIST_FH_P (fh : zfs_fh) : bool := (vid fh =? VOLUME_ID_VIRTUAL) && negb (sid fh =? NODE_ID_NONE).
Definition CONFLICT_DIR_P (fh : zfs_fh) : bool := (sid fh =? NODE_ID_NONE) && negb (vid fh =? VOLUME_ID_VIRTUAL).

(** The structure without its link, which is in the cell. *)
Record internal_cap := Cap {
  local_cap : zfs_cap;
  master_cap : zfs_cap;
  busy : Z;
  master_busy : Z;
  master_close_p : bool
}.
Record cell := Cell { cap : internal_cap; next : option ptr }.

Record internal_fh := Fh { local_fh : zfs_fh; is_dir : bool; fh_cap : option ptr; users : Z }.
Record virtual_dir := Vd { vd_fh : zfs_fh; vd_cap : option ptr }.

Definition flags_of (c : internal_cap) : Z := cap_flags (local_cap c).
Definition verify_of (c : internal_cap) : list Z := verify (local_cap c).
Definition set_busy (c : internal_cap) (b : Z) : internal_cap :=
  Cap (local_cap c) (master_cap c) b (master_busy c) (master_close_p c).
Definition set_cap (fh : internal_fh) (p : option ptr) : internal_fh := Fh (local_fh fh) (is_dir fh) p (users fh).
Definition set_users (fh : internal_fh) (n : Z) : internal_fh := Fh (local_fh fh) (is_dir fh) (fh_cap fh) n.

(** The bytes of a file handle in memory. *)
Definition fh_bytes (fh : zfs_fh) : list Z :=
  le_bytes 4 (sid fh) ++ le_bytes 4 (vid fh) ++ le_bytes 4 (dev fh) ++ le_bytes 4 (ino fh) ++ le_bytes 4 (gen fh).

Section capability.
(** [stack] is what the buffer of the digest contains before [MD5Init], [old] what
    is in [master_cap.verify] of a new element of the pool. *)
Context {H : Type} `{KeyedQueue nat H} (stack old : list Z).

(** [j] is the number of the file handle in the cache of descriptors. *)
Record state := St {
  mem : gmap ptr cell;
  cap_pool : alloc_pool;
  urandom : list (option (list Z));
  files : FdCache.cache H
}.

Definition set_mem (s : state) (m : gmap ptr cell) : state := St m (cap_pool s) (urandom s) (files s).
Definition set_files (s : state) (c : FdCache.cache H) : state := St (mem s) (cap_pool s) (urandom s) c.
Definition deref (s : state) (p : ptr) : res cell := match mem s !! p with Some c => Ok c | None => Aborted end.
Definition store (s : state) (p : ptr) (c : cell) : state := set_mem s (<[p := c]> (mem s)).
Definition free_cap (s : state) (p : ptr) : res state :=
  pl ← pool_free (cap_pool s) p; Ok (St (delete p (mem s)) pl (urandom s) (files s)).
Definition close_file (s : state) (j : nat) : res state := c ← local_close (files s) j; Ok (set_files s c).

Definition internal_cap_compute_verify (s : state) (fh : zfs_fh) (flags : Z) : state * option (list Z) :=
  match urandom s with
  | Some bytes :: rest =>
      (St (mem s) (cap_pool s) rest (files s),
       Some (MD5Final (MD5Update (MD5Update (MD5Update (MD5Init stack) (fh_bytes fh)) (le_bytes 4 flags)) bytes)))
  | None :: rest => (St (mem s) (cap_pool s) rest (files s), None)
  | [] => (s, None)
  end.

Definition verify_capability (c : zfs_cap) (icap : internal_cap) : Z :=
  if decide (verify c = verify_of icap) then ZFS_OK else EBADF.

Definition undefined_fh : zfs_fh := MkFh UINT32_MAX UINT32_MAX UINT32_MAX UINT32_MAX UINT32_MAX.

(** A new capability for [fh], linked before [link]; a failure frees it again. *)
Definition create_cap (s : state) (fh : zfs_fh) (flags : Z) (link : option ptr) : res (state * option ptr) :=
  '(p, pl) ← pool_alloc (cap_pool s);
  let s := St (mem s) pl (urandom s) (files s) in
  let '(s, v) := internal_cap_compute_verify s fh flags in
  match v with
  | None => s ← free_cap s p; Ok (s, None)
  | Some v =>
      Ok (store s p (Cell (Cap (MkCap fh flags v) (MkCap undefined_fh UINT32_MAX old) 1 0 false) link), Some p)
  end.

Definition internal_cap_create_fh (s : state) (fh : internal_fh) (flags : Z) : res (state * internal_fh * option ptr) :=
  if is_dir fh && negb (flags =? O_RDONLY) then Aborted
  else
    '(s, r) ← create_cap s (local_fh fh) flags (fh_cap fh);
    Ok (s, match r with Some p => set_cap fh (Some p) | None => fh end, r).

Definition internal_cap_create_vd (s : state) (vd : virtual_dir) (flags : Z) : res (state * virtual_dir * option ptr) :=
  if negb (flags =? O_RDONLY) then Aborted
  else
    '(s, r) ← create_cap s (vd_fh vd) flags None;
    Ok (s, match r with Some p => Vd (vd_fh vd) (Some p) | None => vd end, r).

(** [for (icap = fh->cap; icap; icap = icap->next) if (icap->local_cap.flags == flags)
    break;] *)
Fixpoint cap_with_flags (fuel : nat) (s : state) (icap : option ptr) (flags : Z) : res (option ptr) :=
  match icap with
  | None => Ok None
  | Some p =>
      match fuel with
      | O => OutOfFuel
      | S fuel =>
          c ← deref s p;
          if flags_of (cap c) =? flags then Ok (Some p) else cap_with_flags fuel s (next c) flags
      end
  end.
Definition fh_cap_with_flags (s : state) (fh : internal_fh) (flags : Z) : res (option ptr) :=
  cap_with_flags (size (mem s)) s (fh_cap fh) flags.

(** The loop that finds [p] behind [prev] and takes it out of the list. *)
Fixpoint unlink_cap (fuel : nat) (s : state) (prev p : ptr) : res state :=
  c ← deref s prev;
  match next c with
  | None => Aborted
  | Some icap =>
      if decide (icap = p) then
        d ← deref s p;
        Ok (store s prev (Cell (cap c) (next d)))
      else match fuel with O => OutOfFuel | S fuel => unlink_cap fuel s icap p end
  end.

Definition internal_cap_destroy (s : state) (j : nat) (p : ptr) (fh : option internal_fh) (vd : option virtual_dir) :
  res (state * option internal_fh * option virtual_dir) :=
  '(s, fh, vd) ←
    match vd with
    | Some vd => if decide (vd_cap vd = Some p) then Ok (s, fh, Some (Vd (vd_fh vd) None)) else Aborted
    | None =>
        match fh with
        | None => Aborted
        | Some fh =>
            match fh_cap fh with
            | None => Aborted
            | Some head =>
                if decide (p = head) then c ← deref s p; Ok (s, Some (set_cap fh (next c)), None)
                else s ← unlink_cap (size (mem s)) s head p; Ok (s, Some fh, None)
            end
        end
    end;
  s ← match fh with Some fh => match fh_cap fh with None => close_file s j | Some _ => Ok s end | None => Ok s end;
  s ← free_cap s p;
  Ok (s, fh, vd).

(** [prevp] points to the link of the capability [p], or to [fh->cap]. *)
Definition write_link (s : state) (fh : internal_fh) (prevp : option ptr) (v : option ptr) : res (state * internal_fh) :=
  match prevp with
  | None => Ok (s, set_cap fh v)
  | Some q => c ← deref s q; Ok (store s q (Cell (cap c) v), fh)
  end.

Fixpoint destroy_unused_loop (fuel : nat) (s : state) (fh : internal_fh) (prevp p : option ptr) :
  res (state * internal_fh) :=
  match p with
  | None => Ok (s, fh)
  | Some q =>
      match fuel with
      | O => OutOfFuel
      | S fuel =>
          c ← deref s q;
          if busy (cap c) =? 0 then
            s ← free_cap s q;
            '(s, fh) ← write_link s fh prevp (next c);
            destroy_unused_loop fuel s fh prevp (next c)
          else destroy_unused_loop fuel s fh (Some q) (next c)
      end
  end.

Definition destroy_unused_capabilities (s : state) (j : nat) (fh : internal_fh) : res (state * internal_fh) :=
  '(s, fh) ← destroy_unused_loop (size (mem s)) s fh None (fh_cap fh);
  match fh_cap fh with
  | None => s ← close_file s j; Ok (s, fh)
  | Some _ => Ok (s, fh)
  end.

Definition use_cap (s : state) (p : ptr) : res state :=
  c ← deref s p; Ok (store s p (Cell (set_busy (cap c) (u32 (busy (cap c) + 1))) (next c))).

(** [get_capability] once the file handle was found: [fh] is the file handle of the
    dentry, if there is one, [vd] the virtual directory.  A capability that could not
    be created is dereferenced nevertheless. *)
Definition get_capability (s : state) (fh : option internal_fh) (vd : option virtual_dir) (flags : Z) :
  res (state * option internal_fh * option virtual_dir * (Z + ptr * list Z)) :=
  if match fh with Some fh => is_dir fh && negb (flags =? O_RDONLY) | None => false end then
    Ok (s, fh, vd, inl EISDIR)
  else
    '(s, fh, vd, icap) ←
      match vd with
      | Some vd =>
          match vd_cap vd with
          | Some p => s ← use_cap s p; Ok (s, fh, Some vd, Some p)
          | None => '(s, vd, r) ← internal_cap_create_vd s vd flags; Ok (s, fh, Some vd, r)
          end
      | None =>
          match fh with
          | None => Aborted
          | Some fh =>
              icap ← fh_cap_with_flags s fh flags;
              match icap with
              | Some p => s ← use_cap s p; Ok (s, Some fh, None, Some p)
              | None => '(s, fh, r) ← internal_cap_create_fh s fh flags; Ok (s, Some fh, None, r)
              end
          end
      end;
    match icap with
    | None => Aborted
    | Some p => c ← deref s p; Ok (s, fh, vd, inr (p, verify_of (cap c)))
    end.

(** The checks of [get_capability] before the lookup. *)
Definition get_capability_check (c : zfs_cap) : res Z :=
  if negb (Z.land (cap_flags c) (Z.lnot O_ACCMODE) =? 0) then Aborted
  else if NON_EXIST_FH_P (cap_fh c) then Ok EINVAL
  else if (VIRTUAL_FH_P (cap_fh c) || CONFLICT_DIR_P (cap_fh c)) && negb (cap_flags c =? O_RDONLY) then Ok EISDIR
  else Ok ZFS_OK.

Definition get_capability_no_zfs_fh_lookup (s : state) (fh : internal_fh) (flags : Z) :
  res (state * internal_fh * ptr * (zfs_fh * Z)) :=
  icap ← fh_cap_with_flags s fh flags;
  '(s, fh, icap) ←
    match icap with
    | Some p => s ← use_cap s p; Ok (s, fh, Some p)
    | None => internal_cap_create_fh s fh flags
    end;
  match icap with
  | None => Aborted
  | Some p => c ← deref s p; Ok (s, fh, p, (cap_fh (local_cap (cap c)), flags_of (cap c)))
  end.

(** [find_capability_nolock] once the file handle was found. *)
Definition find_capability_nolock (s : state) (c : zfs_cap) (fh : option internal_fh) (vd : option virtual_dir) :
  res (Z + ptr) :=
  icap ← match vd with
         | Some vd => Ok (vd_cap vd)
         | None => match fh with Some fh => fh_cap_with_flags s fh (cap_flags c) | None => Aborted end
         end;
  match icap with
  | None => Ok (inl EBADF)
  | Some p =>
      d ← deref s p;
      let r := verify_capability c (cap d) in
      if r =? ZFS_OK then Ok (inr p) else Ok (inl r)
  end.

Definition put_capability (s : state) (j : nat) (p : ptr) (fh : option internal_fh) (vd : option virtual_dir) :
  res (state * option internal_fh * option virtual_dir) :=
  c ← deref s p;
  let b := u32 (busy (cap c) - 1) in
  let s := store s p (Cell (set_busy (cap c) b) (next c)) in
  if (b =? 0) && match fh with None => true | Some fh => users fh =? 0 end
  then internal_cap_destroy s j p fh vd
  else Ok (s, fh, vd).

(** [internal_fh_destroy_stage1]: the capabilities of a file handle that goes away. *)
Fixpoint destroy_caps_loop (fuel : nat) (s : state) (j : nat) (fh : option internal_fh) (p : option ptr) :
  res (state * option internal_fh) :=
  match p with
  | None => Ok (s, fh)
  | Some q =>
      match fuel with
      | O => OutOfFuel
      | S fuel =>
          c ← deref s q;
          let s := store s q (Cell (set_busy (cap c) 1) (next c)) in
          '(s, fh, _) ← put_capability s j q fh None;
          destroy_caps_loop fuel s j fh (next c)
      end
  end.
Definition destroy_capabilities (s : state) (j : nat) (fh : internal_fh) : res (state * option internal_fh) :=
  destroy_caps_loop (size (mem s)) s j (Some fh) (fh_cap fh).

(** ** The locks of a file handle, as far as capabilities are concerned *)

Definition lock_fh (fh : internal_fh) : internal_fh := set_users fh (u32 (users fh + 1)).
Definition unlock_fh (s : state) (j : nat) (fh : internal_fh) : res (state * internal_fh) :=
  if users fh =? 0 then Aborted
  else
    let fh := set_users fh (u32 (users fh - 1)) in
    if users fh =? 0 then destroy_unused_capabilities s j fh else Ok (s, fh).

(** ** The list of a file handle *)

Implicit Types (m : gmap ptr cell) (l : list (ptr * internal_cap)) (c : internal_cap) (s : state).

(** The links from [h] to [t] go through the capabilities [l]. *)
Fixpoint seg m (h : option ptr) l (t : option ptr) : Prop :=
  match l with
  | [] => h = t
  | (p, c) :: l => h = Some p /\ exists n, m !! p = Some (Cell c n) /\ seg m n l t
  end.

Record caps_ok s (h : option ptr) l : Prop := {
  caps_seg : seg (mem s) h l None;
  caps_nodup : NoDup l.*1;
  caps_flags : NoDup (flags_of <$> l.*2);
  caps_pool : pool_ok (cap_pool s);
  caps_dom : forall p, p ∈ in_use (cap_pool s) <-> is_Some (mem s !! p)
}.

(** The capabilities of the other file handles do not change. *)
Definition others_kept s s' l : Prop := forall q, q ∉ l.*1 -> is_Some (mem s !! q) -> mem s' !! q = mem s !! q.

(** What a client sees: for each flags the digest and the number of clients. *)
Definition view l : gmap Z (list Z * Z) := list_to_map ((fun x => (flags_of x.2, (verify_of x.2, busy x.2))) <$> l).

Lemma deref_some s p (d : cell) : mem s !! p = Some d -> deref s p = Ok d.
Proof. unfold deref. by intros ->. Qed.

Lemma seg_app m l1 l2 : forall h t, seg m h (l1 ++ l2) t <-> exists k, seg m h l1 k /\ seg m k l2 t.
Proof.
  induction l1 as [|[p c] l1 IH]; intros h t; cbn.
  - split; [intros; by exists h|]. by intros (k & -> & ?).
  - setoid_rewrite IH. naive_solver.
Qed.

Lemma seg_frame m m' l : forall h t, (forall p, p ∈ l.*1 -> m' !! p = m !! p) -> seg m h l t -> seg m' h l t.
Proof.
  induction l as [|[p c] l IH]; intros h t E; cbn; [done|]. intros [-> (n & Hp & Hl)]. split; [done|]. exists n.
  rewrite E by (cbn; set_solver). split; [done|]. apply IH; [|done]. intros q Hq. apply E. cbn. set_solver.
Qed.

Lemma seg_insert m q d l h t : q ∉ l.*1 -> seg m h l t -> seg (<[q := d]> m) h l t.
Proof. intros Hq. apply seg_frame. intros p Hp. apply lookup_insert_ne. by intros ->. Qed.

Lemma seg_delete m q l h t : q ∉ l.*1 -> seg m h l t -> seg (delete q m) h l t.
Proof. intros Hq. apply seg_frame. intros p Hp. apply lookup_delete_ne. by intros ->. Qed.

Lemma seg_lookup m h l t p c : seg m h l t -> (p, c) ∈ l -> exists n, m !! p = Some (Cell c n).
Proof.
  intros Hs (l1 & l2 & ->)%list_elem_of_split. apply seg_app in Hs as (k & _ & _ & n & Hn & _). by exists n.
Qed.

Lemma seg_length m h l t : NoDup l.*1 -> seg m h l t -> (length l <= size m)%nat.
Proof.
  intros Hnd Hs. rewrite <-(length_fmap fst l), <-(size_list_to_set (C := gset ptr)) by done. rewrite <-size_dom.
  apply subseteq_size. intros p Hp%elem_of_list_to_set. apply list_elem_of_fmap in Hp as ([q c] & -> & Hq).
  destruct (seg_lookup _ _ _ _ _ _ Hs Hq) as [n E]. by eapply elem_of_dom_2.
Qed.

Lemma seg_end m h l t t' : seg m h l t -> seg m h l t' -> t = t'.
Proof.
  revert h. induction l as [|[p c] l IH]; intros h; cbn; [by intros -> ->|]. intros [-> (n & Hn & H1)] [_ (n' & Hn' & H2)].
  assert (n' = n) as -> by congruence. by eapply IH.
Qed.

(** The middle of a list and the view. *)
Lemma nodup_mid {A : Type} (l1 l2 : list A) x : NoDup (l1 ++ x :: l2) -> x ∉ l1 /\ x ∉ l2 /\ NoDup (l1 ++ l2).
Proof.
  intros Hn. assert (x :: l1 ++ l2 ≡ₚ l1 ++ x :: l2) as Hp by apply Permutation_middle. rewrite <-Hp in Hn.
  apply NoDup_cons in Hn as [Hx Hn]. split_and!; set_solver.
Qed.

Lemma caps_mid s h l1 l2 p c : caps_ok s h (l1 ++ (p, c) :: l2) ->
  (p ∉ l1.*1 /\ p ∉ l2.*1 /\ NoDup (l1 ++ l2).*1) /\
  (flags_of c ∉ flags_of <$> l1.*2 /\ flags_of c ∉ flags_of <$> l2.*2 /\ NoDup (flags_of <$> (l1 ++ l2).*2)) /\
  exists n, mem s !! p = Some (Cell c n) /\ seg (mem s) h l1 (Some p) /\ seg (mem s) n l2 None.
Proof.
  intros [Hs H1 H2 _ _]. rewrite !fmap_app in *. cbn in *. split_and?; try by apply nodup_mid in H1; naive_solver.
  1-3: apply nodup_mid in H2; naive_solver. apply seg_app in Hs as (k & ? & -> & n & ? & ?). by exists n.
Qed.

Lemma view_mid l1 l2 p c : flags_of c ∉ flags_of <$> l1.*2 ->
  view (l1 ++ (p, c) :: l2) = <[flags_of c := (verify_of c, busy c)]> (view (l1 ++ l2)).
Proof.
  intros Hf. unfold view. rewrite !fmap_app, !list_to_map_app. cbn. rewrite insert_union_r; [done|].
  apply not_elem_of_list_to_map. by rewrite <-!list_fmap_compose in *.
Qed.

Lemma view_none l f : f ∉ flags_of <$> l.*2 -> view l !! f = None.
Proof. intros Hf. apply not_elem_of_list_to_map. by rewrite <-!list_fmap_compose in *. Qed.

Lemma view_empty l : view l = ∅ <-> l = [].
Proof.
  split; [|by intros ->]. destruct l as [|[p c] l]; [done|]. unfold view. cbn. intros E. by apply insert_non_empty in E.
Qed.

(** Writing the cell of a capability of the list. *)
Lemma caps_update s h l1 l2 p c c' n : caps_ok s h (l1 ++ (p, c) :: l2) -> mem s !! p = Some (Cell c n) ->
  flags_of c' = flags_of c -> caps_ok (store s p (Cell c' n)) h (l1 ++ (p, c') :: l2).
Proof.
  intros Hok Hp Hf. pose proof (caps_mid _ _ _ _ _ _ Hok) as ((N1 & N2 & _) & _ & n' & Hp' & S1 & S2).
  assert (n' = n) as -> by congruence. destruct Hok as [_ H1 H2 H3 H4]. constructor; [| | |done|].
  - apply seg_app. exists (Some p). split; [by apply seg_insert|]. split; [done|]. exists n. cbn. rewrite lookup_insert_eq.
    split; [done|]. by apply seg_insert.
  - by rewrite fmap_app in *.
  - rewrite !fmap_app in *. cbn in *. by rewrite Hf.
  - intros q. rewrite H4. cbn. destruct (decide (q = p)) as [-> |]; [|by rewrite lookup_insert_ne].
    rewrite lookup_insert_eq, Hp. split; by eexists.
Qed.

Lemma others_kept_store s l p d : p ∈ l.*1 -> others_kept s (store s p d) l.
Proof. intros Hp q Hq _. apply lookup_insert_ne. by intros ->. Qed.

Lemma kept_trans s1 s2 s3 l l' : others_kept s1 s2 l -> others_kept s2 s3 l' -> (forall q, q ∈ l'.*1 -> q ∈ l.*1 \/ mem s1 !! q = None) ->
  others_kept s1 s3 l.
Proof.
  intros H1 H2 Hl q Hq Hs. rewrite <-(H1 q Hq Hs). apply H2; [|by rewrite (H1 q Hq Hs)].
  intros Hq'. destruct (Hl q Hq') as [?|E]; [done|]. rewrite E in Hs. by destruct Hs.
Qed.

Lemma elem_mid l1 l2 p c : p ∈ (l1 ++ (p, c) :: l2).*1.
Proof. rewrite fmap_app. set_solver. Qed.

Lemma use_cap_ok s h l1 l2 p c : caps_ok s h (l1 ++ (p, c) :: l2) -> exists s' n, use_cap s p = Ok s' /\
  caps_ok s' h (l1 ++ (p, set_busy c (u32 (busy c + 1))) :: l2) /\ mem s' !! p = Some (Cell (set_busy c (u32 (busy c + 1))) n) /\
  others_kept s s' (l1 ++ (p, c) :: l2) /\ files s' = files s /\ urandom s' = urandom s.
Proof.
  intros Hok. destruct (caps_mid _ _ _ _ _ _ Hok) as (_ & _ & n & Hp & _). unfold use_cap. rewrite (deref_some _ _ _ Hp).
  cbn [mbind res_bind]. eexists _, n. split; [done|]. split; [by apply (caps_update s h l1 l2 p c)|].
  split; [apply lookup_insert_eq|]. split; [apply others_kept_store, elem_mid|done].
Qed.

Lemma cap_with_flags_ok s f l : forall h fuel, seg (mem s) h l None -> (length l <= fuel)%nat ->
  (exists l1 p c l2, l = l1 ++ (p, c) :: l2 /\ flags_of c = f /\ cap_with_flags fuel s h f = Ok (Some p)) \/
  (f ∉ flags_of <$> l.*2 /\ cap_with_flags fuel s h f = Ok None).
Proof.
  induction l as [|[p c] l IH]; intros h fuel Hs Hf.
  - cbn in Hs. subst h. right. split; [set_solver|]. by destruct fuel.
  - destruct Hs as [-> (n & Hp & Hs)]. destruct fuel as [|fuel]; [cbn in Hf; lia|]. cbn. rewrite (deref_some _ _ _ Hp).
    cbn [mbind res_bind cap next]. destruct (Z.eqb_spec (flags_of c) f) as [E|E]; [left; by exists [], p, c, l|].
    destruct (IH n fuel Hs) as [(l1 & q & d & l2 & -> & Ef & ->)|[Hn ->]]; [cbn in Hf; lia| |].
    + left. by exists ((p, c) :: l1), q, d, l2.
    + right. split; [|done]. cbn. apply not_elem_of_cons. by split.
Qed.

Lemma fh_cap_with_flags_ok s fh f l : caps_ok s (fh_cap fh) l ->
  (exists l1 p c l2, l = l1 ++ (p, c) :: l2 /\ flags_of c = f /\ fh_cap_with_flags s fh f = Ok (Some p)) \/
  (f ∉ flags_of <$> l.*2 /\ fh_cap_with_flags s fh f = Ok None).
Proof. intros [Hs Hn _ _ _]. apply cap_with_flags_ok; [done|]. by eapply seg_length. Qed.

(** The digest: of the file handle, the flags and the random bytes. *)
Definition digest (fh : zfs_fh) (flags : Z) (bytes : list Z) : list Z := md5 (fh_bytes fh ++ le_bytes 4 flags ++ bytes).

Definition new_cap (fh : zfs_fh) (flags : Z) (bytes : list Z) : internal_cap :=
  Cap (MkCap fh flags (digest fh flags bytes)) (MkCap undefined_fh UINT32_MAX old) 1 0 false.

Lemma compute_verify_ok s fh flags bytes rest : length stack = 64%nat -> urandom s = Some bytes :: rest -> length bytes = 16%nat ->
  internal_cap_compute_verify s fh flags = (St (mem s) (cap_pool s) rest (files s), Some (digest fh flags bytes)).
Proof.
  intros Hst Hu Hb. unfold internal_cap_compute_verify. rewrite Hu. do 2 f_equal. unfold digest.
  pose proof (MD5_concat stack [fh_bytes fh; le_bytes 4 flags; bytes] Hst) as E. cbn [foldl concat] in E.
  rewrite app_nil_r in E. rewrite E; [done|]. repeat constructor. by rewrite Hb.
Qed.

Lemma create_cap_ok s h l fh flags bytes rest : length stack = 64%nat -> caps_ok s h l -> flags ∉ flags_of <$> l.*2 ->
  urandom s = Some bytes :: rest -> length bytes = 16%nat ->
  exists s' p, create_cap s fh flags h = Ok (s', Some p) /\ caps_ok s' (Some p) ((p, new_cap fh flags bytes) :: l) /\
    mem s' = <[p := Cell (new_cap fh flags bytes) h]> (mem s) /\ mem s !! p = None /\
    files s' = files s /\ urandom s' = rest.
Proof.
  intros Hst [H1 H2 H3 H4 H5] Hf Hu Hb. unfold create_cap.
  destruct (pool_alloc_ok _ H4) as (p & pl & -> & Hpl & Hp & Hin). cbn [mbind res_bind].
  rewrite (compute_verify_ok (St (mem s) pl (urandom s) (files s)) fh flags bytes rest) by done.
  assert (mem s !! p = None) as Hnone. { apply eq_None_not_Some. intros E. apply Hp. by apply H5. }
  assert (p ∉ l.*1) as Hpl'.
  { intros ([q c] & -> & Hq)%list_elem_of_fmap. destruct (seg_lookup _ _ _ _ _ _ H1 Hq) as [n E]. cbn in Hnone. congruence. }
  eexists _, p. split; [done|]. split_and!; [|done|done|done|done]. constructor; cbn.
  - split; [done|]. exists h. rewrite lookup_insert_eq. split; [done|]. by apply seg_insert.
  - by apply NoDup_cons.
  - by apply NoDup_cons.
  - done.
  - intros q. rewrite Hin, elem_of_cons, H5. destruct (decide (q = p)) as [-> |].
    + rewrite lookup_insert_eq. split; [by eexists|by left].
    + rewrite lookup_insert_ne by done. naive_solver.
Qed.

Lemma free_cap_ok s p : pool_ok (cap_pool s) -> (forall q, q ∈ in_use (cap_pool s) <-> is_Some (mem s !! q)) -> is_Some (mem s !! p) ->
  exists pl, free_cap s p = Ok (St (delete p (mem s)) pl (urandom s) (files s)) /\ pool_ok pl /\
    forall q, q ∈ in_use pl <-> is_Some (delete p (mem s) !! q).
Proof.
  intros Hpl Hdom Hp. unfold free_cap. destruct (pool_free_ok _ p Hpl) as (pl & -> & Hok & Hin); [by apply Hdom|].
  exists pl. split_and!; [done|done|]. intros q. rewrite Hin, Hdom. destruct (decide (q = p)) as [-> |].
  - rewrite lookup_delete_eq. split; [naive_solver|by intros [? ?]].
  - rewrite lookup_delete_ne by done. naive_solver.
Qed.

(** A capability that cannot be created leaves everything as it was. *)
Lemma create_cap_fails s h l fh flags rest : caps_ok s h l -> urandom s = None :: rest ->
  exists s', create_cap s fh flags h = Ok (s', None) /\ caps_ok s' h l /\ mem s' = mem s /\ files s' = files s.
Proof.
  intros [H1 H2 H3 H4 H5] Hu. unfold create_cap.
  destruct (pool_alloc_ok _ H4) as (p & pl & -> & Hpl & Hp & Hin). cbn [mbind res_bind].
  unfold internal_cap_compute_verify. cbn [urandom]. rewrite Hu. unfold free_cap. cbn.
  destruct (pool_free_ok pl p Hpl) as (pl' & -> & Hpl' & Hin'); [rewrite Hin; set_solver|]. cbn [mbind res_bind].
  assert (mem s !! p = None) as Hnone. { apply eq_None_not_Some. intros E. apply Hp. by apply H5. }
  eexists. split; [done|]. cbn. rewrite delete_id by done. split_and!; [|done|done]. constructor; try done.
  intros q. cbn. rewrite Hin', Hin, elem_of_cons, H5. split; [naive_solver|]. intros Hq. split; [by right|].
  intros ->. rewrite Hnone in Hq. by destruct Hq.
Qed.

(** Taking a capability out of the list: only the link of another one changes. *)
Lemma unlink_cap_ok s p l1 : forall l2 prev c0 c fuel, seg (mem s) (Some prev) ((prev, c0) :: l1 ++ (p, c) :: l2) None ->
  NoDup ((prev, c0) :: l1 ++ (p, c) :: l2).*1 -> (length l1 <= fuel)%nat ->
  exists q d, unlink_cap fuel s prev p = Ok (store s q d) /\ (q = prev \/ q ∈ l1.*1) /\ is_Some (mem s !! q) /\
    seg (<[q := d]> (mem s)) (Some prev) ((prev, c0) :: l1 ++ l2) None.
Proof.
  induction l1 as [|[q c1] l1 IH]; intros l2 prev c0 c fuel Hs Hn Hf.
  - destruct Hs as (_ & n & Hp0 & -> & n2 & Hp & Hs). cbn in Hn. apply NoDup_cons in Hn as [Hn0 [Hn1 _]%NoDup_cons].
    assert (unlink_cap fuel s prev p = Ok (store s prev (Cell c0 n2))) as ->.
    { destruct fuel; cbn; rewrite (deref_some _ _ _ Hp0); cbn; rewrite decide_True by done; by rewrite (deref_some _ _ _ Hp). }
    exists prev, (Cell c0 n2). split; [done|]. split; [by left|]. split; [by eexists|]. split; [done|]. exists n2.
    rewrite lookup_insert_eq. split; [done|]. apply seg_insert; [set_solver|done].
  - destruct fuel as [|fuel]; [cbn in Hf; lia|]. destruct Hs as (_ & n & Hp0 & Hs). pose proof Hs as (-> & _).
    cbn in Hn. apply NoDup_cons in Hn as [Hn0 Hn]. cbn [unlink_cap]. rewrite (deref_some _ _ _ Hp0). cbn [mbind res_bind cap next].
    rewrite decide_False by (intros ->; apply NoDup_cons in Hn as [Hn _]; apply Hn; rewrite fmap_app; set_solver).
    destruct (IH l2 q c1 c fuel Hs Hn) as (q' & d & E & Hq & Hsome & Hs'); [cbn in Hf; lia|]. exists q', d.
    assert (q' ∈ q :: l1.*1) as Hq' by (destruct Hq as [-> |]; [left|by right]).
    split; [done|]. split; [by right|]. split; [done|]. split; [done|].
    exists (Some q). rewrite lookup_insert_ne; [done|]. intros <-. apply Hn0. rewrite fmap_app. set_solver.
Qed.

(** The file is closed with the last capability. *)
Definition file_after (j : nat) l (f f' : FdCache.cache H) : Prop :=
  others_same f f' j /\ match l with
                        | [] => exists gen, c_handles f' !! j = Some (Handle (-1) gen)
                        | _ => f' = f
                        end.

Lemma file_step s j fh l g : cache_ok g (g + 1) (files s) -> is_Some (c_handles (files s) !! j) -> g + 1 < 2 ^ 32 ->
  seg (mem s) (fh_cap fh) l None ->
  exists f, match fh_cap fh with None => close_file s j | Some _ => Ok s end = Ok (set_files s f) /\
    cache_ok g (g + 1) f /\ file_after j l (files s) f.
Proof.
  intros Hok [h Hj] Hg Hs. destruct l as [|[p c] l]; cbn in Hs.
  - rewrite Hs. destruct (local_close_ok g _ j h Hok Hj Hg) as (f & E & H1 & H2 & H3). unfold close_file. rewrite E.
    exists f. split; [done|]. split; [done|]. split; [done|]. by eexists.
  - destruct Hs as [-> _]. exists (files s). split; [by destruct s|]. split; [done|]. split; [by split|done].
Qed.

Lemma destroy_ok s j fh l1 l2 p c g : caps_ok s (fh_cap fh) (l1 ++ (p, c) :: l2) ->
  cache_ok g (g + 1) (files s) -> is_Some (c_handles (files s) !! j) -> g + 1 < 2 ^ 32 ->
  exists s' h, internal_cap_destroy s j p (Some fh) None = Ok (s', Some (set_cap fh h), None) /\ caps_ok s' h (l1 ++ l2) /\
    others_kept s s' (l1 ++ (p, c) :: l2) /\ cache_ok g (g + 1) (files s') /\ file_after j (l1 ++ l2) (files s) (files s') /\
    urandom s' = urandom s.
Proof.
  intros Hok Hc Hj Hg. pose proof (caps_mid _ _ _ _ _ _ Hok) as ((N1 & N2 & N3) & (_ & _ & F3) & n & Hp & S1 & S2).
  assert (exists s1 h, match fh_cap fh with
        | None => Aborted
        | Some head => if decide (p = head) then c ← deref s p; Ok (s, Some (set_cap fh (next c)), None)
            else s ← unlink_cap (size (mem s)) s head p; Ok (s, Some fh, None)
        end = Ok (s1, Some (set_cap fh h), @None virtual_dir) /\ seg (mem s1) h (l1 ++ l2) None /\ cap_pool s1 = cap_pool s /\
        (forall q, is_Some (mem s1 !! q) <-> is_Some (mem s !! q)) /\ files s1 = files s /\ urandom s1 = urandom s /\
        others_kept s s1 (l1 ++ (p, c) :: l2)) as (s1 & h & E & Hs1 & Hp1 & Hd1 & Hf1 & Hu1 & Ho1).
  { destruct l1 as [|[q c1] l1].
    - cbn in S1. rewrite S1, decide_True by done. rewrite (deref_some _ _ _ Hp). exists s, n. by repeat split.
    - destruct Hok as [Hs Hn _ _ _]. pose proof S1 as [E _]. rewrite E in Hs |- *. cbn [app] in Hs.
      rewrite decide_False by (intros ->; cbn in N1; set_solver).
      destruct (unlink_cap_ok s p l1 l2 q c1 c (size (mem s)) Hs Hn) as (q' & d & -> & Hq & [e Hq'] & Hs').
      { pose proof (seg_length _ _ _ _ Hn Hs) as Hl. cbn in Hl. rewrite length_app in Hl. cbn in Hl. lia. }
      eexists _, (Some q). split; [by destruct fh; cbn in E; rewrite <-E|]. split; [exact Hs'|]. split; [done|]. split; [|split; [done|split; [done|]]].
      + intros r. cbn. destruct (decide (r = q')) as [-> |]; [|by rewrite lookup_insert_ne]. rewrite lookup_insert_eq, Hq'.
        split; by eexists.
      + apply others_kept_store. cbn. rewrite fmap_app. set_solver. }
  destruct Hok as [_ _ _ Hpool Hdom].
  unfold internal_cap_destroy. rewrite E. cbn [mbind res_bind]. rewrite <-Hf1 in Hc, Hj.
  destruct (file_step s1 j (set_cap fh h) (l1 ++ l2) g Hc Hj Hg Hs1) as (f & -> & Hc' & Hfa). cbn [mbind res_bind].
  destruct (free_cap_ok (set_files s1 f) p) as (pl & -> & Hpl & Hin); [by rewrite <-Hp1 in Hpool| | |].
  { intros q. cbn. by rewrite Hp1, Hd1. }
  { cbn. rewrite Hd1, Hp. by eexists. }
  cbn [mbind res_bind]. eexists _, h. split; [done|]. rewrite Hf1 in Hfa. split; [|split; [|done]].
  - constructor; cbn; try done. apply seg_delete; [|done]. rewrite fmap_app. set_solver.
  - intros q Hq Hs. cbn. rewrite lookup_delete_ne; [by apply Ho1|]. intros <-. apply Hq, elem_mid.
Qed.

Lemma set_cap_id fh : set_cap fh (fh_cap fh) = fh.
Proof. by destruct fh. Qed.

(** The link behind which [l1] ends. *)
Definition last_link l1 : option ptr := fst <$> last l1.

Lemma seg_redirect m l1 : forall h t t', NoDup l1.*1 -> l1 <> [] -> seg m h l1 t ->
  exists r c, last l1 = Some (r, c) /\ m !! r = Some (Cell c t) /\ seg (<[r := Cell c t']> m) h l1 t'.
Proof.
  induction l1 as [|[p c] l1 IH]; intros h t t' Hn Hne Hs; [done|]. destruct Hs as [-> (n & Hp & Hs)].
  cbn in Hn. apply NoDup_cons in Hn as [Hn0 Hn]. destruct l1 as [|x l1].
  - cbn in Hs. subst n. exists p, c. split; [done|]. split; [done|]. split; [done|]. exists t'. by rewrite lookup_insert_eq.
  - destruct (IH n t t' Hn) as (r & d & E & Hr & Hs'); [done|done|]. exists r, d. split; [done|]. split; [done|]. split; [done|].
    exists n. rewrite lookup_insert_ne; [done|]. intros <-. apply Hn0. apply list_elem_of_fmap. exists (r, d). split; [done|].
    apply last_Some in E as [l' ->]. set_solver.
Qed.

Lemma drop_ok s fh l1 l2 q c n : caps_ok s (fh_cap fh) (l1 ++ (q, c) :: l2) -> mem s !! q = Some (Cell c n) ->
  exists s1 s2 h, free_cap s q = Ok s1 /\ write_link s1 fh (last_link l1) n = Ok (s2, set_cap fh h) /\
    caps_ok s2 h (l1 ++ l2) /\ seg (mem s2) h l1 n /\ others_kept s s2 (l1 ++ (q, c) :: l2) /\
    files s2 = files s /\ urandom s2 = urandom s.
Proof.
  intros Hok Hq. pose proof (caps_mid _ _ _ _ _ _ Hok) as ((N1 & N2 & N3) & (_ & _ & F3) & n' & Hq' & S1 & S2).
  assert (n' = n) as -> by congruence.
  destruct Hok as [_ Hnd _ Hpool Hdom].
  destruct (free_cap_ok s q Hpool Hdom) as (pl & -> & Hpl & Hin); [by eexists|].
  apply (seg_delete _ q) in S1; [|done]. apply (seg_delete _ q) in S2; [|done]. pose proof Hnd as Hnd'.
  rewrite fmap_app in Hnd. apply NoDup_app in Hnd as (Hnd1 & Hdisj & _).
  destruct (decide (l1 = [])) as [-> |Hne].
  - eexists _, _, n. split; [done|]. split; [done|]. split; [by constructor|]. split; [done|]. split; [|done].
    intros r Hr _. cbn. rewrite lookup_delete_ne; [done|]. intros <-. apply Hr. cbn. set_solver.
  - destruct (seg_redirect _ l1 _ _ n Hnd1 Hne S1) as (r & d & El & Hr & Hs).
    assert (r ∈ l1.*1) as Hrl.
    { apply list_elem_of_fmap. exists (r, d). split; [done|]. apply last_Some in El as [l' ->]. set_solver. }
    eexists _, _, (fh_cap fh). split; [done|]. unfold write_link, last_link. rewrite El, set_cap_id. cbn.
    rewrite (deref_some (St _ _ _ _) r _ Hr). cbn. split; [done|]. split; [|split; [done|split; [|done]]].
    + constructor; try done.
      * apply seg_app. exists n. split; [done|]. cbn. apply seg_insert; [|done]. intros Hr2. apply (Hdisj _ Hrl). cbn. by right.
      * intros r'. cbn. rewrite Hin. destruct (decide (r' = r)) as [-> |]; [|by rewrite lookup_insert_ne].
        rewrite lookup_insert_eq, Hr. split; by eexists.
    + intros r' Hr' _. cbn. rewrite lookup_insert_ne, lookup_delete_ne; [done| |].
      * intros <-. apply Hr', elem_mid.
      * intros <-. apply Hr'. rewrite fmap_app. set_solver.
Qed.

Definition used l := filter (fun x => busy x.2 <> 0) l.

Lemma destroy_unused_loop_ok l2 : forall l1 s fh p fuel, caps_ok s (fh_cap fh) (l1 ++ l2) ->
  seg (mem s) (fh_cap fh) l1 p -> seg (mem s) p l2 None -> (length l2 <= fuel)%nat ->
  exists s' h, destroy_unused_loop fuel s fh (last_link l1) p = Ok (s', set_cap fh h) /\ caps_ok s' h (l1 ++ used l2) /\
    others_kept s s' (l1 ++ l2) /\ files s' = files s /\ urandom s' = urandom s.
Proof.
  induction l2 as [|[q c] l2 IH]; intros l1 s fh p fuel Hok S1 S2 Hf.
  - cbn in S2. subst p. exists s, (fh_cap fh). rewrite set_cap_id. by destruct fuel.
  - destruct S2 as [-> (n & Hq & S2)]. destruct fuel as [|fuel]; [cbn in Hf; lia|]. cbn [destroy_unused_loop].
    rewrite (deref_some _ _ _ Hq). cbn [mbind res_bind cap next]. unfold used. rewrite filter_cons.
    destruct (Z.eqb_spec (busy c) 0) as [E|E].
    + rewrite decide_False by tauto. destruct (drop_ok s fh l1 l2 q c n Hok Hq) as (s1 & s2 & h & E1 & E2 & H1 & H2 & H3 & H4 & H5).
      rewrite E1. cbn [mbind res_bind]. rewrite E2. cbn [mbind res_bind].
      destruct (IH l1 s2 (set_cap fh h) n fuel) as (s' & h' & E' & P1 & P2 & P3 & P4); [done|done| |cbn in Hf; lia|].
      { destruct H1 as [Hs _ _ _ _]. apply seg_app in Hs as (k & Hk1 & Hk2). assert (k = n) as -> by (by eapply seg_end). done. }
      exists s', h'. split; [exact E'|]. rewrite P3, P4. split; [done|]. split; [|done].
      eapply kept_trans; [done..|]. intros r Hr. left. rewrite fmap_app in *. set_solver.
    + rewrite decide_True by done.
      destruct (IH (l1 ++ [(q, c)]) s fh n fuel) as (s' & h' & E' & P1 & P2 & P3 & P4);
        [by rewrite <-app_assoc| |done|cbn in Hf; lia|].
      { apply seg_app. exists (Some q). split; [done|]. split; [done|]. by exists n. }
      rewrite <-app_assoc in P1, P2. unfold last_link in E'. rewrite last_snoc in E'. by exists s', h'.
Qed.

Lemma destroy_unused_ok s j fh l g : caps_ok s (fh_cap fh) l -> cache_ok g (g + 1) (files s) ->
  is_Some (c_handles (files s) !! j) -> g + 1 < 2 ^ 32 ->
  exists s' h, destroy_unused_capabilities s j fh = Ok (s', set_cap fh h) /\ caps_ok s' h (used l) /\ others_kept s s' l /\
    cache_ok g (g + 1) (files s') /\ file_after j (used l) (files s) (files s') /\ urandom s' = urandom s.
Proof.
  intros Hok Hc Hj Hg. pose proof Hok as [Hs Hn _ _ _]. unfold destroy_unused_capabilities.
  destruct (destroy_unused_loop_ok l [] s fh (fh_cap fh) (size (mem s)) Hok) as (s1 & h & E & H1 & H2 & H3 & H4);
    [done|done|by eapply seg_length|]. cbn in E. rewrite E. cbn [mbind res_bind]. rewrite <-H3 in Hc, Hj |- *. pose proof H1 as [Hs1 _ _ _ _].
  destruct (file_step s1 j (set_cap fh h) (used l) g Hc Hj Hg Hs1) as (f & E' & Hc' & Hfa).
  exists (set_files s1 f), h. split; [|split; [by destruct H1|split; [done|split; [done|split; done]]]].
  destruct (fh_cap (set_cap fh h)); [by injection E' as ->|by rewrite E'].
Qed.

(** What the view becomes. *)
Lemma view_cons p c l : view ((p, c) :: l) = <[flags_of c := (verify_of c, busy c)]> (view l).
Proof. done. Qed.

Lemma view_found l1 l2 p c : flags_of c ∉ flags_of <$> l1.*2 ->
  view (l1 ++ (p, c) :: l2) !! flags_of c = Some (verify_of c, busy c).
Proof. intros Hf. by rewrite view_mid, lookup_insert_eq. Qed.

Lemma view_busy l1 l2 p c b : flags_of c ∉ flags_of <$> l1.*2 ->
  view (l1 ++ (p, set_busy c b) :: l2) = <[flags_of c := (verify_of c, b)]> (view (l1 ++ (p, c) :: l2)).
Proof. intros Hf. rewrite !view_mid by done. by rewrite insert_insert_eq. Qed.

Lemma view_dropped l1 l2 p c : flags_of c ∉ flags_of <$> l1.*2 -> flags_of c ∉ flags_of <$> l2.*2 ->
  view (l1 ++ l2) = delete (flags_of c) (view (l1 ++ (p, c) :: l2)).
Proof.
  intros H1 H2. rewrite view_mid, delete_insert_id; [done| |done]. apply view_none. rewrite !fmap_app. set_solver.
Qed.

Lemma view_used l : NoDup (flags_of <$> l.*2) -> view (used l) = filter (fun x => x.2.2 <> 0) (view l).
Proof.
  induction l as [|[p c] l IH]; intros Hn; [unfold view; cbn; by rewrite map_filter_empty|]. cbn in Hn.
  apply NoDup_cons in Hn as [Hf Hn]. rewrite view_cons. unfold used in *.
  rewrite filter_cons, map_filter_insert. cbn. destruct (decide (busy c <> 0)) as [E|E].
  - rewrite view_cons. by rewrite IH.
  - rewrite delete_id by (by apply view_none). by apply IH.
Qed.

Lemma caps_used s h l : caps_ok s h l -> view (used l) = filter (fun x => x.2.2 <> 0) (view l).
Proof. intros [_ _ Hf _ _]. by apply view_used. Qed.

(** [put_capability] for a capability with clients. *)
Lemma put_ok s j fh l1 l2 p c g : caps_ok s (fh_cap fh) (l1 ++ (p, c) :: l2) -> 0 < busy c < 2 ^ 32 ->
  cache_ok g (g + 1) (files s) -> is_Some (c_handles (files s) !! j) -> g + 1 < 2 ^ 32 ->
  let l' := if decide (busy c = 1 /\ users fh = 0) then l1 ++ l2 else l1 ++ (p, set_busy c (busy c - 1)) :: l2 in
  exists s' h, put_capability s j p (Some fh) None = Ok (s', Some (set_cap fh h), None) /\ caps_ok s' h l' /\
    others_kept s s' (l1 ++ (p, c) :: l2) /\ cache_ok g (g + 1) (files s') /\ file_after j l' (files s) (files s') /\
    urandom s' = urandom s.
Proof.
  intros Hok Hb Hc Hj Hg l'. destruct (caps_mid _ _ _ _ _ _ Hok) as (_ & _ & n & Hp & _).
  pose proof (caps_update s _ l1 l2 p c (set_busy c (busy c - 1)) n Hok Hp eq_refl) as Hok1.
  pose proof (others_kept_store s (l1 ++ (p, c) :: l2) p (Cell (set_busy c (busy c - 1)) n) (elem_mid _ _ _ _)) as Hk.
  unfold put_capability. rewrite (deref_some _ _ _ Hp). cbn [mbind res_bind cap next]. rewrite (wrap_small 32) by lia.
  subst l'. destruct (decide (busy c = 1 /\ users fh = 0)) as [[E1 E2]|E].
  - rewrite E1, E2. cbn [Z.eqb andb]. rewrite E1 in Hok1, Hk.
    destruct (destroy_ok _ j fh l1 l2 p _ g Hok1 Hc Hj Hg) as (s' & h & E & H1 & H2 & H3). exists s', h. split; [exact E|].
    split; [done|]. split; [|exact H3]. eapply kept_trans; [done..|]. intros q Hq. left. rewrite fmap_app in *. done.
  - replace ((busy c - 1 =? 0) && (users fh =? 0)) with false by lia. eexists _, (fh_cap fh). rewrite set_cap_id.
    split; [done|]. split; [done|]. split; [done|]. split; [done|]. split; [|done]. split; [done|]. by destruct l1.
Qed.

(** [get_capability]: an existing capability gets another client, otherwise there is
    a new one. *)
Lemma get_ok s fh l flags bytes rest : length stack = 64%nat -> caps_ok s (fh_cap fh) l ->
  Forall (fun x => 0 <= busy x.2 < UINT32_MAX) l -> (is_dir fh = true -> flags = O_RDONLY) ->
  urandom s = Some bytes :: rest -> length bytes = 16%nat ->
  exists s' h p l' e, get_capability s (Some fh) None flags = Ok (s', Some (set_cap fh h), None, inr (p, e.1)) /\
    caps_ok s' h l' /\ others_kept s s' l /\ (forall q, q ∈ l'.*1 -> q ∈ l.*1 \/ mem s !! q = None) /\ files s' = files s /\
    view l' = <[flags := e]> (view l) /\
    match view l !! flags with
    | Some (v, b) => e = (v, b + 1) /\ urandom s' = urandom s
    | None => e = (digest (local_fh fh) flags bytes, 1) /\ urandom s' = rest
    end.
Proof.
  intros Hst Hok Hb Hdir Hu Hlen. unfold get_capability.
  assert (is_dir fh && negb (flags =? O_RDONLY) = false) as Hd by (destruct (is_dir fh); [by rewrite Hdir|done]). rewrite Hd.
  destruct (fh_cap_with_flags_ok s fh flags l Hok) as [(l1 & p & c & l2 & -> & <- & ->)|[Hn ->]]; cbn [mbind res_bind].
  - destruct (use_cap_ok _ _ _ _ _ _ Hok) as (s' & n & -> & Hok' & Hp & Hk & Hf & Hu'). cbn [mbind res_bind].
    rewrite (deref_some _ _ _ Hp). cbn [mbind res_bind]. pose proof (caps_mid _ _ _ _ _ _ Hok) as (_ & (F1 & F2 & _) & _).
    assert (u32 (busy c + 1) = busy c + 1) as Eb.
    { apply (wrap_small 32). rewrite Forall_forall in Hb. specialize (Hb (p, c) ltac:(set_solver)). cbn in Hb. unfold UINT32_MAX in Hb. lia. }
    rewrite Eb in *. exists s', (fh_cap fh), p, (l1 ++ (p, set_busy c (busy c + 1)) :: l2), (verify_of c, busy c + 1).
    rewrite set_cap_id, view_found by done. split_and!; try done.
    + intros q Hq. left. by rewrite fmap_app in *.
    + by apply view_busy.
  - destruct (create_cap_ok s (fh_cap fh) l (local_fh fh) flags bytes rest Hst Hok Hn Hu Hlen) as
      (s' & p & E & Hok' & Hm & Hnone & Hf & Hu').
    unfold internal_cap_create_fh. rewrite Hd, E. cbn [mbind res_bind]. rewrite (deref_some s' p (Cell (new_cap (local_fh fh) flags bytes) (fh_cap fh)))
      by (rewrite Hm; apply lookup_insert_eq). cbn [mbind res_bind].
    exists s', (Some p), p, ((p, new_cap (local_fh fh) flags bytes) :: l), (digest (local_fh fh) flags bytes, 1).
    rewrite (view_none l flags Hn), view_cons. split_and!; try done.
    + intros q Hq Hs. rewrite Hm, lookup_insert_ne; [done|]. intros <-. rewrite Hnone in Hs. by destruct Hs.
    + intros q [-> |Hq]%elem_of_cons; [by right|by left].
Qed.

(** [find_capability]: the capability with these flags and this digest. *)
Lemma find_ok s fh l (c : zfs_cap) : caps_ok s (fh_cap fh) l ->
  exists r, find_capability_nolock s c (Some fh) None = Ok r /\
  match r with
  | inl e => e = EBADF /\ forall v b, view l !! cap_flags c = Some (v, b) -> verify c <> v
  | inr p => exists l1 d l2, l = l1 ++ (p, d) :: l2 /\ flags_of d = cap_flags c /\ verify_of d = verify c /\
      view l !! cap_flags c = Some (verify c, busy d)
  end.
Proof.
  intros Hok. unfold find_capability_nolock.
  destruct (fh_cap_with_flags_ok s fh (cap_flags c) l Hok) as [(l1 & p & d & l2 & -> & E & ->)|[Hn ->]]; cbn [mbind res_bind].
  - pose proof (caps_mid _ _ _ _ _ _ Hok) as (_ & (F1 & F2 & _) & n & Hp & _). rewrite (deref_some _ _ _ Hp). cbn [mbind res_bind cap].
    unfold verify_capability. case_decide as Ev; cbn.
    + exists (inr p). split; [done|]. exists l1, d, l2. split_and!; [done|done|done|]. by rewrite <-E, view_found, Ev.
    + exists (inl EBADF). split; [done|]. split; [done|]. rewrite <-E, view_found by done. by intros v b [= <- <-].
  - exists (inl EBADF). split; [done|]. split; [done|]. by rewrite view_none.
Qed.

(** ** What the clients of a file handle are promised *)

(** A client opens the file with flags, closes a capability, locks and unlocks the
    file handle, or reads the file, for which the daemon opens it. *)
Inductive op := Get (flags : Z) | Put (c : zfs_cap) | Lock | Unlock | Use (flags : Z).
Inductive outcome := Verify (v : list Z) | Done | Refused (e : Z).

Definition impl_step (max_fds : Z) (j : nat) (s : state) (fh : internal_fh) (o : op) : res (state * internal_fh * outcome) :=
  match o with
  | Get flags =>
      '(s, fh, _, r) ← get_capability s (Some fh) None flags;
      match fh with
      | Some fh => Ok (s, fh, match r with inl e => Refused e | inr (_, v) => Verify v end)
      | None => Aborted
      end
  | Put c =>
      r ← find_capability_nolock s c (Some fh) None;
      match r with
      | inl e => Ok (s, fh, Refused e)
      | inr p =>
          '(s, fh, _) ← put_capability s j p (Some fh) None;
          match fh with Some fh => Ok (s, fh, Done) | None => Aborted end
      end
  | Lock => Ok (s, lock_fh fh, Done)
  | Unlock => '(s, fh) ← unlock_fh s j fh; Ok (s, fh, Done)
  | Use flags => '(f, _) ← capability_open_nolock max_fds (files s) j true flags; Ok (set_files s f, fh, Done)
  end.

Fixpoint impl_run (max_fds : Z) (j : nat) (s : state) (fh : internal_fh) (ops : list op) : res (state * internal_fh * list outcome) :=
  match ops with
  | [] => Ok (s, fh, [])
  | o :: ops =>
      '(s, fh, r) ← impl_step max_fds j s fh o;
      '(s, fh, rs) ← impl_run max_fds j s fh ops;
      Ok (s, fh, r :: rs)
  end.

(** The capabilities by flags, the locks and the random bytes to come. *)
Record spec := Spec { sp_caps : gmap Z (list Z * Z); sp_users : Z; sp_random : list (list Z) }.

(** [None] is a use that the clients owe not to make, or the end of the random
    bytes. *)
Definition spec_step (dir : bool) (id : zfs_fh) (sp : spec) (o : op) : option (spec * outcome) :=
  match o with
  | Get flags =>
      if dir && negb (flags =? O_RDONLY) then Some (sp, Refused EISDIR)
      else
        match sp_random sp with
        | [] => None
        | bytes :: rest =>
            match sp_caps sp !! flags with
            | Some (v, b) => Some (Spec (<[flags := (v, b + 1)]> (sp_caps sp)) (sp_users sp) (sp_random sp), Verify v)
            | None => let v := digest id flags bytes in Some (Spec (<[flags := (v, 1)]> (sp_caps sp)) (sp_users sp) rest, Verify v)
            end
        end
  | Put c =>
      match sp_caps sp !! cap_flags c with
      | None => Some (sp, Refused EBADF)
      | Some (v, b) =>
          if negb (bool_decide (verify c = v)) then Some (sp, Refused EBADF)
          else if b <=? 0 then None
          else Some (Spec (if decide (b = 1 /\ sp_users sp = 0) then delete (cap_flags c) (sp_caps sp)
                           else <[cap_flags c := (v, b - 1)]> (sp_caps sp)) (sp_users sp) (sp_random sp), Done)
      end
  | Lock => Some (Spec (sp_caps sp) (sp_users sp + 1) (sp_random sp), Done)
  | Unlock =>
      if sp_users sp <=? 0 then None
      else Some (Spec (if decide (sp_users sp = 1) then filter (fun x => x.2.2 <> 0) (sp_caps sp) else sp_caps sp)
                  (sp_users sp - 1) (sp_random sp), Done)
  | Use _ => if decide (sp_caps sp = ∅) then None else Some (sp, Done)
  end.

Fixpoint spec_run (dir : bool) (id : zfs_fh) (sp : spec) (ops : list op) : option (spec * list outcome) :=
  match ops with
  | [] => Some (sp, [])
  | o :: ops =>
      '(sp, r) ← spec_step dir id sp o;
      '(sp, rs) ← spec_run dir id sp ops;
      Some (sp, r :: rs)
  end.

(** After at most [n] operations. *)
Record refines (n j : nat) s (fh : internal_fh) (sp : spec) l : Prop := {
  rf_caps : caps_ok s (fh_cap fh) l;
  rf_view : view l = sp_caps sp;
  rf_users : users fh = sp_users sp /\ 0 <= users fh <= Z.of_nat n;
  rf_busy : Forall (fun x => 0 <= busy x.2 <= Z.of_nat n) l;
  rf_random : urandom s = Some <$> sp_random sp /\ Forall (fun b => length b = 16%nat) (sp_random sp);
  rf_files : cache_ok (2 * Z.of_nat n) (2 * Z.of_nat n + 1) (files s) /\ is_Some (c_handles (files s) !! j);
  rf_closed : l = [] -> exists gen, c_handles (files s) !! j = Some (Handle (-1) gen)
}.

Lemma view_lookup l f v b : view l !! f = Some (v, b) -> exists p c, (p, c) ∈ l /\ busy c = b.
Proof.
  intros E%elem_of_list_to_map_2. apply list_elem_of_fmap in E as ([p c] & [= -> -> ->] & Hin). by exists p, c.
Qed.

Lemma busy_bound n l : (forall f v b, view l !! f = Some (v, b) -> 0 <= b <= n) -> NoDup (flags_of <$> l.*2) ->
  Forall (fun x => 0 <= busy x.2 <= n) l.
Proof.
  intros Hv Hn. apply Forall_forall. intros [p c] (l1 & l2 & ->)%list_elem_of_split. cbn. apply (Hv (flags_of c) (verify_of c)).
  rewrite !fmap_app in Hn. cbn in Hn. apply view_found. apply nodup_mid in Hn. naive_solver.
Qed.

Lemma view_busy_bound n l f v b : Forall (fun x => 0 <= busy x.2 <= n) l -> view l !! f = Some (v, b) -> 0 <= b <= n.
Proof. intros Hb (p & c & Hin & <-)%view_lookup. rewrite Forall_forall in Hb. exact (Hb _ Hin). Qed.

Lemma closed_after j l f f' : file_after j l f f' -> is_Some (c_handles f !! j) ->
  is_Some (c_handles f' !! j) /\ (l = [] -> exists gen, c_handles f' !! j = Some (Handle (-1) gen)).
Proof.
  intros [_ Ha] Hj. destruct l as [|x l]; [|by rewrite Ha]. destruct Ha as [gen E]. rewrite E. split; [by eexists|].
  intros _. by exists gen.
Qed.

(** What a step of the implementation owes to a step of the specification. *)
Definition step_post (max_fds : Z) (n j : nat) s (fh : internal_fh) l (o : op) (sp' : spec) (r : outcome) : Prop :=
  exists s' fh' l', impl_step max_fds j s fh o = Ok (s', fh', r) /\ refines (S n) j s' fh' sp' l' /\
    local_fh fh' = local_fh fh /\ is_dir fh' = is_dir fh /\ others_kept s s' l /\
    forall q, q ∈ l'.*1 -> q ∈ l.*1 \/ mem s !! q = None.

Lemma cache_later (n : nat) (f : FdCache.cache H) : cache_ok (2 * Z.of_nat n) (2 * Z.of_nat n + 1) f ->
  cache_ok (2 * Z.of_nat (S n)) (2 * Z.of_nat (S n) + 1) f.
Proof. intros Hf. eapply cache_ok_mono; [exact Hf|lia|lia]. Qed.

Lemma refines_later n j s fh sp l : refines n j s fh sp l -> refines (S n) j s fh sp l.
Proof.
  intros [H1 H2 H3 H4 H5 [H6 H6'] H7]. constructor; try done; [lia| |split; [by apply cache_later|done]].
  eapply Forall_impl; [exact H4|]. intros x Hx. cbn in *. lia.
Qed.

Lemma refused_ok max_fds n j s fh sp l o e : refines n j s fh sp l -> impl_step max_fds j s fh o = Ok (s, fh, e) ->
  step_post max_fds n j s fh l o sp e.
Proof.
  intros Hr E. exists s, fh, l. split; [done|]. split; [by apply refines_later|]. split; [done|]. split; [done|]. split; [done|].
  intros q Hq. by left.
Qed.

Lemma get_step max_fds n j s fh sp l flags sp' r : length stack = 64%nat -> refines n j s fh sp l -> 2 * Z.of_nat n + 2 < 2 ^ 32 ->
  spec_step (is_dir fh) (local_fh fh) sp (Get flags) = Some (sp', r) -> step_post max_fds n j s fh l (Get flags) sp' r.
Proof.
  intros Hst Hr Hn. cbn [spec_step]. destruct (is_dir fh && negb (flags =? O_RDONLY)) eqn:Hd.
  { intros [= <- <-]. apply refused_ok; [done|]. cbn. unfold get_capability. by rewrite Hd. }
  pose proof Hr as [H1 H2 H3 H4 [Hu Hl] [H6 H6'] H7]. destruct (sp_random sp) as [|bytes rest] eqn:Er; [done|].
  cbn in Hu. apply Forall_cons in Hl as [Hlen Hl].
  destruct (get_ok s fh l flags bytes (Some <$> rest) Hst H1) as (s' & h & p & l' & e & E & P1 & P2 & P3 & P4 & P5 & P6); [| |done|done|].
  { eapply Forall_impl; [exact H4|]. intros x Hx. unfold UINT32_MAX. cbn in *. lia. }
  { intros Hdir. rewrite Hdir in Hd. cbn in Hd. apply negb_false_iff in Hd. by apply Z.eqb_eq. }
  intros Es. assert (sp_caps sp' = <[flags := e]> (sp_caps sp) /\ sp_users sp' = sp_users sp /\ r = Verify e.1 /\
    urandom s' = Some <$> sp_random sp' /\ Forall (fun b => length b = 16%nat) (sp_random sp') /\ 0 <= e.2 <= Z.of_nat (S n)) as
    (Q1 & Q2 & -> & Q4 & Q5 & Q6).
  { rewrite H2 in P6. destruct (sp_caps sp !! flags) as [[v b]|] eqn:Ev; destruct P6 as [-> Hu']; injection Es as <- <-; cbn;
      rewrite Hu'; (split_and!; try done).
    - by constructor.
    - rewrite <-H2 in Ev. pose proof (view_busy_bound _ _ _ _ _ H4 Ev). lia.
    - rewrite <-H2 in Ev. pose proof (view_busy_bound _ _ _ _ _ H4 Ev). lia.
    - lia. }
  exists s', (set_cap fh h), l'. cbn [impl_step]. rewrite E. cbn [mbind res_bind]. split; [done|].
  split; [|split; [done|split; [done|by split]]]. rewrite <-P4 in H6, H6'. constructor; try done.
  - by rewrite P5, Q1, H2.
  - cbn. rewrite Q2. lia.
  - apply busy_bound; [|by destruct P1]. intros f v b Hv. rewrite P5 in Hv.
    apply lookup_insert_Some in Hv as [[_ E2]|[_ Hv]]; [rewrite E2 in Q6; exact Q6|].
    pose proof (view_busy_bound _ _ _ _ _ H4 Hv). lia.
  - split; [by apply cache_later|done].
  - intros ->. cbn in P5. symmetry in P5. by apply insert_non_empty in P5.
Qed.

Lemma put_step max_fds n j s fh sp l (c : zfs_cap) sp' r : refines n j s fh sp l -> 2 * Z.of_nat n + 2 < 2 ^ 32 ->
  spec_step (is_dir fh) (local_fh fh) sp (Put c) = Some (sp', r) -> step_post max_fds n j s fh l (Put c) sp' r.
Proof.
  intros Hr Hn. pose proof Hr as [H1 H2 H3 H4 H5 [H6 H6'] H7]. cbn [spec_step].
  destruct (find_ok s fh l c H1) as (rf & Ef & Hf). rewrite <-H2. destruct rf as [e|p].
  { intros Es. destruct Hf as [-> Hno]. assert (r = Refused EBADF /\ sp' = sp) as [-> ->].
    { destruct (view l !! cap_flags c) as [[v b]|] eqn:Ev; [|by injection Es].
      rewrite bool_decide_false in Es by (by eapply Hno). by injection Es. }
    apply refused_ok; [done|]. cbn [impl_step]. by rewrite Ef. }
  destruct Hf as (l1 & d & l2 & -> & Efl & Ev & ->). rewrite bool_decide_true by done. cbn [negb].
  destruct (Z.leb_spec (busy d) 0) as [?|Hb]; [done|]. intros [= <- <-].
  pose proof (caps_mid _ _ _ _ _ _ H1) as (_ & (F1 & F2 & _) & _).
  pose proof H4 as H4'. apply Forall_app in H4' as [B1 [Bd B2]%Forall_cons]. cbn in Bd.
  destruct (put_ok s j fh l1 l2 p d _ H1 ltac:(lia) H6 H6' ltac:(lia)) as (s' & h & E & P1 & P2 & P3 & P4 & P5).
  destruct (closed_after _ _ _ _ P4 H6') as [P6 P7].
  eexists s', (set_cap fh h), _. cbn [impl_step]. rewrite Ef. cbn [mbind res_bind]. rewrite E. cbn [mbind res_bind].
  split; [done|]. split; [|split; [done|split; [done|split; [done|]]]].
  - destruct H3 as [H3 H3']. rewrite H3 in P1, P7 |- *. constructor; cbn; try done.
    + rewrite <-Efl, <-Ev. case_decide; [by apply view_dropped|by apply view_busy].
    + lia.
    + case_decide; [apply Forall_app_2|apply Forall_app_2; [|constructor; [cbn; lia|]]]; (eapply Forall_impl; [eassumption|]; cbn; lia).
    + by rewrite P5.
    + split; [by apply cache_later|done].
  - intros q Hq. left. case_decide; rewrite fmap_app in *; set_solver.
Qed.

Lemma lock_step max_fds n j s fh sp l : refines n j s fh sp l -> 2 * Z.of_nat n + 2 < 2 ^ 32 ->
  step_post max_fds n j s fh l Lock (Spec (sp_caps sp) (sp_users sp + 1) (sp_random sp)) Done.
Proof.
  intros Hr Hn. pose proof (refines_later _ _ _ _ _ _ Hr) as [H1 H2 H3 H4 H5 H6 H7]. destruct Hr as [_ _ [E Hu] _ _ _ _].
  exists s, (lock_fh fh), l. cbn [impl_step]. split; [done|].
  split; [|split; [done|split; [done|split; [done|by left]]]]. constructor; try done. cbn. rewrite (wrap_small 32) by lia. lia.
Qed.

Lemma used_sub l x : x ∈ used l -> x ∈ l.
Proof. unfold used. by intros [_ ?]%list_elem_of_filter. Qed.

Lemma unlock_step max_fds n j s fh sp l sp' r : refines n j s fh sp l -> 2 * Z.of_nat n + 2 < 2 ^ 32 ->
  spec_step (is_dir fh) (local_fh fh) sp Unlock = Some (sp', r) -> step_post max_fds n j s fh l Unlock sp' r.
Proof.
  intros Hr Hn. cbn [spec_step]. destruct (Z.leb_spec (sp_users sp) 0) as [?|Hu]; [done|]. intros [= <- <-].
  pose proof Hr as [H1 H2 [H3 H3'] H4 H5 [H6 H6'] H7].
  pose proof (refines_later _ _ _ _ _ _ Hr) as [_ _ _ L4 _ [L6 _] _].
  unfold step_post. cbn [impl_step]. unfold unlock_fh. rewrite H3, (proj2 (Z.eqb_neq _ _)), (wrap_small 32) by lia. cbn [users set_users].
  destruct (Z.eqb_spec (sp_users sp - 1) 0) as [E|E].
  - destruct (destroy_unused_ok s j (set_users fh (sp_users sp - 1)) l _ H1 H6 H6' ltac:(lia)) as (s' & h & -> & P1 & P2 & P3 & P4 & P5).
    cbn [mbind res_bind]. destruct (closed_after _ _ _ _ P4 H6') as [P6 P7].
    eexists _, _, (used l). split; [done|]. split; [|split; [done|split; [done|split; [done|]]]].
    + constructor; cbn; try done; [|lia| |by rewrite P5|split; [by apply cache_later|done]].
      * rewrite decide_True by lia. rewrite (caps_used _ _ _ H1). by rewrite H2.
      * apply Forall_forall. intros x Hx%used_sub. rewrite Forall_forall in L4. by apply L4.
    + intros q ([? c] & -> & Hq)%list_elem_of_fmap. left. apply list_elem_of_fmap. eexists. split; [done|]. by apply used_sub.
  - cbn [mbind res_bind]. eexists s, _, l. split; [done|]. split; [|split; [done|split; [done|split; [done|by left]]]].
    constructor; cbn; try done; [|lia]. by rewrite decide_False by lia.
Qed.

Lemma use_step max_fds n j s fh sp l flags sp' r : refines n j s fh sp l -> 2 * Z.of_nat n + 2 < 2 ^ 32 -> max_fds <= UINT32_MAX ->
  spec_step (is_dir fh) (local_fh fh) sp (Use flags) = Some (sp', r) -> step_post max_fds n j s fh l (Use flags) sp' r.
Proof.
  intros Hr Hn Hmax. cbn [spec_step]. case_decide as Hne; [done|]. intros [= <- <-].
  pose proof (refines_later _ _ _ _ _ _ Hr) as [L1 L2 L3 L4 L5 L6 L7]. destruct Hr as [H1 H2 H3 H4 H5 [H6 [h H6']] H7].
  destruct (capability_open_ok max_fds _ _ j h true flags H6 H6' Hn Hmax) as (f & o & E & Hf & _ & Hs & _).
  exists (set_files s f), fh, l. cbn [impl_step]. rewrite E. cbn [mbind res_bind]. split; [done|].
  split; [|split; [done|split; [done|split; [done|by left]]]].
  constructor; try done; [by destruct L1|split; [|done]|].
  - eapply cache_ok_mono; [exact Hf|lia|lia].
  - intros ->. by destruct Hne.
Qed.

Lemma step_refines max_fds n j s fh sp l o sp' r : length stack = 64%nat -> refines n j s fh sp l ->
  2 * Z.of_nat n + 2 < 2 ^ 32 -> max_fds <= UINT32_MAX -> spec_step (is_dir fh) (local_fh fh) sp o = Some (sp', r) ->
  step_post max_fds n j s fh l o sp' r.
Proof.
  intros Hst Hr Hn Hmax. destruct o.
  - by apply get_step.
  - by apply put_step.
  - intros [= <- <-]. by apply lock_step.
  - by apply unlock_step.
  - by apply use_step.
Qed.

Lemma run_refines max_fds j ops : forall n s fh sp l sp' rs, length stack = 64%nat -> max_fds <= UINT32_MAX -> refines n j s fh sp l ->
  2 * Z.of_nat (n + length ops) < 2 ^ 32 -> spec_run (is_dir fh) (local_fh fh) sp ops = Some (sp', rs) ->
  exists s' fh' l', impl_run max_fds j s fh ops = Ok (s', fh', rs) /\ refines (n + length ops) j s' fh' sp' l' /\
    others_kept s s' l /\ forall q, q ∈ l'.*1 -> q ∈ l.*1 \/ mem s !! q = None.
Proof.
  induction ops as [|o ops IH]; intros n s fh sp l sp' rs Hst Hmax Hr Hn; cbn [spec_run impl_run].
  { intros [= <- <-]. exists s, fh, l. rewrite Nat.add_0_r. split; [done|]. split; [done|]. split; [done|]. by left. }
  destruct (spec_step _ _ sp o) as [[sp1 r]|] eqn:E1; [|done]. cbn [mbind option_bind].
  destruct (spec_run _ _ sp1 ops) as [[sp2 rs']|] eqn:E2; [|done]. cbn [mbind option_bind]. intros [= <- <-]. cbn [length] in Hn.
  destruct (step_refines max_fds n j s fh sp l o sp1 r Hst Hr ltac:(lia) Hmax E1) as (s1 & fh1 & l1 & -> & Hr1 & I1 & I2 & K1 & K2).
  cbn [mbind res_bind]. rewrite <-I1, <-I2 in E2.
  destruct (IH (S n) s1 fh1 sp1 l1 sp2 rs' Hst Hmax Hr1 ltac:(lia) E2) as (s' & fh' & l' & -> & Hr' & K3 & K4).
  cbn [mbind res_bind]. exists s', fh', l'. split; [done|]. cbn [length]. rewrite <-Nat.add_succ_comm. split; [done|].
  split; [by eapply kept_trans|]. intros q Hq. destruct (K4 q Hq) as [?|E]; [by apply K2|].
  destruct (mem s !! q) as [d|] eqn:Eq; [|by right]. left. destruct (decide (q ∈ l.*1)) as [?|Hni]; [done|].
  rewrite (K1 q Hni) in E; [congruence|]. by eexists.
Qed.

(** C10. What the clients of a file handle see is a map from flags to a digest and a
    number of clients: whatever sequence of opens, closes, locks, unlocks and uses they
    make, the lists, counters and digests in memory give them the same results, do
    not fail, leave the capabilities of other file handles alone, and the file has no
    descriptor once no capability is left. *)
Theorem capability_refines max_fds j s fh sp l ops sp' rs :
  length stack = 64%nat -> max_fds <= UINT32_MAX -> refines 0 j s fh sp l -> 2 * Z.of_nat (length ops) < 2 ^ 32 ->
  spec_run (is_dir fh) (local_fh fh) sp ops = Some (sp', rs) ->
  exists s' fh' l', impl_run max_fds j s fh ops = Ok (s', fh', rs) /\ view l' = sp_caps sp' /\ caps_ok s' (fh_cap fh') l' /\
    others_kept s s' l /\ (sp_caps sp' = ∅ -> exists gen, c_handles (files s') !! j = Some (Handle (-1) gen)).
Proof.
  intros Hst Hmax Hr Hn E. destruct (run_refines max_fds j ops 0 s fh sp l sp' rs Hst Hmax Hr Hn E) as (s' & fh' & l' & Ei & Hr' & Hk & _).
  destruct Hr' as [R1 R2 _ _ _ _ R7]. exists s', fh', l'. split; [done|]. split; [done|]. split; [done|]. split; [done|].
  intros E0. apply R7. apply view_empty. by rewrite R2.
Qed.

(** Every digest was given to a client or was there before. *)
Lemma spec_run_issued dir id ops : forall sp sp' rs f v b, spec_run dir id sp ops = Some (sp', rs) ->
  sp_caps sp' !! f = Some (v, b) -> Verify v ∈ rs \/ exists b0, sp_caps sp !! f = Some (v, b0).
Proof.
  induction ops as [|o ops IH]; intros sp sp' rs f v b; cbn [spec_run].
  { intros [= <- <-] E. right. by exists b. }
  destruct (spec_step dir id sp o) as [[sp1 r]|] eqn:E1; [|done]. cbn [mbind option_bind].
  destruct (spec_run dir id sp1 ops) as [[sp2 rs']|] eqn:E2; [|done]. cbn [mbind option_bind]. intros [= <- <-] Ev.
  destruct (IH _ _ _ _ _ _ E2 Ev) as [Hin|[b0 E0]]; [left; by right|].
  assert (r = Verify v \/ exists b1, sp_caps sp !! f = Some (v, b1)) as [-> |Hr]; [|left; by left|by right].
  destruct o as [flags|c| | |flags]; cbn [spec_step] in E1.
  - destruct (dir && negb (flags =? O_RDONLY)); [injection E1 as <- <-; right; by exists b0|].
    destruct (sp_random sp) as [|bytes rest]; [done|].
    destruct (sp_caps sp !! flags) as [[w b1]|] eqn:Ef; injection E1 as <- <-; cbn in E0;
      apply lookup_insert_Some in E0 as [[<- [= <- _]]|[_ E0]]; [by left|right; by exists b0|by left|right; by exists b0].
  - right. destruct (sp_caps sp !! cap_flags c) as [[w b1]|] eqn:Ef; [|injection E1 as <- <-; by exists b0].
    destruct (negb _); [injection E1 as <- <-; by exists b0|]. destruct (b1 <=? 0); [done|]. injection E1 as <- <-. cbn in E0.
    case_decide; [apply lookup_delete_Some in E0 as [_ E0]; by exists b0|].
    apply lookup_insert_Some in E0 as [[<- [= <- _]]|[_ E0]]; [by exists b1|by exists b0].
  - injection E1 as <- <-. right. by exists b0.
  - destruct (sp_users sp <=? 0); [done|]. injection E1 as <- <-. cbn in E0. right. case_decide; [|by exists b0].
    apply map_lookup_filter_Some in E0 as [E0 _]. by exists b0.
  - case_decide; [done|]. injection E1 as <- <-. right. by exists b0.
Qed.

(** C11. A capability that is accepted was issued: from a file handle without
    capabilities, after any sequence of operations, [find_capability] accepts exactly
    the capabilities of the map, and their digests were returned to a client that
    opened the file; anything else is refused with [EBADF]. *)
Theorem accepted_capability_was_issued max_fds j s fh sp ops sp' rs (c : zfs_cap) :
  length stack = 64%nat -> max_fds <= UINT32_MAX -> refines 0 j s fh sp [] -> 2 * Z.of_nat (length ops) < 2 ^ 32 ->
  spec_run (is_dir fh) (local_fh fh) sp ops = Some (sp', rs) ->
  exists s' fh' r, impl_run max_fds j s fh ops = Ok (s', fh', rs) /\ find_capability_nolock s' c (Some fh') None = Ok r /\
    match r with
    | inr p => Verify (verify c) ∈ rs /\ exists b, sp_caps sp' !! cap_flags c = Some (verify c, b)
    | inl e => e = EBADF /\ forall v b, sp_caps sp' !! cap_flags c = Some (v, b) -> verify c <> v
    end.
Proof.
  intros Hst Hmax Hr Hn E. destruct (run_refines max_fds j ops 0 s fh sp [] sp' rs Hst Hmax Hr Hn E) as (s' & fh' & l' & Ei & Hr' & _).
  destruct Hr' as [R1 R2 _ _ _ _ _]. destruct (find_ok s' fh' l' c R1) as (r & Ef & Hf). exists s', fh', r.
  split; [done|]. split; [done|]. rewrite R2 in Hf. destruct r as [e|p]; [done|]. destruct Hf as (l1 & d & l2 & _ & _ & _ & Ev).
  split; [|by eexists]. destruct (spec_run_issued _ _ _ _ _ _ _ _ _ E Ev) as [?|[b0 E0]]; [done|].
  destruct Hr as [_ R0 _ _ _ _ _]. by rewrite <-R0 in E0.
Qed.

(** When no random bytes can be read, opening a file whose capability does not
    exist yet dereferences the null pointer that [internal_cap_create_fh] returns. *)
Theorem no_random_bytes_crash s fh l flags rest : caps_ok s (fh_cap fh) l -> flags ∉ flags_of <$> l.*2 ->
  (is_dir fh = true -> flags = O_RDONLY) -> urandom s = None :: rest ->
  get_capability s (Some fh) None flags = Aborted /\ get_capability_no_zfs_fh_lookup s fh flags = Aborted.
Proof.
  intros Hok Hn Hdir Hu. unfold get_capability, get_capability_no_zfs_fh_lookup, internal_cap_create_fh.
  assert (is_dir fh && negb (flags =? O_RDONLY) = false) as -> by (destruct (is_dir fh); [by rewrite Hdir|done]).
  destruct (fh_cap_with_flags_ok s fh flags l Hok) as [(l1 & p & c & l2 & -> & <- & _)|[_ ->]].
  { destruct Hn. rewrite !fmap_app. set_solver. }
  cbn [mbind res_bind]. destruct (create_cap_fails s _ l (local_fh fh) flags rest Hok Hu) as (s' & -> & _). done.
Qed.

(** The capability of a virtual directory that is the root of a volume outlives
    its last client: [zfs_close] holds the lock of the file handle, so
    [put_capability] keeps the capability, releasing the lock destroys only those of
    the file handle, and the closed capability is still accepted; another close makes
    the number of clients 2^32 - 1. *)
Theorem closed_directory_still_accepted s j p c (fh : internal_fh) (vd : virtual_dir) :
  vd_cap vd = Some p -> mem s !! p = Some (Cell c None) -> busy c = 1 -> 0 < users fh ->
  exists s' s'', put_capability s j p (Some fh) (Some vd) = Ok (s', Some fh, Some vd) /\
    find_capability_nolock s' (local_cap c) (Some fh) (Some vd) = Ok (inr p) /\
    put_capability s' j p (Some fh) (Some vd) = Ok (s'', Some fh, Some vd) /\
    mem s'' !! p = Some (Cell (set_busy c UINT32_MAX) None).
Proof.
  intros Hv Hp Hb Hu. unfold put_capability. rewrite (deref_some _ _ _ Hp). cbn [mbind res_bind cap next]. rewrite Hb.
  rewrite (proj2 (Z.eqb_neq (users fh) 0)), andb_false_r by lia. eexists _, _. split; [done|].
  unfold find_capability_nolock. rewrite Hv. cbn [mbind res_bind].
  rewrite (deref_some _ _ (Cell (set_busy c 0) None)) by apply lookup_insert_eq. cbn [mbind res_bind cap next busy set_busy].
  unfold verify_capability. rewrite decide_True by done. split; [done|].
  split; [done|]. cbn. by rewrite lookup_insert_eq.
Qed.
End capability.
Arguments state H : clear implicits.

(** ** A file handle with two clients *)

Definition some_fh : zfs_fh := MkFh 1 2 3 4 5.
Definition junk : list Z := replicate 64 0.
Definition bytes1 : list Z := replicate 16 7.
Definition one_handle : internal_fh := Fh some_fh false None 0.
Definition pool4 : alloc_pool := match create_alloc_pool 4 with Ok pl => pl | _ => MkPool 4 [] 0 0 0 [] 0 end.
Definition idle : state (fibheap nat) := St ∅ pool4 [Some bytes1; Some bytes1] cache1.
Definition idle_spec : spec := Spec ∅ 0 [bytes1; bytes1].
Definition issued : zfs_cap := Eval vm_compute in MkCap some_fh 0 (digest some_fh 0 bytes1).

Lemma cache1_ok : cache_ok 0 1 cache1.
Proof.
  apply (set_handle_ok 0 1 small_cache 1); [exact small_cache_ok|by left|]. intros i d _ _ E.
  assert (c_handles small_cache = ∅) as E0 by (vm_compute; reflexivity). by rewrite E0, lookup_empty in E.
Qed.

Lemma empty_caps_ok (r : list (option (list Z))) : caps_ok (St ∅ pool4 r cache1) None [].
Proof.
  constructor; [done|constructor|constructor| |].
  - destruct (create_alloc_pool_ok 4) as (pl & E & Hp & _); [lia|]. unfold pool4. by rewrite E.
  - intros p. cbn. rewrite lookup_empty. split; [by intros ?%not_elem_of_nil|by intros [? ?]].
Qed.

Lemma idle_refines : refines 0 1 idle one_handle idle_spec [].
Proof.
  constructor; [apply empty_caps_ok|done|done|done| |split; [exact cache1_ok|]|].
  - split; [done|]. by repeat constructor.
  - cbn. unfold cache1. cbn. rewrite lookup_insert_eq. by eexists.
  - intros _. exists 0. cbn. unfold cache1. cbn. by rewrite lookup_insert_eq.
Qed.

(** Two clients share a capability; after both closed it the third close is refused. *)
Lemma capability_refines_witness :
  exists s' fh', impl_run junk [] 2 1 idle one_handle [Get 0; Get 0; Lock; Use 0; Put issued; Unlock; Put issued; Put issued] =
    Ok (s', fh', [Verify (verify issued); Verify (verify issued); Done; Done; Done; Done; Done; Refused EBADF]) /\
    exists gen, c_handles (files s') !! 1%nat = Some (Handle (-1) gen).
Proof.
  destruct (capability_refines junk [] 2 1 idle one_handle idle_spec [] [Get 0; Get 0; Lock; Use 0; Put issued; Unlock; Put issued; Put issued]
    (Spec ∅ 0 [bytes1]) [Verify (verify issued); Verify (verify issued); Done; Done; Done; Done; Done; Refused EBADF])
    as (s' & fh' & l' & E & _ & _ & _ & Hc); [reflexivity|discriminate|exact idle_refines|reflexivity|vm_compute; reflexivity|].
  exists s', fh'. split; [exact E|exact (Hc eq_refl)].
Defined.

Lemma accepted_capability_was_issued_witness :
  exists s' fh', impl_run junk [] 2 1 idle one_handle [Get 0] = Ok (s', fh', [Verify (verify issued)]) /\
    find_capability_nolock s' (MkCap some_fh 0 []) (Some fh') None = Ok (inl EBADF).
Proof.
  destruct (accepted_capability_was_issued junk [] 2 1 idle one_handle idle_spec [Get 0]
    (Spec {[0 := (verify issued, 1)]} 0 [bytes1]) [Verify (verify issued)] (MkCap some_fh 0 []))
    as (s' & fh' & r & E & Ef & Hr); [reflexivity|discriminate|exact idle_refines|reflexivity|vm_compute; reflexivity|].
  exists s', fh'. split; [exact E|]. rewrite Ef. destruct r as [e|p]; [destruct Hr as [-> _]; reflexivity|].
  destruct Hr as [_ [b Hb]]. exfalso. cbn [sp_caps cap_flags] in Hb. rewrite lookup_singleton_eq in Hb.
  cbn in Hb. discriminate.
Defined.

Lemma no_random_bytes_crash_witness :
  get_capability junk [] (St ∅ pool4 [None] cache1) (Some one_handle) None 2 = Aborted.
Proof.
  destruct (no_random_bytes_crash junk [] (St ∅ pool4 [None] cache1) one_handle [] 2 []) as [E _];
    [apply empty_caps_ok|by apply not_elem_of_nil|discriminate|reflexivity|exact E].
Defined.

(** The root of a volume, opened once, is closed twice. *)
Definition root_cap : internal_cap := Cap issued (MkCap undefined_fh UINT32_MAX []) 1 0 false.
Definition root_vd : virtual_dir := Vd some_fh (Some 7%nat).
Definition open_root : state (fibheap nat) := St {[7%nat := Cell root_cap None]} pool4 [] cache1.

Lemma closed_directory_still_accepted_witness :
  exists s', put_capability open_root 1 7 (Some (lock_fh one_handle)) (Some root_vd) = Ok (s', Some (lock_fh one_handle), Some root_vd) /\
    find_capability_nolock s' issued (Some (lock_fh one_handle)) (Some root_vd) = Ok (inr 7%nat).
Proof.
  destruct (closed_directory_still_accepted open_root 1 7 root_cap (lock_fh one_handle) root_vd) as (s' & _ & E1 & E2 & _);
    [reflexivity|reflexivity|reflexivity|reflexivity|exists s'; split; [exact E1|exact E2]].
Defined.
