(* ===== verification/Metadata.v ===== *)
(** Metadata of files: the parts of [src/zfsd/fs-entities/metadata/metadata.c] and
    [metadata.h] that do not depend on the cache of open files: file types and
    modes, the layout of the structures [metadata] and [fh_mapping] in the hash
    files, their hash and comparison functions, the paths of metadata files, and
    the initialisation of the hash files of a volume.

    The machine is little-endian, so [metadata_encode] and [metadata_decode] are
    null, as the header defines them.  A structure in memory is the list of its
    bytes. *)

From S2P Require Import Prelude FileIO Crc32 DataCoding PosixFs SlotTable HashFile.
#[local] Open Scope zfs_scope.
#[local] Open Scope Z_scope.

(** ** File types and modes *)

Definition S_IFMT : Z := 0xF000.
Definition S_IFSOCK : Z := 0xC000.
Definition S_IFLNK : Z := 0xA000.
Definition S_IFREG : Z := 0x8000.
Definition S_IFBLK : Z := 0x6000.
Definition S_IFDIR : Z := 0x4000.
Definition S_IFCHR : Z := 0x2000.
Definition S_IFIFO : Z := 0x1000.

#[export] Instance ftype_eq_dec : EqDecision ftype.
Proof. solve_decision. Defined.

Definition zfs_ftype_to_mode (t : ftype) : Z :=
  match t with
  | FT_BAD => 0
  | FT_REG => S_IFREG
  | FT_DIR => S_IFDIR
  | FT_LNK => S_IFLNK
  | FT_BLK => S_IFBLK
  | FT_CHR => S_IFCHR
  | FT_SOCK => S_IFSOCK
  | FT_FIFO => S_IFIFO
  end.

Definition zfs_mode_to_ftype (mode : Z) : ftype :=
  let m := Z.land mode S_IFMT in
  if m =? S_IFSOCK then FT_SOCK
  else if m =? S_IFLNK then FT_LNK
  else if m =? S_IFREG then FT_REG
  else if m =? S_IFBLK then FT_BLK
  else if m =? S_IFDIR then FT_DIR
  else if m =? S_IFCHR then FT_CHR
  else if m =? S_IFIFO then FT_FIFO
  else FT_BAD.

(** [S_IRWXU | S_IRWXG | S_IRWXO | S_ISUID | S_ISGID | S_ISVTX] *)
Definition MODE_BITS : Z := 0xFFF.
Definition GET_MODE (mode : Z) : Z := Z.land mode MODE_BITS.
Definition GET_MODETYPE (mode type : Z) : Z := Z.lor (GET_MODE mode) (u32 (Z.shiftl type 24)).
Definition GET_MODETYPE_MODE (modetype : Z) : Z := Z.land modetype 0xffffff.
Definition GET_MODETYPE_TYPE (modetype : Z) : Z := Z.shiftr modetype 24.

(** ** Structures *)

Definition METADATA_NAME_SIZE : Z := 52.

Record metadata := MkMeta {
  slot_status : Z; flags : Z; meta_dev : Z; meta_ino : Z; meta_gen : Z;
  master_fh : zfs_fh; local_version : Z; master_version : Z;
  modetype : Z; uid : Z; gid : Z; parent_dev : Z; parent_ino : Z;
  meta_name : list Z
}.

Record fh_mapping := MkMapping { map_status : Z; map_master_fh : zfs_fh; map_local_fh : zfs_fh }.

(** The structures in memory; there is no padding. *)
Definition fh_bytes (f : zfs_fh) : list Z :=
  le_bytes 4 (sid f) ++ le_bytes 4 (vid f) ++ le_bytes 4 (dev f) ++ le_bytes 4 (ino f) ++ le_bytes 4 (gen f).

Definition metadata_bytes (m : metadata) : list Z :=
  le_bytes 4 (slot_status m) ++ le_bytes 4 (flags m) ++ le_bytes 4 (meta_dev m) ++ le_bytes 4 (meta_ino m) ++
  le_bytes 4 (meta_gen m) ++ fh_bytes (master_fh m) ++ le_bytes 8 (local_version m) ++
  le_bytes 8 (master_version m) ++ le_bytes 4 (modetype m) ++ le_bytes 4 (uid m) ++ le_bytes 4 (gid m) ++
  le_bytes 4 (parent_dev m) ++ le_bytes 4 (parent_ino m) ++ meta_name m.

Definition mapping_bytes (m : fh_mapping) : list Z :=
  le_bytes 4 (map_status m) ++ fh_bytes (map_master_fh m) ++ fh_bytes (map_local_fh m).

(** A field of [n] bytes at an offset. *)
Definition field_at (n off : nat) (x : list Z) : Z := le_value (take n (drop off x)).
Definition u32_at : nat -> list Z -> Z := field_at 4.
Definition u64_at : nat -> list Z -> Z := field_at 8.

Definition fh_at (off : nat) (x : list Z) : zfs_fh :=
  MkFh (u32_at off x) (u32_at (off + 4) x) (u32_at (off + 8) x) (u32_at (off + 12) x) (u32_at (off + 16) x).

Definition metadata_at (x : list Z) : metadata :=
  MkMeta (u32_at 0 x) (u32_at 4 x) (u32_at 8 x) (u32_at 12 x) (u32_at 16 x) (fh_at 20 x)
    (u64_at 40 x) (u64_at 48 x) (u32_at 56 x) (u32_at 60 x) (u32_at 64 x) (u32_at 68 x) (u32_at 72 x)
    (take 52 (drop 76 x)).

Definition mapping_at (x : list Z) : fh_mapping := MkMapping (u32_at 0 x) (fh_at 4 x) (fh_at 24 x).

(** [sizeof] and [offsetof (metadata, parent_dev)] *)
Definition METADATA_SIZE : Z := 128.
Definition METADATA_BASE : Z := 68.
Definition FH_MAPPING_SIZE : Z := 44.

(** [METADATA_HASH] and [FH_MAPPING_HASH] hash the words of device and inode. *)
Definition words_hash (d i : Z) : Z := crc32_update (crc32_buffer (le_bytes 4 d)) (le_bytes 4 i).
Definition metadata_hash (x : list Z) : Z := words_hash (u32_at 8 x) (u32_at 12 x).
Definition metadata_eq (x y : list Z) : bool :=
  (u32_at 8 x =? u32_at 8 y) && (u32_at 12 x =? u32_at 12 y).
Definition fh_mapping_hash (x : list Z) : Z := words_hash (u32_at 12 x) (u32_at 16 x).
Definition fh_mapping_eq (x y : list Z) : bool :=
  (u32_at 12 x =? u32_at 12 y) && (u32_at 16 x =? u32_at 16 y).

(** ** Initialising a hash file

    What [init_volume_metadata] does with each of its two hash files once it is
    open; the result [false] is followed by [close_volume_metadata]. *)
Definition init_hash_file (w : world) (h : hfile) : res (world * hfile * bool) :=
  let '(w, st0) := fstat w (fd h) in
  match st0 with
  | None => Ok (w, h, false)
  | Some st0 =>
      '(w, h, st, r) ← hfile_init w h;
      if (r : bool) then Ok (w, h, true)
      else
        let st := default st0 st in
        if negb (st_reg st) then Ok (w, h, false)
        else if st_size st <? element_size h then
          '(w, r) ← fd_write w (fd h) (encode_header 0 0);
          if negb r then Ok (unlink w (file_name h), h, false)
          else
            let '(w, r) := ftruncate w (fd h) (u64 (u64 (hf_size h * element_size h) + element_size h)) in
            if r <? 0 then Ok (unlink w (file_name h), h, false) else Ok (w, h, true)
        else Ok (w, h, false)
  end.

(** The structures created for a volume. *)
Definition create_metadata_file (path : string) : res hfile :=
  hfile_create METADATA_SIZE METADATA_BASE 32 metadata_hash metadata_eq None None path.
Definition create_fh_mapping_file (path : string) : res hfile :=
  hfile_create FH_MAPPING_SIZE FH_MAPPING_SIZE 32 fh_mapping_hash fh_mapping_eq None None path.

(** ** Layout *)

Definition fh_wf (f : zfs_fh) : Prop :=
  is_u32 (sid f) /\ is_u32 (vid f) /\ is_u32 (dev f) /\ is_u32 (ino f) /\ is_u32 (gen f).

Record metadata_wf (m : metadata) : Prop := {
  mw_head : is_u32 (slot_status m) /\ is_u32 (flags m) /\ is_u32 (meta_dev m) /\ is_u32 (meta_ino m) /\
    is_u32 (meta_gen m);
  mw_fh : fh_wf (master_fh m);
  mw_versions : is_u64 (local_version m) /\ is_u64 (master_version m);
  mw_tail : is_u32 (modetype m) /\ is_u32 (uid m) /\ is_u32 (gid m) /\ is_u32 (parent_dev m) /\
    is_u32 (parent_ino m);
  mw_name : length (meta_name m) = 52%nat
}.

Definition mapping_wf (m : fh_mapping) : Prop :=
  is_u32 (map_status m) /\ fh_wf (map_master_fh m) /\ fh_wf (map_local_fh m).

Lemma le_value_u32 v : is_u32 v -> le_value (le_bytes 4 v) = v.
Proof. intros H. rewrite le_value_bytes. by apply Z.mod_small. Qed.

Lemma le_value_u64 v : is_u64 v -> le_value (le_bytes 8 v) = v.
Proof. intros H. rewrite le_value_bytes. by apply Z.mod_small. Qed.

Lemma length_metadata_bytes m : metadata_wf m -> Z.of_nat (length (metadata_bytes m)) = METADATA_SIZE.
Proof. intros H. cbn. rewrite (mw_name _ H). done. Qed.

Lemma length_mapping_bytes m : Z.of_nat (length (mapping_bytes m)) = FH_MAPPING_SIZE.
Proof. done. Qed.

Lemma metadata_at_bytes m : metadata_wf m -> metadata_at (metadata_bytes m) = m.
Proof.
  intros [(?&?&?&?&?) (?&?&?&?&?) (?&?) (?&?&?&?&?) Hn]. destruct m as [? ? ? ? ? [] ? ? ? ? ? ? ? name]; cbn in *.
  match goal with |- metadata_at ?b = MkMeta ?s ?f ?d ?i ?g (MkFh ?a1 ?a2 ?a3 ?a4 ?a5) ?l ?mv ?mt ?u ?gi ?pd ?pi _ =>
    change (metadata_at b) with (MkMeta (le_value (le_bytes 4 s)) (le_value (le_bytes 4 f)) (le_value (le_bytes 4 d))
      (le_value (le_bytes 4 i)) (le_value (le_bytes 4 g))
      (MkFh (le_value (le_bytes 4 a1)) (le_value (le_bytes 4 a2)) (le_value (le_bytes 4 a3))
        (le_value (le_bytes 4 a4)) (le_value (le_bytes 4 a5)))
      (le_value (le_bytes 8 l)) (le_value (le_bytes 8 mv)) (le_value (le_bytes 4 mt)) (le_value (le_bytes 4 u))
      (le_value (le_bytes 4 gi)) (le_value (le_bytes 4 pd)) (le_value (le_bytes 4 pi)) (take 52 name)) end.
  rewrite !le_value_u32, !le_value_u64, take_ge by (done || lia). done.
Qed.

Lemma mapping_at_bytes m : mapping_wf m -> mapping_at (mapping_bytes m) = m.
Proof.
  intros (? & (?&?&?&?&?) & (?&?&?&?&?)). destruct m as [? [] []]; cbn in *.
  match goal with |- mapping_at ?b = MkMapping ?s (MkFh ?a1 ?a2 ?a3 ?a4 ?a5) (MkFh ?b1 ?b2 ?b3 ?b4 ?b5) =>
    change (mapping_at b) with (MkMapping (le_value (le_bytes 4 s))
      (MkFh (le_value (le_bytes 4 a1)) (le_value (le_bytes 4 a2)) (le_value (le_bytes 4 a3))
        (le_value (le_bytes 4 a4)) (le_value (le_bytes 4 a5)))
      (MkFh (le_value (le_bytes 4 b1)) (le_value (le_bytes 4 b2)) (le_value (le_bytes 4 b3))
        (le_value (le_bytes 4 b4)) (le_value (le_bytes 4 b5)))) end.
  by rewrite !le_value_u32.
Qed.

(** ** The hash files keep their elements under device and inode *)

Lemma field_status n off s x : length s = 4%nat -> (4 <= off)%nat ->
  field_at n off (s ++ drop 4 x) = field_at n off x.
Proof.
  intros Hs Ho. unfold field_at. rewrite drop_app_ge, drop_drop by lia. do 3 f_equal. lia.
Qed.

Lemma field_base n off base x y : (off + n <= base)%nat -> take base x = take base y ->
  field_at n off x = field_at n off y.
Proof.
  intros Hb E. unfold field_at. rewrite !take_drop_commute. do 2 f_equal.
  rewrite <-(Nat.min_l (off + n) base), <-!take_take, E by lia. done.
Qed.

Lemma words_hash_range d i : 0 <= words_hash d i < 2 ^ 32.
Proof. apply crc32_update_u32, crc32_buffer_u32. Qed.

Lemma eq_words a b c d : (a =? c) && (b =? d) = true <-> (a, b) = (c, d).
Proof. rewrite andb_true_iff, !Z.eqb_eq. naive_solver. Qed.

#[export] Instance metadata_keys : HfileKeys (Z * Z) (Z.to_nat METADATA_BASE) metadata_hash metadata_eq.
Proof.
  refine {| hkey := fun x => (u32_at 8 x, u32_at 12 x) |}.
  - intros x y. apply eq_words.
  - intros x y [= E1 E2]. unfold metadata_hash. by rewrite E1, E2.
  - intros x. unfold metadata_hash. apply words_hash_range.
  - intros s x Hs. unfold u32_at. by rewrite !field_status by (done || lia).
  - intros x y E. unfold u32_at. f_equal; (eapply field_base; [|exact E]); unfold METADATA_BASE, FH_MAPPING_SIZE; lia.
Defined.

#[export] Instance fh_mapping_keys : HfileKeys (Z * Z) (Z.to_nat FH_MAPPING_SIZE) fh_mapping_hash fh_mapping_eq.
Proof.
  refine {| hkey := fun x => (u32_at 12 x, u32_at 16 x) |}.
  - intros x y. apply eq_words.
  - intros x y [= E1 E2]. unfold fh_mapping_hash. by rewrite E1, E2.
  - intros x. unfold fh_mapping_hash. apply words_hash_range.
  - intros s x Hs. unfold u32_at. by rewrite !field_status by (done || lia).
  - intros x y E. unfold u32_at. f_equal; (eapply field_base; [|exact E]); unfold METADATA_BASE, FH_MAPPING_SIZE; lia.
Defined.

(** ** Opening the hash files of a volume *)

Section init.
Context {K : Type} `{Countable K} {base : nat} {hash : list Z -> Z} {eq : list Z -> list Z -> bool}.
Context `{!HfileKeys K base hash eq}.

(** A file too short for a header becomes an empty table, whatever it contained. *)
Lemma init_short_file w h n i N g : conf h n -> base = Z.to_nat (base_size h) -> hash_f h = hash -> eq_f h = eq ->
  codec_ok h n -> quiet w -> fds w !! fd h = Some (i, 0%nat) -> files w !! i = Some (Inode true g) ->
  (length g < n)%nat -> names w !! file_name h = Some i -> names w !! new_name h <> Some i ->
  hf_size h = Z.of_nat N -> (exists j, 1 <= j <= 31 /\ hf_size h = 2 ^ j) -> n_elements h = 0 -> n_deleted h = 0 ->
  exists w', init_hash_file w h = Ok (w', h, true) /\ quiet w' /\ hfile_ok (K := K) w' h ∅.
Proof.
  intros Hc Hb Hh He Hcd Hq Hfd Hf Hg Hn Hnn Hs Hp Hu Hd. pose proof Hc as [Hes Hnb _ Hfd0].
  unfold HFILE_BUFFER_SIZE in Hnb. unfold init_hash_file, hfile_init. rewrite (proj2 (Z.ltb_ge (fd h) 0)) by lia.
  assert (forall w0, same_files w w0 -> fds w0 = fds w -> fd_inode w0 (fd h) = Some (i, 0%nat, Inode true g)) as Hin.
  { intros w0 (E1 & _ & _) E2. unfold fd_inode. rewrite E2, Hfd. cbn [mbind option_bind]. by rewrite E1, Hf. }
  unfold fstat.
  edestruct (syscall_cases w (None (A := stat))) as (w1 & S1 & A4 & [-> |[? _]]); [|done].
  rewrite (Hin w1 S1 A4). cbn [i_reg i_data].
  edestruct (syscall_cases w1 (None (A := stat))) as (w2 & S2 & B4 & [-> |[Hnq _]]); [|by destruct Hnq; apply S1].
  assert (same_files w w2) as S12 by (destruct S1 as (?&?&?), S2 as (?&?&?); split_and!; [congruence|congruence|auto]).
  rewrite (Hin w2 S12) by congruence. cbn [i_reg i_data st_reg st_size negb]. rewrite Hes.
  assert (Z.of_nat (length g) <? Z.of_nat n = true) as Hlt by (apply Z.ltb_lt; lia).
  rewrite Hlt. cbn [mbind res_bind from_option id st_reg st_size negb]. rewrite Hes, Hlt.
  destruct (fd_write_ok w2 (fd h) i 0 (Inode true g) (encode_header 0 0))
    as (w3 & r & -> & m & C1 & C2 & C3 & C4 & C5 & C6); [by rewrite B4, A4|by destruct S12 as (-> & _)|lia|].
  destruct S12 as (D1 & D2 & D3). cbn [mbind res_bind]. destruct r; [|by destruct C6; auto]. cbn [negb].
  subst m. rewrite take_ge in C1 by done. cbn [i_reg i_data] in C1.
  assert (Z.of_nat N <= 2 ^ 31) as HN.
  { rewrite <-Hs. destruct Hp as (j & Hj & ->). apply Z.pow_le_mono_r; lia. }
  rewrite Hs, (wrap_small 64 (Z.of_nat N * _)), (wrap_small 64) by nia.
  unfold ftruncate. edestruct (syscall_cases w3 (-1)) as (w4 & (F1 & F2 & F3) & F4 & [-> |[Hnq _]]);
    [|by destruct Hnq; auto].
  assert (fd_inode w4 (fd h) = Some (i, 8%nat, Inode true (write_at g 0 (encode_header 0 0)))) as ->.
  { unfold fd_inode. rewrite F4, C3, lookup_insert_eq. cbn [mbind option_bind]. by rewrite F1, C1, lookup_insert_eq. }
  change (0 <? 0) with false. cbv iota. eexists. split; [done|]. split; [auto|].
  set (g' := write_at g 0 (encode_header 0 0)).
  assert (length g' = Nat.max 8 (length g)) as Hg'.
  { subst g'. unfold write_at. rewrite !length_app, length_resize, length_drop. cbn [length encode_header le_bytes app]. lia. }
  exists n, i, (resize n 0 g'), (replicate N SEmpty).
  apply (hf_rep_fresh _ h n i 8 N); try done.
  - cbn [set_files fds]. by rewrite F4, C3, lookup_insert_eq.
  - cbn [set_files files]. rewrite lookup_insert_eq. cbn [i_reg i_data]. do 2 f_equal.
    rewrite !resize_ge by lia. rewrite <-app_assoc, <-replicate_add. do 2 f_equal. lia.
  - by rewrite length_resize.
  - rewrite resize_ge by lia. rewrite take_app_le by lia. subst g'. unfold write_at. by rewrite resize_0.
  - cbn [set_files names]. by rewrite F2, C2, D2.
  - cbn [set_files names]. by rewrite F2, C2, D2.
Qed.

(** An existing hash file keeps its map. *)
Lemma init_existing_file w h d n i hdr T (M : gmap K (list Z)) w1 h1 : hf_rep w h n i hdr T M -> quiet w1 ->
  files w1 = files w -> names w1 = names w -> fds w1 !! d = Some (i, 0%nat) -> 0 <= d ->
  (exists e s a b g, h1 = MkHfile e (element_size h) (base_size h) s a b (hash_f h) (eq_f h) (decode_f h)
     (encode_f h) (file_name h) d g) ->
  exists w2 h2, init_hash_file w1 h1 = Ok (w2, h2, true) /\ quiet w2 /\ same_params h h2 /\ hfile_ok w2 h2 M.
Proof.
  intros Hr Hq Hf Hn Hd Hd0 Hh1. unfold init_hash_file, fstat.
  assert (fd h1 = d) as Hfd by (by destruct Hh1 as (? & ? & ? & ? & ? & ->)).
  edestruct (syscall_cases w1 (None (A := stat))) as (w2 & (A1 & A2 & A3) & A4 & [-> |[? _]]); [|done].
  assert (fd_inode w2 (fd h1) = Some (i, 0%nat, Inode true (image n hdr T))) as ->.
  { unfold fd_inode. rewrite Hfd, A4, Hd. cbn [mbind option_bind]. by rewrite A1, Hf, (hf_rep_file _ _ _ _ _ _ _ Hr). }
  destruct (hfile_init_ok w h d n i hdr T M w2 h1 Hr) as (w3 & h3 & st & -> & Hq3 & Hp & Hok);
    [auto|congruence|congruence|by rewrite A4|done|done|].
  exists w3, h3. by split_and!.
Qed.
End init.

Lemma open_rdwr_quiet w path i : quiet w -> names w !! path = Some i ->
  exists w' d, open_rdwr w path = (w', d) /\ quiet w' /\ files w' = files w /\ names w' = names w /\
    fds w' !! d = Some (i, 0%nat) /\ 0 <= d.
Proof.
  intros Hq Hn. unfold open_rdwr.
  edestruct (syscall_cases w (-1)) as (w1 & (A1 & A2 & A3) & A4 & [-> |[? _]]); [|done].
  rewrite A2, Hn. eexists _, (fresh_fd w1). split; [done|]. split; [by apply A3|].
  cbn. rewrite lookup_insert_eq. split_and!; [done|done|done|]. apply fresh_fd_nonneg.
Qed.

(** The map in the metadata file and the map after some operations. *)
Definition metadata_ok : world -> hfile -> gmap (Z * Z) (list Z) -> Prop :=
  hfile_ok (hash := metadata_hash) (eq := metadata_eq).
Definition metadata_spec : hfile -> gmap (Z * Z) (list Z) -> list hf_op -> gmap (Z * Z) (list Z) * list (list Z) :=
  spec_run (hash := metadata_hash) (eq := metadata_eq).

(** The life of the metadata file of a volume: opened on a file that is too
    short to have a header it is an empty table; any lookups, insertions and
    deletions by device and inode then behave as on a finite map; and when the
    volume is opened again the table is the map that was left. *)
Theorem metadata_file_lifecycle w path i g ops :
  quiet w -> names w !! path = Some i -> names w !! (path +:+ ".new")%string <> Some i ->
  files w !! i = Some (Inode true g) -> Z.of_nat (length g) < METADATA_SIZE ->
  Z.of_nat (length ops) < 2 ^ 29 -> Forall (fun o => Z.of_nat (length (op_arg o)) = METADATA_SIZE) ops ->
  exists h0 w1 d w2 h2 w3 h3 w4 d4 w5 h5,
    create_metadata_file path = Ok h0 /\ open_rdwr w path = (w1, d) /\
    init_hash_file w1 (set_fd h0 d) = Ok (w2, h2, true) /\
    hf_run w2 h2 ops = Ok (w3, h3, (fun y => (y, true)) <$> (metadata_spec h0 ∅ ops).2) /\
    open_rdwr (close w3 (fd h3)) path = (w4, d4) /\
    init_hash_file w4 (set_fd h0 d4) = Ok (w5, h5, true) /\ metadata_ok w5 h5 (metadata_spec h0 ∅ ops).1.
Proof.
  intros Hq Hn Hnn Hf Hg Hlen Hops.
  set (h0 := MkHfile [] METADATA_SIZE METADATA_BASE 32 0 0 metadata_hash metadata_eq None None path (-1) 0).
  destruct (open_rdwr_quiet w path i Hq Hn) as (w1 & d & E1 & Hq1 & F1 & N1 & D1 & Hd).
  unfold METADATA_SIZE in Hg.
  destruct (init_short_file (hash := metadata_hash) (eq := metadata_eq) w1 (set_fd h0 d) 128 i 32 g) as (w2 & E2 & Hq2 & Hok2); try done.
  { by rewrite F1. }
  { lia. }
  { by rewrite N1. }
  { unfold new_name. cbn. by rewrite N1. }
  { by exists 5. }
  pose proof Hok2 as (n2 & i2 & hdr2 & T2 & Hr2).
  destruct (hf_run_ok ops w2 (set_fd h0 d) n2 i2 hdr2 T2 ∅ Hr2) as (w3 & h3 & E3 & Hq3 & Hp3 & Hok3); [| |done|].
  { rewrite map_size_empty. lia. }
  { destruct (hr_conf _ _ _ _ _ _ _ Hr2) as [He _ _ _]. cbn in He. eapply Forall_impl; [exact Hops|]. cbn. lia. }
  rewrite (spec_run_params h0 (set_fd h0 d)) in E3, Hok3 by done. destruct Hok3 as (n3 & i3 & hdr3 & T3 & Hr3).
  destruct Hp3 as (P1 & P2 & P3 & P4 & P5). cbn in P1, P2, P3, P4, P5.
  destruct (open_rdwr_quiet (close w3 (fd h3)) path i3) as (w4 & d4 & E4 & Hq4 & F4 & N4 & D4 & Hd4); [done| |].
  { cbn. rewrite <-P5. apply (hr_name _ _ _ _ _ _ _ Hr3). }
  destruct (init_existing_file w3 h3 d4 n3 i3 hdr3 T3 _ w4 (set_fd h0 d4) Hr3) as (w5 & h5 & E5 & _ & _ & Hok5);
    [done|done|done|done|done| |].
  { rewrite P1, P2, P3, P4, P5, (hr_hash _ _ _ _ _ _ _ Hr3), (hr_eq _ _ _ _ _ _ _ Hr3). by exists [], 32, 0, 0, 0. }
  exists h0, w1, d, w2, (set_fd h0 d), w3, h3, w4, d4, w5, h5. by split_and!.
Qed.

Definition sample_metadata (i v : Z) : metadata :=
  MkMeta EMPTY_SLOT 1 0x801 i 7 (MkFh 1 2 3 4 5) v v 0x1000180 0 0 0 0 (replicate 52 0).

Lemma metadata_file_lifecycle_witness :
  let w := World {[ 3%nat := Inode true [1; 2] ]} {[ "/vol/.zfs/metadata"%string := 3%nat ]} ∅ 0 [Short 1; Interrupt] in
  let ops := [OpInsert (metadata_bytes (sample_metadata 10 1)) false;
    OpInsert (metadata_bytes (sample_metadata 10 2)) false; OpLookup (metadata_bytes (sample_metadata 10 0))] in
  exists h0 w1 d w2 h2 w3 h3 w4 d4 w5 h5,
    create_metadata_file "/vol/.zfs/metadata" = Ok h0 /\ open_rdwr w "/vol/.zfs/metadata" = (w1, d) /\
    init_hash_file w1 (set_fd h0 d) = Ok (w2, h2, true) /\
    hf_run w2 h2 ops = Ok (w3, h3, (fun y => (y, true)) <$> (metadata_spec h0 ∅ ops).2) /\
    open_rdwr (close w3 (fd h3)) "/vol/.zfs/metadata" = (w4, d4) /\
    init_hash_file w4 (set_fd h0 d4) = Ok (w5, h5, true) /\ metadata_ok w5 h5 (metadata_spec h0 ∅ ops).1.
Proof.
  intros w ops. apply (metadata_file_lifecycle w "/vol/.zfs/metadata" 3 [1; 2] ops).
  - repeat constructor.
  - reflexivity.
  - done.
  - reflexivity.
  - done.
  - done.
  - repeat constructor.
Defined.

(** ** Modes *)

Lemma lor_add a b n : 0 <= a < 2 ^ n -> 0 <= n -> Z.lor a (b * 2 ^ n) = a + b * 2 ^ n.
Proof.
  intros Ha Hn. assert (Z.land a (b * 2 ^ n) = 0) as E.
  { apply Z.bits_inj'. intros k Hk. rewrite Z.land_spec, Z.bits_0.
    destruct (decide (k < n)); [by rewrite Z.mul_pow2_bits_low, andb_false_r by lia|].
    rewrite <-(Z.mod_small a (2 ^ n)) by lia. by rewrite Z.mod_pow2_bits_high by lia. }
  by rewrite Z.add_nocarry_lxor, Z.lxor_lor.
Qed.

(** Mode and type of a file survive being stored in one word: for a mode as
    [stat] gives it, the permission bits and the type come back from
    [GET_MODETYPE], and the type gives back the format bits of the mode whenever
    they are one of the seven formats, and [FT_BAD] otherwise. *)
Theorem modetype_roundtrip mode : is_u32 mode ->
  let t := zfs_mode_to_ftype mode in
  let mt := GET_MODETYPE (GET_MODE mode) (ftype_number t) in
  is_u32 mt /\ GET_MODETYPE_MODE mt = GET_MODE mode /\ GET_MODETYPE_TYPE mt = ftype_number t /\
  (t <> FT_BAD -> zfs_ftype_to_mode t = Z.land mode S_IFMT) /\
  (t = FT_BAD <-> Forall (fun t => zfs_ftype_to_mode t <> Z.land mode S_IFMT)
    [FT_REG; FT_DIR; FT_LNK; FT_BLK; FT_CHR; FT_SOCK; FT_FIFO]).
Proof.
  intros Hm t mt.
  assert (0 <= GET_MODE mode < 2 ^ 12) as Hg.
  { unfold GET_MODE, MODE_BITS. change 0xFFF with (Z.ones 12). rewrite Z.land_ones by lia. apply Z.mod_pos_bound. lia. }
  assert (GET_MODE (GET_MODE mode) = GET_MODE mode) as Hgg.
  { unfold GET_MODE. by rewrite <-Z.land_assoc, Z.land_diag. }
  assert (0 <= ftype_number t < 8) as Ht by (by destruct t).
  assert (mt = GET_MODE mode + ftype_number t * 2 ^ 24) as Hmt.
  { subst mt. unfold GET_MODETYPE. rewrite Hgg, wrap_small by (rewrite Z.shiftl_mul_pow2; lia).
    rewrite Z.shiftl_mul_pow2 by lia. apply lor_add; lia. }
  assert (forall t', t = t' <-> zfs_mode_to_ftype mode = t') as Hd by done.
  split_and!.
  - rewrite Hmt. unfold is_u32, UINT32_MAX. lia.
  - unfold GET_MODETYPE_MODE. change 0xffffff with (Z.ones 24). rewrite Z.land_ones, Hmt, Z_mod_plus by lia.
    apply Z.mod_small. lia.
  - unfold GET_MODETYPE_TYPE. rewrite Z.shiftr_div_pow2, Hmt, Z_div_plus, Z.div_small by lia. lia.
  - subst t. unfold zfs_mode_to_ftype. intros Hb. repeat case_match; try done; cbn [zfs_ftype_to_mode];
      by match goal with H : (_ =? _) = true |- _ => apply Z.eqb_eq in H end.
  - subst t. unfold zfs_mode_to_ftype. rewrite !Forall_cons, Forall_nil. cbn [zfs_ftype_to_mode].
    repeat (case_match; [match goal with H : (_ =? _) = true |- _ => apply Z.eqb_eq in H; rewrite H; by intuition discriminate end|]).
    rewrite !Z.eqb_neq in *. naive_solver.
Qed.

Lemma modetype_roundtrip_witness :
  let mode := 0x81A4 in let mt := GET_MODETYPE (GET_MODE mode) (ftype_number (zfs_mode_to_ftype mode)) in
  zfs_mode_to_ftype mode = FT_REG /\ GET_MODETYPE_MODE mt = 0x1A4 /\ GET_MODETYPE_TYPE mt = ftype_number FT_REG.
Proof. split; [reflexivity|]. destruct (modetype_roundtrip 0x81A4) as (_ & E1 & E2 & _); [done|]. split; [exact E1|exact E2]. Defined.
