(* ===== verification/MetaPaths.v ===== *)
(** Paths of the metadata files of a volume: [build_metadata_path],
    [build_fh_metadata_path] and [build_shadow_metadata_path] of
    [src/zfsd/fs-entities/metadata/metadata.c].

    Every file of a volume can have its own metadata files (the intervals that
    are up to date, the intervals that were modified, its hard links, its
    journal).  They are spread over a tree of directories named by the last hex
    digits of the inode number.  What the rest of the program relies on is that
    no two of these files share a path; the last part proves it. *)

From S2P Require Import Prelude DataCoding.
From stdpp Require Import strings.
From Stdlib Require Import Ascii.
#[local] Open Scope zfs_scope.
#[local] Open Scope Z_scope.
#[local] Arguments String.append : simpl nomatch.

Definition MIN_METADATA_TREE_DEPTH : Z := 1.
Definition MAX_METADATA_TREE_DEPTH : Z := 6.
Definition NAME_SIZE : nat := 52.

Definition is_valid_metadata_tree_depth (depth : Z) : bool :=
  (MIN_METADATA_TREE_DEPTH <=? depth) && (depth <=? MAX_METADATA_TREE_DEPTH).

Inductive metadata_type : Type :=
  | METADATA_TYPE_METADATA | METADATA_TYPE_FH_MAPPING | METADATA_TYPE_UPDATED | METADATA_TYPE_MODIFIED
  | METADATA_TYPE_HARDLINKS | METADATA_TYPE_JOURNAL | METADATA_TYPE_SHADOW.

#[export] Instance metadata_type_eq_dec : EqDecision metadata_type.
Proof. solve_decision. Defined.

(** ** Building paths *)

Definition build_metadata_path (local_path : String.string) (type : metadata_type) : res String.string :=
  match type with
  | METADATA_TYPE_METADATA => Ok (local_path +:+ "/.zfs/metadata")%string
  | METADATA_TYPE_FH_MAPPING => Ok (local_path +:+ "/.zfs/fh_mapping")%string
  | _ => Aborted
  end.

(** [sprintf ("%0nX")] of a number below [16^n] *)
Definition hex_digit (d : Z) : ascii := ascii_of_nat (Z.to_nat (if d <? 10 then 48 + d else 55 + d)).
Fixpoint hex (n : nat) (v : Z) : String.string :=
  match n with
  | O => ""
  | S n => (hex n (v / 16) +:+ String (hex_digit (v mod 16)) "")%string
  end.

(** [name[i]]; the model reads no character beyond the end of the array. *)
Definition char_at (name : String.string) (i : nat) : ascii := default zero (String.get i name).

(** The loop that fills [tree] *)
Fixpoint tree_from (name : String.string) (i n : nat) : String.string :=
  match n with
  | O => ""
  | S n => String (char_at name (15 - i)) (String "/" (tree_from name (S i) n))
  end.

Definition fh_file_name (fh : zfs_fh) (type : metadata_type) : String.string :=
  match type with
  | METADATA_TYPE_JOURNAL => (hex 8 (dev fh) +:+ hex 8 (ino fh) +:+ hex 8 (gen fh))%string
  | _ => (hex 8 (dev fh) +:+ hex 8 (ino fh))%string
  end.

Definition type_suffix (type : metadata_type) : res String.string :=
  match type with
  | METADATA_TYPE_UPDATED => Ok ".updated"%string
  | METADATA_TYPE_MODIFIED => Ok ".modified"%string
  | METADATA_TYPE_HARDLINKS => Ok ".hardlinks"%string
  | METADATA_TYPE_JOURNAL => Ok ".journal"%string
  | _ => Aborted
  end.

Definition build_fh_metadata_path (local_path : String.string) (fh : zfs_fh) (type : metadata_type)
    (tree_depth : Z) : res String.string :=
  if MAX_METADATA_TREE_DEPTH <? tree_depth then Aborted
  else
    let name := fh_file_name fh type in
    let tree := tree_from name 0 (Z.to_nat tree_depth) in
    suffix ← type_suffix type;
    Ok (local_path +:+ "/.zfs/" +:+ tree +:+ name +:+ suffix)%string.

(** The name is cut so that it fits [METADATA_NAME_SIZE] with the handle and the final zero. *)
Definition shadow_name (fh : zfs_fh) (file_name : String.string) : String.string :=
  let len := if bool_decide (String.length file_name <= NAME_SIZE - (2 * 8 + 2))%nat
             then String.length file_name else (NAME_SIZE - (2 * 8 + 2))%nat in
  (String.substring 0 len file_name +:+ "." +:+ hex 8 (dev fh) +:+ hex 8 (ino fh))%string.

Definition build_shadow_metadata_path (local_path : String.string) (fh : zfs_fh) (file_name : String.string)
    (tree_depth : Z) : String.string :=
  let fh_str := (hex 8 (dev fh) +:+ hex 8 (ino fh))%string in
  let tree := tree_from fh_str 0 (Z.to_nat tree_depth) in
  (local_path +:+ "/.shadow/" +:+ tree +:+ shadow_name fh file_name)%string.

(** ** Strings and hex digits *)

Lemma length_string_app s t : String.length (s +:+ t) = (String.length s + String.length t)%nat.
Proof. induction s as [|c s IH]; cbn; congruence. Qed.

Lemma string_app_nil s : (s +:+ "" = s)%string.
Proof. induction s as [|c s IH]; cbn; congruence. Qed.

Lemma string_app_assoc r s t : ((r +:+ s) +:+ t = r +:+ s +:+ t)%string.
Proof. induction r as [|c r IH]; cbn; congruence. Qed.

Lemma string_app_inj s1 s2 t1 t2 : String.length s1 = String.length s2 ->
  (s1 +:+ t1 = s2 +:+ t2)%string -> s1 = s2 /\ t1 = t2.
Proof.
  revert s2. induction s1 as [|c s1 IH]; intros [|c2 s2] Hl E; cbn in *; try done.
  injection E as -> E. destruct (IH s2) as [-> ->]; [lia|done|done].
Qed.

Lemma string_app_inj_r s1 s2 t1 t2 : String.length t1 = String.length t2 ->
  (s1 +:+ t1 = s2 +:+ t2)%string -> s1 = s2 /\ t1 = t2.
Proof.
  intros Hl E. apply string_app_inj; [|done].
  apply (f_equal String.length) in E. rewrite !length_string_app in E. lia.
Qed.

Lemma length_hex n v : String.length (hex n v) = n.
Proof. revert v. induction n as [|n IH]; intros v; cbn; [done|]. rewrite length_string_app, IH. cbn. lia. Qed.

Lemma length_tree name i n : String.length (tree_from name i n) = (2 * n)%nat.
Proof. revert i. induction n as [|n IH]; intros i; cbn; [done|]. rewrite IH. lia. Qed.

Lemma hex_digit_inj a b : 0 <= a < 16 -> 0 <= b < 16 -> hex_digit a = hex_digit b -> a = b.
Proof.
  intros Ha Hb E. apply (f_equal nat_of_ascii) in E. unfold hex_digit in E.
  rewrite !nat_ascii_embedding in E by (repeat case_match; lia).
  repeat case_match; lia.
Qed.

Lemma hex_inj n a b : 0 <= a < 16 ^ Z.of_nat n -> 0 <= b < 16 ^ Z.of_nat n -> hex n a = hex n b -> a = b.
Proof.
  revert a b. induction n as [|n IH]; intros a b Ha Hb E; [cbn in *; lia|].
  rewrite Nat2Z.inj_succ, Z.pow_succ_r in Ha, Hb by lia. cbn in E.
  apply string_app_inj in E as [E1 [= E2]]; [|by rewrite !length_hex].
  apply IH in E1; [|split; [apply Z.div_pos|apply Z.div_lt_upper_bound]; lia..].
  apply hex_digit_inj in E2; [|apply Z.mod_pos_bound; lia..].
  rewrite (Z.div_mod a 16), (Z.div_mod b 16) by lia. lia.
Qed.

Lemma hex8_inj a b : is_u32 a -> is_u32 b -> hex 8 a = hex 8 b -> a = b.
Proof. intros Ha Hb. apply hex_inj; done. Qed.

(** A hex digit is no dot and no lower-case letter. *)
Lemma hex_digit_range d : 0 <= d < 16 -> (48 <= nat_of_ascii (hex_digit d) <= 70)%nat.
Proof. intros Hd. unfold hex_digit. rewrite nat_ascii_embedding; repeat case_match; lia. Qed.

Lemma hex_head n v : exists d s, 0 <= d < 16 /\ hex (S n) v = String (hex_digit d) s.
Proof.
  revert v. induction n as [|n IH]; intros v.
  - exists (v mod 16), ""%string. split; [apply Z.mod_pos_bound; lia|done].
  - destruct (IH (v / 16)) as (d & s & Hd & E).
    exists d, (s +:+ String (hex_digit (v mod 16)) "")%string. split; [done|].
    cbn [hex]. cbn [hex] in E. by rewrite E.
Qed.

Lemma hex_get n v i : (i < n)%nat -> exists d, 0 <= d < 16 /\ String.get i (hex n v) = Some (hex_digit d).
Proof.
  revert v. induction n as [|n IH]; intros v Hi; [lia|]. cbn [hex].
  destruct (decide (i < n)%nat) as [Hn|Hn].
  - rewrite <-String.append_correct1 by (by rewrite length_hex). by apply IH.
  - replace i with (0 + String.length (hex n (v / 16)))%nat by (rewrite length_hex; lia).
    rewrite <-String.append_correct2. exists (v mod 16). split; [apply Z.mod_pos_bound; lia|done].
Qed.

(** Both the trees and the names begin with a hex digit. *)
Lemma path_head fh type n (s : String.string) : exists d r, 0 <= d < 16 /\
  (tree_from (fh_file_name fh type) 0 n +:+ fh_file_name fh type +:+ s = String (hex_digit d) r)%string.
Proof.
  assert (exists r, fh_file_name fh type = (hex 8 (dev fh) +:+ (hex 8 (ino fh) +:+ r))%string) as (r & E).
  { destruct type; cbn [fh_file_name];
      first [by exists (hex 8 (gen fh))|exists ""%string; by rewrite string_app_nil]. }
  rewrite E. destruct n as [|n]; cbn [tree_from].
  - destruct (hex_head 7 (dev fh)) as (d & x & Hd & ->). by eexists d, _.
  - destruct (hex_get 8 (ino fh) 7) as (d & Hd & Eg); [lia|].
    assert (char_at (hex 8 (dev fh) +:+ hex 8 (ino fh) +:+ r) (15 - 0) = hex_digit d) as ->.
    { unfold char_at. replace (15 - 0)%nat with (7 + String.length (hex 8 (dev fh)))%nat by (by rewrite length_hex).
      rewrite <-String.append_correct2, <-String.append_correct1, Eg by (rewrite length_hex; lia). done. }
    by eexists d, _.
Qed.

Lemma fh_file_name_eq f1 f2 t1 t2 s1 s2 : is_u32 (dev f1) -> is_u32 (dev f2) -> is_u32 (ino f1) ->
  is_u32 (ino f2) -> is_u32 (gen f1) -> is_u32 (gen f2) -> type_suffix t1 = Ok s1 -> type_suffix t2 = Ok s2 ->
  (fh_file_name f1 t1 +:+ s1 = fh_file_name f2 t2 +:+ s2)%string ->
  t1 = t2 /\ dev f1 = dev f2 /\ ino f1 = ino f2 /\ (t1 = METADATA_TYPE_JOURNAL -> gen f1 = gen f2).
Proof.
  intros Hd1 Hd2 Hi1 Hi2 Hg1 Hg2 E1 E2 E.
  assert (forall f t, exists r, fh_file_name f t = (hex 8 (dev f) +:+ (hex 8 (ino f) +:+ r))%string /\
    r = match t with METADATA_TYPE_JOURNAL => hex 8 (gen f) | _ => ""%string end) as Hn.
  { intros f t. eexists. split; [|reflexivity].
    by destruct t; cbn [fh_file_name]; rewrite ?(string_app_nil (hex 8 (ino f))). }
  destruct (Hn f1 t1) as (r1 & N1 & R1), (Hn f2 t2) as (r2 & N2 & R2). rewrite N1, N2 in E.
  rewrite !string_app_assoc in E.
  apply string_app_inj in E as [Ed E]; [|by rewrite !length_hex]. apply hex8_inj in Ed; [|done..].
  apply string_app_inj in E as [Ei E]; [|by rewrite !length_hex]. apply hex8_inj in Ei; [|done..].
  assert (forall f (x : String.string), (hex 8 (gen f) +:+ ".journal" = String "." x)%string -> False) as Hx.
  { intros f x E'. destruct (hex_head 7 (gen f)) as (d & s & Hd & Eh). rewrite Eh in E'. cbn in E'.
    injection E' as E' _. apply hex_digit_range in Hd. rewrite E' in Hd. vm_compute in Hd. lia. }
  destruct t1, t2; cbn in E1, E2; try done; injection E1 as <-; injection E2 as <-; subst r1 r2; try done;
    try (by exfalso; eapply Hx; first [exact E|symmetry; exact E]); try (by split_and!).
  apply string_app_inj in E as [Eg _]; [|by rewrite !length_hex]. apply hex8_inj in Eg; [|done..].
  by split_and!.
Qed.

(** ** Paths are distinct *)

(** The metadata files of a volume have paths of their own: with the depth of
    the directory tree within its limit every file handle has a path for its
    updated and modified intervals, its hard links and its journal, and two such
    paths are equal only for the same kind of file and the same device and inode
    number (and, for a journal, the same generation); none of them is the path of
    one of the two hash files of the volume. *)
Theorem fh_metadata_path_unique local_path f1 f2 t1 t2 depth p1 : 0 <= depth <= MAX_METADATA_TREE_DEPTH ->
  is_u32 (dev f1) -> is_u32 (dev f2) -> is_u32 (ino f1) -> is_u32 (ino f2) -> is_u32 (gen f1) -> is_u32 (gen f2) ->
  build_fh_metadata_path local_path f1 t1 depth = Ok p1 ->
  (build_fh_metadata_path local_path f2 t2 depth = Ok p1 <->
    t1 = t2 /\ dev f1 = dev f2 /\ ino f1 = ino f2 /\ (t1 = METADATA_TYPE_JOURNAL -> gen f1 = gen f2)) /\
  forall t, build_metadata_path local_path t <> Ok p1.
Proof.
  intros Hd Hd1 Hd2 Hi1 Hi2 Hg1 Hg2. unfold build_fh_metadata_path.
  rewrite (proj2 (Z.ltb_ge _ _)) by lia.
  destruct (type_suffix t1) as [s1| |] eqn:E1; cbn [mbind res_bind]; [|done..].
  intros [= <-]. split; [split|].
  - destruct (type_suffix t2) as [s2| |] eqn:E2; cbn [mbind res_bind]; [|done..]. intros [= E].
    apply string_app_inj in E as [_ [= E]]; [|done].
    apply string_app_inj in E as [_ E]; [|by rewrite !length_tree]. symmetry in E.
    by eapply fh_file_name_eq.
  - intros (<- & D & I & G). rewrite E1. cbn [mbind res_bind]. do 2 f_equal.
    assert (fh_file_name f2 t1 = fh_file_name f1 t1) as ->; [|done].
    destruct t1; cbn [fh_file_name]; rewrite ?D, ?I, ?G by done; done.
  - intros t Et. destruct (path_head f1 t1 (Z.to_nat depth) s1) as (d & s & Hdig & Ep). rewrite Ep in Et.
    apply hex_digit_range in Hdig.
    destruct t; try done; injection Et as Et; apply string_app_inj in Et as [_ Et]; try done;
      injection Et as Et _; rewrite <-Et in Hdig; vm_compute in Hdig; lia.
Qed.

Lemma fh_metadata_path_unique_witness :
  let f g := MkFh 1 2 0x801 0x12AB g in
  build_fh_metadata_path "/vol" (f 5) METADATA_TYPE_UPDATED 2 = Ok "/vol/.zfs/B/A/00000801000012AB.updated"%string /\
  build_fh_metadata_path "/vol" (f 6) METADATA_TYPE_UPDATED 2 =
    build_fh_metadata_path "/vol" (f 5) METADATA_TYPE_UPDATED 2 /\
  forall t, build_metadata_path "/vol" t <> Ok "/vol/.zfs/B/A/00000801000012AB.updated"%string.
Proof.
  intros f. split; [reflexivity|].
  destruct (fh_metadata_path_unique "/vol" (f 5) (f 6) METADATA_TYPE_UPDATED METADATA_TYPE_UPDATED 2
    "/vol/.zfs/B/A/00000801000012AB.updated") as [[_ H1] H2];
    [vm_compute; split; intros [=]|vm_compute; split; done..|reflexivity|].
  split; [|exact H2]. rewrite H1; [reflexivity|done].
Defined.

(** A shadow file fits the name field of the metadata with its final zero, for
    every name, and has a path of its own: at a fixed depth of the tree paths are
    equal only for the same device and inode number. *)
Theorem shadow_path_unique local_path f1 f2 n1 n2 depth :
  is_u32 (dev f1) -> is_u32 (dev f2) -> is_u32 (ino f1) -> is_u32 (ino f2) ->
  (String.length (shadow_name f1 n1) < NAME_SIZE)%nat /\
  (build_shadow_metadata_path local_path f1 n1 depth = build_shadow_metadata_path local_path f2 n2 depth ->
    dev f1 = dev f2 /\ ino f1 = ino f2).
Proof.
  intros Hd1 Hd2 Hi1 Hi2. split.
  - unfold shadow_name. rewrite !length_string_app, !length_hex. cbn [String.length].
    assert (forall s n, (n <= String.length s)%nat -> String.length (String.substring 0 n s) = n) as Hs.
    { induction s as [|c s IH]; intros [|n]; cbn; try lia. intros Hn. rewrite IH; lia. }
    unfold NAME_SIZE. case_bool_decide; rewrite Hs; lia.
  - unfold build_shadow_metadata_path, shadow_name. intros E.
    apply string_app_inj in E as [_ E]; [|done]. apply string_app_inj in E as [_ E]; [|done].
    apply string_app_inj in E as [_ E]; [|by rewrite !length_tree].
    apply string_app_inj_r in E as [_ E]; [|by rewrite !length_string_app, !length_hex].
    apply string_app_inj in E as [_ E]; [|done].
    apply string_app_inj in E as [Ed Ei]; [|by rewrite !length_hex].
    split; by apply hex8_inj.
Qed.
