(* ===== verification/MetaFiles.v ===== *)
(** Opening, removing and streaming the metadata files of one file: [open_fh_metadata]
    and [remove_file_and_path] of [src/zfsd/fs-entities/metadata/metadata.c], and the
    streams of the C library through which journals and hard link files are read
    and written.

    The files are those of [PosixFs.v].  Directories are not in that world: making and
    removing one passes or fails by the script.  That [open_metadata] closes the oldest
    descriptor when there are too many is in [FdCache.v]; here it opens once. *)

From S2P Require Import Prelude FileIO PosixFs DataCoding AllocPool Hashtab Chain MetaPaths.
From stdpp Require Import strings.
#[local] Open Scope Z_scope.

Definition ENOTEMPTY : Z := 39.

(** [O_RDONLY], [O_WRONLY | O_CREAT], [O_RDWR | O_CREAT] and [O_WRONLY | O_TRUNC |
    O_CREAT].  The access mode of a descriptor is not modelled. *)
Inductive open_flags := RdOnly | WrCreat | RdWrCreat | WrTruncCreat.

#[export] Instance open_flags_eq_dec : EqDecision open_flags.
Proof. solve_decision. Defined.

Definition add_fd (w : world) (i : nat) : world * Z :=
  (set_fds w (<[fresh_fd w := (i, 0%nat)]> (fds w)), fresh_fd w).

Definition open_file (w : world) (name : string) (flags : open_flags) : world * Z :=
  syscall w (-1) (fun w =>
    match names w !! name, flags with
    | None, RdOnly => (set_errno w ENOENT, -1)
    | None, _ =>
        let i := fresh (dom (files w)) in
        add_fd (World (<[i := Inode true []]> (files w)) (<[name := i]> (names w)) (fds w) (werrno w) (script w)) i
    | Some i, WrTruncCreat =>
        match files w !! i with
        | Some nd => add_fd (set_files w (<[i := Inode (i_reg nd) []]> (files w))) i
        | None => (set_errno w ENOENT, -1)
        end
    | Some i, _ => add_fd w i
    end).

(** [create_path_for_file] *)
Definition create_path_for_file (w : world) : world * bool := syscall w false (fun w => (w, true)).

(** [stat] finds a regular file. *)
Definition stat_regular (w : world) (name : string) : world * bool :=
  syscall w false (fun w =>
    (w, match i ← names w !! name; files w !! i with Some nd => i_reg nd | None => false end)).

(** The depths at which the file may have been left when the depth of the tree was
    changed. *)
Definition other_depths (depth : Z) : list Z := filter (fun i => i <> depth) (seqZ 0 (MAX_METADATA_TREE_DEPTH + 1)).

Section paths.
Context (local_path : string) (fh : zfs_fh) (type : metadata_type) (depth : Z).

Fixpoint rename_from (w : world) (path : string) (l : list Z) : res world :=
  match l with
  | [] => Ok w
  | i :: l =>
      old_path ← build_fh_metadata_path local_path fh type i;
      let '(w, r) := rename w old_path path in
      if r =? 0 then Ok w else rename_from w path l
  end.

Fixpoint move_regular (w : world) (path : string) (created : bool) (l : list Z) : res (world * bool) :=
  match l with
  | [] => Ok (w, true)
  | i :: l =>
      old_path ← build_fh_metadata_path local_path fh type i;
      let '(w, reg) := stat_regular w old_path in
      if reg then
        let '(w, ok) := if created then (w, true) else create_path_for_file w in
        if ok then
          let '(w, r) := rename w old_path path in
          if r =? 0 then Ok (w, true) else move_regular w path true l
        else Ok (if werrno w =? ENOENT then set_errno w 0 else w, false)
      else move_regular w path created l
  end.

Definition open_fh_metadata (w : world) (path : string) (flags : open_flags) : res (world * Z) :=
  let '(w, fd) := open_file w path flags in
  if 0 <=? fd then Ok (w, fd)
  else if negb (werrno w =? ENOENT) then Ok (w, -1)
  else
    match flags with
    | RdOnly =>
        '(w, ok) ← move_regular w path false (other_depths depth);
        if ok : bool then Ok (open_file w path flags) else Ok (w, -1)
    | _ =>
        let '(w, ok) := create_path_for_file w in
        if ok then w ← rename_from w path (other_depths depth); Ok (open_file w path flags)
        else Ok (if werrno w =? ENOENT then set_errno w 0 else w, -1)
    end.
End paths.

Definition unlink_file (w : world) (name : string) : world * Z :=
  syscall w (-1) (fun w =>
    match names w !! name with
    | None => (set_errno w ENOENT, -1)
    | Some _ => (set_names w (delete name (names w)), 0)
    end).

Fixpoint remove_dirs (w : world) (depth : nat) : world * bool :=
  match depth with
  | O => (w, true)
  | S depth =>
      let '(w, r) := syscall w (-1) (fun w => (w, 0)) in
      if r <? 0 then (w, (werrno w =? ENOENT) || (werrno w =? ENOTEMPTY)) else remove_dirs w depth
  end.

Definition remove_file_and_path (w : world) (path : string) (tree_depth : Z) : world * bool :=
  let '(w, r) := unlink_file w path in
  if (r <? 0) && negb (werrno w =? ENOENT) then (w, false) else remove_dirs w (Z.to_nat tree_depth).

(** ** Streams

    A stream for reading gives the bytes of the file up to the end or up to an error:
    [fread] does not tell which.  What is written to a stream reaches the file when it
    is closed; then an error loses the rest.  One outcome of the script decides for
    the whole stream, and one for each [fwrite]. *)

Definition fread_all (w : world) (fd : Z) : world * list Z :=
  let '(o, w) := next_outcome w in
  let data := match fd_inode w fd with Some (_, p, nd) => drop p (i_data nd) | None => [] end in
  (w, match o with Pass => data | Short n => take (S n) data | _ => [] end).

Definition fclose_write (w : world) (fd : Z) (buf : list Z) : world :=
  let '(o, w) := next_outcome w in
  let b := match o with Pass => buf | Short n => take (S n) buf | _ => [] end in
  let w := match fd_inode w fd with
           | Some (i, p, nd) => set_files w (<[i := Inode (i_reg nd) (write_at (i_data nd) p b)]> (files w))
           | None => w
           end in
  close w fd.

(** The [fwrite]s of one record; the first that fails ends them. *)
Fixpoint fwrites (w : world) (buf : list Z) (pieces : list (list Z)) : world * option (list Z) :=
  match pieces with
  | [] => (w, Some buf)
  | b :: pieces =>
      let '(o, w) := next_outcome w in
      match o with Fail e => (set_errno w e, None) | _ => fwrites w (buf ++ b) pieces end
  end.

(** A loop that writes the records of a chained list. *)
Fixpoint write_chain {A : Type} (pieces : A -> list (list Z)) (fuel : nat) (w : world) (m : heap A) (buf : list Z) (p : option ptr)
    : res (world * option (list Z)) :=
  match p with
  | None => Ok (w, Some buf)
  | Some q =>
      match fuel with
      | O => OutOfFuel
      | S fuel =>
          c ← deref m q;
          let '(w, r) := fwrites w buf (pieces (data c)) in
          match r with
          | None => Ok (w, None)
          | Some buf => write_chain pieces fuel w m buf (next c)
          end
      end
  end.

(** [n] bytes and a number of [n] bytes from the front of a stream. *)
Definition fread (n : nat) (s : list Z) : option (list Z * list Z) :=
  if (n <=? length s)%nat then Some (take n s, drop n s) else None.
Definition fread_int (n : nat) (s : list Z) : option (Z * list Z) := '(b, s) ← fread n s; Some (le_value b, s).

Definition read_fh (s : list Z) : option (zfs_fh * list Z) :=
  '(sid, s) ← fread_int 4 s; '(vid, s) ← fread_int 4 s; '(dev, s) ← fread_int 4 s;
  '(ino, s) ← fread_int 4 s; '(gen, s) ← fread_int 4 s;
  Some (MkFh sid vid dev ino gen, s).

Definition fh_to_bytes (fh : zfs_fh) : list Z :=
  le_bytes 4 (sid fh) ++ le_bytes 4 (vid fh) ++ le_bytes 4 (dev fh) ++ le_bytes 4 (ino fh) ++ le_bytes 4 (gen fh).

(** The [len + 1] bytes of a name. *)
Definition name_bytes (n : name_t) : list Z := take (Z.to_nat (u32 (len n + 1))) (chars n ++ [0]).

(** The characters before the first zero. *)
Fixpoint c_string (b : list Z) : list Z :=
  match b with [] => [] | c :: b => if c =? 0 then [] else c :: c_string b end.

(** ** Lemmas *)

Lemma fread_app n a s : length a = n -> fread n (a ++ s) = Some (a, s).
Proof.
  intros <-. unfold fread. rewrite (proj2 (Nat.leb_le _ _)) by (rewrite length_app; lia).
  by rewrite take_app_length, drop_app_length.
Qed.

Lemma fread_short n s : (length s < n)%nat -> fread n s = None.
Proof. intros H. unfold fread. by rewrite (proj2 (Nat.leb_gt _ _)). Qed.

Lemma fread_int_app n z s : 0 <= z < 2 ^ (8 * Z.of_nat n) -> fread_int n (le_bytes n z ++ s) = Some (z, s).
Proof.
  intros Hz. unfold fread_int. rewrite fread_app by apply length_le_bytes. cbn [mbind option_bind].
  by rewrite le_value_bytes, Z.mod_small.
Qed.

Lemma fread_int_short n s : (length s < n)%nat -> fread_int n s = None.
Proof. intros H. unfold fread_int. by rewrite fread_short. Qed.

Lemma name_bytes_wf n : len n = Z.of_nat (length (chars n)) -> (length (chars n) <= 255)%nat -> name_bytes n = chars n ++ [0].
Proof.
  intros Hl Hs. unfold name_bytes. rewrite Hl, (wrap_small 32) by lia. rewrite take_ge; [done|]. rewrite length_app. cbn. lia.
Qed.

Lemma c_string_app (l b : list Z) : Forall (fun c => c <> 0) l -> c_string (l ++ 0 :: b) = l.
Proof.
  induction l as [|c l IH]; intros H; cbn; [done|]. apply Forall_cons in H as [Hc H]. rewrite (proj2 (Z.eqb_neq _ _)) by done.
  by rewrite IH.
Qed.

Lemma c_string_id (l : list Z) : Forall (fun c => c <> 0) l -> c_string l = l.
Proof.
  induction l as [|c l IH]; intros H; cbn; [done|]. apply Forall_cons in H as [Hc H]. rewrite (proj2 (Z.eqb_neq _ _)) by done.
  by rewrite IH.
Qed.

(** What is read is shorter than what was there. *)
Lemma fread_length n s b s' : fread n s = Some (b, s') -> length s = (n + length s')%nat.
Proof.
  unfold fread. destruct (Nat.leb_spec n (length s)) as [H|H]; [|done]. intros [= <- <-]. rewrite length_drop. lia.
Qed.

Lemma fread_int_length n s z s' : fread_int n s = Some (z, s') -> length s = (n + length s')%nat.
Proof.
  unfold fread_int. destruct (fread n s) as [[b s1]|] eqn:E; [|done]. intros [= <- <-]. by eapply fread_length.
Qed.

Definition fh_u32 (fh : zfs_fh) : Prop := is_u32 (sid fh) /\ is_u32 (vid fh) /\ is_u32 (dev fh) /\ is_u32 (ino fh) /\ is_u32 (gen fh).

Lemma read_fh_app fh s : fh_u32 fh -> read_fh (fh_to_bytes fh ++ s) = Some (fh, s).
Proof.
  intros (H1 & H2 & H3 & H4 & H5). unfold read_fh, fh_to_bytes. rewrite <-!app_assoc.
  repeat (rewrite fread_int_app by assumption; cbn [mbind option_bind]). by destruct fh.
Qed.

Lemma length_fh_to_bytes fh : length (fh_to_bytes fh) = 20%nat.
Proof. unfold fh_to_bytes. by rewrite !length_app, !length_le_bytes. Qed.

(** ** What opening a file does *)

(** Nothing but the script and the error number changes; without a script all calls
    to come pass. *)
Definition unchanged (w w' : world) : Prop :=
  files w' = files w /\ names w' = names w /\ fds w' = fds w /\ (script w = [] -> script w' = []).

Lemma unchanged_refl w : unchanged w w.
Proof. by split. Qed.

Lemma unchanged_trans w1 w2 w3 : unchanged w1 w2 -> unchanged w2 w3 -> unchanged w1 w3.
Proof. intros (A1 & A2 & A3 & A4) (B1 & B2 & B3 & B4). split_and!; [congruence..|]. intros E. by apply B4, A4. Qed.

#[export] Instance unchanged_preorder : PreOrder unchanged.
Proof. split; [exact unchanged_refl|exact unchanged_trans]. Qed.

Lemma unchanged_errno w e : unchanged w (set_errno w e).
Proof. by split. Qed.

(** A system call that passes runs its body in a world that differs in the script. *)
Lemma syscall_passes {A} w (r : A) f : exists w1, unchanged w w1 /\
  (syscall w r f = f w1 \/ syscall w r f = (w1, r) /\ script w <> []).
Proof.
  unfold syscall. destruct (next_outcome w) as [o w1] eqn:Eo.
  assert (unchanged w w1 /\ (o = Pass \/ script w <> [])) as [H Ho].
  { unfold next_outcome in Eo. destruct (script w) as [|o' s] eqn:E; injection Eo as <- <-; unfold unchanged; cbn.
    - split; [done|by left].
    - split; [by split_and!; try congruence|by right]. }
  destruct o as [|k| |e]; [exists w1; auto..|]. exists (set_errno w1 e). destruct Ho as [?|Ho]; [done|].
  split; [|auto]. eapply unchanged_trans; [exact H|apply unchanged_errno].
Qed.

(** [fd] is a new descriptor of [name]. *)
Definition opened (w w' : world) (name : string) (flags : open_flags) (fd : Z) : Prop :=
  0 <= fd /\ fds w !! fd = None /\ (script w = [] -> script w' = []) /\
  match names w !! name with
  | Some i => names w' = names w /\ fds w' = <[fd := (i, 0%nat)]> (fds w) /\
      match flags with
      | WrTruncCreat => exists nd, files w !! i = Some nd /\ files w' = <[i := Inode (i_reg nd) []]> (files w)
      | _ => files w' = files w
      end
  | None => flags <> RdOnly /\ exists i, files w !! i = None /\ names w' = <[name := i]> (names w) /\
      files w' = <[i := Inode true []]> (files w) /\ fds w' = <[fd := (i, 0%nat)]> (fds w)
  end.

Definition not_opened (w w' : world) (name : string) (flags : open_flags) (fd : Z) : Prop :=
  fd = -1 /\ unchanged w w' /\ (script w = [] -> (forall i, names w !! name = Some i -> is_Some (files w !! i)) ->
    flags = RdOnly /\ names w !! name = None /\ werrno w' = ENOENT).

Lemma opened_before w w1 w' name flags fd : unchanged w w1 -> opened w1 w' name flags fd -> opened w w' name flags fd.
Proof. unfold opened. intros (<- & <- & <- & H) (? & ? & ? & ?). split_and!; try done. intros E. auto. Qed.

Lemma not_opened_before w w1 w' name flags fd : unchanged w w1 -> not_opened w1 w' name flags fd -> not_opened w w' name flags fd.
Proof.
  unfold not_opened. intros Hu (? & ? & H). split; [done|]. split; [by eapply unchanged_trans|].
  destruct Hu as (E1 & E2 & E3 & E4). rewrite E1, E2 in H. auto.
Qed.

Lemma open_file_ok w name flags : exists w' fd, open_file w name flags = (w', fd) /\
  (opened w w' name flags fd \/ not_opened w w' name flags fd).
Proof.
  unfold open_file.
  edestruct (syscall_passes w (-1)) as (w1 & Hu & [-> |[-> Hs]]).
  2: { exists w1, (-1). split; [done|]. right. by split_and!. }
  assert (forall w2 i, fds w2 = fds w1 -> add_fd w2 i = (set_fds w2 (<[fresh_fd w1 := (i, 0%nat)]> (fds w1)), fresh_fd w1)) as Hadd.
  { intros w2 i E. unfold add_fd, fresh_fd. by rewrite E. }
  pose proof (fresh_fd_nonneg w1) as Hf. pose proof (fresh_fd_new w1) as Hn.
  destruct (names w1 !! name) as [i|] eqn:Ei; [destruct flags; [| | |destruct (files w1 !! i) as [nd|] eqn:Ef]|
    destruct (decide (flags = RdOnly)) as [-> |Hr]].
  - rewrite Hadd by done. eexists _, _. split; [done|]. left. apply (opened_before _ w1); [done|]. unfold opened. by rewrite Ei.
  - rewrite Hadd by done. eexists _, _. split; [done|]. left. apply (opened_before _ w1); [done|]. unfold opened. by rewrite Ei.
  - rewrite Hadd by done. eexists _, _. split; [done|]. left. apply (opened_before _ w1); [done|]. unfold opened. by rewrite Ei.
  - rewrite Hadd by done. eexists _, _. split; [done|]. left. apply (opened_before _ w1); [done|]. unfold opened. rewrite Ei.
    split_and!; try done. by exists nd.
  - eexists _, _. split; [done|]. right. apply (not_opened_before _ w1); [done|]. split_and!; [done|apply unchanged_errno|].
    intros _ Hall. destruct (Hall i Ei). congruence.
  - eexists _, _. split; [done|]. right. apply (not_opened_before _ w1); [done|]. by split_and!.
  - exists (add_fd (World (<[fresh (dom (files w1)) := Inode true []]> (files w1)) (<[name := fresh (dom (files w1))]> (names w1))
      (fds w1) (werrno w1) (script w1)) (fresh (dom (files w1)))).1, (fresh_fd w1).
    split; [destruct flags; [done|by rewrite Hadd..]|]. left. apply (opened_before _ w1); [done|].
    rewrite Hadd by done. unfold opened. rewrite Ei. split_and!; try done. exists (fresh (dom (files w1))).
    split_and!; try done. apply not_elem_of_dom, is_fresh.
Qed.

Section opening.
Context (local_path : string) (fh : zfs_fh) (type : metadata_type) (depth : Z).
Hypothesis Htype : exists suffix, type_suffix type = Ok suffix.

(** No file is left at another depth. *)
Definition none_older (w : world) : Prop := forall i p, i ∈ other_depths depth ->
  build_fh_metadata_path local_path fh type i = Ok p -> names w !! p = None.

Lemma other_path i : i ∈ other_depths depth -> exists p, build_fh_metadata_path local_path fh type i = Ok p.
Proof.
  unfold other_depths. intros [_ Hi%elem_of_seqZ]%list_elem_of_filter. destruct Htype as [suffix E].
  unfold build_fh_metadata_path. rewrite (proj2 (Z.ltb_ge _ _)) by lia. rewrite E. by eexists.
Qed.

Lemma none_older_unchanged w w' : unchanged w w' -> none_older w -> none_older w'.
Proof. intros (_ & E & _) H i p. rewrite E. apply H. Qed.

Lemma rename_absent w old new : names w !! old = None -> exists w', rename w old new = (w', -1) /\ unchanged w w'.
Proof.
  intros H. unfold rename. edestruct (syscall_passes w (-1)) as (w1 & Hu & [-> |[-> _]]); [|by exists w1].
  rewrite (proj1 (proj2 Hu)), H. eexists. split; [done|]. eapply unchanged_trans; [exact Hu|apply unchanged_errno].
Qed.

Lemma rename_from_ok l : forall w path, none_older w -> l ⊆ other_depths depth ->
  exists w', rename_from local_path fh type w path l = Ok w' /\ unchanged w w'.
Proof.
  induction l as [|i l IH]; intros w path H Hl; [by exists w|]. cbn [rename_from].
  assert (i ∈ other_depths depth) as Hi by (apply Hl; left). destruct (other_path i Hi) as [p Ep]. rewrite Ep. cbn [mbind res_bind].
  destruct (rename_absent w p path (H i p Hi Ep)) as (w1 & -> & Hu). cbn.
  destruct (IH w1 path) as (w' & E & Hu'); [by eapply none_older_unchanged|set_solver|]. exists w'. split; [done|].
  by eapply unchanged_trans.
Qed.

Lemma move_regular_ok l : forall w path b, none_older w -> l ⊆ other_depths depth ->
  exists w', move_regular local_path fh type w path b l = Ok (w', true) /\ unchanged w w'.
Proof.
  induction l as [|i l IH]; intros w path b H Hl; [by exists w|]. cbn [move_regular].
  assert (i ∈ other_depths depth) as Hi by (apply Hl; left). destruct (other_path i Hi) as [p Ep]. rewrite Ep. cbn [mbind res_bind].
  assert (exists w1, stat_regular w p = (w1, false) /\ unchanged w w1) as (w1 & -> & Hu).
  { unfold stat_regular. edestruct (syscall_passes w false) as (w1 & Hu & [-> |[-> _]]); [|by exists w1].
    rewrite (proj1 (proj2 Hu)), (H i p Hi Ep). by exists w1. }
  destruct (IH w1 path b) as (w' & E & Hu'); [by eapply none_older_unchanged|set_solver|]. exists w'. split; [done|].
  by eapply unchanged_trans.
Qed.

Lemma open_fh_metadata_ok w path flags : none_older w ->
  exists w' fd, open_fh_metadata local_path fh type depth w path flags = Ok (w', fd) /\
  (opened w w' path flags fd \/ not_opened w w' path flags fd).
Proof.
  intros H. unfold open_fh_metadata. destruct (open_file_ok w path flags) as (w1 & fd & -> & [Ho|Ho]).
  { pose proof Ho as [Hfd _]. rewrite (proj2 (Z.leb_le _ _)) by done. exists w1, fd. auto. }
  pose proof Ho as (-> & Hu & Hs). cbn [Z.leb]. change (0 <=? -1) with false. cbn match.
  destruct (Z.eqb_spec (werrno w1) ENOENT) as [He|He]; cbn [negb].
  2: { exists w1, (-1). split; [done|]. right. exact Ho. }
  assert (forall w2, unchanged w w2 -> exists w' fd, Ok (open_file w2 path flags) = Ok (w', fd) /\
    (opened w w' path flags fd \/ not_opened w w' path flags fd)) as Hagain.
  { intros w2 Hu2. destruct (open_file_ok w2 path flags) as (w' & fd & -> & Hc). exists w', fd. split; [done|].
    destruct Hc; [left; by eapply opened_before|right; by eapply not_opened_before]. }
  assert (forall w2, unchanged w w2 -> script w <> [] \/ False -> not_opened w (if werrno w2 =? ENOENT then set_errno w2 0 else w2) path flags (-1)) as Hfail.
  { intros w2 Hu2 [Hne|[]]. split; [done|]. split; [|done]. destruct (werrno w2 =? ENOENT); [|done].
    eapply unchanged_trans; [exact Hu2|apply unchanged_errno]. }
  destruct (decide (flags = RdOnly)) as [->|Hr].
  - destruct (move_regular_ok (other_depths depth) w1 path false) as (w2 & -> & Hu2); [by eapply none_older_unchanged|done|].
    cbn [mbind res_bind]. apply Hagain. by eapply unchanged_trans.
  - assert (forall A (x y : A), match flags with RdOnly => x | _ => y end = y) as -> by (by destruct flags).
    unfold create_path_for_file. edestruct (syscall_passes w1 false) as (w2 & Hu2 & [-> |[-> Hne]]).
    + destruct (rename_from_ok (other_depths depth) w2 path) as (w3 & -> & Hu3); [|done|].
      { eapply none_older_unchanged; [|exact H]. by eapply unchanged_trans. }
      cbn [mbind res_bind]. apply Hagain. eapply unchanged_trans; [exact Hu|]. by eapply unchanged_trans.
    + eexists _, (-1). split; [done|]. right. apply Hfail; [by eapply unchanged_trans|]. left. intros E. apply Hne. by apply Hu.
Qed.
End opening.

(** ** What a file holds *)

(** [path] holds [data]; no file holds nothing. *)
Definition stored (w : world) (path : string) (data : list Z) : Prop :=
  match names w !! path with Some i => exists reg, files w !! i = Some (Inode reg data) | None => data = [] end.

Definition named (w : world) : Prop := forall name i, names w !! name = Some i -> is_Some (files w !! i).

Lemma syscall_calm {A} w (r : A) f : script w = [] -> syscall w r f = f w.
Proof. intros E. unfold syscall, next_outcome. by rewrite E. Qed.

Lemma remove_dirs_calm n : forall w, script w = [] -> remove_dirs w n = (w, true).
Proof. induction n as [|n IH]; intros w E; [done|]. cbn [remove_dirs]. rewrite syscall_calm by done. cbn. by apply IH. Qed.

(** Streams when every call passes, and when the script says so, call by call. *)
Lemma fwrites_pass w pieces : forall buf, script w = [] -> fwrites w buf pieces = (w, Some (buf ++ concat pieces)).
Proof.
  induction pieces as [|b pieces IH]; intros buf E; cbn; [by rewrite app_nil_r|]. unfold next_outcome. rewrite E. rewrite IH by done.
  by rewrite <-app_assoc.
Qed.

Lemma fwrites_script pieces : forall w buf rest, script w = replicate (length pieces) Pass ++ rest ->
  fwrites w buf pieces = (set_script w rest, Some (buf ++ concat pieces)).
Proof.
  induction pieces as [|b pieces IH]; intros w buf rest E; cbn [fwrites concat].
  - cbn in E. subst rest. by destruct w; rewrite app_nil_r.
  - cbn in E. unfold next_outcome. rewrite E. rewrite (IH _ _ rest) by done. by rewrite <-app_assoc.
Qed.

(** The bytes of the records of a list. *)
Definition chain_bytes {A : Type} (pieces : A -> list (list Z)) (l : list (ptr * A)) : list Z :=
  concat ((fun e => concat (pieces e)) <$> l.*2).

Lemma write_chain_script {A} (pieces : A -> list (list Z)) n w (m : heap A) l : forall fuel pv buf rest,
  script w = replicate (n * length l) Pass ++ rest -> (forall e, length (pieces e) = n) ->
  dll (cells m) pv l None -> (length l <= fuel)%nat ->
  write_chain pieces fuel w m buf (head_or l None) = Ok (set_script w rest, Some (buf ++ chain_bytes pieces l)).
Proof.
  revert w. unfold chain_bytes. induction l as [|[p e] l IH]; intros w fuel pv buf rest E Hn Hl Hf.
  - cbn in *. rewrite Nat.mul_0_r in E. cbn in E. subst rest. rewrite app_nil_r. by destruct fuel, w.
  - destruct fuel as [|fuel]; [cbn in Hf; lia|]. destruct Hl as [Hp Hl]. cbn [write_chain head_or].
    rewrite (deref_Some _ _ _ Hp). cbn [mbind res_bind data next].
    rewrite (fwrites_script _ w buf (replicate (n * length l) Pass ++ rest)).
    2: { rewrite E, Hn, app_assoc, <-replicate_add. do 2 f_equal. cbn [length]. lia. }
    rewrite (IH _ fuel (Some p) _ rest) by (try done; cbn in Hf; lia). cbn. by rewrite <-app_assoc.
Qed.

Lemma write_chain_ok {A} (pieces : A -> list (list Z)) w (m : heap A) l : forall fuel pv buf,
  script w = [] -> dll (cells m) pv l None -> (length l <= fuel)%nat ->
  write_chain pieces fuel w m buf (head_or l None) = Ok (w, Some (buf ++ chain_bytes pieces l)).
Proof.
  unfold chain_bytes. induction l as [|[p e] l IH]; intros fuel pv buf E Hl Hf.
  - cbn. rewrite app_nil_r. by destruct fuel.
  - destruct fuel as [|fuel]; [cbn in Hf; lia|]. destruct Hl as [Hp Hl]. cbn [write_chain head_or].
    rewrite (deref_Some _ _ _ Hp). cbn [mbind res_bind data next]. rewrite fwrites_pass by done.
    rewrite (IH fuel (Some p)) by (try done; cbn in Hf; lia). cbn. by rewrite <-app_assoc.
Qed.

Lemma open_file_pass w rest name : script w = Pass :: rest -> (forall i, names w !! name = Some i -> is_Some (files w !! i)) ->
  exists w' fd, open_file w name WrTruncCreat = (w', fd) /\ opened w w' name WrTruncCreat fd /\ script w' = rest.
Proof.
  intros E Hn. destruct (open_file_ok w name WrTruncCreat) as (w' & fd & Eo & Hc). exists w', fd. split; [done|]. revert Eo.
  unfold open_file, syscall, next_outcome. rewrite E. cbn [names set_script files].
  destruct (names w !! name) as [i|] eqn:Ei; [destruct (Hn i eq_refl) as [nd Ef]; rewrite Ef|]; intros [= <- <-].
  all: split; [|done]; destruct Hc as [Hc|(Hfd & _)]; [exact Hc|]; match type of Hfd with fresh_fd ?w = _ => pose proof (fresh_fd_nonneg w) end; lia.
Qed.

Lemma write_at_start b : write_at [] 0 b = b.
Proof. unfold write_at. cbn. by rewrite drop_nil, app_nil_r. Qed.

Section stored.
Context (local_path : string) (fh : zfs_fh) (type : metadata_type) (depth : Z) (path : string).
Hypothesis Hdepth : 0 <= depth.
Hypothesis Hpath : build_fh_metadata_path local_path fh type depth = Ok path.

Lemma other_depth_path i p : i ∈ other_depths depth ->
  build_fh_metadata_path local_path fh type i = Ok p -> p <> path.
Proof.
  unfold other_depths. intros [Hi [H0 _]%elem_of_seqZ]%list_elem_of_filter Ep ->. revert Hpath Ep.
  unfold build_fh_metadata_path. repeat case_match; try done. destruct (type_suffix type) as [suffix| |]; [|done|done].
  intros [= <-] [= E]. apply Hi.
  apply (f_equal String.length) in E. rewrite !length_string_app, !length_tree in E. lia.
Qed.

Definition ready (w : world) (data : list Z) : Prop := stored w path data /\ named w /\ none_older local_path fh type depth w.

Lemma ready_same w w' data : files w' = files w -> names w' = names w -> ready w data -> ready w' data.
Proof. unfold ready, stored, named, none_older. by intros -> ->. Qed.

(** After [path] was made to name [i]. *)
Lemma ready_names w w' i reg data : (forall q, q <> path -> names w' !! q = names w !! q \/ names w' !! q = None) ->
  names w' !! path = Some i -> files w' !! i = Some (Inode reg data) -> (forall k, is_Some (files w !! k) -> is_Some (files w' !! k)) ->
  named w -> none_older local_path fh type depth w -> ready w' data.
Proof.
  intros Hn Hp Hi Hf H1 H2. split; [unfold stored; rewrite Hp; by exists reg|]. split.
  - intros q k Hq. destruct (decide (q = path)) as [->|Hne]; [rewrite Hp in Hq; injection Hq as <-; by eexists|].
    destruct (Hn q Hne) as [E|E]; rewrite E in Hq; [|done]. by apply Hf, (H1 q).
  - intros k q Hk Hq. pose proof (other_depth_path k q Hk Hq) as Hne. destruct (Hn q Hne) as [->| ->]; [|done]. by apply (H2 k).
Qed.

(** What was written to a new file takes the name [path]; [o] is the outcome of closing
    it. *)
Definition kept (o : outcome) (buf : list Z) : list Z :=
  match o with Pass => buf | Short n => take (S n) buf | _ => [] end.

Lemma rename_written w w1 w1' new_path fd buf o : opened w w1 new_path WrTruncCreat fd ->
  next_outcome w1 = (o, w1') -> script w1' = [] -> named w -> none_older local_path fh type depth w ->
  exists w2, rename (fclose_write w1 fd buf) new_path path = (w2, 0) /\ ready w2 (kept o buf) /\ script w2 = [].
Proof.
  intros (_ & _ & _ & Hop) Eo Hs Hn Ho. pose proof (next_outcome_frame _ _ _ Eo) as (F1 & F2 & F3 & _).
  assert (exists i reg, names w1 !! new_path = Some i /\ fds w1 !! fd = Some (i, 0%nat) /\ files w1 !! i = Some (Inode reg []) /\
    (forall q, q <> new_path -> names w1 !! q = names w !! q) /\ (forall k, is_Some (files w !! k) -> is_Some (files w1 !! k)))
    as (i & reg & Hi & Hfd & Hf & Hq & Hk).
  { destruct (names w !! new_path) as [i|] eqn:Ei.
    - destruct Hop as (-> & -> & nd & _ & ->). exists i, (i_reg nd). rewrite !lookup_insert_eq. split_and!; [done..|].
      intros k Hk. rewrite lookup_insert_is_Some. destruct (decide (i = k)); auto.
    - destruct Hop as (_ & i & _ & -> & -> & ->). exists i, true. rewrite !lookup_insert_eq. split_and!; [done..| |].
      + intros q Hq. by apply lookup_insert_ne.
      + intros k Hk. rewrite lookup_insert_is_Some. destruct (decide (i = k)); auto. }
  rewrite <-F2 in Hi, Hq. rewrite <-F1 in Hf, Hk. rewrite <-F3 in Hfd. unfold fclose_write. rewrite Eo. fold (kept o buf).
  assert (fd_inode w1' fd = Some (i, 0%nat, Inode reg [])) as -> by (unfold fd_inode; rewrite Hfd; cbn; by rewrite Hf).
  cbn [i_data i_reg]. rewrite write_at_start. unfold rename. rewrite syscall_calm by done. cbn [close set_fds set_files names]. rewrite Hi.
  eexists. split; [done|]. split; [|done]. apply (ready_names w _ i reg); cbn; [|apply lookup_insert_eq|apply lookup_insert_eq| |done|done].
  - intros q Hne. rewrite lookup_insert_ne by done. destruct (decide (q = new_path)) as [-> |Hn2]; [right; apply lookup_delete_eq|left].
    rewrite lookup_delete_ne by done. by apply Hq.
  - intros k Hk'. rewrite lookup_insert_is_Some. destruct (decide (i = k)); auto.
Qed.
End stored.
