(* ===== verification/JournalFile.v ===== *)
(** The journal of a directory on disk: [add_journal_entry], [read_journal],
    [write_journal] and [flush_journal] of
    [src/zfsd/fs-entities/metadata/metadata.c].

    The file is a log: an entry is appended before the journal in memory is changed, and
    reading the file inserts its entries one by one into an empty journal.  From time
    to time the file is written anew from the journal.  The memory and the journal are
    those of [Journal.v], the files those of [MetaFiles.v]; [ms_gen] has the generations
    of the cache of descriptors ([FdCache.v]). *)

From S2P Require Import Prelude FileIO AllocPool PosixFs DataCoding Hashtab Chain Journal MetaPaths MetaFiles.
From stdpp Require Import strings.
#[local] Open Scope Z_scope.

Record msys := MSys { ms_w : world; ms_gen : gmap Z Z }.

Definition gen_of (s : msys) (fd : Z) : Z := default 0 (ms_gen s !! fd).
Definition with_world (s : msys) (w : world) : msys := MSys w (ms_gen s).

Definition journal_opened_p (s : msys) (j : journal) : bool :=
  if jn_fd j <? 0 then false else jn_generation j =? gen_of s (jn_fd j).

(** [init_journal_fd], after [journal->fd = fd] *)
Definition init_journal_fd (s : msys) (j : journal) (fd : Z) : msys * journal :=
  let g := u32 (gen_of s fd + 1) in
  (MSys (ms_w s) (<[fd := g]> (ms_gen s)), MkJournal (jn_htab j) (jn_chain j) fd g).

Definition close_metadata_fd (s : msys) (fd : Z) : msys :=
  MSys (close (ms_w s) fd) (<[fd := u32 (gen_of s fd + 1)]> (ms_gen s)).

Definition close_journal_file (s : msys) (j : journal) : msys * journal :=
  if 0 <=? jn_fd j then
    (if jn_generation j =? gen_of s (jn_fd j) then close_metadata_fd s (jn_fd j) else s,
     MkJournal (jn_htab j) (jn_chain j) (-1) (jn_generation j))
  else (s, j).

(** [lseek (fd, 0, SEEK_END)] *)
Definition seek_end (w : world) (fd : Z) : world * Z :=
  syscall w (-1) (fun w =>
    match fd_inode w fd with
    | None => (set_errno w EBADF, -1)
    | Some (i, _, nd) => (set_fds w (<[fd := (i, length (i_data nd))]> (fds w)), Z.of_nat (length (i_data nd)))
    end).

(** ** Entries in the file *)

Definition entry_pieces (e : journal_entry) : list (list Z) :=
  [le_bytes 4 (je_dev e); le_bytes 4 (je_ino e); le_bytes 4 (je_gen e); le_bytes 4 (oper_value (je_oper e));
   le_bytes 4 (len (je_name e)); name_bytes (je_name e); fh_to_bytes (je_master_fh e); le_bytes 8 (je_master_version e)].
Definition entry_bytes (e : journal_entry) : list Z := concat (entry_pieces e).

(** The part of an entry before the name: [local_fh], [oper] and [name.len]. *)
Definition read_head (s : list Z) : option (zfs_fh * Z * Z * list Z) :=
  '(dev, s) ← fread_int 4 s; '(ino, s) ← fread_int 4 s; '(gen, s) ← fread_int 4 s;
  '(oper, s) ← fread_int 4 s; '(n, s) ← fread_int 4 s;
  Some (MkFh 0 0 dev ino gen, oper, n, s).

(** The name with its final zero and what follows it. *)
Definition read_tail (n : Z) (s : list Z) : option (list Z * zfs_fh * Z * list Z) :=
  '(b, s) ← fread (Z.to_nat (u32 (n + 1))) s; '(fh, s) ← read_fh s; '(version, s) ← fread_int 8 s;
  Some (b, fh, version, s).

Definition oper_of (v : Z) : option journal_operation_t :=
  if v =? 0 then Some JOURNAL_OPERATION_ADD else if v =? 1 then Some JOURNAL_OPERATION_DEL else None.

(** The loop of [read_journal].  A length of 2^32 - 1 makes [name.len + 1] zero and
    [name.str[name.len] = 0] a store outside of the block. *)
Fixpoint read_entries (fuel : nat) (m : jheap) (j : journal) (s : list Z) : res (jheap * journal) :=
  match read_head s with
  | None => Ok (m, j)
  | Some (local_fh, oper, n, s) =>
      match fuel with
      | O => OutOfFuel
      | S fuel =>
          let '(p, m) := xmemdup m in
          match read_tail n s with
          | None => m ← xfree m p; Ok (m, j)
          | Some (b, master_fh, version, s) =>
              if n =? UINT32_MAX then Aborted
              else
                match oper_of oper with
                | Some op =>
                    '(m, j, _) ← journal_insert m j op local_fh master_fh version
                                   (MkName n (c_string (take (Z.to_nat n) b)) p) false;
                    read_entries fuel m j s
                | None => m ← xfree m p; read_entries fuel m j s
                end
          end
      end
  end.

(** [for (entry = journal->first; entry; entry = entry->next)] *)
Definition write_entries : nat -> world -> jheap -> list Z -> option ptr -> res (world * option (list Z)) := write_chain entry_pieces.

(** ** The operations *)

Section file.
Context (local_path : string) (fh : zfs_fh) (depth : Z).

Definition flush_journal (s : msys) (m : jheap) (j : journal) (path : string) : res (msys * journal * bool) :=
  let '(s, j) := close_journal_file s j in
  match first (jn_chain j) with
  | None => let '(w, r) := remove_file_and_path (ms_w s) path depth in Ok (with_world s w, j, r)
  | Some _ =>
      let new_path := (path +:+ ".new")%string in
      '(w, fd) ← open_fh_metadata local_path fh METADATA_TYPE_JOURNAL depth (ms_w s) new_path WrTruncCreat;
      if fd <? 0 then Ok (with_world s w, j, false)
      else
        '(w, r) ← write_entries (size (cells m)) w m [] (first (jn_chain j));
        match r with
        | None => Ok (with_world s (PosixFs.unlink (fclose_write w fd []) new_path), j, false)
        | Some buf =>
            let w := fclose_write w fd buf in
            let '(w, _) := rename w new_path path in
            Ok (with_world s w, j, true)
        end
  end.

Definition read_journal (s : msys) (m : jheap) (j : journal) : res (msys * jheap * journal * bool) :=
  path ← build_fh_metadata_path local_path fh METADATA_TYPE_JOURNAL depth;
  '(w, fd) ← open_fh_metadata local_path fh METADATA_TYPE_JOURNAL depth (ms_w s) path RdOnly;
  if fd <? 0 then Ok (with_world s w, m, j, werrno w =? ENOENT)
  else
    let '(w, bytes) := fread_all w fd in
    '(m, j) ← read_entries (length bytes) m j bytes;
    '(s, j, r) ← flush_journal (with_world s (close w fd)) m j path;
    Ok (s, m, j, r).

Definition write_journal (s : msys) (m : jheap) (j : journal) : res (msys * journal * bool) :=
  path ← build_fh_metadata_path local_path fh METADATA_TYPE_JOURNAL depth;
  flush_journal s m j path.

Definition open_journal_file (s : msys) (j : journal) : res (msys * journal * Z) :=
  path ← build_fh_metadata_path local_path fh METADATA_TYPE_JOURNAL depth;
  '(w, fd) ← open_fh_metadata local_path fh METADATA_TYPE_JOURNAL depth (ms_w s) path WrCreat;
  if fd <? 0 then Ok (with_world s w, j, fd)
  else
    let '(w, r) := seek_end w fd in
    if r =? -1 then Ok (with_world s (close w fd), j, -1)
    else let '(s, j) := init_journal_fd (with_world s w) j fd in Ok (s, j, fd).

(** The first part of [add_journal_entry]: the file is open and at its end. *)
Definition journal_at_end (s : msys) (j : journal) : res (msys * journal * bool) :=
  if journal_opened_p s j then
    let '(w, r) := seek_end (ms_w s) (jn_fd j) in Ok (with_world s w, j, negb (r =? -1))
  else '(s, j, fd) ← open_journal_file s j; Ok (s, j, 0 <=? fd).

(** [is_copy] says that the volume is a local copy; [sizeof (master_fh)] in the check of
    the length is the size of a pointer, so the copies into the buffer can go beyond its
    end. *)
Definition add_journal_entry (is_copy : bool) (s : msys) (m : jheap) (j : journal) (local_fh master_fh : zfs_fh)
    (master_version : Z) (name : name_t) (oper : journal_operation_t) : res (msys * jheap * journal * bool) :=
  if negb is_copy then Aborted
  else
    '(s, j, ok) ← journal_at_end s j;
    if negb ok then Ok (s, m, j, false)
    else if ZFS_DC_SIZE <? len name + 1 + 20 + 8 then Aborted
    else
      let bytes := entry_bytes (full_entry oper local_fh master_fh master_version name) in
      if ZFS_DC_SIZE <? Z.of_nat (length bytes) then Aborted
      else
        '(w, r) ← fd_write (ms_w s) (jn_fd j) bytes;
        if r : bool then
          '(m, j, _) ← journal_insert m j oper local_fh master_fh master_version name true;
          Ok (with_world s w, m, j, true)
        else Ok (with_world s w, m, j, false).
End file.

(** ** What a log means *)

(** An entry that can be in a journal: numbers of their width, a name without zeros
    whose length is recorded, at most [ZFS_MAXNAMELEN] characters. *)
Record entry_wf (e : journal_entry) : Prop := {
  ew_dev : is_u32 (je_dev e); ew_ino : is_u32 (je_ino e); ew_gen : is_u32 (je_gen e);
  ew_oper : je_oper e <> JOURNAL_OPERATION_LAST_AND_UNUSED;
  ew_len : len (je_name e) = Z.of_nat (length (chars (je_name e)));
  ew_short : (length (chars (je_name e)) <= 255)%nat;
  ew_chars : Forall (fun c => c <> 0) (chars (je_name e));
  ew_master : fh_u32 (je_master_fh e);
  ew_version : is_u64 (je_master_version e)
}.

Definition replay (L : list journal_entry) : list journal_entry := foldl (fun l e => log_insert e l) [] L.
Definition log_bytes (L : list journal_entry) : list Z := concat (entry_bytes <$> L).

Lemma oper_of_value o : o <> JOURNAL_OPERATION_LAST_AND_UNUSED -> oper_of (oper_value o) = Some o.
Proof. by destruct o. Qed.

Lemma entry_bytes_eq e : entry_wf e -> entry_bytes e =
  le_bytes 4 (je_dev e) ++ le_bytes 4 (je_ino e) ++ le_bytes 4 (je_gen e) ++ le_bytes 4 (oper_value (je_oper e)) ++
  le_bytes 4 (len (je_name e)) ++ (chars (je_name e) ++ [0]) ++ fh_to_bytes (je_master_fh e) ++ le_bytes 8 (je_master_version e).
Proof.
  intros [H1 H2 H3 H4 H5 H6 H7 H8 H9]. unfold entry_bytes, entry_pieces. cbn [concat]. by rewrite name_bytes_wf, app_nil_r.
Qed.

Lemma length_entry_bytes e : entry_wf e -> length (entry_bytes e) = (49 + length (chars (je_name e)))%nat.
Proof.
  intros He. rewrite (entry_bytes_eq e He). rewrite !length_app, !length_le_bytes, length_fh_to_bytes. cbn. lia.
Qed.

Lemma read_head_app e s : entry_wf e ->
  read_head (entry_bytes e ++ s) = Some (MkFh 0 0 (je_dev e) (je_ino e) (je_gen e), oper_value (je_oper e), len (je_name e),
    (chars (je_name e) ++ [0]) ++ fh_to_bytes (je_master_fh e) ++ le_bytes 8 (je_master_version e) ++ s).
Proof.
  intros He. rewrite (entry_bytes_eq e He). destruct He as [H1 H2 H3 H4 H5 H6 H7 H8 H9]. unfold read_head.
  rewrite <-!app_assoc.
  assert (0 <= oper_value (je_oper e) < 2 ^ (8 * Z.of_nat 4)) as Ho by (destruct (je_oper e); cbn; lia).
  assert (0 <= len (je_name e) < 2 ^ (8 * Z.of_nat 4)) as Hl by (rewrite H5; lia).
  repeat (rewrite fread_int_app by assumption; cbn [mbind option_bind]). done.
Qed.

Lemma read_tail_app e s : entry_wf e ->
  read_tail (len (je_name e)) ((chars (je_name e) ++ [0]) ++ fh_to_bytes (je_master_fh e) ++ le_bytes 8 (je_master_version e) ++ s) =
  Some (chars (je_name e) ++ [0], je_master_fh e, je_master_version e, s).
Proof.
  intros [H1 H2 H3 H4 H5 H6 H7 H8 H9]. unfold read_tail. rewrite H5, (wrap_small 32) by lia.
  rewrite fread_app by (rewrite length_app; cbn; lia). cbn [mbind option_bind].
  rewrite read_fh_app by done. cbn [mbind option_bind]. by rewrite fread_int_app.
Qed.

Ltac read_lengths :=
  repeat match goal with
  | |- context [fread_int ?n ?s] =>
      let E := fresh "E" in let z := fresh "z" in let r := fresh "r" in
      destruct (fread_int n s) as [[z r]|] eqn:E; [apply fread_int_length in E; cbn [mbind option_bind]|done]
  end.

Lemma read_fh_length s fh s' : read_fh s = Some (fh, s') -> length s = (20 + length s')%nat.
Proof. unfold read_fh. read_lengths. intros [= <- <-]. lia. Qed.

Lemma read_head_length s x s' : read_head s = Some (x, s') -> length s = (20 + length s')%nat.
Proof. unfold read_head. read_lengths. intros [= <- <-]. lia. Qed.

Lemma read_tail_length n s b fh v s' : read_tail n s = Some (b, fh, v, s') -> length s = (Z.to_nat (u32 (n + 1)) + 28 + length s')%nat.
Proof.
  unfold read_tail. destruct (fread _ s) as [[b1 s1]|] eqn:E1; [|done]. apply fread_length in E1. cbn [mbind option_bind].
  destruct (read_fh s1) as [[f s2]|] eqn:E2; [|done]. apply read_fh_length in E2. cbn [mbind option_bind].
  read_lengths. intros [= <- <- <- <-]. lia.
Qed.

Lemma fread_int_extend k a b z s : fread_int k a = Some (z, s) -> fread_int k (a ++ b) = Some (z, s ++ b).
Proof.
  unfold fread_int, fread. destruct (Nat.leb_spec k (length a)); [|done].
  cbn. intros [= <- <-]. rewrite (proj2 (Nat.leb_le _ _)) by (rewrite length_app; lia). cbn.
  by rewrite take_app_le, drop_app_le by lia.
Qed.

Lemma read_head_extend a b x o n s : read_head a = Some (x, o, n, s) -> read_head (a ++ b) = Some (x, o, n, s ++ b).
Proof.
  unfold read_head.
  repeat match goal with
  | |- context [fread_int ?n ?s] =>
      lazymatch s with _ ++ _ => fail | _ => idtac end;
      let E := fresh "E" in destruct (fread_int n s) as [[? ?]|] eqn:E; [apply (fread_int_extend _ _ b) in E; cbn [mbind option_bind]|done]
  end.
  intros [= <- <- <- <-]. repeat match goal with E : fread_int _ _ = _ |- _ => rewrite E; cbn [mbind option_bind]; clear E end. done.
Qed.

(** A part of an entry: either not even the head is there, or what follows it is
    too short. *)
Lemma torn_entry e k : entry_wf e -> (k < length (entry_bytes e))%nat ->
  read_head (take k (entry_bytes e)) = None \/
  exists x o s, read_head (take k (entry_bytes e)) = Some (x, o, len (je_name e), s) /\ read_tail (len (je_name e)) s = None.
Proof.
  intros He Hk. rewrite (length_entry_bytes e He) in Hk.
  destruct (read_head (take k (entry_bytes e))) as [[[[x o] n] s]|] eqn:E; [right|by left].
  pose proof (read_head_length _ _ _ E) as Hl. rewrite length_take, (length_entry_bytes e He) in Hl.
  assert (n = len (je_name e)) as ->.
  { pose proof (read_head_app e [] He) as E2. rewrite app_nil_r in E2.
    apply (read_head_extend _ (drop k (entry_bytes e))) in E. rewrite take_drop in E. rewrite E in E2. by injection E2. }
  exists x, o, s. split; [done|]. destruct (read_tail (len (je_name e)) s) as [[[[b fh] v] s']|] eqn:Et; [|done].
  apply read_tail_length in Et. destruct He as [_ _ _ _ H5 H6 _ _ _]. rewrite H5, (wrap_small 32) in Et by lia. lia.
Qed.

(** ** Reading a log into a journal *)

Lemma log_insert_view e e' l : entry_view e = entry_view e' -> log_insert e l = log_insert e' l.
Proof.
  intros E. unfold log_insert. rewrite <-(kof_view e), <-(kof_view e'), E.
  assert (je_oper e = je_oper e') as -> by (by apply (f_equal je_oper) in E).
  assert (name_key JOURNAL_OPERATION_ADD (je_name e) = name_key JOURNAL_OPERATION_ADD (je_name e')) as ->; [|done].
  unfold name_key. by injection E as _ _ _ _ -> -> _ _.
Qed.

Lemma length_log_insert e l : (length (log_insert e l) <= S (length l))%nat.
Proof.
  assert (forall k l, (length (log_without k l) <= length l)%nat) as H.
  { intros k l'. unfold log_without. apply length_filter. }
  unfold log_insert. repeat case_decide; rewrite ?length_app; cbn; [etrans; [apply H|lia]| |];
    (rewrite Nat.add_1_r; apply le_n_S, H).
Qed.

Lemma length_log l : length (log l) = length l.
Proof. unfold log. by rewrite !length_fmap. Qed.

(** [journal_insert] does not touch the descriptor. *)
Lemma bind_ok {A B} (x : res A) (f : A -> res B) b : (x ≫= f) = Ok b -> exists a, x = Ok a /\ f a = Ok b.
Proof. destruct x as [a| |]; [by exists a|done|done]. Qed.

Ltac inv_binds :=
  repeat match goal with
  | H : (_ ≫= _) = Ok _ |- _ => apply bind_ok in H as (? & ? & H)
  | H : context [let '(_, _) := ?x in _] |- _ => destruct x eqn:?
  end.

Lemma insert_entry_fd m j oper lfh mfh ver name copy m' j' r : insert_entry m j oper lfh mfh ver name copy = Ok (m', j', r) ->
  jn_fd j' = jn_fd j /\ jn_generation j' = jn_generation j.
Proof.
  unfold insert_entry. intros E. inv_binds. destruct o; [|done]. inv_binds. by injection E as <- <- <-.
Qed.

Lemma journal_delete_fd m j oper name m' j' r : journal_delete m j oper name = Ok (m', j', r) ->
  jn_fd j' = jn_fd j /\ jn_generation j' = jn_generation j.
Proof.
  unfold journal_delete. intros E. inv_binds. destruct o; [|by injection E as <- <- <-]. inv_binds.
  case_match; try done. inv_binds. by injection E as <- <- <-.
Qed.

Lemma journal_insert_fd m j oper lfh mfh ver name copy m' j' r : journal_insert m j oper lfh mfh ver name copy = Ok (m', j', r) ->
  jn_fd j' = jn_fd j /\ jn_generation j' = jn_generation j.
Proof.
  unfold journal_insert. case_decide; [|apply insert_entry_fd]. intros E. inv_binds.
  match goal with H : journal_delete _ _ _ _ = _ |- _ => apply journal_delete_fd in H as [H1 H2] end.
  case_match; [inv_binds; injection E as <- <- <-|apply insert_entry_fd in E]; rewrite <-H1, <-H2; done.
Qed.

(** The end of a log: nothing, or a part of an entry. *)
Definition torn (tail : list Z) : Prop := tail = [] \/ exists e k, entry_wf e /\ (k < length (entry_bytes e))%nat /\ tail = take k (entry_bytes e).

Definition same_fd (j j' : journal) : Prop := jn_fd j' = jn_fd j /\ jn_generation j' = jn_generation j.

(** The state after entries were inserted. *)
Definition inserted (m : jheap) (j : journal) l L (m' : jheap) (j' : journal) : Prop :=
  exists l', journal_ok m' j' l' /\ exact (jn_htab j') /\ log l' = foldl (fun l e => log_insert e l) (log l) L /\ same_fd j j'.

Lemma read_torn m j l tail fuel : journal_ok m j l -> exact (jn_htab j) -> torn tail -> (length tail <= fuel)%nat ->
  exists m', read_entries fuel m j tail = Ok (m', j) /\ journal_ok m' j l.
Proof.
  intros H Hx Ht Hf. assert (read_head [] = None) as Hnil by done.
  destruct Ht as [-> |(e & k & He & Hk & ->)]; [exists m; destruct fuel; cbn [read_entries]; by rewrite Hnil|].
  destruct (torn_entry e k He Hk) as [E|(x & o & s & E & Et)].
  - exists m. destruct fuel; cbn [read_entries]; by rewrite E.
  - pose proof (read_head_length _ _ _ E) as Hl. destruct fuel as [|fuel]; [lia|]. cbn [read_entries]. rewrite E.
    pose proof (chained_xmemdup _ _ _ _ H) as Hm. destruct (xmemdup m) as [p m1]. destruct Hm as (H1 & Hp & Hno). rewrite Et.
    destruct (chained_xfree m1 _ _ _ p H1 Hp Hno) as (m' & -> & H'). by exists m'.
Qed.

Lemma read_entries_ok L : forall fuel m j l tail, Forall entry_wf L -> journal_ok m j l -> exact (jn_htab j) ->
  2 * Z.of_nat (length l + length L) + 1 <= MAX_PRIME -> torn tail -> (length (log_bytes L ++ tail) <= fuel)%nat ->
  exists m' j', read_entries fuel m j (log_bytes L ++ tail) = Ok (m', j') /\ inserted m j l L m' j'.
Proof.
  induction L as [|e L IH]; intros fuel m j l tail HL H Hx Hb Ht Hf.
  - destruct (read_torn m j l tail fuel H Hx Ht Hf) as (m' & E & H'). exists m', j. split; [exact E|]. by exists l.
  - apply Forall_cons in HL as [He HL]. unfold log_bytes in *. cbn [fmap list_fmap concat] in *. rewrite <-app_assoc in *.
    rewrite length_app, (length_entry_bytes e He) in Hf. destruct fuel as [|fuel]; [lia|]. cbn [read_entries].
    rewrite read_head_app by done. pose proof (chained_xmemdup _ _ _ _ H) as Hm. destruct (xmemdup m) as [p m1].
    destruct Hm as (H1 & Hp & Hno). rewrite read_tail_app by done. pose proof He as [W1 W2 W3 W4 W5 W6 W7 W8 W9].
    rewrite (proj2 (Z.eqb_neq _ _)) by (unfold UINT32_MAX; lia). rewrite oper_of_value by done.
    rewrite W5, Nat2Z.id, take_app_length, c_string_id by done.
    destruct (journal_insert_ok m1 j l (je_oper e) (MkFh 0 0 (je_dev e) (je_ino e) (je_gen e)) (je_master_fh e) (je_master_version e)
      (MkName (Z.of_nat (length (chars (je_name e)))) (chars (je_name e)) p) false H1) as (m2 & j2 & l2 & E & H2 & El & _ & Hx2).
    { eapply exact_expand_safe; [exact H1|exact Hx|lia]. }
    { by intros _. }
    rewrite E. cbn [mbind res_bind]. apply journal_insert_fd in E as [F1 F2].
    rewrite (log_insert_view _ e) in El.
    2: { unfold entry_view, full_entry. cbn. by rewrite <-W5. }
    destruct (IH fuel m2 j2 l2 tail HL H2 (Hx2 Hx)) as (m' & j' & E' & l' & P1 & P2 & P3 & P4 & P5).
    { pose proof (length_log_insert e (log l)) as Hlen. rewrite <-El, !length_log in Hlen. cbn [length] in Hb. lia. }
    { done. }
    { cbn [length] in Hf. lia. }
    exists m', j'. split; [exact E'|]. exists l'. split_and!; [done|done|by rewrite P3, El|]. split; congruence.
Qed.

(** ** Writing a journal and reading it again *)

Definition keys (l : list journal_entry) : list journal_key := kof <$> l.
Definition opposite (e : journal_entry) (o : journal_operation_t) : journal_key := name_key o (je_name e).

(** A journal has each operation and name once, and no ADD before a DEL of its name. *)
Fixpoint settled (l : list journal_entry) : Prop :=
  match l with
  | [] => True
  | e :: l => kof e ∉ keys l /\ (je_oper e = JOURNAL_OPERATION_ADD -> opposite e JOURNAL_OPERATION_DEL ∉ keys l) /\ settled l
  end.

Lemma keys_app l1 l2 : keys (l1 ++ l2) = keys l1 ++ keys l2.
Proof. apply fmap_app. Qed.

Lemma keys_without k l q : q ∈ keys (log_without k l) -> q ∈ keys l /\ q <> k.
Proof.
  intros (e & -> & [Hk He]%list_elem_of_filter)%list_elem_of_fmap. split; [|done]. apply list_elem_of_fmap. by exists e.
Qed.

Lemma exists_key k l : Exists (fun e => kof e = k) l <-> k ∈ keys l.
Proof. unfold keys. rewrite Exists_exists, list_elem_of_fmap. naive_solver. Qed.

Lemma settled_without k l : settled l -> settled (log_without k l).
Proof.
  induction l as [|e l IH]; [done|]. intros (H1 & H2 & H3). unfold log_without in *. rewrite filter_cons.
  case_decide; [|by apply IH]. split_and!; [| |by apply IH].
  - intros [? _]%keys_without. tauto.
  - intros Ho [? _]%keys_without. by apply H2.
Qed.

Lemma opposite_key e a : kof a = opposite e JOURNAL_OPERATION_ADD ->
  je_oper a = JOURNAL_OPERATION_ADD /\ opposite a JOURNAL_OPERATION_DEL = opposite e JOURNAL_OPERATION_DEL.
Proof. unfold opposite, name_key. cbn. intros [= -> -> ->]. done. Qed.

Lemma settled_snoc l e : settled (l ++ [e]) <->
  settled l /\ kof e ∉ keys l /\ (je_oper e = JOURNAL_OPERATION_DEL -> opposite e JOURNAL_OPERATION_ADD ∉ keys l).
Proof.
  induction l as [|a l IH]; cbn [app settled]; [cbn; set_solver|]. rewrite IH, !keys_app. cbn [keys list_fmap fmap].
  rewrite !not_elem_of_app, !not_elem_of_cons.
  assert ((je_oper a = JOURNAL_OPERATION_ADD -> opposite a JOURNAL_OPERATION_DEL <> kof e) <->
    (je_oper e = JOURNAL_OPERATION_DEL -> opposite e JOURNAL_OPERATION_ADD <> kof a)) as Hx.
  { change (kof e) with (name_key (je_oper e) (je_name e)). change (kof a) with (name_key (je_oper a) (je_name a)).
    unfold opposite, name_key. split; intros H Ho E; injection E as E1 E2 E3; apply H; congruence. }
  assert (opposite a JOURNAL_OPERATION_DEL ∉ [] /\ kof a ∉ []) as [Hn1 Hn2] by (split; apply not_elem_of_nil).
  change (kof <$> l) with (keys l). assert (kof a <> kof e <-> kof e <> kof a) as Hs by (split; congruence). tauto.
Qed.

Lemma settled_insert e l : settled l -> settled (log_insert e l).
Proof.
  intros Hs. unfold log_insert. assert (forall k l, k ∉ keys (log_without k l)) as Hout by (intros k l' [_ ?]%keys_without; done).
  destruct (decide (je_oper e = JOURNAL_OPERATION_DEL)) as [Ho|Ho].
  - destruct (decide _) as [Hx|Hx]; [by apply settled_without|]. rewrite exists_key in Hx. apply settled_snoc.
    split_and!; [by apply settled_without|apply Hout|]. intros _ [? _]%keys_without. by apply Hx.
  - apply settled_snoc. split_and!; [by apply settled_without|apply Hout|]. by intros.
Qed.

Lemma replay_snoc L e : replay (L ++ [e]) = log_insert e (replay L).
Proof. unfold replay. by rewrite foldl_app. Qed.

Lemma settled_replay L : settled (replay L).
Proof. induction L as [|e L IH] using rev_ind; [done|]. rewrite replay_snoc. by apply settled_insert. Qed.

(** A settled journal read from its own entries is unchanged. *)
Lemma replay_settled l : settled l -> Forall (fun e => entry_view e = e) l -> replay l = l.
Proof.
  induction l as [|e l IH] using rev_ind; [done|]. rewrite settled_snoc, Forall_app, Forall_singleton. intros (Hs & Hk & Ho) [Hv He].
  rewrite replay_snoc, IH by done. unfold log_insert. fold (opposite e JOURNAL_OPERATION_ADD).
  assert (log_without (kof e) l = l) as ->.
  { unfold log_without. apply filter_all. intros a Ha E. apply Hk. apply list_elem_of_fmap. by exists a. }
  destruct (decide _) as [Hd|Hd]; [|by rewrite He]. rewrite decide_False; [by rewrite He|]. rewrite exists_key. by apply Ho.
Qed.

Lemma entry_view_idem e : entry_view (entry_view e) = entry_view e.
Proof. done. Qed.

Lemma log_views l : Forall (fun e => entry_view e = e) (log l).
Proof. apply Forall_forall. unfold log. by intros e (x & -> & _)%list_elem_of_fmap. Qed.

Lemma entry_bytes_view e : entry_bytes (entry_view e) = entry_bytes e.
Proof. done. Qed.

Lemma entry_wf_view e : entry_wf e -> entry_wf (entry_view e).
Proof. intros []. by constructor. Qed.

Lemma replay_wf L : Forall entry_wf L -> Forall entry_wf (replay L).
Proof.
  assert (forall k l, Forall entry_wf l -> Forall entry_wf (log_without k l)) as Hw.
  { intros k l H. apply Forall_forall. intros e [_ He]%list_elem_of_filter. rewrite Forall_forall in H. by apply H. }
  induction L as [|e L IH] using rev_ind; intros H; [constructor|]. apply Forall_app in H as [H He]. apply Forall_cons in He as [He _]. rewrite replay_snoc.
  unfold log_insert. repeat case_decide; [by apply Hw, IH| |]; (apply Forall_app; split; [by apply Hw, IH|]);
    apply Forall_singleton, entry_wf_view, He.
Qed.

Lemma log_bytes_pieces l : log_bytes (log l) = chain_bytes entry_pieces l.
Proof. unfold log_bytes, log, chain_bytes. rewrite <-list_fmap_compose. done. Qed.

(** ** The file of a journal *)

Lemma close_journal_file_frame s j : let '(s', j') := close_journal_file s j in
  files (ms_w s') = files (ms_w s) /\ names (ms_w s') = names (ms_w s) /\ script (ms_w s') = script (ms_w s) /\
  jn_htab j' = jn_htab j /\ jn_chain j' = jn_chain j.
Proof. unfold close_journal_file, close_metadata_fd. by repeat case_match; simplify_eq. Qed.

Section stored.
Context (local_path : string) (fh : zfs_fh) (depth : Z) (path : string).
Hypothesis Hdepth : 0 <= depth.
Hypothesis Hpath : build_fh_metadata_path local_path fh METADATA_TYPE_JOURNAL depth = Ok path.
#[local] Abbreviation none_older := (none_older local_path fh METADATA_TYPE_JOURNAL depth).
#[local] Abbreviation ready := (ready local_path fh METADATA_TYPE_JOURNAL depth path).
#[local] Abbreviation ready_names := (ready_names local_path fh METADATA_TYPE_JOURNAL depth path Hdepth Hpath).
#[local] Abbreviation rename_written := (rename_written local_path fh METADATA_TYPE_JOURNAL depth path Hdepth Hpath).

Lemma htype_journal : exists suffix, type_suffix METADATA_TYPE_JOURNAL = Ok suffix.
Proof. by eexists. Qed.

(** Without failures, [flush_journal] makes the file the entries of the journal. *)
Lemma flush_journal_ok s m j l : journal_ok m j l -> script (ms_w s) = [] -> named (ms_w s) -> none_older (ms_w s) ->
  exists s' j', flush_journal local_path fh depth s m j path = Ok (s', j', true) /\ ready (ms_w s') (log_bytes (log l)) /\
  script (ms_w s') = [] /\ jn_htab j' = jn_htab j /\ jn_chain j' = jn_chain j.
Proof.
  intros H Hs Hn Ho. unfold flush_journal. pose proof (close_journal_file_frame s j) as Hc.
  destruct (close_journal_file s j) as [s1 j1]. destruct Hc as (F1 & F2 & F3 & F4 & F5). rewrite F5.
  rewrite Hs in F3. destruct (ch_chain _ _ _ _ H) as [Hnd Hdll Hfirst Hlast].
  assert (named (ms_w s1) /\ none_older (ms_w s1)) as [Hn1 Ho1] by (unfold named, MetaFiles.none_older; by rewrite F1, F2).
  rewrite Hfirst. destruct l as [|[p e] l]; cbn [head_or].
  - unfold remove_file_and_path, unlink_file. rewrite syscall_calm by done.
    assert (forall q, delete path (names (ms_w s1)) !! q = names (ms_w s1) !! q \/ delete path (names (ms_w s1)) !! q = None) as Hd.
    { intros q. destruct (decide (q = path)) as [-> |]; [right; apply lookup_delete_eq|left; by apply lookup_delete_ne]. }
    destruct (names (ms_w s1) !! path) as [i|] eqn:Ei; cbn; rewrite remove_dirs_calm by done; eexists _, _; (split; [done|]).
    + split_and!; [|done..]. cbn. unfold ready, stored, named, MetaFiles.none_older. cbn. rewrite lookup_delete_eq. split_and!; [done| |].
      * intros q k Hq. destruct (Hd q) as [E|E]; rewrite E in Hq; [by eapply Hn1|done].
      * intros k q Hk Hq. destruct (Hd q) as [->| ->]; [by eapply Ho1|done].
    + split_and!; [|done..]. split_and!; [unfold stored; cbn; by rewrite Ei|done|done].
  - destruct (open_fh_metadata_ok local_path fh METADATA_TYPE_JOURNAL depth htype_journal (ms_w s1) (path +:+ ".new")%string WrTruncCreat Ho1)
      as (w1 & fd & -> & [Hop|(_ & _ & Hno)]); [|by destruct (Hno F3 (Hn1 _))]. cbn [mbind res_bind].
    pose proof Hop as (Hfd & _ & Hs1 & _). rewrite (proj2 (Z.ltb_ge _ _)) by done.
    change (Some p) with (head_or ((p, e) :: l) None).
    unfold write_entries.
    rewrite (write_chain_ok entry_pieces w1 m ((p, e) :: l) (size (cells m)) None), <-log_bytes_pieces by (auto; by eapply dll_size).
    cbn [mbind res_bind app].
    assert (next_outcome w1 = (Pass, w1)) as Eo by (unfold next_outcome; by rewrite Hs1).
    destruct (rename_written (ms_w s1) w1 w1 _ fd (log_bytes (log ((p, e) :: l))) Pass Hop Eo (Hs1 F3) Hn1 Ho1) as (w2 & E & Hr & Hs2).
    rewrite E. eexists _, _. split; [done|]. by split_and!.
Qed.

Lemma log_bytes_nil L tail : Forall entry_wf L -> log_bytes L ++ tail = [] -> L = [] /\ tail = [].
Proof.
  destruct L as [|e L]; [done|]. intros [He _]%Forall_cons E. apply (f_equal length) in E. unfold log_bytes in E. rewrite fmap_cons in E. cbn [concat] in E.
  rewrite !length_app, (length_entry_bytes e He) in E. cbn in E. lia.
Qed.

(** Without failures, [read_journal] takes the entries of the file and drops a torn end. *)
Lemma read_journal_ok s m j L tail : journal_ok m j [] -> exact (jn_htab j) -> 2 * Z.of_nat (length L) + 1 <= MAX_PRIME ->
  script (ms_w s) = [] -> Forall entry_wf L -> torn tail -> ready (ms_w s) (log_bytes L ++ tail) ->
  exists s' m' j' l', read_journal local_path fh depth s m j = Ok (s', m', j', true) /\ journal_ok m' j' l' /\
    log l' = replay L /\ ready (ms_w s') (log_bytes (replay L)) /\ script (ms_w s') = [] /\ exact (jn_htab j').
Proof.
  intros H Hx Hb Hs HL Ht Hr. pose proof Hr as (Hst & Hn & Ho). unfold read_journal. rewrite Hpath. cbn [mbind res_bind].
  destruct (open_fh_metadata_ok local_path fh METADATA_TYPE_JOURNAL depth htype_journal (ms_w s) path RdOnly Ho)
    as (w1 & fd & -> & [Hop|(-> & Hu & Hno)]); cbn [mbind res_bind].
  - destruct Hop as (Hfd & _ & Hs1 & Hop). rewrite (proj2 (Z.ltb_ge _ _)) by done. specialize (Hs1 Hs). unfold stored in Hst.
    destruct (names (ms_w s) !! path) as [i|] eqn:Ei; [|by destruct Hop]. destruct Hop as (En & Ef & Efl), Hst as [reg Hi].
    unfold fread_all, next_outcome, fd_inode. rewrite Hs1, Ef, lookup_insert_eq. cbn [mbind option_bind]. rewrite Efl, Hi.
    cbn [mbind option_bind i_data]. rewrite drop_0.
    destruct (read_entries_ok L (length (log_bytes L ++ tail)) m j [] tail HL H Hx) as (m1 & j1 & -> & l1 & H1 & Hx1 & El & _); [cbn [length]; lia|done..|].
    cbn [mbind res_bind].
    destruct (flush_journal_ok (with_world s (close w1 fd)) m1 j1 l1 H1) as (s' & j' & -> & Hr' & Hs' & E1 & E2); cbn [with_world ms_w close set_fds script].
    + done.
    + unfold named. cbn. by rewrite En, Efl.
    + unfold MetaFiles.none_older. cbn. by rewrite En.
    + exists s', m1, j', l1. cbn [mbind res_bind]. rewrite El in Hr'. split_and!; [done|by rewrite E1, E2|done|done|done|by rewrite E1].
  - change (-1 <? 0) with true. cbn match. destruct (Hno Hs (Hn _)) as (_ & En & ->). change (ENOENT =? ENOENT) with true.
    unfold stored in Hst. rewrite En in Hst. apply log_bytes_nil in Hst as [-> ->]; [|done].
    eexists _, _, _, []. split; [done|]. split_and!; [done|done| |by apply Hu|done].
    eapply ready_same; [apply Hu..|exact Hr].
Qed.

(** ** Adding to the log *)

(** An open descriptor of the journal is one of its file. *)
Definition desc_ok (s : msys) (j : journal) : Prop := journal_opened_p s j = true ->
  exists i p, names (ms_w s) !! path = Some i /\ fds (ms_w s) !! jn_fd j = Some (i, p).

Definition same_journal (j j' : journal) : Prop := jn_htab j' = jn_htab j /\ jn_chain j' = jn_chain j.

Lemma seek_end_ok w fd i p nd : fds w !! fd = Some (i, p) -> files w !! i = Some nd -> exists w' r, seek_end w fd = (w', r) /\
  files w' = files w /\ names w' = names w /\
  (r = -1 /\ fds w' = fds w \/ r <> -1 /\ fds w' = <[fd := (i, length (i_data nd))]> (fds w)).
Proof.
  intros Hf Hi. unfold seek_end. edestruct (syscall_passes w (-1)) as (w1 & (E1 & E2 & E3 & _) & [-> |[-> _]]); [|exists w1, (-1); split_and!; [done..|by left]].
  assert (fd_inode w1 fd = Some (i, p, nd)) as -> by (unfold fd_inode; rewrite E3, Hf; cbn; by rewrite E1, Hi).
  eexists _, _. split; [done|]. split_and!; [done|done|right]. split; [lia|]. cbn. congruence.
Qed.

Lemma journal_at_end_ok s j data : ready (ms_w s) data -> desc_ok s j ->
  exists s' j' ok, journal_at_end local_path fh depth s j = Ok (s', j', ok) /\ same_journal j j' /\ ready (ms_w s') data /\ desc_ok s' j' /\
  (ok = true -> exists i reg, names (ms_w s') !! path = Some i /\ files (ms_w s') !! i = Some (Inode reg data) /\
     fds (ms_w s') !! jn_fd j' = Some (i, length data)).
Proof.
  intros Hr Hd. pose proof Hr as (Hst & Hn & Ho). unfold journal_at_end. destruct (journal_opened_p s j) eqn:Eo.
  - destruct (Hd Eo) as (i & p & Hi & Hf). unfold stored in Hst. rewrite Hi in Hst. destruct Hst as [reg Hst].
    destruct (seek_end_ok (ms_w s) (jn_fd j) i p _ Hf Hst) as (w' & r & -> & E1 & E2 & Hc).
    eexists _, _, _. split; [done|]. split; [done|]. split; [by eapply ready_same|]. cbn [with_world ms_w]. rewrite E1, E2. destruct Hc as [[-> E3]|[Hne E3]].
    + split; [|done]. intros _. exists i, p. cbn. by rewrite E2, E3.
    + split.
      * intros _. exists i, (length data). cbn. by rewrite E2, E3, lookup_insert_eq.
      * intros _. exists i, reg. by rewrite E3, lookup_insert_eq.
  - unfold open_journal_file. rewrite Hpath. cbn [mbind res_bind].
    destruct (open_fh_metadata_ok local_path fh METADATA_TYPE_JOURNAL depth htype_journal (ms_w s) path WrCreat Ho)
      as (w1 & fd & -> & [Hop|(-> & Hu & _)]); cbn [mbind res_bind].
    2: { eexists _, _, _. split; [done|]. split; [done|]. split; [eapply ready_same; [apply Hu..|done]|]. split; [|done].
         intros Hj. change (journal_opened_p s j = true) in Hj. congruence. }
    pose proof Hop as (Hfd & _). rewrite (proj2 (Z.ltb_ge _ _)) by done.
    assert (exists i reg, ready w1 data /\ names w1 !! path = Some i /\ files w1 !! i = Some (Inode reg data) /\ fds w1 !! fd = Some (i, 0%nat))
      as (i & reg & Hr1 & Hi & Hf & Hfd1).
    { destruct Hop as (_ & _ & _ & Hop). unfold stored in Hst. destruct (names (ms_w s) !! path) as [i|] eqn:Ei.
      - destruct Hop as (E1 & E2 & E3), Hst as [reg Hst]. exists i, reg. rewrite E2, lookup_insert_eq, E1, E3.
        split_and!; [by eapply ready_same|done..].
      - destruct Hop as (_ & i & Hno & E1 & E2 & E3). subst data. exists i, true. rewrite E1, E2, E3, !lookup_insert_eq.
        split_and!; [|done..]. eapply (ready_names (ms_w s) w1 i true); rewrite ?E1, ?E2, ?lookup_insert_eq; try done.
        + intros q Hq. left. by apply lookup_insert_ne.
        + intros k Hk. rewrite lookup_insert_is_Some. destruct (decide (i = k)); auto. }
    destruct (seek_end_ok w1 fd i 0 _ Hfd1 Hf) as (w2 & r & -> & E1 & E2 & Hc). destruct Hc as [[-> E3]|[Hne E3]].
    + change (-1 =? -1) with true. cbn match. eexists _, _, _. split; [done|]. split; [done|]. split; [by eapply ready_same|]. split; [|done].
      intros Hj. change (journal_opened_p s j = true) in Hj. congruence.
    + rewrite (proj2 (Z.eqb_neq _ _)) by done. cbn. eexists _, _, _. split; [done|]. split; [done|]. split; [by eapply ready_same|].
      split; [|intros _]; [intros _; exists i, (length data)|exists i, reg]; cbn; by rewrite ?E1, ?E2, E3, lookup_insert_eq.
Qed.

Lemma write_at_end data b : write_at data (length data) b = data ++ b.
Proof. unfold write_at. by rewrite resize_all, drop_ge, app_nil_r by lia. Qed.

Lemma log_bytes_app L L' : log_bytes (L ++ L') = log_bytes L ++ log_bytes L'.
Proof. unfold log_bytes. by rewrite fmap_app, concat_app. Qed.

Lemma log_bytes_snoc L e : log_bytes (L ++ [e]) = log_bytes L ++ entry_bytes e.
Proof. unfold log_bytes. rewrite fmap_app, concat_app. cbn [fmap list_fmap concat]. by rewrite app_nil_r. Qed.

Lemma length_replay L : (length (replay L) <= length L)%nat.
Proof.
  induction L as [|e L IH] using rev_ind; [done|]. rewrite replay_snoc, length_app. cbn. pose proof (length_log_insert e (replay L)). lia.
Qed.

(** The memory is the log [M] and the file has the bytes [data]. *)
Definition journal_state (s : msys) (m : jheap) (j : journal) (M : list journal_entry) (data : list Z) : Prop :=
  (exists l, journal_ok m j l /\ log l = replay M) /\ exact (jn_htab j) /\ ready (ms_w s) data /\ desc_ok s j.

(** The file is the log. *)
Definition journal_inv (s : msys) (m : jheap) (j : journal) (L : list journal_entry) : Prop :=
  journal_state s m j L (log_bytes L).

Definition add_entry (s : msys) (m : jheap) (j : journal) (e : journal_entry) : res (msys * jheap * journal * bool) :=
  add_journal_entry local_path fh depth true s m j (MkFh 0 0 (je_dev e) (je_ino e) (je_gen e)) (je_master_fh e) (je_master_version e)
    (je_name e) (je_oper e).

(** Whether [add_journal_entry] tells that the entry was added or not, the journal and
    its file go on together: a failure leaves a part of the entry in the file, or all of
    it. *)
Lemma add_entry_ok s m j M data e : entry_wf e -> 2 * Z.of_nat (length M) + 1 <= MAX_PRIME -> journal_state s m j M data ->
  exists s' m' j' r, add_entry s m j e = Ok (s', m', j', r) /\
    if r then journal_state s' m' j' (M ++ [e]) (data ++ entry_bytes e)
    else exists tail, (torn tail \/ tail = entry_bytes e) /\ journal_state s' m' j' M (data ++ tail).
Proof.
  intros He Hb ((l & H & El) & Hx & Hr & Hd). unfold add_entry, add_journal_entry. cbn [negb].
  destruct (journal_at_end_ok s j _ Hr Hd) as (s1 & j1 & ok & -> & [E1 E2] & Hr1 & Hd1 & Hok). cbn [mbind res_bind].
  rewrite <-E1, <-E2 in H. rewrite <-E1 in Hx. destruct ok; cbn [negb].
  2: { eexists s1, m, j1, false. split; [done|]. exists []. rewrite app_nil_r. split; [left; by left|].
       split_and!; [by exists l|done..]. }
  destruct (Hok eq_refl) as (i & reg & Hi & Hf & Hfd). pose proof He as [W1 W2 W3 W4 W5 W6 W7 W8 W9].
  change (full_entry _ _ _ _ _) with (full_entry (je_oper e) (MkFh 0 0 (je_dev e) (je_ino e) (je_gen e)) (je_master_fh e) (je_master_version e) (je_name e)).
  assert (full_entry (je_oper e) (MkFh 0 0 (je_dev e) (je_ino e) (je_gen e)) (je_master_fh e) (je_master_version e) (je_name e) = e)
    as Ee by (by destruct e).
  rewrite Ee. pose proof (length_entry_bytes e He) as Hlen.
  rewrite (proj2 (Z.ltb_ge ZFS_DC_SIZE (len (je_name e) + 1 + 20 + 8))) by (unfold ZFS_DC_SIZE; lia).
  rewrite (proj2 (Z.ltb_ge ZFS_DC_SIZE (Z.of_nat _))) by (unfold ZFS_DC_SIZE; lia).
  destruct (fd_write_ok (ms_w s1) (jn_fd j1) i _ _ (entry_bytes e) Hfd Hf) as (w2 & r & -> & n & F1 & F2 & F3 & _ & F5 & F6); [done|].
  cbn [mbind res_bind i_reg i_data] in *. rewrite write_at_end in F1.
  assert (ready w2 (data ++ take n (entry_bytes e))) as Hr2.
  { destruct Hr1 as (_ & Hn1 & Ho1). eapply (ready_names (ms_w s1) w2 i reg); rewrite ?F1, ?F2; [auto|done|apply lookup_insert_eq| |done|done].
    intros k Hk. rewrite lookup_insert_is_Some. destruct (decide (i = k)); auto. }
  destruct r.
  - destruct (journal_insert_ok m j1 l (je_oper e) (MkFh 0 0 (je_dev e) (je_ino e) (je_gen e)) (je_master_fh e) (je_master_version e)
      (je_name e) true H) as (m' & j' & l' & E & H' & El' & _ & Hx').
    { eapply exact_expand_safe; [done|done|]. pose proof (length_replay M). rewrite <-El, length_log in *. lia. }
    { done. }
    rewrite E. cbn [mbind res_bind]. apply journal_insert_fd in E as [G1 G2]. eexists _, m', j', true. split; [done|].
    rewrite take_ge in Hr2 by lia. split_and!; [|by auto|done|].
    + exists l'. split; [done|]. by rewrite El', Ee, El, replay_snoc.
    + intros _. exists i, (length data + n)%nat. cbn. by rewrite F2, F3, G1, lookup_insert_eq.
  - eexists _, m, j1, false. split; [done|]. exists (take n (entry_bytes e)). split.
    + destruct (decide (n < length (entry_bytes e))%nat) as [Hn|Hn]; [left; right; by exists e, n|right; apply take_ge; lia].
    + split_and!; [by exists l|done|done|]. intros _. exists i, (length data + n)%nat. cbn. by rewrite F2, F3, lookup_insert_eq.
Qed.

(** The entries of several operations: where adding one fails the caller marks the
    volume for deletion and goes on.  The last component tells of each entry whether its
    addition was confirmed. *)
Fixpoint add_all (s : msys) (m : jheap) (j : journal) (es : list journal_entry) : res (msys * jheap * journal * list bool) :=
  match es with
  | [] => Ok (s, m, j, [])
  | e :: es =>
      '(s, m, j, r) ← add_entry s m j e;
      '(s, m, j, rs) ← add_all s m j es;
      Ok (s, m, j, r :: rs)
  end.

(** The files after the daemon was killed and started again. *)
Definition restart (s : msys) : msys := MSys (World (files (ms_w s)) (names (ms_w s)) ∅ (werrno (ms_w s)) []) ∅.

(** What [read_journal] makes of the files of [s] at the next start. *)
Definition recovers (s : msys) (L : list journal_entry) : Prop := forall m0 j0, journal_ok m0 j0 [] -> exact (jn_htab j0) ->
  exists s' m' j' l', read_journal local_path fh depth (restart s) m0 j0 = Ok (s', m', j', true) /\ journal_ok m' j' l' /\
    log l' = replay L /\ stored (ms_w s') path (log_bytes (replay L)).

Lemma recovers_ready s L tail : Forall entry_wf L -> 2 * Z.of_nat (length L) + 1 <= MAX_PRIME -> torn tail ->
  ready (ms_w s) (log_bytes L ++ tail) -> recovers s L.
Proof.
  intros HL Hb Ht Hr m0 j0 H Hx.
  destruct (read_journal_ok (restart s) m0 j0 L tail H Hx Hb) as (s' & m' & j' & l' & E & H' & El & (Hst & _) & _); [done..|].
  by exists s', m', j', l'.
Qed.

(** The entries whose addition was confirmed. *)
Fixpoint confirmed (rs : list bool) (es : list journal_entry) : list journal_entry :=
  match rs, es with
  | r :: rs, e :: es => (if r : bool then [e] else []) ++ confirmed rs es
  | _, _ => []
  end.

Lemma confirmed_all n es : n = length es -> confirmed (replicate n true) es = es.
Proof. intros ->. induction es as [|e es IH]; cbn; [done|by rewrite IH]. Qed.

Lemma length_confirmed rs es : (length (confirmed rs es) <= length es)%nat.
Proof. revert es. induction rs as [|r rs IH]; intros [|e es]; cbn; try lia. specialize (IH es). destruct r; cbn; lia. Qed.

(** The entries added up to the first failure are in the file one after the other, and
    after them what the failure and the additions after it left. *)
Lemma add_all_ok es : forall s m j M data, Forall entry_wf es -> 2 * Z.of_nat (length (M ++ es)) + 1 <= MAX_PRIME ->
  journal_state s m j M data ->
  exists s' m' j' rs rest, add_all s m j es = Ok (s', m', j', rs) /\ length rs = length es /\
    journal_state s' m' j' (M ++ confirmed rs es) (data ++ rest) /\
    (forall n, take n rs = replicate n true -> exists tail, rest = log_bytes (take n es) ++ tail /\
      (n = length es -> tail = []) /\
      (forall e, drop n es = [e] -> torn tail /\ confirmed rs es = take n es \/ tail = entry_bytes e)).
Proof.
  induction es as [|e es IH]; intros s m j M data Hwf Hb Hi; cbn [add_all].
  { exists s, m, j, [], []. cbn [confirmed]. rewrite !app_nil_r. split_and!; [done..|]. intros n _. exists [].
    by rewrite take_nil, drop_nil. }
  apply Forall_cons in Hwf as [He Hwf].
  destruct (add_entry_ok s m j M data e He) as (s1 & m1 & j1 & r & -> & Ha); [rewrite length_app in Hb; lia|done|].
  cbn [mbind res_bind].
  set (M1 := M ++ if r then [e] else []).
  assert (exists t, journal_state s1 m1 j1 M1 (data ++ t) /\ if r then t = entry_bytes e else torn t \/ t = entry_bytes e)
    as (t & Hs & Ht).
  { subst M1. destruct r; [by eexists|]. destruct Ha as (t & Ht & Hs). exists t. by rewrite app_nil_r. }
  destruct (IH s1 m1 j1 M1 (data ++ t) Hwf) as (s' & m' & j' & rs & rest & -> & Hl & Hs' & Hrest); [|done|].
  { subst M1. rewrite !length_app in *. destruct r; cbn [length] in *; lia. }
  cbn [mbind res_bind]. exists s', m', j', (r :: rs), (t ++ rest). cbn [confirmed length]. rewrite app_assoc. fold M1.
  rewrite app_assoc. split_and!; [done|lia|done|]. intros [|n] Hn.
  { exists (t ++ rest). split_and!; [done|done|]. intros x [= -> ->]. destruct rs; [|done].
    destruct (Hrest 0%nat eq_refl) as (tl & -> & Htl & _). rewrite (Htl eq_refl), take_nil. cbn. rewrite app_nil_r.
    destruct r; [by right|]. destruct Ht as [Ht|Ht]; [by left|by right]. }
  injection Hn as -> Hn. destruct (Hrest n Hn) as (tl & -> & H1 & H2). exists tl. cbn [take drop]. split_and!.
  - by rewrite Ht, app_assoc.
  - auto.
  - intros x Hx. destruct (H2 x Hx) as [[? ->]|?]; [by left|by right].
Qed.

(** C5. Whatever system calls fail, are interrupted or transfer only a part, adding entries
    to a journal and its file returns; a caller that is told of a failure goes on with
    the next entry, as [zfs_rename_journal] does after it marked the volume for deletion.
    The journal in memory holds exactly the entries whose addition was confirmed, and the
    file begins with those confirmed before the first failure.  As long as no entry
    follows a failed one, [read_journal] gives after a crash the journal of the confirmed
    entries, or of those and the one that failed; it also leaves a clean file. *)
Theorem journal_survives_crash s m j L es : Forall entry_wf (L ++ es) -> 2 * Z.of_nat (length (L ++ es)) + 1 <= MAX_PRIME ->
  journal_inv s m j L ->
  exists s' m' j' l' rs, add_all s m j es = Ok (s', m', j', rs) /\ length rs = length es /\
    journal_ok m' j' l' /\ log l' = replay (L ++ confirmed rs es) /\
    (forall n, take n rs = replicate n true ->
      (exists tail, stored (ms_w s') path (log_bytes (L ++ take n es) ++ tail)) /\
      (n = length es -> recovers s' (L ++ es)) /\
      (length es = S n -> recovers s' (L ++ confirmed rs es) \/ recovers s' (L ++ es))).
Proof.
  intros Hwf Hb Hi. pose proof Hwf as [HL He]%Forall_app.
  destruct (add_all_ok es s m j L (log_bytes L) He Hb Hi) as (s' & m' & j' & rs & rest & E & Hl & Hs & Hrest).
  destruct Hs as ((l' & H & El) & Hx & Hr & Hd). exists s', m', j', l', rs. split_and!; [done..|].
  intros n Hn. destruct (Hrest n Hn) as (tail & -> & Hall & Hone). rewrite app_assoc, <-log_bytes_app in Hr.
  split_and!.
  - exists tail. apply Hr.
  - intros ->. rewrite (Hall eq_refl), take_ge in Hr by lia. apply (recovers_ready _ _ []); [done|done|by left|done].
  - intros Hlen. destruct (drop n es) as [|e [|]] eqn:Ed.
    1, 3: apply (f_equal length) in Ed; rewrite length_drop in Ed; cbn in Ed; lia.
    destruct (Hone e eq_refl) as [[Ht Ht']| ->].
    + left. rewrite Ht'. eapply recovers_ready; [| |exact Ht|exact Hr].
      * apply Forall_app. split; [done|by apply Forall_take].
      * rewrite length_app, length_take in *. lia.
    + right. rewrite <-log_bytes_snoc, <-app_assoc, <-Ed, take_drop in Hr.
      apply (recovers_ready _ _ []); [done|done|by left|by rewrite app_nil_r].
Qed.

(** C24. Without failures, a journal that [write_journal] wrote is read again by
    [read_journal]: the same entries in the same order. *)
Theorem write_read_journal s m j l data : journal_ok m j l -> settled (log l) -> Forall entry_wf (log l) ->
  2 * Z.of_nat (length l) + 1 <= MAX_PRIME -> script (ms_w s) = [] -> ready (ms_w s) data ->
  exists s' j', write_journal local_path fh depth s m j = Ok (s', j', true) /\ stored (ms_w s') path (log_bytes (log l)) /\
    forall m0 j0, journal_ok m0 j0 [] -> exact (jn_htab j0) ->
    exists s'' m' j'' l', read_journal local_path fh depth (restart s') m0 j0 = Ok (s'', m', j'', true) /\ journal_ok m' j'' l' /\
      log l' = log l.
Proof.
  intros H Hse Hwf Hb Hs (_ & Hn & Ho). unfold write_journal. rewrite Hpath. cbn [mbind res_bind].
  destruct (flush_journal_ok s m j l H Hs Hn Ho) as (s' & j' & -> & Hr & _). exists s', j'. split; [done|]. split; [apply Hr|].
  intros m0 j0 H0 Hx0. destruct (recovers_ready s' (log l) []) with (m0 := m0) (j0 := j0) as (s'' & m' & j'' & l' & E & H' & El & _);
    [done|by rewrite length_log|by left|by rewrite app_nil_r|done|done|].
  exists s'', m', j'', l'. split_and!; [done|done|]. rewrite El. apply replay_settled; [done|]. apply log_views.
Qed.

(** When the last bytes of the new file cannot be written as the stream is closed,
    [flush_journal] renames the short file over the old one all the same and reports
    success: the entries beyond are lost. *)
Theorem flush_journal_short_close s m j l o : journal_ok m j l -> l <> [] -> named (ms_w s) -> none_older (ms_w s) ->
  script (ms_w s) = Pass :: replicate (8 * length l) Pass ++ [o] ->
  exists s' j', flush_journal local_path fh depth s m j path = Ok (s', j', true) /\
    stored (ms_w s') path (kept o (log_bytes (log l))).
Proof.
  intros H Hl Hn Ho Hs. unfold flush_journal. pose proof (close_journal_file_frame s j) as Hc.
  destruct (close_journal_file s j) as [s1 j1]. destruct Hc as (F1 & F2 & F3 & F4 & F5). rewrite F5.
  rewrite Hs in F3. destruct (ch_chain _ _ _ _ H) as [Hnd Hdll Hfirst Hlast].
  assert (named (ms_w s1) /\ none_older (ms_w s1)) as [Hn1 Ho1] by (unfold named, MetaFiles.none_older; by rewrite F1, F2).
  rewrite Hfirst. destruct l as [|[p e] l]; [done|]. cbn [head_or]. unfold open_fh_metadata.
  destruct (open_file_pass (ms_w s1) _ (path +:+ ".new")%string F3 (Hn1 _)) as (w1 & fd & E1 & Hop & Hs1). rewrite E1.
  pose proof Hop as (Hfd & _). rewrite (proj2 (Z.leb_le 0 fd)) by done. cbn [mbind res_bind]. rewrite (proj2 (Z.ltb_ge _ _)) by done.
  change (Some p) with (head_or ((p, e) :: l) None).
  unfold write_entries.
  rewrite (write_chain_script entry_pieces 8 w1 m ((p, e) :: l) (size (cells m)) None [] [o]), <-log_bytes_pieces
    by (auto; by eapply dll_size). cbn [mbind res_bind app].
  destruct (rename_written (ms_w s1) (set_script w1 [o]) (set_script w1 []) (path +:+ ".new")%string fd (log_bytes (log ((p, e) :: l))) o)
    as (w2 & E & [Hst _] & _); [|done..|].
  { destruct Hop as (A1 & A2 & _ & A3). split_and!; [done|done| |done]. by rewrite F3. }
  rewrite E. eexists _, _. by split.
Qed.
End stored.

(** ** Concrete journals *)

Definition path0 : string := "/v/.zfs/4/0000000300000004" +:+ "00000005.journal".
Definition disk0 (sc : list outcome) : msys := MSys (World ∅ ∅ ∅ 0 sc) ∅.
Definition entry_a : journal_entry := full_entry JOURNAL_OPERATION_ADD fh0 fh0 9 name_a.
Definition entry_b : journal_entry := full_entry JOURNAL_OPERATION_DEL fh0 fh0 9 name_b.

Definition entry_c : journal_entry := full_entry JOURNAL_OPERATION_ADD (MkFh 1 2 3 4 6) fh0 9 name_b.

(** The second entry cannot be written to the end: the disk is full (ENOSPC). *)
Definition full_disk : list outcome := [Pass; Pass; Pass; Pass; Short 9; Fail 28].

Lemma path0_ok : build_fh_metadata_path "/v" fh0 METADATA_TYPE_JOURNAL 1 = Ok path0.
Proof. reflexivity. Qed.

Lemma entries_wf : Forall entry_wf [entry_a; entry_b].
Proof. repeat constructor; unfold is_u32, is_u64; cbn; lia || done. Qed.

Lemma disk0_ready sc : ready "/v" fh0 METADATA_TYPE_JOURNAL 1 path0 (ms_w (disk0 sc)) [].
Proof.
  split; [|split]; [done|intros name i E|intros i p Hi Ep]; cbn in *; [by rewrite lookup_empty in E|apply lookup_empty].
Qed.

Lemma sample_exact : exact (jn_htab sample_journal).
Proof. split; reflexivity. Qed.

Lemma disk0_inv sc : journal_inv "/v" fh0 1 path0 (disk0 sc) sample_heap sample_journal [].
Proof.
  split; [exists []; split; [apply sample_journal_ok|done]|]. split; [apply sample_exact|]. split; [apply disk0_ready|].
  intros E. discriminate E.
Qed.

Lemma journal_survives_crash_witness :
  exists s' m' j' l' rs, add_all "/v" fh0 1 (disk0 full_disk) sample_heap sample_journal [entry_a; entry_b] = Ok (s', m', j', rs) /\
    length rs = 2%nat /\ journal_ok m' j' l' /\ log l' = replay (confirmed rs [entry_a; entry_b]) /\
    (forall n, take n rs = replicate n true ->
      (exists tail, stored (ms_w s') path0 (log_bytes (take n [entry_a; entry_b]) ++ tail)) /\
      (n = 2%nat -> recovers "/v" fh0 1 path0 s' [entry_a; entry_b]) /\
      (2%nat = S n -> recovers "/v" fh0 1 path0 s' (confirmed rs [entry_a; entry_b]) \/
        recovers "/v" fh0 1 path0 s' [entry_a; entry_b])).
Proof.
  apply (journal_survives_crash "/v" fh0 1 path0 ltac:(lia) path0_ok (disk0 full_disk) sample_heap sample_journal [] [entry_a; entry_b]).
  - apply entries_wf.
  - vm_compute. discriminate.
  - apply disk0_inv.
Defined.

(** There the first entry is added and the second is not. *)
Lemma full_disk_adds_one : exists s' m' j', add_all "/v" fh0 1 (disk0 full_disk) sample_heap sample_journal [entry_a; entry_b] =
  Ok (s', m', j', [true; false]) /\ (stored (ms_w s') path0 (entry_bytes entry_a ++ take 10 (entry_bytes entry_b))).
Proof. eexists _, _, _. split; [vm_compute; reflexivity|]. unfold stored. vm_compute. by exists true. Qed.

(** An entry that is confirmed behind the torn bytes of a failed one: the journal in
    memory has it, the next [read_journal] does not. *)
Lemma confirmed_behind_torn_lost :
  match add_all "/v" fh0 1 (disk0 full_disk) sample_heap sample_journal [entry_a; entry_b; entry_c] with
  | Ok (s', m', j', rs) =>
      match read_journal "/v" fh0 1 (restart s') sample_heap sample_journal with
      | Ok (_, m'', j'', r) => (rs, size (cells m'), size (cells m''), r)
      | _ => ([], O, O, false)
      end
  | _ => ([], O, O, false)
  end = ([true; false; true], 2%nat, 1%nat, true).
Proof. vm_compute. reflexivity. Qed.

Lemma added_log l : log l = [entry_a] -> length l = 1%nat.
Proof. intros E. by rewrite <-(length_log l), E. Qed.

Lemma write_read_journal_witness :
  exists s' j', write_journal "/v" fh0 1 (disk0 []) added_state.1 added_state.2 = Ok (s', j', true) /\
    stored (ms_w s') path0 (entry_bytes entry_a) /\
    exists s'' m' j'' l', read_journal "/v" fh0 1 (restart s') sample_heap sample_journal = Ok (s'', m', j'', true) /\
      journal_ok m' j'' l' /\ log l' = [entry_a].
Proof.
  destruct added_state_ok as (l & H & El). pose proof entries_wf as Hwf.
  destruct (write_read_journal "/v" fh0 1 path0 ltac:(lia) path0_ok (disk0 []) added_state.1 added_state.2 l [] H)
    as (s' & j' & E & Hst & Hre).
  - rewrite El. repeat constructor; [apply not_elem_of_nil|intros _; apply not_elem_of_nil].
  - rewrite El. apply Forall_cons in Hwf as [Ha _]. by apply Forall_singleton.
  - rewrite (added_log l El). vm_compute. discriminate.
  - reflexivity.
  - apply disk0_ready.
  - rewrite El in Hst, Hre. exists s', j'. split; [exact E|]. split.
    + unfold log_bytes in Hst. cbn [fmap list_fmap concat] in Hst. rewrite app_nil_r in Hst. exact Hst.
    + apply Hre; [apply sample_journal_ok|apply sample_exact].
Defined.

Lemma flush_journal_short_close_witness :
  exists s' j', flush_journal "/v" fh0 1 (disk0 (replicate 9 Pass ++ [Fail 28])) added_state.1 added_state.2 path0 = Ok (s', j', true) /\
    stored (ms_w s') path0 [].
Proof.
  destruct added_state_ok as (l & H & El).
  apply (flush_journal_short_close "/v" fh0 1 path0 ltac:(lia) path0_ok (disk0 (replicate 9 Pass ++ [Fail 28])) added_state.1 added_state.2 l (Fail 28) H).
  - intros E. rewrite E in El. discriminate El.
  - apply disk0_ready.
  - apply disk0_ready.
  - rewrite (added_log l El). reflexivity.
Defined.
