(* ===== verification/HardlinkFile.v ===== *)
(** The file with the hard links of a file: [read_hardlinks_file],
    [write_hardlinks_file] and [delete_hardlinks_file] of
    [src/zfsd/fs-entities/metadata/metadata.c].

    The list of links in memory is that of [HardlinkList.v], the files are those of
    [MetaFiles.v]. *)

From S2P Require Import Prelude FileIO AllocPool PosixFs DataCoding Hashtab Chain HardlinkList MetaPaths MetaFiles.
From stdpp Require Import strings.
#[local] Open Scope Z_scope.

(** ** Records of the file *)

Definition link_pieces (e : hardlink_list_entry) : list (list Z) :=
  [le_bytes 4 (parent_dev e); le_bytes 4 (parent_ino e); le_bytes 4 (len (hl_name e)); name_bytes (hl_name e)].

Definition read_link_head (s : list Z) : option (Z * Z * Z * list Z) :=
  '(dev, s) ← fread_int 4 s; '(ino, s) ← fread_int 4 s; '(n, s) ← fread_int 4 s; Some (dev, ino, n, s).

(** The loop of [read_hardlinks_file]; for a length of 2^32 - 1 see [read_entries]. *)
Fixpoint read_links (fuel : nat) (m : hheap) (hl : hardlink_list) (s : list Z) : res (hheap * hardlink_list) :=
  match read_link_head s with
  | None => Ok (m, hl)
  | Some (dev, ino, n, s) =>
      match fuel with
      | O => OutOfFuel
      | S fuel =>
          let '(p, m) := xmemdup m in
          match fread (Z.to_nat (u32 (n + 1))) s with
          | None => m ← xfree m p; Ok (m, hl)
          | Some (b, s) =>
              if n =? UINT32_MAX then Aborted
              else
                '(m, hl, _) ← hardlink_list_insert m hl dev ino (MkName n (c_string (take (Z.to_nat n) b)) p) false;
                read_links fuel m hl s
          end
      end
  end.

Definition read_hardlinks_file (w : world) (m : hheap) (hl : hardlink_list) (fd : Z) : res (world * hheap * hardlink_list) :=
  let '(w, bytes) := fread_all w fd in
  '(m, hl) ← read_links (length bytes) m hl bytes;
  Ok (close w fd, m, hl).

(** [for (entry = hl->first; entry; entry = entry->next)] *)
Definition write_links : nat -> world -> hheap -> list Z -> option ptr -> res (world * option (list Z)) := write_chain link_pieces.

Section file.
Context (local_path : string) (fh : zfs_fh) (depth : Z).

Definition write_hardlinks_file (w : world) (m : hheap) (hl : hardlink_list) : res (world * bool) :=
  path ← build_fh_metadata_path local_path fh METADATA_TYPE_HARDLINKS depth;
  let new_path := (path +:+ ".new")%string in
  '(w, fd) ← open_fh_metadata local_path fh METADATA_TYPE_HARDLINKS depth w new_path WrTruncCreat;
  if fd <? 0 then Ok (w, false)
  else
    '(w, r) ← write_links (size (cells m)) w m [] (first (hl_chain hl));
    match r with
    | None => Ok (PosixFs.unlink (fclose_write w fd []) new_path, false)
    | Some buf =>
        let w := fclose_write w fd buf in
        let '(w, _) := rename w new_path path in
        Ok (w, true)
    end.

(** Remove the file at each depth; the result says whether the volume is marked for
    deletion. *)
Fixpoint remove_at (w : world) (l : list Z) : res (world * bool) :=
  match l with
  | [] => Ok (w, false)
  | i :: l =>
      file ← build_fh_metadata_path local_path fh METADATA_TYPE_HARDLINKS i;
      let '(w, r) := remove_file_and_path w file depth in
      '(w, marked) ← remove_at w l;
      Ok (w, negb r || marked)
  end.

Definition delete_hardlinks_file (w : world) : res (world * bool) := remove_at w (seqZ 0 (MAX_METADATA_TREE_DEPTH + 1)).
End file.

(** ** Reading what was written *)

(** A link that can be in a list: numbers of their width, a name without zeros whose
    length is recorded, at most [ZFS_MAXNAMELEN] characters. *)
Record link_wf (k : hl_key) : Prop := {
  lw_dev : is_u32 (hk_dev k); lw_ino : is_u32 (hk_ino k);
  lw_len : hk_len k = Z.of_nat (length (hk_chars k));
  lw_short : (length (hk_chars k) <= 255)%nat;
  lw_chars : Forall (fun c => c <> 0) (hk_chars k)
}.

Definition link_bytes (k : hl_key) : list Z :=
  le_bytes 4 (hk_dev k) ++ le_bytes 4 (hk_ino k) ++ le_bytes 4 (hk_len k) ++ hk_chars k ++ [0].
Definition links_bytes (L : list hl_key) : list Z := concat (link_bytes <$> L).

Lemma link_pieces_bytes e : link_wf (kof e) -> concat (link_pieces e) = link_bytes (kof e).
Proof.
  intros [_ _ H1 H2 _]. cbn in *. unfold link_pieces, link_bytes. cbn. rewrite name_bytes_wf by done. by rewrite app_nil_r.
Qed.

Lemma links_bytes_chain (l : list (ptr * hardlink_list_entry)) : Forall link_wf (links l) -> chain_bytes link_pieces l = links_bytes (links l).
Proof.
  unfold links, chain_bytes, links_bytes. induction l as [|[p e] l IH]; [done|]. rewrite !fmap_cons. cbn [concat snd]. intros [He Hl]%Forall_cons.
  rewrite (IH Hl). f_equal. by apply link_pieces_bytes.
Qed.

Lemma length_link_bytes k : length (link_bytes k) = (13 + length (hk_chars k))%nat.
Proof. unfold link_bytes. rewrite !length_app, !length_le_bytes. cbn. lia. Qed.

Lemma read_link_head_app k s : link_wf k ->
  read_link_head (link_bytes k ++ s) = Some (hk_dev k, hk_ino k, hk_len k, (hk_chars k ++ [0]) ++ s).
Proof.
  intros [H1 H2 H3 H4 _]. unfold read_link_head, link_bytes. rewrite <-!app_assoc.
  assert (0 <= hk_len k < 2 ^ (8 * Z.of_nat 4)) as Hl by (rewrite H3; lia).
  repeat (rewrite fread_int_app by assumption; cbn [mbind option_bind]). done.
Qed.

Lemma links_nodup m hl l : hl_ok m hl l -> NoDup (links l).
Proof.
  intros H. pose proof (c_nodup _ _ _ (ch_chain _ _ _ _ H)) as Hnd.
  assert (forall l', l' ⊆ l -> NoDup l'.*1 -> NoDup (links l')) as Hall; [|by apply Hall].
  induction l' as [|[p e] l' IH]; intros Hs; [constructor|]. cbn. intros [Hp Hn]%NoDup_cons. constructor; [|apply IH; [set_solver|done]].
  intros ([q b] & E & Hin)%list_elem_of_fmap. apply Hp, list_elem_of_fmap. exists (q, b). split; [|done]. cbn in *.
  eapply (chained_keys _ _ _ _ p e q b H); [apply Hs; left|apply Hs; by right|done].
Qed.

Lemma read_links_ok L : forall fuel m hl l, Forall link_wf L -> hl_ok m hl l -> exact (hl_htab hl) -> NoDup (links l ++ L) ->
  2 * Z.of_nat (length l + length L) + 1 <= MAX_PRIME -> (length (links_bytes L) <= fuel)%nat ->
  exists m' hl' l', read_links fuel m hl (links_bytes L) = Ok (m', hl') /\ hl_ok m' hl' l' /\ exact (hl_htab hl') /\
    links l' = links l ++ L.
Proof.
  induction L as [|k L IH]; intros fuel m hl l HL H Hx Hnd Hb Hf.
  - exists m, hl, l. split; [by destruct fuel|]. by rewrite app_nil_r.
  - apply Forall_cons in HL as [Hk HL]. unfold links_bytes in *. rewrite fmap_cons in *. cbn [concat] in *.
    rewrite length_app, length_link_bytes in Hf. destruct fuel as [|fuel]; [lia|]. cbn [read_links].
    rewrite read_link_head_app by done. pose proof (chained_xmemdup _ _ _ _ H) as Hm. destruct (xmemdup m) as [p m1].
    destruct Hm as (H1 & Hp & Hno). pose proof Hk as [W1 W2 W3 W4 W5]. rewrite W3, (wrap_small 32) by lia.
    rewrite fread_app by (rewrite length_app; cbn; lia). rewrite (proj2 (Z.eqb_neq _ _)) by (unfold UINT32_MAX; lia).
    rewrite Nat2Z.id, take_app_length, c_string_id by done.
    destruct (hardlink_list_insert_ok m1 hl l (hk_dev k) (hk_ino k) (MkName (Z.of_nat (length (hk_chars k))) (hk_chars k) p) false H1)
      as (m2 & hl2 & r & l2 & -> & H2 & Hr & El & _ & Hx2); [by eapply exact_expand_safe; [exact H1|exact Hx|lia]|done|].
    assert (link_key (hk_dev k) (hk_ino k) (MkName (Z.of_nat (length (hk_chars k))) (hk_chars k) p) = k) as Ek
      by (destruct k; cbn in *; unfold link_key; cbn; congruence).
    rewrite Ek in Hr, El. cbn [mbind res_bind]. apply NoDup_app in Hnd as (Hn1 & Hd & Hn2).
    assert (r = true) as -> by (apply Hr; intros Hin; apply (Hd k Hin); left).
    destruct (IH fuel m2 hl2 l2 HL H2 (Hx2 Hx)) as (m' & hl' & l' & E & H' & Hx' & El').
    + rewrite El, <-app_assoc. cbn. apply NoDup_app. by split_and!.
    + apply (f_equal length) in El. unfold links in El. rewrite length_app, !length_fmap in El. cbn [length] in *. lia.
    + cbn [length] in *. lia.
    + exists m', hl', l'. split_and!; [done|done|done|]. by rewrite El', El, <-app_assoc.
Qed.

(** ** The file *)

Lemma htype_hardlinks : exists suffix, type_suffix METADATA_TYPE_HARDLINKS = Ok suffix.
Proof. by eexists. Qed.

Section stored.
Context (local_path : string) (fh : zfs_fh) (depth : Z) (path : string).
Hypothesis Hdepth : 0 <= depth.
Hypothesis Hpath : build_fh_metadata_path local_path fh METADATA_TYPE_HARDLINKS depth = Ok path.
#[local] Abbreviation none_older := (none_older local_path fh METADATA_TYPE_HARDLINKS depth).
#[local] Abbreviation ready := (ready local_path fh METADATA_TYPE_HARDLINKS depth path).
#[local] Abbreviation rename_written := (rename_written local_path fh METADATA_TYPE_HARDLINKS depth path Hdepth Hpath).

Lemma write_hardlinks_file_ok w m hl l : hl_ok m hl l -> Forall link_wf (links l) -> script w = [] -> named w -> none_older w ->
  exists w', write_hardlinks_file local_path fh depth w m hl = Ok (w', true) /\ ready w' (links_bytes (links l)) /\ script w' = [].
Proof.
  intros H Hwf Hs Hn Ho. unfold write_hardlinks_file. rewrite Hpath. cbn [mbind res_bind].
  destruct (ch_chain _ _ _ _ H) as [Hnd Hdll Hfirst _].
  destruct (open_fh_metadata_ok local_path fh METADATA_TYPE_HARDLINKS depth htype_hardlinks w (path +:+ ".new")%string WrTruncCreat Ho)
    as (w1 & fd & -> & [Hop|(_ & _ & Hno)]); [|by destruct (Hno Hs (Hn _))]. cbn [mbind res_bind].
  pose proof Hop as (Hfd & _ & Hs1 & _). rewrite (proj2 (Z.ltb_ge _ _)) by done. rewrite Hfirst. unfold write_links.
  rewrite (write_chain_ok link_pieces w1 m l (size (cells m)) None) by (auto; by eapply dll_size). cbn [mbind res_bind app].
  assert (next_outcome w1 = (Pass, w1)) as Eo by (unfold next_outcome; by rewrite Hs1).
  destruct (rename_written w w1 w1 _ fd (chain_bytes link_pieces l) Pass Hop Eo (Hs1 Hs) Hn Ho) as (w2 & -> & Hr & Hs2).
  exists w2. split; [done|]. split; [|done]. by rewrite <-links_bytes_chain.
Qed.

Lemma read_hardlinks_file_ok w m hl L i reg fd : script w = [] -> fds w !! fd = Some (i, 0%nat) ->
  files w !! i = Some (Inode reg (links_bytes L)) -> hl_ok m hl [] -> exact (hl_htab hl) -> Forall link_wf L -> NoDup L ->
  2 * Z.of_nat (length L) + 1 <= MAX_PRIME ->
  exists m' hl' l', read_hardlinks_file w m hl fd = Ok (close w fd, m', hl') /\ hl_ok m' hl' l' /\ exact (hl_htab hl') /\ links l' = L.
Proof.
  intros Hs Hfd Hi H Hx HL Hnd Hb. unfold read_hardlinks_file, fread_all, next_outcome. rewrite Hs.
  assert (fd_inode w fd = Some (i, 0%nat, Inode reg (links_bytes L))) as -> by (unfold fd_inode; rewrite Hfd; cbn; by rewrite Hi).
  cbn [i_data]. rewrite drop_0. destruct (read_links_ok L (length (links_bytes L)) m hl [] HL H Hx) as (m' & hl' & l' & -> & H' & Hx' & El);
    [done|done|done|].
  exists m', hl', l'. by split_and!.
Qed.
End stored.
