(* ===== verification/MetaTable.v ===== *)
(** The metadata of the files of a volume and the mapping from master file handles to
    local ones: the operations of [src/zfsd/fs-entities/metadata/metadata.c] on the two
    hash files of a volume, from [lookup_metadata] to [metadata_n_hardlinks].

    The operations use the hash files through the interface [HashTable]; [TableLaws]
    says what a hash file promises as long as no system call fails: it is a
    finite map.  The instances at the end of [MetaHash.v] discharge the laws by the theorems of
    [HashFile.v].  Procedures act on a volume; as in the code their result says
    whether they succeeded, and what they had changed before they failed stays. *)

From S2P Require Import Prelude FileIO AllocPool PosixFs DataCoding Hashtab Chain HardlinkList HashFile Metadata MetaPaths MetaFiles HardlinkFile.
From stdpp Require Import strings.
#[local] Open Scope Z_scope.

(** ** Tables *)

(** Elements of a hash file: a key, the status word, and a base that can be stored
    alone. *)
Class Element (R : Type) := {
  ekey : R -> Z * Z;
  estatus : R -> Z;
  with_status : Z -> R -> R;
  base_of : R -> R -> R;
  blank : R;
  egood : R -> Prop
}.

(** [ht_open] is [hashfile_opened_p] and, when it fails, [open_hash_file]. *)
Class HashTable (T R : Type) := {
  ht_open : T -> T * bool;
  ht_lookup : T -> R -> res (T * R * bool);
  ht_insert : T -> R -> bool -> res (T * R * bool);
  ht_delete : T -> R -> res (T * R * bool)
}.

(** What the table holds for a key after an insertion, and what a lookup answers. *)
Definition merged {R : Type} `{Element R} (base_only : bool) (old : option R) (x : R) : R :=
  with_status VALID_SLOT (if base_only then base_of x (default blank old) else x).
Definition answer {R : Type} `{Element R} (M : gmap (Z * Z) R) (x : R) : R :=
  default (with_status EMPTY_SLOT x) (M !! ekey x).

(** [holds t M]: the table is the map [M] and no system call will fail. *)
Class TableLaws (T R : Type) `{Element R} `{!HashTable T R} := {
  holds : T -> gmap (Z * Z) R -> Prop;
  open_law : forall t M, holds t M -> exists t', ht_open t = (t', true) /\ holds t' M;
  lookup_law : forall t M x, holds t M -> egood x -> exists t', ht_lookup t x = Ok (t', answer M x, true) /\ holds t' M;
  insert_law : forall t M x b, holds t M -> Z.of_nat (size M) < 2 ^ 29 -> egood x ->
    exists t', ht_insert t x b = Ok (t', with_status VALID_SLOT x, true) /\
      holds t' (<[ekey x := merged b (M !! ekey x) x]> M);
  delete_law : forall t M x, holds t M -> Z.of_nat (size M) < 2 ^ 29 -> egood x ->
    exists t' y, ht_delete t x = Ok (t', y, true) /\ holds t' (delete (ekey x) M);
  holds_valid : forall t M k v, holds t M -> M !! k = Some v -> ekey v = k /\ estatus v = VALID_SLOT /\ egood v
}.

#[export] Instance metadata_element : Element metadata := {
  ekey m := (meta_dev m, meta_ino m);
  estatus := slot_status;
  with_status s m := MkMeta s (flags m) (meta_dev m) (meta_ino m) (meta_gen m) (master_fh m) (local_version m)
    (master_version m) (modetype m) (uid m) (gid m) (parent_dev m) (parent_ino m) (meta_name m);
  base_of m old := MkMeta (slot_status m) (flags m) (meta_dev m) (meta_ino m) (meta_gen m) (master_fh m) (local_version m)
    (master_version m) (modetype m) (uid m) (gid m) (parent_dev old) (parent_ino old) (meta_name old);
  blank := MkMeta 0 0 0 0 0 (MkFh 0 0 0 0 0) 0 0 0 0 0 0 0 (replicate 52 0);
  egood := metadata_wf
}.

#[export] Instance mapping_element : Element fh_mapping := {
  ekey m := (dev (map_master_fh m), ino (map_master_fh m));
  estatus := map_status;
  with_status s m := MkMapping s (map_master_fh m) (map_local_fh m);
  base_of m _ := m;
  blank := MkMapping 0 (MkFh 0 0 0 0 0) (MkFh 0 0 0 0 0);
  egood := mapping_wf
}.

(** ** Structures *)

#[export] Instance zfs_fh_eq_dec : EqDecision zfs_fh.
Proof. solve_decision. Defined.

Definition undefined : zfs_fh := MkFh UINT32_MAX UINT32_MAX UINT32_MAX UINT32_MAX UINT32_MAX.
Definition zfs_fh_undefined (fh : zfs_fh) : bool := bytecmp (fh_bytes fh) (-1).
Definition ZFS_FH_EQ (a b : zfs_fh) : bool :=
  (ino a =? ino b) && (dev a =? dev b) && (vid a =? vid b) && (sid a =? sid b) && (gen a =? gen b).
Definition with_gen (fh : zfs_fh) (g : Z) : zfs_fh := MkFh (sid fh) (vid fh) (dev fh) (ino fh) g.

Definition METADATA_SHADOW : Z := 16.
Definition is_bad (modetype : Z) : bool := GET_MODETYPE_TYPE modetype =? ftype_number FT_BAD.

Definition with_key (m : metadata) (d i : Z) : metadata :=
  MkMeta (slot_status m) (flags m) d i (meta_gen m) (master_fh m) (local_version m) (master_version m) (modetype m) (uid m)
    (gid m) (parent_dev m) (parent_ino m) (meta_name m).
Definition with_mode (m : metadata) (mt u g : Z) : metadata :=
  MkMeta (slot_status m) (flags m) (meta_dev m) (meta_ino m) (meta_gen m) (master_fh m) (local_version m) (master_version m) mt u
    g (parent_dev m) (parent_ino m) (meta_name m).
Definition with_master (m : metadata) (fl : Z) (fh : zfs_fh) : metadata :=
  MkMeta (slot_status m) fl (meta_dev m) (meta_ino m) (meta_gen m) fh (local_version m) (master_version m) (modetype m) (uid m)
    (gid m) (parent_dev m) (parent_ino m) (meta_name m).
Definition with_versions (m : metadata) (fl lv mv : Z) : metadata :=
  MkMeta (slot_status m) fl (meta_dev m) (meta_ino m) (meta_gen m) (master_fh m) lv mv (modetype m) (uid m)
    (gid m) (parent_dev m) (parent_ino m) (meta_name m).
Definition with_parent (m : metadata) (d i : Z) (name : list Z) : metadata :=
  MkMeta (slot_status m) (flags m) (meta_dev m) (meta_ino m) (meta_gen m) (master_fh m) (local_version m) (master_version m)
    (modetype m) (uid m) (gid m) d i name.

(** [memset (meta->name, 0, METADATA_NAME_SIZE)] *)
Definition no_name : list Z := replicate 52 0.

(** The metadata of a file that was not known. *)
Definition fresh_metadata (is_copy : bool) (fl d i mt u g : Z) : metadata :=
  MkMeta VALID_SLOT fl d i 1 undefined 1 (if is_copy then 0 else 1) mt u g UINT32_MAX UINT32_MAX no_name.

(** The metadata of a file that is no more, or is to start again. *)
Definition next_generation (is_copy : bool) (m : metadata) (mt : Z) : metadata :=
  MkMeta (slot_status m) 0 (meta_dev m) (meta_ino m) (u32 (meta_gen m + 1)) undefined 1 (if is_copy then 0 else 1) mt (uid m)
    (gid m) UINT32_MAX UINT32_MAX no_name.

(** The part of [internal_fh] that is used here; [if_version] is [attr.version]. *)
Record internal_fh := MkIfh { if_local : zfs_fh; if_meta : metadata; if_version : Z }.

(** ** Volumes *)

Section volume.
Context {TM TF : Type} `{!HashTable TM metadata} `{!HashTable TF fh_mapping}.
Context (local_path : string) (depth : Z).

(** [v_fs] has the other metadata files, [v_links] the memory of hard link lists. *)
Record volume := Vol {
  v_meta : TM; v_map : TF; v_fs : world; v_links : hheap; is_copy : bool; delete_p : bool
}.

Definition set_meta (v : volume) t := Vol t (v_map v) (v_fs v) (v_links v) (is_copy v) (delete_p v).
Definition set_map (v : volume) t := Vol (v_meta v) t (v_fs v) (v_links v) (is_copy v) (delete_p v).
Definition set_fs (v : volume) w := Vol (v_meta v) (v_map v) w (v_links v) (is_copy v) (delete_p v).
Definition set_links (v : volume) m := Vol (v_meta v) (v_map v) (v_fs v) m (is_copy v) (delete_p v).
Definition mark_delete (v : volume) (b : bool) := Vol (v_meta v) (v_map v) (v_fs v) (v_links v) (is_copy v) (delete_p v || b).

Definition vproc (A : Type) : Type := volume -> res (volume * A).
#[local] Instance vproc_ret : MRet vproc := fun A a v => Ok (v, a).
#[local] Instance vproc_bind : MBind vproc := fun A B k m v => '(v, a) ← m v; k a v.

Definition get {A : Type} (f : volume -> A) : vproc A := fun v => Ok (v, f v).
Definition lift {A : Type} (r : res A) : vproc A := fun v => a ← r; Ok (v, a).
Definition MARK_VOLUME_DELETE : vproc unit := fun v => Ok (mark_delete v true, tt).

Definition open_metadata_file : vproc bool := fun v => let '(t, r) := ht_open (v_meta v) in Ok (set_meta v t, r).
Definition open_mapping_file : vproc bool := fun v => let '(t, r) := ht_open (v_map v) in Ok (set_map v t, r).
Definition meta_lookup (x : metadata) : vproc (metadata * bool) := fun v =>
  '(t, x, r) ← ht_lookup (v_meta v) x; Ok (set_meta v t, (x, r)).
Definition meta_insert (x : metadata) (base_only : bool) : vproc (metadata * bool) := fun v =>
  '(t, x, r) ← ht_insert (v_meta v) x base_only; Ok (set_meta v t, (x, r)).
Definition map_lookup (x : fh_mapping) : vproc (fh_mapping * bool) := fun v =>
  '(t, x, r) ← ht_lookup (v_map v) x; Ok (set_map v t, (x, r)).
Definition map_insert (x : fh_mapping) : vproc bool := fun v =>
  '(t, _, r) ← ht_insert (v_map v) x false; Ok (set_map v t, r).
Definition map_delete (x : fh_mapping) : vproc bool := fun v =>
  '(t, _, r) ← ht_delete (v_map v) x; Ok (set_map v t, r).

(** ** Removing files *)

Definition remove_metadata_file (fh : zfs_fh) (type : metadata_type) (i : Z) : vproc unit := fun v =>
  path ← build_fh_metadata_path local_path fh type i;
  let '(w, r) := remove_file_and_path (v_fs v) path i in
  Ok (mark_delete (set_fs v w) (negb r), tt).

(** [for (i = 0; i <= MAX_METADATA_TREE_DEPTH; i++)] *)
Fixpoint delete_interval_files (fh : zfs_fh) (l : list Z) : vproc unit :=
  match l with
  | [] => mret tt
  | i :: l =>
      _ ← remove_metadata_file fh METADATA_TYPE_UPDATED i;
      _ ← remove_metadata_file fh METADATA_TYPE_MODIFIED i;
      delete_interval_files fh l
  end.

Definition all_depths : list Z := seqZ 0 (MAX_METADATA_TREE_DEPTH + 1).

Definition delete_hardlinks (fh : zfs_fh) : vproc unit := fun v =>
  '(w, marked) ← delete_hardlinks_file local_path fh depth (v_fs v);
  Ok (mark_delete (set_fs v w) marked, tt).

(** ** Metadata *)

Definition delete_fh_mapping (map : fh_mapping) : vproc bool :=
  r ← open_mapping_file;
  if negb r then mret false else map_delete map.

Definition flush_metadata (m : metadata) : vproc (metadata * bool) :=
  r ← open_metadata_file;
  if negb r then mret (m, false) else meta_insert m true.

(** A structure [map] of which only the key is read. *)
Definition mapping_of (fh : zfs_fh) : fh_mapping := MkMapping EMPTY_SLOT fh (MkFh 0 0 0 0 0).

Definition delete_metadata_of_created_file (fh : zfs_fh) (m : metadata) : vproc (zfs_fh * metadata * bool) :=
  r ← (if zfs_fh_undefined (master_fh m) then mret true
       else r ← open_mapping_file; if negb r then mret false else map_delete (mapping_of (master_fh m)) : vproc bool);
  if negb r then mret (fh, m, false)
  else
    _ ← delete_hardlinks fh;
    _ ← delete_interval_files fh all_depths;
    copy ← get is_copy;
    let m := next_generation copy m (modetype m) in
    let fh := with_gen fh (meta_gen m) in
    r ← open_metadata_file;
    if negb r then mret (fh, m, false)
    else '(m, r) ← meta_insert m false; mret (fh, m, r).

(** [modetype], [uid] and [gid] of [meta] say what the caller knows of the file. *)
Definition lookup_metadata (fh : zfs_fh) (meta : metadata) (insert : bool) : vproc (zfs_fh * metadata * bool) :=
  r ← open_metadata_file;
  if negb r then mret (fh, meta, false)
  else
    '(m, r) ← meta_lookup (with_key meta (dev fh) (ino fh));
    if negb r then mret (fh, m, false)
    else
      copy ← get is_copy;
      '(m, r) ←
        (if (slot_status m =? VALID_SLOT) && is_bad (modetype m) then
           let m := with_mode m (modetype meta) (uid meta) (gid meta) in
           if insert then meta_insert (with_master m (flags meta) undefined) false else mret (m, true)
         else if insert && negb (slot_status m =? VALID_SLOT) then
           meta_insert (fresh_metadata copy (flags meta) (dev fh) (ino fh) (modetype meta) (uid meta) (gid meta)) false
         else mret (m, true) : vproc (metadata * bool));
      if negb r then mret (fh, m, false)
      else
        let fh := with_gen fh (meta_gen m) in
        if (slot_status m =? VALID_SLOT) && negb (GET_MODETYPE_TYPE (modetype meta) =? GET_MODETYPE_TYPE (modetype m)) &&
           negb (is_bad (modetype meta))
        then delete_metadata_of_created_file fh (with_mode m (modetype meta) (uid meta) (gid meta))
        else mret (fh, m, true).

Definition get_metadata (fh : zfs_fh) (meta : metadata) : vproc (zfs_fh * metadata * bool) :=
  '(fh, m, r) ← lookup_metadata fh meta true;
  if negb r then _ ← MARK_VOLUME_DELETE; mret (fh, m, false) else mret (fh, m, true).

Definition get_fh_mapping_for_master_fh (master : zfs_fh) (map : fh_mapping) : vproc (fh_mapping * bool) :=
  r ← open_mapping_file;
  if negb r then mret (map, false)
  else
    let k := map_master_fh map in
    '(map, r) ← map_lookup (MkMapping (map_status map) (MkFh (sid k) (vid k) (dev master) (ino master) (gen k)) (map_local_fh map));
    if negb r then mret (map, false)
    else
      '(map, r) ←
        (if (map_status map =? VALID_SLOT) && (gen (map_master_fh map) <? gen master) then
           r ← map_delete map; mret (if r : bool then with_status DELETED_SLOT map else map, r)
         else mret (map, true) : vproc (fh_mapping * bool));
      if negb r then mret (map, false)
      else if map_status map =? VALID_SLOT then
        r ← open_metadata_file;
        if negb r then mret (map, false)
        else
          '(m, r) ← meta_lookup (with_key blank (dev (map_local_fh map)) (ino (map_local_fh map)));
          if negb r then mret (map, false)
          else if negb (slot_status m =? VALID_SLOT) || negb (meta_gen m =? gen (map_local_fh map)) then
            r ← delete_fh_mapping map;
            if negb r then mret (map, false) else mret (with_status DELETED_SLOT map, true)
          else mret (map, true)
      else mret (map, true).

(** ** Changing the metadata of an open file *)

Definition set_metadata (fh : internal_fh) (fl lv mv : Z) : vproc (internal_fh * bool) :=
  copy ← get is_copy;
  let m := if_meta fh in
  let modified := negb (flags m =? fl) || negb (local_version m =? lv) || (copy && negb (master_version m =? mv)) in
  let m := with_versions m fl lv (if copy : bool then mv else lv) in
  if negb modified then mret (MkIfh (if_local fh) m (if_version fh), true)
  else '(m, r) ← flush_metadata m; mret (MkIfh (if_local fh) m (local_version m), r).

Definition set_metadata_flags (fh : internal_fh) (fl : Z) : vproc (internal_fh * bool) :=
  let m := if_meta fh in
  if flags m =? fl then mret (fh, true)
  else
    let m := with_versions m fl (local_version m) (master_version m) in
    '(m, r) ← flush_metadata m; mret (MkIfh (if_local fh) m (if_version fh), r).

Definition set_metadata_master_fh (fh : internal_fh) (master : zfs_fh) : vproc (internal_fh * bool) :=
  let m := if_meta fh in
  if ZFS_FH_EQ (master_fh m) master then mret (fh, true)
  else
    r ← open_mapping_file;
    if negb r then mret (fh, false)
    else
      r ←
        (if (dev (master_fh m) =? dev master) && (ino (master_fh m) =? ino master)
         then map_insert (MkMapping VALID_SLOT master (if_local fh))
         else
           r ← map_delete (mapping_of (master_fh m));
           if negb r then mret false
           else if zfs_fh_undefined master then mret true
           else map_insert (MkMapping VALID_SLOT master (if_local fh)) : vproc bool);
      if negb r then mret (fh, false)
      else
        let m := with_master m (flags m) master in
        '(m, r) ← flush_metadata m; mret (MkIfh (if_local fh) m (if_version fh), r).

Definition inc_local_version_flags (fh : internal_fh) (extra : Z) : vproc (internal_fh * bool) :=
  copy ← get is_copy;
  let m := if_meta fh in
  let lv := u64 (local_version m + 1) in
  let m := with_versions m (Z.lor (flags m) extra) lv (if copy : bool then master_version m else lv) in
  '(m, r) ← flush_metadata m;
  mret (MkIfh (if_local fh) m lv, r).

Definition METADATA_MODIFIED_TREE : Z := 4.
Definition inc_local_version (fh : internal_fh) : vproc (internal_fh * bool) := inc_local_version_flags fh 0.
Definition inc_local_version_and_modified (fh : internal_fh) : vproc (internal_fh * bool) :=
  inc_local_version_flags fh METADATA_MODIFIED_TREE.

(** ** Removing the metadata of a file *)

(** [strlen (meta->name)] characters *)
Definition name_in (m : metadata) : name_t :=
  let s := c_string (meta_name m) in MkName (Z.of_nat (length s)) s O.

Definition hl_create (nelem : Z) : vproc hardlink_list := lift (hardlink_list_create nelem).
Definition hl_insert (hl : hardlink_list) (d i : Z) (name : name_t) : vproc (hardlink_list * bool) := fun v =>
  '(m, hl, r) ← hardlink_list_insert (v_links v) hl d i name true; Ok (set_links v m, (hl, r)).
Definition hl_delete (hl : hardlink_list) (d i : Z) (name : name_t) : vproc (hardlink_list * bool) := fun v =>
  '(m, hl, r) ← hardlink_list_delete (v_links v) hl d i name; Ok (set_links v m, (hl, r)).
Definition hl_destroy (hl : hardlink_list) : vproc unit := fun v =>
  '(m, _) ← hardlink_list_destroy (v_links v) hl; Ok (set_links v m, tt).
(** The data of an entry *)
Definition hl_entry (p : ptr) : vproc (cell hardlink_list_entry) := fun v => c ← deref (v_links v) p; Ok (v, c).

Definition open_hardlinks (fh : zfs_fh) : vproc Z := fun v =>
  path ← build_fh_metadata_path local_path fh METADATA_TYPE_HARDLINKS depth;
  '(w, fd) ← open_fh_metadata local_path fh METADATA_TYPE_HARDLINKS depth (v_fs v) path RdOnly;
  Ok (set_fs v w, fd).
Definition read_hl (hl : hardlink_list) (fd : Z) : vproc hardlink_list := fun v =>
  '(w, m, hl) ← read_hardlinks_file (v_fs v) (v_links v) hl fd; Ok (set_links (set_fs v w) m, hl).
Definition write_hl (fh : zfs_fh) (hl : hardlink_list) : vproc bool := fun v =>
  '(w, r) ← write_hardlinks_file local_path fh depth (v_fs v) (v_links v) hl; Ok (set_fs v w, r).

(** The first lines of each branch of [write_hardlinks] for a file that was not known. *)
Definition known (copy : bool) (fh : zfs_fh) (m : metadata) : metadata :=
  if slot_status m =? VALID_SLOT then m
  else MkMeta VALID_SLOT (flags m) (dev fh) (ino fh) 1 undefined 1 (if copy then 0 else 1) (modetype m) (uid m) (gid m)
    (parent_dev m) (parent_ino m) (meta_name m).

Definition no_parent (m : metadata) : bool := (parent_dev m =? UINT32_MAX) && (parent_ino m =? UINT32_MAX).
Definition nameless (m : metadata) : bool := match meta_name m with c :: _ => c =? 0 | [] => true end.

(** The list does not fit into the metadata. *)
Definition needs_file (hl : hardlink_list) : vproc (option hardlink_list_entry * bool) :=
  match first (hl_chain hl) with
  | None => mret (None, false)
  | Some p => c ← hl_entry p; mret (Some (data c), bool_decide (is_Some (next c)) || (METADATA_NAME_SIZE <=? len (hl_name (data c))))
  end.

(** [meta->name] with the [len] characters of a name and zeros *)
Definition name_field (n : name_t) : list Z := take (Z.to_nat (len n)) (chars n) ++ replicate (52 - Z.to_nat (len n)) 0.

Definition write_hardlinks (fh : zfs_fh) (m : metadata) (hl : hardlink_list) : vproc (metadata * bool) :=
  copy ← get is_copy;
  '(e, in_file) ← needs_file hl;
  match e with
  | Some e =>
      if in_file : bool then
        r ← write_hl fh hl;
        _ ← hl_destroy hl;
        if negb r then mret (m, false)
        else
          r ← open_metadata_file;
          if negb r then mret (m, false)
          else if negb (slot_status m =? VALID_SLOT) then
            meta_insert (with_parent (known copy fh m) UINT32_MAX UINT32_MAX no_name) false
          else if nameless m then
            if no_parent m then mret (m, true) else lift Aborted
          else if no_parent m then lift Aborted
          else meta_insert (with_parent m UINT32_MAX UINT32_MAX no_name) false
      else
        r ← open_metadata_file;
        if negb r then _ ← hl_destroy hl; mret (m, false)
        else
          let m := with_parent (known copy fh m) (HardlinkList.parent_dev e) (HardlinkList.parent_ino e) (name_field (hl_name e)) in
          _ ← hl_destroy hl;
          '(m, r) ← meta_insert m false;
          if negb r then mret (m, false) else _ ← delete_hardlinks fh; mret (m, true)
  | None => _ ← hl_destroy hl; _ ← delete_hardlinks fh; mret (m, true)
  end.

(** The end of [delete_metadata], after the hard link was removed. *)
Definition forget_metadata (fh : zfs_fh) (m : metadata) : vproc (metadata * bool) :=
  _ ← delete_interval_files fh all_depths;
  r ← open_metadata_file;
  if negb r then mret (m, false)
  else
    '(m, r) ← meta_lookup (with_key m (dev fh) (ino fh));
    if negb r then mret (m, false)
    else
      let m := if slot_status m =? VALID_SLOT then m
               else MkMeta VALID_SLOT (flags m) (dev fh) (ino fh) 1 undefined (local_version m) (master_version m) (modetype m)
                 (uid m) (gid m) (parent_dev m) (parent_ino m) (meta_name m) in
      let master := master_fh m in
      copy ← get is_copy;
      '(m, r) ← meta_insert (next_generation copy m (GET_MODETYPE 0 (ftype_number FT_BAD))) false;
      if negb r then mret (m, false)
      else if zfs_fh_undefined master then mret (m, true)
      else r ← delete_fh_mapping (mapping_of master); mret (m, r).

(** [name] is the name of the hard link, if one is to be removed. *)
Definition delete_metadata (m : metadata) (d i parent_d parent_i : Z) (name : option name_t) : vproc (metadata * bool) :=
  let fh := MkFh 0 0 d i 0 in
  match name with
  | None => forget_metadata fh m
  | Some name =>
      fd ← open_hardlinks fh;
      if fd <? 0 then forget_metadata fh m
      else
        hl ← hl_create 2;
        hl ← read_hl hl fd;
        '(hl, _) ← hl_delete hl parent_d parent_i name;
        match first (hl_chain hl) with
        | Some _ => write_hardlinks fh m hl
        | None => _ ← hl_destroy hl; _ ← delete_hardlinks fh; forget_metadata fh m
        end
  end.

(** ** Hard links *)

Definition read_hardlinks (fh : zfs_fh) (meta : metadata) (hl : hardlink_list) : vproc (zfs_fh * metadata * hardlink_list * bool) :=
  '(fh, m, r) ← lookup_metadata fh meta false;
  if negb r then mret (fh, m, hl, false)
  else if negb (slot_status m =? VALID_SLOT) || is_bad (modetype m) then mret (fh, m, hl, true)
  else if negb (nameless m) || ((parent_dev m =? 0) && (parent_ino m =? 0)) then
    if no_parent m then lift Aborted
    else '(hl, _) ← hl_insert hl (parent_dev m) (parent_ino m) (name_in m); mret (fh, m, hl, true)
  else if negb (no_parent m) then lift Aborted
  else
    fd ← open_hardlinks fh;
    hl ← (if fd <? 0 then mret hl else read_hl hl fd);
    mret (fh, m, hl, true).

Definition metadata_hardlink_insert (fh : zfs_fh) (meta : metadata) (d i : Z) (name : name_t) : vproc (metadata * bool) :=
  hl ← hl_create 2;
  '(fh, m, hl, r) ← read_hardlinks fh meta hl;
  if negb r then _ ← hl_destroy hl; mret (m, false)
  else
    '(hl, added) ← hl_insert hl d i name;
    if added : bool then write_hardlinks fh m hl else _ ← hl_destroy hl; mret (m, true).

Definition metadata_hardlink_replace (fh : zfs_fh) (meta : metadata) (old_d old_i : Z) (old_name : name_t)
    (new_d new_i : Z) (new_name : name_t) (shadow : bool) : vproc (metadata * bool) :=
  hl ← hl_create 2;
  '(fh, m, hl, r) ← read_hardlinks fh meta hl;
  if negb r then _ ← hl_destroy hl; mret (m, false)
  else
    let fl := if shadow then Z.lor (flags m) METADATA_SHADOW else Z.land (flags m) (u32 (Z.lnot METADATA_SHADOW)) in
    let m := with_versions m fl (local_version m) (master_version m) in
    '(hl, deleted) ← hl_delete hl old_d old_i old_name;
    '(hl, added) ← hl_insert hl new_d new_i new_name;
    if deleted || added then write_hardlinks fh m hl else _ ← hl_destroy hl; mret (m, true).

Definition metadata_hardlink_set (fh : zfs_fh) (m : metadata) (d i : Z) (name : name_t) : vproc (metadata * bool) :=
  hl ← hl_create 1;
  '(hl, _) ← hl_insert hl d i name;
  write_hardlinks fh m hl.

Definition metadata_n_hardlinks (fh : zfs_fh) (meta : metadata) : vproc (metadata * Z) :=
  hl ← hl_create 2;
  '(_, m, hl, r) ← read_hardlinks fh meta hl;
  n ← (if negb r then _ ← MARK_VOLUME_DELETE; mret 0 else mret (hardlink_list_length hl) : vproc Z);
  _ ← hl_destroy hl;
  mret (m, n).

(** ** Procedures that end *)

Context `{!TableLaws TM metadata} `{!TableLaws TF fh_mapping}.

(** [p] ends, with a result for which [Q] holds. *)
Definition runs {A : Type} (p : vproc A) (v : volume) (Q : volume -> A -> Prop) : Prop := exists v' a, p v = Ok (v', a) /\ Q v' a.

Lemma runs_ret {A} (a : A) v (Q : volume -> A -> Prop) : Q v a -> runs (mret a) v Q.
Proof. intros H. by exists v, a. Qed.

Lemma runs_bind {A B} (p : vproc A) (k : A -> vproc B) v Q : runs p v (fun v' a => runs (k a) v' Q) -> runs (p ≫= k) v Q.
Proof.
  intros (v' & a & E & v'' & b & E' & H). exists v'', b. split; [|done]. unfold mbind, vproc_bind. by rewrite E.
Qed.

Lemma runs_weaken {A} (p : vproc A) v (Q R : volume -> A -> Prop) : runs p v Q -> (forall v' a, Q v' a -> R v' a) -> runs p v R.
Proof. intros (v' & a & E & H) HR. exists v', a. auto. Qed.

Lemma runs_get {A} (f : volume -> A) v (Q : volume -> A -> Prop) : Q v (f v) -> runs (get f) v Q.
Proof. intros H. by exists v, (f v). Qed.

(** The tables of a volume, and whether it is a copy. *)
Definition tables (v : volume) (M : gmap (Z * Z) metadata) (N : gmap (Z * Z) fh_mapping) (c : bool) : Prop :=
  holds (v_meta v) M /\ holds (v_map v) N /\ is_copy v = c.

(** [n] more elements fit. *)
Definition room (M : gmap (Z * Z) metadata) (N : gmap (Z * Z) fh_mapping) (n : Z) : Prop :=
  Z.of_nat (size M) + n < 2 ^ 29 /\ Z.of_nat (size N) + n < 2 ^ 29.

Lemma runs_open_metadata v M N c Q : tables v M N c -> (forall v', tables v' M N c -> Q v' true) -> runs open_metadata_file v Q.
Proof.
  intros (H1 & H2 & H3) HQ. destruct (open_law _ _ H1) as (t & E & H'). exists (set_meta v t), true.
  unfold open_metadata_file. rewrite E. split; [done|]. by apply HQ.
Qed.

Lemma runs_open_mapping v M N c Q : tables v M N c -> (forall v', tables v' M N c -> Q v' true) -> runs open_mapping_file v Q.
Proof.
  intros (H1 & H2 & H3) HQ. destruct (open_law _ _ H2) as (t & E & H'). exists (set_map v t), true.
  unfold open_mapping_file. rewrite E. split; [done|]. by apply HQ.
Qed.

Lemma runs_meta_lookup v M N c x Q : tables v M N c -> egood x -> (forall v', tables v' M N c -> Q v' (answer M x, true)) ->
  runs (meta_lookup x) v Q.
Proof.
  intros (H1 & H2 & H3) Hx HQ. destruct (lookup_law _ _ x H1 Hx) as (t & E & H'). exists (set_meta v t), (answer M x, true).
  unfold meta_lookup. rewrite E. split; [done|]. by apply HQ.
Qed.

Lemma runs_map_lookup v M N c x Q : tables v M N c -> egood x -> (forall v', tables v' M N c -> Q v' (answer N x, true)) ->
  runs (map_lookup x) v Q.
Proof.
  intros (H1 & H2 & H3) Hx HQ. destruct (lookup_law _ _ x H2 Hx) as (t & E & H'). exists (set_map v t), (answer N x, true).
  unfold map_lookup. rewrite E. split; [done|]. by apply HQ.
Qed.

Lemma runs_meta_insert v M N c x b Q : tables v M N c -> Z.of_nat (size M) < 2 ^ 29 -> egood x ->
  (forall v', tables v' (<[ekey x := merged b (M !! ekey x) x]> M) N c -> Q v' (with_status VALID_SLOT x, true)) ->
  runs (meta_insert x b) v Q.
Proof.
  intros (H1 & H2 & H3) Hs Hx HQ. destruct (insert_law _ _ x b H1 Hs Hx) as (t & E & H').
  exists (set_meta v t), (with_status VALID_SLOT x, true). unfold meta_insert. rewrite E. split; [done|]. by apply HQ.
Qed.

Lemma runs_map_insert v M N c x Q : tables v M N c -> Z.of_nat (size N) < 2 ^ 29 -> egood x -> estatus x = VALID_SLOT ->
  (forall v', tables v' M (<[ekey x := x]> N) c -> Q v' true) -> runs (map_insert x) v Q.
Proof.
  intros (H1 & H2 & H3) Hs Hx Hst HQ. destruct (insert_law _ _ x false H2 Hs Hx) as (t & E & H').
  exists (set_map v t), true. unfold map_insert. rewrite E. split; [done|]. apply HQ. split_and!; [done| |done].
  assert (merged false (N !! ekey x) x = x) as Ex by (destruct x; cbn in *; congruence). by rewrite Ex in H'.
Qed.

Lemma runs_map_delete v M N c x Q : tables v M N c -> Z.of_nat (size N) < 2 ^ 29 -> egood x ->
  (forall v', tables v' M (delete (ekey x) N) c -> Q v' true) -> runs (map_delete x) v Q.
Proof.
  intros (H1 & H2 & H3) Hs Hx HQ. destruct (delete_law _ _ x H2 Hs Hx) as (t & y & E & H').
  exists (set_map v t), true. unfold map_delete. rewrite E. split; [done|]. by apply HQ.
Qed.

(** ** Files do not matter to the tables *)

Lemma runs_remove_file v M N c fh type i Q : tables v M N c -> (exists suffix, type_suffix type = Ok suffix) -> i ∈ all_depths ->
  (forall v', tables v' M N c -> Q v' tt) -> runs (remove_metadata_file fh type i) v Q.
Proof.
  intros Ht [suffix Es] [_ Hi]%elem_of_seqZ HQ. unfold runs, remove_metadata_file, build_fh_metadata_path.
  rewrite (proj2 (Z.ltb_ge _ _)) by lia. rewrite Es. cbn [mbind res_bind].
  destruct (remove_file_and_path (v_fs v) _ i) as [w r]. eexists _, tt. split; [done|]. by apply HQ.
Qed.

Lemma runs_interval_files fh M N c Q : forall l v, tables v M N c -> l ⊆ all_depths -> (forall v', tables v' M N c -> Q v' tt) ->
  runs (delete_interval_files fh l) v Q.
Proof.
  induction l as [|i l IH]; intros v Ht Hl HQ; cbn [delete_interval_files]; [by apply runs_ret, HQ|].
  assert (i ∈ all_depths) as Hi by (apply Hl; left).
  apply runs_bind. eapply runs_remove_file; [exact Ht|by eexists|done|]. intros v1 H1.
  apply runs_bind. eapply runs_remove_file; [exact H1|by eexists|done|]. intros v2 H2.
  apply IH; [done|set_solver|done].
Qed.

Lemma runs_delete_hardlinks v M N c fh Q : tables v M N c -> (forall v', tables v' M N c -> Q v' tt) ->
  runs (delete_hardlinks fh) v Q.
Proof.
  intros Ht HQ. unfold runs, delete_hardlinks, delete_hardlinks_file.
  assert (forall l w, l ⊆ all_depths -> exists r, remove_at local_path fh depth w l = Ok r) as Hok.
  { induction l as [|i l IH]; intros w Hl; [by eexists|]. cbn [remove_at].
    assert (i ∈ all_depths) as [_ Hi]%elem_of_seqZ by (apply Hl; left). unfold build_fh_metadata_path.
    rewrite (proj2 (Z.ltb_ge _ _)) by lia. cbn [type_suffix mbind res_bind].
    destruct (remove_file_and_path w _ depth) as [w1 r1]. destruct (IH w1) as [[w2 r2] ->]; [set_solver|]. by eexists. }
  destruct (Hok all_depths (v_fs v)) as [[w marked] E]; [done|]. unfold all_depths in E. rewrite E. cbn [mbind res_bind].
  eexists _, tt. split; [done|]. by apply HQ.
Qed.

(** ** The mapping leads to files that are there *)

(** A master file handle is undefined or names a file. *)
Definition proper (fh : zfs_fh) : Prop := fh = undefined \/ (dev fh, ino fh) <> (UINT32_MAX, UINT32_MAX).
Definition fh_key (fh : zfs_fh) : Z * Z := (dev fh, ino fh).

(** The local file of a mapping has the generation of the mapping and names its master
    file. *)
Definition backed (M : gmap (Z * Z) metadata) (mp : fh_mapping) : Prop := exists m, M !! fh_key (map_local_fh mp) = Some m /\
  meta_gen m = gen (map_local_fh mp) /\ master_fh m = map_master_fh mp /\ is_bad (modetype m) = false.

Record inv (M : gmap (Z * Z) metadata) (N : gmap (Z * Z) fh_mapping) : Prop := {
  inv_valid : forall k m, M !! k = Some m -> ekey m = k /\ estatus m = VALID_SLOT /\ egood m;
  inv_proper : forall k m, M !! k = Some m -> proper (master_fh m);
  inv_key : forall k mp, N !! k = Some mp -> ekey mp = k /\ estatus mp = VALID_SLOT /\ egood mp;
  inv_backed : forall k mp, N !! k = Some mp -> map_master_fh mp <> undefined /\ backed M mp
}.

Definition valid_at (k : Z * Z) (m : metadata) : Prop := ekey m = k /\ estatus m = VALID_SLOT /\ egood m /\ proper (master_fh m).

(** New metadata of a file to which no mapping leads. *)
Lemma inv_drop M N N' k m : inv M N -> valid_at k m -> (forall j mp, N' !! j = Some mp -> N !! j = Some mp /\ fh_key (map_local_fh mp) <> k) ->
  inv (<[k := m]> M) N'.
Proof.
  intros [I1 I2 I3 I4] (V1 & V2 & V3 & V4) HN. split.
  - intros j mj [[<- <-]|[_ Hj]]%lookup_insert_Some; [done|by apply I1].
  - intros j mj [[<- <-]|[_ Hj]]%lookup_insert_Some; [done|by eapply I2].
  - intros j mp Hj. by apply I3, HN.
  - intros j mp Hj. destruct (HN j mp Hj) as [Hj' Hk]. destruct (I4 j mp Hj') as [Hu (m' & H)]. split; [done|].
    exists m'. by rewrite lookup_insert_ne.
Qed.

(** New metadata of a file with the same generation and master. *)
Lemma inv_keep M N k m : inv M N -> valid_at k m -> (forall m0, M !! k = Some m0 ->
    meta_gen m = meta_gen m0 /\ master_fh m = master_fh m0 /\ is_bad (modetype m) = false) ->
  inv (<[k := m]> M) N.
Proof.
  intros [I1 I2 I3 I4] (V1 & V2 & V3 & V4) Hm. split.
  - intros j mj [[<- <-]|[_ Hj]]%lookup_insert_Some; [done|by apply I1].
  - intros j mj [[<- <-]|[_ Hj]]%lookup_insert_Some; [done|by eapply I2].
  - exact I3.
  - intros j mp Hj. destruct (I4 j mp Hj) as [Hu (m' & B1 & B2 & B3 & B4)]. split; [done|]. unfold backed.
    destruct (decide (k = fh_key (map_local_fh mp))) as [Ek|Hne]; [|exists m'; by rewrite lookup_insert_ne].
    rewrite <-Ek in *. destruct (Hm m' B1) as (E1 & E2 & E3). exists m. rewrite lookup_insert_eq. split_and!; congruence.
Qed.

(** All mappings that lead to a file are at the key of its master. *)
Lemma inv_master M N k m j mp : inv M N -> M !! k = Some m -> N !! j = Some mp -> fh_key (map_local_fh mp) = k ->
  j = fh_key (master_fh m) /\ master_fh m <> undefined.
Proof.
  intros [I1 I2 I3 I4] Hk Hj <-. destruct (I3 j mp Hj) as [Ej _]. destruct (I4 j mp Hj) as [Hu (m' & B1 & B2 & B3 & B4)].
  assert (m' = m) as -> by congruence. rewrite B3. done.
Qed.

Lemma le_bytes_ones z : is_u32 z -> le_bytes 4 z = replicate 4 255 -> z = UINT32_MAX.
Proof. intros Hz E. apply (f_equal le_value) in E. rewrite le_value_u32 in E by done. by rewrite E. Qed.

Lemma undefined_spec fh : fh_wf fh -> zfs_fh_undefined fh = bool_decide (fh = undefined).
Proof.
  intros (H1 & H2 & H3 & H4 & H5). symmetry. case_bool_decide as E; [by subst|]. symmetry. apply not_true_is_false.
  intros Hb. apply E. unfold zfs_fh_undefined, bytecmp in Hb. rewrite forallb_forall in Hb.
  assert (forall b, (forall x, In x b -> In x (fh_bytes fh)) -> b = replicate (length b) 255) as Hall.
  { intros b Hin. symmetry. apply replicate_as_Forall. split; [done|]. apply Forall_forall. intros x Hx. apply list_elem_of_In in Hx.
    specialize (Hb x (Hin x Hx)). change (Z.land (u32 (-1)) 255) with 255 in Hb. symmetry. by apply Z.eqb_eq. }
  assert (forall z b, is_u32 z -> b = le_bytes 4 z -> (forall x, In x b -> In x (fh_bytes fh)) -> z = UINT32_MAX) as Hz.
  { intros z b Hu -> Hin. apply le_bytes_ones; [done|]. by rewrite (Hall _ Hin) at 1. }
  destruct fh as [s w d i g]. unfold fh_bytes in Hz. cbn [sid vid dev ino gen] in *. unfold undefined.
  rewrite (Hz s _ H1 eq_refl), (Hz w _ H2 eq_refl), (Hz d _ H3 eq_refl), (Hz i _ H4 eq_refl), (Hz g _ H5 eq_refl); [done|..];
    intros x Hx; rewrite !in_app_iff; tauto.
Qed.

(** ** The operations keep it so *)

Lemma size_insert_le {R : Type} (M : gmap (Z * Z) R) k x : (size (<[k := x]> M) <= S (size M))%nat.
Proof. rewrite map_size_insert. destruct (M !! k); cbn; lia. Qed.

Lemma size_delete_le {R : Type} (M : gmap (Z * Z) R) k : (size (delete k M) <= size M)%nat.
Proof. rewrite map_size_delete. destruct (M !! k); cbn; lia. Qed.

(** What an operation leaves. *)
Definition leaves (M : gmap (Z * Z) metadata) (N : gmap (Z * Z) fh_mapping) (c : bool) (v : volume) M' N' : Prop :=
  tables v M' N' c /\ inv M' N' /\ (size M' <= S (size M))%nat /\ (size N' <= S (size N))%nat.

Lemma undefined_wf : fh_wf undefined.
Proof. unfold fh_wf, undefined, is_u32, UINT32_MAX. cbn. lia. Qed.

Lemma good_status s m : is_u32 s -> metadata_wf m -> metadata_wf (with_status s m).
Proof. intros Hs [(?&?&?&?&?) ? [] ? ?]. by split; cbn. Qed.
Lemma good_key m d i : metadata_wf m -> is_u32 d -> is_u32 i -> metadata_wf (with_key m d i).
Proof. intros [(?&?&?&?&?) ? [] ? ?] ? ?. by split; cbn. Qed.
Lemma good_mode m mt u g : metadata_wf m -> is_u32 mt -> is_u32 u -> is_u32 g -> metadata_wf (with_mode m mt u g).
Proof. intros [(?&?&?&?&?) ? [] (?&?&?&?&?) ?] ? ? ?. by split; cbn. Qed.
Lemma good_master m fl fh : metadata_wf m -> is_u32 fl -> fh_wf fh -> metadata_wf (with_master m fl fh).
Proof. intros [(?&?&?&?&?) ? [] (?&?&?&?&?) ?] ? ?. by split; cbn. Qed.
Lemma good_versions m fl lv mv : metadata_wf m -> is_u32 fl -> is_u64 lv -> is_u64 mv -> metadata_wf (with_versions m fl lv mv).
Proof. intros [(?&?&?&?&?) ? [] (?&?&?&?&?) ?] ? ? ?. by split; cbn. Qed.
Lemma good_base m m0 : metadata_wf m -> metadata_wf m0 -> metadata_wf (base_of m m0).
Proof. intros [(?&?&?&?&?) ? [] (?&?&?&?&?) ?] [? ? ? (?&?&?&?&?) ?]. by split; cbn. Qed.
Lemma good_next c m mt : metadata_wf m -> is_u32 mt -> metadata_wf (next_generation c m mt).
Proof.
  intros [(?&?&?&?&?) ? [] (?&?&?&?&?) ?] ?. pose proof (wrap_range 32 (meta_gen m + 1)).
  unfold is_u32, is_u64, UINT32_MAX in *. split; cbn; unfold is_u32, is_u64, UINT32_MAX.
  - split_and!; lia.
  - apply undefined_wf.
  - split; [lia|destruct c; lia].
  - split_and!; lia.
  - done.
Qed.
Lemma good_fresh c fl d i mt u g : is_u32 fl -> is_u32 d -> is_u32 i -> is_u32 mt -> is_u32 u -> is_u32 g ->
  metadata_wf (fresh_metadata c fl d i mt u g).
Proof.
  unfold is_u32. intros. split; cbn; unfold is_u32, is_u64, UINT32_MAX, VALID_SLOT.
  - split_and!; lia.
  - apply undefined_wf.
  - split; [lia|destruct c; lia].
  - split_and!; lia.
  - done.
Qed.
Lemma good_blank : metadata_wf blank.
Proof. split; cbn; unfold fh_wf, is_u32, is_u64; cbn; [lia..|done]. Qed.
Lemma good_mapping s m l : is_u32 s -> fh_wf m -> fh_wf l -> egood (MkMapping s m l).
Proof. by split. Qed.

Lemma good_mapping_of fh : fh_wf fh -> egood (mapping_of fh).
Proof. intros H. apply good_mapping; [done|done|]. unfold fh_wf, is_u32. cbn. lia. Qed.

Lemma proper_undefined : proper undefined.
Proof. by left. Qed.

Lemma bad_types a b : GET_MODETYPE_TYPE a = GET_MODETYPE_TYPE b -> is_bad a = is_bad b.
Proof. unfold is_bad. by intros ->. Qed.

(** Adding a mapping that is backed. *)
Lemma inv_add M N mp : inv M N -> egood mp -> estatus mp = VALID_SLOT -> map_master_fh mp <> undefined -> backed M mp ->
  inv M (<[ekey mp := mp]> N).
Proof.
  intros [I1 I2 I3 I4] Hg Hs Hu Hb. split; [done|done| |].
  - intros j x [[<- <-]|[_ Hj]]%lookup_insert_Some; [done|by apply I3].
  - intros j x [[<- <-]|[_ Hj]]%lookup_insert_Some; [done|by eapply I4].
Qed.

(** Leaving out the mapping of a file. *)
Lemma no_mapping M N k m j mp : inv M N -> M !! k = Some m -> delete (fh_key (master_fh m)) N !! j = Some mp ->
  N !! j = Some mp /\ fh_key (map_local_fh mp) <> k.
Proof.
  intros Hi Hk [Hne Hj]%lookup_delete_Some. split; [done|]. intros Ek.
  destruct (inv_master M N k m j mp Hi Hk Hj Ek) as [-> _]. by apply Hne.
Qed.

Lemma runs_created v M N c fh m0 m Q : tables v M N c -> inv M N -> room M N 1 -> M !! fh_key fh = Some m0 ->
  ekey m = fh_key fh -> estatus m = VALID_SLOT -> egood m -> master_fh m = master_fh m0 -> is_bad (modetype m) = false ->
  (forall v' M' N', let m' := next_generation c m (modetype m) in leaves M N c v' M' N' -> M' !! fh_key fh = Some m' ->
     Q v' (with_gen fh (meta_gen m'), m', true)) ->
  runs (delete_metadata_of_created_file fh m) v Q.
Proof.
  intros Ht Hi [Hr1 Hr2] Hk Ek Es Hg Em Hb HQ. unfold delete_metadata_of_created_file.
  pose proof Hg as Hwf. cbn in Hwf. pose proof (mw_fh _ Hwf) as Hfh. rewrite (undefined_spec _ Hfh).
  assert (forall v1 N1, tables v1 M N1 c -> (size N1 <= size N)%nat ->
    (forall j mp, N1 !! j = Some mp -> N !! j = Some mp /\ fh_key (map_local_fh mp) <> fh_key fh) ->
    runs (_ ← delete_hardlinks fh; _ ← delete_interval_files fh all_depths;
      copy ← get is_copy;
      let m := next_generation copy m (modetype m) in let fh := with_gen fh (meta_gen m) in
      r ← open_metadata_file; if negb r then mret (fh, m, false) else '(m, r) ← meta_insert m false; mret (fh, m, r)) v1 Q) as Hrest.
  { intros v1 N1 H1 Hsz Hdrop. apply runs_bind. eapply runs_delete_hardlinks; [exact H1|]. clear v1 H1. intros v1 H1.
    apply runs_bind. eapply runs_interval_files; [exact H1|done|]. clear v1 H1. intros v1 H1.
    apply runs_bind, runs_get. rewrite (proj2 (proj2 H1)). cbv zeta. set (m' := next_generation c m (modetype m)).
    apply runs_bind. eapply runs_open_metadata; [exact H1|]. clear v1 H1. intros v1 H1. cbn [negb].
    assert (metadata_wf m') as Hg' by (apply good_next; [done|apply Hwf]).
    assert (ekey m' = fh_key fh) as Ek' by (rewrite <-Ek; done).
    assert (with_status VALID_SLOT m' = m') as Ev by (cbn in Es |- *; unfold m', next_generation; cbn; by rewrite Es).
    apply runs_bind. eapply runs_meta_insert; [exact H1|lia|exact Hg'|]. clear v1 H1. intros v1 H1. rewrite Ek' in H1. cbn [merged] in H1.
    unfold merged in H1. rewrite Ev in H1. rewrite Ev. apply runs_ret. eapply HQ; [|apply lookup_insert_eq].
    split_and!; [exact H1| |apply size_insert_le|lia].
    eapply inv_drop; [exact Hi| |exact Hdrop]. split_and!; [done|done|done|apply proper_undefined]. }
  case_bool_decide as Eu.
  - apply runs_bind, runs_ret. cbn [negb]. apply (Hrest v N Ht); [lia|]. intros j mp Hj. split; [done|]. intros Ej.
    destruct (inv_master _ _ _ _ _ _ Hi Hk Hj Ej) as [_ Hu]. congruence.
  - apply runs_bind, runs_bind. eapply runs_open_mapping; [exact Ht|]. clear v Ht. intros v Ht. cbn [negb].
    eapply runs_map_delete; [exact Ht|lia|apply good_mapping; [done|done|]; unfold fh_wf, is_u32; cbn; lia|]. clear v Ht. intros v Ht. cbn [negb].
    apply (Hrest v _ Ht); [apply size_delete_le|]. intros j mp Hj. cbn in Hj. rewrite Em in Hj. by eapply no_mapping.
Qed.

Lemma leaves_same M N c v : tables v M N c -> inv M N -> leaves M N c v M N.
Proof. intros Ht Hi. split_and!; [done|done|lia|lia]. Qed.

Lemma fresh_ekey c fl d i mt u g : ekey (fresh_metadata c fl d i mt u g) = (d, i).
Proof. done. Qed.

(** [lookup_metadata] that may insert gives the metadata that is then in the table. *)
Lemma runs_lookup_insert v M N c fh meta Q : tables v M N c -> inv M N -> room M N 1 -> fh_wf fh -> metadata_wf meta ->
  is_bad (modetype meta) = false ->
  (forall v' M' N' m, leaves M N c v' M' N' -> M' !! fh_key fh = Some m -> is_bad (modetype m) = false ->
     Q v' (with_gen fh (meta_gen m), m, true)) ->
  runs (lookup_metadata fh meta true) v Q.
Proof.
  intros Ht Hi [Hr1 Hr2] Hfh Hmeta Hbad HQ. unfold lookup_metadata. destruct Hfh as (F1 & F2 & F3 & F4 & F5).
  apply runs_bind. eapply runs_open_metadata; [exact Ht|]. clear v Ht. intros v Ht. cbn [negb].
  apply runs_bind. eapply runs_meta_lookup; [exact Ht|by apply good_key|]. clear v Ht. intros v Ht. cbn [negb].
  apply runs_bind, runs_get. rewrite (proj2 (proj2 Ht)).
  pose proof (mw_head _ Hmeta) as (T1 & T2 & T3 & T4 & T5). pose proof (mw_tail _ Hmeta) as (T6 & T7 & T8 & T9 & T10).
  unfold answer. change (ekey (with_key meta (dev fh) (ino fh))) with (fh_key fh).
  assert (forall k m, valid_at k m -> k = fh_key fh -> (forall j mp, N !! j = Some mp -> fh_key (map_local_fh mp) <> k) ->
    forall v', tables v' (<[ekey m := merged false (M !! ekey m) m]> M) N c ->
    with_status VALID_SLOT m = m /\ leaves M N c v' (<[k := m]> M) N) as Hins.
  { intros k m (V1 & V2 & V3 & V4) -> Hno v' Hv. assert (with_status VALID_SLOT m = m) as Em by (destruct m; cbn in V2; cbn; by rewrite V2).
    split; [done|]. unfold merged in Hv. rewrite Em, V1 in Hv. split_and!; [exact Hv| |apply size_insert_le|lia].
    eapply inv_drop; [exact Hi|by split_and!|]. intros j mp Hj. split; [done|]. by apply (Hno j). }
  destruct (M !! fh_key fh) as [m0|] eqn:Ek; cbn [from_option id].
  - destruct (inv_valid _ _ Hi _ _ Ek) as (V1 & V2 & V3). pose proof V2 as V2'. cbn in V2'. rewrite V2', Z.eqb_refl. cbn [andb negb].
    destruct (is_bad (modetype m0)) eqn:Eb.
    + set (m := with_master (with_mode m0 (modetype meta) (uid meta) (gid meta)) (flags meta) undefined).
      assert (valid_at (fh_key fh) m) as Hv.
      { split_and!; [by rewrite <-V1|done|apply good_master; [by apply good_mode|done|apply undefined_wf]|apply proper_undefined]. }
      apply runs_bind. eapply runs_meta_insert; [exact Ht|lia|apply Hv|]. clear v Ht. intros v Ht.
      destruct (Hins _ _ Hv eq_refl) with (v' := v) as [Em Hl]; [|exact Ht|].
      { intros j mp Hj Ej. destruct (inv_backed _ _ Hi j mp Hj) as [_ (m' & B1 & _ & _ & B4)]. rewrite Ej in B1. congruence. }
      rewrite Em. cbn [negb slot_status with_mode with_master m]. rewrite V2', Z.eqb_refl. cbn [andb].
      rewrite Z.eqb_refl. cbn [andb negb]. apply runs_ret. eapply HQ; [exact Hl|apply lookup_insert_eq|done].
    + apply runs_bind, runs_ret. cbn [negb]. rewrite V2', Z.eqb_refl. cbn [andb].
      destruct (GET_MODETYPE_TYPE (modetype meta) =? GET_MODETYPE_TYPE (modetype m0)) eqn:Et; cbn [negb andb].
      * apply runs_ret. eapply HQ; [by apply leaves_same|done|done].
      * rewrite Hbad. cbn [negb]. eapply (runs_created _ _ _ _ _ m0); [exact Ht|exact Hi|done|exact Ek|exact V1|done|by apply good_mode|done|done|].
        intros v' M' N' m' Hl Hm. eapply HQ; [exact Hl|exact Hm|done].
  - cbn [slot_status with_status with_key metadata_element]. change (EMPTY_SLOT =? VALID_SLOT) with false. cbn [andb negb].
    set (m := fresh_metadata c (flags meta) (dev fh) (ino fh) (modetype meta) (uid meta) (gid meta)).
    assert (valid_at (fh_key fh) m) as Hv by (split_and!; [done|done|by apply good_fresh|apply proper_undefined]).
    apply runs_bind. eapply runs_meta_insert; [exact Ht|lia|apply Hv|]. clear v Ht. intros v Ht.
    destruct (Hins _ _ Hv eq_refl) with (v' := v) as [Em Hl]; [|exact Ht|].
    { intros j mp Hj Ej. destruct (inv_backed _ _ Hi j mp Hj) as [_ (m' & B1 & _)]. rewrite Ej in B1. congruence. }
    rewrite Em. cbn [negb slot_status fresh_metadata m modetype]. change (VALID_SLOT =? VALID_SLOT) with true.
    rewrite Z.eqb_refl. cbn [andb negb]. apply runs_ret. eapply HQ; [exact Hl|apply lookup_insert_eq|done].
Qed.

(** [get_fh_mapping_for_master_fh] finds the mapping of the master file, if its
    generation is not older than asked for; an older one is deleted. *)
Definition found (N : gmap (Z * Z) fh_mapping) (master : zfs_fh) : option fh_mapping :=
  mp ← N !! fh_key master; if gen (map_master_fh mp) <? gen master then None else Some mp.

Lemma runs_get_mapping v M N c master map Q : tables v M N c -> inv M N -> room M N 1 -> fh_wf master -> mapping_wf map ->
  (forall v' map' N', leaves M N c v' M N' ->
     match found N master with Some mp => map' = mp /\ N' = N | None => map_status map' <> VALID_SLOT /\ N' = delete (fh_key master) N end ->
     Q v' (map', true)) ->
  runs (get_fh_mapping_for_master_fh master map) v Q.
Proof.
  intros Ht Hi [Hr1 Hr2] (F1 & F2 & F3 & F4 & F5) (W1 & W2 & W3) HQ. unfold get_fh_mapping_for_master_fh, found in *. pose proof W2 as (W21 & W22 & W23 & W24 & W25).
  apply runs_bind. eapply runs_open_mapping; [exact Ht|]. clear v Ht. intros v Ht. cbn [negb].
  apply runs_bind. eapply runs_map_lookup; [exact Ht|by apply good_mapping|]. clear v Ht. intros v Ht. cbn [negb].
  unfold answer. match goal with |- context [N !! ekey ?x] => change (ekey x) with (fh_key master) end.
  destruct (N !! fh_key master) as [mp|] eqn:Ek; cbn [from_option id mbind option_bind] in *.
  - destruct (inv_key _ _ Hi _ _ Ek) as (V1 & V2 & V3). pose proof V2 as V2'. cbn in V2'. rewrite V2', Z.eqb_refl. cbn [andb].
    destruct (gen (map_master_fh mp) <? gen master) eqn:Eg.
    + apply runs_bind, runs_bind. eapply runs_map_delete; [exact Ht|lia|exact V3|]. clear v Ht. intros v Ht.
      apply runs_ret. cbn [negb map_status with_status mapping_element]. change (DELETED_SLOT =? VALID_SLOT) with false. cbv iota.
      apply runs_ret. eapply (HQ _ _ (delete (fh_key master) N)); [|split; [done|done]]. split_and!; [by rewrite <-V1| |lia|].
      * destruct Hi as [I1 I2 I3 I4]. split; [done|done| |]; intros j x [_ Hj]%lookup_delete_Some; [by apply I3|by eapply I4].
      * pose proof (size_delete_le N (fh_key master)). lia.
    + apply runs_bind, runs_ret. cbn [negb]. rewrite V2', Z.eqb_refl.
      apply runs_bind. eapply runs_open_metadata; [exact Ht|]. clear v Ht. intros v Ht. cbn [negb].
      destruct (inv_backed _ _ Hi _ _ Ek) as [_ (m & B1 & B2 & B3 & B4)]. pose proof V3 as (_ & _ & L1 & L2 & L3 & L4 & L5).
      apply runs_bind. eapply runs_meta_lookup; [exact Ht|by apply good_key; [apply good_blank|done|done]|]. clear v Ht. intros v Ht. cbn [negb].
      unfold answer. match goal with |- context [M !! ekey ?x] => change (ekey x) with (fh_key (map_local_fh mp)) end.
      rewrite B1. cbn [from_option id]. destruct (inv_valid _ _ Hi _ _ B1) as (_ & V4 & _). cbn in V4. rewrite V4, Z.eqb_refl, B2, Z.eqb_refl.
      cbn [negb orb]. apply runs_ret. eapply (HQ _ _ N); [by apply leaves_same|done].
  - apply runs_bind, runs_ret. cbn [negb andb with_status mapping_element map_status]. change (EMPTY_SLOT =? VALID_SLOT) with false. cbv iota.
    cbn [andb]. apply runs_ret. eapply (HQ _ _ (delete (fh_key master) N)); [|split; [done|done]]. rewrite delete_id by done. by apply leaves_same.
Qed.

(** ** Open files *)

(** The metadata in memory are those of the table, the local handle is theirs. *)
Record synced (M : gmap (Z * Z) metadata) (fh : internal_fh) : Prop := {
  sy_key : ekey (if_meta fh) = fh_key (if_local fh);
  sy_gen : gen (if_local fh) = meta_gen (if_meta fh);
  sy_local : fh_wf (if_local fh);
  sy_good : metadata_wf (if_meta fh);
  sy_valid : slot_status (if_meta fh) = VALID_SLOT;
  sy_bad : is_bad (modetype (if_meta fh)) = false;
  sy_tab : exists m, M !! fh_key (if_local fh) = Some m /\ meta_gen m = meta_gen (if_meta fh) /\ master_fh m = master_fh (if_meta fh)
}.

Lemma runs_flush v M N c m Q : tables v M N c -> Z.of_nat (size M) < 2 ^ 29 -> egood m ->
  slot_status m = VALID_SLOT -> (forall v', tables v' (<[ekey m := merged true (M !! ekey m) m]> M) N c -> Q v' (m, true)) ->
  runs (flush_metadata m) v Q.
Proof.
  intros Ht Hs Hg Hv HQ. unfold flush_metadata. apply runs_bind. eapply runs_open_metadata; [exact Ht|]. clear v Ht. intros v Ht. cbn [negb].
  eapply runs_meta_insert; [exact Ht|exact Hs|exact Hg|]. clear v Ht. intros v Ht.
  assert (with_status VALID_SLOT m = m) as -> by (destruct m; cbn in *; by subst). by apply HQ.
Qed.

Lemma merged_valid m m0 k : ekey m = k -> metadata_wf m -> metadata_wf m0 -> proper (master_fh m) -> valid_at k (merged true (Some m0) m).
Proof.
  intros Hk H1 H2 Hp. split_and!; [exact Hk|done| |exact Hp]. apply good_status; [unfold is_u32, VALID_SLOT; lia|]. by apply good_base.
Qed.

(** Flushing metadata whose generation and master did not change. *)
Lemma runs_flush_keep v M N c fh m ver Q : tables v M N c -> inv M N -> room M N 1 -> synced M fh ->
  ekey m = ekey (if_meta fh) -> meta_gen m = meta_gen (if_meta fh) -> master_fh m = master_fh (if_meta fh) ->
  slot_status m = VALID_SLOT -> is_bad (modetype m) = false -> metadata_wf m ->
  (forall v' M', leaves M N c v' M' N -> synced M' (MkIfh (if_local fh) m ver) -> Q v' (m, true)) -> runs (flush_metadata m) v Q.
Proof.
  intros Ht Hi [Hr1 Hr2] [S1 S2 S3 S4 S5 S6 (m0 & T1 & T2 & T3)] Ek Eg Em Es Eb Hg HQ.
  eapply runs_flush; [exact Ht|lia|exact Hg|exact Es|]. clear v Ht. intros v Ht. rewrite Ek, S1, T1 in Ht.
  destruct (inv_valid _ _ Hi _ _ T1) as (_ & _ & V3).
  assert (valid_at (fh_key (if_local fh)) (merged true (Some m0) m)) as Hv.
  { apply merged_valid; [congruence|done|done|]. rewrite Em, <-T3. by apply (inv_proper _ _ Hi _ _ T1). }
  eapply HQ.
  - split_and!; [exact Ht| |apply size_insert_le|lia]. apply inv_keep; [done|exact Hv|]. intros m1 Hm1.
    assert (m1 = m0) as -> by congruence. split_and!; [cbn; congruence|cbn; congruence|exact Eb].
  - split; cbn [if_local if_meta]; [by rewrite Ek|congruence|done|done|done|done|]. eexists. rewrite lookup_insert_eq.
    split; [done|]. split; [done|done].
Qed.

Lemma fh_eq_spec a b : ZFS_FH_EQ a b = bool_decide (a = b).
Proof.
  symmetry. case_bool_decide as E; unfold ZFS_FH_EQ.
  - subst. by rewrite !Z.eqb_refl.
  - symmetry. apply not_true_is_false. rewrite !andb_true_iff, !Z.eqb_eq. intros ((((E1 & E2) & E3) & E4) & E5). apply E.
    destruct a, b; cbn in *; congruence.
Qed.

Lemma same_key (a b : zfs_fh) : (dev a =? dev b) && (ino a =? ino b) = bool_decide (fh_key a = fh_key b).
Proof.
  symmetry. unfold fh_key. case_bool_decide as E.
  - injection E as E1 E2. by rewrite E1, E2, !Z.eqb_refl.
  - symmetry. apply not_true_is_false. rewrite andb_true_iff, !Z.eqb_eq. intros [E1 E2]. apply E. congruence.
Qed.

(** After [set_metadata_master_fh] the mapping of the new master leads to the file. *)
Lemma runs_set_master v M N c fh master Q : tables v M N c -> inv M N -> room M N 1 -> synced M fh -> fh_wf master -> proper master ->
  (forall v' M' N' fh', leaves M N c v' M' N' -> synced M' fh' -> if_local fh' = if_local fh -> master_fh (if_meta fh') = master ->
     (master <> master_fh (if_meta fh) -> master <> undefined -> N' !! fh_key master = Some (MkMapping VALID_SLOT master (if_local fh))) ->
     (forall j, j <> fh_key (if_local fh) -> M' !! j = M !! j) -> Q v' (fh', true)) ->
  runs (set_metadata_master_fh fh master) v Q.
Proof.
  intros Ht Hi [Hr1 Hr2] Hsy Hm Hp HQ. pose proof Hsy as [S1 S2 S3 S4 S5 S6 (m0 & T1 & T2 & T3)].
  unfold set_metadata_master_fh. rewrite fh_eq_spec. case_bool_decide as Ee.
  { apply runs_ret. eapply HQ; [by apply leaves_same|exact Hsy|done|done|congruence|done]. }
  set (k := fh_key (if_local fh)) in *. set (old := master_fh (if_meta fh)) in *.
  destruct (inv_valid _ _ Hi _ _ T1) as (_ & _ & V3).
  set (mp := MkMapping VALID_SLOT master (if_local fh)).
  assert (mapping_wf mp) as Hmp by (by apply good_mapping).
  assert (mapping_wf (mapping_of old)) as Hmo by (apply good_mapping_of, (mw_fh _ S4)).
  set (m := with_master (if_meta fh) (flags (if_meta fh)) master).
  assert (metadata_wf m) as Hg by (apply good_master; [done|apply (mw_head _ S4)|done]).
  assert (valid_at k (merged true (Some m0) m)) as Hv by (apply merged_valid; [exact S1|done|done|exact Hp]).
  (* the end: the mappings [N1] are those of [N] without the old one, with the new one if any *)
  assert (forall v1 (N1 : gmap (Z * Z) fh_mapping), tables v1 M N1 c ->
    N1 = (if decide (master = undefined) then delete (fh_key old) N else <[fh_key master := mp]> (delete (fh_key old) N)) ->
    runs ('(m, r) ← flush_metadata m; mret (MkIfh (if_local fh) m (if_version fh), r)) v1 Q) as Hend.
  { intros v1 N1 H1 EN. apply runs_bind. eapply runs_flush; [exact H1|lia|exact Hg|exact S5|]. clear v1 H1. intros v1 H1.
    assert (ekey m = k) as Ekm by exact S1. rewrite Ekm, T1 in H1. apply runs_ret.
    assert (inv (<[k := merged true (Some m0) m]> M) (delete (fh_key old) N)) as Hi1.
    { eapply inv_drop; [exact Hi|exact Hv|]. intros j x Hj. rewrite <-T3 in Hj. by eapply no_mapping. }
    eapply (HQ v1 _ N1); [|split; cbn [if_local if_meta]; try done|done|done| |].
    - subst N1. pose proof (size_delete_le N (fh_key old)). destruct (decide (master = undefined)) as [Eu|Hu].
      + split_and!; [exact H1|exact Hi1|apply size_insert_le|lia].
      + split_and!; [exact H1| |apply size_insert_le|pose proof (size_insert_le (delete (fh_key old) N) (fh_key master) mp); lia].
        apply (inv_add _ _ mp Hi1); [done|done|done|]. exists (merged true (Some m0) m). cbn [map_local_fh mp]. fold k.
        rewrite lookup_insert_eq. split_and!; [done|cbn; congruence|done|exact S6].
    - exists (merged true (Some m0) m). fold k. rewrite lookup_insert_eq. done.
    - intros _ Hu. subst N1. rewrite decide_False by done. apply lookup_insert_eq.
    - intros j Hj. by apply lookup_insert_ne. }
  apply runs_bind. eapply runs_open_mapping; [exact Ht|]. clear v Ht. intros v Ht. cbn [negb]. rewrite same_key. case_bool_decide as Ek.
  - assert (master <> undefined) as Hu.
    { intros ->. assert (proper old) as [Eo|Hne] by (rewrite <-T3; by apply (inv_proper _ _ Hi _ _ T1)); [congruence|by apply Hne]. }
    apply runs_bind. eapply (runs_map_insert _ _ _ _ mp); [exact Ht|lia|exact Hmp|done|]. clear v Ht. intros v Ht. cbn [negb].
    apply (Hend v _ Ht). rewrite decide_False by done. rewrite Ek. by rewrite insert_delete_eq.
  - apply runs_bind, runs_bind. eapply runs_map_delete; [exact Ht|lia|exact Hmo|]. clear v Ht. intros v Ht. cbn [negb].
    change (ekey (mapping_of old)) with (fh_key old) in Ht. pose proof (size_delete_le N (fh_key old)).
    rewrite (undefined_spec _ Hm). case_bool_decide as Eu.
    + apply runs_ret. cbn [negb]. apply (Hend v _ Ht). by rewrite decide_True.
    + eapply (runs_map_insert _ _ _ _ mp); [exact Ht|lia|exact Hmp|done|]. clear v Ht. intros v Ht. cbn [negb].
      apply (Hend v _ Ht). by rewrite decide_False.
Qed.

(** [delete_metadata] without a hard link. *)
Lemma runs_forget v M N c fh m Q : tables v M N c -> inv M N -> room M N 1 -> is_u32 (dev fh) -> is_u32 (ino fh) -> metadata_wf m ->
  (forall v' m' M' N', leaves M N c v' M' N' ->
     (forall m0, M !! fh_key fh = Some m0 -> master_fh m0 <> undefined -> N' = delete (fh_key (master_fh m0)) N) ->
     (forall j, j <> fh_key fh -> M' !! j = M !! j) -> Q v' (m', true)) ->
  runs (forget_metadata fh m) v Q.
Proof.
  intros Ht Hi [Hr1 Hr2] Hd1 Hd2 Hg HQ. unfold forget_metadata.
  apply runs_bind. eapply runs_interval_files; [exact Ht|done|]. clear v Ht. intros v Ht.
  apply runs_bind. eapply runs_open_metadata; [exact Ht|]. clear v Ht. intros v Ht. cbn [negb].
  apply runs_bind. eapply runs_meta_lookup; [exact Ht|by apply good_key|]. clear v Ht. intros v Ht. cbn [negb].
  unfold answer. match goal with |- context [M !! ekey ?x] => change (ekey x) with (fh_key fh) end.
  set (x := from_option _ _ _). set (m1 := if slot_status x =? VALID_SLOT then x else _).
  assert (ekey m1 = fh_key fh /\ slot_status m1 = VALID_SLOT /\ metadata_wf m1 /\ match M !! fh_key fh with Some m0 => m1 = m0 | None => master_fh m1 = undefined end)
    as (E1 & E2 & E3 & E4).
  { subst m1 x. destruct (M !! fh_key fh) as [m0|] eqn:Ek; cbn [from_option id].
    - destruct (inv_valid _ _ Hi _ _ Ek) as (V1 & V2 & V3). pose proof V2 as V2'. cbn in V2'. by rewrite V2', Z.eqb_refl.
    - cbn [slot_status with_status metadata_element with_key]. change (EMPTY_SLOT =? VALID_SLOT) with false. cbv iota. split_and!; [done|done| |done].
      destruct Hg as [(?&?&?&?&?) ? [] (?&?&?&?&?) ?]. split; cbn; unfold VALID_SLOT; unfold is_u32 in *; try done. }
  clearbody m1. clear x. apply runs_bind, runs_get. rewrite (proj2 (proj2 Ht)).
  set (m2 := next_generation c m1 (GET_MODETYPE 0 (ftype_number FT_BAD))).
  assert (valid_at (fh_key fh) m2) as Hv.
  { split_and!; [exact E1|exact E2|apply good_next; [done|unfold is_u32; vm_compute; split; congruence]|apply proper_undefined]. }
  apply runs_bind. eapply runs_meta_insert; [exact Ht|lia|apply Hv|]. clear v Ht. intros v Ht. rewrite (proj1 Hv) in Ht.
  assert (with_status VALID_SLOT m2 = m2) as Ew by (unfold m2, next_generation; cbn; by rewrite E2).
  unfold merged in Ht. rewrite Ew in Ht. rewrite Ew. cbn [negb]. rewrite (undefined_spec _ (mw_fh _ E3)). case_bool_decide as Eu.
  - apply runs_ret. eapply HQ; [split_and!; [exact Ht| |apply size_insert_le|lia]| |intros j Hj; by apply lookup_insert_ne].
    + eapply inv_drop; [exact Hi|exact Hv|]. intros j mp Hj. split; [done|]. intros Ej.
      destruct (inv_backed _ _ Hi _ _ Hj) as [Hu (m' & B1 & B2 & B3 & _)]. rewrite Ej in B1. rewrite B1 in E4. subst m1. congruence.
    + intros m0 Hm0 Hu. rewrite Hm0 in E4. congruence.
  - apply runs_bind. unfold delete_fh_mapping. apply runs_bind. eapply runs_open_mapping; [exact Ht|]. clear v Ht. intros v Ht. cbn [negb].
    eapply runs_map_delete; [exact Ht|lia| |].
    { apply good_mapping_of, (mw_fh _ E3). }
    clear v Ht. intros v Ht. change (ekey (mapping_of (master_fh m1))) with (fh_key (master_fh m1)) in Ht. apply runs_ret.
    destruct (M !! fh_key fh) as [m0|] eqn:Ek; [subst m1|congruence].
    eapply HQ; [split_and!; [exact Ht| |apply size_insert_le|pose proof (size_delete_le N (fh_key (master_fh m0))); lia]| |intros j Hj; by apply lookup_insert_ne].
    + eapply inv_drop; [exact Hi|exact Hv|]. intros j mp Hj. by eapply no_mapping.
    + intros m3 [= <-] _. done.
Qed.

(** ** Sequences of operations *)

(** [get_metadata] as it is used when a file is opened. *)
Definition open_ifh (fh : zfs_fh) (meta : metadata) : vproc (internal_fh * bool) :=
  '(fh, m, r) ← get_metadata fh meta; mret (MkIfh fh m (local_version m), r).

Inductive op : Type :=
  | OpGet (fh : zfs_fh) (meta : metadata)
  | OpMapping (master : zfs_fh)
  | OpMaster (fh : zfs_fh) (meta : metadata) (master : zfs_fh)
  | OpFlags (fh : zfs_fh) (meta : metadata) (fl : Z)
  | OpVersions (fh : zfs_fh) (meta : metadata) (fl lv mv : Z)
  | OpInc (fh : zfs_fh) (meta : metadata) (modified : bool)
  | OpDelete (d i : Z) (meta : metadata).

Definition on_file (fh : zfs_fh) (meta : metadata) (f : internal_fh -> vproc (internal_fh * bool)) : vproc bool :=
  '(ifh, r) ← open_ifh fh meta;
  if negb r then mret false else '(_, r) ← f ifh; mret r.

Definition run_op (o : op) : vproc bool :=
  match o with
  | OpGet fh meta => on_file fh meta (fun ifh => mret (ifh, true))
  | OpMapping master => '(_, r) ← get_fh_mapping_for_master_fh master (mapping_of master); mret r
  | OpMaster fh meta master => on_file fh meta (fun ifh => set_metadata_master_fh ifh master)
  | OpFlags fh meta fl => on_file fh meta (fun ifh => set_metadata_flags ifh fl)
  | OpVersions fh meta fl lv mv => on_file fh meta (fun ifh => set_metadata ifh fl lv mv)
  | OpInc fh meta modified => on_file fh meta (fun ifh => if modified then inc_local_version_and_modified ifh else inc_local_version ifh)
  | OpDelete d i meta => '(_, r) ← delete_metadata meta d i 0 0 None; mret r
  end.

Fixpoint run_ops (ops : list op) : vproc (list bool) :=
  match ops with
  | [] => mret []
  | o :: ops => r ← run_op o; rs ← run_ops ops; mret (r :: rs)
  end.

Definition known_file (fh : zfs_fh) (meta : metadata) : Prop := fh_wf fh /\ metadata_wf meta /\ is_bad (modetype meta) = false.

Definition op_ok (o : op) : Prop :=
  match o with
  | OpGet fh meta | OpInc fh meta _ => known_file fh meta
  | OpMapping master => fh_wf master
  | OpMaster fh meta master => known_file fh meta /\ fh_wf master /\ proper master
  | OpFlags fh meta fl => known_file fh meta /\ is_u32 fl
  | OpVersions fh meta fl lv mv => known_file fh meta /\ is_u32 fl /\ is_u64 lv /\ is_u64 mv
  | OpDelete d i meta => is_u32 d /\ is_u32 i /\ metadata_wf meta
  end.

(** What at most two changes leave. *)
Definition leaves2 (M : gmap (Z * Z) metadata) (N : gmap (Z * Z) fh_mapping) (c : bool) (v : volume) M' N' : Prop :=
  tables v M' N' c /\ inv M' N' /\ (size M' <= 2 + size M)%nat /\ (size N' <= 2 + size N)%nat.

Lemma leaves_leaves2 M N c v M' N' : leaves M N c v M' N' -> leaves2 M N c v M' N'.
Proof. intros (? & ? & ? & ?). split_and!; [done|done|lia|lia]. Qed.

Lemma leaves_trans M N c v1 M1 N1 v2 M2 N2 : leaves M N c v1 M1 N1 -> leaves M1 N1 c v2 M2 N2 -> leaves2 M N c v2 M2 N2.
Proof. intros (? & ? & ? & ?) (? & ? & ? & ?). split_and!; [done|done|lia|lia]. Qed.

Lemma with_gen_wf fh g : fh_wf fh -> is_u32 g -> fh_wf (with_gen fh g).
Proof. intros (H1 & H2 & H3 & H4 & H5) Hg. by split_and!. Qed.

Lemma lor_lt n a b : 0 < n -> 0 <= a < 2 ^ n -> 0 <= b < 2 ^ n -> Z.lor a b < 2 ^ n.
Proof.
  intros Hn Ha Hb. pose proof (Z.pow_pos_nonneg 2 n ltac:(lia) ltac:(lia)).
  assert (0 <= Z.lor a b) as H0 by (apply Z.lor_nonneg; lia).
  destruct (Z.eq_dec (Z.lor a b) 0) as [->|Hne]; [done|]. apply Z.log2_lt_pow2; [lia|]. rewrite Z.log2_lor by lia.
  assert (forall x, 0 <= x < 2 ^ n -> Z.log2 x < n) as Hl; [|by apply Z.max_lub_lt; apply Hl].
  intros x Hx. destruct (Z.eq_dec x 0) as [->|]; [done|]. apply Z.log2_lt_pow2; lia.
Qed.

Lemma runs_on_file v M N c fh meta f : tables v M N c -> inv M N -> room M N 2 -> known_file fh meta ->
  (forall v1 M1 N1 ifh, tables v1 M1 N1 c -> inv M1 N1 -> room M1 N1 1 -> synced M1 ifh ->
     runs (f ifh) v1 (fun v2 '(_, r) => r = true /\ exists M2 N2, leaves M1 N1 c v2 M2 N2)) ->
  runs (on_file fh meta f) v (fun v2 r => r = true /\ exists M2 N2, leaves2 M N c v2 M2 N2).
Proof.
  intros Ht Hi [Hr1 Hr2] (K1 & K2 & K3) Hf. unfold on_file, open_ifh, get_metadata. apply runs_bind, runs_bind, runs_bind.
  eapply runs_lookup_insert; [exact Ht|exact Hi|split; lia|done|done|done|]. intros v1 M1 N1 m Hl Hm Hb. cbn [negb].
  apply runs_ret, runs_ret. cbn [negb]. apply runs_bind. pose proof Hl as (Ht1 & Hi1 & Hs1 & Hs2).
  destruct (inv_valid _ _ Hi1 _ _ Hm) as (V1 & V2 & V3). eapply runs_weaken; [apply (Hf v1 M1 N1); [done|done|split; lia|]|].
  - split; cbn [if_local if_meta]; [exact V1|done|apply with_gen_wf; [done|apply (mw_head _ V3)]|done|exact V2|done|]. by exists m.
  - intros v2 [ifh r] [-> (M2 & N2 & Hl2)]. apply runs_ret. split; [done|]. exists M2, N2. by eapply leaves_trans.
Qed.

Lemma run_op_ok v M N c o : tables v M N c -> inv M N -> room M N 2 -> op_ok o ->
  runs (run_op o) v (fun v' r => r = true /\ exists M' N', leaves2 M N c v' M' N').
Proof.
  intros Ht Hi Hr Ho. destruct o as [fh meta|master|fh meta master|fh meta fl|fh meta fl lv mv|fh meta b|d i meta]; cbn [run_op op_ok] in *.
  - eapply runs_on_file; [done..|]. intros v1 M1 N1 ifh H1 H2 H3 H4. apply runs_ret. split; [done|]. exists M1, N1. by apply leaves_same.
  - destruct Hr as [Hr1 Hr2]. apply runs_bind. eapply runs_get_mapping; [exact Ht|exact Hi|split; lia|done|by apply good_mapping_of|].
    intros v' map' N' Hl _. apply runs_ret. split; [done|]. exists M, N'. by apply leaves_leaves2.
  - destruct Ho as (K & Hm & Hp). eapply runs_on_file; [done..|]. intros v1 M1 N1 ifh H1 H2 H3 H4.
    eapply runs_set_master; [done..|]. intros v2 M2 N2 fh2 Hl _ _ _ _ _. split; [done|]. by exists M2, N2.
  - destruct Ho as (K & Hfl). eapply runs_on_file; [done..|]. intros v1 M1 N1 ifh H1 H2 H3 H4. unfold set_metadata_flags.
    destruct (flags (if_meta ifh) =? fl); [apply runs_ret; split; [done|]; exists M1, N1; by apply leaves_same|].
    pose proof (sy_good _ _ H4) as Hg. pose proof (mw_versions _ Hg) as [? ?]. apply runs_bind.
    eapply (runs_flush_keep _ _ _ _ ifh _ 0); [done..|apply (sy_valid _ _ H4)|apply (sy_bad _ _ H4)|by apply good_versions|].
    intros v2 M2 Hl _. apply runs_ret. split; [done|]. by exists M2, N1.
  - destruct Ho as (K & Hfl & Hlv & Hmv). eapply runs_on_file; [done..|]. intros v1 M1 N1 ifh H1 H2 H3 H4. unfold set_metadata.
    apply runs_bind, runs_get. rewrite (proj2 (proj2 H1)). cbv zeta.
    match goal with |- context [if negb ?b then _ else _] => destruct b; cbn [negb] end.
    2: { apply runs_ret. split; [done|]. exists M1, N1. by apply leaves_same. }
    pose proof (sy_good _ _ H4) as Hg. apply runs_bind.
    eapply (runs_flush_keep _ _ _ _ ifh _ 0); [done..|apply (sy_valid _ _ H4)|apply (sy_bad _ _ H4)|apply good_versions; [done|done|done|by destruct c]|].
    intros v2 M2 Hl _. apply runs_ret. split; [done|]. by exists M2, N1.
  - eapply runs_on_file; [done..|]. intros v1 M1 N1 ifh H1 H2 H3 H4.
    assert (forall extra, 0 <= extra < 2 ^ 32 -> runs (inc_local_version_flags ifh extra) v1
      (fun v2 '(_, r) => r = true /\ exists M2 N2, leaves M1 N1 c v2 M2 N2)) as Hinc.
    { intros extra He. unfold inc_local_version_flags. apply runs_bind, runs_get. rewrite (proj2 (proj2 H1)). cbv zeta.
      pose proof (sy_good _ _ H4) as Hg. pose proof (mw_versions _ Hg) as [? ?]. pose proof (mw_head _ Hg) as (_ & Hfl & _).
      pose proof (wrap_range 64 (local_version (if_meta ifh) + 1)). apply runs_bind.
      eapply (runs_flush_keep _ _ _ _ ifh _ 0); [done..|apply (sy_valid _ _ H4)|apply (sy_bad _ _ H4)| |].
      - apply good_versions; [done| |unfold is_u64; lia|destruct c; [done|unfold is_u64; lia]].
        unfold is_u32 in *. split; [apply Z.lor_nonneg; lia|]. by apply lor_lt; [|lia|].
      - intros v2 M2 Hl _. apply runs_ret. split; [done|]. by exists M2, N1. }
    destruct b; apply Hinc; done.
  - destruct Ho as (Hd & Hi' & Hm). unfold delete_metadata. destruct Hr as [Hr1 Hr2]. apply runs_bind.
    eapply runs_forget; [exact Ht|exact Hi|split; lia|done|done|done|]. intros v' m' M' N' Hl _ _. apply runs_ret. split; [done|].
    exists M', N'. by apply leaves_leaves2.
Qed.

Lemma run_ops_ok ops : forall v M N c, tables v M N c -> inv M N -> room M N (2 * Z.of_nat (length ops)) -> Forall op_ok ops ->
  runs (run_ops ops) v (fun v' rs => Forall (eq true) rs /\ exists M' N', tables v' M' N' c /\ inv M' N' /\
    (size M' <= size M + 2 * length ops)%nat /\ (size N' <= size N + 2 * length ops)%nat).
Proof.
  induction ops as [|o ops IH]; intros v M N c Ht Hi [Hr1 Hr2] Hops; cbn [run_ops].
  - apply runs_ret. split; [done|]. exists M, N. split_and!; [done|done|lia|lia].
  - apply Forall_cons in Hops as [Ho Hops]. cbn [length] in *. apply runs_bind.
    eapply runs_weaken; [apply (run_op_ok v M N c o); [done|done|split; lia|done]|].
    intros v1 r [-> (M1 & N1 & Ht1 & Hi1 & Hs1 & Hs2)]. apply runs_bind.
    eapply runs_weaken; [apply (IH v1 M1 N1 c); [done|done|split; lia|done]|].
    intros v2 rs [Hrs (M2 & N2 & Ht2 & Hi2 & Hs3 & Hs4)]. apply runs_ret. split; [by constructor|].
    exists M2, N2. split_and!; [done|done|lia|lia].
Qed.

(** ** Properties *)

(** C25. Whatever is done with the files of a volume (opening, changing flags, versions or
    the master of a file, deleting, looking up mappings), as long as no system
    call fails every operation succeeds, and the local file to which
    [get_fh_mapping_for_master_fh] then leads for a master file exists, has the
    generation of the mapping, and names this master file, in a
    generation not older than asked for, in its metadata. *)
Theorem mapping_leads_to_its_file v M N c ops master : tables v M N c -> inv M N ->
  room M N (2 * Z.of_nat (length ops) + 1) -> Forall op_ok ops -> fh_wf master ->
  exists v' rs, run_ops ops v = Ok (v', rs) /\ Forall (eq true) rs /\
  exists v'' map M' N', get_fh_mapping_for_master_fh master (mapping_of master) v' = Ok (v'', (map, true)) /\ tables v'' M' N' c /\
    (map_status map = VALID_SLOT -> backed M' map /\ fh_key (map_master_fh map) = fh_key master /\ gen master <= gen (map_master_fh map)).
Proof.
  intros Ht Hi [Hr1 Hr2] Hops Hm.
  destruct (run_ops_ok ops v M N c Ht Hi ltac:(split; lia) Hops) as (v' & rs & E & Hrs & M' & N' & Ht' & Hi' & Hs1 & Hs2).
  exists v', rs. split; [exact E|]. split; [exact Hrs|].
  assert (runs (get_fh_mapping_for_master_fh master (mapping_of master)) v' (fun v'' '(map, r) => r = true /\ exists N'', tables v'' M' N'' c /\
    (map_status map = VALID_SLOT -> backed M' map /\ fh_key (map_master_fh map) = fh_key master /\ gen master <= gen (map_master_fh map))))
    as (v'' & [map r] & E' & -> & N'' & Ht'' & Hv).
  { eapply runs_get_mapping; [exact Ht'|exact Hi'|split; lia|done|by apply good_mapping_of|].
    intros v'' map' N'' (Hl & _) Hf. split; [done|]. exists N''. split; [exact Hl|]. unfold found in Hf.
    destruct (N' !! fh_key master) as [mp|] eqn:Ek; cbn [mbind option_bind] in Hf; [|intros; by destruct Hf].
    destruct (gen (map_master_fh mp) <? gen master) eqn:Eg; [intros; by destruct Hf|]. destruct Hf as [-> ->]. intros _.
    split; [apply (inv_backed _ _ Hi' _ _ Ek)|]. split; [apply (inv_key _ _ Hi' _ _ Ek)|]. by apply Z.ltb_ge. }
  exists v'', map, M', N''. by split_and!.
Qed.

(** After [set_metadata_master_fh] made a master file that of a local file,
    [get_fh_mapping_for_master_fh] leads from the master file to the local file,
    and the metadata of the local file name the master file. *)
Theorem mapping_is_found v M N c fh master : tables v M N c -> inv M N -> room M N 2 -> synced M fh -> fh_wf master ->
  proper master -> master <> undefined -> master_fh (if_meta fh) <> master ->
  exists v1 fh' v2 M' N', set_metadata_master_fh fh master v = Ok (v1, (fh', true)) /\
    get_fh_mapping_for_master_fh master (mapping_of master) v1 = Ok (v2, (MkMapping VALID_SLOT master (if_local fh), true)) /\
    tables v2 M' N' c /\ inv M' N' /\ synced M' fh' /\ master_fh (if_meta fh') = master.
Proof.
  intros Ht Hi [Hr1 Hr2] Hsy Hm Hp Hu Hne.
  assert (runs (set_metadata_master_fh fh master) v (fun v1 '(fh', r) => r = true /\ exists v2 M' N',
    get_fh_mapping_for_master_fh master (mapping_of master) v1 = Ok (v2, (MkMapping VALID_SLOT master (if_local fh), true)) /\
    tables v2 M' N' c /\ inv M' N' /\ synced M' fh' /\ master_fh (if_meta fh') = master))
    as (v1 & [fh' r] & E & -> & v2 & M' & N' & H); [|by exists v1, fh', v2, M', N'].
  eapply runs_set_master; [exact Ht|exact Hi|split; lia|done..|]. intros v1 M1 N1 fh' (Ht1 & Hi1 & Hs1 & Hs2) Hsy1 El Em Hf _. split; [done|].
  assert (runs (get_fh_mapping_for_master_fh master (mapping_of master)) v1 (fun v2 '(map, r) => r = true /\
    map = MkMapping VALID_SLOT master (if_local fh) /\ exists N2, tables v2 M1 N2 c /\ inv M1 N2)) as (v2 & [map r] & E & -> & -> & N2 & H2 & H3).
  { eapply runs_get_mapping; [exact Ht1|exact Hi1|split; lia|done|by apply good_mapping_of|]. intros v2 map N2 (L1 & L2 & _) Hfd. split; [done|].
    unfold found in Hfd. rewrite (Hf (not_eq_sym Hne) Hu) in Hfd. cbn [mbind option_bind map_master_fh] in Hfd.
    rewrite Z.ltb_irrefl in Hfd. destruct Hfd as [-> ->]. split; [done|]. by exists N1. }
  exists v2, M1, N2. by split_and!.
Qed.

(** C28. The mapping of a master file is deleted by device and inode alone.  When a
    master file was replaced by one with the same inode and a higher generation,
    its mapping given up, and another local file made its copy, deleting the
    metadata of the old local file deletes the new mapping: the new copy
    still names its master file, but is not found any more. *)
Theorem stale_master_loses_mapping v M N c fh1 m1 fh2 master meta : tables v M N c -> inv M N -> room M N 3 ->
  M !! fh_key fh1 = Some m1 -> master_fh m1 <> undefined -> fh_key (master_fh m1) = fh_key master -> gen (master_fh m1) < gen master ->
  synced M fh2 -> fh_key (if_local fh2) <> fh_key fh1 -> master_fh (if_meta fh2) <> master ->
  fh_wf fh1 -> fh_wf master -> proper master -> master <> undefined -> metadata_wf meta ->
  exists v1 map v2 fh2' v3 meta' M' N' m,
    get_fh_mapping_for_master_fh master (mapping_of master) v = Ok (v1, (map, true)) /\
    set_metadata_master_fh fh2 master v1 = Ok (v2, (fh2', true)) /\
    delete_metadata meta (dev fh1) (ino fh1) 0 0 None v2 = Ok (v3, (meta', true)) /\
    tables v3 M' N' c /\ M' !! fh_key (if_local fh2) = Some m /\ master_fh m = master /\ N' !! fh_key master = None.
Proof.
  intros Ht Hi [Hr1 Hr2] Hk1 Hu1 Hkey Hgen Hsy Hne2 Hnm Hfh1 Hm Hp Hu Hmeta.
  assert (runs (get_fh_mapping_for_master_fh master (mapping_of master)) v (fun v1 '(map, r) => r = true /\
    exists N1, leaves M N c v1 M N1)) as (v1 & [map r] & E1 & -> & N1 & Ht1 & Hi1 & _ & Hs1).
  { eapply runs_get_mapping; [exact Ht|exact Hi|split; lia|done|by apply good_mapping_of|]. intros v1 map N1 Hl _. split; [done|]. by exists N1. }
  assert (runs (set_metadata_master_fh fh2 master) v1 (fun v2 '(fh', r) => r = true /\ exists M2 N2, leaves M N1 c v2 M2 N2 /\
    M2 !! fh_key fh1 = Some m1 /\ exists m, M2 !! fh_key (if_local fh2) = Some m /\ master_fh m = master))
    as (v2 & [fh2' r] & E2 & -> & M2 & N2 & (Ht2 & Hi2 & Hs2 & Hs3) & Hk2 & m & Hm1 & Hm2).
  { eapply runs_set_master; [exact Ht1|exact Hi1|split; lia|done..|]. intros v2 M2 N2 fh' Hl Hsy' El Em _ Hfr. split; [done|].
    exists M2, N2. split; [done|]. split; [rewrite Hfr by done; done|]. destruct (sy_tab _ _ Hsy') as (m & T1 & T2 & T3).
    exists m. rewrite El in T1. split; [done|congruence]. }
  assert (runs (delete_metadata meta (dev fh1) (ino fh1) 0 0 None) v2 (fun v3 '(meta', r) => r = true /\ exists M3 N3, tables v3 M3 N3 c /\
    N3 = delete (fh_key (master_fh m1)) N2 /\ M3 !! fh_key (if_local fh2) = Some m)) as (v3 & [meta' r] & E3 & -> & M3 & N3 & Ht3 & -> & Hm3).
  { unfold delete_metadata. destruct Hfh1 as (_ & _ & ? & ? & _). eapply runs_forget; [exact Ht2|exact Hi2|split; lia|done|done|done|].
    intros v3 meta' M3 N3 (Ht3 & _) Hd Hfr. split; [done|]. exists M3, N3. split; [done|].
    split; [by apply Hd|]. rewrite Hfr; [done|]. exact Hne2. }
  exists v1, map, v2, fh2', v3, meta', M3, (delete (fh_key (master_fh m1)) N2), m. split_and!; try done. rewrite Hkey. apply lookup_delete_eq.
Qed.
End volume.

(** ** A table that is a map *)

Record map_table (R : Type) := MapTable { table_map : gmap (Z * Z) R }.
Arguments MapTable {R} table_map.
Arguments table_map {R} m.

#[export] Instance map_hash_table {R : Type} `{Element R} : HashTable (map_table R) R := {
  ht_open t := (t, true);
  ht_lookup t x := Ok (t, answer (table_map t) x, true);
  ht_insert t x b := Ok (MapTable (<[ekey x := merged b (table_map t !! ekey x) x]> (table_map t)), with_status VALID_SLOT x, true);
  ht_delete t x := Ok (MapTable (delete (ekey x) (table_map t)), x, true)
}.

Class ElementLaws (R : Type) `{Element R} := {
  status_with : forall s x, estatus (with_status s x) = s;
  key_with : forall s x, ekey (with_status s x) = ekey x;
  key_base : forall x y, ekey (base_of x y) = ekey x;
  valid_with : forall x : R, estatus x = VALID_SLOT -> with_status VALID_SLOT x = x;
  egood_with : forall s x, is_u32 s -> egood x -> egood (with_status s x);
  egood_base : forall x y, egood x -> egood y -> egood (base_of x y);
  egood_blank : egood blank
}.

#[export] Instance metadata_laws : ElementLaws metadata.
Proof.
  split; [done|done|done| |apply good_status|apply good_base|apply good_blank]. intros x Hx. cbn in Hx |- *. rewrite <-Hx. by destruct x.
Qed.

#[export] Instance mapping_laws : ElementLaws fh_mapping.
Proof.
  split; [done|done|done| | |by intros ??|split_and!; unfold fh_wf, is_u32; cbn; lia].
  - intros x Hx. cbn in Hx |- *. rewrite <-Hx. by destruct x.
  - intros s x Hs (H1 & H2 & H3). by split_and!.
Qed.

Lemma u32_valid : is_u32 VALID_SLOT.
Proof. unfold is_u32, VALID_SLOT. lia. Qed.

(** The elements of a table are valid and at their keys. *)
Definition all_valid {R : Type} `{Element R} (M : gmap (Z * Z) R) : Prop :=
  forall k v, M !! k = Some v -> ekey v = k /\ estatus v = VALID_SLOT /\ egood v.

Section element.
Context {R : Type} `{ElementLaws R}.
Implicit Types M : gmap (Z * Z) R.

Lemma merged_good b (old : option R) x : egood x -> (forall y, old = Some y -> egood y) -> egood (merged b old x).
Proof.
  intros Hx Ho. unfold merged. apply egood_with; [apply u32_valid|]. destruct b; [|done]. apply egood_base; [done|].
  destruct old as [y|]; cbn; [by apply Ho|apply egood_blank].
Qed.

Lemma merged_key b (old : option R) x : ekey (merged b old x) = ekey x.
Proof. unfold merged. rewrite key_with. destruct b; [apply key_base|done]. Qed.

Lemma all_valid_insert M b x : all_valid M -> egood x -> all_valid (<[ekey x := merged b (M !! ekey x) x]> M).
Proof.
  intros Hv Hx k v [[<- <-]|[_ Hk]]%lookup_insert_Some; [|by apply Hv]. split; [apply merged_key|]. split; [apply status_with|].
  apply merged_good; [done|]. intros y Hy. by apply (Hv _ _ Hy).
Qed.

Lemma all_valid_delete M k : all_valid M -> all_valid (delete k M).
Proof. intros Hv j v [_ Hj]%lookup_delete_Some. by apply Hv. Qed.
End element.

#[export] Program Instance map_table_laws {R : Type} `{ElementLaws R} : TableLaws (map_table R) R := {
  holds t M := table_map t = M /\ all_valid M
}.
Next Obligation. intros R E L t M Ht. by exists t. Qed.
Next Obligation. intros R E L t M x [Ht Hv] Hx. exists t. cbn. by subst M. Qed.
Next Obligation.
  intros R E L t M x b [Ht Hv] Hs Hx. eexists. split; [done|]. subst M. split; [done|]. by apply all_valid_insert.
Qed.
Next Obligation. intros R E L t M x [Ht Hv] Hs Hx. eexists _, x. split; [done|]. subst M. split; [done|]. by apply all_valid_delete. Qed.
Next Obligation. intros R E L t M k v [Ht Hv] Hk. by apply Hv. Qed.

(** ** A concrete volume *)

Lemma inv_empty : inv ∅ ∅.
Proof. split; intros k x Hk; by rewrite lookup_empty in Hk. Qed.

Definition world0 : world := World ∅ ∅ ∅ 0 [].
Definition volume0 (M : gmap (Z * Z) metadata) (N : gmap (Z * Z) fh_mapping) : volume :=
  Vol (TM := map_table metadata) (TF := map_table fh_mapping) (MapTable M) (MapTable N) world0 hl_heap0 true false.

(** A regular file, its metadata when nothing is known, and after it became a copy. *)
Definition meta_reg : metadata := with_mode blank (GET_MODETYPE 0x1a4 (ftype_number FT_REG)) 0 0.
Definition local_a : zfs_fh := MkFh 1 1 8 20 1.
Definition local_b : zfs_fh := MkFh 1 1 8 21 1.
Definition master_1 : zfs_fh := MkFh 2 1 5 6 7.
Definition master_2 : zfs_fh := MkFh 2 1 5 6 8.
Definition copy_of (local master : zfs_fh) : metadata :=
  with_master (fresh_metadata true 0 (dev local) (ino local) (modetype meta_reg) 0 0) 0 master.

Lemma fh_wf_small a b c d e : 0 <= a < 100 -> 0 <= b < 100 -> 0 <= c < 100 -> 0 <= d < 100 -> 0 <= e < 100 -> fh_wf (MkFh a b c d e).
Proof. intros. unfold fh_wf, is_u32. cbn. lia. Qed.

Lemma known_a : known_file local_a meta_reg.
Proof.
  split; [by apply fh_wf_small|]. split; [|reflexivity]. apply good_mode; [apply good_blank|..]; unfold is_u32; vm_compute; by split.
Qed.

Lemma copy_good local master : fh_wf local -> fh_wf master -> metadata_wf (copy_of local master).
Proof.
  intros (?&?&?&?&?) ?. apply good_master; [apply good_fresh; try done; unfold is_u32; vm_compute; by split|done|done].
Qed.

Definition volume1 : volume := volume0 {[ (8, 20) := copy_of local_a master_1; (8, 21) := copy_of local_b undefined ]}
  {[ (5, 6) := MkMapping VALID_SLOT master_1 local_a ]}.

Lemma volume1_ok : exists M N, tables volume1 M N true /\ inv M N /\ room M N 3 /\ M !! (8, 20) = Some (copy_of local_a master_1) /\
  M !! (8, 21) = Some (copy_of local_b undefined).
Proof.
  assert (fh_wf local_a /\ fh_wf local_b /\ fh_wf master_1) as (Ha & Hb & H1) by (split_and!; by apply fh_wf_small).
  set (M := {[ (8, 20) := copy_of local_a master_1; (8, 21) := copy_of local_b undefined ]} : gmap (Z * Z) metadata).
  set (N := {[ (5, 6) := MkMapping VALID_SLOT master_1 local_a ]} : gmap (Z * Z) fh_mapping).
  assert (forall k m, M !! k = Some m -> k = (8, 20) /\ m = copy_of local_a master_1 \/ k = (8, 21) /\ m = copy_of local_b undefined) as HM.
  { intros k m [[<- <-]|[_ Hk]]%lookup_insert_Some; [by left|]. apply lookup_singleton_Some in Hk as [<- <-]. by right. }
  assert (forall k m, N !! k = Some m -> k = (5, 6) /\ m = MkMapping VALID_SLOT master_1 local_a) as HN.
  { intros k m [<- <-]%lookup_singleton_Some. done. }
  assert (all_valid M /\ all_valid N) as [VM VN].
  { split; [intros k m [[-> ->]|[-> ->]]%HM|intros k m [-> ->]%HN].
    - split; [done|]. split; [done|]. by apply copy_good.
    - split; [done|]. split; [done|]. apply copy_good; [done|apply undefined_wf].
    - split; [done|]. split; [done|]. by apply good_mapping. }
  exists M, N. split; [split_and!; [split; [done|exact VM]|split; [done|exact VN]|done]|].
  split; [|split; [split; vm_compute; reflexivity|split; reflexivity]]. split; [exact VM| |exact VN|].
  - intros k m [[-> ->]|[-> ->]]%HM; [right; cbn; congruence|by left].
  - intros k m [-> ->]%HN. split; [discriminate|]. exists (copy_of local_a master_1). split_and!; reflexivity.
Qed.

Lemma mapping_leads_to_its_file_witness :
  let ops := [OpMaster local_a meta_reg master_1; OpInc local_a meta_reg true; OpDelete 8 20 meta_reg] in
  exists v' rs, run_ops "/v" 1 ops (volume0 ∅ ∅) = Ok (v', rs) /\ Forall (eq true) rs /\
  exists v'' map M' N', get_fh_mapping_for_master_fh master_1 (mapping_of master_1) v' = Ok (v'', (map, true)) /\ tables v'' M' N' true /\
    (map_status map = VALID_SLOT -> backed M' map /\ fh_key (map_master_fh map) = fh_key master_1 /\ gen master_1 <= gen (map_master_fh map)).
Proof.
  apply (mapping_leads_to_its_file "/v" 1 (volume0 ∅ ∅) ∅ ∅ true _ master_1).
  - split_and!; [split; [done|intros k x Hk; by rewrite lookup_empty in Hk]|split; [done|intros k x Hk; by rewrite lookup_empty in Hk]|done].
  - apply inv_empty.
  - split; vm_compute; reflexivity.
  - pose proof known_a as Hk. constructor; [|constructor; [|constructor; [|constructor]]].
    + split; [exact Hk|]. split; [by apply fh_wf_small|]. right. cbn. congruence.
    + exact Hk.
    + split; [unfold is_u32; lia|]. split; [unfold is_u32; lia|apply Hk].
  - by apply fh_wf_small.
Defined.

Definition ifh_b : internal_fh := MkIfh local_b (copy_of local_b undefined) 1.

Lemma ifh_b_synced M : M !! (8, 21) = Some (copy_of local_b undefined) -> synced M ifh_b.
Proof.
  intros H. split; try reflexivity; [by apply fh_wf_small|apply copy_good; [by apply fh_wf_small|apply undefined_wf]|].
  by exists (copy_of local_b undefined).
Qed.

Lemma mapping_is_found_witness :
  exists v1 fh' v2 M' N', set_metadata_master_fh ifh_b master_2 volume1 = Ok (v1, (fh', true)) /\
    get_fh_mapping_for_master_fh master_2 (mapping_of master_2) v1 = Ok (v2, (MkMapping VALID_SLOT master_2 local_b, true)) /\
    tables v2 M' N' true /\ inv M' N' /\ synced M' fh' /\ master_fh (if_meta fh') = master_2.
Proof.
  destruct volume1_ok as (M & N & Ht & Hi & [Hr1 Hr2] & Hka & Hkb).
  apply (mapping_is_found volume1 M N true ifh_b master_2 Ht Hi).
  - split; lia.
  - apply ifh_b_synced, Hkb.
  - by apply fh_wf_small.
  - right. cbn. congruence.
  - discriminate.
  - discriminate.
Defined.

Lemma stale_master_loses_mapping_witness :
  exists v1 map v2 fh2' v3 meta' M' N' m,
    get_fh_mapping_for_master_fh master_2 (mapping_of master_2) volume1 = Ok (v1, (map, true)) /\
    set_metadata_master_fh ifh_b master_2 v1 = Ok (v2, (fh2', true)) /\
    delete_metadata "/v" 1 meta_reg 8 20 0 0 None v2 = Ok (v3, (meta', true)) /\
    tables v3 M' N' true /\ M' !! (8, 21) = Some m /\ master_fh m = master_2 /\ N' !! (5, 6) = None.
Proof.
  destruct volume1_ok as (M & N & Ht & Hi & Hr & Hka & Hkb).
  apply (stale_master_loses_mapping "/v" 1 volume1 M N true local_a (copy_of local_a master_1) ifh_b master_2 meta_reg Ht Hi Hr Hka).
  - discriminate.
  - reflexivity.
  - reflexivity.
  - apply ifh_b_synced, Hkb.
  - discriminate.
  - discriminate.
  - by apply fh_wf_small.
  - by apply fh_wf_small.
  - right. cbn. congruence.
  - discriminate.
  - apply known_a.
Defined.
