(* ===== verification/MetaLinks.v ===== *)
(** Hard links of a file across the metadata table, the hard link file and the list in
    memory: what [write_hardlinks] leaves is what [read_hardlinks] reads, and the
    metadata that [write_hardlinks] does not store.

    The definitions are those of [MetaTable.v]. *)

From S2P Require Import Prelude FileIO AllocPool PosixFs DataCoding Hashtab Chain HardlinkList HashFile Metadata MetaPaths MetaFiles HardlinkFile MetaTable.
From stdpp Require Import strings.
#[local] Open Scope Z_scope.

(** A heap in which a list can be created. *)
Definition heap_ok (m : hheap) : Prop := pool_ok (pool m) /\ forall p, is_Some (cells m !! p) -> p ∈ in_use (pool m).

Lemma hl_ok_heap m hl l : hl_ok m hl l -> heap_ok m.
Proof. intros H. split; apply H. Qed.

Lemma new_list_ok m n : heap_ok m -> n <= MAX_PRIME ->
  exists hl, hardlink_list_create n = Ok hl /\ hl_ok m hl [] /\ exact (hl_htab hl).
Proof.
  intros [Hp Ha] Hn. destruct (htab_create_ok (hash_f := hash_at m) (eq_f := eq_at m) n false Hn) as (h & E & Ht & Hx & He & _).
  unfold hardlink_list_create. rewrite E. cbn [mbind res_bind]. eexists. split; [done|]. split; [|done]. cbn [hl_htab hl_chain].
  split; try done; [split; try done; constructor|by rewrite He|constructor|set_solver].
Qed.

Lemma c_string_zeros (s : list Z) n : Forall (fun c => c <> 0) s -> c_string (s ++ replicate n 0) = s.
Proof. intros H. destruct n; [by rewrite app_nil_r, c_string_id|]. by apply c_string_app. Qed.

Section volume.
Context {TM TF : Type} `{!HashTable TM metadata} `{!HashTable TF fh_mapping} `{!TableLaws TM metadata} `{!TableLaws TF fh_mapping}.
Context (local_path : string) (depth : Z).
#[local] Abbreviation volume := (volume (TM := TM) (TF := TF)).
#[local] Existing Instances vproc_ret vproc_bind.

(** The files and the memory of a volume. *)
Definition same_rest (v v' : volume) : Prop := v_fs v' = v_fs v /\ v_links v' = v_links v.

Lemma rest_open_metadata (v : volume) M N c Q : tables v M N c -> (forall v', tables v' M N c -> same_rest v v' -> Q v' true) ->
  runs open_metadata_file v Q.
Proof.
  intros (H1 & H2 & H3) HQ. destruct (open_law _ _ H1) as (t & E & H'). exists (set_meta v t), true.
  unfold open_metadata_file. rewrite E. split; [done|]. by apply HQ.
Qed.

Lemma rest_meta_insert (v : volume) M N c x b Q : tables v M N c -> Z.of_nat (size M) < 2 ^ 29 -> egood x ->
  (forall v', tables v' (<[ekey x := merged b (M !! ekey x) x]> M) N c -> same_rest v v' -> Q v' (with_status VALID_SLOT x, true)) ->
  runs (meta_insert x b) v Q.
Proof.
  intros (H1 & H2 & H3) Hs Hx HQ. destruct (insert_law _ _ x b H1 Hs Hx) as (t & E & H').
  exists (set_meta v t), (with_status VALID_SLOT x, true). unfold meta_insert. rewrite E. split; [done|]. by apply HQ.
Qed.

(** Looking up metadata that are there, for a caller that knows nothing of the type
    of the file or knows it. *)
Lemma rest_lookup (v : volume) M N c fh meta m Q : tables v M N c -> metadata_wf meta -> is_u32 (dev fh) -> is_u32 (ino fh) ->
  M !! fh_key fh = Some m -> slot_status m = VALID_SLOT -> is_bad (modetype m) = false ->
  (is_bad (modetype meta) = true \/ GET_MODETYPE_TYPE (modetype meta) = GET_MODETYPE_TYPE (modetype m)) ->
  (forall v', tables v' M N c -> same_rest v v' -> Q v' (with_gen fh (meta_gen m), m, true)) ->
  runs (lookup_metadata local_path depth fh meta false) v Q.
Proof.
  intros Ht Hg Hd Hi Hk Hs Hb Hty HQ. unfold lookup_metadata. apply runs_bind. eapply rest_open_metadata; [exact Ht|].
  intros v1 H1 R1. cbn [negb]. apply runs_bind. destruct H1 as (H1 & H2 & H3).
  destruct (lookup_law _ _ (with_key meta (dev fh) (ino fh)) H1 ltac:(by apply good_key)) as (t & E & H').
  exists (set_meta v1 t), (answer M (with_key meta (dev fh) (ino fh)), true). unfold meta_lookup. rewrite E. split; [done|].
  cbn [negb]. unfold answer. change (ekey (with_key meta (dev fh) (ino fh))) with (fh_key fh). rewrite Hk. cbn [from_option id].
  apply runs_bind, runs_get. rewrite Hs, Hb, Z.eqb_refl. cbn [andb negb]. apply runs_bind, runs_ret. cbn [negb]. rewrite Hs, Z.eqb_refl. cbn [andb].
  assert (negb (GET_MODETYPE_TYPE (modetype meta) =? GET_MODETYPE_TYPE (modetype m)) && negb (is_bad (modetype meta)) = false) as ->.
  { destruct Hty as [->| ->]; [by rewrite andb_false_r|by rewrite Z.eqb_refl]. }
  apply runs_ret, HQ; [by split_and!|]. by destruct R1 as [R1 R2].
Qed.

Lemma runs_destroy (v : volume) hl l Q : hl_ok (v_links v) hl l -> (forall m, heap_ok m -> Q (set_links v m) tt) -> runs (hl_destroy hl) v Q.
Proof.
  intros H HQ. destruct (chained_free_all _ _ _ _ H) as (m & E & _ & H'). exists (set_links v m), tt.
  unfold hl_destroy, hardlink_list_destroy. rewrite E. split; [done|]. apply HQ. split; apply H'.
Qed.

Lemma runs_create (v : volume) n Q : heap_ok (v_links v) -> n <= MAX_PRIME ->
  (forall hl, hl_ok (v_links v) hl [] -> exact (hl_htab hl) -> Q v hl) -> runs (hl_create n) v Q.
Proof.
  intros Hh Hn HQ. destruct (new_list_ok _ n Hh Hn) as (hl & E & H & Hx). exists v, hl. unfold hl_create, lift. rewrite E. split; [done|].
  by apply HQ.
Qed.

Lemma runs_insert (v : volume) hl l d i name Q : hl_ok (v_links v) hl l -> exact (hl_htab hl) -> 2 * Z.of_nat (length l) + 1 <= MAX_PRIME ->
  (forall m hl' l', hl_ok m hl' l' -> exact (hl_htab hl') ->
     links l' = links l ++ (if bool_decide (link_key d i name ∈ links l) then [] else [link_key d i name]) ->
     Q (set_links v m) (hl', bool_decide (link_key d i name ∉ links l))) ->
  runs (hl_insert hl d i name) v Q.
Proof.
  intros H Hx Hb HQ. destruct (hardlink_list_insert_ok _ _ _ d i name true H) as (m & hl' & r & l' & E & H' & Hr & El & _ & Hx').
  { by eapply exact_expand_safe. }
  { done. }
  exists (set_links v m), (hl', r). unfold hl_insert. rewrite E. split; [done|].
  assert (r = bool_decide (link_key d i name ∉ links l)) as Er.
  { symmetry. destruct r; [apply bool_decide_true; by apply Hr|apply bool_decide_false; intros Hd; by apply Hr in Hd]. }
  rewrite <-Er in *. eapply HQ; [exact H'|by apply Hx'|]. rewrite El. f_equal. destruct r.
  - rewrite bool_decide_false; [done|]. by apply Hr.
  - rewrite bool_decide_true; [done|]. apply dec_stable. intros Hd. by apply Hr in Hd.
Qed.

(** [delete_hardlinks_file] touches the files only. *)
Lemma runs_unlink (v : volume) M N c fh Q : tables v M N c -> (forall v', tables v' M N c -> v_links v' = v_links v -> Q v' tt) ->
  runs (delete_hardlinks local_path depth fh) v Q.
Proof.
  intros Ht HQ. destruct (runs_delete_hardlinks local_path depth v M N c fh (fun _ _ => True) Ht ltac:(done)) as (v' & [] & E & _).
  exists v', tt. split; [exact E|]. unfold delete_hardlinks in E. destruct (delete_hardlinks_file _ _ _ _) as [[w b]| |]; cbn [mbind res_bind] in E; try done.
  injection E as <-. by apply HQ.
Qed.

Lemma runs_needs_file (v : volume) hl l Q : hl_ok (v_links v) hl l ->
  match l with
  | [] => Q v (None, false)
  | (_, e) :: l' => Q v (Some e, bool_decide (l' <> []) || (METADATA_NAME_SIZE <=? len (hl_name e)))
  end -> runs (needs_file hl) v Q.
Proof.
  intros H HQ. destruct (ch_chain _ _ _ _ H) as [Hnd Hdll Hfirst _]. unfold needs_file. rewrite Hfirst. destruct l as [|[p e] l]; cbn [head_or].
  - by apply runs_ret.
  - destruct Hdll as [Hp _]. apply runs_bind. exists v, (MkCell (head_or l None) None e). unfold hl_entry. rewrite (deref_Some _ _ _ Hp).
    split; [done|]. apply runs_ret. cbn [data next].
    assert (bool_decide (is_Some (head_or l None)) = bool_decide (l <> [])) as ->; [|exact HQ].
    apply bool_decide_ext. destruct l as [|[q b] l]; cbn; [|by split; [|eexists]]. split; [by intros [? ?]|done].
Qed.

(** ** Writing the links and reading them *)

Context (fh : zfs_fh) (path : string).
Hypothesis Hdepth : 0 <= depth.
Hypothesis Hpath : build_fh_metadata_path local_path fh METADATA_TYPE_HARDLINKS depth = Ok path.
#[local] Abbreviation ready := (ready local_path fh METADATA_TYPE_HARDLINKS depth path).

(** The file can be written and read, and no system call will fail. *)
Definition calm_files (v : volume) (data : list Z) : Prop := script (v_fs v) = [] /\ ready (v_fs v) data.

Lemma runs_write_links (v : volume) hl l data Q : hl_ok (v_links v) hl l -> Forall link_wf (links l) -> calm_files v data ->
  (forall w, calm_files (set_fs v w) (links_bytes (links l)) -> Q (set_fs v w) true) -> runs (write_hl local_path depth fh hl) v Q.
Proof.
  intros H Hwf (Hs & _ & Hn & Ho) HQ.
  destruct (write_hardlinks_file_ok local_path fh depth path Hdepth Hpath (v_fs v) _ _ _ H Hwf Hs Hn Ho) as (w & E & Hr & Hs').
  exists (set_fs v w), true. unfold write_hl. rewrite E. split; [done|]. by apply HQ.
Qed.

Lemma links_bytes_nil L : links_bytes L = [] -> L = [].
Proof.
  destruct L as [|k L]; [done|]. intros E. apply (f_equal length) in E. unfold links_bytes in E. rewrite fmap_cons in E. cbn [concat] in E.
  rewrite length_app, length_link_bytes in E. cbn in E. lia.
Qed.

Lemma runs_read_file (v : volume) hl L Q : hl_ok (v_links v) hl [] -> exact (hl_htab hl) -> Forall link_wf L -> NoDup L -> L <> [] ->
  2 * Z.of_nat (length L) + 1 <= MAX_PRIME -> calm_files v (links_bytes L) ->
  (forall w m hl' l', hl_ok m hl' l' -> exact (hl_htab hl') -> links l' = L -> calm_files (set_fs v w) (links_bytes L) -> Q (set_links (set_fs v w) m) hl') ->
  runs (fd ← open_hardlinks local_path depth fh; if fd <? 0 then mret hl else read_hl hl fd) v Q.
Proof.
  intros H Hx Hwf Hnd Hne Hb (Hs & Hr) HQ. pose proof Hr as (Hst & Hn & Ho).
  destruct (open_fh_metadata_ok local_path fh METADATA_TYPE_HARDLINKS depth htype_hardlinks (v_fs v) path RdOnly Ho)
    as (w1 & fd & E & Hc). unfold stored in Hst. destruct (names (v_fs v) !! path) as [i|] eqn:Ei; [|by destruct Hne; apply links_bytes_nil].
  destruct Hc as [(Hfd & _ & Hs1 & Hop)|(_ & _ & Hno)]; [|destruct (Hno Hs (Hn _)) as (_ & ? & _); congruence].
  rewrite Ei in Hop. destruct Hop as (En & Ef & Efl), Hst as [reg Hi]. specialize (Hs1 Hs).
  destruct (read_hardlinks_file_ok w1 (v_links v) hl L i reg fd) as (m & hl' & l' & E' & H' & Hx' & El); [done|by rewrite Ef, lookup_insert_eq|by rewrite Efl|done..|].
  assert (open_hardlinks local_path depth fh v = Ok (set_fs v w1, fd)) as Eop by (unfold open_hardlinks; rewrite Hpath; cbn [mbind res_bind]; by rewrite E).
  apply runs_bind. exists (set_fs v w1), fd. split; [done|]. rewrite (proj2 (Z.ltb_ge _ _)) by done.
  exists (set_links (set_fs v (close w1 fd)) m), hl'. unfold read_hl. cbn [v_fs v_links set_fs]. rewrite E'. split; [done|].
  apply (HQ (close w1 fd) m hl' l'); [done|done|done|]. split; [done|]. cbn [set_fs v_fs].
  apply (ready_same _ _ _ _ _ (v_fs v)); [done|done|]. exact Hr.
Qed.

(** What the table may say of a file whose links are [L]. *)
Definition in_file (L : list hl_key) : Prop :=
  match L with [] => False | k :: L' => L' <> [] \/ METADATA_NAME_SIZE <= hk_len k end.

Definition says (m : metadata) (L : list hl_key) : Prop :=
  slot_status m = VALID_SLOT /\ is_bad (modetype m) = false /\
  (in_file L /\ nameless m = true /\ no_parent m = true \/
   exists k, L = [k] /\ hk_len k < METADATA_NAME_SIZE /\ nameless m = false /\ no_parent m = false /\ link_key (parent_dev m) (parent_ino m) (name_in m) = k).

Lemma runs_read_links (v : volume) M N c meta m L hl Q : tables v M N c -> metadata_wf meta -> is_u32 (dev fh) -> is_u32 (ino fh) ->
  M !! fh_key fh = Some m -> says m L -> (in_file L -> calm_files v (links_bytes L)) ->
  (is_bad (modetype meta) = true \/ GET_MODETYPE_TYPE (modetype meta) = GET_MODETYPE_TYPE (modetype m)) ->
  hl_ok (v_links v) hl [] -> exact (hl_htab hl) -> Forall link_wf L -> NoDup L -> 2 * Z.of_nat (length L) + 1 <= MAX_PRIME ->
  (forall v' hl' l', tables v' M N c -> hl_ok (v_links v') hl' l' -> exact (hl_htab hl') -> links l' = L ->
     (in_file L -> calm_files v' (links_bytes L)) -> Q v' (with_gen fh (meta_gen m), m, hl', true)) ->
  runs (read_hardlinks local_path depth fh meta hl) v Q.
Proof.
  intros Ht Hg Hd Hi Hk (Hs & Hbad & Hsay) Hcalm Hty H Hx Hwf Hnd Hb HQ. unfold read_hardlinks. apply runs_bind.
  eapply rest_lookup; [exact Ht|done..|]. intros v1 Ht1 [R1 R2]. cbn [negb]. rewrite Hs, Hbad. cbn [Z.eqb negb orb].
  rewrite Z.eqb_refl. cbn [negb orb]. rewrite <-R2 in H. destruct Hsay as [(Hf & Hn & Hnp)|(k & -> & Hshort & Hn & Hnp & Ek)]; rewrite Hn, Hnp; cbn [negb orb].
  - assert (parent_dev m =? 0 = false) as ->.
    { unfold no_parent in Hnp. apply andb_true_iff in Hnp as [Hp%Z.eqb_eq _]. rewrite Hp. done. }
    cbn [andb].
    assert (runs (fd ← open_hardlinks local_path depth (with_gen fh (meta_gen m)); if fd <? 0 then mret hl else read_hl hl fd) v1
      (fun v2 hl => runs (mret (with_gen fh (meta_gen m), m, hl, true)) v2 Q)) as Hr.
    { assert (L <> []) as Hne by (by intros ->).
      change (open_hardlinks local_path depth (with_gen fh (meta_gen m))) with
        (open_hardlinks (TM := TM) (TF := TF) local_path depth fh).
      destruct (Hcalm Hf) as [C1 C2]. eapply runs_read_file; [exact H|done..| |].
      - split; [by rewrite R1|]. by rewrite R1.
      - intros w hp hl' l' H' Hx' El Hc. apply runs_ret. eapply HQ; [exact Ht1|exact H'|done|done|]. intros _. exact Hc. }
    destruct Hr as (v2 & hl2 & E & Hr). unfold mbind, vproc_bind in E. apply runs_bind.
    destruct (open_hardlinks local_path depth (with_gen fh (meta_gen m)) v1) as [[v3 fd]| |] eqn:Eo; cbn [mbind res_bind] in E; try done.
    exists v3, fd. split; [done|]. apply runs_bind. exists v2, hl2. by split.
  - apply runs_bind. eapply runs_insert; [exact H|done|cbn; lia|]. intros hp hl' l' H' Hx' El. apply runs_ret. eapply HQ; [exact Ht1|exact H'|done| |].
    + rewrite El, Ek. cbn [links fmap list_fmap app]. rewrite bool_decide_false by apply not_elem_of_nil. done.
    + intros [?|Hlen]; [done|]. lia.
Qed.

(** Links that [read_hardlinks] can tell from no link: they have a name and a parent. *)
Definition storable (k : hl_key) : Prop := link_wf k /\ hk_chars k <> [] /\ (hk_dev k, hk_ino k) <> (UINT32_MAX, UINT32_MAX).

(** [m] is the metadata of the table except for flags and versions. *)
Definition agrees (m0 m : metadata) : Prop := modetype m = modetype m0 /\ parent_dev m = parent_dev m0 /\ parent_ino m = parent_ino m0 /\
  meta_name m = meta_name m0.

Lemma good_parent m d i name : metadata_wf m -> is_u32 d -> is_u32 i -> length name = 52%nat -> metadata_wf (with_parent m d i name).
Proof. intros [(?&?&?&?&?) ? [] (?&?&?&?&?) ?] ? ? ?. by split; cbn. Qed.

Lemma length_name_field n : len n = Z.of_nat (length (chars n)) -> len n < METADATA_NAME_SIZE -> length (name_field n) = 52%nat.
Proof.
  unfold METADATA_NAME_SIZE, name_field. intros E Hn. rewrite E in *. rewrite Nat2Z.id, length_app, length_take, length_replicate. lia.
Qed.

(** A single short link is found in the name of the metadata. *)
Lemma says_short m e : slot_status m = VALID_SLOT -> is_bad (modetype m) = false -> storable (kof e) -> len (hl_name e) < METADATA_NAME_SIZE ->
  says (with_parent m (HardlinkList.parent_dev e) (HardlinkList.parent_ino e) (name_field (hl_name e))) [kof e].
Proof.
  intros Hs Hb ([W1 W2 W3 W4 W5] & Hne & Hp) Hl. cbn in W1, W2, W3, W4, W5, Hne, Hp. split; [exact Hs|]. split; [exact Hb|]. right. exists (kof e).
  unfold name_field. rewrite W3, Nat2Z.id, take_ge by lia. split; [done|]. split; [cbn; lia|].
  destruct (chars (hl_name e)) as [|ch cs] eqn:Ec; [done|]. split_and!.
  - unfold nameless. cbn. apply Forall_cons in W5 as [W5 _]. by apply Z.eqb_neq.
  - unfold no_parent. cbn. apply not_true_is_false. rewrite andb_true_iff, !Z.eqb_eq. intros [E1 E2]. apply Hp. congruence.
  - unfold link_key, name_in. cbn [parent_dev parent_ino with_parent meta_name]. rewrite c_string_zeros by done.
    unfold kof. cbn. unfold link_key. cbn [len chars]. by rewrite Ec, W3.
Qed.

Lemma in_file_first p e l : in_file (links ((p, e) :: l)) <-> bool_decide (l <> []) || (METADATA_NAME_SIZE <=? len (hl_name e)) = true.
Proof.
  unfold links. rewrite fmap_cons. cbn [in_file snd]. rewrite orb_true_iff, bool_decide_eq_true, Z.leb_le. unfold kof, hardlink_keyed, link_key. cbn [hk_len].
  destruct l; split; (intros [?|?]; [|by right]); [done|done|by left|by left].
Qed.

Lemma runs_write_all (v : volume) M N c m m0 hl l data Q : tables v M N c -> room M N 1 -> M !! fh_key fh = Some m0 -> agrees m0 m ->
  ekey m = fh_key fh -> egood m -> slot_status m = VALID_SLOT -> slot_status m0 = VALID_SLOT -> is_bad (modetype m) = false ->
  nameless m = no_parent m -> hl_ok (v_links v) hl l -> l <> [] -> Forall storable (links l) -> calm_files v data ->
  (forall v' M' m', tables v' M' N c -> M' !! fh_key fh = Some m' -> says m' (links l) -> modetype m' = modetype m -> heap_ok (v_links v') ->
     (in_file (links l) -> calm_files v' (links_bytes (links l))) -> forall mr, Q v' (mr, true)) ->
  runs (write_hardlinks local_path depth fh m hl) v Q.
Proof.
  intros Ht [Hr1 Hr2] Hk (A1 & A2 & A3 & A4) Ek Hg Hs Hs0 Hb Hnn H Hne Hst Hc HQ. unfold write_hardlinks.
  assert (Forall link_wf (links l)) as Hwf by (eapply Forall_impl; [exact Hst|by intros k (? & _)]).
  apply runs_bind, runs_get. rewrite (proj2 (proj2 Ht)). apply runs_bind. eapply runs_needs_file; [exact H|]. destruct l as [|[p e] l']; [done|].
  pose proof (in_file_first p e l') as Hin.
  destruct (bool_decide (l' <> []) || (METADATA_NAME_SIZE <=? len (hl_name e))) eqn:Eb.
  - apply runs_bind. eapply runs_write_links; [exact H|done|exact Hc|]. intros w Hc1. apply runs_bind. eapply runs_destroy; [exact H|]. intros hp Hh.
    cbn [negb]. apply runs_bind. eapply (rest_open_metadata (set_links (set_fs v w) hp) M N c); [exact Ht|]. intros v1 Ht1 [R1 R2]. cbn [v_fs v_links set_fs set_links] in R1, R2.
    cbn [negb]. rewrite Hs, Z.eqb_refl. cbn [negb].
    assert (forall v2, v_fs v2 = v_fs v1 -> calm_files v2 (links_bytes (links ((p, e) :: l')))) as Hcalm.
    { intros v2 E. destruct Hc1 as [C1 C2]. cbn [v_fs set_fs] in C1, C2. split; rewrite E, R1; done. }
    destruct (nameless m) eqn:En; rewrite <-Hnn.
    + apply runs_ret. eapply (HQ v1 M m0); [done|done| |congruence|by rewrite R2|intros _; by apply Hcalm].
      split; [done|]. split; [congruence|]. left. split; [by apply Hin|]. unfold nameless, no_parent in *. rewrite <-A2, <-A3, <-A4. by rewrite <-Hnn.
    + set (m' := with_parent m UINT32_MAX UINT32_MAX no_name).
      assert (with_status VALID_SLOT m' = m') as Ew by (unfold m', with_parent; cbn; by rewrite Hs).
      eapply rest_meta_insert; [exact Ht1|lia| |].
      { apply good_parent; [done|unfold is_u32, UINT32_MAX; lia|unfold is_u32, UINT32_MAX; lia|done]. }
      intros v2 Ht2 [R3 R4]. change (ekey m') with (ekey m) in Ht2. unfold merged in Ht2. fold m' in Ht2. rewrite Ew, Ek in Ht2.
      eapply (HQ v2 _ m'); [exact Ht2|apply lookup_insert_eq| |done|by rewrite R4, R2|intros _; by apply Hcalm].
      split; [exact Hs|]. split; [exact Hb|]. left. split; [by apply Hin|]. done.
  - apply orb_false_iff in Eb as [Hl' Hlen%Z.leb_gt]. apply bool_decide_eq_false, dec_stable in Hl'. subst l'.
    apply Forall_cons in Hst as [Hst _]. cbn [snd] in Hst. pose proof Hst as ([W1 W2 W3 W4 W5] & Hst1 & Hst2). cbn in W1, W2, W3, W4, W5.
    apply runs_bind. eapply rest_open_metadata; [exact Ht|]. intros v1 Ht1 [R1 R2]. cbn [negb]. unfold known. rewrite Hs, Z.eqb_refl.
    set (m' := with_parent m (HardlinkList.parent_dev e) (HardlinkList.parent_ino e) (name_field (hl_name e))).
    assert (with_status VALID_SLOT m' = m') as Ew by (unfold m', with_parent; cbn; by rewrite Hs).
    apply runs_bind. rewrite <-R2 in H. eapply runs_destroy; [exact H|]. intros hp Hh. apply runs_bind.
    eapply (rest_meta_insert (set_links v1 hp) M N c); [exact Ht1|lia| |].
    { apply good_parent; [done|done|done|by apply length_name_field]. }
    intros v2 Ht2 [R3 R4]. change (ekey m') with (ekey m) in Ht2. unfold merged in Ht2. fold m' in Ht2. rewrite Ew, Ek in Ht2. cbn [negb].
    apply runs_bind. eapply runs_unlink; [exact Ht2|]. intros v3 Ht3 R5. apply runs_ret. eapply (HQ _ _ m'); [exact Ht3|apply lookup_insert_eq|by apply says_short|done|by rewrite R5, R4|].
    intros Hf. by apply Hin in Hf.
Qed.

(** When the links stay in their file the metadata are not stored: the change of the
    shadow flag by [metadata_hardlink_replace] is lost. *)
Theorem file_links_skip_metadata (v : volume) M N c m hl l data : tables v M N c -> slot_status m = VALID_SLOT ->
  nameless m = true -> no_parent m = true -> hl_ok (v_links v) hl l -> in_file (links l) -> Forall link_wf (links l) -> calm_files v data ->
  exists v', write_hardlinks local_path depth fh m hl v = Ok (v', (m, true)) /\ tables v' M N c.
Proof.
  intros Ht Hs Hn Hp H Hf Hwf Hc. destruct l as [|[p e] l]; [done|].
  assert (runs (write_hardlinks local_path depth fh m hl) v (fun v' r => r = (m, true) /\ tables v' M N c)) as (v' & r & E & -> & Ht');
    [|by exists v'].
  unfold write_hardlinks. apply runs_bind, runs_get, runs_bind. eapply runs_needs_file; [exact H|].
  cbv match. rewrite (proj1 (in_file_first p e l) Hf). apply runs_bind. eapply runs_write_links; [exact H|done|exact Hc|]. intros w Hc1.
  apply runs_bind. eapply runs_destroy; [exact H|]. intros hp Hh. cbn [negb]. apply runs_bind.
  eapply (rest_open_metadata (set_links (set_fs v w) hp) M N c); [exact Ht|]. intros v1 Ht1 _. cbn [negb].
  rewrite Hs, Z.eqb_refl, Hn, Hp. by apply runs_ret.
Qed.

(** What is to be written goes into the table and the files of [v]: [m] is what the
    caller knows of the metadata in the table. *)
Record writable (v : volume) (M : gmap (Z * Z) metadata) (N : gmap (Z * Z) fh_mapping) (c : bool) (m : metadata) (data : list Z) : Prop := {
  wr_tables : tables v M N c;
  wr_room : room M N 1;
  wr_known : exists m0, M !! fh_key fh = Some m0 /\ agrees m0 m /\ slot_status m0 = VALID_SLOT;
  wr_key : ekey m = fh_key fh;
  wr_good : egood m;
  wr_valid : slot_status m = VALID_SLOT;
  wr_type : is_bad (modetype m) = false;
  wr_parent : nameless m = no_parent m;
  wr_files : calm_files v data
}.

(** C26. Hard links survive: [write_hardlinks] stores a non-empty list of links and
    frees it; [read_hardlinks] then fills an empty list with the same links in the
    same order. It does not matter whether they are a single short name, which goes
    into the metadata and has the hard link file removed, or need the file, for which
    the name and the parent in the metadata are cleared. *)
Theorem hard_links_kept (v : volume) M N c m meta hl l data :
  writable v M N c m data -> hl_ok (v_links v) hl l -> l <> [] -> Forall storable (links l) -> 2 * Z.of_nat (length l) + 1 <= MAX_PRIME ->
  is_u32 (dev fh) -> is_u32 (ino fh) -> metadata_wf meta ->
  (is_bad (modetype meta) = true \/ GET_MODETYPE_TYPE (modetype meta) = GET_MODETYPE_TYPE (modetype m)) ->
  exists v1 m1 hl1 v2 fh2 m2 hl2 v3 l2, write_hardlinks local_path depth fh m hl v = Ok (v1, (m1, true)) /\
    hl_create 2 v1 = Ok (v2, hl1) /\ read_hardlinks local_path depth fh meta hl1 v2 = Ok (v3, (fh2, m2, hl2, true)) /\
    hl_ok (v_links v3) hl2 l2 /\ links l2 = links l.
Proof.
  intros [Ht Hr (m0 & Hk & Ha & Hs0) Ek Hg Hs Hb Hp Hf] H Hne Hst Hlen Hd Hi Hm Hty.
  assert (runs (write_hardlinks local_path depth fh m hl) v (fun v1 r1 => r1.2 = true /\
    runs (hl_create 2) v1 (fun v2 hl1 => runs (read_hardlinks local_path depth fh meta hl1) v2 (fun v3 r =>
      r.2 = true /\ exists l2, hl_ok (v_links v3) r.1.2 l2 /\ links l2 = links l)))) as Hrun.
  { eapply runs_write_all; [exact Ht|exact Hr|exact Hk|exact Ha|done..|exact Hf|]. intros v1 M' m' Ht1 Hk' Hsay Emt Hh Hc mr.
    split; [done|]. apply runs_create; [done|done|]. intros hl1 H1 Hx1.
    eapply runs_read_links; [exact Ht1|done|done|done|exact Hk'|exact Hsay|exact Hc|by rewrite Emt|exact H1|done| | | |].
    - eapply Forall_impl; [exact Hst|by intros k (? & _)].
    - by eapply links_nodup.
    - unfold links. by rewrite length_fmap.
    - intros v3 hl2 l2 _ H2 _ El _. split; [done|]. by exists l2. }
  destruct Hrun as (v1 & [m1 r1] & E1 & Er1 & v2 & hl1 & E2 & v3 & [[[fh2 m2] hl2] r2] & E3 & Er2 & l2 & H2 & El).
  cbn in Er1, Er2, H2. subst r1 r2. by exists v1, m1, hl1, v2, fh2, m2, hl2, v3, l2.
Qed.
End volume.

(** ** A file with two names *)

Definition hl_name_b : name_t := MkName 2 [98; 99] 0.

Lemma two_links : exists m hl l, hl_ok m hl l /\ links l = [link_key 3 4 hl_name_a; link_key 3 5 hl_name_b].
Proof.
  destruct hl_state1_ok as (l & H & El & _ & Hs).
  destruct (hardlink_list_insert_ok _ _ l 3 5 hl_name_b true H Hs ltac:(done)) as (m & hl & r & l' & _ & H' & Hr & El' & _).
  exists m, hl, l'. split; [done|]. assert (r = true) as ->; [|by rewrite El', El].
  apply Hr. rewrite El. intros Hin%list_elem_of_singleton. discriminate.
Qed.

Lemma volume1_writable hp : exists path M N,
  build_fh_metadata_path "/v" local_a METADATA_TYPE_HARDLINKS 1 = Ok path /\
  writable "/v" 1 local_a path (set_links volume1 hp) M N true (copy_of local_a master_1) [].
Proof.
  destruct volume1_ok as (M & N & Ht & _ & [Hr1 Hr2] & Hk & _). eexists _, M, N. split; [vm_compute; reflexivity|].
  assert (fh_wf local_a /\ fh_wf master_1) as [Ha H1] by (split; by apply fh_wf_small).
  split; [exact Ht|split; lia|by exists (copy_of local_a master_1)|done|by apply copy_good|done|done|done|].
  split; [done|]. split_and!; [done|by intros name i|]. intros i q _ _. apply lookup_empty.
Qed.

Lemma hard_links_kept_witness : exists hp hl v1 m1 v2 hl1 v3 fh2 m2 hl2 l2,
  write_hardlinks "/v" 1 local_a (copy_of local_a master_1) hl (set_links volume1 hp) = Ok (v1, (m1, true)) /\
  hl_create 2 v1 = Ok (v2, hl1) /\ read_hardlinks "/v" 1 local_a meta_reg hl1 v2 = Ok (v3, (fh2, m2, hl2, true)) /\
  hl_ok (v_links v3) hl2 l2 /\ links l2 = [link_key 3 4 hl_name_a; link_key 3 5 hl_name_b].
Proof.
  destruct two_links as (hp & hl & l & H & El). destruct (volume1_writable hp) as (path & M & N & Hp & Hw).
  assert (length l = 2%nat) as Hlen by (rewrite <-(length_fmap (fun e => kof e.2) l); exact (f_equal length El)).
  destruct (hard_links_kept "/v" 1 local_a path ltac:(lia) Hp (set_links volume1 hp) M N true (copy_of local_a master_1) meta_reg hl l [])
    as (v1 & m1 & hl1 & v2 & fh2 & m2 & hl2 & v3 & l2 & E1 & E2 & E3 & H2 & El2).
  - exact Hw.
  - exact H.
  - intros ->. discriminate.
  - rewrite El. repeat (apply List.Forall_cons; [split_and!; [split; [unfold is_u32|unfold is_u32| | |repeat constructor]|discriminate|discriminate]|]);
      [cbn; lia..|apply List.Forall_nil].
  - rewrite Hlen. vm_compute. discriminate.
  - unfold is_u32. cbn. lia.
  - unfold is_u32. cbn. lia.
  - apply good_mode; [apply good_blank|vm_compute; split; congruence|vm_compute; split; congruence..].
  - right. vm_compute. reflexivity.
  - exists hp, hl, v1, m1, v2, hl1, v3, fh2, m2, hl2, l2. rewrite <-El. exact (conj E1 (conj E2 (conj E3 (conj H2 El2)))).
Defined.
