(* ===== verification/MetaHash.v ===== *)
(** The hash files of a volume as tables of structures: the instances of the interface of
    [MetaTable.v] by the hash files of [HashFile.v] with the layouts of
    [Metadata.v].

    Each of the two hash files has its own world of files here.  Whether the
    descriptor is still that of the file is decided by [FdCache.v]; here a
    descriptor that is not open is opened again. *)

From S2P Require Import Prelude FileIO DataCoding PosixFs SlotTable HashFile Metadata MetaPaths MetaFiles MetaTable.
#[local] Open Scope Z_scope.

(** ** Structures and their bytes *)

Class Layout (R : Type) (esize base : nat) (hash : list Z -> Z) (eq : list Z -> list Z -> bool)
    `{ElementLaws R} `{!HfileKeys (Z * Z) base hash eq} := {
  bytes_of : R -> list Z;
  of_bytes : list Z -> R;
  bytes_length : forall x, egood x -> length (bytes_of x) = esize;
  bytes_with : forall s x, bytes_of (with_status s x) = set_status (bytes_of x) s;
  bytes_key : forall x, egood x -> hkey (bytes_of x) = ekey x;
  bytes_base : forall x y, egood x -> egood y ->
    bytes_of (base_of x y) = take base (bytes_of x) ++ drop base (bytes_of y);
  bytes_blank : bytes_of blank = replicate esize 0;
  of_bytes_of : forall x, egood x -> of_bytes (bytes_of x) = x;
  layout_base : (8 <= base <= esize)%nat
}.

#[export] Program Instance metadata_layout : Layout metadata 128 (Z.to_nat METADATA_BASE) metadata_hash metadata_eq := {
  bytes_of := metadata_bytes;
  of_bytes := metadata_at
}.
Next Obligation. intros x Hx. apply Nat2Z.inj. by rewrite length_metadata_bytes. Qed.
Next Obligation. done. Qed.
Next Obligation.
  intros x Hx. pose proof (metadata_at_bytes x Hx) as E. cbn [hkey metadata_keys].
  change (u32_at 8 (metadata_bytes x)) with (meta_dev (metadata_at (metadata_bytes x))).
  change (u32_at 12 (metadata_bytes x)) with (meta_ino (metadata_at (metadata_bytes x))). by rewrite E.
Qed.
Next Obligation. done. Qed.
Next Obligation. done. Qed.
Next Obligation. intros x Hx. by apply metadata_at_bytes. Qed.
Next Obligation. unfold METADATA_BASE, FH_MAPPING_SIZE. lia. Qed.

#[export] Program Instance mapping_layout : Layout fh_mapping 44 (Z.to_nat FH_MAPPING_SIZE) fh_mapping_hash fh_mapping_eq := {
  bytes_of := mapping_bytes;
  of_bytes := mapping_at
}.
Next Obligation. intros x Hx. apply Nat2Z.inj. by rewrite length_mapping_bytes. Qed.
Next Obligation. done. Qed.
Next Obligation.
  intros x Hx. pose proof (mapping_at_bytes x Hx) as E. cbn [hkey fh_mapping_keys].
  change (u32_at 12 (mapping_bytes x)) with (dev (map_master_fh (mapping_at (mapping_bytes x)))).
  change (u32_at 16 (mapping_bytes x)) with (ino (map_master_fh (mapping_at (mapping_bytes x)))). by rewrite E.
Qed.
Next Obligation. done. Qed.
Next Obligation. done. Qed.
Next Obligation. intros x Hx. by apply mapping_at_bytes. Qed.
Next Obligation. unfold METADATA_BASE, FH_MAPPING_SIZE. lia. Qed.

(** ** Tables *)

Record hash_table (R : Type) := Table { t_world : world; t_file : hfile }.
Arguments Table {R} t_world t_file.
Arguments t_world {R} h.
Arguments t_file {R} h.

Section table.
Context {R : Type} {esize base : nat} {hash : list Z -> Z} {eq : list Z -> list Z -> bool} `{Layout R esize base hash eq}.

Definition open_table (t : hash_table R) : hash_table R * bool :=
  let '(w, h) := (t_world t, t_file t) in
  if bool_decide (is_Some (fds w !! fd h)) then (t, true)
  else
    let '(w, d) := open_file w (file_name h) RdWrCreat in
    if d <? 0 then (Table w h, false) else (Table w (set_fd h d), true).

Definition on_bytes {B : Type} (r : res (world * hfile * list Z * B)) : res (hash_table R * R * B) :=
  '(w, h, y, b) ← r; Ok (Table w h, of_bytes y, b).

#[export] Instance hash_file_table : HashTable (hash_table R) R := {
  ht_open := open_table;
  ht_lookup t x := on_bytes (hfile_lookup (t_world t) (t_file t) (bytes_of x));
  ht_insert t x b := on_bytes (hfile_insert (t_world t) (t_file t) (bytes_of x) b);
  ht_delete t x := on_bytes (hfile_delete (t_world t) (t_file t) (bytes_of x))
}.

(** What the hash file stores for a structure. *)
Definition slot_of (x : R) : list Z := drop 4 (bytes_of x).

Record is_table (t : hash_table R) (M : gmap (Z * Z) R) : Prop := {
  it_quiet : quiet (t_world t);
  it_rep : hfile_ok (hash := hash) (eq := eq) (t_world t) (t_file t) (slot_of <$> M);
  it_valid : all_valid M;
  it_code : encode_f (t_file t) = None /\ decode_f (t_file t) = None;
  it_size : element_size (t_file t) = Z.of_nat esize;
  it_base : base_size (t_file t) = Z.of_nat base
}.

Lemma slot_with s x : slot_of (with_status s x) = slot_of x.
Proof. unfold slot_of. rewrite bytes_with. unfold set_status. by rewrite drop_app_length' by done. Qed.

Lemma length_slot x : egood x -> length (slot_of x) = (esize - 4)%nat.
Proof. intros Hx. unfold slot_of. by rewrite length_drop, bytes_length. Qed.

Lemma slot_blank : slot_of blank = replicate (esize - 4) 0.
Proof. unfold slot_of. by rewrite bytes_blank, drop_replicate. Qed.

Lemma stored_merged b old x : egood x -> (forall y, old = Some y -> egood y) ->
  slot_of (merged b old x) = HashFile.stored (bytes_of x) (if b : bool then base else esize) (default (replicate (esize - 4) 0) (slot_of <$> old)).
Proof.
  intros Hx Ho. unfold merged. rewrite slot_with. pose proof layout_base as Hb. pose proof (bytes_length x Hx) as Hlx.
  set (y := default blank old). assert (egood y /\ default (replicate (esize - 4) 0) (slot_of <$> old) = slot_of y) as [Hy ->].
  { unfold y. destruct old as [z|]; cbn; [by split; [apply Ho|]|split; [apply egood_blank|by rewrite slot_blank]]. }
  unfold HashFile.stored. destruct b.
  - unfold slot_of at 1. rewrite bytes_base by done. unfold slot_of. rewrite drop_drop, drop_app_le by (rewrite length_take; lia).
    replace (4 + (base - 4))%nat with base by lia. f_equal. by rewrite skipn_firstn_comm.
  - rewrite (drop_ge (slot_of y)) by (rewrite length_slot by done; lia). rewrite app_nil_r, take_ge; [done|].
    rewrite length_drop. lia.
Qed.

Lemma slot_back x : egood x -> estatus x = VALID_SLOT -> of_bytes (le_bytes 4 VALID_SLOT ++ slot_of x) = x.
Proof.
  intros Hx Hs. change (le_bytes 4 VALID_SLOT ++ slot_of x) with (set_status (bytes_of x) VALID_SLOT).
  rewrite <-bytes_with, valid_with by done. by apply of_bytes_of.
Qed.

Lemma status_back s x : is_u32 s -> egood x -> of_bytes (set_status (bytes_of x) s) = with_status s x.
Proof. intros Hs Hx. rewrite <-bytes_with. apply of_bytes_of. by apply egood_with. Qed.

Lemma is_table_params t w h M : is_table t M -> same_params (t_file t) h -> quiet w -> forall M', all_valid M' ->
  hfile_ok (hash := hash) (eq := eq) w h (slot_of <$> M') -> is_table (Table w h) M'.
Proof.
  intros [_ _ _ [C1 C2] S1 S2] (P1 & P2 & P3 & P4 & P5) Hq M' Hv Hr. split; cbn [t_world t_file]; try done; [split|..]; congruence.
Qed.

Lemma n_size t M n : is_table t M -> conf (t_file t) n -> n = esize.
Proof. intros [_ _ _ _ S1 _] [C1 _ _ _]. rewrite S1 in C1. lia. Qed.

Lemma struct_lookup t M x : is_table t M -> egood x -> exists t', ht_lookup t x = Ok (t', answer M x, true) /\ is_table t' M.
Proof.
  intros Ht Hx. pose proof (it_rep _ _ Ht) as (n & i & hdr & T & Hr). pose proof (n_size t M n Ht (hr_conf _ _ _ _ _ _ _ Hr)) as ->.
  destruct (it_code _ _ Ht) as [C1 C2].
  destruct (hfile_lookup_ok _ _ _ _ _ _ _ (bytes_of x) Hr (bytes_length x Hx)) as (w' & h' & y & r & E & Hm & (e & ->) & Hy).
  destruct r; [|by destruct Hy; apply Ht]. exists (Table w' (set_element (t_file t) e)). cbn [ht_lookup hash_file_table]. rewrite E. unfold on_bytes. cbn [mbind res_bind].
  split.
  - do 3 f_equal. rewrite Hy. unfold lookup_result. rewrite C1, C2. cbn [codec]. rewrite lookup_fmap, (bytes_key x Hx). unfold answer.
    destruct (M !! ekey x) as [v|] eqn:Ek; cbn [fmap option_fmap option_map from_option id].
    + destruct (it_valid _ _ Ht _ _ Ek) as (_ & V2 & V3). by apply slot_back.
    + by apply status_back.
  - eapply is_table_params; [exact Ht|done| |apply Ht|]; [eapply moved_quiet; [exact Hm|apply Ht]|].
    exists esize, i, hdr, T. by apply hf_rep_element, (hf_rep_moved _ _ _ _ _ _ _ _ Hr).
Qed.

Lemma struct_insert t M x b : is_table t M -> Z.of_nat (size M) < 2 ^ 29 -> egood x ->
  exists t', ht_insert t x b = Ok (t', with_status VALID_SLOT x, true) /\ is_table t' (<[ekey x := merged b (M !! ekey x) x]> M).
Proof.
  intros Ht Hs Hx. pose proof (it_rep _ _ Ht) as (n & i & hdr & T & Hr). pose proof (n_size t M n Ht (hr_conf _ _ _ _ _ _ _ Hr)) as ->.
  destruct (it_code _ _ Ht) as [C1 C2].
  destruct (hf_step_ok _ _ _ _ _ _ _ (OpInsert (bytes_of x) b) Hr) as (w' & h' & i' & hdr' & T' & E & Hq & Hp & Hr').
  { by rewrite map_size_fmap. }
  { by apply bytes_length. }
  { apply Ht. }
  exists (Table w' h'). cbn [hf_step spec_step fst snd] in *. cbn [ht_insert hash_file_table]. rewrite E. unfold on_bytes. cbn [mbind res_bind].
  split; [do 3 f_equal; by apply status_back; [apply u32_valid|]|].
  eapply is_table_params; [exact Ht|exact Hp|exact Hq|apply all_valid_insert; [apply Ht|done]|].
  exists esize, i', hdr', T'. rewrite fmap_insert, stored_merged; [|done|intros y Hy; by apply (it_valid _ _ Ht _ _ Hy)].
  unfold insert_result in Hr'. rewrite C1 in Hr'. cbn [codec] in Hr'. rewrite (bytes_key x Hx), lookup_fmap, (it_size _ _ Ht), (it_base _ _ Ht), Nat2Z.id in Hr'.
  by destruct b; rewrite ?Nat2Z.id in Hr'.
Qed.

Lemma struct_delete t M x : is_table t M -> Z.of_nat (size M) < 2 ^ 29 -> egood x ->
  exists t' y, ht_delete t x = Ok (t', y, true) /\ is_table t' (delete (ekey x) M).
Proof.
  intros Ht Hs Hx. pose proof (it_rep _ _ Ht) as (n & i & hdr & T & Hr). pose proof (n_size t M n Ht (hr_conf _ _ _ _ _ _ _ Hr)) as ->.
  destruct (it_code _ _ Ht) as [C1 C2].
  destruct (hf_step_ok _ _ _ _ _ _ _ (HashFile.OpDelete (bytes_of x)) Hr) as (w' & h' & i' & hdr' & T' & E & Hq & Hp & Hr').
  { by rewrite map_size_fmap. }
  { by apply bytes_length. }
  { apply Ht. }
  cbn [hf_step spec_step fst snd] in *. cbn [ht_delete hash_file_table]. rewrite E. unfold on_bytes. cbn [mbind res_bind].
  eexists _, _. split; [done|]. eapply is_table_params; [exact Ht|exact Hp|exact Hq|apply all_valid_delete, Ht|].
  exists esize, i', hdr', T'. rewrite fmap_delete. unfold delete_result in Hr'. rewrite C1 in Hr'. cbn [codec] in Hr'.
  by rewrite (bytes_key x Hx) in Hr'.
Qed.

Lemma table_open t M : is_table t M -> open_table t = (t, true).
Proof.
  intros Ht. pose proof (it_rep _ _ Ht) as (n & i & hdr & T & Hr). destruct (hr_disk _ _ _ _ _ _ _ Hr) as [(p & Hfd) _ _ _].
  unfold open_table. cbn. rewrite bool_decide_true; [done|]. by eexists.
Qed.

#[export] Program Instance hash_file_laws : TableLaws (hash_table R) R := { holds := is_table }.
Next Obligation. intros t M Ht. exists t. split; [by eapply table_open|done]. Qed.
Next Obligation. intros. by apply struct_lookup. Qed.
Next Obligation. intros. by apply struct_insert. Qed.
Next Obligation. intros. by apply struct_delete. Qed.
Next Obligation. intros t M k v Ht Hk. by apply (it_valid _ _ Ht). Qed.

(** C27. A hash file with its structures is a map from keys to structures: as long as no
    system call fails, looking up gives the structure at the key or says that
    there is none, inserting stores the structure (only its base, when asked
    for: the rest stays what it was, zeros for a new key), deleting removes it. *)
Theorem hash_file_holds_structures t M x b : is_table t M -> Z.of_nat (size M) < 2 ^ 29 -> egood x ->
  (exists t', ht_lookup t x = Ok (t', answer M x, true) /\ is_table t' M) /\
  (exists t', ht_insert t x b = Ok (t', with_status VALID_SLOT x, true) /\
     is_table t' (<[ekey x := with_status VALID_SLOT (if b : bool then base_of x (default blank (M !! ekey x)) else x)]> M)) /\
  (exists t' y, ht_delete t x = Ok (t', y, true) /\ is_table t' (delete (ekey x) M)).
Proof.
  intros Ht Hs Hx. split; [by apply struct_lookup|]. split; [by apply (struct_insert t M x b)|by apply struct_delete].
Qed.
End table.

(** ** The hash files of a new volume *)

Definition meta_path : string := "/v/.zfs/metadata".
Definition meta_world : world := World {[ 3%nat := Inode true [] ]} {[ meta_path := 3%nat ]} {[ 5 := (3%nat, 0%nat) ]} 0 [].
Definition meta_file : hfile := MkHfile [] METADATA_SIZE METADATA_BASE 32 0 0 metadata_hash metadata_eq None None meta_path 5 0.

Lemma new_metadata_table : exists w, init_hash_file meta_world meta_file = Ok (w, meta_file, true) /\
  is_table (R := metadata) (Table w meta_file) ∅.
Proof.
  destruct (init_short_file (hash := metadata_hash) (eq := metadata_eq) meta_world meta_file 128 3 32 []) as (w & E & Hq & Hok);
    try done; try (cbn; lia).
  { constructor. }
  { by exists 5. }
  exists w. split; [exact E|]. split; cbn [t_world t_file]; [exact Hq| |intros k x Hk; by rewrite lookup_empty in Hk|done|done|done].
  by rewrite fmap_empty.
Qed.

Definition some_metadata : metadata := copy_of local_a master_1.

Lemma some_metadata_good : egood some_metadata.
Proof. apply copy_good; by apply fh_wf_small. Qed.

Lemma hash_file_holds_structures_witness : exists w t1 t2,
  init_hash_file meta_world meta_file = Ok (w, meta_file, true) /\
  ht_insert (Table w meta_file) some_metadata false = Ok (t1, some_metadata, true) /\
  ht_lookup t1 (with_key blank 8 20) = Ok (t2, some_metadata, true).
Proof.
  destruct new_metadata_table as (w & E & Ht).
  destruct (hash_file_holds_structures (Table w meta_file) ∅ some_metadata false Ht ltac:(done) some_metadata_good)
    as (_ & (t1 & E1 & H1) & _).
  assert (egood (with_key blank 8 20)) as Hg by (apply good_key; [apply good_blank|unfold is_u32; lia|unfold is_u32; lia]).
  destruct (hash_file_holds_structures t1 _ (with_key blank 8 20) false H1 ltac:(done) Hg) as ((t2 & E2 & _) & _).
  exists w, t1, t2. split; [exact E|]. split; [exact E1|]. exact E2.
Defined.

(** The operations on a volume with hash files: what holds of tables holds of them. *)
Lemma volume_on_hash_files tm tf w m c : is_table (R := metadata) tm ∅ -> is_table (R := fh_mapping) tf ∅ ->
  tables (Vol tm tf w m c false) ∅ ∅ c /\ inv ∅ ∅.
Proof. intros H1 H2. split; [by split_and!|apply inv_empty]. Qed.
