(* ===== verification/VirtualDir.v ===== *)
(** Virtual directories of [src/zfsd/fs-entities/handle/fh.c]: the tree of directories
    above the volumes.  A volume is mounted at a path of virtual directories, which
    are created with the mount point and removed with the last mount point below
    them; [n_mountpoints] counts those.

    The state has the memory of the directories, the two hash tables as finite maps
    (a hash table implements one, see [Hashtab.v]; [virtual_dir_eq] does not compare
    the generation, but the hash does, and every generation is 1), the fields of
    the volumes that are used here, and the file handles the kernel was told to
    forget. *)

From S2P Require Import Prelude AllocPool DataCoding Capability.
#[local] Open Scope Z_scope.

Definition VIRTUAL_DEVICE : Z := 1.
Definition ROOT_INODE : Z := 1.
Definition DEFAULT_ZFS_UID : Z := u32 (-2).
Definition DEFAULT_ZFS_GID : Z := u32 (-2).

(** ** State *)

(** [vd_vol] is the identifier of the volume the pointer designates. *)
Record vdir := Vdir {
  vd_fh : zfs_fh; vd_parent : option ptr; vd_name : list Z; vd_vol : option Z; vd_cap : option ptr; vd_attr : fattr;
  subdirs : list ptr; subdir_index : nat; n_mountpoints : Z; busy : bool; vd_users : Z; deleted : Z
}.

(** [mountpoint] is [None] when the string is invalid. *)
Record volume := Vol { mountpoint : option (list Z); root_vd : option ptr }.

Definition fh_key : Type := Z * Z * Z * Z * Z.
Definition key_of (fh : zfs_fh) : fh_key := (sid fh, vid fh, dev fh, ino fh, gen fh).

(** [now] is what [time (NULL)] returns, [caps] the capabilities of directories. *)
Record state := State {
  vdirs : gmap ptr vdir; vd_pool : alloc_pool; vd_htab : gmap fh_key ptr; vd_htab_name : gmap (ptr * list Z) ptr;
  last_virtual_ino : Z; root : ptr; vols : gmap Z volume; caps : gset ptr; invalidated : list zfs_fh; now : Z
}.

Definition set_vdirs (s : state) x := State x (vd_pool s) (vd_htab s) (vd_htab_name s) (last_virtual_ino s) (root s) (vols s) (caps s) (invalidated s) (now s).
Definition set_pool (s : state) x := State (vdirs s) x (vd_htab s) (vd_htab_name s) (last_virtual_ino s) (root s) (vols s) (caps s) (invalidated s) (now s).
Definition set_tables (s : state) x y := State (vdirs s) (vd_pool s) x y (last_virtual_ino s) (root s) (vols s) (caps s) (invalidated s) (now s).
Definition set_last (s : state) x := State (vdirs s) (vd_pool s) (vd_htab s) (vd_htab_name s) x (root s) (vols s) (caps s) (invalidated s) (now s).
Definition set_vols (s : state) x := State (vdirs s) (vd_pool s) (vd_htab s) (vd_htab_name s) (last_virtual_ino s) (root s) x (caps s) (invalidated s) (now s).
Definition set_caps (s : state) x := State (vdirs s) (vd_pool s) (vd_htab s) (vd_htab_name s) (last_virtual_ino s) (root s) (vols s) x (invalidated s) (now s).
Definition fs_invalidate_fh (s : state) (fh : zfs_fh) :=
  State (vdirs s) (vd_pool s) (vd_htab s) (vd_htab_name s) (last_virtual_ino s) (root s) (vols s) (caps s) (fh :: invalidated s) (now s).

Definition vdir_at (s : state) (p : ptr) : res vdir := match vdirs s !! p with Some d => Ok d | None => Aborted end.
Definition set_vdir (s : state) (p : ptr) (d : vdir) : state := set_vdirs s (<[p := d]> (vdirs s)).
Definition vol_at (s : state) (v : Z) : res volume := match vols s !! v with Some x => Ok x | None => Aborted end.
Definition set_vol (s : state) (v : Z) (x : volume) : state := set_vols s (<[v := x]> (vols s)).

Definition with_vol (d : vdir) (v : option Z) :=
  Vdir (vd_fh d) (vd_parent d) (vd_name d) v (vd_cap d) (vd_attr d) (subdirs d) (subdir_index d) (n_mountpoints d) (busy d) (vd_users d) (deleted d).
Definition with_cap (d : vdir) (c : option ptr) :=
  Vdir (vd_fh d) (vd_parent d) (vd_name d) (vd_vol d) c (vd_attr d) (subdirs d) (subdir_index d) (n_mountpoints d) (busy d) (vd_users d) (deleted d).
Definition with_count (d : vdir) (n : Z) :=
  Vdir (vd_fh d) (vd_parent d) (vd_name d) (vd_vol d) (vd_cap d) (vd_attr d) (subdirs d) (subdir_index d) n (busy d) (vd_users d) (deleted d).
Definition with_index (d : vdir) (i : nat) :=
  Vdir (vd_fh d) (vd_parent d) (vd_name d) (vd_vol d) (vd_cap d) (vd_attr d) (subdirs d) i (n_mountpoints d) (busy d) (vd_users d) (deleted d).
Definition with_lock (d : vdir) (b : bool) (users del : Z) :=
  Vdir (vd_fh d) (vd_parent d) (vd_name d) (vd_vol d) (vd_cap d) (vd_attr d) (subdirs d) (subdir_index d) (n_mountpoints d) b users del.

(** The subdirectories change, and with them the number of links and the times. *)
Definition with_subdirs (d : vdir) (l : list ptr) (links time : Z) :=
  let a := vd_attr d in
  Vdir (vd_fh d) (vd_parent d) (vd_name d) (vd_vol d) (vd_cap d)
    (MkFattr (fa_dev a) (fa_ino a) (fa_version a) (fa_type a) (fa_mode a) (u32 (fa_nlink a + links)) (fa_uid a) (fa_gid a) (fa_rdev a)
       (fa_size a) (fa_blocks a) (fa_blksize a) (fa_atime a) time time)
    l (subdir_index d) (n_mountpoints d) (busy d) (vd_users d) (deleted d).

(** ** Creating and finding directories *)

(** [S_IRUSR | S_IXUSR | S_IRGRP | S_IXGRP | S_IROTH | S_IXOTH] is [0555]. *)
Definition virtual_dir_set_fattr (fh : zfs_fh) (time : Z) : fattr :=
  MkFattr (dev fh) (ino fh) 0 FT_DIR 0x16d 2 DEFAULT_ZFS_UID DEFAULT_ZFS_GID 0 0 0 4096 time time time.

Definition root_fh : zfs_fh := MkFh NODE_ID_NONE VOLUME_ID_VIRTUAL VIRTUAL_DEVICE ROOT_INODE 1.

Definition next_virtual_ino (last : Z) : Z := let i := u32 (last + 1) in if i <=? ROOT_INODE then ROOT_INODE + 1 else i.

(** [*slot = vd] in both tables, which must not have the keys. *)
Definition enter_fh (s : state) (fh : zfs_fh) (p : ptr) : res state :=
  match vd_htab s !! key_of fh with Some _ => Aborted | None => Ok (set_tables s (<[key_of fh := p]> (vd_htab s)) (vd_htab_name s)) end.
Definition enter_name (s : state) (k : ptr * list Z) (p : ptr) : res state :=
  match vd_htab_name s !! k with Some _ => Aborted | None => Ok (set_tables s (vd_htab s) (<[k := p]> (vd_htab_name s))) end.

Definition virtual_dir_create (s : state) (parent : ptr) (name : list Z) : res (state * ptr) :=
  let i := next_virtual_ino (last_virtual_ino s) in
  let fh := MkFh NODE_ID_NONE VOLUME_ID_VIRTUAL VIRTUAL_DEVICE i 1 in
  '(p, pl) ← pool_alloc (vd_pool s);
  pd ← vdir_at s parent;
  let d := Vdir fh (Some parent) name None None (virtual_dir_set_fattr fh (now s)) [] (length (subdirs pd)) 0 false 0 0 in
  let s := set_vdir (set_pool (set_last s i) pl) p d in
  let s := set_vdir s parent (with_subdirs pd (subdirs pd ++ [p]) 1 (now s)) in
  s ← enter_fh s fh p;
  s ← enter_name s (parent, name) p;
  Ok (fs_invalidate_fh s (vd_fh pd), p).

(** The check when a directory was found. *)
Definition locked_vd (s : state) (o : option ptr) : res (option ptr) :=
  match o with
  | None => Ok None
  | Some p => d ← vdir_at s p; if (0 <? deleted d) && negb (busy d) then Aborted else Ok (Some p)
  end.

Definition vd_lookup (s : state) (fh : zfs_fh) : res (option ptr) := locked_vd s (vd_htab s !! key_of fh).
Definition vd_lookup_name (s : state) (parent : ptr) (name : list Z) : res (option ptr) := locked_vd s (vd_htab_name s !! (parent, name)).

(** The part of [zfs_fh_lookup_nolock] for a virtual directory: the directory and its
    volume, whose mutex is locked. *)
Definition lookup_virtual (s : state) (fh : zfs_fh) : res (option (ptr * option Z)) :=
  o ← vd_lookup s fh;
  match o with
  | None => Ok None
  | Some p =>
      d ← vdir_at s p;
      match vd_vol d with None => Ok (Some (p, None)) | Some v => _ ← vol_at s v; Ok (Some (p, Some v)) end
  end.

(** ** Removing directories *)

(** [put_capability] of the only user *)
Definition release_cap (s : state) (d : vdir) : res (state * vdir) :=
  match vd_cap d with
  | None => Ok (s, d)
  | Some c => if decide (c ∈ caps s) then Ok (set_caps s (caps s ∖ {[c]}), with_cap d None) else Aborted
  end.

(** The body for a directory whose last mount point has gone. *)
Definition remove_vdir (s : state) (p : ptr) : res state :=
  d ← vdir_at s p;
  '(s, d) ← release_cap s d;
  if decide (subdirs d <> []) then Aborted
  else
    match vd_parent d with
    | None => Aborted
    | Some q =>
        pd ← vdir_at s q;
        match last (subdirs pd) with
        | None => Aborted
        | Some top =>
            if decide (subdir_index d < length (subdirs pd))%nat then
              let s := set_vdir s q (with_subdirs pd (take (length (subdirs pd) - 1) (<[subdir_index d := top]> (subdirs pd))) (-1) (now s)) in
              td ← vdir_at s top;
              let s := set_vdir s top (with_index td (subdir_index d)) in
              if decide (vd_htab_name s !! (q, vd_name d) = None \/ vd_htab s !! key_of (vd_fh d) = None) then Aborted
              else
                let s := set_tables s (delete (key_of (vd_fh d)) (vd_htab s)) (delete (q, vd_name d) (vd_htab_name s)) in
                let s := fs_invalidate_fh s (vd_fh d) in
                pl ← pool_free (vd_pool s) p;
                Ok (set_pool (set_vdirs s (delete p (vdirs s))) pl)
            else Aborted
        end
    end.

(** The path to the root is walked; [fuel] is the number of directories. *)
Fixpoint destroy_loop (fuel : nat) (s : state) (count : Z) (vd : option ptr) : res state :=
  match vd with
  | None => Ok s
  | Some p =>
      match fuel with
      | O => OutOfFuel
      | S fuel =>
          d ← vdir_at s p;
          if busy d then Ok (set_vdir s p (with_lock d true (vd_users d) (u32 (deleted d + 1))))
          else
            let parent := vd_parent d in
            let count := if 1 <? deleted d then u32 (count + (deleted d - 1)) else count in
            if n_mountpoints d <? count then Aborted
            else
              let n := n_mountpoints d - count in
              let s := set_vdir s p (with_count d n) in
              s ← (if n =? 0 then remove_vdir s p else Ok s);
              destroy_loop fuel s count parent
      end
  end.

Definition virtual_dir_destroy (s : state) (p : ptr) : res state := destroy_loop (size (vdirs s)) s 1 (Some p).

(** What [internal_cap_lock] and [internal_cap_unlock] do with the directory. *)
Definition lock_vd (s : state) (p : ptr) : res state :=
  d ← vdir_at s p; Ok (set_vdir s p (with_lock d true (u32 (vd_users d + 1)) (deleted d))).
Definition unlock_vd (s : state) (p : ptr) : res state :=
  d ← vdir_at s p;
  let users := u32 (vd_users d - 1) in
  if users =? 0 then
    let s := set_vdir s p (with_lock d false users (deleted d)) in
    if 0 <? deleted d then virtual_dir_destroy s p else Ok s
  else Ok (set_vdir s p (with_lock d (busy d) users (deleted d))).

(** ** The root *)

Definition virtual_root_create (s : state) : res (state * ptr) :=
  '(p, pl) ← pool_alloc (vd_pool s);
  let d := Vdir root_fh None [] None None (virtual_dir_set_fattr root_fh (now s)) [] 0 1 false 0 0 in
  let s := set_vdir (set_pool s pl) p d in
  Ok (set_tables s (<[key_of root_fh := p]> (vd_htab s)) (vd_htab_name s), p).

Definition virtual_root_destroy (s : state) (p : ptr) : res state :=
  d ← vdir_at s p;
  '(s, d) ← release_cap s d;
  if decide (subdirs d <> [] \/ vd_htab s !! key_of (vd_fh d) = None) then Aborted
  else
    pl ← pool_free (vd_pool s) p;
    Ok (set_pool (set_vdirs (set_tables s (delete (key_of (vd_fh d)) (vd_htab s)) (vd_htab_name s)) (delete p (vdirs s))) pl).

Definition set_root (s : state) (p : ptr) : state :=
  State (vdirs s) (vd_pool s) (vd_htab s) (vd_htab_name s) (last_virtual_ino s) p (vols s) (caps s) (invalidated s) (now s).

(** The end of [initialize_fh_c] *)
Definition initialize (s : state) : res state := '(s, p) ← virtual_root_create s; Ok (set_root s p).

(** ** Mount points *)

Fixpoint skip_slashes (s : list Z) : list Z :=
  match s with c :: s' => if c =? 47 then skip_slashes s' else s | [] => [] end.

(** The characters up to a slash, and those after it. *)
Fixpoint component (s : list Z) : list Z * list Z :=
  match s with
  | [] => ([], [])
  | c :: s => if c =? 47 then ([], s) else let '(a, r) := component s in (c :: a, r)
  end.

(** The loop that splits the path. *)
Fixpoint split_path (fuel : nat) (s : list Z) : res (list (list Z)) :=
  match skip_slashes s with
  | [] => Ok []
  | s => match fuel with O => OutOfFuel | S fuel => let '(a, r) := component s in l ← split_path fuel r; Ok (a :: l) end
  end.

(** The components of the path are found or created. *)
Fixpoint make_path (s : state) (vd : ptr) (subpath : list (list Z)) : res (state * ptr) :=
  match subpath with
  | [] => Ok (s, vd)
  | name :: subpath =>
      o ← vd_lookup_name s vd name;
      '(s, vd) ← match o with Some p => Ok (s, p) | None => virtual_dir_create s vd name end;
      d ← vdir_at s vd;
      if VIRTUAL_FH_P (vd_fh d) then make_path s vd subpath else Aborted
  end.

(** Increase the count of volumes in the directories up to the root. *)
Fixpoint add_mountpoint (fuel : nat) (s : state) (vd : option ptr) : res state :=
  match vd with
  | None => Ok s
  | Some p =>
      match fuel with
      | O => OutOfFuel
      | S fuel => d ← vdir_at s p; add_mountpoint fuel (set_vdir s p (with_count d (u32 (n_mountpoints d + 1)))) (vd_parent d)
      end
  end.

Definition virtual_mountpoint_create (s : state) (v : Z) : res (state * ptr) :=
  x ← vol_at s v;
  match mountpoint x with
  | None => Aborted
  | Some path =>
      subpath ← split_path (length path) path;
      '(s, p) ← make_path s (root s) subpath;
      d ← vdir_at s p;
      let s := set_vol (set_vdir s p (with_vol d (Some v))) v (Vol (mountpoint x) (Some p)) in
      s ← add_mountpoint (size (vdirs s)) s (Some p);
      Ok (s, p)
  end.

Definition virtual_mountpoint_destroy (s : state) (v : Z) : res state :=
  x ← vol_at s v;
  match root_vd x with
  | None => Ok s
  | Some p => s ← virtual_dir_destroy s p; Ok (set_vol s v (Vol (mountpoint x) None))
  end.

(** The end of [volume_set_common_info]; for an empty path and a volume without one,
    [strcmp] is called with a null pointer. *)
Definition set_mountpoint (s : state) (v : Z) (path : list Z) : res state :=
  x ← vol_at s v;
  match mountpoint x, path with
  | None, [] => Aborted
  | m, _ =>
      if decide (m = Some path) then Ok s
      else
        s ← virtual_mountpoint_destroy s v;
        x ← vol_at s v;
        '(s, _) ← virtual_mountpoint_create (set_vol s v (Vol (Some path) (root_vd x))) v;
        Ok s
  end.

(** What [volume_create] and [volume_destroy] do here. *)
Definition create_volume (s : state) (v : Z) : res state :=
  match vols s !! v with Some _ => Aborted | None => Ok (set_vol s v (Vol None None)) end.
Definition destroy_volume (s : state) (v : Z) : res state :=
  s ← virtual_mountpoint_destroy s v; Ok (set_vols s (delete v (vols s))).

(** ** The tree the memory represents *)

(** A path is the list of its components, the last one first. *)
Abbreviation path := (list (list Z)).

(** [D] has the directories by path, [cnt] their counts of mount points. *)
Record dir_ok (s : state) (D : gmap path ptr) (cnt : path -> Z) (p : path) (q : ptr) (d : vdir) : Prop := {
  do_fh : vd_fh d = MkFh NODE_ID_NONE VOLUME_ID_VIRTUAL VIRTUAL_DEVICE (ino (vd_fh d)) 1;
  do_parent : vd_parent d = match p with [] => None | _ :: p' => D !! p' end;
  do_name : vd_name d = match p with n :: _ => n | [] => [] end;
  do_cap : forall c, vd_cap d = Some c -> c ∈ caps s /\ forall q' d', vdirs s !! q' = Some d' -> vd_cap d' = Some c -> q' = q;
  do_count : n_mountpoints d = cnt p;
  do_busy : busy d = false;
  do_deleted : deleted d = 0;
  do_nodup : NoDup (subdirs d);
  do_subdirs : forall r, r ∈ subdirs d <-> exists n, D !! (n :: p) = Some r;
  do_index : forall r d', r ∈ subdirs d -> vdirs s !! r = Some d' -> subdirs d !! subdir_index d' = Some r;
  do_links : fa_nlink (vd_attr d) = u32 (2 + Z.of_nat (length (subdirs d)))
}.

Record rep (s : state) (D : gmap path ptr) (cnt : path -> Z) : Prop := {
  rp_root : D !! [] = Some (root s);
  rp_inj : forall p p' q, D !! p = Some q -> D !! p' = Some q -> p = p';
  rp_up : forall n p, is_Some (D !! (n :: p)) -> is_Some (D !! p);
  rp_dir : forall p q, D !! p = Some q -> exists d, vdirs s !! q = Some d /\ dir_ok s D cnt p q d;
  rp_only : forall q, is_Some (vdirs s !! q) -> exists p, D !! p = Some q;
  rp_pool : pool_ok (vd_pool s);
  rp_used : forall q, q ∈ in_use (vd_pool s) <-> is_Some (vdirs s !! q);
  rp_fh : forall f q, vd_htab s !! f = Some q <-> exists d, vdirs s !! q = Some d /\ key_of (vd_fh d) = f;
  rp_name : forall q n r, vd_htab_name s !! (q, n) = Some r <-> exists p, D !! p = Some q /\ D !! (n :: p) = Some r;
  rp_ino : forall q d, vdirs s !! q = Some d -> 1 <= ino (vd_fh d) <= Z.max 1 (last_virtual_ino s)
}.

Lemma rep_dir s D cnt p q d : rep s D cnt -> D !! p = Some q -> vdirs s !! q = Some d -> dir_ok s D cnt p q d.
Proof. intros H Hp Hd. destruct (rp_dir _ _ _ H _ _ Hp) as (d' & E & Hd'). congruence. Qed.

(** Directories that differ in what the invariant does not look at, and in the count. *)
Definition same_dir (d d' : vdir) : Prop :=
  vd_fh d' = vd_fh d /\ vd_parent d' = vd_parent d /\ vd_name d' = vd_name d /\ vd_cap d' = vd_cap d /\ subdirs d' = subdirs d /\
  subdir_index d' = subdir_index d /\ busy d' = false /\ deleted d' = 0 /\ vd_attr d' = vd_attr d.

Lemma rep_update s D cnt cnt' p q d d' : rep s D cnt -> D !! p = Some q -> vdirs s !! q = Some d -> same_dir d d' ->
  cnt' p = n_mountpoints d' -> (forall p', p' <> p -> cnt' p' = cnt p') -> rep (set_vdir s q d') D cnt'.
Proof.
  intros H Hp Hd (E1 & E2 & E3 & E4 & E5 & E6 & E7 & E8 & E9) Hc Ho.
  assert (forall q' x', <[q := d']> (vdirs s) !! q' = Some x' -> exists x, vdirs s !! q' = Some x /\ vd_fh x' = vd_fh x /\
    vd_cap x' = vd_cap x /\ subdirs x' = subdirs x /\ subdir_index x' = subdir_index x) as Hback.
  { intros q' x' [[<- <-]|[_ Hx]]%lookup_insert_Some; [exists d; done|by exists x']. }
  assert (forall q', is_Some (<[q := d']> (vdirs s) !! q') <-> is_Some (vdirs s !! q')) as Hsome.
  { intros q'. rewrite lookup_insert_is_Some'. split; [intros [<-|?]; [by eexists|done]|by right]. }
  split; try (by apply H); cbn [set_vdir set_vdirs vdirs vd_pool vd_htab vd_htab_name last_virtual_ino].
  - intros p' q' Hp'. destruct (decide (q' = q)) as [->|Hq].
    + assert (p' = p) as -> by (by eapply rp_inj). exists d'. rewrite lookup_insert_eq. split; [done|].
      destruct (rep_dir _ _ _ _ _ _ H Hp Hd) as [D1 D2 D3 D4 D5 D6 D7 D8 D9 D10 D11].
      split; cbn [caps set_vdir set_vdirs vdirs]; rewrite ?E1, ?E2, ?E3, ?E4, ?E5, ?E6, ?E9; try done.
      * intros c Hc'. destruct (D4 c Hc') as [G1 G2]. split; [done|]. intros q' x' (x & Hx & _ & Ex & _)%Hback. rewrite Ex. by apply G2.
      * intros r x' Hr (x & Hx & _ & _ & _ & Ex)%Hback. rewrite Ex. by apply D10.
    + destruct (rp_dir _ _ _ H _ _ Hp') as (x & Hx & [D1 D2 D3 D4 D5 D6 D7 D8 D9 D10 D11]). exists x. rewrite lookup_insert_ne by done.
      split; [done|]. split; cbn [caps set_vdir set_vdirs vdirs]; try done.
      * intros c Hc'. destruct (D4 c Hc') as [G1 G2]. split; [done|]. intros q'' x' (y & Hy & _ & Ey & _)%Hback. rewrite Ey. by apply G2.
      * rewrite Ho; [done|]. intros ->. congruence.
      * intros r x' Hr (y & Hy & _ & _ & _ & Ey)%Hback. rewrite Ey. by apply D10.
  - intros q' Hq'. apply H. by apply Hsome.
  - intros q'. rewrite Hsome. apply H.
  - intros f q'. rewrite (rp_fh _ _ _ H). split.
    + intros (x & Hx & Ex). destruct (decide (q' = q)) as [->|Hq]; [exists d'|exists x].
      * rewrite lookup_insert_eq. split; [done|]. rewrite E1. congruence.
      * by rewrite lookup_insert_ne.
    + intros (x' & (x & Hx & Ex & _)%Hback & E). exists x. split; [done|]. by rewrite <-Ex.
  - intros q' x' (x & Hx & Ex & _)%Hback. rewrite Ex. by apply (rp_ino _ _ _ H) in Hx.
Qed.

(** ** The loop that adds a mount point *)

Lemma tail_suffix (n : list Z) (p p' : path) : (p' `suffix_of` n :: p) <-> p' = n :: p \/ p' `suffix_of` p.
Proof.
  split.
  - intros [k E]. destruct k as [|x k]; [by left|]. right. injection E as _ E. by exists k.
  - intros [->|[k ->]]; [done|]. by exists (n :: k).
Qed.

Definition on_path (r p : path) : Z := if decide (p `suffix_of` r) then 1 else 0.

Lemma on_path_nil p : on_path [] p = if decide (p = []) then 1 else 0.
Proof.
  unfold on_path. destruct (decide (p = [])) as [->|Hp]; [by rewrite decide_True|]. rewrite decide_False; [done|]. intros E.
  by apply suffix_nil_inv in E.
Qed.

Lemma on_path_cons n r p : on_path (n :: r) p = (if decide (p = n :: r) then 1 else 0) + on_path r p.
Proof.
  unfold on_path. destruct (decide (p = n :: r)) as [->|Hp].
  - rewrite decide_True by done. rewrite decide_False; [done|]. intros E%suffix_length. cbn in E. lia.
  - destruct (decide (p `suffix_of` r)) as [Hs|Hs]; [rewrite decide_True|rewrite decide_False]; try done; rewrite tail_suffix; tauto.
Qed.

Lemma rep_ext s D cnt cnt' : rep s D cnt -> (forall p, is_Some (D !! p) -> cnt' p = cnt p) -> rep s D cnt'.
Proof.
  intros H E. destruct H as [H1 H2 H3 H4 H5 H6 H7 H8 H9 H10]. split; try done. intros p q Hp. destruct (H4 p q Hp) as (d & Hd & [D1 D2 D3 D4 D5 D6 D7 D8 D9 D10 D11]).
  exists d. split; [done|]. split; try done. rewrite E; [done|by eexists].
Qed.

(** What the operations leave: other components of the state, and of a directory the
    volume and the handle. *)
Definition frame (s s' : state) : Prop :=
  vols s' = vols s /\ root s' = root s /\ last_virtual_ino s <= last_virtual_ino s' /\
  forall q d d', vdirs s !! q = Some d -> vdirs s' !! q = Some d' -> vd_vol d' = vd_vol d /\ vd_fh d' = vd_fh d.

Lemma frame_refl s : frame s s.
Proof. split_and!; [done|done|done|]. intros q d d' E1 E2. rewrite E1 in E2. by injection E2 as ->. Qed.

Lemma frame_trans s1 s2 s3 : (forall q, is_Some (vdirs s1 !! q) -> is_Some (vdirs s3 !! q) -> is_Some (vdirs s2 !! q)) ->
  frame s1 s2 -> frame s2 s3 -> frame s1 s3.
Proof.
  intros Hs (A1 & A2 & A3 & A4) (B1 & B2 & B3 & B4). split_and!; [congruence|congruence|lia|]. intros q d d' E1 E2.
  destruct (Hs q) as [x Ex]; [by eexists|by eexists|]. destruct (A4 _ _ _ E1 Ex) as [<- <-]. by apply (B4 _ _ _ Ex).
Qed.

Lemma frame_set s q d d' : vdirs s !! q = Some d -> vd_vol d' = vd_vol d -> vd_fh d' = vd_fh d -> frame s (set_vdir s q d').
Proof.
  intros Hd E1 E2. split_and!; [done|done|cbn; lia|]. cbn. intros q' x x' Hx [[<- <-]|[_ Hx']]%lookup_insert_Some.
  - rewrite Hd in Hx. by injection Hx as <-.
  - rewrite Hx in Hx'. by injection Hx' as <-.
Qed.

(** A path is shorter than the number of directories. *)
Lemma path_short s D cnt p q : rep s D cnt -> D !! p = Some q -> (length p < size (vdirs s))%nat.
Proof.
  intros H Hp.
  assert (exists l, NoDup l /\ length l = S (length p) /\ forall x, x ∈ l -> exists p', p' `suffix_of` p /\ D !! p' = Some x) as (l & Hnd & El & Hl).
  { apply mk_is_Some in Hp. clear q. induction p as [|n p IH].
    - exists [root s]. split_and!; [apply NoDup_singleton|done|]. intros x ->%list_elem_of_singleton. exists []. split; [done|apply H].
    - destruct IH as (l & Hnd & El & Hl); [by eapply rp_up|]. destruct Hp as [q Hp]. exists (q :: l). split_and!.
      + constructor; [|done]. intros (p' & Hs & Hp')%Hl. rewrite <-(rp_inj _ _ _ H _ _ _ Hp Hp') in Hs. apply suffix_length in Hs. cbn in Hs. lia.
      + cbn. by rewrite El.
      + intros x [->|Hx]%elem_of_cons; [by exists (n :: p)|]. destruct (Hl x Hx) as (p' & Hs & Hp'). exists p'. split; [by apply suffix_cons_r|done]. }
  assert (size (list_to_set l : gset ptr) = S (length p)) as Es by (rewrite size_list_to_set; done).
  assert ((list_to_set l : gset ptr) ⊆ dom (vdirs s)) as Hsub.
  { intros x Hx%elem_of_list_to_set. destruct (Hl x Hx) as (p' & _ & Hp'). destruct (rp_dir _ _ _ H _ _ Hp') as (d & Hd & _). apply elem_of_dom. by eexists. }
  apply subseteq_size in Hsub. rewrite size_dom in Hsub. lia.
Qed.

Lemma add_mountpoint_ok fuel : forall p q s D cnt, rep s D cnt -> D !! p = Some q -> (length p < fuel)%nat ->
  (forall p', p' `suffix_of` p -> 0 <= cnt p' < 2 ^ 32 - 1) ->
  exists s', add_mountpoint fuel s (Some q) = Ok s' /\ rep s' D (fun p' => cnt p' + on_path p p') /\ frame s s' /\
    dom (vdirs s') = dom (vdirs s) /\ last_virtual_ino s' = last_virtual_ino s.
Proof.
  induction fuel as [|fuel IH]; intros p q s D cnt H Hp Hf Hc; [lia|].
  destruct (rp_dir _ _ _ H _ _ Hp) as (d & Hd & Hok). cbn [add_mountpoint]. unfold vdir_at. rewrite Hd. cbn [mbind res_bind].
  set (d' := with_count d (u32 (n_mountpoints d + 1))). set (cnt1 := fun p' => cnt p' + if decide (p' = p) then 1 else 0).
  assert (n_mountpoints d' = cnt p + 1) as Ec.
  { cbn. rewrite (do_count _ _ _ _ _ _ Hok). apply wrap_small. specialize (Hc p ltac:(done)). lia. }
  assert (rep (set_vdir s q d') D cnt1) as H1.
  { eapply rep_update; [exact H|exact Hp|exact Hd| | |].
    - repeat split; apply Hok.
    - unfold cnt1. by rewrite decide_True.
    - intros p' Hne. unfold cnt1. rewrite decide_False by done. lia. }
  assert (frame s (set_vdir s q d')) as Hfr by (by eapply frame_set).
  assert (dom (vdirs (set_vdir s q d')) = dom (vdirs s)) as Ed by (cbn; apply dom_insert_lookup_L; by eexists).
  rewrite (do_parent _ _ _ _ _ _ Hok). destruct p as [|n p].
  - exists (set_vdir s q d'). split; [by destruct fuel|]. split; [|by split_and!]. eapply rep_ext; [exact H1|]. intros p' _. unfold cnt1. rewrite on_path_nil. by repeat case_decide.
  - destruct (rp_up _ _ _ H n p) as [q' Hq']; [by eexists|]. rewrite Hq'.
    destruct (IH p q' (set_vdir s q d') D (fun p' => cnt p' + if decide (p' = n :: p) then 1 else 0)) as (s' & E & H' & Hfr' & Ed' & El').
    { eapply rep_ext; [exact H1|]. done. }
    { done. }
    { cbn in Hf. lia. }
    { intros p' Hs. rewrite decide_False by (intros ->; exact (suffix_cons_not _ _ Hs)). rewrite Z.add_0_r. apply Hc. by apply suffix_cons_r. }
    exists s'. split; [exact E|]. split; [|split; [|split; [congruence|exact El']]].
    + eapply rep_ext; [exact H'|]. intros p' _. rewrite on_path_cons. lia.
    + eapply frame_trans; [|exact Hfr|exact Hfr']. intros x _ Hx%elem_of_dom. rewrite Ed' in Hx. by apply elem_of_dom.
Qed.

(** ** Creating a directory *)

Lemma next_ino_ok last : 0 <= last < 2 ^ 32 - 2 -> last < next_virtual_ino last /\ Z.max 1 last < next_virtual_ino last <= Z.max 1 last + 1.
Proof.
  intros Hl. unfold next_virtual_ino, ROOT_INODE. rewrite wrap_small by lia. case_if; lia.
Qed.

Definition added (cnt : path -> Z) (p : path) : path -> Z := fun p' => if decide (p' = p) then 0 else cnt p'.

(** The directories after [d] was put at [r] and [pd'] at [q]. *)
Section create.
Context (s : state) (D : gmap path ptr) (cnt : path -> Z) (p : path) (q r : ptr) (n : list Z) (pd d : vdir) (i : Z) (pl : alloc_pool) (inv : list zfs_fh).
Hypotheses (H : rep s D cnt) (Hp : D !! p = Some q) (Hn : D !! (n :: p) = None) (Hpd : vdirs s !! q = Some pd) (Hrn : vdirs s !! r = None).
Hypothesis (Hd : d = Vdir (MkFh NODE_ID_NONE VOLUME_ID_VIRTUAL VIRTUAL_DEVICE i 1) (Some q) n None None
  (virtual_dir_set_fattr (MkFh NODE_ID_NONE VOLUME_ID_VIRTUAL VIRTUAL_DEVICE i 1) (now s)) [] (length (subdirs pd)) 0 false 0 0).
Hypotheses (Hi : Z.max 1 (last_virtual_ino s) < i) (Hpl : pool_ok pl) (Eu : in_use pl = r :: in_use (vd_pool s)).
Let pd' := with_subdirs pd (subdirs pd ++ [r]) 1 (now s).
Let dirs' := <[q := pd']> (<[r := d]> (vdirs s)).
Let s' := State dirs' pl (<[key_of (vd_fh d) := r]> (vd_htab s)) (<[(q, n) := r]> (vd_htab_name s)) i (root s) (vols s) (caps s) inv (now s).
Let D' := <[n :: p := r]> D.

Lemma create_fresh p' : D !! p' <> Some r.
Proof. intros Hp'. destruct (rp_dir _ _ _ H _ _ Hp') as (x & Hx & _). congruence. Qed.

Lemma create_no_children m : D !! (m :: n :: p) = None.
Proof. apply eq_None_not_Some. intros Hs%(rp_up _ _ _ H). rewrite Hn in Hs. by destruct Hs. Qed.

Lemma create_qr : r <> q.
Proof. congruence. Qed.

Lemma create_lookup x : dirs' !! x = if decide (x = q) then Some pd' else if decide (x = r) then Some d else vdirs s !! x.
Proof.
  unfold dirs'. destruct (decide (x = q)) as [->|Hq]; [by rewrite lookup_insert_eq|]. rewrite lookup_insert_ne by done.
  destruct (decide (x = r)) as [->|Hr]; [by rewrite lookup_insert_eq|by rewrite lookup_insert_ne].
Qed.

Lemma create_back x e : dirs' !! x = Some e -> x <> r -> exists e0, vdirs s !! x = Some e0 /\ vd_fh e = vd_fh e0 /\ vd_cap e = vd_cap e0 /\
  subdir_index e = subdir_index e0.
Proof.
  rewrite create_lookup. intros E Hr. destruct (decide (x = q)) as [->|Hq]; [injection E as <-; by exists pd|].
  rewrite decide_False in E by done. by exists e.
Qed.

Lemma create_some x : is_Some (dirs' !! x) <-> x = r \/ is_Some (vdirs s !! x).
Proof.
  rewrite create_lookup. destruct (decide (x = q)) as [->|Hq]; [rewrite Hpd; naive_solver|].
  destruct (decide (x = r)) as [->|Hr]; [naive_solver|]. split; [by right|by intros [?|?]].
Qed.

Lemma create_up m p' : is_Some (D' !! (m :: p')) -> D' !! p' = D !! p' /\ is_Some (D !! p').
Proof.
  intros Hs. assert (p' <> n :: p) as Hne.
  { intros ->. unfold D' in Hs. rewrite lookup_insert_ne in Hs by (intros E; apply (f_equal length) in E; cbn in E; lia).
    rewrite create_no_children in Hs. by destruct Hs. }
  unfold D'. rewrite lookup_insert_ne by done. split; [done|].
  destruct (decide (m :: p' = n :: p)) as [E|E]; [injection E as -> ->; by eexists|]. unfold D' in Hs. rewrite lookup_insert_ne in Hs by done.
  by eapply rp_up.
Qed.

Lemma create_tail p' : is_Some (D !! p') ->
  match p' with [] => None | _ :: t => D !! t end = match p' with [] => None | _ :: t => D' !! t end.
Proof.
  destruct p' as [|m t]; [done|]. intros Hs. symmetry. apply (create_up m). unfold D'. rewrite lookup_insert_ne; [done|].
  intros E. rewrite <-E, Hn in Hs. by destruct Hs.
Qed.

Lemma create_cap e c x : vd_cap e = Some c -> (exists e0, vdirs s !! x = Some e0 /\ exists p', dir_ok s D cnt p' x e0 /\ vd_cap e0 = vd_cap e) ->
  c ∈ caps s /\ forall x' e', dirs' !! x' = Some e' -> vd_cap e' = Some c -> x' = x.
Proof.
  intros Hc (e0 & He0 & p' & Hok & Ec). rewrite <-Ec in Hc. destruct (do_cap _ _ _ _ _ _ Hok c Hc) as [G1 G2]. split; [done|].
  intros x' e' Hx' Hc'. destruct (decide (x' = r)) as [->|Hr].
  - rewrite create_lookup, decide_False, decide_True in Hx' by (done || apply create_qr). injection Hx' as <-. subst d. done.
  - destruct (create_back _ _ Hx' Hr) as (e1 & He1 & _ & Ec1 & _). apply (G2 _ e1); [done|congruence].
Qed.

Lemma create_new : dir_ok s' D' (added cnt (n :: p)) (n :: p) r d.
Proof.
  subst d. split; cbn; try done.
  - unfold D'. rewrite lookup_insert_ne; [done|]. intros E. apply (f_equal length) in E. cbn in E. lia.
  - unfold added. by rewrite decide_True.
  - constructor.
  - intros x. split; [by intros ?%elem_of_nil|]. intros [m Hm]. unfold D' in Hm.
    rewrite lookup_insert_ne in Hm by (intros E; apply (f_equal length) in E; cbn in E; lia). by rewrite create_no_children in Hm.
  - intros x e Hx. by apply elem_of_nil in Hx.
Qed.

Lemma create_parent : dir_ok s' D' (added cnt (n :: p)) p q pd'.
Proof.
  destruct (rep_dir _ _ _ _ _ _ H Hp Hpd) as [D1 D2 D3 D4 D5 D6 D7 D8 D9 D10 D11].
  assert (p <> n :: p) as Hpn by (intros E; apply (f_equal length) in E; cbn in E; lia).
  assert (r ∉ subdirs pd) as Hr by (intros [m Hm]%D9; by apply create_fresh in Hm).
  split; cbn; try done.
  - rewrite D2. apply create_tail. by eexists.
  - intros c Hc. eapply create_cap; [exact Hc|]. exists pd. split; [done|]. exists p. split; [by eapply rep_dir|done].
  - unfold added. by rewrite decide_False.
  - apply NoDup_app. split_and!; [done| |apply NoDup_singleton]. intros x Hx ->%list_elem_of_singleton. done.
  - intros x. rewrite elem_of_app, D9, list_elem_of_singleton. unfold D'. split.
    + intros [[m Hm]| ->]; [exists m|exists n; apply lookup_insert_eq]. rewrite lookup_insert_ne; [done|]. intros E. congruence.
    + intros [m [[E <-]|[_ Hm]]%lookup_insert_Some]; [by right|left; by exists m].
  - intros x e Hx He. destruct (decide (x = r)) as [->|Hxr].
    + rewrite create_lookup, decide_False, decide_True in He by (done || apply create_qr). injection He as <-. subst d. cbn.
      by rewrite lookup_app_r, Nat.sub_diag by lia.
    + apply elem_of_app in Hx as [Hx|Hx]; [|by apply list_elem_of_singleton in Hx]. destruct (create_back _ _ He Hxr) as (e0 & He0 & _ & _ & ->).
      apply lookup_app_l_Some. by eapply D10.
  - rewrite D11. unfold wrap. rewrite Zplus_mod_idemp_l, length_app. f_equal. cbn. lia.
Qed.

Lemma create_other p' x e : D !! p' = Some x -> x <> q -> vdirs s !! x = Some e -> dir_ok s' D' (added cnt (n :: p)) p' x e.
Proof.
  intros Hp' Hx He. destruct (rep_dir _ _ _ _ _ _ H Hp' He) as [D1 D2 D3 D4 D5 D6 D7 D8 D9 D10 D11].
  assert (p' <> n :: p) as Hpn by congruence. split; cbn; try done.
  - rewrite D2. apply create_tail. by eexists.
  - intros c Hc. eapply create_cap; [exact Hc|]. exists e. split; [done|]. exists p'. split; [by eapply rep_dir|done].
  - unfold added. by rewrite decide_False.
  - intros y. rewrite D9. unfold D'. split; intros [m Hm]; exists m.
    + rewrite lookup_insert_ne; [done|]. intros E. congruence.
    + apply lookup_insert_Some in Hm as [[E <-]|[_ Hm]]; [congruence|done].
  - intros y f Hy Hf. assert (y <> r) as Hyr by (intros ->; apply D9 in Hy as [m Hm]; by apply create_fresh in Hm).
    destruct (create_back _ _ Hf Hyr) as (f0 & Hf0 & _ & _ & ->). by eapply D10.
Qed.

Lemma create_rep : rep s' D' (added cnt (n :: p)).
Proof.
  pose proof create_qr as Hqr. split; cbn.
  - unfold D'. rewrite lookup_insert_ne by done. apply H.
  - unfold D'. intros p1 p2 x [[<- <-]|[N1 E1]]%lookup_insert_Some [[<- E]|[N2 E2]]%lookup_insert_Some;
      [done|by apply create_fresh in E2|subst x; by apply create_fresh in E1|by eapply rp_inj].
  - intros m p' Hs. destruct (create_up _ _ Hs) as [-> ?]. done.
  - intros p' x [[<- <-]|[Hne Hx]]%lookup_insert_Some.
    + exists d. rewrite create_lookup, decide_False, decide_True by done. split; [done|apply create_new].
    + rewrite create_lookup. destruct (decide (x = q)) as [->|Hxq].
      * rewrite (rp_inj _ _ _ H _ _ _ Hx Hp). exists pd'. split; [done|apply create_parent].
      * destruct (rp_dir _ _ _ H _ _ Hx) as (e & He & _). exists e. rewrite decide_False by congruence. split; [done|by apply create_other].
  - intros x [->|Hx]%create_some; [exists (n :: p); apply lookup_insert_eq|]. destruct (rp_only _ _ _ H _ Hx) as [p' Hp']. exists p'.
    unfold D'. rewrite lookup_insert_ne; [done|]. intros <-. congruence.
  - done.
  - intros x. rewrite Eu, create_some, elem_of_cons, (rp_used _ _ _ H). done.
  - intros f x. rewrite lookup_insert_Some, (rp_fh _ _ _ H). split.
    + intros [[<- <-]|[Hne (e & He & Ee)]]; [exists d; by rewrite create_lookup, decide_False, decide_True by done|].
      rewrite create_lookup. destruct (decide (x = q)) as [->|Hq]; [exists pd'; split; [done|]; cbn; congruence|].
      exists e. rewrite decide_False by congruence. done.
    + intros (e & He & Ee). destruct (decide (x = r)) as [->|Hxr].
      * rewrite create_lookup, decide_False, decide_True in He by done. injection He as <-. by left.
      * right. destruct (create_back _ _ He Hxr) as (e0 & He0 & Ef & _). split; [|exists e0; split; [done|congruence]].
        intros E. apply (rp_ino _ _ _ H) in He0. subst d f. rewrite Ef in E. unfold key_of in E. cbn in E. injection E as _ _ _ E _. lia.
  - intros x m y. rewrite lookup_insert_Some, (rp_name _ _ _ H). unfold D'. split.
    + intros [[E <-]|[Hne (p' & H1 & H2)]].
      * injection E as <- <-. exists p. rewrite lookup_insert_eq, lookup_insert_ne; [done|]. intros E. apply (f_equal length) in E. cbn in E. lia.
      * exists p'. rewrite !lookup_insert_ne; [done| |]; intros E; [congruence|congruence].
    + intros (p' & H1 & [[E <-]|[Hne H2]]%lookup_insert_Some).
      * injection E as <- <-. rewrite lookup_insert_ne in H1 by (intros E; apply (f_equal length) in E; cbn in E; lia). left. split; [congruence|done].
      * right. assert (is_Some (D !! p')) as [x' Hx'] by (by eapply rp_up).
        assert (D !! p' = Some x) as Hpx.
        { apply lookup_insert_Some in H1 as [[<- _]|[_ H1]]; [congruence|done]. }
        split; [|by exists p']. intros E. assert (p' = p) as Ep by (eapply rp_inj; [exact H|exact Hpx|congruence]). congruence.
  - intros x e He. destruct (decide (x = r)) as [->|Hxr].
    + rewrite create_lookup, decide_False, decide_True in He by done. injection He as <-. subst d. cbn. lia.
    + destruct (create_back _ _ He Hxr) as (e0 & He0 & -> & _). apply (rp_ino _ _ _ H) in He0. lia.
Qed.
End create.

Lemma virtual_dir_create_ok s D cnt p q n : rep s D cnt -> D !! p = Some q -> D !! (n :: p) = None -> 0 <= last_virtual_ino s < 2 ^ 32 - 2 ->
  exists s' r, virtual_dir_create s q n = Ok (s', r) /\ rep s' (<[n :: p := r]> D) (added cnt (n :: p)) /\ frame s s' /\
    last_virtual_ino s' <= Z.max 1 (last_virtual_ino s) + 1 /\ vdirs s !! r = None /\ dom (vdirs s') = {[r]} ∪ dom (vdirs s).
Proof.
  intros H Hp Hn Hl. destruct (next_ino_ok _ Hl) as [Hi1 Hi2]. unfold virtual_dir_create. set (i := next_virtual_ino (last_virtual_ino s)) in *.
  set (fh := MkFh NODE_ID_NONE VOLUME_ID_VIRTUAL VIRTUAL_DEVICE i 1).
  destruct (pool_alloc_ok _ (rp_pool _ _ _ H)) as (r & pl & -> & Hpl & Hr & Eu). cbn [mbind res_bind].
  destruct (rp_dir _ _ _ H _ _ Hp) as (pd & Hpd & Hok). unfold vdir_at. rewrite Hpd. cbn [mbind res_bind].
  set (d := Vdir _ _ _ _ _ _ _ _ _ _ _ _). set (pd' := with_subdirs _ _ _ _).
  assert (vdirs s !! r = None) as Hrn by (apply eq_None_not_Some; by rewrite <-(rp_used _ _ _ H)).
  assert (r <> q) as Hrq by congruence.
  assert (forall p', D !! p' <> Some r) as HDr.
  { intros p' Hp'. destruct (rp_dir _ _ _ H _ _ Hp') as (x & Hx & _). congruence. }
  assert (vd_htab s !! key_of fh = None) as Ef.
  { apply eq_None_not_Some. intros [x Hx]. apply (rp_fh _ _ _ H) in Hx as (e & He & Ee). apply (rp_ino _ _ _ H) in He.
    assert (ino (vd_fh e) = i) by (unfold key_of in Ee; cbn in Ee; congruence). lia. }
  assert (vd_htab_name s !! (q, n) = None) as En.
  { apply eq_None_not_Some. intros [x Hx]. apply (rp_name _ _ _ H) in Hx as (p' & E1 & E2).
    rewrite (rp_inj _ _ _ H _ _ _ E1 Hp) in E2. congruence. }
  unfold enter_fh, enter_name, set_vdir, set_vdirs, set_pool, set_last, set_tables. cbn [vdirs vd_pool vd_htab vd_htab_name last_virtual_ino root vols caps invalidated now].
  rewrite Ef. cbn [mbind res_bind vdirs vd_pool vd_htab vd_htab_name last_virtual_ino root vols caps invalidated now]. rewrite En. cbn [mbind res_bind].
  eexists _, r. split; [done|]. split; [|split; [|split; [|split; [done|]]]].
  - exact (create_rep s D cnt p q r n pd d i pl _ H Hp Hn Hpd Hrn eq_refl (proj1 Hi2) Hpl Eu).
  - split_and!; [done|done|cbn; lia|]. cbn. intros x e e' He [[<- <-]|[_ [[<- <-]|[_ He']]%lookup_insert_Some]]%lookup_insert_Some; [|congruence|].
    + rewrite Hpd in He. by injection He as <-.
    + rewrite He in He'. by injection He' as <-.
  - cbn. lia.
  - cbn. rewrite !dom_insert_L. assert (q ∈ dom (vdirs s)) by (apply elem_of_dom; by eexists). set_solver.
Qed.

(** ** Removing a directory *)

(** Removing an element of an array by moving the last one to its place. *)
Lemma swap_remove {A : Type} `{EqDecision A} (l : list A) i r t : NoDup l -> l !! i = Some r -> last l = Some t ->
  let l' := take (length l - 1) (<[i := t]> l) in
  NoDup l' /\ (forall x, x ∈ l' <-> x ∈ l /\ x <> r) /\ S (length l') = length l /\
  (forall x j, l !! j = Some x -> x <> r -> l' !! (if decide (x = t) then i else j) = Some x).
Proof.
  intros Hnd Hi Ht. cbn zeta. apply last_Some in Ht as [k ->]. apply NoDup_app in Hnd as (Hk & Hkt & _).
  assert (t ∉ k) as Htk by (intros E; apply (Hkt t E); by left). clear Hkt.
  rewrite length_app, Nat.add_sub. pose proof (lookup_lt_Some _ _ _ Hi) as Hlt. rewrite length_app in Hlt. cbn in Hlt.
  destruct (decide (i = length k)) as [->|Hne].
  - rewrite list_lookup_middle in Hi by done. injection Hi as <-. rewrite list_insert_id by (by apply list_lookup_middle).
    rewrite take_app_length. split_and!; [done| |cbn; lia|].
    + intros x. rewrite elem_of_app, list_elem_of_singleton. split; [intros Hx; split; [by left|by intros ->]|intros [[?|?] ?]; [done|done]].
    + intros x j Hx Hne. rewrite decide_False by done. apply lookup_app_Some in Hx as [Hx|[_ Hx]]; [done|].
      destruct (j - length k)%nat; [injection Hx as <-; done|done].
  - rewrite lookup_app_l in Hi by lia. rewrite insert_app_l, take_app_length' by (rewrite ?length_insert; lia).
    assert (forall x j, k !! j = Some x -> x = r -> j = i) as Hri by (intros x j Hx ->; by eapply NoDup_lookup).
    assert (r <> t) as Hrt by (intros ->; by apply list_elem_of_lookup_2 in Hi).
    split_and!; [| |rewrite length_insert; cbn; lia|].
    + apply NoDup_alt. intros a b x [(<- & <- & _)|(Na & Ha)]%list_lookup_insert_Some [(<- & E & _)|(Nb & Hb)]%list_lookup_insert_Some; try done.
      * by apply list_elem_of_lookup_2 in Hb.
      * subst x. by apply list_elem_of_lookup_2 in Ha.
      * by eapply NoDup_lookup.
    + intros x. rewrite list_elem_of_lookup. setoid_rewrite list_lookup_insert_Some. rewrite elem_of_app, list_elem_of_singleton. split.
      * intros [a [(<- & <- & _)|(Na & Ha)]]; [split; [by right|done]|]. split; [left; by eapply list_elem_of_lookup_2|]. intros E. apply Na. symmetry. by eapply Hri.
      * intros [[[a Ha]%list_elem_of_lookup| ->] Hx]; [|exists i; left; split_and!; [done|done|lia]].
        exists a. right. split; [|done]. intros <-. congruence.
    + intros x j Hx Hxr. destruct (decide (x = t)) as [->|Hxt]; [apply list_lookup_insert_eq; lia|].
      apply lookup_app_Some in Hx as [Hx|[_ Hx]]; [|destruct (j - length k)%nat; [injection Hx as <-; done|done]].
      rewrite list_lookup_insert_ne; [done|]. intros <-. congruence.
Qed.

(** The directories after [r], the last child of [q] being [top], was removed. *)
Section remove.
Context (s : state) (D : gmap path ptr) (cnt : path -> Z) (p : path) (q r top : ptr) (n : list Z) (pd d td : vdir) (pl : alloc_pool).
Context (cs : gset ptr) (inv : list zfs_fh).
Hypotheses (H : rep s D cnt) (Hr : D !! (n :: p) = Some r) (Hp : D !! p = Some q) (Hleaf : forall m, D !! (m :: n :: p) = None).
Hypotheses (Hd : vdirs s !! r = Some d) (Hpd : vdirs s !! q = Some pd) (Htop : last (subdirs pd) = Some top) (Htd : vdirs s !! top = Some td).
Hypotheses (Hpl : pool_ok pl) (Hu : forall x, x ∈ in_use pl <-> x ∈ in_use (vd_pool s) /\ x <> r).
Hypothesis Hcs : forall c, c ∈ caps s -> vd_cap d <> Some c -> c ∈ cs.
Let pd' := with_subdirs pd (take (length (subdirs pd) - 1) (<[subdir_index d := top]> (subdirs pd))) (-1) (now s).
Let dirs' := delete r (<[top := with_index td (subdir_index d)]> (<[q := pd']> (vdirs s))).
Let s' := State dirs' pl (delete (key_of (vd_fh d)) (vd_htab s)) (delete (q, vd_name d) (vd_htab_name s)) (last_virtual_ino s) (root s) (vols s) cs inv (now s).
Let D' := delete (n :: p) D.

Let Hok : dir_ok s D cnt p q pd := rep_dir _ _ _ _ _ _ H Hp Hpd.
Let Hokd : dir_ok s D cnt (n :: p) r d := rep_dir _ _ _ _ _ _ H Hr Hd.

Lemma remove_child : r ∈ subdirs pd.
Proof. apply (do_subdirs _ _ _ _ _ _ Hok). by exists n. Qed.

Lemma remove_qr : q <> r.
Proof. intros E. assert (p = n :: p) as Ep by (eapply rp_inj; [exact H|exact Hp|congruence]). apply (f_equal length) in Ep. cbn in Ep. lia. Qed.

Lemma remove_qtop : q <> top.
Proof.
  intros E. assert (top ∈ subdirs pd) as Ht by (apply last_Some in Htop as [k ->]; set_solver).
  apply (do_subdirs _ _ _ _ _ _ Hok) in Ht as [m Hm]. assert (p = m :: p) as Ep by (eapply rp_inj; [exact H|exact Hp|congruence]).
  apply (f_equal length) in Ep. cbn in Ep. lia.
Qed.

Lemma remove_name : vd_name d = n.
Proof. apply Hokd. Qed.

Lemma remove_swap : let l' := take (length (subdirs pd) - 1) (<[subdir_index d := top]> (subdirs pd)) in
  NoDup l' /\ (forall x, x ∈ l' <-> x ∈ subdirs pd /\ x <> r) /\ S (length l') = length (subdirs pd) /\
  (forall x j, subdirs pd !! j = Some x -> x <> r -> l' !! (if decide (x = top) then subdir_index d else j) = Some x).
Proof. apply swap_remove; [apply Hok|by eapply (do_index _ _ _ _ _ _ Hok), Hd; apply remove_child|done]. Qed.

Lemma remove_back x e : dirs' !! x = Some e -> x <> r /\ exists e0, vdirs s !! x = Some e0 /\ vd_fh e = vd_fh e0 /\ vd_cap e = vd_cap e0 /\ vd_vol e = vd_vol e0 /\
  subdir_index e = (if decide (x = top) then subdir_index d else subdir_index e0).
Proof.
  unfold dirs'. intros [Hx E]%lookup_delete_Some. split; [done|]. apply lookup_insert_Some in E as [[<- <-]|[Hne E]].
  - exists td. by rewrite decide_True.
  - apply lookup_insert_Some in E as [[<- <-]|[_ E]]; [exists pd|exists e]; by rewrite decide_False.
Qed.

Lemma remove_forth x e0 : vdirs s !! x = Some e0 -> x <> r -> exists e, dirs' !! x = Some e /\ vd_fh e = vd_fh e0.
Proof.
  intros E Hx. unfold dirs'. rewrite lookup_delete_ne by done. destruct (decide (x = top)) as [->|Ht].
  { rewrite lookup_insert_eq. eexists. split; [done|]. cbn. congruence. }
  rewrite lookup_insert_ne by done. destruct (decide (x = q)) as [->|Hq]; [rewrite lookup_insert_eq|rewrite lookup_insert_ne by done].
  - eexists. split; [done|]. cbn. congruence.
  - by exists e0.
Qed.

Lemma remove_some x : is_Some (dirs' !! x) <-> is_Some (vdirs s !! x) /\ x <> r.
Proof.
  split; [intros [e (Hx & e0 & He & _)%remove_back]; split; [by eexists|done]|].
  intros [[e0 He] Hx]. destruct (remove_forth _ _ He Hx) as (e & Ee & _). by eexists.
Qed.

Lemma remove_D p' x : D' !! p' = Some x <-> D !! p' = Some x /\ x <> r.
Proof.
  unfold D'. rewrite lookup_delete_Some. split; [intros [Hne E]; split; [done|]; intros ->; apply Hne; by eapply rp_inj|].
  intros [E Hx]. split; [|done]. intros <-. congruence.
Qed.

Lemma remove_tail p' : is_Some (D !! p') -> match p' with [] => None | _ :: t => D !! t end = match p' with [] => None | _ :: t => D' !! t end.
Proof.
  destruct p' as [|m t]; [done|]. intros Hs. unfold D'. rewrite lookup_delete_ne; [done|]. intros <-. rewrite Hleaf in Hs. by destruct Hs.
Qed.

Lemma remove_cap e0 c x p' : dir_ok s D cnt p' x e0 -> x <> r -> vd_cap e0 = Some c ->
  c ∈ cs /\ forall x' e', dirs' !! x' = Some e' -> vd_cap e' = Some c -> x' = x.
Proof.
  intros Ho Hx Hc. destruct (do_cap _ _ _ _ _ _ Ho c Hc) as [G1 G2]. split.
  - apply Hcs; [done|]. intros E. apply Hx. symmetry. by eapply G2.
  - intros x' e' (_ & e1 & He1 & _ & Ec & _)%remove_back Hc'. apply (G2 _ e1); [done|congruence].
Qed.

(** A directory whose subdirectories did not change; [e] may have another index. *)
Lemma remove_other p' x e0 e : D !! p' = Some x -> x <> q -> x <> r -> vdirs s !! x = Some e0 -> dirs' !! x = Some e ->
  dir_ok s' D' cnt p' x e.
Proof.
  intros Hp' Hxq Hxr He0 He. pose proof (rep_dir _ _ _ _ _ _ H Hp' He0) as Ho. pose proof Ho as [D1 D2 D3 D4 D5 D6 D7 D8 D9 D10 D11].
  assert (exists i, e = with_index e0 i) as [i ->].
  { unfold dirs' in He. rewrite lookup_delete_ne in He by done. apply lookup_insert_Some in He as [[<- <-]|[_ He]].
    - exists (subdir_index d). congruence.
    - rewrite lookup_insert_ne in He by done. exists (subdir_index e0). assert (e = e0) as -> by congruence. by destruct e0. }
  split; cbn; try done.
  - rewrite D2. apply remove_tail. by eexists.
  - intros c Hc. by eapply remove_cap.
  - intros y. rewrite D9. split; intros [m Hm]; exists m; [apply remove_D; split; [done|]|apply remove_D in Hm; apply Hm].
    intros ->. assert (n :: p = m :: p') as E by (apply (rp_inj _ _ _ H _ _ r); congruence). injection E as _ E. congruence.
  - intros y f Hy (Hyr & f0 & Hf0 & _ & _ & _ & ->)%remove_back. rewrite decide_False; [by apply D10|]. intros ->.
    assert (top ∈ subdirs pd) as Ht by (apply last_Some in Htop as [k ->]; set_solver).
    apply (do_subdirs _ _ _ _ _ _ Hok) in Ht as [m Hm]. apply D9 in Hy as [m' Hm'].
    assert (m :: p = m' :: p') as E by (by eapply rp_inj). injection E as _ E. congruence.
Qed.

Lemma remove_parent : dir_ok s' D' cnt p q pd'.
Proof.
  pose proof Hok as [D1 D2 D3 D4 D5 D6 D7 D8 D9 D10 D11]. destruct remove_swap as (S1 & S2 & S3 & S4). split; cbn; try done.
  - rewrite D2. apply remove_tail. by eexists.
  - intros c Hc. eapply remove_cap; [exact Hok|apply remove_qr|done].
  - intros y. rewrite S2, D9. setoid_rewrite remove_D. naive_solver.
  - intros y f Hy (Hyr & f0 & Hf0 & _ & _ & _ & ->)%remove_back. apply S2 in Hy as [Hy _]. apply S4; [by apply D10|done].
  - rewrite D11. unfold wrap. rewrite Zplus_mod_idemp_l. f_equal. lia.
Qed.

Lemma remove_rep : rep s' D' cnt.
Proof.
  pose proof remove_qr as Hqr. split; cbn.
  - apply remove_D. split; [apply H|]. intros E. assert (@nil (list Z) = n :: p) as Ep by (eapply rp_inj; [exact H|apply H|congruence]). done.
  - intros p1 p2 x [E1 _]%remove_D [E2 _]%remove_D. by eapply rp_inj.
  - intros m p' [x [E Hx]%remove_D]. destruct (rp_up _ _ _ H m p') as [y Hy]; [by eexists|]. exists y. apply remove_D. split; [done|]. intros ->.
    assert (n :: p = p') as <- by (by eapply rp_inj). rewrite Hleaf in E. done.
  - intros p' x [E Hx]%remove_D. destruct (rp_dir _ _ _ H _ _ E) as (e0 & He0 & Ho). destruct (decide (x = q)) as [->|Hxq].
    + exists pd'. split; [|rewrite (rp_inj _ _ _ H _ _ _ E Hp); apply remove_parent]. unfold dirs'. rewrite lookup_delete_ne by done.
      rewrite lookup_insert_ne by (intros ?; by apply remove_qtop). apply lookup_insert_eq.
    + destruct (remove_forth _ _ He0 Hx) as (e & He & _). exists e. split; [done|]. by eapply remove_other.
  - intros x [[e He] Hx]%remove_some. destruct (rp_only _ _ _ H x) as [p' Hp']; [by eexists|]. exists p'. by apply remove_D.
  - done.
  - intros x. rewrite Hu, (rp_used _ _ _ H), remove_some. done.
  - intros f x. rewrite lookup_delete_Some, (rp_fh _ _ _ H). split.
    + intros [Hf (e0 & He0 & Ee)]. assert (x <> r) as Hx by (intros ->; apply Hf; congruence).
      destruct (remove_forth _ _ He0 Hx) as (e & He & Ef). exists e. split; [done|]. congruence.
    + intros (e & (Hx & e0 & He0 & Ef & _)%remove_back & Ee). split; [|exists e0; split; [done|congruence]].
      intros E. apply Hx. assert (vd_htab s !! f = Some x) as G1 by (apply (rp_fh _ _ _ H); exists e0; split; [done|congruence]).
      assert (vd_htab s !! f = Some r) as G2 by (apply (rp_fh _ _ _ H); by exists d). congruence.
  - intros x m y. rewrite lookup_delete_Some, (rp_name _ _ _ H), remove_name. split.
    + intros [Hne (p' & E1 & E2)]. exists p'. split; apply remove_D; split; try done.
      * intros ->. assert (n :: p = p') as <- by (by eapply rp_inj). by rewrite Hleaf in E2.
      * intros ->. assert (n :: p = m :: p') as E by (by eapply rp_inj). injection E as -> ->. apply Hne. congruence.
    + intros (p' & [E1 _]%remove_D & [E2 Hy]%remove_D). split; [|by exists p']. intros E. injection E as <- <-.
      assert (p' = p) as -> by (by eapply rp_inj). congruence.
  - intros x e (_ & e0 & He0 & -> & _)%remove_back. by apply (rp_ino _ _ _ H) in He0.
Qed.
End remove.

Lemma remove_vdir_ok s D cnt p n r : rep s D cnt -> D !! (n :: p) = Some r -> (forall m, D !! (m :: n :: p) = None) ->
  exists s', remove_vdir s r = Ok s' /\ rep s' (delete (n :: p) D) cnt /\ frame s s' /\ last_virtual_ino s' = last_virtual_ino s /\
    dom (vdirs s') = dom (vdirs s) ∖ {[r]}.
Proof.
  intros H Hr Hleaf. destruct (rp_dir _ _ _ H _ _ Hr) as (d & Hd & Hok). destruct (rp_up _ _ _ H n p) as [q Hp]; [by eexists|].
  destruct (rp_dir _ _ _ H _ _ Hp) as (pd & Hpd & Hokp).
  assert (r ∈ subdirs pd) as Hin by (apply (do_subdirs _ _ _ _ _ _ Hokp); by exists n).
  assert (subdirs d = []) as Hsub.
  { destruct (subdirs d) as [|x l] eqn:E; [done|]. assert (x ∈ subdirs d) as Hx by (rewrite E; left).
    apply (do_subdirs _ _ _ _ _ _ Hok) in Hx as [m Hm]. by rewrite Hleaf in Hm. }
  assert (exists cs d', release_cap s d = Ok (set_caps s cs, d') /\ vd_parent d' = Some q /\ subdirs d' = [] /\ vd_name d' = vd_name d /\ vd_fh d' = vd_fh d /\
    subdir_index d' = subdir_index d /\ forall c, c ∈ caps s -> vd_cap d <> Some c -> c ∈ cs) as (cs & d' & E & G1 & G2 & G3 & G4 & G5 & Hcs).
  { pose proof (do_parent _ _ _ _ _ _ Hok) as Epar. cbn in Epar; rewrite Hp in Epar. unfold release_cap. destruct (vd_cap d) as [c|] eqn:Ec.
    - destruct (do_cap _ _ _ _ _ _ Hok c Ec) as [Hc _]. rewrite decide_True by done. eexists _, _. split; [done|]. split_and!; try done.
      intros c' Hc' Hne. apply elem_of_difference. split; [done|]. rewrite elem_of_singleton. intros ->. done.
    - exists (caps s), d. split; [by destruct s|]. done. }
  unfold remove_vdir, vdir_at. rewrite Hd. cbn [mbind res_bind]. rewrite E. cbn [mbind res_bind]. rewrite G2, G1, decide_False by (intros ?; done).
  cbn [vdirs set_caps]. rewrite Hpd. cbn [mbind res_bind].
  destruct (last (subdirs pd)) as [top|] eqn:Etop; [|apply last_None in Etop; rewrite Etop in Hin; by apply elem_of_nil in Hin].
  pose proof (do_index _ _ _ _ _ _ Hokp _ _ Hin Hd) as Hidx. rewrite G5, decide_True by (by eapply lookup_lt_Some).
  assert (top ∈ subdirs pd) as Htop by (apply last_Some in Etop as [k ->]; set_solver).
  pose proof Htop as (m & Hm)%(do_subdirs _ _ _ _ _ _ Hokp). destruct (rp_dir _ _ _ H _ _ Hm) as (td & Htd & _).
  assert (q <> top) as Hqt.
  { intros <-. assert (p = m :: p) as Ep by (by eapply rp_inj). apply (f_equal length) in Ep. cbn in Ep. lia. }
  cbn [set_vdir set_vdirs set_caps vdirs vd_htab vd_htab_name vd_pool]. rewrite lookup_insert_ne by done. rewrite Htd. cbn [mbind res_bind].
  rewrite G3, G4, decide_False.
  2: { rewrite (do_name _ _ _ _ _ _ Hok). assert (vd_htab_name s !! (q, n) = Some r) as -> by (apply (rp_name _ _ _ H); by exists p).
       assert (vd_htab s !! key_of (vd_fh d) = Some r) as -> by (apply (rp_fh _ _ _ H); by exists d). intros [?|?]; done. }
  destruct (pool_free_ok (vd_pool s) r (rp_pool _ _ _ H)) as (pl & Epl & Hpl & Hu); [apply (rp_used _ _ _ H); by eexists|].
  cbn [set_vdir set_vdirs set_caps set_tables fs_invalidate_fh vdirs vd_htab vd_htab_name vd_pool]. rewrite Epl. cbn [mbind res_bind].
  eexists. split; [done|]. split; [|split; [|split; [done|]]].
  - exact (remove_rep s D cnt p q r top n pd d td pl cs _ H Hr Hp Hleaf Hd Hpd Etop Htd Hpl Hu Hcs).
  - split_and!; [done|done|done|]. intros x e e' He He'. cbn in He'.
    destruct (remove_back s q r top pd d td Hpd Htd x e' He') as (_ & e0 & He0 & -> & _ & -> & _). rewrite He in He0. by injection He0 as ->.
  - cbn. rewrite dom_delete_L, !dom_insert_L.
    assert (q ∈ dom (vdirs s) /\ top ∈ dom (vdirs s)) as [? ?] by (split; apply elem_of_dom; by eexists). set_solver.
Qed.

(** ** The loop that removes a mount point *)

Definition without_one (D : gmap path ptr) (cnt : path -> Z) (r p : path) : option ptr :=
  if decide (p `suffix_of` r /\ cnt p = 1) then None else D !! p.

(** Counts that grow towards the root and are 1 only where the removed path is the
    last one below. *)
Record removable (D : gmap path ptr) (cnt : path -> Z) (p : path) : Prop := {
  rm_root : 2 <= cnt [];
  rm_pos : forall p', p' `suffix_of` p -> 1 <= cnt p';
  rm_mono : forall n p', n :: p' `suffix_of` p -> cnt (n :: p') <= cnt p';
  rm_last : forall n p', p' `suffix_of` p -> cnt p' = 1 -> is_Some (D !! (n :: p')) -> n :: p' `suffix_of` p
}.

Lemma suffix_up (n : list Z) (p r : path) : n :: p `suffix_of` r -> p `suffix_of` r.
Proof. apply suffix_cons_l. Qed.

Lemma destroy_loop_ok fuel : forall p q s D cnt, rep s D cnt -> D !! p = Some q -> (length p < fuel)%nat -> removable D cnt p ->
  exists s' D', destroy_loop fuel s 1 (Some q) = Ok s' /\ rep s' D' (fun p' => cnt p' - on_path p p') /\ frame s s' /\
    last_virtual_ino s' = last_virtual_ino s /\ (forall p', D' !! p' = without_one D cnt p p') /\ dom (vdirs s') ⊆ dom (vdirs s).
Proof.
  induction fuel as [|fuel IH]; intros p q s D cnt H Hp Hf [R1 R2 R3 R4]; [lia|].
  destruct (rp_dir _ _ _ H _ _ Hp) as (d & Hd & Hok). cbn [destroy_loop]. unfold vdir_at. rewrite Hd. cbn [mbind res_bind].
  rewrite (do_busy _ _ _ _ _ _ Hok), (do_deleted _ _ _ _ _ _ Hok), (do_count _ _ _ _ _ _ Hok). change (1 <? 0) with false. cbv iota.
  pose proof (R2 p ltac:(done)) as Hpos. assert (cnt p <? 1 = false) as -> by (apply Z.ltb_ge; lia).
  set (d' := with_count d (cnt p - 1)). set (cnt1 := fun p' => cnt p' - if decide (p' = p) then 1 else 0).
  assert (rep (set_vdir s q d') D cnt1) as H1.
  { eapply rep_update; [exact H|exact Hp|exact Hd| | |].
    - repeat split; apply Hok.
    - unfold cnt1. by rewrite decide_True.
    - intros p' Hne. unfold cnt1. rewrite decide_False by done. lia. }
  assert (frame s (set_vdir s q d')) as Hfr by (by eapply frame_set).
  assert (dom (vdirs (set_vdir s q d')) = dom (vdirs s)) as Ed by (cbn; apply dom_insert_lookup_L; by eexists).
  rewrite (do_parent _ _ _ _ _ _ Hok). destruct p as [|n p].
  - assert (cnt [] - 1 =? 0 = false) as -> by (apply Z.eqb_neq; lia). cbn [mbind res_bind]. exists (set_vdir s q d'), D.
    split; [by destruct fuel|]. split_and!; [|done|done| |by rewrite Ed].
    + eapply rep_ext; [exact H1|]. intros p' _. unfold cnt1. rewrite on_path_nil. by repeat case_decide.
    + intros p'. unfold without_one. rewrite decide_False; [done|]. intros [->%suffix_nil_inv ?]. lia.
  - destruct (rp_up _ _ _ H n p) as [q' Hq']; [by eexists|]. rewrite Hq'.
    assert (forall p', p' `suffix_of` p -> p' <> n :: p) as Hshort by (intros p' Hs ->; exact (suffix_cons_not _ _ Hs)).
    assert (forall p', p' `suffix_of` p -> cnt1 p' = cnt p') as Hcnt1 by (intros p' Hs; unfold cnt1; rewrite decide_False by (by apply Hshort); lia).
    assert (exists s1 D1, (if cnt (n :: p) - 1 =? 0 then remove_vdir (set_vdir s q d') q else Ok (set_vdir s q d')) = Ok s1 /\ rep s1 D1 cnt1 /\
      frame s s1 /\ last_virtual_ino s1 = last_virtual_ino s /\ dom (vdirs s1) ⊆ dom (vdirs s) /\
      forall p', D1 !! p' = if decide (p' = n :: p /\ cnt p' = 1) then None else D !! p') as (s1 & D1 & E1 & Hr1 & Hf1 & Hl1 & Hd1 & HD1).
    { case_if.
      - destruct (remove_vdir_ok (set_vdir s q d') D cnt1 p n q H1 Hp) as (s1 & E1 & Hr1 & Hf1 & Hl1 & Hd1).
        { intros m. apply eq_None_not_Some. intros Hm. apply (R4 m (n :: p)) in Hm; [|done|lia]. exact (suffix_cons_not _ _ Hm). }
        exists s1, (delete (n :: p) D). split_and!; [done|done| |done|rewrite Hd1, Ed; set_solver|].
        + eapply frame_trans; [|exact Hfr|exact Hf1]. intros x Hx%elem_of_dom _. rewrite <-Ed in Hx. by apply elem_of_dom.
        + intros p'. destruct (decide (p' = n :: p)) as [->|Hne]; [rewrite lookup_delete_eq, decide_True by (split; [done|lia]); done|].
          rewrite lookup_delete_ne by done. rewrite decide_False; [done|]. by intros [? _].
      - exists (set_vdir s q d'), D. split_and!; [done|done|done|done|by rewrite Ed|]. intros p'. rewrite decide_False; [done|]. intros [-> ?]. lia. }
    rewrite E1. cbn [mbind res_bind].
    assert (D1 !! p = Some q') as Hp1 by (rewrite HD1, decide_False; [done|intros [E _]; exact (Hshort p ltac:(done) E)]).
    destruct (IH p q' s1 D1 cnt1 Hr1 Hp1) as (s' & D' & E' & Hr' & Hf' & Hl' & HD' & Hd').
    { cbn in Hf. lia. }
    { split.
      - rewrite Hcnt1 by apply suffix_nil. done.
      - intros p' Hs. rewrite Hcnt1 by done. apply R2. by apply suffix_cons_r.
      - intros m p' Hs. rewrite !Hcnt1; [|by eapply suffix_up|done]. apply R3. by apply suffix_cons_r.
      - intros m p' Hs Hc Hm. rewrite Hcnt1 in Hc by done. rewrite HD1 in Hm.
        assert (m :: p' `suffix_of` n :: p) as Hs' by (apply R4; [by apply suffix_cons_r|done|]; by case_decide; [destruct Hm|]).
        apply tail_suffix in Hs' as [E|?]; [|done]. injection E as -> ->.
        pose proof (R3 n p ltac:(done)). rewrite decide_True in Hm; [by destruct Hm|]. split; [done|]. pose proof (R2 (n :: p) ltac:(done)). lia. }
    exists s', D'. split; [done|]. split_and!; [| |congruence| |set_solver].
    + eapply rep_ext; [exact Hr'|]. intros p' _. unfold cnt1. rewrite on_path_cons. lia.
    + eapply frame_trans; [|exact Hf1|exact Hf']. intros x _ Hx%elem_of_dom. apply elem_of_dom. set_solver.
    + intros p'. rewrite HD'. unfold without_one. rewrite HD1. destruct (decide (p' `suffix_of` p)) as [Hs|Hs].
      * rewrite Hcnt1 by done. pose proof (Hshort _ Hs). rewrite (decide_False (P := p' = n :: p /\ _)) by (by intros [? _]).
        destruct (decide (cnt p' = 1)); [rewrite !decide_True|rewrite !decide_False]; try done; try (split; [|done]); try (by apply suffix_cons_r); by intros [_ ?].
      * rewrite decide_False by (by intros [? _]). apply decide_ext. rewrite tail_suffix. tauto.
Qed.

(** ** Mount points and their counts *)

(** The number of volumes mounted at the path or below, plus one for the root. *)
Definition count (M : gmap Z path) (p : path) : Z :=
  Z.of_nat (size (filter (fun kv : Z * path => p `suffix_of` kv.2) M)) + if decide (p = []) then 1 else 0.

Lemma mount_count_insert M v m p : M !! v = None -> count (<[v := m]> M) p = count M p + on_path m p.
Proof.
  intros Hv. unfold count, on_path. rewrite map_filter_insert. cbn [snd]. destruct (decide (p `suffix_of` m)) as [Hs|Hs].
  - rewrite map_size_insert_None; [lia|]. apply map_lookup_filter_None. by left.
  - rewrite delete_id by done. lia.
Qed.

Lemma count_delete M v m p : M !! v = Some m -> count (delete v M) p = count M p - on_path m p.
Proof.
  intros Hv. rewrite <-(insert_delete_id M v m Hv) at 2. rewrite mount_count_insert by apply lookup_delete_eq. lia.
Qed.

Lemma on_path_range r p : 0 <= on_path r p <= 1.
Proof. unfold on_path. case_decide; lia. Qed.

Lemma count_nonneg M p : (if decide (p = []) then 1 else 0) <= count M p.
Proof. unfold count. lia. Qed.

Lemma mount_count_pos M v m p : M !! v = Some m -> p `suffix_of` m -> 1 + (if decide (p = []) then 1 else 0) <= count M p.
Proof.
  intros Hv Hs. pose proof (count_delete M v m p Hv) as E. unfold on_path in E. rewrite decide_True in E by done.
  pose proof (count_nonneg (delete v M) p). lia.
Qed.

Lemma count_mono M n p : count M (n :: p) <= count M p.
Proof.
  unfold count. rewrite (decide_False (P := n :: p = [])) by done.
  assert (size (filter (fun kv : Z * path => n :: p `suffix_of` kv.2) M) <= size (filter (fun kv : Z * path => p `suffix_of` kv.2) M))%nat; [|case_decide; lia].
  apply map_subseteq_size, map_filter_subseteq_ext. intros i x _. apply suffix_up.
Qed.

Lemma count_bound M p : count M p <= Z.of_nat (size M) + 1.
Proof.
  unfold count. assert (size (filter (fun kv : Z * path => p `suffix_of` kv.2) M) <= size M)%nat; [|case_decide; lia].
  apply map_subseteq_size, map_filter_subseteq.
Qed.

(** Where the count is 1 there is no other mount point. *)
Lemma count_last M v m v' m' p : M !! v = Some m -> p `suffix_of` m -> count M p = 1 -> M !! v' = Some m' -> p `suffix_of` m' -> v' = v.
Proof.
  intros Hv Hs Hc Hv' Hs'. apply dec_stable. intros Hne. pose proof (count_delete M v m p Hv) as E. unfold on_path in E.
  rewrite decide_True in E by done. assert (delete v M !! v' = Some m') as Hd by (by rewrite lookup_delete_ne by done).
  pose proof (mount_count_pos _ _ _ _ Hd Hs'). case_decide; lia.
Qed.

(** The paths that exist. *)
Definition above (M : gmap Z path) (p : path) : Prop := p = [] \/ exists v m, M !! v = Some m /\ p `suffix_of` m.

Lemma removable_mount D M v m : (forall p, is_Some (D !! p) -> above M p) -> M !! v = Some m -> removable D (count M) m.
Proof.
  intros HD Hv. split.
  - pose proof (mount_count_pos M v m [] Hv (suffix_nil _)) as Hc. by rewrite decide_True in Hc.
  - intros p Hs. pose proof (mount_count_pos M v m p Hv Hs). case_decide; lia.
  - intros n p _. apply count_mono.
  - intros n p Hs Hc Hn. destruct (HD _ Hn) as [?|(v' & m' & Hv' & Hs')]; [done|].
    rewrite (count_last M v m v' m' p Hv Hs Hc Hv' (suffix_up _ _ _ Hs')) in Hv'. congruence.
Qed.

(** The paths that are left when a mount point is removed. *)
Lemma above_delete M v m p : M !! v = Some m ->
  (above (delete v M) p <-> above M p /\ ~ (p `suffix_of` m /\ count M p = 1)).
Proof.
  intros Hv. split.
  - intros [->|(v' & m' & Hv' & Hs)].
    + split; [by left|]. intros [_ Hc]. pose proof (mount_count_pos M v m [] Hv (suffix_nil _)) as Hp. rewrite decide_True in Hp by done. lia.
    + apply lookup_delete_Some in Hv' as [Hne Hv']. split; [right; by exists v', m'|]. intros [Hs' Hc]. apply Hne. symmetry.
      by eapply count_last.
  - intros [[->|(v' & m' & Hv' & Hs)] Hn]; [by left|]. destruct (decide (v' = v)) as [->|Hne].
    + assert (m' = m) as -> by congruence. destruct (decide (p = [])) as [->|Hp]; [by left|]. right.
      assert (count (delete v M) p <> 0) as Hc.
      { rewrite (count_delete M v m p Hv). unfold on_path. rewrite decide_True by done. intros E. apply Hn. split; [done|lia]. }
      unfold count in Hc. rewrite decide_False in Hc by done.
      destruct (map_choose (filter (fun kv : Z * path => p `suffix_of` kv.2) (delete v M))) as (w & k & Hw).
      { intros E. rewrite E in Hc. done. }
      apply map_lookup_filter_Some in Hw as [Hw Hsk]. by exists w, k.
    + right. exists v', m'. split; [|done]. by rewrite lookup_delete_ne.
Qed.

(** ** Splitting a path *)

(** The pieces between slashes, and those that are not empty. *)
Fixpoint segments (s : list Z) : list (list Z) :=
  match s with
  | [] => [[]]
  | c :: s => if c =? 47 then [] :: segments s else match segments s with a :: l => (c :: a) :: l | [] => [] end
  end.
Definition comps (s : list Z) : list (list Z) := filter (fun a => a <> []) (segments s).

Lemma segments_cons s : exists a l, segments s = a :: l.
Proof.
  induction s as [|c s (a & l & E)]; [by eexists _, _|]. cbn. destruct (c =? 47); [by eexists _, _|]. rewrite E. by eexists _, _.
Qed.

Lemma comps_skip s : comps (skip_slashes s) = comps s.
Proof.
  induction s as [|c s IH]; [done|]. cbn [skip_slashes]. destruct (c =? 47) eqn:E; [|done]. rewrite IH. unfold comps. cbn [segments]. rewrite E.
  by rewrite filter_cons_False by (intros H; by apply H).
Qed.

Lemma component_segments s : let '(a, r) := component s in (length r <= length s)%nat /\ (s <> [] -> (length r < length s)%nat) /\
  (exists l, segments s = a :: l /\ filter (fun x => x <> []) l = comps r).
Proof.
  induction s as [|c s IH]; [split; [done|]; split; [done|by exists []]|]. cbn [component segments]. destruct (c =? 47).
  - split; [cbn; lia|]. split; [cbn; lia|]. by exists (segments s).
  - destruct (component s) as [a r]. destruct IH as (H1 & _ & l & -> & El). split; [cbn; lia|]. split; [cbn; lia|]. by exists l.
Qed.

(** [split_path] ends, and gives the components. *)
Lemma split_path_ok fuel : forall s, (length s <= fuel)%nat -> split_path fuel s = Ok (comps s).
Proof.
  induction fuel as [|fuel IH]; intros s Hs.
  - assert (s = []) as -> by (destruct s; [done|cbn in Hs; lia]). done.
  - cbn [split_path]. rewrite <-(comps_skip s). pose proof (comps_skip s) as Ec.
    assert (length (skip_slashes s) <= length s)%nat as Hl by (clear; induction s as [|c s IH]; [done|]; cbn; destruct (c =? 47); cbn; lia).
    destruct (skip_slashes s) as [|c t] eqn:Et; [done|].
    assert (c =? 47 = false) as Hc.
    { clear -Et. induction s as [|x s IH]; [done|]. cbn in Et. destruct (x =? 47) eqn:Ex; [by apply IH|]. congruence. }
    pose proof (component_segments (c :: t)) as Hcs. destruct (component (c :: t)) as [a r] eqn:Eco. destruct Hcs as (_ & Hlt & l & Es & Er).
    specialize (Hlt ltac:(done)). rewrite IH by (cbn in Hl; cbn in Hlt; lia). cbn [mbind res_bind]. unfold comps at 2. rewrite Es.
    rewrite filter_cons_True; [by rewrite Er|]. cbn [component] in Eco. rewrite Hc in Eco. destruct (component t). injection Eco as <- _. done.
Qed.

Lemma length_comps s : (length (comps s) <= S (length s))%nat.
Proof.
  unfold comps. etrans; [apply length_filter|]. induction s as [|c s IH]; [done|]. cbn [segments]. destruct (c =? 47); [cbn; lia|].
  destruct (segments s); cbn in *; lia.
Qed.

(** ** Finding and creating the directories of a path *)

Lemma lookup_name_ok s D cnt p q n : rep s D cnt -> D !! p = Some q -> vd_lookup_name s q n = Ok (D !! (n :: p)).
Proof.
  intros H Hp. unfold vd_lookup_name.
  assert (vd_htab_name s !! (q, n) = D !! (n :: p)) as ->.
  { apply option_eq. intros r. rewrite (rp_name _ _ _ H). split; [|by exists p]. intros (p' & E1 & E2).
    by rewrite (rp_inj _ _ _ H _ _ _ Hp E1). }
  destruct (D !! (n :: p)) as [r|] eqn:Er; [|done]. cbn [locked_vd]. destruct (rp_dir _ _ _ H _ _ Er) as (d & Hd & Hok).
  unfold vdir_at. rewrite Hd. cbn [mbind res_bind]. by rewrite (do_deleted _ _ _ _ _ _ Hok).
Qed.

Lemma make_path_ok l : forall p q s D cnt, rep s D cnt -> D !! p = Some q -> (forall p', D !! p' = None -> cnt p' = 0) ->
  0 <= last_virtual_ino s -> Z.max 1 (last_virtual_ino s) + Z.of_nat (length l) < 2 ^ 32 - 2 ->
  exists s' r D', make_path s q l = Ok (s', r) /\ rep s' D' cnt /\ D' !! (reverse l ++ p) = Some r /\ D ⊆ D' /\
    (forall p', is_Some (D' !! p') <-> is_Some (D !! p') \/ p' `suffix_of` reverse l ++ p) /\ frame s s' /\
    last_virtual_ino s' <= Z.max 1 (last_virtual_ino s) + Z.of_nat (length l) /\ dom (vdirs s) ⊆ dom (vdirs s').
Proof.
  induction l as [|n l IH]; intros p q s D cnt H Hp Hz Hl0 Hl.
  { exists s, q, D. split_and!; [done|done|done|done| |apply frame_refl|lia|done]. intros p'. split; [by left|]. cbn. intros [?|Hs]; [done|].
    clear -Hs H Hp. apply mk_is_Some in Hp. induction p as [|m p IH]; [by apply suffix_nil_inv in Hs as ->|].
    apply tail_suffix in Hs as [->|Hs]; [done|]. apply IH; [by eapply rp_up|done]. }
  cbn [make_path]. rewrite (lookup_name_ok _ _ _ _ _ n H Hp). cbn [mbind res_bind].
  assert (exists s1 r1 D1, match D !! (n :: p) with Some x => Ok (s, x) | None => virtual_dir_create s q n end = Ok (s1, r1) /\ rep s1 D1 cnt /\
    D1 !! (n :: p) = Some r1 /\ D ⊆ D1 /\ (forall p', is_Some (D1 !! p') <-> is_Some (D !! p') \/ p' = n :: p) /\ frame s s1 /\
    last_virtual_ino s <= last_virtual_ino s1 /\ last_virtual_ino s1 <= Z.max 1 (last_virtual_ino s) + 1 /\ dom (vdirs s) ⊆ dom (vdirs s1))
    as (s1 & r1 & D1 & E1 & H1 & Hp1 & Hsub1 & Hd1 & Hf1 & Hl1 & Hl1' & Hdom1).
  { destruct (D !! (n :: p)) as [r1|] eqn:En.
    - exists s, r1, D. split_and!; [done|done|done|done| |apply frame_refl|lia|lia|done]. intros p'. split; [by left|]. intros [?| ->]; [done|by eexists].
    - destruct (virtual_dir_create_ok s D cnt p q n H Hp En) as (s1 & r1 & E1 & H1 & Hf1 & Hl1 & _ & Hdom1); [lia|].
      exists s1, r1, (<[n :: p := r1]> D). split_and!; [done| |apply lookup_insert_eq|by apply insert_subseteq| |done|apply Hf1|lia|set_solver].
      + eapply rep_ext; [exact H1|]. intros p' _. unfold added. case_decide as E; [|done]. subst p'. by apply Hz.
      + intros p'. rewrite lookup_insert_is_Some'. naive_solver. }
  rewrite E1. cbn [mbind res_bind]. destruct (rp_dir _ _ _ H1 _ _ Hp1) as (d & Hd & Hok). unfold vdir_at. rewrite Hd. cbn [mbind res_bind].
  rewrite (do_fh _ _ _ _ _ _ Hok). change (VIRTUAL_FH_P _) with true. cbv iota.
  destruct (IH (n :: p) r1 s1 D1 cnt H1 Hp1) as (s' & r & D' & E & H' & Hr & Hsub & Hdom & Hf & Hl' & Hdv).
  { intros p' Hn. apply Hz. apply eq_None_not_Some. intros Hs. eapply eq_None_not_Some; [exact Hn|]. apply Hd1. by left. }
  { lia. }
  { cbn [length] in Hl. lia. }
  exists s', r, D'. rewrite reverse_cons, <-app_assoc. split_and!; [done|done|done|by etrans| | | |set_solver].
  - intros p'. rewrite Hdom, Hd1. cbn [app]. split; [|tauto]. intros [[?| ->]|?]; [by left| |by right]. right. by exists (reverse l).
  - eapply frame_trans; [|exact Hf1|exact Hf]. intros x Hx%elem_of_dom _. apply elem_of_dom. set_solver.
  - cbn [length]. lia.
Qed.

(** ** Mounting and unmounting *)

Lemma rep_vols s D cnt vs : rep s D cnt -> rep (set_vols s vs) D cnt.
Proof.
  intros [H1 H2 H3 H4 H5 H6 H7 H8 H9 H10]. split; try done. intros p q Hp. destruct (H4 p q Hp) as (d & Hd & [D1 D2 D3 D4 D5 D6 D7 D8 D9 D10 D11]).
  exists d. split; [done|]. by split.
Qed.

(** The directories are those on the way to the mount points [M]. *)
Record tree (s : state) (D : gmap path ptr) (M : gmap Z path) : Prop := {
  tr_rep : rep s D (count M);
  tr_dom : forall p, is_Some (D !! p) <-> above M p;
  tr_mount : forall v m, M !! v = Some m -> exists x, vols s !! v = Some x /\ root_vd x = D !! m;
  tr_none : forall v x, vols s !! v = Some x -> M !! v = None -> root_vd x = None;
  tr_last : 0 <= last_virtual_ino s
}.

Lemma above_insert M v m p : M !! v = None -> above (<[v := m]> M) p <-> above M p \/ p `suffix_of` m.
Proof.
  intros Hv. split.
  - intros [->|(v' & m' & [[<- <-]|[_ Hv']]%lookup_insert_Some & Hs)]; [left; by left|by right|left; right; by exists v', m'].
  - intros [[->|(v' & m' & Hv' & Hs)]|Hs]; [by left| |right; exists v, m; by rewrite lookup_insert_eq].
    right. exists v', m'. rewrite lookup_insert_ne; [done|]. intros ->. congruence.
Qed.

Lemma count_outside M D p : (forall p, is_Some (D !! p) <-> above M p) -> (D : gmap path ptr) !! p = None -> count M p = 0.
Proof.
  intros HD Hn. assert (~ above M p) as Ha by (rewrite <-HD, Hn; by intros [? ?]). unfold count.
  rewrite decide_False by (intros ->; apply Ha; by left).
  assert (filter (fun kv : Z * path => p `suffix_of` kv.2) M = ∅) as ->; [|done]. apply map_empty. intros v.
  apply map_lookup_filter_None. right. intros m Hv Hs. apply Ha. right. by exists v, m.
Qed.

(** The volume a directory leads to. *)
Definition vol_of (s : state) (q : ptr) : option Z := d ← vdirs s !! q; vd_vol d.

Lemma vol_of_frame s s' q : frame s s' -> is_Some (vdirs s !! q) -> is_Some (vdirs s' !! q) -> vol_of s' q = vol_of s q.
Proof.
  intros (_ & _ & _ & H) [d Hd] [d' Hd']. unfold vol_of. rewrite Hd, Hd'. cbn. by apply (H q).
Qed.

Lemma mount_ok s D M v x pth : tree s D M -> M !! v = None -> vols s !! v = Some x -> mountpoint x = Some pth ->
  Z.max 1 (last_virtual_ino s) + Z.of_nat (length (comps pth)) < 2 ^ 32 - 2 -> Z.of_nat (size M) + 1 < 2 ^ 32 - 1 ->
  exists s' r D', virtual_mountpoint_create s v = Ok (s', r) /\ tree s' D' (<[v := reverse (comps pth)]> M) /\
    vols s' = <[v := Vol (Some pth) (Some r)]> (vols s) /\ last_virtual_ino s' <= Z.max 1 (last_virtual_ino s) + Z.of_nat (length (comps pth)) /\
    D' !! reverse (comps pth) = Some r /\ vol_of s' r = Some v /\
    forall p q, D !! p = Some q -> D' !! p = Some q /\ (q <> r -> vol_of s' q = vol_of s q).
Proof.
  intros [H HD Hmt Hno Hlast] Hv Hx Hpth Hl Hs. unfold virtual_mountpoint_create, vol_at. rewrite Hx. cbn [mbind res_bind]. rewrite Hpth.
  rewrite split_path_ok by done. cbn [mbind res_bind].
  destruct (make_path_ok (comps pth) [] (root s) s D (count M) H (rp_root _ _ _ H)) as (s1 & r & D1 & E1 & H1 & Hr & Hsub & HD1 & Hf1 & Hl1 & Hdv);
    [intros p Hp; by eapply count_outside|done|done|].
  rewrite E1. cbn [mbind res_bind]. rewrite app_nil_r in Hr, HD1. set (m := reverse (comps pth)) in *.
  destruct (rp_dir _ _ _ H1 _ _ Hr) as (d & Hd & Hok). unfold vdir_at. rewrite Hd. cbn [mbind res_bind].
  set (s2 := set_vol _ _ _).
  assert (rep s2 D1 (count M)) as H2.
  { unfold s2, set_vol. apply rep_vols. eapply rep_update; [exact H1|exact Hr|exact Hd| | |done]; [repeat split; apply Hok|].
    symmetry. apply Hok. }
  destruct (add_mountpoint_ok (size (vdirs s2)) m r s2 D1 (count M) H2 Hr) as (s' & E' & H' & Hf' & Ed & El).
  { by eapply path_short. }
  { intros p _. pose proof (count_bound M p). pose proof (count_nonneg M p). case_decide; lia. }
  rewrite E'. cbn [mbind res_bind].
  assert (vols s' = <[v := Vol (Some pth) (Some r)]> (vols s)) as Ev.
  { destruct Hf' as (-> & _). unfold s2. cbn. by rewrite (proj1 Hf1). }
  change (last_virtual_ino s2) with (last_virtual_ino s1) in El.
  assert (forall q, is_Some (vdirs s1 !! q) -> vol_of s' q = if decide (q = r) then Some v else vol_of s1 q) as Evol.
  { intros q Hq. assert (is_Some (vdirs s2 !! q)) as Hq2 by (apply lookup_insert_is_Some'; by right).
    assert (is_Some (vdirs s' !! q)) as Hq' by (apply elem_of_dom; rewrite Ed; by apply elem_of_dom).
    rewrite (vol_of_frame s2 s' q Hf' Hq2 Hq'). unfold vol_of, s2. cbn. case_decide as E; [by rewrite E, lookup_insert_eq|].
    by rewrite lookup_insert_ne by congruence. }
  exists s', r, D1. split; [done|]. split; [|split; [done|split; [by rewrite El|split; [done|split]]]].
  2: { rewrite Evol by (by eexists). by rewrite decide_True. }
  2: { intros p q Hp. split; [by eapply lookup_weaken|]. intros Hq. destruct (rp_dir _ _ _ H _ _ Hp) as (e & He & _).
       assert (is_Some (vdirs s1 !! q)) as Hq1 by (apply elem_of_dom, Hdv, elem_of_dom; by eexists).
       rewrite Evol, decide_False by done. apply vol_of_frame; [done|by eexists|done]. }
  split.
  - eapply rep_ext; [exact H'|]. intros p _. by apply mount_count_insert.
  - intros p. rewrite HD1, HD. symmetry. by apply above_insert.
  - intros v' m' [[<- <-]|[Hne Hm']]%lookup_insert_Some; rewrite Ev.
    + exists (Vol (Some pth) (Some r)). by rewrite lookup_insert_eq.
    + destruct (Hmt v' m' Hm') as (x' & Hx' & Er). exists x'. rewrite lookup_insert_ne by done. split; [done|].
      destruct (proj2 (HD m')) as [q Hq]; [right; by exists v', m'|]. rewrite Er, Hq. symmetry. by eapply lookup_weaken.
  - intros v' x' Hx' [Hm' Hne]%lookup_insert_None. rewrite Ev, lookup_insert_ne in Hx' by done. by eapply Hno.
  - destruct Hf1 as (_ & _ & ? & _). lia.
Qed.

Lemma unmount_ok s D M v m : tree s D M -> M !! v = Some m -> exists s' D' x, vols s !! v = Some x /\ virtual_mountpoint_destroy s v = Ok s' /\
  tree s' D' (delete v M) /\ vols s' = <[v := Vol (mountpoint x) None]> (vols s) /\ last_virtual_ino s' = last_virtual_ino s /\
  (forall p, above (delete v M) p -> D' !! p = D !! p) /\
  (forall q d d', vdirs s !! q = Some d -> vdirs s' !! q = Some d' -> vd_vol d' = vd_vol d /\ vd_fh d' = vd_fh d).
Proof.
  intros [H HD Hmt Hno Hlast] Hv. destruct (Hmt v m Hv) as (x & Hx & Er). destruct (proj2 (HD m)) as [q Hq]; [right; by exists v, m|].
  rewrite Hq in Er. unfold virtual_mountpoint_destroy, vol_at. rewrite Hx. cbn [mbind res_bind]. rewrite Er. unfold virtual_dir_destroy.
  destruct (destroy_loop_ok (size (vdirs s)) m q s D (count M) H Hq) as (s' & D' & E & H' & (Ev & Ero & _ & Hfr) & El & HD' & _).
  { by eapply path_short. }
  { apply (removable_mount D M v m); [by intros p ?%HD|done]. }
  rewrite E. cbn [mbind res_bind]. exists (set_vol s' v (Vol (mountpoint x) None)), D', x.
  assert (forall p, above (delete v M) p -> D' !! p = D !! p) as Hsame.
  { intros p [_ Ha]%(above_delete M v m p Hv). rewrite HD'. unfold without_one. by rewrite decide_False. }
  split; [done|]. split; [done|]. split; [|split; [cbn; by rewrite Ev|split; [done|split; [done|exact Hfr]]]]. split.
  - apply rep_vols. eapply rep_ext; [exact H'|]. intros p _. by apply count_delete.
  - intros p. rewrite (above_delete M v m p Hv), <-HD, HD'. unfold without_one. case_decide as Hc; [|tauto].
    split; [by intros [? ?]|tauto].
  - cbn. rewrite Ev. intros v' m' Hv'. pose proof Hv' as [Hne Hm']%lookup_delete_Some. destruct (Hmt v' m' Hm') as (x' & Hx' & Er').
    exists x'. rewrite lookup_insert_ne by done. split; [done|]. rewrite Er'. symmetry. apply Hsame. right. by exists v', m'.
  - cbn. rewrite Ev. intros v' x' [[<- <-]|[Hne Hx']]%lookup_insert_Some; [done|]. rewrite lookup_delete_ne by done. by apply Hno.
  - cbn. by rewrite El.
Qed.

(** ** Sequences of operations on volumes *)

Definition mounts (W : gmap Z (option (list Z))) : gmap Z path := omap (fun o => (fun s => reverse (comps s)) <$> o) W.

Inductive op : Type := OpCreate (v : Z) | OpMount (v : Z) (pth : list Z) | OpDestroy (v : Z).

Definition run_op (s : state) (o : op) : res state :=
  match o with OpCreate v => create_volume s v | OpMount v pth => set_mountpoint s v pth | OpDestroy v => destroy_volume s v end.

Fixpoint run_ops (s : state) (ops : list op) : res state :=
  match ops with [] => Ok s | o :: ops => s ← run_op s o; run_ops s ops end.

(** What they mean for the mount points of the volumes; nothing for operations that
    the callers do not make. *)
Definition spec_op (W : gmap Z (option (list Z))) (o : op) : option (gmap Z (option (list Z))) :=
  match o with
  | OpCreate v => match W !! v with None => Some (<[v := None]> W) | Some _ => None end
  | OpMount v pth =>
      match W !! v, pth with
      | None, _ | Some None, [] => None
      | _, _ => Some (<[v := Some pth]> W)
      end
  | OpDestroy v => match W !! v with Some _ => Some (delete v W) | None => None end
  end.

Fixpoint spec_ops (W : gmap Z (option (list Z))) (ops : list op) : option (gmap Z (option (list Z))) :=
  match ops with [] => Some W | o :: ops => W ← spec_op W o; spec_ops W ops end.

(** How many directories and volumes an operation can create. *)
Definition cost (o : op) : Z := match o with OpMount _ pth => 2 + Z.of_nat (length pth) | _ => 1 end.
Definition costs (ops : list op) : Z := foldr (fun o n => cost o + n) 0 ops.

Lemma tree_set_vol s D M v x : tree s D M -> M !! v = None -> root_vd x = None -> tree (set_vol s v x) D M.
Proof.
  intros [H HD Hmt Hno Hl] Hv Hx. split; [by apply rep_vols|done| | |done]; cbn.
  - intros v' m Hm. destruct (Hmt v' m Hm) as (x' & Hx' & E). exists x'. rewrite lookup_insert_ne; [done|]. intros ->. congruence.
  - intros v' x' [[<- <-]|[_ Hx']]%lookup_insert_Some Hm; [done|by eapply Hno].
Qed.

Lemma tree_drop s D M v : tree s D M -> M !! v = None -> tree (set_vols s (delete v (vols s))) D M.
Proof.
  intros [H HD Hmt Hno Hl] Hv. split; [by apply rep_vols|done| | |done]; cbn.
  - intros v' m Hm. destruct (Hmt v' m Hm) as (x' & Hx' & E). exists x'. rewrite lookup_delete_ne; [done|]. intros ->. congruence.
  - intros v' x' [_ Hx']%lookup_delete_Some Hm. by eapply Hno.
Qed.

Lemma mounts_insert W v pth : mounts (<[v := Some pth]> W) = <[v := reverse (comps pth)]> (mounts W).
Proof. unfold mounts. by apply omap_insert_Some. Qed.

Lemma mounts_delete W v : mounts (delete v W) = delete v (mounts W).
Proof. apply omap_delete. Qed.

Lemma mounts_none W v : W !! v = None \/ W !! v = Some None -> mounts W !! v = None.
Proof. unfold mounts. rewrite lookup_omap. by intros [-> | ->]. Qed.

Lemma mounts_size W : (size (mounts W) <= size W)%nat.
Proof. rewrite <-!size_dom. apply subseteq_size, dom_omap_subseteq. Qed.

(** Whatever is mounted at [v] is taken away. *)
Lemma unmount_any s D W v x : tree s D (mounts W) -> W = mountpoint <$> vols s -> vols s !! v = Some x ->
  exists s' D', virtual_mountpoint_destroy s v = Ok s' /\ tree s' D' (delete v (mounts W)) /\
    vols s' = <[v := Vol (mountpoint x) None]> (vols s) /\ last_virtual_ino s' = last_virtual_ino s /\
    forall p q, D !! p = Some q -> above (delete v (mounts W)) p -> D' !! p = Some q /\ vol_of s' q = vol_of s q.
Proof.
  intros Ht EW Hx. destruct (mounts W !! v) as [m|] eqn:Em.
  - destruct (unmount_ok s D (mounts W) v m Ht Em) as (s' & D' & x' & Hx' & E & Ht' & Ev & El & Hsame & Hfr). assert (x' = x) as -> by congruence.
    exists s', D'. split_and!; [done|done|done|done|]. intros p q Hp Ha. assert (D' !! p = Some q) as Hp' by (by rewrite Hsame). split; [done|].
    destruct (rp_dir _ _ _ (tr_rep _ _ _ Ht) _ _ Hp) as (d & Hd & _), (rp_dir _ _ _ (tr_rep _ _ _ Ht') _ _ Hp') as (d' & Hd' & _).
    unfold vol_of. rewrite Hd, Hd'. cbn. by apply (Hfr q).
  - exists s, D. pose proof (tr_none _ _ _ Ht v x Hx Em) as Er. unfold virtual_mountpoint_destroy, vol_at. rewrite Hx. cbn [mbind res_bind].
    rewrite Er, delete_id by done. split_and!; [done|done| |done|done]. rewrite insert_id; [done|]. rewrite Hx. destruct x. cbn in Er. by rewrite Er.
Qed.

(** [O] has, for the components of a path, the volume that was mounted there last. *)
Definition last_op (W : gmap Z (option (list Z))) (O : gmap (list (list Z)) Z) (o : op) : gmap (list (list Z)) Z :=
  match o with OpMount v pth => if decide (W !! v = Some (Some pth)) then O else <[comps pth := v]> O | _ => O end.

Fixpoint last_ops (W : gmap Z (option (list Z))) (O : gmap (list (list Z)) Z) (ops : list op) : gmap (list (list Z)) Z :=
  match ops with [] => O | o :: ops => match spec_op W o with Some W' => last_ops W' (last_op W O o) ops | None => O end end.

(** The directory of a mount point leads to the volume mounted there last. *)
Definition leads (s : state) (D : gmap path ptr) (W : gmap Z (option (list Z))) (O : gmap (list (list Z)) Z) : Prop :=
  forall v pth, W !! v = Some (Some pth) ->
    exists q w, D !! reverse (comps pth) = Some q /\ vol_of s q = Some w /\ O !! comps pth = Some w.

Lemma mounts_at W v pth : W !! v = Some (Some pth) -> mounts W !! v = Some (reverse (comps pth)).
Proof. intros E. unfold mounts. by rewrite lookup_omap, E. Qed.

Lemma leads_unmount s s' D D' W O v : leads s D W O ->
  (forall p q, D !! p = Some q -> above (delete v (mounts W)) p -> D' !! p = Some q /\ vol_of s' q = vol_of s q) -> leads s' D' (delete v W) O.
Proof.
  intros Hp Hk v' pth Hv'. pose proof Hv' as [Hne Hv]%lookup_delete_Some. destruct (Hp v' pth Hv) as (q & w & Hq & Ew & Eo).
  destruct (Hk _ _ Hq) as [Hq' Ev]; [|exists q, w; by rewrite Ev]. right. exists v', (reverse (comps pth)). split; [|done].
  rewrite lookup_delete_ne by done. by apply mounts_at.
Qed.

Lemma leads_mount s s' D D' W O v pth r : leads s D W O -> rep s' D' (count (mounts (<[v := Some pth]> W))) -> D' !! reverse (comps pth) = Some r -> vol_of s' r = Some v ->
  (forall p q, D !! p = Some q -> D' !! p = Some q /\ (q <> r -> vol_of s' q = vol_of s q)) -> leads s' D' (<[v := Some pth]> W) (<[comps pth := v]> O).
Proof.
  intros Hp H Hr Ev Hk v' pth' [[<- E]|[Hne Hv']]%lookup_insert_Some.
  { injection E as <-. exists r, v. by rewrite lookup_insert_eq. }
  destruct (Hp v' pth' Hv') as (q & w & Hq & Ew & Eo). destruct (decide (comps pth' = comps pth)) as [Ec|Ec].
  { exists r, v. rewrite Ec, lookup_insert_eq. done. }
  destruct (Hk _ _ Hq) as [Hq' Ev']. exists q, w. rewrite lookup_insert_ne by done. split_and!; [done| |done]. rewrite Ev'; [done|]. intros ->.
  apply Ec. apply (inj reverse). by eapply rp_inj.
Qed.

Lemma run_op_tree s D W W' o : tree s D (mounts W) -> W = mountpoint <$> vols s -> spec_op W o = Some W' ->
  Z.max 1 (last_virtual_ino s) + cost o < 2 ^ 32 - 4 -> Z.of_nat (size W) + cost o < 2 ^ 32 - 4 ->
  exists s' D', run_op s o = Ok s' /\ tree s' D' (mounts W') /\ W' = mountpoint <$> vols s' /\
    last_virtual_ino s' <= Z.max 1 (last_virtual_ino s) + cost o /\ Z.of_nat (size W') <= Z.of_nat (size W) + cost o /\
    forall O, leads s D W O -> leads s' D' W' (last_op W O o).
Proof.
  intros Ht EW Ho Hl Hs. assert (forall v, W !! v = mountpoint <$> vols s !! v) as EWv by (intros v; by rewrite EW, lookup_fmap).
  destruct o as [v|v pth|v]; cbn [spec_op run_op cost] in *.
  - destruct (W !! v) as [y|] eqn:Ew; [done|]. injection Ho as <-. unfold create_volume.
    destruct (vols s !! v) as [x|] eqn:Ex; [by rewrite EWv, Ex in Ew|]. eexists _, D. split; [done|].
    assert (mounts (<[v := None]> W) = mounts W) as ->.
    { unfold mounts. rewrite omap_insert_None by done. rewrite delete_id; [done|]. apply mounts_none. by left. }
    split_and!; [apply tree_set_vol; [done|apply mounts_none; by left|done]| |cbn; lia|rewrite map_size_insert_None by done; lia|].
    { cbn. by rewrite fmap_insert, <-EW. }
    intros O HO v' pth [[_ ?]|[_ Hv']]%lookup_insert_Some; [done|]. exact (HO v' pth Hv').
  - destruct (vols s !! v) as [x|] eqn:Ex; [|by rewrite EWv, Ex in Ho]. rewrite EWv, Ex in Ho. cbn [fmap option_fmap option_map] in Ho.
    assert (Some (<[v := Some pth]> W) = Some W' /\ (mountpoint x = None -> pth <> [])) as [Ho' Hne] by (by destruct (mountpoint x), pth).
    clear Ho. injection Ho' as <-.
    assert (set_mountpoint s v pth = if decide (mountpoint x = Some pth) then Ok s else
      s ← virtual_mountpoint_destroy s v; x ← vol_at s v; '(s, _) ← virtual_mountpoint_create (set_vol s v (Vol (Some pth) (root_vd x))) v; Ok s) as ->.
    { unfold set_mountpoint, vol_at. rewrite Ex. cbn [mbind res_bind]. destruct (mountpoint x); [done|]. destruct pth; [by destruct Hne|done]. }
    assert (size (<[v := Some pth]> W) = size W) as Esz.
    { apply map_size_insert_Some. rewrite EWv, Ex. by eexists. }
    destruct (decide (mountpoint x = Some pth)) as [Em|Em].
    { exists s, D. assert (<[v := Some pth]> W = W) as -> by (apply insert_id; rewrite EWv, Ex; cbn; congruence).
      split_and!; [done|done|done|lia|lia|]. intros O HO. cbn [last_op]. rewrite decide_True; [done|]. by rewrite EWv, Ex, <-Em. }
    destruct (unmount_any s D W v x Ht EW Ex) as (s1 & D1 & -> & Ht1 & Ev1 & El1 & Hk1). cbn [mbind res_bind]. unfold vol_at.
    rewrite Ev1, lookup_insert_eq. cbn [mbind res_bind root_vd].
    assert (delete v (mounts W) !! v = None) as Hn by apply lookup_delete_eq.
    assert (tree (set_vol s1 v (Vol (Some pth) None)) D1 (delete v (mounts W))) as Ht2 by (by apply tree_set_vol).
    destruct (mount_ok (set_vol s1 v (Vol (Some pth) None)) D1 (delete v (mounts W)) v (Vol (Some pth) None) pth Ht2 Hn)
      as (s' & r & D' & -> & Ht' & Ev' & El' & Hr & Hvr & Hk).
    { cbn. apply lookup_insert_eq. }
    { done. }
    { cbn. pose proof (length_comps pth). lia. }
    { pose proof (mounts_size W). pose proof (map_subseteq_size _ _ (delete_subseteq (mounts W) v)). lia. }
    cbn [mbind res_bind]. rewrite insert_delete_eq, <-mounts_insert in Ht'. exists s', D'. split_and!; [done|done| | |rewrite Esz; lia|].
    + rewrite Ev'. cbn. rewrite Ev1, !insert_insert_eq, fmap_insert. cbn. by rewrite <-EW.
    + cbn in El'. rewrite El1 in El'. pose proof (length_comps pth). lia.
    + intros O HO. cbn [last_op]. rewrite decide_False by (rewrite EWv, Ex; intros E; apply Em; cbn in E; congruence). rewrite <-(insert_delete_eq W v).
      eapply (leads_mount s1 s' D1 D'); [by eapply leads_unmount| |done|done|exact Hk]. rewrite insert_delete_eq. apply Ht'.
  - destruct (vols s !! v) as [x|] eqn:Ex; [|by rewrite EWv, Ex in Ho]. rewrite EWv, Ex in Ho. cbn in Ho. injection Ho as <-.
    unfold destroy_volume. destruct (unmount_any s D W v x Ht EW Ex) as (s1 & D1 & -> & Ht1 & Ev1 & El1 & Hk1). cbn [mbind res_bind].
    eexists _, D1. split; [done|]. rewrite mounts_delete. split_and!; [apply tree_drop; [done|apply lookup_delete_eq]| |cbn; rewrite El1; lia| |].
    + cbn. by rewrite Ev1, fmap_delete, fmap_insert, delete_insert_eq, <-EW.
    + pose proof (map_subseteq_size _ _ (delete_subseteq W v)). lia.
    + intros O HO. by eapply (leads_unmount s _ D).
Qed.

(** ** The tree follows the mount points *)

(** Looking up a path from a directory, name by name. *)
Fixpoint resolve (s : state) (q : ptr) (l : list (list Z)) : res (option ptr) :=
  match l with
  | [] => Ok (Some q)
  | n :: l => o ← vd_lookup_name s q n; match o with None => Ok None | Some r => resolve s r l end
  end.

Lemma resolve_ok s D M l : tree s D M -> forall p q, D !! p = Some q -> resolve s q l = Ok (D !! (reverse l ++ p)).
Proof.
  intros Ht. induction l as [|n l IH]; intros p q Hp; [change (reverse [] ++ p) with p; by rewrite Hp|]. cbn [resolve].
  rewrite (lookup_name_ok _ _ _ _ _ n (tr_rep _ _ _ Ht) Hp). cbn [mbind res_bind]. rewrite reverse_cons, <-app_assoc. cbn [app].
  destruct (D !! (n :: p)) as [r|] eqn:E; [by apply IH|]. destruct (D !! (reverse l ++ n :: p)) as [x|] eqn:Ex; [|done]. exfalso.
  assert (is_Some (D !! (reverse l ++ n :: p))) as Hs by (by eexists). clear Ex IH. induction (reverse l) as [|m k IHk]; [cbn [app] in Hs; rewrite E in Hs; by destruct Hs|].
  apply IHk. by eapply (rp_up _ _ _ (tr_rep _ _ _ Ht)).
Qed.

Lemma lookup_virtual_ok s D M p q d v : tree s D M -> D !! p = Some q -> vdirs s !! q = Some d -> vd_vol d = Some v -> is_Some (vols s !! v) ->
  lookup_virtual s (vd_fh d) = Ok (Some (q, Some v)).
Proof.
  intros Ht Hq Hd Ev [x Hx]. unfold lookup_virtual, vd_lookup.
  assert (vd_htab s !! key_of (vd_fh d) = Some q) as -> by (apply (rp_fh _ _ _ (tr_rep _ _ _ Ht)); by exists d).
  cbn [locked_vd]. unfold vdir_at, vol_at. rewrite Hd. cbn [mbind res_bind].
  rewrite (do_deleted _ _ _ _ _ _ (rep_dir _ _ _ _ _ _ (tr_rep _ _ _ Ht) Hq Hd)). change (0 <? 0) with false. cbn [andb mbind res_bind].
  unfold vdir_at, vol_at. rewrite Hd. cbn [mbind res_bind]. by rewrite Ev, Hx.
Qed.

Definition empty_state (pl : alloc_pool) (t : Z) : state := State ∅ pl ∅ ∅ 0 0 ∅ ∅ [] t.

Lemma initialize_tree pl t : pool_ok pl -> in_use pl = [] ->
  exists s D, initialize (empty_state pl t) = Ok s /\ tree s D ∅ /\ vols s = ∅ /\ last_virtual_ino s = 0.
Proof.
  intros Hpl Hu. unfold initialize, virtual_root_create. cbn [vd_pool empty_state].
  destruct (pool_alloc_ok pl Hpl) as (p & pl' & -> & Hpl' & _ & Eu). cbn [mbind res_bind]. rewrite Hu in Eu.
  eexists _, {[ [] := p ]}. split; [done|]. split; [|done].
  assert (forall q d, ({[ p := d ]} : gmap ptr vdir) !! q = Some d -> q = p) as Hq by (intros q d [<- _]%lookup_singleton_Some; done).
  split; cbn; [|intros q| | |done].
  - split; cbn.
    + apply lookup_singleton_eq.
    + intros p1 p2 q [<- <-]%lookup_singleton_Some [<- _]%lookup_singleton_Some. done.
    + intros n q [x [E _]%lookup_singleton_Some]. done.
    + intros p1 q [<- <-]%lookup_singleton_Some. eexists. split; [apply lookup_insert_eq|]. split; cbn; try done.
      * constructor.
      * intros r. split; [by intros ?%elem_of_nil|]. intros [n [E _]%lookup_singleton_Some]. done.
      * intros r d Hr. by apply elem_of_nil in Hr.
    + intros q [d [[<- _]|[_ E]]%lookup_insert_Some]; [exists []; apply lookup_singleton_eq|by rewrite lookup_empty in E].
    + done.
    + intros q. rewrite Eu, list_elem_of_singleton, lookup_insert_is_Some', lookup_empty. split; [by left|intros [->|[? ?]]; done].
    + intros f q. rewrite lookup_insert_Some, lookup_empty. split.
      * intros [[<- <-]|[_ ?]]; [|done]. eexists. rewrite lookup_insert_eq. done.
      * intros (d & [[<- <-]|[_ E]]%lookup_insert_Some & <-); [by left|by rewrite lookup_empty in E].
    + intros q n r. rewrite lookup_empty. split; [done|]. intros (p1 & _ & [E _]%lookup_singleton_Some). done.
    + intros q d [[<- <-]|[_ E]]%lookup_insert_Some; [cbn; unfold ROOT_INODE; lia|by rewrite lookup_empty in E].
  - split.
    + intros [x [<- _]%lookup_singleton_Some]. by left.
    + intros [->|(v & m & Hv & _)]; [rewrite lookup_singleton_eq; by eexists|by rewrite lookup_empty in Hv].
  - intros v m Hv. by rewrite lookup_empty in Hv.
  - intros v x Hv. by rewrite lookup_empty in Hv.
Qed.

Lemma run_ops_tree ops : forall s D W W', tree s D (mounts W) -> W = mountpoint <$> vols s -> spec_ops W ops = Some W' ->
  Z.max 1 (last_virtual_ino s) + costs ops < 2 ^ 32 - 4 -> Z.of_nat (size W) + costs ops < 2 ^ 32 - 4 ->
  exists s' D', run_ops s ops = Ok s' /\ tree s' D' (mounts W') /\ W' = mountpoint <$> vols s' /\
    forall O, leads s D W O -> leads s' D' W' (last_ops W O ops).
Proof.
  induction ops as [|o ops IH]; intros s D W W' Ht EW Hops Hl Hs; [injection Hops as <-; by exists s, D|].
  cbn [spec_ops] in Hops. destruct (spec_op W o) as [W1|] eqn:Eo; [|done]. cbn [mbind option_bind] in Hops.
  assert (0 <= costs ops /\ costs (o :: ops) = cost o + costs ops) as [Hc Ec].
  { split; [|done]. clear. unfold costs. induction ops as [|[] ops IH]; cbn [foldr cost]; lia. }
  destruct (run_op_tree s D W W1 o Ht EW Eo) as (s1 & D1 & E1 & Ht1 & EW1 & Hl1 & Hs1 & Hlead); [lia|lia|].
  destruct (IH s1 D1 W1 W' Ht1 EW1 Hops) as (s' & D' & E' & Ht' & EW' & H'); [|lia|].
  { assert (1 <= cost o) by (destruct o; cbn; lia). lia. }
  exists s', D'. cbn [run_ops last_ops]. rewrite E1, Eo. split_and!; [done|done|done|]. intros O HO. by apply H', Hlead.
Qed.

(** C29. The virtual directories follow the mount points.  After any sequence of
    creations, mounts, moves of mount points and deletions of volumes that
    [volume.c] can make, starting with the root alone, with no directory in use
    meanwhile, and whose number and lengths of paths add up to less than 2^32 - 5 (each
    counts one, a mount two and its path): exactly those paths lead to a directory that are the root or a beginning of the mount point of a volume;
    the directory of a volume is the one its mount point leads to; that directory
    points to the volume which was mounted at the path last, so that looking up its
    handle gives the volume itself unless another one was mounted at the same path
    after it; nothing is aborted, no other directory stays allocated. *)
Theorem virtual_tree_follows_mounts pl t ops W : pool_ok pl -> in_use pl = [] -> spec_ops ∅ ops = Some W -> costs ops < 2 ^ 32 - 5 ->
  exists s0 s, initialize (empty_state pl t) = Ok s0 /\ run_ops s0 ops = Ok s /\ W = mountpoint <$> vols s /\
    (forall l, exists o, resolve s (root s) l = Ok o /\
       (is_Some o <-> l = [] \/ exists v pth, W !! v = Some (Some pth) /\ l `prefix_of` comps pth)) /\
    (forall v pth, W !! v = Some (Some pth) -> exists x q d w, vols s !! v = Some x /\ root_vd x = Some q /\
       resolve s (root s) (comps pth) = Ok (Some q) /\ vdirs s !! q = Some d /\ vd_vol d = Some w /\ last_ops ∅ ∅ ops !! comps pth = Some w /\
       (w = v -> lookup_virtual s (vd_fh d) = Ok (Some (q, Some v)))) /\
    (forall q, q ∈ in_use (vd_pool s) <-> exists l, resolve s (root s) l = Ok (Some q)).
Proof.
  intros Hpl Hu Hops Hc. destruct (initialize_tree pl t Hpl Hu) as (s0 & D0 & E0 & Ht0 & Ev & El).
  assert (mounts ∅ = ∅) as Em by apply omap_empty. rewrite <-Em in Ht0.
  destruct (run_ops_tree ops s0 D0 ∅ W Ht0) as (s & D & E & Ht & EW & Hlead); [by rewrite Ev, fmap_empty|done|lia|rewrite map_size_empty; lia|].
  exists s0, s. split; [done|]. split; [done|]. split; [done|]. pose proof (rp_root _ _ _ (tr_rep _ _ _ Ht)) as Hroot.
  assert (forall l, resolve s (root s) l = Ok (D !! reverse l)) as Hres.
  { intros l. rewrite (resolve_ok s D _ l Ht [] _ Hroot). by rewrite app_nil_r. }
  assert (forall v m, mounts W !! v = Some m <-> exists pth, W !! v = Some (Some pth) /\ m = reverse (comps pth)) as HM.
  { intros v m. unfold mounts. rewrite lookup_omap. destruct (W !! v) as [[pth|]|]; cbn; naive_solver. }
  split_and!.
  - intros l. exists (D !! reverse l). split; [done|]. rewrite (tr_dom _ _ _ Ht). unfold above. split.
    + intros [En|(v & m & (pth & Hv & ->)%HM & Hs)].
      * left. rewrite <-(reverse_involutive l), En. done.
      * right. exists v, pth. split; [done|]. by apply prefix_suffix_reverse.
    + intros [->|(v & pth & Hv & Hpre)]; [by left|]. right. exists v, (reverse (comps pth)). split; [apply HM; by exists pth|].
      by apply prefix_suffix_reverse.
  - intros v pth Hv. assert (mounts W !! v = Some (reverse (comps pth))) as Hm by (apply HM; by exists pth).
    destruct (tr_mount _ _ _ Ht _ _ Hm) as (x & Hx & Er). destruct (Hlead ∅ ltac:(by intros ? ? ?) v pth Hv) as (q & w & Hq & Ew & Eo).
    destruct (rp_dir _ _ _ (tr_rep _ _ _ Ht) _ _ Hq) as (d & Hd & Hok). unfold vol_of in Ew. rewrite Hd in Ew. cbn in Ew. rewrite Hq in Er.
    exists x, q, d, w. rewrite Hres. split_and!; [done|done|by f_equal|done|done|done|]. intros ->. by eapply lookup_virtual_ok.
  - intros q. rewrite (rp_used _ _ _ (tr_rep _ _ _ Ht)). split.
    + intros (p & Hp)%(rp_only _ _ _ (tr_rep _ _ _ Ht)). exists (reverse p). by rewrite Hres, reverse_involutive, Hp.
    + intros [l Hl]. rewrite Hres in Hl. injection Hl as Hl. destruct (rp_dir _ _ _ (tr_rep _ _ _ Ht) _ _ Hl) as (d & Hd & _). by eexists.
Qed.

(** C30. A volume that is destroyed while another one is mounted below its mount
    point leaves its directory, and the directory keeps the pointer to the volume:
    the next lookup of the directory locks the mutex of memory that was freed. *)
Theorem unmounted_volume_dangles s D M v m v' m' q d : tree s D M -> M !! v = Some m -> M !! v' = Some m' -> v' <> v -> m `suffix_of` m' ->
  D !! m = Some q -> vdirs s !! q = Some d -> vd_vol d = Some v ->
  exists s', destroy_volume s v = Ok s' /\ lookup_virtual s' (vd_fh d) = Aborted.
Proof.
  intros Ht Hv Hv' Hne Hs Hq Hd Hvol. destruct (unmount_ok s D M v m Ht Hv) as (s1 & D1 & x & Hx & E & Ht1 & Ev & _ & Hsame & Hfr).
  unfold destroy_volume. rewrite E. cbn [mbind res_bind]. eexists. split; [done|].
  assert (D1 !! m = Some q) as Hq1.
  { rewrite Hsame; [done|]. right. exists v', m'. split; [by rewrite lookup_delete_ne by done|done]. }
  destruct (rp_dir _ _ _ (tr_rep _ _ _ Ht1) _ _ Hq1) as (d1 & Hd1 & Hok). destruct (Hfr _ _ _ Hd Hd1) as [Ev1 Ef1].
  unfold lookup_virtual, vd_lookup. cbn [vd_htab set_vols].
  assert (vd_htab s1 !! key_of (vd_fh d) = Some q) as ->.
  { apply (rp_fh _ _ _ (tr_rep _ _ _ Ht1)). exists d1. split; [done|congruence]. }
  cbn [locked_vd]. unfold vdir_at. cbn [vdirs set_vols]. rewrite Hd1. cbn [mbind res_bind]. rewrite (do_deleted _ _ _ _ _ _ Hok). cbn [Z.ltb andb Z.compare].
  cbn [mbind res_bind]. unfold vdir_at. cbn [vdirs set_vols]. rewrite Hd1. cbn [mbind res_bind]. rewrite Ev1, Hvol. unfold vol_at. cbn [vols set_vols].
  by rewrite lookup_delete_eq.
Qed.

(** ** Two volumes, one mounted below the other *)

Definition pool0 : alloc_pool := MkPool 127 [] 0 0 0 [] 0.
Definition path_a : list Z := [47; 97].
Definition path_ab : list Z := [47; 97; 47; 98].
Definition two_mounts : list op := [OpCreate 1; OpMount 1 path_a; OpCreate 2; OpMount 2 path_ab].

Lemma pool0_ok : pool_ok pool0 /\ in_use pool0 = [].
Proof. destruct (create_alloc_pool_ok 127) as (pl & E & H & Hu); [lia|]. injection E as <-. done. Qed.

Lemma virtual_tree_follows_mounts_witness :
  let ops := two_mounts ++ [OpMount 1 [47; 47; 99; 47]; OpDestroy 2] in
  exists s0 s, initialize (empty_state pool0 5) = Ok s0 /\ run_ops s0 ops = Ok s /\
    (exists q d, resolve s (root s) [[99]] = Ok (Some q) /\ vdirs s !! q = Some d /\ lookup_virtual s (vd_fh d) = Ok (Some (q, Some 1))) /\ resolve s (root s) [[97]] = Ok None.
Proof.
  destruct (virtual_tree_follows_mounts pool0 5 (two_mounts ++ [OpMount 1 [47; 47; 99; 47]; OpDestroy 2]) {[ 1 := Some [47; 47; 99; 47] ]}
    (proj1 pool0_ok) (proj2 pool0_ok)) as (s0 & s & E0 & E & EW & Hl & Hv & _).
  - vm_compute. reflexivity.
  - vm_compute. reflexivity.
  - exists s0, s. split; [exact E0|]. split; [exact E|]. split.
    + destruct (Hv 1 [47; 47; 99; 47]) as (x & q & d & w & _ & _ & Eq & Ed & _ & Ew & Hlk); [apply lookup_singleton_eq|].
      exists q, d. split; [exact Eq|]. split; [exact Ed|]. apply Hlk. vm_compute in Ew. congruence.
    + destruct (Hl [[97]]) as ([q|] & Eq & Hi); [|exact Eq]. exfalso. destruct (proj1 Hi) as [?|(v & pth & Hw & Hpre)]; [by eexists|discriminate|].
      apply lookup_singleton_Some in Hw as [_ Hw]. injection Hw as <-. destruct Hpre as [k Hk]. discriminate.
Defined.

Definition mounted_below : state :=
  match initialize (empty_state pool0 5) with
  | Ok s => match run_ops s two_mounts with Ok s => s | _ => s end
  | _ => empty_state pool0 5
  end.

Lemma mounted_below_tree : exists D, tree mounted_below D (mounts {[ 1 := Some path_a; 2 := Some path_ab ]}).
Proof.
  destruct (initialize_tree pool0 5 (proj1 pool0_ok) (proj2 pool0_ok)) as (s0 & D0 & E0 & Ht0 & Ev & El).
  assert (mounts ∅ = ∅) as Em by apply omap_empty. rewrite <-Em in Ht0.
  destruct (run_ops_tree two_mounts s0 D0 ∅ {[ 1 := Some path_a; 2 := Some path_ab ]} Ht0) as (s & D & E & Ht & _ & _);
    [by rewrite Ev, fmap_empty|vm_compute; reflexivity|rewrite El; vm_compute; reflexivity|vm_compute; reflexivity|].
  exists D. assert (mounted_below = s) as ->; [|exact Ht]. unfold mounted_below. by rewrite E0, E.
Qed.

Lemma unmounted_volume_dangles_witness : exists q d s',
  vdirs mounted_below !! q = Some d /\ destroy_volume mounted_below 1 = Ok s' /\ lookup_virtual s' (vd_fh d) = Aborted.
Proof.
  destruct mounted_below_tree as [D Ht].
  assert (mounts {[ 1 := Some path_a; 2 := Some path_ab ]} !! 1 = Some [[97]]) as H1 by (vm_compute; reflexivity).
  assert (mounts {[ 1 := Some path_a; 2 := Some path_ab ]} !! 2 = Some [[98]; [97]]) as H2 by (vm_compute; reflexivity).
  assert (exists q d x, vols mounted_below !! 1 = Some x /\ root_vd x = Some q /\ vdirs mounted_below !! q = Some d /\ vd_vol d = Some 1) as (q & d & x & Hx & Er & Hd & Hv)
    by (vm_compute; eexists _, _, _; split_and!; reflexivity).
  destruct (tr_mount _ _ _ Ht _ _ H1) as (x' & Hx' & Er'). rewrite Hx in Hx'. injection Hx' as <-. rewrite Er in Er'.
  destruct (unmounted_volume_dangles mounted_below D _ 1 [[97]] 2 [[98]; [97]] q d Ht H1 H2 ltac:(discriminate) (suffix_cons_r _ _ _ (reflexivity _)) (eq_sym Er') Hd Hv)
    as (s' & E1 & E2).
  exists q, d, s'. exact (conj Hd (conj E1 E2)).
Defined.

(** A directory that is in use when its volume is unmounted, and has another volume
    below, still has [deleted] set when it was released: the next lookup takes it for
    a directory that should be gone. *)
Definition released_run : res state := s ← lock_vd mounted_below 125; s ← virtual_mountpoint_destroy s 1; unlock_vd s 125.
Definition released : state := match released_run with Ok s => s | _ => mounted_below end.

Example kept_directory_looks_deleted : resolve mounted_below (root mounted_below) [[97]] = Ok (Some 125%nat) /\
  released_run = Ok released /\ vd_lookup_name released (root released) [97] = Aborted.
Proof. split_and!; vm_compute; reflexivity. Qed.
