(* ===== verification/Dentry.v ===== *)
(** File handles and directory entries of [src/zfsd/fs-entities/handle/fh.c]: the tables
    that find them, the tree of entries, the rings of the entries that share a file
    handle (hard links), and the queue from which entries that were not used for a
    long time are taken.

    The model is of one thread, which holds [fh_mutex]; a wait for another thread to
    release a lock does not end here.  A hash table is a finite map ([Hashtab.v]), the
    queue is any implementation of [KeyedQueue.v].  What is done on the way in other
    files and only reports a failure (reading the journal, storing the master handle
    and the hard link in the metadata, see [JournalFile.v], [MetaTable.v], [MetaLinks.v]) is a
    script of results; the fields of version files are left out. *)

From S2P Require Import Prelude AllocPool KeyedQueue Fibheap DataCoding HashFile Metadata MetaTable Capability LockProtocol.
#[local] Open Scope Z_scope.

Definition MAX_INTERNAL_DENTRY_UNUSED_TIME : Z := 30.

(** ** Data *)

(** [ih_cap] has the capabilities of the chain; [ih_journal] says whether there is a
    journal; the entries of a directory are [subdentries]. *)
Record ifh := Ifh {
  local_fh : zfs_fh; ndentries : Z; ih_attr : fattr; ih_meta : metadata; subdentries : list ptr; ih_cap : list ptr;
  ih_journal : bool; ih_level : Z; ih_users : Z; reintegrating_sid : Z
}.

Record dentry := De {
  de_fh : ptr; de_parent : option ptr; de_name : list Z; de_next : ptr; de_prev : ptr; dentry_index : nat; last_use : Z;
  de_node : option ptr; de_users : Z; de_deleted : bool
}.

(** The fields of a volume that are used here. *)
Record dvolume := DVol { root_dentry : option ptr; dv_locked : Z; last_conflict_ino : Z; dv_delete_p : bool }.

Definition key5 : Type := Z * Z * Z * Z * Z.
Definition key_of (fh : zfs_fh) : key5 := (sid fh, vid fh, dev fh, ino fh, gen fh).

Definition is_dir (f : ifh) : bool := bool_decide (fa_type (ih_attr f) = FT_DIR).

Definition with_ndentries (f : ifh) n := Ifh (local_fh f) n (ih_attr f) (ih_meta f) (subdentries f) (ih_cap f) (ih_journal f) (ih_level f) (ih_users f) (reintegrating_sid f).
Definition with_attr (f : ifh) a := Ifh (local_fh f) (ndentries f) a (ih_meta f) (subdentries f) (ih_cap f) (ih_journal f) (ih_level f) (ih_users f) (reintegrating_sid f).
Definition with_meta (f : ifh) m := Ifh (local_fh f) (ndentries f) (ih_attr f) m (subdentries f) (ih_cap f) (ih_journal f) (ih_level f) (ih_users f) (reintegrating_sid f).
Definition with_subs (f : ifh) l := Ifh (local_fh f) (ndentries f) (ih_attr f) (ih_meta f) l (ih_cap f) (ih_journal f) (ih_level f) (ih_users f) (reintegrating_sid f).
Definition with_journal (f : ifh) b := Ifh (local_fh f) (ndentries f) (ih_attr f) (ih_meta f) (subdentries f) (ih_cap f) b (ih_level f) (ih_users f) (reintegrating_sid f).
Definition with_lock (f : ifh) l u := Ifh (local_fh f) (ndentries f) (ih_attr f) (ih_meta f) (subdentries f) (ih_cap f) (ih_journal f) l u (reintegrating_sid f).

Definition with_place (d : dentry) q i := De (de_fh d) q (de_name d) (de_next d) (de_prev d) i (last_use d) (de_node d) (de_users d) (de_deleted d).
Definition with_index (d : dentry) i := with_place d (de_parent d) i.
Definition with_name (d : dentry) n := De (de_fh d) (de_parent d) n (de_next d) (de_prev d) (dentry_index d) (last_use d) (de_node d) (de_users d) (de_deleted d).
Definition with_next (d : dentry) p := De (de_fh d) (de_parent d) (de_name d) p (de_prev d) (dentry_index d) (last_use d) (de_node d) (de_users d) (de_deleted d).
Definition with_prev (d : dentry) p := De (de_fh d) (de_parent d) (de_name d) (de_next d) p (dentry_index d) (last_use d) (de_node d) (de_users d) (de_deleted d).
Definition with_node (d : dentry) n := De (de_fh d) (de_parent d) (de_name d) (de_next d) (de_prev d) (dentry_index d) (last_use d) n (de_users d) (de_deleted d).
Definition with_use (d : dentry) t := De (de_fh d) (de_parent d) (de_name d) (de_next d) (de_prev d) (dentry_index d) t (de_node d) (de_users d) (de_deleted d).
Definition with_users (d : dentry) u b := De (de_fh d) (de_parent d) (de_name d) (de_next d) (de_prev d) (dentry_index d) (last_use d) (de_node d) u b.

Section tables.
Context {H : Type} `{PeekQueue ptr H} (this_node : Z).

(** [closed] and [closed_journals] have the capabilities and the handles whose
    journals were destroyed, [invalidated] the handles the kernel was told to
    forget (the handle of the mount point when the flag is set), [results] what the calls to other files return. *)
Record tables := Tables {
  fhs : gmap ptr ifh; dents : gmap ptr dentry; fh_pool : alloc_pool; dentry_pool : alloc_pool;
  fh_htab : gmap key5 ptr; dentry_htab : gmap key5 ptr; dentry_htab_name : gmap (ptr * list Z) ptr;
  cleanup_dentry_heap : H; vols : gmap Z dvolume; owned : list (lock_info ptr); now : Z; results : list bool;
  closed : list ptr; closed_journals : list ptr; invalidated : list (zfs_fh * bool)
}.

Definition set_fhs (s : tables) x := Tables x (dents s) (fh_pool s) (dentry_pool s) (fh_htab s) (dentry_htab s) (dentry_htab_name s) (cleanup_dentry_heap s) (vols s) (owned s) (now s) (results s) (closed s) (closed_journals s) (invalidated s).
Definition set_dents (s : tables) x := Tables (fhs s) x (fh_pool s) (dentry_pool s) (fh_htab s) (dentry_htab s) (dentry_htab_name s) (cleanup_dentry_heap s) (vols s) (owned s) (now s) (results s) (closed s) (closed_journals s) (invalidated s).
Definition set_pools (s : tables) x y := Tables (fhs s) (dents s) x y (fh_htab s) (dentry_htab s) (dentry_htab_name s) (cleanup_dentry_heap s) (vols s) (owned s) (now s) (results s) (closed s) (closed_journals s) (invalidated s).
Definition set_htabs (s : tables) x y z := Tables (fhs s) (dents s) (fh_pool s) (dentry_pool s) x y z (cleanup_dentry_heap s) (vols s) (owned s) (now s) (results s) (closed s) (closed_journals s) (invalidated s).
Definition set_heap (s : tables) x := Tables (fhs s) (dents s) (fh_pool s) (dentry_pool s) (fh_htab s) (dentry_htab s) (dentry_htab_name s) x (vols s) (owned s) (now s) (results s) (closed s) (closed_journals s) (invalidated s).
Definition set_vols (s : tables) x := Tables (fhs s) (dents s) (fh_pool s) (dentry_pool s) (fh_htab s) (dentry_htab s) (dentry_htab_name s) (cleanup_dentry_heap s) x (owned s) (now s) (results s) (closed s) (closed_journals s) (invalidated s).
Definition set_li (s : tables) x := Tables (fhs s) (dents s) (fh_pool s) (dentry_pool s) (fh_htab s) (dentry_htab s) (dentry_htab_name s) (cleanup_dentry_heap s) (vols s) x (now s) (results s) (closed s) (closed_journals s) (invalidated s).
Definition set_results (s : tables) x := Tables (fhs s) (dents s) (fh_pool s) (dentry_pool s) (fh_htab s) (dentry_htab s) (dentry_htab_name s) (cleanup_dentry_heap s) (vols s) (owned s) (now s) x (closed s) (closed_journals s) (invalidated s).
Definition set_closed (s : tables) x y := Tables (fhs s) (dents s) (fh_pool s) (dentry_pool s) (fh_htab s) (dentry_htab s) (dentry_htab_name s) (cleanup_dentry_heap s) (vols s) (owned s) (now s) (results s) x y (invalidated s).
Definition set_now (s : tables) x := Tables (fhs s) (dents s) (fh_pool s) (dentry_pool s) (fh_htab s) (dentry_htab s) (dentry_htab_name s) (cleanup_dentry_heap s) (vols s) (owned s) x (results s) (closed s) (closed_journals s) (invalidated s).
Definition add_invalidated (s : tables) (x : zfs_fh * bool) := Tables (fhs s) (dents s) (fh_pool s) (dentry_pool s) (fh_htab s) (dentry_htab s) (dentry_htab_name s) (cleanup_dentry_heap s) (vols s) (owned s) (now s) (results s) (closed s) (closed_journals s) (x :: invalidated s).

Definition fh_at (s : tables) (g : ptr) : res ifh := match fhs s !! g with Some f => Ok f | None => Aborted end.
Definition de_at (s : tables) (p : ptr) : res dentry := match dents s !! p with Some d => Ok d | None => Aborted end.
Definition vol_at (s : tables) (v : Z) : res dvolume := match vols s !! v with Some x => Ok x | None => Aborted end.
Definition fh_of (s : tables) (p : ptr) : res ifh := d ← de_at s p; fh_at s (de_fh d).
Definition set_fh (s : tables) (g : ptr) (f : ifh) := set_fhs s (<[g := f]> (fhs s)).
Definition set_de (s : tables) (p : ptr) (d : dentry) := set_dents s (<[p := d]> (dents s)).
Definition set_vol (s : tables) (v : Z) (x : dvolume) := set_vols s (<[v := x]> (vols s)).
Definition on_fh (f : ifh -> ifh) (s : tables) (g : ptr) : res tables := x ← fh_at s g; Ok (set_fh s g (f x)).
Definition on_de (f : dentry -> dentry) (s : tables) (p : ptr) : res tables := x ← de_at s p; Ok (set_de s p (f x)).

(** The next result of the script; at its end calls succeed. *)
Definition next_result (s : tables) : bool * tables :=
  match results s with [] => (true, s) | b :: l => (b, set_results s l) end.

(** ** The queue of entries that may be freed *)

Definition DENTRY_NEVER_CLEANUP (s : tables) (p : ptr) : res bool :=
  d ← de_at s p;
  f ← fh_at s (de_fh d);
  Ok (bool_decide (de_next d = p) && (bool_decide (ih_cap f <> []) || negb (ih_level f =? LEVEL_UNLOCKED) || negb (reintegrating_sid f =? 0))).

(** The loop of [dentry_key] for a conflict directory. *)
Fixpoint conflict_key (s : tables) (d : dentry) (l : list ptr) (max_key : Z) : res Z :=
  match l with
  | [] => Ok max_key
  | tmp :: l =>
      b ← DENTRY_NEVER_CLEANUP s tmp;
      if b : bool then Ok FIBHEAPKEY_MAX
      else conflict_key s d l (if max_key <? u32 (last_use d) then u32 (last_use d) else max_key)
  end.

Definition dentry_key (s : tables) (p : ptr) : res Z :=
  d ← de_at s p;
  f ← fh_at s (de_fh d);
  if CONFLICT_DIR_P (local_fh f) then conflict_key s d (subdentries f) FIBHEAPKEY_MIN
  else
    b ← DENTRY_NEVER_CLEANUP s p;
    Ok (if b : bool then FIBHEAPKEY_MAX else u32 (last_use d)).

Definition non_empty_dir (f : ifh) : bool := is_dir f && bool_decide (subdentries f <> []).

Fixpoint all_empty (s : tables) (l : list ptr) : res bool :=
  match l with
  | [] => Ok true
  | tmp :: l => f ← fh_of s tmp; if non_empty_dir f then Ok false else all_empty s l
  end.

Definition dentry_should_have_cleanup_node (s : tables) (p : ptr) : res bool :=
  d ← de_at s p;
  match de_parent d with
  | None => Ok false
  | Some _ =>
      if de_deleted d then Ok false
      else
        f ← fh_at s (de_fh d);
        if CONFLICT_DIR_P (local_fh f) then all_empty s (subdentries f) else Ok (negb (non_empty_dir f))
  end.

Definition drop_node (s : tables) (p : ptr) : res tables :=
  d ← de_at s p;
  match de_node d with
  | None => Ok s
  | Some n => '(h, _) ← kq_delete_node (cleanup_dentry_heap s) n; Ok (set_de (set_heap s h) p (with_node d None))
  end.

(** The node that [fibheap_replace_key] returns is not used. *)
Definition put_node (s : tables) (p : ptr) : res tables :=
  d ← de_at s p;
  k ← dentry_key s p;
  match de_node d with
  | Some n => '(h, _) ← kq_replace_key (cleanup_dentry_heap s) n k; Ok (set_heap s h)
  | None => '(h, n) ← kq_insert (cleanup_dentry_heap s) k p; Ok (set_de (set_heap s h) p (with_node d (Some n)))
  end.

Definition touch (s : tables) (p : ptr) : res tables :=
  s ← on_de (fun d => with_use d (now s)) s p;
  b ← dentry_should_have_cleanup_node s p;
  if b : bool then put_node s p else drop_node s p.

(** An entry of a conflict directory has no node; its directory has. *)
Definition dentry_update_cleanup_node (s : tables) (p : ptr) : res tables :=
  d ← de_at s p;
  match de_parent d with
  | None => touch s p
  | Some q =>
      f ← fh_of s q;
      if CONFLICT_DIR_P (local_fh f) then s ← drop_node s p; touch s q else touch s p
  end.

(** ** Finding entries *)

Definition acquire_dentry (s : tables) (p : ptr) : res tables :=
  d ← de_at s p; if de_deleted d then Aborted else dentry_update_cleanup_node s p.
Definition release_dentry (s : tables) (p : ptr) : res tables := dentry_update_cleanup_node s p.

Definition dentry_lookup (s : tables) (fh : zfs_fh) : res (tables * option ptr) :=
  if gen fh =? 0 then Aborted
  else match dentry_htab s !! key_of fh with
       | Some p => s ← acquire_dentry s p; Ok (s, Some p)
       | None => Ok (s, None)
       end.

(** [vol] is not used when there is a parent. *)
Definition dentry_lookup_name_nolock (s : tables) (vol : option Z) (parent : option ptr) (name : list Z) : res (option ptr) :=
  o ← match parent, vol with
      | Some q, _ => Ok (dentry_htab_name s !! (q, name))
      | None, Some v => x ← vol_at s v; Ok (root_dentry x)
      | None, None => Aborted
      end;
  match o with
  | None => Ok None
  | Some p => d ← de_at s p; if decide (de_parent d = parent) then Ok (Some p) else Aborted
  end.

Definition dentry_lookup_name (s : tables) (vol : option Z) (parent : option ptr) (name : list Z) : res (tables * option ptr) :=
  o ← dentry_lookup_name_nolock s vol parent name;
  match o with None => Ok (s, None) | Some p => s ← acquire_dentry s p; Ok (s, Some p) end.

(** ** File handles *)

Definition has_local_path (fh : zfs_fh) : bool := (sid fh =? this_node) && negb (vid fh =? VOLUME_ID_VIRTUAL).

Definition MARK_VOLUME_DELETE (s : tables) (v : Z) : res tables :=
  x ← vol_at s v; Ok (set_vol s v (DVol (root_dentry x) (dv_locked x) (last_conflict_ino x) true)).

Definition set_meta_master (m : metadata) (fh : zfs_fh) : metadata :=
  MkMeta (slot_status m) (flags m) (meta_dev m) (meta_ino m) (meta_gen m) fh (local_version m) (master_version m)
    (modetype m) (uid m) (gid m) (parent_dev m) (parent_ino m) (meta_name m).

Definition take_master (s : tables) (g : ptr) (master : zfs_fh) : res tables :=
  on_fh (fun f => with_meta f (set_meta_master (ih_meta f) master)) s g.

(** [set_metadata_master_fh], which a local file needs, can fail before or after the
    handle was stored. *)
Definition set_master_fh (s : tables) (g : ptr) (master : zfs_fh) : res (tables * bool) :=
  if zfs_fh_undefined master then Ok (s, true)
  else
    f ← fh_at s g;
    if has_local_path (local_fh f) && negb (ZFS_FH_EQ (master_fh (ih_meta f)) master) then
      let '(b, s) := next_result s in
      if b : bool then s ← take_master s g master; Ok (s, true)
      else
        let '(c, s) := next_result s in
        s ← (if c : bool then take_master s g master else Ok s);
        Ok (s, false)
    else s ← take_master s g master; Ok (s, true).

(** The part of the metadata behind [master_fh] is left as it was. *)
Definition clear_meta (m : metadata) : metadata :=
  MkMeta 0 0 0 0 0 undefined (local_version m) (master_version m) (modetype m) (uid m) (gid m) (parent_dev m) (parent_ino m) (meta_name m).

Definition set_attr_version (a : fattr) (m : metadata) : fattr :=
  MkFattr (fa_dev a) (fa_ino a) (local_version m) (fa_type a) (fa_mode a) (fa_nlink a) (fa_uid a) (fa_gid a) (fa_rdev a)
    (fa_size a) (fa_blocks a) (fa_blksize a) (fa_atime a) (fa_mtime a) (fa_ctime a).

Definition lock_level_ok (level : Z) : bool := (level =? LEVEL_SHARED) || (level =? LEVEL_EXCLUSIVE).

(** A new handle is locked for its first entry. *)
Definition lock_new (s : tables) (v : Z) (level : Z) : res tables :=
  if level =? LEVEL_UNLOCKED then Ok s
  else if lock_level_ok level then
    x ← vol_at s v; Ok (set_vol s v (DVol (root_dentry x) (u32 (dv_locked x + 1)) (last_conflict_ino x) (dv_delete_p x)))
  else Aborted.

(** The metadata and the journal of a local file. *)
Definition load_local (s : tables) (g : ptr) (meta : metadata) (v : Z) : res tables :=
  f ← fh_at s g;
  let l := local_fh f in
  if negb ((dev l =? meta_dev meta) && (ino l =? meta_ino meta) && (gen l =? meta_gen meta) && (slot_status meta =? HashFile.VALID_SLOT)) then Aborted
  else
    let f := with_attr (with_meta f meta) (set_attr_version (ih_attr f) meta) in
    if is_dir f then
      let '(b, s) := next_result (set_fh s g (with_journal f true)) in
      if b : bool then Ok s else MARK_VOLUME_DELETE s v
    else Ok (set_fh s g f).

(** [junk] is what is in the memory of a new handle.  The caller's attributes get the
    version too, which is not shown. *)
Definition internal_fh_create (junk : metadata) (s : tables) (fh master : zfs_fh) (attr : fattr) (meta : metadata) (v : Z) (level : Z)
    : res (tables * ptr) :=
  '(g, pl) ← pool_alloc (fh_pool s);
  let s := set_fh (set_pools s pl (dentry_pool s)) g
             (Ifh fh 0 attr junk [] [] false level (if level =? LEVEL_UNLOCKED then 0 else 1) 0) in
  s ← lock_new s v level;
  match fh_htab s !! key_of fh with
  | Some _ => Aborted
  | None =>
      let s := set_htabs s (<[key_of fh := g]> (fh_htab s)) (dentry_htab s) (dentry_htab_name s) in
      s ← (if has_local_path fh then load_local s g meta v else on_fh (fun f => with_meta f (clear_meta (ih_meta f))) s g);
      x ← vol_at s v;
      s ← (if dv_delete_p x then Ok s
           else
             '(s, b) ← set_master_fh s g master;
             if b : bool then Ok s
             else s ← MARK_VOLUME_DELETE s v; on_fh (fun f => with_meta f (clear_meta (ih_meta f))) s g);
      Ok (s, g)
  end.

(** [put_capability] destroys each capability of the chain. *)
Definition internal_fh_destroy_stage1 (s : tables) (g : ptr) : res tables :=
  f ← fh_at s g;
  if negb (ndentries f =? 0) then Aborted
  else
    let s := set_closed s (ih_cap f ++ closed s) (if ih_journal f then g :: closed_journals s else closed_journals s) in
    match fh_htab s !! key_of (local_fh f) with
    | None => Aborted
    | Some _ => Ok (set_htabs s (delete (key_of (local_fh f)) (fh_htab s)) (dentry_htab s) (dentry_htab_name s))
    end.

Definition internal_fh_destroy_stage2 (s : tables) (g : ptr) : res tables :=
  pl ← pool_free (fh_pool s) g; Ok (set_pools (set_fhs s (delete g (fhs s))) pl (dentry_pool s)).

(** ** The tree *)

Definition internal_dentry_add_to_dir (s : tables) (parent p : ptr) : res tables :=
  d ← de_at s p;
  match de_parent d with
  | Some _ => Aborted
  | None =>
      pd ← de_at s parent;
      pf ← fh_at s (de_fh pd);
      let s := set_de s p (with_place d (Some parent) (length (subdentries pf))) in
      let s := set_fh s (de_fh pd) (with_subs pf (subdentries pf ++ [p])) in
      s ← dentry_update_cleanup_node s parent;
      s ← dentry_update_cleanup_node s p;
      match dentry_htab_name s !! (parent, de_name d) with
      | Some _ => Aborted
      | None => Ok (set_htabs s (fh_htab s) (dentry_htab s) (<[(parent, de_name d) := p]> (dentry_htab_name s)))
      end
  end.

(** The top of the list takes the place of the entry. *)
Definition unlist (s : tables) (g p : ptr) (i : nat) : res tables :=
  f ← fh_at s g;
  match last (subdentries f) with
  | None => Aborted
  | Some top =>
      if decide (i < length (subdentries f))%nat then
        let s := set_fh s g (with_subs f (take (length (subdentries f) - 1) (<[i := top]> (subdentries f)))) in
        on_de (fun d => with_index d i) s top
      else Aborted
  end.

Definition internal_dentry_del_from_dir (s : tables) (p : ptr) : res tables :=
  d ← de_at s p;
  match de_parent d with
  | None => Ok s
  | Some q =>
      pd ← de_at s q;
      s ← unlist s (de_fh pd) p (dentry_index d);
      match dentry_htab_name s !! (q, de_name d) with
      | None => Aborted
      | Some _ =>
          let s := set_htabs s (fh_htab s) (dentry_htab s) (delete (q, de_name d) (dentry_htab_name s)) in
          s ← dentry_update_cleanup_node s q;
          on_de (fun d => with_place d None (dentry_index d)) s p
      end
  end.

(** [vol->last_conflict_ino] is advanced until there is no handle with this number. *)
Fixpoint conflict_ino (fuel : nat) (s : tables) (fh : zfs_fh) (v : Z) : res (tables * zfs_fh) :=
  x ← vol_at s v;
  let i := u32 (last_conflict_ino x + 1) in
  let i := if i =? 0 then 1 else i in
  let s := set_vol s v (DVol (root_dentry x) (dv_locked x) i (dv_delete_p x)) in
  let fh := MkFh (sid fh) (vid fh) (dev fh) i (gen fh) in
  match fh_htab s !! key_of fh with
  | None => Ok (s, fh)
  | Some _ => match fuel with O => OutOfFuel | S fuel => conflict_ino fuel s fh v end
  end.

(** The entry [p] is linked into the ring behind [old]. *)
Definition link_behind (s : tables) (p old : ptr) : res tables :=
  od ← de_at s old;
  s ← on_de (fun d => with_prev (with_next d (de_next od)) old) s p;
  s ← on_de (fun d => with_prev d p) s (de_next od);
  on_de (fun d => with_next d p) s old.

(** Lower the key of the node if it is [FIBHEAPKEY_MAX]. *)
Definition lower_key (s : tables) (p : ptr) : res tables :=
  d ← de_at s p;
  match de_node d with
  | None => Ok s
  | Some n => k ← kq_key (cleanup_dentry_heap s) n; if k =? FIBHEAPKEY_MAX then dentry_update_cleanup_node s p else Ok s
  end.

Fixpoint lower_keys (fuel : nat) (s : tables) (p old : ptr) : res tables :=
  if decide (old = p) then Ok s
  else
    match fuel with
    | O => OutOfFuel
    | S fuel => s ← lower_key s old; d ← de_at s old; lower_keys fuel s p (de_next d)
    end.

Definition new_dentry (s : tables) (g p : ptr) (name : list Z) (users : Z) : tables :=
  set_de s p (De g None name p p 0 (now s) None users false).

(** The handle of a new entry: that of the table or a new one.  The entry is owned when the new
    handle is locked. *)
Definition handle_for (junk : metadata) (s : tables) (p : ptr) (fh master : zfs_fh) (attr : fattr) (meta : metadata) (v level : Z) : res (tables * ptr * Z) :=
  match fh_htab s !! key_of fh with
  | Some g => s ← on_fh (fun f => with_attr f attr) s g; Ok (s, g, 0)
  | None =>
      '(s, g) ← internal_fh_create junk s fh master attr meta v level;
      if level =? LEVEL_UNLOCKED then Ok (s, g, 0)
      else li ← set_owned (owned s) p level; Ok (set_li s li, g, 1)
  end.

(** The new entry enters its directory, or becomes the root of the volume. *)
Definition place_entry (s : tables) (p : ptr) (fh : zfs_fh) (v : Z) (parent : option ptr) : res tables :=
  match parent with
  | Some q =>
      s ← dentry_update_cleanup_node s p;
      s ← internal_dentry_add_to_dir s q p;
      if has_local_path fh then
        let '(b, s) := next_result s in if b : bool then Ok s else MARK_VOLUME_DELETE s v
      else Ok s
  | None => x ← vol_at s v; Ok (set_vol s v (DVol (Some p) (dv_locked x) (last_conflict_ino x) (dv_delete_p x)))
  end.

(** The new entry joins the ring of its handle, whose keys need not be
    [FIBHEAPKEY_MAX] any more. *)
Definition join_ring (s : tables) (p : ptr) (parent : option ptr) (key : key5) : res tables :=
  match dentry_htab s !! key with
  | None => Ok s
  | Some old =>
      s ← link_behind s p old;
      match parent with
      | None => Ok s
      | Some _ => s ← lower_key s p; d ← de_at s p; lower_keys (size (dents s)) s p (de_next d)
      end
  end.

Definition internal_dentry_create (junk : metadata) (s : tables) (fh master : zfs_fh) (v : Z) (parent : option ptr) (name : list Z)
    (attr : fattr) (meta : metadata) (level : Z) : res (tables * ptr) :=
  '(p, pl) ← pool_alloc (dentry_pool s);
  let s := set_pools s (fh_pool s) pl in
  '(s, fh) ← (if CONFLICT_DIR_P fh then conflict_ino (S (size (fh_htab s))) s fh v else Ok (s, fh));
  '(s, g, users) ← handle_for junk s p fh master attr meta v level;
  let s := new_dentry s g p name users in
  s ← on_fh (fun f => with_ndentries f (u32 (ndentries f + 1))) s g;
  s ← place_entry s p fh v parent;
  s ← join_ring s p parent (key_of fh);
  Ok (set_htabs s (fh_htab s) (<[key_of fh := p]> (dentry_htab s)) (dentry_htab_name s), p).

Definition internal_dentry_link (s : tables) (orig parent : ptr) (name : list Z) : res (tables * ptr) :=
  '(s, o) ← dentry_lookup_name s None (Some parent) name;
  match o with
  | Some _ => Aborted
  | None =>
      '(p, pl) ← pool_alloc (dentry_pool s);
      od ← de_at s orig;
      let g := de_fh od in
      s ← on_fh (fun f => with_ndentries f (u32 (ndentries f + 1))) (set_pools s (fh_pool s) pl) g;
      let s := new_dentry s g p name 0 in
      s ← dentry_update_cleanup_node s p;
      s ← internal_dentry_add_to_dir s parent p;
      f ← fh_at s g;
      match dentry_htab s !! key_of (local_fh f) with
      | None => Aborted
      | Some old => s ← link_behind s p old; Ok (s, p)
      end
  end.

(** *** Destroying a subtree *)

(** Whether the entry is in the ring that starts at [first]. *)
Fixpoint in_ring (fuel : nat) (s : tables) (first p cur : ptr) : res bool :=
  if decide (cur = p) then Ok true
  else
    d ← de_at s cur;
    if decide (de_next d = first) then Ok false
    else match fuel with O => OutOfFuel | S fuel => in_ring fuel s first p (de_next d) end.

(** Look for the entry [p] by the file handle it had. *)
Definition find_again (s : tables) (fh : zfs_fh) (p : ptr) : res (tables * bool) :=
  '(s, o) ← dentry_lookup s fh;
  match o with
  | None => Ok (s, false)
  | Some t => b ← in_ring (size (dents s)) s t p t; Ok (s, b)
  end.

(** [destroy] is [internal_dentry_destroy] for a subentry. *)
Fixpoint destroy_subdentries (destroy : tables -> ptr -> res tables) (fuel : nat) (s : tables) (p : ptr) (fh : zfs_fh) : res (tables * bool) :=
  f ← fh_of s p;
  if negb (is_dir f) then Aborted
  else
    match last (subdentries f) with
    | None => Ok (s, true)
    | Some c =>
        match fuel with
        | O => OutOfFuel
        | S fuel =>
            s ← destroy s c;
            '(s, b) ← find_again s fh p;
            if b : bool then destroy_subdentries destroy fuel s p fh else Ok (s, false)
        end
    end.

(** The lock this thread has on the entry is released. *)
Definition unlock_owned (s : tables) (p : ptr) (fh : zfs_fh) : res tables :=
  if is_owned (owned s) p then
    x ← vol_at s (vid fh);
    let s := set_vol s (vid fh) (DVol (root_dentry x) (u32 (dv_locked x - 1)) (last_conflict_ino x) (dv_delete_p x)) in
    d ← de_at s p;
    s ← on_fh (fun f => with_lock f (if u32 (ih_users f - 1) =? 0 then LEVEL_UNLOCKED else ih_level f) (u32 (ih_users f - 1))) s (de_fh d);
    li ← clear_owned (owned s) p;
    Ok (set_de (set_li s li) p (with_users d (u32 (de_users d - 1)) (de_deleted d)))
  else Ok s.

(** The entry leaves its directory, or the volume loses its root. *)
Definition detach (s : tables) (p : ptr) (clear_volume_root : bool) : res tables :=
  d ← de_at s p;
  match de_parent d with
  | Some _ => internal_dentry_del_from_dir s p
  | None =>
      if clear_volume_root then
        f ← fh_at s (de_fh d);
        match vols s !! vid (local_fh f) with
        | Some x => Ok (set_vol s (vid (local_fh f)) (DVol None (dv_locked x) (last_conflict_ino x) (dv_delete_p x)))
        | None => Ok s
        end
      else Ok s
  end.

(** The entry leaves its ring, and the handle goes with its last entry. *)
Definition unring (s : tables) (p : ptr) : res tables :=
  d ← de_at s p;
  f ← fh_at s (de_fh d);
  match dentry_htab s !! key_of (local_fh f) with
  | None => Aborted
  | Some _ =>
      let n := u32 (ndentries f - 1) in
      let s := set_fh s (de_fh d) (with_ndentries f n) in
      if decide (de_next d = p) then
        if negb (n =? 0) then Aborted
        else internal_fh_destroy_stage1 (set_htabs s (fh_htab s) (delete (key_of (local_fh f)) (dentry_htab s)) (dentry_htab_name s)) (de_fh d)
      else if n =? 0 then Aborted
      else
        s ← on_de (fun x => with_prev x (de_prev d)) s (de_next d);
        s ← on_de (fun x => with_next x (de_next d)) s (de_prev d);
        Ok (set_htabs s (fh_htab s) (<[key_of (local_fh f) := de_next d]> (dentry_htab s)) (dentry_htab_name s))
  end.

Definition fs_invalidate_dentry (s : tables) (p : ptr) (volume_root_p : bool) : res tables :=
  f ← fh_of s p;
  s ← release_dentry s p;
  Ok (add_invalidated s (local_fh f, volume_root_p)).

(** The end of [internal_dentry_destroy], after the entry was marked. *)
Definition free_dentry (s : tables) (p : ptr) (invalidate volume_root_p : bool) : res tables :=
  s ← (if invalidate then fs_invalidate_dentry s p volume_root_p else Ok s);
  d ← de_at s p;
  s ← (if decide (de_next d = p) then internal_fh_destroy_stage2 s (de_fh d) else Ok s);
  pl ← pool_free (dentry_pool s) p;
  Ok (set_pools (set_dents s (delete p (dents s))) (fh_pool s) pl).

(** The part of [internal_dentry_destroy] behind the first call of
    [internal_dentry_destroy_subdentries], which is [subs]. *)
Definition destroy_self (subs : tables -> res (tables * bool)) (s : tables) (p : ptr) (fh : zfs_fh) (clear_volume_root invalidate volume_root_p : bool) : res tables :=
  d ← de_at s p;
  f ← fh_at s (de_fh d);
  if negb (ih_level f =? LEVEL_UNLOCKED) && de_deleted d then Aborted
  else
    s ← unlock_owned s p fh;
    d ← de_at s p;
    if 0 <? de_users d then OutOfFuel
    else if de_deleted d then Ok s
    else
      s ← dentry_update_cleanup_node (set_de s p (with_users d (de_users d) true)) p;
      f ← fh_of s p;
      '(s, b) ← (if is_dir f then subs s else Ok (s, true));
      if negb b then Aborted
      else
        s ← detach s p clear_volume_root;
        s ← unring s p;
        free_dentry s p invalidate volume_root_p.

Fixpoint internal_dentry_destroy (fuel : nat) (s : tables) (p : ptr) (clear_volume_root invalidate volume_root_p : bool) : res tables :=
  match fuel with
  | O => OutOfFuel
  | S fuel =>
      f ← fh_of s p;
      let fh := local_fh f in
      let subs := fun s => destroy_subdentries (fun s c => internal_dentry_destroy fuel s c false invalidate false) (S (size (dents s))) s p fh in
      '(s, b) ← (if is_dir f then subs s else Ok (s, true));
      if negb b then Ok s else destroy_self subs s p fh clear_volume_root invalidate volume_root_p
  end.

Definition destroy (s : tables) (p : ptr) (clear_volume_root invalidate volume_root_p : bool) : res tables :=
  internal_dentry_destroy (S (size (dents s))) s p clear_volume_root invalidate volume_root_p.

(** *** Conflict directories *)

(** The first entry of the list for which the test holds. *)
Fixpoint find_entry (test : ptr -> zfs_fh -> bool) (s : tables) (l : list ptr) : res (tables * option ptr) :=
  match l with
  | [] => Ok (s, None)
  | p :: l =>
      s ← acquire_dentry s p;
      f ← fh_of s p;
      if test p (local_fh f) then Ok (s, Some p) else s ← release_dentry s p; find_entry test s l
  end.

Definition entry_of_conflict (test : ptr -> zfs_fh -> bool) (s : tables) (conflict : ptr) : res (tables * option ptr) :=
  f ← fh_of s conflict;
  if CONFLICT_DIR_P (local_fh f) then find_entry test s (subdentries f) else Aborted.

Definition conflict_local_dentry (s : tables) (conflict : ptr) := entry_of_conflict (fun _ fh => sid fh =? this_node) s conflict.
Definition conflict_remote_dentry (s : tables) (conflict : ptr) := entry_of_conflict (fun _ fh => negb (sid fh =? this_node)) s conflict.
Definition conflict_other_dentry (s : tables) (conflict p : ptr) : res (tables * option ptr) :=
  f ← fh_of s conflict;
  if CONFLICT_DIR_P (local_fh f) then
    match filter (fun o => o <> p) (subdentries f) with
    | [] => Ok (s, None)
    | o :: _ => s ← acquire_dentry s o; Ok (s, Some o)
    end
  else Aborted.

(** ** Moving an entry *)

(** Whether [p] is [tmp] or a directory above it. *)
Fixpoint is_above (fuel : nat) (s : tables) (p : ptr) (tmp : option ptr) : res bool :=
  match tmp with
  | None => Ok false
  | Some q =>
      if decide (q = p) then Ok true
      else match fuel with O => OutOfFuel | S fuel => d ← de_at s q; is_above fuel s p (de_parent d) end
  end.

(** The entry leaves its directory and gets a new name in another one. *)
Definition rename_to (s : tables) (p to_dir : ptr) (to_name : list Z) : res tables :=
  s ← internal_dentry_del_from_dir s p;
  s ← on_de (fun d => with_name d to_name) s p;
  internal_dentry_add_to_dir s to_dir p.

(** Returns the directories, which are looked up again after a conflict directory
    was destroyed. *)
Definition internal_dentry_move (s : tables) (from_dir : ptr) (from_name : list Z) (to_dir : ptr) (to_name : list Z) (from_fh to_fh : zfs_fh)
    : res (tables * option ptr * option ptr) :=
  '(s, o) ← dentry_lookup_name s None (Some from_dir) from_name;
  match o with
  | None => Ok (s, Some from_dir, Some to_dir)
  | Some p =>
      b ← is_above (size (dents s)) s p (Some to_dir);
      if b : bool then Aborted
      else
        '(s, o) ← dentry_lookup_name s None (Some to_dir) to_name;
        match o with
        | Some _ => Aborted
        | None =>
            f ← fh_of s p;
            if CONFLICT_DIR_P (local_fh f) then
              cd ← de_at s p;
              s ← internal_dentry_del_from_dir s p;
              '(s, o) ← conflict_local_dentry s p;
              match o with
              | None => Aborted
              | Some c =>
                  s ← rename_to s c to_dir to_name;
                  fc ← fh_of s c;
                  s ← release_dentry s c;
                  s ← release_dentry s from_dir;
                  s ← (if decide (to_dir = from_dir) then Ok s else release_dentry s to_dir);
                  s ← destroy s p false true (bool_decide (de_parent cd = None));
                  '(s, t) ← dentry_lookup s to_fh;
                  '(s, o) ← (if ino from_fh =? ino to_fh then Ok (s, t) else dentry_lookup s from_fh);
                  Ok (add_invalidated s (local_fh fc, false), o, t)
              end
            else
              s ← rename_to s p to_dir to_name;
              d ← de_at s p;
              s ← fs_invalidate_dentry s p (bool_decide (de_parent d = None));
              Ok (s, Some from_dir, Some to_dir)
        end
  end.

(** ** Freeing entries that are not used *)

(** At most [n] entries whose keys are below the threshold leave the queue. *)
Fixpoint take_old (n : nat) (s : tables) (threshold : Z) : res (tables * list zfs_fh) :=
  match n with
  | O => Ok (s, [])
  | S n =>
      if kq_size (cleanup_dentry_heap s) =? 0 then Ok (s, [])
      else
        o ← kq_min (cleanup_dentry_heap s);
        match o with
        | None => Aborted
        | Some p =>
            k ← kq_min_key (cleanup_dentry_heap s);
            if threshold <=? k then Ok (s, [])
            else
              '(h, _) ← kq_extract_min (cleanup_dentry_heap s);
              s ← on_de (fun d => with_node d None) (set_heap s h) p;
              f ← fh_of s p;
              '(s, l) ← take_old n s threshold;
              Ok (s, local_fh f :: l)
        end
  end.

Definition free_old (s : tables) (threshold : Z) (fh : zfs_fh) : res tables :=
  '(s, o) ← dentry_lookup s fh;
  match o with
  | None => Ok s
  | Some p =>
      b ← dentry_should_have_cleanup_node s p;
      if b : bool then release_dentry s p
      else
        k ← dentry_key s p;
        if threshold <=? k then s ← dentry_update_cleanup_node s p; release_dentry s p
        else
          d ← de_at s p;
          destroy s p true false (bool_decide (de_parent d = None))
  end.

Fixpoint free_all_old (s : tables) (threshold : Z) (l : list zfs_fh) : res tables :=
  match l with [] => Ok s | fh :: l => s ← free_old s threshold fh; free_all_old s threshold l end.

Definition vid_order (a b : zfs_fh) : Prop := vid a <= vid b.
#[local] Instance vid_order_dec : RelDecision vid_order := fun a b => decide (vid a <= vid b).

(** [qsort] leaves the order of handles of one volume open; this one keeps it. *)
Definition sort_by_volume (l : list zfs_fh) : list zfs_fh := merge_sort vid_order l.

Fixpoint cleanup_rounds (fuel : nat) (s : tables) (threshold : Z) : res tables :=
  '(s, l) ← take_old 1024 s threshold;
  match l with
  | [] => Ok s
  | _ =>
      s ← free_all_old s threshold (sort_by_volume l);
      match fuel with O => OutOfFuel | S fuel => cleanup_rounds fuel s threshold end
  end.

Definition cleanup_threshold (t : Z) : Z := if u32 t <=? MAX_INTERNAL_DENTRY_UNUSED_TIME then 0 else u32 t - MAX_INTERNAL_DENTRY_UNUSED_TIME.
Definition cleanup_unused_dentries (s : tables) : res tables := cleanup_rounds (size (dents s)) s (cleanup_threshold (now s)).

End tables.
