(* ===== verification/DentryTree.v ===== *)
(** The two structures the entries of [Dentry.v] form, on the fields that matter for
    each: the tree of entries, with the lists of the directories and the table of
    names, and the rings of the entries of a file handle.  The lemmas say what single
    steps (leaving a directory, entering one, joining and leaving a ring) do to
    them. *)

From S2P Require Import Prelude AllocPool DataCoding Dentry.
#[local] Open Scope Z_scope.

(** Case analysis on a decision of the goal or of a hypothesis. *)
Ltac goal_decide := match goal with |- context [decide ?P] => destruct (decide P) end.
Ltac decide_in E := match type of E with context [decide ?P] => destruct (decide P) end.

(** ** The tree *)

Record tnode := TN { t_fh : ptr; t_parent : option ptr; t_name : list Z; t_index : nat }.
Record fnode := FN { f_fh : zfs_fh; f_dir : bool; f_subs : list ptr }.

(** The number of directories above an entry. *)
Inductive depth (T : gmap ptr tnode) : ptr -> nat -> Prop :=
  | depth_top p t : T !! p = Some t -> t_parent t = None -> depth T p 0
  | depth_below p t q n : T !! p = Some t -> t_parent t = Some q -> depth T q n -> depth T p (S n).

(** [p] is [x] or a directory above it. *)
Inductive under (T : gmap ptr tnode) (p : ptr) : ptr -> Prop :=
  | under_refl : under T p p
  | under_step x t q : T !! x = Some t -> t_parent t = Some q -> under T p q -> under T p x.

(** The entry [E], if there is one, is in no directory and not the root of a
    volume either. *)
Record tree_ok (T : gmap ptr tnode) (F : gmap ptr fnode) (N : gmap (ptr * list Z) ptr) (R : gmap Z (option ptr)) (E : option ptr) : Prop := {
  to_fh : forall p t, T !! p = Some t -> is_Some (F !! t_fh t);
  to_up : forall p t q, T !! p = Some t -> t_parent t = Some q ->
    exists tq f, T !! q = Some tq /\ F !! t_fh tq = Some f /\ f_dir f = true /\ f_subs f !! t_index t = Some p;
  to_down : forall g f i p, F !! g = Some f -> f_subs f !! i = Some p ->
    exists t q tq, T !! p = Some t /\ t_index t = i /\ t_parent t = Some q /\ T !! q = Some tq /\ t_fh tq = g;
  to_name : forall q n p, N !! (q, n) = Some p <-> exists t, T !! p = Some t /\ t_parent t = Some q /\ t_name t = n;
  to_root : forall v p, R !! v = Some (Some p) -> exists t f, T !! p = Some t /\ t_parent t = None /\ F !! t_fh t = Some f /\ vid (f_fh f) = v;
  to_top : forall p t f, T !! p = Some t -> F !! t_fh t = Some f -> t_parent t = None -> E <> Some p -> R !! vid (f_fh f) = Some (Some p);
  to_loose : forall p, E = Some p -> (exists t, T !! p = Some t /\ t_parent t = None) /\ forall v, R !! v <> Some (Some p);
  to_depth : forall p, is_Some (T !! p) -> exists n, depth T p n
}.

Lemma depth_fun T p n m : depth T p n -> depth T p m -> n = m.
Proof.
  intros Hn. revert m. induction Hn as [p t Ht E|p t q n Ht E Hn IH]; intros m Hm; inversion Hm; subst; try congruence.
  f_equal. apply IH. congruence.
Qed.

Lemma depth_some T p n : depth T p n -> is_Some (T !! p).
Proof. intros []; by eexists. Qed.

Lemma under_depth T p x n m : under T p x -> depth T p n -> depth T x m -> (n <= m)%nat /\ (x <> p -> n < m)%nat.
Proof.
  intros Hu. revert m. induction Hu as [|x t q Ht E Hu IH]; intros m Hn Hm.
  - rewrite (depth_fun _ _ _ _ Hn Hm). split; [lia|done].
  - inversion Hm; subst; simplify_eq. destruct (IH n0) as [L1 L2]; [done|congruence|]. lia.
Qed.

Lemma under_dec T p x n : depth T x n -> under T p x \/ ~ under T p x.
Proof.
  induction 1 as [x t Ht E|x t q n Ht E Hn IH]; (destruct (decide (x = p)) as [->|Hne]; [left; constructor|]).
  - right. intros Hu. inversion Hu; subst; congruence.
  - destruct IH as [IH|IH]; [left; by econstructor|]. right. intros Hu. inversion Hu; subst; [done|]. simplify_eq.
Qed.

Lemma under_trans T p q x : under T p q -> under T q x -> under T p x.
Proof. intros H. induction 1 as [|x t q' Ht E _ IH]; [done|]. by econstructor. Qed.

(** Two entries do not lie above each other. *)
Lemma under_antisym T p q n : under T p q -> under T q p -> depth T p n -> p = q.
Proof.
  intros H1 H2 Hn. destruct (decide (p = q)) as [|Hne]; [done|].
  assert (exists m, depth T q m) as [m Hm].
  { clear H1 Hne. revert n Hn. induction H2 as [|x t q' Ht E H2 IH]; intros n Hn; [by exists n|]. inversion Hn; subst; simplify_eq. by eapply IH. }
  destruct (under_depth _ _ _ _ _ H1 Hn Hm) as [_ L1]. destruct (under_depth _ _ _ _ _ H2 Hm Hn) as [_ L2]. assert (n < m)%nat by (apply L1; congruence). assert (m < n)%nat by (apply L2; congruence). lia.
Qed.

(** The depth does not change when the chain of parents does not. *)
Lemma depth_ext T T' p n : depth T p n -> (forall x t, T !! x = Some t -> under T x p -> exists t', T' !! x = Some t' /\ t_parent t' = t_parent t) -> depth T' p n.
Proof.
  induction 1 as [p t Ht E|p t q n Ht E Hn IH]; intros Hx; destruct (Hx _ _ Ht (under_refl _ _)) as (t' & Ht' & E').
  - apply (depth_top _ _ t'); [exact Ht'|congruence].
  - apply (depth_below _ _ t' q); [exact Ht'|congruence|]. apply IH. intros x tx Htx Hu. apply (Hx _ _ Htx). by econstructor.
Qed.

Section tree.
Context {T : gmap ptr tnode} {F : gmap ptr fnode} {N : gmap (ptr * list Z) ptr} {R : gmap Z (option ptr)}.

Lemma tree_nodup E g f : tree_ok T F N R E -> F !! g = Some f -> NoDup (f_subs f).
Proof.
  intros H Hf. apply NoDup_alt. intros i j p Hi Hj. destruct (to_down _ _ _ _ _ H _ _ _ _ Hf Hi) as (t & _ & _ & Ht & <- & _).
  destruct (to_down _ _ _ _ _ H _ _ _ _ Hf Hj) as (t' & _ & _ & Ht' & <- & _). congruence.
Qed.

(** Entries with the same directory and name are the same. *)
Lemma tree_inj E p p' t t' q : tree_ok T F N R E -> T !! p = Some t -> T !! p' = Some t' -> t_parent t = Some q -> t_parent t' = Some q ->
  t_name t' = t_name t -> p' = p.
Proof.
  intros H Hp Hp' E1 E2 En. assert (N !! (q, t_name t) = Some p) as A1 by (apply (to_name _ _ _ _ _ H); by exists t).
  assert (N !! (q, t_name t) = Some p') as A2 by (apply (to_name _ _ _ _ _ H); exists t'; split_and!; congruence). congruence.
Qed.

(** *** Leaving a directory *)

Definition without (l : list ptr) (i : nat) (top : ptr) : list ptr := take (length l - 1) (<[i := top]> l).

Lemma without_spec (l : list ptr) i p top : NoDup l -> l !! i = Some p -> last l = Some top ->
  forall j x, without l i top !! j = Some x <-> x <> p /\ (if decide (x = top) then j = i else l !! j = Some x).
Proof.
  intros Hnd Hi Hl j x. unfold without. pose proof (lookup_lt_Some _ _ _ Hi) as Hlt. rewrite last_lookup in Hl.
  assert (Nat.pred (length l) = length l - 1)%nat as Ep by lia. rewrite Ep in Hl.
  destruct (decide (j < length l - 1)%nat) as [Hj|Hj].
  - rewrite lookup_take_lt by done. destruct (decide (i = j)) as [->|Hij].
    + rewrite list_lookup_insert_eq by done. assert (top <> p) as Hne.
      { intros ->. pose proof (NoDup_lookup _ _ _ _ Hnd Hi Hl). lia. }
      split.
      * intros [= <-]. split; [done|]. by rewrite decide_True.
      * intros [Hx Hd]. case_decide as Et; [by subst|]. rewrite Hi in Hd. congruence.
    + rewrite list_lookup_insert_ne by done. split.
      * intros Hx. split; [intros ->; pose proof (NoDup_lookup _ _ _ _ Hnd Hi Hx); lia|]. case_decide as Et; [|done]. subst x.
        pose proof (NoDup_lookup _ _ _ _ Hnd Hl Hx). lia.
      * intros [_ Hd]. case_decide; [lia|done].
  - rewrite lookup_take_ge by lia. split; [done|]. intros [Hx Hd]. case_decide as Et.
    + subst j x. assert (i = length l - 1)%nat as -> by lia. congruence.
    + pose proof (lookup_lt_Some _ _ _ Hd). assert (j = length l - 1)%nat as -> by lia. congruence.
Qed.

Lemma tree_del T' p t q tq f top : tree_ok T F N R None -> T !! p = Some t -> t_parent t = Some q -> T !! q = Some tq -> F !! t_fh tq = Some f ->
  last (f_subs f) = Some top ->
  (forall x, T' !! x = (fun tx => TN (t_fh tx) (if decide (x = p) then None else t_parent tx) (t_name tx)
                                   (if decide (x = top) then t_index t else t_index tx)) <$> T !! x) ->
  tree_ok T' (<[t_fh tq := FN (f_fh f) (f_dir f) (without (f_subs f) (t_index t) top)]> F) (delete (q, t_name t) N) R (Some p).
Proof.
  intros H Hp Eq Hq Hf Hl HT'.
  assert (f_dir f = true /\ f_subs f !! t_index t = Some p) as [Hdir Hi].
  { destruct (to_up _ _ _ _ _ H _ _ _ Hp Eq) as (tq' & f' & E1 & E2 & E3 & E4). simplify_eq. done. }
  pose proof (tree_nodup _ _ _ H Hf) as Hnd. pose proof (without_spec _ _ _ _ Hnd Hi Hl) as Hw.
  assert (forall x t', T' !! x = Some t' -> exists tx, T !! x = Some tx /\ t_fh t' = t_fh tx /\ t_name t' = t_name tx /\
    t_parent t' = (if decide (x = p) then None else t_parent tx) /\ t_index t' = (if decide (x = top) then t_index t else t_index tx)) as Hback.
  { intros x t'. rewrite HT'. destruct (T !! x) as [tx|]; [|done]. cbn. intros [= <-]. by exists tx. }
  assert (forall x tx, T !! x = Some tx -> exists t', T' !! x = Some t' /\ t_fh t' = t_fh tx /\ t_name t' = t_name tx /\
    t_parent t' = (if decide (x = p) then None else t_parent tx) /\ t_index t' = (if decide (x = top) then t_index t else t_index tx)) as Hforth.
  { intros x tx Hx. rewrite HT', Hx. cbn. by eexists. }
  assert (forall x n, depth T x n -> exists m, depth T' x m) as Hdep.
  { induction 1 as [x tx Hx E|x tx qx n Hx E _ [m IH]]; destruct (Hforth _ _ Hx) as (t' & E1 & E2 & E3 & E4 & E5).
    - exists O. apply (depth_top _ _ t'); [done|]. rewrite E4. by goal_decide.
    - destruct (decide (x = p)) as [->|Hne]; [exists O; by apply (depth_top _ _ t')|]. exists (S m). apply (depth_below _ _ t' qx); [done|congruence|done]. }
  split.
  - intros x t' (tx & Hx & E & _)%Hback. rewrite E. apply lookup_insert_is_Some'. right. by apply (to_fh _ _ _ _ _ H) in Hx.
  - intros x t' qx (tx & Hx & E1 & E2 & E3 & E4)%Hback E5. rewrite E3 in E5. decide_in E5; [done|].
    destruct (to_up _ _ _ _ _ H _ _ _ Hx E5) as (tq' & f' & G1 & G2 & G3 & G4). destruct (Hforth _ _ G1) as (tq2 & K1 & K2 & _).
    destruct (decide (t_fh tq' = t_fh tq)) as [Eg|Hg].
    + eexists tq2, _. rewrite K2, Eg, lookup_insert_eq. split_and!; [done|done|done|]. cbn. rewrite E4, Hw. split; [done|]. rewrite Eg, Hf in G2.
      injection G2 as <-. by goal_decide.
    + exists tq2, f'. rewrite K2, lookup_insert_ne by congruence. split_and!; [done|done|done|]. rewrite E4. goal_decide; [|done]. subst x.
      rewrite last_lookup in Hl. destruct (to_down _ _ _ _ _ H _ _ _ _ Hf Hl) as (tx' & q2 & tq3 & M1 & M2 & M3 & M4 & M5). simplify_eq.
  - intros g f0 i x Hg Hx. destruct (decide (g = t_fh tq)) as [->|Hne].
    + rewrite lookup_insert_eq in Hg. injection Hg as <-. cbn in Hx. apply Hw in Hx as [Hxp Hx].
      assert (exists j, f_subs f !! j = Some x /\ (x = top \/ j = i)) as (j & Hj & Hor).
      { decide_in Hx; [subst x; rewrite last_lookup in Hl; by exists (Nat.pred (length (f_subs f))); auto|exists i; auto]. }
      destruct (to_down _ _ _ _ _ H _ _ _ _ Hf Hj) as (tx & qx & tq' & G1 & G2 & G3 & G4 & G5). destruct (Hforth _ _ G1) as (t' & K1 & K2 & K3 & K4 & K5).
      destruct (Hforth _ _ G4) as (tq2 & M1 & M2 & _). exists t', qx, tq2. rewrite K4, K5. rewrite (decide_False (P := x = p)) by done.
      split_and!; [done| |done|done|congruence]. goal_decide; [done|]. destruct Hor; [done|congruence].
    + rewrite lookup_insert_ne in Hg by done. destruct (to_down _ _ _ _ _ H _ _ _ _ Hg Hx) as (tx & qx & tq' & G1 & G2 & G3 & G4 & G5).
      destruct (Hforth _ _ G1) as (t' & K1 & K2 & K3 & K4 & K5). destruct (Hforth _ _ G4) as (tq2 & M1 & M2 & _).
      assert (x <> p) as Hxp. { intros ->. simplify_eq. }
      assert (x <> top) as Hxt. { intros ->. rewrite last_lookup in Hl. destruct (to_down _ _ _ _ _ H _ _ _ _ Hf Hl) as (? & ? & ? & ? & ? & ? & ? & ?). simplify_eq. }
      exists t', qx, tq2. rewrite K4, K5, !decide_False by done. split_and!; [done|done|done|done|congruence].
  - intros q' n x. rewrite lookup_delete_Some, (to_name _ _ _ _ _ H). split.
    + intros (Hne & tx & G1 & G2 & G3). destruct (Hforth _ _ G1) as (t' & K1 & K2 & K3 & K4 & K5). exists t'. rewrite K3, K4.
      rewrite decide_False; [done|]. intros ->. simplify_eq.
    + intros (t' & (tx & Hx & E1 & E2 & E3 & E4)%Hback & G1 & G2). rewrite E3 in G1. decide_in G1; [done|]. split.
      * intros [= <- Hn]. apply n0. eapply (tree_inj None p x t tx q); [exact H|done|done|done|done|congruence].
      * exists tx. split_and!; [done|done|congruence].
  - intros v x Hv. destruct (to_root _ _ _ _ _ H _ _ Hv) as (tx & f' & G1 & G2 & G3 & G4). destruct (Hforth _ _ G1) as (t' & K1 & K2 & K3 & K4 & K5).
    destruct (decide (t_fh tx = t_fh tq)) as [Eg|Hg].
    + exists t'. eexists. rewrite K2, Eg, lookup_insert_eq, K4. split_and!; [done|by goal_decide|done|]. cbn. congruence.
    + exists t', f'. rewrite K2, lookup_insert_ne, K4 by congruence. split_and!; [done|by goal_decide|done|done].
  - intros x t' f' (tx & Hx & E1 & E2 & E3 & E4)%Hback Hf' G1 G2. rewrite E3 in G1. rewrite decide_False in G1 by congruence.
    assert (exists f0, F !! t_fh tx = Some f0 /\ f_fh f0 = f_fh f') as (f0 & K1 & <-).
    { rewrite E1 in Hf'. destruct (decide (t_fh tx = t_fh tq)) as [Eg|Hg]; [|rewrite lookup_insert_ne in Hf' by congruence; by exists f'].
      rewrite Eg, lookup_insert_eq in Hf'. injection Hf' as <-. exists f. split; [congruence|done]. }
    by apply (to_top _ _ _ _ _ H x tx f0).
  - intros x [= <-]. split.
    + destruct (Hforth _ _ Hp) as (t' & K1 & K2 & K3 & K4 & K5). exists t'. rewrite K4. by rewrite decide_True.
    + intros v Hv. destruct (to_root _ _ _ _ _ H _ _ Hv) as (tx & f' & G1 & G2 & _). congruence.
  - intros x [t' (tx & Hx & _)%Hback]. destruct (to_depth _ _ _ _ _ H x) as [n Hn]; [by eexists|]. by apply (Hdep x n).
Qed.

(** *** Other steps *)

(** The entry that is in no directory gets another name. *)
Lemma tree_rename p t n i : tree_ok T F N R (Some p) -> T !! p = Some t -> tree_ok (<[p := TN (t_fh t) None n i]> T) F N R (Some p).
Proof.
  intros H Hp. destruct (to_loose _ _ _ _ _ H p eq_refl) as [(t0 & Ht0 & Et) Hr]. simplify_eq.
  set (T' := <[p := TN (t_fh t) None n i]> T).
  assert (forall x t', T' !! x = Some t' -> exists tx, T !! x = Some tx /\ t_fh t' = t_fh tx /\ t_parent t' = t_parent tx /\ (x <> p -> t' = tx)) as Hback.
  { intros x t' [[<- <-]|[Hne Hx]]%lookup_insert_Some; [by exists t|by exists t']. }
  assert (forall x tx, T !! x = Some tx -> exists t', T' !! x = Some t' /\ t_fh t' = t_fh tx /\ t_parent t' = t_parent tx /\ (x <> p -> t' = tx)) as Hforth.
  { intros x tx Hx. destruct (decide (x = p)) as [->|Hne]; [eexists; split; [apply lookup_insert_eq|]; simplify_eq; done|].
    exists tx. unfold T'. by rewrite lookup_insert_ne. }
  split.
  - intros x t' (tx & Hx & E & _)%Hback. rewrite E. by apply (to_fh _ _ _ _ _ H x).
  - intros x t' q (tx & Hx & E1 & E2 & E3)%Hback Eq. rewrite E2 in Eq. assert (x <> p) as Hne by (intros ->; congruence). rewrite E3 by done.
    destruct (to_up _ _ _ _ _ H _ _ _ Hx Eq) as (tq & f & G1 & G2 & G3 & G4). destruct (Hforth _ _ G1) as (tq' & K1 & K2 & _).
    exists tq', f. by rewrite K2.
  - intros g f j x Hf Hj. destruct (to_down _ _ _ _ _ H _ _ _ _ Hf Hj) as (tx & q & tq & G1 & G2 & G3 & G4 & G5). destruct (Hforth _ _ G4) as (tq' & K1 & K2 & _).
    assert (x <> p) as Hne by (intros ->; congruence). exists tx, q, tq'. unfold T' at 1. rewrite lookup_insert_ne by done. split_and!; try done. congruence.
  - intros q m x. rewrite (to_name _ _ _ _ _ H). split.
    + intros (tx & G1 & G2 & G3). exists tx. unfold T'. rewrite lookup_insert_ne by (intros ->; congruence). done.
    + intros (t' & (tx & Hx & E1 & E2 & E3)%Hback & G1 & G2). exists tx. rewrite <-E3 by (intros ->; congruence). split_and!; try done.
      by rewrite E3 in * by (intros ->; congruence).
  - intros v x Hv. destruct (to_root _ _ _ _ _ H _ _ Hv) as (tx & f & G1 & G2 & G3). destruct (Hforth _ _ G1) as (t' & K1 & K2 & K3 & _).
    exists t', f. by rewrite K2, K3.
  - intros x t' f (tx & Hx & E1 & E2 & _)%Hback Hf E. rewrite E1 in Hf. rewrite E2 in E. by apply (to_top _ _ _ _ _ H x tx).
  - intros x [= <-]. split; [|done]. eexists. unfold T'. by rewrite lookup_insert_eq.
  - intros x [t' (tx & Hx & _)%Hback]. destruct (to_depth _ _ _ _ _ H x) as [m Hm]; [by eexists|]. exists m. eapply depth_ext; [exact Hm|].
    intros y ty Hy _. destruct (Hforth _ _ Hy) as (t2 & K1 & _ & K3 & _). by exists t2.
Qed.

(** Entering a directory. *)
Lemma tree_add p t q tq f : tree_ok T F N R (Some p) -> T !! p = Some t -> T !! q = Some tq -> F !! t_fh tq = Some f -> f_dir f = true ->
  ~ under T p q -> N !! (q, t_name t) = None ->
  tree_ok (<[p := TN (t_fh t) (Some q) (t_name t) (length (f_subs f))]> T) (<[t_fh tq := FN (f_fh f) (f_dir f) (f_subs f ++ [p])]> F)
    (<[(q, t_name t) := p]> N) R None.
Proof.
  intros H Hp Hq Hf Hdir Hu Hn. destruct (to_loose _ _ _ _ _ H p eq_refl) as [(t0 & Ht0 & Et) Hr]. simplify_eq.
  set (T' := <[p := _]> T). set (F' := <[t_fh tq := _]> F).
  assert (q <> p) as Hqp by (intros ->; apply Hu; constructor).
  assert (forall x t', T' !! x = Some t' -> exists tx, T !! x = Some tx /\ t_fh t' = t_fh tx /\ (x <> p -> t' = tx)) as Hback.
  { intros x t' [[<- <-]|[Hne Hx]]%lookup_insert_Some; [by exists t|by exists t']. }
  assert (forall x tx, T !! x = Some tx -> exists t', T' !! x = Some t' /\ t_fh t' = t_fh tx /\ (x <> p -> t' = tx)) as Hforth.
  { intros x tx Hx. destruct (decide (x = p)) as [->|Hne]; [eexists; split; [apply lookup_insert_eq|]; simplify_eq; done|].
    exists tx. unfold T'. by rewrite lookup_insert_ne. }
  assert (forall g f0, F !! g = Some f0 -> exists f', F' !! g = Some f' /\ f_fh f' = f_fh f0 /\ f_dir f' = f_dir f0 /\
    f_subs f' = f_subs f0 ++ (if decide (g = t_fh tq) then [p] else [])) as HF.
  { intros g f0 Hg. destruct (decide (g = t_fh tq)) as [->|Hne].
    - eexists. unfold F'. rewrite lookup_insert_eq. split; [done|]. by simplify_eq.
    - exists f0. unfold F'. rewrite lookup_insert_ne by done. by rewrite app_nil_r. }
  assert (forall g f', F' !! g = Some f' -> exists f0, F !! g = Some f0 /\ f_fh f' = f_fh f0 /\
    f_subs f' = f_subs f0 ++ (if decide (g = t_fh tq) then [p] else [])) as HFb.
  { intros g f' Hg. assert (is_Some (F !! g)) as [f0 Hf0].
    { apply mk_is_Some, lookup_insert_is_Some' in Hg as [<-|?]; [by eexists|done]. }
    destruct (HF _ _ Hf0) as (f2 & E1 & E2 & _ & E3). exists f0. simplify_eq. done. }
  destruct (to_depth _ _ _ _ _ H q) as [nq Hnq]; [by eexists|].
  assert (depth T' q nq) as Hnq'.
  { eapply depth_ext; [exact Hnq|]. intros x tx Hx Hxq. destruct (Hforth _ _ Hx) as (t' & K1 & K2 & K3). exists t'. split; [done|].
    rewrite K3; [done|]. by intros ->. }
  assert (forall x n, depth T x n -> exists m, depth T' x m) as Hdep.
  { intros x n. induction 1 as [x tx Hx E|x tx qx n Hx E _ [m IH]];
      (destruct (decide (x = p)) as [->|Hne]; [exists (S nq); eapply (depth_below _ _ _ q); [apply lookup_insert_eq|done|done]|]);
      destruct (Hforth _ _ Hx) as (t' & K1 & K2 & K3); rewrite K3 in K1 by done.
    - exists O. by apply (depth_top _ _ tx).
    - exists (S m). by apply (depth_below _ _ tx qx). }
  split.
  - intros x t' (tx & Hx & E & _)%Hback. rewrite E. destruct (to_fh _ _ _ _ _ H x tx Hx) as [f0 Hf0]. destruct (HF _ _ Hf0) as (f' & -> & _). by eexists.
  - intros x t' qx Hx Eq. destruct (decide (x = p)) as [->|Hne].
    + unfold T' in Hx. rewrite lookup_insert_eq in Hx. injection Hx as <-. cbn in Eq |- *. injection Eq as <-.
      destruct (Hforth _ _ Hq) as (tq' & K1 & K2 & _). destruct (HF _ _ Hf) as (f' & G1 & G2 & G3 & G4). exists tq', f'.
      rewrite K2, G3, G4, decide_True by done. split_and!; [done|done|done|]. by apply list_lookup_middle.
    + destruct (Hback _ _ Hx) as (tx & Hx' & E1 & E2). rewrite E2 in * by done.
      destruct (to_up _ _ _ _ _ H _ _ _ Hx' Eq) as (tqx & f0 & G1 & G2 & G3 & G4). destruct (Hforth _ _ G1) as (tq' & K1 & K2 & _).
      destruct (HF _ _ G2) as (f' & M1 & M2 & M3 & M4). exists tq', f'. rewrite K2, M3, M4. split_and!; try done. by apply lookup_app_l_Some.
  - intros g f' j x (f0 & Hf0 & E1 & E2)%HFb Hj. rewrite E2 in Hj. apply lookup_app_Some in Hj as [Hj|[Hlen Hj]].
    + destruct (to_down _ _ _ _ _ H _ _ _ _ Hf0 Hj) as (tx & qx & tqx & G1 & G2 & G3 & G4 & G5). destruct (Hforth _ _ G4) as (tq' & K1 & K2 & _).
      assert (x <> p) as Hne by (intros ->; congruence). exists tx, qx, tq'. unfold T' at 1. rewrite lookup_insert_ne by done. split_and!; try done. congruence.
    + decide_in Hj; [|done]. subst g. simplify_eq. apply list_lookup_singleton_Some in Hj as [Hj <-].
      destruct (Hforth _ _ Hq) as (tq' & K1 & K2 & _). eexists _, q, tq'. unfold T' at 1. rewrite lookup_insert_eq. split_and!; try done. cbn. lia.
  - intros q' m x. rewrite lookup_insert_Some, (to_name _ _ _ _ _ H). split.
    + intros [[[= <- <-] <-]|(Hne & tx & G1 & G2 & G3)]; [eexists; unfold T'; rewrite lookup_insert_eq; done|].
      exists tx. unfold T'. rewrite lookup_insert_ne by (intros ->; congruence). done.
    + intros (t' & Hx & G1 & G2). destruct (decide (x = p)) as [->|Hne].
      * left. unfold T' in Hx. rewrite lookup_insert_eq in Hx. injection Hx as <-. cbn in *. by simplify_eq.
      * destruct (Hback _ _ Hx) as (tx & Hx' & E1 & E2). rewrite E2 in * by done. right. split; [|by exists tx]. intros [= <- <-].
        enough (N !! (q, t_name t) = Some x) by congruence. apply (to_name _ _ _ _ _ H). by exists tx.
  - intros v x Hv. destruct (to_root _ _ _ _ _ H _ _ Hv) as (tx & f0 & G1 & G2 & G3 & G4). assert (x <> p) as Hne by (intros ->; by eapply Hr).
    destruct (HF _ _ G3) as (f' & M1 & M2 & _). exists tx, f'. unfold T'. rewrite lookup_insert_ne by done. split_and!; try done. congruence.
  - intros x t' f' Hx (f0 & Hf0 & E1 & _)%HFb E _. assert (x <> p) as Hne.
    { intros ->. unfold T' in Hx. rewrite lookup_insert_eq in Hx. by injection Hx as <-. }
    destruct (Hback _ _ Hx) as (tx & Hx' & E2 & E3). rewrite E3 in * by done. rewrite E1. apply (to_top _ _ _ _ _ H x tx); congruence.
  - done.
  - intros x [t' (tx & Hx & _)%Hback]. destruct (to_depth _ _ _ _ _ H x) as [m Hm]; [by eexists|]. by apply (Hdep x m).
Qed.

(** A new entry of a known handle. *)
Lemma tree_new p g n i : tree_ok T F N R None -> T !! p = None -> is_Some (F !! g) -> tree_ok (<[p := TN g None n i]> T) F N R (Some p).
Proof.
  intros H Hp Hg. set (T' := <[p := _]> T).
  assert (forall x t, T !! x = Some t -> T' !! x = Some t) as Hforth by (intros x t Hx; unfold T'; rewrite lookup_insert_ne; congruence).
  assert (forall x t, T' !! x = Some t -> x <> p -> T !! x = Some t) as Hback by (intros x t Hx Hne; unfold T' in Hx; by rewrite lookup_insert_ne in Hx by done).
  assert (forall t, T' !! p = Some t -> t = TN g None n i) as Hat by (intros t Ht; unfold T' in Ht; rewrite lookup_insert_eq in Ht; congruence).
  split.
  - intros x t Hx. destruct (decide (x = p)) as [->|Hne]; [by rewrite (Hat _ Hx)|]. by eapply (to_fh _ _ _ _ _ H), Hback.
  - intros x t q Hx Eq. destruct (decide (x = p)) as [->|Hne]; [by rewrite (Hat _ Hx) in Eq|].
    destruct (to_up _ _ _ _ _ H x t q) as (tq & f & G1 & G2); [by apply Hback|done|]. exists tq, f. naive_solver.
  - intros g0 f j x Hf Hj. destruct (to_down _ _ _ _ _ H _ _ _ _ Hf Hj) as (t & q & tq & G1 & G2 & G3 & G4 & G5). exists t, q, tq. naive_solver.
  - intros q m x. rewrite (to_name _ _ _ _ _ H). split; [intros (t & G1 & G2); exists t; naive_solver|]. intros (t & G1 & G2 & G3). exists t.
    split; [|done]. apply Hback; [done|]. intros ->. by rewrite (Hat _ G1) in G2.
  - intros v x Hv. destruct (to_root _ _ _ _ _ H _ _ Hv) as (t & f & G1 & G2). exists t, f. naive_solver.
  - intros x t f Hx Hf E Hne. apply (to_top _ _ _ _ _ H x t f); [|done..]. apply Hback; congruence.
  - intros x [= <-]. split; [eexists; unfold T'; rewrite lookup_insert_eq; done|]. intros v Hv. destruct (to_root _ _ _ _ _ H _ _ Hv) as (t & f & G1 & G2). congruence.
  - intros x [t Hx]. destruct (decide (x = p)) as [->|Hne]; [exists O; eapply depth_top; [exact Hx|]; by rewrite (Hat _ Hx)|].
    destruct (to_depth _ _ _ _ _ H x) as [m Hm]; [eexists; by apply Hback|]. exists m. eapply depth_ext; [exact Hm|]. intros y ty Hy _. exists ty. naive_solver.
Qed.

(** A new handle. *)
Lemma tree_new_fh E g fh b : tree_ok T F N R E -> F !! g = None -> tree_ok T (<[g := FN fh b []]> F) N R E.
Proof.
  intros H Hg. assert (forall x f, F !! x = Some f -> <[g := FN fh b []]> F !! x = Some f) as Hforth by (intros x f Hx; rewrite lookup_insert_ne; congruence).
  split; try apply H.
  - intros x t Hx. destruct (to_fh _ _ _ _ _ H _ _ Hx) as [f Hf]. eexists. by apply Hforth.
  - intros x t q Hx Eq. destruct (to_up _ _ _ _ _ H _ _ _ Hx Eq) as (tq & f & G1 & G2 & G3). exists tq, f. naive_solver.
  - intros g0 f i x [[<- <-]|[_ Hf]]%lookup_insert_Some Hi; [done|]. by apply (to_down _ _ _ _ _ H g0 f).
  - intros v x Hv. destruct (to_root _ _ _ _ _ H _ _ Hv) as (t & f & G1 & G2 & G3 & G4). exists t, f. naive_solver.
  - intros x t f Hx Hf Et Hne. destruct (to_fh _ _ _ _ _ H _ _ Hx) as [f0 Hf0]. rewrite (Hforth _ _ Hf0) in Hf. injection Hf as <-. by apply (to_top _ _ _ _ _ H x t f0).
Qed.

(** A volume gets its root, and loses it. *)
Lemma tree_root_set p t f : tree_ok T F N R (Some p) -> T !! p = Some t -> F !! t_fh t = Some f -> R !! vid (f_fh f) = Some None ->
  tree_ok T F N (<[vid (f_fh f) := Some p]> R) None.
Proof.
  intros H Hp Hf Hv. destruct (to_loose _ _ _ _ _ H p eq_refl) as [(t0 & Ht0 & Et) Hr]. simplify_eq. split; try apply H.
  - intros v x [[<- [= <-]]|[_ Hx]]%lookup_insert_Some; [by exists t, f|]. by apply (to_root _ _ _ _ _ H).
  - intros x tx fx Hx Hfx E _. destruct (decide (x = p)) as [->|Hne]; [simplify_eq; by rewrite lookup_insert_eq|].
    assert (R !! vid (f_fh fx) = Some (Some x)) as Hx' by (apply (to_top _ _ _ _ _ H x tx fx); congruence). rewrite lookup_insert_ne; [done|]. intros E'. congruence.
  - done.
Qed.

Lemma tree_root_clear p t f : tree_ok T F N R None -> T !! p = Some t -> t_parent t = None -> F !! t_fh t = Some f ->
  tree_ok T F N (<[vid (f_fh f) := None]> R) (Some p).
Proof.
  intros H Hp Et Hf. assert (R !! vid (f_fh f) = Some (Some p)) as Hr by (by apply (to_top _ _ _ _ _ H p t f)). split; try apply H.
  - intros v x [[_ [=]]|[_ Hx]]%lookup_insert_Some. by apply (to_root _ _ _ _ _ H).
  - intros x tx fx Hx Hfx E Hne. assert (R !! vid (f_fh fx) = Some (Some x)) as Hx' by (by apply (to_top _ _ _ _ _ H x tx fx)). rewrite lookup_insert_ne; [done|]. intros E'. congruence.
  - intros x [= <-]. split; [by exists t|]. intros v [[_ [=]]|[Hne Hx]]%lookup_insert_Some. destruct (to_root _ _ _ _ _ H _ _ Hx) as (t' & f' & G1 & G2 & G3 & G4). congruence.
Qed.

(** The entry that is in no directory goes, when nothing is below it. *)
Lemma tree_free p : tree_ok T F N R (Some p) -> (forall x t, T !! x = Some t -> t_parent t <> Some p) -> tree_ok (delete p T) F N R None.
Proof.
  intros H Hc. destruct (to_loose _ _ _ _ _ H p eq_refl) as [(t & Hp & Et) Hr].
  assert (forall x tx, T !! x = Some tx -> is_Some (t_parent tx) -> delete p T !! x = Some tx) as Hforth.
  { intros x tx Hx [q Eq]. rewrite lookup_delete_ne; [done|]. intros ->. congruence. }
  assert (forall x tx, T !! x = Some tx -> x <> p -> delete p T !! x = Some tx) as Hforth'.
  { intros x tx Hx Hne. by rewrite lookup_delete_ne. }
  split.
  - intros x tx [_ Hx]%lookup_delete_Some. by apply (to_fh _ _ _ _ _ H x).
  - intros x tx q [_ Hx]%lookup_delete_Some Eq. destruct (to_up _ _ _ _ _ H _ _ _ Hx Eq) as (tq & f & G1 & G2). exists tq, f. split; [|done].
    apply Hforth'; [done|]. intros ->. by apply (Hc x tx).
  - intros g f j x Hf Hj. destruct (to_down _ _ _ _ _ H _ _ _ _ Hf Hj) as (tx & q & tq & G1 & G2 & G3 & G4 & G5). exists tx, q, tq.
    split_and!; [apply Hforth; [done|by eexists]|done|done| |done]. apply Hforth'; [done|]. intros ->. by apply (Hc x tx).
  - intros q m x. rewrite (to_name _ _ _ _ _ H). split.
    + intros (tx & G1 & G2 & G3). exists tx. split; [|done]. apply Hforth; [done|by eexists].
    + intros (tx & [_ G1]%lookup_delete_Some & G2). by exists tx.
  - intros v x Hv. destruct (to_root _ _ _ _ _ H _ _ Hv) as (tx & f & G1 & G2). exists tx, f. split; [|done]. apply Hforth'; [done|]. intros ->. by eapply Hr.
  - intros x tx f [Hne Hx]%lookup_delete_Some Hf E _. apply (to_top _ _ _ _ _ H x tx f); congruence.
  - done.
  - intros x [tx [Hne Hx]%lookup_delete_Some]. destruct (to_depth _ _ _ _ _ H x) as [m Hm]; [by eexists|]. exists m. eapply depth_ext; [exact Hm|].
    intros y ty Hy Hu. exists ty. split; [|done]. apply Hforth'; [done|]. intros ->.
    assert (forall z, under T p z -> z = p) as Hall.
    { intros z Hz. induction Hz as [|z tz qz Hz Ez _ IH]; [done|]. subst qz. by apply Hc in Hz. }
    assert (x = p) as Exp by (by apply Hall). by apply Hne.
Qed.

Lemma tree_free_fh E g f : tree_ok T F N R E -> F !! g = Some f -> f_subs f = [] -> (forall x t, T !! x = Some t -> t_fh t <> g) -> tree_ok T (delete g F) N R E.
Proof.
  intros H Hg Hs Hno.
  assert (forall x t f0, T !! x = Some t -> F !! t_fh t = Some f0 -> delete g F !! t_fh t = Some f0) as Hforth.
  { intros x t f0 Hx Hf. rewrite lookup_delete_ne; [done|]. intros Eg. by eapply Hno. }
  split; try apply H.
  - intros x t Hx. destruct (to_fh _ _ _ _ _ H _ _ Hx) as [f0 Hf0]. eexists. by eapply Hforth.
  - intros x t q Hx Eq. destruct (to_up _ _ _ _ _ H _ _ _ Hx Eq) as (tq & f0 & G1 & G2 & G3). exists tq, f0. split_and!; [done|by eapply Hforth|apply G3..].
  - intros g0 f0 i x [_ Hf]%lookup_delete_Some Hi. by apply (to_down _ _ _ _ _ H g0 f0).
  - intros v x Hv. destruct (to_root _ _ _ _ _ H _ _ Hv) as (t & f0 & G1 & G2 & G3 & G4). exists t, f0. split_and!; [done|done|by eapply Hforth|done].
  - intros x t f0 Hx [_ Hf]%lookup_delete_Some Et Hne. by apply (to_top _ _ _ _ _ H x t f0).
Qed.

(** The entries of a directory are those whose parent it is, when it is the only entry
    of its handle. *)
Lemma subs_parent E p t f x : tree_ok T F N R E -> T !! p = Some t -> F !! t_fh t = Some f ->
  (forall y ty, T !! y = Some ty -> t_fh ty = t_fh t -> y = p) ->
  x ∈ f_subs f <-> exists tx, T !! x = Some tx /\ t_parent tx = Some p.
Proof.
  intros H Hp Hf Hone. rewrite list_elem_of_lookup. split.
  - intros [i Hi]. destruct (to_down _ _ _ _ _ H _ _ _ _ Hf Hi) as (tx & q & tq & G1 & G2 & G3 & G4 & G5). rewrite (Hone _ _ G4 G5) in G3. by exists tx.
  - intros (tx & Hx & E'). destruct (to_up _ _ _ _ _ H _ _ _ Hx E') as (tq & f' & G1 & G2 & G3 & G4). exists (t_index tx). congruence.
Qed.
End tree.

(** ** The rings *)

Record rnode := RN { r_fh : ptr; r_next : ptr; r_prev : ptr }.
Record gnode := GN { g_key : key5; g_dir : bool; g_count : Z }.

Definition linked (M : gmap ptr rnode) (a b : ptr) : Prop := r_next <$> M !! a = Some b /\ r_prev <$> M !! b = Some a.

Fixpoint chain (M : gmap ptr rnode) (a : ptr) (l : list ptr) (b : ptr) : Prop :=
  match l with [] => linked M a b | c :: l => linked M a c /\ chain M c l b end.

Definition cycle (M : gmap ptr rnode) (l : list ptr) : Prop := match l with [] => True | a :: l => chain M a l a end.

Lemma chain_app M a l1 c l2 b : chain M a (l1 ++ c :: l2) b <-> chain M a l1 c /\ chain M c l2 b.
Proof. revert a. induction l1 as [|x l1 IH]; intros a; cbn; [done|]. rewrite IH. tauto. Qed.

Lemma cycle_rotate M l1 l2 : cycle M (l1 ++ l2) -> cycle M (l2 ++ l1).
Proof.
  destruct l1 as [|a l1]; [rewrite app_nil_r; intros Hc; exact Hc|]. destruct l2 as [|b l2]; [rewrite app_nil_r; intros Hc; exact Hc|]. cbn.
  rewrite !chain_app. tauto.
Qed.

Lemma cycle_from M l p : cycle M l -> p ∈ l -> exists l', cycle M (p :: l') /\ p :: l' ≡ₚ l.
Proof.
  intros Hc (l1 & l2 & ->)%list_elem_of_split. exists (l2 ++ l1). split; [by apply (cycle_rotate M l1 (p :: l2))|].
  by rewrite (Permutation_app_comm l1 (p :: l2)).
Qed.

Lemma chain_ext M M' a l b : chain M a l b -> (forall x, x ∈ a :: l -> r_next <$> M' !! x = r_next <$> M !! x) ->
  (forall x, x ∈ b :: l -> r_prev <$> M' !! x = r_prev <$> M !! x) -> chain M' a l b.
Proof.
  revert a. induction l as [|c l IH]; intros a; cbn.
  - intros [E1 E2] H1 H2. split; [rewrite H1 by set_solver; done|rewrite H2 by set_solver; done].
  - intros [[E1 E2] Hc] H1 H2. split; [split; [rewrite H1 by set_solver; done|rewrite H2 by set_solver; done]|]. apply IH; [done|set_solver|set_solver].
Qed.

Lemma cycle_ext M M' l : cycle M l -> (forall x, x ∈ l -> r_next <$> M' !! x = r_next <$> M !! x /\ r_prev <$> M' !! x = r_prev <$> M !! x) -> cycle M' l.
Proof. destruct l as [|a l]; [done|]. intros Hc Hx. eapply chain_ext; [exact Hc|..]; intros x Hin; by apply Hx. Qed.

(** A new element behind [a]. *)
Lemma cycle_insert M M' a l p c : cycle M (a :: l) -> NoDup (a :: l) -> p ∉ a :: l -> r_next <$> M !! a = Some c ->
  (forall x, r_next <$> M' !! x = if decide (x = a) then Some p else if decide (x = p) then Some c else r_next <$> M !! x) ->
  (forall x, r_prev <$> M' !! x = if decide (x = c) then Some p else if decide (x = p) then Some a else r_prev <$> M !! x) ->
  cycle M' (a :: p :: l).
Proof.
  intros Hc Hnd Hp Ec Hn Hv. apply NoDup_cons in Hnd as [Ha Hnd]. apply not_elem_of_cons in Hp as [Hpa Hpl]. cbn in Hc |- *.
  assert (c ∈ a :: l) as Hca. { destruct l; cbn in Hc; [destruct Hc as [E _]|destruct Hc as [[E _] _]]; rewrite Ec in E; injection E as ->; set_solver. }
  split.
  { split; [by rewrite Hn, decide_True|]. rewrite Hv, decide_False, decide_True by set_solver. done. }
  destruct l as [|b l]; cbn in Hc |- *.
  - destruct Hc as [E _]. rewrite Ec in E. injection E as ->. split; [by rewrite Hn, decide_False, decide_True by done|]. by rewrite Hv, decide_True.
  - destruct Hc as [[E _] Hc]. rewrite Ec in E. injection E as ->. apply not_elem_of_cons in Hpl as [Hpb Hpl]. apply NoDup_cons in Hnd as [Hb Hnd].
    split; [split; [by rewrite Hn, decide_False, decide_True by done|by rewrite Hv, decide_True]|].
    eapply chain_ext; [exact Hc|..]; intros x Hx.
    + rewrite Hn, !decide_False; [done|set_solver|set_solver].
    + rewrite Hv, !decide_False; [done|set_solver|set_solver].
Qed.

(** An element leaves. *)
Lemma cycle_remove M M' p l z c : cycle M (p :: l) -> NoDup (p :: l) -> l <> [] -> r_next <$> M !! p = Some c -> r_prev <$> M !! p = Some z ->
  (forall x, x <> p -> r_next <$> M' !! x = if decide (x = z) then Some c else r_next <$> M !! x) ->
  (forall x, x <> p -> r_prev <$> M' !! x = if decide (x = c) then Some z else r_prev <$> M !! x) ->
  cycle M' l.
Proof.
  intros Hc Hnd Hl Ec Ez Hn Hv. apply NoDup_cons in Hnd as [Hp Hnd].
  destruct l as [|c' l] using rev_ind; [done|]. clear IHl Hl. rename c' into z'. cbn in Hc. apply chain_app in Hc as [Hc [_ Ez']]. rewrite Ez in Ez'. injection Ez' as <-.
  destruct l as [|c' l]; cbn in Hc |- *.
  - destruct Hc as [E _]. rewrite Ec in E. injection E as <-. split; [by rewrite Hn, decide_True by set_solver|by rewrite Hv, decide_True by set_solver].
  - destruct Hc as [[E _] Hc]. rewrite Ec in E. injection E as <-. apply chain_app. apply NoDup_cons in Hnd as [Hc' Hnd]. apply NoDup_app in Hnd as (Hnd & Hz & _). split.
    + eapply chain_ext; [exact Hc|..]; intros x Hx.
      * rewrite Hn, decide_False; [done| |set_solver]. intros ->. apply elem_of_cons in Hx as [->|Hx]; [set_solver|]. exact (Hz z Hx (list_elem_of_here _ _)).
      * rewrite Hv, decide_False; [done| |set_solver]. intros ->. set_solver.
    + split; [rewrite Hn, decide_True by set_solver; done|rewrite Hv, decide_True by set_solver; done].
Qed.

(** [P] is an entry that is in no ring, with its handle and the number it counts for. *)
Definition pending (P : option (ptr * ptr * Z)) (p : ptr) : Prop := match P with Some (x, _, _) => x = p | None => False end.
Definition extra (P : option (ptr * ptr * Z)) (g : ptr) : Z := match P with Some (_, h, c) => if decide (h = g) then c else 0 | None => 0 end.
Definition waits (P : option (ptr * ptr * Z)) (g : ptr) : Prop := match P with Some (_, h, _) => h = g | None => False end.

Definition ring_of (M : gmap ptr rnode) (D : gmap key5 ptr) (P : option (ptr * ptr * Z)) (g : ptr) (x : gnode) (l : list ptr) : Prop :=
  NoDup l /\ (forall p, p ∈ l <-> ~ pending P p /\ exists r, M !! p = Some r /\ r_fh r = g) /\ cycle M l /\
  g_count x = Z.of_nat (length l) + extra P g /\ match D !! g_key x with Some h => h ∈ l | None => l = [] end /\
  (l = [] -> waits P g) /\ (g_dir x = true -> (length l <= 1)%nat).

Record ring_ok (M : gmap ptr rnode) (G : gmap ptr gnode) (D : gmap key5 ptr) (P : option (ptr * ptr * Z)) : Prop := {
  ro_fh : forall p r, M !! p = Some r -> is_Some (G !! r_fh r);
  ro_ring : forall g x, G !! g = Some x -> exists l, ring_of M D P g x l;
  ro_keys : forall k h, D !! k = Some h -> exists g x, G !! g = Some x /\ g_key x = k;
  ro_inj : forall g g' x x', G !! g = Some x -> G !! g' = Some x' -> g_key x = g_key x' -> g = g';
  ro_pending : forall p g c, P = Some (p, g, c) -> exists r, M !! p = Some r /\ r_fh r = g
}.

Section rings.
Context {M : gmap ptr rnode} {G : gmap ptr gnode} {D : gmap key5 ptr}.

Lemma ring_length P g x l : ring_of M D P g x l -> (length l <= size M)%nat.
Proof.
  intros (Hnd & Hin & _). rewrite <-(size_list_to_set (C := gset ptr) l) by done. rewrite <-size_dom. apply subseteq_size.
  intros y Hy%elem_of_list_to_set. apply Hin in Hy as (_ & r & Hr & _). apply elem_of_dom. by eexists.
Qed.

(** A new entry of the handle [g], which is in the table or new itself. *)
Lemma ring_new p g x : ring_ok M G D None -> M !! p = None -> G !! g = Some x ->
  ring_ok (<[p := RN g p p]> M) (<[g := GN (g_key x) (g_dir x) (g_count x + 1)]> G) D (Some (p, g, 1)).
Proof.
  intros Hok Hp Hg. set (x' := GN _ _ _).
  assert (forall h y, <[g := x']> G !! h = Some y -> exists y0, G !! h = Some y0 /\ g_key y = g_key y0 /\ g_dir y = g_dir y0 /\
    g_count y = g_count y0 + if decide (g = h) then 1 else 0) as Hback.
  { intros h y [[<- <-]|[Hne Hh]]%lookup_insert_Some; [exists x|exists y]; (split; [done|split; [done|split; [done|]]]); goal_decide; try done; cbn; lia. }
  split.
  - intros q r [[<- <-]|[Hne Hq]]%lookup_insert_Some; apply lookup_insert_is_Some'; [by left|]. right. by eapply (ro_fh _ _ _ _ Hok).
  - intros h y (y0 & Hy & E1 & E2 & E3)%Hback. destruct (ro_ring _ _ _ _ Hok _ _ Hy) as (l & A1 & A2 & A3 & A4 & A5 & A6 & A7). exists l.
    assert (p ∉ l) as Hpl by (intros (_ & r & Hr & _)%A2; congruence).
    split; [done|]. split; [|split; [|split; [|split; [|split]]]].
    + intros q. rewrite A2. cbn. split.
      * intros (_ & r & Hr & Er). assert (p <> q) by congruence. split; [done|]. exists r. by rewrite lookup_insert_ne.
      * intros (Hne & r & Hr & Er). rewrite lookup_insert_ne in Hr by done. split; [tauto|]. by exists r.
    + eapply cycle_ext; [exact A3|]. intros z Hz. rewrite lookup_insert_ne by (intros ->; done). done.
    + rewrite E3, A4. cbn. lia.
    + by rewrite E1.
    + intros El. by apply A6 in El.
    + by rewrite E2.
  - intros k h Hk. destruct (ro_keys _ _ _ _ Hok _ _ Hk) as (h' & y & Hy & Ey). destruct (decide (g = h')) as [<-|Hne].
    + exists g, x'. rewrite lookup_insert_eq. split; [done|]. cbn. congruence.
    + exists h', y. by rewrite lookup_insert_ne.
  - intros h h' y y' (y0 & Hy & E1 & _)%Hback (y1 & Hy' & E1' & _)%Hback E. apply (ro_inj _ _ _ _ Hok _ _ _ _ Hy Hy'). congruence.
  - intros q h c [= <- <- <-]. eexists. by rewrite lookup_insert_eq.
Qed.

Lemma ring_new_fh p g k b : ring_ok M G D None -> M !! p = None -> G !! g = None -> (forall h y, G !! h = Some y -> g_key y <> k) ->
  ring_ok (<[p := RN g p p]> M) (<[g := GN k b 1]> G) D (Some (p, g, 1)).
Proof.
  intros Hok Hp Hg Hk.
  assert (D !! k = None) as HD. { destruct (D !! k) as [h|] eqn:E; [|done]. destruct (ro_keys _ _ _ _ Hok _ _ E) as (h' & y & Hy & Ey). by apply Hk in Hy. }
  split.
  - intros q r [[<- <-]|[Hne Hq]]%lookup_insert_Some; apply lookup_insert_is_Some'; [by left|]. right. by eapply (ro_fh _ _ _ _ Hok).
  - intros h y [[<- <-]|[Hne Hy]]%lookup_insert_Some.
    + exists []. split; [constructor|]. split; [|split; [done|split; [|split; [|split]]]].
      * intros q. split; [by intros ?%elem_of_nil|]. cbn. intros (Hne & r & Hr & Er). rewrite lookup_insert_ne in Hr by done.
        apply (ro_fh _ _ _ _ Hok) in Hr as [y Hy]. congruence.
      * cbn. by rewrite decide_True.
      * cbn. by rewrite HD.
      * done.
      * cbn. lia.
    + destruct (ro_ring _ _ _ _ Hok _ _ Hy) as (l & A1 & A2 & A3 & A4 & A5 & A6 & A7). exists l.
      assert (p ∉ l) as Hpl by (intros (_ & r & Hr & _)%A2; congruence).
      split; [done|]. split; [|split; [|split; [|split; [|split]]]]; [| | |done| |done].
      * intros q. rewrite A2. cbn. split.
        -- intros (_ & r & Hr & Er). assert (p <> q) by congruence. split; [done|]. exists r. by rewrite lookup_insert_ne.
        -- intros (Hne' & r & Hr & Er). rewrite lookup_insert_ne in Hr by done. split; [tauto|]. by exists r.
      * eapply cycle_ext; [exact A3|]. intros z Hz. rewrite lookup_insert_ne by (intros ->; done). done.
      * rewrite A4. cbn. by rewrite decide_False by done.
      * intros El. by apply A6 in El.
  - intros k' h Hk'. destruct (ro_keys _ _ _ _ Hok _ _ Hk') as (h' & y & Hy & Ey). exists h', y. rewrite lookup_insert_ne; [done|congruence].
  - intros h h' y y' [[<- <-]|[Hne Hy]]%lookup_insert_Some [[<- <-]|[Hne' Hy']]%lookup_insert_Some E; [done| | |by apply (ro_inj _ _ _ _ Hok _ _ _ _ Hy Hy')].
    + cbn in E. by apply Hk in Hy'.
    + cbn in E. by apply Hk in Hy.
  - intros q h c [= <- <- <-]. eexists. by rewrite lookup_insert_eq.
Qed.

(** The first entry of the ring. *)
Lemma ring_alone p g x : ring_ok M G D (Some (p, g, 1)) -> M !! p = Some (RN g p p) -> G !! g = Some x -> D !! g_key x = None ->
  ring_ok M G (<[g_key x := p]> D) None.
Proof.
  intros Hok Hp Hg HD. split.
  - apply (ro_fh _ _ _ _ Hok).
  - intros h y Hy. destruct (ro_ring _ _ _ _ Hok _ _ Hy) as (l & A1 & A2 & A3 & A4 & A5 & A6 & A7). cbn in *. destruct (decide (h = g)) as [->|Hne].
    + simplify_eq. rewrite HD in A5. subst l. exists [p]. split; [apply NoDup_singleton|]. split; [|split; [|split; [|split; [|split]]]].
      * intros q. rewrite list_elem_of_singleton. split; [intros ->; split; [tauto|]; by eexists|]. intros (_ & r & Hr & Er).
        destruct (decide (p = q)) as [->|Hpq]; [done|]. assert (q ∈ []) as Hq by (apply A2; by split; [|exists r]). by apply elem_of_nil in Hq.
      * cbn. split; by rewrite Hp.
      * rewrite A4, decide_True by done. done.
      * rewrite lookup_insert_eq. set_solver.
      * done.
      * cbn. lia.
    + exists l. split; [done|]. split; [|split; [done|split; [|split; [|split]]]].
      * intros q. rewrite A2. split; [intros (_ & ?); split; [tauto|done]|]. intros (_ & r & Hr & Er). split; [|by exists r]. intros <-. rewrite Hp in Hr. injection Hr as <-. by cbn in Er.
      * rewrite A4. by rewrite decide_False by congruence.
      * rewrite lookup_insert_ne; [done|]. intros E. apply Hne. symmetry. by apply (ro_inj _ _ _ _ Hok _ _ _ _ Hg Hy).
      * intros El. by apply A6 in El.
      * done.
  - intros k h [[<- <-]|[Hne Hk]]%lookup_insert_Some; [by exists g, x|]. by eapply (ro_keys _ _ _ _ Hok).
  - apply (ro_inj _ _ _ _ Hok).
  - done.
Qed.

(** An entry joins the ring of [old], behind it; the table names either. *)
Lemma ring_join M' D' p g x old c : ring_ok M G D (Some (p, g, 1)) -> M !! p = Some (RN g p p) -> G !! g = Some x -> g_dir x = false ->
  D !! g_key x = Some old -> r_next <$> M !! old = Some c -> (D' = D \/ D' = <[g_key x := p]> D) ->
  (forall y, r_fh <$> M' !! y = r_fh <$> M !! y) ->
  (forall y, r_next <$> M' !! y = if decide (y = old) then Some p else if decide (y = p) then Some c else r_next <$> M !! y) ->
  (forall y, r_prev <$> M' !! y = if decide (y = c) then Some p else if decide (y = p) then Some old else r_prev <$> M !! y) ->
  ring_ok M' G D' None.
Proof.
  intros Hok Hp Hg Hdir HD Ec HD' Hf Hn Hv.
  assert (forall y r, M' !! y = Some r -> exists r0, M !! y = Some r0 /\ r_fh r0 = r_fh r) as Hback.
  { intros y r Hr. specialize (Hf y). rewrite Hr in Hf. destruct (M !! y) as [r0|]; [|done]. exists r0. cbn in Hf. split; congruence. }
  assert (forall y r, M !! y = Some r -> exists r', M' !! y = Some r' /\ r_fh r' = r_fh r) as Hforth.
  { intros y r Hr. specialize (Hf y). rewrite Hr in Hf. destruct (M' !! y) as [r0|]; [|done]. exists r0. cbn in Hf. split; congruence. }
  destruct (ro_ring _ _ _ _ Hok _ _ Hg) as (l & A1 & A2 & A3 & A4 & A5 & A6 & A7). rewrite HD in A5.
  assert (p ∉ l) as Hpl by (intros (Hne & _)%A2; by apply Hne).
  destruct (cycle_from M l old A3 A5) as (l' & Hc & Hperm).
  assert (c ∈ l) as Hcl.
  { rewrite <-Hperm. destruct l'; cbn in Hc; [destruct Hc as [E _]|destruct Hc as [[E _] _]]; rewrite Ec in E; injection E as ->; set_solver. }
  split.
  - intros y r (r0 & Hr & <-)%Hback. by eapply (ro_fh _ _ _ _ Hok).
  - intros h y Hy. destruct (decide (h = g)) as [->|Hne].
    + simplify_eq. exists (old :: p :: l').
      assert (old :: p :: l' ≡ₚ p :: l) as Hperm' by (rewrite <-Hperm; apply Permutation_swap).
      assert (NoDup (old :: p :: l')) as Hnd by (rewrite Hperm'; by constructor).
      split; [exact Hnd|]. split; [|split; [|split; [|split; [|split]]]].
      * intros q. rewrite Hperm', elem_of_cons, A2. cbn. split.
        -- intros [->|(_ & r & Hr & Er)]; (split; [tauto|]).
           ++ destruct (Hforth _ _ Hp) as (r' & Hr' & Er'). by exists r'.
           ++ destruct (Hforth _ _ Hr) as (r' & Hr' & Er'). exists r'. split; [done|congruence].
        -- intros (_ & r & Hr & Er). destruct (Hback _ _ Hr) as (r0 & Hr0 & E0). destruct (decide (p = q)) as [->|Hpq]; [by left|]. right. split; [done|].
           exists r0. split; [done|congruence].
      * eapply (cycle_insert M); [exact Hc| |by rewrite Hperm|exact Ec|exact Hn|exact Hv]. by rewrite Hperm.
      * rewrite A4. cbn. rewrite decide_True by done. rewrite <-(Permutation_length Hperm). cbn. lia.
      * destruct HD' as [->| ->]; [rewrite HD; set_solver|rewrite lookup_insert_eq; set_solver].
      * done.
      * congruence.
    + destruct (ro_ring _ _ _ _ Hok _ _ Hy) as (l2 & B1 & B2 & B3 & B4 & B5 & B6 & B7). exists l2.
      assert (forall z, z ∈ l2 -> z <> p /\ z ∉ l) as Hout.
      { intros z (Hz & r & Hr & Er)%B2. split; [intros ->; by apply Hz|]. intros (_ & r' & Hr' & Er')%A2. congruence. }
      split; [done|]. split; [|split; [|split; [|split; [|split]]]].
      * intros q. rewrite B2. cbn. split.
        -- intros (_ & r & Hr & Er). split; [tauto|]. destruct (Hforth _ _ Hr) as (r' & Hr' & Er'). exists r'. split; [done|congruence].
        -- intros (_ & r & Hr & Er). destruct (Hback _ _ Hr) as (r0 & Hr0 & E0). split; [|exists r0; split; [done|congruence]].
           intros <-. rewrite Hp in Hr0. injection Hr0 as <-. cbn in E0. congruence.
      * eapply cycle_ext; [exact B3|]. intros z Hz. destruct (Hout z Hz) as [Z1 Z2].
        assert (z <> old) by (intros ->; done). assert (z <> c) by (intros ->; done). by rewrite Hn, Hv, !decide_False by done.
      * rewrite B4. cbn. by rewrite decide_False by done.
      * assert (g_key x <> g_key y) as Hk by (intros E; apply Hne; symmetry; by apply (ro_inj _ _ _ _ Hok _ _ _ _ Hg Hy)).
        destruct HD' as [->| ->]; [done|]. by rewrite lookup_insert_ne by done.
      * intros El. apply B6 in El. cbn in El. congruence.
      * done.
  - intros k h Hk. assert (D !! k = Some h \/ k = g_key x) as [Hk'| ->].
    { destruct HD' as [->| ->]; [by left|]. apply lookup_insert_Some in Hk as [[<- _]|[_ Hk]]; [by right|by left]. }
    + by eapply (ro_keys _ _ _ _ Hok).
    + by exists g, x.
  - apply (ro_inj _ _ _ _ Hok).
  - done.
Qed.

Lemma ring_find p r x : ring_ok M G D None -> M !! p = Some r -> G !! r_fh r = Some x ->
  exists l, ring_of M D None (r_fh r) x (p :: l) /\ is_Some (D !! g_key x).
Proof.
  intros Hok Hp Hg. destruct (ro_ring _ _ _ _ Hok _ _ Hg) as (l & A1 & A2 & A3 & A4 & A5 & A6 & A7).
  assert (p ∈ l) as Hin by (apply A2; split; [by intros []|by exists r]).
  destruct (cycle_from M l p A3 Hin) as (l' & Hc & Hperm). exists l'.
  assert (is_Some (D !! g_key x)) as [h Hh]. { destruct (D !! g_key x); [by eexists|]. subst l. by apply elem_of_nil in Hin. }
  split; [|by eexists]. split; [by rewrite Hperm|]. split; [intros q; by rewrite Hperm|]. split; [done|]. rewrite (Permutation_length Hperm).
  split; [done|]. rewrite Hh in A5 |- *. split; [by rewrite Hperm|]. split; [done|done].
Qed.

(** An entry leaves the ring and goes. *)
Lemma ring_leave M' p r x : ring_ok M G D None -> M !! p = Some r -> G !! r_fh r = Some x -> r_next r <> p ->
  (forall y, y <> p -> r_fh <$> M' !! y = r_fh <$> M !! y) -> M' !! p = None ->
  (forall y, y <> p -> r_next <$> M' !! y = if decide (y = r_prev r) then Some (r_next r) else r_next <$> M !! y) ->
  (forall y, y <> p -> r_prev <$> M' !! y = if decide (y = r_next r) then Some (r_prev r) else r_prev <$> M !! y) ->
  1 < g_count x /\ is_Some (D !! g_key x) /\
  ring_ok M' (<[r_fh r := GN (g_key x) (g_dir x) (g_count x - 1)]> G) (<[g_key x := r_next r]> D) None.
Proof.
  intros Hok Hp Hg Hne Hf Hpn Hn Hv. destruct (ring_find p r x Hok Hp Hg) as (l & (A1 & A2 & A3 & A4 & A5 & A6 & A7) & HD).
  assert (l <> []) as Hl. { intros ->. cbn in A3. destruct A3 as [E _]. rewrite Hp in E. cbn in E. congruence. }
  assert (r_next r ∈ l) as Hnl.
  { destruct l as [|b l]; [done|]. cbn in A3. destruct A3 as [[E _] _]. rewrite Hp in E. injection E as ->. by left. }
  assert (r_prev r ∈ l) as Hvl.
  { clear Hnl A1 A2 A4 A5 A6 A7. destruct l as [|z l _] using rev_ind; [done|]. cbn in A3. apply chain_app in A3 as [_ [_ E]]. rewrite Hp in E. injection E as ->. set_solver. }
  assert (forall y s, M' !! y = Some s -> y <> p /\ exists s0, M !! y = Some s0 /\ r_fh s0 = r_fh s) as Hback.
  { intros y s Hs. assert (y <> p) as Hy by (intros ->; congruence). split; [done|]. specialize (Hf y Hy). rewrite Hs in Hf.
    destruct (M !! y) as [s0|]; [|done]. exists s0. cbn in Hf. split; congruence. }
  assert (forall y s, M !! y = Some s -> y <> p -> exists s', M' !! y = Some s' /\ r_fh s' = r_fh s) as Hforth.
  { intros y s Hs Hy. specialize (Hf y Hy). rewrite Hs in Hf. destruct (M' !! y) as [s0|]; [|done]. exists s0. cbn in Hf. split; congruence. }
  set (x' := GN _ _ _). pose proof A1 as [Hpl _]%NoDup_cons. split; [|split; [exact HD|]].
  { rewrite A4. cbn. destruct l; [done|]. cbn. lia. }
  assert (forall h y, <[r_fh r := x']> G !! h = Some y -> exists y0, G !! h = Some y0 /\ g_key y = g_key y0) as HG.
  { intros h y [[<- <-]|[_ Hy]]%lookup_insert_Some; [by exists x|by exists y]. }
  split.
  - intros y s (_ & s0 & Hs & <-)%Hback. apply lookup_insert_is_Some'. right. by eapply (ro_fh _ _ _ _ Hok).
  - intros h y [[<- <-]|[Hh Hy]]%lookup_insert_Some.
    + exists l. pose proof A1 as A1'. apply NoDup_cons in A1 as [_ Hnd]. split; [done|]. split; [|split; [|split; [|split; [|split]]]].
      * intros q. split.
        -- intros Hq. assert (q ∈ p :: l) as (_ & s & Hs & Es)%A2 by (by right). split; [by intros []|]. destruct (Hforth q s Hs) as (s' & Hs' & Es'); [congruence|].
           exists s'. split; [done|congruence].
        -- intros (_ & s & Hs & Es). destruct (Hback _ _ Hs) as (Hqp & s0 & Hs0 & Es0).
           assert (q ∈ p :: l) as [->|Hq]%elem_of_cons by (apply A2; split; [by intros []|exists s0; split; [done|congruence]]); [done|done].
      * eapply (cycle_remove M); [exact A3|exact A1'|done| | |exact Hn|exact Hv]; by rewrite Hp.
      * cbn in A4 |- *. lia.
      * cbn. by rewrite lookup_insert_eq.
      * done.
      * cbn. intros Hd. specialize (A7 Hd). cbn in A7. lia.
    + destruct (ro_ring _ _ _ _ Hok _ _ Hy) as (l2 & B1 & B2 & B3 & B4 & B5 & B6 & B7). exists l2.
      assert (forall z, z ∈ l2 -> z ∉ p :: l) as Hout.
      { intros z (Hz & s & Hs & Es)%B2 (_ & s' & Hs' & Es')%A2. congruence. }
      assert (p ∉ l2) as Hp2 by (intros ?%Hout; set_solver).
      split; [done|]. split; [|split; [|split; [|split; [|split]]]]; [| |done| |done|done].
      * intros q. rewrite B2. split.
        -- intros (Hz & s & Hs & Es). split; [done|]. destruct (Hforth q s Hs) as (s' & Hs' & Es'); [congruence|]. exists s'. split; [done|congruence].
        -- intros (Hz & s & Hs & Es). destruct (Hback _ _ Hs) as (Hqp & s0 & Hs0 & Es0). split; [done|]. exists s0. split; [done|congruence].
      * eapply cycle_ext; [exact B3|]. intros z Hz. assert (z <> p) by (intros ->; done).
        assert (z <> r_prev r) by (intros ->; apply (Hout _ Hz); by right). assert (z <> r_next r) by (intros ->; apply (Hout _ Hz); by right).
        by rewrite Hn, Hv, !decide_False by done.
      * assert (g_key x <> g_key y) as Hk by (intros E; apply Hh; by apply (ro_inj _ _ _ _ Hok _ _ _ _ Hg Hy)). by rewrite lookup_insert_ne by done.
  - intros k h Hk. assert (exists g' y, G !! g' = Some y /\ g_key y = k) as (g' & y & Hy & Ey).
    { apply lookup_insert_Some in Hk as [[<- _]|[_ Hk]]; [by exists (r_fh r), x|by eapply (ro_keys _ _ _ _ Hok)]. }
    exists g'. destruct (decide (g' = r_fh r)) as [->|Hg']; [|exists y; by rewrite lookup_insert_ne by done]. exists x'. rewrite lookup_insert_eq. split; [done|]. cbn. congruence.
  - intros h h' y y' (y0 & Hy & E1)%HG (y1 & Hy' & E2)%HG E. apply (ro_inj _ _ _ _ Hok _ _ _ _ Hy Hy'). congruence.
  - done.
Qed.

(** The last entry of a handle goes, and the handle with it. *)
Lemma ring_end p r x : ring_ok M G D None -> M !! p = Some r -> G !! r_fh r = Some x -> r_next r = p ->
  g_count x = 1 /\ is_Some (D !! g_key x) /\ (forall y s, M !! y = Some s -> r_fh s = r_fh r -> y = p) /\
  ring_ok (delete p M) (delete (r_fh r) G) (delete (g_key x) D) None.
Proof.
  intros Hok Hp Hg Hnext. destruct (ring_find p r x Hok Hp Hg) as (l & (A1 & A2 & A3 & A4 & A5 & A6 & A7) & HD).
  assert (l = []) as ->.
  { destruct l as [|b l]; [done|]. cbn in A3. destruct A3 as [[E _] _]. rewrite Hp in E. injection E as E. apply NoDup_cons in A1 as [Hin _]. rewrite <-E, Hnext in Hin. set_solver. }
  assert (forall y s, M !! y = Some s -> r_fh s = r_fh r -> y = p) as Hone.
  { intros y s Hs Es. assert (y ∈ [p]) as Hy by (apply A2; split; [by intros []|by exists s]). by apply list_elem_of_singleton in Hy. }
  split; [done|]. split; [done|]. split; [exact Hone|]. split.
  - intros y s [Hy Hs]%lookup_delete_Some. rewrite lookup_delete_ne; [by eapply (ro_fh _ _ _ _ Hok)|]. intros E. apply Hy. symmetry. by apply (Hone y s).
  - intros h y [Hh Hy]%lookup_delete_Some. destruct (ro_ring _ _ _ _ Hok _ _ Hy) as (l2 & B1 & B2 & B3 & B4 & B5 & B6 & B7). exists l2.
    assert (p ∉ l2) as Hp2 by (intros (_ & s & Hs & Es)%B2; congruence).
    split; [done|]. split; [|split; [|split; [|split; [|split]]]]; [| |done| |done|done].
    + intros q. rewrite B2. split.
      * intros (Hz & s & Hs & Es). split; [done|]. exists s. split; [|done]. rewrite lookup_delete_ne; [done|congruence].
      * intros (Hz & s & [_ Hs]%lookup_delete_Some & Es). split; [done|]. by exists s.
    + eapply cycle_ext; [exact B3|]. intros z Hz. rewrite lookup_delete_ne by (intros ->; done). done.
    + rewrite lookup_delete_ne; [done|]. intros E. apply Hh. by apply (ro_inj _ _ _ _ Hok _ _ _ _ Hg Hy).
  - intros k h [Hk Hh]%lookup_delete_Some. destruct (ro_keys _ _ _ _ Hok _ _ Hh) as (g' & y & Hy & Ey). exists g', y. rewrite lookup_delete_ne; [done|congruence].
  - intros h h' y y' [_ Hy]%lookup_delete_Some [_ Hy']%lookup_delete_Some. by apply (ro_inj _ _ _ _ Hok).
  - done.
Qed.
End rings.
