(* ===== verification/DentryOps.v ===== *)
(** The operations of [Dentry.v] on the structures of [DentryTree.v]: the invariant of the
    tables, what touching an entry does to the queue, and what destroying an entry
    does to the tree and the rings. *)

From S2P Require Import Prelude AllocPool KeyedQueue Fibheap DataCoding Metadata MetaTable Capability LockProtocol Dentry DentryTree.
#[local] Open Scope Z_scope.

(** ** Views of the tables *)

Definition tn_of (d : dentry) : tnode := TN (de_fh d) (de_parent d) (de_name d) (dentry_index d).
Definition fn_of (f : ifh) : fnode := FN (local_fh f) (is_dir f) (subdentries f).
Definition rn_of (d : dentry) : rnode := RN (de_fh d) (de_next d) (de_prev d).
Definition gn_of (f : ifh) : gnode := GN (key_of (local_fh f)) (is_dir f) (ndentries f).

(** What touching an entry does not change. *)
Definition erase (d : dentry) : dentry := with_use (with_node d None) 0.

Section ops.
Context {H : Type} `{PeekQueue ptr H} (this_node : Z).
Implicit Types (s : tables (H := H)).

Definition tree s (E : option ptr) : Prop := tree_ok (tn_of <$> dents s) (fn_of <$> fhs s) (dentry_htab_name s) (root_dentry <$> vols s) E.
Definition rings s (P : option (ptr * ptr * Z)) : Prop := ring_ok (rn_of <$> dents s) (gn_of <$> fhs s) (dentry_htab s) P.

(** The nodes of the queue are those of the entries, with positive keys. *)
Definition queue_rep (h : H) (m : gmap ptr dentry) : Prop :=
  kq_ok h /\ (forall n k p, kq_view h !! n = Some (k, p) -> 0 < k /\ exists d, m !! p = Some d /\ de_node d = Some n) /\
  (forall p d n, m !! p = Some d -> de_node d = Some n -> exists k, kq_view h !! n = Some (k, p)).

(** What touching an entry needs. *)
Record calm s : Prop := {
  ca_fh : forall p d, dents s !! p = Some d -> is_Some (fhs s !! de_fh d);
  ca_parent : forall p d q, dents s !! p = Some d -> de_parent d = Some q -> is_Some (dents s !! q);
  ca_conflict : forall g f, fhs s !! g = Some f -> CONFLICT_DIR_P (local_fh f) = false;
  ca_queue : queue_rep (cleanup_dentry_heap s) (dents s);
  ca_now : 0 < u32 (now s);
  ca_size : Z.of_nat (size (dents s)) < UINT32_MAX
}.

(** The tables of handles and the pools. *)
Record rest s : Prop := {
  rs_fh_htab : forall k g, fh_htab s !! k = Some g <-> exists f, fhs s !! g = Some f /\ key_of (local_fh f) = k;
  rs_fh_pool : pool_ok (fh_pool s);
  rs_de_pool : pool_ok (dentry_pool s);
  rs_fh_used : forall g, g ∈ in_use (fh_pool s) <-> is_Some (fhs s !! g);
  rs_de_used : forall p, p ∈ in_use (dentry_pool s) <-> is_Some (dents s !! p);
  rs_gen : forall g f, fhs s !! g = Some f -> gen (local_fh f) <> 0
}.

Definition live s : Prop := forall p d, dents s !! p = Some d -> de_deleted d = false.

Definition tables_ok s : Prop := tree s None /\ rings s None /\ calm s /\ rest s /\ live s.

(** [s'] is [s] with other nodes and times of use. *)
Definition sim s s' : Prop := exists m h, s' = set_heap (set_dents s m) h /\ erase <$> m = erase <$> dents s.

Lemma sim_refl s : sim s s.
Proof. exists (dents s), (cleanup_dentry_heap s). by destruct s. Qed.

Lemma sim_trans s1 s2 s3 : sim s1 s2 -> sim s2 s3 -> sim s1 s3.
Proof. intros (m1 & h1 & -> & E1) (m2 & h2 & -> & E2). exists m2, h2. split; [done|]. cbn in E2. congruence. Qed.

Lemma sim_at s s' p d : sim s s' -> dents s !! p = Some d -> exists d', dents s' !! p = Some d' /\ erase d' = erase d.
Proof.
  intros (m & h & -> & E) Hd. cbn. assert ((erase <$> m) !! p = Some (erase d)) as E' by (by rewrite E, lookup_fmap, Hd).
  rewrite lookup_fmap in E'. destruct (m !! p) as [d'|]; [|done]. exists d'. split; [done|]. cbn in E'. congruence.
Qed.

Lemma sim_at' s s' p d' : sim s s' -> dents s' !! p = Some d' -> exists d, dents s !! p = Some d /\ erase d' = erase d.
Proof.
  intros (m & h & -> & E) Hd. cbn in Hd. assert ((erase <$> dents s) !! p = Some (erase d')) as E' by (rewrite <-E, lookup_fmap, Hd; done).
  rewrite lookup_fmap in E'. destruct (dents s !! p) as [d|]; [|done]. exists d. split; [done|]. cbn in E'. congruence.
Qed.

Lemma erase_fields d d' : erase d' = erase d -> de_fh d' = de_fh d /\ de_parent d' = de_parent d /\ de_name d' = de_name d /\ de_next d' = de_next d /\
  de_prev d' = de_prev d /\ dentry_index d' = dentry_index d /\ de_users d' = de_users d /\ de_deleted d' = de_deleted d.
Proof. destruct d, d'. unfold erase, with_use, with_node. cbn. intros [=]. by subst. Qed.

Lemma fmap_erase {A} (f : dentry -> A) (m m' : gmap ptr dentry) : (forall d, f (erase d) = f d) -> erase <$> m = erase <$> m' -> f <$> m = f <$> m'.
Proof.
  intros Hf E. assert (forall x : gmap ptr dentry, f <$> x = f <$> (erase <$> x)) as Hx.
  { intros x. rewrite <-map_fmap_compose. apply map_fmap_ext. intros i d _. by rewrite <-Hf. }
  by rewrite (Hx m), (Hx m'), E.
Qed.

Lemma sim_fields s s' : sim s s' -> fhs s' = fhs s /\ fh_htab s' = fh_htab s /\ dentry_htab s' = dentry_htab s /\ dentry_htab_name s' = dentry_htab_name s /\
  vols s' = vols s /\ owned s' = owned s /\ now s' = now s /\ results s' = results s /\ closed s' = closed s /\ closed_journals s' = closed_journals s /\
  invalidated s' = invalidated s /\ fh_pool s' = fh_pool s /\ dentry_pool s' = dentry_pool s /\ tn_of <$> dents s' = tn_of <$> dents s /\
  rn_of <$> dents s' = rn_of <$> dents s /\ dom (dents s') = dom (dents s).
Proof.
  intros (m & h & -> & E). cbn. repeat (split; [done|]). split; [by apply fmap_erase|]. split; [by apply fmap_erase|].
  rewrite <-(dom_fmap_L erase m), E. apply dom_fmap_L.
Qed.

Lemma sim_tree s s' E : sim s s' -> tree s E -> tree s' E.
Proof. intros (Ef & _ & _ & En & Ev & _ & _ & _ & _ & _ & _ & _ & _ & Et & _)%sim_fields. unfold tree. by rewrite Ef, En, Ev, Et. Qed.

Lemma sim_rings s s' P : sim s s' -> rings s P -> rings s' P.
Proof. intros (Ef & _ & Ed & _ & _ & _ & _ & _ & _ & _ & _ & _ & _ & _ & Er & _)%sim_fields. unfold rings. by rewrite Ef, Ed, Er. Qed.

Lemma sim_rest s s' : sim s s' -> rest s -> rest s'.
Proof.
  intros (Ef & Eh & _ & _ & _ & _ & _ & _ & _ & _ & _ & Ep & Eq & _ & _ & Edom)%sim_fields [R1 R2 R3 R4 R5 R6].
  split; rewrite ?Ef, ?Eh, ?Ep, ?Eq; try done. intros p. rewrite R5, <-!elem_of_dom. by rewrite Edom.
Qed.

Lemma sim_live s s' : sim s s' -> live s -> live s'.
Proof. intros Hs Hl p d' Hd'. destruct (sim_at' _ _ _ _ Hs Hd') as (d & Hd & (_ & _ & _ & _ & _ & _ & _ & ->)%erase_fields). by apply (Hl p). Qed.

(** ** Touching an entry *)

Lemma de_at_eq s p d : dents s !! p = Some d -> de_at s p = Ok d.
Proof. intros Hd. unfold de_at. by rewrite Hd. Qed.
Lemma fh_at_eq s g f : fhs s !! g = Some f -> fh_at s g = Ok f.
Proof. intros Hf. unfold fh_at. by rewrite Hf. Qed.
Lemma fh_of_eq s p d f : dents s !! p = Some d -> fhs s !! de_fh d = Some f -> fh_of s p = Ok f.
Proof. intros Hd Hf. unfold fh_of. rewrite (de_at_eq _ _ _ Hd). cbn [mbind res_bind]. by apply fh_at_eq. Qed.
Lemma on_de_eq F s p d : dents s !! p = Some d -> on_de F s p = Ok (set_de s p (F d)).
Proof. intros Hd. unfold on_de. by rewrite (de_at_eq _ _ _ Hd). Qed.
Lemma on_fh_eq F s g f : fhs s !! g = Some f -> on_fh F s g = Ok (set_fh s g (F f)).
Proof. intros Hf. unfold on_fh. by rewrite (fh_at_eq _ _ _ Hf). Qed.

Lemma queue_size h (m : gmap ptr dentry) : queue_rep h m -> (size (kq_view h) <= size m)%nat.
Proof.
  intros (_ & Hv & _). set (l := (fun x : ptr * (Z * ptr) => x.2.2) <$> map_to_list (kq_view h)).
  assert (NoDup l) as Hnd.
  { apply NoDup_fmap_2_strong; [|apply NoDup_map_to_list]. intros [n [k p]] [n' [k' p']] Hx Hy E. cbn in E. subst p'.
    apply elem_of_map_to_list in Hx, Hy. destruct (Hv _ _ _ Hx) as (_ & d & Hd & En). destruct (Hv _ _ _ Hy) as (_ & d' & Hd' & En'). congruence. }
  assert (length l = size (kq_view h)) as <- by (unfold l; by rewrite length_fmap, length_map_to_list).
  rewrite <-(size_list_to_set (C := gset ptr) l) by done. rewrite <-size_dom. apply subseteq_size.
  intros p Hp%elem_of_list_to_set. apply list_elem_of_fmap in Hp as ([n [k p']] & -> & Hin%elem_of_map_to_list). cbn.
  destruct (Hv _ _ _ Hin) as (_ & d & Hd & _). apply elem_of_dom. by eexists.
Qed.

Lemma fmap_insert_same {A} (f : dentry -> A) (m : gmap ptr dentry) p d d' : m !! p = Some d -> f d' = f d -> f <$> <[p := d']> m = f <$> m.
Proof. intros Hd E. rewrite fmap_insert, E, <-fmap_insert. by rewrite insert_id. Qed.

(** A change of an entry that keeps what [calm] looks at. *)
Lemma calm_entry s h p d d' : calm s -> dents s !! p = Some d -> de_fh d' = de_fh d -> (forall q, de_parent d' = Some q -> de_parent d = Some q) ->
  queue_rep h (<[p := d']> (dents s)) -> calm (set_heap (set_de s p d') h).
Proof.
  intros [C1 C2 C3 C4 C5 C6] Hd E1 E2 Hq.
  assert (forall x dx, <[p := d']> (dents s) !! x = Some dx -> exists d0, dents s !! x = Some d0 /\ de_fh dx = de_fh d0 /\ (forall q, de_parent dx = Some q -> de_parent d0 = Some q)) as Hb.
  { intros x dx [[<- <-]|[_ Hx]]%lookup_insert_Some; [by exists d|by exists dx]. }
  split; cbn; try done.
  - intros x dx (d0 & Hx & -> & _)%Hb. by apply (C1 x).
  - intros x dx q (d0 & Hx & _ & E)%Hb Eq. apply lookup_insert_is_Some'. right. by eapply C2; [|apply E].
  - rewrite map_size_insert, Hd. cbn. done.
Qed.

Lemma queue_entry h (m : gmap ptr dentry) p d d' : queue_rep h m -> m !! p = Some d -> de_node d' = de_node d -> queue_rep h (<[p := d']> m).
Proof.
  intros (Q1 & Q2 & Q3) Hd E. split; [done|]. split.
  - intros n k x Hn. destruct (Q2 _ _ _ Hn) as (Hk & dx & Hx & En). split; [done|]. destruct (decide (p = x)) as [<-|Hne].
    + exists d'. rewrite lookup_insert_eq. split; [done|]. congruence.
    + exists dx. by rewrite lookup_insert_ne.
  - intros x dx n [[<- <-]|[_ Hx]]%lookup_insert_Some En; [apply (Q3 p d); congruence|by apply (Q3 x dx)].
Qed.

Lemma drop_node_ok s p d : calm s -> dents s !! p = Some d ->
  exists s' d', drop_node s p = Ok s' /\ sim s s' /\ calm s' /\ dents s' !! p = Some d' /\ de_node d' = None /\
    (forall x, x <> p -> dents s' !! x = dents s !! x).
Proof.
  intros Hc Hd. unfold drop_node, de_at. rewrite Hd. cbn [mbind res_bind]. destruct (de_node d) as [n|] eqn:En.
  - destruct (ca_queue _ Hc) as (Q1 & Q2 & Q3). destruct (Q3 _ _ _ Hd En) as [k Hk]. destruct (Q2 _ _ _ Hk) as [Hpos _].
    destruct (kq_delete_ok _ _ _ _ Q1 Hk Hpos) as (h' & E & Hok & Hv). rewrite E. cbn [mbind res_bind].
    assert (sim s (set_heap (set_de s p (with_node d None)) h')) as Hsim.
    { eexists _, h'. split; [done|]. by apply (fmap_insert_same erase _ _ d). }
    eexists _, _. split; [done|]. split; [exact Hsim|]. split; [|split; [apply lookup_insert_eq|split; [done|intros x Hx; by apply lookup_insert_ne]]].
    apply (calm_entry s h' p d); [done|done|done|done|]. split; [done|]. rewrite Hv. split.
    + intros m k' x [Hne Hx]%lookup_delete_Some. destruct (Q2 _ _ _ Hx) as (Hk' & dx & Hdx & Enx). split; [done|]. exists dx.
      rewrite lookup_insert_ne; [done|]. intros ->. congruence.
    + intros x dx m [[<- <-]|[Hne Hx]]%lookup_insert_Some Em; [done|]. destruct (Q3 _ _ _ Hx Em) as [k' Hk']. exists k'.
      rewrite lookup_delete_ne; [done|]. intros ->. rewrite Hk in Hk'. by injection Hk' as _ ->.
  - exists s, d. split; [done|]. split; [apply sim_refl|]. done.
Qed.

Lemma dentry_key_ok s p d f : calm s -> dents s !! p = Some d -> fhs s !! de_fh d = Some f ->
  exists k, dentry_key s p = Ok k /\ is_u32 k /\ (k = FIBHEAPKEY_MAX \/ k = u32 (last_use d)).
Proof.
  intros Hc Hd Hf. unfold dentry_key, DENTRY_NEVER_CLEANUP, de_at, fh_at. rewrite Hd. cbn [mbind res_bind]. rewrite Hf. cbn [mbind res_bind].
  rewrite (ca_conflict _ Hc _ _ Hf). eexists. split; [reflexivity|]. case_if; (split; [apply wrap_range; lia|auto]).
Qed.

Lemma put_node_ok s p d f : calm s -> dents s !! p = Some d -> fhs s !! de_fh d = Some f -> 0 < u32 (last_use d) ->
  exists s', put_node s p = Ok s' /\ sim s s' /\ calm s' /\ (forall x, x <> p -> dents s' !! x = dents s !! x).
Proof.
  intros Hc Hd Hf Hu. destruct (dentry_key_ok _ _ _ _ Hc Hd Hf) as (k & Ek & Hk & Hk').
  assert (0 < k) as Hpos by (destruct Hk' as [->| ->]; [reflexivity|done]).
  unfold put_node, de_at. rewrite Hd. cbn [mbind res_bind]. rewrite Ek. cbn [mbind res_bind].
  pose proof (ca_queue _ Hc) as Hq. pose proof Hq as (Q1 & Q2 & Q3). destruct (de_node d) as [n|] eqn:En.
  - destruct (Q3 _ _ _ Hd En) as [k0 Hk0]. destruct (Q2 _ _ _ Hk0) as [Hp0 _].
    destruct (kq_replace_ok _ _ _ _ k Q1 Hk0 Hp0 Hk) as (h' & n' & E & Hok & _ & Hv).
    rewrite (kq_replace_same _ _ _ _ _ _ _ Q1 Hk0 Hp0 E) in Hv. rewrite E. cbn [mbind res_bind]. rewrite insert_delete_eq in Hv.
    eexists. split; [reflexivity|]. split; [exists (dents s), h'; by destruct s|].
    split; [|done]. destruct Hc as [C1 C2 C3 C4 C5 C6]. split; try done. cbn. split; [done|]. rewrite Hv. split.
    + intros m k' x [[<- [= <- <-]]|[_ Hx]]%lookup_insert_Some; [split; [done|]; by exists d|by apply (Q2 m k' x)].
    + intros x dx m Hx Em. destruct (Q3 _ _ _ Hx Em) as [k' Hk1]. destruct (decide (n = m)) as [<-|Hne].
      * rewrite Hk0 in Hk1. injection Hk1 as _ <-. exists k. by rewrite lookup_insert_eq.
      * exists k'. by rewrite lookup_insert_ne.
  - pose proof (queue_size _ _ Hq) as Hs. pose proof (ca_size _ Hc) as Hs'.
    destruct (kq_insert_ok _ k p Q1) as (h' & n & E & Hok & Hn & Hv); [lia|done|]. rewrite E. cbn [mbind res_bind].
    eexists. split; [reflexivity|]. split.
    { eexists _, h'. split; [done|]. by apply (fmap_insert_same erase _ _ d). }
    split; [|intros x Hx; by apply lookup_insert_ne]. apply (calm_entry s h' p d); [done|done|done|done|]. split; [done|]. rewrite Hv. split.
    + intros m k' x [[<- [= <- <-]]|[Hne Hx]]%lookup_insert_Some.
      * split; [done|]. eexists. by rewrite lookup_insert_eq.
      * destruct (Q2 _ _ _ Hx) as (Hp' & dx & Hdx & Edx). split; [done|]. exists dx. rewrite lookup_insert_ne; [done|]. intros ->. congruence.
    + intros x dx m [[<- <-]|[Hne Hx]]%lookup_insert_Some Em.
      * cbn in Em. injection Em as <-. exists k. by rewrite lookup_insert_eq.
      * destruct (Q3 _ _ _ Hx Em) as [k' Hk1]. exists k'. rewrite lookup_insert_ne; [done|]. intros ->. congruence.
Qed.

Lemma touch_ok s p d : calm s -> dents s !! p = Some d ->
  exists s' d', touch s p = Ok s' /\ sim s s' /\ calm s' /\ dents s' !! p = Some d' /\ (de_deleted d = true \/ de_parent d = None -> de_node d' = None) /\
    (forall x, x <> p -> dents s' !! x = dents s !! x).
Proof.
  intros Hc Hd. destruct (ca_fh _ Hc _ _ Hd) as [f Hf]. unfold touch, on_de, de_at. rewrite Hd. cbn [mbind res_bind].
  set (d1 := with_use d (now s)). set (s1 := set_de s p d1).
  assert (sim s s1) as Hs1. { exists (<[p := d1]> (dents s)), (cleanup_dentry_heap s). split; [by destruct s|]. by apply (fmap_insert_same erase _ _ d). }
  assert (calm s1) as Hc1.
  { assert (s1 = set_heap (set_de s p d1) (cleanup_dentry_heap s)) as -> by (by destruct s). apply (calm_entry s _ p d); [done|done|done|done|].
    apply (queue_entry _ _ _ d); [apply Hc|done|done]. }
  assert (dents s1 !! p = Some d1) as Hd1 by (cbn; apply lookup_insert_eq).
  assert (dentry_should_have_cleanup_node s1 p = Ok (match de_parent d with None => false | Some _ => negb (de_deleted d) && negb (non_empty_dir f) end)) as Es.
  { unfold dentry_should_have_cleanup_node, de_at. rewrite Hd1. cbn [mbind res_bind d1 with_use de_parent de_deleted de_fh].
    destruct (de_parent d); [|done]. destruct (de_deleted d); [done|]. unfold fh_at. cbn [fhs s1 set_de set_dents]. rewrite Hf. cbn [mbind res_bind].
    by rewrite (ca_conflict _ Hc _ _ Hf). }
  rewrite Es. cbn [mbind res_bind]. destruct (match de_parent d with None => false | Some _ => _ end) eqn:Eb.
  - destruct (put_node_ok s1 p d1 f Hc1 Hd1 Hf) as (s2 & E2 & Hs2 & Hc2 & Hx2); [apply Hc|].
    destruct (sim_at _ _ _ _ Hs2 Hd1) as (d2 & Hd2 & _). exists s2, d2. split; [exact E2|]. split; [by eapply sim_trans|]. split; [done|].
    split; [done|]. split; [intros [E|E]; rewrite E in Eb; [by destruct (de_parent d)|done]|].
    intros x Hx. rewrite Hx2 by done. by apply lookup_insert_ne.
  - destruct (drop_node_ok s1 p d1 Hc1 Hd1) as (s2 & d2 & E2 & Hs2 & Hc2 & Hd2 & En & Hx2). exists s2, d2. split; [exact E2|].
    split; [by eapply sim_trans|]. split; [done|]. split; [done|]. split; [done|]. intros x Hx. rewrite Hx2 by done. by apply lookup_insert_ne.
Qed.

Lemma update_ok s p d : calm s -> dents s !! p = Some d ->
  exists s' d', dentry_update_cleanup_node s p = Ok s' /\ sim s s' /\ calm s' /\ dents s' !! p = Some d' /\
    (de_deleted d = true \/ de_parent d = None -> de_node d' = None) /\ (forall x, x <> p -> dents s' !! x = dents s !! x).
Proof.
  intros Hc Hd. unfold dentry_update_cleanup_node, de_at. rewrite Hd. cbn [mbind res_bind].
  destruct (touch_ok s p d Hc Hd) as (s' & d' & Et & Hrest).
  destruct (de_parent d) as [q|] eqn:Eq; [|by exists s', d'].
  destruct (ca_parent _ Hc _ _ _ Hd Eq) as [qd Hqd]. destruct (ca_fh _ Hc _ _ Hqd) as [f Hf].
  unfold fh_of, de_at, fh_at. rewrite Hqd. cbn [mbind res_bind]. rewrite Hf. cbn [mbind res_bind]. rewrite (ca_conflict _ Hc _ _ Hf). by exists s', d'.
Qed.

(** ** Changes of the tree only *)

(** The fields that belong to neither the tree nor the queue. *)
Definition base (d : dentry) : dentry := with_name (with_place (erase d) None 0) [].
Definition fbase (f : ifh) : ifh := with_subs f [].

Definition only_tree s s' : Prop := exists m fm nm h,
  s' = set_heap (set_htabs (set_fhs (set_dents s m) fm) (fh_htab s) (dentry_htab s) nm) h /\ base <$> m = base <$> dents s /\ fbase <$> fm = fbase <$> fhs s.

Lemma only_tree_trans s1 s2 s3 : only_tree s1 s2 -> only_tree s2 s3 -> only_tree s1 s3.
Proof.
  intros (m1 & f1 & n1 & h1 & -> & E1 & E2) (m2 & f2 & n2 & h2 & -> & E3 & E4). exists m2, f2, n2, h2. cbn in *. split; [done|]. split; congruence.
Qed.

Lemma sim_only s s' : sim s s' -> only_tree s s'.
Proof.
  intros (m & h & -> & E). exists m, (fhs s), (dentry_htab_name s), h. split; [done|]. split; [|done]. apply fmap_erase; [|done]. by intros [].
Qed.

Lemma fmap_eq_at {A B} (f : A -> B) (m m' : gmap ptr A) x y : f <$> m = f <$> m' -> m !! x = Some y -> exists y', m' !! x = Some y' /\ f y' = f y.
Proof.
  intros E Hx. assert ((f <$> m') !! x = Some (f y)) as Hy by (by rewrite <-E, lookup_fmap, Hx). rewrite lookup_fmap in Hy.
  destruct (m' !! x) as [y'|]; [|done]. exists y'. cbn in Hy. split; [done|congruence].
Qed.

Lemma fmap_through {K A B C} `{Countable K} (f : A -> B) (g : A -> C) (k : B -> C) (m m' : gmap K A) : (forall x, k (f x) = g x) -> f <$> m = f <$> m' -> g <$> m = g <$> m'.
Proof.
  intros Hk E. assert (forall z : gmap K A, g <$> z = k <$> (f <$> z)) as Hz by (intros z; rewrite <-map_fmap_compose; apply map_fmap_ext; intros; by rewrite <-Hk).
  by rewrite (Hz m), (Hz m'), E.
Qed.

Lemma fmap_dom_eq {A B} (f : A -> B) (m m' : gmap ptr A) : f <$> m = f <$> m' -> dom m = dom m'.
Proof. intros E. by rewrite <-(dom_fmap_L f m), E, dom_fmap_L. Qed.

Lemma only_fields s s' : only_tree s s' -> fh_htab s' = fh_htab s /\ dentry_htab s' = dentry_htab s /\ vols s' = vols s /\ owned s' = owned s /\ now s' = now s /\
  closed s' = closed s /\ closed_journals s' = closed_journals s /\ invalidated s' = invalidated s /\ fh_pool s' = fh_pool s /\ dentry_pool s' = dentry_pool s /\
  rn_of <$> dents s' = rn_of <$> dents s /\ gn_of <$> fhs s' = gn_of <$> fhs s /\ results s' = results s /\
  base <$> dents s' = base <$> dents s /\ fbase <$> fhs s' = fbase <$> fhs s.
Proof.
  intros (m & fm & nm & h & -> & E1 & E2). cbn. repeat (split; [done|]). split; [by apply (fmap_through base rn_of rn_of)|].
  split; [by apply (fmap_through fbase gn_of gn_of)|]. done.
Qed.

Lemma only_rings s s' P : only_tree s s' -> rings s P -> rings s' P.
Proof. intros (_ & Ed & _ & _ & _ & _ & _ & _ & _ & _ & Er & Eg & _)%only_fields. unfold rings. by rewrite Ed, Er, Eg. Qed.

Lemma only_rest s s' : only_tree s s' -> rest s -> rest s'.
Proof.
  intros (Eh & _ & _ & _ & _ & _ & _ & _ & Ep & Eq & _ & _ & _ & Eb & Ef)%only_fields [R1 R2 R3 R4 R5 R6].
  assert (forall g f, fhs s' !! g = Some f -> exists f0, fhs s !! g = Some f0 /\ local_fh f0 = local_fh f) as Hb.
  { intros g f Hf. destruct (fmap_eq_at _ _ _ _ _ Ef Hf) as (f0 & Hf0 & E). exists f0. split; [done|]. by injection E. }
  assert (forall g f, fhs s !! g = Some f -> exists f0, fhs s' !! g = Some f0 /\ local_fh f0 = local_fh f) as Hf.
  { intros g f Hf. destruct (fmap_eq_at _ _ _ _ _ (eq_sym Ef) Hf) as (f0 & Hf0 & E). exists f0. split; [done|]. by injection E. }
  split; rewrite ?Eh, ?Ep, ?Eq; try done.
  - intros k g. rewrite R1. split; intros (f & Hg & E); [destruct (Hf _ _ Hg) as (f0 & G1 & G2)|destruct (Hb _ _ Hg) as (f0 & G1 & G2)]; exists f0; (split; [done|congruence]).
  - intros g. rewrite R4, <-!elem_of_dom. by rewrite (fmap_dom_eq _ _ _ Ef).
  - intros p. rewrite R5, <-!elem_of_dom. by rewrite (fmap_dom_eq _ _ _ Eb).
  - intros g f (f0 & G1 & <-)%Hb. by apply (R6 g).
Qed.

Lemma only_live s s' : only_tree s s' -> live s -> live s'.
Proof.
  intros (_ & _ & _ & _ & _ & _ & _ & _ & _ & _ & _ & _ & _ & Eb & _)%only_fields Hl p d Hd.
  destruct (fmap_eq_at _ _ _ _ _ Eb Hd) as (d0 & Hd0 & E). assert (de_deleted d0 = de_deleted d) as <- by (by injection E). by apply (Hl p).
Qed.

Lemma calm_ext s s' : calm s -> (fun d => (de_fh d, de_node d)) <$> dents s' = (fun d => (de_fh d, de_node d)) <$> dents s ->
  (forall x d' q, dents s' !! x = Some d' -> de_parent d' = Some q -> is_Some (dents s !! q)) ->
  local_fh <$> fhs s' = local_fh <$> fhs s -> cleanup_dentry_heap s' = cleanup_dentry_heap s -> now s' = now s -> calm s'.
Proof.
  intros [C1 C2 C3 (Q1 & Q2 & Q3) C5 C6] Ed Hp Ef Eh En.
  assert (dom (dents s') = dom (dents s)) as Edom by (by eapply fmap_dom_eq).
  split; rewrite ?Eh, ?En; [| | |split; [done|split]|done|by rewrite <-size_dom, Edom, size_dom].
  - intros p d Hd. destruct (fmap_eq_at _ _ _ _ _ Ed Hd) as (d0 & Hd0 & [= E1 _]). destruct (C1 _ _ Hd0) as [f Hf]. rewrite E1 in Hf.
    destruct (fmap_eq_at _ _ _ _ _ (eq_sym Ef) Hf) as (f' & Hf' & _). by eexists.
  - intros p d q Hd Eq. destruct (Hp _ _ _ Hd Eq) as [qd Hq]. apply elem_of_dom. rewrite Edom. apply elem_of_dom. by eexists.
  - intros g f Hf. destruct (fmap_eq_at _ _ _ _ _ Ef Hf) as (f' & Hf' & <-). by apply (C3 g).
  - intros n k p Hn. destruct (Q2 _ _ _ Hn) as (Hk & d & Hd & Edn). split; [done|]. destruct (fmap_eq_at _ _ _ _ _ (eq_sym Ed) Hd) as (d' & Hd' & [= _ E']).
    exists d'. split; [done|congruence].
  - intros p d n Hd Edn. destruct (fmap_eq_at _ _ _ _ _ Ed Hd) as (d0 & Hd0 & [= _ E1]). apply (Q3 p d0); [done|congruence].
Qed.

Definition core s (x : ptr) : option (ptr * option ptr * list Z) := (fun d => (de_fh d, de_parent d, de_name d)) <$> dents s !! x.

Lemma sim_core s s' x : sim s s' -> core s' x = core s x.
Proof.
  intros (m & h & -> & E). unfold core. cbn. rewrite <-!lookup_fmap. f_equal. apply fmap_erase; [|done]. by intros [].
Qed.

Lemma core_tn s x : core s x = (fun t => (t_fh t, t_parent t, t_name t)) <$> (tn_of <$> dents s) !! x.
Proof. unfold core. rewrite lookup_fmap. by destruct (dents s !! x). Qed.

Lemma fmap_lookup_Some {A B} (f : A -> B) (m : gmap ptr A) x y : m !! x = Some y -> (f <$> m) !! x = Some (f y).
Proof. intros Hx. by rewrite lookup_fmap, Hx. Qed.

(** *** Leaving a directory *)

Lemma del_from_dir_ok s p d q : tree s None -> calm s -> dents s !! p = Some d -> de_parent d = Some q ->
  exists s' d', internal_dentry_del_from_dir s p = Ok s' /\ only_tree s s' /\ calm s' /\ tree s' (Some p) /\
    dents s' !! p = Some d' /\ de_parent d' = None /\ de_node d' = de_node d /\ base d' = base d /\ de_name d' = de_name d /\ de_fh d' = de_fh d /\
    (forall x, x <> p -> core s' x = core s x).
Proof.
  intros Ht Hc Hd Eq. unfold internal_dentry_del_from_dir. rewrite (de_at_eq _ _ _ Hd). cbn [mbind res_bind]. rewrite Eq.
  destruct (to_up _ _ _ _ _ Ht p (tn_of d) q) as (tq & fn & G1 & G2 & G3 & G4); [by apply fmap_lookup_Some|done|].
  rewrite lookup_fmap in G1. destruct (dents s !! q) as [qd|] eqn:Hq; [|done]. injection G1 as <-. cbn in G2, G4.
  rewrite lookup_fmap in G2. destruct (fhs s !! de_fh qd) as [f|] eqn:Hf; [|done]. injection G2 as <-. cbn in G3, G4.
  rewrite (de_at_eq _ _ _ Hq). cbn [mbind res_bind]. unfold unlist. rewrite (fh_at_eq _ _ _ Hf). cbn [mbind res_bind].
  pose proof (lookup_lt_Some _ _ _ G4) as Hlt. destruct (last (subdentries f)) as [top|] eqn:El; [|apply last_None in El; rewrite El in Hlt; cbn in Hlt; lia].
  rewrite decide_True by done. set (f1 := with_subs f _).
  pose proof El as El'. rewrite last_lookup in El'.
  destruct (to_down _ _ _ _ _ Ht (de_fh qd) (fn_of f) _ top (fmap_lookup_Some _ _ _ _ Hf) El') as (tt & _ & _ & Htt & _).
  rewrite lookup_fmap in Htt. destruct (dents s !! top) as [td|] eqn:Etop; [|done]. clear Htt tt.
  rewrite (on_de_eq _ (set_fh s (de_fh qd) f1) top td Etop). cbn [mbind res_bind].
  assert (dentry_htab_name s !! (q, de_name d) = Some p) as Hn.
  { apply (to_name _ _ _ _ _ Ht). exists (tn_of d). split; [by apply fmap_lookup_Some|done]. }
  cbn [dentry_htab_name set_de set_dents set_fh set_fhs]. rewrite Hn.
  set (s1 := set_htabs _ _ _ _).
  assert (dents s1 = <[top := with_index td (dentry_index d)]> (dents s)) as Ed1 by done.
  assert (fhs s1 = <[de_fh qd := f1]> (fhs s)) as Ef1 by done.
  assert (base <$> dents s1 = base <$> dents s) as Eb1 by (rewrite Ed1; by apply (fmap_insert_same base _ _ td)).
  assert (fbase <$> fhs s1 = fbase <$> fhs s) as Efb1.
  { rewrite Ef1, fmap_insert. rewrite insert_id; [done|]. rewrite lookup_fmap, Hf. done. }
  assert (calm s1) as Hc1.
  { apply (calm_ext s); [done| | | |done|done].
    - rewrite Ed1. by apply (fmap_insert_same _ _ _ td).
    - intros x d' q'. rewrite Ed1. intros [[<- <-]|[_ Hx]]%lookup_insert_Some E; [by apply (ca_parent _ Hc top td)|by apply (ca_parent _ Hc x d')].
    - rewrite Ef1, fmap_insert, insert_id; [done|]. rewrite lookup_fmap, Hf. done. }
  assert (exists qd1, dents s1 !! q = Some qd1) as [qd1 Hq1].
  { rewrite Ed1. destruct (decide (top = q)) as [->|Hne]; [eexists; apply lookup_insert_eq|exists qd; by rewrite lookup_insert_ne]. }
  destruct (update_ok s1 q qd1 Hc1 Hq1) as (s2 & _ & E2 & Hs2 & Hc2 & _ & _ & Hx2). rewrite E2. cbn [mbind res_bind].
  assert (q <> p) as Hqp.
  { intros ->. destruct (to_depth _ _ _ _ _ Ht p) as [n Hn']; [eexists; by apply fmap_lookup_Some|].
    assert (n < n)%nat; [|lia]. inversion Hn' as [p0 t0 T1 T2|p0 t0 q0 m T1 T2 T3]; subst; rewrite lookup_fmap, Hd in T1; injection T1 as <-; cbn in T2; [congruence|].
    rewrite Eq in T2. injection T2 as <-. pose proof (depth_fun _ _ _ _ T3 Hn'). lia. }
  assert (exists d1, dents s1 !! p = Some d1 /\ base d1 = base d /\ de_node d1 = de_node d /\ de_name d1 = de_name d /\ de_fh d1 = de_fh d) as (d1 & Hd1 & F1 & F2 & F3 & F4).
  { rewrite Ed1. destruct (decide (top = p)) as [->|Hne]; [eexists; split; [apply lookup_insert_eq|]; by simplify_eq|exists d; by rewrite lookup_insert_ne]. }
  assert (dents s2 !! p = Some d1) as Hd2 by (rewrite Hx2; done). rewrite (on_de_eq _ _ _ _ Hd2). set (d3 := with_place d1 None (dentry_index d1)).
  exists (set_de s2 p d3), d3.
  assert (only_tree s (set_de s2 p d3)) as Hot.
  { destruct Hs2 as (m & h & -> & E). exists (<[p := d3]> m), (fhs s1), (delete (q, de_name d) (dentry_htab_name s)), h. split; [by destruct s|].
    split; [|done]. cbn in Hd2. rewrite (fmap_insert_same base _ _ d1) by done. rewrite <-Eb1. apply fmap_erase; [by intros []|done]. }
  split; [done|]. split; [exact Hot|]. split; [|split; [|split; [apply lookup_insert_eq|]]].
  - apply (calm_ext s2); [done| | |done|done|done]; cbn [dents set_de set_dents].
    + by apply (fmap_insert_same _ _ _ d1).
    + intros x d' q' [[<- <-]|[_ Hx]]%lookup_insert_Some E; [done|by apply (ca_parent _ Hc2 x d')].
  - pose proof (sim_fields _ _ Hs2) as (S1 & _ & _ & S4 & S5 & _). unfold tree. cbn [dents fhs dentry_htab_name vols set_de set_dents].
    rewrite S1, S4, S5, Ef1, (fmap_insert fn_of). change (dentry_htab_name s1) with (delete (q, de_name d) (dentry_htab_name s)).
    change (vols s1) with (vols s). eapply (tree_del _ p (tn_of d) q (tn_of qd) (fn_of f) top); [exact Ht|by apply fmap_lookup_Some|exact Eq|by apply fmap_lookup_Some|
      by apply fmap_lookup_Some|exact El|].
    intros x. rewrite fmap_insert. destruct (decide (x = p)) as [->|Hxp].
    + rewrite lookup_insert_eq, lookup_fmap, Hd. cbn. unfold tn_of. cbn. f_equal. f_equal; [done..|].
      rewrite Ed1 in Hd1. goal_decide; [subst top; rewrite lookup_insert_eq in Hd1; by injection Hd1 as <-|]. rewrite lookup_insert_ne in Hd1 by done. congruence.
    + rewrite lookup_insert_ne by done.
      assert ((tn_of <$> dents s2) !! x = (tn_of <$> dents s1) !! x) as -> by (pose proof (sim_fields _ _ Hs2) as (_ & _ & _ & _ & _ & _ & _ & _ & _ & _ & _ & _ & _ & -> & _); done).
      rewrite !lookup_fmap, Ed1. destruct (decide (x = top)) as [->|Hxt]; [rewrite lookup_insert_eq, Etop; done|]. rewrite lookup_insert_ne by done.
      destruct (dents s !! x) as [[]|]; done.
  - split; [done|]. split; [exact F2|]. split; [exact F1|]. split; [done|]. split; [done|]. intros x Hx. transitivity (core s2 x).
    { unfold core. cbn [dents set_de set_dents]. by rewrite lookup_insert_ne by done. }
    rewrite (sim_core s1 s2 x Hs2). unfold core. rewrite Ed1. destruct (decide (x = top)) as [->|Hxt]; [by rewrite lookup_insert_eq, Etop|].
    by rewrite lookup_insert_ne by done.
Qed.

(** *** Entering a directory *)

Lemma add_to_dir_ok s p d q qd f : tree s (Some p) -> calm s -> dents s !! p = Some d -> dents s !! q = Some qd -> fhs s !! de_fh qd = Some f ->
  is_dir f = true -> ~ under (tn_of <$> dents s) p q -> dentry_htab_name s !! (q, de_name d) = None ->
  exists s', internal_dentry_add_to_dir s q p = Ok s' /\ only_tree s s' /\ calm s' /\ tree s' None /\
    core s' p = Some (de_fh d, Some q, de_name d) /\ (forall x, x <> p -> core s' x = core s x).
Proof.
  intros Ht Hc Hd Hq Hf Hdir Hu Hn. destruct (to_loose _ _ _ _ _ Ht p eq_refl) as [(t0 & Ht0 & Et) _].
  rewrite lookup_fmap, Hd in Ht0. injection Ht0 as <-. cbn in Et. assert (q <> p) as Hqp by (intros ->; apply Hu; constructor).
  unfold internal_dentry_add_to_dir. rewrite (de_at_eq _ _ _ Hd). cbn [mbind res_bind]. rewrite Et, (de_at_eq _ _ _ Hq). cbn [mbind res_bind].
  rewrite (fh_at_eq _ _ _ Hf). cbn [mbind res_bind]. set (d1 := with_place d _ _). set (f1 := with_subs f _). set (s1 := set_fh _ _ _).
  assert (dents s1 = <[p := d1]> (dents s)) as Ed1 by done.
  assert (fhs s1 = <[de_fh qd := f1]> (fhs s)) as Ef1 by done.
  assert (base <$> dents s1 = base <$> dents s) as Eb1 by (rewrite Ed1; by apply (fmap_insert_same base _ _ d)).
  assert (fbase <$> fhs s1 = fbase <$> fhs s) as Efb1.
  { rewrite Ef1, fmap_insert. rewrite insert_id; [done|]. rewrite lookup_fmap, Hf. done. }
  assert (calm s1) as Hc1.
  { apply (calm_ext s); [done| | | |done|done].
    - rewrite Ed1. by apply (fmap_insert_same _ _ _ d).
    - intros x d' q'. rewrite Ed1. intros [[<- <-]|[_ Hx]]%lookup_insert_Some E; [injection E as <-; by eexists|by apply (ca_parent _ Hc x d')].
    - rewrite Ef1, fmap_insert, insert_id; [done|]. rewrite lookup_fmap, Hf. done. }
  assert (dents s1 !! q = Some qd) as Hq1 by (rewrite Ed1; by rewrite lookup_insert_ne).
  destruct (update_ok s1 q qd Hc1 Hq1) as (s2 & _ & E2 & Hs2 & Hc2 & _ & _ & Hx2). rewrite E2. cbn [mbind res_bind].
  assert (dents s2 !! p = Some d1) as Hd2 by (rewrite Hx2 by done; rewrite Ed1; apply lookup_insert_eq).
  destruct (update_ok s2 p d1 Hc2 Hd2) as (s3 & d3 & E3 & Hs3 & Hc3 & Hd3 & _ & Hx3). rewrite E3. cbn [mbind res_bind].
  pose proof (sim_trans _ _ _ Hs2 Hs3) as Hs13. pose proof (sim_fields _ _ Hs13) as (S1 & S2 & S3 & S4 & S5 & _ & _ & _ & _ & _ & _ & _ & _ & S6 & _).
  rewrite S4. change (dentry_htab_name s1) with (dentry_htab_name s). rewrite Hn. eexists. split; [reflexivity|]. split; [|split; [|split; [|split]]].
  - destruct Hs13 as (m & h & -> & E). exists m, (fhs s1), (<[(q, de_name d) := p]> (dentry_htab_name s)), h. split; [by destruct s|].
    split; [|done]. rewrite <-Eb1. apply fmap_erase; [by intros []|done].
  - destruct Hc3. by split.
  - unfold tree. cbn [dents fhs dentry_htab_name vols set_htabs]. rewrite S6, S1, S5, Ef1, Ed1, !fmap_insert.
    apply (tree_add p (tn_of d) q (tn_of qd) (fn_of f)); [exact Ht|by apply fmap_lookup_Some|by apply fmap_lookup_Some|by apply fmap_lookup_Some|done|done|done].
  - transitivity (core s3 p); [done|]. rewrite (sim_core _ _ _ Hs13). unfold core. rewrite Ed1, lookup_insert_eq. done.
  - intros x Hx. transitivity (core s3 x); [done|]. rewrite (sim_core _ _ _ Hs13). unfold core. by rewrite Ed1, lookup_insert_ne by done.
Qed.

(** ** Leaving a ring *)

Definition ebase (d : dentry) : dentry := with_next (with_prev d 0%nat) 0%nat.
Definition gbase (f : ifh) : ifh := with_ndentries f 0.

(** [s'] is [s] up to rings, numbers of entries and the tables of handles. *)
Definition only_ring s s' : Prop := ebase <$> dents s' = ebase <$> dents s /\ gbase <$> fhs s' = gbase <$> fhs s /\ dentry_htab_name s' = dentry_htab_name s /\ vols s' = vols s /\ owned s' = owned s /\ now s' = now s /\ invalidated s' = invalidated s /\ fh_pool s' = fh_pool s /\ dentry_pool s' = dentry_pool s /\ cleanup_dentry_heap s' = cleanup_dentry_heap s /\ results s' = results s.

Lemma only_ring_tree s s' E : only_ring s s' -> tree s E -> tree s' E.
Proof.
  intros (Ed & Ef & En & Ev & _) Ht. unfold tree. rewrite En, Ev.
  rewrite (fmap_through ebase tn_of tn_of (dents s') (dents s)) by done. by rewrite (fmap_through gbase fn_of fn_of (fhs s') (fhs s)).
Qed.

Lemma only_ring_calm s s' : only_ring s s' -> calm s -> calm s'.
Proof.
  intros (Ed & Ef & _ & _ & _ & En & _ & _ & _ & Eh & _) Hc. apply (calm_ext s); [done| | | |done|done].
  - by apply (fmap_through ebase _ (fun d => (de_fh d, de_node d))).
  - intros x d' q Hx Eq. destruct (fmap_eq_at _ _ _ _ _ Ed Hx) as (d0 & Hd0 & E). apply (ca_parent _ Hc x d0); [done|]. assert (de_parent d0 = de_parent d') by (by injection E). congruence.
  - by apply (fmap_through gbase _ local_fh).
Qed.

(** Which handles stay when the entry goes. *)
Definition fhs_after s (p : ptr) (d : dentry) : gmap ptr ifh := if decide (de_next d = p) then delete (de_fh d) (fhs s) else fhs s.

Lemma ndentries_dec n : 1 <= n <= UINT32_MAX -> u32 (n - 1) = n - 1.
Proof. intros Hn. apply wrap_small. unfold UINT32_MAX in Hn. lia. Qed.

Lemma ring_count s p d f : rings s None -> calm s -> dents s !! p = Some d -> fhs s !! de_fh d = Some f -> 1 <= ndentries f <= UINT32_MAX.
Proof.
  intros Hr Hc Hd Hf. destruct (ring_find p (rn_of d) (gn_of f) Hr) as (l & Hl & _); [by apply fmap_lookup_Some|by apply fmap_lookup_Some|].
  pose proof (ring_length _ _ _ _ Hl) as Hlen. destruct Hl as (_ & _ & _ & E & _). cbn in E. rewrite map_size_fmap in Hlen. pose proof (ca_size _ Hc).
  cbn [length] in *. lia.
Qed.

Lemma unring_last s p d f : rings s None -> calm s -> rest s -> dents s !! p = Some d -> fhs s !! de_fh d = Some f -> de_next d = p ->
  exists s2, unring s p = Ok s2 /\ only_ring s s2 /\ dents s2 = dents s /\
    rings (set_fhs (set_dents s2 (delete p (dents s2))) (delete (de_fh d) (fhs s2))) None /\
    (forall k g, fh_htab s2 !! k = Some g <-> exists f, delete (de_fh d) (fhs s2) !! g = Some f /\ key_of (local_fh f) = k) /\
    (forall x dx, dents s2 !! x = Some dx -> de_fh dx = de_fh d -> x = p) /\
    closed s2 = ih_cap f ++ closed s /\ (closed_journals s2 = if ih_journal f then de_fh d :: closed_journals s else closed_journals s).
Proof.
  intros Hr Hc Hrs Hd Hf Hn. pose proof (ring_count _ _ _ _ Hr Hc Hd Hf) as Hcnt.
  destruct (ring_end p (rn_of d) (gn_of f) Hr) as (R1 & R2 & R3 & R4); [by apply fmap_lookup_Some|by apply fmap_lookup_Some|done|].
  cbn in R1, R2, R3, R4. unfold unring. rewrite (de_at_eq _ _ _ Hd). cbn [mbind res_bind]. rewrite (fh_at_eq _ _ _ Hf). cbn [mbind res_bind].
  destruct R2 as [h Hh]. rewrite Hh, decide_True by done. rewrite ndentries_dec, R1 by done. cbn [negb Z.eqb Z.sub].
  unfold internal_fh_destroy_stage1. unfold fh_at. cbn [fhs set_htabs set_fh set_fhs]. rewrite lookup_insert_eq. cbn [mbind res_bind ndentries with_ndentries negb Z.eqb].
  assert (fh_htab s !! key_of (local_fh f) = Some (de_fh d)) as Hk by (apply (rs_fh_htab _ Hrs); by exists f).
  cbn -[key_of]. rewrite Hk. eexists. split; [reflexivity|]. split; [|split; [done|split; [|split; [|split; [|split; [done|]]]]]].
  - split; [done|]. split; [|by repeat (split; [done|])]. cbn. rewrite fmap_insert, insert_id; [done|]. rewrite lookup_fmap, Hf. done.
  - unfold rings. cbn. rewrite !fmap_delete, fmap_insert, delete_insert_eq. exact R4.
  - cbn. intros k g. rewrite delete_insert_eq, lookup_delete_Some, (rs_fh_htab _ Hrs). split.
    + intros (Hne & f' & Hf' & Ek). exists f'. split; [|done]. rewrite lookup_delete_ne; [done|]. intros <-. apply Hne. congruence.
    + intros (f' & [Hne Hf']%lookup_delete_Some & Ek). split; [|by exists f']. intros E. apply Hne.
      assert (fh_htab s !! key_of (local_fh f') = Some g) as Hg by (apply (rs_fh_htab _ Hrs); by exists f'). congruence.
  - cbn. intros x dx Hx E. apply (R3 x (rn_of dx)); [by apply fmap_lookup_Some|done].
  - cbn. by destruct (ih_journal f).
Qed.

Lemma unring_more s p d f : rings s None -> calm s -> rest s -> dents s !! p = Some d -> fhs s !! de_fh d = Some f -> de_next d <> p ->
  exists s2, unring s p = Ok s2 /\ only_ring s s2 /\ dents s2 !! p = Some d /\
    rings (set_dents s2 (delete p (dents s2))) None /\ fh_htab s2 = fh_htab s /\ closed s2 = closed s /\ closed_journals s2 = closed_journals s.
Proof.
  intros Hr Hc Hrs Hd Hf Hn. pose proof (ring_count _ _ _ _ Hr Hc Hd Hf) as Hcnt.
  destruct (ring_find p (rn_of d) (gn_of f) Hr) as (l & (A1 & A2 & A3 & _) & [h Hh]); [by apply fmap_lookup_Some|by apply fmap_lookup_Some|].
  cbn in A2, Hh.
  assert (forall x, (r_next <$> (rn_of <$> dents s) !! p = Some x \/ r_prev <$> (rn_of <$> dents s) !! p = Some x) -> x ∈ p :: l) as Hin.
  { intros x Hx. destruct l as [|b l _] using rev_ind; cbn in A3.
    - destruct A3 as [E1 E2]. destruct Hx as [Hx|Hx]; rewrite Hx in *; simplify_eq; set_solver.
    - apply chain_app in A3 as [A3 [_ E2]]. destruct Hx as [Hx|Hx]; [|rewrite Hx in E2; injection E2 as ->; set_solver].
      destruct l; cbn in A3; [destruct A3 as [E1 _]|destruct A3 as [[E1 _] _]]; rewrite Hx in E1; injection E1 as ->; set_solver. }
  rewrite !lookup_fmap, Hd in Hin. cbn in Hin.
  destruct (proj1 (A2 (de_next d)) (Hin _ (or_introl eq_refl))) as (_ & rn & Hrn & _). rewrite lookup_fmap in Hrn. destruct (dents s !! de_next d) as [nd|] eqn:Hnd; [|done]. clear Hrn rn.
  destruct (proj1 (A2 (de_prev d)) (Hin _ (or_intror eq_refl))) as (_ & rn & Hrn & _). rewrite lookup_fmap in Hrn. destruct (dents s !! de_prev d) as [vd|] eqn:Hvd; [|done]. clear Hrn rn.
  assert (de_prev d <> p) as Hvp.
  { intros E. apply Hn. destruct l as [|b l _] using rev_ind; cbn in A3.
    - destruct A3 as [E1 _]. rewrite lookup_fmap, Hd in E1. cbn in E1. congruence.
    - apply chain_app in A3 as [_ [_ E2]]. rewrite lookup_fmap, Hd in E2. cbn in E2. apply NoDup_cons in A1 as [A1 _]. exfalso. apply A1.
      assert (b = p) as -> by congruence. set_solver. }
  unfold unring. rewrite (de_at_eq _ _ _ Hd). cbn [mbind res_bind]. rewrite (fh_at_eq _ _ _ Hf). cbn [mbind res_bind]. rewrite Hh, decide_False by done.
  rewrite ndentries_dec by done.
  set (s1 := set_fh s (de_fh d) _). rewrite (on_de_eq _ s1 (de_next d) nd Hnd). cbn [mbind res_bind]. set (s2 := set_de s1 (de_next d) _).
  assert (exists vd', dents s2 !! de_prev d = Some vd' /\ de_fh vd' = de_fh vd /\ ebase vd' = ebase vd /\ (de_prev vd' = if decide (de_prev d = de_next d) then de_prev d else de_prev vd)) as (vd' & Hvd' & F1 & F2 & F3).
  { cbn. destruct (decide (de_prev d = de_next d)) as [E|Hne].
    - rewrite E, lookup_insert_eq. eexists. split; [done|]. rewrite E, Hnd in Hvd. injection Hvd as <-. done.
    - rewrite lookup_insert_ne by done. by exists vd. }
  rewrite (on_de_eq _ s2 _ _ Hvd'). cbn [mbind res_bind]. set (s3 := set_de s2 (de_prev d) _).
  set (M' := rn_of <$> delete p (dents s3)).
  assert (forall y, y <> p -> M' !! y = rn_of <$> dents s3 !! y) as HM by (intros y Hy; unfold M'; by rewrite lookup_fmap, lookup_delete_ne).
  destruct (ring_leave M' p (rn_of d) (gn_of f) Hr) as (L1 & _ & L3); [by apply fmap_lookup_Some|by apply fmap_lookup_Some|done| | | | |].
  - intros y Hy. rewrite HM by done. rewrite lookup_fmap. cbn.
    destruct (decide (y = de_prev d)) as [->|Hyv]; [rewrite lookup_insert_eq, Hvd; cbn; congruence|]. rewrite lookup_insert_ne by done.
    destruct (decide (y = de_next d)) as [->|Hyn]; [rewrite lookup_insert_eq, Hnd; done|]. by rewrite lookup_insert_ne.
  - unfold M'. by rewrite lookup_fmap, lookup_delete_eq.
  - intros y Hy. rewrite HM by done. rewrite lookup_fmap. cbn.
    destruct (decide (y = de_prev d)) as [->|Hyv]; [by rewrite lookup_insert_eq|]. rewrite lookup_insert_ne by done.
    destruct (decide (y = de_next d)) as [->|Hyn]; [rewrite lookup_insert_eq, Hnd; done|]. by rewrite lookup_insert_ne.
  - intros y Hy. rewrite HM by done. rewrite lookup_fmap. cbn.
    destruct (decide (y = de_prev d)) as [->|Hyv].
    + rewrite lookup_insert_eq, Hvd. cbn. rewrite F3. by destruct (decide (de_prev d = de_next d)).
    + rewrite lookup_insert_ne by done. destruct (decide (y = de_next d)) as [->|Hyn]; [rewrite lookup_insert_eq; done|]. by rewrite lookup_insert_ne.
  - cbn in L1, L3. assert ((ndentries f - 1 =? 0) = false) as -> by (apply Z.eqb_neq; lia).
    eexists. split; [reflexivity|]. split; [|split; [|split; [|done]]].
    + split; [|split; [|by repeat (split; [done|])]]; cbn.
      * rewrite fmap_insert, insert_id; [|rewrite lookup_fmap; change (<[de_next d:=_]> (dents s)) with (dents s2); rewrite Hvd'; done].
        rewrite fmap_insert, insert_id; [done|]. by rewrite lookup_fmap, Hnd.
      * rewrite fmap_insert, insert_id; [done|]. by rewrite lookup_fmap, Hf.
    + cbn. rewrite !lookup_insert_ne by done. done.
    + unfold rings. cbn. rewrite fmap_insert. exact L3.
Qed.

(** ** Freeing an entry *)

Lemma invalidate_ok s p d f (inv root_p : bool) : calm s -> dents s !! p = Some d -> fhs s !! de_fh d = Some f -> de_parent d = None -> de_node d = None ->
  exists s' s1 d', (if inv then fs_invalidate_dentry s p root_p else Ok s) = Ok s' /\ s' = (if inv then add_invalidated s1 (local_fh f, root_p) else s1) /\
    sim s s1 /\ calm s1 /\ dents s1 !! p = Some d' /\ de_node d' = None /\ erase d' = erase d /\ delete p (dents s1) = delete p (dents s).
Proof.
  intros Hc Hd Hf Ep En. destruct inv.
  - unfold fs_invalidate_dentry. rewrite (fh_of_eq _ _ _ _ Hd Hf). cbn [mbind res_bind]. unfold release_dentry.
    destruct (update_ok s p d Hc Hd) as (s1 & d' & E & Hs & Hc1 & Hd1 & En1 & Hx). rewrite E. cbn [mbind res_bind].
    exists (add_invalidated s1 (local_fh f, root_p)), s1, d'. split; [done|]. split; [done|]. split; [done|]. split; [done|]. split; [done|]. split; [auto|].
    split; [|apply map_eq; intros x; destruct (decide (x = p)) as [->|Hne]; [by rewrite !lookup_delete_eq|by rewrite !lookup_delete_ne, Hx by done]].
    destruct (sim_at _ _ _ _ Hs Hd) as (d2 & Hd2 & E2). congruence.
  - exists s, s, d. by repeat (split; [done || apply sim_refl|]).
Qed.

Lemma free_dentry_ok s p d f inv root_p : tree s (Some p) -> calm s -> dents s !! p = Some d -> fhs s !! de_fh d = Some f -> subdentries f = [] ->
  de_parent d = None -> de_node d = None -> (forall x dx, dents s !! x = Some dx -> de_parent dx <> Some p) ->
  rings (set_fhs (set_dents s (delete p (dents s))) (fhs_after s p d)) None ->
  (forall k g, fh_htab s !! k = Some g <-> exists f, fhs_after s p d !! g = Some f /\ key_of (local_fh f) = k) ->
  (de_next d = p -> forall x dx, dents s !! x = Some dx -> de_fh dx = de_fh d -> x = p) ->
  pool_ok (fh_pool s) -> pool_ok (dentry_pool s) -> (forall g, g ∈ in_use (fh_pool s) <-> is_Some (fhs s !! g)) ->
  (forall x, x ∈ in_use (dentry_pool s) <-> is_Some (dents s !! x)) -> (forall g f, fhs s !! g = Some f -> gen (local_fh f) <> 0) ->
  exists s', free_dentry s p inv root_p = Ok s' /\ tree s' None /\ rings s' None /\ calm s' /\ rest s' /\ dents s' = delete p (dents s) /\ fhs s' = fhs_after s p d /\
    vols s' = vols s /\ owned s' = owned s /\ now s' = now s /\ closed s' = closed s /\ closed_journals s' = closed_journals s /\ results s' = results s /\
    invalidated s' = (if inv then [(local_fh f, root_p)] else []) ++ invalidated s.
Proof.
  intros Ht Hc Hd Hf Hsub Ep En Hch Hr Hh Hone P1 P2 P3 P4 Hgen. unfold free_dentry.
  destruct (invalidate_ok s p d f inv root_p Hc Hd Hf Ep En) as (s2 & s1 & d1 & E & E2 & Hs & Hc1 & Hd1 & En1 & Ee & Edel). rewrite E. cbn [mbind res_bind].
  pose proof (sim_tree _ _ _ Hs Ht) as Ht1. pose proof (sim_fields _ _ Hs) as (S1 & S2 & S3 & S4 & S5 & S6 & S7 & S8 & S9 & S10 & S11 & S12 & S13 & S14 & S15 & S16).
  apply erase_fields in Ee as (Efh & Epar & _ & Enext & _).
  assert (dents s2 = dents s1 /\ fhs s2 = fhs s1 /\ fh_htab s2 = fh_htab s1 /\ dentry_htab s2 = dentry_htab s1 /\ dentry_htab_name s2 = dentry_htab_name s1 /\
    vols s2 = vols s1 /\ owned s2 = owned s1 /\ now s2 = now s1 /\ fh_pool s2 = fh_pool s1 /\ dentry_pool s2 = dentry_pool s1 /\
    cleanup_dentry_heap s2 = cleanup_dentry_heap s1 /\ closed s2 = closed s1 /\ closed_journals s2 = closed_journals s1 /\ results s2 = results s1 /\
    invalidated s2 = (if inv then [(local_fh f, root_p)] else []) ++ invalidated s1)
    as (B1 & B2 & B3 & B4 & B5 & B6 & B7 & B8 & B9 & B10 & B11 & B12 & B13 & B14 & B15) by (rewrite E2; destruct inv; done).
  assert (dents s2 !! p = Some d1) as Hd2 by congruence. rewrite (de_at_eq _ _ _ Hd2). cbn [mbind res_bind].
  assert (exists s3, (if decide (de_next d1 = p) then internal_fh_destroy_stage2 s2 (de_fh d1) else Ok s2) = Ok s3 /\ fhs s3 = fhs_after s p d /\
    pool_ok (fh_pool s3) /\ (forall g, g ∈ in_use (fh_pool s3) <-> is_Some (fhs s3 !! g)) /\ s3 = set_fhs (set_pools s2 (fh_pool s3) (dentry_pool s2)) (fhs s3)) as (s3 & E3 & Ef3 & Pf & Pu & Es3).
  { rewrite Enext, Efh. unfold fhs_after. destruct (decide (de_next d = p)) as [Hn|Hn].
    - unfold internal_fh_destroy_stage2. destruct (pool_free_ok (fh_pool s2) (de_fh d)) as (pl & Epl & Hpl & Hin); [rewrite B9, S12; done|rewrite B9, S12; apply P3; by eexists|].
      rewrite Epl. cbn [mbind res_bind]. eexists. split; [reflexivity|]. cbn. rewrite B2, S1. split; [done|]. split; [done|]. split; [|done].
      intros g. rewrite Hin, B9, S12, P3. rewrite lookup_delete_is_Some. naive_solver.
    - exists s2. rewrite B2, S1, B9, S12. split; [done|]. split; [done|]. split; [done|]. split; [done|]. rewrite <-S1, <-B2, <-S12, <-B9. by destruct s2. }
  rewrite E3. cbn [mbind res_bind].
  assert (dents s3 = dents s2 /\ dentry_pool s3 = dentry_pool s2) as [Ed3 Ep3] by (by rewrite Es3).
  destruct (pool_free_ok (dentry_pool s3) p) as (pl & Epl & Hpl & Hin); [rewrite Ep3, B10, S13; done|rewrite Ep3, B10, S13; apply P4; by eexists|].
  rewrite Epl. cbn [mbind res_bind]. eexists. split; [reflexivity|]. rewrite Ed3, B1, Edel.
  assert (forall x dx, delete p (dents s) !! x = Some dx -> exists f', fhs_after s p d !! de_fh dx = Some f') as Hfh.
  { intros x dx [Hne Hx]%lookup_delete_Some. destruct (ca_fh _ Hc _ _ Hx) as [f' Hf']. exists f'. unfold fhs_after. goal_decide; [|done]. rewrite lookup_delete_ne; [done|].
    intros Eg. apply Hne. symmetry. by apply (Hone e x dx). }
  split; [|split; [|split; [|split; [|split; [|split]]]]].
  - unfold tree. cbn [dents fhs dentry_htab_name vols set_pools set_dents]. rewrite Ef3. rewrite Es3. cbn [dents fhs dentry_htab_name vols set_pools set_fhs].
    rewrite B5, S4, B6, S5, fmap_delete. assert (tree_ok (delete p (tn_of <$> dents s)) (fn_of <$> fhs s) (dentry_htab_name s) (root_dentry <$> vols s) None) as Htf.
    { apply tree_free; [done|]. intros x t Hx. rewrite lookup_fmap in Hx. destruct (dents s !! x) as [dx|] eqn:Edx; [|done]. injection Hx as <-. by apply (Hch x). }
    unfold fhs_after. goal_decide; [|done]. rewrite fmap_delete. apply (tree_free_fh _ _ (fn_of f)); [done|by apply fmap_lookup_Some|done|].
    intros x t [Hne Hx]%lookup_delete_Some. rewrite lookup_fmap in Hx. destruct (dents s !! x) as [dx|] eqn:Edx; [|done]. injection Hx as <-. cbn. intros Eg. apply Hne. symmetry. by apply (Hone e x dx).
  - unfold rings. cbn [dents fhs dentry_htab set_pools set_dents]. rewrite Ef3. rewrite Es3. cbn [dentry_htab set_pools set_fhs]. rewrite B4, S3. exact Hr.
  - rewrite Es3. destruct Hc as [C1 C2 C3 C4 C5 C6]. destruct Hc1 as [_ _ _ (Q1 & Q2 & Q3) _ _]. split; cbn.
    + intros x dx Hx. rewrite Ef3. by apply (Hfh x).
    + intros x dx q Hx Eq. pose proof Hx as [_ Hx']%lookup_delete_Some. rewrite lookup_delete_ne; [by apply (C2 x dx)|]. intros ->. by apply (Hch x dx).
    + intros g f'. rewrite Ef3. unfold fhs_after. goal_decide; [intros [_ Hg]%lookup_delete_Some; by apply (C3 g)|apply C3].
    + rewrite B11. rewrite <-Edel. split; [done|]. split.
      * intros n k x Hx. destruct (Q2 _ _ _ Hx) as (Hk & dx & Hdx & Enx). split; [done|]. exists dx. rewrite lookup_delete_ne; [done|]. intros <-. congruence.
      * intros x dx n [_ Hx]%lookup_delete_Some. by apply Q3.
    + rewrite B8, S7. done.
    + pose proof (map_size_delete p (dents s)) as Hsz. rewrite Hd in Hsz. cbn in Hsz. rewrite Hsz. lia.
  - rewrite Es3. split; cbn.
    + rewrite Ef3, B3, S2. exact Hh.
    + done.
    + done.
    + exact Pu.
    + intros x. rewrite Hin, Ep3, B10, S13, P4, lookup_delete_is_Some. naive_solver.
    + intros g f'. rewrite Ef3. unfold fhs_after. goal_decide; [intros [_ Hg]%lookup_delete_Some; by apply (Hgen g)|apply Hgen].
  - done.
  - cbn. exact Ef3.
  - cbn. rewrite Es3. cbn. rewrite B6, B7, B8, B12, B13, B14, B15, S5, S6, S7, S9, S10, S8, S11. done.
Qed.

(** ** Destroying an entry *)

(** What stays of a handle when entries go. *)
Definition ifhbase (f : ifh) : ifh := with_subs (with_ndentries f 0) [].

(** The entries of [X] are gone, and the others are as they were. *)
Record gone s s' (X : ptr -> Prop) : Prop := {
  go_out : forall x, X x -> dents s' !! x = None;
  go_keep : forall x, ~ X x -> core s' x = core s x /\ de_users <$> dents s' !! x = de_users <$> dents s !! x;
  go_owned : owned s' = owned s;
  go_now : now s' = now s;
  go_results : results s' = results s;
  go_sub : forall x d', dents s' !! x = Some d' -> is_Some (dents s !! x);
  go_fh : forall g f', fhs s' !! g = Some f' -> exists f, fhs s !! g = Some f /\ ifhbase f' = ifhbase f
}.

(** The volume of an entry without a parent loses its root. *)
Definition vols_after s (p : ptr) (vs : gmap Z dvolume) : Prop :=
  forall d f, dents s !! p = Some d -> fhs s !! de_fh d = Some f ->
  match de_parent d with
  | Some _ => vs = vols s
  | None => exists x, vols s !! vid (local_fh f) = Some x /\ vs = <[vid (local_fh f) := DVol None (dv_locked x) (last_conflict_ino x) (dv_delete_p x)]> (vols s)
  end.

Lemma detach_ok s p d f clear : tree s None -> calm s -> dents s !! p = Some d -> fhs s !! de_fh d = Some f -> de_node d = None ->
  (de_parent d = None -> clear = true) ->
  exists s' d', detach s p clear = Ok s' /\ tree s' (Some p) /\ calm s' /\ dents s' !! p = Some d' /\ de_parent d' = None /\ de_node d' = None /\
    de_fh d' = de_fh d /\ de_next d' = de_next d /\ (forall P, rings s P -> rings s' P) /\ (rest s -> rest s') /\ vols_after s p (vols s') /\
    base <$> dents s' = base <$> dents s /\ fbase <$> fhs s' = fbase <$> fhs s /\ (forall x, x <> p -> core s' x = core s x) /\
    owned s' = owned s /\ now s' = now s /\ closed s' = closed s /\ closed_journals s' = closed_journals s /\ invalidated s' = invalidated s /\ results s' = results s.
Proof.
  intros Ht Hc Hd Hf En Hcl. unfold detach. rewrite (de_at_eq _ _ _ Hd). cbn [mbind res_bind]. destruct (de_parent d) as [q|] eqn:Eq.
  - destruct (del_from_dir_ok s p d q Ht Hc Hd Eq) as (s' & d' & E & Ho & Hc' & Ht' & Hd' & Ep & En' & Eb & _ & Ef & Hx). exists s', d'. rewrite E.
    pose proof (only_fields _ _ Ho) as (F1 & F2 & F3 & F4 & F5 & F6 & F7 & F8 & F9 & F10 & F11 & F12 & F13 & F14 & F15).
    repeat (split; [done || congruence|]). split; [by injection Eb|]. split; [intros P; by apply only_rings|]. split; [by apply only_rest|].
    split; [|done]. intros d0 f0 Hd0 Hf0. rewrite Hd in Hd0. injection Hd0 as <-. by rewrite Eq.
  - rewrite Hcl by done. rewrite (fh_at_eq _ _ _ Hf). cbn [mbind res_bind].
    assert ((root_dentry <$> vols s) !! vid (local_fh f) = Some (Some p)) as Hv.
    { apply (to_top _ _ _ _ _ Ht p (tn_of d) (fn_of f)); [by apply fmap_lookup_Some|by apply fmap_lookup_Some|done|done]. }
    rewrite lookup_fmap in Hv. destruct (vols s !! vid (local_fh f)) as [x|] eqn:Ex; [|done]. eexists _, d. split; [reflexivity|].
    split; [|split; [|split; [done|split; [done|split; [done|split; [done|split; [done|split; [done|split; [|split; [|done]]]]]]]]]].
    + unfold tree. cbn. rewrite fmap_insert. apply (tree_root_clear p (tn_of d) (fn_of f)); [exact Ht|by apply fmap_lookup_Some|done|by apply fmap_lookup_Some].
    + destruct Hc. by split.
    + intros [R1 R2 R3 R4 R5 R6]. by split.
    + intros d0 f0 Hd0 Hf0. rewrite Hd in Hd0. injection Hd0 as <-. rewrite Hf in Hf0. injection Hf0 as <-. rewrite Eq. by exists x.
Qed.

Lemma no_children s E p d f : tree s E -> dents s !! p = Some d -> fhs s !! de_fh d = Some f -> subdentries f = [] ->
  forall x dx, dents s !! x = Some dx -> de_parent dx <> Some p.
Proof.
  intros Ht Hd Hf Hs x dx Hx Eq. destruct (to_up _ _ _ _ _ Ht x (tn_of dx) p) as (tq & fn & G1 & G2 & _ & G4); [by apply fmap_lookup_Some|done|].
  rewrite lookup_fmap, Hd in G1. injection G1 as <-. cbn in G2. rewrite lookup_fmap, Hf in G2. injection G2 as <-. cbn in G4. by rewrite Hs in G4.
Qed.

(** Leaving the ring and freeing, together. *)
Lemma remove_ok s p d f inv root_p : tree s (Some p) -> rings s None -> calm s -> rest s -> dents s !! p = Some d -> fhs s !! de_fh d = Some f ->
  subdentries f = [] -> de_parent d = None -> de_node d = None ->
  exists s', (s ← unring s p; free_dentry s p inv root_p) = Ok s' /\ tree s' None /\ rings s' None /\ calm s' /\ rest s' /\
    ebase <$> dents s' = ebase <$> delete p (dents s) /\ vols s' = vols s /\ owned s' = owned s /\ now s' = now s /\ results s' = results s /\
    (forall g f', fhs s' !! g = Some f' -> exists f, fhs s !! g = Some f /\ gbase f' = gbase f) /\
    closed s' = (if decide (de_next d = p) then ih_cap f else []) ++ closed s /\
    invalidated s' = (if inv then [(local_fh f, root_p)] else []) ++ invalidated s.
Proof.
  intros Ht Hr Hc Hrs Hd Hf Hs Ep En.
  assert (exists s2 d2 f2, unring s p = Ok s2 /\ only_ring s s2 /\ dents s2 !! p = Some d2 /\ d2 = d /\ fhs s2 !! de_fh d = Some f2 /\ gbase f2 = gbase f /\
    rings (set_fhs (set_dents s2 (delete p (dents s2))) (fhs_after s2 p d)) None /\
    (forall k g, fh_htab s2 !! k = Some g <-> exists f, fhs_after s2 p d !! g = Some f /\ key_of (local_fh f) = k) /\
    (de_next d = p -> forall x dx, dents s2 !! x = Some dx -> de_fh dx = de_fh d -> x = p) /\
    closed s2 = (if decide (de_next d = p) then ih_cap f else []) ++ closed s)
    as (s2 & d2 & f2 & E & Hor & Hd2 & -> & Hf2 & Eg & Hr2 & Hh2 & Hone & Ecl).
  { destruct (decide (de_next d = p)) as [Hn|Hn].
    - destruct (unring_last s p d f Hr Hc Hrs Hd Hf Hn) as (s2 & E & Hor & Ed & R1 & R2 & R3 & R4 & R5).
      destruct (fmap_eq_at _ _ _ _ _ (eq_sym (proj1 (proj2 Hor))) Hf) as (f2 & Hf2 & Eg).
      exists s2, d, f2. unfold fhs_after. rewrite decide_True by done. split; [done|]. split; [done|]. split; [congruence|]. repeat (split; [done|]). done.
    - destruct (unring_more s p d f Hr Hc Hrs Hd Hf Hn) as (s2 & E & Hor & Ed & R1 & R2 & R3 & R4).
      destruct (fmap_eq_at _ _ _ _ _ (eq_sym (proj1 (proj2 Hor))) Hf) as (f2 & Hf2 & Eg).
      exists s2, d, f2. unfold fhs_after. rewrite decide_False by done. split; [done|]. split; [done|]. split; [done|]. split; [done|]. split; [done|]. split; [done|].
      split; [by destruct s2|]. split; [|done]. intros k g. rewrite R2, (rs_fh_htab _ Hrs). destruct Hor as (_ & Eg' & _). split.
      + intros (f0 & Hf0 & Ek). destruct (fmap_eq_at _ _ _ _ _ (eq_sym Eg') Hf0) as (f1 & Hf1 & E1). exists f1. split; [done|]. assert (local_fh f1 = local_fh f0) as -> by (by injection E1). done.
      + intros (f0 & Hf0 & Ek). destruct (fmap_eq_at _ _ _ _ _ Eg' Hf0) as (f1 & Hf1 & E1). exists f1. split; [done|]. assert (local_fh f1 = local_fh f0) as -> by (by injection E1). done. }
  rewrite E. cbn [mbind res_bind]. pose proof Hor as (O1 & O2 & O3 & O4 & O5 & O6 & O7 & O8 & O9 & O10 & O11).
  pose proof (only_ring_tree _ _ _ Hor Ht) as Ht2. pose proof (only_ring_calm _ _ Hor Hc) as Hc2.
  assert (subdentries f2 = []) as Hs2 by (injection Eg; congruence). destruct Hrs as [R1 R2 R3 R4 R5 R6].
  destruct (free_dentry_ok s2 p d f2 inv root_p Ht2 Hc2 Hd2 Hf2 Hs2 Ep En) as (s' & E' & A1 & A2 & A3 & A4 & A5 & A6 & A7 & A8 & A9 & A10 & A11 & A12 & A13).
  - by apply (no_children s2 (Some p) p d f2).
  - done.
  - done.
  - done.
  - by rewrite O8.
  - by rewrite O9.
  - intros g. rewrite O8, R4, <-!elem_of_dom. by rewrite (fmap_dom_eq _ _ _ O2).
  - intros x. rewrite O9, R5, <-!elem_of_dom. by rewrite (fmap_dom_eq _ _ _ O1).
  - intros g f0 Hg. destruct (fmap_eq_at _ _ _ _ _ O2 Hg) as (f1 & Hf1 & E1). assert (local_fh f1 = local_fh f0) as <- by (by injection E1). by apply (R6 g).
  - exists s'. split; [exact E'|]. repeat (split; [done|]). split; [rewrite A5, !fmap_delete, O1; done|]. split; [congruence|]. split; [congruence|]. split; [congruence|].
    split; [congruence|]. split.
    + intros g f'. rewrite A6. unfold fhs_after. intros Hg. assert (fhs s2 !! g = Some f') as Hg2 by (decide_in Hg; [by apply lookup_delete_Some in Hg as [_ Hg]|done]).
      destruct (fmap_eq_at _ _ _ _ _ O2 Hg2) as (f1 & Hf1 & E1). by exists f1.
    + split; [congruence|]. rewrite A13, O7. assert (local_fh f2 = local_fh f) as -> by (by injection Eg). done.
Qed.

Lemma is_dir_subs s p d f : tree s None -> dents s !! p = Some d -> fhs s !! de_fh d = Some f -> subdentries f <> [] -> is_dir f = true.
Proof.
  intros Ht Hd Hf Hs. destruct (subdentries f) as [|x l] eqn:El; [done|].
  destruct (to_down _ _ _ _ _ Ht (de_fh d) (fn_of f) 0%nat x) as (t & q & tq & G1 & G2 & G3 & G4 & G5); [by apply fmap_lookup_Some|cbn; by rewrite El|].
  destruct (to_up _ _ _ _ _ Ht _ _ _ G1 G3) as (tq' & f' & K1 & K2 & K3 & _). rewrite G4 in K1. injection K1 as <-. rewrite G5, lookup_fmap, Hf in K2. by injection K2 as <-.
Qed.

Lemma fmap_at {A B} (f : A -> B) (m m' : gmap ptr A) x : f <$> m = f <$> m' -> f <$> m !! x = f <$> m' !! x.
Proof. intros E. by rewrite <-!lookup_fmap, E. Qed.

Lemma destroy_self_ok subs s p d f fh clear inv root_p : tables_ok s -> dents s !! p = Some d -> fhs s !! de_fh d = Some f -> subdentries f = [] ->
  de_users d = 0 -> is_owned (owned s) p = false -> (de_parent d = None -> clear = true) ->
  (forall s1 f1, fh_of s1 p = Ok f1 -> is_dir f1 = true -> subdentries f1 = [] -> subs s1 = Ok (s1, true)) ->
  exists s', destroy_self subs s p fh clear inv root_p = Ok s' /\ tables_ok s' /\ gone s s' (eq p) /\ vols_after s p (vols s').
Proof.
  intros (Ht & Hr & Hc & Hrs & Hl) Hd Hf Hs Hu Ho Hcl Hsubs. unfold destroy_self. rewrite (de_at_eq _ _ _ Hd). cbn [mbind res_bind].
  rewrite (fh_at_eq _ _ _ Hf). cbn [mbind res_bind]. rewrite (Hl _ _ Hd), andb_false_r. unfold unlock_owned. rewrite Ho. cbn [mbind res_bind].
  rewrite (de_at_eq _ _ _ Hd). cbn [mbind res_bind]. rewrite Hu, (Hl _ _ Hd). cbn [Z.ltb Z.compare].
  set (d1 := with_users d 0 true). set (s1 := set_de s p d1).
  assert (dents s1 !! p = Some d1) as Hd1 by apply lookup_insert_eq.
  assert (calm s1) as Hc1.
  { apply (calm_ext s); [done| | |done|done|done].
    - by apply (fmap_insert_same _ _ _ d).
    - intros x d' q Hx Eq. unfold s1 in Hx. cbn in Hx. apply lookup_insert_Some in Hx as [[<- <-]|[_ Hx]]; [by apply (ca_parent _ Hc p d)|by apply (ca_parent _ Hc x d')]. }
  destruct (update_ok s1 p d1 Hc1 Hd1) as (s2 & d2 & E2 & Hs2 & Hc2 & Hd2 & En2 & Hx2). rewrite E2. cbn [mbind res_bind].
  pose proof (sim_fields _ _ Hs2) as (S1 & S2 & S3 & S4 & S5 & S6 & S7 & S8 & S9 & S10 & S11 & S12 & S13 & S14 & S15 & S16).
  destruct (sim_at' _ _ _ _ Hs2 Hd2) as (d1' & Hd1' & Ee). rewrite Hd1 in Hd1'. injection Hd1' as <-. apply erase_fields in Ee as (F1 & F2 & F3 & F4 & F5 & F6 & F7 & F8).
  assert (tree s2 None) as Ht2.
  { unfold tree. rewrite S14, S1, S4, S5. unfold s1. cbn. by rewrite (fmap_insert_same tn_of _ _ d). }
  assert (rings s2 None) as Hr2.
  { unfold rings. rewrite S15, S1, S3. unfold s1. cbn. by rewrite (fmap_insert_same rn_of _ _ d). }
  assert (rest s2) as Hrs2.
  { apply (sim_rest s1); [done|]. destruct Hrs as [R1 R2 R3 R4 R5 R6]. split; [exact R1|exact R2|exact R3|exact R4| |exact R6].
    intros x. etransitivity; [exact (R5 x)|]. unfold s1. cbn. rewrite lookup_insert_is_Some'. split; [auto|]. intros [<-|?]; [by eexists|done]. }
  assert (fhs s2 !! de_fh d2 = Some f) as Hf2 by (rewrite S1, F1; done). rewrite (fh_of_eq _ _ _ _ Hd2 Hf2). cbn [mbind res_bind].
  assert ((if is_dir f then subs s2 else Ok (s2, true)) = Ok (s2, true)) as ->.
  { destruct (is_dir f) eqn:Edir; [|done]. apply (Hsubs s2 f); [by apply (fh_of_eq _ _ d2)|done|done]. }
  cbn [mbind res_bind negb].
  destruct (detach_ok s2 p d2 f clear Ht2 Hc2 Hd2 Hf2) as (s3 & d3 & E3 & Ht3 & Hc3 & Hd3 & Ep3 & En3 & Ef3 & _ & Hr3 & Hrs3 & Hv3 & Eb3 & Efb3 & Hx3 & O3 & N3 & C3 & J3 & I3 & Rs3);
    [apply En2; by left|rewrite F2; exact Hcl|].
  rewrite E3. cbn [mbind res_bind].
  destruct (fmap_eq_at _ _ _ _ _ (eq_sym Efb3) Hf2) as (f3 & Hf3 & Eg3). rewrite <-Ef3 in Hf3.
  destruct (remove_ok s3 p d3 f3 inv root_p Ht3 (Hr3 _ Hr2) Hc3 (Hrs3 Hrs2) Hd3 Hf3) as (s' & E' & A1 & A2 & A3 & A4 & A5 & A6 & A7 & A8 & A9 & A10 & _); [|done|done|].
  { destruct (subdentries f3) as [|x l] eqn:El; [done|]. exfalso.
    destruct (to_down _ _ _ _ _ Ht3 (de_fh d3) (fn_of f3) 0%nat x) as (t & q & tq & G1 & G2 & G3 & G4 & G5); [by apply fmap_lookup_Some|cbn; by rewrite El|].
    destruct (decide (x = p)) as [->|Hxp]; [rewrite lookup_fmap, Hd3 in G1; injection G1 as <-; cbn in G3; congruence|].
    rewrite lookup_fmap in G1. destruct (dents s3 !! x) as [dx|] eqn:Hx; [|done]. injection G1 as <-. cbn in G3.
    assert (core s2 x = Some (de_fh dx, Some q, de_name dx)) as Hcx by (rewrite <-Hx3 by done; unfold core; rewrite Hx; cbn; by rewrite G3).
    unfold core in Hcx. destruct (dents s2 !! x) as [dx2|] eqn:Hx2'; [|done]. cbn in Hcx. injection Hcx as K1 K2 K3.
    rewrite lookup_fmap in G4. destruct (dents s3 !! q) as [dq|] eqn:Hq; [|done]. injection G4 as <-. cbn in G5.
    destruct (fmap_eq_at _ _ _ _ _ Eb3 Hq) as (dq2 & Hq2 & Eq2). assert (de_fh dq2 = de_fh dq) as Eqf by (by injection Eq2).
    destruct (to_up _ _ _ _ _ Ht2 x (tn_of dx2) q) as (tq' & f' & M1 & M2 & _ & M4); [by apply fmap_lookup_Some|done|].
    rewrite lookup_fmap, Hq2 in M1. injection M1 as <-. cbn in M2. rewrite Eqf, G5, Ef3, lookup_fmap, Hf2 in M2. injection M2 as <-. cbn in M4. by rewrite Hs in M4. }
  exists s'. split; [exact E'|].
  assert (forall x, x <> p -> forall d', dents s' !! x = Some d' -> exists d0, dents s !! x = Some d0 /\ de_users d' = de_users d0 /\ de_deleted d' = de_deleted d0) as Hback.
  { intros x Hx d' Hd'. destruct (fmap_eq_at _ _ _ _ _ A5 Hd') as (d4 & [_ Hd4]%lookup_delete_Some & G1). destruct (fmap_eq_at _ _ _ _ _ Eb3 Hd4) as (d5 & Hd5 & G2).
    rewrite Hx2 in Hd5 by done. unfold s1 in Hd5. cbn in Hd5. rewrite lookup_insert_ne in Hd5 by done. exists d5. split; [done|]. injection G1. injection G2. intros. split; congruence. }
  assert (dents s' !! p = None) as Hgone.
  { apply not_elem_of_dom. rewrite (fmap_dom_eq _ _ _ A5). apply not_elem_of_dom, lookup_delete_eq. }
  split; [|split].
  - split; [done|]. split; [done|]. split; [done|]. split; [done|]. intros x d' Hd'. destruct (decide (x = p)) as [->|Hne]; [congruence|].
    destruct (Hback _ Hne _ Hd') as (d0 & Hd0 & _ & ->). by apply (Hl x).
  - split.
    + by intros x <-.
    + intros x Hx. assert (x <> p) as Hxp by congruence. split.
      * transitivity (core s3 x).
        { unfold core. pose proof (fmap_at _ _ _ x A5) as Ex. rewrite lookup_delete_ne in Ex by congruence.
          destruct (dents s' !! x) as [a|], (dents s3 !! x) as [b|]; try done. cbn in *. injection Ex. intros. congruence. }
        rewrite Hx3 by done. rewrite (sim_core _ _ x Hs2). unfold core, s1. cbn. by rewrite lookup_insert_ne.
      * transitivity (de_users <$> dents s3 !! x).
        { pose proof (fmap_at _ _ _ x A5) as Ex. rewrite lookup_delete_ne in Ex by congruence.
          destruct (dents s' !! x) as [a|], (dents s3 !! x) as [b|]; try done. cbn in *. injection Ex. intros. congruence. }
        transitivity (de_users <$> dents s2 !! x); [|rewrite Hx2 by done; unfold s1; cbn; by rewrite lookup_insert_ne].
        pose proof (fmap_at _ _ _ x Eb3) as Ex. destruct (dents s3 !! x) as [a|], (dents s2 !! x) as [b|]; try done. cbn in *. injection Ex. intros. congruence.
    + rewrite A7, O3, S6. done.
    + rewrite A8, N3, S7. done.
    + rewrite A9, Rs3, S8. done.
    + intros x d' Hd'. destruct (decide (x = p)) as [->|Hne]; [congruence|]. destruct (Hback _ Hne _ Hd') as (d0 & Hd0 & _). by eexists.
    + intros g f' Hg. destruct (A10 _ _ Hg) as (f4 & Hf4 & G1). destruct (fmap_eq_at _ _ _ _ _ Efb3 Hf4) as (f5 & Hf5 & G2). rewrite S1 in Hf5. exists f5. split; [done|].
      destruct f', f4, f5. unfold gbase, fbase, ifhbase, with_subs, with_ndentries in *. cbn in *. injection G1. injection G2. intros. congruence.
  - intros d0 f0 Hd0 Hf0. rewrite Hd in Hd0. injection Hd0 as <-. rewrite Hf in Hf0. injection Hf0 as <-. rewrite A6.
    specialize (Hv3 d2 f Hd2 Hf2). rewrite F2 in Hv3. cbn in Hv3. rewrite S5 in Hv3. exact Hv3.
Qed.

(** *** Facts about what is gone *)

Abbreviation above s := (tn_of <$> dents s).

Lemma gone_trans s s1 s2 X Y : gone s s1 X -> gone s1 s2 Y -> gone s s2 (fun x => X x \/ Y x).
Proof.
  intros [A1 A2 A3 A4 A5 A6 A7] [B1 B2 B3 B4 B5 B6 B7]. split; [| |congruence|congruence|congruence| |].
  - intros x [Hx|Hx]; [|by apply B1]. destruct (dents s2 !! x) as [d|] eqn:E; [|done]. destruct (B6 _ _ E) as [d1 Hd1]. rewrite A1 in Hd1; done.
  - intros x Hx. destruct (A2 x) as [E1 E2]; [tauto|]. destruct (B2 x) as [E3 E4]; [tauto|]. split; congruence.
  - intros x d' Hd'. destruct (B6 _ _ Hd') as [d1 Hd1]. by apply (A6 x d1).
  - intros g f' Hg. destruct (B7 _ _ Hg) as (f1 & Hf1 & E1). destruct (A7 _ _ Hf1) as (f0 & Hf0 & E0). exists f0. split; [done|congruence].
Qed.

Lemma gone_ext s s' X Y : gone s s' X -> (forall x, X x <-> Y x) -> gone s s' Y.
Proof. intros [A1 A2 A3 A4 A5 A6 A7] E. split; try done; intros x; rewrite <-E; [apply A1|apply A2]. Qed.

Lemma gone_sim s s1 s2 X : gone s s1 X -> sim s1 s2 -> gone s s2 X.
Proof.
  intros [A1 A2 A3 A4 A5 A6 A7] Hs. pose proof (sim_fields _ _ Hs) as (S1 & _ & _ & _ & _ & S6 & S7 & S8 & _).
  assert (forall x, core s2 x = core s1 x) as Ec by (intros x; by apply sim_core).
  split; [| |congruence|congruence|congruence| |].
  - intros x Hx. specialize (Ec x). unfold core in Ec. rewrite (A1 _ Hx) in Ec. by destruct (dents s2 !! x).
  - intros x Hx. destruct (A2 x Hx) as [E1 E2]. split; [by rewrite Ec|]. rewrite <-E2. destruct (dents s2 !! x) as [d2|] eqn:E.
    + destruct (sim_at' _ _ _ _ Hs E) as (d1 & Hd1 & (_ & _ & _ & _ & _ & _ & Eu & _)%erase_fields). rewrite Hd1. cbn. congruence.
    + specialize (Ec x). unfold core in Ec. rewrite E in Ec. by destruct (dents s1 !! x).
  - intros x d2 Hd2. destruct (sim_at' _ _ _ _ Hs Hd2) as (d1 & Hd1 & _). by apply (A6 x d1).
  - intros g f' Hg. rewrite S1 in Hg. by apply A7.
Qed.

Lemma gone_none s s' X : (forall x, ~ X x) -> sim s s' -> gone s s' X.
Proof.
  intros Hx Hs. assert (gone s s X) as Hg.
  { split; [intros x HX; by apply Hx in HX|done|done|done|done|intros x d' Hd'; by eexists|intros g f' Hf'; by exists f']. }
  by eapply gone_sim.
Qed.

Lemma above_at s x t : above s !! x = Some t -> exists d, dents s !! x = Some d /\ t = tn_of d.
Proof. rewrite lookup_fmap. destruct (dents s !! x) as [d|]; [|done]. intros [= <-]. by exists d. Qed.

(** A chain of parents survives when its end does. *)
Lemma gone_up s s' X x d' q : gone s s' X -> (dents s' !! x = Some d' -> ~ X x) -> dents s' !! x = Some d' -> de_parent d' = Some q ->
  exists d, dents s !! x = Some d /\ de_parent d = Some q.
Proof.
  intros Hg Hx Hd' Eq. destruct (go_keep _ _ _ Hg x (Hx Hd')) as [E _]. unfold core in E. rewrite Hd' in E. cbn in E.
  destruct (dents s !! x) as [d|]; [|done]. exists d. split; [done|]. injection E. intros. congruence.
Qed.

Lemma gone_alive s s' X x d' : gone s s' X -> dents s' !! x = Some d' -> ~ X x.
Proof. intros Hg Hd' Hx. rewrite (go_out _ _ _ Hg _ Hx) in Hd'. done. Qed.

Lemma gone_entry s s' X x d : gone s s' X -> ~ X x -> dents s !! x = Some d ->
  exists d', dents s' !! x = Some d' /\ de_fh d' = de_fh d /\ de_parent d' = de_parent d /\ de_name d' = de_name d /\ de_users d' = de_users d.
Proof.
  intros Hg Hx Hd. destruct (go_keep _ _ _ Hg x Hx) as [E1 E2]. unfold core in E1. rewrite Hd in E1, E2. cbn in E1, E2.
  destruct (dents s' !! x) as [d'|]; [|done]. exists d'. cbn in E1, E2. injection E1. injection E2. intros. done.
Qed.

Lemma under_gone s s' c p x : gone s s' (under (above s) c) -> ~ under (above s) c p -> is_Some (dents s !! p) ->
  under (above s') p x <-> under (above s) p x /\ ~ under (above s) c x.
Proof.
  intros Hg Hp [dp Hdp]. split.
  - induction 1 as [|x t q Ht Eq Hu [IH1 IH2]]; [split; [constructor|done]|]. destruct (above_at _ _ _ Ht) as (d' & Hd' & ->). cbn in Eq.
    pose proof (gone_alive _ _ _ _ _ Hg Hd') as Hx. split; [|done]. destruct (gone_up _ _ _ _ _ _ Hg (fun _ => Hx) Hd' Eq) as (d & Hd & Eq').
    apply (under_step _ _ x (tn_of d) q); [by apply fmap_lookup_Some|done|done].
  - intros [Hu Hx]. induction Hu as [|x t q Ht Eq Hu IH]; [constructor|]. destruct (above_at _ _ _ Ht) as (d & Hd & ->). cbn in Eq.
    destruct (gone_entry _ _ _ _ _ Hg Hx Hd) as (d' & Hd' & _ & Ep & _). apply (under_step _ _ x (tn_of d') q); [by apply fmap_lookup_Some|cbn; congruence|].
    apply IH. intros Hq. apply Hx. by eapply under_step.
Qed.

Lemma depth_gone s s' X x n : gone s s' X -> depth (above s') x n -> depth (above s) x n.
Proof.
  intros Hg Hn. eapply depth_ext; [exact Hn|]. intros y t Ht _. destruct (above_at _ _ _ Ht) as (d' & Hd' & ->).
  destruct (go_keep _ _ _ Hg y (gone_alive _ _ _ _ _ Hg Hd')) as [E _]. unfold core in E. rewrite Hd' in E. cbn in E.
  destruct (dents s !! y) as [d|] eqn:Hd; [|done]. exists (tn_of d). split; [by apply fmap_lookup_Some|]. cbn. injection E. intros. congruence.
Qed.

Lemma depth_kept s s' c x n : gone s s' (under (above s) c) -> ~ under (above s) c x -> depth (above s) x n -> depth (above s') x n.
Proof.
  intros Hg Hx Hn. eapply depth_ext; [exact Hn|]. intros y t Ht Hu. destruct (above_at _ _ _ Ht) as (d & Hd & ->).
  assert (~ under (above s) c y) as Hy by (intros Hc; apply Hx; by eapply under_trans).
  destruct (gone_entry _ _ _ y d Hg Hy Hd) as (d' & Hd' & _ & Ep & _). exists (tn_of d'). split; [by apply fmap_lookup_Some|done].
Qed.

(** A directory is the only entry of its handle. *)
Lemma dir_unique s p d f : rings s None -> dents s !! p = Some d -> fhs s !! de_fh d = Some f -> is_dir f = true ->
  (forall y dy, dents s !! y = Some dy -> de_fh dy = de_fh d -> y = p) /\ dentry_htab s !! key_of (local_fh f) = Some p.
Proof.
  intros Hr Hd Hf Hdir. destruct (ring_find p (rn_of d) (gn_of f) Hr) as (l & (A1 & A2 & A3 & A4 & A5 & A6 & A7) & [h Hh]); [by apply fmap_lookup_Some|by apply fmap_lookup_Some|].
  cbn in A2, A5, A7, Hh. specialize (A7 Hdir). destruct l; [|cbn in A7; lia]. split.
  - intros y dy Hy E. assert (y ∈ [p]) as Hin by (apply A2; split; [by intros []|]; exists (rn_of dy); split; [by apply fmap_lookup_Some|done]).
    by apply list_elem_of_singleton in Hin.
  - rewrite Hh in A5. apply list_elem_of_singleton in A5. congruence.
Qed.

Lemma sim_tables s s' : sim s s' -> calm s' -> tables_ok s -> tables_ok s'.
Proof.
  intros Hs Hc (Ht & Hr & _ & Hrs & Hl). split; [by eapply sim_tree|]. split; [by eapply sim_rings|]. split; [done|]. split; [by eapply sim_rest|by eapply sim_live].
Qed.

(** *** The whole subtree *)

(** No entry under [p] is locked. *)
Definition idle s (p : ptr) : Prop := forall x d, under (above s) p x -> dents s !! x = Some d -> de_users d = 0 /\ is_owned (owned s) x = false.

Definition shallow s (B : nat) : Prop := forall x m, depth (above s) x m -> (m < B)%nat.

Lemma find_again_ok s p d f : tables_ok s -> dents s !! p = Some d -> fhs s !! de_fh d = Some f -> is_dir f = true ->
  exists s', find_again s (local_fh f) p = Ok (s', true) /\ sim s s' /\ tables_ok s'.
Proof.
  intros Hok Hd Hf Hdir. pose proof Hok as (Ht & Hr & Hc & Hrs & Hl). destruct (dir_unique s p d f Hr Hd Hf Hdir) as [_ Hh].
  unfold find_again, dentry_lookup. rewrite (proj2 (Z.eqb_neq _ _) (rs_gen _ Hrs _ _ Hf)), Hh. unfold acquire_dentry. rewrite (de_at_eq _ _ _ Hd). cbn [mbind res_bind].
  rewrite (Hl _ _ Hd). destruct (update_ok s p d Hc Hd) as (s' & d' & E & Hs & Hc' & _). rewrite E. cbn [mbind res_bind]. exists s'.
  split; [|split; [done|by eapply sim_tables]]. destruct (size (dents s')); cbn [in_ring]; by rewrite decide_True.
Qed.

Lemma idle_gone s s' c p : gone s s' (under (above s) c) -> ~ under (above s) c p -> is_Some (dents s !! p) -> idle s p -> idle s' p.
Proof.
  intros Hg Hc Hp Hi x d' Hu Hd'. apply (under_gone _ _ _ _ _ Hg Hc Hp) in Hu as [Hu Hx]. destruct (go_sub _ _ _ Hg _ _ Hd') as [d Hd].
  destruct (gone_entry _ _ _ _ _ Hg Hx Hd) as (d2 & Hd2 & _ & _ & _ & Eu). destruct (Hi x d Hu Hd) as [E1 E2]. rewrite (go_owned _ _ _ Hg). split; [congruence|done].
Qed.

Lemma children_of s p d f : tables_ok s -> dents s !! p = Some d -> fhs s !! de_fh d = Some f -> is_dir f = true ->
  forall x, x ∈ subdentries f <-> exists dx, dents s !! x = Some dx /\ de_parent dx = Some p.
Proof.
  intros (Ht & Hr & _) Hd Hf Hdir x. destruct (dir_unique s p d f Hr Hd Hf Hdir) as [Hone _].
  rewrite (subs_parent None p (tn_of d) (fn_of f) x Ht (fmap_lookup_Some _ _ _ _ Hd) (fmap_lookup_Some _ _ _ _ Hf)).
  - split; [intros (t & Htx & E); destruct (above_at _ _ _ Htx) as (dx & Hx & ->); by exists dx|].
    intros (dx & Hx & E). exists (tn_of dx). split; [by apply fmap_lookup_Some|done].
  - intros y ty Hy E. destruct (above_at _ _ _ Hy) as (dy & Hy' & ->). by apply (Hone y dy).
Qed.

Lemma subs_size s p d f : tables_ok s -> dents s !! p = Some d -> fhs s !! de_fh d = Some f -> (length (subdentries f) <= size (dents s))%nat.
Proof.
  intros (Ht & _) Hd Hf. pose proof (tree_nodup None (de_fh d) (fn_of f) Ht (fmap_lookup_Some _ _ _ _ Hf)) as Hnd. cbn in Hnd.
  rewrite <-(size_list_to_set (C := gset ptr) (subdentries f)) by done. rewrite <-size_dom. apply subseteq_size.
  intros x [i Hi]%elem_of_list_to_set%list_elem_of_lookup. destruct (to_down _ _ _ _ _ Ht (de_fh d) (fn_of f) i x (fmap_lookup_Some _ _ _ _ Hf) Hi) as (t & _ & _ & Hx & _).
  destruct (above_at _ _ _ Hx) as (dx & Hdx & _). apply elem_of_dom. by eexists.
Qed.

Section loop.
Context (destroy_child : tables (H := H) -> ptr -> res (tables (H := H))) (p : ptr) (n : nat) (B : nat).
Hypothesis child_ok : forall s c, tables_ok s -> depth (above s) c (S n) -> shallow s B -> idle s c -> 
  exists s', destroy_child s c = Ok s' /\ tables_ok s' /\ gone s s' (under (above s) c) /\ vols s' = vols s.

Lemma destroy_subs_ok fuel : forall s d f, tables_ok s -> dents s !! p = Some d -> fhs s !! de_fh d = Some f -> is_dir f = true ->
  depth (above s) p n -> shallow s B -> idle s p -> (length (subdentries f) <= fuel)%nat ->
  exists s', destroy_subdentries destroy_child fuel s p (local_fh f) = Ok (s', true) /\ tables_ok s' /\
    gone s s' (fun x => under (above s) p x /\ x <> p) /\ vols s' = vols s /\
    exists d' f', dents s' !! p = Some d' /\ fhs s' !! de_fh d' = Some f' /\ subdentries f' = [].
Proof.
  induction fuel as [|fuel IH]; intros s d f Hok Hd Hf Hdir Hn HB Hi Hlen; pose proof Hok as (Ht & Hr & Hc & Hrs & Hl);
    pose proof (children_of s p d f Hok Hd Hf Hdir) as Hsub;
    cbn [destroy_subdentries]; rewrite (fh_of_eq _ _ _ _ Hd Hf); cbn [mbind res_bind]; rewrite Hdir; cbn [negb];
    destruct (last (subdentries f)) as [c|] eqn:El.
  2, 4: apply last_None in El; exists s; split; [done|]; split; [done|]; split; [|split; [done|by exists d, f]].
  2, 3: apply gone_none; [|apply sim_refl]; intros x [Hu Hx]; induction Hu as [|x t q Htx Eq Hu IHu]; [done|].
  2, 3: destruct (above_at _ _ _ Htx) as (dx & Hdx & ->); cbn in Eq; destruct (decide (q = p)) as [->|Hq]; [|by apply IHu].
  2, 3: assert (x ∈ subdentries f) as Hin by (apply Hsub; by exists dx); rewrite El in Hin; by apply elem_of_nil in Hin.
  { destruct (subdentries f); [done|cbn in Hlen; lia]. }
  assert (c ∈ subdentries f) as Hcin by (rewrite last_lookup in El; by eapply list_elem_of_lookup_2).
  destruct (proj1 (Hsub c) Hcin) as (dc & Hdc & Epc).
  assert (depth (above s) c (S n)) as Hnc by (eapply depth_below; [by apply fmap_lookup_Some|exact Epc|done]).
  assert (under (above s) p c) as Hpc by (eapply under_step; [by apply fmap_lookup_Some|exact Epc|constructor]).
  assert (idle s c) as Hic by (intros x dx Hu; apply Hi; by eapply under_trans).
  assert (~ under (above s) c p) as Hncp by (intros Hcp; destruct (under_depth _ _ _ _ _ Hcp Hnc Hn); lia).
  destruct (child_ok s c Hok Hnc HB Hic) as (s1 & E1 & Hok1 & Hg1 & Hv1). rewrite E1. cbn [mbind res_bind].
  destruct (gone_entry _ _ _ _ _ Hg1 Hncp Hd) as (d1 & Hd1 & Ef1 & _). pose proof Hok1 as (Ht1 & Hr1 & Hc1 & _).
  destruct (ca_fh _ Hc1 _ _ Hd1) as [f1 Hf1]. destruct (go_fh _ _ _ Hg1 _ _ Hf1) as (f0 & Hf0 & Eb). rewrite Ef1, Hf in Hf0. injection Hf0 as <-.
  assert (local_fh f1 = local_fh f /\ is_dir f1 = is_dir f) as [El1 Ed1] by (split; [by injection Eb|unfold is_dir; by injection Eb as _ -> _]).
  destruct (find_again_ok s1 p d1 f1 Hok1 Hd1 Hf1) as (s2 & E2 & Hs2 & Hok2); [congruence|]. rewrite <-El1, E2. cbn [mbind res_bind].
  destruct (sim_at _ _ _ _ Hs2 Hd1) as (d2 & Hd2 & (Ef2 & _)%erase_fields). pose proof (sim_fields _ _ Hs2) as (S1 & _ & _ & _ & S5 & _ & _ & _ & _ & _ & _ & _ & _ & S14 & _).
  assert (fhs s2 !! de_fh d2 = Some f1) as Hf2 by (rewrite S1, Ef2; done).
  pose proof (gone_sim _ _ _ _ Hg1 Hs2) as Hg2.
  assert (is_Some (dents s !! p)) as Hsp by (by eexists).
  destruct (IH s2 d2 f1 Hok2 Hd2 Hf2) as (s' & E' & Hok' & Hg' & Hv' & Hlast).
  - congruence.
  - by apply (depth_kept s s2 c).
  - intros x m Hm. apply (HB x m). by eapply depth_gone.
  - by apply (idle_gone s s2 c).
  - assert (length (subdentries f1) < length (subdentries f))%nat; [|lia].
    pose proof (children_of s1 p d1 f1 Hok1 Hd1 Hf1 ltac:(congruence)) as Hsub1.
    pose proof (tree_nodup None _ _ Ht1 (fmap_lookup_Some fn_of _ _ _ Hf1)) as Hnd1. cbn in Hnd1.
    assert (c ∉ subdentries f1) as Hc1n. { intros (dc1 & Hdc1 & _)%Hsub1. rewrite (go_out _ _ _ Hg1 c) in Hdc1; [done|constructor]. }
    assert (NoDup (c :: subdentries f1)) as Hnd by (by constructor).
    apply (Nat.lt_le_trans _ (length (c :: subdentries f1))); [cbn; lia|]. apply submseteq_length, NoDup_submseteq; [done|].
    intros x [->|Hx]%elem_of_cons; [done|]. apply Hsub1 in Hx as (dx & Hdx & Epx). apply Hsub.
    by apply (gone_up s s1 _ x dx p Hg1 (fun H => gone_alive _ _ _ _ _ Hg1 H)).
  - exists s'. split; [exact E'|]. split; [done|]. split; [|split; [congruence|exact Hlast]].
    eapply gone_ext; [by eapply gone_trans|]. intros x. cbn. rewrite (under_gone _ _ _ _ x Hg2 Hncp Hsp). split.
    + intros [Hx|[[Hx1 Hx2] Hx3]]; [|done]. split; [by eapply under_trans|]. intros ->. done.
    + intros [Hx1 Hx2]. assert (exists m, depth (above s) x m) as [m Hm].
      { inversion Hx1 as [|? t q Htx]; subst; [done|]. apply (to_depth _ _ _ _ _ Ht). by eexists. }
      destruct (under_dec (above s) c x m Hm) as [Hu|Hu]; [by left|]. right. done.
Qed.
End loop.

Lemma destroy_tree_ok B inv fuel : forall s p n clear root_p, tables_ok s -> depth (above s) p n -> shallow s B -> (B <= fuel + n)%nat -> idle s p ->
  (forall d, dents s !! p = Some d -> de_parent d = None -> clear = true) ->
  exists s', internal_dentry_destroy fuel s p clear inv root_p = Ok s' /\ tables_ok s' /\ gone s s' (under (above s) p) /\ vols_after s p (vols s').
Proof.
  induction fuel as [|fuel IH]; intros s p n clear root_p Hok Hn HB Hf Hi Hcl; [specialize (HB p n Hn); lia|].
  pose proof Hok as (Ht & Hr & Hc & Hrs & Hl). destruct (depth_some _ _ _ Hn) as [t Htp]. destruct (above_at _ _ _ Htp) as (d & Hd & _). clear Htp t.
  destruct (ca_fh _ Hc _ _ Hd) as [f Hff]. cbn [internal_dentry_destroy]. rewrite (fh_of_eq _ _ _ _ Hd Hff). cbn [mbind res_bind].
  set (child := fun s c => internal_dentry_destroy fuel s c false inv false).
  assert (forall s c, tables_ok s -> depth (above s) c (S n) -> shallow s B -> idle s c ->
    exists s', child s c = Ok s' /\ tables_ok s' /\ gone s s' (under (above s) c) /\ vols s' = vols s) as Hchild.
  { intros s1 c Hok1 Hn1 HB1 Hi1. inversion Hn1 as [|? t q m Htc Eq Hm]; subst. destruct (above_at _ _ _ Htc) as (dc & Hdc & ->). cbn in Eq.
    destruct (IH s1 c (S n) false false Hok1 Hn1 HB1) as (s' & E & Hok' & Hg & Hv); [lia|done|intros d0 Hd0 E0; congruence|]. exists s'. split; [done|]. split; [done|]. split; [done|].
    destruct Hok1 as (_ & _ & Hc1 & _). destruct (ca_fh _ Hc1 _ _ Hdc) as [fc Hfc]. specialize (Hv _ _ Hdc Hfc). by rewrite Eq in Hv. }
  assert (exists s1, (if is_dir f then destroy_subdentries child (S (size (dents s))) s p (local_fh f) else Ok (s, true)) = Ok (s1, true) /\ tables_ok s1 /\
    gone s s1 (fun x => under (above s) p x /\ x <> p) /\ vols s1 = vols s /\ exists d1 f1, dents s1 !! p = Some d1 /\ fhs s1 !! de_fh d1 = Some f1 /\ subdentries f1 = [])
    as (s1 & E1 & Hok1 & Hg1 & Hv1 & d1 & f1 & Hd1 & Hf1 & Hs1).
  { destruct (is_dir f) eqn:Edir.
    - apply (destroy_subs_ok child p n B Hchild (S (size (dents s))) s d f); try done. pose proof (subs_size s p d f Hok Hd Hff). lia.
    - exists s. split; [done|]. split; [done|]. assert (subdentries f = []) as Es.
      { destruct (decide (subdentries f = [])) as [|Hne]; [done|]. by rewrite (is_dir_subs s p d f Ht Hd Hff Hne) in Edir. }
      split; [|split; [done|by exists d, f]]. apply gone_none; [|apply sim_refl]. intros x [Hu Hx]. induction Hu as [|x t q Htx Eq Hu IHu]; [done|].
      destruct (above_at _ _ _ Htx) as (dx & Hdx & ->). cbn in Eq. destruct (decide (q = p)) as [->|Hq]; [|by apply IHu].
      by apply (no_children s None p d f Ht Hd Hff Es x dx). }
  rewrite E1. cbn [mbind res_bind negb].
  assert (~ (under (above s) p p /\ p <> p)) as Hpp by (by intros [_ ?]).
  destruct (gone_entry _ _ _ _ _ Hg1 Hpp Hd) as (d1' & Hd1' & Efd & Epd & _ & Eud). rewrite Hd1 in Hd1'. injection Hd1' as <-.
  destruct (go_fh _ _ _ Hg1 _ _ Hf1) as (f0 & Hf0 & Eb). rewrite Efd, Hff in Hf0. injection Hf0 as <-.
  destruct (Hi p d (under_refl _ _) Hd) as [Hu Ho].
  destruct (destroy_self_ok (fun s => destroy_subdentries child (S (size (dents s))) s p (local_fh f)) s1 p d1 f1 (local_fh f) clear inv root_p Hok1 Hd1 Hf1 Hs1)
    as (s' & E' & Hok' & Hg' & Hv').
  - congruence.
  - by rewrite (go_owned _ _ _ Hg1).
  - rewrite Epd. by apply Hcl.
  - intros s2 f2 Ef2 Edir2 Es2. cbn [destroy_subdentries]. rewrite Ef2. cbn [mbind res_bind]. by rewrite Edir2, Es2.
  - exists s'. split; [exact E'|]. split; [done|]. split.
    + eapply gone_ext; [by eapply gone_trans|]. intros x. cbn. split; [intros [[? ?]|<-]; [done|constructor]|]. intros Hx.
      destruct (decide (x = p)) as [->|Hne]; [by right|by left].
    + intros d0 f0 Hd0 Hf0. rewrite Hd in Hd0. injection Hd0 as <-. rewrite Hff in Hf0. injection Hf0 as <-. specialize (Hv' _ _ Hd1 Hf1).
      rewrite Epd, Hv1 in Hv'. assert (local_fh f1 = local_fh f) as El by (by injection Eb). by rewrite El in Hv'.
Qed.

Lemma depth_short s p n : depth (above s) p n -> (n < size (dents s))%nat.
Proof.
  intros Hn. assert (exists l, NoDup l /\ length l = S n /\ forall x, x ∈ l -> is_Some (dents s !! x) /\ exists m, depth (above s) x m /\ (m <= n)%nat) as (l & Hnd & El & Hl).
  { induction Hn as [p t Ht E|p t q n Ht E Hn (l & Hnd & El & Hl)]; destruct (above_at _ _ _ Ht) as (d & Hd & _).
    - exists [p]. split; [apply NoDup_singleton|]. split; [done|]. intros x ->%list_elem_of_singleton. split; [by eexists|]. exists O. split; [by econstructor|lia].
    - exists (p :: l). assert (depth (above s) p (S n)) as Hp by (by econstructor). split; [|split; [cbn; by rewrite El|]].
      + constructor; [|done]. intros (_ & m & Hm & Hle)%Hl. pose proof (depth_fun _ _ _ _ Hm Hp). lia.
      + intros x [->|Hx]%elem_of_cons; [split; [by eexists|]; by exists (S n)|]. destruct (Hl x Hx) as (H1' & m & Hm & Hle). split; [done|]. exists m. split; [done|lia]. }
  assert (size (list_to_set l : gset ptr) = S n) as Es by (rewrite size_list_to_set; done).
  assert ((list_to_set l : gset ptr) ⊆ dom (dents s)) as Hsub.
  { intros x Hx%elem_of_list_to_set. apply elem_of_dom. by apply Hl. }
  apply subseteq_size in Hsub. rewrite size_dom in Hsub. lia.
Qed.

Lemma destroy_all s p d clear inv root_p : tables_ok s -> dents s !! p = Some d -> idle s p -> (de_parent d = None -> clear = true) ->
  exists s', destroy s p clear inv root_p = Ok s' /\ tables_ok s' /\ gone s s' (under (above s) p) /\ vols_after s p (vols s').
Proof.
  intros Hok Hd Hi Hcl. pose proof Hok as (Ht & _). destruct (to_depth _ _ _ _ _ Ht p) as [n Hn]; [eexists; by apply fmap_lookup_Some|].
  apply (destroy_tree_ok (size (dents s)) inv _ s p n); [done|done| |lia|done|intros d0 Hd0; rewrite Hd in Hd0; by injection Hd0 as <-]. intros x m. apply depth_short.
Qed.

End ops.

(** ** A volume with one file *)

Definition demo_root_fh : zfs_fh := MkFh 2 7 1 1 1.
Definition demo_file_fh : zfs_fh := MkFh 2 7 1 2 1.
Definition demo_attr (t : ftype) : fattr := MkFattr 1 1 1 t 0 1 0 0 0 0 0 0 0 0 0.
Definition demo_meta : metadata := MkMeta 0 0 1 1 1 undefined 1 1 0 0 0 0 0 [].
Definition demo_ifh (fh : zfs_fh) (t : ftype) (l : list ptr) : ifh := Ifh fh 1 (demo_attr t) demo_meta l [] false LEVEL_UNLOCKED 0 0.
Definition demo_pool : alloc_pool := MkPool 4 [2; 3]%nat 4 2 1 [1; 0]%nat 4.

(** The root is entry 0 with handle 0, the file is entry 1 with handle 1; the file has a
    node in the queue. *)
Definition demo_tables : tables (H := fibheap ptr) :=
  Tables {[ 0%nat := demo_ifh demo_root_fh FT_DIR [1%nat]; 1%nat := demo_ifh demo_file_fh FT_REG [] ]}
    {[ 0%nat := De 0 None [] 0 0 0 5 None 0 false; 1%nat := De 1 (Some 0%nat) [97] 1 1 0 5 (Some 3%nat) 0 false ]}
    demo_pool demo_pool {[ key_of demo_root_fh := 0%nat; key_of demo_file_fh := 1%nat ]}
    {[ key_of demo_root_fh := 0%nat; key_of demo_file_fh := 1%nat ]} {[ (0%nat, [97]) := 1%nat ]}
    (fib_of [(5, 1%nat)]) {[ 7 := DVol (Some 0%nat) 0 0 false ]} (set_lock_info (D := ptr)) 9 [] [] [] [].

Lemma two_entries {A} (a b : A) (x : ptr) y : ({[ 0%nat := a; 1%nat := b ]} : gmap ptr A) !! x = Some y <-> (x = 0%nat /\ y = a) \/ (x = 1%nat /\ y = b).
Proof.
  rewrite lookup_insert_Some, lookup_singleton_Some. split.
  - intros [[<- <-]|[? [<- <-]]]; auto.
  - intros [[-> ->]|[-> ->]]; auto.
Qed.

Lemma demo_key k (h : ptr) : dentry_htab demo_tables !! k = Some h <-> (k = key_of demo_root_fh /\ h = 0%nat) \/ (k = key_of demo_file_fh /\ h = 1%nat).
Proof.
  unfold demo_tables, dentry_htab. rewrite lookup_insert_Some, lookup_singleton_Some. split.
  - intros [[<- <-]|[? [<- <-]]]; auto.
  - intros [[-> ->]|[-> ->]]; auto.
Qed.

Lemma demo_tree : tree demo_tables None.
Proof.
  unfold tree. cbn. rewrite !fmap_insert, !map_fmap_singleton. cbn. split.
  - intros p t [[-> ->]|[-> ->]]%two_entries; by eexists.
  - intros p t q [[-> ->]|[-> ->]]%two_entries; [done|]. intros [= <-]. by eexists _, _.
  - intros g f i p [[-> ->]|[-> ->]]%two_entries; [|done]. cbn. destruct i; [|done]. intros [= <-]. by eexists _, _, _.
  - intros q n p. rewrite lookup_singleton_Some. split.
    + intros [[= <- <-] <-]. by eexists.
    + intros (t & [[-> ->]|[-> ->]]%two_entries & Ep & En); [done|]. by simplify_eq/=.
  - intros v p (<- & [= <-])%lookup_singleton_Some. by eexists _, _.
  - intros p t f [[-> ->]|[-> ->]]%two_entries; [|done]. intros [= <-] _ _. done.
  - done.
  - intros p [t [[-> _]|[-> _]]%two_entries]; [exists 0%nat|exists 1%nat]; repeat (econstructor; try done).
Qed.

Lemma demo_rings : rings demo_tables None.
Proof.
  unfold rings. cbn. rewrite !fmap_insert, !map_fmap_singleton. cbn. split.
  - intros p r [[-> ->]|[-> ->]]%two_entries; by eexists.
  - intros g x [[-> ->]|[-> ->]]%two_entries; [exists [0%nat]|exists [1%nat]].
    all: split; [apply NoDup_singleton|]; split; [|split; [by split|split; [done|split; [by apply list_elem_of_singleton|split; [done|intros _; cbn; lia]]]]].
    + intros p. rewrite list_elem_of_singleton. split; [intros ->; by split; [intros []|eexists]|].
      intros (_ & r & [[-> ->]|[-> ->]]%two_entries & E); [done|by cbn in E].
    + intros p. rewrite list_elem_of_singleton. split; [intros ->; by split; [intros []|eexists]|].
      intros (_ & r & [[-> ->]|[-> ->]]%two_entries & E); [by cbn in E|done].
  - intros k h Hk. apply demo_key in Hk as [[-> ->]|[-> ->]]; [exists 0%nat|exists 1%nat]; by eexists.
  - intros g g' x x' [[-> ->]|[-> ->]]%two_entries [[-> ->]|[-> ->]]%two_entries; done.
  - done.
Qed.

Lemma demo_pool_ok : pool_ok demo_pool.
Proof. split; try done; [|apply (bool_decide_unpack _); vm_compute; exact I|cbn; lia]. apply (bool_decide_unpack _). vm_compute. exact I. Qed.

Lemma demo_queue : queue_rep (cleanup_dentry_heap demo_tables) (dents demo_tables).
Proof.
  split; [|split].
  - apply (insert_all_ok [(5, 1%nat)] fib0); [by apply (new_heap_ok 4)|by repeat constructor|done|vm_compute; reflexivity].
  - intros n k p. cbn. assert (Fibheap.view (fib_of [(5, 1%nat)]) = {[ 3%nat := (5, 1%nat) ]}) as -> by (vm_compute; reflexivity).
    intros [<- [= <- <-]]%lookup_singleton_Some. split; [done|]. by eexists.
  - intros p d n [[-> ->]|[-> ->]]%two_entries; [done|]. intros [= <-]. exists 5. vm_compute. reflexivity.
Qed.

Lemma demo_ok : tables_ok demo_tables.
Proof.
  split; [exact demo_tree|]. split; [exact demo_rings|]. split; [|split].
  - split; try done; [| | |exact demo_queue].
    + intros p d [[-> ->]|[-> ->]]%two_entries; by eexists.
    + intros p d q [[-> ->]|[-> ->]]%two_entries; [done|]. intros [= <-]. by eexists.
    + intros g f [[-> ->]|[-> ->]]%two_entries; done.
  - split; [|exact demo_pool_ok|exact demo_pool_ok| | |].
    + intros k g. rewrite (demo_key k g). split.
      * intros [[-> ->]|[-> ->]]; by eexists.
      * intros (f & [[-> ->]|[-> ->]]%two_entries & <-); auto.
    + intros g. cbn. rewrite !elem_of_cons, elem_of_nil. split; [intros [->|[->|[]]]; by eexists|]. intros [f [[-> _]|[-> _]]%two_entries]; auto.
    + intros p. cbn. rewrite !elem_of_cons, elem_of_nil. split; [intros [->|[->|[]]]; by eexists|]. intros [d [[-> _]|[-> _]]%two_entries]; auto.
    + intros g f [[-> ->]|[-> ->]]%two_entries; done.
  - intros p d [[-> ->]|[-> ->]]%two_entries; done.
Qed.
