(* ===== verification/DentryCreate.v ===== *)
(** Creating, linking and moving entries of [Dentry.v]: each keeps the invariant of
    [DentryOps.v] and changes the tree by one entry. *)

From S2P Require Import Prelude AllocPool KeyedQueue Fibheap DataCoding Metadata MetaTable Capability LockProtocol Dentry DentryTree DentryOps.
#[local] Open Scope Z_scope.

Section create.
Context {H : Type} `{PeekQueue ptr H} (this_node : Z).
Implicit Types (s : tables (H := H)).

Abbreviation above s := (tn_of <$> dents s).

(** ** The handle of a new entry *)

Lemma root_fields_set (vs : gmap Z dvolume) v x x' : vs !! v = Some x -> root_dentry x' = root_dentry x -> root_dentry <$> <[v := x']> vs = root_dentry <$> vs.
Proof. intros Hv E. rewrite fmap_insert, E, <-fmap_insert, insert_id; done. Qed.

(** [s'] is [s] up to the volumes' flags and the results that are left. *)
Definition only_vols s s' : Prop := exists vs r, s' = set_results (set_vols s vs) r /\ root_dentry <$> vs = root_dentry <$> vols s.

Lemma only_vols_refl s : only_vols s s.
Proof. exists (vols s), (results s). by destruct s. Qed.

Lemma only_vols_trans s1 s2 s3 : only_vols s1 s2 -> only_vols s2 s3 -> only_vols s1 s3.
Proof. intros (v1 & r1 & -> & E1) (v2 & r2 & -> & E2). exists v2, r2. cbn in E2. split; [done|congruence]. Qed.

Lemma mark_ok s v : is_Some (vols s !! v) -> exists s', MARK_VOLUME_DELETE s v = Ok s' /\ only_vols s s'.
Proof.
  intros [x Hx]. unfold MARK_VOLUME_DELETE, vol_at. rewrite Hx. cbn [mbind res_bind]. eexists. split; [reflexivity|].
  eexists _, (results s). split; [reflexivity|]. by apply (root_fields_set _ _ x).
Qed.

Lemma next_result_ok s : exists b s', next_result s = (b, s') /\ only_vols s s'.
Proof.
  unfold next_result. destruct (results s) as [|b r] eqn:E; [exists true, s; split; [done|apply only_vols_refl]|]. exists b. eexists. split; [done|].
  exists (vols s), r. by destruct s.
Qed.

Lemma only_vols_fields s s' : only_vols s s' -> fhs s' = fhs s /\ dents s' = dents s /\ fh_htab s' = fh_htab s /\ dentry_htab s' = dentry_htab s /\
  dentry_htab_name s' = dentry_htab_name s /\ root_dentry <$> vols s' = root_dentry <$> vols s /\ owned s' = owned s /\ now s' = now s /\
  fh_pool s' = fh_pool s /\ dentry_pool s' = dentry_pool s /\ cleanup_dentry_heap s' = cleanup_dentry_heap s.
Proof. by intros (v & r & -> & E). Qed.

Lemma only_vols_some s s' v : only_vols s s' -> is_Some (vols s !! v) -> is_Some (vols s' !! v).
Proof.
  intros (_ & _ & _ & _ & _ & E & _)%only_vols_fields [x Hx]. assert ((root_dentry <$> vols s') !! v = Some (root_dentry x)) as Hv by (by rewrite E, lookup_fmap, Hx).
  rewrite lookup_fmap in Hv. destruct (vols s' !! v); [by eexists|done].
Qed.

(** What the parts of [internal_fh_create] do to the new handle [g]. *)
Definition new_handle s s' (g : ptr) : Prop := exists f f', fhs s !! g = Some f /\ only_vols (set_fh s g f') s' /\ local_fh f' = local_fh f /\
  ndentries f' = ndentries f /\ subdentries f' = subdentries f /\ is_dir f' = is_dir f.

Lemma new_handle_vols s s1 s2 g : new_handle s s1 g -> only_vols s1 s2 -> new_handle s s2 g.
Proof. intros (f & f' & E1 & E2 & E3) Hv. exists f, f'. split; [done|]. split; [by eapply only_vols_trans|done]. Qed.

Lemma new_handle_refl s g : is_Some (fhs s !! g) -> new_handle s s g.
Proof.
  intros [f Hf]. exists f, f. split; [done|]. split; [|done]. exists (vols s), (results s). split; [|done]. unfold set_fh. rewrite insert_id by done. by destruct s.
Qed.

Lemma new_handle_at s s' g : new_handle s s' g -> exists f, fhs s' !! g = Some f.
Proof. intros (f & f' & _ & (E & _)%only_vols_fields & _). rewrite E. cbn. rewrite lookup_insert_eq. by eexists. Qed.

Lemma set_fh_twice s g f1 f2 v r : set_fh (set_results (set_vols (set_fh s g f1) v) r) g f2 = set_results (set_vols (set_fh s g f2) v) r.
Proof. destruct s. unfold set_fh, set_fhs, set_vols, set_results. cbn. by rewrite insert_insert_eq. Qed.

Lemma new_handle_trans s s1 s2 g : new_handle s s1 g -> new_handle s1 s2 g -> new_handle s s2 g.
Proof.
  intros (f & f1 & A1 & (v1 & r1 & -> & A2) & A3 & A4 & A5 & A6) (f1' & f2 & B1 & (v2 & r2 & E & B2) & B3 & B4 & B5 & B6).
  assert (f1' = f1) as ->. { revert B1. cbn. rewrite lookup_insert_eq. congruence. }
  exists f, f2. split; [done|]. split; [|split; [congruence|split; [congruence|split; congruence]]].
  rewrite set_fh_twice in E. exists v2, r2. split; [exact E|]. rewrite B2. exact A2.
Qed.

Lemma new_handle_set s g f f' : fhs s !! g = Some f -> local_fh f' = local_fh f -> ndentries f' = ndentries f -> subdentries f' = subdentries f -> is_dir f' = is_dir f ->
  new_handle s (set_fh s g f') g.
Proof. intros Hf E1 E2 E3 E4. exists f, f'. split; [done|]. split; [apply only_vols_refl|done]. Qed.

Lemma load_local_ok s g f meta v : fhs s !! g = Some f -> is_Some (vols s !! v) ->
  dev (local_fh f) = meta_dev meta -> ino (local_fh f) = meta_ino meta -> gen (local_fh f) = meta_gen meta -> slot_status meta = HashFile.VALID_SLOT ->
  exists s', load_local s g meta v = Ok s' /\ new_handle s s' g.
Proof.
  intros Hf Hv E1 E2 E3 E4. unfold load_local. rewrite (fh_at_eq _ _ _ Hf). cbn [mbind res_bind]. rewrite E1, E2, E3, E4, !Z.eqb_refl. cbn [andb negb].
  set (f1 := with_attr _ _). assert (is_dir f1 = is_dir f) as Ed by done. destruct (is_dir f1) eqn:Edir.
  - set (s1 := set_fh s g (with_journal f1 true)). assert (new_handle s s1 g) as Hn by (apply (new_handle_set _ _ f); done).
    destruct (next_result_ok s1) as (b & s2 & -> & Ho). pose proof (new_handle_vols _ _ _ _ Hn Ho) as Hn2. destruct b; [by exists s2|].
    destruct (mark_ok s2 v) as (s3 & -> & Ho3); [by apply (only_vols_some s1)|]. exists s3. split; [done|]. by eapply new_handle_vols.
  - eexists. split; [reflexivity|]. apply (new_handle_set _ _ f); done.
Qed.

Lemma set_master_ok s g master : is_Some (fhs s !! g) -> exists s' b, set_master_fh this_node s g master = Ok (s', b) /\ new_handle s s' g.
Proof.
  intros Hs. pose proof Hs as [f Hf]. unfold set_master_fh. destruct (zfs_fh_undefined master); [exists s, true; split; [done|by apply new_handle_refl]|].
  rewrite (fh_at_eq _ _ _ Hf). cbn [mbind res_bind].
  assert (forall s1, only_vols s s1 -> exists s', take_master s1 g master = Ok s' /\ new_handle s s' g) as Htake.
  { intros s1 Ho. pose proof (only_vols_fields _ _ Ho) as (Ef & _). unfold take_master. rewrite (on_fh_eq _ s1 g f) by congruence. eexists. split; [reflexivity|].
    exists f, (with_meta f (set_meta_master (ih_meta f) master)). split; [done|]. split; [|done]. destruct Ho as (vs & r & -> & Ev). by exists vs, r. }
  destruct (has_local_path this_node (local_fh f) && _).
  - destruct (next_result_ok s) as (b & s1 & -> & Ho). destruct b.
    + destruct (Htake s1 Ho) as (s2 & -> & Hn). cbn [mbind res_bind]. by exists s2, true.
    + destruct (next_result_ok s1) as (c & s2 & -> & Ho2). pose proof (only_vols_trans _ _ _ Ho Ho2) as Ho3. destruct c.
      * destruct (Htake s2 Ho3) as (s3 & -> & Hn). cbn [mbind res_bind]. by exists s3, false.
      * cbn [mbind res_bind]. exists s2, false. split; [done|]. eapply new_handle_vols; [by apply new_handle_refl|done].
  - destruct (Htake s (only_vols_refl s)) as (s2 & -> & Hn). cbn [mbind res_bind]. by exists s2, true.
Qed.

(** The metadata that come with a local file name it. *)
Definition meta_fits (fh : zfs_fh) (meta : metadata) : bool :=
  negb (has_local_path this_node fh) ||
  ((dev fh =? meta_dev meta) && (ino fh =? meta_ino meta) && (gen fh =? meta_gen meta) && (slot_status meta =? HashFile.VALID_SLOT)).

Lemma fh_create_ok junk s fh master attr meta v : pool_ok (fh_pool s) -> (forall g, g ∈ in_use (fh_pool s) <-> is_Some (fhs s !! g)) -> fh_htab s !! key_of fh = None ->
  is_Some (vols s !! v) -> meta_fits fh meta = true ->
  exists s' g f pl, internal_fh_create this_node junk s fh master attr meta v LEVEL_UNLOCKED = Ok (s', g) /\ fhs s !! g = None /\ pool_ok pl /\
    (forall x, x ∈ in_use pl <-> x = g \/ x ∈ in_use (fh_pool s)) /\ local_fh f = fh /\ ndentries f = 0 /\ subdentries f = [] /\ is_dir f = bool_decide (fa_type attr = FT_DIR) /\
    only_vols (set_htabs (set_fh (set_pools s pl (dentry_pool s)) g f) (<[key_of fh := g]> (fh_htab s)) (dentry_htab s) (dentry_htab_name s)) s'.
Proof.
  intros Hp Hu Hk Hv Hm. unfold internal_fh_create. destruct (pool_alloc_ok _ Hp) as (g & pl & E & Hpl & Hg & Hin). rewrite E. cbn [mbind res_bind].
  assert (fhs s !! g = None) as Hgn. { destruct (fhs s !! g) eqn:Eg; [|done]. exfalso. apply Hg, Hu. by eexists. }
  unfold lock_new. cbn [Z.eqb LEVEL_UNLOCKED mbind res_bind]. set (f0 := Ifh _ _ _ _ _ _ _ _ _ _). set (s0 := set_fh (set_pools s pl (dentry_pool s)) g f0).
  change (fh_htab s0) with (fh_htab s). rewrite Hk. set (s1 := set_htabs _ _ _ _).
  assert (fhs s1 !! g = Some f0) as Hf1 by apply lookup_insert_eq.
  assert (exists s2, (if has_local_path this_node fh then load_local s1 g meta v else on_fh (fun f => with_meta f (clear_meta (ih_meta f))) s1 g) = Ok s2 /\ new_handle s1 s2 g)
    as (s2 & E2 & Hn2).
  { unfold meta_fits in Hm. destruct (has_local_path this_node fh); cbn [negb orb] in Hm.
    - bool_to_prop. apply (load_local_ok s1 g f0); done.
    - rewrite (on_fh_eq _ _ _ _ Hf1). eexists. split; [reflexivity|]. by eapply new_handle_set. }
  rewrite E2. cbn [mbind res_bind].
  assert (is_Some (vols s2 !! v)) as [x Hx] by (destruct Hn2 as (? & ? & _ & Ho & _); by apply (only_vols_some _ _ v Ho)).
  unfold vol_at. rewrite Hx. cbn [mbind res_bind].
  assert (exists s3, (if dv_delete_p x then Ok s2 else '(s, b) ← set_master_fh this_node s2 g master;
    if b : bool then Ok s else s ← MARK_VOLUME_DELETE s v; on_fh (fun f => with_meta f (clear_meta (ih_meta f))) s g) = Ok s3 /\ new_handle s1 s3 g) as (s3 & E3 & Hn3).
  { destruct (dv_delete_p x); [by exists s2|]. destruct (new_handle_at _ _ _ Hn2) as [f2 Hf2]. destruct (set_master_ok s2 g master) as (s3 & b & -> & Hn3); [by eexists|].
    cbn [mbind res_bind]. pose proof (new_handle_trans _ _ _ _ Hn2 Hn3) as Hn13. destruct b; [by exists s3|].
    destruct (mark_ok s3 v) as (s4 & -> & Ho4). { destruct Hn13 as (? & ? & _ & Ho & _). by apply (only_vols_some _ _ v Ho). }
    cbn [mbind res_bind]. pose proof (new_handle_vols _ _ _ _ Hn13 Ho4) as Hn4. destruct (new_handle_at _ _ _ Hn4) as [f4 Hf4]. rewrite (on_fh_eq _ _ _ _ Hf4).
    eexists. split; [reflexivity|]. eapply new_handle_trans; [exact Hn4|]. by eapply new_handle_set. }
  rewrite E3. cbn [mbind res_bind]. destruct Hn3 as (f & f' & Ef & Ho & F1 & F2 & F3 & F4). rewrite Hf1 in Ef. injection Ef as <-.
  exists s3, g, f', pl. split; [done|]. split; [done|]. split; [done|]. split; [intros y; rewrite Hin; by rewrite elem_of_cons|].
  split; [done|]. split; [done|]. split; [done|]. split; [done|]. destruct Ho as (vs & r & -> & Ev). exists vs, r. split; [|done].
  unfold set_results, set_vols, set_fh, set_fhs, set_htabs, s1. cbn. by rewrite insert_insert_eq.
Qed.
(** ** A new entry before it is in a directory *)

(** [s2] is [s] with the new entry [p] of the handle [g], which is [f2] now and may
    be new itself. *)
Record entering s s2 (p g : ptr) (f2 : ifh) (name : list Z) : Prop := {
  en_fresh : dents s !! p = None;
  en_dents : dents s2 = <[p := De g None name p p 0 (now s) None 0 false]> (dents s);
  en_fhs : fhs s2 = <[g := f2]> (fhs s);
  en_htab : fh_htab s2 = <[key_of (local_fh f2) := g]> (fh_htab s);
  en_rings : dentry_htab s2 = dentry_htab s;
  en_names : dentry_htab_name s2 = dentry_htab_name s;
  en_roots : root_dentry <$> vols s2 = root_dentry <$> vols s;
  en_heap : cleanup_dentry_heap s2 = cleanup_dentry_heap s;
  en_now : now s2 = now s;
  en_owned : owned s2 = owned s;
  en_fh_pool : pool_ok (fh_pool s2) /\ forall x, x ∈ in_use (fh_pool s2) <-> x = g \/ x ∈ in_use (fh_pool s);
  en_de_pool : pool_ok (dentry_pool s2) /\ forall x, x ∈ in_use (dentry_pool s2) <-> x = p \/ x ∈ in_use (dentry_pool s);
  en_fh : gen (local_fh f2) <> 0 /\ CONFLICT_DIR_P (local_fh f2) = false;
  en_old : (exists f, fhs s !! g = Some f /\ local_fh f2 = local_fh f /\ subdentries f2 = subdentries f /\ is_dir f2 = is_dir f /\ ndentries f2 = u32 (ndentries f + 1)) \/
    (fhs s !! g = None /\ fh_htab s !! key_of (local_fh f2) = None /\ subdentries f2 = [] /\ ndentries f2 = 1)
}.

Lemma key_of_inj a b : key_of a = key_of b -> a = b.
Proof. destruct a, b. unfold key_of. cbn. by intros [=]; subst. Qed.

(** Every handle has an entry. *)
Lemma handle_used s g f : rings s None -> fhs s !! g = Some f -> exists p d, dents s !! p = Some d /\ de_fh d = g /\ dentry_htab s !! key_of (local_fh f) = Some p.
Proof.
  intros Hr Hf. destruct (ro_ring _ _ _ _ Hr g (gn_of f)) as (l & A1 & A2 & A3 & A4 & A5 & A6 & _); [by apply fmap_lookup_Some|]. cbn in A5.
  destruct (dentry_htab s !! key_of (local_fh f)) as [p|] eqn:E; [|by apply A6 in A5]. apply A2 in A5 as (_ & r & Hp & Eg).
  rewrite lookup_fmap in Hp. destruct (dents s !! p) as [d|] eqn:Hd; [|done]. injection Hp as <-. by exists p, d.
Qed.

Lemma count_next s g f : rings s None -> calm s -> fhs s !! g = Some f -> u32 (ndentries f + 1) = ndentries f + 1.
Proof.
  intros Hr Hc Hf. destruct (ro_ring _ _ _ _ Hr g (gn_of f)) as (l & Hl); [by apply fmap_lookup_Some|]. pose proof (ring_length _ _ _ _ Hl) as Hlen.
  destruct Hl as (_ & _ & _ & E & _). cbn in E. rewrite map_size_fmap in Hlen. pose proof (ca_size _ Hc). apply wrap_small. unfold UINT32_MAX in *. lia.
Qed.

Lemma entering_tree s s2 p g f2 name : tree s None -> entering s s2 p g f2 name -> tree s2 (Some p).
Proof.
  intros Ht He. unfold tree. rewrite (en_dents _ _ _ _ _ _ He), (en_fhs _ _ _ _ _ _ He), (en_names _ _ _ _ _ _ He), (en_roots _ _ _ _ _ _ He), !fmap_insert.
  pose proof (en_fresh _ _ _ _ _ _ He) as Hp.
  assert ((tn_of <$> dents s) !! p = None) as Hp' by (by rewrite lookup_fmap, Hp).
  destruct (en_old _ _ _ _ _ _ He) as [(f & Hf & E1 & E2 & E3 & E4)|(Hg & Hk & E2 & E4)].
  - assert (<[g := fn_of f2]> (fn_of <$> fhs s) = fn_of <$> fhs s) as ->.
    { rewrite insert_id; [done|]. rewrite lookup_fmap, Hf. cbn. unfold fn_of. congruence. }
    apply tree_new; [done|done|]. eexists. by apply fmap_lookup_Some.
  - change (fn_of f2) with (FN (local_fh f2) (is_dir f2) (subdentries f2)). rewrite E2. apply tree_new; [|done|by rewrite lookup_insert_eq].
    apply tree_new_fh; [done|]. by rewrite lookup_fmap, Hg.
Qed.

Lemma entering_rings s s2 p g f2 name : rings s None -> calm s -> rest s -> entering s s2 p g f2 name -> rings s2 (Some (p, g, 1)).
Proof.
  intros Hr Hc Hrs He. unfold rings. rewrite (en_dents _ _ _ _ _ _ He), (en_fhs _ _ _ _ _ _ He), (en_rings _ _ _ _ _ _ He), !fmap_insert.
  pose proof (en_fresh _ _ _ _ _ _ He) as Hp.
  assert ((rn_of <$> dents s) !! p = None) as Hp' by (by rewrite lookup_fmap, Hp).
  destruct (en_old _ _ _ _ _ _ He) as [(f & Hf & E1 & E2 & E3 & E4)|(Hg & Hk & E2 & E4)].
  - assert (gn_of f2 = GN (g_key (gn_of f)) (g_dir (gn_of f)) (g_count (gn_of f) + 1)) as ->.
    { cbn. unfold gn_of. rewrite E1, E3, E4. by rewrite (count_next s g). }
    apply (ring_new p g (gn_of f)); [done|done|by apply fmap_lookup_Some].
  - unfold gn_of at 1. rewrite E4. apply ring_new_fh; [done|done|by rewrite lookup_fmap, Hg|].
    intros h y Hy. rewrite lookup_fmap in Hy. destruct (fhs s !! h) as [f|] eqn:Hf; [|done]. injection Hy as <-. cbn. intros E.
    assert (fh_htab s !! key_of (local_fh f) = Some h) as Hh by (apply (rs_fh_htab _ Hrs); by exists f). rewrite E in Hh. congruence.
Qed.

Lemma entering_calm s s2 p g f2 name : calm s -> Z.of_nat (S (size (dents s))) < UINT32_MAX -> entering s s2 p g f2 name -> calm s2.
Proof.
  intros [C1 C2 C3 (Q1 & Q2 & Q3) C5 C6] Hsz He. pose proof (en_fresh _ _ _ _ _ _ He) as Hp.
  split; rewrite ?(en_dents _ _ _ _ _ _ He), ?(en_fhs _ _ _ _ _ _ He), ?(en_heap _ _ _ _ _ _ He), ?(en_now _ _ _ _ _ _ He); [| | | |done|].
  - intros x dx [[<- <-]|[_ Hx]]%lookup_insert_Some; [by rewrite lookup_insert_eq|]. apply lookup_insert_is_Some'. right. by apply (C1 x).
  - intros x dx q [[<- <-]|[_ Hx]]%lookup_insert_Some E; [done|]. apply lookup_insert_is_Some'. right. by apply (C2 x dx).
  - intros h f [[<- <-]|[_ Hh]]%lookup_insert_Some; [apply (en_fh _ _ _ _ _ _ He)|by apply (C3 h)].
  - split; [done|]. split.
    + intros n k x Hn. destruct (Q2 _ _ _ Hn) as (Hk & d & Hd & Ed). split; [done|]. exists d. rewrite lookup_insert_ne; [done|congruence].
    + intros x dx n [[<- <-]|[_ Hx]]%lookup_insert_Some; [done|by apply Q3].
  - rewrite map_size_insert, Hp. cbn. lia.
Qed.

Lemma entering_rest s s2 p g f2 name : rest s -> entering s s2 p g f2 name -> rest s2.
Proof.
  intros [R1 R2 R3 R4 R5 R6] He. split; rewrite ?(en_dents _ _ _ _ _ _ He), ?(en_fhs _ _ _ _ _ _ He), ?(en_htab _ _ _ _ _ _ He).
  - intros k h. rewrite lookup_insert_Some. destruct (en_old _ _ _ _ _ _ He) as [(f & Hf & E1 & _)|(Hg & Hk & _)].
    + assert (fh_htab s !! key_of (local_fh f2) = Some g) as Hk by (apply R1; exists f; split; congruence). split.
      * intros [[<- <-]|[Hne Hh]]; [exists f2; by rewrite lookup_insert_eq|]. pose proof Hh as (f' & Hf' & Ek)%R1. exists f'.
        rewrite lookup_insert_ne; [done|]. intros <-. congruence.
      * intros (f' & [[<- <-]|[Hne Hf']]%lookup_insert_Some & <-); [by left|]. right.
        assert (fh_htab s !! key_of (local_fh f') = Some h) as Hh by (apply R1; by exists f'). split; [congruence|done].
    + split.
      * intros [[<- <-]|[Hne Hh]]; [exists f2; by rewrite lookup_insert_eq|]. pose proof Hh as (f' & Hf' & Ek)%R1. exists f'.
        rewrite lookup_insert_ne; [done|]. congruence.
      * intros (f' & [[<- <-]|[Hne Hf']]%lookup_insert_Some & <-); [by left|]. right.
        assert (fh_htab s !! key_of (local_fh f') = Some h) as Hh by (apply R1; by exists f'). split; [congruence|done].
  - apply (en_fh_pool _ _ _ _ _ _ He).
  - apply (en_de_pool _ _ _ _ _ _ He).
  - intros h. rewrite (proj2 (en_fh_pool _ _ _ _ _ _ He)), R4, lookup_insert_is_Some'. naive_solver.
  - intros x. rewrite (proj2 (en_de_pool _ _ _ _ _ _ He)), R5, lookup_insert_is_Some'. naive_solver.
  - intros h f [[<- <-]|[_ Hh]]%lookup_insert_Some; [apply (en_fh _ _ _ _ _ _ He)|by apply (R6 h)].
Qed.

Lemma entering_live s s2 p g f2 name : live s -> entering s s2 p g f2 name -> live s2.
Proof. intros Hl He x d. rewrite (en_dents _ _ _ _ _ _ He). intros [[<- <-]|[_ Hx]]%lookup_insert_Some; [done|by apply (Hl x)]. Qed.

Lemma entering_ok s s2 p g f2 name : tables_ok s -> Z.of_nat (S (size (dents s))) < UINT32_MAX -> entering s s2 p g f2 name ->
  tree s2 (Some p) /\ rings s2 (Some (p, g, 1)) /\ calm s2 /\ rest s2 /\ live s2.
Proof.
  intros (Ht & Hr & Hc & Hrs & Hl) Hsz He. split; [by eapply entering_tree|]. split; [by eapply entering_rings|]. split; [by eapply entering_calm|].
  split; [by eapply entering_rest|by eapply entering_live].
Qed.

Lemma entering_top s s2 p g f2 name x : calm s -> entering s s2 p g f2 name -> under (above s2) p x -> x = p.
Proof.
  intros Hc He. induction 1 as [|x t q Ht Eq Hu ->]; [done|]. destruct (above_at _ _ _ Ht) as (d & Hd & ->). cbn in Eq. rewrite (en_dents _ _ _ _ _ _ He) in Hd.
  apply lookup_insert_Some in Hd as [[<- <-]|[_ Hd]]; [done|]. destruct (ca_parent _ Hc _ _ _ Hd Eq) as [d' Hd']. pose proof (en_fresh _ _ _ _ _ _ He). congruence.
Qed.

Lemma update_add_ok s p d q qd f : tree s (Some p) -> calm s -> dents s !! p = Some d -> dents s !! q = Some qd -> q <> p -> fhs s !! de_fh qd = Some f ->
  is_dir f = true -> ~ under (above s) p q -> dentry_htab_name s !! (q, de_name d) = None ->
  exists s1 s2, dentry_update_cleanup_node s p = Ok s1 /\ internal_dentry_add_to_dir s1 q p = Ok s2 /\ only_tree s s2 /\ calm s2 /\ tree s2 None /\
    core s2 p = Some (de_fh d, Some q, de_name d) /\ (forall x, x <> p -> core s2 x = core s x).
Proof.
  intros Ht Hc Hd Hq Hqp Hf Hdir Hu Hn. destruct (update_ok s p d Hc Hd) as (s1 & d1 & E1 & Hs & Hc1 & Hd1 & _ & Hx).
  pose proof (sim_fields _ _ Hs) as (S1 & _ & _ & S4 & _ & _ & _ & _ & _ & _ & _ & _ & _ & S14 & _).
  assert (erase d1 = erase d) as (Ef & _ & En & _)%erase_fields by (destruct (sim_at _ _ _ _ Hs Hd) as (d' & Hd' & E); congruence).
  destruct (add_to_dir_ok s1 p d1 q qd f) as (s2 & E2 & Ho & Hc2 & Ht2 & Hp2 & Hx2); [by eapply sim_tree|done|done|by rewrite Hx|by rewrite S1|done|by rewrite S14|by rewrite S4, En|].
  exists s1, s2. split; [done|]. split; [done|]. split; [eapply only_tree_trans; [by apply sim_only|done]|]. split; [done|]. split; [done|].
  rewrite Ef, En in Hp2. split; [done|]. intros x Hxp. rewrite Hx2 by done. by apply sim_core.
Qed.

(** ** Joining the ring *)

Lemma link_behind_ok s p d f old : rings s (Some (p, de_fh d, 1)) -> dents s !! p = Some d -> de_next d = p -> de_prev d = p -> fhs s !! de_fh d = Some f ->
  is_dir f = false -> dentry_htab s !! key_of (local_fh f) = Some old ->
  exists s', link_behind s p old = Ok s' /\ s' = set_dents s (dents s') /\ ebase <$> dents s' = ebase <$> dents s /\
    forall D', D' = dentry_htab s \/ D' = <[key_of (local_fh f) := p]> (dentry_htab s) -> ring_ok (rn_of <$> dents s') (gn_of <$> fhs s) D' None.
Proof.
  intros Hr Hd En Ev Hf Hdir Hold. pose proof (fmap_lookup_Some gn_of _ _ _ Hf) as Hg.
  destruct (ro_ring _ _ _ _ Hr (de_fh d) (gn_of f) Hg) as (l & A1 & A2 & A3 & A4 & A5 & _). cbn in A5. rewrite Hold in A5.
  destruct (cycle_from _ l old A3 A5) as (l' & Hcy & Hperm).
  destruct (proj1 (A2 old) A5) as (Hop & r & Hr1 & Er1). rewrite lookup_fmap in Hr1. destruct (dents s !! old) as [od|] eqn:Hod; [|done]. injection Hr1 as <-.
  assert (old <> p) as Hne by (intros ->; by apply Hop).
  assert (de_next od ∈ l) as Hcl.
  { rewrite <-Hperm. assert (r_next <$> (rn_of <$> dents s) !! old = Some (de_next od)) as E by (by rewrite lookup_fmap, Hod).
    destruct l'; cbn in Hcy; [destruct Hcy as [E' _]|destruct Hcy as [[E' _] _]]; rewrite E in E'; injection E' as ->; set_solver. }
  destruct (proj1 (A2 _) Hcl) as (Hcp & r & Hr2 & _). rewrite lookup_fmap in Hr2. destruct (dents s !! de_next od) as [cd|] eqn:Hcd; [|done]. clear Hr2 r.
  assert (de_next od <> p) as Hne2 by (intros E; apply Hcp; by rewrite E).
  unfold link_behind. rewrite (de_at_eq _ _ _ Hod). cbn [mbind res_bind]. rewrite (on_de_eq _ _ _ _ Hd). cbn [mbind res_bind]. set (s1 := set_de s p _).
  assert (dents s1 !! de_next od = Some cd) as Hcd1 by (cbn; by rewrite lookup_insert_ne).
  rewrite (on_de_eq _ _ _ _ Hcd1). cbn [mbind res_bind]. set (s2 := set_de s1 _ _).
  assert (exists od', dents s2 !! old = Some od' /\ ebase od' = ebase od /\ de_prev od' = if decide (old = de_next od) then p else de_prev od) as (od' & Hod' & Eb & Ep).
  { cbn. destruct (decide (old = de_next od)) as [E|Hn].
    - rewrite <-E, lookup_insert_eq. eexists. split; [done|]. rewrite <-E, Hod in Hcd. injection Hcd as <-. done.
    - rewrite !lookup_insert_ne by done. by exists od. }
  rewrite (on_de_eq _ _ _ _ Hod'). eexists. split; [reflexivity|]. split; [done|]. split.
  { cbn. rewrite fmap_insert, insert_id; [|rewrite lookup_fmap; change (<[de_next od:=_]> _) with (dents s2); by rewrite Hod'].
    rewrite fmap_insert, insert_id; [|rewrite lookup_fmap; change (<[p:=_]> _) with (dents s1); by rewrite Hcd1].
    rewrite fmap_insert, insert_id; [done|]. by rewrite lookup_fmap, Hd. }
  set (M' := rn_of <$> _). assert (forall y, M' !! y = if decide (y = old) then Some (RN (de_fh od) p (de_prev od')) else
    if decide (y = de_next od) then Some (RN (de_fh cd) (de_next cd) p) else
    if decide (y = p) then Some (RN (de_fh d) (de_next od) old) else (rn_of <$> dents s) !! y) as HM.
  { intros y. unfold M'. rewrite !lookup_fmap. cbn. destruct (decide (y = old)) as [->|N1]; [rewrite lookup_insert_eq; cbn; unfold rn_of; cbn; f_equal; f_equal; by injection Eb|].
    rewrite lookup_insert_ne by done. destruct (decide (y = de_next od)) as [->|N2]; [by rewrite lookup_insert_eq|]. rewrite lookup_insert_ne by done.
    destruct (decide (y = p)) as [->|N3]; [by rewrite lookup_insert_eq|]. by rewrite lookup_insert_ne. }
  intros D' HD'. apply (ring_join (M := rn_of <$> dents s) (D := dentry_htab s) _ D' p (de_fh d) (gn_of f) old (de_next od)); [done| |done|done|done|by rewrite lookup_fmap, Hod|done| | |].
  - rewrite lookup_fmap, Hd. cbn. unfold rn_of. by rewrite En, Ev.
  - intros y. rewrite HM, !lookup_fmap. do 3 (goal_decide; [subst y; rewrite ?Hod, ?Hcd, ?Hd; done|]). done.
  - intros y. rewrite HM, !lookup_fmap. do 3 (goal_decide; [subst y; rewrite ?Hod, ?Hcd, ?Hd, ?decide_False by done; done|]). done.
  - intros y. rewrite HM, !lookup_fmap. destruct (decide (y = old)) as [->|N1].
    + cbn. rewrite Ep, Hod. destruct (decide (old = de_next od)); [done|]. by rewrite decide_False.
    + destruct (decide (y = de_next od)) as [->|N2]; [done|]. by destruct (decide (y = p)).
Qed.

(** Lowering keys only touches entries. *)
Lemma lower_key_ok s p d : calm s -> dents s !! p = Some d -> exists s', lower_key s p = Ok s' /\ sim s s' /\ calm s'.
Proof.
  intros Hc Hd. unfold lower_key. rewrite (de_at_eq _ _ _ Hd). cbn [mbind res_bind]. destruct (de_node d) as [n|] eqn:En; [|exists s; split; [done|split; [apply sim_refl|done]]].
  destruct (ca_queue _ Hc) as (Q1 & _ & Q3). destruct (Q3 _ _ _ Hd En) as [k Hk]. rewrite (kq_key_ok _ _ _ _ Q1 Hk). cbn [mbind res_bind].
  destruct (k =? FIBHEAPKEY_MAX); [|exists s; split; [done|split; [apply sim_refl|done]]].
  destruct (update_ok s p d Hc Hd) as (s' & _ & E & Hs & Hc' & _). by exists s'.
Qed.

Lemma lower_chain_ok p l : forall fuel s a b, calm s -> chain (rn_of <$> dents s) a l p -> r_next <$> (rn_of <$> dents s) !! a = Some b -> p ∉ l -> (length l <= fuel)%nat ->
  exists s', lower_keys fuel s p b = Ok s' /\ sim s s' /\ calm s'.
Proof.
  induction l as [|c l IH]; intros fuel s a b Hc Hch Hb Hp Hfuel.
  - destruct Hch as [E _]. rewrite Hb in E. injection E as ->. exists s. split; [destruct fuel; cbn [lower_keys]; by rewrite decide_True|]. split; [apply sim_refl|done].
  - destruct Hch as [[E E'] Hch]. rewrite Hb in E. injection E as ->. apply not_elem_of_cons in Hp as [Hpc Hp]. destruct fuel as [|fuel]; [cbn in Hfuel; lia|].
    cbn [lower_keys]. rewrite decide_False by done. rewrite lookup_fmap in E'. destruct (dents s !! c) as [d|] eqn:Hd; [|done].
    destruct (lower_key_ok s c d Hc Hd) as (s1 & E1 & Hs1 & Hc1). rewrite E1. cbn [mbind res_bind].
    pose proof (sim_fields _ _ Hs1) as (_ & _ & _ & _ & _ & _ & _ & _ & _ & _ & _ & _ & _ & _ & Er & _).
    destruct (sim_at _ _ _ _ Hs1 Hd) as (d1 & Hd1 & (_ & _ & _ & En & _)%erase_fields). rewrite (de_at_eq _ _ _ Hd1). cbn [mbind res_bind].
    destruct (IH fuel s1 c (de_next d1)) as (s2 & E2 & Hs2 & Hc2); [done|by rewrite Er|by rewrite lookup_fmap, Hd1|done|cbn in Hfuel; lia|].
    exists s2. split; [done|]. split; [by eapply sim_trans|done].
Qed.

Lemma lower_keys_ok s D p d f : ring_ok (rn_of <$> dents s) (gn_of <$> fhs s) D None -> calm s -> dents s !! p = Some d -> fhs s !! de_fh d = Some f ->
  exists s', lower_keys (size (dents s)) s p (de_next d) = Ok s' /\ sim s s' /\ calm s'.
Proof.
  intros Hr Hc Hd Hf. destruct (ring_find p (rn_of d) (gn_of f) Hr) as (l & Hl & _); [by apply fmap_lookup_Some|by apply fmap_lookup_Some|].
  pose proof (ring_length _ _ _ _ Hl) as Hlen. rewrite map_size_fmap in Hlen. destruct Hl as (Hnd & _ & Hcy & _). apply NoDup_cons in Hnd as [Hp _].
  apply (lower_chain_ok p l _ s p); [done|exact Hcy|by rewrite lookup_fmap, Hd|done|cbn in Hlen; lia].
Qed.

(** ** What stays *)

Definition fh_dir (f : ifh) : zfs_fh * bool := (local_fh f, is_dir f).
Definition users_at s (x : ptr) : option Z := de_users <$> dents s !! x.

(** Nothing of interest changes but perhaps the place of [p]. *)
Record kept (p : ptr) s s' : Prop := {
  ke_core : forall x, x <> p -> core s' x = core s x;
  ke_users : forall x, users_at s' x = users_at s x;
  ke_fhs : fh_dir <$> fhs s' = fh_dir <$> fhs s;
  ke_owned : owned s' = owned s;
  ke_now : now s' = now s;
  ke_vols : dom (vols s') = dom (vols s)
}.

Lemma kept_refl p s : kept p s s.
Proof. by split. Qed.

Lemma kept_steps p s1 s2 s3 : kept p s1 s2 -> kept p s2 s3 -> kept p s1 s3.
Proof. intros [A1 A2 A3 A4 A5 A6] [B1 B2 B3 B4 B5 B6]. split; [intros x Hx; rewrite B1, A1; done|intros x; by rewrite B2, A2|congruence..]. Qed.

Lemma users_fmap s x : users_at s x = (de_users <$> dents s) !! x.
Proof. unfold users_at. by rewrite lookup_fmap. Qed.

Lemma only_tree_kept p s s' : only_tree s s' -> (forall x, x <> p -> core s' x = core s x) -> kept p s s'.
Proof.
  intros Ho Hx. pose proof (only_fields _ _ Ho) as (_ & _ & E3 & E4 & E5 & _ & _ & _ & _ & _ & _ & _ & _ & E14 & E15). split; [done| | |done|done|congruence].
  - intros x. rewrite !users_fmap. f_equal. by apply (fmap_through base de_users de_users).
  - by apply (fmap_through fbase fh_dir fh_dir).
Qed.

Lemma sim_kept p s s' : sim s s' -> kept p s s'.
Proof. intros Hs. apply only_tree_kept; [by apply sim_only|]. intros x _. by apply sim_core. Qed.

Lemma only_vols_kept p s s' : only_vols s s' -> kept p s s'.
Proof.
  intros Ho. pose proof (only_vols_fields _ _ Ho) as (E1 & E2 & _ & _ & _ & E6 & E7 & E8 & _). split; unfold core, users_at; rewrite ?E1, ?E2; try done.
  by rewrite <-(dom_fmap_L root_dentry (vols s')), E6, dom_fmap_L.
Qed.

Lemma ring_kept p s m : ebase <$> m = ebase <$> dents s -> kept p s (set_dents s m) /\ core (set_dents s m) p = core s p.
Proof.
  intros E. assert (forall x, core (set_dents s m) x = core s x) as Hx.
  { intros x. unfold core. cbn. rewrite <-!lookup_fmap. f_equal. by apply (fmap_through ebase _ (fun d => (de_fh d, de_parent d, de_name d))). }
  split; [|done]. split; try done. intros x. rewrite !users_fmap. cbn. f_equal. by apply (fmap_through ebase de_users de_users).
Qed.

(** ** The end of a creation *)

Lemma only_vols_tree s s' E : only_vols s s' -> tree s E -> tree s' E.
Proof. intros (Ef & Ed & _ & _ & En & Ev & _)%only_vols_fields. unfold tree. by rewrite Ef, Ed, En, Ev. Qed.

Lemma only_vols_rings s s' P : only_vols s s' -> rings s P -> rings s' P.
Proof. intros (Ef & Ed & _ & En & _)%only_vols_fields. unfold rings. by rewrite Ef, Ed, En. Qed.

Lemma only_vols_calm s s' : only_vols s s' -> calm s -> calm s'.
Proof.
  intros (Ef & Ed & _ & _ & _ & _ & _ & En & _ & _ & Eh)%only_vols_fields [C1 C2 C3 C4 C5 C6]. split; rewrite ?Ef, ?Ed, ?En, ?Eh; done.
Qed.

Lemma only_vols_rest s s' : only_vols s s' -> rest s -> rest s'.
Proof.
  intros (Ef & Ed & Eh & _ & _ & _ & _ & _ & Ep & Eq & _)%only_vols_fields [R1 R2 R3 R4 R5 R6]. split; rewrite ?Ef, ?Ed, ?Eh, ?Ep, ?Eq; done.
Qed.

Lemma only_vols_live s s' : only_vols s s' -> live s -> live s'.
Proof. intros (_ & Ed & _)%only_vols_fields Hl x d. rewrite Ed. apply Hl. Qed.

Lemma ring_rest_live s m : ebase <$> m = ebase <$> dents s -> rest s -> live s -> rest (set_dents s m) /\ live (set_dents s m).
Proof.
  intros E [R1 R2 R3 R4 R5 R6] Hl. split.
  - split; try done. cbn. intros x. rewrite R5, <-!elem_of_dom. by rewrite (fmap_dom_eq _ _ _ E).
  - intros x d Hx. destruct (fmap_eq_at _ _ _ _ _ E Hx) as (d0 & Hd0 & Ed). assert (de_deleted d0 = de_deleted d) as <- by (by injection Ed). by apply (Hl x).
Qed.

Lemma ring_only s m : ebase <$> m = ebase <$> dents s -> only_ring s (set_dents s m).
Proof. intros E. by repeat (split; [done|]). Qed.

Lemma join_ring_ok s p d f parent : tree s None -> rings s (Some (p, de_fh d, 1)) -> calm s -> rest s -> live s ->
  dents s !! p = Some d -> de_next d = p -> de_prev d = p -> fhs s !! de_fh d = Some f -> (is_dir f = true -> dentry_htab s !! key_of (local_fh f) = None) ->
  exists s', join_ring s p parent (key_of (local_fh f)) = Ok s' /\ kept p s s' /\ core s' p = core s p /\
    tables_ok (set_htabs s' (fh_htab s') (<[key_of (local_fh f) := p]> (dentry_htab s')) (dentry_htab_name s')).
Proof.
  intros Ht Hr Hc Hrs Hl Hd En Ev Hf Hdir. unfold join_ring.
  assert (forall s', tree s' None -> rings (set_htabs s' (fh_htab s') (<[key_of (local_fh f) := p]> (dentry_htab s')) (dentry_htab_name s')) None -> calm s' -> rest s' -> live s' ->
    tables_ok (set_htabs s' (fh_htab s') (<[key_of (local_fh f) := p]> (dentry_htab s')) (dentry_htab_name s'))) as Hok.
  { intros s' B1 B2 [] [] B5. split; [done|]. split; [done|]. split; [by split|]. split; [by split|done]. }
  pose proof (fmap_lookup_Some gn_of _ _ _ Hf) as Hg.
  destruct (dentry_htab s !! key_of (local_fh f)) as [old|] eqn:Eold.
  - assert (is_dir f = false) as Hnd by (destruct (is_dir f); [by specialize (Hdir eq_refl)|done]).
    destruct (link_behind_ok s p d f old Hr Hd En Ev Hf Hnd Eold) as (s1 & E1 & Es1 & Eb & HD). rewrite E1. cbn [mbind res_bind].
    specialize (HD _ (or_intror eq_refl)). set (m := dents s1) in *. clearbody m. subst s1.
    destruct (ring_kept p s m Eb) as [Hk Hco]. destruct (ring_rest_live s m Eb Hrs Hl) as [Hrs1 Hl1].
    pose proof (only_ring_tree _ _ None (ring_only _ _ Eb) Ht) as Ht1. pose proof (only_ring_calm _ _ (ring_only _ _ Eb) Hc) as Hc1.
    destruct parent as [q|]; [|exists (set_dents s m); split; [done|split; [done|split; [done|by apply Hok]]]].
    destruct (fmap_eq_at _ _ _ _ _ (eq_sym Eb) Hd) as (d1 & Hd1 & Ed1).
    destruct (lower_key_ok (set_dents s m) p d1 Hc1 Hd1) as (s2 & E2 & Hs2 & Hc2). rewrite E2. cbn [mbind res_bind].
    destruct (sim_at _ _ _ _ Hs2 Hd1) as (d2 & Hd2 & Ed2). rewrite (de_at_eq _ _ _ Hd2). cbn [mbind res_bind].
    pose proof (sim_fields _ _ Hs2) as (S1 & _ & S3 & _ & _ & _ & _ & _ & _ & _ & _ & _ & _ & _ & S15 & _).
    assert (de_fh d2 = de_fh d) as Efh by (apply erase_fields in Ed2 as (-> & _); by injection Ed1).
    destruct (lower_keys_ok s2 (<[key_of (local_fh f) := p]> (dentry_htab s)) p d2 f) as (s3 & E3 & Hs3 & Hc3); [by rewrite S1, S15|done|done|by rewrite S1, Efh|].
    pose proof (sim_trans _ _ _ Hs2 Hs3) as Hs. exists s3. split; [done|]. split; [eapply kept_steps; [exact Hk|by apply sim_kept]|]. split; [by rewrite (sim_core _ _ _ Hs)|].
    pose proof (sim_fields _ _ Hs) as (U1 & _ & U3 & _ & _ & _ & _ & _ & _ & _ & _ & _ & _ & _ & U15 & _).
    apply Hok; [by eapply sim_tree| |done|by eapply sim_rest|by eapply sim_live]. unfold rings. cbn. rewrite U1, U3, U15. exact HD.
  - exists s. split; [done|]. split; [apply kept_refl|]. split; [done|]. apply Hok; [done| |done|done|done]. unfold rings. cbn.
    apply (ring_alone p (de_fh d) (gn_of f)); [done| |done|done]. rewrite lookup_fmap, Hd. cbn. unfold rn_of. by rewrite En, Ev.
Qed.

(** ** Creating an entry *)

(** The place where an entry is created is free. *)
Definition place_free s (parent : option ptr) (v : Z) (fh : zfs_fh) (name : list Z) : Prop :=
  match parent with
  | Some q => (exists qd qf, dents s !! q = Some qd /\ fhs s !! de_fh qd = Some qf /\ is_dir qf = true) /\ dentry_htab_name s !! (q, name) = None
  | None => vid fh = v /\ root_dentry <$> vols s !! v = Some None
  end.

Lemma only_tree_at s s' p d : only_tree s s' -> dents s !! p = Some d -> exists d', dents s' !! p = Some d' /\ de_fh d' = de_fh d /\ de_next d' = de_next d /\ de_prev d' = de_prev d.
Proof.
  intros (_ & _ & _ & _ & _ & _ & _ & _ & _ & _ & _ & _ & _ & E & _)%only_fields Hd. destruct (fmap_eq_at _ _ _ _ _ (eq_sym E) Hd) as (d' & Hd' & Ed).
  exists d'. split; [done|]. by injection Ed.
Qed.

Lemma kept_fh p s s' g f : kept p s s' -> fhs s !! g = Some f -> exists f', fhs s' !! g = Some f' /\ local_fh f' = local_fh f /\ is_dir f' = is_dir f.
Proof. intros Hk Hf. destruct (fmap_eq_at _ _ _ _ _ (eq_sym (ke_fhs _ _ _ Hk)) Hf) as (f' & Hf' & [= E1 E2]). by exists f'. Qed.

Lemma enter_dir_ok s0 s p g f name q v : tables_ok s0 -> Z.of_nat (S (size (dents s0))) < UINT32_MAX -> entering s0 s p g f name ->
  place_free s0 (Some q) v (local_fh f) name ->
  exists s1 s2, dentry_update_cleanup_node s p = Ok s1 /\ internal_dentry_add_to_dir s1 q p = Ok s2 /\ only_tree s s2 /\ tree s2 None /\ rings s2 (Some (p, g, 1)) /\
    calm s2 /\ rest s2 /\ live s2 /\ kept p s s2 /\ core s2 p = Some (g, Some q, name) /\ exists d, dents s2 !! p = Some d /\ de_fh d = g /\ de_next d = p /\ de_prev d = p.
Proof.
  intros Hok Hsz He ((qd & qf & Hq & Hqf & Hdir) & Hn). destruct (entering_ok _ _ _ _ _ _ Hok Hsz He) as (Ht & Hr & Hc & Hrs & Hl).
  assert (dents s !! p = Some (De g None name p p 0 (now s0) None 0 false)) as Hd by (rewrite (en_dents _ _ _ _ _ _ He); apply lookup_insert_eq).
  assert (q <> p) as Hqp by (intros ->; pose proof (en_fresh _ _ _ _ _ _ He); congruence).
  assert (dents s !! q = Some qd) as Hq' by (rewrite (en_dents _ _ _ _ _ _ He); by rewrite lookup_insert_ne).
  assert (exists qf', fhs s !! de_fh qd = Some qf' /\ is_dir qf' = true) as (qf' & Hqf' & Hdir').
  { rewrite (en_fhs _ _ _ _ _ _ He). destruct (decide (g = de_fh qd)) as [->|Hne]; [|rewrite lookup_insert_ne by done; by exists qf].
    exists f. rewrite lookup_insert_eq. split; [done|]. destruct (en_old _ _ _ _ _ _ He) as [(f' & Hf' & _ & _ & E & _)|(Hg & _)]; congruence. }
  destruct (update_add_ok s p _ q qd qf' Ht Hc Hd Hq' Hqp Hqf' Hdir') as (s1 & s2 & E1 & E2 & Ho & Hc2 & Ht2 & Hp2 & Hx2).
  { intros Hu. apply Hqp. destruct Hok as (_ & _ & Hc0 & _). by apply (entering_top _ _ _ _ _ _ _ Hc0 He). }
  { by rewrite (en_names _ _ _ _ _ _ He). }
  exists s1, s2. split; [done|]. split; [done|]. split; [done|]. split; [done|]. split; [by eapply only_rings|]. split; [done|].
  split; [by eapply only_rest|]. split; [by eapply only_live|]. split; [by apply only_tree_kept|]. split; [done|]. by destruct (only_tree_at _ _ _ _ Ho Hd) as (d' & Hd' & F); exists d'.
Qed.

Lemma place_ok s0 s p g f name v parent : tables_ok s0 -> Z.of_nat (S (size (dents s0))) < UINT32_MAX -> entering s0 s p g f name ->
  is_Some (vols s !! v) -> place_free s0 parent v (local_fh f) name ->
  exists s', place_entry this_node s p (local_fh f) v parent = Ok s' /\ tree s' None /\ rings s' (Some (p, g, 1)) /\ calm s' /\ rest s' /\ live s' /\
    kept p s s' /\ core s' p = Some (g, parent, name) /\ dentry_htab s' = dentry_htab s /\
    exists d, dents s' !! p = Some d /\ de_fh d = g /\ de_next d = p /\ de_prev d = p.
Proof.
  intros Hok Hsz He [x Hx] Hfree. unfold place_entry. destruct parent as [q|].
  - destruct (enter_dir_ok s0 s p g f name q v Hok Hsz He Hfree) as (s1 & s2 & E1 & E2 & Ho & Ht2 & Hr2 & Hc2 & Hrs2 & Hl2 & Hk & Hp2 & Hd2).
    rewrite E1. cbn [mbind res_bind]. rewrite E2. cbn [mbind res_bind]. pose proof (only_fields _ _ Ho) as (_ & Eh & Ev & _).
    assert (exists s3, (if has_local_path this_node (local_fh f) then let '(b, s) := next_result s2 in if b : bool then Ok s else MARK_VOLUME_DELETE s v else Ok s2) = Ok s3 /\ only_vols s2 s3)
      as (s3 & E3 & Hv3).
    { destruct (has_local_path this_node (local_fh f)); [|exists s2; split; [done|apply only_vols_refl]]. destruct (next_result_ok s2) as (b & s3 & -> & Hv). destruct b; [by exists s3|].
      destruct (mark_ok s3 v) as (s4 & -> & Hv4); [apply (only_vols_some s2); [done|]; rewrite Ev; by eexists|]. exists s4. split; [done|by eapply only_vols_trans]. }
    rewrite E3. exists s3. split; [done|]. pose proof (only_vols_fields _ _ Hv3) as (_ & G2 & _ & G4 & _).
    split; [by eapply only_vols_tree|]. split; [by eapply only_vols_rings|]. split; [by eapply only_vols_calm|]. split; [by eapply only_vols_rest|].
    split; [by eapply only_vols_live|]. split; [eapply kept_steps; [done|by apply only_vols_kept]|]. split; [unfold core in *; by rewrite G2|]. split; [congruence|by rewrite G2].
  - destruct (entering_ok _ _ _ _ _ _ Hok Hsz He) as (Ht & Hr & Hc & Hrs & Hl).
    assert (dents s !! p = Some (De g None name p p 0 (now s0) None 0 false)) as Hd by (rewrite (en_dents _ _ _ _ _ _ He); apply lookup_insert_eq).
    assert (fhs s !! g = Some f) as Hf by (rewrite (en_fhs _ _ _ _ _ _ He); apply lookup_insert_eq).
    destruct Hfree as [Ev Hroot]. unfold vol_at. rewrite Hx. cbn [mbind res_bind]. eexists. split; [reflexivity|].
    assert (root_dentry <$> <[v := DVol (Some p) (dv_locked x) (last_conflict_ino x) (dv_delete_p x)]> (vols s) = <[v := Some p]> (root_dentry <$> vols s)) as Er by (by rewrite fmap_insert).
    split; [|split; [done|split; [by destruct Hc|split; [by destruct Hrs|split; [done|split; [|split; [|split; [done|]]]]]]]].
    + unfold tree. cbn. rewrite Er. rewrite <-Ev. apply (tree_root_set p (TN g None name 0) (fn_of f)); [done|by apply (fmap_lookup_Some tn_of _ _ _ Hd)|by apply fmap_lookup_Some|].
      cbn. rewrite (en_roots _ _ _ _ _ _ He), Ev, lookup_fmap. destruct (vols s0 !! v) as [y|]; [|done]. cbn in *. congruence.
    + split; try done. cbn. rewrite dom_insert_L. assert (v ∈ dom (vols s)) by (apply elem_of_dom; by eexists). set_solver.
    + unfold core. cbn. by rewrite Hd.
    + by eexists.
Qed.

(** A file that exists already is no directory. *)
Definition same_file s (fh : zfs_fh) (attr : fattr) : Prop :=
  forall g f, fhs s !! g = Some f -> local_fh f = fh -> is_dir f = false /\ fa_type attr <> FT_DIR.

Lemma handle_for_ok junk s p pl fh master attr meta v name : tables_ok s -> dents s !! p = None -> pool_ok pl -> in_use pl = p :: in_use (dentry_pool s) ->
  is_Some (vols s !! v) -> meta_fits fh meta = true -> gen fh <> 0 -> CONFLICT_DIR_P fh = false -> same_file s fh attr ->
  exists s1 g f1, handle_for this_node junk (set_pools s (fh_pool s) pl) p fh master attr meta v LEVEL_UNLOCKED = Ok (s1, g, 0) /\
    fhs s1 !! g = Some f1 /\ dom (vols s1) = dom (vols s) /\ local_fh f1 = fh /\ is_dir f1 = bool_decide (fa_type attr = FT_DIR) /\
    entering s (set_fh (new_dentry s1 g p name 0) g (with_ndentries f1 (u32 (ndentries f1 + 1)))) p g (with_ndentries f1 (u32 (ndentries f1 + 1))) name.
Proof.
  intros (Ht & Hr & Hc & Hrs & Hl) Hp Hpl Hin Hv Hm Hgen Hcf Hsf. unfold handle_for. set (s0 := set_pools _ _ _). change (fh_htab s0) with (fh_htab s).
  destruct (fh_htab s !! key_of fh) as [g|] eqn:Ek.
  - destruct (proj1 (rs_fh_htab _ Hrs _ _) Ek) as (f & Hf & E%key_of_inj). destruct (Hsf _ _ Hf E) as [Hd Ha].
    rewrite (on_fh_eq _ s0 g f Hf). cbn [mbind res_bind]. eexists _, g, (with_attr f attr). split; [reflexivity|].
    split; [apply lookup_insert_eq|]. split; [done|]. split; [done|]. split; [done|]. split; try done.
    + cbn. by rewrite insert_insert_eq.
    + cbn [fh_htab set_fh set_fhs new_dentry set_de set_dents local_fh with_ndentries with_attr]. rewrite insert_id; [done|]. by rewrite E.
    + cbn. split; [apply Hrs|]. intros x. split; [auto|]. intros [->|Hx]; [|done]. apply (rs_fh_used _ Hrs). by eexists.
    + cbn. split; [done|]. intros x. by rewrite Hin, elem_of_cons.
    + cbn. by rewrite E.
    + left. exists f. split; [done|]. cbn. split; [done|]. split; [done|]. split; [|done]. transitivity (bool_decide (fa_type attr = FT_DIR)); [done|].
      rewrite Hd. by rewrite bool_decide_eq_false_2.
  - destruct (fh_create_ok junk s0 fh master attr meta v) as (s1 & g & f & pl' & E & Hg & Hpl' & Hin' & F1 & F2 & F3 & F4 & Ho); [apply Hrs|apply Hrs|done|done|done|].
    rewrite E. cbn [mbind res_bind]. rewrite Z.eqb_refl. exists s1, g, f. split; [done|].
    pose proof (only_vols_fields _ _ Ho) as (V1 & V2 & V3 & V4 & V5 & V6 & V7 & V8 & V9 & V10 & V11).
    cbn in V1, V2, V3, V4, V5, V6, V7, V8, V9, V10, V11.
    split; [by rewrite V1, lookup_insert_eq|]. split; [by apply (ke_vols _ _ _ (only_vols_kept p _ _ Ho))|]. split; [done|]. split; [done|].
    split; cbn -[key_of]; rewrite ?V1, ?V2, ?V3, ?V8, ?V9, ?V10, ?F1, ?F2; try done.
    + by rewrite insert_insert_eq.
    + split; [done|]. intros x. by rewrite Hin, elem_of_cons.
    + right. done.
Qed.

(** [s'] is [s] with a new entry of the file [fh]. *)
Record added s s' (p : ptr) (fh : zfs_fh) (dir : bool) (parent : option ptr) (name : list Z) : Prop := {
  ad_fresh : dents s !! p = None;
  ad_entry : exists g f, core s' p = Some (g, parent, name) /\ fhs s' !! g = Some f /\ local_fh f = fh /\ is_dir f = dir;
  ad_users : users_at s' p = Some 0;
  ad_keep : forall x, x <> p -> core s' x = core s x /\ users_at s' x = users_at s x;
  ad_fhs : forall g f, fhs s !! g = Some f -> exists f', fhs s' !! g = Some f' /\ fh_dir f' = fh_dir f;
  ad_rest : owned s' = owned s /\ now s' = now s /\ dom (vols s') = dom (vols s)
}.

Lemma entering_added s s2 s3 p g f2 name parent : entering s s2 p g f2 name -> dom (vols s2) = dom (vols s) -> kept p s2 s3 -> core s3 p = Some (g, parent, name) ->
  added s s3 p (local_fh f2) (is_dir f2) parent name.
Proof.
  intros He Hv Hk Hp. assert (fhs s2 !! g = Some f2) as Hf by (rewrite (en_fhs _ _ _ _ _ _ He); apply lookup_insert_eq). split.
  - apply He.
  - destruct (kept_fh _ _ _ _ _ Hk Hf) as (f' & Hf' & E1 & E2). by exists g, f'.
  - rewrite (ke_users _ _ _ Hk). unfold users_at. by rewrite (en_dents _ _ _ _ _ _ He), lookup_insert_eq.
  - intros x Hx. rewrite (ke_core _ _ _ Hk) by done. rewrite (ke_users _ _ _ Hk). unfold core, users_at. by rewrite (en_dents _ _ _ _ _ _ He), lookup_insert_ne.
  - intros h f Hh. assert (exists f', fhs s2 !! h = Some f' /\ fh_dir f' = fh_dir f) as (f' & Hf' & E).
    { rewrite (en_fhs _ _ _ _ _ _ He). destruct (decide (g = h)) as [->|Hne]; [|rewrite lookup_insert_ne by done; by exists f]. exists f2. rewrite lookup_insert_eq. split; [done|].
      destruct (en_old _ _ _ _ _ _ He) as [(f' & Hf' & E1 & _ & E3 & _)|(Hg & _)]; [|congruence]. unfold fh_dir. congruence. }
    destruct (kept_fh _ _ _ _ _ Hk Hf') as (f3 & Hf3 & E1 & E2). exists f3. split; [done|]. rewrite <-E. unfold fh_dir. congruence.
  - rewrite (ke_owned _ _ _ Hk), (ke_now _ _ _ Hk), (ke_vols _ _ _ Hk), Hv, (en_owned _ _ _ _ _ _ He), (en_now _ _ _ _ _ _ He). done.
Qed.

Lemma create_ok junk s fh master v parent name attr meta : tables_ok s -> Z.of_nat (S (size (dents s))) < UINT32_MAX -> is_Some (vols s !! v) ->
  meta_fits fh meta = true -> gen fh <> 0 -> CONFLICT_DIR_P fh = false -> same_file s fh attr -> place_free s parent v fh name ->
  exists s' p, internal_dentry_create this_node junk s fh master v parent name attr meta LEVEL_UNLOCKED = Ok (s', p) /\ tables_ok s' /\
    added s s' p fh (bool_decide (fa_type attr = FT_DIR)) parent name.
Proof.
  intros Hok Hsz Hv Hm Hgen Hcf Hsf Hfree. pose proof Hok as (Ht & Hr & Hc & Hrs & Hl). unfold internal_dentry_create.
  destruct (pool_alloc_ok _ (rs_de_pool _ Hrs)) as (p & pl & Ep & Hpl & Hpu & Hin). rewrite Ep. cbn [mbind res_bind]. rewrite Hcf.
  assert (dents s !! p = None) as Hp. { destruct (dents s !! p) eqn:E; [|done]. exfalso. apply Hpu, (rs_de_used _ Hrs). by eexists. }
  destruct (handle_for_ok junk s p pl fh master attr meta v name) as (s1 & g & f1 & E1 & Hf1 & Hd1 & Efh & Edir & He); [done..|]. cbn [mbind res_bind]. rewrite E1. cbn [mbind res_bind].
  rewrite (on_fh_eq _ (new_dentry s1 g p name 0) g f1 Hf1). cbn [mbind res_bind]. set (f2 := with_ndentries _ _) in *. set (s2 := set_fh _ _ f2) in *.
  assert (local_fh f2 = fh) as Efh2 by done. assert (is_dir f2 = bool_decide (fa_type attr = FT_DIR)) as Edir2 by done. assert (dom (vols s2) = dom (vols s)) as Hd2 by done.
  destruct (place_ok s s2 p g f2 name v parent Hok Hsz He) as (s3 & E3 & Ht3 & Hr3 & Hc3 & Hrs3 & Hl3 & Hk3 & Hp3 & Eh3 & d & Hd & Eg & En & Ev).
  { apply elem_of_dom. rewrite Hd2. by apply elem_of_dom. }
  { by rewrite Efh2. }
  rewrite Efh2 in E3. rewrite E3. cbn [mbind res_bind].
  assert (fhs s2 !! g = Some f2) as Hf2 by apply lookup_insert_eq. destruct (kept_fh _ _ _ _ _ Hk3 Hf2) as (f3 & Hf3 & Efh3 & Edir3).
  rewrite <-Eg in Hr3, Hf3. destruct (join_ring_ok s3 p d f3 parent Ht3 Hr3 Hc3 Hrs3 Hl3 Hd En Ev Hf3) as (s4 & E4 & Hk4 & Hp4 & Hok4).
  { intros Hdir. rewrite Eh3, (en_rings _ _ _ _ _ _ He). destruct (en_old _ _ _ _ _ _ He) as [(f & Hf & E & _ & Ed & _)|(Hg & Hk & _)].
    - destruct (Hsf g f Hf) as [Hnd _]; congruence.
    - destruct (dentry_htab s !! key_of (local_fh f3)) as [h|] eqn:Eh; [|done]. destruct (ro_keys _ _ _ _ Hr _ _ Eh) as (g' & x & Hx & Ex). rewrite lookup_fmap in Hx.
      destruct (fhs s !! g') as [f|] eqn:Hf; [|done]. injection Hx as <-. cbn in Ex. assert (fh_htab s !! key_of (local_fh f) = Some g') by (apply (rs_fh_htab _ Hrs); by exists f). congruence. }
  rewrite Efh3, Efh2 in E4, Hok4. rewrite E4. cbn [mbind res_bind]. eexists _, p. split; [reflexivity|]. split; [done|].
  rewrite <-Efh2, <-Edir2. apply (entering_added s s2 _ p g f2 name parent He Hd2); [|].
  - eapply kept_steps; [exact Hk3|]. destruct Hk4. by split.
  - transitivity (core s4 p); [done|]. congruence.
Qed.

(** ** Links *)

Lemma dentry_link_ok s orig od f q name : tables_ok s -> Z.of_nat (S (size (dents s))) < UINT32_MAX -> dents s !! orig = Some od -> fhs s !! de_fh od = Some f -> is_dir f = false ->
  place_free s (Some q) 0 (local_fh f) name ->
  exists s' p, internal_dentry_link s orig q name = Ok (s', p) /\ tables_ok s' /\ added s s' p (local_fh f) false (Some q) name.
Proof.
  intros Hok Hsz Hod Hf Hdir Hfree. pose proof Hok as (Ht & Hr & Hc & Hrs & Hl). unfold internal_dentry_link, dentry_lookup_name, dentry_lookup_name_nolock.
  cbn [mbind res_bind]. rewrite (proj2 Hfree). cbn [mbind res_bind].
  destruct (pool_alloc_ok _ (rs_de_pool _ Hrs)) as (p & pl & Ep & Hpl & Hpu & Hin). rewrite Ep. cbn [mbind res_bind]. rewrite (de_at_eq _ _ _ Hod). cbn [mbind res_bind].
  assert (dents s !! p = None) as Hp. { destruct (dents s !! p) eqn:E; [|done]. exfalso. apply Hpu, (rs_de_used _ Hrs). by eexists. }
  set (g := de_fh od) in *. rewrite (on_fh_eq _ _ g f) by done. cbn [mbind res_bind]. set (f2 := with_ndentries f _). set (s2 := new_dentry _ g p name 0).
  assert (entering s s2 p g f2 name) as He.
  { split; try done.
    - cbn. rewrite insert_id; [done|]. apply (rs_fh_htab _ Hrs). by exists f.
    - cbn. split; [apply Hrs|]. intros x. split; [auto|]. intros [->|Hx]; [|done]. apply (rs_fh_used _ Hrs). by eexists.
    - cbn. split; [done|]. intros x. by rewrite Hin, elem_of_cons.
    - split; [apply (rs_gen _ Hrs g f Hf)|apply (ca_conflict _ Hc g f Hf)].
    - left. by exists f. }
  destruct (enter_dir_ok s s2 p g f2 name q 0 Hok Hsz He Hfree) as (s3 & s4 & E3 & E4 & Ho & Ht4 & Hr4 & Hc4 & Hrs4 & Hl4 & Hk4 & Hp4 & d & Hd & Eg & En & Ev).
  rewrite E3. cbn [mbind res_bind]. rewrite E4. cbn [mbind res_bind]. assert (fhs s2 !! g = Some f2) as Hf2 by apply lookup_insert_eq.
  destruct (kept_fh _ _ _ _ _ Hk4 Hf2) as (f4 & Hf4 & Efh4 & Edir4). rewrite (fh_at_eq _ _ _ Hf4). cbn [mbind res_bind].
  pose proof (only_fields _ _ Ho) as (_ & Eh4 & _). destruct (handle_used s g f Hr Hf) as (old & _ & _ & _ & Hold).
  assert (dentry_htab s4 !! key_of (local_fh f4) = Some old) as Hold4 by (rewrite Eh4, Efh4; done). rewrite Hold4. rewrite <-Eg in Hr4, Hf4.
  destruct (link_behind_ok s4 p d f4 old Hr4 Hd En Ev Hf4) as (s5 & E5 & Es5 & Eb & HD); [by rewrite Edir4|done|]. rewrite E5. cbn [mbind res_bind].
  specialize (HD _ (or_introl eq_refl)). set (m := dents s5) in *. clearbody m. subst s5. destruct (ring_kept p s4 m Eb) as [Hk5 Hp5]. destruct (ring_rest_live s4 m Eb Hrs4 Hl4) as [Hrs5 Hl5].
  eexists _, p. split; [reflexivity|]. split.
  - split; [by apply (only_ring_tree _ _ None (ring_only _ _ Eb))|]. split; [exact HD|]. split; [by apply (only_ring_calm _ _ (ring_only _ _ Eb))|done].
  - rewrite <-Hdir. apply (entering_added s s2 _ p g f2 name (Some q) He); [done|by eapply kept_steps|congruence].
Qed.

(** ** Lookups *)

Lemma acquire_ok s p d : tables_ok s -> dents s !! p = Some d -> exists s', acquire_dentry s p = Ok s' /\ sim s s' /\ tables_ok s'.
Proof.
  intros Hok Hd. pose proof Hok as (_ & _ & Hc & _ & Hl). unfold acquire_dentry. rewrite (de_at_eq _ _ _ Hd). cbn [mbind res_bind]. rewrite (Hl _ _ Hd).
  destruct (update_ok s p d Hc Hd) as (s' & _ & E & Hs & Hc' & _). exists s'. split; [done|]. split; [done|by eapply sim_tables].
Qed.

Lemma ring_head_at s fh p : rings s None -> dentry_htab s !! key_of fh = Some p ->
  exists d f, dents s !! p = Some d /\ fhs s !! de_fh d = Some f /\ local_fh f = fh.
Proof.
  intros Hr E. destruct (ro_keys _ _ _ _ Hr _ _ E) as (g & x & Hx & Ex). rewrite lookup_fmap in Hx. destruct (fhs s !! g) as [f|] eqn:Hf; [|done]. injection Hx as <-. cbn in Ex.
  destruct (handle_used s g f Hr Hf) as (p' & d & Hd & Eg & Ep). rewrite Ex, E in Ep. injection Ep as <-. exists d, f. rewrite Eg. split; [done|]. split; [done|]. by apply key_of_inj.
Qed.

Lemma lookup_ok s fh : tables_ok s -> gen fh <> 0 -> exists s', dentry_lookup s fh = Ok (s', dentry_htab s !! key_of fh) /\ sim s s' /\ tables_ok s'.
Proof.
  intros Hok Hg. pose proof Hok as (_ & Hr & _). unfold dentry_lookup. rewrite (proj2 (Z.eqb_neq _ _) Hg).
  destruct (dentry_htab s !! key_of fh) as [p|] eqn:E; [|exists s; split; [done|split; [apply sim_refl|done]]].
  destruct (ring_head_at s fh p Hr E) as (d & f & Hd & _).
  destruct (acquire_ok s p d Hok Hd) as (s' & E' & Hs & Hok'). rewrite E'. cbn [mbind res_bind]. by exists s'.
Qed.

(** The entry of a name: in a directory, or the root of a volume. *)
Definition named s (vol : option Z) (parent : option ptr) (name : list Z) : option ptr :=
  match parent, vol with
  | Some q, _ => dentry_htab_name s !! (q, name)
  | None, Some v => vols s !! v ≫= root_dentry
  | None, None => None
  end.

Lemma named_entry s vol parent name p : tree s None -> named s vol parent name = Some p -> exists d, dents s !! p = Some d /\ de_parent d = parent.
Proof.
  intros Ht. unfold named. destruct parent as [q|], vol as [v|]; try done.
  - intros (t & Hp & Eq & _)%(to_name _ _ _ _ _ Ht). destruct (above_at _ _ _ Hp) as (d & Hd & ->). by exists d.
  - intros (t & Hp & Eq & _)%(to_name _ _ _ _ _ Ht). destruct (above_at _ _ _ Hp) as (d & Hd & ->). by exists d.
  - intros (x & Hx & Ex)%bind_Some. assert ((root_dentry <$> vols s) !! v = Some (Some p)) as Hv by (by rewrite lookup_fmap, Hx; cbn; rewrite Ex).
    destruct (to_root _ _ _ _ _ Ht _ _ Hv) as (t & _ & Hp & Eq & _). destruct (above_at _ _ _ Hp) as (d & Hd & ->). by exists d.
Qed.

Lemma dentry_lookup_name_ok s vol parent name : tables_ok s -> (parent = None -> exists v, vol = Some v /\ is_Some (vols s !! v)) ->
  exists s', dentry_lookup_name s vol parent name = Ok (s', named s vol parent name) /\ sim s s' /\ tables_ok s'.
Proof.
  intros Hok Hv. pose proof Hok as (Ht & _). unfold dentry_lookup_name, dentry_lookup_name_nolock.
  assert (match parent, vol with Some q, _ => Ok (dentry_htab_name s !! (q, name)) | None, Some v => x ← vol_at s v; Ok (root_dentry x) | None, None => Aborted end =
    Ok (named s vol parent name)) as ->.
  { destruct parent as [q|]; [by destruct vol|]. destruct (Hv eq_refl) as (v & -> & x & Hx). unfold vol_at, named. rewrite Hx. done. }
  cbn [mbind res_bind]. destruct (named s vol parent name) as [p|] eqn:E; [|exists s; split; [done|split; [apply sim_refl|done]]].
  destruct (named_entry _ _ _ _ _ Ht E) as (d & Hd & Ep). rewrite (de_at_eq _ _ _ Hd). cbn [mbind res_bind]. rewrite decide_True by done. cbn [mbind res_bind].
  destruct (acquire_ok s p d Hok Hd) as (s' & E' & Hs & Hok'). rewrite E'. cbn [mbind res_bind]. by exists s'.
Qed.

(** ** Moving an entry *)

Lemma is_above_ok s p q n : depth (above s) q n -> ~ under (above s) p q -> forall fuel, (n < fuel)%nat -> is_above fuel s p (Some q) = Ok false.
Proof.
  induction 1 as [q t Hq E|q t q' n Hq E Hn IH]; intros Hu fuel Hf; (destruct fuel as [|fuel]; [lia|]); cbn [is_above];
    (rewrite decide_False by (intros ->; apply Hu; constructor)); destruct (above_at _ _ _ Hq) as (d & Hd & ->); cbn in E; rewrite (de_at_eq _ _ _ Hd); cbn [mbind res_bind]; rewrite E.
  - by destruct fuel.
  - apply IH; [|lia]. intros Hu'. apply Hu. by apply (under_step _ _ q (tn_of d) q').
Qed.

Lemma rename_to_ok s p d q0 q qd qf name : tables_ok s -> dents s !! p = Some d -> de_parent d = Some q0 -> dents s !! q = Some qd -> fhs s !! de_fh qd = Some qf ->
  is_dir qf = true -> ~ under (above s) p q -> dentry_htab_name s !! (q, name) = None ->
  exists s', rename_to s p q name = Ok s' /\ tables_ok s' /\ kept p s s' /\ core s' p = Some (de_fh d, Some q, name).
Proof.
  intros (Ht & Hr & Hc & Hrs & Hl) Hd Ep Hq Hqf Hdir Hu Hn. assert (q <> p) as Hqp by (intros ->; apply Hu; constructor). unfold rename_to.
  destruct (del_from_dir_ok s p d q0 Ht Hc Hd Ep) as (s1 & d1 & E1 & Ho1 & Hc1 & Ht1 & Hd1 & Ep1 & En1 & Eb1 & Enm1 & Ef1 & Hx1). rewrite E1. cbn [mbind res_bind].
  rewrite (on_de_eq _ _ _ _ Hd1). cbn [mbind res_bind]. set (s2 := set_de s1 p (with_name d1 name)).
  assert (only_tree s1 s2) as Ho2.
  { exists (dents s2), (fhs s1), (dentry_htab_name s1), (cleanup_dentry_heap s1). split; [by destruct s1|]. split; [|done]. by apply (fmap_insert_same base _ _ d1). }
  assert (tree s2 (Some p)) as Ht2.
  { unfold tree. cbn. rewrite fmap_insert. unfold tn_of at 1. cbn. rewrite Ep1. apply (tree_rename p (tn_of d1)); [done|by apply fmap_lookup_Some]. }
  assert (calm s2) as Hc2.
  { assert (s2 = set_heap (set_de s1 p (with_name d1 name)) (cleanup_dentry_heap s1)) as -> by (by destruct s1).
    apply (calm_entry _ _ p d1); [done|done|done|done|]. apply (queue_entry _ _ _ d1); [apply Hc1|done|done]. }
  assert (forall x, x <> p -> core s2 x = core s x) as Hx2 by (intros x Hx; rewrite <-Hx1 by done; unfold core; cbn; by rewrite lookup_insert_ne).
  assert (dents s2 !! p = Some (with_name d1 name)) as Hd2 by apply lookup_insert_eq.
  assert (forall x t q', x <> p -> above s2 !! x = Some t -> t_parent t = Some q' -> exists t', above s !! x = Some t' /\ t_parent t' = Some q' /\ t_name t' = t_name t) as Hup.
  { intros x t q' Hx Ht' Eq. specialize (Hx2 x Hx). rewrite !core_tn, Ht' in Hx2. destruct (above s !! x) as [t'|]; [|done]. exists t'. cbn in Hx2. injection Hx2. intros. split; [done|split; congruence]. }
  assert (forall t, above s2 !! p = Some t -> t_parent t = None) as Htop by (intros t; rewrite lookup_fmap, Hd2; intros [= <-]; done).
  pose proof (Hx2 q Hqp) as Hcq. unfold core in Hcq. rewrite Hq in Hcq. destruct (dents s2 !! q) as [qd2|] eqn:Hq2; [|done]. cbn in Hcq. injection Hcq as Eqf _ _.
  assert (kept p s s2) as Hk2 by (apply only_tree_kept; [by eapply only_tree_trans|done]).
  destruct (kept_fh _ _ _ _ _ Hk2 Hqf) as (qf2 & Hqf2 & _ & Edir2). rewrite <-Eqf in Hqf2.
  destruct (add_to_dir_ok s2 p (with_name d1 name) q qd2 qf2) as (s3 & E3 & Ho3 & Hc3 & Ht3 & Hp3 & Hx3); [done|done|done|done|done|congruence| | |].
  - intros Hu2. apply Hu. clear - Hu2 Hup Htop. induction Hu2 as [|x t q' Hx Eq Hu2 IH]; [constructor|].
    destruct (decide (x = p)) as [->|Hne]; [constructor|]. destruct (Hup _ _ _ Hne Hx Eq) as (t' & Hx' & Eq' & _). by econstructor.
  - cbn. destruct (dentry_htab_name s1 !! (q, name)) as [x|] eqn:Ex; [|done]. exfalso.
    assert (dentry_htab_name s2 !! (q, name) = Some x) as (t & Hx & Eq & En)%(to_name _ _ _ _ _ Ht2) by done.
    destruct (decide (x = p)) as [->|Hne]; [rewrite (Htop _ Hx) in Eq; done|]. destruct (Hup _ _ _ Hne Hx Eq) as (t' & Hx' & Eq' & En').
    assert (dentry_htab_name s !! (q, name) = Some x) as E by (apply (to_name _ _ _ _ _ Ht); exists t'; split; [done|split; congruence]). congruence.
  - rewrite E3. exists s3. pose proof (only_tree_trans _ _ _ (only_tree_trans _ _ _ Ho1 Ho2) Ho3) as Ho. split; [done|].
    split; [split; [done|split; [by eapply only_rings|split; [done|split; [by eapply only_rest|by eapply only_live]]]]|].
    split; [apply only_tree_kept; [done|]; intros x Hx; by rewrite Hx3, Hx2|]. cbn in Hp3. congruence.
Qed.

Lemma add_invalidated_ok s x : tables_ok s -> tables_ok (add_invalidated s x).
Proof. intros (Ht & Hr & [] & [] & Hl). split; [done|]. split; [done|]. split; [by split|]. split; [by split|done]. Qed.

Lemma move_ok s from from_name p d q qd qf new_name from_fh to_fh : tables_ok s -> dentry_htab_name s !! (from, from_name) = Some p -> dents s !! p = Some d ->
  dents s !! q = Some qd -> fhs s !! de_fh qd = Some qf -> is_dir qf = true -> ~ under (above s) p q -> dentry_htab_name s !! (q, new_name) = None ->
  exists s', internal_dentry_move this_node s from from_name q new_name from_fh to_fh = Ok (s', Some from, Some q) /\ tables_ok s' /\ kept p s s' /\
    core s' p = Some (de_fh d, Some q, new_name).
Proof.
  intros Hok Hn Hd Hq Hqf Hdir Hu Hfree. pose proof Hok as (Ht & _). unfold internal_dentry_move.
  destruct (dentry_lookup_name_ok s None (Some from) from_name Hok) as (s1 & E1 & Hs1 & Hok1); [done|]. rewrite E1. cbn [mbind res_bind named]. rewrite Hn.
  pose proof (sim_fields _ _ Hs1) as (S1 & _ & _ & S4 & _ & _ & _ & _ & _ & _ & _ & _ & _ & S14 & _ & S16).
  destruct (to_depth _ _ _ _ _ Ht q) as [n Hdep]; [eexists; by apply fmap_lookup_Some|].
  rewrite (is_above_ok s1 p q n) by (rewrite ?S14; done || (rewrite <-size_dom, S16, size_dom; by apply (depth_short s q))). cbn [mbind res_bind].
  destruct (dentry_lookup_name_ok s1 None (Some q) new_name Hok1) as (s2 & E2 & Hs2 & Hok2); [done|]. rewrite E2. cbn [mbind res_bind named]. rewrite S4, Hfree.
  pose proof (sim_trans _ _ _ Hs1 Hs2) as Hs. pose proof (sim_fields _ _ Hs) as (U1 & _ & _ & U4 & _ & _ & _ & _ & _ & _ & _ & _ & _ & U14 & _).
  destruct (sim_at _ _ _ _ Hs Hd) as (d2 & Hd2 & (Ef & Ep & _)%erase_fields). destruct (sim_at _ _ _ _ Hs Hq) as (qd2 & Hq2 & (Eqf & _)%erase_fields).
  pose proof Hok2 as (_ & _ & Hc2 & _). destruct (ca_fh _ Hc2 _ _ Hd2) as [f Hf]. rewrite (fh_of_eq _ _ _ _ Hd2 Hf). cbn [mbind res_bind]. rewrite (ca_conflict _ Hc2 _ _ Hf).
  destruct (proj1 (to_name _ _ _ _ _ Ht _ _ _) Hn) as (t & Hp & Eq & _). rewrite lookup_fmap, Hd in Hp. injection Hp as <-. cbn in Eq.
  destruct (rename_to_ok s2 p d2 from q qd2 qf new_name Hok2 Hd2) as (s3 & E3 & Hok3 & Hk3 & Hp3); [congruence|done|by rewrite U1, Eqf|done|by rewrite U14|by rewrite U4|].
  rewrite E3. cbn [mbind res_bind]. assert (exists d3, dents s3 !! p = Some d3) as [d3 Hd3] by (unfold core in Hp3; destruct (dents s3 !! p) as [d3|]; [by exists d3|done]).
  rewrite (de_at_eq _ _ _ Hd3). cbn [mbind res_bind]. pose proof Hok3 as (_ & _ & Hc3 & _). destruct (ca_fh _ Hc3 _ _ Hd3) as [f3 Hf3].
  unfold fs_invalidate_dentry. rewrite (fh_of_eq _ _ _ _ Hd3 Hf3). cbn [mbind res_bind]. unfold release_dentry.
  destruct (update_ok s3 p d3 Hc3 Hd3) as (s4 & d4 & E4 & Hs4 & Hc4 & _). rewrite E4. cbn [mbind res_bind]. eexists. split; [reflexivity|].
  split; [apply add_invalidated_ok; by eapply sim_tables|]. split.
  - eapply kept_steps; [by apply (sim_kept p _ _ Hs)|]. eapply kept_steps; [exact Hk3|]. pose proof (sim_kept p _ _ Hs4) as []. by split.
  - transitivity (core s4 p); [done|]. rewrite (sim_core _ _ _ Hs4). congruence.
Qed.

(** Nothing to move. *)
Lemma move_nothing s from from_name q new_name from_fh to_fh : tables_ok s -> dentry_htab_name s !! (from, from_name) = None ->
  internal_dentry_move this_node s from from_name q new_name from_fh to_fh = Ok (s, Some from, Some q).
Proof. intros Hok Hn. unfold internal_dentry_move, dentry_lookup_name, dentry_lookup_name_nolock. cbn [mbind res_bind]. by rewrite Hn. Qed.

End create.
