(* ===== verification/DentryCleanup.v ===== *)
(** The thread of [Dentry.v] that frees entries which were not used for a long time:
    it ends, and it only moves them in the queue. *)

From S2P Require Import Prelude AllocPool KeyedQueue Fibheap DataCoding Metadata MetaTable Capability LockProtocol Dentry DentryTree DentryOps DentryCreate.
#[local] Open Scope Z_scope.

Section cleanup.
Context {H : Type} `{PeekQueue ptr H} (this_node : Z).
Implicit Types (s : tables (H := H)).

(** ** Keys after an entry was touched *)

(** The nodes of [h'] are nodes of [h] or have keys of [t] or later. *)
Definition aged (t : Z) (h h' : H) : Prop := forall n k p, kq_view h' !! n = Some (k, p) -> kq_view h !! n = Some (k, p) \/ t <= k.

Lemma aged_refl t h : aged t h h.
Proof. by left. Qed.

Lemma aged_trans t h1 h2 h3 : aged t h1 h2 -> aged t h2 h3 -> aged t h1 h3.
Proof. intros A1 A2 n k p Hn. destruct (A2 _ _ _ Hn) as [Hn'|]; [by apply A1|by right]. Qed.

Lemma u32_below t : u32 t <= FIBHEAPKEY_MAX.
Proof. pose proof (wrap_range 32 t ltac:(lia)) as Hr. change FIBHEAPKEY_MAX with (2 ^ 32 - 1). lia. Qed.

Lemma drop_node_aged t s p s' : calm s -> drop_node s p = Ok s' -> aged t (cleanup_dentry_heap s) (cleanup_dentry_heap s').
Proof.
  intros Hc. unfold drop_node, de_at. destruct (dents s !! p) as [d|] eqn:Hd; [|done]. cbn [mbind res_bind]. destruct (de_node d) as [n|] eqn:En; [|intros [= <-]; apply aged_refl].
  destruct (ca_queue _ Hc) as (Q1 & Q2 & Q3). destruct (Q3 _ _ _ Hd En) as [k Hk]. destruct (Q2 _ _ _ Hk) as [Hpos _].
  destruct (kq_delete_ok _ _ _ _ Q1 Hk Hpos) as (h' & -> & _ & Hv). cbn [mbind res_bind]. intros [= <-] m k' x. cbn. rewrite Hv. intros [_ Hx]%lookup_delete_Some. by left.
Qed.

Lemma put_node_aged s p d s' : calm s -> dents s !! p = Some d -> put_node s p = Ok s' -> 0 < u32 (last_use d) ->
  aged (u32 (last_use d)) (cleanup_dentry_heap s) (cleanup_dentry_heap s').
Proof.
  intros Hc Hd E Hu. destruct (ca_fh _ Hc _ _ Hd) as [f Hf]. destruct (dentry_key_ok _ _ _ _ Hc Hd Hf) as (k & Ek & Hk & Hk'). revert E.
  assert (u32 (last_use d) <= k) as Hle by (destruct Hk' as [->| ->]; [apply u32_below|lia]).
  unfold put_node, de_at. rewrite Hd. cbn [mbind res_bind]. rewrite Ek. cbn [mbind res_bind].
  pose proof (ca_queue _ Hc) as Hq. pose proof Hq as (Q1 & Q2 & Q3). destruct (de_node d) as [n|] eqn:En.
  - destruct (Q3 _ _ _ Hd En) as [k0 Hk0]. destruct (Q2 _ _ _ Hk0) as [Hp0 _].
    destruct (kq_replace_ok _ _ _ _ k Q1 Hk0 Hp0 Hk) as (h' & n' & -> & _ & _ & Hv). cbn [mbind res_bind]. intros [= <-] m k' x. cbn. rewrite Hv.
    intros [[<- [= <- <-]]|[_ [_ Hx]%lookup_delete_Some]]%lookup_insert_Some; [by right|by left].
  - pose proof (queue_size _ _ Hq) as Hs. pose proof (ca_size _ Hc) as Hs'.
    destruct (kq_insert_ok _ k p Q1) as (h' & n & -> & _ & _ & Hv); [lia|done|]. cbn [mbind res_bind]. intros [= <-] m k' x. cbn. rewrite Hv.
    intros [[<- [= <- <-]]|[_ Hx]]%lookup_insert_Some; [by right|by left].
Qed.

Lemma touch_aged s p d s' : calm s -> dents s !! p = Some d -> touch s p = Ok s' ->
  aged (u32 (now s)) (cleanup_dentry_heap s) (cleanup_dentry_heap s') /\ exists d', dents s' !! p = Some d' /\ last_use d' = now s.
Proof.
  intros Hc Hd. unfold touch. rewrite (on_de_eq _ _ _ _ Hd). cbn [mbind res_bind]. set (d1 := with_use d (now s)). set (s1 := set_de s p d1).
  assert (calm s1) as Hc1.
  { assert (s1 = set_heap (set_de s p d1) (cleanup_dentry_heap s)) as -> by (by destruct s). apply (calm_entry s _ p d); [done|done|done|done|].
    apply (queue_entry _ _ _ d); [apply Hc|done|done]. }
  assert (dents s1 !! p = Some d1) as Hd1 by apply lookup_insert_eq.
  destruct (dentry_should_have_cleanup_node s1 p) as [b| |] eqn:Eb; [|done|done]. cbn [mbind res_bind]. destruct b; intros E.
  - split; [apply (put_node_aged s1 p d1); [done|done|done|apply Hc]|]. unfold put_node in E. rewrite (de_at_eq _ _ _ Hd1) in E. cbn [mbind res_bind] in E.
    destruct (dentry_key s1 p) as [k| |]; [|done|done]. cbn [mbind res_bind] in E. destruct (de_node d1) as [n|].
    + destruct (kq_replace_key _ n k) as [[h' n']| |]; [|done|done]. injection E as <-. by exists d1.
    + destruct (kq_insert _ k p) as [[h' n']| |]; [|done|done]. injection E as <-. eexists. split; [apply lookup_insert_eq|done].
  - split; [by apply (drop_node_aged _ s1 p)|]. unfold drop_node in E. rewrite (de_at_eq _ _ _ Hd1) in E. cbn [mbind res_bind] in E. destruct (de_node d1) as [n|].
    + destruct (kq_delete_node _ n) as [[h' n']| |]; [|done|done]. injection E as <-. eexists. split; [apply lookup_insert_eq|done].
    + injection E as <-. by exists d1.
Qed.

Lemma update_aged s p d : calm s -> dents s !! p = Some d ->
  exists s' d', dentry_update_cleanup_node s p = Ok s' /\ sim s s' /\ calm s' /\ dents s' !! p = Some d' /\ last_use d' = now s /\
    aged (u32 (now s)) (cleanup_dentry_heap s) (cleanup_dentry_heap s').
Proof.
  intros Hc Hd. destruct (update_ok s p d Hc Hd) as (s' & d' & E & Hs & Hc' & Hd' & _). exists s', d'. split; [done|]. split; [done|]. split; [done|]. split; [done|].
  assert (touch s p = Ok s') as Et.
  { revert E. unfold dentry_update_cleanup_node. rewrite (de_at_eq _ _ _ Hd). cbn [mbind res_bind]. destruct (de_parent d) as [q|] eqn:Eq; [|done].
    destruct (ca_parent _ Hc _ _ _ Hd Eq) as [qd Hqd]. destruct (ca_fh _ Hc _ _ Hqd) as [f Hf]. rewrite (fh_of_eq _ _ _ _ Hqd Hf). cbn [mbind res_bind].
    by rewrite (ca_conflict _ Hc _ _ Hf). }
  destruct (touch_aged s p d s' Hc Hd Et) as (Ha & d2 & Hd2 & Eu). split; [congruence|done].
Qed.

(** ** Nodes with old keys *)

Definition old_nodes (th : Z) (h : H) : gmap ptr (Z * ptr) := filter (fun x => x.2.1 < th) (kq_view h).
Definition old (th : Z) (h : H) : nat := size (old_nodes th h).

Lemma old_aged th t h h' : th <= t -> aged t h h' -> (old th h' <= old th h)%nat.
Proof.
  intros Hle Ha. apply map_subseteq_size. apply map_subseteq_spec. intros n [k p] [Hn Hk]%map_lookup_filter_Some. cbn in Hk.
  apply map_lookup_filter_Some. split; [|done]. destruct (Ha _ _ _ Hn); [done|lia].
Qed.

Lemma old_size th s : calm s -> (old th (cleanup_dentry_heap s) <= size (dents s))%nat.
Proof.
  intros Hc. pose proof (queue_size _ _ (ca_queue _ Hc)) as Hq. unfold old. etransitivity; [|exact Hq]. apply map_subseteq_size, map_filter_subseteq.
Qed.

Lemma take_old_ok th n : forall s, calm s -> rest s ->
  exists s' l, take_old n s th = Ok (s', l) /\ sim s s' /\ calm s' /\ Forall (fun fh => gen fh <> 0) l /\
    (length l + old th (cleanup_dentry_heap s') <= old th (cleanup_dentry_heap s))%nat /\ (n <> O -> l = [] -> old th (cleanup_dentry_heap s') = O).
Proof.
  induction n as [|n IH]; intros s Hc Hrs; cbn [take_old]; [exists s, []; split; [done|split; [apply sim_refl|split; [done|split; [constructor|split; [cbn; lia|done]]]]]|].
  assert (forall h, (forall q k y, kq_view h !! q = Some (k, y) -> th <= k) -> old th h = O) as Hnone.
  { intros h Hk. unfold old. apply map_size_empty_iff, map_empty. intros q. apply map_lookup_filter_None. right. intros [k y] Hq. cbn. specialize (Hk _ _ _ Hq). lia. }
  pose proof (ca_queue _ Hc) as (Q1 & Q2 & Q3). rewrite (kq_size_view _ Q1).
  destruct (decide (Z.of_nat (size (kq_view (cleanup_dentry_heap s))) = 0)) as [E0|E0].
  { rewrite (proj2 (Z.eqb_eq _ _) E0). exists s, []. split; [done|split; [apply sim_refl|split; [done|split; [constructor|split; [cbn; lia|]]]]].
    intros _ _. apply Hnone. intros q k y Hq. assert (size (kq_view (cleanup_dentry_heap s)) = O) as E by lia. apply map_size_empty_inv in E. by rewrite E in Hq. }
  rewrite (proj2 (Z.eqb_neq _ _) E0). destruct (kq_extract_ok _ Q1) as (h1 & o1 & X1 & Qh & _). destruct (kq_peek_ok _ Q1) as (h & o & X & Em & Ho). rewrite X1 in X. injection X as -> ->.
  rewrite Em. cbn [mbind res_bind]. destruct o as [p|]; [|exfalso; apply E0; rewrite Ho, map_size_empty; done]. destruct Ho as (m & k & Hm & Hv & Hmin & Ek). rewrite Ek. cbn [mbind res_bind].
  destruct (Z.leb_spec th k) as [Hk|Hk].
  { exists s, []. split; [done|split; [apply sim_refl|split; [done|split; [constructor|split; [cbn; lia|]]]]]. intros _ _. apply Hnone. intros q k' y Hq. specialize (Hmin _ _ _ Hq). lia. }
  rewrite X1. cbn [mbind res_bind]. destruct (Q2 _ _ _ Hm) as (_ & d & Hd & En). rewrite (on_de_eq _ (set_heap s h) p d Hd). cbn [mbind res_bind]. set (s1 := set_de _ _ _).
  assert (sim s s1) as Hs1.
  { exists (<[p := with_node d None]> (dents s)), h. split; [done|]. by apply (fmap_insert_same erase _ _ d). }
  assert (calm s1) as Hc1.
  { assert (s1 = set_heap (set_de s p (with_node d None)) h) as -> by done. apply (calm_entry s h p d); [done|done|done|done|]. split; [done|]. rewrite Hv. split.
    + intros m' k' x [Hne Hx]%lookup_delete_Some. destruct (Q2 _ _ _ Hx) as (Hk' & dx & Hdx & Enx). split; [done|]. exists dx.
      rewrite lookup_insert_ne; [done|]. intros ->. congruence.
    + intros x dx m' [[<- <-]|[Hne Hx]]%lookup_insert_Some Em'; [done|]. destruct (Q3 _ _ _ Hx Em') as [k' Hk']. exists k'.
      rewrite lookup_delete_ne; [done|]. intros ->. rewrite Hm in Hk'. by injection Hk' as _ ->. }
  assert (dents s1 !! p = Some (with_node d None)) as Hd1 by apply lookup_insert_eq.
  destruct (ca_fh _ Hc1 _ _ Hd1) as [f Hf]. rewrite (fh_of_eq _ _ _ _ Hd1 Hf). cbn [mbind res_bind].
  destruct (IH s1 Hc1 (sim_rest _ _ Hs1 Hrs)) as (s' & l & E & Hs & Hc' & Hl & Hlen & _). rewrite E. cbn [mbind res_bind]. exists s', (local_fh f :: l).
  split; [done|]. split; [by eapply sim_trans|]. split; [done|]. split; [constructor; [by apply (rs_gen _ Hrs (de_fh d))|done]|].
  split; [|done]. assert (S (old th (cleanup_dentry_heap s1)) = old th (cleanup_dentry_heap s)) as <-; [|cbn [length]; lia].
  unfold old, old_nodes. change (cleanup_dentry_heap s1) with h. rewrite Hv, map_filter_delete, map_size_delete.
  assert (filter (fun x : ptr * (Z * ptr) => x.2.1 < th) (kq_view (cleanup_dentry_heap s)) !! m = Some (k, p)) as Hf' by (by apply map_lookup_filter_Some).
  rewrite Hf'. cbn. assert (size (filter (fun x : ptr * (Z * ptr) => x.2.1 < th) (kq_view (cleanup_dentry_heap s))) <> 0%nat); [|lia].
  intros E'%map_size_empty_inv. by rewrite E' in Hf'.
Qed.

(** ** What is done with an entry that was taken *)

Lemma should_have_ok s p d : calm s -> dents s !! p = Some d -> exists b, dentry_should_have_cleanup_node s p = Ok b.
Proof.
  intros Hc Hd. unfold dentry_should_have_cleanup_node. rewrite (de_at_eq _ _ _ Hd). cbn [mbind res_bind]. destruct (de_parent d); [|by exists false].
  destruct (de_deleted d); [by exists false|]. destruct (ca_fh _ Hc _ _ Hd) as [f Hf]. rewrite (fh_at_eq _ _ _ Hf). cbn [mbind res_bind].
  rewrite (ca_conflict _ Hc _ _ Hf). by eexists.
Qed.

(** [s'] is [s] with entries touched, which are not old then. *)
Definition touched th s s' : Prop := sim s s' /\ calm s' /\ (old th (cleanup_dentry_heap s') <= old th (cleanup_dentry_heap s))%nat.

Lemma touched_update th s0 s p : th <= u32 (now s) -> touched th s0 s -> is_Some (dents s !! p) ->
  exists s', dentry_update_cleanup_node s p = Ok s' /\ touched th s0 s' /\ exists d', dents s' !! p = Some d' /\ last_use d' = now s.
Proof.
  intros Hth (Hs & Hc & Ho) [d Hd]. destruct (update_aged s p d Hc Hd) as (s' & d' & E & Hs' & Hc' & Hd' & Eu & Ha). exists s'. split; [done|]. split; [|by exists d'].
  split; [by eapply sim_trans|]. split; [done|]. pose proof (old_aged _ _ _ _ Hth Ha). lia.
Qed.

Lemma free_old_ok th s fh : th <= u32 (now s) -> tables_ok s -> gen fh <> 0 -> exists s', free_old s th fh = Ok s' /\ touched th s s'.
Proof.
  intros Hth Hok Hg. unfold free_old. pose proof Hok as (_ & Hr & Hc & _ & Hl). unfold dentry_lookup. rewrite (proj2 (Z.eqb_neq _ _) Hg).
  assert (touched th s s) by (split; [apply sim_refl|split; [done|lia]]).
  destruct (dentry_htab s !! key_of fh) as [p|] eqn:Ep; [|by exists s]. destruct (ring_head_at s fh p Hr Ep) as (d & f & Hd & _).
  unfold acquire_dentry. rewrite (de_at_eq _ _ _ Hd). cbn [mbind res_bind]. rewrite (Hl _ _ Hd).
  destruct (touched_update th s s p) as (s1 & E1 & H1' & d1 & Hd1 & Eu1); [done|done|by eexists|]. rewrite E1. cbn [mbind res_bind].
  pose proof H1' as (Hs1 & Hc1 & _). assert (now s1 = now s) as En1 by apply (sim_fields _ _ Hs1).
  destruct (should_have_ok s1 p d1 Hc1 Hd1) as [b Eb]. rewrite Eb. cbn [mbind res_bind]. unfold release_dentry. destruct b.
  - destruct (touched_update th s s1 p) as (s2 & E2 & H2' & _); [by rewrite En1|done|by eexists|]. by exists s2.
  - destruct (ca_fh _ Hc1 _ _ Hd1) as [f1 Hf1]. destruct (dentry_key_ok s1 p d1 f1 Hc1 Hd1 Hf1) as (k & Ek & _ & Hk). rewrite Ek. cbn [mbind res_bind].
    assert (th <= k) as Hle by (destruct Hk as [->| ->]; [pose proof (u32_below (now s)); lia|by rewrite Eu1]). rewrite (proj2 (Z.leb_le _ _) Hle).
    destruct (touched_update th s s1 p) as (s2 & E2 & H2' & d2 & Hd2 & _); [by rewrite En1|done|by eexists|]. rewrite E2. cbn [mbind res_bind].
    pose proof H2' as (Hs2 & _). assert (now s2 = now s) as En2 by apply (sim_fields _ _ Hs2).
    destruct (touched_update th s s2 p) as (s3 & E3 & H3' & _); [by rewrite En2|done|by eexists|]. by exists s3.
Qed.

Lemma touched_tables th s s' : touched th s s' -> tables_ok s -> tables_ok s'.
Proof. intros (Hs & Hc & _). by apply sim_tables. Qed.

Lemma touched_trans th s1 s2 s3 : touched th s1 s2 -> touched th s2 s3 -> touched th s1 s3.
Proof. intros (A1 & A2 & A3) (B1 & B2 & B3). split; [by eapply sim_trans|]. split; [done|lia]. Qed.

Lemma free_all_old_ok th l : forall s, th <= u32 (now s) -> tables_ok s -> Forall (fun fh => gen fh <> 0) l -> exists s', free_all_old s th l = Ok s' /\ touched th s s'.
Proof.
  induction l as [|fh l IH]; intros s Hth Hok Hl; cbn [free_all_old]; [exists s; split; [done|]; split; [apply sim_refl|split; [apply Hok|lia]]|].
  apply Forall_cons in Hl as [Hg Hl]. destruct (free_old_ok th s fh Hth Hok Hg) as (s1 & E1 & H1'). rewrite E1. cbn [mbind res_bind]. pose proof H1' as (Hs1 & _).
  assert (now s1 = now s) as En1 by apply (sim_fields _ _ Hs1). destruct (IH s1) as (s2 & E2 & H2'); [by rewrite En1|by eapply touched_tables|done|].
  exists s2. split; [done|by eapply touched_trans].
Qed.

(** ** The rounds end *)

Lemma rounds_ok th fuel : forall s, th <= u32 (now s) -> tables_ok s -> (old th (cleanup_dentry_heap s) <= fuel)%nat ->
  exists s', cleanup_rounds fuel s th = Ok s' /\ sim s s' /\ tables_ok s' /\ old th (cleanup_dentry_heap s') = O.
Proof.
  induction fuel as [|fuel IH]; intros s Hth Hok Hf; cbn [cleanup_rounds]; pose proof Hok as (_ & _ & Hc & Hrs & _);
    destruct (take_old_ok th 1024 s Hc Hrs) as (s1 & l & E1 & Hs1 & Hc1 & Hl & Hlen & Hz); rewrite E1; cbn [mbind res_bind];
    (destruct l as [|fh l]; [exists s1; split; [done|split; [done|split; [by eapply sim_tables|by apply Hz]]]|]); [cbn in Hlen; lia|].
  assert (now s1 = now s) as En1 by apply (sim_fields _ _ Hs1).
  destruct (free_all_old_ok th (sort_by_volume (fh :: l)) s1) as (s2 & E2 & Ht2); [by rewrite En1|by eapply sim_tables| |].
  { assert (sort_by_volume (fh :: l) ≡ₚ fh :: l) as -> by apply merge_sort_Permutation. exact Hl. }
  rewrite E2. cbn [mbind res_bind]. pose proof Ht2 as (Hs2 & Hc2 & Ho2). pose proof (sim_trans _ _ _ Hs1 Hs2) as Hs. assert (now s2 = now s) as En2 by apply (sim_fields _ _ Hs).
  destruct (IH s2) as (s3 & E3 & Hs3 & Hok3 & Ho3); [by rewrite En2|by eapply sim_tables|cbn in Hlen; lia|]. exists s3. split; [done|]. split; [by eapply sim_trans|done].
Qed.

Lemma threshold_now t : cleanup_threshold t <= u32 t.
Proof. unfold cleanup_threshold, MAX_INTERNAL_DENTRY_UNUSED_TIME. pose proof (wrap_range 32 t ltac:(lia)) as Hr. destruct (Z.leb_spec (u32 t) 30); lia. Qed.

Lemma cleanup_run_ok s : tables_ok s ->
  exists s', cleanup_unused_dentries s = Ok s' /\ sim s s' /\ tables_ok s' /\ old (cleanup_threshold (now s)) (cleanup_dentry_heap s') = O.
Proof.
  intros Hok. apply rounds_ok; [apply threshold_now|done|]. apply old_size, Hok.
Qed.

(** The thread that should free the entries not used for thirty seconds frees none,
    for two reasons, each of which is enough: the test whether an entry got
    subentries meanwhile is inverted, so that an entry which may be freed is left at
    once; and [dentry_lookup], which finds the entry again by its handle, marks it as
    used just now, so that the test of its age fails for the others too.  (With hard
    links it finds the first entry of the ring, not the one that was taken.)  The run
    ends, every entry and every handle is still there, and no node of the queue is old
    any more, so the next run finds nothing for another thirty seconds.  There are no
    conflict directories in [tables_ok]. *)
Theorem cleanup_frees_nothing s : tables_ok s ->
  exists s', cleanup_unused_dentries s = Ok s' /\ tables_ok s' /\ dom (dents s') = dom (dents s) /\ fhs s' = fhs s /\
    forall n k p, kq_view (cleanup_dentry_heap s') !! n = Some (k, p) -> cleanup_threshold (now s) <= k.
Proof.
  intros Hok. destruct (cleanup_run_ok s Hok) as (s' & E & Hs & Hok' & Hz). pose proof (sim_fields _ _ Hs) as (Ef & _ & _ & _ & _ & _ & _ & _ & _ & _ & _ & _ & _ & _ & _ & Ed).
  exists s'. split; [done|]. split; [done|]. split; [done|]. split; [done|]. intros n k p Hn. destruct (Z.le_gt_cases (cleanup_threshold (now s)) k) as [|Hk]; [done|]. exfalso.
  assert (old_nodes (cleanup_threshold (now s)) (cleanup_dentry_heap s') !! n = Some (k, p)) as Ho by (apply map_lookup_filter_Some; split; [done|cbn; lia]).
  apply map_size_empty_inv in Hz. by rewrite Hz in Ho.
Qed.

End cleanup.

(** Ninety seconds after it was used, the file of [demo_tables] is still there. *)
Lemma demo_later_ok : tables_ok (set_now demo_tables 95).
Proof. destruct demo_ok as (Ht & Hr & [] & [] & Hl). split; [exact Ht|]. split; [exact Hr|]. split; [by split|]. split; [by split|exact Hl]. Qed.

Lemma cleanup_frees_nothing_witness :
  exists s', cleanup_unused_dentries (set_now demo_tables 95) = Ok s' /\ dom (dents s') = dom (dents demo_tables) /\
    forall n k p, Fibheap.view (cleanup_dentry_heap s') !! n = Some (k, p) -> 65 <= k.
Proof.
  destruct (cleanup_frees_nothing (set_now demo_tables 95) demo_later_ok) as (s' & E & _ & Ed & _ & Hk).
  exists s'. split; [exact E|]. split; [exact Ed|exact Hk].
Defined.
