(* ===== verification/DentryCatalog.v ===== *)
(** What the operations of [Dentry.v] promise, on a catalog of the entries: each entry
    with its file, its directory, its name and the number of its users.  The
    operations refine those of the catalog, which know nothing of handles, tables,
    rings and the queue. *)

From S2P Require Import Prelude AllocPool KeyedQueue Fibheap DataCoding Metadata MetaTable Capability LockProtocol Dentry DentryTree DentryOps DentryCreate DentryCleanup.
#[local] Open Scope Z_scope.

(** ** The catalog *)

Record entry := Entry { e_fh : zfs_fh; e_dir : bool; e_parent : option ptr; e_name : list Z; e_users : Z }.
Record catalog := Catalog { entries : gmap ptr entry; volume_ids : gset Z; locks : list (lock_info ptr) }.

Definition with_entries (C : catalog) (m : gmap ptr entry) : catalog := Catalog m (volume_ids C) (locks C).

(** [p] is [x] or a directory above it. *)
Inductive below (m : gmap ptr entry) (p : ptr) : ptr -> Prop :=
  | below_refl : below m p p
  | below_step x e q : m !! x = Some e -> e_parent e = Some q -> below m p q -> below m p x.

Definition found (C : catalog) (parent : option ptr) (name : list Z) (p : ptr) : Prop :=
  exists e, entries C !! p = Some e /\ e_parent e = parent /\ e_name e = name.

(** A name is free in a directory; the root of a volume is free. *)
Definition name_free (C : catalog) (q : ptr) (name : list Z) : Prop :=
  (exists e, entries C !! q = Some e /\ e_dir e = true) /\ forall p, ~ found C (Some q) name p.
Definition root_free (C : catalog) (v : Z) : Prop := forall p e, entries C !! p = Some e -> e_parent e = None -> vid (e_fh e) <> v.
Definition free_place (C : catalog) (parent : option ptr) (v : Z) (fh : zfs_fh) (name : list Z) : Prop :=
  match parent with Some q => name_free C q name | None => vid fh = v /\ root_free C v end.

Inductive dentry_op :=
  | Lookup (fh : zfs_fh)
  | LookupName (vol : option Z) (parent : option ptr) (name : list Z)
  | Create (junk : metadata) (fh master : zfs_fh) (v : Z) (parent : option ptr) (name : list Z) (attr : fattr) (meta : metadata)
  | Link (orig parent : ptr) (name : list Z)
  | Move (from : ptr) (name : list Z) (to : ptr) (to_name : list Z) (from_fh to_fh : zfs_fh)
  | Destroy (p : ptr) (clear_volume_root invalidate volume_root_p : bool)
  | Cleanup
  | Wait (t : Z).

Inductive client := Done | Do (o : dentry_op) (k : option ptr -> client).

Section spec.
Context (this_node : Z).

Definition room (C : catalog) : Prop := Z.of_nat (S (size (entries C))) < UINT32_MAX.

(** What the callers see to. *)
Definition may (C : catalog) (o : dentry_op) : Prop :=
  match o with
  | Lookup fh => gen fh <> 0
  | LookupName vol None _ => exists v, vol = Some v /\ v ∈ volume_ids C
  | LookupName _ (Some _) _ => True
  | Create _ fh _ v parent name attr meta =>
      room C /\ v ∈ volume_ids C /\ meta_fits this_node fh meta = true /\ gen fh <> 0 /\ CONFLICT_DIR_P fh = false /\
      (forall p e, entries C !! p = Some e -> e_fh e = fh -> e_dir e = false /\ fa_type attr <> FT_DIR) /\ free_place C parent v fh name
  | Link orig q name => room C /\ (exists e, entries C !! orig = Some e /\ e_dir e = false) /\ name_free C q name
  | Move from name to to_name _ _ => forall p, found C (Some from) name p -> ~ below (entries C) p to /\ name_free C to to_name
  | Destroy p clear _ _ => (exists e, entries C !! p = Some e /\ (e_parent e = None -> clear = true)) /\
      forall x e, below (entries C) p x -> entries C !! x = Some e -> e_users e = 0 /\ is_owned (locks C) x = false
  | Cleanup => True
  | Wait t => 0 < u32 t
  end.

(** What they get. *)
Definition does (C : catalog) (o : dentry_op) (r : option ptr) (C' : catalog) : Prop :=
  match o with
  | Lookup fh => C' = C /\
      match r with
      | Some p => exists e, entries C !! p = Some e /\ e_fh e = fh
      | None => forall p e, entries C !! p = Some e -> e_fh e <> fh
      end
  | LookupName vol parent name => C' = C /\
      match parent, r with
      | Some q, Some p => found C (Some q) name p
      | Some q, None => forall p, ~ found C (Some q) name p
      | None, Some p => exists v e, vol = Some v /\ entries C !! p = Some e /\ e_parent e = None /\ vid (e_fh e) = v
      | None, None => exists v, vol = Some v /\ root_free C v
      end
  | Create _ fh _ _ parent name attr _ => exists p, r = Some p /\ entries C !! p = None /\
      C' = with_entries C (<[p := Entry fh (bool_decide (fa_type attr = FT_DIR)) parent name 0]> (entries C))
  | Link orig q name => exists p e, r = Some p /\ entries C !! p = None /\ entries C !! orig = Some e /\
      C' = with_entries C (<[p := Entry (e_fh e) false (Some q) name 0]> (entries C))
  | Move from name to to_name _ _ => r = None /\
      ((forall p, ~ found C (Some from) name p) -> C' = C) /\
      forall p e, found C (Some from) name p -> entries C !! p = Some e ->
        C' = with_entries C (<[p := Entry (e_fh e) (e_dir e) (Some to) to_name (e_users e)]> (entries C))
  | Destroy p _ _ _ => r = None /\ volume_ids C' = volume_ids C /\ locks C' = locks C /\
      forall x, (below (entries C) p x -> entries C' !! x = None) /\ (~ below (entries C) p x -> entries C' !! x = entries C !! x)
  | Cleanup | Wait _ => r = None /\ C' = C
  end.

(** A client that goes on according to what it got. *)
Fixpoint may_client (C : catalog) (c : client) : Prop :=
  match c with Done => True | Do o k => may C o /\ forall r C', does C o r C' -> may_client C' (k r) end.
Fixpoint does_client (C : catalog) (c : client) (C' : catalog) : Prop :=
  match c with Done => C' = C | Do o k => exists r C1, does C o r C1 /\ does_client C1 (k r) C' end.

End spec.

Section refinement.
Context {H : Type} `{PeekQueue ptr H} (this_node : Z).
Implicit Types (s : tables (H := H)).

Definition run_dentry_op (o : dentry_op) (s : tables (H := H)) : res (tables (H := H) * option ptr) :=
  match o with
  | Lookup fh => dentry_lookup s fh
  | LookupName vol parent name => dentry_lookup_name s vol parent name
  | Create junk fh master v parent name attr meta =>
      '(s, p) ← internal_dentry_create this_node junk s fh master v parent name attr meta LEVEL_UNLOCKED; Ok (s, Some p)
  | Link orig q name => '(s, p) ← internal_dentry_link s orig q name; Ok (s, Some p)
  | Move from name to to_name from_fh to_fh => '(s, _, _) ← internal_dentry_move this_node s from name to to_name from_fh to_fh; Ok (s, None)
  | Destroy p clear inv root_p => s ← destroy s p clear inv root_p; Ok (s, None)
  | Cleanup => s ← cleanup_unused_dentries s; Ok (s, None)
  | Wait t => Ok (set_now s t, None)
  end.

Fixpoint run_client (c : client) (s : tables (H := H)) : res (tables (H := H)) :=
  match c with Done => Ok s | Do o k => '(s, r) ← run_dentry_op o s; run_client (k r) s end.

(** ** The catalog of the tables *)

Definition entry_of (F : gmap ptr ifh) (d : dentry) : option entry :=
  (fun f => Entry (local_fh f) (is_dir f) (de_parent d) (de_name d) (de_users d)) <$> F !! de_fh d.
Definition catalog_of s : catalog := Catalog (omap (entry_of (fhs s)) (dents s)) (dom (vols s)) (owned s).

Lemma entry_at s x : entries (catalog_of s) !! x = dents s !! x ≫= entry_of (fhs s).
Proof. cbn. by rewrite lookup_omap. Qed.

Lemma entry_Some s x e : entries (catalog_of s) !! x = Some e <-> exists d f, dents s !! x = Some d /\ fhs s !! de_fh d = Some f /\
  e = Entry (local_fh f) (is_dir f) (de_parent d) (de_name d) (de_users d).
Proof.
  rewrite entry_at, bind_Some. unfold entry_of. split.
  - intros (d & Hd & (f & Hf & ->)%fmap_Some). by exists d, f.
  - intros (d & f & Hd & Hf & ->). exists d. split; [done|]. cbn. by rewrite Hf.
Qed.

Abbreviation above s := (tn_of <$> dents s).

(** An entry by the parts that other lemmas speak of. *)
Lemma entry_parts s x : entries (catalog_of s) !! x =
  c ← core s x; u ← users_at s x; k ← (fh_dir <$> fhs s) !! c.1.1; Some (Entry k.1 k.2 c.1.2 c.2 u).
Proof.
  rewrite entry_at. unfold core, users_at, entry_of. destruct (dents s !! x) as [d|]; [|done]. cbn. rewrite lookup_fmap. by destruct (fhs s !! de_fh d).
Qed.

Lemma kept_catalog p s s' : kept p s s' -> (forall x, x <> p -> entries (catalog_of s') !! x = entries (catalog_of s) !! x) /\
  volume_ids (catalog_of s') = volume_ids (catalog_of s) /\ locks (catalog_of s') = locks (catalog_of s).
Proof.
  intros [K1 K2 K3 K4 K5 K6]. split; [|done]. intros x Hx. by rewrite !entry_parts, K1, K2, K3.
Qed.

Lemma catalog_eq (C C' : catalog) : (forall x, entries C' !! x = entries C !! x) -> volume_ids C' = volume_ids C -> locks C' = locks C -> C' = C.
Proof. intros E1 E2 E3. destruct C, C'. cbn in *. f_equal; [|done|done]. by apply map_eq. Qed.

Lemma sim_catalog s s' : sim s s' -> catalog_of s' = catalog_of s.
Proof.
  intros Hs. apply catalog_eq; [|apply (kept_catalog 0%nat), sim_kept, Hs..]. intros x. pose proof (sim_kept x _ _ Hs) as [K1 K2 K3 _ _ _].
  by rewrite !entry_parts, (sim_core _ _ _ Hs), K2, K3.
Qed.

Lemma added_catalog s s' p fh dir parent name : calm s -> added s s' p fh dir parent name ->
  entries (catalog_of s) !! p = None /\ catalog_of s' = with_entries (catalog_of s) (<[p := Entry fh dir parent name 0]> (entries (catalog_of s))).
Proof.
  intros Hc [A1 (g & f & A2 & Hf & A3 & A4) A5 A6 A7 (B1 & B2 & B3)]. split; [by rewrite entry_at, A1|]. apply catalog_eq; [|done|done].
  intros x. cbn [with_entries entries]. destruct (decide (x = p)) as [->|Hne].
  - rewrite lookup_insert_eq, entry_parts, A2, A5. cbn. rewrite lookup_fmap, Hf. cbn. by rewrite A3, A4.
  - rewrite lookup_insert_ne by done. rewrite !entry_parts. destruct (A6 x Hne) as [-> ->]. destruct (core s x) as [c|] eqn:Ec; [|done]. cbn. destruct (users_at s x); [|done]. cbn.
    unfold core in Ec. destruct (dents s !! x) as [d|] eqn:Hd; [|done]. injection Ec as <-. cbn. destruct (ca_fh _ Hc _ _ Hd) as [f0 Hf0].
    destruct (A7 _ _ Hf0) as (f' & Hf' & E). rewrite !lookup_fmap, Hf0, Hf'. cbn. unfold fh_dir in E. injection E as -> ->. done.
Qed.

Lemma moved_catalog s s' p d q name e : kept p s s' -> dents s !! p = Some d -> core s' p = Some (de_fh d, Some q, name) -> entries (catalog_of s) !! p = Some e ->
  catalog_of s' = with_entries (catalog_of s) (<[p := Entry (e_fh e) (e_dir e) (Some q) name (e_users e)]> (entries (catalog_of s))).
Proof.
  intros Hk Hd Hp He. destruct (kept_catalog _ _ _ Hk) as (K1 & K2 & K3). apply catalog_eq; [|done|done]. intros x. cbn [with_entries entries].
  destruct (decide (x = p)) as [->|Hne]; [|by rewrite lookup_insert_ne, K1]. rewrite lookup_insert_eq.
  apply entry_Some in He as (d' & f & Hd' & Hf & ->). rewrite Hd in Hd'. injection Hd' as <-. rewrite entry_parts, Hp, (ke_users _ _ _ Hk), (ke_fhs _ _ _ Hk). unfold users_at.
  rewrite Hd. cbn. by rewrite lookup_fmap, Hf.
Qed.

Lemma gone_catalog s s' X : calm s' -> gone s s' X -> forall x, (X x -> entries (catalog_of s') !! x = None) /\ (~ X x -> entries (catalog_of s') !! x = entries (catalog_of s) !! x).
Proof.
  intros Hc [G1 G2 _ _ _ _ G7] x. split; [intros Hx; by rewrite entry_at, G1|]. intros Hx. destruct (G2 x Hx) as [E1 E2]. rewrite !entry_parts. unfold users_at. rewrite E1, E2.
  destruct (core s x) as [c|] eqn:Ec; [|done]. cbn. destruct (de_users <$> dents s !! x); [|done]. cbn. unfold core in E1.
  destruct (dents s' !! x) as [d|] eqn:Hd; [|done]. injection E1 as <-. cbn. destruct (ca_fh _ Hc _ _ Hd) as [f' Hf']. destruct (G7 _ _ Hf') as (f & Hf & E).
  rewrite !lookup_fmap, Hf, Hf'. cbn. assert (fh_dir f' = fh_dir f) as [= -> ->] by (change (fh_dir (ifhbase f') = fh_dir (ifhbase f)); by rewrite E). done.
Qed.

(** ** Names, places and what is below *)

Lemma entry_exists s x d : calm s -> dents s !! x = Some d -> exists e, entries (catalog_of s) !! x = Some e /\ e_parent e = de_parent d /\ e_name e = de_name d /\ e_users e = de_users d.
Proof. intros Hc Hd. destruct (ca_fh _ Hc _ _ Hd) as [f Hf]. eexists. split; [apply entry_Some; by exists d, f|done]. Qed.

Lemma found_named s q name p : tables_ok s -> found (catalog_of s) (Some q) name p <-> dentry_htab_name s !! (q, name) = Some p.
Proof.
  intros (Ht & _ & Hc & _). rewrite (to_name _ _ _ _ _ Ht). split.
  - intros (e & (d & f & Hd & Hf & ->)%entry_Some & Ep & En). exists (tn_of d). split; [by apply fmap_lookup_Some|done].
  - intros (t & Hp & Ep & En). destruct (above_at _ _ _ Hp) as (d & Hd & ->). destruct (entry_exists s p d Hc Hd) as (e & He & E1 & E2 & _). exists e. split; [done|]. cbn in Ep, En. split; congruence.
Qed.

Lemma below_under s p x : calm s -> below (entries (catalog_of s)) p x <-> under (above s) p x.
Proof.
  intros Hc. split.
  - induction 1 as [|x e q (d & f & Hd & Hf & ->)%entry_Some Ep _ IH]; [constructor|]. by apply (under_step _ _ x (tn_of d) q); [apply fmap_lookup_Some| |].
  - induction 1 as [|x t q Hx Ep _ IH]; [constructor|]. destruct (above_at _ _ _ Hx) as (d & Hd & ->). destruct (entry_exists s x d Hc Hd) as (e & He & E1 & _).
    apply (below_step _ _ x e q); [done|cbn in Ep; congruence|done].
Qed.

Lemma name_free_place s q name v fh : tables_ok s -> name_free (catalog_of s) q name -> place_free s (Some q) v fh name.
Proof.
  intros Hok ((e & (d & f & Hd & Hf & ->)%entry_Some & Edir) & Hn). split; [by exists d, f|]. destruct (dentry_htab_name s !! (q, name)) as [p|] eqn:E; [|done].
  exfalso. apply (Hn p). by apply found_named.
Qed.

Lemma root_free_place s v name fh : tables_ok s -> v ∈ dom (vols s) -> vid fh = v -> root_free (catalog_of s) v -> place_free s None v fh name.
Proof.
  intros (Ht & _ & Hc & _) [x Hx]%elem_of_dom Ev Hr. split; [done|]. rewrite Hx. cbn. f_equal. destruct (root_dentry x) as [p|] eqn:E; [|done]. exfalso.
  assert ((root_dentry <$> vols s) !! v = Some (Some p)) as Hv by (by rewrite lookup_fmap, Hx; cbn; rewrite E).
  destruct (to_root _ _ _ _ _ Ht _ _ Hv) as (t & fn & Hp & Ep & Hf & Evid). destruct (above_at _ _ _ Hp) as (d & Hd & ->). rewrite lookup_fmap in Hf.
  cbn in Hf, Ep. destruct (fhs s !! de_fh d) as [f|] eqn:Hff; [|done]. injection Hf as <-.
  apply (Hr p (Entry (local_fh f) (is_dir f) (de_parent d) (de_name d) (de_users d))); [apply entry_Some; by exists d, f|done|done].
Qed.

Lemma catalog_size s : calm s -> size (entries (catalog_of s)) = size (dents s).
Proof.
  intros Hc. rewrite <-!size_dom. f_equal. apply set_eq. intros x. rewrite !elem_of_dom. split.
  - intros [e (d & f & Hd & _)%entry_Some]. by eexists.
  - intros [d Hd]. destruct (entry_exists s x d Hc Hd) as (e & He & _). by eexists.
Qed.

(** ** One operation *)

(** The operation [o] does what the catalog says. *)
Definition good s o : Prop :=
  exists s' r, run_dentry_op o s = Ok (s', r) /\ tables_ok s' /\ does (catalog_of s) o r (catalog_of s').

Lemma good_lookup s fh : tables_ok s -> may this_node (catalog_of s) (Lookup fh) -> good s (Lookup fh).
Proof.
  intros Hok Hg. destruct (lookup_ok s fh Hok Hg) as (s' & E & Hs & Hok'). exists s', (dentry_htab s !! key_of fh). split; [done|]. split; [done|].
  split; [by apply sim_catalog|]. pose proof Hok as (_ & Hr & Hc & _). destruct (dentry_htab s !! key_of fh) as [p|] eqn:Ep.
  - destruct (ring_head_at s fh p Hr Ep) as (d & f & Hd & Hf & Ef). eexists. split; [apply entry_Some; by exists d, f|done].
  - intros p e (d & f & Hd & Hf & ->)%entry_Some Efh. cbn in Efh. destruct (handle_used s _ _ Hr Hf) as (p' & _ & _ & _ & Ep'). congruence.
Qed.

Lemma good_lookup_name s vol parent name : tables_ok s -> may this_node (catalog_of s) (LookupName vol parent name) -> good s (LookupName vol parent name).
Proof.
  intros Hok Hm. destruct (dentry_lookup_name_ok s vol parent name Hok) as (s' & E & Hs & Hok').
  { intros ->. cbn in Hm. destruct Hm as (v & -> & Hv). exists v. split; [done|]. by apply elem_of_dom. }
  exists s', (named s vol parent name). split; [done|]. split; [done|]. split; [by apply sim_catalog|]. destruct parent as [q|]; cbn [named].
  - destruct (dentry_htab_name s !! (q, name)) as [p|] eqn:Ep; [by apply found_named|]. intros p Hp%found_named; [congruence|done].
  - destruct Hm as (v & -> & Hv0). change (v ∈ dom (vols s)) in Hv0. apply elem_of_dom in Hv0 as [x Hx]. pose proof Hok as (Ht & _). cbn. rewrite Hx. cbn.
    destruct (root_dentry x) as [p|] eqn:Ep.
    + assert ((root_dentry <$> vols s) !! v = Some (Some p)) as Hv by (by rewrite lookup_fmap, Hx; cbn; rewrite Ep).
      destruct (to_root _ _ _ _ _ Ht _ _ Hv) as (t & fn & Hp & Eq & Hf & Evid). destruct (above_at _ _ _ Hp) as (d & Hd & ->). rewrite lookup_fmap in Hf.
      cbn in Hf, Eq. destruct (fhs s !! de_fh d) as [f|] eqn:Hff; [|done]. injection Hf as <-. exists v. eexists. split; [done|]. split; [apply entry_Some; by exists d, f|done].
    + exists v. split; [done|]. intros p e (d & f & Hd & Hf & ->)%entry_Some Eq Evid. cbn in Eq, Evid.
      pose proof (to_top _ _ _ _ _ Ht p (tn_of d) (fn_of f) (fmap_lookup_Some _ _ _ _ Hd) (fmap_lookup_Some _ _ _ _ Hf) Eq) as Hv. cbn in Hv. rewrite Evid, lookup_fmap, Hx in Hv.
      cbn in Hv. rewrite Ep in Hv. by specialize (Hv ltac:(done)).
Qed.

Lemma good_create s junk fh master v parent name attr meta : tables_ok s -> may this_node (catalog_of s) (Create junk fh master v parent name attr meta) ->
  good s (Create junk fh master v parent name attr meta).
Proof.
  intros Hok (Hroom & Hv & Hm & Hg & Hcf & Hsame & Hfree). pose proof Hok as (_ & Hr & Hc & _). unfold room in Hroom. rewrite catalog_size in Hroom by done.
  destruct (create_ok this_node junk s fh master v parent name attr meta) as (s' & p & E & Hok' & Ha); [done|done|by apply elem_of_dom|done|done|done| | |].
  - intros g f Hf Ef. destruct (handle_used s g f Hr Hf) as (p & d & Hd & Eg & _). subst g.
    apply (Hsame p (Entry (local_fh f) (is_dir f) (de_parent d) (de_name d) (de_users d))); [apply entry_Some; by exists d, f|done].
  - destruct parent as [q|]; [by apply name_free_place|]. destruct Hfree. by apply root_free_place.
  - destruct (added_catalog _ _ _ _ _ _ _ Hc Ha) as [A1 A2]. exists s', (Some p). split; [cbn [run_dentry_op]; by rewrite E|]. split; [done|]. by exists p.
Qed.

Lemma good_link s orig q name : tables_ok s -> may this_node (catalog_of s) (Link orig q name) -> good s (Link orig q name).
Proof.
  intros Hok (Hroom & (e & He & Hdir) & Hfree). pose proof Hok as (_ & _ & Hc & _). unfold room in Hroom. rewrite catalog_size in Hroom by done.
  pose proof He as (d & f & Hd & Hf & Ee)%entry_Some. rewrite Ee in Hdir. cbn in Hdir.
  destruct (dentry_link_ok s orig d f q name Hok Hroom Hd Hf Hdir) as (s' & p & E & Hok' & Ha); [by apply name_free_place|].
  destruct (added_catalog _ _ _ _ _ _ _ Hc Ha) as [A1 A2]. exists s', (Some p). split; [cbn [run_dentry_op]; by rewrite E|]. split; [done|]. exists p, e. split; [done|]. split; [done|]. split; [done|]. by rewrite Ee.
Qed.

Lemma good_move s from name q new_name from_fh to_fh : tables_ok s -> may this_node (catalog_of s) (Move from name q new_name from_fh to_fh) ->
  good s (Move from name q new_name from_fh to_fh).
Proof.
  intros Hok Hm. pose proof Hok as (Ht & _ & Hc & _). destruct (dentry_htab_name s !! (from, name)) as [p|] eqn:Ep.
  - pose proof Ep as Hfound. rewrite <-found_named in Hfound by done. destruct (Hm p Hfound) as [Hb Hfree].
    pose proof Hfound as (e & He & _). pose proof He as (d & f & Hd & Hf & _)%entry_Some.
    destruct (name_free_place s q new_name 0 (local_fh f) Hok Hfree) as ((qd & qf & Hq & Hqf & Hdir) & Hn).
    destruct (move_ok this_node s from name p d q qd qf new_name from_fh to_fh) as (s' & E & Hok' & Hk & Hp); [done|done|done|done|done|done|by rewrite <-below_under|done|].
    exists s', None. split; [cbn [run_dentry_op]; by rewrite E|]. split; [done|]. split; [done|]. split; [intros Hnone; by apply Hnone in Hfound|].
    intros p' e' Hp'%found_named He'; [|done]. rewrite Ep in Hp'. injection Hp' as <-. by apply (moved_catalog _ _ _ d).
  - exists s, None. split; [cbn [run_dentry_op]; by rewrite move_nothing|]. split; [done|]. split; [done|]. split; [done|].
    intros p e Hp%found_named; [congruence|done].
Qed.

Lemma vols_after_dom s p d vs : tables_ok s -> dents s !! p = Some d -> vols_after s p vs -> dom vs = dom (vols s).
Proof.
  intros (_ & _ & Hc & _) Hd Hv. destruct (ca_fh _ Hc _ _ Hd) as [f Hf]. specialize (Hv d f Hd Hf). destruct (de_parent d); [by subst vs|].
  destruct Hv as (x & Hx & ->). rewrite dom_insert_L. assert (vid (local_fh f) ∈ dom (vols s)) by (apply elem_of_dom; by eexists). set_solver.
Qed.

Lemma good_destroy s p clear inv root_p : tables_ok s -> may this_node (catalog_of s) (Destroy p clear inv root_p) -> good s (Destroy p clear inv root_p).
Proof.
  intros Hok ((e & He & Hcl) & Hidle). pose proof Hok as (_ & _ & Hc & _). pose proof He as (d & f & Hd & Hf & ->)%entry_Some. cbn in Hcl.
  destruct (destroy_all s p d clear inv root_p) as (s' & E & Hok' & Hg & Hv); [done|done| |done|].
  - intros x dx Hu Hx. destruct (entry_exists s x dx Hc Hx) as (ex & Hex & _ & _ & Eu). destruct (Hidle x ex) as [E1 E2]; [by apply below_under|done|]. split; [congruence|done].
  - exists s', None. split; [cbn [run_dentry_op]; by rewrite E|]. split; [done|]. split; [done|]. split; [by apply (vols_after_dom s p d)|]. split; [apply Hg|].
    intros x. rewrite below_under by done. apply gone_catalog; [apply Hok'|done].
Qed.

Lemma good_wait s t : tables_ok s -> may this_node (catalog_of s) (Wait t) -> good s (Wait t).
Proof.
  intros (Ht & Hr & [] & [] & Hl) Hm. eexists _, _. split; [reflexivity|]. split; [|done]. split; [done|]. split; [done|]. split; [by split|]. split; [by split|done].
Qed.

Lemma good_cleanup s : tables_ok s -> good s Cleanup.
Proof.
  intros Hok. destruct (cleanup_run_ok s Hok) as (s' & E & Hs & Hok' & _). exists s', None. split; [cbn [run_dentry_op]; by rewrite E|]. split; [done|]. split; [done|by apply sim_catalog].
Qed.

Lemma good_op s o : tables_ok s -> may this_node (catalog_of s) o -> good s o.
Proof.
  destruct o; intros Hok Hm; [by apply good_lookup|by apply good_lookup_name|by apply good_create|by apply good_link|by apply good_move|by apply good_destroy|by apply good_cleanup|by apply good_wait].
Qed.

(** C8. Whatever sequence of lookups, creations, hard links, renames, destructions and runs
    of the cleanup thread a client makes on consistent tables ([tables_ok]), each
    operation chosen by the results of those before: the calls return, leave consistent
    tables and act on the catalog of entries as [does] says.  A lookup by file
    handle or by name finds an entry exactly when there is one; a creation and a link add
    one entry, a move changes the place of one, a destruction removes an entry and all
    below it, and the cleanup removes nothing.  The client's part is [may]: names that
    are free, directories that are not below what is moved, no locks on what is
    destroyed. *)
Theorem dentries_refine_catalog c : forall s, tables_ok s -> may_client this_node (catalog_of s) c ->
  exists s', run_client c s = Ok s' /\ tables_ok s' /\ does_client (catalog_of s) c (catalog_of s').
Proof.
  induction c as [|o k IH]; intros s Hok Hm; [by exists s|]. destruct Hm as [Ho Hl]. destruct (good_op s o Hok Ho) as (s1 & r & E1 & Hok1 & Hd1).
  destruct (IH r s1 Hok1 (Hl r _ Hd1)) as (s2 & E2 & Hok2 & Hd2). exists s2. cbn [run_client]. rewrite E1. cbn [mbind res_bind].
  split; [done|]. split; [done|]. by exists r, (catalog_of s1).
Qed.

End refinement.

(** ** A client of the volume with one file *)

Definition demo_dir_fh : zfs_fh := MkFh 2 7 1 3 1.
Definition demo_dir_meta : metadata := MkMeta HashFile.VALID_SLOT 0 1 3 1 undefined 1 1 0 0 0 0 0 [].

(** Create the directory b, move the file into it, let time go by and destroy the
    directory. *)
Definition demo_client : client :=
  Do (Create demo_meta demo_dir_fh undefined 7 (Some 0%nat) [98] (demo_attr FT_DIR) demo_dir_meta) (fun r =>
    match r with
    | None => Done
    | Some q =>
        Do (Move 0%nat [97] q [99] demo_root_fh demo_dir_fh) (fun _ =>
        Do (LookupName None (Some q) [99]) (fun _ =>
        Do (Wait 100) (fun _ =>
        Do Cleanup (fun _ =>
        Do (Destroy q false true false) (fun _ => Done)))))
    end).

Definition demo_root_entry : entry := Entry demo_root_fh true None [] 0.
Definition demo_file_entry : entry := Entry demo_file_fh false (Some 0%nat) [97] 0.

Lemma demo_entries x e : entries (catalog_of demo_tables) !! x = Some e <-> (x = 0%nat /\ e = demo_root_entry) \/ (x = 1%nat /\ e = demo_file_entry).
Proof.
  rewrite entry_Some. split.
  - intros (d & f & [[-> ->]|[-> ->]]%two_entries & Hf & ->); [left|right]; (split; [done|]); vm_compute in Hf; injection Hf as <-; reflexivity.
  - intros [[-> ->]|[-> ->]]; eexists _, _; (split; [reflexivity|]); (split; [reflexivity|]); reflexivity.
Qed.

(** The catalog after the directory [q] was created, and after the move. *)
Definition demo_dir_entry : entry := Entry demo_dir_fh true (Some 0%nat) [98] 0.
Definition demo_moved_entry (q : ptr) : entry := Entry demo_file_fh false (Some q) [99] 0.
Definition demo_with_dir (q : ptr) : catalog := with_entries (catalog_of demo_tables) (<[q := demo_dir_entry]> (entries (catalog_of demo_tables))).
Definition demo_moved (q : ptr) : catalog := with_entries (demo_with_dir q) (<[1%nat := demo_moved_entry q]> (entries (demo_with_dir q))).

Lemma demo_fresh q : entries (catalog_of demo_tables) !! q = None -> q <> 0%nat /\ q <> 1%nat.
Proof. intros Hq. split; intros ->; [rewrite (proj2 (demo_entries 0%nat demo_root_entry)) in Hq|rewrite (proj2 (demo_entries 1%nat demo_file_entry)) in Hq]; auto; done. Qed.

Lemma demo_dir_entries q x e : entries (demo_with_dir q) !! x = Some e -> (x = q /\ e = demo_dir_entry) \/ (x = 0%nat /\ e = demo_root_entry) \/ (x = 1%nat /\ e = demo_file_entry).
Proof.
  intros Hx. change (<[q := demo_dir_entry]> (entries (catalog_of demo_tables)) !! x = Some e) in Hx. apply lookup_insert_Some in Hx as [[<- <-]|[_ Hx%demo_entries]]; auto.
Qed.

Lemma demo_moved_entries q x e : entries (demo_moved q) !! x = Some e -> (x = q /\ e = demo_dir_entry) \/ (x = 0%nat /\ e = demo_root_entry) \/ (x = 1%nat /\ e = demo_moved_entry q).
Proof.
  intros Hx. change (<[1%nat := demo_moved_entry q]> (entries (demo_with_dir q)) !! x = Some e) in Hx.
  apply lookup_insert_Some in Hx as [[<- <-]|[Hne [[-> ->]|[[-> ->]|[-> ->]]]%demo_dir_entries]]; auto; done.
Qed.

Lemma demo_found q p : q <> 0%nat -> found (demo_with_dir q) (Some 0%nat) [97] p -> p = 1%nat.
Proof. intros Hq (e & [[-> ->]|[[-> ->]|[-> ->]]]%demo_dir_entries & Ep & En); done. Qed.

Lemma demo_dir_free q : q <> 0%nat -> name_free (demo_with_dir q) q [99].
Proof.
  intros Hq. split; [exists demo_dir_entry; split; [apply lookup_insert_eq|done]|]. intros p (e & [[-> ->]|[[-> ->]|[-> ->]]]%demo_dir_entries & Ep & En); try done.
Qed.

Lemma demo_not_below q : q <> 0%nat -> q <> 1%nat -> ~ below (entries (demo_with_dir q)) 1%nat q.
Proof.
  intros H0 H1 Hb. inversion Hb as [|x e q' Hq Ep Hb']; subst; [done|]. apply demo_dir_entries in Hq as [[_ ->]|[[? _]|[? _]]]; [|done|done]. injection Ep as <-.
  inversion Hb' as [|x e q' Hq' Ep' _]; subst. apply demo_dir_entries in Hq' as [[? _]|[[_ ->]|[? _]]]; done.
Qed.

Lemma demo_create r C' : does (catalog_of demo_tables) (Create demo_meta demo_dir_fh undefined 7 (Some 0%nat) [98] (demo_attr FT_DIR) demo_dir_meta) r C' ->
  exists q, r = Some q /\ q <> 0%nat /\ q <> 1%nat /\ C' = demo_with_dir q.
Proof. intros (q & -> & Hq & ->). destruct (demo_fresh q Hq). by exists q. Qed.

Lemma demo_move q r C' : q <> 0%nat -> q <> 1%nat -> does (demo_with_dir q) (Move 0%nat [97] q [99] demo_root_fh demo_dir_fh) r C' -> C' = demo_moved q.
Proof.
  intros H0 H1 (_ & _ & Hm). assert (entries (demo_with_dir q) !! 1%nat = Some demo_file_entry) as Hf by (cbn [demo_with_dir entries with_entries]; rewrite lookup_insert_ne by done; by apply demo_entries; right).
  apply (Hm 1%nat demo_file_entry); [|done]. by exists demo_file_entry.
Qed.

Lemma demo_may : may_client 2 (catalog_of demo_tables) demo_client.
Proof.
  split.
  { split; [unfold room; rewrite catalog_size by (exact (proj1 (proj2 (proj2 demo_ok)))); reflexivity|]. split; [by apply elem_of_dom; eexists|]. split; [done|]. split; [done|]. split; [done|].
    split; [by intros p e [[-> ->]|[-> ->]]%demo_entries|]. split; [exists demo_root_entry; split; [apply demo_entries; by left|done]|].
    intros p (e & [[-> ->]|[-> ->]]%demo_entries & Ep & En); done. }
  intros r C' (q & -> & H0 & H1 & ->)%demo_create. split.
  { intros p ->%demo_found; [|done]. split; [by apply demo_not_below|by apply demo_dir_free]. }
  intros r C' ->%demo_move; [|done|done]. split; [done|]. intros r2 C' [-> _]. split; [done|]. intros r3 C' [_ ->]. split; [done|]. intros r4 C' [_ ->]. split; [|done].
  split; [exists demo_dir_entry; split; [|done]|].
  - cbn [demo_moved entries with_entries]. rewrite lookup_insert_ne by done. apply lookup_insert_eq.
  - intros x e _ [[-> ->]|[[-> ->]|[-> ->]]]%demo_moved_entries; done.
Qed.

Lemma demo_does C' : does_client (catalog_of demo_tables) demo_client C' -> entries C' !! 1%nat = None /\ entries C' !! 0%nat = Some demo_root_entry.
Proof.
  intros (r & C1 & (q & -> & H0 & H1 & ->)%demo_create & r2 & C2 & ->%demo_move & r3 & C3 & [-> _] & r4 & C4 & [_ ->] & r5 & C5 & [_ ->] & r6 & C6 & (_ & _ & _ & Hx) & ->); [|done|done]. split.
  - apply Hx. apply (below_step _ _ 1%nat (demo_moved_entry q) q); [apply lookup_insert_eq|done|constructor].
  - rewrite (proj2 (Hx 0%nat)).
    + cbn [demo_moved demo_with_dir entries with_entries]. rewrite !lookup_insert_ne by done. apply demo_entries. by left.
    + intros Hb. inversion Hb as [|x e q' Hq Ep _]; subst; [done|]. apply demo_moved_entries in Hq as [[? _]|[[_ ->]|[? _]]]; done.
Qed.

Lemma dentries_refine_catalog_witness :
  exists s', run_client 2 demo_client demo_tables = Ok s' /\ tables_ok s' /\ dents s' !! 1%nat = None /\ entries (catalog_of s') !! 0%nat = Some demo_root_entry.
Proof.
  destruct (dentries_refine_catalog 2 demo_client demo_tables demo_ok demo_may) as (s' & E & Hok & Hd).
  destruct (demo_does _ Hd) as [H1 H0]. exists s'. split; [exact E|]. split; [exact Hok|]. split; [|exact H0].
  destruct (dents s' !! 1%nat) as [d|] eqn:Ed; [|reflexivity]. exfalso. destruct (entry_exists s' 1%nat d (proj1 (proj2 (proj2 Hok))) Ed) as (e & He & _). congruence.
Defined.
