(* ===== verification/LocalCopy.v ===== *)
(** The local copy of a regular file of another node's volume: reading, writing and
    digesting its bytes and keeping the two interval trees that say which bytes are
    up to date and which were modified here.  Models [local_read], [local_write],
    [full_local_read], [full_local_write], [full_remote_read],
    [full_remote_write_dentry], [local_md5sum], [remote_md5sum] and the parts of
    [zfs_read] and [zfs_write] about such files ([src/zfsd/fs-entities/file/file.c])
    and [append_interval], [flush_interval_tree], [delete_useless_interval_file],
    [set_metadata_flags], [inc_local_version_and_modified]
    ([src/zfsd/fs-entities/metadata/metadata.c]).

    A system is the file here, the file at the master, and four scripts that say
    how calls end whose outcome is not decided here: calls of the master, system
    calls on the local file, writes of metadata to the disk, and the test whether
    somebody waits for a slow connection.  An event of the first script can also
    change both files, which is what other threads and nodes do while no lock is
    held.  An empty script means that everything succeeds. *)

From S2P Require Import Prelude SplayTree IntervalTree FileIO PosixFs Md5 DataCoding Metadata MetaPaths.
#[local] Open Scope zfs_scope.
#[local] Open Scope Z_scope.

(** ** State *)

Definition ZFS_MAXDATA : Z := 8192.
Definition ZFS_MODIFIED_BLOCK_SIZE : Z := 1024.
Definition ZFS_UPDATED_BLOCK_SIZE : Z := ZFS_MAXDATA.
Definition ZFS_OK : Z := 0.
Definition ZFS_BUSY : Z := -21.
Definition ZFS_CHANGED : Z := -22.
Definition ZFS_SLOW_BUSY : Z := -23.
Definition ZFS_METADATA_ERROR : Z := -50.
Definition ZFS_UPDATE_FAILED : Z := -51.
Definition EINVAL : Z := 22.

Definition METADATA_COMPLETE : Z := 1.
Definition METADATA_UPDATED_TREE : Z := 2.
Definition METADATA_MODIFIED_TREE : Z := 4.

(** The bytes on the disk, the attributes and metadata in the file handle, the two
    trees, the flag [IFH_REINTEGRATING] and the mark on the volume. *)
Record lfile := LFile {
  lf_data : list Z;
  lf_size : Z;
  lf_version : Z;
  lf_flags : Z;
  lf_local : Z;
  lf_master : Z;
  lf_updated : interval_tree;
  lf_modified : interval_tree;
  lf_reintegrating : bool;
  lf_volume_delete : bool
}.

Definition with_data (f : lfile) (d : list Z) : lfile :=
  LFile d (lf_size f) (lf_version f) (lf_flags f) (lf_local f) (lf_master f) (lf_updated f) (lf_modified f)
    (lf_reintegrating f) (lf_volume_delete f).
Definition with_size (f : lfile) (n : Z) : lfile :=
  LFile (lf_data f) n (lf_version f) (lf_flags f) (lf_local f) (lf_master f) (lf_updated f) (lf_modified f)
    (lf_reintegrating f) (lf_volume_delete f).
Definition with_flags (f : lfile) (n : Z) : lfile :=
  LFile (lf_data f) (lf_size f) (lf_version f) n (lf_local f) (lf_master f) (lf_updated f) (lf_modified f)
    (lf_reintegrating f) (lf_volume_delete f).
(** The versions of the metadata; [set_attr_version] copies the local one. *)
Definition with_versions (f : lfile) (l m : Z) : lfile :=
  LFile (lf_data f) (lf_size f) l (lf_flags f) l m (lf_updated f) (lf_modified f)
    (lf_reintegrating f) (lf_volume_delete f).
Definition with_updated (f : lfile) (t : interval_tree) : lfile :=
  LFile (lf_data f) (lf_size f) (lf_version f) (lf_flags f) (lf_local f) (lf_master f) t (lf_modified f)
    (lf_reintegrating f) (lf_volume_delete f).
Definition with_modified (f : lfile) (t : interval_tree) : lfile :=
  LFile (lf_data f) (lf_size f) (lf_version f) (lf_flags f) (lf_local f) (lf_master f) (lf_updated f) t
    (lf_reintegrating f) (lf_volume_delete f).
Definition with_reintegrating (f : lfile) (b : bool) : lfile :=
  LFile (lf_data f) (lf_size f) (lf_version f) (lf_flags f) (lf_local f) (lf_master f) (lf_updated f)
    (lf_modified f) b (lf_volume_delete f).
Definition mark_volume_delete (f : lfile) : lfile :=
  LFile (lf_data f) (lf_size f) (lf_version f) (lf_flags f) (lf_local f) (lf_master f) (lf_updated f)
    (lf_modified f) (lf_reintegrating f) true.

(** The file at the master. *)
Record mfile := MFile { mf_data : list Z; mf_version : Z }.

Inductive event : Type :=
  | Answer
  | AnswerShort (n : nat)                       (* at most [S n] bytes are transferred *)
  | AnswerError (r : Z)
  | Meanwhile (f : lfile * mfile -> lfile * mfile).

Record sys := Sys {
  s_file : lfile;
  s_master : mfile;
  s_net : list event;
  s_io : list outcome;
  s_store : list bool;
  s_pending : list bool;
  s_errno : Z
}.

(** ** Procedures

    A procedure ends with a value or with an error number; [Aborted] stands for
    [zfsd_abort] and for reading memory that was not written. *)

Definition proc (A : Type) : Type := sys -> res (sys * (Z + A)).

#[export] Instance proc_ret : MRet proc := fun A a s => Ok (s, inr a).
#[export] Instance proc_bind : MBind proc := fun A B k m s =>
  '(s, r) ← m s;
  match r with
  | inl e => Ok (s, inl e)
  | inr a => k a s
  end.

(** [RETURN_INT (r)] with an error *)
Definition fail {A} (r : Z) : proc A := fun s => Ok (s, inl r).
Definition abort {A} : proc A := fun _ => Aborted.
(** Look at the result instead of passing an error on. *)
Definition try {A} (m : proc A) : proc (Z + A) := fun s => '(s, r) ← m s; Ok (s, inr r).
Definition lift {A} (r : res A) : proc A := fun s => a ← r; Ok (s, inr a).
Definition file : proc lfile := fun s => Ok (s, inr (s_file s)).
Definition set_file (f : lfile) : proc unit := fun s =>
  Ok (Sys f (s_master s) (s_net s) (s_io s) (s_store s) (s_pending s) (s_errno s), inr ()).
Definition set_master (m : mfile) : proc unit := fun s =>
  Ok (Sys (s_file s) m (s_net s) (s_io s) (s_store s) (s_pending s) (s_errno s), inr ()).
Definition master : proc mfile := fun s => Ok (s, inr (s_master s)).

(** The next outcome of each script. *)
Definition io_outcome : proc outcome := fun s =>
  match s_io s with
  | [] => Ok (s, inr Pass)
  | o :: l => Ok (Sys (s_file s) (s_master s) (s_net s) l (s_store s) (s_pending s) (s_errno s), inr o)
  end.
Definition store_outcome : proc bool := fun s =>
  match s_store s with
  | [] => Ok (s, inr true)
  | b :: l => Ok (Sys (s_file s) (s_master s) (s_net s) (s_io s) l (s_pending s) (s_errno s), inr b)
  end.
Definition pending_slow_reqs : proc bool := fun s =>
  match s_pending s with
  | [] => Ok (s, inr false)
  | b :: l => Ok (Sys (s_file s) (s_master s) (s_net s) (s_io s) (s_store s) l (s_errno s), inr b)
  end.

(** A call of the master: what happens before the answer, and the number of bytes
    it may transfer. *)
Fixpoint answer (f : lfile) (m : mfile) (l : list event) : lfile * mfile * list event * (Z + option nat) :=
  match l with
  | [] => (f, m, [], inr None)
  | Answer :: l => (f, m, l, inr None)
  | AnswerShort n :: l => (f, m, l, inr (Some (S n)))
  | AnswerError r :: l => (f, m, l, inl r)
  | Meanwhile g :: l => let '(f, m) := g (f, m) in answer f m l
  end.
Definition remote_call : proc (option nat) := fun s =>
  let '(f, m, l, r) := answer (s_file s) (s_master s) (s_net s) in
  Ok (Sys f m l (s_io s) (s_store s) (s_pending s) (s_errno s), r).

Definition at_most (o : option nat) (n : nat) : nat := match o with Some k => Nat.min k n | None => n end.

(** ** Bytes of the two files *)

(** Conversion of the result of [lseek] to [int32_t]. *)
Definition i32 (z : Z) : Z := let u := u32 z in if u <? 2 ^ 31 then u else u - 2 ^ 32.

(** A failing system call sets [errno], which the code returns. *)
Definition fail_errno {A} (e : Z) : proc A := fun s =>
  Ok (Sys (s_file s) (s_master s) (s_net s) (s_io s) (s_store s) (s_pending s) e, inl e).

(** [local_read] stores the result of [lseek] in an [int32_t] and takes a negative
    one for an error; it then returns the [errno] of some earlier call.  If that is
    0 the caller sees [ZFS_OK] and a length that was not set. *)
Definition local_read (offset : Z) (count : nat) : proc (list Z) :=
  if 2 ^ 63 <=? offset then fail_errno EINVAL
  else if i32 offset <? 0 then fun s => if s_errno s =? 0 then Aborted else fail (s_errno s) s
  else
    o ← io_outcome;
    match o with
    | Fail e => fail_errno e
    | Interrupt => fail_errno EINTR
    | _ => f ← file; mret (read_at (lf_data f) (Z.to_nat offset) (transfer o count))
    end.

(** The number of bytes written.  Keeping of old versions is not modelled. *)
Definition local_write (offset : Z) (data : list Z) : proc nat :=
  if 2 ^ 63 <=? offset then fail_errno EINVAL
  else
    o ← io_outcome;
    match o with
    | Fail e => fail_errno e
    | Interrupt => fail_errno EINTR
    | _ =>
        f ← file;
        let n := transfer o (length data) in
        set_file (with_data f (write_at (lf_data f) (Z.to_nat offset) (take n data)));;
        mret n
    end.

(** The bytes and the version of the master's file. *)
Definition remote_read (offset : Z) (count : nat) : proc (list Z * Z) :=
  o ← remote_call;
  m ← master;
  mret (read_at (mf_data m) (Z.to_nat offset) (at_most o count), mf_version m).

(** A write makes the master increase the version of its file. *)
Definition remote_write (offset : Z) (data : list Z) : proc nat :=
  o ← remote_call;
  m ← master;
  let n := at_most o (length data) in
  set_master (MFile (write_at (mf_data m) (Z.to_nat offset) (take n data)) (u64 (mf_version m + 1)));;
  mret n.

(** ** Loops over short transfers

    Every round transfers a byte or is the last one. *)

Definition check_version (version : option Z) : proc unit :=
  f ← file;
  match version with
  | Some v => if v =? lf_version f then mret () else fail ZFS_CHANGED
  | None => mret ()
  end.

Fixpoint local_read_loop (fuel : nat) (buffer : list Z) (offset : Z) (count : nat) (version : option Z)
    : proc (list Z) :=
  if bool_decide (length buffer < count)%nat then
    match fuel with
    | O => fun _ => OutOfFuel
    | S fuel =>
        check_version version;;
        b ← local_read (u64 (offset + Z.of_nat (length buffer))) (count - length buffer);
        match b with
        | [] => mret buffer
        | _ => local_read_loop fuel (buffer ++ b) offset count version
        end
    end
  else mret buffer.
Definition full_local_read (offset : Z) (count : nat) (version : option Z) : proc (list Z) :=
  local_read_loop (S count) [] offset count version.
Definition full_local_read_dentry (offset : Z) (count : nat) : proc (list Z) :=
  local_read_loop (S count) [] offset count None.

(** The error [ZFS_CHANGED] comes with the version that was found. *)
Fixpoint remote_read_loop (fuel : nat) (buffer : list Z) (offset : Z) (count : nat) (version : option Z)
    : proc (list Z + Z) :=
  if bool_decide (length buffer < count)%nat then
    match fuel with
    | O => fun _ => OutOfFuel
    | S fuel =>
        '(b, v) ← remote_read (u64 (offset + Z.of_nat (length buffer))) (count - length buffer);
        if match version with Some v0 => negb (v =? v0) | None => false end then mret (inr v)
        else
          match b with
          | [] => mret (inl buffer)
          | _ => remote_read_loop fuel (buffer ++ b) offset count version
          end
    end
  else mret (inl buffer).
Definition full_remote_read (offset : Z) (count : nat) (version : option Z) : proc (list Z + Z) :=
  remote_read_loop (S count) [] offset count version.

Fixpoint local_write_loop (fuel : nat) (total : nat) (buffer : list Z) (offset : Z) (version : option Z) : proc nat :=
  if bool_decide (total < length buffer)%nat then
    match fuel with
    | O => fun _ => OutOfFuel
    | S fuel =>
        check_version version;;
        n ← local_write (u64 (offset + Z.of_nat total)) (drop total buffer);
        match n with
        | O => mret total
        | _ => local_write_loop fuel (total + n) buffer offset version
        end
    end
  else mret total.
Definition full_local_write (buffer : list Z) (offset : Z) (version : option Z) : proc nat :=
  local_write_loop (S (length buffer)) 0 buffer offset version.

(** Returns the number of bytes and [version_increase]; an error leaves the
    increase counted so far. *)
Fixpoint remote_write_loop (fuel : nat) (total : nat) (buffer : list Z) (offset : Z) (version_increase : Z)
    : proc (nat * Z + Z * Z) :=
  if bool_decide (total < length buffer)%nat then
    match fuel with
    | O => fun _ => OutOfFuel
    | S fuel =>
        r ← try (remote_write (u64 (offset + Z.of_nat total)) (drop total buffer));
        match r with
        | inl e => mret (inr (e, version_increase))
        | inr O => mret (inl (total, version_increase))
        | inr n => remote_write_loop fuel (total + n) buffer offset (u64 (version_increase + 1))
        end
    end
  else mret (inl (total, version_increase)).
Definition full_remote_write_dentry (buffer : list Z) (offset version_increase : Z) : proc (nat * Z + Z * Z) :=
  remote_write_loop (S (length buffer)) 0 buffer offset version_increase.

(** ** Digests of blocks *)

(** Offset, length and digest of the blocks, with size and version of the file. *)
Record md5sum_res := Md5Res { mr_size : Z; mr_version : Z; mr_blocks : list (Z * Z * list Z) }.

(** The loop over one block: the context and the number of bytes. *)
Fixpoint md5_block_loop (fuel : nat) (ctx : MD5Context) (total : nat) (offset : Z) (count : nat) (version : option Z)
    : proc (MD5Context * nat) :=
  if bool_decide (total < count)%nat then
    match fuel with
    | O => fun _ => OutOfFuel
    | S fuel =>
        if ZFS_MAXDATA <? Z.of_nat (count - total) then fail EINVAL
        else
          b ← local_read (u64 (offset + Z.of_nat total)) (count - total);
          check_version version;;
          match b with
          | [] => mret (ctx, total)
          | _ => md5_block_loop fuel (MD5Update ctx b) (total + length b) offset count version
          end
    end
  else mret (ctx, total).

Fixpoint md5_blocks (args : list (Z * Z)) (version : option Z) : proc (list (Z * Z * list Z)) :=
  match args with
  | [] => mret []
  | (offset, len) :: args =>
      '(ctx, total) ← md5_block_loop (S (Z.to_nat len)) (MD5Init (replicate 64 0)) 0 offset (Z.to_nat len) version;
      l ← md5_blocks args version;
      mret (if bool_decide (0 < total)%nat then (offset, Z.of_nat total, MD5Final ctx) :: l else l)
  end.

Definition local_md5sum (args : list (Z * Z)) (ignore_changes : bool) : proc md5sum_res :=
  f ← file;
  l ← md5_blocks args (if ignore_changes then None else Some (lf_version f));
  mret (Md5Res (lf_size f) (lf_version f) l).

(** What the master answers: the same function run on its own file.  A block beyond
    the end of the file is left out. *)
Definition block_sum (d : list Z) (arg : Z * Z) : option (Z * Z * list Z) :=
  match read_at d (Z.to_nat arg.1) (Z.to_nat arg.2) with
  | [] => None
  | b => Some (arg.1, Z.of_nat (length b), md5 b)
  end.
Definition master_md5 (m : mfile) (args : list (Z * Z)) : md5sum_res :=
  Md5Res (Z.of_nat (length (mf_data m))) (mf_version m) (omap (block_sum (mf_data m)) args).
Definition remote_md5sum (args : list (Z * Z)) : proc md5sum_res :=
  _ ← remote_call; m ← master; mret (master_md5 m args).

(** ** The interval trees and their files *)

Definition mark_if (b : bool) : proc unit :=
  if b then (f ← file; set_file (mark_volume_delete f)) else mret ().

(** [flush_metadata]: the element of the metadata file is written or not. *)
Definition flush_metadata : proc bool := store_outcome.

Definition set_metadata_flags (flags : Z) : proc bool :=
  f ← file;
  if lf_flags f =? flags then mret true
  else set_file (with_flags f flags);; flush_metadata.

Definition inc_local_version_and_modified : proc bool :=
  f ← file;
  let f := with_versions f (u64 (lf_local f + 1)) (lf_master f) in
  set_file (with_flags f (Z.lor (lf_flags f) METADATA_MODIFIED_TREE));;
  flush_metadata.

Definition tree_of (f : lfile) (type : metadata_type) : res interval_tree :=
  match type with
  | METADATA_TYPE_UPDATED => Ok (lf_updated f)
  | METADATA_TYPE_MODIFIED => Ok (lf_modified f)
  | _ => Aborted
  end.
Definition set_tree (f : lfile) (type : metadata_type) (t : interval_tree) : lfile :=
  match type with METADATA_TYPE_UPDATED => with_updated f t | _ => with_modified f t end.

(** The tree is one interval that covers the file. *)
Definition whole_file (t : interval_tree) (size : Z) : bool :=
  (it_size t =? 1) &&
  match root (it_splay t) with
  | Node _ k v _ _ => (k =? 0) && (v =? size)
  | Leaf => false
  end.

Definition clear_flag (flags bit : Z) : Z := Z.ldiff flags bit.

Definition useless_file (f : lfile) (type : metadata_type) (t : interval_tree) : res (bool * Z) :=
  match type with
  | METADATA_TYPE_UPDATED => Ok (whole_file t (lf_size f), METADATA_UPDATED_TREE)
  | METADATA_TYPE_MODIFIED => Ok (it_size t =? 0, METADATA_MODIFIED_TREE)
  | _ => Aborted
  end.

Definition delete_useless_interval_file (type : metadata_type) (t : interval_tree) : proc bool :=
  f ← file;
  u ← lift (useless_file f type t);
  let '(useless, flag) := u in
  r ← set_metadata_flags (if useless : bool then clear_flag (lf_flags f) flag else Z.lor (lf_flags f) flag);
  mark_if (negb r);;
  (if useless : bool then r ← store_outcome; mark_if (negb r) else mret ());;
  mret useless.

Definition clear_deleted (t : interval_tree) : interval_tree :=
  MkIT (it_splay t) (it_preferred_size t) (it_size t) (it_fd t) (it_generation t) false.

(** Write the tree to a new file, unless the flags say all. *)
Definition flush_interval_tree (type : metadata_type) : proc bool :=
  f ← file;
  t ← lift (tree_of f type);
  useless ← delete_useless_interval_file type t;
  if useless : bool then f ← file; set_file (set_tree f type (clear_deleted t));; mret true
  else
    written ← store_outcome;
    if negb written then mret false
    else f ← file; set_file (set_tree f type (clear_deleted t));; mret true.

(** Insert an interval and append it to the file of the tree. *)
Definition append_interval (type : metadata_type) (start end_ : Z) : proc bool :=
  f ← file;
  t ← lift (tree_of f type);
  '(t, _) ← lift (interval_tree_insert t start end_);
  set_file (set_tree f type t);;
  opened ← store_outcome;
  if negb opened then mret false
  else
    r ← store_outcome;
    _ ← delete_useless_interval_file type t;
    mret r.

(** ** Writing by users of this node: [zfs_write] on such a file *)

(** The loop that joins the written interval with updated ones next to it. *)
Fixpoint join_blocks (blocks : list interval) (s e : Z) : Z * Z :=
  match blocks with
  | [] => (s, e)
  | b :: blocks =>
      if end_ b <? s then join_blocks blocks s e
      else if e <? start b then (s, e)
      else join_blocks blocks (if start b <? s then start b else s) (if e <? end_ b then end_ b else e)
  end.

Definition zfs_write (offset : Z) (data : list Z) : proc nat :=
  if ZFS_MAXDATA <? Z.of_nat (length data) then fail EINVAL
  else
    written ← local_write offset data;
    r ← inc_local_version_and_modified;
    mark_if (negb r);;
    f ← file;
    let s := offset / ZFS_MODIFIED_BLOCK_SIZE * ZFS_MODIFIED_BLOCK_SIZE in
    let e := u64 (u64 (offset + Z.of_nat written + ZFS_MODIFIED_BLOCK_SIZE - 1)
                  / ZFS_MODIFIED_BLOCK_SIZE * ZFS_MODIFIED_BLOCK_SIZE) in
    '(t, blocks) ← lift (interval_tree_intersection (lf_updated f) s e);
    let f := with_updated f t in
    let s := if lf_size f <? offset then lf_size f else offset in
    let e := u64 (offset + Z.of_nat written) in
    set_file (if lf_size f <? e then with_size f e else f);;
    let '(s, e) := join_blocks blocks s e in
    r ← append_interval METADATA_TYPE_UPDATED s e;
    mark_if (negb r);;
    r ← append_interval METADATA_TYPE_MODIFIED s e;
    mark_if (negb r);;
    mret written.

(** ** Reasoning about procedures

    [wp m s Q]: run in [s], [m] ends, without aborting, and its final state and
    result satisfy [Q]. *)

Definition wp {A} (m : proc A) (s : sys) (Q : sys -> Z + A -> Prop) : Prop :=
  match m s with Ok (s', r) => Q s' r | _ => False end.

Lemma wp_ret {A} (a : A) s (Q : sys -> Z + A -> Prop) : Q s (inr a) -> wp (mret a) s Q.
Proof. done. Qed.

Lemma wp_bind {A B} (m : proc A) (k : A -> proc B) s (Q : sys -> Z + B -> Prop) :
  wp m s (fun s' r => match r with inl e => Q s' (inl e) | inr a => wp (k a) s' Q end) -> wp (m ≫= k) s Q.
Proof.
  unfold wp, mbind, proc_bind. destruct (m s) as [[s' [e|a]]| |]; cbn [mbind res_bind]; done.
Qed.

Lemma wp_mono {A} (m : proc A) s (P Q : sys -> Z + A -> Prop) :
  wp m s P -> (forall s' r, P s' r -> Q s' r) -> wp m s Q.
Proof. unfold wp. destruct (m s) as [[s' r]| |]; auto. Qed.

Lemma wp_try {A} (m : proc A) s (Q : sys -> Z + (Z + A) -> Prop) :
  wp m s (fun s' r => Q s' (inr r)) -> wp (try m) s Q.
Proof. unfold wp, try. destruct (m s) as [[s' r]| |]; done. Qed.

Lemma wp_lift {A} (r : res A) a s (Q : sys -> Z + A -> Prop) : r = Ok a -> Q s (inr a) -> wp (lift r) s Q.
Proof. intros ->. done. Qed.

Lemma wp_file s (Q : sys -> Z + lfile -> Prop) : Q s (inr (s_file s)) -> wp file s Q.
Proof. done. Qed.

Lemma wp_master s (Q : sys -> Z + mfile -> Prop) : Q s (inr (s_master s)) -> wp master s Q.
Proof. done. Qed.

Lemma wp_fail {A} e s (Q : sys -> Z + A -> Prop) : Q s (inl e) -> wp (fail e) s Q.
Proof. done. Qed.

(** What the metadata on the disk says does not matter for the data: the parts of a
    file apart from the flags and the mark on the volume. *)
Definition core (f : lfile) : list Z * Z * Z * Z * Z * interval_tree * interval_tree * bool :=
  (lf_data f, lf_size f, lf_version f, lf_local f, lf_master f, lf_updated f, lf_modified f, lf_reintegrating f).

(** Nothing changed but the script of writes to the disk and the file. *)
Definition same_env (s s' : sys) : Prop :=
  s_master s' = s_master s /\ s_net s' = s_net s /\ s_io s' = s_io s /\ s_pending s' = s_pending s /\
  s_errno s' = s_errno s.

#[export] Instance same_env_refl : Reflexive same_env.
Proof. done. Qed.
#[export] Instance same_env_trans : Transitive same_env.
Proof. intros s1 s2 s3 (?&?&?&?&?) (?&?&?&?&?). unfold same_env. split_and!; congruence. Qed.

Lemma wp_set_file f s (Q : sys -> Z + unit -> Prop) :
  (forall s', s_file s' = f -> same_env s s' -> Q s' (inr ())) -> wp (set_file f) s Q.
Proof. intros H. by apply H. Qed.

Lemma wp_set_master m s (Q : sys -> Z + unit -> Prop) :
  (forall s', s_file s' = s_file s -> s_master s' = m -> s_net s' = s_net s -> s_io s' = s_io s ->
    s_pending s' = s_pending s -> Q s' (inr ())) -> wp (set_master m) s Q.
Proof. intros H. by apply H. Qed.

Lemma wp_store s (Q : sys -> Z + bool -> Prop) :
  (forall s' b, s_file s' = s_file s -> same_env s s' -> Q s' (inr b)) -> wp store_outcome s Q.
Proof. intros H. unfold wp, store_outcome. destruct (s_store s); by apply H. Qed.

(** Steps that only touch the flags, the mark and the disk. *)
Definition meta_step (s s' : sys) : Prop := core (s_file s') = core (s_file s) /\ same_env s s'.

#[export] Instance meta_step_refl : Reflexive meta_step.
Proof. done. Qed.
#[export] Instance meta_step_trans : Transitive meta_step.
Proof. intros s1 s2 s3 [E1 H1] [E2 H2]. split; [congruence|by etrans]. Qed.

Lemma wp_mark b s (Q : sys -> Z + unit -> Prop) :
  (forall s', meta_step s s' -> Q s' (inr ())) -> wp (mark_if b) s Q.
Proof.
  intros H. unfold mark_if. destruct b; [|by apply H].
  apply wp_bind, wp_file, wp_set_file. intros s' E H'. apply H. split; [by rewrite E|done].
Qed.

Lemma wp_set_flags flags s (Q : sys -> Z + bool -> Prop) :
  (forall s' b, meta_step s s' -> Q s' (inr b)) -> wp (set_metadata_flags flags) s Q.
Proof.
  intros H. unfold set_metadata_flags. apply wp_bind, wp_file. case_match; [by apply wp_ret, H|].
  apply wp_bind, wp_set_file. intros s1 E1 H1. apply wp_store. intros s2 b E2 H2. apply H.
  split; [by rewrite E2, E1|by etrans].
Qed.

Definition interval_type (type : metadata_type) : Prop :=
  type = METADATA_TYPE_UPDATED \/ type = METADATA_TYPE_MODIFIED.

Lemma wp_delete_useless type t s (Q : sys -> Z + bool -> Prop) : interval_type type ->
  (forall s' b, meta_step s s' -> Q s' (inr b)) -> wp (delete_useless_interval_file type t) s Q.
Proof.
  intros Ht H. unfold delete_useless_interval_file. apply wp_bind, wp_file.
  assert (exists u fl, useless_file (s_file s) type t = Ok (u, fl)) as (u & fl & E).
  { destruct Ht as [-> | ->]; cbn [useless_file]; eauto. }
  apply wp_bind. eapply wp_lift; [exact E|]. apply wp_bind, wp_set_flags. intros s1 b1 H1.
  apply wp_bind, wp_mark. intros s2 H2. apply wp_bind. destruct u.
  - apply wp_bind, wp_store. intros s3 b3 E3 H3. apply wp_mark. intros s4 H4. apply wp_ret, H.
    do 2 (etrans; [eassumption|]). etrans; [|eassumption]. split; [by rewrite E3|done].
  - apply wp_ret, wp_ret, H. by etrans.
Qed.

(** An appended interval is in the tree, whatever happens on the disk. *)
Lemma wp_append type a b s t (Q : sys -> Z + bool -> Prop) : interval_type type ->
  tree_of (s_file s) type = Ok t -> it_ok t -> a < b ->
  (forall s' t' r, core (s_file s') = core (set_tree (s_file s) type t') -> same_env s s' -> it_ok t' ->
    (forall x, points t' x <-> points t x \/ a <= x < b) -> Q s' (inr r)) ->
  wp (append_interval type a b) s Q.
Proof.
  intros Ht Et Hok Hab H. unfold append_interval. apply wp_bind, wp_file.
  apply wp_bind. eapply wp_lift; [exact Et|].
  destruct (interval_tree_insert_spec t a b Hok Hab) as (t' & p & Ei & Hok' & Hp & _).
  apply wp_bind. eapply wp_lift; [exact Ei|]. cbn beta iota.
  apply wp_bind, wp_set_file. intros s1 E1 H1. apply wp_bind, wp_store. intros s2 opened E2 H2.
  assert (core (s_file s2) = core (set_tree (s_file s) type t')) as E by (by rewrite E2, E1).
  assert (same_env s s2) as He by (by etrans).
  destruct opened; cbn [negb]; [|by eapply wp_ret, H].
  apply wp_bind, wp_store. intros s3 r E3 H3. apply wp_bind, wp_delete_useless; [done|].
  intros s4 u [E4 H4]. eapply wp_ret, H; try done; [by rewrite E4, E3|]. do 2 (etrans; [eassumption|]). done.
Qed.

Lemma wp_inc_version s (Q : sys -> Z + bool -> Prop) :
  (forall s' b, core (s_file s') = core (with_versions (s_file s) (u64 (lf_local (s_file s) + 1)) (lf_master (s_file s))) ->
    same_env s s' -> Q s' (inr b)) ->
  wp inc_local_version_and_modified s Q.
Proof.
  intros H. unfold inc_local_version_and_modified. apply wp_bind, wp_file, wp_bind, wp_set_file.
  intros s1 E1 H1. apply wp_store. intros s2 b E2 H2. apply H; [by rewrite E2, E1|by etrans].
Qed.

(** ** What the trees promise *)

Definition byte (d : list Z) (x : Z) : option Z := if 0 <=? x then d !! Z.to_nat x else None.

(** A file handle is consistent: the size is the number of bytes, and the trees are
    well formed and stay within the file. *)
Record lf_ok (f : lfile) : Prop := {
  lo_size : lf_size f = Z.of_nat (length (lf_data f));
  lo_version : lf_version f = lf_local f;
  lo_updated : it_ok (lf_updated f);
  lo_modified : it_ok (lf_modified f);
  lo_updated_in : forall x, points (lf_updated f) x -> 0 <= x < lf_size f;
  lo_modified_in : forall x, points (lf_modified f) x -> 0 <= x < lf_size f
}.

(** Bytes that are marked up to date and not modified are those of the master. *)
Definition in_sync (f : lfile) (d : list Z) : Prop := forall x,
  points (lf_updated f) x -> ~ points (lf_modified f) x -> x < Z.of_nat (length d) ->
  byte (lf_data f) x = byte d x.

Lemma core_eq f f' : core f' = core f ->
  lf_data f' = lf_data f /\ lf_size f' = lf_size f /\ lf_version f' = lf_version f /\ lf_local f' = lf_local f /\
  lf_master f' = lf_master f /\ lf_updated f' = lf_updated f /\ lf_modified f' = lf_modified f /\
  lf_reintegrating f' = lf_reintegrating f.
Proof. unfold core. intros [= -> -> -> -> -> -> -> ->]. done. Qed.

Lemma core_ok f f' : core f' = core f -> lf_ok f -> lf_ok f'.
Proof. intros (E1 & E2 & E3 & E4 & E5 & E6 & E7 & E8)%core_eq [? ? ? ? ? ?]. constructor; by rewrite ?E1, ?E2, ?E3, ?E4, ?E6, ?E7. Qed.

Lemma core_sync f f' d : core f' = core f -> in_sync f d -> in_sync f' d.
Proof. intros (E1 & E2 & E3 & E4 & E5 & E6 & E7 & E8)%core_eq H. unfold in_sync. by rewrite E1, E6, E7. Qed.

Lemma length_write_max d p b : length (write_at d p b) = Nat.max (length d) (p + length b).
Proof. unfold write_at. rewrite !length_app, length_resize, length_drop. lia. Qed.

Lemma write_at_inside d p b k : (p <= k < p + length b)%nat -> write_at d p b !! k = b !! (k - p)%nat.
Proof.
  intros Hk. unfold write_at. rewrite lookup_app_r by (rewrite length_resize; lia).
  rewrite length_resize, lookup_app_l by lia. done.
Qed.

Lemma write_at_outside d p b k : (k < length d)%nat -> (k < p \/ p + length b <= k)%nat -> write_at d p b !! k = d !! k.
Proof.
  intros Hl [Hk|Hk]; unfold write_at.
  - rewrite lookup_app_l by (rewrite length_resize; lia). by rewrite lookup_resize by lia.
  - rewrite lookup_app_r, length_resize, lookup_app_r by (rewrite ?length_resize; lia).
    rewrite lookup_drop. f_equal. lia.
Qed.

Lemma byte_write_inside d off b x : 0 <= off -> off <= x < off + Z.of_nat (length b) ->
  byte (write_at d (Z.to_nat off) b) x = b !! Z.to_nat (x - off).
Proof.
  intros Ho Hx. unfold byte. rewrite (proj2 (Z.leb_le _ _)) by lia.
  rewrite write_at_inside by lia. f_equal. lia.
Qed.

Lemma byte_write_outside d off b x : 0 <= off -> x < Z.of_nat (length d) -> x < off \/ off + Z.of_nat (length b) <= x ->
  byte (write_at d (Z.to_nat off) b) x = byte d x.
Proof.
  intros Ho Hx Hb. unfold byte. case_match; [|done]. apply write_at_outside; lia.
Qed.

(** No call fails, but transfers can be short. *)
Definition no_faults (s : sys) : Prop := Forall (fun o => o <> Interrupt /\ forall e, o <> Fail e) (s_io s).

Lemma wp_io s (Q : sys -> Z + outcome -> Prop) : no_faults s ->
  (forall s' o, s_file s' = s_file s -> s_master s' = s_master s -> s_net s' = s_net s -> s_pending s' = s_pending s ->
    no_faults s' -> (forall n, (0 < n)%nat -> (0 < transfer o n <= n)%nat) ->
    (o = Pass \/ exists n, o = Short n) -> Q s' (inr o)) ->
  wp io_outcome s Q.
Proof.
  intros Hn H. unfold wp, io_outcome, no_faults in *. destruct (s_io s) as [|o l] eqn:E.
  - apply H; try done; [by rewrite E|left; done].
  - inversion Hn as [|? ? [Ho1 Ho2] Hl]; subst. apply H; try done.
    + intros n Hn0. destruct o; cbn; try lia.
    + destruct o; [by left|right; eauto|done|by destruct (Ho2 e)].
Qed.

Lemma wp_local_write offset data s (Q : sys -> Z + nat -> Prop) : no_faults s -> 0 <= offset < 2 ^ 63 ->
  (0 < length data)%nat ->
  (forall s' n, (0 < n <= length data)%nat ->
    s_file s' = with_data (s_file s) (write_at (lf_data (s_file s)) (Z.to_nat offset) (take n data)) ->
    s_master s' = s_master s -> s_net s' = s_net s -> s_pending s' = s_pending s -> no_faults s' -> Q s' (inr n)) ->
  wp (local_write offset data) s Q.
Proof.
  intros Hn Ho Hd H. unfold local_write. rewrite (proj2 (Z.leb_gt _ _)) by lia.
  apply wp_bind, wp_io; [done|]. intros s1 o E1 E2 E3 E4 H1 Ht Hc.
  assert (wp (f ← file; set_file (with_data f (write_at (lf_data f) (Z.to_nat offset)
    (take (transfer o (length data)) data)));; mret (transfer o (length data))) s1 Q) as Hw.
  { apply wp_bind, wp_file, wp_bind, wp_set_file. intros s2 F2 (G1 & G2 & G3 & G4 & G5). apply wp_ret, H.
    - by apply Ht.
    - rewrite F2. by rewrite E1.
    - congruence.
    - congruence.
    - congruence.
    - unfold no_faults. by rewrite G3. }
  destruct Hc as [-> |[n ->]]; exact Hw.
Qed.

Lemma join_blocks_spec blocks : forall s e, s <= e -> let '(s', e') := join_blocks blocks s e in
  s' <= s /\ e <= e' /\ forall x, s' <= x < e' -> s <= x < e \/ icov blocks x.
Proof.
  induction blocks as [|b blocks IH]; intros s e Hse; cbn [join_blocks]; [split_and!; auto; lia|].
  destruct (Z.ltb_spec (end_ b) s).
  - specialize (IH s e Hse). destruct (join_blocks blocks s e) as [s' e']. destruct IH as (? & ? & Hx).
    split_and!; [done|done|]. intros x Hx'. rewrite icov_cons. destruct (Hx x Hx'); auto.
  - destruct (Z.ltb_spec e (start b)); [split_and!; auto; lia|].
    specialize (IH (if start b <? s then start b else s) (if e <? end_ b then end_ b else e)).
    destruct (join_blocks blocks _ _) as [s' e'].
    destruct IH as (? & ? & Hx); [repeat case_match; lia|]. split_and!; [repeat case_match; lia..|].
    intros x Hx'. rewrite icov_cons. destruct (Hx x Hx') as [?|?]; [|auto].
    destruct (decide (s <= x < e)); [auto|right; left]. repeat case_match; lia.
Qed.

(** Looking at a tree splays it and changes nothing else. *)
Lemma splayed_ok t sp : it_ok t -> splay_ok sp -> contents sp = contents (it_splay t) ->
  it_ok (with_splay t sp) /\ forall x, points (with_splay t sp) x <-> points t x.
Proof.
  intros [_ Hs Hz] Hsp Ec. unfold points. split; [constructor|]; cbn [it_splay with_splay it_size]; by rewrite ?Ec.
Qed.

(** The effect of a write of [w] at [off] on the file, with the marked interval [a, b). *)
Record written_file (f f' : lfile) (off : Z) (w : list Z) : Prop := {
  wf_ok : lf_ok f';
  wf_data : lf_data f' = write_at (lf_data f) (Z.to_nat off) w;
  wf_size : lf_size f' = Z.max (lf_size f) (off + Z.of_nat (length w));
  wf_versions : lf_local f' = u64 (lf_local f + 1) /\ lf_master f' = lf_master f;
  wf_marked : forall x, Z.min (lf_size f) off <= x < off + Z.of_nat (length w) ->
    points (lf_updated f') x /\ points (lf_modified f') x;
  wf_updated : forall x, points (lf_updated f') x ->
    points (lf_updated f) x \/ Z.min (lf_size f) off <= x < off + Z.of_nat (length w);
  wf_modified : forall x, points (lf_modified f') x ->
    points (lf_modified f) x \/ points (lf_updated f) x \/ Z.min (lf_size f) off <= x < off + Z.of_nat (length w);
  wf_kept : (forall x, points (lf_updated f) x -> points (lf_updated f') x) /\
    (forall x, points (lf_modified f) x -> points (lf_modified f') x)
}.

(** What is not known to be the master's stays so. *)
Lemma written_sync f f' off w d : 0 <= off -> lf_ok f -> written_file f f' off w -> in_sync f d -> in_sync f' d.
Proof.
  intros Ho Hf H Hs x Hu Hm Hx.
  assert (points (lf_updated f) x /\ ~ points (lf_modified f) x) as [Hu0 Hm0].
  { split; [|intros ?; by apply Hm, (wf_kept _ _ _ _ H)].
    destruct (wf_updated _ _ _ _ H x Hu) as [?|Hin]; [done|]. destruct Hm. by apply (wf_marked _ _ _ _ H). }
  rewrite <-(Hs x Hu0 Hm0 Hx), (wf_data _ _ _ _ H).
  pose proof (lo_updated_in f Hf x Hu0) as Hin. rewrite (lo_size f Hf) in Hin.
  apply byte_write_outside; [done|lia|].
  destruct (decide (x < off \/ off + Z.of_nat (length w) <= x)) as [|Hn]; [done|].
  destruct Hm. apply (wf_marked _ _ _ _ H). lia.
Qed.

Lemma zfs_write_spec off data s : no_faults s -> lf_ok (s_file s) -> 0 <= off -> (0 < length data)%nat ->
  Z.of_nat (length data) <= ZFS_MAXDATA -> off + ZFS_MAXDATA < 2 ^ 63 ->
  wp (zfs_write off data) s (fun s' r => exists n, r = inr n /\ (0 < n <= length data)%nat /\
    written_file (s_file s) (s_file s') off (take n data) /\ s_master s' = s_master s /\
    no_faults s').
Proof.
  intros Hn Hok Ho Hl Hmax Hoff. unfold zfs_write. rewrite (proj2 (Z.ltb_ge _ _)) by lia.
  unfold ZFS_MAXDATA in *. apply wp_bind, wp_local_write; [done|lia|done|].
  intros s1 n Hn1 E1 M1 _ _ N1. set (w := take n data) in *.
  assert (length w = n) as Hw by (subst w; rewrite length_take; lia).
  apply wp_bind, wp_inc_version. intros s2 b2 E2 (M2 & _ & I2 & _). apply wp_bind, wp_mark.
  intros s3 [E3 (M3 & _ & I3 & _)].
  rewrite E2, E1 in E3. apply core_eq in E3 as (F1 & F2 & F3 & F4 & F5 & F6 & F7 & F8). cbn in F1, F2, F3, F4, F5, F6, F7.
  apply wp_bind, wp_file. rewrite F6.
  destruct (interval_tree_intersection_1_spec (lf_updated (s_file s))
    (off / ZFS_MODIFIED_BLOCK_SIZE * ZFS_MODIFIED_BLOCK_SIZE)
    (u64 (u64 (off + Z.of_nat n + ZFS_MODIFIED_BLOCK_SIZE - 1) / ZFS_MODIFIED_BLOCK_SIZE * ZFS_MODIFIED_BLOCK_SIZE))
    [] (lo_updated _ Hok)) as (sp & blocks & Ei & Hsp & Ec & Hcov).
  apply wp_bind. eapply wp_lift; [exact Ei|]. cbn beta iota.
  set (t1 := with_splay (lf_updated (s_file s)) sp).
  destruct (splayed_ok (lf_updated (s_file s)) sp (lo_updated _ Hok) Hsp Ec) as [Ht1 Hp1]. fold t1 in Ht1, Hp1.
  cbn [lf_size with_updated]. rewrite F2, (wrap_small 64 (off + Z.of_nat n)) by lia.
  set (a0 := if lf_size (s_file s) <? off then lf_size (s_file s) else off).
  assert (a0 = Z.min (lf_size (s_file s)) off) as Ha0 by (subst a0; case_match; lia).
  pose proof (lo_size _ Hok) as Hsize.
  pose proof (join_blocks_spec blocks a0 (off + Z.of_nat n) ltac:(lia)) as Hj. cbn [app] in *.
  apply wp_bind, wp_set_file. intros s4 E4 (M4 & _ & I4 & _).
  destruct (join_blocks blocks a0 (off + Z.of_nat n)) as [a b]. destruct Hj as (Ha & Hb & Hab).
  assert (forall x, a <= x < b -> points (lf_updated (s_file s)) x \/ a0 <= x < off + Z.of_nat n) as Hin.
  { intros x Hx. destruct (Hab x Hx) as [?|Hc]; [by right|]. apply Hcov in Hc as [? _]. by left. }
  assert (lf_updated (s_file s4) = t1 /\ lf_modified (s_file s4) = lf_modified (s_file s)) as [U4 D4].
  { rewrite E4. case_match; split; try done. }
  apply wp_bind, (wp_append _ _ _ _ t1); [by left|by cbn; rewrite U4|done|lia|].
  intros s5 t5 r5 E5 (M5 & _ & I5 & _) Ht5 Hp5. apply core_eq in E5 as (G1 & G2 & G3 & G4 & G5 & G6 & G7 & G8).
  cbn in G1, G2, G3, G4, G5, G6, G7.
  apply wp_bind, wp_mark. intros s6 [E6 (M6 & _ & I6 & _)]. apply core_eq in E6 as (K1 & K2 & K3 & K4 & K5 & K6 & K7 & K8).
  apply wp_bind, (wp_append _ _ _ _ (lf_modified (s_file s))); [by right|cbn; congruence|apply Hok|lia|].
  intros s7 t7 r7 E7 (M7 & _ & I7 & _) Ht7 Hp7. apply core_eq in E7 as (L1 & L2 & L3 & L4 & L5 & L6 & L7 & L8).
  cbn in L1, L2, L3, L4, L5, L6, L7.
  apply wp_bind, wp_mark. intros s8 [E8 (M8 & _ & I8 & _)]. apply core_eq in E8 as (N21 & N22 & N23 & N24 & N25 & N26 & N27 & N28).
  apply wp_ret. exists n. split_and!; [done|lia|lia| |congruence|].
  2: { unfold no_faults in *. congruence. }
  assert (lf_data (s_file s4) = write_at (lf_data (s_file s)) (Z.to_nat off) w /\
    lf_size (s_file s4) = Z.max (lf_size (s_file s)) (off + Z.of_nat n) /\
    lf_version (s_file s4) = u64 (lf_local (s_file s) + 1) /\ lf_local (s_file s4) = u64 (lf_local (s_file s) + 1) /\
    lf_master (s_file s4) = lf_master (s_file s)) as (D1 & D2 & D3 & D5 & D6).
  { rewrite E4. case_match; cbn; rewrite ?F1, ?F2, ?F3, ?F4, ?F5; split_and!; try done; lia. }
  assert (lf_updated (s_file s8) = t5 /\ lf_modified (s_file s8) = t7) as [T5 T7] by (split; congruence).
  assert (forall x, a0 <= x < off + Z.of_nat n -> a <= x < b) as Hsub by lia.
  assert (forall x, a <= x < b -> 0 <= x < Z.max (lf_size (s_file s)) (off + Z.of_nat n)) as Hbound.
  { intros x Hx. destruct (Hin x Hx) as [Hx1|Hx1]; [apply (lo_updated_in _ Hok) in Hx1|]; lia. }
  fold w. constructor; rewrite ?T5, ?T7, ?Hw, <-?Ha0.
  - constructor; rewrite ?T5, ?T7.
    + rewrite N21, L1, K1, G1, D1, length_write_max, Hw, N22, L2, K2, G2, D2. lia.
    + congruence.
    + done.
    + done.
    + intros x. rewrite Hp5, Hp1, N22, L2, K2, G2, D2. intros [Hx|Hx]; [apply (lo_updated_in _ Hok) in Hx; lia|auto].
    + intros x. rewrite Hp7, N22, L2, K2, G2, D2. intros [Hx|Hx]; [apply (lo_modified_in _ Hok) in Hx; lia|auto].
  - congruence.
  - congruence.
  - split; congruence.
  - intros x Hx. rewrite Hp5, Hp7. auto.
  - intros x. rewrite Hp5, Hp1. intros [?|?]; auto.
  - intros x. rewrite Hp7. intros [?|?]; auto.
  - split; intros x Hx; [rewrite Hp5, Hp1|rewrite Hp7]; auto.
Qed.

(** C6. A write by a user of this node keeps the promise of the trees: it ends, with
    a positive number of bytes even when the system call transfers less than asked;
    exactly these bytes change (a gap beyond the old end is filled with zeros); the
    local version grows by one; the written bytes and the gap are marked as up to
    date and as modified, and besides them only bytes that were up to date already
    become modified; bytes marked up to date and not modified are still those of
    the master.  All of this holds whatever happens to the metadata on the disk. *)
Theorem zfs_write_keeps_promise off data s : no_faults s -> lf_ok (s_file s) ->
  in_sync (s_file s) (mf_data (s_master s)) -> 0 <= off -> (0 < length data)%nat ->
  Z.of_nat (length data) <= ZFS_MAXDATA -> off + ZFS_MAXDATA < 2 ^ 63 ->
  exists s' n, zfs_write off data s = Ok (s', inr n) /\ (0 < n <= length data)%nat /\
    written_file (s_file s) (s_file s') off (take n data) /\ s_master s' = s_master s /\
    in_sync (s_file s') (mf_data (s_master s')).
Proof.
  intros Hn Hok Hs Ho Hl Hm Hoff. pose proof (zfs_write_spec off data s Hn Hok Ho Hl Hm Hoff) as Hw.
  unfold wp in Hw. destruct (zfs_write off data s) as [[s' r]| |]; [|done..].
  destruct Hw as (n & -> & Hn1 & Hw & E & _). exists s', n. split_and!; [done|lia|lia|done|done|].
  rewrite E. by eapply written_sync.
Qed.

(** A file of six bytes of which the first four came from the master and one was
    modified since. *)
Definition tree_with (l : list (Z * Z)) : interval_tree :=
  match interval_tree_create 4 with
  | Ok t => foldl (fun t '(a, b) => match interval_tree_insert t a b with Ok (t, _) => t | _ => t end) t l
  | _ => sample_it
  end.

Lemma tree_with_ok l : Forall (fun '(a, b) => a < b) l ->
  it_ok (tree_with l) /\ forall x, points (tree_with l) x <-> Exists (fun '(a, b) => a <= x < b) l.
Proof.
  intros Hl. unfold tree_with. destruct (interval_tree_create_spec 4) as (t & -> & Hok & Hp); [lia|].
  assert (forall x, points t x <-> False) as Hp0 by (intros x; split; [apply Hp|done]).
  assert (forall t, it_ok t -> let t' := foldl (fun t '(a, b) => match interval_tree_insert t a b with
    Ok (t, _) => t | _ => t end) t l in it_ok t' /\ forall x, points t' x <-> points t x \/ Exists (fun '(a, b) => a <= x < b) l) as H.
  { clear t Hok Hp Hp0. induction Hl as [|[a b] l Hab _ IH]; intros t Hok; cbn [foldl].
    - split; [done|]. intros x. rewrite Exists_nil. tauto.
    - destruct (interval_tree_insert_spec t a b Hok Hab) as (t' & p & -> & Hok' & Hp & _).
      destruct (IH t' Hok') as [H1 H2]. split; [done|]. intros x. rewrite H2, Hp, Exists_cons. tauto. }
  destruct (H t Hok) as [H1 H2]. split; [done|]. intros x. rewrite H2, Hp0. tauto.
Qed.

Definition sample_file : lfile :=
  LFile [1; 2; 3; 9; 0; 0] 6 7 6 7 5 (tree_with [(0, 4)]) (tree_with [(3, 4)]) false false.
Definition sample_sys : sys := Sys sample_file (MFile [1; 2; 3; 4; 5; 6] 5) [] [Short 1] [true; false] [] 0.

Lemma sample_trees : (it_ok (tree_with [(0, 4)]) /\ forall x, points (tree_with [(0, 4)]) x <-> 0 <= x < 4) /\
  (it_ok (tree_with [(3, 4)]) /\ forall x, points (tree_with [(3, 4)]) x <-> 3 <= x < 4).
Proof.
  split; (edestruct tree_with_ok as [H1 H2]; [|split; [exact H1|]]; [by repeat constructor|]);
    intros x; rewrite H2, Exists_cons, Exists_nil; lia.
Qed.

Lemma sample_file_ok : lf_ok sample_file.
Proof.
  destruct sample_trees as [[U1 U2] [M1 M2]].
  constructor; cbn [lf_size lf_data lf_version lf_local lf_updated lf_modified sample_file]; try done;
    intros x; rewrite ?U2, ?M2; lia.
Qed.

Lemma sample_file_sync : in_sync sample_file [1; 2; 3; 4; 5; 6].
Proof.
  destruct sample_trees as [[U1 U2] [M1 M2]].
  unfold in_sync. cbn [lf_updated lf_modified lf_data sample_file]. intros x. rewrite U2, M2. intros Hx Hy _.
  assert (x = 0 \/ x = 1 \/ x = 2) as [-> |[-> | ->]] by lia; done.
Qed.

Lemma zfs_write_keeps_promise_witness :
  exists s' n, zfs_write 8 [40; 41; 42] sample_sys = Ok (s', inr n) /\ (0 < n <= 3)%nat /\
    lf_data (s_file s') = write_at [1; 2; 3; 9; 0; 0] 8 (take n [40; 41; 42]) /\
    in_sync (s_file s') [1; 2; 3; 4; 5; 6].
Proof.
  destruct (zfs_write_keeps_promise 8 [40; 41; 42] sample_sys) as (s' & n & E & Hn & Hw & Em & Hs).
  - repeat constructor; done.
  - apply sample_file_ok.
  - apply sample_file_sync.
  - lia.
  - cbn; lia.
  - vm_compute; intros [=].
  - reflexivity.
  - exists s', n. split_and!; [exact E|lia|cbn in Hn; lia|exact (wf_data _ _ _ _ Hw)|]. rewrite Em in Hs. exact Hs.
Defined.

(** ** Loops over short transfers transfer everything *)

(** The master answers every call, possibly with less than was asked for. *)
Definition calm (s : sys) : Prop :=
  Forall (fun e => match e with Answer | AnswerShort _ => True | _ => False end) (s_net s).

(** No call fails and nobody interferes. *)
Definition tame (s : sys) : Prop := no_faults s /\ calm s.

Definition steady (s s' : sys) : Prop :=
  s_file s' = s_file s /\ s_master s' = s_master s /\ s_pending s' = s_pending s /\ tame s'.

Lemma steady_trans s1 s2 s3 : steady s1 s2 -> steady s2 s3 -> steady s1 s3.
Proof. intros (?&?&?&?) (?&?&?&?). unfold steady. split_and!; congruence. Qed.

Lemma wp_remote_call s (Q : sys -> Z + option nat -> Prop) : tame s ->
  (forall s' o, steady s s' -> (forall n, (0 < n)%nat -> (0 < at_most o n <= n)%nat) -> (at_most o 0 = 0)%nat -> Q s' (inr o)) ->
  wp remote_call s Q.
Proof.
  intros [Hn Hc] H. unfold wp, remote_call. destruct (s_net s) as [|e l] eqn:E.
  - cbn [answer]. apply H; [|cbn; lia|done]. split_and!; try done. unfold tame, calm. cbn. split; [done|constructor].
  - unfold calm in Hc. rewrite E in Hc. apply Forall_cons in Hc as [He Hl].
    destruct e; try done; cbn [answer]; (apply H; [by split_and!|unfold at_most; lia|unfold at_most; lia]).
Qed.

Lemma read_at_app d p k m : read_at d p k ++ read_at d (p + k) m = read_at d p (k + m).
Proof. unfold read_at. rewrite <-drop_drop. apply take_take_drop. Qed.

Lemma read_at_end d p k m : read_at d (p + k) m = [] -> read_at d p (k + m) = read_at d p k.
Proof. intros E. by rewrite <-read_at_app, E, app_nil_r. Qed.

Lemma read_at_transfer d p n m : read_at d p n = [] -> (0 < m)%nat -> read_at d p m = [] \/ n = 0%nat.
Proof.
  unfold read_at. intros E Hm. destruct n; [by right|left]. destruct (drop p d); [by destruct m|done].
Qed.

(** The first [n] bytes the file really has. *)
Definition got (d : list Z) (p n : nat) (b : list Z) : Prop := b = read_at d p (length b) /\ (length b <= n)%nat.

Lemma got_step d p n b k b' : got d p n b -> (length b < n)%nat -> (0 < k <= n - length b)%nat ->
  b' = read_at d (p + length b) k ->
  (b' = [] /\ b = read_at d p n) \/ (b' <> [] /\ got d p n (b ++ b') /\ (length b < length (b ++ b'))%nat).
Proof.
  intros [Hb Hl] Hlt Hk ->. destruct (read_at d (p + length b) k) as [|z l] eqn:E.
  - left. split; [done|].
    destruct (read_at_transfer d (p + length b) k (n - length b) E ltac:(lia)) as [E'|E']; [|lia].
    rewrite Hb at 1. replace n with (length b + (n - length b))%nat by lia.
    symmetry. by apply read_at_end.
  - right. split; [done|]. rewrite <-E. unfold got. rewrite length_app.
    assert (length (read_at d (p + length b) k) <= k)%nat as Hk' by (unfold read_at; rewrite length_take; lia).
    assert (0 < length (read_at d (p + length b) k))%nat by (rewrite E; cbn; lia).
    split_and!; [|lia|lia]. rewrite Hb at 1. rewrite <-read_at_app. f_equal.
    unfold read_at in *. rewrite length_take, <-take_take. by rewrite (take_ge (drop _ _) (length _)) by lia.
Qed.

Lemma wp_check_version v s (Q : sys -> Z + unit -> Prop) :
  (v = None \/ v = Some (lf_version (s_file s))) -> Q s (inr ()) -> wp (check_version v) s Q.
Proof.
  intros Hv H. unfold check_version. apply wp_bind, wp_file.
  destruct Hv as [-> | ->]; [by apply wp_ret|]. rewrite Z.eqb_refl. by apply wp_ret.
Qed.

Lemma i32_small z : 0 <= z < 2 ^ 31 -> i32 z = z.
Proof. intros Hz. unfold i32. rewrite wrap_small by lia. by rewrite (proj2 (Z.ltb_lt _ _)) by lia. Qed.

Lemma wp_local_read offset count s (Q : sys -> Z + list Z -> Prop) : tame s -> 0 <= offset < 2 ^ 31 ->
  (0 < count)%nat ->
  (forall s' k, steady s s' -> (0 < k <= count)%nat ->
    Q s' (inr (read_at (lf_data (s_file s)) (Z.to_nat offset) k))) ->
  wp (local_read offset count) s Q.
Proof.
  intros [Hn Hc] Ho Hcnt H. unfold local_read. rewrite (proj2 (Z.leb_gt _ _)) by lia.
  rewrite i32_small, (proj2 (Z.ltb_ge _ _)) by lia.
  apply wp_bind, wp_io; [done|]. intros s1 o E1 E2 E3 E4 N1 Ht Hcase.
  assert (steady s s1) as Hs by (split_and!; [done|done|done|split; [done|unfold calm; by rewrite E3]]).
  assert (wp (f ← file; mret (read_at (lf_data f) (Z.to_nat offset) (transfer o count))) s1 Q) as Hw.
  { apply wp_bind, wp_file, wp_ret. rewrite E1. apply H; [done|by apply Ht]. }
  destruct Hcase as [-> |[n ->]]; exact Hw.
Qed.

Lemma local_read_loop_spec fuel : forall buffer offset count version s,
  tame s -> 0 <= offset -> offset + Z.of_nat count < 2 ^ 31 -> (count - length buffer < fuel)%nat ->
  (version = None \/ version = Some (lf_version (s_file s))) ->
  got (lf_data (s_file s)) (Z.to_nat offset) count buffer ->
  wp (local_read_loop fuel buffer offset count version) s (fun s' r =>
    r = inr (read_at (lf_data (s_file s)) (Z.to_nat offset) count) /\ steady s s').
Proof.
  induction fuel as [|fuel IH]; intros buffer offset count version s Ht Ho Hc Hf Hv Hg; [lia|].
  cbn [local_read_loop]. case_bool_decide as Hlt.
  - apply wp_bind, wp_check_version; [done|]. rewrite wrap_small by lia.
    apply wp_bind, wp_local_read; [done|lia|lia|]. intros s1 k Hs Hk.
    rewrite Z2Nat.inj_add, Nat2Z.id by lia.
    destruct (got_step _ _ _ _ k _ Hg Hlt Hk eq_refl) as [[-> ->]|(Hne & Hg' & Hlen)]; [by apply wp_ret|].
    destruct (read_at _ _ k) as [|z l] eqn:E; [done|]. destruct Hs as (S1 & S2 & S3 & S4).
    eapply wp_mono; [apply IH; try done; rewrite ?S1; try done; lia|].
    intros s2 r [-> Hs2]. rewrite S1. split; [done|]. eapply steady_trans; [|done]. by split_and!.
  - destruct Hg as [Hb Hl]. apply wp_ret. split; [f_equal; rewrite Hb at 1; f_equal; lia|by split_and!].
Qed.

Lemma wp_full_local_read offset count version s (Q : sys -> Z + list Z -> Prop) :
  tame s -> 0 <= offset -> offset + Z.of_nat count < 2 ^ 31 ->
  (version = None \/ version = Some (lf_version (s_file s))) ->
  (forall s', steady s s' -> Q s' (inr (read_at (lf_data (s_file s)) (Z.to_nat offset) count))) ->
  wp (full_local_read offset count version) s Q.
Proof.
  intros Ht Ho Hc Hv H. eapply wp_mono; [apply local_read_loop_spec; try done; [cbn; lia|split; [done|cbn; lia]]|].
  intros s' r [-> Hs]. by apply H.
Qed.

Lemma remote_read_loop_spec fuel : forall buffer offset count version s,
  tame s -> 0 <= offset -> offset + Z.of_nat count < 2 ^ 64 -> (count - length buffer < fuel)%nat ->
  (version = None \/ version = Some (mf_version (s_master s))) ->
  got (mf_data (s_master s)) (Z.to_nat offset) count buffer ->
  wp (remote_read_loop fuel buffer offset count version) s (fun s' r =>
    r = inr (inl (read_at (mf_data (s_master s)) (Z.to_nat offset) count)) /\ steady s s').
Proof.
  induction fuel as [|fuel IH]; intros buffer offset count version s Ht Ho Hc Hf Hv Hg; [lia|].
  cbn [remote_read_loop]. case_bool_decide as Hlt.
  - rewrite wrap_small by lia. unfold remote_read. apply wp_bind, wp_bind, wp_remote_call; [done|].
    intros s1 o Hs Hk _. specialize (Hk (count - length buffer)%nat ltac:(lia)). destruct Hs as (S1 & S2 & S3 & S4).
    apply wp_bind, wp_master, wp_ret. cbn beta iota. rewrite S2.
    assert (match version with Some v0 => negb (mf_version (s_master s) =? v0) | None => false end = false) as ->.
    { destruct Hv as [-> | ->]; [done|]. by rewrite Z.eqb_refl. }
    rewrite Z2Nat.inj_add, Nat2Z.id by lia.
    destruct (got_step _ _ _ _ _ _ Hg Hlt Hk eq_refl) as [[-> ->]|(Hne & Hg' & Hlen)]; [by apply wp_ret|].
    destruct (read_at _ _ _) as [|z l] eqn:E; [done|].
    eapply wp_mono; [apply IH; try done; rewrite ?S2; try done; lia|].
    intros s2 r [-> Hs2]. rewrite S2. split; [done|]. eapply steady_trans; [|done]. by split_and!.
  - destruct Hg as [Hb Hl]. apply wp_ret. split; [do 2 f_equal; rewrite Hb at 1; f_equal; lia|by split_and!].
Qed.

Lemma wp_full_remote_read offset count version s (Q : sys -> Z + (list Z + Z) -> Prop) :
  tame s -> 0 <= offset -> offset + Z.of_nat count < 2 ^ 64 ->
  (version = None \/ version = Some (mf_version (s_master s))) ->
  (forall s', steady s s' -> Q s' (inr (inl (read_at (mf_data (s_master s)) (Z.to_nat offset) count)))) ->
  wp (full_remote_read offset count version) s Q.
Proof.
  intros Ht Ho Hc Hv H. eapply wp_mono; [apply remote_read_loop_spec; try done; [cbn; lia|split; [done|cbn; lia]]|].
  intros s' r [-> Hs]. by apply H.
Qed.

(** Writing in pieces is writing at once. *)
Lemma write_at_concat d p b1 b2 : write_at (write_at d p b1) (p + length b1) b2 = write_at d p (b1 ++ b2).
Proof.
  unfold write_at at 1. assert (length (resize p 0%Z d ++ b1) = p + length b1)%nat as L.
  { by rewrite length_app, length_resize. }
  assert (resize (p + length b1) 0 (write_at d p b1) = resize p 0 d ++ b1) as ->.
  { unfold write_at. rewrite app_assoc, resize_le by (rewrite !length_app in *; lia). rewrite take_app_le, take_ge by lia. done. }
  assert (drop (p + length b1 + length b2) (write_at d p b1) = drop (p + length (b1 ++ b2)) d) as ->.
  { unfold write_at. rewrite app_assoc, drop_app_ge by lia. rewrite L, drop_drop, length_app. f_equal. lia. }
  unfold write_at. by rewrite <-!app_assoc.
Qed.

Lemma local_write_loop_spec fuel : forall total buffer offset version s s0,
  tame s -> 0 <= offset -> offset + Z.of_nat (length buffer) < 2 ^ 63 -> (length buffer - total < fuel)%nat ->
  (total <= length buffer)%nat -> (version = None \/ version = Some (lf_version (s_file s0))) ->
  s_file s = with_data (s_file s0) (write_at (lf_data (s_file s0)) (Z.to_nat offset) (take total buffer)) ->
  s_master s = s_master s0 -> s_pending s = s_pending s0 ->
  wp (local_write_loop fuel total buffer offset version) s (fun s' r => r = inr (length buffer) /\ tame s' /\
    s_file s' = with_data (s_file s0) (write_at (lf_data (s_file s0)) (Z.to_nat offset) buffer) /\
    s_master s' = s_master s0 /\ s_pending s' = s_pending s0).
Proof.
  induction fuel as [|fuel IH]; intros total buffer offset version s s0 Ht Ho Hc Hf Hl Hv Hs Hm Hp; [lia|].
  cbn [local_write_loop]. case_bool_decide as Hlt.
  - apply wp_bind, wp_check_version; [by rewrite Hs|]. rewrite wrap_small by lia. destruct Ht as [Hn Hcalm].
    apply wp_bind, wp_local_write; [done|lia|rewrite length_drop; lia|]. rewrite length_drop.
    intros s1 n Hn1 F1 M1 E1 P1 N1. destruct n as [|n]; [lia|].
    apply IH; try done; [split; [done|unfold calm; by rewrite E1]|lia|lia| |congruence|congruence].
    rewrite F1, Hs. cbn [with_data lf_data]. rewrite Z2Nat.inj_add, Nat2Z.id by lia.
    assert (length (take total buffer) = total) as L by (rewrite length_take; lia).
    pose proof (write_at_concat (lf_data (s_file s0)) (Z.to_nat offset) (take total buffer)
      (take (S n) (drop total buffer))) as W.
    rewrite L in W. rewrite W, take_take_drop. done.
  - apply wp_ret. split; [f_equal; lia|]. split; [done|]. split_and!; [|done|done].
    rewrite Hs. by rewrite take_ge by lia.
Qed.

Lemma wp_full_local_write buffer offset version s (Q : sys -> Z + nat -> Prop) :
  tame s -> 0 <= offset -> offset + Z.of_nat (length buffer) < 2 ^ 63 -> (0 < length buffer)%nat ->
  (version = None \/ version = Some (lf_version (s_file s))) ->
  (forall s', tame s' -> s_file s' = with_data (s_file s) (write_at (lf_data (s_file s)) (Z.to_nat offset) buffer) ->
    s_master s' = s_master s -> s_pending s' = s_pending s -> Q s' (inr (length buffer))) ->
  wp (full_local_write buffer offset version) s Q.
Proof.
  intros Ht Ho Hc Hl Hv H. unfold full_local_write. cbn [local_write_loop]. rewrite bool_decide_true by done.
  apply wp_bind, wp_check_version; [done|]. rewrite drop_0. cbn [Z.of_nat]. rewrite Z.add_0_r, wrap_small by lia.
  destruct Ht as [Hn Hcalm]. apply wp_bind, wp_local_write; [done|lia|done|].
  intros s1 n Hn1 F1 M1 E1 P1 N1. destruct n as [|n]; [lia|].
  eapply wp_mono; [apply (local_write_loop_spec _ _ _ _ _ _ s); try done; [|lia|lia]|].
  - split; [done|]. unfold calm. by rewrite E1.
  - intros s' r (-> & Ht' & F & M & P). by apply H.
Qed.

(** ** Digests *)

#[local] Opaque MD5Final MD5Update md5.

Definition arg_ok (arg : Z * Z) : Prop := 0 <= arg.1 /\ 0 <= arg.2 <= ZFS_MAXDATA /\ arg.1 + arg.2 < 2 ^ 31.

Lemma md5_block_loop_spec fuel : forall ctx buffer offset count version s,
  tame s -> 0 <= offset -> offset + Z.of_nat count < 2 ^ 31 -> Z.of_nat count <= ZFS_MAXDATA ->
  (count - length buffer < fuel)%nat ->
  (version = None \/ version = Some (lf_version (s_file s))) ->
  got (lf_data (s_file s)) (Z.to_nat offset) count buffer -> ctx_rep ctx buffer ->
  wp (md5_block_loop fuel ctx (length buffer) offset count version) s (fun s' r => exists ctx',
    let b := read_at (lf_data (s_file s)) (Z.to_nat offset) count in
    r = inr (ctx', length b) /\ ctx_rep ctx' b /\ steady s s').
Proof.
  induction fuel as [|fuel IH]; intros ctx buffer offset count version s Ht Ho Hc Hm Hf Hv Hg Hr; [lia|].
  cbn [md5_block_loop]. case_bool_decide as Hlt.
  - rewrite (proj2 (Z.ltb_ge _ _)) by lia. rewrite wrap_small by lia.
    apply wp_bind, wp_local_read; [done|lia|lia|]. intros s1 k Hs Hk. destruct Hs as (S1 & S2 & S3 & S4).
    apply wp_bind, wp_check_version; [by rewrite S1|]. rewrite Z2Nat.inj_add, Nat2Z.id by lia.
    destruct (got_step _ _ _ _ k _ Hg Hlt Hk eq_refl) as [[-> E]|(Hne & Hg' & Hlen)].
    { apply wp_ret. exists ctx. rewrite <-E. by split_and!. }
    set (b := read_at (lf_data (s_file s)) (Z.to_nat offset + length buffer) k) in *.
    assert (Z.of_nat (length b) < 2 ^ 32) as Hb.
    { subst b. unfold read_at. rewrite length_take. unfold ZFS_MAXDATA in Hm. lia. }
    destruct b as [|z l] eqn:E; [done|]. rewrite <-E in *. rewrite <-length_app.
    eapply wp_mono; [apply IH; try done; rewrite ?S1; try done; [lia|by apply MD5Update_rep]|].
    rewrite S1. intros s2 r (ctx' & -> & Hr' & Hs2). exists ctx'. split_and!; [done|done|].
    eapply steady_trans; [|done]. by split_and!.
  - destruct Hg as [Hb Hl]. apply wp_ret. exists ctx. assert (length buffer = count) as <- by lia.
    rewrite <-Hb. by split_and!.
Qed.

Lemma md5_blocks_spec args : forall version s, tame s -> Forall arg_ok args ->
  (version = None \/ version = Some (lf_version (s_file s))) ->
  wp (md5_blocks args version) s (fun s' r => r = inr (omap (block_sum (lf_data (s_file s))) args) /\ steady s s').
Proof.
  induction args as [|[off len] args IH]; intros version s Ht Ha Hv; cbn [md5_blocks].
  { apply wp_ret. by split_and!. }
  apply Forall_cons in Ha as [(H1 & H2 & H3) Ha]. cbn [fst snd] in *.
  apply wp_bind. eapply wp_mono.
  { apply (md5_block_loop_spec _ _ []); try done; first [lia|cbn; lia|by apply ctx_rep_init|split; [done|cbn; lia]]. }
  intros s1 r (ctx & -> & Hr & Hs). cbn beta iota. destruct Hs as (S1 & S2 & S3 & S4).
  apply wp_bind. eapply wp_mono; [apply IH; [done|done|by rewrite S1]|].
  intros s2 r [-> Hs2]. apply wp_ret. rewrite S1.
  split; [|eapply steady_trans; [|exact Hs2]; by split_and!]. f_equal. cbn [omap list_omap].
  apply finish_rep in Hr. change (block_sum (lf_data (s_file s)) (off, len)) with
    (match read_at (lf_data (s_file s)) (Z.to_nat off) (Z.to_nat len) with
     | [] => None | b => Some (off, Z.of_nat (length b), md5 b) end).
  destruct (read_at _ _ _); [by rewrite bool_decide_false by (cbn; lia)|].
  rewrite bool_decide_true by (cbn; lia). by rewrite Hr.
Qed.

Lemma wp_local_md5sum args ign s (Q : sys -> Z + md5sum_res -> Prop) : tame s -> Forall arg_ok args ->
  (forall s', steady s s' -> Q s' (inr (Md5Res (lf_size (s_file s)) (lf_version (s_file s))
    (omap (block_sum (lf_data (s_file s))) args)))) ->
  wp (local_md5sum args ign) s Q.
Proof.
  intros Ht Ha H. unfold local_md5sum. apply wp_bind, wp_file, wp_bind.
  eapply wp_mono; [apply md5_blocks_spec; try done; destruct ign; auto|].
  intros s' r [-> Hs]. by apply wp_ret, H.
Qed.

Lemma wp_remote_md5sum args s (Q : sys -> Z + md5sum_res -> Prop) : tame s ->
  (forall s', steady s s' -> Q s' (inr (master_md5 (s_master s) args))) -> wp (remote_md5sum args) s Q.
Proof.
  intros Ht H. unfold remote_md5sum. apply wp_bind, wp_remote_call; [done|]. intros s1 o Hs _ _.
  apply wp_bind, wp_master, wp_ret. pose proof Hs as (S1 & S2 & S3 & S4). rewrite S2. by apply H.
Qed.
