(* ===== verification/Update.v ===== *)
(** Updating a local copy from the master: the part of [src/zfsd/update/update.c] about
    regular files, the conditions of [update.h], and the reading of such files by [zfs_read]
    ([src/zfsd/fs-entities/file/file.c]).

    The state and the procedures these functions call are those of [LocalCopy.v].
    The locks and lookups of file handles and capabilities around the calls are not
    modelled: they abort when the handle has disappeared, which a thread that holds
    the lock of the dentry excludes. *)

From S2P Require Import Prelude SplayTree IntervalTree FileIO PosixFs Md5 DataCoding Metadata MetaPaths LocalCopy.
#[local] Open Scope zfs_scope.
#[local] Open Scope Z_scope.

(** ** What has to be done with a file *)

Definition IFH_UPDATE : Z := 1.
Definition IFH_REINTEGRATE : Z := 2.
Definition IFH_METADATA : Z := 4.

Definition has_flag (flags bit : Z) : bool := negb (Z.land flags bit =? 0).

(** [meta] and [attr] are those of the local file handle, [remote] are the
    attributes at the master. *)
Definition UPDATE_P (meta : metadata) (attr remote : fattr) : bool :=
  negb (has_flag (flags meta) METADATA_COMPLETE) ||
  (if bool_decide (fa_type attr = FT_DIR) then master_version meta <? fa_version remote
   else (fa_version attr =? master_version meta) && (master_version meta <? fa_version remote)).

Definition REINTEGRATE_P (meta : metadata) (attr remote : fattr) : bool :=
  if bool_decide (fa_type attr = FT_DIR) then master_version meta <? fa_version attr
  else (fa_version remote =? master_version meta) && (master_version meta <? fa_version attr).

Definition METADATA_SIZE_CHANGE_P (attr1 attr2 : fattr) : bool :=
  bool_decide (fa_type attr1 = FT_REG) && negb (fa_size attr1 =? fa_size attr2).

Definition METADATA_MASTER_VERSION_CHANGE_P (meta : metadata) (remote : fattr) : bool :=
  bool_decide (fa_type remote = FT_REG) && negb (master_version meta =? fa_version remote).

Definition METADATA_ATTR_CHANGE_P (meta : metadata) (attr : fattr) : bool :=
  negb (fa_mode attr =? GET_MODETYPE_MODE (modetype meta)) || negb (fa_uid attr =? uid meta) ||
  negb (fa_gid attr =? gid meta).

Definition METADATA_CHANGE_P (meta : metadata) (attr remote : fattr) : bool :=
  METADATA_ATTR_CHANGE_P meta attr || METADATA_ATTR_CHANGE_P meta remote ||
  METADATA_SIZE_CHANGE_P attr remote || METADATA_MASTER_VERSION_CHANGE_P meta remote.

Definition METADATA_ATTR_EQ_P (attr1 attr2 : fattr) : bool :=
  (fa_mode attr1 =? fa_mode attr2) && (fa_uid attr1 =? fa_uid attr2) && (fa_gid attr1 =? fa_gid attr2) &&
  negb (METADATA_SIZE_CHANGE_P attr1 attr2).

(** The answer of the master is an error or its attributes; [undefined] says that the
    file has no counterpart there. *)
Definition update_p (undefined : bool) (meta : metadata) (attr : fattr) (remote : Z + fattr) : Z :=
  if undefined then 0
  else
    match remote with
    | inl _ => 0
    | inr remote =>
        if bool_decide (fa_type attr <> fa_type remote) then 0
        else Z.b2z (UPDATE_P meta attr remote) * IFH_UPDATE + Z.b2z (REINTEGRATE_P meta attr remote) * IFH_REINTEGRATE
             + Z.b2z (METADATA_CHANGE_P meta attr remote) * IFH_METADATA
    end.

(** ** Which blocks have to be updated *)

Definition get_blocks_for_updating (start end_ : Z) : proc (list interval) :=
  f ← file;
  '(u, tmp) ← lift (interval_tree_complement (lf_updated f) start end_);
  '(m, blocks) ← lift (interval_tree_complement_varray (lf_modified f) tmp);
  set_file (with_modified (with_updated f u) m);;
  mret blocks.

(** ** A new version at the master *)

Definition update_file_clear_updated_tree (version : Z) : proc unit :=
  f ← file;
  let fl := clear_flag (Z.lor (lf_flags f) METADATA_UPDATED_TREE) METADATA_COMPLETE in
  let local :=
    if lf_master f <? lf_local f then
      if lf_local f <=? version then u64 (version + 1) else lf_local f
    else if lf_local f <? version then version else lf_local f in
  set_file (with_flags (with_versions f local version) fl);;
  r1 ← flush_metadata;
  mark_if (negb r1);;
  f ← file;
  t ← lift (interval_tree_empty (lf_updated f));
  t ← lift (interval_tree_add t (lf_modified f));
  set_file (with_updated f t);;
  r2 ← flush_interval_tree METADATA_TYPE_UPDATED;
  mark_if (negb r2);;
  if r1 && r2 then mret () else fail ZFS_METADATA_ERROR.

(** Give the file the size of the master's file, but keep local modifications. *)
Definition truncate_local_file (size : Z) : proc unit :=
  f ← file;
  last ← lift (match interval_tree_max (lf_modified f) with
               | None => Ok None
               | Some p => n ← get p (it_splay (lf_modified f)); Ok (Some (INTERVAL_END n))
               end);
  let new_size := match last with Some e => if size <? e then e else size | None => size end in
  if new_size =? lf_size f then mret ()
  else
    (* local_setattr *)
    o ← io_outcome;
    match o with
    | Fail e => fail_errno e
    | _ =>
        f ← file;
        let f := with_data f (resize (Z.to_nat new_size) 0 (lf_data f)) in
        let flush := (lf_size f <? size) && negb (has_flag (lf_flags f) METADATA_UPDATED_TREE) in
        u ← lift (interval_tree_delete (lf_updated f) new_size UINT64_MAX);
        m ← lift (interval_tree_delete (lf_modified f) new_size UINT64_MAX);
        set_file (with_modified (with_updated (with_size f new_size) u) m);;
        (if size <? new_size then
           r ← append_interval METADATA_TYPE_UPDATED size new_size; mark_if (negb r)
         else mret ());;
        f ← file;
        (if flush || it_deleted (lf_updated f) then
           r ← flush_interval_tree METADATA_TYPE_UPDATED; mark_if (negb r)
         else mret ())
    end.

(** ** Updating some blocks *)

Definition same_sum (x y : Z * Z * list Z) : bool :=
  (x.1.2 =? y.1.2) && bool_decide (x.2 = y.2).

(** Blocks that are the same here and there are up to date and not modified. *)
Fixpoint mark_same (local remote : list (Z * Z * list Z)) (flush : bool) : proc bool :=
  match local, remote with
  | [], _ => mret flush
  | _ :: _, [] => abort
  | x :: local, y :: remote =>
      if negb (x.1.1 =? y.1.1) then fail ZFS_UPDATE_FAILED
      else if same_sum x y then
        f ← file;
        m ← lift (interval_tree_delete (lf_modified f) x.1.1 (u64 (x.1.1 + x.1.2)));
        set_file (with_modified f m);;
        r ← append_interval METADATA_TYPE_UPDATED x.1.1 (u64 (x.1.1 + x.1.2));
        mark_if (negb r);;
        mark_same local remote (flush || it_deleted m)
      else mark_same local remote flush
  end.

(** [while (blocks[j].end < offset) j++] *)
Fixpoint skip_blocks (blocks : list interval) (j : nat) (offset : Z) : nat :=
  match blocks with
  | [] => j
  | b :: blocks => if end_ b <? offset then skip_blocks blocks (S j) offset else j
  end.

(** The loop that copies blocks of [buf] to [buf2]; it ends at the first block that
    ends at or after the offset. *)
Fixpoint copy_blocks (blocks : list interval) (j : nat) (offset : Z) (buf buf2 : list Z) : nat * list Z :=
  match blocks with
  | [] => (j, buf2)
  | b :: blocks =>
      if end_ b <? offset then
        let s := if start b <? offset then offset else start b in
        let e := if offset + Z.of_nat (length buf) <? end_ b then offset + Z.of_nat (length buf) else end_ b in
        copy_blocks blocks (S j) offset buf
          (write_at buf2 (Z.to_nat (s - offset)) (read_at buf (Z.to_nat (s - offset)) (Z.to_nat (e - s))))
      else (j, buf2)
  end.

(** Bring one block of the master's file here; the new [j]. *)
Definition update_block (blocks : list interval) (j : nat) (offset : Z) (len : nat) (local_version : Z)
    (remote_version : option Z) (slow : bool) : proc nat :=
  let j := skip_blocks (drop j blocks) j offset in
  busy ← (if slow then pending_slow_reqs else mret false);
  if busy : bool then fail ZFS_SLOW_BUSY
  else
    r ← full_remote_read offset len remote_version;
    match r with
    | inr version => update_file_clear_updated_tree version;; fail ZFS_CHANGED
    | inl buf =>
        match blocks !! j with
        | None => abort
        | Some b =>
            '(j, count) ←
              (if (start b <=? offset) && (u64 (offset + Z.of_nat (length buf)) <=? end_ b) then
                 n ← full_local_write buf offset (Some local_version);
                 mret (j, n)
               else
                 old ← full_local_read offset (length buf) (Some local_version);
                 let buf2 := old ++ drop (length old) buf in
                 let '(j, buf2) := copy_blocks (drop j blocks) j offset buf buf2 in
                 n ← full_local_write buf2 offset (Some local_version);
                 mret (j, n));
            r ← append_interval METADATA_TYPE_UPDATED offset (u64 (offset + Z.of_nat count));
            mark_if (negb r);;
            mret j
        end
    end.

Fixpoint update_blocks_loop (blocks : list interval) (local remote : list (Z * Z * list Z)) (size : Z) (j : nat)
    (local_version : Z) (remote_version : option Z) (slow : bool) : proc nat :=
  match remote with
  | [] => mret j
  | y :: remote =>
      if (ZFS_MAXDATA <? y.1.2) || (size <? u64 (y.1.1 + y.1.2)) then fail ZFS_UPDATE_FAILED
      else
        j ← (if match local with x :: _ => same_sum x y | [] => false end then mret j
             else update_block blocks j y.1.1 (Z.to_nat y.1.2) local_version remote_version slow);
        update_blocks_loop blocks (drop 1 local) remote size j local_version remote_version slow
  end.

Definition update_file_blocks_1 (args : list (Z * Z)) (ignore_changes : bool) (blocks : list interval) (idx : nat)
    (slow : bool) : proc nat :=
  remote ← remote_md5sum args;
  match mr_blocks remote with
  | [] => mret idx
  | _ =>
      local ← local_md5sum args ignore_changes;
      f ← file;
      (if (lf_version f =? lf_master f) && negb (lf_master f =? mr_version remote)
       then update_file_clear_updated_tree (mr_version remote) else mret ());;
      local_blocks ←
        (if mr_size local =? mr_size remote then mret (mr_blocks local)
         else
           truncate_local_file (mr_size remote);;
           mret (take (length (mr_blocks remote)) (mr_blocks local)));
      f ← file;
      flush ← mark_same local_blocks (mr_blocks remote) (it_deleted (lf_modified f));
      f ← file;
      let remote_version := if lf_version f =? lf_master f then Some (mr_version remote) else None in
      j ← update_blocks_loop blocks local_blocks (mr_blocks remote) (mr_size remote) idx (lf_version f)
            remote_version slow;
      (if flush : bool then r ← flush_interval_tree METADATA_TYPE_MODIFIED; mark_if (negb r) else mret ());;
      mret j
  end.

(** ** Updating a list of blocks *)

Definition ZFS_MAX_MD5_CHUNKS : nat := 256.

(** The structure [md5sum_args]: the number of blocks and the two arrays, whose
    elements beyond the number are what was in the memory. *)
Record md5sum_args := Md5Args { ma_count : nat; ma_offset : list Z; ma_length : list Z }.

Definition ma_blocks (a : md5sum_args) : list (Z * Z) :=
  zip (take (ma_count a) (ma_offset a)) (take (ma_count a) (ma_length a)).

Definition piece (s e : Z) : Z := if u64 (e - s) <? ZFS_MAXDATA then u64 (e - s) else ZFS_MAXDATA.

(** [args.offset[count] = start; args.length[count] = ...; count++] *)
Definition add_arg (a : md5sum_args) (s e : Z) : md5sum_args :=
  Md5Args (S (ma_count a)) (<[ma_count a := s]> (ma_offset a)) (<[ma_count a := piece s e]> (ma_length a)).

(** The block can be joined with the last one. *)
Definition joinable (a : md5sum_args) (s : Z) : bool :=
  match ma_count a with
  | O => false
  | S k =>
      (u64 (s - nth k (ma_offset a) 0) <? ZFS_MAXDATA) &&
      (u64 (s - nth k (ma_offset a) 0 - nth k (ma_length a) 0) <? ZFS_MODIFIED_BLOCK_SIZE)
  end.

(** The [do] loop over one block [s, e); [None] when the function has returned. *)
Fixpoint add_block (fuel : nat) (a : md5sum_args) (idx : nat) (s e : Z) (modified slow : bool) (blocks : list interval)
    : proc (option (md5sum_args * nat)) :=
  match fuel with
  | O => fun _ => OutOfFuel
  | S fuel =>
      st ←
        (if joinable a s then
           let k := (ma_count a - 1)%nat in
           let s := nth k (ma_offset a) 0 in
           let a := Md5Args (ma_count a) (ma_offset a) (<[k := piece s e]> (ma_length a)) in
           (* args.length[args.count] is the element after the last one *)
           match ma_length a !! ma_count a with
           | None => abort
           | Some l => mret (Some (a, idx, u64 (s + l)))
           end
         else if bool_decide (ma_count a = ZFS_MAX_MD5_CHUNKS) then
           r ← try (update_file_blocks_1 (ma_blocks a) modified blocks idx slow);
           match r with
           | inl r => if r =? ZFS_CHANGED then mret None else fail r
           | inr idx =>
               let a := Md5Args 0 (ma_offset a) (ma_length a) in
               mret (Some (add_arg a s e, idx, u64 (s + piece s e)))
           end
         else mret (Some (add_arg a s e, idx, u64 (s + piece s e))));
      match st with
      | None => mret None
      | Some (a, idx, s) => if s <? e then add_block fuel a idx s e modified slow blocks else mret (Some (a, idx))
      end
  end.

(** A round finishes the block or takes [ZFS_MAXDATA] bytes, except the first, which
    can go back to the start of the block before. *)
Definition block_fuel (s e : Z) : nat := Z.to_nat ((e - s) / ZFS_MAXDATA) + 4.

Fixpoint add_blocks (todo : list interval) (a : md5sum_args) (idx : nat) (modified slow : bool) (blocks : list interval)
    : proc (option (md5sum_args * nat)) :=
  match todo with
  | [] => mret (Some (a, idx))
  | x :: todo =>
      r ← add_block (block_fuel (start x) (end_ x)) a idx (start x) (end_ x) modified slow blocks;
      match r with
      | None => mret None
      | Some (a, idx) => add_blocks todo a idx modified slow blocks
      end
  end.

(** [junk] is what the two arrays contain before. *)
Definition update_file_blocks (junk : list Z * list Z) (blocks : list interval) (modified slow : bool) : proc unit :=
  match blocks with
  | [] => abort
  | _ =>
      r ← add_blocks blocks (Md5Args 0 junk.1 junk.2) 0 modified slow blocks;
      match r with
      | None => mret ()
      | Some (a, idx) =>
          if bool_decide (0 < ma_count a)%nat then
            r ← try (update_file_blocks_1 (ma_blocks a) modified blocks idx slow);
            match r with
            | inl r => if r =? ZFS_CHANGED then mret () else fail r
            | inr _ => mret ()
            end
          else mret ()
      end
  end.

Definition cond_remote_open : proc unit := _ ← remote_call; mret ().

(** ** Reading by users of this node: [zfs_read] on such a file *)

(** The loop that decides whether the blocks that are not up to date concern the read. *)
Fixpoint read_complete (blocks : list interval) (offset offset2 : Z) : bool :=
  match blocks with
  | [] => true
  | b :: blocks =>
      if offset2 <=? start b then true
      else if (start b <=? offset) && (offset <? end_ b) then false
      else if (start b <? offset2) && (offset2 <=? end_ b) then false
      else read_complete blocks offset offset2
  end.

Definition zfs_read (junk : list Z * list Z) (offset : Z) (count : nat) : proc (list Z) :=
  if ZFS_MAXDATA <? Z.of_nat count then fail EINVAL
  else
    let count2 := if Z.of_nat count <? ZFS_UPDATED_BLOCK_SIZE then ZFS_UPDATED_BLOCK_SIZE else Z.of_nat count in
    let e := if offset <? u64 (UINT64_MAX - count2) then u64 (offset + count2) else UINT64_MAX in
    blocks ← get_blocks_for_updating offset e;
    if read_complete blocks offset (u64 (offset + Z.of_nat count)) then local_read offset count
    else
      (* when the file cannot be opened at the master the local bytes are read *)
      r ← try cond_remote_open;
      match r with
      | inl _ => local_read offset count
      | inr _ =>
          f ← file;
          update_file_blocks junk blocks (negb (lf_version f =? lf_master f)) false;;
          local_read offset count
      end.

(** ** The update of a whole file, as [update_file] does it after it opened the file at
    the master and loaded the trees; [size] is the size there. *)
Definition update_contents (junk : list Z * list Z) (size : Z) (slow : bool) : proc unit :=
  r ← try
    (truncate_local_file size;;
     blocks ← get_blocks_for_updating 0 size;
     f ← file;
     match blocks with
     | [] => mret ()
     | _ => update_file_blocks junk blocks (negb (lf_version f =? lf_master f)) slow
     end);
  f ← file;
  '(t, all) ← lift (interval_tree_covered (lf_updated f) 0 size);
  set_file (with_updated f t);;
  (if all : bool then
     f ← file;
     set_file (with_flags f (Z.lor (lf_flags f) METADATA_COMPLETE));;
     r ← flush_metadata;
     mark_if (negb r)
   else mret ());;
  match r with inl r => fail r | inr _ => mret () end.

(** Whether [update_file] puts the file into the queue again, [r] being the result. *)
Definition reschedule (r : Z) (f : lfile) : bool :=
  ((r =? ZFS_OK) || (r =? ZFS_SLOW_BUSY)) &&
  (negb (has_flag (lf_flags f) METADATA_COMPLETE) || has_flag (lf_flags f) METADATA_MODIFIED_TREE).

(** ** Bytes brought from the master *)

#[local] Opaque MD5Final MD5Update md5.

(** [f'] is [f] after the bytes of [P] were brought from the master, whose file has
    the bytes [d]. *)
Record brought (f f' : lfile) (d : list Z) (P : Z -> Prop) : Prop := {
  br_ok : lf_ok f';
  br_size : lf_size f' = lf_size f;
  br_versions : lf_version f' = lf_version f /\ lf_master f' = lf_master f;
  br_updated : forall x, points (lf_updated f') x <-> points (lf_updated f) x \/ (P x /\ x < Z.of_nat (length d));
  br_modified : forall x, points (lf_modified f') x <-> points (lf_modified f) x;
  br_new : forall x, P x -> x < Z.of_nat (length d) -> byte (lf_data f') x = byte d x;
  br_old : forall x, ~ (P x /\ x < Z.of_nat (length d)) -> byte (lf_data f') x = byte (lf_data f) x
}.

Lemma brought_none f d (P : Z -> Prop) : lf_ok f -> (forall x, P x -> Z.of_nat (length d) <= x) -> brought f f d P.
Proof.
  intros Hok HP. constructor; try done; intros x; [|intros Hx ?; apply HP in Hx; lia].
  split; [by left|]. intros [?|[Hx%HP ?]]; [done|lia].
Qed.

Lemma brought_core f f' f'' d P : core f'' = core f' -> brought f f' d P -> brought f f'' d P.
Proof.
  intros Hc [? ? ? ? ? ? ?]. pose proof (core_eq _ _ Hc) as (E1 & E2 & E3 & E4 & E5 & E6 & E7 & E8).
  constructor; rewrite ?E1, ?E2, ?E3, ?E5, ?E6, ?E7; try done. by eapply core_ok.
Qed.

Lemma brought_ext f f' d (P Q : Z -> Prop) : (forall x, x < Z.of_nat (length d) -> P x <-> Q x) ->
  brought f f' d P -> brought f f' d Q.
Proof.
  intros HPQ [? ? ? Hu ? Hn Ho]. constructor; try done.
  - intros x. rewrite Hu. specialize (HPQ x). tauto.
  - intros x Hx Hl. apply Hn; [|done]. by apply HPQ.
  - intros x Hx. apply Ho. specialize (HPQ x). tauto.
Qed.

(** What is brought can be brought in several steps. *)
Lemma brought_trans f f1 f2 d (P Q : Z -> Prop) : (forall x, Decision (Q x)) -> brought f f1 d P -> brought f1 f2 d Q ->
  brought f f2 d (fun x => P x \/ Q x).
Proof.
  intros HQ [? A1 [A2 A2'] A3 A4 A5 A6] [? B1 [B2 B2'] B3 B4 B5 B6]. constructor; [done|congruence|split; congruence| | | |].
  - intros x. rewrite B3, A3. tauto.
  - intros x. by rewrite B4.
  - intros x Hx Hl. destruct (HQ x); [by apply B5|]. rewrite B6 by tauto. apply A5; tauto.
  - intros x Hx. rewrite B6 by tauto. apply A6. tauto.
Qed.

(** Bytes that are up to date and not modified stay the master's. *)
Lemma brought_sync f f' d P : (forall x, Decision (P x)) -> brought f f' d P -> in_sync f d -> in_sync f' d.
Proof.
  intros HP [_ _ _ Hu Hm Hn Ho] Hs x Hx1 Hx2 Hl. destruct (HP x) as [Hp|Hp]; [by apply Hn|].
  rewrite Ho by tauto. apply Hs; [|by rewrite <-Hm|done]. apply Hu in Hx1. tauto.
Qed.

Definition in_arg (a : Z * Z) (x : Z) : Prop := a.1 <= x < a.1 + a.2.
Definition in_args (A : list (Z * Z)) (x : Z) : Prop := Exists (fun a => in_arg a x) A.

#[export] Instance in_arg_dec a x : Decision (in_arg a x).
Proof. unfold in_arg. apply _. Defined.
#[export] Instance in_args_dec A x : Decision (in_args A x).
Proof. unfold in_args. apply _. Defined.

(** Offset, length and digest of a block that begins within the file. *)
Definition sum_of (d : list Z) (a : Z * Z) : Z * Z * list Z :=
  let b := read_at d (Z.to_nat a.1) (Z.to_nat a.2) in (a.1, Z.of_nat (length b), md5 b).

(** A block of the arguments that begins within the master's file. *)
Record in_file (n : Z) (a : Z * Z) : Prop := {
  if_arg : arg_ok a;
  if_pos : 0 < a.2;
  if_in : a.1 < n
}.

Lemma length_read d p n : length (read_at d p n) = Nat.min n (length d - p).
Proof. unfold read_at. by rewrite length_take, length_drop. Qed.

Lemma block_sum_in d a : in_file (Z.of_nat (length d)) a -> block_sum d a = Some (sum_of d a).
Proof.
  intros [(? & ? & ?) ? ?]. unfold block_sum, sum_of.
  destruct (read_at d (Z.to_nat a.1) (Z.to_nat a.2)) eqn:E; [|done].
  apply (f_equal length) in E. rewrite length_read in E. cbn in E. lia.
Qed.

Lemma block_sum_out d a : arg_ok a -> Z.of_nat (length d) <= a.1 -> block_sum d a = None.
Proof.
  intros (? & ? & ?) Hd. unfold block_sum.
  destruct (read_at d (Z.to_nat a.1) (Z.to_nat a.2)) eqn:E; [done|].
  apply (f_equal length) in E. rewrite length_read in E. cbn in E. lia.
Qed.

(** The bytes of a block in two files. *)
Lemma read_eq_bytes l d a : in_file (Z.of_nat (length d)) a -> (length d <= length l)%nat ->
  read_at l (Z.to_nat a.1) (Z.to_nat a.2) = read_at d (Z.to_nat a.1) (Z.to_nat a.2) ->
  forall x, in_arg a x -> x < Z.of_nat (length d) -> byte l x = byte d x.
Proof.
  intros [(? & ? & ?) ? ?] Hl E x [Hx1 Hx2] Hd. unfold byte. rewrite (proj2 (Z.leb_le 0 x)) by lia.
  apply (f_equal (fun b => b !! (Z.to_nat x - Z.to_nat a.1)%nat)) in E. unfold read_at in E.
  rewrite !lookup_take_lt, !lookup_drop in E by lia.
  replace (Z.to_nat a.1 + (Z.to_nat x - Z.to_nat a.1))%nat with (Z.to_nat x) in E by lia. done.
Qed.

(** Two blocks with the same digest are the same. *)
Definition no_collision (l d : list Z) (a : Z * Z) : Prop :=
  let b1 := read_at l (Z.to_nat a.1) (Z.to_nat a.2) in
  let b2 := read_at d (Z.to_nat a.1) (Z.to_nat a.2) in
  length b1 = length b2 -> md5 b1 = md5 b2 -> b1 = b2.

Definition same_block (l d : list Z) (a : Z * Z) : bool := same_sum (sum_of l a) (sum_of d a).

Lemma same_block_eq l d a : no_collision l d a -> same_block l d a = true ->
  read_at l (Z.to_nat a.1) (Z.to_nat a.2) = read_at d (Z.to_nat a.1) (Z.to_nat a.2).
Proof.
  unfold same_block, same_sum, sum_of. cbn [fst snd]. intros Hn [H1 H2]%andb_true_iff.
  apply Z.eqb_eq in H1. apply bool_decide_eq_true in H2. apply Hn; [lia|done].
Qed.

(** The parts of the system the procedures below leave alone. *)
Definition env_kept (s s' : sys) : Prop :=
  s_master s' = s_master s /\ s_pending s' = s_pending s /\ tame s'.

Lemma env_kept_trans s1 s2 s3 : env_kept s1 s2 -> env_kept s2 s3 -> env_kept s1 s3.
Proof. intros (?&?&?) (?&?&?). split_and!; congruence. Qed.

Lemma same_env_kept s s' : tame s -> same_env s s' -> env_kept s s'.
Proof.
  intros [Hn Hc] (E1 & E2 & E3 & E4 & _). split_and!; try done. unfold tame, no_faults, calm. by rewrite E2, E3.
Qed.

(** Marking one block as up to date. *)
Lemma wp_mark_updated a n s (Q : sys -> Z + unit -> Prop) : tame s -> lf_ok (s_file s) -> 0 <= a -> 0 < n ->
  a + n <= lf_size (s_file s) -> a + n < 2 ^ 64 ->
  (forall s' t, env_kept s s' -> core (s_file s') = core (with_updated (s_file s) t) -> it_ok t ->
    (forall x, points t x <-> points (lf_updated (s_file s)) x \/ a <= x < a + n) -> Q s' (inr ())) ->
  wp (r ← append_interval METADATA_TYPE_UPDATED a (u64 (a + n)); mark_if (negb r)) s Q.
Proof.
  intros Ht Hok Ha Hn Hs Hu H. rewrite wrap_small by lia.
  apply wp_bind, (wp_append _ _ _ _ (lf_updated (s_file s))); [by left|done|apply Hok|lia|].
  intros s1 t r E1 H1 Ht1 Hp. pose proof (same_env_kept _ _ Ht H1) as K1.
  apply wp_mark. intros s2 [E2 H2]. apply (H _ t); [|by rewrite E2, E1|done|done].
  eapply env_kept_trans; [done|]. apply same_env_kept; [apply K1|done].
Qed.

Lemma if_bounds n a : in_file n a -> 0 <= a.1 /\ 0 < a.2 <= 8192 /\ a.1 + a.2 < 2 ^ 31 /\ a.1 < n.
Proof. intros [(? & ? & ?) ? ?]. unfold ZFS_MAXDATA in *. lia. Qed.

(** Blocks that are the same are marked. *)
Lemma mark_same_ok l d A : forall flush s, tame s -> lf_ok (s_file s) -> lf_data (s_file s) = l ->
  (length d <= length l)%nat -> Forall (in_file (Z.of_nat (length d))) A -> Forall (no_collision l d) A ->
  (forall x, in_args A x -> ~ points (lf_modified (s_file s)) x) ->
  wp (mark_same (sum_of l <$> A) (sum_of d <$> A) flush) s (fun s' r => exists fl, r = inr fl /\ env_kept s s' /\
    lf_data (s_file s') = l /\
    brought (s_file s) (s_file s') d (in_args (filter (fun a => same_block l d a = true) A))).
Proof.
  induction A as [|a A IH]; intros flush s Ht Hok Hl Hd Hin Hc Hm; cbn [fmap list_fmap mark_same].
  { apply wp_ret. exists flush. split_and!; try done. apply brought_none; [done|]. intros x Hx. by apply Exists_nil in Hx. }
  apply Forall_cons in Hin as [Ha Hin]. apply Forall_cons in Hc as [Hca Hc].
  pose proof (if_bounds _ _ Ha) as (B1 & B2 & B3 & B4).
  assert (forall x, in_args A x -> ~ points (lf_modified (s_file s)) x) as HmA.
  { intros x Hx. apply Hm. unfold in_args. rewrite Exists_cons. by right. }
  cbn [fst snd sum_of]. rewrite Z.eqb_refl. cbn [negb].
  change (same_sum _ _) with (same_block l d a). rewrite filter_cons.
  destruct (same_block l d a) eqn:Hs.
  2: { rewrite decide_False by done. by apply IH. }
  rewrite decide_True by done.
  pose proof (same_block_eq _ _ _ Hca Hs) as Er.
  pose proof (read_eq_bytes l d a Ha Hd Er) as Eb.
  assert (Z.of_nat (length (read_at l (Z.to_nat a.1) (Z.to_nat a.2))) = Z.min a.2 (Z.of_nat (length d) - a.1)) as El.
  { rewrite Er, length_read. lia. }
  rewrite El. set (n := Z.min a.2 (Z.of_nat (length d) - a.1)) in *. pose proof (lo_size _ Hok) as Hsize. rewrite Hl in Hsize.
  apply wp_bind, wp_file. rewrite wrap_small by lia.
  destruct (interval_tree_delete_spec (lf_modified (s_file s)) a.1 (a.1 + n)) as (m & Em & Hm1 & Hm2 & Hm3);
    [apply Hok|lia|].
  apply wp_bind. eapply wp_lift; [exact Em|]. apply wp_bind, wp_set_file. intros s1 E1 K1.
  pose proof (same_env_kept _ _ Ht K1) as K1'.
  assert (forall x, points m x <-> points (lf_modified (s_file s)) x) as Hpm.
  { intros x. rewrite Hm2. split; [tauto|]. intros Hx. split; [done|]. intros Hx2.
    apply (Hm x); [|done]. unfold in_args, in_arg. rewrite Exists_cons. left. lia. }
  assert (lf_ok (s_file s1)) as Hok1.
  { rewrite E1. destruct Hok. constructor; cbn; try done. intros x Hx. apply Hpm in Hx. auto. }
  rewrite <-(wrap_small 64 (a.1 + n)) by lia.
  apply wp_bind, (wp_append _ _ _ _ (lf_updated (s_file s1))); [by left|done|apply Hok1|rewrite wrap_small; lia|].
  rewrite wrap_small by lia.
  intros s2 t r E2 K2 Ht2 Hp2. pose proof (same_env_kept _ _ (proj2 (proj2 K1')) K2) as K2'.
  apply wp_bind, wp_mark. intros s3 [E3 K3]. pose proof (same_env_kept _ _ (proj2 (proj2 K2')) K3) as K3'.
  rewrite E2 in E3. rewrite E1 in E3, Hp2. cbn [set_tree] in E3.
  assert (brought (s_file s) (s_file s3) d (in_arg a)) as Hb.
  { apply (brought_core _ (with_updated (with_modified (s_file s) m) t)); [done|].
    assert (forall x, in_arg a x /\ x < Z.of_nat (length d) <-> a.1 <= x < a.1 + n) as Hx by (intros x; unfold in_arg; lia).
    constructor; cbn; try done.
    - destruct Hok. constructor; cbn; try done; intros x; [rewrite Hp2|rewrite Hpm; auto]. cbn.
      intros [?|?]; [auto|lia].
    - intros x. rewrite Hp2, Hx. done.
    - rewrite Hl. auto. }
  eapply wp_mono; [apply (IH (flush || it_deleted m) s3)|].
  - apply K3'.
  - apply Hb.
  - pose proof (core_eq _ _ E3) as (-> & _). done.
  - done.
  - done.
  - done.
  - intros x Hx. rewrite (br_modified _ _ _ _ Hb). by apply HmA.
  - intros s4 r4 (fl & -> & K4 & D4 & Hb4). exists fl. split_and!; [done| |done|].
    + eapply env_kept_trans; [exact K1'|]. eapply env_kept_trans; [exact K2'|]. by eapply env_kept_trans.
    + eapply brought_ext; [|apply (brought_trans _ _ _ _ _ _ (in_args_dec _) Hb Hb4)].
      intros x _. unfold in_args. rewrite Exists_cons. done.
Qed.

Lemma wp_flush type s t (Q : sys -> Z + bool -> Prop) : interval_type type -> tree_of (s_file s) type = Ok t ->
  (forall s' r, same_env s s' -> (core (s_file s') = core (s_file s) \/
      core (s_file s') = core (set_tree (s_file s) type (clear_deleted t))) -> Q s' (inr r)) ->
  wp (flush_interval_tree type) s Q.
Proof.
  intros Ht Et H. unfold flush_interval_tree. apply wp_bind, wp_file, wp_bind. eapply wp_lift; [exact Et|].
  apply wp_bind, wp_delete_useless; [done|]. intros s1 u [E1 K1].
  assert (forall s2, core (s_file s2) = core (s_file s1) -> same_env s1 s2 ->
    wp (f ← file; set_file (set_tree f type (clear_deleted t));; mret true) s2 Q) as Hw.
  { intros s2 E2 K2. apply wp_bind, wp_file, wp_bind, wp_set_file. intros s3 E3 K3. apply wp_ret, H.
    - etrans; [exact K1|]. by etrans.
    - right. rewrite E3, E1 in *.
      destruct type; unfold core in *; cbn [set_tree with_updated with_modified lf_data lf_size lf_version lf_local
        lf_master lf_updated lf_modified lf_reintegrating] in *; congruence. }
  destruct u; [by apply Hw|].
  apply wp_bind, wp_store. intros s2 w E2 K2. destruct w; cbn [negb]; [apply Hw; [by rewrite E2|done]|].
  apply wp_ret, H; [by etrans|]. left. by rewrite E2.
Qed.

(** The block with which an argument is compared. *)
Definition home (blocks : list interval) (a : Z * Z) : Prop := exists k b, blocks !! k = Some b /\
  start b <= a.1 /\ a.1 + a.2 <= end_ b /\ forall i b', (i < k)%nat -> blocks !! i = Some b' -> end_ b' < a.1.

(** The first [j] blocks end before an offset. *)
Definition passed (blocks : list interval) (j : nat) (c : Z) : Prop :=
  forall i b, (i < j)%nat -> blocks !! i = Some b -> end_ b < c.

Lemma skip_blocks_spec blocks offset k b : blocks !! k = Some b -> offset <= end_ b -> passed blocks k offset ->
  forall n j, (k = j + n)%nat -> skip_blocks (drop j blocks) j offset = k.
Proof.
  intros Hk Hb Hp n. induction n as [|n IH]; intros j Hj.
  - rewrite Nat.add_0_r in Hj. subst k. rewrite (drop_S _ _ _ Hk). cbn [skip_blocks].
    by rewrite (proj2 (Z.ltb_ge _ _)) by lia.
  - assert (is_Some (blocks !! j)) as [b' Hj'].
    { apply lookup_lt_is_Some. apply lookup_lt_Some in Hk. lia. }
    rewrite (drop_S _ _ _ Hj'). cbn [skip_blocks].
    rewrite (proj2 (Z.ltb_lt _ _)) by (apply (Hp j); [lia|done]). apply IH. lia.
Qed.

Lemma home_skip blocks a j : home blocks a -> 0 < a.2 -> passed blocks j a.1 ->
  exists k b, skip_blocks (drop j blocks) j a.1 = k /\ blocks !! k = Some b /\ start b <= a.1 /\
    a.1 + a.2 <= end_ b /\ passed blocks k a.1.
Proof.
  intros (k & b & Hk & H1 & H2 & H3) Hpos Hp. exists k, b. split_and!; try done.
  assert (j <= k)%nat as Hjk.
  { destruct (decide (j <= k)%nat); [done|]. specialize (Hp k b ltac:(lia) Hk). lia. }
  apply (skip_blocks_spec blocks a.1 k b Hk ltac:(lia) H3 (k - j)). lia.
Qed.

Lemma update_block_ok blocks j a version s : tame s -> lf_ok (s_file s) ->
  in_file (Z.of_nat (length (mf_data (s_master s)))) a ->
  Z.of_nat (length (mf_data (s_master s))) <= lf_size (s_file s) -> lf_size (s_file s) < 2 ^ 31 ->
  home blocks a -> passed blocks j a.1 ->
  (version = None \/ version = Some (mf_version (s_master s))) ->
  let d := mf_data (s_master s) in
  wp (update_block blocks j a.1 (length (read_at d (Z.to_nat a.1) (Z.to_nat a.2))) (lf_version (s_file s)) version false) s
    (fun s' r => exists j', r = inr j' /\ env_kept s s' /\ brought (s_file s) (s_file s') d (in_arg a) /\
       passed blocks j' a.1).
Proof.
  intros Ht Hok Ha Hd Hsz Hh Hp Hv d. fold d in Ha, Hd. pose proof (if_bounds _ _ Ha) as (B1 & B2 & B3 & B4). unfold update_block.
  destruct (home_skip _ _ _ Hh ltac:(lia) Hp) as (k & b & -> & Hk & Hb1 & Hb2 & Hp').
  apply wp_bind, wp_ret. cbv iota.
  set (n := Z.to_nat (Z.min a.2 (Z.of_nat (length d) - a.1))).
  assert (length (read_at d (Z.to_nat a.1) (Z.to_nat a.2)) = n) as -> by (rewrite length_read; lia).
  apply wp_bind, wp_full_remote_read; [done|lia|lia|done|]. intros s1 (F1 & M1 & P1 & T1). fold d.
  assert (length (read_at d (Z.to_nat a.1) n) = n) as Ln by (rewrite length_read; lia).
  set (buf := read_at d (Z.to_nat a.1) n) in *. rewrite Hk.
  rewrite (proj2 (Z.leb_le _ _)), wrap_small by lia. rewrite (proj2 (Z.leb_le _ _)) by lia. cbn [andb].
  apply wp_bind, wp_bind, wp_full_local_write; [done|lia|lia|lia|right; by rewrite F1|].
  intros s2 T2 F2 M2 P2. apply wp_ret. cbn beta iota. rewrite Ln.
  rewrite F1 in F2. pose proof (lo_size _ Hok) as Hsize.
  assert (length (write_at (lf_data (s_file s)) (Z.to_nat a.1) buf) = length (lf_data (s_file s))) as Lw.
  { rewrite length_write_max, Ln. lia. }
  assert (lf_ok (s_file s2)) as Hok2.
  { rewrite F2. destruct Hok. constructor; cbn; try done. by rewrite Lw. }
  rewrite wrap_small by lia.
  apply wp_bind, (wp_append _ _ _ _ (lf_updated (s_file s2))); [by left|done|apply Hok2|lia|].
  intros s3 t r E3 K3 Ht3 Hp3. pose proof (same_env_kept _ _ T2 K3) as K3'.
  apply wp_bind, wp_mark. intros s4 [E4 K4]. pose proof (same_env_kept _ _ (proj2 (proj2 K3')) K4) as K4'.
  apply wp_ret. exists k. split; [done|]. split.
  { destruct K3' as (?&?&?), K4' as (?&?&?). split_and!; congruence. }
  split; [|done]. rewrite E3, F2 in E4. rewrite F2 in Hp3. cbn [set_tree] in E4, Hp3.
  apply (brought_core _ _ _ _ _ E4).
  assert (forall x, in_arg a x /\ x < Z.of_nat (length d) <-> a.1 <= x < a.1 + Z.of_nat n) as Hx
    by (intros x; unfold in_arg; lia).
  constructor; cbn [with_updated with_data lf_size lf_version lf_master lf_updated lf_modified lf_data]; try done.
  - destruct Hok. constructor; cbn; try done; [by rewrite Lw|]. intros x. rewrite Hp3. cbn. intros [?|?]; [auto|lia].
  - intros x. by rewrite Hp3, Hx.
  - intros x Hx1 Hx2. rewrite byte_write_inside by (rewrite ?Ln; unfold in_arg in Hx1; lia).
    unfold byte, buf, read_at. rewrite (proj2 (Z.leb_le 0 x)) by (unfold in_arg in Hx1; lia).
    rewrite lookup_take_lt, lookup_drop by (unfold in_arg in Hx1; lia). f_equal. unfold in_arg in Hx1. lia.
  - intros x Hn. destruct (decide (0 <= x < Z.of_nat (length (lf_data (s_file s))))) as [Hin|Hout].
    + apply byte_write_outside; [lia|lia|]. rewrite Ln. rewrite Hx in Hn. lia.
    + unfold byte. case_match; [|done]. rewrite !lookup_ge_None_2; [done|lia|]. rewrite Lw. lia.
Qed.

Lemma passed_le blocks j c c' : c <= c' -> passed blocks j c -> passed blocks j c'.
Proof. intros Hc Hp i b Hi Hb. specialize (Hp i b Hi Hb). lia. Qed.

Lemma update_blocks_loop_ok blocks l d version v A : forall j s, tame s -> lf_ok (s_file s) ->
  mf_data (s_master s) = d -> lf_version (s_file s) = v -> (version = None \/ version = Some (mf_version (s_master s))) ->
  Forall (in_file (Z.of_nat (length d))) A -> StronglySorted (fun a b => a.1 <= b.1) A ->
  Z.of_nat (length d) <= lf_size (s_file s) -> lf_size (s_file s) < 2 ^ 31 -> Forall (home blocks) A ->
  (forall a, a ∈ A -> passed blocks j a.1) ->
  wp (update_blocks_loop blocks (sum_of l <$> A) (sum_of d <$> A) (Z.of_nat (length d)) j v version false) s
    (fun s' r => exists j', r = inr j' /\ env_kept s s' /\
       brought (s_file s) (s_file s') d (in_args (filter (fun a => same_block l d a = false) A)) /\
       forall c, passed blocks j c -> (forall a, a ∈ A -> a.1 <= c) -> passed blocks j' c).
Proof.
  induction A as [|a A IH]; intros j s Ht Hok Ed Ev Hv Hin Hso Hd Hsz Hh Hp; cbn [fmap list_fmap update_blocks_loop].
  { apply wp_ret. exists j. split_and!; try done. apply brought_none; [done|]. intros x Hx. by apply Exists_nil in Hx. }
  apply Forall_cons in Hin as [Ha Hin]. apply Forall_cons in Hh as [Hh1 Hh]. apply StronglySorted_inv in Hso as [Hso Hle].
  pose proof (if_bounds _ _ Ha) as (B1 & B2 & B3 & B4). cbn [fst snd sum_of].
  assert (Z.of_nat (length (read_at d (Z.to_nat a.1) (Z.to_nat a.2))) = Z.min a.2 (Z.of_nat (length d) - a.1)) as El.
  { rewrite length_read. lia. }
  rewrite (proj2 (Z.ltb_ge ZFS_MAXDATA _)) by (unfold ZFS_MAXDATA; lia).
  rewrite wrap_small, (proj2 (Z.ltb_ge (Z.of_nat (length d)) _)) by lia. cbn [orb].
  change (same_sum _ _) with (same_block l d a). rewrite filter_cons. rewrite Nat2Z.id.
  assert (forall j1 s1, env_kept s s1 -> lf_ok (s_file s1) -> lf_size (s_file s1) = lf_size (s_file s) ->
    lf_version (s_file s1) = v -> (forall c, passed blocks j c -> a.1 <= c -> passed blocks j1 c) ->
    wp (update_blocks_loop blocks (sum_of l <$> A) (sum_of d <$> A) (Z.of_nat (length d)) j1 v version false) s1
      (fun s' r => exists j', r = inr j' /\ env_kept s s' /\
       brought (s_file s1) (s_file s') d (in_args (filter (fun a => same_block l d a = false) A)) /\
       forall c, passed blocks j c -> (forall b, b ∈ a :: A -> b.1 <= c) -> passed blocks j' c)) as Hrest.
  { intros j1 s1 K1 Hok1 Hs1 Hv1 Hj1. destruct K1 as (M1 & P1 & T1).
    eapply wp_mono; [apply (IH j1 s1); try done|].
    - by rewrite M1.
    - by rewrite M1.
    - by rewrite Hs1.
    - by rewrite Hs1.
    - intros b Hb. apply Hj1; [apply Hp; set_solver|]. rewrite Forall_forall in Hle. by apply Hle.
    - intros s2 r (j2 & -> & (M2 & P2 & T2) & Hb2 & Hj2). exists j2. split; [done|]. split; [by apply (env_kept_trans s s1)|]. split; [done|].
      intros c Hc Hall. apply Hj2; [apply Hj1; [done|]|]; intros; apply Hall; set_solver. }
  destruct (same_block l d a) eqn:Hs.
  - rewrite decide_False by done. apply wp_bind, wp_ret.
    eapply wp_mono; [apply (Hrest j s); try done|]. intros s' r H. exact H.
  - rewrite decide_True by done. apply wp_bind. subst d v.
    eapply wp_mono; [apply (update_block_ok blocks j a version s); try done; apply Hp; set_solver|].
    intros s1 r (j1 & -> & K1 & Hb1 & Hj1). eapply wp_mono; [apply (Hrest j1 s1); try done; try apply Hb1|].
    + intros c Hc Hac. by eapply passed_le.
    + intros s2 r (j2 & -> & K2 & Hb2 & Hj2). exists j2. split; [done|]. split; [done|]. split; [|done].
      eapply brought_ext; [|apply (brought_trans _ _ _ _ _ _ (in_args_dec _) Hb1 Hb2)].
      intros x _. unfold in_args. rewrite Exists_cons. done.
Qed.

(** The end of the last interval. *)
Definition tree_end (t : interval_tree) : option Z := node_value <$> last (contents (it_splay t)).

Lemma tree_end_spec t : it_ok t ->
  (match interval_tree_max t with
   | None => Ok None
   | Some p => n ← get p (it_splay t); Ok (Some (INTERVAL_END n))
   end) = Ok (tree_end t) /\
  match tree_end t with
  | None => forall x, ~ points t x
  | Some e => points t (e - 1) /\ forall x, points t x -> x < e
  end.
Proof.
  intros [Hsp Hsep _]. unfold interval_tree_max, tree_end, points. rewrite splay_tree_max_spec.
  destruct (last (contents (it_splay t))) as [n|] eqn:El; cbn [fmap option_fmap option_map].
  - apply last_Some in El as [l El].
    rewrite (get_node _ n Hsp) by (rewrite El; set_solver).
    split; [done|]. rewrite El in *.
    apply separated_app in Hsep as (_ & Hn & Hlt). assert (n ∈ [n]) as Hnn by (set_solver). pose proof (separated_elem [n] n Hn Hnn).
    rewrite cov_app, cov_cons. split; [right; left; lia|].
    intros x. rewrite cov_app, cov_cons, cov_nil. intros [(m & Hm & ?)|[?|[]]]; [|lia].
    specialize (Hlt m n Hm Hnn). lia.
  - apply last_None in El. rewrite El. split; [done|]. intros x. rewrite cov_nil. tauto.
Qed.

(** The master's file has the size of the local one, or is shorter and the local one
    was modified at its end. *)
Definition size_ok (f : lfile) (n : Z) : Prop :=
  n <= lf_size f /\ (n < lf_size f -> points (lf_modified f) (lf_size f - 1)).

Lemma truncate_noop n s (Q : sys -> Z + unit -> Prop) : lf_ok (s_file s) -> size_ok (s_file s) n ->
  Q s (inr ()) -> wp (truncate_local_file n) s Q.
Proof.
  intros Hok [Hn Hm] HQ. unfold truncate_local_file. apply wp_bind, wp_file.
  destruct (tree_end_spec _ (lo_modified _ Hok)) as [Ee He]. apply wp_bind. eapply wp_lift; [exact Ee|].
  assert (match tree_end (lf_modified (s_file s)) with Some e => if n <? e then e else n | None => n end
    = lf_size (s_file s)) as ->.
  { destruct (tree_end (lf_modified (s_file s))) as [e|].
    - destruct He as [He1 He2]. apply (lo_modified_in _ Hok) in He1.
      destruct (decide (n < lf_size (s_file s))) as [Hlt|]; [pose proof (He2 _ (Hm Hlt))|]; destruct (Z.ltb_spec n e); lia.
    - destruct (decide (n < lf_size (s_file s))) as [Hlt|]; [by destruct (He _ (Hm Hlt))|lia]. }
  rewrite Z.eqb_refl. by apply wp_ret.
Qed.

(** Arguments sorted by offset: those that begin in the file come first. *)
Lemma split_args n A : StronglySorted (fun a b : Z * Z => a.1 <= b.1) A ->
  exists A1 A2, A = A1 ++ A2 /\ Forall (fun a => a.1 < n) A1 /\ Forall (fun a => n <= a.1) A2.
Proof.
  induction A as [|a A IH]; intros Hs; [by exists [], []|]. apply StronglySorted_inv in Hs as [Hs Hle].
  destruct (decide (a.1 < n)).
  - destruct (IH Hs) as (A1 & A2 & -> & H1 & H2). exists (a :: A1), A2. split_and!; [done|by constructor|done].
  - exists [], (a :: A). split_and!; [done|done|]. constructor; [lia|]. eapply Forall_impl; [exact Hle|]. cbn. lia.
Qed.

Lemma omap_sums d A1 A2 : Forall (in_file (Z.of_nat (length d))) A1 -> Forall arg_ok A2 ->
  Forall (fun a => Z.of_nat (length d) <= a.1) A2 -> omap (block_sum d) (A1 ++ A2) = sum_of d <$> A1.
Proof.
  intros H1 H2 H3. rewrite omap_app. assert (omap (block_sum d) A2 = []) as ->.
  { clear H1. induction A2 as [|a A2 IH]; [done|]. apply Forall_cons in H2 as [? ?], H3 as [? ?].
    cbn. rewrite block_sum_out by done. by apply IH. }
  rewrite app_nil_r. clear -H1. induction H1 as [|a A Ha _ IH]; [done|].
  cbn. rewrite block_sum_in by done. by rewrite IH.
Qed.

(** The arguments of one call. *)
Record args_ok (blocks : list interval) (f : lfile) (d : list Z) (A : list (Z * Z)) : Prop := {
  ao_args : Forall arg_ok A;
  ao_pos : Forall (fun a => 0 < a.2) A;
  ao_sorted : StronglySorted (fun a b => a.1 <= b.1) A;
  ao_home : Forall (home blocks) A;
  ao_unmodified : forall x, in_args A x -> ~ points (lf_modified f) x;
  ao_collision : Forall (no_collision (lf_data f) d) A
}.

(** The file is in a state that can be updated. *)
Record update_ok (f : lfile) (m : mfile) : Prop := {
  uo_file : lf_ok f;
  uo_small : lf_size f < 2 ^ 31;
  uo_size : size_ok f (Z.of_nat (length (mf_data m)));
  uo_version : lf_version f = lf_master f -> lf_master f = mf_version m
}.

Lemma in_args_app A1 A2 x : in_args (A1 ++ A2) x <-> in_args A1 x \/ in_args A2 x.
Proof. unfold in_args. apply Exists_app. Qed.

Lemma in_args_same l d A x : in_args (filter (fun a => same_block l d a = true) A) x \/
  in_args (filter (fun a => same_block l d a = false) A) x <-> in_args A x.
Proof.
  unfold in_args. induction A as [|a A IH]; [rewrite !filter_nil, !Exists_nil; tauto|].
  rewrite !filter_cons. destruct (same_block l d a);
    repeat (first [rewrite decide_True by done|rewrite decide_False by done]); rewrite !Exists_cons; tauto.
Qed.

Lemma clear_deleted_ok t : it_ok t -> it_ok (clear_deleted t).
Proof. intros [? ? ?]. by constructor. Qed.

(** The end of [update_file_blocks_1]. *)
Lemma wp_flush_modified fl (j : nat) s (Q : sys -> Z + nat -> Prop) : tame s ->
  (forall s', env_kept s s' -> core (s_file s') = core (s_file s) \/
    core (s_file s') = core (set_tree (s_file s) METADATA_TYPE_MODIFIED (clear_deleted (lf_modified (s_file s)))) ->
    Q s' (inr j)) ->
  wp ((if fl : bool then r ← flush_interval_tree METADATA_TYPE_MODIFIED; mark_if (negb r) else mret ());; mret j) s Q.
Proof.
  intros Ht HQ. destruct fl.
  - apply wp_bind, wp_bind, (wp_flush _ _ (lf_modified (s_file s))); [by right|done|].
    intros s1 r1 K1 E1. pose proof (same_env_kept _ _ Ht K1) as K1'.
    apply wp_mark. intros s2 [E2 K2]. pose proof (same_env_kept _ _ (proj2 (proj2 K1')) K2) as K2'.
    apply wp_ret, HQ; [by eapply env_kept_trans|by rewrite E2].
  - apply wp_bind, wp_ret, wp_ret, HQ; [by split_and!|by left].
Qed.

(** One call of [update_file_blocks_1] brings the bytes of its arguments. *)
Lemma update_file_blocks_1_ok blocks A ign j s : tame s -> update_ok (s_file s) (s_master s) ->
  args_ok blocks (s_file s) (mf_data (s_master s)) A -> (forall a, a ∈ A -> passed blocks j a.1) ->
  let d := mf_data (s_master s) in
  wp (update_file_blocks_1 A ign blocks j false) s (fun s' r => exists j', r = inr j' /\ env_kept s s' /\
    brought (s_file s) (s_file s') d (in_args A) /\
    forall c, passed blocks j c -> (forall a, a ∈ A -> a.1 <= c) -> passed blocks j' c).
Proof.
  intros Ht [Hok Hsm Hsz Hve] [Ha Hpos Hso Hh Hum Hco] Hj d. unfold update_file_blocks_1.
  apply wp_bind, wp_remote_md5sum; [done|]. intros s1 (F1 & M1 & P1 & T1). fold d.
  destruct (split_args (Z.of_nat (length d)) A Hso) as (A1 & A2 & -> & HA1 & HA2).
  apply Forall_app in Ha as [Ha1 Ha2], Hpos as [Hpos1 Hpos2], Hh as [Hh1 Hh2], Hco as [Hco1 Hco2].
  assert (Forall (in_file (Z.of_nat (length d))) A1) as Hin.
  { rewrite !Forall_forall in *. intros a Hin. constructor; auto. }
  unfold master_md5. cbn [mr_blocks mr_size mr_version]. fold d. rewrite (omap_sums d A1 A2) by done.
  assert (forall x, in_args A2 x -> Z.of_nat (length d) <= x) as Hout.
  { intros x (a & Hin2 & Hx)%Exists_exists. rewrite Forall_forall in HA2. specialize (HA2 a Hin2).
    unfold in_arg in Hx. lia. }
  destruct (sum_of d <$> A1) as [|y Y] eqn:EY.
  { apply fmap_nil_inv in EY as ->. apply wp_ret. exists j. split; [done|]. split; [by split_and!|]. split; [|done].
    rewrite F1. by apply brought_none. }
  rewrite <-EY. clear y Y EY.
  apply wp_bind, wp_local_md5sum; [done|by apply Forall_app|]. intros s2 (F2 & M2 & P2 & T2). rewrite F1 in F2 |- *.
  cbn [mr_blocks mr_size]. set (l := lf_data (s_file s)) in *.
  apply wp_bind, wp_file. rewrite F2. apply wp_bind.
  rewrite (proj2 (andb_false_iff _ _)) by
    (destruct (Z.eqb_spec (lf_version (s_file s)) (lf_master (s_file s))) as [E|]; [right|by left];
     rewrite (Hve E), Z.eqb_refl; done).
  apply wp_ret. pose proof (lo_size _ Hok) as Hsize. fold l in Hsize. destruct Hsz as [Hsz1 Hsz2]. fold d in Hsz1, Hsz2.
  assert (Forall (in_file (Z.of_nat (length l))) A1) as Hinl.
  { eapply Forall_impl; [exact Hin|]. intros a [? ? ?]. constructor; try done. lia. }
  (* the local digests that are compared *)
  apply wp_bind. assert (forall Q : sys -> Z + list (Z * Z * list Z) -> Prop,
    (forall s3, steady s2 s3 -> Q s3 (inr (sum_of l <$> A1))) ->
    wp (if lf_size (s_file s) =? Z.of_nat (length d) then mret (omap (block_sum l) (A1 ++ A2))
        else truncate_local_file (Z.of_nat (length d));;
             mret (take (length (sum_of d <$> A1)) (omap (block_sum l) (A1 ++ A2)))) s2 Q) as Hlocal.
  { intros Q HQ. destruct (Z.eqb_spec (lf_size (s_file s)) (Z.of_nat (length d))) as [E|E].
    - apply wp_ret. rewrite (omap_sums l A1 A2) by (try done; rewrite <-Hsize, E; done). apply HQ. by split_and!.
    - apply wp_bind, truncate_noop; [by rewrite F2|rewrite F2; done|]. apply wp_ret.
      rewrite omap_app. rewrite <-(app_nil_r A1) at 2. rewrite (omap_sums l A1 []) by done.
      rewrite length_fmap, take_app_le, take_ge by (rewrite length_fmap; lia). apply HQ. by split_and!. }
  apply Hlocal. clear Hlocal. intros s3 (F3 & M3 & P3 & T3). rewrite F2 in F3.
  apply wp_bind, wp_file, wp_bind. eapply wp_mono.
  { apply (mark_same_ok l d A1); try done; rewrite ?F3; try done; [lia|].
    intros x Hx. apply Hum. rewrite in_args_app. by left. }
  intros s4 r (fl & -> & K4 & D4 & Hb4). rewrite F3 in Hb4.
  apply wp_bind, wp_file, wp_bind. pose proof K4 as (M4 & P4 & T4).
  assert (s_master s4 = s_master s) as M4' by congruence.
  eapply wp_mono.
  { apply (update_blocks_loop_ok blocks l d); try done; try apply Hb4.
    - by rewrite M4'.
    - rewrite M4'. destruct Hb4 as [_ _ [-> ->] _ _ _ _]. case_match eqn:E; [|by left]. apply Z.eqb_eq in E.
      right. done.
    - by apply StronglySorted_app_1_l in Hso.
    - rewrite (br_size _ _ _ _ Hb4). done.
    - rewrite (br_size _ _ _ _ Hb4). done.
    - intros a Hin'. apply Hj. set_solver. }
  intros s5 r (j5 & -> & K5 & Hb5 & Hj5).
  assert (brought (s_file s) (s_file s5) d (in_args (A1 ++ A2))) as Hb.
  { eapply brought_ext; [|apply (brought_trans _ _ _ _ _ _ (in_args_dec _) Hb4 Hb5)].
    intros x Hx. rewrite in_args_same, in_args_app. split; [by left|]. intros [?|Ho%Hout]; [done|lia]. }
  assert (env_kept s s5) as K5'.
  { destruct K5 as (M5 & P5 & T5). split_and!; congruence. }
  apply wp_flush_modified; [apply K5'|]. intros s6 K6 Hc6. exists j5. split; [done|]. split; [by eapply env_kept_trans|]. split.
  - destruct Hc6 as [E|E]; [by apply (brought_core _ _ _ _ _ E)|]. apply (brought_core _ _ _ _ _ E).
    destruct Hb as [[] ? ? ? ? ? ?]. constructor; try done. constructor; try done. by apply clear_deleted_ok.
  - intros c Hc Hall. apply Hj5; [done|]. intros a Ha. apply Hall. set_solver.
Qed.

(** ** The arguments that are asked for *)

(** The pieces of one block, in the order in which the [do] loop takes them. *)
Fixpoint chunks (fuel : nat) (s e : Z) : list (Z * Z) :=
  match fuel with
  | O => []
  | S fuel => (s, piece s e) :: (if s + piece s e <? e then chunks fuel (s + piece s e) e else [])
  end.

Definition all_args (blocks : list interval) : list (Z * Z) :=
  mjoin ((fun b => chunks (block_fuel (start b) (end_ b)) (start b) (end_ b)) <$> blocks).

Definition args_sorted : list (Z * Z) -> Prop := StronglySorted (fun a b => a.1 + a.2 <= b.1).

Lemma piece_min s e : 0 <= s < e -> e < 2 ^ 31 -> piece s e = Z.min (e - s) 8192.
Proof. intros H1 H2. unfold piece, ZFS_MAXDATA. rewrite wrap_small by lia. case_match; lia. Qed.

Lemma chunks_spec fuel : forall s e, 0 <= s < e -> e < 2 ^ 31 -> e - s <= 8192 * Z.of_nat fuel ->
  Forall (fun a => s <= a.1 /\ 0 < a.2 <= 8192 /\ a.1 + a.2 <= e) (chunks fuel s e) /\
  args_sorted (chunks fuel s e) /\ (forall x, in_args (chunks fuel s e) x <-> s <= x < e).
Proof.
  induction fuel as [|fuel IH]; intros s e Hs He Hf; [lia|]. cbn [chunks]. rewrite piece_min by done.
  set (p := Z.min (e - s) 8192). destruct (Z.ltb_spec (s + p) e).
  - destruct (IH (s + p) e) as (H1 & H2 & H3); [lia|done|lia|]. split_and!.
    + constructor; [cbn; lia|]. eapply Forall_impl; [exact H1|]. cbn. lia.
    + constructor; [done|]. eapply Forall_impl; [exact H1|]. cbn. lia.
    + intros x. unfold in_args. rewrite Exists_cons. change (Exists _ (chunks _ _ _)) with (in_args (chunks fuel (s + p) e) x).
      rewrite H3. unfold in_arg. cbn. lia.
  - split_and!; [constructor; [cbn; lia|done]|constructor; constructor|].
    intros x. unfold in_args. rewrite Exists_cons, Exists_nil. unfold in_arg. cbn. lia.
Qed.

(** Blocks in order, at least [ZFS_MODIFIED_BLOCK_SIZE] bytes apart: no two are joined
    into one argument. *)
Record blocks_apart (blocks : list interval) : Prop := {
  ba_block : Forall (fun b => 0 <= start b < end_ b /\ end_ b < 2 ^ 31) blocks;
  ba_apart : StronglySorted (fun b c => end_ b + ZFS_MODIFIED_BLOCK_SIZE <= start c) blocks
}.

Lemma block_fuel_enough s e : s < e -> e - s <= 8192 * Z.of_nat (block_fuel s e).
Proof.
  intros H. unfold block_fuel, ZFS_MAXDATA. rewrite Nat2Z.inj_add, Z2Nat.id by (apply Z.div_pos; lia).
  pose proof (Z.div_mod (e - s) 8192 ltac:(lia)). pose proof (Z.mod_pos_bound (e - s) 8192 ltac:(lia)). lia.
Qed.

Lemma in_args_join (l : list (list (Z * Z))) x : in_args (mjoin l) x <-> Exists (fun A => in_args A x) l.
Proof.
  induction l as [|A l IH]; [by rewrite Exists_nil; split; [intros H%Exists_nil|]|].
  change (mjoin (A :: l)) with (A ++ mjoin l). by rewrite in_args_app, Exists_cons, IH.
Qed.

Lemma all_args_cov blocks x : Forall (fun b => 0 <= start b < end_ b /\ end_ b < 2 ^ 31) blocks ->
  in_args (all_args blocks) x <-> icov blocks x.
Proof.
  intros Hb. unfold all_args, icov. rewrite in_args_join, Exists_exists. setoid_rewrite list_elem_of_fmap. split.
  - intros (A & (b & -> & Hin) & Hx). rewrite Forall_forall in Hb. specialize (Hb b Hin). exists b. split; [done|].
    eapply chunks_spec; [..|exact Hx]; [lia|lia|]. apply block_fuel_enough. lia.
  - intros (b & Hin & Hx). rewrite Forall_forall in Hb. specialize (Hb b Hin). eexists. split; [by eexists|].
    apply chunks_spec; [lia|lia| |done]. apply block_fuel_enough. lia.
Qed.

Lemma home_later b blocks a : home blocks a -> (end_ b < a.1) -> home (b :: blocks) a.
Proof.
  intros (k & c & Hk & H1 & H2 & H3) Hb. exists (S k), c. split_and!; try done.
  intros [|i] b' Hi Hb'; cbn in Hb'; [by injection Hb' as <-|]. apply (H3 i); [lia|done].
Qed.

Lemma all_args_ok blocks : blocks_apart blocks ->
  Forall (fun a => arg_ok a /\ 0 < a.2) (all_args blocks) /\ args_sorted (all_args blocks) /\
  Forall (home blocks) (all_args blocks).
Proof.
  intros [Hb Ha]. induction blocks as [|b blocks IH]; [by split_and!; constructor|].
  apply Forall_cons in Hb as [Hb1 Hb]. apply StronglySorted_inv in Ha as [Ha Hlt].
  destruct (IH Hb Ha) as (H1 & H2 & H3).
  destruct (chunks_spec (block_fuel (start b) (end_ b)) (start b) (end_ b)) as (C1 & C2 & C3);
    [lia|lia|apply block_fuel_enough; lia|].
  change (all_args (b :: blocks)) with (chunks (block_fuel (start b) (end_ b)) (start b) (end_ b) ++ all_args blocks).
  assert (Forall (fun a => end_ b + ZFS_MODIFIED_BLOCK_SIZE <= a.1) (all_args blocks)) as Hge.
  { rewrite !Forall_forall in *. intros a Hin. destruct (H1 a Hin) as [_ Hpos].
    assert (in_args (all_args blocks) a.1) as Hx.
    { apply Exists_exists. exists a. split; [done|]. unfold in_arg. lia. }
    apply all_args_cov in Hx as (c & Hc & Hx); [|by rewrite Forall_forall]. specialize (Hlt c Hc). lia. }
  unfold ZFS_MODIFIED_BLOCK_SIZE in *. split_and!.
  - apply Forall_app. split; [|done]. eapply Forall_impl; [exact C1|]. intros a (? & ? & ?). unfold arg_ok, ZFS_MAXDATA. lia.
  - apply StronglySorted_app. split_and!; [|done|done]. intros x y Hx Hy. rewrite Forall_forall in C1, Hge.
    specialize (C1 x Hx). specialize (Hge y Hy). lia.
  - apply Forall_app. split.
    + eapply Forall_impl; [exact C1|]. intros a (? & ? & ?). exists 0%nat, b. split_and!; [done|lia|lia|]. intros i b' Hi. lia.
    + rewrite !Forall_forall in *. intros a Hin. apply home_later; [by apply H3|]. specialize (Hge a Hin). lia.
Qed.

Lemma update_file_blocks_eq junk blocks modified slow : blocks <> [] ->
  update_file_blocks junk blocks modified slow =
    (r ← add_blocks blocks (Md5Args 0 junk.1 junk.2) 0 modified slow blocks;
     match r with
     | None => mret ()
     | Some (a, idx) =>
         if bool_decide (0 < ma_count a)%nat then
           r ← try (update_file_blocks_1 (ma_blocks a) modified blocks idx slow);
           match r with
           | inl r => if r =? ZFS_CHANGED then mret () else fail r
           | inr _ => mret ()
           end
         else mret ()
     end).
Proof. by destruct blocks. Qed.

Section batches.
Context (blocks : list interval) (s0 : sys) (modified : bool).
Let d := mf_data (s_master s0).
Let f0 := s_file s0.
Context (Hblocks : blocks_apart blocks) (Hf0 : update_ok f0 (s_master s0)).
Context (Hmod : forall x, icov blocks x -> ~ points (lf_modified f0) x).
Context (Hcol : Forall (no_collision (lf_data f0) d) (all_args blocks)).

(** After the arguments [D] were brought, while [P] are waiting in the arrays. *)
Record batch_inv (D P : list (Z * Z)) (a : md5sum_args) (idx : nat) (s : sys) : Prop := {
  bi_arrays : length (ma_offset a) = ZFS_MAX_MD5_CHUNKS /\ length (ma_length a) = ZFS_MAX_MD5_CHUNKS;
  bi_count : ma_count a = length P /\ (length P <= ZFS_MAX_MD5_CHUNKS)%nat;
  bi_blocks : ma_blocks a = P;
  bi_env : env_kept s0 s;
  bi_brought : brought f0 (s_file s) d (in_args D);
  bi_passed : forall x R, all_args blocks = D ++ R -> x ∈ R -> passed blocks idx x.1
}.

Lemma brought_update_ok f P : brought f0 f d P -> update_ok f (s_master s0).
Proof.
  intros [Hok Hs [Hv1 Hv2] _ Hm _ _]. destruct Hf0 as [_ ? [? ?] ?]. constructor; [done|by rewrite Hs| |by rewrite Hv1, Hv2].
  unfold size_ok. rewrite Hs. split; [done|]. intros Hn. rewrite Hm. auto.
Qed.

(** A block whose bytes did not change has the same digest as before. *)
Lemma collision_kept f D a : brought f0 f d (in_args D) -> arg_ok a -> (forall x, in_arg a x -> ~ in_args D x) ->
  no_collision (lf_data f0) d a -> no_collision (lf_data f) d a.
Proof.
  intros Hb (Ha1 & Ha2 & Ha3) Hd Hn.
  assert (read_at (lf_data f) (Z.to_nat a.1) (Z.to_nat a.2) = read_at (lf_data f0) (Z.to_nat a.1) (Z.to_nat a.2)) as E.
  { apply list_eq. intros i. unfold read_at. rewrite !lookup_take, !lookup_drop. case_decide; [|done].
    pose proof (br_old _ _ _ _ Hb (a.1 + Z.of_nat i)) as Ho. unfold byte in Ho.
    rewrite (proj2 (Z.leb_le _ _)) in Ho by lia. rewrite Z2Nat.inj_add, Nat2Z.id in Ho by lia. apply Ho.
    intros [Hx _]. apply (Hd (a.1 + Z.of_nat i)); [unfold in_arg; lia|done]. }
  unfold no_collision. by rewrite E.
Qed.

Lemma batch_args D P a idx s R : batch_inv D P a idx s -> all_args blocks = D ++ P ++ R ->
  args_ok blocks (s_file s) d P.
Proof.
  intros Hi E. destruct (all_args_ok _ Hblocks) as (H1 & H2 & H3). pose proof Hcol as H4.
  rewrite E in H1, H2, H3, H4. apply Forall_app in H1 as [H1 [H1' _]%Forall_app], H3 as [_ [H3' _]%Forall_app],
    H4 as [_ [H4' _]%Forall_app].
  apply StronglySorted_app in H2 as (H2 & _ & H2'). apply StronglySorted_app in H2' as (_ & H2' & _).
  pose proof (bi_brought _ _ _ _ _ Hi) as Hb. constructor.
  - eapply Forall_impl; [exact H1'|]. by intros a' [? _].
  - eapply Forall_impl; [exact H1'|]. by intros a' [_ ?].
  - clear -H1' H2'. induction H2' as [|a' P' H IH Hle]; [constructor|]. apply Forall_cons in H1' as [[_ Hp] H1'].
    constructor; [by apply IH|]. eapply Forall_impl; [exact Hle|]. cbn. lia.
  - done.
  - intros x Hx. rewrite (br_modified _ _ _ _ Hb). apply Hmod.
    apply all_args_cov; [apply Hblocks|]. rewrite E, !in_args_app. tauto.
  - rewrite Forall_forall in *. intros a' Ha'. apply (collision_kept _ D); [done|by apply H1'| |by apply H4'].
    intros x Hx (b & Hb' & Hx')%Exists_exists. specialize (H2 b a' Hb'). unfold in_arg in *.
    assert (a' ∈ P ++ R) as Hin by set_solver. specialize (H2 Hin). lia.
Qed.

Lemma batch_call D P a idx s R : batch_inv D P a idx s -> all_args blocks = D ++ P ++ R -> 
  wp (update_file_blocks_1 P modified blocks idx false) s (fun s' r => exists idx', r = inr idx' /\
    batch_inv (D ++ P) [] (Md5Args 0 (ma_offset a) (ma_length a)) idx' s').
Proof.
  intros Hi E. pose proof (bi_env _ _ _ _ _ Hi) as (M & Pe & T). pose proof (bi_brought _ _ _ _ _ Hi) as Hb.
  pose proof (batch_args _ _ _ _ _ _ Hi E) as Hargs.
  eapply wp_mono; [apply (update_file_blocks_1_ok blocks P modified idx s)|].
  - done.
  - rewrite M. by eapply brought_update_ok.
  - by rewrite M.
  - intros x Hx. apply (bi_passed _ _ _ _ _ Hi x (P ++ R)); [done|set_solver].
  - rewrite M. intros s' r (j' & -> & K & Hb' & Hj'). exists j'. split; [done|]. constructor.
    + apply Hi.
    + split; [done|]. cbn. lia.
    + done.
    + eapply env_kept_trans; [|exact K]. by split_and!.
    + eapply brought_ext; [|apply (brought_trans _ _ _ _ _ _ (in_args_dec _) Hb Hb')].
      intros x _. by rewrite in_args_app.
    + intros x R' ER Hx. apply Hj'.
      * apply (bi_passed _ _ _ _ _ Hi x (P ++ R')); [by rewrite app_assoc|set_solver].
      * intros b Hb2. destruct (all_args_ok _ Hblocks) as (H1 & H2 & _). rewrite ER in H1, H2.
        apply StronglySorted_app in H2 as (H2 & _ & _). apply Forall_app in H1 as [H1 _]. rewrite Forall_forall in H1.
        assert (b ∈ D ++ P) as Hin by set_solver. specialize (H2 b x Hin Hx). destruct (H1 b Hin) as [_ ?]. lia.
Qed.

(** Adding a piece to the arrays. *)
Lemma add_arg_ok D P a idx st s e : batch_inv D P a idx st -> (length P < ZFS_MAX_MD5_CHUNKS)%nat ->
  batch_inv D (P ++ [(s, piece s e)]) (add_arg a s e) idx st.
Proof.
  intros [[Ho Hl] [Hc Hm] Hb ? ? ?] Hlt. constructor; try done.
  - cbn. by rewrite !length_insert.
  - cbn [add_arg ma_count]. rewrite Hc, length_app. cbn. lia.
  - rewrite <-Hb. unfold ma_blocks, add_arg. cbn [ma_count ma_offset ma_length].
    assert (forall (l : list Z) x, length l = ZFS_MAX_MD5_CHUNKS ->
      take (S (ma_count a)) (<[ma_count a := x]> l) = take (ma_count a) l ++ [x]) as Et.
    { intros l x El. rewrite (take_S_r _ _ x) by (apply list_lookup_insert_eq; lia). by rewrite take_insert_ge. }
    rewrite !Et by done. rewrite zip_with_app by (rewrite !length_take; lia). done.
Qed.

Lemma joinable_last a P p l s : ma_blocks a = P -> ma_count a = length P -> last P = Some (p, l) ->
  joinable a s = (u64 (s - p) <? ZFS_MAXDATA) && (u64 (s - p - l) <? ZFS_MODIFIED_BLOCK_SIZE).
Proof.
  intros Hb Hc Hl. unfold joinable. rewrite last_lookup in Hl. destruct P as [|x P]; [done|].
  rewrite Hc. cbn [length] in Hl |- *. cbn [pred] in Hl. rewrite <-Hb in Hl. unfold ma_blocks in Hl.
  rewrite lookup_zip_with in Hl. apply bind_Some in Hl as (o & Ho & Hl). apply bind_Some in Hl as (n & Hn & [= -> ->]).
  rewrite lookup_take in Ho, Hn. rewrite Hc in Ho, Hn. cbn [length] in Ho, Hn.
  rewrite decide_True in Ho, Hn by lia.
  by rewrite !(nth_lookup_Some _ _ _ _ Ho), !(nth_lookup_Some _ _ _ _ Hn).
Qed.

Definition ends_at (P : list (Z * Z)) (e : Z) : Prop := exists p l, last P = Some (p, l) /\ p + l = e /\ 0 <= p /\ 0 < l.

Lemma ends_at_apart D P a idx st e s : batch_inv D P a idx st -> ends_at P e ->
  e + ZFS_MODIFIED_BLOCK_SIZE <= s -> s < 2 ^ 31 -> joinable a s = false.
Proof.
  intros Hi (p & l & Hl & He & Hp & Hpos) Hs Hb. rewrite (joinable_last a P p l s); [|apply Hi|apply Hi|done].
  unfold ZFS_MODIFIED_BLOCK_SIZE in *. rewrite (wrap_small 64 (s - p - l)) by lia. apply andb_false_iff. right. lia.
Qed.

(** The loop over one block puts its pieces into the arrays. *)
Lemma add_block_ok fuel : forall a idx s e st D P R, 0 <= s < e -> e < 2 ^ 31 -> e - s <= 8192 * Z.of_nat fuel ->
  batch_inv D P a idx st -> joinable a s = false -> all_args blocks = D ++ P ++ chunks fuel s e ++ R ->
  wp (add_block fuel a idx s e modified false blocks) st (fun st' r => exists a' idx' D' P',
    r = inr (Some (a', idx')) /\ batch_inv D' P' a' idx' st' /\ all_args blocks = D' ++ P' ++ R /\ ends_at P' e).
Proof.
  induction fuel as [|fuel IH]; intros a idx s e st D P R Hs He Hf Hi Hj E; [lia|].
  cbn [add_block]. rewrite Hj. cbn [chunks] in E. pose proof (piece_min s e Hs He) as Hp.
  assert (u64 (s + piece s e) = s + piece s e) as Eu by (apply wrap_small; lia).
  assert (forall D P a idx st, batch_inv D P a idx st -> (length P < ZFS_MAX_MD5_CHUNKS)%nat ->
    all_args blocks = D ++ P ++ ((s, piece s e) :: (if s + piece s e <? e then chunks fuel (s + piece s e) e else [])) ++ R ->
    wp (if u64 (s + piece s e) <? e then add_block fuel (add_arg a s e) idx (u64 (s + piece s e)) e modified false blocks
        else mret (Some (add_arg a s e, idx))) st (fun st' r => exists a' idx' D' P',
    r = inr (Some (a', idx')) /\ batch_inv D' P' a' idx' st' /\ all_args blocks = D' ++ P' ++ R /\ ends_at P' e)) as Hrest.
  { clear D P a idx st Hi Hj E. intros D P a idx st Hi Hlt E. apply (add_arg_ok _ _ _ _ _ s e) in Hi; [|done].
    rewrite Eu. destruct (Z.ltb_spec (s + piece s e) e).
    - apply (IH _ _ _ _ _ D (P ++ [(s, piece s e)])); try done; [lia|lia| |].
      + rewrite (joinable_last _ (P ++ [(s, piece s e)]) s (piece s e)); [|apply Hi|apply Hi|by rewrite last_snoc].
        rewrite wrap_small by lia. apply andb_false_iff. left. unfold ZFS_MAXDATA. lia.
      + rewrite E. by rewrite <-!app_assoc.
    - apply wp_ret. eexists _, _, D, (P ++ [(s, piece s e)]). split_and!; [done|done| |].
      + rewrite E. by rewrite <-!app_assoc.
      + exists s, (piece s e). rewrite last_snoc. split_and!; [done|lia|lia|lia]. }
  apply wp_bind. case_bool_decide as Hc.
  - apply wp_bind, wp_try. rewrite (bi_blocks _ _ _ _ _ Hi). eapply wp_mono; [by eapply batch_call|].
    intros st' r (idx' & -> & Hi'). apply wp_ret. apply (Hrest (D ++ P) []); [done|by apply Nat.ltb_lt|].
    rewrite E. by rewrite <-!app_assoc.
  - apply wp_ret. apply (Hrest D P); [done| |done]. destruct (bi_count _ _ _ _ _ Hi). lia.
Qed.

Lemma add_blocks_ok todo : forall a idx st D P, blocks_apart todo -> batch_inv D P a idx st ->
  (forall b, head todo = Some b -> joinable a (start b) = false) -> all_args blocks = D ++ P ++ all_args todo ->
  wp (add_blocks todo a idx modified false blocks) st (fun st' r => exists a' idx' D' P',
    r = inr (Some (a', idx')) /\ batch_inv D' P' a' idx' st' /\ all_args blocks = D' ++ P').
Proof.
  induction todo as [|b todo IH]; intros a idx st D P [Hb Ha] Hi Hj E; cbn [add_blocks].
  { apply wp_ret. exists a, idx, D, P. split_and!; [done|done|]. rewrite E. by rewrite app_nil_r. }
  apply Forall_cons in Hb as [Hb1 Hb]. apply StronglySorted_inv in Ha as [Ha Hlt].
  apply wp_bind. eapply wp_mono.
  { apply (add_block_ok _ _ _ _ _ _ D P (all_args todo)); [lia|lia|apply block_fuel_enough; lia|done|by apply Hj|done]. }
  intros st' r (a' & idx' & D' & P' & -> & Hi' & E' & He). apply (IH a' idx' st' D' P'); [done|done| |done].
  intros c Hc. destruct todo as [|c' todo]; [done|]. injection Hc as ->. apply Forall_cons in Hlt as [Hlt _], Hb as [Hc _].
  by eapply ends_at_apart; [..|lia].
Qed.

(** When the blocks are in order and apart, [update_file_blocks] brings the bytes of
    exactly these blocks, whatever the number of pieces and calls it takes. *)
Lemma update_file_blocks_ok junk : tame s0 -> blocks <> [] ->
  length junk.1 = ZFS_MAX_MD5_CHUNKS -> length junk.2 = ZFS_MAX_MD5_CHUNKS ->
  wp (update_file_blocks junk blocks modified false) s0 (fun s r =>
    r = inr () /\ env_kept s0 s /\ brought f0 (s_file s) d (icov blocks)).
Proof.
  intros Ht Hne Hj1 Hj2. rewrite update_file_blocks_eq by done.
  assert (batch_inv [] [] (Md5Args 0 junk.1 junk.2) 0 s0) as Hi.
  { constructor; try done; [split; [done|cbn; lia]| |by intros; intros i b' ?; lia].
    apply brought_none; [apply Hf0|]. intros x Hx%Exists_nil. done. }
  apply wp_bind. eapply wp_mono; [by eapply (add_blocks_ok blocks _ _ _ [] [])|].
  assert (forall D f, brought f0 f d (in_args D) -> all_args blocks = D -> brought f0 f d (icov blocks)) as Hend.
  { intros D f Hb <-. eapply brought_ext; [|exact Hb]. intros x _. apply all_args_cov, Hblocks. }
  intros st r (a & idx & D & P & -> & Hi' & E). case_bool_decide as Hc.
  - apply wp_bind, wp_try. rewrite (bi_blocks _ _ _ _ _ Hi'). eapply wp_mono; [eapply (batch_call D P a idx st []);
      [done|by rewrite app_nil_r]|].
    intros st' r (idx' & -> & Hi2). apply wp_ret. split_and!; [done|apply Hi2|]. eapply Hend; [apply Hi2|done].
  - apply wp_ret. split_and!; [done|apply Hi'|]. eapply Hend; [apply Hi'|].
    destruct (bi_count _ _ _ _ _ Hi') as [Hc' _]. destruct P; [|cbn in Hc'; lia]. by rewrite app_nil_r in E.
Qed.
End batches.

(** ** The update of a whole file *)

(** [f'] is [f] with the size [n]. *)
Record truncated (f f' : lfile) (n : Z) : Prop := {
  tr_ok : lf_ok f';
  tr_size : lf_size f' = n;
  tr_data : lf_data f' = resize (Z.to_nat n) 0 (lf_data f);
  tr_versions : lf_version f' = lf_version f /\ lf_master f' = lf_master f;
  tr_updated : forall x, points (lf_updated f') x <-> points (lf_updated f) x /\ x < n;
  tr_modified : forall x, points (lf_modified f') x <-> points (lf_modified f) x /\ x < n
}.

Lemma truncated_core f f' f'' n : core f'' = core f' -> truncated f f' n -> truncated f f'' n.
Proof.
  intros Hc [? ? ? ? ? ?]. pose proof (core_eq _ _ Hc) as (E1 & E2 & E3 & E4 & E5 & E6 & E7 & E8).
  constructor; rewrite ?E1, ?E2, ?E3, ?E5, ?E6, ?E7; try done. by eapply core_ok.
Qed.

Lemma truncated_same f : lf_ok f -> truncated f f (lf_size f).
Proof.
  intros Hok. constructor; try done.
  - rewrite (lo_size _ Hok), Nat2Z.id. by rewrite resize_all.
  - intros x. pose proof (lo_updated_in _ Hok x). intuition lia.
  - intros x. pose proof (lo_modified_in _ Hok x). intuition lia.
Qed.

Lemma delete_from_ok t n k : it_ok t -> (forall x, points t x -> 0 <= x < k) -> k < UINT64_MAX -> 0 <= n < UINT64_MAX ->
  exists t', interval_tree_delete t n UINT64_MAX = Ok t' /\ it_ok t' /\ forall x, points t' x <-> points t x /\ x < n.
Proof.
  intros Hok Hin Hk Hn. destruct (interval_tree_delete_spec t n UINT64_MAX Hok) as (t' & E & Hok' & Hp & _); [lia|].
  exists t'. split_and!; [done|done|]. intros x. rewrite Hp. specialize (Hin x). intuition lia.
Qed.

(** A file without local modifications gets the size it has at the master. *)
Lemma wp_truncate_unmodified n s (Q : sys -> Z + unit -> Prop) : tame s -> lf_ok (s_file s) ->
  (forall x, ~ points (lf_modified (s_file s)) x) -> 0 <= n < 2 ^ 63 -> lf_size (s_file s) < 2 ^ 63 ->
  (forall s', env_kept s s' -> truncated (s_file s) (s_file s') n -> Q s' (inr ())) ->
  wp (truncate_local_file n) s Q.
Proof.
  intros Ht Hok Hm Hn Hsz HQ. unfold truncate_local_file. apply wp_bind, wp_file.
  destruct (tree_end_spec _ (lo_modified _ Hok)) as [Ee He]. apply wp_bind. eapply wp_lift; [exact Ee|].
  destruct (tree_end (lf_modified (s_file s))) as [e|]; [by destruct (Hm _ (proj1 He))|].
  destruct (Z.eqb_spec n (lf_size (s_file s))) as [E|E].
  { apply wp_ret, HQ; [by split_and!|]. subst n. by apply truncated_same. }
  apply wp_bind, wp_io; [apply Ht|]. intros s1 o F1 M1 N1 P1 I1 _ Ho.
  assert (env_kept s s1) as K1. { split_and!; try done. split; [done|]. unfold calm. rewrite N1. apply Ht. }
  set (f1 := with_data (s_file s) (resize (Z.to_nat n) 0 (lf_data (s_file s)))).
  assert (wp (f ← file; let f := with_data f (resize (Z.to_nat n) 0 (lf_data f)) in
        let flush := (lf_size f <? n) && negb (has_flag (lf_flags f) METADATA_UPDATED_TREE) in
        u ← lift (interval_tree_delete (lf_updated f) n UINT64_MAX);
        m ← lift (interval_tree_delete (lf_modified f) n UINT64_MAX);
        set_file (with_modified (with_updated (with_size f n) u) m);;
        (if n <? n then
           r ← append_interval METADATA_TYPE_UPDATED n n; mark_if (negb r)
         else mret ());;
        f ← file;
        (if flush || it_deleted (lf_updated f) then
           r ← flush_interval_tree METADATA_TYPE_UPDATED; mark_if (negb r)
         else mret ())) s1 Q) as Hw.
  2: { destruct Ho as [-> |[k ->]]; exact Hw. }
  apply wp_bind, wp_file. rewrite F1. fold f1. cbv zeta.
  destruct (delete_from_ok (lf_updated (s_file s)) n (lf_size (s_file s))) as (u & Eu & Hu1 & Hu2);
    [apply Hok|apply Hok|unfold UINT64_MAX; lia|unfold UINT64_MAX; lia|].
  destruct (delete_from_ok (lf_modified (s_file s)) n (lf_size (s_file s))) as (m & Em & Hm1 & Hm2);
    [apply Hok|apply Hok|unfold UINT64_MAX; lia|unfold UINT64_MAX; lia|].
  apply wp_bind. eapply wp_lift; [exact Eu|]. apply wp_bind. eapply wp_lift; [exact Em|].
  apply wp_bind, wp_set_file. intros s2 E2 K2. pose proof (same_env_kept _ _ (proj2 (proj2 K1)) K2) as K2'.
  rewrite Z.ltb_irrefl. apply wp_bind, wp_ret, wp_bind, wp_file.
  assert (truncated (s_file s) (s_file s2) n) as Htr.
  { rewrite E2. destruct Hok as [S1 S2 S3 S4 S5 S6]. constructor; cbn; try done. constructor; cbn; try done.
    - rewrite length_resize. lia.
    - intros x. rewrite Hu2. intros [Hx ?]. apply S5 in Hx. lia.
    - intros x. rewrite Hm2. intros [Hx ?]. apply S6 in Hx. lia. }
  pose proof (env_kept_trans _ _ _ K1 K2') as K2''.
  destruct (_ || _); [|apply wp_ret; by apply HQ].
  apply wp_bind, (wp_flush _ _ (lf_updated (s_file s2))); [by left|done|]. intros s3 r K3 E3.
  pose proof (same_env_kept _ _ (proj2 (proj2 K2'')) K3) as K3'.
  apply wp_mark. intros s4 [E4 K4]. pose proof (same_env_kept _ _ (proj2 (proj2 K3')) K4) as K4'.
  apply HQ; [eapply env_kept_trans; [exact K2''|]; by eapply env_kept_trans|].
  destruct E3 as [E3|E3]; rewrite E3 in E4; apply (truncated_core _ _ _ _ E4); [done|].
  destruct Htr as [[] ? ? ? ? ?]. constructor; try done. constructor; try done. by apply clear_deleted_ok.
Qed.

(** Every interval of the tree is as long as the distance over which blocks are
    joined, if the file does not end before. *)
Definition wide (t : interval_tree) (n : Z) : Prop := forall x, points t x -> ~ points t (x - 1) ->
  forall y, x <= y < x + ZFS_MODIFIED_BLOCK_SIZE -> y < n -> points t y.

Lemma separated_edges l n : separated l -> n ∈ l ->
  cov l (node_key n) /\ ~ cov l (node_key n - 1) /\ ~ cov l (node_value n).
Proof.
  intros Hs Hn. apply list_elem_of_split in Hn as (l1 & l2 & ->). destruct n as [p k v]. cbn.
  pose proof Hs as [_ _ Hkv Hl1 _ _ Hlow]%separated_around.
  assert (forall x, cov l1 x -> x < k - 1) as Hup. { intros x (m & Hm & ?). specialize (Hl1 m Hm). lia. }
  rewrite !cov_app, !cov_cons. cbn. split_and!; [right; left; lia| |].
  - intros [Hx%Hup|[?|Hx%Hlow]]; lia.
  - intros [Hx%Hup|[?|Hx%Hlow]]; lia.
Qed.

Lemma gaps_apart end_ l : forall last, 0 <= last -> end_ < 2 ^ 31 -> separated l ->
  (forall n, n ∈ l -> last < node_key n <= end_) ->
  (forall n, n ∈ l -> node_value n < end_ -> node_key n + ZFS_MODIFIED_BLOCK_SIZE <= node_value n) ->
  blocks_apart (gaps last end_ l) /\ Forall (fun b => last <= start b /\ IntervalTree.end_ b <= end_) (gaps last end_ l).
Proof.
  induction l as [|n l IH]; intros last Hl He Hs Hk Hw; cbn [gaps]; destruct (Z.ltb_spec last end_) as [Hlt|];
    try (by split; [constructor|]; constructor).
  - split; [constructor|]; repeat constructor; cbn; lia.
  - apply separated_cons in Hs as (Hn & Hnl & Hs). pose proof (Hk n ltac:(set_solver)) as Hkn.
    destruct (IH (node_value n)) as [[Hb Ha] Hst]; [lia|done|done| | |].
    { intros m Hm. specialize (Hnl m Hm). specialize (Hk m ltac:(set_solver)). lia. }
    { intros m Hm. apply Hw. set_solver. }
    split; [constructor|].
    + constructor; [cbn; lia|done].
    + constructor; [done|]. destruct (Z_lt_le_dec (node_value n) end_) as [Hv|Hv].
      * specialize (Hw n ltac:(set_solver) Hv). eapply Forall_impl; [exact Hst|]. cbn. lia.
      * replace (gaps (node_value n) end_ l) with (@nil interval); [constructor|].
        destruct l; cbn [gaps]; by rewrite (proj2 (Z.ltb_ge _ _)) by lia.
    + constructor; [cbn; lia|]. eapply Forall_impl; [exact Hst|]. cbn. lia.
Qed.

Lemma no_points_empty t : it_ok t -> (forall x, ~ points t x) -> contents (it_splay t) = [].
Proof.
  intros [_ Hs _] Hp. unfold points in Hp. destruct (contents (it_splay t)) as [|n l]; [done|].
  apply separated_cons in Hs as [? _]. destruct (Hp (node_key n)). rewrite cov_cons. lia.
Qed.

(** A tree without intervals cuts nothing out. *)
Lemma varray_complement_none src : forall t dest, it_ok t -> (forall x, ~ points t x) ->
  Forall (fun b => start b < end_ b) src -> exists t', varray_loop interval_tree_complement_1 t src dest = Ok (t', dest ++ src) /\
    it_ok t' /\ forall x, ~ points t' x.
Proof.
  induction src as [|b src IH]; intros t dest Hok Hp Hb; cbn [varray_loop].
  { exists t. by rewrite app_nil_r. }
  apply Forall_cons in Hb as [Hb1 Hb].
  destruct (interval_tree_complement_1_gaps t (start b) (end_ b) dest Hok) as (sp & -> & Hsp & Ec).
  destruct (splayed_ok _ _ Hok Hsp Ec) as [Hok' Hp'].
  rewrite (no_points_empty t Hok Hp). cbn [mbind res_bind]. unfold complement_from, floor_node. cbn [gaps].
  destruct (IH (with_splay t sp) (dest ++ [b])) as (t' & E & Ht'); [done| |done|].
  { intros x. rewrite Hp'. apply Hp. }
  exists t'. split; [|done]. rewrite <-app_assoc in E. cbn in E |- *. rewrite (proj2 (Z.ltb_lt _ _)) by done.
  destruct b. exact E.
Qed.

Lemma gaps_nonempty end_ l : forall last, separated l -> (forall n, n ∈ l -> last < node_key n) ->
  Forall (fun b => start b < IntervalTree.end_ b) (gaps last end_ l).
Proof.
  induction l as [|n l IH]; intros last Hs Hl; cbn [gaps]; destruct (Z.ltb_spec last end_); repeat constructor; cbn; [lia| |].
  - apply Hl. set_solver.
  - apply separated_cons in Hs as (_ & Hn & Hs). by apply IH.
Qed.

(** The blocks of a file without local modifications that have to be updated. *)
Lemma wp_get_blocks_gaps n s d (Q : sys -> Z + list interval -> Prop) : lf_ok (s_file s) ->
  (forall x, ~ points (lf_modified (s_file s)) x) ->
  (let l := contents (it_splay (lf_updated (s_file s))) in
   forall s', same_env s s' -> brought (s_file s) (s_file s') d (fun _ => False) ->
    lf_data (s_file s') = lf_data (s_file s) -> Q s' (inr (gaps (complement_from 0 l) n (above 0 l)))) ->
  wp (get_blocks_for_updating 0 n) s Q.
Proof.
  intros Hok Hm H. unfold get_blocks_for_updating. apply wp_bind, wp_file.
  destruct (interval_tree_complement_1_gaps (lf_updated (s_file s)) 0 n [] (lo_updated _ Hok)) as (sp & E & Hsp & Ec).
  destruct (splayed_ok _ _ (lo_updated _ Hok) Hsp Ec) as [Hu1 Hu2]. cbn [app] in E.
  destruct (lo_updated _ Hok) as [Hus Hsep _]. destruct (complement_from_spec _ 0 Hus Hsep) as [Hl _]. cbv zeta in Hl.
  set (l := contents (it_splay (lf_updated (s_file s)))) in *.
  apply wp_bind. eapply wp_lift; [exact E|]. cbn beta iota.
  destruct (varray_complement_none (gaps (complement_from 0 l) n (above 0 l)) (lf_modified (s_file s)) [])
    as (m & Em & Hm1 & Hm2); [apply Hok|done|by apply gaps_nonempty; [apply separated_above|]|].
  apply wp_bind. eapply wp_lift; [exact Em|]. cbn beta iota. apply wp_bind, wp_set_file. intros s1 E1 K1.
  apply wp_ret, H; [done| |by rewrite E1].
  rewrite E1. destruct Hok. constructor; cbn; try done; [|intros x; rewrite Hu2; tauto|].
  - constructor; cbn; try done; intros x Hx; [rewrite Hu2 in Hx; auto|by destruct (Hm2 x)].
  - intros x. split; intros Hx; [by destruct (Hm2 x)|by destruct (Hm x)].
Qed.

Lemma wp_get_blocks_unmodified n s d (Q : sys -> Z + list interval -> Prop) : lf_ok (s_file s) ->
  (forall x, ~ points (lf_modified (s_file s)) x) -> lf_size (s_file s) = n -> n < 2 ^ 31 -> wide (lf_updated (s_file s)) n ->
  (forall s' blocks, same_env s s' -> brought (s_file s) (s_file s') d (fun _ => False) ->
    lf_data (s_file s') = lf_data (s_file s) -> blocks_apart blocks ->
    (forall x, icov blocks x <-> 0 <= x < n /\ ~ points (lf_updated (s_file s)) x) -> Q s' (inr blocks)) ->
  wp (get_blocks_for_updating 0 n) s Q.
Proof.
  intros Hok Hm Hsz Hn Hw H. apply (wp_get_blocks_gaps n s d); [done..|]. intros l s' K Hb D.
  destruct (lo_updated _ Hok) as [Hus Hsep _]. destruct (complement_from_spec _ 0 Hus Hsep) as [Hl Hp]. cbv zeta in Hl, Hp.
  fold l in Hl, Hp, Hsep. set (last := complement_from 0 l) in *.
  assert (0 <= last) as Hlast. { unfold last, complement_from. case_match; lia. }
  assert (forall m, m ∈ above 0 l -> m ∈ l) as Habove by (intros m Hm'; apply in_above in Hm'; tauto).
  assert (forall x, cov l x -> 0 <= x < n) as Hin. { intros x Hx. rewrite <-Hsz. by apply (lo_updated_in _ Hok). }
  destruct (gaps_apart n (above 0 l) last Hlast Hn (separated_above _ _ Hsep)) as [Hapart Hends].
  { intros m Hm'. split; [by apply Hl|]. apply Habove, (separated_edges l m Hsep) in Hm' as (Hx%Hin & _). lia. }
  { intros m Hm'%Habove Hv. pose proof (separated_elem l m Hsep Hm').
    apply (separated_edges l m Hsep) in Hm' as (H1 & H2 & H3).
    destruct (Z_lt_le_dec (node_value m) (node_key m + ZFS_MODIFIED_BLOCK_SIZE)); [|done]. destruct H3.
    apply (Hw _ H1 H2); [lia|done]. }
  apply H; [done..|]. intros x. destruct (gaps_cov n (above 0 l) last x (separated_above _ _ Hsep) Hl) as [G1 G2].
  specialize (Hp x). split.
  - intros Hx. pose proof (G1 Hx) as Hx1. apply Hp in Hx1. split; [|apply Hx1].
    destruct Hx as (b & Hb' & Hx). cbn in Hx. split; [lia|].
    rewrite Forall_forall in Hends. specialize (Hends b Hb'). cbn in Hends. lia.
  - intros [Hx1 Hx2]. destruct (proj2 Hp (conj (proj1 Hx1) Hx2)) as [? ?]. apply G2; [lia|done|done].
Qed.

(** No block of the two files has the same digest without being the same. *)
Definition collision_free (l d : list Z) : Prop := forall p n, (p + n <= length d)%nat ->
  no_collision l d (Z.of_nat p, Z.of_nat n).

Lemma collision_free_arg l d a : length l = length d -> collision_free l d -> no_collision l d a.
Proof.
  intros El Hc. specialize (Hc (Z.to_nat a.1 `min` length d)%nat
    (Z.to_nat a.2 `min` (length d - Z.to_nat a.1 `min` length d))%nat ltac:(lia)). revert Hc. unfold no_collision.
  cbn [fst snd]. rewrite !Nat2Z.id.
  assert (forall k : list Z, length k = length d ->
    read_at k (Z.to_nat a.1 `min` length d) (Z.to_nat a.2 `min` (length d - Z.to_nat a.1 `min` length d)) =
    read_at k (Z.to_nat a.1) (Z.to_nat a.2)) as Er; [|by rewrite !Er].
  intros k Ek. unfold read_at. destruct (Nat.le_gt_cases (length d) (Z.to_nat a.1)).
  - rewrite !(drop_ge k) by lia. by rewrite !take_nil.
  - rewrite !(Nat.min_l (Z.to_nat a.1)) by lia. destruct (Nat.le_gt_cases (Z.to_nat a.2) (length d - Z.to_nat a.1)).
    + by rewrite Nat.min_l by lia.
    + rewrite Nat.min_r by lia. rewrite !take_ge by (rewrite length_drop; lia). done.
Qed.

Lemma wp_mark_flags b s (Q : sys -> Z + unit -> Prop) :
  (forall s', core (s_file s') = core (s_file s) -> lf_flags (s_file s') = lf_flags (s_file s) -> same_env s s' -> Q s' (inr ())) ->
  wp (mark_if b) s Q.
Proof.
  intros H. unfold mark_if. destruct b; [|by apply H].
  apply wp_bind, wp_file, wp_set_file. intros s' E H'. apply H; by rewrite ?E.
Qed.

Lemma wp_elim {A} (m : proc A) s (a : A) (P : sys -> Prop) : wp m s (fun s' r => r = inr a /\ P s') ->
  exists s', m s = Ok (s', inr a) /\ P s'.
Proof. unfold wp. destruct (m s) as [[s' r]| |]; try done. intros [-> ?]. by exists s'. Qed.

Lemma bytes_eq l d : length l = length d -> (forall x, 0 <= x < Z.of_nat (length d) -> byte l x = byte d x) -> l = d.
Proof.
  intros El H. apply list_eq. intros i. destruct (Nat.le_gt_cases (length d) i).
  - by rewrite !lookup_ge_None_2 by lia.
  - specialize (H (Z.of_nat i) ltac:(lia)). unfold byte in H. rewrite (proj2 (Z.leb_le _ _)), Nat2Z.id in H by lia. done.
Qed.

Lemma byte_resize l n x : 0 <= x < Z.of_nat n -> x < Z.of_nat (length l) -> byte (resize n 0 l) x = byte l x.
Proof.
  intros Hx Hl. unfold byte. rewrite (proj2 (Z.leb_le _ _)) by lia. destruct (Nat.le_gt_cases n (length l)).
  - rewrite resize_le by done. by rewrite lookup_take_lt by lia.
  - rewrite resize_ge by lia. by rewrite lookup_app_l by lia.
Qed.

(** A copy of a file that is not modified here, with the version of the master's file. *)
Record plain_copy (f : lfile) (m : mfile) : Prop := {
  pc_ok : lf_ok f;
  pc_small : lf_size f < 2 ^ 31 /\ Z.of_nat (length (mf_data m)) < 2 ^ 31;
  pc_version : lf_master f = mf_version m;
  pc_unmodified : forall x, ~ points (lf_modified f) x;
  pc_sync : in_sync f (mf_data m);
  pc_wide : wide (lf_updated f) (Z.of_nat (length (mf_data m)));
  pc_collision : collision_free (resize (length (mf_data m)) 0 (lf_data f)) (mf_data m)
}.

(** The first part of [update_contents]: all bytes are brought. *)
Lemma bring_all junk s : tame s -> plain_copy (s_file s) (s_master s) ->
  length junk.1 = ZFS_MAX_MD5_CHUNKS -> length junk.2 = ZFS_MAX_MD5_CHUNKS ->
  let d := mf_data (s_master s) in let n := Z.of_nat (length d) in
  wp (truncate_local_file n;;
      blocks ← get_blocks_for_updating 0 n;
      f ← file;
      match blocks with
      | [] => mret ()
      | _ => update_file_blocks junk blocks (negb (lf_version f =? lf_master f)) false
      end) s (fun s' r => r = inr () /\ env_kept s s' /\ lf_ok (s_file s') /\ lf_data (s_file s') = d /\
        (forall x, points (lf_updated (s_file s')) x <-> 0 <= x < n) /\ (forall x, ~ points (lf_modified (s_file s')) x)).
Proof.
  intros Ht [Hok [Hs1 Hs2] Hv Hm Hsync Hw Hcol] Hj1 Hj2 d n. fold d n in Hs2, Hw, Hsync.
  apply wp_bind, wp_truncate_unmodified; [done|done|done|lia|lia|]. intros s1 K1 [T1 T2 T3 [T4 T4'] T5 T6].
  assert (lf_data (s_file s1) = resize (length d) 0 (lf_data (s_file s))) as T3' by (rewrite T3; unfold n; by rewrite Nat2Z.id).
  apply wp_bind, (wp_get_blocks_unmodified n s1 d); [done|by intros x [Hx%Hm _]%T6|done|done| |].
  { intros x [Hx1 Hx2]%T5 Hx3 y Hy Hyn. apply T5. split; [|done]. apply (Hw x Hx1); [|done|done].
    intros Hx. apply Hx3, T5. split; [done|lia]. }
  intros s2 blocks K2 Hb2 D2 Hap Hcov. pose proof (same_env_kept _ _ (proj2 (proj2 K1)) K2) as K2'.
  pose proof (env_kept_trans _ _ _ K1 K2') as K. destruct K as (M2 & P2 & Ht2).
  assert (forall s', env_kept s2 s' -> brought (s_file s2) (s_file s') d (icov blocks) ->
    (inr () : Z + unit) = inr () /\ env_kept s s' /\ lf_ok (s_file s') /\ lf_data (s_file s') = d /\
        (forall x, points (lf_updated (s_file s')) x <-> 0 <= x < n) /\ (forall x, ~ points (lf_modified (s_file s')) x)) as Hend.
  { intros s' K3 [B1 B2 _ B4 B5 B6 B7]. destruct Hb2 as [_ C2 _ C4 C5 _ _].
    assert (forall x, points (lf_updated (s_file s2)) x <-> points (lf_updated (s_file s)) x /\ x < n) as Hu2.
    { intros x. rewrite C4, T5. tauto. }
    assert (forall x, icov blocks x <-> 0 <= x < n /\ ~ points (lf_updated (s_file s2)) x) as Hcov'.
    { intros x. rewrite Hcov, C4. tauto. }
    split_and!; [done|eapply env_kept_trans; [by split_and!|done]|done| | |].
    - apply bytes_eq; [pose proof (lo_size _ B1); lia|]. intros x Hx. fold n in Hx.
      destruct (cov_dec (contents (it_splay (lf_updated (s_file s2)))) x) as [Hx2|Hx2].
      + rewrite B7 by (rewrite Hcov'; tauto). rewrite D2, T3'. apply Hu2 in Hx2 as [Hx2 _].
        pose proof (lo_updated_in _ Hok x Hx2) as Hx3. rewrite (lo_size _ Hok) in Hx3.
        rewrite byte_resize by lia. apply Hsync; [done|by apply Hm|lia].
      + apply B6; [|lia]. rewrite Hcov'. done.
    - intros x. rewrite B4. split; [|intros Hx; destruct (cov_dec (contents (it_splay (lf_updated (s_file s2)))) x);
        [by left|right; rewrite Hcov'; split; [done|lia]]].
      intros [[Hx1 Hx2]%Hu2|[Hx%Hcov' _]]; [|apply Hx]. pose proof (lo_updated_in _ Hok x Hx1). lia.
    - intros x. rewrite B5, C5, T6. intros [Hx _]. by apply (Hm x). }
  apply wp_bind, wp_file. destruct blocks as [|b0 bs] eqn:Eb.
  { apply wp_ret, Hend; [by split_and!|]. apply brought_none; [apply Hb2|]. intros x Hx. by apply icov_nil in Hx. }
  assert (blocks <> []) as Hne by (by rewrite Eb). rewrite <-Eb in Hap, Hcov, Hend |- *. clear Eb.
  eapply wp_mono; [apply (update_file_blocks_ok blocks s2 _ Hap)|]; try done.
  - destruct Hb2 as [C1 C2 [C3 C3'] _ _ _ _]. constructor; [done|by rewrite C2, T2| |intros _; by rewrite C3', T4', M2].
    split; rewrite C2, T2, M2; fold d; fold n; lia.
  - intros x _ Hx. apply (br_modified _ _ _ _ Hb2), T6 in Hx as [Hx _]. by apply (Hm x).
  - apply Forall_forall. intros a _. rewrite M2, D2, T3'. apply collision_free_arg; [by rewrite length_resize|exact Hcol].
  - intros s3 r (-> & K3 & Hb3). rewrite M2 in Hb3. by apply Hend.
Qed.

(** The end of [update_contents] when all bytes are up to date. *)
Lemma update_contents_end junk n slow s (P : lfile -> Prop) : 0 < n ->
  (forall f f', P f -> lf_data f' = lf_data f -> lf_ok f' ->
    (forall x, points (lf_updated f') x <-> points (lf_updated f) x) ->
    (forall x, points (lf_modified f') x <-> points (lf_modified f) x) -> P f') ->
  wp (truncate_local_file n;;
      blocks ← get_blocks_for_updating 0 n;
      f ← file;
      match blocks with
      | [] => mret ()
      | _ => update_file_blocks junk blocks (negb (lf_version f =? lf_master f)) slow
      end) s (fun s' r => r = inr () /\ env_kept s s' /\ lf_ok (s_file s') /\
        (forall x, points (lf_updated (s_file s')) x <-> 0 <= x < n) /\ P (s_file s')) ->
  exists s', update_contents junk n slow s = Ok (s', inr ()) /\ s_master s' = s_master s /\ lf_ok (s_file s') /\
    has_flag (lf_flags (s_file s')) METADATA_COMPLETE = true /\
    (forall x, points (lf_updated (s_file s')) x <-> 0 <= x < n) /\ P (s_file s').
Proof.
  intros Hn HP Hw. apply (wp_elim (update_contents junk n slow) s). unfold update_contents.
  apply wp_bind, wp_try. eapply wp_mono; [exact Hw|].
  intros s1 r (-> & (M1 & P1 & T1) & Hok1 & U1 & N1). apply wp_bind, wp_file.
  destruct (interval_tree_covered_spec (lf_updated (s_file s1)) 0 n (lo_updated _ Hok1) ltac:(lia)) as (sp & b & E & Hsp & Ec & Hb).
  rewrite (proj2 Hb) in E by (intros x; by rewrite U1).
  destruct (splayed_ok _ _ (lo_updated _ Hok1) Hsp Ec) as [Hu1 Hu2].
  apply wp_bind. eapply wp_lift; [exact E|]. cbn beta iota. apply wp_bind, wp_set_file. intros s2 E2 (M2 & _).
  apply wp_bind, wp_bind, wp_file, wp_bind, wp_set_file. intros s3 E3 (M3 & _).
  apply wp_bind, wp_store. intros s4 w E4 (M4 & _). apply wp_mark_flags. intros s5 E5 F5 (M5 & _). apply wp_ret.
  rewrite E4, E3, E2 in E5, F5. split; [done|]. split; [congruence|].
  pose proof (core_eq _ _ E5) as (G1 & G2 & G3 & G4 & G5 & G6 & G7 & G8). cbn in G1, G2, G3, G4, G5, G6, G7.
  assert (lf_ok (s_file s5)) as Hok5.
  { destruct Hok1. constructor; rewrite ?G1, ?G2, ?G3, ?G4, ?G6, ?G7; try done. intros x Hx. apply Hu2 in Hx. auto. }
  split_and!; [done| | |].
  - rewrite F5. cbn. unfold has_flag, METADATA_COMPLETE. rewrite Z.land_lor_distr_l. change (Z.land 1 1) with 1.
    apply negb_true_iff, Z.eqb_neq. intros Hz%Z.lor_eq_0_iff. lia.
  - intros x. rewrite G6, Hu2. apply U1.
  - apply (HP (s_file s1)); [done|done|done| |]; intros x; [by rewrite G6, Hu2|by rewrite G7].
Qed.

(** C3. The update of a copy that was not modified here, under the conditions of
    [plain_copy]: it is in sync and has the version of the master's file, both are
    below 2^31 bytes, every island of up-to-date bytes is at least 1024 bytes long or
    reaches the end of the file, and no two different blocks have the same MD5 digest.
    If the master's file is not empty, no call fails and nobody interferes, then
    whatever short transfers there are, and whether the trees can be saved or not,
    [update_contents] gives the local file the size and the bytes of the master's file
    and marks it complete. *)
Theorem update_contents_complete junk s : tame s -> plain_copy (s_file s) (s_master s) ->
  length junk.1 = ZFS_MAX_MD5_CHUNKS -> length junk.2 = ZFS_MAX_MD5_CHUNKS -> (0 < length (mf_data (s_master s)))%nat ->
  exists s', update_contents junk (Z.of_nat (length (mf_data (s_master s)))) false s = Ok (s', inr ()) /\
    s_master s' = s_master s /\ lf_ok (s_file s') /\ lf_data (s_file s') = mf_data (s_master s) /\
    has_flag (lf_flags (s_file s')) METADATA_COMPLETE = true /\
    (forall x, points (lf_updated (s_file s')) x <-> 0 <= x < Z.of_nat (length (mf_data (s_master s)))).
Proof.
  intros Ht Hp Hj1 Hj2 Hpos. set (d := mf_data (s_master s)) in *. set (n := Z.of_nat (length d)).
  destruct (update_contents_end junk n false s (fun f => lf_data f = d)) as (s' & E & M & Hok & Hf & Hu & Hd); [lia| | |].
  - intros f f' <- ->. done.
  - eapply wp_mono; [by apply bring_all|]. fold d n. cbv zeta. intros s1 r (-> & K1 & Hok1 & D1 & U1 & _). by split_and!.
  - exists s'. by split_and!.
Qed.

(** The check of a pair of files for collisions. *)
Definition check_collisions (l d : list Z) : bool :=
  forallb (fun p => forallb (fun n =>
    let b1 := read_at l p n in let b2 := read_at d p n in
    bool_decide (b1 = b2) || negb (bool_decide (md5 b1 = md5 b2))) (seq 0 (S (length d)))) (seq 0 (S (length d))).

Lemma check_collisions_ok l d : check_collisions l d = true -> collision_free l d.
Proof.
  intros H p n Hpn. unfold check_collisions in H. rewrite forallb_forall in H.
  specialize (H p ltac:(apply in_seq; lia)). rewrite forallb_forall in H. specialize (H n ltac:(apply in_seq; lia)).
  unfold no_collision. cbn [fst snd]. rewrite !Nat2Z.id. intros _ Hm. cbv zeta in H.
  apply orb_true_iff in H as [H|H]; [by apply bool_decide_eq_true in H|].
  apply negb_true_iff, bool_decide_eq_false in H. done.
Qed.

(** A copy whose first three bytes are not up to date and whose end was cut at the
    master. *)
Definition stale_file : lfile :=
  LFile [0; 0; 0; 4; 5; 6; 7] 7 9 2 9 9 (tree_with [(3, 7)]) (tree_with []) false false.
Definition stale_sys : sys :=
  Sys stale_file (MFile [1; 2; 3; 4; 5] 9) [AnswerShort 1; Answer; AnswerShort 1] [Pass; Short 2; Short 1] [true; false] [] 0.

Lemma stale_trees : (it_ok (tree_with [(3, 7)]) /\ forall x, points (tree_with [(3, 7)]) x <-> 3 <= x < 7) /\
  (it_ok (tree_with []) /\ forall x, points (tree_with []) x <-> False).
Proof.
  split; (edestruct tree_with_ok as [H1 H2]; [|split; [exact H1|]]; [by repeat constructor|]);
    intros x; rewrite H2, ?Exists_cons, Exists_nil; lia.
Qed.

Lemma stale_copy : plain_copy stale_file (MFile [1; 2; 3; 4; 5] 9).
Proof.
  destruct stale_trees as [[U1 U2] [M1 M2]]. constructor.
  - constructor; cbn [lf_size lf_data lf_version lf_local lf_updated lf_modified stale_file]; try done;
      intros x; rewrite ?U2, ?M2; lia.
  - cbn; lia.
  - done.
  - cbn [lf_modified stale_file]. intros x. rewrite M2. tauto.
  - unfold in_sync. cbn [lf_updated lf_modified lf_data stale_file mf_data]. intros x. rewrite U2. cbn [length]. intros Hx _ Hl.
    assert (x = 3 \/ x = 4) as [-> | ->] by lia; done.
  - unfold wide. cbn [lf_updated stale_file mf_data length]. setoid_rewrite U2. lia.
  - apply check_collisions_ok. vm_compute. reflexivity.
Qed.

Lemma update_contents_complete_witness :
  exists s', update_contents (repeat 0 256, repeat 0 256) 5 false stale_sys = Ok (s', inr ()) /\
    lf_data (s_file s') = [1; 2; 3; 4; 5] /\ has_flag (lf_flags (s_file s')) METADATA_COMPLETE = true.
Proof.
  destruct (update_contents_complete (repeat 0 256, repeat 0 256) stale_sys) as (s' & E & _ & _ & Ed & Ef & _).
  - split; repeat constructor; done.
  - apply stale_copy.
  - reflexivity.
  - reflexivity.
  - cbn; lia.
  - exists s'. split_and!; [exact E|exact Ed|exact Ef].
Defined.

(** ** What the versions say *)

(** What has to be done with a regular file that has a counterpart at the master:
    an incomplete copy has to be updated; a complete one has to be updated when only
    the master's version changed, to be reintegrated when only the local version
    changed, and neither when both changed. *)
Theorem update_p_regular meta attr remote : fa_type attr = FT_REG -> fa_type remote = FT_REG ->
  let w := update_p false meta attr (inr remote) in
  let base := master_version meta in
  has_flag w IFH_UPDATE = negb (has_flag (flags meta) METADATA_COMPLETE) ||
    ((fa_version attr =? base) && (base <? fa_version remote)) /\
  has_flag w IFH_REINTEGRATE = (fa_version remote =? base) && (base <? fa_version attr) /\
  has_flag w IFH_METADATA = METADATA_CHANGE_P meta attr remote /\
  (has_flag (flags meta) METADATA_COMPLETE = true -> ~ (has_flag w IFH_UPDATE = true /\ has_flag w IFH_REINTEGRATE = true)).
Proof.
  intros Ha Hr w base.
  assert (w = Z.b2z (UPDATE_P meta attr remote) * IFH_UPDATE + Z.b2z (REINTEGRATE_P meta attr remote) * IFH_REINTEGRATE
    + Z.b2z (METADATA_CHANGE_P meta attr remote) * IFH_METADATA) as Ew.
  { unfold w, update_p. rewrite bool_decide_eq_false_2 by congruence. done. }
  assert (UPDATE_P meta attr remote = negb (has_flag (flags meta) METADATA_COMPLETE) ||
    ((fa_version attr =? base) && (base <? fa_version remote))) as Eu.
  { unfold UPDATE_P. by rewrite bool_decide_eq_false_2 by (rewrite Ha; done). }
  assert (REINTEGRATE_P meta attr remote = (fa_version remote =? base) && (base <? fa_version attr)) as Er.
  { unfold REINTEGRATE_P. by rewrite bool_decide_eq_false_2 by (rewrite Ha; done). }
  assert (has_flag w IFH_UPDATE = UPDATE_P meta attr remote /\ has_flag w IFH_REINTEGRATE = REINTEGRATE_P meta attr remote
    /\ has_flag w IFH_METADATA = METADATA_CHANGE_P meta attr remote) as (-> & -> & ->).
  { rewrite Ew. by destruct (UPDATE_P _ _ _), (REINTEGRATE_P _ _ _), (METADATA_CHANGE_P _ _ _). }
  rewrite Eu, Er. do 3 (split; [done|]). intros ->. cbn [negb orb].
  rewrite !andb_true_iff, !Z.eqb_eq, !Z.ltb_lt. lia.
Qed.

(** The attributes of a regular file of the version [v]. *)
Definition sample_fattr (v : Z) : fattr := MkFattr 1 2 v FT_REG 420 1 0 0 0 20 1 512 0 0 0.
Definition sample_meta (complete base : Z) : metadata :=
  MkMeta 2 complete 1 2 3 (MkFh 1 2 3 4 5) base base 420 0 0 1 1 [].

(** A complete file of which only the master's version grew, from 5 to 7. *)
Lemma update_p_regular_witness :
  has_flag (update_p false (sample_meta 1 5) (sample_fattr 5) (inr (sample_fattr 7))) IFH_UPDATE = true /\
  has_flag (update_p false (sample_meta 1 5) (sample_fattr 5) (inr (sample_fattr 7))) IFH_REINTEGRATE = false.
Proof.
  destruct (update_p_regular (sample_meta 1 5) (sample_fattr 5) (sample_fattr 7)) as (E1 & E2 & _); [reflexivity|reflexivity|].
  split; [rewrite E1|rewrite E2]; reflexivity.
Defined.

(** ** A new version at the master *)

(** [f'] is [f] after the master got a new version. *)
Record forgotten (f f' : lfile) (version : Z) : Prop := {
  fo_ok : lf_ok f';
  fo_master : lf_master f' = version;
  fo_sync : forall d, in_sync f' d;
  fo_data : lf_data f' = lf_data f;
  fo_modified : forall x, points (lf_modified f') x <-> points (lf_modified f) x;
  fo_local : version <= lf_local f' /\ (lf_master f < lf_local f -> version < lf_local f')
}.

Lemma forgotten_tree f f1 version t f' : lf_ok f -> it_ok t -> (forall x, points t x <-> points (lf_modified f) x) ->
  core f1 = core (with_versions f (lf_local f1) version) ->
  version <= lf_local f1 /\ (lf_master f < lf_local f -> version < lf_local f1) ->
  core f' = core (with_updated f1 t) -> forgotten f f' version.
Proof.
  intros Hok Ht Hp E1 Hl E. pose proof (core_eq _ _ E1) as (G1 & G2 & G3 & G4 & G5 & G6 & G7 & G8).
  pose proof (core_eq _ _ E) as (H1 & H2 & H3 & H4 & H5 & H6 & H7 & H8). cbn in *.
  destruct Hok. constructor.
  - constructor; rewrite ?H1, ?H2, ?H3, ?H4, ?H6, ?H7, ?G1, ?G2, ?G3, ?G7; try done. intros x Hx. apply Hp in Hx. auto.
  - by rewrite H5, G5.
  - intros d x. rewrite H6, H7, G7, Hp. tauto.
  - by rewrite H1, G1.
  - by rewrite H7, G7.
  - by rewrite H4.
Qed.

(** C7. When the master has a new version, no byte that was not modified here is
    promised to be up to date any more, whatever the new bytes are; the modified bytes
    keep their mark, and the local version is not below the master's, and above it
    when it was above it before. *)
Theorem update_file_clear_updated_tree_safe version s : lf_ok (s_file s) -> 0 <= version < UINT64_MAX ->
  lf_master (s_file s) <= lf_local (s_file s) ->
  exists s' r, update_file_clear_updated_tree version s = Ok (s', r) /\ forgotten (s_file s) (s_file s') version.
Proof.
  intros Hok Hv Hle.
  enough (wp (update_file_clear_updated_tree version) s (fun s' _ => forgotten (s_file s) (s_file s') version)) as Hw.
  { unfold wp in Hw. destruct (update_file_clear_updated_tree version s) as [[s' r]| |]; try done. by exists s', r. }
  unfold update_file_clear_updated_tree. apply wp_bind, wp_file. cbv zeta.
  set (local := if lf_master (s_file s) <? lf_local (s_file s) then _ else _).
  assert (version <= local /\ (lf_master (s_file s) < lf_local (s_file s) -> version < local)) as Hlocal.
  { unfold local. destruct (Z.ltb_spec (lf_master (s_file s)) (lf_local (s_file s))).
    - destruct (Z.leb_spec (lf_local (s_file s)) version); [|lia]. unfold UINT64_MAX in Hv. rewrite wrap_small by lia. lia.
    - destruct (Z.ltb_spec (lf_local (s_file s)) version); lia. }
  apply wp_bind, wp_set_file. intros s1 E1 _. apply wp_bind, wp_store. intros s2 r1 E2 _.
  apply wp_bind, wp_mark. intros s3 [E3 _]. rewrite E2, E1 in E3.
  pose proof (core_eq _ _ E3) as (G1 & G2 & G3 & G4 & G5 & G6 & G7 & G8). cbn in G1, G2, G3, G4, G5, G6, G7.
  apply wp_bind, wp_file. rewrite G6, G7.
  destruct (interval_tree_empty_spec (lf_updated (s_file s)) (lo_updated _ Hok)) as (t1 & Et1 & Ht1 & Hp1 & _).
  apply wp_bind. eapply wp_lift; [exact Et1|].
  destruct (interval_tree_add_spec t1 (lf_modified (s_file s)) Ht1 (lo_modified _ Hok)) as (t2 & Et2 & Ht2 & Hp2).
  apply wp_bind. eapply wp_lift; [exact Et2|]. apply wp_bind, wp_set_file. intros s4 E4 _.
  assert (forall t s', it_ok t -> (forall x, points t x <-> points t2 x) -> core (s_file s') = core (with_updated (s_file s3) t) ->
    forgotten (s_file s) (s_file s') version) as Hend.
  { intros t s' Ht Hp Ec. eapply (forgotten_tree _ (s_file s3) _ t); [done|done| | | |done].
    - intros x. rewrite Hp, Hp2. specialize (Hp1 x). tauto.
    - rewrite G4. exact E3.
    - by rewrite G4. }
  apply wp_bind, (wp_flush _ _ t2); [by left|by rewrite E4|]. intros s5 r2 _ E5.
  apply wp_bind, wp_mark. intros s6 [E6 _]. rewrite <-E6, E4 in E5.
  destruct (r1 && r2); [apply wp_ret|apply wp_fail]; (destruct E5 as [E5|E5];
    [by apply (Hend t2)|apply (Hend (clear_deleted t2)); [by apply clear_deleted_ok|done|done]]).
Qed.

Lemma update_file_clear_updated_tree_safe_witness :
  exists s' r, update_file_clear_updated_tree 8 sample_sys = Ok (s', r) /\ lf_master (s_file s') = 8 /\
    (forall d, in_sync (s_file s') d) /\ 8 < lf_local (s_file s').
Proof.
  destruct (update_file_clear_updated_tree_safe 8 sample_sys) as (s' & r & E & [_ Hm Hs _ _ [_ Hl]]).
  - apply sample_file_ok.
  - unfold UINT64_MAX. lia.
  - cbn. lia.
  - exists s', r. split_and!; [exact E|exact Hm|exact Hs|]. apply Hl. cbn. lia.
Defined.

(** ** What the code does not do *)

Definition no_junk : list Z * list Z := (repeat 0 256, repeat 0 256).

(** *** A copy with a short island of up-to-date bytes *)

Lemma single_island t a b : it_ok t -> a < b -> (forall x, points t x <-> a <= x < b) ->
  exists p, contents (it_splay t) = [MkNode p a b].
Proof.
  intros [_ Hs _] Hab Hp. unfold points in Hp. destruct (contents (it_splay t)) as [|[p k v] l] eqn:E.
  { destruct (proj2 (Hp a)) as (n & Hn & _); [lia|set_solver]. }
  pose proof (separated_edges _ (MkNode p k v) Hs ltac:(set_solver)) as (H1 & H2 & H3).
  apply separated_cons in Hs as (Hkv & Hl & Hs). cbn in *. rewrite Hp in H1, H2, H3.
  destruct l as [|m l].
  - pose proof (proj1 (Hp (v - 1)) ltac:(rewrite cov_cons; left; cbn; lia)). exists p. do 2 f_equal; lia.
  - specialize (Hl m ltac:(set_solver)). apply separated_cons in Hs as (Hm & _ & _).
    pose proof (proj1 (Hp (node_key m)) ltac:(rewrite !cov_cons; right; left; lia)). lia.
Qed.

Lemma wp_get_blocks_island a b n s d (Q : sys -> Z + list interval -> Prop) : lf_ok (s_file s) ->
  (forall x, ~ points (lf_modified (s_file s)) x) -> 0 < a < b -> b < n ->
  (forall x, points (lf_updated (s_file s)) x <-> a <= x < b) ->
  (forall s', same_env s s' -> brought (s_file s) (s_file s') d (fun _ => False) ->
    lf_data (s_file s') = lf_data (s_file s) -> Q s' (inr [MkInterval 0 a; MkInterval b n])) ->
  wp (get_blocks_for_updating 0 n) s Q.
Proof.
  intros Hok Hm Hab Hbn Hp H. apply (wp_get_blocks_gaps n s d); [done..|].
  destruct (single_island _ a b (lo_updated _ Hok) ltac:(lia) Hp) as [p ->]. cbv zeta.
  assert (above 0 [MkNode p a b] = [MkNode p a b]) as ->.
  { unfold above. rewrite filter_cons. cbn. by rewrite decide_True by lia. }
  assert (complement_from 0 [MkNode p a b] = 0) as ->.
  { unfold complement_from, floor_node, with_key, below. rewrite !filter_cons. cbn.
    by rewrite !decide_False by lia. }
  cbn [gaps node_key node_value]. by rewrite !ltb_true by lia.
Qed.

Section island.
Context (a b n : Z) (Ha : 0 < a < b) (Hb : b < n) (Hn : n <= ZFS_MAXDATA).
Let blocks := [MkInterval 0 a; MkInterval b n].

(** The bytes from [o] on were marked as up to date, but none before [b] was changed. *)
Record marked_only (f f' : lfile) (o : Z) : Prop := {
  mo_ok : lf_ok f';
  mo_size : lf_size f' = lf_size f;
  mo_versions : lf_version f' = lf_version f /\ lf_master f' = lf_master f;
  mo_updated : forall x, points (lf_updated f') x <-> points (lf_updated f) x \/ o <= x < n;
  mo_modified : forall x, points (lf_modified f') x <-> points (lf_modified f) x;
  mo_bytes : forall x, x < b -> byte (lf_data f') x = byte (lf_data f) x
}.

Lemma marked_only_core f f' f'' o : core f'' = core f' -> marked_only f f' o -> marked_only f f'' o.
Proof.
  intros Hc [? ? ? ? ? ?]. pose proof (core_eq _ _ Hc) as (E1 & E2 & E3 & E4 & E5 & E6 & E7 & E8).
  constructor; rewrite ?E1, ?E2, ?E3, ?E5, ?E6, ?E7; try done. by eapply core_ok.
Qed.

Lemma brought_marked f f' d o : brought f f' d (fun _ => False) -> (forall x, o <= x < n -> points (lf_updated f) x) ->
  marked_only f f' o.
Proof.
  intros [B1 B2 B3 B4 B5 B6 B7] Ho. constructor; try done.
  - intros x. rewrite B4. specialize (Ho x). tauto.
  - intros x _. apply B7. tauto.
Qed.

Lemma marked_only_trans f f1 f2 o o' : marked_only f f1 o -> marked_only f1 f2 o' -> o <= o' -> marked_only f f2 o.
Proof.
  intros [? A1 [A2 A2'] A3 A4 A5] [? B1 [B2 B2'] B3 B4 B5] Hle. constructor; [done|congruence|split; congruence| | |].
  - intros x. rewrite B3, A3. intuition lia.
  - intros x. by rewrite B4.
  - intros x Hx. by rewrite B5, A5.
Qed.

Lemma skip_island o : 0 <= o < n -> skip_blocks (drop 0 blocks) 0 o = if a <? o then 1%nat else 0%nat.
Proof. intros Ho. cbn. destruct (a <? o); [|done]. by rewrite ltb_false by lia. Qed.

(** The bytes of the local file are written over themselves, or bytes after the
    island are written. *)
Lemma write_joined w o j s : tame s -> lf_ok (s_file s) -> lf_size (s_file s) = n -> 0 <= o < n ->
  Z.of_nat (length w) = n - o ->
  (forall x, o <= x < b -> w !! Z.to_nat (x - o) = byte (lf_data (s_file s)) x) ->
  wp ('(j, count) ← (n ← full_local_write w o (Some (lf_version (s_file s))); mret (j, n));
      r ← append_interval METADATA_TYPE_UPDATED o (u64 (o + Z.of_nat count));
      mark_if (negb r);; mret j : proc nat) s
    (fun s' r => r = inr j /\ env_kept s s' /\ marked_only (s_file s) (s_file s') o).
Proof.
  intros Ht Hok Hsz Ho Hw Hbytes. unfold ZFS_MAXDATA in Hn. pose proof (lo_size _ Hok) as Hsize.
  apply wp_bind, wp_bind, wp_full_local_write; [done|lia|lia|lia|by right|]. intros s2 T2 F2 M2 P2.
  apply wp_ret. cbn beta iota. rewrite Hw. replace (o + (n - o)) with n by lia. rewrite wrap_small by lia.
  assert (length (write_at (lf_data (s_file s)) (Z.to_nat o) w) = length (lf_data (s_file s))) as Lw.
  { rewrite length_write_max. lia. }
  assert (lf_ok (s_file s2)) as Hok2.
  { rewrite F2. destruct Hok. constructor; cbn; try done. by rewrite Lw. }
  apply wp_bind, (wp_append _ _ _ _ (lf_updated (s_file s2))); [by left|done|apply Hok2|lia|].
  intros s3 t r E3 K3 Ht3 Hp3. pose proof (same_env_kept _ _ T2 K3) as K3'.
  apply wp_bind, wp_mark. intros s4 [E4 K4]. pose proof (same_env_kept _ _ (proj2 (proj2 K3')) K4) as K4'.
  apply wp_ret. split; [done|]. split.
  { destruct K3' as (?&?&?), K4' as (?&?&?). split_and!; congruence. }
  rewrite E3, F2 in E4. rewrite F2 in Hp3. cbn [set_tree] in E4, Hp3. apply (marked_only_core _ _ _ _ E4).
  constructor; cbn [with_updated with_data lf_size lf_version lf_master lf_updated lf_modified lf_data]; try done.
  - destruct Hok. constructor; cbn; try done; [by rewrite Lw|]. intros x. rewrite Hp3. cbn. intros [?|?]; [auto|lia].
  - intros x Hx. destruct (decide (0 <= x)) as [H0|H0].
    2: { unfold byte. by rewrite (proj2 (Z.leb_gt 0 x)) by lia. }
    destruct (decide (x < o)); [apply byte_write_outside; lia|].
    rewrite byte_write_inside by lia. by apply Hbytes; lia.
Qed.

Lemma read_rest l o : Z.of_nat (length l) = n -> 0 <= o < n ->
  Z.of_nat (length (read_at l (Z.to_nat o) (Z.to_nat (n - o)))) = n - o /\
  forall x, o <= x < b -> read_at l (Z.to_nat o) (Z.to_nat (n - o)) !! Z.to_nat (x - o) = byte l x.
Proof.
  intros Hl Ho. split; [rewrite length_read; lia|]. intros x Hx. unfold byte, read_at.
  rewrite (proj2 (Z.leb_le _ _)) by lia. rewrite lookup_take_lt, lookup_drop by lia. f_equal. lia.
Qed.

Lemma wp_unbind {A B} (m : proc A) (k : A -> proc B) s (Q : sys -> Z + B -> Prop) : wp (m ≫= k) s Q ->
  wp m s (fun s' r => match r with inl e => Q s' (inl e) | inr a => wp (k a) s' Q end).
Proof. unfold wp, mbind, proc_bind. destruct (m s) as [[s' [e|x]]| |]; cbn [mbind res_bind]; done. Qed.

(** An argument that covers the island and ends with the file. *)
Lemma update_block_joined o version s : tame s -> lf_ok (s_file s) -> lf_size (s_file s) = n ->
  Z.of_nat (length (mf_data (s_master s))) = n -> 0 <= o < n ->
  (version = None \/ version = Some (mf_version (s_master s))) ->
  wp (update_block blocks 0 o (Z.to_nat (n - o)) (lf_version (s_file s)) version false) s (fun s' r =>
    exists j', r = inr j' /\ (o <= a -> j' = 0%nat) /\ env_kept s s' /\ marked_only (s_file s) (s_file s') o).
Proof.
  intros Ht Hok Hsz Hd Ho Hv. pose proof (lo_size _ Hok) as Hsize. unfold ZFS_MAXDATA in Hn.
  unfold update_block. rewrite skip_island by done. apply wp_bind, wp_ret. cbv iota.
  apply wp_bind, wp_full_remote_read; [done|lia|lia|done|]. intros s1 (F1 & M1 & P1 & T1).
  destruct (read_rest (mf_data (s_master s)) o Hd Ho) as [Lb _].
  set (buf := read_at (mf_data (s_master s)) (Z.to_nat o) (Z.to_nat (n - o))) in *.
  set (j := if a <? o then 1%nat else 0%nat).
  assert (forall w, Z.of_nat (length w) = n - o ->
    (forall x, o <= x < b -> w !! Z.to_nat (x - o) = byte (lf_data (s_file s)) x) -> forall s1, steady s s1 ->
    wp ('(j, count) ← (n ← full_local_write w o (Some (lf_version (s_file s))); mret (j, n));
        r ← append_interval METADATA_TYPE_UPDATED o (u64 (o + Z.of_nat count)); mark_if (negb r);; mret j : proc nat) s1
      (fun s' r => exists j', r = inr j' /\ (o <= a -> j' = 0%nat) /\ env_kept s s' /\
        marked_only (s_file s) (s_file s') o)) as Hend.
  { intros w Lw Hw s2 (F2 & M2 & P2 & T2). eapply wp_mono.
    - rewrite <-F2. apply (write_joined w o j s2); rewrite ?F2; done.
    - rewrite F2. intros s' r (-> & (K1 & K2 & K3) & Hm). exists j. split; [done|]. split.
      + intros Hle. unfold j. by rewrite ltb_false by lia.
      + split; [split_and!; congruence|done]. }
  assert (u64 (o + Z.of_nat (length buf)) = n) as Eu by (rewrite Lb, wrap_small; lia).
  assert (exists blk, blocks !! j = Some blk /\ o <= end_ blk /\ (start blk <= o -> n <= end_ blk -> b <= o)) as (blk & Ej & Hblk & Hin).
  { unfold j. destruct (Z.ltb_spec a o); [exists (MkInterval b n)|exists (MkInterval 0 a)]; cbn; (split; [done|lia]). }
  rewrite Ej, Eu. destruct ((start blk <=? o) && (n <=? end_ blk)) eqn:Ec.
  - apply andb_true_iff in Ec as [H1%Z.leb_le H2%Z.leb_le]. apply Hend; [done| |by split_and!]. specialize (Hin H1 H2). lia.
  - assert (forall s1 old, steady s s1 -> old = read_at (lf_data (s_file s)) (Z.to_nat o) (Z.to_nat (n - o)) ->
      wp ('(j, count) ← (let buf2 := old ++ drop (length old) buf in
                         let '(j, buf2) := copy_blocks (drop j blocks) j o buf buf2 in
                         n ← full_local_write buf2 o (Some (lf_version (s_file s))); mret (j, n));
          r ← append_interval METADATA_TYPE_UPDATED o (u64 (o + Z.of_nat count)); mark_if (negb r);; mret j : proc nat) s1
      (fun s' r => exists j', r = inr j' /\ (o <= a -> j' = 0%nat) /\ env_kept s s' /\
        marked_only (s_file s) (s_file s') o)) as Hold.
    { intros s2 old Hs2 ->. destruct (read_rest (lf_data (s_file s)) o ltac:(lia) Ho) as [Lo Hbytes].
      cbv zeta. rewrite (drop_ge buf) by lia. rewrite app_nil_r.
      assert (copy_blocks (drop j blocks) j o buf (read_at (lf_data (s_file s)) (Z.to_nat o) (Z.to_nat (n - o))) =
        (j, read_at (lf_data (s_file s)) (Z.to_nat o) (Z.to_nat (n - o)))) as ->.
      { rewrite (drop_S _ _ _ Ej). cbn [copy_blocks]. by rewrite ltb_false by lia. }
      by apply Hend. }
    assert (Z.to_nat (n - o) = length buf) as El by lia.
    apply wp_bind, wp_bind, wp_full_local_read; [done|lia|lia|right; by rewrite F1|].
    intros s2 S2. rewrite F1, <-El. rewrite El.
    refine (wp_unbind _ _ _ _ (Hold s2 _ _ _)); [|by rewrite El].
    eapply steady_trans; [|exact S2]. by split_and!.
Qed.
(** The arguments the two blocks are joined into; the loop goes on at an offset that
    it takes from the arrays beyond the last element. *)
Definition joined_args (A : list (Z * Z)) : Prop :=
  A = [(0, n)] \/ exists o, 0 <= o < n /\ A = [(0, n); (o, n - o)].

Lemma piece_rest o : 0 <= o < n -> piece o n = n - o.
Proof. intros Ho. unfold ZFS_MAXDATA in Hn. rewrite piece_min by lia. lia. Qed.

Lemma block_fuel_two x y : exists k, block_fuel x y = S (S k).
Proof. exists (Z.to_nat ((y - x) / ZFS_MAXDATA) + 2)%nat. unfold block_fuel. rewrite Nat.add_comm. cbn. f_equal. by rewrite Nat.add_comm. Qed.

Lemma add_block_last fuel args idx x e modified st : joinable args x = false -> ma_count args <> ZFS_MAX_MD5_CHUNKS ->
  0 <= x + piece x e < 2 ^ 64 -> e <= x + piece x e ->
  add_block (S fuel) args idx x e modified false blocks st = Ok (st, inr (Some (add_arg args x e, idx))).
Proof.
  intros Hj Hc Hu He. cbn [add_block]. rewrite Hj, bool_decide_false, wrap_small by done.
  unfold mbind, proc_bind, mret, proc_ret. cbn [mbind res_bind]. by rewrite ltb_false by lia.
Qed.

Lemma add_block_join fuel args idx x e modified st l k : joinable args x = true -> ma_count args = S k ->
  let y := nth k (ma_offset args) 0 in
  let args' := Md5Args (S k) (ma_offset args) (<[k := piece y e]> (ma_length args)) in
  ma_length args' !! S k = Some l ->
  add_block (S fuel) args idx x e modified false blocks st =
    if u64 (y + l) <? e then add_block fuel args' idx (u64 (y + l)) e modified false blocks st
    else Ok (st, inr (Some (args', idx))).
Proof.
  intros Hj Hc y args' Hl. cbn [add_block]. rewrite Hj, Hc. replace (S k - 1)%nat with k by lia.
  fold y. unfold args' in *. cbn [ma_length] in Hl. cbn [ma_length ma_count ma_offset]. rewrite Hl.
  unfold mbind, proc_bind, mret, proc_ret. cbn [mbind res_bind]. by destruct (_ <? _).
Qed.

Lemma add_blocks_island junk modified st : length junk.1 = ZFS_MAX_MD5_CHUNKS -> length junk.2 = ZFS_MAX_MD5_CHUNKS ->
  b - a < ZFS_MODIFIED_BLOCK_SIZE ->
  exists args, add_blocks blocks (Md5Args 0 junk.1 junk.2) 0 modified false blocks st = Ok (st, inr (Some (args, 0%nat))) /\
    joined_args (ma_blocks args) /\ (0 < ma_count args)%nat.
Proof.
  intros H1 H2 Hab. destruct junk as [[|o1 [|o2 os]] [|l1 [|l2 ls]]]; try done. cbn [fst snd] in *. clear H1 H2.
  unfold ZFS_MAXDATA, ZFS_MODIFIED_BLOCK_SIZE in *. unfold blocks at 1. cbn [add_blocks start end_].
  destruct (block_fuel_two 0 a) as [k1 ->]. destruct (block_fuel_two b n) as [k2 ->].
  assert (piece 0 a = a) as Ep by (rewrite piece_min; lia).
  assert (piece 0 n = n) as En by (rewrite piece_min; lia).
  unfold mbind at 1, proc_bind at 1. rewrite add_block_last; [|done|done|lia|lia]. cbn [mbind res_bind].
  unfold add_arg. cbn [ma_count ma_offset ma_length]. rewrite Ep. cbn [insert list_insert].
  set (A1 := Md5Args 1 (0 :: o2 :: os) (a :: l2 :: ls)).
  assert (joinable A1 b = true) as Hj.
  { unfold joinable, A1, ZFS_MAXDATA, ZFS_MODIFIED_BLOCK_SIZE. cbn [ma_count ma_offset ma_length nth].
    rewrite !wrap_small by lia. rewrite !ltb_true by lia. done. }
  unfold mbind at 1, proc_bind at 1.
  rewrite (add_block_join _ A1 0 b n modified st l2 0 Hj eq_refl) by done. cbn [ma_offset ma_length A1 nth insert list_insert].
  rewrite En, Z.add_0_l. set (A2 := Md5Args 1 (0 :: o2 :: os) (n :: l2 :: ls)).
  destruct (Z.ltb_spec (u64 l2) n) as [Hlt|Hge].
  - pose proof (wrap_range 64 l2 ltac:(lia)) as Hr. set (o := u64 l2) in *.
    pose proof (piece_rest o ltac:(lia)) as Epr.
    assert (joinable A2 o = false) as Hj2.
    { unfold joinable, A2, ZFS_MAXDATA, ZFS_MODIFIED_BLOCK_SIZE. cbn [ma_count ma_offset ma_length nth].
      apply andb_false_iff. right. apply Z.ltb_ge.
      replace (u64 (o - 0 - n)) with (o - n + 2 ^ 64); [lia|]. unfold wrap. apply (Z.mod_unique_pos _ _ (-1)); lia. }
    rewrite add_block_last; [|done|done|lia|lia]. cbn [mbind res_bind add_blocks mret proc_ret].
    eexists. split; [reflexivity|]. split; [|cbn; lia]. right. exists o. split; [lia|].
    unfold ma_blocks, add_arg, A2. cbn. by rewrite Epr.
  - cbn [mbind res_bind add_blocks mret proc_ret]. eexists. split; [reflexivity|]. split; [left|cbn; lia]. done.
Qed.

Lemma joined_in_file A : joined_args A -> Forall (in_file n) A.
Proof.
  unfold ZFS_MAXDATA in Hn. intros [-> |(o & Ho & ->)]; repeat constructor; cbn; unfold ZFS_MAXDATA; lia.
Qed.

Lemma update_blocks_island l d A v version s : tame s -> lf_ok (s_file s) -> lf_size (s_file s) = n ->
  mf_data (s_master s) = d -> Z.of_nat (length d) = n -> lf_version (s_file s) = v ->
  (version = None \/ version = Some (mf_version (s_master s))) -> joined_args A -> same_block l d (0, n) = false ->
  wp (update_blocks_loop blocks (sum_of l <$> A) (sum_of d <$> A) n 0 v version false) s (fun s' r =>
    exists j', r = inr j' /\ env_kept s s' /\ marked_only (s_file s) (s_file s') 0).
Proof.
  intros Ht Hok Hsz Ed Hd Ev Hv HA Hs. unfold ZFS_MAXDATA in Hn. pose proof Ha as Ha'. pose proof Hb as Hb'.
  assert (forall o, 0 <= o < n -> Z.of_nat (length (read_at d (Z.to_nat o) (Z.to_nat (n - o)))) = n - o) as Hlen
    by (intros o Ho; by apply (read_rest d o)).
  pose proof (Hlen 0 ltac:(lia)) as Hl0. rewrite Z.sub_0_r in Hl0.
  assert (exists R, A = (0, n) :: R /\ (R = [] \/ exists o, 0 <= o < n /\ R = [(o, n - o)])) as (R & -> & HR).
  { destruct HA as [-> |(o & Ho & ->)]; eexists; (split; [done|]); eauto. }
  cbn [fmap list_fmap update_blocks_loop fst snd sum_of]. rewrite Hl0.
  rewrite (proj2 (Z.ltb_ge ZFS_MAXDATA _)) by (unfold ZFS_MAXDATA; lia).
  rewrite wrap_small, (proj2 (Z.ltb_ge n _)) by lia. cbn [orb].
  unfold same_block in Hs. rewrite Hs.
  apply wp_bind. subst v. eapply wp_mono.
  { pose proof (update_block_joined 0 version s Ht Hok Hsz ltac:(by rewrite Ed) ltac:(lia) Hv) as Hw.
    rewrite Z.sub_0_r in Hw. exact Hw. }
  intros s1 r (j1 & -> & Hj1 & K1 & Hm1). rewrite Hj1 by lia. cbn [drop]. rewrite drop_0.
  pose proof (mo_versions _ _ _ Hm1) as [Hv1 _]. rewrite <-Hv1. pose proof K1 as (M1 & P1 & T1).
  destruct HR as [-> |(o & Ho & ->)]; cbn [fmap list_fmap update_blocks_loop fst snd sum_of].
  { apply wp_ret. by exists 0%nat. }
  rewrite (Hlen o Ho). rewrite (proj2 (Z.ltb_ge ZFS_MAXDATA _)) by (unfold ZFS_MAXDATA; lia).
  rewrite wrap_small, (proj2 (Z.ltb_ge n _)) by lia. cbn [orb].
  destruct (same_sum (sum_of l (o, n - o)) (sum_of d (o, n - o))); apply wp_bind.
  - apply wp_ret, wp_ret. by exists 0%nat.
  - eapply wp_mono.
    { apply (update_block_joined o version s1); [done|apply Hm1|by rewrite (mo_size _ _ _ Hm1)|by rewrite M1, Ed|done|by rewrite M1]. }
    intros s2 r (j2 & -> & _ & K2 & Hm2). apply wp_ret. exists j2. split; [done|]. split; [by eapply env_kept_trans|].
    eapply marked_only_trans; [exact Hm1|exact Hm2|lia].
Qed.

(** The joined arguments are marked as up to date, and no byte before the end of the
    island is brought. *)
Lemma update_file_blocks_1_island A ign s : tame s -> lf_ok (s_file s) -> lf_size (s_file s) = n ->
  Z.of_nat (length (mf_data (s_master s))) = n -> (lf_version (s_file s) = lf_master (s_file s) ->
    lf_master (s_file s) = mf_version (s_master s)) ->
  (forall x, ~ points (lf_modified (s_file s)) x) -> joined_args A ->
  same_block (lf_data (s_file s)) (mf_data (s_master s)) (0, n) = false ->
  Forall (no_collision (lf_data (s_file s)) (mf_data (s_master s))) A ->
  wp (update_file_blocks_1 A ign blocks 0 false) s (fun s' r =>
    exists j', r = inr j' /\ env_kept s s' /\ marked_only (s_file s) (s_file s') 0).
Proof.
  intros Ht Hok Hsz Hd Hve Hm HA Hs Hc. set (d := mf_data (s_master s)) in *. set (l := lf_data (s_file s)) in *.
  pose proof (joined_in_file A HA) as Hin. pose proof (lo_size _ Hok) as Hsize. fold l in Hsize.
  assert (Forall arg_ok A) as Harg by (eapply Forall_impl; [exact Hin|]; by intros x [? _ _]).
  assert (forall k, Z.of_nat (length k) = n -> omap (block_sum k) A = sum_of k <$> A) as Hsum.
  { intros k Hk. rewrite <-(app_nil_r A) at 1. apply omap_sums; [by rewrite Hk|constructor|constructor]. }
  unfold update_file_blocks_1. apply wp_bind, wp_remote_md5sum; [done|]. intros s1 (F1 & M1 & P1 & T1).
  unfold master_md5. cbn [mr_blocks mr_size mr_version]. fold d. rewrite (Hsum d Hd), Hd.
  assert (exists y Y, sum_of d <$> A = y :: Y) as (y & Y & EY) by (destruct HA as [-> |(o & _ & ->)]; by eexists _, _).
  rewrite EY at 1. apply wp_bind, wp_local_md5sum; [done|done|]. intros s2 (F2 & M2 & P2 & T2). rewrite F1 in F2 |- *.
  cbn [mr_blocks mr_size]. fold l. rewrite (Hsum l) by lia. rewrite Hsz, Z.eqb_refl.
  apply wp_bind, wp_file. rewrite F2. apply wp_bind.
  rewrite (proj2 (andb_false_iff _ _)) by
    (destruct (Z.eqb_spec (lf_version (s_file s)) (lf_master (s_file s))) as [E|]; [right|by left];
     rewrite (Hve E), Z.eqb_refl; done).
  apply wp_ret, wp_bind, wp_ret, wp_bind, wp_file, wp_bind. rewrite F2.
  assert (s_master s2 = s_master s) as M2' by congruence.
  eapply wp_mono.
  { apply (mark_same_ok l d A); rewrite ?F2; try done; [lia|by rewrite Hd]. }
  intros s3 r (fl & -> & K3 & D3 & Hb3). rewrite F2 in Hb3. pose proof K3 as (M3 & P3 & T3).
  assert (s_master s3 = s_master s) as M3' by congruence.
  apply wp_bind, wp_file, wp_bind. eapply wp_mono.
  { apply (update_blocks_island l d A); try done; try apply Hb3.
    - by rewrite (br_size _ _ _ _ Hb3).
    - by rewrite M3'.
    - rewrite M3'. destruct (br_versions _ _ _ _ Hb3) as [-> ->]. case_match eqn:E; [|by left]. by right. }
  intros s4 r (j4 & -> & K4 & Hm4).
  assert (env_kept s s4) as K4'. { destruct K4 as (M4 & P4 & T4). split_and!; congruence. }
  assert (marked_only (s_file s) (s_file s4) 0) as Hm4'.
  { destruct Hm4 as [? A1 [A2 A2'] A3 A4 A5], Hb3 as [_ B1 [B2 B2'] B3 B4 _ _].
    constructor; [done|congruence|split; congruence| | |].
    - intros x. rewrite A3, B3. split; [|tauto]. intros [[?|[Hx Hx2]]|?]; [by left| |by right]. right.
      apply Exists_exists in Hx as (p & Hp%list_elem_of_filter & Hx). destruct Hp as [_ Hp].
      rewrite Forall_forall in Hin. destruct (if_bounds _ _ (Hin p Hp)) as (? & ? & _). unfold in_arg in Hx. lia.
    - intros x. by rewrite A4, B4.
    - intros x Hx. by rewrite A5, D3. }
  apply wp_flush_modified; [apply K4'|]. intros s5 K5 Hc5. exists j4. split; [done|]. split; [by eapply env_kept_trans|].
  destruct Hc5 as [E|E]; apply (marked_only_core _ _ _ _ E); [done|].
  destruct Hm4' as [[] ? ? ? ? ?]. constructor; try done. constructor; try done. by apply clear_deleted_ok.
Qed.
End island.

(** A copy of which only the bytes from [a] to [b] are up to date. *)
Record island_copy (f : lfile) (m : mfile) (a b n : Z) : Prop := {
  ic_ok : lf_ok f;
  ic_size : lf_size f = n /\ Z.of_nat (length (mf_data m)) = n /\ n <= ZFS_MAXDATA;
  ic_version : lf_master f = mf_version m;
  ic_unmodified : forall x, ~ points (lf_modified f) x;
  ic_island : forall x, points (lf_updated f) x <-> a <= x < b;
  ic_inside : 0 < a < b /\ b < n;
  ic_collision : collision_free (lf_data f) (mf_data m)
}.

(** C9. In every copy of at most 8192 bytes whose only up-to-date bytes are an island of
    less than 1024 bytes between two parts that are not up to date, these two parts are
    joined into one MD5 block, whose bytes before the end of the island the copying loop
    never takes from the master.  If one of them differs from the master's, the update,
    with no call failing and nobody interfering, ends with success, marks the file as
    complete and everything in it as up to date, and has left all these bytes as they
    were: the local copy claims to be in sync and is not. *)
Theorem joined_blocks_stay_stale junk s a b n x0 : tame s -> island_copy (s_file s) (s_master s) a b n ->
  length junk.1 = ZFS_MAX_MD5_CHUNKS -> length junk.2 = ZFS_MAX_MD5_CHUNKS -> b - a < ZFS_MODIFIED_BLOCK_SIZE ->
  0 <= x0 < b -> byte (lf_data (s_file s)) x0 <> byte (mf_data (s_master s)) x0 ->
  exists s', update_contents junk n false s = Ok (s', inr ()) /\ s_master s' = s_master s /\
    (forall x, x < b -> byte (lf_data (s_file s')) x = byte (lf_data (s_file s)) x) /\
    has_flag (lf_flags (s_file s')) METADATA_COMPLETE = true /\
    (forall x, points (lf_updated (s_file s')) x <-> 0 <= x < n) /\
    (forall x, ~ points (lf_modified (s_file s')) x) /\ ~ in_sync (s_file s') (mf_data (s_master s')).
Proof.
  intros Ht [Hok (Hsz & Hd & Hn) Hv Hm Hi [Hab Hbn] Hc] Hj1 Hj2 Hw Hx0 Hne.
  set (d := mf_data (s_master s)) in *. set (l := lf_data (s_file s)) in *. pose proof (lo_size _ Hok) as Hsize.
  fold l in Hsize. unfold ZFS_MAXDATA in Hn.
  destruct (update_contents_end junk n false s (fun f => (forall x, x < b -> byte (lf_data f) x = byte l x) /\
    forall x, ~ points (lf_modified f) x)) as (s' & E & M & Hok' & Hf & Hu & Hbytes & Hm'); [lia| | |].
  - intros f f' [H1 H2] -> _ _ Hp. split; [done|]. intros x. by rewrite Hp.
  - apply wp_bind, truncate_noop; [done|split; [lia|lia]|].
    apply wp_bind, (wp_get_blocks_island a b n s d); [done..|]. intros s1 K1 Hb1 D1.
    pose proof (same_env_kept _ _ Ht K1) as (M1 & P1 & T1). apply wp_bind, wp_file.
    destruct Hb1 as [B1 B2 [B3 B3'] B4 B5 _ _].
    assert (forall x, ~ points (lf_modified (s_file s1)) x) as Hm1 by (intros x; by rewrite B5).
    assert (forall A, joined_args n A -> forall ign, wp (update_file_blocks_1 A ign [MkInterval 0 a; MkInterval b n] 0 false) s1
      (fun s' r => exists j', r = inr j' /\ env_kept s1 s' /\ marked_only b n (s_file s1) (s_file s') 0)) as H1.
    { intros A HA ign. apply (update_file_blocks_1_island a b n); rewrite ?M1, ?D1; fold d l; try done.
      - by rewrite B2.
      - intros _. by rewrite B3'.
      - destruct (same_block l d (0, n)) eqn:Es; [|done]. destruct Hne.
        assert (length l = length d) as El by lia.
        apply same_block_eq in Es; [|by apply collision_free_arg]. cbn [fst snd] in Es.
        unfold read_at in Es. rewrite !drop_0, !take_ge in Es by lia. by rewrite Es.
      - apply Forall_forall. intros p _. apply collision_free_arg; [lia|done]. }
    rewrite update_file_blocks_eq by done. apply wp_bind.
    destruct (add_blocks_island a b n Hab Hbn Hn junk (negb (lf_version (s_file s1) =? lf_master (s_file s1))) s1 Hj1 Hj2 Hw)
      as (args & Eargs & HA & Hcount).
    unfold wp at 1. rewrite Eargs. rewrite bool_decide_true by done.
    apply wp_bind, wp_try. eapply wp_mono; [by apply H1|].
    intros s2 r (j & -> & (M2 & P2 & T2) & [C1 C2 _ C4 C5 C6]). apply wp_ret. split; [done|]. split; [split_and!; congruence|].
    split; [done|]. split; [|split].
    + intros x. rewrite C4, B4, Hi. lia.
    + intros x Hx. rewrite C6, D1 by done. done.
    + intros x. rewrite C5. apply Hm1.
  - exists s'. split_and!; try done. intros Hs. destruct Hne. rewrite <-(Hbytes x0) by lia.
    rewrite M in Hs. apply Hs; [apply Hu; lia|apply Hm'|fold d; lia].
Qed.

(** A copy of five bytes of which the one in the middle is up to date. *)
Definition island_sys : sys :=
  Sys (LFile [0; 0; 3; 0; 0] 5 9 2 9 9
         (tree_with [(2, 3)]) (tree_with []) false false)
      (MFile [1; 2; 3; 4; 5] 9) [] [] [] [] 0.

Lemma island_trees : (it_ok (tree_with [(2, 3)]) /\ forall x, points (tree_with [(2, 3)]) x <-> 2 <= x < 3) /\
  (it_ok (tree_with []) /\ forall x, points (tree_with []) x <-> False).
Proof.
  split; (edestruct tree_with_ok as [H1 H2]; [|split; [exact H1|]]; [by repeat constructor|]);
    intros x; rewrite H2, ?Exists_cons, Exists_nil; lia.
Qed.

Lemma island_sys_copy : island_copy (s_file island_sys) (s_master island_sys) 2 3 5.
Proof.
  destruct island_trees as [[U1 U2] [M1 M2]]. constructor.
  - constructor; cbn [lf_size lf_data lf_version lf_local lf_updated lf_modified s_file island_sys]; try done;
      intros x; rewrite ?U2, ?M2; lia.
  - by vm_compute.
  - done.
  - cbn [lf_modified s_file island_sys]. intros x. rewrite M2. tauto.
  - exact U2.
  - lia.
  - apply check_collisions_ok. vm_compute. reflexivity.
Qed.

Lemma joined_blocks_stay_stale_witness :
  exists s', update_contents no_junk 5 false island_sys = Ok (s', inr ()) /\ byte (lf_data (s_file s')) 1 = Some 0 /\
    has_flag (lf_flags (s_file s')) METADATA_COMPLETE = true /\ ~ in_sync (s_file s') (mf_data (s_master s')).
Proof.
  destruct (joined_blocks_stay_stale no_junk island_sys 2 3 5 1) as (s' & E & _ & Hb & Hf & _ & _ & Hs).
  - split; constructor.
  - apply island_sys_copy.
  - reflexivity.
  - reflexivity.
  - unfold ZFS_MODIFIED_BLOCK_SIZE. lia.
  - lia.
  - discriminate.
  - exists s'. split; [exact E|]. split; [rewrite Hb by lia; reflexivity|]. split; [exact Hf|exact Hs].
Defined.

(** The file is not put into the queue again, and nothing in it was brought. *)
Lemma island_not_rescheduled :
  exists s', update_contents no_junk 5 false island_sys = Ok (s', inr ()) /\
    lf_data (s_file s') = lf_data (s_file island_sys) /\ reschedule ZFS_OK (s_file s') = false.
Proof. vm_compute. eexists. split_and!; reflexivity. Qed.

(** A copy of 20 bytes of which only the byte 10 is not up to date. *)
Definition hole_sys : sys :=
  Sys (LFile [1; 2; 3; 4; 5; 6; 7; 8; 9; 10; 0; 12; 13; 14; 15; 16; 17; 18; 19; 20] 20 9 2 9 9
         (tree_with [(0, 10); (11, 20)]) (tree_with []) false false)
      (MFile [1; 2; 3; 4; 5; 6; 7; 8; 9; 10; 11; 12; 13; 14; 15; 16; 17; 18; 19; 20] 9) [] [] [] [] 0.

(** [zfs_read] does not see a block that begins and ends strictly inside the range
    that is read: it returns the old byte of the block without asking the master. A
    read that begins in the block sees it, but the block is joined with the one
    behind the end of the file, and the old byte is returned and marked as up to date. *)
Theorem zfs_read_returns_stale_byte :
  (exists s', zfs_read no_junk 3 10 hole_sys = Ok (s', inr [4; 5; 6; 7; 8; 9; 10; 0; 12; 13])) /\
  (exists s', zfs_read no_junk 10 3 hole_sys = Ok (s', inr [0; 12; 13]) /\
    intervals (lf_updated (s_file s')) = [MkInterval 0 20]).
Proof. split; vm_compute; eexists; split_and?; reflexivity. Qed.

(** A copy of three bytes of a file that was made empty at the master. *)
Definition emptied_sys : sys :=
  Sys (LFile [1; 2; 3] 3 9 0 9 9 (tree_with [(0, 3)]) (tree_with []) false false) (MFile [] 9) [] [] [] [] 0.

(** The update of a file that is empty at the master succeeds but does not mark the
    copy as complete, because no interval covers nothing; the file is put into the
    queue again, and again after every update. *)
Theorem empty_file_rescheduled :
  exists s1 s2, update_contents no_junk 0 false emptied_sys = Ok (s1, inr ()) /\ lf_data (s_file s1) = [] /\
    reschedule ZFS_OK (s_file s1) = true /\
    update_contents no_junk 0 false s1 = Ok (s2, inr ()) /\ s_file s2 = s_file s1.
Proof.
  assert (match update_contents no_junk 0 false emptied_sys with
    | Ok (s1, inr _) => lf_data (s_file s1) = [] /\ reschedule ZFS_OK (s_file s1) = true /\
        match update_contents no_junk 0 false s1 with Ok (s2, inr _) => s_file s2 = s_file s1 | _ => False end
    | _ => False
    end) as H by (vm_compute; done).
  destruct (update_contents no_junk 0 false emptied_sys) as [[s1 [r|[]]]| |]; try done. exists s1.
  destruct (update_contents no_junk 0 false s1) as [[s2 [r|[]]]| |]; try (by destruct H as (_ & _ & [])).
  exists s2. by destruct H as (? & ? & ?).
Qed.
