(* ===== verification/Reintegrate.v ===== *)
(** Reintegrating local changes into the master's file:
    [reintegrate_file_blocks] of [src/zfsd/update/update.c] and the calls to the master
    it makes.

    The state is that of [LocalCopy.v].  The theorem is about the case in which the master
    answers every call, possibly with short writes. *)

From S2P Require Import Prelude SplayTree IntervalTree FileIO PosixFs Metadata MetaPaths LocalCopy Update.
#[local] Open Scope zfs_scope.
#[local] Open Scope Z_scope.

(** ** The procedures *)

Definition remote_reintegrate : proc unit := _ ← remote_call; mret ().
(** The size at the master. *)
Definition remote_getattr : proc Z := _ ← remote_call; m ← master; mret (Z.of_nat (length (mf_data m))).
Definition remote_setattr_size (size : Z) : proc unit :=
  _ ← remote_call; m ← master;
  set_master (MFile (resize (Z.to_nat size) 0 (mf_data m)) (u64 (mf_version m + 1))).
Definition remote_reintegrate_ver (diff : Z) : proc unit :=
  _ ← remote_call; m ← master; set_master (MFile (mf_data m) (u64 (mf_version m + diff))).

(** The loop over the modified intervals; the last result and [version_increase].
    Every round sends a byte. *)
Fixpoint reintegrate_loop (fuel : nat) (offset version_increase : Z) (slow : bool) : proc (Z * Z) :=
  match fuel with
  | O => fun _ => OutOfFuel
  | S fuel =>
      f ← file;
      if negb (offset <? lf_size f) then mret (ZFS_OK, version_increase)
      else
        '(t, o) ← lift (interval_tree_lookup (lf_modified f) offset);
        set_file (with_modified f t);;
        match o with
        | None => mret (ZFS_OK, version_increase)
        | Some p =>
            n ← lift (get p (it_splay t));
            let offset := if offset <? INTERVAL_START n then INTERVAL_START n else offset in
            let len := INTERVAL_END n - INTERVAL_START n in
            let count := if len <? ZFS_MAXDATA then len else ZFS_MAXDATA in
            r ← try (full_local_read_dentry offset (Z.to_nat count));
            match r with
            | inl r => mret (r, version_increase)
            | inr [] => mret (ZFS_OK, version_increase)
            | inr buf =>
                busy ← (if slow then pending_slow_reqs else mret false);
                if busy : bool then mret (ZFS_SLOW_BUSY, version_increase)
                else
                  w ← full_remote_write_dentry buf offset version_increase;
                  match w with
                  | inr (r, version_increase) => mret (r, version_increase)
                  | inl (O, version_increase) => mret (ZFS_OK, version_increase)
                  | inl (count, version_increase) =>
                      f ← file;
                      m ← lift (interval_tree_delete (lf_modified f) offset (u64 (offset + Z.of_nat count)));
                      set_file (with_modified f m);;
                      reintegrate_loop fuel (u64 (offset + Z.of_nat count)) version_increase slow
                  end
            end
        end
  end.

Definition no_intervals (t : interval_tree) : bool :=
  match interval_tree_min t with None => true | Some _ => false end.

(** Set the size at the master; whether this increased the version. *)
Definition reintegrate_size : proc Z :=
  r ← try remote_getattr;
  f ← file;
  match r with
  | inl _ => mret 0
  | inr size =>
      if lf_size f =? size then mret 0
      else
        r ← try (remote_setattr_size (lf_size f));
        mret (match r with inl _ => 0 | inr _ => 1 end)
  end.

Definition reintegrate_versions (version_increase : Z) : proc unit :=
  f ← file;
  let diff := u64 (lf_local f - u64 (lf_master f + version_increase)) in
  version_increase ←
    (if (0 <? diff) && no_intervals (lf_modified f) then
       r ← try (remote_reintegrate_ver diff);
       mret (match r with inl _ => version_increase | inr _ => u64 (version_increase + diff) end)
     else _ ← try remote_reintegrate; mret version_increase);
  if version_increase =? 0 then mret ()
  else
    f ← file;
    let m := u64 (lf_master f + version_increase) in
    let l :=
      if no_intervals (lf_modified f) then (if lf_local f <? m then m else lf_local f)
      else (if lf_local f <=? m then u64 (m + 1) else lf_local f) in
    set_file (with_versions f l m);;
    r ← flush_metadata;
    mark_if (negb r).

Definition reintegrate_file_blocks (slow : bool) : proc unit :=
  r ← try remote_reintegrate;
  match r with
  | inl r => if r =? ZFS_BUSY then mret () else fail r
  | inr _ =>
      f ← file;
      set_file (with_reintegrating f true);;
      '(r, version_increase) ← reintegrate_loop (S (S (Z.to_nat (lf_size f)))) 0 0 slow;
      more ← reintegrate_size;
      reintegrate_versions (u64 (version_increase + more));;
      f ← file;
      set_file (with_reintegrating f false);;
      (if it_deleted (lf_modified f) then r ← flush_interval_tree METADATA_TYPE_MODIFIED; mark_if (negb r)
       else mret ());;
      if r =? ZFS_OK then mret () else fail r
  end.

(** ** Writing to the master *)

Lemma wp_remote_write offset data s (Q : sys -> Z + nat -> Prop) : tame s -> (0 < length data)%nat ->
  (forall s' n, (0 < n <= length data)%nat -> tame s' -> s_file s' = s_file s -> s_pending s' = s_pending s ->
    s_master s' = MFile (write_at (mf_data (s_master s)) (Z.to_nat offset) (take n data)) (u64 (mf_version (s_master s) + 1)) ->
    Q s' (inr n)) ->
  wp (remote_write offset data) s Q.
Proof.
  intros Ht Hd H. unfold remote_write. apply wp_bind, wp_remote_call; [done|]. intros s1 o (F1 & M1 & P1 & T1) Hk _.
  apply wp_bind, wp_master, wp_bind. rewrite M1. apply wp_set_master. intros s2 F2 M2 N2 I2 P2. apply wp_ret, H; try congruence.
  - by apply Hk.
  - unfold tame, no_faults, calm. rewrite N2, I2. apply T1.
Qed.

(** The version that the master's file had, and how much it grew. *)
Definition counted (b : Z) (m : mfile) (version_increase : Z) : Prop := mf_version m = u64 (b + version_increase).

Lemma counted_step b m d vi : counted b m vi -> counted b (MFile d (u64 (mf_version m + 1))) (u64 (vi + 1)).
Proof.
  unfold counted. cbn. intros ->. unfold wrap. rewrite Zplus_mod_idemp_l, Zplus_mod_idemp_r. f_equal. lia.
Qed.

Lemma remote_write_loop_spec b d0 fuel : forall total buffer offset vi s,
  tame s -> 0 <= offset -> offset + Z.of_nat (length buffer) < 2 ^ 64 -> (length buffer - total < fuel)%nat ->
  (total <= length buffer)%nat -> counted b (s_master s) vi ->
  mf_data (s_master s) = write_at d0 (Z.to_nat offset) (take total buffer) ->
  wp (remote_write_loop fuel total buffer offset vi) s (fun s' r => exists vi', r = inr (inl (length buffer, vi')) /\
    tame s' /\ s_file s' = s_file s /\ s_pending s' = s_pending s /\ counted b (s_master s') vi' /\
    mf_data (s_master s') = write_at d0 (Z.to_nat offset) buffer).
Proof.
  induction fuel as [|fuel IH]; intros total buffer offset vi s Ht Ho Hc Hf Hl Hv Hd; [lia|].
  cbn [remote_write_loop]. case_bool_decide as Hlt.
  - rewrite (wrap_small 64 (offset + _)) by lia. apply wp_bind, wp_try, wp_remote_write; [done|rewrite length_drop; lia|]. rewrite length_drop.
    intros s1 n Hn T1 F1 P1 M1. destruct n as [|n]; [lia|]. eapply wp_mono; [apply (IH (total + S n)%nat)|]; try done.
    + lia.
    + lia.
    + rewrite M1. by apply counted_step.
    + rewrite M1, Hd. cbn [mf_data]. rewrite Z2Nat.inj_add, Nat2Z.id by lia.
      assert (length (take total buffer) = total) as L by (rewrite length_take; lia).
      pose proof (write_at_concat d0 (Z.to_nat offset) (take total buffer) (take (S n) (drop total buffer))) as W.
      rewrite L in W. rewrite W, take_take_drop. done.
    + intros s2 r (vi' & -> & T2 & F2 & P2 & V2 & D2). exists vi'. split_and!; congruence.
  - apply wp_ret. exists vi. replace total with (length buffer) by lia. split_and!; try done.
    rewrite Hd. by rewrite take_ge by lia.
Qed.

Lemma wp_full_remote_write b buffer offset vi s (Q : sys -> Z + (nat * Z + Z * Z) -> Prop) :
  tame s -> 0 <= offset -> offset + Z.of_nat (length buffer) < 2 ^ 64 -> (0 < length buffer)%nat ->
  counted b (s_master s) vi ->
  (forall s' vi', tame s' -> s_file s' = s_file s -> s_pending s' = s_pending s -> counted b (s_master s') vi' ->
    mf_data (s_master s') = write_at (mf_data (s_master s)) (Z.to_nat offset) buffer ->
    Q s' (inr (inl (length buffer, vi')))) ->
  wp (full_remote_write_dentry buffer offset vi) s Q.
Proof.
  intros Ht Ho Hc Hl Hv H. unfold full_remote_write_dentry. cbn [remote_write_loop]. rewrite bool_decide_true by done.
  rewrite drop_0. cbn [Z.of_nat]. rewrite Z.add_0_r, (wrap_small 64 offset) by lia.
  apply wp_bind, wp_try, wp_remote_write; [done|done|]. intros s1 n Hn T1 F1 P1 M1. destruct n as [|n]; [lia|].
  eapply wp_mono; [apply (remote_write_loop_spec b (mf_data (s_master s)))|]; try done; [lia|lia| | |].
  - rewrite M1. by apply counted_step.
  - by rewrite M1.
  - intros s2 r (vi' & -> & T2 & F2 & P2 & V2 & D2). apply H; congruence.
Qed.

(** ** The loop over the modified intervals *)

Section loop.
Context (f0 : lfile) (d0 : list Z) (b : Z).
Context (Hf0 : lf_ok f0) (Hsmall : lf_size f0 < 2 ^ 31).

(** The modified bytes below [off] were sent. *)
Record sent (off vi : Z) (s : sys) : Prop := {
  se_tame : tame s;
  se_file : exists m, s_file s = with_modified f0 m /\ it_ok m /\ forall x, points m x <-> points (lf_modified f0) x /\ off <= x;
  se_counted : counted b (s_master s) vi;
  se_length : (length d0 <= length (mf_data (s_master s)))%nat;
  se_new : forall x, x < off -> points (lf_modified f0) x -> byte (mf_data (s_master s)) x = byte (lf_data f0) x;
  se_old : forall x, x < Z.of_nat (length d0) -> ~ (x < off /\ points (lf_modified f0) x) ->
    byte (mf_data (s_master s)) x = byte d0 x
}.

Lemma sent_end off vi s : sent off vi s -> (forall x, ~ points (lf_modified (s_file s)) x) -> sent (lf_size f0) vi s.
Proof.
  intros [Ht (m & Ef & Hm1 & Hm2) Hc Hl Hn Ho] Hp. rewrite Ef in Hp. cbn in Hp.
  assert (forall x, points (lf_modified f0) x -> x < off) as Hlow.
  { intros x Hx. destruct (Z_lt_le_dec x off); [done|]. destruct (Hp x). by apply Hm2. }
  assert (forall x, points (lf_modified f0) x -> 0 <= x < lf_size f0) as Hin by apply Hf0.
  constructor; try done.
  - exists m. split_and!; try done. intros x. split; [by intros ?%Hp|]. intros [?%Hin ?]. lia.
  - intros x _ Hx. apply Hn; auto.
  - intros x Hx Hnot. apply Ho; [done|]. intros [? Hx2]. apply Hnot. split; [by apply Hin|done].
Qed.

Lemma from_none off m : it_ok m -> (forall x, points m x -> off <= x) ->
  head (from off (contents (it_splay m))) = None -> forall x, ~ points m x.
Proof.
  intros Hm Hge Hh x (n & Hn & Hx). specialize (Hge x ltac:(by exists n)).
  assert (n ∈ from off (contents (it_splay m))) as Hin.
  { unfold from. apply list_elem_of_filter. split; [lia|done]. }
  destruct (from off (contents (it_splay m))); [by apply not_elem_of_nil in Hin|done].
Qed.

Lemma from_some off m n : it_ok m -> (forall x, points m x -> off <= x) ->
  head (from off (contents (it_splay m))) = Some n ->
  n ∈ contents (it_splay m) /\ off <= node_key n < node_value n /\ forall x, node_key n <= x < node_value n -> points m x.
Proof.
  intros Hm Hge Hh. assert (n ∈ contents (it_splay m)) as Hn.
  { destruct (from off (contents (it_splay m))) as [|n' l] eqn:E; [done|]. injection Hh as ->.
    assert (n ∈ from off (contents (it_splay m))) as Hin by (rewrite E; set_solver).
    unfold from in Hin. by apply list_elem_of_filter in Hin as [_ ?]. }
  pose proof (separated_elem _ _ (it_separated _ Hm) Hn) as Hlt.
  assert (forall x, node_key n <= x < node_value n -> points m x) as Hx by (intros x Hx; by exists n).
  split_and!; [done| |done|done]. apply Hge, Hx. lia.
Qed.

Lemma from_first off m n x : it_ok m -> (forall x, points m x -> off <= x) ->
  head (from off (contents (it_splay m))) = Some n -> points m x -> node_key n <= x.
Proof.
  intros Hm Hge Hh Hx. specialize (Hge x Hx). destruct Hx as (n' & Hn' & Hx).
  assert (n' ∈ from off (contents (it_splay m))) as Hin. { apply list_elem_of_filter. split; [lia|done]. }
  destruct (from_suffix off _ (it_separated _ Hm)) as [l1 El]. pose proof (it_separated _ Hm) as Hs. rewrite El in Hs.
  apply separated_app in Hs as (_ & Hs & _).
  destruct (from off (contents (it_splay m))) as [|n0 l]; [done|]. injection Hh as ->.
  apply separated_cons in Hs as (Hn & Hl & _). apply elem_of_cons in Hin as [-> |Hin]; [lia|].
  specialize (Hl n' Hin). lia.
Qed.

(** One interval: the piece [off, off + length buf) is sent. *)
Lemma sent_step off k vi vi' buf s s' : sent off vi s -> 0 <= off <= k -> (0 < length buf)%nat ->
  (forall x, k <= x < k + Z.of_nat (length buf) -> points (lf_modified f0) x) ->
  (forall x, points (lf_modified f0) x -> off <= x -> k <= x) ->
  buf = read_at (lf_data f0) (Z.to_nat k) (length buf) ->
  mf_data (s_master s') = write_at (mf_data (s_master s)) (Z.to_nat k) buf -> counted b (s_master s') vi' -> tame s' ->
  (exists m, s_file s' = with_modified f0 m /\ it_ok m /\ forall x, points m x <-> points (lf_modified f0) x /\ k + Z.of_nat (length buf) <= x) ->
  sent (k + Z.of_nat (length buf)) vi' s'.
Proof.
  intros [Ht _ Hc Hl Hn Ho] Hk Hpos Hin Hfirst Hbuf Hd Hv Ht' Hm. constructor; try done.
  - rewrite Hd, length_write_max. lia.
  - intros x Hx Hp. rewrite Hd. destruct (Z_lt_le_dec x k) as [Hxk|Hxk].
    + assert (x < off) as Hxo. { destruct (Z_lt_le_dec x off); [done|]. specialize (Hfirst x Hp ltac:(lia)). lia. }
      destruct (Z_lt_le_dec x (Z.of_nat (length (mf_data (s_master s))))) as [Hlen|Hlen].
      * rewrite byte_write_outside by lia. by apply Hn.
      * specialize (Hn x Hxo Hp). unfold byte in Hn. apply (lo_modified_in _ Hf0) in Hp as Hp'.
        rewrite (lo_size _ Hf0) in Hp'. rewrite (proj2 (Z.leb_le _ _)) in Hn by lia.
        rewrite lookup_ge_None_2 in Hn by lia. symmetry in Hn. apply lookup_ge_None in Hn. lia.
    + rewrite byte_write_inside by lia. rewrite Hbuf. unfold byte, read_at. rewrite (proj2 (Z.leb_le _ _)) by lia.
      rewrite lookup_take_lt by lia. rewrite lookup_drop. f_equal. lia.
  - intros x Hx Hnot. rewrite Hd. destruct (Z_lt_le_dec x 0) as [Hneg|Hneg].
    { unfold byte. by rewrite (proj2 (Z.leb_gt _ _)) by lia. }
    assert (x < k \/ k + Z.of_nat (length buf) <= x) as Hout.
    { destruct (Z_lt_le_dec x k); [by left|]. destruct (Z_lt_le_dec x (k + Z.of_nat (length buf))); [|by right].
      destruct Hnot. split; [lia|]. apply Hin. lia. }
    rewrite byte_write_outside by lia. apply Ho; [done|]. intros [? ?]. apply Hnot. split; [lia|done].
Qed.

Lemma reintegrate_loop_ok fuel : forall off vi s, sent off vi s -> 0 <= off -> Z.max 0 (lf_size f0 - off) < Z.of_nat fuel ->
  wp (reintegrate_loop fuel off vi false) s (fun s' r => exists vi', r = inr (ZFS_OK, vi') /\ sent (lf_size f0) vi' s').
Proof.
  induction fuel as [|fuel IH]; intros off vi s Hs Hoff Hf; [lia|].
  pose proof Hs as [Ht (m & Ef & Hm1 & Hm2) Hc _ _ _]. pose proof (lo_size _ Hf0) as Hsize.
  assert (forall x, points (lf_modified f0) x -> 0 <= x < lf_size f0) as Hin0 by apply Hf0.
  cbn [reintegrate_loop]. apply wp_bind, wp_file. rewrite Ef. cbn [lf_size with_modified].
  destruct (Z.ltb_spec off (lf_size f0)) as [Hlt|Hge]; cbn [negb].
  2: { apply wp_ret. exists vi. split; [done|]. apply (sent_end off); [done|]. rewrite Ef. cbn. intros x [Hx%Hin0 ?]%Hm2. lia. }
  cbn [lf_modified with_modified].
  destruct (interval_tree_lookup_spec m off Hm1) as (sp & El & Hsp & Ec).
  destruct (splayed_ok m sp Hm1 Hsp Ec) as [Hm1' Hm2'].
  apply wp_bind. eapply wp_lift; [exact El|]. cbn beta iota. apply wp_bind, wp_set_file. intros s1 E1 K1.
  pose proof (same_env_kept _ _ Ht K1) as (M1 & P1 & T1).
  change (with_modified (with_modified f0 m) (with_splay m sp)) with (with_modified f0 (with_splay m sp)) in E1.
  assert (sent off vi s1) as Hs1.
  { destruct Hs. constructor; rewrite ?M1; try done. exists (with_splay m sp). split_and!; [done|done|]. intros x. by rewrite Hm2'. }
  assert (forall x, points m x -> off <= x) as Hge by (intros x Hx; apply Hm2 in Hx; lia).
  destruct (head (from off (contents (it_splay m)))) as [n|] eqn:Eh; cbn [fmap option_fmap option_map].
  2: { apply wp_ret. exists vi. split; [done|]. apply (sent_end off); [done|]. rewrite E1. cbn. intros x. rewrite Hm2'.
       by apply (from_none off). }
  destruct (from_some off m n Hm1 Hge Eh) as (Hn & Hk & Hpts).
  assert (node_value n <= lf_size f0) as Hend. { destruct (Hm2 (node_value n - 1)) as [[Hx%Hin0 _] _]; [apply Hpts|]; lia. }
  apply wp_bind. eapply (wp_lift _ n); [apply get_node; [exact Hsp|cbn; by rewrite Ec]|].
  unfold INTERVAL_START, INTERVAL_END. cbv zeta.
  assert ((if off <? node_key n then node_key n else off) = node_key n) as ->. { destruct (Z.ltb_spec off (node_key n)); lia. }
  set (count := if node_value n - node_key n <? ZFS_MAXDATA then _ else _).
  assert (0 < count <= node_value n - node_key n) as Hcount. { unfold count, ZFS_MAXDATA. case_match; lia. }
  apply wp_bind, wp_try. change full_local_read_dentry with (fun o c => full_local_read o c None). cbn beta.
  apply wp_full_local_read; [done|lia|lia|by left|]. intros s2 (F2 & M2 & P2 & T2). rewrite E1 in F2 |- *.
  cbn [lf_data with_modified]. set (buf := read_at (lf_data f0) (Z.to_nat (node_key n)) (Z.to_nat count)).
  assert (length buf = Z.to_nat count) as Lbuf. { unfold buf. rewrite length_read. lia. }
  destruct buf as [|z l] eqn:Ebuf; [cbn in Lbuf; lia|]. rewrite <-Ebuf in *. apply wp_bind, wp_ret, wp_bind.
  apply (wp_full_remote_write b); [done|lia|lia|lia|rewrite M2, M1; done|]. intros s3 vi' T3 F3 P3 V3 D3.
  rewrite Lbuf. destruct (Z.to_nat count) as [|c] eqn:Ec'; [lia|]. rewrite <-Ec'. apply wp_bind, wp_file. rewrite F3, F2.
  cbn [lf_modified with_modified]. rewrite wrap_small by lia. rewrite Z2Nat.id by lia.
  destruct (interval_tree_delete_spec (with_splay m sp) (node_key n) (node_key n + count) Hm1') as (m' & Em & Hm'1 & Hm'2 & _); [lia|].
  apply wp_bind. eapply wp_lift; [exact Em|]. apply wp_bind, wp_set_file. intros s4 E4 K4.
  pose proof (same_env_kept _ _ T3 K4) as (M4 & P4 & T4).
  apply IH; [|lia|lia]. replace count with (Z.of_nat (length buf)) by lia.
  apply (sent_step off (node_key n) vi vi' buf s1 s4); try done.
  - lia.
  - lia.
  - intros x Hx. apply (Hm2 x), Hpts. lia.
  - intros x Hx Hxo. apply (from_first off m n); [done|done|done|]. by apply Hm2.
  - rewrite Lbuf. fold buf. by rewrite Ebuf.
  - rewrite M4, D3, M2. done.
  - rewrite M4. done.
  - exists m'. split_and!; [|done|].
    + rewrite E4. done.
    + intros x. rewrite Hm'2, Hm2', Hm2.
      assert (points (lf_modified f0) x -> off <= x -> node_key n <= x) as Hfirst.
      { intros Hx Hxo. apply (from_first off m n); [done|done|done|]. by apply Hm2. }
      split; [intros [[Hx Hxo] Hno]; specialize (Hfirst Hx Hxo)|intros [Hx Hxo]]; (split; [tauto || (split; [done|lia])|lia]).
Qed.
End loop.

(** ** The size and the versions *)

Lemma wrap_add_add b vi x : u64 (b + u64 (vi + x)) = u64 (u64 (b + vi) + x).
Proof. unfold wrap. rewrite Zplus_mod_idemp_r, Zplus_mod_idemp_l. f_equal. lia. Qed.

Lemma wrap_add_diff v l : is_u64 l -> u64 (v + u64 (l - v)) = l.
Proof.
  intros Hl. unfold wrap. rewrite Zplus_mod_idemp_r. replace (v + (l - v)) with l by lia. by apply wrap_small.
Qed.

Lemma wp_remote_reintegrate s (Q : sys -> Z + unit -> Prop) : tame s ->
  (forall s', steady s s' -> Q s' (inr ())) -> wp remote_reintegrate s Q.
Proof. intros Ht H. apply wp_bind, wp_remote_call; [done|]. intros s' o Hs _ _. by apply wp_ret, H. Qed.

Lemma wp_reintegrate_size b vi s (Q : sys -> Z + Z -> Prop) : tame s -> 0 <= lf_size (s_file s) -> counted b (s_master s) vi ->
  (forall s' more, tame s' -> s_file s' = s_file s -> counted b (s_master s') (u64 (vi + more)) ->
    mf_data (s_master s') = resize (Z.to_nat (lf_size (s_file s))) 0 (mf_data (s_master s)) -> Q s' (inr more)) ->
  wp reintegrate_size s Q.
Proof.
  intros Ht Hsz Hc H. unfold reintegrate_size, remote_getattr, remote_setattr_size.
  apply wp_bind, wp_try, wp_bind, wp_remote_call; [done|]. intros s1 o (F1 & M1 & P1 & T1) _ _.
  apply wp_bind, wp_master, wp_ret, wp_bind, wp_file. rewrite M1, F1.
  destruct (Z.eqb_spec (lf_size (s_file s)) (Z.of_nat (length (mf_data (s_master s))))) as [E|E].
  - apply wp_ret, H; try done.
    + unfold counted in *. by rewrite M1, wrap_add_add, Z.add_0_r, (wrap_small 64 (u64 _)) by (apply wrap_range; lia).
    + by rewrite M1, E, Nat2Z.id, resize_all.
  - apply wp_bind, wp_try, wp_bind, wp_remote_call; [done|]. intros s2 o2 (F2 & M2 & P2 & T2) _ _.
    apply wp_bind, wp_master, wp_set_master. intros s3 F3 M3 N3 I3 P3. apply wp_ret, H.
    + unfold tame, no_faults, calm. rewrite N3, I3. apply T2.
    + congruence.
    + rewrite M3. apply counted_step. by rewrite M2, M1.
    + rewrite M3, M2, M1. done.
Qed.

Lemma no_intervals_true t : it_ok t -> (forall x, ~ points t x) -> no_intervals t = true.
Proof.
  intros Hok Hp. unfold no_intervals, interval_tree_min. by rewrite splay_tree_min_spec, (no_points_empty t Hok Hp).
Qed.

(** When everything was sent, the master's file gets the local version. *)
Lemma wp_reintegrate_versions b vi s (Q : sys -> Z + unit -> Prop) : tame s -> lf_ok (s_file s) ->
  (forall x, ~ points (lf_modified (s_file s)) x) -> counted b (s_master s) vi -> lf_master (s_file s) = b ->
  is_u64 b -> is_u64 (lf_local (s_file s)) ->
  (forall s', tame s' -> core (s_file s') = core (with_versions (s_file s) (lf_local (s_file s)) (lf_local (s_file s))) ->
    s_master s' = MFile (mf_data (s_master s)) (lf_local (s_file s)) -> Q s' (inr ())) ->
  wp (reintegrate_versions vi) s Q.
Proof.
  intros Ht Hok Hp Hc Hb Hb64 Hl64 H. unfold reintegrate_versions. apply wp_bind, wp_file.
  rewrite (no_intervals_true _ (lo_modified _ Hok) Hp), andb_true_r, Hb. cbv zeta.
  set (L := lf_local (s_file s)) in *. set (diff := u64 (L - u64 (b + vi))).
  assert (forall s1 V, tame s1 -> s_file s1 = s_file s -> s_master s1 = MFile (mf_data (s_master s)) L -> u64 (b + V) = L ->
    wp (if V =? 0 then mret ()
        else
          f ← file;
          set_file (with_versions f
            (if no_intervals (lf_modified f) then
               (if lf_local f <? u64 (lf_master f + V) then u64 (lf_master f + V) else lf_local f)
             else (if lf_local f <=? u64 (lf_master f + V) then u64 (u64 (lf_master f + V) + 1) else lf_local f))
            (u64 (lf_master f + V)));;
          r ← flush_metadata;
          mark_if (negb r)) s1 Q) as Hend.
  { intros s1 V T1 F1 M1 EV. destruct (Z.eqb_spec V 0) as [-> |HV].
    - rewrite Z.add_0_r in EV. unfold is_u64 in Hb64. rewrite wrap_small in EV by lia.
      apply wp_ret, H; [done| |done]. rewrite F1. unfold core. cbn. rewrite (lo_version _ Hok). fold L. by rewrite Hb, EV.
    - apply wp_bind, wp_file. rewrite F1. fold L. rewrite (no_intervals_true _ (lo_modified _ Hok) Hp), Hb, EV, Z.ltb_irrefl.
      apply wp_bind, wp_set_file. intros s2 E2 K2. pose proof (same_env_kept _ _ T1 K2) as (M2 & P2 & T2).
      apply wp_bind, wp_store. intros s3 r E3 K3. pose proof (same_env_kept _ _ T2 K3) as (M3 & P3 & T3).
      apply wp_mark. intros s4 [E4 K4]. pose proof (same_env_kept _ _ T3 K4) as (M4 & P4 & T4).
      apply H; [done|by rewrite E4, E3, E2|congruence]. }
  unfold counted in Hc. apply wp_bind. destruct (Z.ltb_spec 0 diff) as [Hd|Hd].
  - apply wp_bind, wp_try. unfold remote_reintegrate_ver. apply wp_bind, wp_remote_call; [done|].
    intros s1 o (F1 & M1 & P1 & T1) _ _. apply wp_bind, wp_master, wp_set_master. intros s2 F2 M2 N2 I2 P2. apply wp_ret.
    apply Hend; [|congruence| |].
    + unfold tame, no_faults, calm. rewrite N2, I2. apply T1.
    + rewrite M2, M1, Hc. f_equal. by apply wrap_add_diff.
    + rewrite wrap_add_add. by apply wrap_add_diff.
  - assert (0 <= diff) as Hd1 by (apply wrap_range; lia). assert (diff = 0) as Hd0 by lia.
    assert (u64 (b + vi) = L) as EL.
    { rewrite <-(wrap_add_diff (u64 (b + vi)) L Hl64). fold diff. rewrite Hd0, Z.add_0_r.
      symmetry. apply wrap_small, wrap_range. lia. }
    apply wp_bind, wp_try, wp_remote_reintegrate; [done|]. intros s1 (F1 & M1 & P1 & T1). apply wp_ret, Hend; try done.
    rewrite M1. destruct (s_master s) as [md mv]. cbn in *. by rewrite Hc, EL.
Qed.

(** ** The whole reintegration *)

(** [f'] and [m'] are [f] and [m] after the local changes were reintegrated. *)
Record reintegrated (f f' : lfile) (m m' : mfile) : Prop := {
  ri_ok : lf_ok f';
  ri_data : lf_data f' = lf_data f /\ length (mf_data m') = length (lf_data f);
  ri_versions : mf_version m' = lf_local f /\ lf_master f' = lf_local f /\ lf_local f' = lf_local f;
  ri_updated : forall x, points (lf_updated f') x <-> points (lf_updated f) x;
  ri_unmodified : forall x, ~ points (lf_modified f') x;
  ri_sent : forall x, points (lf_modified f) x -> byte (mf_data m') x = byte (lf_data f) x;
  ri_kept : forall x, ~ points (lf_modified f) x -> x < Z.of_nat (length (mf_data m)) -> x < lf_size f ->
    byte (mf_data m') x = byte (mf_data m) x
}.

Lemma with_reintegrating_ok f r : lf_ok f -> lf_ok (with_reintegrating f r).
Proof. intros [? ? ? ? ? ?]. by constructor. Qed.

(** What was sent, with the size and the versions set. *)
Lemma sent_reintegrated f m vi s s' f' : lf_ok f -> sent (with_reintegrating f true) (mf_data m) (mf_version m) (lf_size f) vi s ->
  mf_data s' = resize (Z.to_nat (lf_size f)) 0 (mf_data (s_master s)) -> mf_version s' = lf_local f ->
  lf_ok f' -> lf_data f' = lf_data f -> lf_master f' = lf_local f -> lf_local f' = lf_local f ->
  (forall x, points (lf_updated f') x <-> points (lf_updated f) x) -> (forall x, ~ points (lf_modified f') x) ->
  reintegrated f f' m s'.
Proof.
  intros Hok [_ _ _ Hlen Hn Ho] Hd Hv Hok' Hf1 Hf2 Hf3 Hu Hm. cbn in Hn, Ho. pose proof (lo_size _ Hok) as Hsz.
  constructor; try done.
  - split; [done|]. rewrite Hd, length_resize. lia.
  - intros x Hx. pose proof (lo_modified_in _ Hok x Hx) as Hin. specialize (Hn x (proj2 Hin) Hx). rewrite Hd.
    destruct (Z_lt_le_dec x (Z.of_nat (length (mf_data (s_master s))))) as [Hl|Hl]; [by rewrite byte_resize by lia|].
    unfold byte in Hn. rewrite (proj2 (Z.leb_le _ _)), lookup_ge_None_2 in Hn by lia.
    symmetry in Hn. apply lookup_ge_None in Hn. lia.
  - intros x Hx Hx1 Hx2. rewrite Hd. destruct (Z_lt_le_dec x 0) as [Hneg|Hneg].
    { unfold byte. by rewrite (proj2 (Z.leb_gt _ _)) by lia. }
    rewrite byte_resize by lia. apply Ho; [done|]. tauto.
Qed.

(** C4. Reintegration: when the master answers every call, however short the writes
    are, [reintegrate_file_blocks] gives the master's file the local size, the local
    bytes of all modified intervals and the local version, keeps its other bytes, and
    leaves no interval of the local file marked as modified. *)
Theorem reintegrate_file_blocks_ok s : tame s -> lf_ok (s_file s) -> lf_size (s_file s) < 2 ^ 31 ->
  lf_master (s_file s) = mf_version (s_master s) -> is_u64 (lf_master (s_file s)) -> is_u64 (lf_local (s_file s)) ->
  exists s', reintegrate_file_blocks false s = Ok (s', inr ()) /\
    reintegrated (s_file s) (s_file s') (s_master s) (s_master s').
Proof.
  intros Ht Hok Hsm Hb Hb64 Hl64. apply wp_elim. unfold reintegrate_file_blocks.
  apply wp_bind, wp_try, wp_remote_reintegrate; [done|]. intros s1 (F1 & M1 & P1 & T1).
  apply wp_bind, wp_file. rewrite F1. apply wp_bind, wp_set_file. intros s2 E2 K2.
  pose proof (same_env_kept _ _ T1 K2) as (M2 & P2 & T2). set (f := s_file s) in *.
  set (f0 := with_reintegrating f true) in *. assert (lf_ok f0) as Hok0 by (by apply with_reintegrating_ok).
  assert (0 <= lf_size f) as Hsz by (rewrite (lo_size _ Hok); lia).
  assert (sent f0 (mf_data (s_master s)) (mf_version (s_master s)) 0 0 s2) as Hs0.
  { constructor; rewrite ?M2, ?M1; try done.
    - exists (lf_modified f0). split_and!; [done|apply Hok0|]. intros x. pose proof (lo_modified_in _ Hok0 x). intuition lia.
    - unfold counted. rewrite Z.add_0_r, wrap_small; [done|]. unfold is_u64 in Hb64. lia.
    - intros x Hx Hp. apply (lo_modified_in _ Hok0) in Hp. lia. }
  apply wp_bind. eapply wp_mono; [apply (reintegrate_loop_ok f0 _ _ Hok0 Hsm _ 0 0 s2 Hs0); [lia|cbn; lia]|].
  intros s3 r (vi & -> & Hs3). cbn beta iota. pose proof Hs3 as [T3 (m & F3 & Hm1 & Hm2) C3 _ _ _].
  assert (forall x, ~ points m x) as Hm. { intros x [Hx%(lo_modified_in _ Hok0) ?]%Hm2. lia. }
  assert (lf_ok (with_modified f0 m)) as Hok3.
  { destruct Hok0. constructor; cbn; try done. intros x Hx. by destruct (Hm x). }
  apply wp_bind, (wp_reintegrate_size (mf_version (s_master s)) vi); [done|by rewrite F3|done|].
  intros s4 more T4 F4 C4 D4. rewrite F3 in F4, D4.
  apply wp_bind, (wp_reintegrate_versions (mf_version (s_master s))); rewrite ?F4; try done; [by rewrite <-Hb|].
  intros s5 T5 E5 M5. cbn [lf_local with_modified] in E5, M5.
  apply wp_bind, wp_file, wp_bind, wp_set_file. intros s6 E6 K6. pose proof (same_env_kept _ _ T5 K6) as (M6 & P6 & T6).
  assert (forall s7 t, s_master s7 = s_master s6 -> it_ok t -> (forall x, ~ points t x) ->
    core (s_file s7) = core (with_modified (s_file s6) t) ->
    (inr () : Z + unit) = inr () /\ reintegrated f (s_file s7) (s_master s) (s_master s7)) as Hend.
  { intros s7 t M7 Ht7 Hp7 E7. split; [done|].
    pose proof (core_eq _ _ E7) as (G1 & G2 & G3 & G4 & G5 & G6 & G7 & _).
    pose proof (core_eq _ _ E5) as (H1 & H2 & H3 & H4 & H5 & H6 & H7 & _).
    rewrite E6 in G1, G2, G3, G4, G5, G6, G7. cbn in G1, G2, G3, G4, G5, G6, G7, H1, H2, H3, H4, H5, H6, H7.
    rewrite H1 in G1. rewrite H2 in G2. rewrite H3 in G3. rewrite H4 in G4. rewrite H5 in G5. rewrite H6 in G6.
    apply (sent_reintegrated f (s_master s) vi s3); try done.
    - rewrite M7, M6, M5. exact D4.
    - by rewrite M7, M6, M5.
    - destruct Hok. constructor; rewrite ?G1, ?G2, ?G3, ?G4, ?G6, ?G7; try done. intros x Hx. by destruct (Hp7 x).
    - intros x. by rewrite G6.
    - by rewrite G7. }
  pose proof (core_eq _ _ E5) as (_ & _ & _ & _ & _ & _ & H7 & _). cbn in H7.
  assert (lf_modified (s_file s6) = m) as Em by (by rewrite E6).
  destruct (it_deleted _).
  - apply wp_bind, wp_bind, (wp_flush _ _ (lf_modified (s_file s6))); [by right|done|]. intros s7 r (M7 & _) E7.
    apply wp_mark. intros s8 [E8 (M8 & _)]. apply wp_ret. rewrite <-E8 in E7. destruct E7 as [E7|E7].
    + apply (Hend _ m); try done; [congruence|]. rewrite E7. unfold core. cbn. by rewrite Em.
    + apply (Hend _ (clear_deleted m)); try done; [congruence|by apply clear_deleted_ok|]. by rewrite E7, Em.
  - apply wp_bind, wp_ret, wp_ret. apply (Hend _ m); try done. unfold core. cbn. by rewrite Em.
Qed.

(** The sample file, and a master that takes one byte at a time. *)
Definition short_sys : sys :=
  Sys sample_file (MFile [1; 2; 3; 4; 5] 5) [Answer; AnswerShort 0; AnswerShort 0] [Short 1] [true; false] [] 0.

Lemma reintegrate_file_blocks_ok_witness :
  exists s', reintegrate_file_blocks false short_sys = Ok (s', inr ()) /\
    length (mf_data (s_master s')) = 6%nat /\ mf_version (s_master s') = 7 /\
    byte (mf_data (s_master s')) 3 = Some 9 /\ byte (mf_data (s_master s')) 2 = Some 3.
Proof.
  destruct (reintegrate_file_blocks_ok short_sys) as (s' & E & [_ [_ Hl] [Hv _] _ _ Hs Hk]).
  - split; repeat constructor; done.
  - apply sample_file_ok.
  - cbn. lia.
  - reflexivity.
  - unfold is_u64. cbn. lia.
  - unfold is_u64. cbn. lia.
  - destruct sample_trees as [_ [_ Hm]]. exists s'. split_and!; [exact E|exact Hl|exact Hv| |].
    + rewrite Hs; [reflexivity|]. apply Hm. lia.
    + rewrite Hk; [reflexivity| |cbn; lia|cbn; lia]. intros Hx. apply Hm in Hx. lia.
Defined.

(** A file of three bytes written once, with the version 6 after 5. *)
Definition written_once : sys :=
  Sys (LFile [7; 8; 9] 3 6 6 6 5 (tree_with [(0, 3)]) (tree_with [(0, 3)]) false false) (MFile [1; 2; 3] 5)
      [AnswerShort 0; AnswerShort 0] [] [] [] 0.

(** The version of the master's file can go back: three short writes take it from 5
    to 8, and because the difference of the local version 6 and 8 is computed in
    unsigned arithmetic, the last call sets it to 6, a version that the file already
    had with other contents. *)
Theorem reintegration_version_goes_back :
  exists s1 s2, reintegrate_loop 5 0 0 false written_once = Ok (s1, inr (ZFS_OK, 3)) /\
    mf_version (s_master s1) = 8 /\ reintegrate_versions 3 s1 = Ok (s2, inr ()) /\
    mf_version (s_master s2) = 6 /\ mf_data (s_master s2) = [7; 8; 9].
Proof.
  assert (match reintegrate_loop 5 0 0 false written_once with
    | Ok (s1, inr r) => r = (ZFS_OK, 3) /\ mf_version (s_master s1) = 8 /\
        match reintegrate_versions 3 s1 with
        | Ok (s2, inr _) => mf_version (s_master s2) = 6 /\ mf_data (s_master s2) = [7; 8; 9] | _ => False end
    | _ => False
    end) as H by (vm_compute; split_and!; reflexivity).
  destruct (reintegrate_loop 5 0 0 false written_once) as [[s1 [r|r]]| |]; try done. destruct H as (-> & Hv & H).
  exists s1. destruct (reintegrate_versions 3 s1) as [[s2 [r|[]]]| |]; try done. exists s2. by destruct H.
Qed.
